(* ===== verification/_CoqProject ===== *)
-Q . S2P
Prelude.v
CString.v
Sleeplock.v
Bio.v
BioSpec.v
Ide.v
Log.v
LogSpec.v
LogCrash.v
Printf.v
Rtc.v
Grep.v
Sh.v
ShRun.v
Pipe.v
Mmu.v
Umalloc.v
UmallocSpec.v
Spinlock.v
Kalloc.v
Vm.v
VmSpec.v
VmUser.v
VmAlloc.v
VmCopyout.v
VmTheorems.v
Proc.v
ProcSpec.v
Console.v
Kbd.v
Mp.v
Apic.v
Uart.v
BlockStore.v
LogStore.v
Fs.v
FsBlocks.v
FsInode.v
FsFile.v
FsDemo.v
FsWrite.v
FsTheorems.v
FsIcache.v
FsFree.v
FsCheck.v
FsMounted.v
FsDir.v
FsPath.v
FsNames.v
FsTree.v
Mkfs.v
MkfsSpec.v
MkfsTheorems.v
FsBoot.v
FsCrash.v
File.v
FileSpec.v
FileRefs.v
Kernel.v
KernelSpec.v
Exec.v
Sysfile.v
SysfileSpec.v
SysfileCreate.v
Syscall.v
Trap.v
TrapSpec.v
Bootmain.v
Startup.v
User.v
Programs.v
