(* ===== verification/Prelude.v ===== *)
(** * xv6 (homework_2): a verification development

    The repository is a fork of xv6, a small Unix for the x86: a kernel in C
    and a few user programs.  This library models the parts of it that are C
    code with a state of their own as executable Rocq definitions, translated
    function by function, and proves what each part promises to the parts that
    use it.

    ** How the code is modelled

    C integers are integers of [Z]; [u8], [u32], [i32] stand where the code
    wraps around.  Code with a state is a function of the monad [KM S] below,
    whose outcomes are [Done], [Panic] (the kernel's [panic], with its
    message), [Sleep] (the call blocks) and [Fault] (the C code would use an
    invalid index or pointer, or a loop ran out of fuel).  [wp m s Q] says that
    [m] returns from [s] in a state that satisfies [Q]: it excludes panics,
    faults, blocking and lack of fuel, so every theorem stated with it
    includes termination.

    Where processes or processors run together, a component has a step
    relation whose steps are the sections of code that run with the lock held
    (for the locks themselves: the single memory accesses), a predicate
    [reachable], and theorems about every reachable state.  A call that may
    sleep between two sections is as many steps, with those of others in
    between; a panic is a state that the theorems show is not reached.

    ** The parts, from the bottom up

    - [Prelude]: machine integers, the monad and its rules, slices of lists,
      little-endian words.
    - [CString] ([string.c], [ulib.c]): memory and string routines over a byte
      memory; [Printf] ([printf.c], [console.c]): formatted output.
    - [Spinlock] ([spinlock.c], [proc.c]) and [Sleeplock] ([sleeplock.c]):
      locks, each with an interleaving semantics.
    - [Bio], [BioSpec] ([bio.c], [memide.c]): the buffer cache; its invariant
      gives every block one current contents.  [Ide] ([ide.c]): the interrupt
      driven driver with its queue of requests, over a model of a drive whose
      commands succeed or fail.
    - [Log], [LogSpec], [LogCrash] ([log.c]): the write-ahead log; the disk
      writes of a commit are an explicit list, a crash keeps a prefix of it.
    - [BlockStore], [LogStore]: the classes [BlockStore], [TxStore], [TxOps]
      and [TxSystem] are what the file system uses of the layers below, with
      the laws it relies on; the log over the buffer cache is an instance.
    - [Fs], [FsBlocks], [FsInode], [FsFile], [FsWrite], [FsTheorems] ([fs.c]):
      the file system against that interface; [FsDemo] is a small disk on which
      the hypotheses of its theorems hold; [FsIcache], [FsDir], [FsPath] and
      [FsNames] go on to the inode cache with its reference counts, the
      directories as lists of entries, and path names.  [FsFree] has [itrunc],
      [iput] and [ialloc]; [FsCheck] the consistency of the whole disk and the
      abstract file system, a map from inode numbers to files, and [FsMounted]
      the refinement between the two; [FsTree] how the directory tree grows;
      [FsCrash] puts the file system, the log and the buffer cache together.
    - [Mkfs], [MkfsSpec], [MkfsTheorems] ([mkfs.c]): the host program that makes
      the first disk image; [FsBoot] ([proc.c], [main.c]): the file system's
      part of the boot, from the image to the first lookup.
    - [Pipe] ([pipe.c]); [File], [FileSpec], [FileRefs] ([file.c], [pipe.c]):
      open files over pipes and inodes, and their reference counts.
    - [Mmu] ([mmu.h], [memlayout.h]); [Kalloc] ([kalloc.c]); [Vm], [VmSpec],
      [VmUser], [VmAlloc], [VmCopyout], [VmTheorems] ([vm.c]): pages and page
      tables inside one byte memory; a page belongs to the free list, to an
      address space or to its user.
    - [Proc], [ProcSpec] ([proc.c]): the process table and its calls;
      [ProcSpec] splits [fork], [exit] and [wait] at the points where they give
      the table up.
    - [Kernel], [KernelSpec], [Syscall] ([syscall.c], [sysproc.c]), [Exec]
      ([exec.c]), [Sysfile], [SysfileSpec], [SysfileCreate] ([sysfile.c]):
      system calls over the state [kstate], the process table with the open
      files, the file system and the memory below it.
    - [Console], [Kbd] ([console.c], [kbd.c], [kbd.h]): the line discipline,
      the screen and the keyboard; [Uart] ([uart.c]): the serial port, with
      the whole of the console's interrupt handler; [Rtc] ([lapic.c]): the
      clock chip; [Apic] ([ioapic.c], [picirq.c], [lapic.c]): the interrupt
      controllers; [Mp] ([mp.c], [mp.h]): the firmware's processor tables.
    - [Trap], [TrapSpec] ([trap.c]): the descriptor table, and the dispatch of
      traps over the whole kernel and its devices.
    - [Bootmain] ([bootmain.c]): the boot loader over the drive's registers;
      [Startup] ([main.c]): the start of the other processors.
    - User programs: [Umalloc], [UmallocSpec] ([umalloc.c]), [Sh], [ShRun]
      ([sh.c]), [Grep] ([grep.c], [wc.c]).  [User] ([user.h], [ulib.c],
      [printf.c]): programs as interaction trees of system calls, and their
      runs; [Programs]: the shell's main loop, [init] and the other programs.

    ** What the theorems show

    - Crash safety: the commit of a transaction, and an operation on inodes
      through all layers, is all or nothing after a crash at any disk write and
      any number of crashes during recovery ([LogCrash], [FsCrash]).
    - Files: [writei], [itrunc], [iput] and [ialloc] refine operations on a map
      of files, and keep the disk consistent: no block is in two files, and no
      block is lost.  [readi], [fileread] and [filewrite] read and write the
      contents of a file as a list of bytes.
    - The disk from its making on: [mkfs] makes a consistent file system that
      meets the invariants the kernel's theorems assume, any disk with a valid
      log boots, and a file given to [mkfs] is read back after the boot.
    - Names: [namex] resolves a path as a walk through the directories of the
      disk does, and balances the reference counts of the inodes on its way;
      [dirlink] adds exactly one entry; the path given to [create] leads to the
      file it made, and every other path where it led before.
    - Traps: a killed process does not go back to user mode, an exception ends
      only the process that caused it, interrupts are acknowledged and wake
      who waits for them, and then the interrupted code goes on, yields, or, if
      it was killed, exits; the gates of the descriptor table are well formed.
    - Refinement of abstract behaviour: the buffer cache is a map from blocks
      to contents, the pipe a queue, the console a line editor on lists, the
      matcher of [grep] decides the language of its expression, the shell's
      parser inverts a printer and [runcmd] wires and orders the programs as
      the command says, the drive serves requests in order.
    - Memory: no page and no block of the user heap is handed out twice or
      lost; [fork]'s copy of an address space, growing and freeing one, and
      [copyout] touch exactly the pages they should.
    - Processes and locks: mutual exclusion, no panic in a processor that
      follows the protocol, no lost wakeups, unique pids, the scheduler's choice
      (a best priority; equal ones do not always take turns); open files live
      as long as they are held; system call arguments are checked.
    - Boot and user level: the boot loader loads the kernel's segments, every
      processor is started on a stack of its own; [init] starts a shell again
      whenever one ends, and the shell serves its lines until a fork fails
      or the input ends.
    - Error paths that lose something, where the code has them: three system
      calls within their reservations fill the log and panic, [dirlink] of a
      directory's own name hangs, [mkfs] makes a root with a hole.

    ** Fuel

    Loops that are not structural take fuel, as [nat].  A theorem about such a
    loop either states how much is enough (linear in the number of blocks,
    entries or characters the loop goes over, as in [malloc_correct] or
    [grep_correct]), or the operation computes its own bound from its
    arguments ([writei]: the number of blocks written; [parsecmd]: the length
    of the line) and the theorem shows that it suffices.  Waiting loops on
    hardware ([cmostime], [lapicinit], [waitdisk], [startothers]) have their
    fuel bounded by what the theorem assumes of the device.  User programs need
    none: their loops are iterations of interaction trees, and a run is a
    finite derivation.

    ** Not modelled

    Assembly ([entry.S], [swtch.S], [trapasm.S], [bootasm.S] and the like) and
    the register loads around it ([seginit], [switchuvm], [idtinit], the body
    of [sched]); [main] of [main.c], which calls the initialisation of each
    part; the [main] of [grep.c] and [wc.c]; [usertests.c], a test suite, and
    the thread examples, which the [Makefile] does not build.  User programs
    are proved against any answers of the kernel and not run on the model of
    the kernel.  The kernel's messages on its own error
    paths ([cprintf] in [allocuvm] and [exec]) have no effect in the
    models.  The file system is proved over the synchronous [iderw] of
    [memide.c]; [Ide] shows separately that the default driver serves requests
    in order, that a write reaches the drive and a read returns the drive's
    contents when the drive reports no error, and what happens when it does. *)

From Stdlib Require Export ZArith Lia.
From stdpp Require Export base numbers strings gmap list.

#[global] Open Scope Z_scope.

(** ** Machine integers

    C integers are integers of [Z]; every place where the C code wraps around
    says so with one of these functions. *)

Definition u8 (z : Z) : Z := z mod 2 ^ 8.
Definition u16 (z : Z) : Z := z mod 2 ^ 16.
Definition u32 (z : Z) : Z := z mod 2 ^ 32.
Definition i16 (z : Z) : Z := (z + 2 ^ 15) mod 2 ^ 16 - 2 ^ 15.
Definition i32 (z : Z) : Z := (z + 2 ^ 31) mod 2 ^ 32 - 2 ^ 31.

Definition is_byte (z : Z) : Prop := 0 <= z < 256.

Lemma u8_range z : 0 <= u8 z < 256.
Proof. unfold u8. apply Z.mod_pos_bound. lia. Qed.
Lemma u32_range z : 0 <= u32 z < 2 ^ 32.
Proof. unfold u32. apply Z.mod_pos_bound. lia. Qed.
Lemma i32_range z : - 2 ^ 31 <= i32 z < 2 ^ 31.
Proof. unfold i32. pose proof (Z.mod_pos_bound (z + 2 ^ 31) (2 ^ 32)). lia. Qed.
Lemma u8_id z : 0 <= z < 256 -> u8 z = z.
Proof. intros. unfold u8. apply Z.mod_small. lia. Qed.
Lemma u16_id z : 0 <= z < 2 ^ 16 -> u16 z = z.
Proof. intros. unfold u16. apply Z.mod_small. lia. Qed.
Lemma u32_id z : 0 <= z < 2 ^ 32 -> u32 z = z.
Proof. intros. unfold u32. apply Z.mod_small. lia. Qed.
Lemma i32_id z : - 2 ^ 31 <= z < 2 ^ 31 -> i32 z = z.
Proof. intros. unfold i32. rewrite Z.mod_small; lia. Qed.
Lemma u32_u32 z : u32 (u32 z) = u32 z.
Proof. apply u32_id, u32_range. Qed.
Lemma u32_add_l a b : u32 (u32 a + b) = u32 (a + b).
Proof. unfold u32. apply Zplus_mod_idemp_l. Qed.
Lemma u32_add_r a b : u32 (a + u32 b) = u32 (a + b).
Proof. unfold u32. apply Zplus_mod_idemp_r. Qed.
Lemma u32_sub_l a b : u32 (u32 a - b) = u32 (a - b).
Proof. unfold u32. apply Zminus_mod_idemp_l. Qed.
Lemma u32_sub_r a b : u32 (a - u32 b) = u32 (a - b).
Proof. unfold u32. apply Zminus_mod_idemp_r. Qed.
Lemma u32_i32 z : u32 (i32 z) = u32 z.
Proof.
  unfold u32, i32. rewrite Zminus_mod_idemp_l. f_equal. lia.
Qed.

(** Ranges and identities of the machine integers, for [auto with width] and
    [autorewrite with width]. *)
Create HintDb width.
#[export] Hint Resolve u8_range u32_range i32_range : width.
Create Rewrite HintDb width.
#[export] Hint Rewrite u32_u32 u32_add_l u32_add_r u32_sub_l u32_sub_r u32_i32 : width.

(** A 32-bit counter taken modulo a divisor of [2 ^ 32] is the unbounded
    counter taken modulo that divisor. *)
Lemma u32_mod_divide z k : 0 < k -> (k | 2 ^ 32) -> u32 z mod k = z mod k.
Proof. intros Hk Hd. unfold u32. by apply Z.mod_mod_divide. Qed.

(** ** Kernel computations

    A kernel function runs on a state [S].  It returns a value, panics, goes
    to sleep on a channel before returning, or does something C leaves
    undefined (an access outside an array, a null pointer, a loop that never
    ends). *)

Inductive outcome (S A : Type) : Type :=
| Done (a : A) (s : S)
| Panic (msg : string)
| Sleep (chan : string)
| Fault (msg : string).
Arguments Done {_ _} _ _.
Arguments Panic {_ _} _.
Arguments Sleep {_ _} _.
Arguments Fault {_ _} _.

Definition KM (S A : Type) : Type := S -> outcome S A.

#[global] Instance km_ret {S} : MRet (KM S) := fun A a s => Done a s.
#[global] Instance km_bind {S} : MBind (KM S) := fun A B f m s =>
  match m s with
  | Done a s' => f a s'
  | Panic e => Panic e
  | Sleep c => Sleep c
  | Fault e => Fault e
  end.

Definition kget {S} : KM S S := fun s => Done s s.
Definition kput {S} (s : S) : KM S unit := fun _ => Done tt s.
Definition kgets {S A} (f : S -> A) : KM S A := fun s => Done (f s) s.
Definition kmodify {S} (f : S -> S) : KM S unit := fun s => Done tt (f s).
Definition panic {S A} (msg : string) : KM S A := fun _ => Panic msg.
Definition ksleep {S A} (chan : string) : KM S A := fun _ => Sleep chan.
Definition fault {S A} (msg : string) : KM S A := fun _ => Fault msg.

(** [for(i = i0; i < i0 + n; i++) body(i)] *)
Fixpoint kfor {S} (i0 n : nat) (body : nat -> KM S unit) : KM S unit :=
  match n with
  | O => mret tt
  | Datatypes.S n => body i0;; kfor (Datatypes.S i0) n body
  end.

(** Run a computation of a component inside the state of its client. *)
Definition zoom {S T A} (sel : T -> S) (upd : S -> T -> T) (m : KM S A) : KM T A :=
  fun t =>
    match m (sel t) with
    | Done a s => Done a (upd s t)
    | Panic e => Panic e
    | Sleep c => Sleep c
    | Fault e => Fault e
    end.

(** Total correctness: from [s] the computation returns, with a value and a
    state that satisfy [Q]. *)
Definition wp {S A} (m : KM S A) (s : S) (Q : A -> S -> Prop) : Prop :=
  match m s with Done a s' => Q a s' | _ => False end.

Lemma bind_done {S A B} (m : KM S A) (f : A -> KM S B) s a s' : m s = Done a s' -> (m ≫= f) s = f a s'.
Proof. unfold mbind, km_bind. by intros ->. Qed.
Lemma bind_done_inv {S A B} (m : KM S A) (f : A -> KM S B) s b s' : (m ≫= f) s = Done b s' -> exists a s1, m s = Done a s1 /\ f a s1 = Done b s'.
Proof. unfold mbind, km_bind. destruct (m s); naive_solver. Qed.

Section wp_rules.
Context {S : Type}.

Lemma wp_ret {A} (a : A) (s : S) Q : Q a s -> wp (mret a) s Q.
Proof. done. Qed.
Lemma wp_bind {A B} (m : KM S A) (f : A -> KM S B) s Q :
  wp m s (fun a s' => wp (f a) s' Q) -> wp (m ≫= f) s Q.
Proof. unfold wp, mbind, km_bind. by destruct (m s). Qed.
Lemma wp_bind_inv {A B} (m : KM S A) (f : A -> KM S B) s Q :
  wp (m ≫= f) s Q -> wp m s (fun a s' => wp (f a) s' Q).
Proof. unfold wp, mbind, km_bind. by destruct (m s). Qed.
Lemma wp_mono {A} (m : KM S A) s (P Q : A -> S -> Prop) :
  wp m s P -> (forall a s', P a s' -> Q a s') -> wp m s Q.
Proof. unfold wp. destruct (m s); naive_solver. Qed.
Lemma wp_and {A} (m : KM S A) s (P Q : A -> S -> Prop) :
  wp m s P -> wp m s Q -> wp m s (fun a s' => P a s' /\ Q a s').
Proof. unfold wp. by destruct (m s). Qed.
Lemma wp_done {A} (m : KM S A) s a s' (Q : A -> S -> Prop) :
  m s = Done a s' -> Q a s' -> wp m s Q.
Proof. unfold wp. by intros ->. Qed.
Lemma wp_inv {A} (m : KM S A) s (Q : A -> S -> Prop) :
  wp m s Q -> exists a s', m s = Done a s' /\ Q a s'.
Proof. unfold wp. destruct (m s); naive_solver. Qed.
Lemma wp_elim {A} (m : KM S A) s (Q : A -> S -> Prop) a s' : wp m s Q -> m s = Done a s' -> Q a s'.
Proof. unfold wp. intros H E. by rewrite E in H. Qed.
Lemma wp_get s (Q : S -> S -> Prop) : Q s s -> wp kget s Q.
Proof. done. Qed.
Lemma wp_gets {A} (f : S -> A) s (Q : A -> S -> Prop) : Q (f s) s -> wp (kgets f) s Q.
Proof. done. Qed.
Lemma wp_modify (f : S -> S) s (Q : unit -> S -> Prop) : Q tt (f s) -> wp (kmodify f) s Q.
Proof. done. Qed.
Lemma wp_put s0 s (Q : unit -> S -> Prop) : Q tt s0 -> wp (kput s0) s Q.
Proof. done. Qed.
Lemma wp_if {A} (b : bool) (m1 m2 : KM S A) s Q :
  (b = true -> wp m1 s Q) -> (b = false -> wp m2 s Q) -> wp (if b then m1 else m2) s Q.
Proof. destruct b; auto. Qed.
Lemma wp_zoom {T A} (sel : T -> S) (upd : S -> T -> T) (m : KM S A) t (Q : A -> T -> Prop) :
  wp m (sel t) (fun a s => Q a (upd s t)) -> wp (zoom sel upd m) t Q.
Proof. unfold wp, zoom. by destruct (m (sel t)). Qed.
Lemma wp_kfor (I : nat -> S -> Prop) (body : nat -> KM S unit) n : forall i0 s (Q : unit -> S -> Prop),
  I i0 s ->
  (forall i s, (i0 <= i < i0 + n)%nat -> I i s -> wp (body i) s (fun _ s' => I (Datatypes.S i) s')) ->
  (forall s', I (i0 + n)%nat s' -> Q tt s') ->
  wp (kfor i0 n body) s Q.
Proof.
  induction n as [|n IH]; intros i0 s Q Hi Hb HQ; cbn [kfor].
  - apply wp_ret, HQ. by rewrite Nat.add_0_r.
  - apply wp_bind. eapply wp_mono; [apply Hb; [lia|done]|]. intros [] s' Hs'.
    apply IH; [done| |].
    + intros i s'' Hr. apply Hb. lia.
    + intros s'' Hs''. apply HQ. by replace (i0 + Datatypes.S n)%nat with (Datatypes.S i0 + n)%nat by lia.
Qed.
End wp_rules.

(** Run the administrative steps of a computation under [wp]. *)
Ltac wp_step :=
  match goal with
  | |- wp (mret _) _ _ => apply wp_ret
  | |- wp (_ ≫= _) _ _ => apply wp_bind
  | |- wp kget _ _ => apply wp_get
  | |- wp (kgets _) _ _ => apply wp_gets
  | |- wp (kmodify _) _ _ => apply wp_modify
  | |- wp (kput _) _ _ => apply wp_put
  end; cbv beta.
Ltac wp_steps := repeat wp_step.

(** What holds of the result if the computation returns; for safety
    invariants of steps that may also sleep or panic. *)
Definition wlp {S A} (m : KM S A) (s : S) (Q : A -> S -> Prop) : Prop :=
  forall a s', m s = Done a s' -> Q a s'.

Section wlp_rules.
Context {S : Type}.

Lemma wlp_ret {A} (a : A) (s : S) Q : Q a s -> wlp (mret a) s Q.
Proof. by intros H a' s' [= <- <-]. Qed.
Lemma wlp_bind {A B} (m : KM S A) (f : A -> KM S B) s Q :
  wlp m s (fun a s' => wlp (f a) s' Q) -> wlp (m ≫= f) s Q.
Proof.
  intros H b s'. unfold mbind, km_bind. destruct (m s) as [a s1| | |] eqn:E; try done.
  by apply (H a s1).
Qed.
Lemma wlp_mono {A} (m : KM S A) s (P Q : A -> S -> Prop) :
  wlp m s P -> (forall a s', P a s' -> Q a s') -> wlp m s Q.
Proof. intros H HQ a s' E. by apply HQ, H. Qed.
Lemma wlp_get s (Q : S -> S -> Prop) : Q s s -> wlp kget s Q.
Proof. by intros H a s' [= <- <-]. Qed.
Lemma wlp_gets {A} (f : S -> A) s (Q : A -> S -> Prop) : Q (f s) s -> wlp (kgets f) s Q.
Proof. by intros H a s' [= <- <-]. Qed.
Lemma wlp_modify (f : S -> S) s (Q : unit -> S -> Prop) : Q tt (f s) -> wlp (kmodify f) s Q.
Proof. by intros H a s' [= <- <-]. Qed.
Lemma wlp_panic {A} e s (Q : A -> S -> Prop) : wlp (panic e) s Q.
Proof. by intros a s'. Qed.
Lemma wlp_fault {A} e s (Q : A -> S -> Prop) : wlp (fault e) s Q.
Proof. by intros a s'. Qed.
Lemma wlp_zoom {T A} (sel : T -> S) (upd : S -> T -> T) (m : KM S A) t (Q : A -> T -> Prop) :
  (forall a s, Q a (upd s t)) -> wlp (zoom sel upd m) t Q.
Proof. intros H a s'. unfold zoom. destruct (m (sel t)); try done. by intros [= <- <-]. Qed.
End wlp_rules.

Ltac wlp_step :=
  match goal with
  | |- wlp (mret _) _ _ => apply wlp_ret
  | |- wlp (_ ≫= _) _ _ => apply wlp_bind
  | |- wlp kget _ _ => apply wlp_get
  | |- wlp (kgets _) _ _ => apply wlp_gets
  | |- wlp (kmodify _) _ _ => apply wlp_modify
  | |- wlp (panic _) _ _ => apply wlp_panic
  | |- wlp (fault _) _ _ => apply wlp_fault
  end; cbv beta.
Ltac wlp_steps := repeat wlp_step.

(** ** Byte buffers *)

(** [slice off n l]: the [n] bytes of [l] at offset [off];
    [splice off d l]: [l] with the bytes at offset [off] replaced by [d]. *)
Definition slice {A} (off n : nat) (l : list A) : list A := take n (drop off l).
Definition splice {A} (off : nat) (d l : list A) : list A :=
  take off l ++ d ++ drop (off + length d) l.

Lemma land_bit_eq x k : 0 <= k -> (Z.land x (Z.shiftl 1 k) =? 0) = negb (Z.testbit x k).
Proof.
  intros Hk. rewrite Z.shiftl_1_l. destruct (Z.testbit x k) eqn:E; simpl.
  - apply Z.eqb_neq. intros H. apply (f_equal (fun z => Z.testbit z k)) in H.
    rewrite Z.land_spec, E, Z.pow2_bits_true, Z.bits_0 in H by done. done.
  - apply Z.eqb_eq, Z.bits_inj'. intros n Hn. rewrite Z.land_spec, Z.bits_0, Z.pow2_bits_eqb by done.
    destruct (Z.eqb_spec k n) as [<-|]; [by rewrite E|apply andb_false_r].
Qed.
Lemma alter_insert {A} (f : A -> A) (l : list A) i x : l !! i = Some x -> alter f i l = <[i := f x]> l.
Proof.
  intros H. apply list_eq. intros j. destruct (decide (j = i)) as [->|].
  - rewrite list_lookup_alter_eq, H, list_lookup_insert_eq by eauto using lookup_lt_Some. done.
  - by rewrite list_lookup_alter_ne, list_lookup_insert_ne by done.
Qed.
Lemma length_slice {A} off n (l : list A) :
  (off + n <= length l)%nat -> length (slice off n l) = n.
Proof. intros. unfold slice. rewrite length_take, length_drop. lia. Qed.
Lemma length_splice {A} off (d l : list A) :
  (off + length d <= length l)%nat -> length (splice off d l) = length l.
Proof.
  intros. unfold splice. rewrite !length_app, length_take, length_drop. lia.
Qed.
Lemma slice_splice_eq {A} off (d l : list A) :
  (off + length d <= length l)%nat -> slice off (length d) (splice off d l) = d.
Proof.
  intros. unfold slice, splice. rewrite drop_app_length'.
  - by rewrite take_app_length.
  - rewrite length_take. lia.
Qed.
Lemma slice_lookup {A} off n (l : list A) i :
  (i < n)%nat -> slice off n l !! i = l !! (off + i)%nat.
Proof. intros. unfold slice. by rewrite lookup_take_lt, lookup_drop. Qed.
Lemma splice_lookup_in {A} off (d l : list A) i :
  (off <= length l)%nat -> (off <= i < off + length d)%nat ->
  splice off d l !! i = d !! (i - off)%nat.
Proof.
  intros. unfold splice. rewrite lookup_app_r; rewrite length_take; [|lia].
  rewrite lookup_app_l by lia. f_equal. lia.
Qed.
Lemma splice_lookup_out {A} off (d l : list A) i :
  (off + length d <= length l)%nat -> (i < off \/ off + length d <= i)%nat ->
  splice off d l !! i = l !! i.
Proof.
  intros Hl [Hi|Hi]; unfold splice.
  - rewrite lookup_app_l by (rewrite length_take; lia). by rewrite lookup_take_lt.
  - rewrite !lookup_app_r; rewrite ?length_take; try lia.
    rewrite lookup_drop. f_equal. lia.
Qed.
Lemma slice_splice_ne {A} off off' n (d l : list A) :
  (off + length d <= length l)%nat -> (off' + n <= off \/ off + length d <= off')%nat ->
  slice off' n (splice off d l) = slice off' n l.
Proof.
  intros Hl Hd. apply list_eq. intros i.
  destruct (decide (i < n)%nat).
  - rewrite !slice_lookup by done. apply splice_lookup_out; lia.
  - unfold slice. rewrite !lookup_take_ge by lia. done.
Qed.

(** Little-endian integers, as the x86 stores them. *)
Fixpoint le_bytes (n : nat) (z : Z) : list Z :=
  match n with
  | O => []
  | S n => z mod 256 :: le_bytes n (z / 256)
  end.
Fixpoint le_val (l : list Z) : Z :=
  match l with
  | [] => 0
  | b :: l => b + 256 * le_val l
  end.

Lemma length_le_bytes n z : length (le_bytes n z) = n.
Proof. revert z. induction n; simpl; auto. Qed.
Lemma le_bytes_byte n z : Forall is_byte (le_bytes n z).
Proof.
  revert z. induction n; simpl; intros; constructor; auto.
  apply Z.mod_pos_bound. lia.
Qed.
Lemma le_val_bytes n z : le_val (le_bytes n z) = z mod 256 ^ Z.of_nat n.
Proof.
  revert z. induction n as [|n IH]; intros z.
  - simpl. by rewrite Z.mod_1_r.
  - cbn [le_bytes le_val]. rewrite IH, Nat2Z.inj_succ, Z.pow_succ_r by lia.
    rewrite Z.rem_mul_r by lia. done.
Qed.
Lemma nth_byte (d : list Z) i : Forall is_byte d -> is_byte (nth i d 0).
Proof.
  intros Hd. rewrite nth_lookup. destruct (d !! i) as [x|] eqn:E; [|done].
  by eapply Forall_lookup_1 in Hd.
Qed.
Lemma le_val_range l : Forall is_byte l -> 0 <= le_val l < 256 ^ Z.of_nat (length l).
Proof.
  induction 1 as [|b l Hb Hl IH]; [done|].
  cbn [le_val length]. rewrite Nat2Z.inj_succ, Z.pow_succ_r by lia.
  unfold is_byte in Hb. lia.
Qed.
Lemma le_bytes_val l : Forall is_byte l -> le_bytes (length l) (le_val l) = l.
Proof.
  induction 1 as [|b l Hb Hl IH]; [done|].
  cbn [le_bytes le_val length]. unfold is_byte in Hb. f_equal.
  - rewrite Z.mul_comm, Z_mod_plus_full. by apply Z.mod_small.
  - rewrite Z.mul_comm, Z.div_add, Z.div_small by lia. exact IH.
Qed.
