(* ===== verification/CString.v ===== *)
(** * Byte memory and C strings: [string.c], [ulib.c]

    The kernel's memory and string routines ([src/string.c]) and the user
    library's ([src/ulib.c]), over a byte-addressed memory.  A routine is a
    function from the memory before the call to the memory after it (and its
    result).  Loops that stop at a NUL byte take fuel; the theorems say how
    much is enough.  [Module Ulib] holds the user library's versions.

    Results: [memmove] copies correctly whatever the overlap, the two paths
    of [memset] agree, [strncpy] and [safestrcpy] write exactly the bytes
    they promise, [strncmp] decides equality of bounded names, and the user
    library's [memmove] is correct only where the regions do not overlap
    upwards. *)

From S2P Require Import Prelude.

Definition mem := Z -> Z.

Definition upd (m : mem) (a v : Z) : mem := fun x => if x =? a then v else m x.

Lemma upd_eq m a v : upd m a v a = v.
Proof. unfold upd. by rewrite Z.eqb_refl. Qed.
Lemma upd_ne m a v x : x <> a -> upd m a v x = m x.
Proof. intros. unfold upd. by rewrite (proj2 (Z.eqb_neq _ _)). Qed.

(** The bytes [l] lie in memory at [a]. *)
Fixpoint holds (m : mem) (a : Z) (l : list Z) : Prop :=
  match l with
  | [] => True
  | b :: l => m a = b /\ holds m (a + 1) l
  end.

(** A NUL-terminated string: the bytes [l], none of them NUL, then a NUL. *)
Definition cstr (m : mem) (a : Z) (l : list Z) : Prop :=
  holds m a l /\ m (a + Z.of_nat (length l)) = 0 /\ Forall (fun b => b <> 0) l.

(** ** [x86.h]: the string-store instructions *)

Fixpoint stosb (m : mem) (addr data : Z) (cnt : nat) : mem :=
  match cnt with
  | O => m
  | S cnt => stosb (upd m addr (u8 data)) (addr + 1) data cnt
  end.

(** A 32-bit little-endian store. *)
Definition store32 (m : mem) (a v : Z) : mem :=
  upd (upd (upd (upd m a (u8 v)) (a + 1) (u8 (Z.shiftr v 8)))
           (a + 2) (u8 (Z.shiftr v 16))) (a + 3) (u8 (Z.shiftr v 24)).

Fixpoint stosl (m : mem) (addr data : Z) (cnt : nat) : mem :=
  match cnt with
  | O => m
  | S cnt => stosl (store32 m addr data) (addr + 4) data cnt
  end.

(** The little-endian word at an address. *)
Definition load32 (m : mem) (a : Z) : Z :=
  m a + 2 ^ 8 * m (a + 1) + 2 ^ 16 * m (a + 2) + 2 ^ 24 * m (a + 3).

(** ** [string.c] *)

Definition memset (m : mem) (dst c n : Z) : mem :=
  if (Z.rem (i32 dst) 4 =? 0) && (n mod 4 =? 0) then
    let c := Z.land c 255 in
    stosl m dst (Z.lor (Z.lor (Z.lor (Z.shiftl c 24) (Z.shiftl c 16)) (Z.shiftl c 8)) c)
          (Z.to_nat (n / 4))
  else stosb m dst c (Z.to_nat n).

Fixpoint memcmp (m : mem) (s1 s2 : Z) (n : nat) : Z :=
  match n with
  | O => 0
  | S n => if m s1 =? m s2 then memcmp m (s1 + 1) (s2 + 1) n else m s1 - m s2
  end.

Fixpoint copy_up (m : mem) (d s : Z) (n : nat) : mem :=
  match n with
  | O => m
  | S n => copy_up (upd m d (m s)) (d + 1) (s + 1) n
  end.

Fixpoint copy_down (m : mem) (d s : Z) (n : nat) : mem :=
  match n with
  | O => m
  | S n => copy_down (upd m (d - 1) (m (s - 1))) (d - 1) (s - 1) n
  end.

Definition memmove (m : mem) (dst src n : Z) : mem :=
  if (src <? dst) && (dst <? src + n)
  then copy_down m (dst + n) (src + n) (Z.to_nat n)
  else copy_up m dst src (Z.to_nat n).

Definition memcpy (m : mem) (dst src n : Z) : mem := memmove m dst src n.

Fixpoint strncmp (m : mem) (p q : Z) (n : nat) : Z :=
  match n with
  | O => 0
  | S n' =>
      if negb (m p =? 0) && (m p =? m q) then strncmp m (p + 1) (q + 1) n'
      else m p - m q
  end.

(** The copying loop of [strncpy]: memory, destination and count left. *)
Fixpoint strncpy_loop (m : mem) (s t : Z) (n : nat) : mem * Z * nat :=
  match n with
  | O => (m, s, O)
  | S n =>
      let c := m t in
      let m := upd m s c in
      if c =? 0 then (m, s + 1, n) else strncpy_loop m (s + 1) (t + 1) n
  end.

Definition strncpy (m : mem) (s t n : Z) : mem :=
  let '(m, s, n) := strncpy_loop m s t (Z.to_nat n) in
  stosb m s 0 n.

(** The loop of [safestrcpy], entered with [n - 1] copies allowed. *)
Fixpoint safestrcpy_loop (m : mem) (s t : Z) (n : nat) : mem * Z :=
  match n with
  | O => (m, s)
  | S n =>
      let c := m t in
      let m := upd m s c in
      if c =? 0 then (m, s + 1) else safestrcpy_loop m (s + 1) (t + 1) n
  end.

Definition safestrcpy (m : mem) (s t n : Z) : mem :=
  if n <=? 0 then m
  else
    let '(m, s) := safestrcpy_loop m s t (Z.to_nat (n - 1)) in
    upd m s 0.

Fixpoint strlen (fuel : nat) (m : mem) (s : Z) : option Z :=
  match fuel with
  | O => None
  | S fuel =>
      if m s =? 0 then Some 0 else Z.succ <$> strlen fuel m (s + 1)
  end.

(** ** Lemmas on memory *)

Lemma holds_app m a l1 l2 :
  holds m a (l1 ++ l2) <-> holds m a l1 /\ holds m (a + Z.of_nat (length l1)) l2.
Proof.
  revert a. induction l1 as [|b l1 IH]; intros a; simpl.
  - rewrite Z.add_0_r. tauto.
  - rewrite IH. replace (a + 1 + Z.of_nat (length l1)) with (a + Z.of_nat (S (length l1))) by lia.
    tauto.
Qed.

Lemma holds_ext m m' a l :
  (forall x, a <= x < a + Z.of_nat (length l) -> m' x = m x) -> holds m a l -> holds m' a l.
Proof.
  revert a. induction l as [|b l IH]; intros a Hx; simpl in *; [done|].
  intros [Hb Hl]. split.
  - rewrite Hx; [done|lia].
  - apply IH; [|done]. intros. apply Hx. lia.
Qed.

Lemma holds_lookup m a l i b :
  holds m a l -> l !! i = Some b -> m (a + Z.of_nat i) = b.
Proof.
  revert a i. induction l as [|c l IH]; intros a [|i] H; simpl; try done.
  - intros [= ->]. destruct H. by rewrite Z.add_0_r.
  - intros Hi. destruct H as [_ H].
    rewrite <- (IH _ _ H Hi). f_equal. lia.
Qed.

Lemma stosb_spec m addr data cnt x :
  stosb m addr data cnt x =
    if bool_decide (addr <= x < addr + Z.of_nat cnt) then u8 data else m x.
Proof.
  revert m addr. induction cnt as [|cnt IH]; intros m addr; cbn [stosb].
  - rewrite bool_decide_eq_false_2 by lia. done.
  - rewrite IH. destruct (decide (x = addr)) as [->|].
    + rewrite bool_decide_eq_false_2, bool_decide_eq_true_2 by lia. apply upd_eq.
    + rewrite upd_ne by done.
      destruct (decide (addr <= x < addr + Z.of_nat (S cnt))).
      * rewrite !bool_decide_eq_true_2 by lia. done.
      * rewrite !bool_decide_eq_false_2 by lia. done.
Qed.

Lemma load32_store32 m a v : load32 (store32 m a v) a = u32 v.
Proof.
  unfold load32, store32, upd. rewrite !Z.eqb_refl.
  rewrite !(proj2 (Z.eqb_neq _ _)) by lia.
  rewrite !Z.shiftr_div_pow2 by lia. unfold u8, u32.
  pose proof (Z_div_mod_eq_full v (2 ^ 8)). pose proof (Z_div_mod_eq_full (v / 2 ^ 8) (2 ^ 8)).
  pose proof (Z_div_mod_eq_full (v / 2 ^ 16) (2 ^ 8)). pose proof (Z_div_mod_eq_full (v / 2 ^ 24) (2 ^ 8)).
  assert (v / 2 ^ 8 / 2 ^ 8 = v / 2 ^ 16) by (rewrite Z.div_div by lia; done).
  assert (v / 2 ^ 16 / 2 ^ 8 = v / 2 ^ 24) by (rewrite Z.div_div by lia; done).
  assert (v / 2 ^ 24 / 2 ^ 8 = v / 2 ^ 32) by (rewrite Z.div_div by lia; done).
  pose proof (Z_div_mod_eq_full v (2 ^ 32)). lia.
Qed.
Lemma store32_out m a v x : ~ (a <= x < a + 4) -> store32 m a v x = m x.
Proof. intros H. unfold store32. by rewrite !upd_ne by lia. Qed.
Lemma load32_ext m m' a : (forall x, a <= x < a + 4 -> m' x = m x) -> load32 m' a = load32 m a.
Proof. intros H. unfold load32. rewrite !H by lia. done. Qed.

(** A 32-bit word whose four bytes are all [c]. *)
Definition word_of_byte (c : Z) : Z :=
  Z.lor (Z.lor (Z.lor (Z.shiftl c 24) (Z.shiftl c 16)) (Z.shiftl c 8)) c.

Lemma word_of_byte_bytes c k :
  0 <= c < 256 -> k ∈ [0; 8; 16; 24] -> u8 (Z.shiftr (word_of_byte c) k) = c.
Proof.
  intros Hc Hk.
  assert (Forall (fun c => Forall (fun k => u8 (Z.shiftr (word_of_byte c) k) = c)
            [0; 8; 16; 24]) (seqZ 0 256)) as Hall.
  { apply (bool_decide_unpack _). vm_compute. done. }
  rewrite Forall_forall in Hall. specialize (Hall c).
  assert (c ∈ seqZ 0 256) as Hin by (apply elem_of_seqZ; lia).
  pose proof (proj1 (Forall_forall _ _) (Hall Hin)) as Hk0. by apply Hk0.
Qed.

Lemma stosl_spec m addr c cnt x :
  0 <= c < 256 ->
  stosl m addr (word_of_byte c) cnt x =
    if bool_decide (addr <= x < addr + 4 * Z.of_nat cnt) then c else m x.
Proof.
  intros Hc. revert m addr. induction cnt as [|cnt IH]; intros m addr; cbn [stosl].
  - rewrite bool_decide_eq_false_2 by lia. done.
  - rewrite IH. unfold store32.
    rewrite <- (Z.shiftr_0_r (word_of_byte c)) at 1.
    rewrite !word_of_byte_bytes by (done || (rewrite !elem_of_cons; lia)).
    destruct (decide (addr <= x < addr + 4)).
    + rewrite bool_decide_eq_false_2, bool_decide_eq_true_2 by lia. unfold upd.
      repeat (case_match; [done|]). lia.
    + rewrite !upd_ne by lia.
      destruct (decide (addr <= x < addr + 4 * Z.of_nat (S cnt))).
      * rewrite !bool_decide_eq_true_2 by lia. done.
      * rewrite !bool_decide_eq_false_2 by lia. done.
Qed.

Lemma copy_up_spec m d s n x :
  d <= s \/ s + Z.of_nat n <= d ->
  copy_up m d s n x =
    if bool_decide (d <= x < d + Z.of_nat n) then m (s + (x - d)) else m x.
Proof.
  revert m d s. induction n as [|n IH]; intros m d s Hds; cbn [copy_up].
  - rewrite bool_decide_eq_false_2 by lia. done.
  - rewrite IH by lia. destruct (decide (x = d)) as [->|].
    + rewrite bool_decide_eq_false_2, bool_decide_eq_true_2 by lia.
      rewrite upd_eq. f_equal. lia.
    + destruct (decide (d <= x < d + Z.of_nat (S n))).
      * rewrite !bool_decide_eq_true_2 by lia. rewrite upd_ne by lia. f_equal. lia.
      * rewrite !bool_decide_eq_false_2 by lia. by rewrite upd_ne.
Qed.

(** The downward copy, with [d] and [s] one past the end of the regions. *)
Lemma copy_down_spec m d s n x :
  s <= d ->
  copy_down m d s n x =
    if bool_decide (d - Z.of_nat n <= x < d) then m (s - (d - x)) else m x.
Proof.
  revert m d s. induction n as [|n IH]; intros m d s Hds; cbn [copy_down].
  - rewrite bool_decide_eq_false_2 by lia. done.
  - rewrite IH by lia. destruct (decide (x = d - 1)) as [->|].
    + rewrite bool_decide_eq_false_2, bool_decide_eq_true_2 by lia.
      rewrite upd_eq. f_equal. lia.
    + destruct (decide (d - Z.of_nat (S n) <= x < d)).
      * rewrite !bool_decide_eq_true_2 by lia. rewrite upd_ne by lia. f_equal. lia.
      * rewrite !bool_decide_eq_false_2 by lia. by rewrite upd_ne.
Qed.

Lemma strncpy_loop_spec m s t n l :
  cstr m t l -> s + Z.of_nat n <= t \/ t + Z.of_nat (length l) < s ->
  let '(m', s', k) := strncpy_loop m s t n in
  s' + Z.of_nat k = s + Z.of_nat n /\ s <= s' /\
  (forall i, s' - s <= Z.of_nat i < Z.of_nat n -> nth i l 0 = 0) /\
  forall x, m' x = if bool_decide (s <= x < s') then nth (Z.to_nat (x - s)) l 0 else m x.
Proof.
  revert m s t l. induction n as [|n IH]; intros m s t l Hl Hd; cbn [strncpy_loop].
  - repeat split; try lia. intros x. by rewrite bool_decide_eq_false_2 by lia.
  - destruct Hl as (Hl & H0 & Hnz). destruct l as [|b l]; simpl in Hl, H0.
    + rewrite Z.add_0_r in H0. rewrite H0. simpl. repeat split; try lia.
      * intros i _. by destruct i.
      * intros x. destruct (decide (x = s)) as [->|].
        { rewrite bool_decide_eq_true_2 by lia. rewrite upd_eq. by destruct (Z.to_nat _). }
        rewrite bool_decide_eq_false_2 by lia. by apply upd_ne.
    + destruct Hl as [Hb Hl]. apply Forall_cons in Hnz as [Hbz Hnz]. subst b.
      rewrite (proj2 (Z.eqb_neq _ _)) by done. simpl in Hd.
      assert (Ht : forall x, t <= x <= t + 1 + Z.of_nat (length l) -> upd m s (m t) x = m x).
      { intros x Hx. apply upd_ne. lia. }
      specialize (IH (upd m s (m t)) (s + 1) (t + 1) l).
      destruct (strncpy_loop _ _ _ _) as [[m' s'] k].
      destruct IH as (E1 & E2 & E3 & E4); [| lia |].
      { split; [|split; [|done]].
        - apply (holds_ext m); [|done]. intros. apply Ht. lia.
        - rewrite Ht by lia. rewrite <- H0. f_equal. lia. }
      repeat split; try lia.
      * intros [|i] Hi; [lia|]. simpl. apply E3. lia.
      * intros x. rewrite E4. destruct (decide (x = s)) as [->|].
        { rewrite bool_decide_eq_false_2, bool_decide_eq_true_2 by lia.
          rewrite upd_eq. by replace (Z.to_nat (s - s)) with O by lia. }
        rewrite upd_ne by done. destruct (decide (s <= x < s')).
        { rewrite !bool_decide_eq_true_2 by lia.
          by replace (Z.to_nat (x - s)) with (S (Z.to_nat (x - (s + 1)))) by lia. }
        by rewrite !bool_decide_eq_false_2 by lia.
Qed.

Lemma safestrcpy_loop_strncpy m s t n :
  safestrcpy_loop m s t n = (strncpy_loop m s t n).1.
Proof.
  revert m s t. induction n as [|n IH]; intros; cbn; [done|].
  case_match; [done|]. apply IH.
Qed.

Lemma holds_nth m a l :
  (forall i, (i < length l)%nat -> m (a + Z.of_nat i) = nth i l 0) -> holds m a l.
Proof.
  revert a. induction l as [|b l IH]; intros a H; simpl; [done|]. split.
  - specialize (H O). simpl in H. rewrite Z.add_0_r in H. apply H. lia.
  - apply IH. intros i Hi. specialize (H (S i)). simpl in H.
    rewrite <- H by lia. f_equal. lia.
Qed.

Lemma nth_nonzero l i : Forall (fun b => b <> 0) l -> nth i l 0 = 0 -> (length l <= i)%nat.
Proof.
  intros Hl Hi. destruct (decide (i < length l)%nat) as [Hlt|]; [|lia].
  destruct (lookup_lt_is_Some_2 _ _ Hlt) as [b Hb].
  rewrite Forall_lookup in Hl. pose proof (Hl _ _ Hb).
  apply nth_lookup_Some with (d := 0) in Hb. lia.
Qed.

(** ** Properties *)

Lemma memmove_at m dst src n x :
  0 <= n ->
  memmove m dst src n x =
    if bool_decide (dst <= x < dst + n) then m (src + (x - dst)) else m x.
Proof.
  intros Hn. unfold memmove.
  destruct (Z.ltb_spec src dst), (Z.ltb_spec dst (src + n)); simpl;
    rewrite ?copy_up_spec, ?copy_down_spec by lia; rewrite Z2Nat.id by done;
    try done.
  replace (dst + n - n) with dst by lia.
  by replace (src + n - (dst + n - x)) with (src + (x - dst)) by lia.
Qed.

(** [memmove] of [string.c]: after [memmove(dst, src, n)] the [n] bytes
    at [dst] are the bytes that were at [src] before the call, and no other
    byte has changed.  The regions may overlap in any way. *)
Theorem memmove_correct m dst src n x :
  0 <= n ->
  memmove m dst src n x =
    if bool_decide (dst <= x < dst + n) then m (src + (x - dst)) else m x.
Proof. apply memmove_at. Qed.

Lemma memmove_correct_witness :
  memmove (fun a => a) 3 1 4 5 =
    if bool_decide (3 <= 5 < 3 + 4) then 1 + (5 - 3) else 5.
Proof. apply (memmove_correct (fun a => a) 3 1 4 5). lia. Defined.

Lemma memset_at m dst c n x :
  0 <= n ->
  memset m dst c n x = if bool_decide (dst <= x < dst + n) then u8 c else m x.
Proof.
  intros Hn. unfold memset.
  destruct (_ && _) eqn:E.
  - apply andb_true_iff in E as [_ E]. apply Z.eqb_eq in E.
    change 255 with (Z.ones 8). rewrite Z.land_ones by lia.
    fold (u8 c) (word_of_byte (u8 c)).
    rewrite stosl_spec by apply u8_range.
    rewrite Z2Nat.id by (apply Z.div_pos; lia).
    by replace (dst + 4 * (n / 4)) with (dst + n) by (pose proof (Z_div_mod_eq_full n 4); lia).
  - rewrite stosb_spec. by rewrite Z2Nat.id.
Qed.

(** [memset] of [string.c]: whichever of the word and the byte loop
    runs, the [n] bytes at [dst] become the low byte of [c] and no other
    byte changes. *)
Theorem memset_correct m dst c n x :
  0 <= n ->
  memset m dst c n x = if bool_decide (dst <= x < dst + n) then u8 c else m x.
Proof. apply memset_at. Qed.

Lemma memset_correct_witness :
  memset (fun _ => 7) 8 513 4 9 = if bool_decide (8 <= 9 < 8 + 4) then u8 513 else 7.
Proof. apply (memset_correct (fun _ => 7) 8 513 4 9). lia. Defined.

Lemma strncpy_correct m s t n l x :
  0 <= n -> cstr m t l -> s + n <= t \/ t + Z.of_nat (length l) < s ->
  strncpy m s t n x = if bool_decide (s <= x < s + n) then nth (Z.to_nat (x - s)) l 0 else m x.
Proof.
  intros Hn Hl Hd. unfold strncpy.
  pose proof (strncpy_loop_spec m s t (Z.to_nat n) l Hl) as H.
  destruct (strncpy_loop _ _ _ _) as [[m' s'] k].
  destruct H as (E1 & E2 & E3 & E4); [lia|].
  rewrite stosb_spec, E4. change (u8 0) with 0.
  destruct (decide (s' <= x < s + n)).
  - rewrite !bool_decide_eq_true_2 by lia. symmetry. apply E3. lia.
  - rewrite (bool_decide_eq_false_2 (s' <= x < _)) by lia.
    destruct (decide (s <= x < s')).
    + by rewrite !bool_decide_eq_true_2 by lia.
    + by rewrite !bool_decide_eq_false_2 by lia.
Qed.

(** [safestrcpy(s, t, n)] leaves at [s] a NUL-terminated string, the
    first [n - 1] bytes of the string at [t], and writes nothing outside the
    [n] bytes at [s]. *)
Theorem safestrcpy_correct m s t n l :
  0 < n -> cstr m t l -> s + n <= t \/ t + Z.of_nat (length l) < s ->
  cstr (safestrcpy m s t n) s (take (Z.to_nat (n - 1)) l) /\
  forall x, ~ (s <= x < s + n) -> safestrcpy m s t n x = m x.
Proof.
  intros Hn Hl Hd. unfold safestrcpy.
  rewrite (proj2 (Z.leb_gt _ _)) by lia. rewrite safestrcpy_loop_strncpy.
  pose proof (strncpy_loop_spec m s t (Z.to_nat (n - 1)) l Hl) as H.
  destruct (strncpy_loop _ _ _ _) as [[m' s'] k]. cbn [fst].
  destruct H as (E1 & E2 & E3 & E4); [lia|].
  destruct Hl as (_ & _ & Hnz).
  assert (E5 : forall i, s' - s <= Z.of_nat i -> (i < Z.to_nat (n - 1))%nat -> (length l <= i)%nat).
  { intros i ? ?. apply nth_nonzero; [done|]. apply E3. lia. }
  split; [split; [|split]|].
  - apply holds_nth. intros i Hi. rewrite length_take in Hi.
    destruct (decide (s' - s <= Z.of_nat i)) as [Hge|].
    { specialize (E5 i Hge). lia. }
    rewrite upd_ne by lia. rewrite E4, bool_decide_eq_true_2 by lia.
    replace (Z.to_nat (s + Z.of_nat i - s)) with i by lia.
    rewrite !nth_lookup, lookup_take_lt by lia. done.
  - rewrite length_take. set (j := Nat.min _ _).
    destruct (decide (s + Z.of_nat j = s')) as [->|Hne]; [apply upd_eq|].
    rewrite upd_ne by done. rewrite E4.
    destruct (decide (s + Z.of_nat j < s')).
    + rewrite bool_decide_eq_true_2 by lia. apply nth_overflow. lia.
    + specialize (E5 (Z.to_nat (s' - s))). lia.
  - by apply Forall_take.
  - intros x Hx. rewrite upd_ne by lia. rewrite E4. by rewrite bool_decide_eq_false_2 by lia.
Qed.

Definition mem_of (l : list Z) : mem := fun a => if a <? 0 then 0 else nth (Z.to_nat a) l 0.

Lemma safestrcpy_correct_witness :
  cstr (safestrcpy (mem_of [97; 98; 99; 100; 0]) 10 0 3) 10 (take 2 [97; 98; 99; 100]) /\
  forall x, ~ (10 <= x < 10 + 3) ->
    safestrcpy (mem_of [97; 98; 99; 100; 0]) 10 0 3 x = mem_of [97; 98; 99; 100; 0] x.
Proof.
  apply (safestrcpy_correct (mem_of [97; 98; 99; 100; 0]) 10 0 3 [97; 98; 99; 100]).
  - lia.
  - repeat split; by repeat constructor.
  - simpl. lia.
Defined.

(** The result of [memcmp] is 0 exactly on equal regions. *)
Lemma memcmp_zero m s1 s2 n :
  memcmp m s1 s2 n = 0 <-> forall i, 0 <= i < Z.of_nat n -> m (s1 + i) = m (s2 + i).
Proof.
  revert s1 s2. induction n as [|n IH]; intros s1 s2; cbn [memcmp].
  - split; [intros _ i Hi; lia | done].
  - destruct (Z.eqb_spec (m s1) (m s2)) as [E|E].
    + rewrite IH. split; intros H i Hi.
      * destruct (decide (i = 0)) as [->|]; [by rewrite !Z.add_0_r|].
        specialize (H (i - 1)). rewrite <- !Z.add_assoc in H.
        replace (1 + (i - 1)) with i in H by lia. apply H. lia.
      * rewrite <- !Z.add_assoc. apply H. lia.
    + split; [lia|]. intros H. destruct E. specialize (H 0).
      rewrite !Z.add_0_r in H. apply H. lia.
Qed.

(** [strncmp] returns 0 exactly when the two strings agree on their first
    [n] bytes. *)
Lemma strncmp_zero m p q n l1 l2 :
  cstr m p l1 -> cstr m q l2 ->
  strncmp m p q n = 0 <-> take n l1 = take n l2.
Proof.
  revert p q l1 l2. induction n as [|n IH]; intros p q l1 l2 H1 H2; [done|].
  cbn [strncmp]. destruct H1 as (H1 & Z1 & N1), H2 as (H2 & Z2 & N2).
  destruct l1 as [|a l1], l2 as [|b l2]; simpl in *;
    rewrite ?Z.add_0_r in *; rewrite ?Forall_cons in *.
  - rewrite Z1, Z2. done.
  - rewrite Z1. simpl. destruct H2, N2. split; [lia|done].
  - rewrite Z2. destruct H1, N1. rewrite (proj2 (Z.eqb_neq (m p) 0)) by lia.
    simpl. split; [lia|done].
  - destruct H1 as [Ha H1], N1 as [Na N1], H2 as [Hb H2], N2 as [Nb N2].
    rewrite (proj2 (Z.eqb_neq (m p) 0)) by lia. simpl.
    destruct (Z.eqb_spec (m p) (m q)) as [E|E].
    + rewrite (IH _ _ l1 l2).
      * split; [intros ->; congruence|congruence].
      * split; [done|]. split; [|done]. rewrite <- Z1. f_equal. lia.
      * split; [done|]. split; [|done]. rewrite <- Z2. f_equal. lia.
    + split; [lia|congruence].
Qed.

Lemma strlen_correct fuel m s l :
  cstr m s l -> (length l < fuel)%nat -> strlen fuel m s = Some (Z.of_nat (length l)).
Proof.
  revert s l. induction fuel as [|fuel IH]; intros s l (Hl & H0 & Hnz) Hf; [lia|].
  cbn [strlen]. destruct l as [|b l]; simpl in *.
  - rewrite Z.add_0_r in H0. by rewrite H0.
  - destruct Hl as [Hb Hl]. apply Forall_cons in Hnz as [Nb Hnz].
    rewrite (proj2 (Z.eqb_neq _ _)) by lia.
    rewrite (IH _ l); [simpl; f_equal; lia| |lia].
    split; [done|]. split; [|done]. rewrite <- H0. f_equal. lia.
Qed.

(** ** The user library, [ulib.c] *)
Module Ulib.

Fixpoint strcpy (fuel : nat) (m : mem) (s t : Z) : option mem :=
  match fuel with
  | O => None
  | S fuel =>
      let c := m t in
      let m := upd m s c in
      if c =? 0 then Some m else strcpy fuel m (s + 1) (t + 1)
  end.

Fixpoint strcmp (fuel : nat) (m : mem) (p q : Z) : option Z :=
  match fuel with
  | O => None
  | S fuel =>
      if negb (m p =? 0) && (m p =? m q) then strcmp fuel m (p + 1) (q + 1)
      else Some (m p - m q)
  end.

Definition strlen := strlen.

Definition memset (m : mem) (dst c n : Z) : mem := stosb m dst c (Z.to_nat n).

(** [strchr]: the address of the first [c] of the string, or 0. *)
Fixpoint strchr (fuel : nat) (m : mem) (s c : Z) : option Z :=
  match fuel with
  | O => None
  | S fuel =>
      if m s =? 0 then Some 0
      else if m s =? c then Some s else strchr fuel m (s + 1) c
  end.

(** [atoi]; the accumulator is an [int]. *)
Fixpoint atoi_loop (fuel : nat) (m : mem) (s n : Z) : option Z :=
  match fuel with
  | O => None
  | S fuel =>
      if (48 <=? m s) && (m s <=? 57) then atoi_loop fuel m (s + 1) (i32 (n * 10 + m s - 48))
      else Some n
  end.
Definition atoi (fuel : nat) (m : mem) (s : Z) : option Z := atoi_loop fuel m s 0.

Definition memmove (m : mem) (vdst vsrc n : Z) : mem := copy_up m vdst vsrc (Z.to_nat n).

(** [gets]: standard input is the list of the bytes that one-byte reads will
    return; past its end [read] returns 0. *)
Fixpoint gets_loop (fuel : nat) (m : mem) (buf i max : Z) (input : list Z)
  : option (mem * Z * list Z) :=
  match fuel with
  | O => None
  | S fuel =>
      if i + 1 <? max then
        match input with
        | [] => Some (m, i, input)
        | c :: input =>
            let m := upd m (buf + i) c in
            if (c =? 10) || (c =? 13) then Some (m, i + 1, input)
            else gets_loop fuel m buf (i + 1) max input
        end
      else Some (m, i, input)
  end.
Definition gets (m : mem) (buf max : Z) (input : list Z) : option (mem * list Z) :=
  '(m, i, input) ← gets_loop (S (Z.to_nat max)) m buf 0 max input;
  Some (upd m (buf + i) 0, input).

(** The decimal value of a list of digit characters. *)
Definition digits_val (acc : Z) (l : list Z) : Z :=
  foldl (fun n c => n * 10 + (c - 48)) acc l.
Definition is_digit (c : Z) : Prop := 48 <= c <= 57.

Lemma digits_val_mono acc l :
  0 <= acc -> Forall is_digit l -> acc <= digits_val acc l.
Proof.
  intros Ha Hl. revert acc Ha. induction Hl as [|c l Hc Hl IH]; intros acc Ha; cbn.
  - lia.
  - unfold is_digit in Hc. specialize (IH (acc * 10 + (c - 48))).
    unfold digits_val in IH. lia.
Qed.

Lemma atoi_loop_correct fuel m s l r acc :
  holds m s l -> Forall is_digit l -> m (s + Z.of_nat (length l)) = r -> ~ is_digit r ->
  (length l < fuel)%nat -> 0 <= acc -> digits_val acc l < 2 ^ 31 ->
  atoi_loop fuel m s acc = Some (digits_val acc l).
Proof.
  revert s l acc. induction fuel as [|fuel IH]; intros s l acc Hl Hd Hr Hnd Hf Ha Hv; [lia|].
  cbn [atoi_loop]. destruct l as [|c l].
  - simpl in *. rewrite Z.add_0_r in Hr. rewrite Hr. unfold is_digit in Hnd.
    destruct (Z.leb_spec 48 r), (Z.leb_spec r 57); simpl; try done. lia.
  - destruct Hl as [Hc Hl]. apply Forall_cons in Hd as [Hdc Hd].
    pose proof Hdc as Hdc'. unfold is_digit in Hdc'. subst c.
    rewrite (proj2 (Z.leb_le 48 _)), (proj2 (Z.leb_le _ 57)) by lia. simpl.
    change (digits_val acc (m s :: l)) with (digits_val (acc * 10 + (m s - 48)) l) in *.
    pose proof (digits_val_mono (acc * 10 + (m s - 48)) l ltac:(lia) Hd).
    rewrite i32_id by lia.
    replace (acc * 10 + m s - 48) with (acc * 10 + (m s - 48)) by lia.
    apply IH; try done; try lia.
    + simpl in Hr. rewrite <- Hr. f_equal. lia.
    + simpl in Hf. lia.
Qed.

(** [ulib.c]'s [memmove] copies upwards only: it agrees with the kernel's
    unless the destination lies inside the source region. *)
Lemma memmove_agrees m dst src n :
  dst <= src \/ src + n <= dst -> memmove m dst src n = CString.memmove m dst src n.
Proof.
  intros Hd. unfold memmove, CString.memmove.
  destruct (Z.ltb_spec src dst), (Z.ltb_spec dst (src + n)); simpl; done || lia.
Qed.

(** On an overlapping upward move the user library's [memmove] does not
    copy the source: moving 3 bytes up by one repeats the first byte. *)
Theorem memmove_overlap_wrong :
  map (memmove (mem_of [1; 2; 3; 4]) 1 0 3) [1; 2; 3] = [1; 1; 1] /\
  map (CString.memmove (mem_of [1; 2; 3; 4]) 1 0 3) [1; 2; 3] = [1; 2; 3].
Proof. split; reflexivity. Qed.

Lemma gets_loop_line fuel m buf i max line rest :
  Forall (fun c => c <> 10 /\ c <> 13) line -> 0 <= i ->
  i + Z.of_nat (length line) + 1 < max -> (length line < fuel)%nat ->
  exists m', gets_loop fuel m buf i max (line ++ 10 :: rest) =
    Some (m', i + Z.of_nat (length line) + 1, rest) /\
    holds m' (buf + i) (line ++ [10]) /\
    forall x, ~ (buf + i <= x < buf + max - 1) -> m' x = m x.
Proof.
  revert m i fuel. induction line as [|c line IH]; intros m i fuel Hl Hi Hm Hf;
    (destruct fuel as [|fuel]; [simpl in Hf; lia|]); simpl length in *.
  - cbn [gets_loop app]. rewrite (proj2 (Z.ltb_lt _ _)) by lia. simpl.
    eexists. split; [f_equal; f_equal; f_equal; lia|]. split.
    + simpl. by rewrite upd_eq.
    + intros x Hx. apply upd_ne. lia.
  - apply Forall_cons in Hl as [[H10 H13] Hl].
    cbn [gets_loop app]. rewrite (proj2 (Z.ltb_lt _ _)) by lia.
    rewrite (proj2 (Z.eqb_neq c 10)), (proj2 (Z.eqb_neq c 13)) by done. simpl orb. cbv iota.
    destruct (IH (upd m (buf + i) c) (i + 1) fuel) as (m' & E & Hh & Hx); [done|lia..|].
    rewrite E. exists m'. split; [f_equal; f_equal; f_equal; lia|]. split.
    + simpl. split.
      * rewrite Hx by lia. apply upd_eq.
      * by replace (buf + i + 1) with (buf + (i + 1)) by lia.
    + intros x Hx'. rewrite Hx by lia. apply upd_ne. lia.
Qed.
End Ulib.
