(* ===== verification/Sleeplock.v ===== *)
(** * Sleeping locks: [sleeplock.c]

    The lock's fields and the four routines, as seen by the process that
    calls them: [acquiresleep] on a lock that is held sleeps on the lock's
    channel.  [Module Concurrent] lets any number of processes race for one
    lock, with [sleep] and [wakeup] as in [proc.c], and shows mutual
    exclusion. *)

From S2P Require Import Prelude.

Record sleeplock := mksleeplock {
  sl_locked : bool;   (* locked *)
  sl_pid : Z          (* pid *)
}.

#[global] Instance sleeplock_eq_dec : EqDecision sleeplock.
Proof. solve_decision. Defined.

Definition initsleeplock : sleeplock := mksleeplock false 0.

Definition acquiresleep (pid : Z) : KM sleeplock unit :=
  lk ← kget;
  if sl_locked lk then ksleep "sleep lock"
  else kput (mksleeplock true pid).

Definition releasesleep : KM sleeplock unit :=
  kput (mksleeplock false 0).

Definition holdingsleep : KM sleeplock bool :=
  kgets sl_locked.

Lemma acquiresleep_free pid lk :
  sl_locked lk = false -> acquiresleep pid lk = Done tt (mksleeplock true pid).
Proof. intros H. unfold acquiresleep, mbind, km_bind. simpl. by rewrite H. Qed.
Lemma acquiresleep_taken pid lk :
  sl_locked lk = true -> acquiresleep pid lk = Sleep "sleep lock".
Proof. intros H. unfold acquiresleep, mbind, km_bind. simpl. by rewrite H. Qed.

(** ** Processes racing for one lock

    The routines hold the lock's spin lock from start to end, and [sleep]
    gives it up and marks the caller asleep in one step, so an interleaving is
    a sequence of these atomic calls.  [wakeup] makes every sleeper run, and a
    woken process tests [locked] again. *)
Module Concurrent.

Inductive pc := Idle | Wanting | Asleep | Holding.
#[global] Instance pc_eq_dec : EqDecision pc.
Proof. solve_decision. Defined.

Record state := mkstate { c_lock : sleeplock; c_pc : gmap Z pc }.

Definition wake (p : pc) : pc := match p with Asleep => Wanting | p => p end.

Inductive step : state -> state -> Prop :=
| step_want lk pcs p :
    pcs !! p = Some Idle -> step (mkstate lk pcs) (mkstate lk (<[p := Wanting]> pcs))
| step_acquire lk pcs p lk' :
    pcs !! p = Some Wanting -> acquiresleep p lk = Done tt lk' ->
    step (mkstate lk pcs) (mkstate lk' (<[p := Holding]> pcs))
| step_sleep lk pcs p chan :
    pcs !! p = Some Wanting -> acquiresleep p lk = Sleep chan ->
    step (mkstate lk pcs) (mkstate lk (<[p := Asleep]> pcs))
| step_release lk pcs p lk' :
    pcs !! p = Some Holding -> releasesleep lk = Done tt lk' ->
    step (mkstate lk pcs) (mkstate lk' (wake <$> <[p := Idle]> pcs)).

Inductive reachable : state -> Prop :=
| reach_init pcs : (forall p x, pcs !! p = Some x -> x = Idle) -> reachable (mkstate initsleeplock pcs)
| reach_step s s' : reachable s -> step s s' -> reachable s'.

(** Who holds the lock. *)
Definition inv (s : state) : Prop :=
  (forall p, c_pc s !! p = Some Holding <->
     sl_locked (c_lock s) = true /\ sl_pid (c_lock s) = p /\ is_Some (c_pc s !! p)) /\
  (sl_locked (c_lock s) = true -> is_Some (c_pc s !! sl_pid (c_lock s))) /\
  (forall p, c_pc s !! p = Some Asleep -> sl_locked (c_lock s) = true).

Lemma acquire_cases p lk o : acquiresleep p lk = o ->
  (sl_locked lk = false /\ o = Done tt (mksleeplock true p)) \/
  (sl_locked lk = true /\ o = Sleep "sleep lock").
Proof.
  intros <-. destruct (sl_locked lk) eqn:E.
  - right. by rewrite acquiresleep_taken.
  - left. by rewrite acquiresleep_free.
Qed.

Lemma sl_step_inv s s' : inv s -> step s s' -> inv s'.
Proof.
  intros (I1 & I2 & I3) Hs. destruct Hs as [lk pcs p Hp|lk pcs p lk' Hp Ha|lk pcs p chan Hp Ha|lk pcs p lk' Hp Ha];
    unfold inv in *; simpl in *.
  - split; [|split].
    + intros q. destruct (decide (p = q)) as [<-|]; simplify_map_eq; [|apply I1].
      split; [done|]. intros (Hl & <- & _). assert (pcs !! sl_pid lk = Some Holding) by (apply I1; eauto). congruence.
    + intros Hl. rewrite lookup_insert. case_decide; eauto.
    + intros q. rewrite lookup_insert. case_decide; [done|apply I3].
  - apply acquire_cases in Ha as [[Hl [= ->]]|[_ [=]]]. simpl. split; [|split].
    + intros q. destruct (decide (p = q)) as [<-|]; simplify_map_eq; [by eauto|].
      rewrite I1, Hl. split; [by intros [? _]|]. by intros (_ & -> & _).
    + intros _. simplify_map_eq. eauto.
    + done.
  - apply acquire_cases in Ha as [[_ [=]]|[Hl _]]. split; [|split].
    + intros q. destruct (decide (p = q)) as [<-|]; simplify_map_eq; [|apply I1].
      split; [done|]. intros (_ & <- & _). assert (pcs !! sl_pid lk = Some Holding) by (apply I1; eauto). congruence.
    + intros _. rewrite lookup_insert. case_decide; eauto.
    + done.
  - injection Ha as <-. simpl. split; [|split; [done|]].
    + intros q. split; [|by intros [? _]]. rewrite lookup_fmap, lookup_insert.
      case_decide as E; [done|]. destruct (pcs !! q) as [x|] eqn:Eq; [|done]. simpl. intros [= Hx].
      destruct x; try done. apply I1 in Hp as (Hl & Hpid & _), Eq as (_ & Hpid' & _). congruence.
    + intros q. rewrite lookup_fmap. by destruct (<[p := Idle]> pcs !! q) as [[]|].
Qed.

Lemma sl_reachable_inv s : reachable s -> inv s.
Proof.
  induction 1 as [pcs Hi|s s' _ IH Hs]; [|by eapply sl_step_inv].
  unfold inv. simpl. split; [|split; [done|]].
  - intros p. split; [|by intros [? _]]. intros Hp%Hi. done.
  - intros p Hp%Hi. done.
Qed.

(** C28.  Mutual exclusion and no lost wakeup: in every interleaving at most
    one process holds the lock, [holdingsleep] is true exactly when one does
    and [pid] names it; and a process asleep on the lock always has a holder
    whose [releasesleep] will wake it. *)
Theorem sleeplock_exclusion s :
  reachable s ->
  (forall p q, c_pc s !! p = Some Holding -> c_pc s !! q = Some Holding -> p = q) /\
  (holdingsleep (c_lock s) = Done true (c_lock s) <-> exists p, c_pc s !! p = Some Holding) /\
  (forall p, c_pc s !! p = Some Holding -> sl_pid (c_lock s) = p) /\
  (forall p, c_pc s !! p = Some Asleep -> exists q s', c_pc s !! q = Some Holding /\
     step s s' /\ c_pc s' !! p = Some Wanting).
Proof.
  intros (I1 & I2 & I3)%sl_reachable_inv. destruct s as [lk pcs]. simpl in *. split; [|split; [|split]].
  - intros p q (_ & <- & _)%I1 (_ & <- & _)%I1. done.
  - unfold holdingsleep, kgets. split.
    + intros [= Hl]. exists (sl_pid lk). apply I1. auto.
    + intros (p & (-> & _)%I1). done.
  - by intros p (_ & <- & _)%I1.
  - intros p Hp. pose proof (I3 _ Hp) as Hl.
    assert (Hq : pcs !! sl_pid lk = Some Holding) by (apply I1; auto).
    eexists _, _. split; [exact Hq|]. split.
    + eapply step_release; [exact Hq|reflexivity].
    + simpl. rewrite lookup_fmap, lookup_insert_ne, Hp by congruence. done.
Qed.
Lemma sleeplock_exclusion_witness :
  let pcs : gmap Z pc := {[ 3 := Idle; 4 := Idle ]} in
  let s := mkstate (mksleeplock true 3) (<[3 := Holding]> (<[3 := Wanting]> pcs)) in
  reachable s /\ forall p q, c_pc s !! p = Some Holding -> c_pc s !! q = Some Holding -> p = q.
Proof.
  intros pcs s. assert (reachable s) as Hs.
  { eapply reach_step; [eapply reach_step; [apply (reach_init pcs)|apply (step_want _ _ 3)]|].
    - intros p x. unfold pcs. rewrite lookup_insert, lookup_singleton.
      repeat case_decide; intros [=]; congruence.
    - reflexivity.
    - apply step_acquire; reflexivity. }
  split; [exact Hs|]. exact (proj1 (sleeplock_exclusion s Hs)).
Defined.
End Concurrent.
