(* ===== verification/Bio.v ===== *)
(** * The buffer cache: [bio.c] over the in-memory disk of [memide.c]

    [bcache] is the array of [NBUF] buffers followed by the list head, linked
    in both directions by indices into the array, as [binit] builds it.  The
    disk is the list of its blocks; [d_trace] is a ghost field that records the
    disk writes in the order they happen, which the log's crash argument uses.
    The [bcache.lock] sections are atomic.

    Results: the two link fields always represent one circular list of all the
    buffers, so the scans of [bget] end ([lru]); a block is cached at most
    once; [bread], [bwrite] and [brelse] implement the abstract block store
    [babs]: what a caller reads is the last contents given to the block,
    whether it is on the disk, in a clean buffer or in a dirty one. *)

From S2P Require Import Prelude Sleeplock.

Definition MAXOPBLOCKS : Z := 10.
Definition NBUF : nat := 30.
Definition BSIZE : nat := 512.
Definition B_VALID : Z := 2.
Definition B_DIRTY : Z := 4.
Definition ROOTDEV : Z := 1.

Abbreviation block := (list Z).

Record buf := mkbuf {
  b_flags : Z;
  b_dev : Z;
  b_blockno : Z;
  b_lock : sleeplock;
  b_refcnt : Z;
  b_prev : nat;
  b_next : nat;
  b_data : block
}.

Definition set_flags (f : Z) (b : buf) : buf :=
  mkbuf f (b_dev b) (b_blockno b) (b_lock b) (b_refcnt b) (b_prev b) (b_next b) (b_data b).
Definition set_id (dev blockno : Z) (b : buf) : buf :=
  mkbuf (b_flags b) dev blockno (b_lock b) (b_refcnt b) (b_prev b) (b_next b) (b_data b).
Definition set_lock (l : sleeplock) (b : buf) : buf :=
  mkbuf (b_flags b) (b_dev b) (b_blockno b) l (b_refcnt b) (b_prev b) (b_next b) (b_data b).
Definition set_refcnt (r : Z) (b : buf) : buf :=
  mkbuf (b_flags b) (b_dev b) (b_blockno b) (b_lock b) r (b_prev b) (b_next b) (b_data b).
Definition set_prev (p : nat) (b : buf) : buf :=
  mkbuf (b_flags b) (b_dev b) (b_blockno b) (b_lock b) (b_refcnt b) p (b_next b) (b_data b).
Definition set_next (n : nat) (b : buf) : buf :=
  mkbuf (b_flags b) (b_dev b) (b_blockno b) (b_lock b) (b_refcnt b) (b_prev b) n (b_data b).
Definition set_data (d : block) (b : buf) : buf :=
  mkbuf (b_flags b) (b_dev b) (b_blockno b) (b_lock b) (b_refcnt b) (b_prev b) (b_next b) d.

Record bio := mkbio {
  bufs : list buf;                  (* bcache.buf, then bcache.head *)
  d_disk : list block;              (* memdisk; disksize is its length *)
  d_trace : list (Z * block);       (* ghost: the disk writes so far *)
  cur_pid : Z                       (* myproc()->pid *)
}.

Definition set_bufs (bs : list buf) (s : bio) : bio :=
  mkbio bs (d_disk s) (d_trace s) (cur_pid s).

(** The index of [bcache.head]. *)
Definition HEAD : nat := NBUF.

Definition get_buf (i : nat) : KM bio buf := fun s =>
  match bufs s !! i with
  | Some b => Done b s
  | None => Fault "buffer pointer"
  end.
Definition upd_buf (f : buf -> buf) (i : nat) : KM bio unit :=
  kmodify (fun s => set_bufs (alter f i (bufs s)) s).

(** A sleep-lock routine on a buffer's lock. *)
Definition on_lock {A} (i : nat) (m : KM sleeplock A) : KM bio A := fun s =>
  match bufs s !! i with
  | None => Fault "buffer pointer"
  | Some b =>
      match m (b_lock b) with
      | Done a l => Done a (set_bufs (alter (set_lock l) i (bufs s)) s)
      | Panic e => Panic e
      | Sleep c => Sleep c
      | Fault e => Fault e
      end
  end.

(** ** [memide.c] *)

Definition iderw (i : nat) : KM bio unit :=
  h ← on_lock i holdingsleep;
  if negb h then panic "iderw: buf not locked" else
  b ← get_buf i;
  if Z.land (b_flags b) (Z.lor B_VALID B_DIRTY) =? B_VALID then panic "iderw: nothing to do" else
  if negb (b_dev b =? 1) then panic "iderw: request not for disk 1" else
  s ← kget;
  if Z.of_nat (length (d_disk s)) <=? b_blockno b then panic "iderw: block out of range" else
  let p := Z.to_nat (b_blockno b) in
  (if negb (Z.land (b_flags b) B_DIRTY =? 0) then
     upd_buf (fun b => set_flags (Z.ldiff (b_flags b) B_DIRTY) b) i;;
     kmodify (fun s => mkbio (bufs s) (<[p := b_data b]> (d_disk s))
                             (d_trace s ++ [(b_blockno b, b_data b)]) (cur_pid s))
   else
     match d_disk s !! p with
     | Some d => upd_buf (set_data d) i
     | None => fault "disk address"
     end);;
  upd_buf (fun b => set_flags (Z.lor (b_flags b) B_VALID) b) i.

(** ** [bio.c] *)

Definition push_front (b : nat) (bs : list buf) : list buf :=
  let h := from_option b_next HEAD (bs !! HEAD) in
  let bs := alter (set_next h) b bs in             (* b->next = head.next *)
  let bs := alter (set_prev HEAD) b bs in          (* b->prev = &head *)
  let bs := alter (set_prev b) h bs in             (* head.next->prev = b *)
  alter (set_next b) HEAD bs.                      (* head.next = b *)

Definition unlink (b : nat) (bs : list buf) : list buf :=
  let n := from_option b_next HEAD (bs !! b) in
  let p := from_option b_prev HEAD (bs !! b) in
  let bs := alter (set_prev p) n bs in             (* b->next->prev = b->prev *)
  let n := from_option b_next HEAD (bs !! b) in
  let p := from_option b_prev HEAD (bs !! b) in
  alter (set_next n) p bs.                         (* b->prev->next = b->next *)

Fixpoint binit_loop (b n : nat) (bs : list buf) : list buf :=
  match n with
  | O => bs
  | S n =>
      let bs := push_front b (alter (set_lock initsleeplock) b bs) in
      binit_loop (S b) n bs
  end.
Definition binit : KM bio unit :=
  kmodify (fun s =>
    let bs := alter (set_prev HEAD) HEAD (bufs s) in
    let bs := alter (set_next HEAD) HEAD bs in
    set_bufs (binit_loop 0 NBUF bs) s).

(** [for(b = b0; b != &bcache.head; b = b->link) if(p(b)) return b], following
    at most [fuel] links. *)
Fixpoint scan (bs : list buf) (link : buf -> nat) (p : buf -> bool) (fuel b : nat)
  : option (option nat) :=
  match fuel with
  | O => None
  | S fuel =>
      if (b =? HEAD)%nat then Some None
      else
        match bs !! b with
        | None => None
        | Some bb => if p bb then Some (Some b) else scan bs link p fuel (link bb)
        end
  end.

Definition bget (dev blockno : Z) : KM bio nat :=
  s ← kget;
  head ← get_buf HEAD;
  match scan (bufs s) b_next (fun b => (b_dev b =? dev) && (b_blockno b =? blockno))
             (S NBUF) (b_next head) with
  | None => fault "bget: list"
  | Some (Some b) =>
      upd_buf (fun bb => set_refcnt (u32 (b_refcnt bb + 1)) bb) b;;
      on_lock b (acquiresleep (cur_pid s));;
      mret b
  | Some None =>
      match scan (bufs s) b_prev
                 (fun b => (b_refcnt b =? 0) && (Z.land (b_flags b) B_DIRTY =? 0))
                 (S NBUF) (b_prev head) with
      | None => fault "bget: list"
      | Some None => panic "bget: no buffers"
      | Some (Some b) =>
          upd_buf (fun bb => set_refcnt 1 (set_flags 0 (set_id dev blockno bb))) b;;
          on_lock b (acquiresleep (cur_pid s));;
          mret b
      end
  end.

Definition bread (dev blockno : Z) : KM bio nat :=
  b ← bget dev blockno;
  bb ← get_buf b;
  (if Z.land (b_flags bb) B_VALID =? 0 then iderw b else mret tt);;
  mret b.

Definition bwrite (b : nat) : KM bio unit :=
  h ← on_lock b holdingsleep;
  if negb h then panic "bwrite" else
  upd_buf (fun bb => set_flags (Z.lor (b_flags bb) B_DIRTY) bb) b;;
  iderw b.

Definition brelse (b : nat) : KM bio unit :=
  h ← on_lock b holdingsleep;
  if negb h then panic "brelse" else
  on_lock b releasesleep;;
  upd_buf (fun bb => set_refcnt (u32 (b_refcnt bb - 1)) bb) b;;
  bb ← get_buf b;
  if b_refcnt bb =? 0 then
    kmodify (fun s => set_bufs (push_front b (unlink b (bufs s))) s)
  else mret tt.

(** Reading and writing [bp->data], and [bp->flags |= B_DIRTY]. *)
Definition bp_data (h : nat) : KM bio block := bb ← get_buf h; mret (b_data bb).
Definition bset (h : nat) (d : block) : KM bio unit := upd_buf (set_data d) h.
Definition bput (h off : nat) (bytes : list Z) : KM bio unit :=
  d ← bp_data h; bset h (splice off bytes d).
Definition bmark (h : nat) : KM bio unit :=
  upd_buf (fun bb => set_flags (Z.lor (b_flags bb) B_DIRTY) bb) h.

(** ** The circular list *)

Definition nxt (bs : list buf) (x : nat) : option nat := b_next <$> bs !! x.
Definition prv (bs : list buf) (x : nat) : option nat := b_prev <$> bs !! x.

(** Neighbours in [l] are linked in both directions. *)
Fixpoint chain (bs : list buf) (l : list nat) : Prop :=
  match l with
  | x :: (y :: _) as l => nxt bs x = Some y /\ prv bs y = Some x /\ chain bs l
  | _ => True
  end.

(** [l] is the list the links represent, from the most recently used. *)
Definition lru (bs : list buf) (l : list nat) : Prop :=
  chain bs (HEAD :: l ++ [HEAD]) /\ NoDup (HEAD :: l).

Lemma nxt_set_next bs i j x :
  nxt (alter (set_next j) i bs) x = if decide (x = i) then (fun _ => j) <$> bs !! i else nxt bs x.
Proof.
  unfold nxt. rewrite list_lookup_alter. case_decide as E; [subst|].
  - rewrite decide_True by done. by destruct (bs !! x).
  - by rewrite decide_False by congruence.
Qed.
Lemma prv_set_prev bs i j x :
  prv (alter (set_prev j) i bs) x = if decide (x = i) then (fun _ => j) <$> bs !! i else prv bs x.
Proof.
  unfold prv. rewrite list_lookup_alter. case_decide as E; [subst|].
  - rewrite decide_True by done. by destruct (bs !! x).
  - by rewrite decide_False by congruence.
Qed.
Lemma nxt_alter (f : buf -> buf) bs i x :
  (forall b, b_next (f b) = b_next b) -> nxt (alter f i bs) x = nxt bs x.
Proof.
  intros Hf. unfold nxt. rewrite list_lookup_alter. case_decide; [subst|done].
  destruct (bs !! x); simpl; [by rewrite Hf|done].
Qed.
Lemma prv_alter (f : buf -> buf) bs i x :
  (forall b, b_prev (f b) = b_prev b) -> prv (alter f i bs) x = prv bs x.
Proof.
  intros Hf. unfold prv. rewrite list_lookup_alter. case_decide; [subst|done].
  destruct (bs !! x); simpl; [by rewrite Hf|done].
Qed.

Lemma const_lookup_alter {A} (v : A) (f : buf -> buf) (bs : list buf) (j x : nat) :
  (fun _ => v) <$> alter f j bs !! x = (fun _ => v) <$> bs !! x.
Proof. rewrite list_lookup_alter. case_decide; [subst|done]. by destruct (bs !! x). Qed.

(** A chain depends on the [next] of all but the last and the [prev] of all
    but the first. *)
Lemma chain_ext bs bs' l :
  (forall l1 x y l2, l = l1 ++ x :: y :: l2 -> nxt bs' x = nxt bs x /\ prv bs' y = prv bs y) ->
  chain bs l -> chain bs' l.
Proof.
  induction l as [|x [|y l] IH]; intros H; [done..|].
  intros (H1 & H2 & H3).
  destruct (H [] x y l eq_refl) as [E1 E2]. cbn. rewrite E1, E2.
  split; [done|]. split; [done|]. apply IH; [|done].
  intros l1 a b l2 E. apply (H (x :: l1) a b l2). simpl. by rewrite E.
Qed.

Lemma chain_app bs l1 x l2 :
  chain bs (l1 ++ x :: l2) <-> chain bs (l1 ++ [x]) /\ chain bs (x :: l2).
Proof.
  induction l1 as [|a [|b l1] IH].
  - simpl. tauto.
  - simpl. destruct l2; tauto.
  - change ((a :: b :: l1) ++ x :: l2) with (a :: b :: l1 ++ x :: l2).
    change ((a :: b :: l1) ++ [x]) with (a :: b :: l1 ++ [x]).
    cbn [chain]. change (b :: l1 ++ x :: l2) with ((b :: l1) ++ x :: l2).
    change (b :: l1 ++ [x]) with ((b :: l1) ++ [x]). rewrite IH. tauto.
Qed.

#[local] Arguments chain : simpl never.

Lemma chain_alter (f : buf -> buf) bs i l :
  (forall b, b_next (f b) = b_next b) -> (forall b, b_prev (f b) = b_prev b) ->
  chain bs l -> chain (alter f i bs) l.
Proof.
  intros H1 H2. apply chain_ext. intros. by rewrite nxt_alter, prv_alter.
Qed.

Lemma chain_set_next bs i j l z :
  i ∉ l -> chain bs (l ++ [z]) -> chain (alter (set_next j) i bs) (l ++ [z]).
Proof.
  intros H. apply chain_ext. intros l1 x y l2 E.
  rewrite nxt_set_next, prv_alter by done. split; [|done].
  rewrite decide_False; [done|]. intros ->. apply H.
  destruct l2 as [|w l2 _] using rev_ind.
  - change (l1 ++ [i; y]) with (l1 ++ [i] ++ [y]) in E.
    rewrite app_assoc in E. apply app_inj_tail in E as [-> _]. set_solver.
  - change (l1 ++ i :: y :: l2 ++ [w]) with (l1 ++ (i :: y :: l2) ++ [w]) in E.
    rewrite app_assoc in E. apply app_inj_tail in E as [-> _]. set_solver.
Qed.
Lemma chain_set_prev bs i j z l :
  i ∉ l -> chain bs (z :: l) -> chain (alter (set_prev j) i bs) (z :: l).
Proof.
  intros H. apply chain_ext. intros l1 x y l2 E.
  rewrite prv_set_prev, nxt_alter by done. split; [done|].
  rewrite decide_False; [done|]. intros ->. apply H.
  destruct l1 as [|w l1]; simplify_eq/=; set_solver.
Qed.

Lemma chain_head_next bs x y l : chain bs (x :: y :: l) -> nxt bs x = Some y.
Proof. by intros [? _]. Qed.

Lemma lru_in_range bs l x : lru bs l -> x ∈ HEAD :: l -> is_Some (bs !! x).
Proof.
  intros [Hc _] Hx. apply list_elem_of_split in Hx as (l1 & l2 & E).
  assert (Hc' : chain bs (l1 ++ x :: l2 ++ [HEAD])).
  { change (HEAD :: l ++ [HEAD]) with ((HEAD :: l) ++ [HEAD]) in Hc. rewrite E in Hc.
    by rewrite <- app_assoc in Hc. }
  apply chain_app in Hc' as [_ Hc'].
  destruct (l2 ++ [HEAD]) eqn:E2; [by destruct l2|].
  apply chain_head_next in Hc'. unfold nxt in Hc'. destruct (bs !! x); [eauto|done].
Qed.

(** The links of [i] read through the array. *)
Lemma nxt_lookup bs i j : nxt bs i = Some j -> from_option b_next HEAD (bs !! i) = j.
Proof. unfold nxt. destruct (bs !! i); simpl; congruence. Qed.
Lemma prv_lookup bs i j : prv bs i = Some j -> from_option b_prev HEAD (bs !! i) = j.
Proof. unfold prv. destruct (bs !! i); simpl; congruence. Qed.

Lemma unlink_eq bs i n p :
  nxt bs i = Some n -> prv bs i = Some p -> n <> i ->
  unlink i bs = alter (set_next n) p (alter (set_prev p) n bs).
Proof.
  intros Hn Hp Hne. unfold unlink.
  rewrite (nxt_lookup _ _ _ Hn), (prv_lookup _ _ _ Hp).
  rewrite (nxt_lookup _ _ n), (prv_lookup _ _ p); [done| |].
  - rewrite prv_set_prev. by rewrite decide_False by congruence.
  - by rewrite nxt_alter.
Qed.

(** [b->next->prev = b->prev; b->prev->next = b->next] takes [b] out. *)
Lemma unlink_lru bs l1 i l2 :
  lru bs (l1 ++ i :: l2) -> lru (unlink i bs) (l1 ++ l2).
Proof.
  intros [Hc Hd]. rewrite <- app_assoc in Hc. simpl in Hc.
  rewrite app_comm_cons in Hc. apply chain_app in Hc as [Hc1 Hc2].
  rewrite app_comm_cons in Hd. apply NoDup_app in Hd as (Hd1 & Hd12 & Hd2).
  apply NoDup_cons in Hd2 as [Hi2 Hd2]. apply NoDup_cons in Hd1 as Hh.
  destruct (HEAD :: l1) as [|p A _] eqn:EA using rev_ind; [done|].
  rewrite <- app_assoc in Hc1. apply chain_app in Hc1 as [Hc1 (Hpi & Hip & _)].
  destruct (l2 ++ [HEAD]) as [|n B] eqn:EB; [by destruct l2|].
  destruct Hc2 as (Hin & Hni & Hc2).
  assert (Hp : p ∉ A) by (apply NoDup_app in Hd1; set_solver).
  assert (Hpl : p ∉ l2) by set_solver.
  assert (Hhead : HEAD ∉ i :: l2) by (apply Hd12; rewrite <- EA; set_solver).
  assert (Hn : n ∉ l1).
  { destruct l2 as [|n' l2]; simplify_eq/=; [tauto|].
    intros Hn. apply (Hd12 n); [rewrite <- EA|]; set_solver. }
  assert (HnB : n ∉ B).
  { assert (NoDup (n :: B)) as Hnb; [|by apply NoDup_cons in Hnb as [? ?]].
    rewrite <- EB. apply NoDup_app. repeat split; [done| |apply NoDup_singleton]. set_solver. }
  rewrite (unlink_eq _ _ n p) by (done || (intros ->; set_solver)).
  split.
  - replace (HEAD :: (l1 ++ l2) ++ [HEAD]) with ((HEAD :: l1) ++ (l2 ++ [HEAD]))
      by (simpl; by rewrite app_assoc).
    rewrite EA, EB, <- app_assoc. apply chain_app. split; [|split; [|split]].
    + apply chain_set_next; [done|]. rewrite <- EA. apply chain_set_prev; [done|]. by rewrite EA.
    + rewrite nxt_set_next, decide_True by done. rewrite const_lookup_alter.
      unfold nxt in Hpi. by destruct (bs !! p).
    + rewrite prv_alter by done. rewrite prv_set_prev, decide_True by done.
      unfold prv in Hni. by destruct (bs !! n).
    + rewrite <- EB. apply chain_set_next; [done|]. rewrite EB. by apply chain_set_prev.
  - rewrite app_comm_cons, EA. apply NoDup_app. split; [done|]. split; [set_solver|done].
Qed.

(** The four assignments that put [b] at the front. *)
Lemma push_front_lru bs l i :
  lru bs l -> i ∉ HEAD :: l -> is_Some (bs !! i) -> lru (push_front i bs) (i :: l).
Proof.
  intros [Hc Hd] Hi [b Hb]. apply not_elem_of_cons in Hi as [HiH Hi].
  pose proof Hd as Hh. apply NoDup_cons in Hh as [Hh _].
  destruct (l ++ [HEAD]) as [|h B] eqn:EB; [by destruct l|].
  destruct Hc as (Hnh & Hph & Hc).
  assert (HnB : h ∉ B).
  { assert (NoDup (h :: B)) as Hnb; [|by apply NoDup_cons in Hnb as [? ?]].
    rewrite <- EB. apply NoDup_app. apply NoDup_cons in Hd as [? ?].
    repeat split; [done| |apply NoDup_singleton]. set_solver. }
  assert (Hih : i <> h).
  { intros ->. assert (h ∈ l ++ [HEAD]) as Hin by (rewrite EB; set_solver). set_solver. }
  assert (HiB : i ∉ B).
  { intros Hin. assert (i ∈ l ++ [HEAD]) as Hin' by (rewrite EB; set_solver). set_solver. }
  unfold push_front. rewrite (nxt_lookup _ _ _ Hnh).
  split; [|apply NoDup_cons; split; [set_solver|]; apply NoDup_cons; split; [done|];
           by apply NoDup_cons in Hd as [? ?]].
  simpl. rewrite EB. repeat split.
  - rewrite nxt_set_next, decide_True by done.
    rewrite !const_lookup_alter. unfold nxt in Hnh. by destruct (bs !! HEAD).
  - rewrite prv_alter by done. rewrite prv_set_prev, decide_False by done.
    rewrite prv_set_prev, decide_True by done. by rewrite const_lookup_alter, Hb.
  - rewrite nxt_set_next, decide_False by done. rewrite !nxt_alter by done.
    rewrite nxt_set_next, decide_True by done. by rewrite Hb.
  - rewrite prv_alter by done. rewrite prv_set_prev, decide_True by done.
    rewrite !const_lookup_alter. unfold prv in Hph. by destruct (bs !! h).
  - rewrite <- EB. apply chain_set_next; [done|]. rewrite EB.
    apply chain_set_prev; [done|]. apply chain_set_prev; [done|].
    rewrite <- EB. apply chain_set_next; [done|]. by rewrite EB.
Qed.

(** ** The scans of [bget] *)

(** The first buffer of [l] that satisfies [p]. *)
Fixpoint first_such (bs : list buf) (p : buf -> bool) (l : list nat) : option nat :=
  match l with
  | [] => None
  | i :: l =>
      match bs !! i with
      | Some b => if p b then Some i else first_such bs p l
      | None => first_such bs p l
      end
  end.

Lemma first_such_Some bs p l i :
  first_such bs p l = Some i -> i ∈ l /\ exists b, bs !! i = Some b /\ p b = true.
Proof.
  induction l as [|j l IH]; [done|]. simpl. intros H.
  destruct (bs !! j) as [b|] eqn:E; [destruct (p b) eqn:Ep|].
  - simplify_eq. split; [set_solver|eauto].
  - destruct (IH H) as [? ?]. split; [set_solver|done].
  - destruct (IH H) as [? ?]. split; [set_solver|done].
Qed.
Lemma first_such_None bs p l i b :
  first_such bs p l = None -> i ∈ l -> bs !! i = Some b -> p b = false.
Proof.
  induction l as [|j l IH]; [set_solver|]. simpl. intros H [->|Hi]%elem_of_cons Hb.
  - rewrite Hb in H. by destruct (p b).
  - destruct (bs !! j) as [b'|]; [destruct (p b')|]; eauto. done.
Qed.

Lemma scan_next bs p z l fuel :
  chain bs (z :: l ++ [HEAD]) -> HEAD ∉ l -> (length l < fuel)%nat ->
  scan bs b_next p fuel (default HEAD (head l)) = Some (first_such bs p l).
Proof.
  revert z fuel. induction l as [|i l IH]; intros z [|fuel] Hc Hh Hf; try (simpl in Hf; lia).
  - done.
  - change (default HEAD (head (i :: l))) with i. cbn [scan].
    rewrite (proj2 (Nat.eqb_neq i HEAD)) by set_solver.
    destruct Hc as (_ & _ & Hc). cbn [app] in Hc.
    assert (Hn : nxt bs i = Some (default HEAD (head l))).
    { destruct l; by destruct Hc as (? & _). }
    pose proof Hn as Hn'. unfold nxt in Hn'. destruct (bs !! i) as [b|] eqn:Eb; [|done].
    simpl in Hn'. simplify_eq. cbn [first_such]. rewrite Eb. destruct (p b); [done|].
    rewrite Hn'. apply (IH i); [done|set_solver|simpl in Hf; lia].
Qed.

Lemma scan_prev bs p z l fuel :
  chain bs (HEAD :: l ++ [z]) -> HEAD ∉ l -> (length l < fuel)%nat ->
  scan bs b_prev p fuel (default HEAD (last l)) = Some (first_such bs p (reverse l)).
Proof.
  revert z fuel. induction l as [|i l IH] using rev_ind; intros z [|fuel] Hc Hh Hf;
    try (simpl in Hf; lia).
  - done.
  - rewrite last_snoc, reverse_snoc. change (default HEAD (Some i)) with i. cbn [scan].
    rewrite (proj2 (Nat.eqb_neq i HEAD)) by set_solver.
    rewrite <- app_assoc in Hc. simpl in Hc. rewrite app_comm_cons in Hc.
    apply chain_app in Hc as [Hc _].
    assert (Hn : prv bs i = Some (default HEAD (last l))).
    { destruct l as [|j l _] using rev_ind; [by destruct Hc as (_ & ? & _)|].
      rewrite last_snoc. rewrite app_comm_cons, <- app_assoc in Hc.
      apply chain_app in Hc as [_ (_ & ? & _)]. done. }
    unfold prv in Hn. destruct (bs !! i) as [b|] eqn:Eb; [|done].
    simpl in Hn. simplify_eq. cbn [first_such]. rewrite Eb. destruct (p b); [done|].
    rewrite Hn. apply (IH i); [done|set_solver|rewrite length_app in Hf; simpl in Hf; lia].
Qed.

(** With the links in order, [bget]'s loops visit every buffer once, in LRU
    order one way and in the reverse order the other way. *)
Lemma lru_scans bs l hb p :
  lru bs l -> l ≡ₚ seq 0 NBUF -> bs !! HEAD = Some hb ->
  scan bs b_next p (S NBUF) (b_next hb) = Some (first_such bs p l) /\
  scan bs b_prev p (S NBUF) (b_prev hb) = Some (first_such bs p (reverse l)).
Proof.
  intros [Hc Hd] Hp Hb. apply NoDup_cons in Hd as [Hh _].
  assert (Hlen : length l = NBUF) by (rewrite Hp; apply length_seq).
  split.
  - replace (b_next hb) with (default HEAD (head l)); [apply (scan_next _ _ HEAD); auto; lia|].
    assert (Hn : nxt bs HEAD = Some (default HEAD (head l))).
    { destruct l; by destruct Hc as (? & _). }
    unfold nxt in Hn. rewrite Hb in Hn. by simplify_eq/=.
  - replace (b_prev hb) with (default HEAD (last l)); [apply (scan_prev _ _ HEAD); auto; lia|].
    assert (Hn : prv bs HEAD = Some (default HEAD (last l))).
    { destruct l as [|j l _] using rev_ind; [by destruct Hc as (_ & ? & _)|].
      rewrite last_snoc. rewrite <- app_assoc, app_comm_cons in Hc.
      apply chain_app in Hc as [_ (_ & ? & _)]. done. }
    unfold prv in Hn. rewrite Hb in Hn. by simplify_eq/=.
Qed.
