(* ===== verification/BioSpec.v ===== *)
(** * The buffer cache implements a block store

    [babs] is what the rest of the kernel may assume of the buffer cache: the
    contents of every block, which blocks are held through which buffer, which
    are dirty (pinned until they are written to the disk), which have been
    changed by their holder since, and the disk itself.  [bio_repr] relates a
    concrete cache to it; each routine of [bio.c] is shown to return and to
    make the step [babs] promises. *)

From S2P Require Import Prelude Sleeplock Bio.

Record babs := mkbabs {
  ba_disk : list block;
  ba_view : gmap Z block;
  ba_held : gmap nat Z;
  ba_dirty : gset Z;
  ba_mod : gset Z
}.

Definition a_hold (h : nat) (b : Z) (a : babs) : babs :=
  mkbabs (ba_disk a) (ba_view a) (<[h := b]> (ba_held a)) (ba_dirty a) (ba_mod a).
Definition a_drop (h : nat) (a : babs) : babs :=
  mkbabs (ba_disk a) (ba_view a) (delete h (ba_held a)) (ba_dirty a) (ba_mod a).
Definition a_setdata (b : Z) (d : block) (a : babs) : babs :=
  mkbabs (ba_disk a) (<[b := d]> (ba_view a)) (ba_held a) (ba_dirty a) ({[b]} ∪ ba_mod a).
Definition a_mark (b : Z) (a : babs) : babs :=
  mkbabs (ba_disk a) (ba_view a) (ba_held a) ({[b]} ∪ ba_dirty a) (ba_mod a ∖ {[b]}).
Definition a_write (b : Z) (d : block) (a : babs) : babs :=
  mkbabs (<[Z.to_nat b := d]> (ba_disk a)) (ba_view a) (ba_held a)
         (ba_dirty a ∖ {[b]}) (ba_mod a ∖ {[b]}).

(** The blocks that may not be evicted. *)
Definition pinned (a : babs) : gset Z := map_img (ba_held a) ∪ ba_dirty a.

(** A buffer without its links. *)
Record payload := mkpay {
  p_flags : Z; p_dev : Z; p_blockno : Z; p_lock : sleeplock; p_refcnt : Z; p_data : block
}.
Definition pay (b : buf) : payload :=
  mkpay (b_flags b) (b_dev b) (b_blockno b) (b_lock b) (b_refcnt b) (b_data b).
Definition pays (bs : list buf) : list payload := pay <$> take NBUF bs.

Definition pay_idle (p : payload) : Prop :=
  p_dev p = 0 /\ p_flags p = 0 /\ sl_locked (p_lock p) = false /\ p_refcnt p = 0.
Definition pay_used (p : payload) : Prop :=
  p_dev p = ROOTDEV /\ (p_flags p = 2 \/ p_flags p = 6) /\
  p_refcnt p = if sl_locked (p_lock p) then 1 else 0.

Record cache_ok (ps : list payload) (disk : list block) (a : babs) : Prop := mkcache_ok {
  co_len : length ps = NBUF;
  co_disk : ba_disk a = disk;
  co_pay : forall i p, ps !! i = Some p -> pay_idle p \/ pay_used p;
  co_uniq : forall i j p q, ps !! i = Some p -> ps !! j = Some q ->
    p_dev p = ROOTDEV -> p_dev q = ROOTDEV -> p_blockno p = p_blockno q -> i = j;
  co_view : forall i p, ps !! i = Some p -> p_dev p = ROOTDEV ->
    ba_view a !! p_blockno p = Some (p_data p);
  co_dom : forall b, is_Some (ba_view a !! b) <-> 0 <= b < Z.of_nat (length disk);
  co_clean : forall b d, ba_view a !! b = Some d -> b ∉ ba_dirty a -> b ∉ ba_mod a ->
    disk !! Z.to_nat b = Some d;
  co_held : forall i b, ba_held a !! i = Some b <->
    exists p, ps !! i = Some p /\ p_dev p = ROOTDEV /\ sl_locked (p_lock p) = true /\ p_blockno p = b;
  co_dirty : forall b, b ∈ ba_dirty a <->
    exists i p, ps !! i = Some p /\ p_dev p = ROOTDEV /\ p_flags p = 6 /\ p_blockno p = b;
  co_mod : forall b, b ∈ ba_mod a -> exists i, ba_held a !! i = Some b
}.

Record bio_repr (s : bio) (a : babs) : Prop := mkbio_repr {
  br_len : length (bufs s) = S NBUF;
  br_lru : exists l, lru (bufs s) l /\ l ≡ₚ seq 0 NBUF;
  br_cache : cache_ok (pays (bufs s)) (d_disk s) a
}.

(** ** One-slot updates of the cache *)

(** Case analysis on a lookup in a list with one updated slot. *)
Ltac slot H :=
  apply list_lookup_insert_Some in H as [(? & ? & ?)|(? & H)]; simplify_eq.

Section cache_steps.
Context (ps : list payload) (disk : list block) (a : babs).
Hypothesis OK : cache_ok ps disk a.

Lemma used_of_dev i p : ps !! i = Some p -> p_dev p = ROOTDEV -> pay_used p.
Proof.
  intros Hi Hd. destruct (co_pay _ _ _ OK _ _ Hi) as [(H & _)|]; [|done].
  rewrite Hd in H. done.
Qed.

Lemma held_inv h b :
  ba_held a !! h = Some b ->
  exists p, ps !! h = Some p /\ pay_used p /\ sl_locked (p_lock p) = true /\ p_blockno p = b /\
            ba_view a !! b = Some (p_data p) /\ (h < length ps)%nat.
Proof.
  intros Hh. apply (co_held _ _ _ OK) in Hh as (p & Hp & Hd & Hl & Hb).
  exists p. pose proof (used_of_dev _ _ Hp Hd). repeat split; auto; try apply H.
  - rewrite <- Hb. by apply (co_view _ _ _ OK h).
  - by eapply lookup_lt_Some.
Qed.

Lemma held_unique h h' b : ba_held a !! h = Some b -> ba_held a !! h' = Some b -> h = h'.
Proof.
  intros (p & Hp & Hd & _ & Hb)%(co_held _ _ _ OK) (q & Hq & Hd' & _ & Hb')%(co_held _ _ _ OK).
  eapply (co_uniq _ _ _ OK); eauto. congruence.
Qed.

Lemma cache_hold_hit (i : nat) (p : payload) (l : sleeplock) :
  ps !! i = Some p -> p_dev p = ROOTDEV -> sl_locked l = true ->
  cache_ok (<[i := mkpay (p_flags p) (p_dev p) (p_blockno p) l 1 (p_data p)]> ps) disk
           (a_hold i (p_blockno p) a).
Proof.
  intros Hi Hd Hl. pose proof (used_of_dev _ _ Hi Hd) as Hu.
  pose proof (lookup_lt_Some _ _ _ Hi) as Hlt.
  destruct OK as [O1 O2 O3 O4 O5 O6 O7 O8 O9 O10]. split; simpl; auto.
  - by rewrite length_insert.
  - intros j q Hj. slot Hj; eauto. right. unfold pay_used in *. simpl. rewrite Hl. tauto.
  - intros j k q r Hj Hk. slot Hj; slot Hk; simpl; eauto.
  - intros j q Hj Hq. slot Hj; simpl; eauto.
  - intros j b. destruct (decide (i = j)) as [<-|].
    + rewrite lookup_insert_eq. split.
      * intros [= <-]. eexists. rewrite list_lookup_insert_eq by done. done.
      * intros (q & Hq & _ & _ & <-). rewrite list_lookup_insert_eq in Hq by done. by simplify_eq.
    + rewrite lookup_insert_ne, list_lookup_insert_ne by done. apply O8.
  - intros b. rewrite O9. split.
    + intros (j & q & Hj & Hq & Hf & Hb). destruct (decide (i = j)) as [<-|].
      * exists i. eexists. rewrite list_lookup_insert_eq by done. by simplify_eq.
      * exists j, q. by rewrite list_lookup_insert_ne.
    + intros (j & q & Hj & Hq & Hf & Hb). slot Hj; simplify_eq/=; eauto 10.
  - intros b Hb. destruct (O10 b Hb) as [j Hj]. destruct (decide (i = j)) as [<-|].
    + exists i. rewrite lookup_insert_eq. apply O8 in Hj as (q & Hq & _ & _ & <-). by simplify_eq.
    + exists j. by rewrite lookup_insert_ne.
Qed.

Lemma cache_hold_miss (i : nat) (p : payload) (l : sleeplock) (b : Z) (d : block) :
  ps !! i = Some p -> p_refcnt p = 0 -> Z.land (p_flags p) B_DIRTY = 0 -> sl_locked l = true ->
  ba_view a !! b = Some d ->
  (forall j q, ps !! j = Some q -> p_dev q = ROOTDEV -> p_blockno q <> b) ->
  ba_held a !! i = None /\
  cache_ok (<[i := mkpay 2 ROOTDEV b l 1 d]> ps) disk (a_hold i b a).
Proof.
  intros Hi Hr Hf Hl Hv Hno. pose proof (lookup_lt_Some _ _ _ Hi) as Hlt.
  assert (Hun : sl_locked (p_lock p) = false).
  { destruct (co_pay _ _ _ OK _ _ Hi) as [(_ & _ & ? & _)|(_ & _ & E)]; [done|].
    destruct (sl_locked (p_lock p)); [lia|done]. }
  assert (Hnd : p_flags p <> 6) by (intros E; by rewrite E in Hf).
  assert (Hnh : ba_held a !! i = None).
  { destruct (ba_held a !! i) as [b'|] eqn:E; [|done].
    apply (co_held _ _ _ OK) in E as (q & Hq & _ & Hq' & _). simplify_eq. congruence. }
  split; [done|].
  destruct OK as [O1 O2 O3 O4 O5 O6 O7 O8 O9 O10]. split; simpl; auto.
  - by rewrite length_insert.
  - intros j q Hj. slot Hj; eauto. right. unfold pay_used. simpl. rewrite Hl. tauto.
  - intros j k q r Hj Hk. slot Hj; slot Hk; simpl; eauto.
    + intros _ Hr' E. by destruct (Hno _ _ Hk Hr').
    + intros Hq _ E. by destruct (Hno _ _ Hj Hq).
  - intros j q Hj Hq. slot Hj; simpl; eauto.
  - intros j b'. destruct (decide (i = j)) as [<-|].
    + rewrite lookup_insert_eq. split.
      * intros [= <-]. eexists. rewrite list_lookup_insert_eq by done. done.
      * intros (q & Hq & _ & _ & <-). rewrite list_lookup_insert_eq in Hq by done. by simplify_eq.
    + rewrite lookup_insert_ne, list_lookup_insert_ne by done. apply O8.
  - intros b'. rewrite O9. split.
    + intros (j & q & Hj & Hq & Hqf & Hb). destruct (decide (i = j)) as [<-|].
      * simplify_eq.
      * exists j, q. by rewrite list_lookup_insert_ne.
    + intros (j & q & Hj & Hq & Hqf & Hb). slot Hj; simplify_eq/=; eauto 10.
  - intros b' Hb. destruct (O10 b' Hb) as [j Hj]. exists j.
    rewrite lookup_insert_ne by congruence. done.
Qed.

(** The holder [h] of block [b] replaces the payload of its buffer, keeping
    the block, the lock and the reference; the cases that follow differ in the
    flags, the data and the disk. *)
Lemma cache_update h b p f d disk' view' dirty' mod' :
  ba_held a !! h = Some b -> ps !! h = Some p ->
  f = 2 \/ f = 6 ->
  length disk' = length disk ->
  view' = <[b := d]> (ba_view a) ->
  (forall b', b' ∈ dirty' <-> if decide (b' = b) then f = 6 else b' ∈ ba_dirty a) ->
  (forall b', b' ∈ mod' -> b' = b \/ b' ∈ ba_mod a) ->
  (forall b' d', view' !! b' = Some d' -> b' ∉ dirty' -> b' ∉ mod' ->
     disk' !! Z.to_nat b' = Some d') ->
  cache_ok (<[h := mkpay f (p_dev p) (p_blockno p) (p_lock p) (p_refcnt p) d]> ps) disk'
           (mkbabs disk' view' (ba_held a) dirty' mod').
Proof.
  intros Hh Hp Hf Hlen -> Hdirty Hmod Hclean.
  destruct (held_inv _ _ Hh) as (p' & Hp' & Hu & Hl & Hb & Hv & Hlt). simplify_eq.
  destruct Hu as (Hd & _ & Hr).
  destruct OK as [O1 O2 O3 O4 O5 O6 O7 O8 O9 O10]. split; simpl; auto.
  - by rewrite length_insert.
  - intros j q Hj. slot Hj; eauto. right. by repeat split.
  - intros j k q r Hj Hk. slot Hj; slot Hk; simpl; eauto.
  - intros j q Hj Hq. slot Hj; simpl; [by rewrite lookup_insert_eq|].
    rewrite lookup_insert_ne; [by eauto|]. intros E.
    by destruct (O4 _ _ _ _ Hp Hj Hd Hq E).
  - intros b. rewrite Hlen, <- O6. rewrite lookup_insert. case_decide; subst; [|done].
    rewrite Hv. by split.
  - intros j b. rewrite O8. destruct (decide (h = j)) as [<-|].
    + rewrite list_lookup_insert_eq by done. rewrite Hp.
      split; intros (q & [= <-] & ?); eauto.
    + by rewrite list_lookup_insert_ne.
  - intros b. rewrite Hdirty. case_decide as E; [subst|rewrite O9]; split.
    + intros ->. exists h. eexists. by rewrite list_lookup_insert_eq.
    + intros (j & q & Hj & Hq & Hqf & Hb). slot Hj; [done|].
      by destruct (O4 _ _ _ _ Hp Hj Hd Hq (eq_sym Hb)).
    + intros (j & q & Hj & Hq & Hqf & Hb). exists j, q.
      rewrite list_lookup_insert_ne; [done|]. intros <-. by simplify_eq.
    + intros (j & q & Hj & Hq & Hqf & Hb). slot Hj; eauto 10.
  - intros b Hb. destruct (Hmod b Hb) as [->|]; eauto.
Qed.

Lemma cache_drop h b p l :
  ba_held a !! h = Some b -> ps !! h = Some p -> b ∉ ba_mod a -> sl_locked l = false ->
  cache_ok (<[h := mkpay (p_flags p) (p_dev p) (p_blockno p) l 0 (p_data p)]> ps) disk (a_drop h a).
Proof.
  intros Hh Hp Hm Hl.
  destruct (held_inv _ _ Hh) as (p' & Hp' & Hu & Hlk & Hb & Hv & Hlt). simplify_eq.
  destruct Hu as (Hd & Hf & Hr).
  destruct OK as [O1 O2 O3 O4 O5 O6 O7 O8 O9 O10]. split; simpl; auto.
  - by rewrite length_insert.
  - intros j q Hj. slot Hj; eauto. right. repeat split; simpl; auto. by rewrite Hl.
  - intros j k q r Hj Hk. slot Hj; slot Hk; simpl; eauto.
  - intros j q Hj Hq. slot Hj; simpl; eauto.
  - intros j b. destruct (decide (h = j)) as [<-|].
    + rewrite lookup_delete_eq. split; [done|]. intros (q & Hq & _ & Hq' & _).
      rewrite list_lookup_insert_eq in Hq by done. simplify_eq/=. congruence.
    + rewrite lookup_delete_ne, list_lookup_insert_ne by done. apply O8.
  - intros b. rewrite O9. split.
    + intros (j & q & Hj & Hq & Hqf & Hb). destruct (decide (h = j)) as [<-|].
      * exists h. eexists. rewrite list_lookup_insert_eq by done. by simplify_eq.
      * exists j, q. by rewrite list_lookup_insert_ne.
    + intros (j & q & Hj & Hq & Hqf & Hb). slot Hj; simplify_eq/=; eauto 10.
  - intros b Hb. destruct (O10 b Hb) as [j Hj]. exists j.
    rewrite lookup_delete_ne; [done|]. intros <-. congruence.
Qed.

Lemma dirty_flag h p b :
  ps !! h = Some p -> p_dev p = ROOTDEV -> p_blockno p = b ->
  b ∈ ba_dirty a <-> p_flags p = 6.
Proof.
  intros Hp Hd Hb. rewrite (co_dirty _ _ _ OK). split.
  - intros (i & q & Hq & Hqd & Hf & Hqb).
    assert (h = i) as <- by (eapply (co_uniq _ _ _ OK); eauto; congruence). by simplify_eq.
  - intros Hf. by exists h, p.
Qed.

(** If fewer than [NBUF] blocks are pinned, some buffer can be recycled. *)
Lemma cache_room :
  (size (pinned a) < NBUF)%nat ->
  exists i p, ps !! i = Some p /\ p_refcnt p = 0 /\ Z.land (p_flags p) B_DIRTY = 0.
Proof.
  intros Hsz.
  destruct (decide (Exists (fun p => p_refcnt p = 0 /\ Z.land (p_flags p) B_DIRTY = 0) ps))
    as [(p & Hin & Hp)%Exists_exists|Hno].
  { apply list_elem_of_lookup in Hin as [i Hi]. eauto. }
  exfalso. apply not_Exists_Forall in Hno; [|apply _]. rewrite Forall_lookup in Hno.
  assert (Hall : forall i p, ps !! i = Some p -> p_dev p = ROOTDEV /\ p_blockno p ∈ pinned a).
  { intros i p Hi. specialize (Hno _ _ Hi).
    destruct (co_pay _ _ _ OK _ _ Hi) as [(_ & Hf & _ & Hr)|(Hd & Hf & Hr)].
    { destruct Hno. by rewrite Hf. }
    split; [done|]. unfold pinned. apply elem_of_union.
    destruct (sl_locked (p_lock p)) eqn:El.
    - left. apply elem_of_map_img. exists i. apply (co_held _ _ _ OK). eauto.
    - right. apply (co_dirty _ _ _ OK). exists i, p. destruct Hf as [Hf|]; [|done].
      destruct Hno. by rewrite Hf. }
  assert (Hnd : NoDup (p_blockno <$> ps)).
  { apply NoDup_alt. intros i j b Hi Hj.
    apply list_lookup_fmap_Some in Hi as (p & -> & Hp), Hj as (q & Hq' & Hq).
    eapply (co_uniq _ _ _ OK); eauto; by eapply Hall. }
  assert (Hsub : list_to_set (p_blockno <$> ps) ⊆ pinned a).
  { intros b Hb. apply elem_of_list_to_set, list_elem_of_fmap in Hb as (p & -> & Hp).
    apply list_elem_of_lookup in Hp as [i Hi]. by eapply Hall. }
  apply subseteq_size in Hsub. rewrite size_list_to_set in Hsub by done.
  rewrite length_fmap, (co_len _ _ _ OK) in Hsub. lia.
Qed.
End cache_steps.

(** ** From the cache to the routines of [bio.c] *)

Lemma pays_lookup bs i : (i < NBUF)%nat -> pays bs !! i = pay <$> bs !! i.
Proof. intros H. unfold pays. by rewrite list_lookup_fmap, lookup_take_lt. Qed.
Lemma pays_lookup_inv bs i p :
  pays bs !! i = Some p -> (i < NBUF)%nat /\ exists b, bs !! i = Some b /\ p = pay b.
Proof.
  unfold pays. intros (b & -> & Hb)%list_lookup_fmap_Some.
  apply lookup_take_Some in Hb as [Hb Hi]. eauto.
Qed.
Lemma pays_alter (f : buf -> buf) bs i b p :
  (i < NBUF)%nat -> bs !! i = Some b -> pay (f b) = p -> pays (alter f i bs) = <[i := p]> (pays bs).
Proof.
  intros Hi Hb <-. apply list_eq. intros j.
  assert (Hlen : length (pays bs) = Nat.min NBUF (length bs)).
  { unfold pays. rewrite length_fmap, length_take. lia. }
  apply lookup_lt_Some in Hb as Hlt.
  destruct (decide (i = j)) as [<-|].
  - rewrite list_lookup_insert_eq by lia. rewrite pays_lookup by done.
    by rewrite list_lookup_alter_eq, Hb.
  - rewrite list_lookup_insert_ne by done.
    unfold pays. rewrite !list_lookup_fmap.
    destruct (decide (j < NBUF)%nat).
    + rewrite !lookup_take_lt by done. by rewrite list_lookup_alter_ne.
    + by rewrite !lookup_take_ge by lia.
Qed.
Lemma pays_alter_links (f : buf -> buf) bs i :
  (forall b, pay (f b) = pay b) -> pays (alter f i bs) = pays bs.
Proof.
  intros Hf. apply list_eq. intros j. unfold pays. rewrite !list_lookup_fmap.
  destruct (decide (j < NBUF)%nat).
  - rewrite !lookup_take_lt by done. rewrite list_lookup_alter. case_decide; [subst|done].
    destruct (bs !! j); simpl; [by rewrite Hf|done].
  - by rewrite !lookup_take_ge by lia.
Qed.
Lemma pays_push_front i bs : pays (push_front i bs) = pays bs.
Proof. unfold push_front. by rewrite !pays_alter_links by done. Qed.
Lemma pays_unlink i bs : pays (unlink i bs) = pays bs.
Proof. unfold unlink. by rewrite !pays_alter_links by done. Qed.
Lemma length_push_front i bs : length (push_front i bs) = length bs.
Proof. unfold push_front. by rewrite !length_alter. Qed.
Lemma length_unlink i bs : length (unlink i bs) = length bs.
Proof. unfold unlink. by rewrite !length_alter. Qed.

Lemma lru_alter (f : buf -> buf) bs i l :
  (forall b, b_next (f b) = b_next b) -> (forall b, b_prev (f b) = b_prev b) ->
  lru bs l -> lru (alter f i bs) l.
Proof. intros H1 H2 [Hc Hd]. split; [|done]. by apply chain_alter. Qed.

Section bio_wp.
Implicit Types (s : bio) (i : nat).

Lemma wp_get_buf s i b (Q : buf -> bio -> Prop) :
  bufs s !! i = Some b -> Q b s -> wp (get_buf i) s Q.
Proof. intros H. unfold wp, get_buf. by rewrite H. Qed.
Lemma wp_upd_buf s i f (Q : unit -> bio -> Prop) :
  Q tt (set_bufs (alter f i (bufs s)) s) -> wp (upd_buf f i) s Q.
Proof. done. Qed.
Lemma wp_on_lock {A} s i b (m : KM sleeplock A) r l (Q : A -> bio -> Prop) :
  bufs s !! i = Some b -> m (b_lock b) = Done r l ->
  Q r (set_bufs (alter (set_lock l) i (bufs s)) s) -> wp (on_lock i m) s Q.
Proof. intros H1 H2. unfold wp, on_lock. by rewrite H1, H2. Qed.
Lemma wp_holding s i b (Q : bool -> bio -> Prop) :
  bufs s !! i = Some b -> Q (sl_locked (b_lock b)) s -> wp (on_lock i holdingsleep) s Q.
Proof.
  intros Hb HQ. apply (wp_on_lock _ _ b _ (sl_locked (b_lock b)) (b_lock b)); [done..|].
  replace (set_bufs _ s) with s; [done|]. destruct s as [bs dk tr pid]. unfold set_bufs. simpl in *.
  f_equal. apply list_eq. intros j. rewrite list_lookup_alter. case_decide; [subst|done].
  rewrite Hb. simpl. f_equal. by destruct b.
Qed.
End bio_wp.

(** A buffer update that leaves the links alone keeps the representation, if
    the payload list it gives is good. *)
Lemma repr_alter s (f : buf -> buf) i b ps' dk' tr' a' :
  (forall b, b_next (f b) = b_next b) -> (forall b, b_prev (f b) = b_prev b) ->
  length (bufs s) = S NBUF -> (exists l, lru (bufs s) l /\ l ≡ₚ seq 0 NBUF) ->
  (i < NBUF)%nat -> bufs s !! i = Some b -> ps' = <[i := pay (f b)]> (pays (bufs s)) ->
  cache_ok ps' dk' a' ->
  bio_repr (mkbio (alter f i (bufs s)) dk' tr' (cur_pid s)) a'.
Proof.
  intros H1 H2 Hlen (l & Hl & Hp) Hi Hb -> Hok. split; simpl.
  - by rewrite length_alter.
  - exists l. split; [|done]. by apply lru_alter.
  - by rewrite (pays_alter _ _ _ b (pay (f b))).
Qed.

(** ** [bp->data] *)

Definition bdata (s : bio) (h : nat) : block := from_option b_data [] (bufs s !! h).

Lemma repr_held s a h b :
  bio_repr s a -> ba_held a !! h = Some b ->
  exists bb, (h < NBUF)%nat /\ bufs s !! h = Some bb /\ pays (bufs s) !! h = Some (pay bb) /\
    pay_used (pay bb) /\ sl_locked (b_lock bb) = true /\ b_blockno bb = b /\
    ba_view a !! b = Some (b_data bb) /\ 0 <= b < Z.of_nat (length (d_disk s)).
Proof.
  intros [Hlen Hl Hc] Hh.
  destruct (held_inv _ _ _ Hc _ _ Hh) as (p & Hp & Hu & Hlk & Hb & Hv & _).
  destruct (pays_lookup_inv _ _ _ Hp) as (Hi & bb & Hbb & ->).
  exists bb. repeat (split; [done|]). apply (co_dom _ _ _ Hc). eauto.
Qed.

Lemma bdata_spec s a h b :
  bio_repr s a -> ba_held a !! h = Some b -> ba_view a !! b = Some (bdata s h).
Proof.
  intros Hr Hh. destruct (repr_held _ _ _ _ Hr Hh) as (bb & _ & Hbb & _ & _ & _ & _ & Hv & _).
  unfold bdata. by rewrite Hbb.
Qed.

Lemma bset_spec s a h b d :
  bio_repr s a -> ba_held a !! h = Some b ->
  wp (bset h d) s (fun _ s' => bio_repr s' (a_setdata b d a) /\
    d_disk s' = d_disk s /\ d_trace s' = d_trace s /\ cur_pid s' = cur_pid s).
Proof.
  intros Hr Hh. destruct (repr_held _ _ _ _ Hr Hh) as (bb & Hi & Hbb & Hp & Hu & Hlk & Hb & Hv & Hrng).
  apply wp_upd_buf. split; [|done]. destruct Hr as [Hlen Hl Hc].
  eapply (repr_alter s _ h bb); try done. rewrite <- (co_disk _ _ _ Hc) at 1.
  eapply (cache_update _ _ _ Hc h b (pay bb) (b_flags bb) d); try done.
  - apply Hu.
  - by rewrite (co_disk _ _ _ Hc).
  - intros b'. case_decide; [subst|done].
    apply (dirty_flag _ _ _ Hc h (pay bb)); [done|apply Hu|done].
  - set_solver.
  - intros b' d' Hb' Hd Hm. rewrite lookup_insert_ne in Hb' by set_solver.
    rewrite (co_disk _ _ _ Hc). apply (co_clean _ _ _ Hc); set_solver.
Qed.

Definition holding (s : bio) (h : nat) : Prop :=
  exists bb, bufs s !! h = Some bb /\ sl_locked (b_lock bb) = true.

Lemma bp_data_spec s a h b d (Q : block -> bio -> Prop) :
  bio_repr s a -> ba_held a !! h = Some b -> ba_view a !! b = Some d -> Q d s ->
  wp (bp_data h) s Q.
Proof.
  intros Hr Hh Hd HQ. destruct (repr_held _ _ _ _ Hr Hh) as (bb & _ & Hbb & _ & _ & _ & _ & Hv & _).
  unfold bp_data. wp_step. eapply wp_get_buf; [done|]. wp_step. congruence.
Qed.
Lemma bput_spec s a h b d off bytes :
  bio_repr s a -> ba_held a !! h = Some b -> ba_view a !! b = Some d ->
  wp (bput h off bytes) s (fun _ s' => bio_repr s' (a_setdata b (splice off bytes d) a) /\
    d_disk s' = d_disk s /\ d_trace s' = d_trace s /\ cur_pid s' = cur_pid s).
Proof.
  intros Hr Hh Hd. unfold bput. wp_step. eapply bp_data_spec; [done..|]. by apply bset_spec.
Qed.

(** Setting [B_DIRTY] on a held buffer, as [log_write] does. *)
Lemma bmark_spec s a h b :
  bio_repr s a -> ba_held a !! h = Some b ->
  wp (bmark h) s (fun _ s' => bio_repr s' (a_mark b a) /\
    d_disk s' = d_disk s /\ d_trace s' = d_trace s /\ cur_pid s' = cur_pid s).
Proof.
  intros Hr Hh. destruct (repr_held _ _ _ _ Hr Hh) as (bb & Hi & Hbb & Hp & Hu & Hlk & Hb & Hv & Hrng).
  apply wp_upd_buf. split; [|done]. destruct Hr as [Hlen Hl Hc].
  eapply (repr_alter s _ h bb); try done. rewrite <- (co_disk _ _ _ Hc) at 1.
  assert (Hf : Z.lor (b_flags bb) B_DIRTY = 6) by (destruct Hu as (_ & [E|E] & _); simpl in E; by rewrite E).
  replace (pay _) with (mkpay 6 (p_dev (pay bb)) (p_blockno (pay bb)) (p_lock (pay bb))
    (p_refcnt (pay bb)) (b_data bb)) by (unfold pay; simpl; by rewrite Hf).
  eapply (cache_update _ _ _ Hc h b (pay bb)); try done.
  - by right.
  - by rewrite (co_disk _ _ _ Hc).
  - by rewrite insert_id.
  - intros b'. case_decide; [subst|]; set_solver.
  - set_solver.
  - intros b' d' Hb' Hd Hm. rewrite (co_disk _ _ _ Hc). apply (co_clean _ _ _ Hc); set_solver.
Qed.

Lemma lookup_alter_eq (F : buf -> buf) (bs : list buf) (i : nat) (b : buf) :
  bs !! i = Some b -> alter F i bs !! i = Some (F b).
Proof. intros H. by rewrite list_lookup_alter_eq, H. Qed.

(** The two branches of [iderw]. *)
Lemma iderw_read s i b d (Q : unit -> bio -> Prop) :
  bufs s !! i = Some b -> sl_locked (b_lock b) = true -> b_flags b = 0 -> b_dev b = ROOTDEV ->
  0 <= b_blockno b < Z.of_nat (length (d_disk s)) ->
  d_disk s !! Z.to_nat (b_blockno b) = Some d ->
  Q tt (set_bufs (alter (fun b => set_flags (Z.lor (b_flags b) B_VALID) b) i
                    (alter (set_data d) i (bufs s))) s) ->
  wp (iderw i) s Q.
Proof.
  intros Hb Hl Hf Hd Hr Hdk HQ. unfold iderw.
  apply wp_bind, (wp_holding _ _ b); [done|]. rewrite Hl. cbn [negb].
  apply wp_bind, (wp_get_buf _ _ b); [done|]. rewrite Hf, Hd.
  change (Z.land 0 (Z.lor B_VALID B_DIRTY) =? B_VALID) with false.
  change (negb (ROOTDEV =? 1)) with false. change (negb (Z.land 0 B_DIRTY =? 0)) with false.
  cbv iota. wp_steps. rewrite (proj2 (Z.leb_gt _ _)) by lia. wp_step. by rewrite Hdk.
Qed.

Lemma iderw_write s i b (Q : unit -> bio -> Prop) :
  bufs s !! i = Some b -> sl_locked (b_lock b) = true -> b_flags b = 6 -> b_dev b = ROOTDEV ->
  0 <= b_blockno b < Z.of_nat (length (d_disk s)) ->
  Q tt (mkbio (alter (fun b => set_flags (Z.lor (b_flags b) B_VALID) b) i
                (alter (fun b => set_flags (Z.ldiff (b_flags b) B_DIRTY) b) i (bufs s)))
              (<[Z.to_nat (b_blockno b) := b_data b]> (d_disk s))
              (d_trace s ++ [(b_blockno b, b_data b)]) (cur_pid s)) ->
  wp (iderw i) s Q.
Proof.
  intros Hb Hl Hf Hd Hr HQ. unfold iderw.
  apply wp_bind, (wp_holding _ _ b); [done|]. rewrite Hl. cbn [negb].
  apply wp_bind, (wp_get_buf _ _ b); [done|]. rewrite Hf, Hd.
  change (Z.land 6 (Z.lor B_VALID B_DIRTY) =? B_VALID) with false.
  change (negb (ROOTDEV =? 1)) with false. change (negb (Z.land 6 B_DIRTY =? 0)) with true.
  cbv iota. wp_steps. by rewrite (proj2 (Z.leb_gt _ _)) by lia.
Qed.

(** [bread] returns a locked buffer with the contents of the block. *)
Lemma bread_spec s a b d :
  bio_repr s a -> ba_view a !! b = Some d -> b ∉ (map_img (ba_held a) : gset Z) ->
  b ∈ ba_dirty a \/ (size (pinned a) < NBUF)%nat ->
  wp (bread ROOTDEV b) s (fun h s' => ba_held a !! h = None /\ bio_repr s' (a_hold h b a) /\
    d_disk s' = d_disk s /\ d_trace s' = d_trace s /\ cur_pid s' = cur_pid s).
Proof.
  intros Hr Hv Hnh Hroom. pose proof Hr as [Hlen (l & Hl & Hp) Hc].
  destruct (lookup_lt_is_Some_2 (bufs s) HEAD) as [hb Hhb]; [rewrite Hlen; unfold HEAD; lia|].
  assert (Hin : forall i, i ∈ l -> (i < NBUF)%nat).
  { intros i Hi. rewrite Hp in Hi. apply elem_of_seq in Hi. lia. }
  unfold bread, bget. do 3 wp_step. apply wp_bind, (wp_get_buf _ _ hb); [done|].
  set (p1 := fun b0 : buf => _ && _).
  rewrite (proj1 (lru_scans _ _ _ p1 Hl Hp Hhb)).
  destruct (first_such (bufs s) p1 l) as [i|] eqn:E1.
  - (* cached *)
    apply first_such_Some in E1 as (Hi & bb & Hbb & Hpb).
    unfold p1 in Hpb. apply andb_true_iff in Hpb as [Hdev Hbn].
    apply Z.eqb_eq in Hdev, Hbn. specialize (Hin _ Hi).
    assert (Hps : pays (bufs s) !! i = Some (pay bb)) by (rewrite pays_lookup, Hbb; done).
    pose proof (used_of_dev _ _ _ Hc _ _ Hps Hdev) as (_ & Hf & Hrc). simpl in Hf, Hrc.
    assert (Hul : sl_locked (b_lock bb) = false).
    { destruct (sl_locked (b_lock bb)) eqn:El; [|done]. destruct Hnh.
      apply elem_of_map_img. exists i. apply (co_held _ _ _ Hc). exists (pay bb). auto. }
    rewrite Hul in Hrc.
    wp_step. apply wp_upd_buf. wp_step.
    eapply wp_on_lock; [by apply lookup_alter_eq|by apply acquiresleep_free|].
    wp_steps. simpl.
    eapply wp_get_buf; [by do 2 apply lookup_alter_eq|]. simpl.
    rewrite (proj2 (Z.eqb_neq (Z.land (b_flags bb) B_VALID) 0)) by (by destruct Hf as [-> | ->]).
    wp_steps. split; [|split; [|done]].
    + destruct (ba_held a !! i) as [b'|] eqn:E; [|done].
      apply (co_held _ _ _ Hc) in E as (q & Hq & _ & Hlk & _). simplify_eq/=. congruence.
    + rewrite list_alter_alter_eq. eapply (repr_alter s _ i bb); try done; [eauto|].
      unfold pay at 1. simpl. rewrite Hrc, <- Hbn.
      by eapply (cache_hold_hit _ _ _ Hc i (pay bb)).
  - (* not cached: recycle the least recently used clean buffer *)
    set (p2 := fun b0 : buf => _ && _).
    rewrite (proj2 (lru_scans _ _ _ p2 Hl Hp Hhb)).
    assert (Hno : forall j q, pays (bufs s) !! j = Some q -> p_dev q = ROOTDEV -> p_blockno q <> b).
    { intros j q Hj Hd Hb. apply pays_lookup_inv in Hj as (Hj & bb & Hbb & ->).
      assert (Hjl : j ∈ l) by (rewrite Hp; apply elem_of_seq; lia).
      pose proof (first_such_None _ _ _ _ _ E1 Hjl Hbb) as Hf. unfold p1 in Hf. simpl in *.
      rewrite Hd, Hb, !Z.eqb_refl in Hf. done. }
    assert (Hnd : b ∉ ba_dirty a).
    { intros (i & q & Hi & Hd & _ & Hb)%(co_dirty _ _ _ Hc). by destruct (Hno _ _ Hi Hd). }
    assert (Hnm : b ∉ ba_mod a).
    { intros Hm. apply (co_mod _ _ _ Hc) in Hm as [i Hi]. destruct Hnh. apply elem_of_map_img. eauto. }
    destruct Hroom as [|Hroom]; [done|].
    destruct (first_such (bufs s) p2 (reverse l)) as [i|] eqn:E2.
    2: { destruct (cache_room _ _ _ Hc Hroom) as (i & q & Hi & Hrc & Hf).
         apply pays_lookup_inv in Hi as (Hi & bb & Hbb & ->).
         assert (Hjl : i ∈ reverse l) by (rewrite elem_of_reverse, Hp; apply elem_of_seq; lia).
         pose proof (first_such_None _ _ _ _ _ E2 Hjl Hbb) as Hb2. unfold p2 in Hb2.
         simpl in *. by rewrite Hrc, Hf in Hb2. }
    apply first_such_Some in E2 as (Hi & bb & Hbb & Hpb).
    unfold p2 in Hpb. apply andb_true_iff in Hpb as [Hrc Hfl].
    apply Z.eqb_eq in Hrc, Hfl. rewrite elem_of_reverse in Hi. specialize (Hin _ Hi).
    assert (Hps : pays (bufs s) !! i = Some (pay bb)) by (rewrite pays_lookup, Hbb; done).
    assert (Hul : sl_locked (b_lock bb) = false).
    { destruct (co_pay _ _ _ Hc _ _ Hps) as [(_ & _ & ? & _)|(_ & _ & Er)]; [done|].
      simpl in Er. destruct (sl_locked (b_lock bb)); [lia|done]. }
    assert (Hrng : 0 <= b < Z.of_nat (length (d_disk s))) by (apply (co_dom _ _ _ Hc); eauto).
    wp_step. apply wp_upd_buf. wp_step.
    eapply wp_on_lock; [by apply lookup_alter_eq|by apply acquiresleep_free|].
    wp_steps. simpl.
    eapply wp_get_buf; [by do 2 apply lookup_alter_eq|]. simpl. wp_step.
    eapply iderw_read; [by do 2 apply lookup_alter_eq|done..| |]; simpl.
    { by apply (co_clean _ _ _ Hc). }
    wp_steps. rewrite !list_alter_alter_eq.
    edestruct (cache_hold_miss _ _ _ Hc i (pay bb) (mksleeplock true (cur_pid s)) b d) as [Hh Hok]; try done.
    split; [done|]. split; [|done].
    eapply (repr_alter s _ i bb); try done. eauto.
Qed.

Lemma bwrite_spec s a h b d :
  bio_repr s a -> ba_held a !! h = Some b -> ba_view a !! b = Some d ->
  wp (bwrite h) s (fun _ s' => bio_repr s' (a_write b d a) /\
    d_disk s' = <[Z.to_nat b := d]> (d_disk s) /\ d_trace s' = d_trace s ++ [(b, d)] /\
    cur_pid s' = cur_pid s).
Proof.
  intros Hr Hh Hd. destruct (repr_held _ _ _ _ Hr Hh) as (bb & Hi & Hbb & Hp & Hu & Hlk & Hb & Hv & Hrng).
  assert (d = b_data bb) as -> by congruence. subst b.
  pose proof Hu as (Hdev & Hf & Hrc). simpl in Hdev, Hf.
  unfold bwrite. apply wp_bind, (wp_holding _ _ bb); [done|]. rewrite Hlk. cbn [negb].
  wp_step. apply wp_upd_buf.
  eapply iderw_write; [by apply lookup_alter_eq|done| |done|done|].
  { simpl. by destruct Hf as [-> | ->]. }
  cbn [b_blockno b_data set_flags bufs d_disk d_trace cur_pid set_bufs].
  split; [|done]. rewrite !list_alter_alter_eq. destruct Hr as [Hlen Hl Hc].
  eapply (repr_alter s _ h bb); try done.
  replace (pay _) with (mkpay 2 (p_dev (pay bb)) (p_blockno (pay bb)) (p_lock (pay bb))
    (p_refcnt (pay bb)) (b_data bb)) by (unfold pay; simpl; by destruct Hf as [-> | ->]).
  unfold a_write. rewrite (co_disk _ _ _ Hc).
  eapply (cache_update _ _ _ Hc h (b_blockno bb) (pay bb)); try done.
  - by left.
  - by rewrite length_insert.
  - by rewrite insert_id.
  - intros b'. case_decide; [subst|]; set_solver.
  - set_solver.
  - intros b' d' Hb' Hd' Hm'.
    assert (Hrng' : 0 <= b' < Z.of_nat (length (d_disk s))) by (apply (co_dom _ _ _ Hc); eauto).
    destruct (decide (b' = b_blockno bb)) as [->|].
    + rewrite list_lookup_insert_eq by lia. congruence.
    + rewrite list_lookup_insert_ne by lia. apply (co_clean _ _ _ Hc); set_solver.
Qed.

Lemma brelse_spec s a h b :
  bio_repr s a -> ba_held a !! h = Some b -> b ∉ ba_mod a ->
  wp (brelse h) s (fun _ s' => bio_repr s' (a_drop h a) /\
    d_disk s' = d_disk s /\ d_trace s' = d_trace s /\ cur_pid s' = cur_pid s).
Proof.
  intros Hr Hh Hm. destruct (repr_held _ _ _ _ Hr Hh) as (bb & Hi & Hbb & Hp & Hu & Hlk & Hb & Hv & Hrng).
  pose proof Hu as (Hdev & Hf & Hrc). simpl in Hrc. rewrite Hlk in Hrc.
  unfold brelse. apply wp_bind, (wp_holding _ _ bb); [done|]. rewrite Hlk. cbn [negb].
  wp_step. eapply wp_on_lock; [done|done|].
  wp_step. apply wp_upd_buf. wp_step. eapply wp_get_buf; [by do 2 apply lookup_alter_eq|].
  simpl. rewrite Hrc. change (u32 (1 - 1) =? 0) with true. cbv iota. apply wp_modify.
  split; [|done]. simpl. rewrite list_alter_alter_eq. set (F := _ ∘ _).
  destruct Hr as [Hlen (l & Hl & Hperm) Hc].
  assert (HF : pay (F bb) = mkpay (b_flags bb) (b_dev bb) (b_blockno bb) (mksleeplock false 0) 0 (b_data bb)).
  { unfold F, pay. simpl. by rewrite Hrc. }
  assert (Hll : lru (alter F h (bufs s)) l) by by apply lru_alter.
  assert (Hin : h ∈ l) by (rewrite Hperm; apply elem_of_seq; lia).
  apply list_elem_of_split in Hin as (l1 & l2 & ->).
  split; simpl.
  - by rewrite length_push_front, length_unlink, length_alter.
  - exists (h :: l1 ++ l2). split.
    + pose proof (unlink_lru _ _ _ _ Hll) as Hu'. apply push_front_lru; [done| |].
      * destruct Hll as [_ Hnd]. rewrite app_comm_cons, <- Permutation_middle in Hnd.
        by apply NoDup_cons in Hnd as [? _].
      * apply lookup_lt_is_Some_2. rewrite length_unlink, length_alter. lia.
    + by rewrite Permutation_middle.
  - rewrite pays_push_front, pays_unlink, (pays_alter _ _ _ bb _ Hi Hbb HF).
    by apply (cache_drop _ _ _ Hc h b (pay bb)).
Qed.

(** ** Boot *)

Definition zero_buf : buf := mkbuf 0 0 0 (mksleeplock false 0) 0 0 0 (replicate BSIZE 0).
(** The zero-initialised cache over a disk. *)
Definition boot_bio (disk : list block) (pid : Z) : bio :=
  mkbio (replicate (S NBUF) zero_buf) disk [] pid.
Definition babs0 (disk : list block) : babs := mkbabs disk (map_seqZ 0 disk) ∅ ∅ ∅.

Lemma binit_loop_lru n : forall b bs l,
  lru bs l -> (forall i, i ∈ l -> (i < b)%nat) -> (b + n <= NBUF)%nat -> length bs = S NBUF ->
  lru (binit_loop b n bs) (reverse (seq b n) ++ l) /\ length (binit_loop b n bs) = S NBUF.
Proof.
  induction n as [|n IH]; intros b bs l Hl Hlt Hn Hlen; [done|]. cbn [binit_loop].
  edestruct (IH (S b) (push_front b (alter (set_lock initsleeplock) b bs)) (b :: l)) as [Hl' Hlen'].
  - apply push_front_lru.
    + by apply lru_alter.
    + intros [->|Hb]%elem_of_cons; [unfold HEAD in *; lia|]. specialize (Hlt _ Hb). lia.
    + apply lookup_lt_is_Some_2. rewrite length_alter. lia.
  - intros i [->|Hi]%elem_of_cons; [lia|]. specialize (Hlt _ Hi). lia.
  - lia.
  - by rewrite length_push_front, length_alter.
  - split; [|done]. cbn [seq]. rewrite reverse_cons, <- app_assoc. done.
Qed.

Lemma binit_loop_pays n : forall b bs,
  Forall (fun x => b_lock x = initsleeplock) bs ->
  pays (binit_loop b n bs) = pays bs.
Proof.
  induction n as [|n IH]; intros b bs Hbs; [done|]. cbn [binit_loop].
  assert (E : alter (set_lock initsleeplock) b bs = bs).
  { apply list_eq. intros j. rewrite list_lookup_alter. case_decide; [subst|done].
    destruct (bs !! j) as [x|] eqn:Ej; [|done]. simpl. f_equal.
    rewrite Forall_lookup in Hbs. specialize (Hbs _ _ Ej). destruct x; simpl in *. by subst. }
  rewrite E, IH; [apply pays_push_front|].
  unfold push_front. repeat (apply Forall_alter; [|by auto]). done.
Qed.

#[local] Arguments binit_loop : simpl never.
#[local] Opaque NBUF.

(** [binit] on a zeroed cache gives the empty cache over the disk. *)
Lemma binit_spec disk pid :
  wp binit (boot_bio disk pid) (fun _ s => bio_repr s (babs0 disk) /\
    d_disk s = disk /\ d_trace s = [] /\ cur_pid s = pid).
Proof.
  unfold binit. apply wp_modify. split; [|done].
  set (bs := alter (set_next HEAD) HEAD _).
  assert (Hlen : length bs = S NBUF) by (unfold bs; rewrite !length_alter; apply length_replicate).
  destruct (binit_loop_lru NBUF 0 bs []) as [Hl Hlen']; [|set_solver|lia|done|].
  { split; [|apply NoDup_singleton]. split; [|split; [|done]].
    - unfold bs. rewrite nxt_set_next, decide_True by done. by rewrite const_lookup_alter.
    - unfold bs. rewrite prv_alter by done. by rewrite prv_set_prev, decide_True by done. }
  rewrite app_nil_r in Hl.
  split; simpl.
  - done.
  - eexists. split; [done|]. by rewrite reverse_Permutation.
  - rewrite binit_loop_pays.
    2: { unfold bs. do 2 (apply Forall_alter; [|by auto]). by apply Forall_replicate. }
    assert (Hp : forall i p, pays bs !! i = Some p -> p = pay zero_buf).
    { unfold bs. rewrite !pays_alter_links by done. intros i p (_ & b & Hb & ->)%pays_lookup_inv.
      apply lookup_replicate in Hb as [-> _]. done. }
    clearbody bs.
    assert (Hnd : forall i p, pays bs !! i = Some p -> p_dev p <> ROOTDEV).
    { intros i p Hi. by rewrite (Hp _ _ Hi). }
    split; simpl.
    + unfold pays. rewrite length_fmap, length_take, Hlen. lia.
    + done.
    + intros i p Hi. left. rewrite (Hp _ _ Hi). repeat split.
    + intros i j p q Hi _ Hd. by destruct (Hnd _ _ Hi).
    + intros i p Hi Hd. by destruct (Hnd _ _ Hi).
    + intros b. rewrite lookup_map_seqZ. case_guard; simpl.
      * rewrite lookup_lt_is_Some, Z.sub_0_r. lia.
      * split; [by intros []|lia].
    + intros b d (Hb & Hd)%lookup_map_seqZ_Some _ _. by rewrite Z.sub_0_r in Hd.
    + intros i b. rewrite lookup_empty. split; [done|]. intros (p & Hi & Hd & _).
      by destruct (Hnd _ _ Hi).
    + intros b. split; [set_solver|]. intros (i & p & Hi & Hd & _). by destruct (Hnd _ _ Hi).
    + set_solver.
Qed.
#[local] Transparent NBUF.

(** ** What callers of the buffer cache rely on *)

(** C19.  [bread] returns the current contents of a block.  If some buffer can
    be used, it returns a buffer that is locked by the caller and was not held
    by anyone, with the contents last given to the block, whether they are on
    the disk, in a clean buffer or in a dirty one; it writes nothing to the
    disk and every other block keeps its contents. *)
Theorem bread_current s a b d :
  bio_repr s a -> ba_view a !! b = Some d -> b ∉ (map_img (ba_held a) : gset Z) ->
  b ∈ ba_dirty a \/ (size (pinned a) < NBUF)%nat ->
  wp (bread ROOTDEV b) s (fun h s' =>
    ba_held a !! h = None /\ bdata s' h = d /\ holding s' h /\
    d_disk s' = d_disk s /\ d_trace s' = d_trace s /\
    bio_repr s' (mkbabs (ba_disk a) (ba_view a) (<[h := b]> (ba_held a)) (ba_dirty a) (ba_mod a))).
Proof.
  intros Hr Hv Hn Hroom. eapply wp_mono; [by apply (bread_spec s a b d)|].
  intros h s' (Hh & Hr' & Hd & Ht & _). split; [done|].
  assert (Hh' : ba_held (a_hold h b a) !! h = Some b) by (simpl; by rewrite lookup_insert_eq).
  pose proof (bdata_spec _ _ _ _ Hr' Hh') as Hb. simpl in Hb.
  destruct (repr_held _ _ _ _ Hr' Hh') as (bb & _ & Hbb & _ & _ & Hlk & _).
  split; [congruence|]. split; [by exists bb|]. done.
Qed.

(** [bget] recycles the least recently used buffer that nobody refers to
    and that is not dirty, and panics exactly when there is none. *)
Theorem bget_recycles_lru s l dev b :
  length (bufs s) = S NBUF -> lru (bufs s) l -> l ≡ₚ seq 0 NBUF ->
  (forall i bb, i ∈ l -> bufs s !! i = Some bb -> ~ (b_dev bb = dev /\ b_blockno bb = b)) ->
  (forall i bb, i ∈ l -> bufs s !! i = Some bb -> b_refcnt bb = 0 -> sl_locked (b_lock bb) = false) ->
  match first_such (bufs s) (fun bb => (b_refcnt bb =? 0) && (Z.land (b_flags bb) B_DIRTY =? 0)) (reverse l) with
  | None => bget dev b s = Panic "bget: no buffers"
  | Some i =>
      exists old, bufs s !! i = Some old /\
      bget dev b s = Done i (set_bufs (<[i := mkbuf 0 dev b (mksleeplock true (cur_pid s)) 1
                                                  (b_prev old) (b_next old) (b_data old)]> (bufs s)) s)
  end.
Proof.
  intros Hlen Hl Hp Hno Hfree.
  destruct (lookup_lt_is_Some_2 (bufs s) HEAD) as [hb Hhb]; [rewrite Hlen; unfold HEAD; lia|].
  set (p2 := fun bb : buf => _ && _). set (p1 := fun bb : buf => (b_dev bb =? dev) && (b_blockno bb =? b)).
  assert (E1 : first_such (bufs s) p1 l = None).
  { destruct (first_such (bufs s) p1 l) as [i|] eqn:E; [|done].
    apply first_such_Some in E as (Hi & bb & Hbb & [Hd Hb]%andb_true_iff).
    apply Z.eqb_eq in Hd, Hb. by destruct (Hno _ _ Hi Hbb). }
  unfold bget, mbind, km_bind, kget, get_buf. rewrite Hhb. fold p1.
  rewrite (proj1 (lru_scans _ _ _ p1 Hl Hp Hhb)), E1. fold p2.
  rewrite (proj2 (lru_scans _ _ _ p2 Hl Hp Hhb)).
  destruct (first_such (bufs s) p2 (reverse l)) as [i|] eqn:E2; [|done].
  apply first_such_Some in E2 as (Hi & bb & Hbb & [Hr _]%andb_true_iff).
  apply Z.eqb_eq in Hr. rewrite elem_of_reverse in Hi. exists bb. split; [done|].
  unfold upd_buf, kmodify, on_lock. simpl. rewrite (lookup_alter_eq _ _ _ _ Hbb).
  rewrite acquiresleep_free by (simpl; by apply (Hfree i bb)). simpl. unfold mret, km_ret. f_equal.
  unfold set_bufs. simpl. f_equal. rewrite list_alter_alter_eq.
  apply list_eq. intros j. rewrite list_lookup_alter, list_lookup_insert, Hbb.
  apply lookup_lt_Some in Hbb. repeat case_decide; naive_solver.
Qed.

(** The cache that [binit] makes over a disk. *)
Definition booted (disk : list block) : bio :=
  match binit (boot_bio disk 1) with Done _ s => s | _ => boot_bio disk 1 end.
Lemma booted_repr disk : bio_repr (booted disk) (babs0 disk).
Proof.
  destruct (wp_inv _ _ _ (binit_spec disk 1)) as ([] & s & Hs & Hr & _). unfold booted. by rewrite Hs.
Qed.

Lemma bread_current_witness :
  wp (bread ROOTDEV 1) (booted [[1]; [2]; [3]]) (fun h s' => bdata s' h = [2]).
Proof.
  eapply wp_mono; [apply (bread_current _ _ 1 [2] (booted_repr _))|].
  - reflexivity.
  - simpl. rewrite map_img_empty_L. set_solver.
  - right. unfold pinned. simpl. rewrite map_img_empty_L, union_empty_l_L, size_empty. unfold NBUF. lia.
  - intros h s' (_ & E & _). exact E.
Defined.

Lemma bget_recycles_lru_witness : exists l, l ≡ₚ seq 0 NBUF /\
  match first_such (bufs (booted [])) (fun bb => (b_refcnt bb =? 0) && (Z.land (b_flags bb) B_DIRTY =? 0)) (reverse l) with
  | None => bget 1 7 (booted []) = Panic "bget: no buffers"
  | Some i => exists s', bget 1 7 (booted []) = Done i s'
  end.
Proof.
  destruct (booted_repr []) as [Hlen (l & Hl & Hp) Hc]. exists l. split; [exact Hp|].
  assert (Hidle : forall i bb, i ∈ l -> bufs (booted []) !! i = Some bb -> pay_idle (pay bb)).
  { intros i bb Hi Hbb. rewrite Hp, elem_of_seq in Hi.
    assert (Hps : pays (bufs (booted [])) !! i = Some (pay bb)) by (rewrite pays_lookup, Hbb by lia; done).
    destruct (co_pay _ _ _ Hc _ _ Hps) as [?|(Hd & _)]; [done|].
    by apply (co_view _ _ _ Hc i) in Hd. }
  pose proof (bget_recycles_lru (booted []) l 1 7 Hlen Hl Hp) as H.
  destruct (first_such _ _ _) as [i|].
  - destruct H as (old & _ & E); [| |by eauto].
    + intros j bb Hj Hbb [E _]. destruct (Hidle _ _ Hj Hbb) as [E' _]. simpl in E'. congruence.
    + intros j bb Hj Hbb _. apply (Hidle _ _ Hj Hbb).
  - apply H.
    + intros j bb Hj Hbb [E _]. destruct (Hidle _ _ Hj Hbb) as [E' _]. simpl in E'. congruence.
    + intros j bb Hj Hbb _. apply (Hidle _ _ Hj Hbb).
Defined.
