(* ===== verification/Ide.v ===== *)
(** * The IDE disk driver: [ide.c]

    The queue of requests is the list that [idequeue] and the [qnext] links
    represent.  [idelock] makes [iderw] up to its wait and [ideintr] atomic.
    [iderw] returns whether the request is finished; when not, the process
    sleeps on its buffer and tests again after [ideintr] woke it.

    The drive is hardware, given by what its documentation says of the task
    file: the six registers, the commands READ and WRITE SECTOR, BSY while a
    command runs, the data port.  A command finishes at a time of the drive's
    choosing, and can fail.  A spin on BSY is the monad's [Sleep]. *)

From stdpp Require Import functions.
From S2P Require Import Prelude Sleeplock Bio.

Definition IDE_BSY : Z := 0x80.
Definition IDE_DRDY : Z := 0x40.
Definition IDE_DF : Z := 0x20.
Definition IDE_ERR : Z := 0x01.
Definition IDE_CMD_READ : Z := 0x20.
Definition IDE_CMD_WRITE : Z := 0x30.
Definition IDE_CMD_RDMUL : Z := 0xc4.
Definition IDE_CMD_WRMUL : Z := 0xc5.
Definition SECTOR_SIZE : Z := 512.
Definition FSSIZE : Z := 1000.

(** ** The drives *)

Inductive ata_cmd := Read (drive sector : Z) | Write (drive sector : Z) (data : block).

Record drive := mkdrive {
  dk_sectors : Z * Z -> block;       (* by drive and sector *)
  dk_lba0 : Z; dk_lba1 : Z; dk_lba2 : Z; dk_sel : Z;
  dk_cmd : option ata_cmd;           (* the last command *)
  dk_busy : bool;
  dk_err : bool
}.

(** The drive and the sector the registers select. *)
Definition dk_addr (d : drive) : Z * Z :=
  (Z.land (Z.shiftr (dk_sel d) 4) 1,
   dk_lba0 d + 2 ^ 8 * dk_lba1 d + 2 ^ 16 * dk_lba2 d + 2 ^ 24 * Z.land (dk_sel d) 0x0f).

Definition outb (port v : Z) (d : drive) : drive :=
  let 'mkdrive m a b c e cmd busy err := d in
  if port =? 0x1f3 then mkdrive m v b c e cmd busy err
  else if port =? 0x1f4 then mkdrive m a v c e cmd busy err
  else if port =? 0x1f5 then mkdrive m a b v e cmd busy err
  else if port =? 0x1f6 then mkdrive m a b c v cmd busy err
  else if port =? 0x1f7 then
    if v =? IDE_CMD_READ then mkdrive m a b c e (Some (Read (dk_addr d).1 (dk_addr d).2)) true false
    else if v =? IDE_CMD_WRITE then mkdrive m a b c e (Some (Write (dk_addr d).1 (dk_addr d).2 [])) false false
    else d
  else d.
(** The data port: a write command starts when it has its data. *)
Definition outsl (data : block) (d : drive) : drive :=
  match dk_cmd d with
  | Some (Write i k _) =>
      mkdrive (dk_sectors d) (dk_lba0 d) (dk_lba1 d) (dk_lba2 d) (dk_sel d) (Some (Write i k data)) true false
  | _ => d
  end.
Definition insl (d : drive) : block :=
  match dk_cmd d with Some (Read i k) => dk_sectors d (i, k) | _ => [] end.
Definition status (d : drive) : Z :=
  if dk_busy d then IDE_BSY else if dk_err d then Z.lor IDE_DRDY IDE_ERR else IDE_DRDY.
(** The drive ends its command, well or not. *)
Definition finish (err : bool) (d : drive) : drive :=
  let m := match dk_cmd d with
           | Some (Write i k data) => if err then dk_sectors d else <[(i, k) := data]> (dk_sectors d)
           | _ => dk_sectors d
           end in
  mkdrive m (dk_lba0 d) (dk_lba1 d) (dk_lba2 d) (dk_sel d) (dk_cmd d) false err.

(** ** The driver *)

Record ide := mkide {
  id_bufs : list buf;
  id_qnext : list (option nat);      (* qnext of the buffers *)
  id_queue : option nat;             (* idequeue *)
  id_disk1 : bool;                   (* havedisk1 *)
  id_drive : drive
}.
Definition set_ibufs (b : list buf) (s : ide) : ide := mkide b (id_qnext s) (id_queue s) (id_disk1 s) (id_drive s).
Definition set_qnext (q : list (option nat)) (s : ide) : ide := mkide (id_bufs s) q (id_queue s) (id_disk1 s) (id_drive s).
Definition set_queue (q : option nat) (s : ide) : ide := mkide (id_bufs s) (id_qnext s) q (id_disk1 s) (id_drive s).
Definition set_drive (d : drive) (s : ide) : ide := mkide (id_bufs s) (id_qnext s) (id_queue s) (id_disk1 s) d.

Definition port_out (port v : Z) : KM ide unit := kmodify (fun s => set_drive (outb port v (id_drive s)) s).
Definition ide_buf (i : nat) : KM ide buf := fun s =>
  match id_bufs s !! i with Some b => Done b s | None => Fault "buffer pointer" end.

(** 0, or -1 on an error that is asked for. *)
Definition idewait (checkerr : bool) : KM ide Z :=
  s ← kget;
  let r := status (id_drive s) in
  if negb (Z.land r (Z.lor IDE_BSY IDE_DRDY) =? IDE_DRDY) then ksleep "idewait" else
  if checkerr && negb (Z.land r (Z.lor IDE_DF IDE_ERR) =? 0) then mret (-1) else mret 0.

Definition idestart (b : option nat) : KM ide unit :=
  match b with
  | None => panic "idestart"
  | Some i =>
      b ← ide_buf i;
      if FSSIZE <=? b_blockno b then panic "incorrect blockno" else
      let sector_per_block := Z.of_nat BSIZE / SECTOR_SIZE in
      let sector := b_blockno b * sector_per_block in
      let read_cmd := if sector_per_block =? 1 then IDE_CMD_READ else IDE_CMD_RDMUL in
      let write_cmd := if sector_per_block =? 1 then IDE_CMD_WRITE else IDE_CMD_WRMUL in
      if 7 <? sector_per_block then panic "idestart" else
      idewait false;;
      port_out 0x3f6 0;;
      port_out 0x1f2 sector_per_block;;
      port_out 0x1f3 (Z.land sector 0xff);;
      port_out 0x1f4 (Z.land (Z.shiftr sector 8) 0xff);;
      port_out 0x1f5 (Z.land (Z.shiftr sector 16) 0xff);;
      port_out 0x1f6 (Z.lor (Z.lor 0xe0 (Z.shiftl (Z.land (b_dev b) 1) 4)) (Z.land (Z.shiftr sector 24) 0x0f));;
      if negb (Z.land (b_flags b) B_DIRTY =? 0) then
        port_out 0x1f7 write_cmd;;
        kmodify (fun s => set_drive (outsl (b_data b) (id_drive s)) s)
      else port_out 0x1f7 read_cmd
  end.

(** The buffer whose waiter is woken, if any. *)
Definition ideintr : KM ide (option nat) :=
  s ← kget;
  match id_queue s with
  | None => mret None
  | Some i =>
      kmodify (fun s => set_queue (mjoin (id_qnext s !! i)) s);;
      b ← ide_buf i;
      (if Z.land (b_flags b) B_DIRTY =? 0 then
         r ← idewait true;
         if 0 <=? r then
           kmodify (fun s => set_ibufs (alter (set_data (insl (id_drive s))) i (id_bufs s)) s)
         else mret tt
       else mret tt);;
      kmodify (fun s => set_ibufs (alter (fun b => set_flags (Z.ldiff (Z.lor (b_flags b) B_VALID) B_DIRTY) b) i (id_bufs s)) s);;
      s ← kget;
      match id_queue s with
      | Some j => idestart (Some j);; mret (Some i)
      | None => mret (Some i)
      end
  end.

(** The link [pp] after the end of the queue: [None] is [&idequeue], [Some j]
    is [&j->qnext]. *)
Fixpoint find_pp (fuel : nat) (pp : option nat) : KM ide (option nat) :=
  match fuel with
  | O => fault "idequeue"
  | S fuel =>
      s ← kget;
      match (match pp with None => id_queue s | Some j => mjoin (id_qnext s !! j) end) with
      | None => mret pp
      | Some j => find_pp fuel (Some j)
      end
  end.

(** The test of the loop of [iderw]: the request is finished. *)
Definition ide_done (i : nat) : KM ide bool :=
  b ← ide_buf i;
  mret (Z.land (b_flags b) (Z.lor B_VALID B_DIRTY) =? B_VALID).

Definition iderw (i : nat) : KM ide bool :=
  b ← ide_buf i;
  if negb (sl_locked (b_lock b)) then panic "iderw: buf not locked" else
  if Z.land (b_flags b) (Z.lor B_VALID B_DIRTY) =? B_VALID then panic "iderw: nothing to do" else
  s ← kget;
  if negb (b_dev b =? 0) && negb (id_disk1 s) then panic "iderw: ide disk 1 not present" else
  kmodify (fun s => set_qnext (<[i := None]> (id_qnext s)) s);;
  pp ← find_pp (S (length (id_bufs s))) None;
  kmodify (fun s =>
    match pp with
    | None => set_queue (Some i) s
    | Some j => set_qnext (<[j := Some i]> (id_qnext s)) s
    end);;
  s ← kget;
  (if decide (id_queue s = Some i) then idestart (Some i) else mret tt);;
  ide_done i.

(** ** Requests in order *)

Definition dirty (b : buf) : bool := negb (Z.land (b_flags b) B_DIRTY =? 0).
Definition finished (b : buf) : bool := Z.land (b_flags b) (Z.lor B_VALID B_DIRTY) =? B_VALID.
Definition addr (b : buf) : Z * Z := (Z.land (b_dev b) 1, b_blockno b).
(** A buffer that [iderw] may be called with. *)
Definition request_ok (s : ide) (b : buf) : Prop :=
  sl_locked (b_lock b) = true /\ finished b = false /\ (b_dev b = 0 \/ id_disk1 s = true) /\ 0 <= b_blockno b < FSSIZE.

(** The queue is the list [l]. *)
Fixpoint linked (q : list (option nat)) (h : option nat) (l : list nat) : Prop :=
  match l with
  | [] => h = None
  | i :: l => h = Some i /\ exists n, q !! i = Some n /\ linked q n l
  end.

(** The drive works on the request of [b], or has ended it, on a disk that
    holds [a] before it. *)
Definition serves (d : drive) (b : buf) (a : Z * Z -> block) : Prop :=
  if dirty b then
    dk_cmd d = Some (Write (addr b).1 (addr b).2 (b_data b)) /\
    dk_sectors d = if dk_busy d || dk_err d then a else <[addr b := b_data b]> a
  else dk_cmd d = Some (Read (addr b).1 (addr b).2) /\ dk_sectors d = a.
(** The disk after the request, which may have ended with an error, and the
    data of its buffer. *)
Definition complete (err : bool) (b : buf) (a : Z * Z -> block) : Z * Z -> block :=
  if dirty b && negb err then <[addr b := b_data b]> a else a.
Definition result (err : bool) (b : buf) (a : Z * Z -> block) : block :=
  if dirty b || err then b_data b else a (addr b).

Lemma linked_fun q l : forall h l', linked q h l -> linked q h l' -> l = l'.
Proof.
  induction l as [|i l IH]; intros h [|i' l']; simpl; [done| | |].
  - by intros -> [[=] _].
  - by intros [-> _] [=].
  - intros [-> (n & Hn & Hl)] [[= <-] (n' & Hn' & Hl')]. simplify_eq. f_equal. by eapply IH.
Qed.
Lemma linked_frame q i v l : forall h, i ∉ l -> linked q h l -> linked (<[i := v]> q) h l.
Proof.
  induction l as [|j l IH]; intros h Hi; simpl; [done|]. intros [-> (n & Hn & Hl)]. split; [done|]. exists n.
  split; [rewrite list_lookup_insert_ne; [done|set_solver]|]. apply IH; [set_solver|done].
Qed.
Lemma linked_snoc q l : forall h j i, linked q h (l ++ [j]) -> NoDup (l ++ [j]) -> i ∉ l ++ [j] -> q !! i = Some None ->
  linked (<[j := Some i]> q) h (l ++ [j; i]).
Proof.
  induction l as [|k l IH]; intros h j i; simpl.
  - intros [-> (n & Hn & ->)] _ Hi Hqi. split; [done|]. exists (Some i). split; [apply list_lookup_insert_eq; by eapply lookup_lt_Some|].
    split; [done|]. exists None. split; [|done]. rewrite list_lookup_insert_ne; [done|set_solver].
  - intros [-> (n & Hn & Hl)] [Hk Hnd]%NoDup_cons Hi Hqi. split; [done|]. exists n.
    split; [rewrite list_lookup_insert_ne; [done|set_solver]|]. apply IH; [done|done|set_solver|done].
Qed.

Lemma find_pp_spec l : forall (s : ide) fuel pp h, (match pp with None => id_queue s | Some j => mjoin (id_qnext s !! j) end) = h ->
  linked (id_qnext s) h l -> (length l < fuel)%nat ->
  find_pp fuel pp s = Done (match last l with None => pp | Some j => Some j end) s.
Proof.
  induction l as [|i l IH]; intros s [|fuel] pp h Hh Hl Hf; simpl in Hf; try lia; cbn [find_pp]; unfold mbind, km_bind, kget; rewrite Hh.
  - by rewrite Hl.
  - destruct Hl as [-> (n & Hn & Hl)]. rewrite (IH s fuel (Some i) n); [|by rewrite Hn|done|lia].
    destruct l as [|j l]; [done|]. change (last (i :: j :: l)) with (last (j :: l)). destruct (last (j :: l)) eqn:E; [done|]. by apply last_None in E.
Qed.

(** The registers [idestart] writes select the block. *)
Lemma sector_addr dev n d : 0 <= n < FSSIZE ->
  dk_addr (outb 0x1f6 (Z.lor (Z.lor 0xe0 (Z.shiftl (Z.land dev 1) 4)) (Z.land (Z.shiftr n 24) 0x0f))
    (outb 0x1f5 (Z.land (Z.shiftr n 16) 0xff) (outb 0x1f4 (Z.land (Z.shiftr n 8) 0xff) (outb 0x1f3 (Z.land n 0xff) d)))) = (Z.land dev 1, n).
Proof.
  intros Hn. unfold FSSIZE in Hn. destruct d as [m a b c e cmd busy err]. cbn [outb Z.eqb Pos.eqb]. unfold dk_addr. cbn [dk_sel dk_lba0 dk_lba1 dk_lba2].
  assert (E24 : Z.shiftr n 24 = 0) by (rewrite Z.shiftr_div_pow2 by lia; apply Z.div_small; lia).
  assert (E16 : Z.shiftr n 16 = 0) by (rewrite Z.shiftr_div_pow2 by lia; apply Z.div_small; lia). rewrite E24, E16.
  change 0xff with (Z.ones 8). rewrite !Z.land_ones, (Z.shiftr_div_pow2 n 8) by lia.
  rewrite (Z.mod_small (n / 2 ^ 8)) by (split; [apply Z.div_pos; lia|apply Z.div_lt_upper_bound; lia]).
  assert (Hd : Z.land dev 1 = 0 \/ Z.land dev 1 = 1).
  { replace (Z.land dev 1) with (dev mod 2 ^ 1) by (symmetry; apply (Z.land_ones dev 1); lia). pose proof (Z.mod_pos_bound dev (2 ^ 1)). lia. }
  destruct Hd as [-> | ->]; f_equal; change (0 mod 2 ^ 8) with 0; pose proof (Z_div_mod_eq_full n (2 ^ 8));
    match goal with |- context [2 ^ 24 * ?X] => change X with 0 end; lia.
Qed.

Lemma out_write d : outb 0x1f7 IDE_CMD_WRITE d =
  mkdrive (dk_sectors d) (dk_lba0 d) (dk_lba1 d) (dk_lba2 d) (dk_sel d) (Some (Write (dk_addr d).1 (dk_addr d).2 [])) false false.
Proof. by destruct d. Qed.
Lemma out_read d : outb 0x1f7 IDE_CMD_READ d =
  mkdrive (dk_sectors d) (dk_lba0 d) (dk_lba1 d) (dk_lba2 d) (dk_sel d) (Some (Read (dk_addr d).1 (dk_addr d).2)) true false.
Proof. by destruct d. Qed.

Lemma idestart_spec s i b a : id_bufs s !! i = Some b -> 0 <= b_blockno b < FSSIZE ->
  dk_busy (id_drive s) = false -> dk_sectors (id_drive s) = a -> exists d,
  idestart (Some i) s = Done tt (set_drive d s) /\ dk_busy d = true /\ dk_err d = false /\ serves d b a.
Proof.
  intros Hb Hn Hbusy Ha. unfold idestart, mbind, km_bind, ide_buf. rewrite Hb. rewrite (proj2 (Z.leb_gt _ _)) by lia.
  change (Z.of_nat BSIZE / SECTOR_SIZE) with 1. cbn [Z.eqb Pos.eqb Z.ltb Z.compare Pos.compare Pos.compare_cont].
  unfold idewait, mbind, km_bind, kget. assert (Est : Z.land (status (id_drive s)) (Z.lor IDE_BSY IDE_DRDY) =? IDE_DRDY = true).
  { unfold status. rewrite Hbusy. by destruct (dk_err (id_drive s)). }
  rewrite Est. cbn [negb andb]. rewrite Z.mul_1_r. unfold port_out, kmodify, set_drive. cbn [id_bufs id_qnext id_queue id_disk1 id_drive mret km_ret].
  pose proof (sector_addr (b_dev b) (b_blockno b) (outb 0x1f2 1 (outb 0x3f6 0 (id_drive s))) Hn) as HA.
  match type of HA with dk_addr ?X = _ => set (d := X) in HA; assert (Es : dk_sectors d = a) by (subst a d; by destruct (id_drive s));
    exists (if dirty b then outsl (b_data b) (outb 0x1f7 IDE_CMD_WRITE d) else outb 0x1f7 IDE_CMD_READ d) end.
  fold (dirty b). unfold serves, addr. destruct (dirty b).
  - split; [reflexivity|]. rewrite out_write, HA. by split_and!.
  - split; [reflexivity|]. rewrite out_read, HA. by split_and!.
Qed.

Record inv (s : ide) (a : Z * Z -> block) (l : list nat) : Prop := mk_inv {
  iv_links : linked (id_qnext s) (id_queue s) l;
  iv_nodup : NoDup l;
  iv_len : length (id_qnext s) = length (id_bufs s);
  iv_reqs : forall i, i ∈ l -> exists b, id_bufs s !! i = Some b /\ request_ok s b;
  iv_err : dk_busy (id_drive s) = true -> dk_err (id_drive s) = false;
  iv_drive : match l with
    | [] => dk_busy (id_drive s) = false /\ dk_sectors (id_drive s) = a
    | i :: _ => forall b, id_bufs s !! i = Some b -> serves (id_drive s) b a
    end
}.

Lemma inv_short s a l : inv s a l -> (length l <= length (id_bufs s))%nat.
Proof.
  intros I. rewrite <- (length_seq (length (id_bufs s)) 0). apply submseteq_length, NoDup_submseteq; [apply I|].
  intros i Hi. destruct (iv_reqs _ _ _ I i Hi) as (b & Hb & _). apply elem_of_seq. apply lookup_lt_Some in Hb. lia.
Qed.

Lemma iderw_spec s a l i b : inv s a l -> id_bufs s !! i = Some b -> request_ok s b -> i ∉ l ->
  exists s', iderw i s = Done false s' /\ inv s' a (l ++ [i]) /\ id_bufs s' = id_bufs s /\ id_disk1 s' = id_disk1 s.
Proof.
  intros I Hb Hr Hi. pose proof Hr as (Hlk & Hfin & Hdev & Hn). pose proof (inv_short _ _ _ I) as Hlen. destruct I as [Hl Hnd Hql Hreq Herr Hdrv].
  pose proof (lookup_lt_Some _ _ _ Hb) as Hlt.
  set (s1 := set_qnext (<[i := None]> (id_qnext s)) s).
  assert (Hl1 : linked (id_qnext s1) (id_queue s1) l) by (by apply linked_frame).
  assert (Hpp : find_pp (S (length (id_bufs s))) None s1 = Done (last l) s1).
  { rewrite (find_pp_spec l s1 _ None (id_queue s1)); [by destruct (last l)|done|done|lia]. }
  unfold iderw, mbind, km_bind, kget. unfold ide_buf at 1. rewrite Hb, Hlk. cbn [negb]. fold (finished b). rewrite Hfin.
  assert (Hd1 : negb (b_dev b =? 0) && negb (id_disk1 s) = false).
  { destruct Hdev as [-> | ->]; [done|apply andb_false_r]. }
  rewrite Hd1. unfold kmodify at 1. fold s1. rewrite Hpp. unfold kmodify at 1.
  assert (Hdone : forall s2, id_bufs s2 = id_bufs s -> ide_done i s2 = Done false s2).
  { intros s2 E2. unfold ide_done, mbind, km_bind, ide_buf. rewrite E2, Hb. fold (finished b). by rewrite Hfin. }
  destruct l as [|h l'] using rev_ind; [|clear IHl'].
  - destruct Hdrv as [Hbusy Ha]. cbn [last]. rewrite decide_True by done.
    destruct (idestart_spec (set_queue (Some i) s1) i b a) as (d & -> & Hb' & He' & Hs'); [done|done|done|done|].
    rewrite Hdone by done. eexists. split; [done|]. split; [|done]. split; [|apply NoDup_singleton|simpl; by rewrite length_insert| |done|].
    + simpl. split; [done|]. exists None. split; [apply list_lookup_insert_eq; lia|done].
    + intros j ->%list_elem_of_singleton. by exists b.
    + simpl. intros b' Hb2. rewrite Hb in Hb2. by injection Hb2 as <-.
  - rewrite last_snoc. assert (Hne : id_queue (set_qnext (<[h := Some i]> (id_qnext s1)) s1) <> Some i).
    { simpl. destruct l'; simpl in Hl; destruct Hl as [-> _]; intros [= ->]; set_solver. }
    rewrite decide_False by exact Hne. cbn [mret km_ret]. rewrite Hdone by done.
    eexists. split; [done|]. split; [|done]. split.
    + simpl. rewrite <- app_assoc. apply linked_snoc; [done|done|done|]. apply list_lookup_insert_eq. lia.
    + apply NoDup_app. split_and!; [done|set_solver|apply NoDup_singleton].
    + simpl. by rewrite !length_insert.
    + intros j [Hj| ->%list_elem_of_singleton]%elem_of_app; [by apply Hreq|by exists b].
    + done.
    + simpl. destruct l'; exact Hdrv.
Qed.

Definition done_buf (b : buf) (d : block) : buf := set_flags (Z.ldiff (Z.lor (b_flags b) B_VALID) B_DIRTY) (set_data d b).

Lemma done_finished b d : finished (done_buf b d) = true.
Proof.
  unfold finished, done_buf. cbn [set_flags b_flags]. apply Z.eqb_eq. apply Z.bits_inj'. intros n Hn.
  rewrite Z.land_spec, Z.ldiff_spec, !Z.lor_spec. change B_VALID with (2 ^ 1). change B_DIRTY with (2 ^ 2).
  rewrite !Z.pow2_bits_eqb by lia. destruct (Z.eqb_spec 1 n) as [<-|]; [by rewrite !orb_true_r|].
  destruct (Z.eqb_spec 2 n); [by rewrite andb_false_r|]. by rewrite !andb_false_r.
Qed.

Lemma ideintr_empty s a : inv s a [] -> ideintr s = Done None s.
Proof. intros I. unfold ideintr, mbind, km_bind, kget. by rewrite (iv_links _ _ _ I : id_queue s = None). Qed.

Lemma idewait_ready s : dk_busy (id_drive s) = false ->
  idewait true s = Done (if dk_err (id_drive s) then -1 else 0) s.
Proof. intros Hb. unfold idewait, mbind, km_bind, kget, status. rewrite Hb. by destruct (dk_err (id_drive s)). Qed.

(** The next request is started. *)
Lemma restart_spec (s : ide) a l (i : nat) : linked (id_qnext s) (id_queue s) l -> NoDup l -> length (id_qnext s) = length (id_bufs s) ->
  (forall j, j ∈ l -> exists b, id_bufs s !! j = Some b /\ request_ok s b) ->
  dk_busy (id_drive s) = false -> dk_sectors (id_drive s) = a -> exists s',
  (match id_queue s with Some j => idestart (Some j);; mret (Some i) | None => mret (Some i) end : KM ide (option nat)) s = Done (Some i) s' /\
  inv s' a l /\ id_bufs s' = id_bufs s /\ (l <> [] -> dk_busy (id_drive s') = true).
Proof.
  intros Hl Hnd Hlen Hreq Hbusy Ha. destruct l as [|j l].
  - rewrite (Hl : id_queue s = None). exists s. split; [done|]. split; [|done]. split; try done. congruence.
  - pose proof Hl as [Hq _]. rewrite Hq. destruct (Hreq j) as (b & Hb & Hr); [by left|].
    destruct (idestart_spec s j b a Hb) as (d & E & Hb' & He' & Hs'); [apply Hr|done|done|].
    unfold mbind, km_bind. rewrite E. eexists. split; [done|]. split; [|done]. split; try done. simpl.
    intros b' Hb2. rewrite Hb in Hb2. by injection Hb2 as <-.
Qed.

Lemma ideintr_spec s a i l b : inv s a (i :: l) -> id_bufs s !! i = Some b -> dk_busy (id_drive s) = false ->
  exists s', ideintr s = Done (Some i) s' /\ inv s' (complete (dk_err (id_drive s)) b a) l /\
    id_bufs s' = <[i := done_buf b (result (dk_err (id_drive s)) b a)]> (id_bufs s) /\
    (l <> [] -> dk_busy (id_drive s') = true).
Proof.
  intros I Hb Hbusy. pose proof I as [[Hq (n & Hn & Hl)] [Hi Hnd]%NoDup_cons Hql Hreq Herr Hdrv]. specialize (Hdrv b Hb).
  set (D := result (dk_err (id_drive s)) b a).
  set (s3 := set_ibufs (<[i := done_buf b D]> (id_bufs s)) (set_queue n s)).
  destruct (restart_spec s3 (complete (dk_err (id_drive s)) b a) l i) as (s' & E & I' & Eb & E1).
  { done. } { done. } { simpl. by rewrite length_insert. }
  { intros j Hj. destruct (Hreq j) as (c & Hc & Hr); [by right|]. exists c. split; [|done]. simpl. rewrite list_lookup_insert_ne; [done|]. by intros ->. }
  { done. }
  { unfold serves in Hdrv. unfold complete. simpl. destruct (dirty b); [|apply Hdrv]. destruct Hdrv as [_ ->]. rewrite Hbusy. by destruct (dk_err _). }
  exists s'. split; [|done].
  unfold ideintr. erewrite bind_done by done. rewrite Hq. erewrite bind_done by done. rewrite Hn. change (mjoin (Some n)) with n.
  erewrite bind_done by (unfold ide_buf; simpl; by rewrite Hb). rewrite <- E. unfold serves in Hdrv. unfold D, result, dirty in *.
  destruct (Z.land (b_flags b) B_DIRTY =? 0); cbn [negb] in *.
  - set (s2 := set_ibufs (<[i := set_data (if dk_err (id_drive s) then b_data b else a (addr b)) b]> (id_bufs s)) (set_queue n s)).
    assert (E3 : set_ibufs (alter (fun b => set_flags (Z.ldiff (Z.lor (b_flags b) B_VALID) B_DIRTY) b) i (id_bufs s2)) s2 = s3).
    { unfold s2, s3, set_ibufs. simpl. erewrite alter_insert; [|apply list_lookup_insert_eq; by eapply lookup_lt_Some]. by rewrite list_insert_insert_eq. }
    rewrite <- E3. erewrite (bind_done _ _ _ tt s2); [by erewrite bind_done by done; erewrite bind_done by done|].
    erewrite bind_done by (by apply idewait_ready). unfold s2. cbn [id_drive set_queue]. destruct (dk_err (id_drive s)).
    + cbn [Z.leb Z.compare]. unfold mret, km_ret, set_ibufs. cbn [id_bufs set_queue].
      rewrite (list_insert_id (id_bufs s)) by (rewrite Hb; by destruct b). by destruct s.
    + cbn [Z.leb Z.compare]. unfold kmodify. cbn [id_bufs id_drive set_queue].
      destruct Hdrv as [Hcmd Hsec]. unfold insl. rewrite Hcmd, Hsec. rewrite (alter_insert _ _ _ _ Hb). by destruct (addr b).
  - assert (E3 : set_ibufs (alter (fun b => set_flags (Z.ldiff (Z.lor (b_flags b) B_VALID) B_DIRTY) b) i (id_bufs (set_queue n s))) (set_queue n s) = s3).
    { unfold s3. simpl. rewrite (alter_insert _ _ _ _ Hb). by destruct b. }
    rewrite <- E3. by erewrite bind_done by done; erewrite bind_done by done; erewrite bind_done by done.
Qed.

(** A request that has just been started has not changed the disk. *)
Lemma started_sectors s a l : inv s a l -> (l <> [] -> dk_busy (id_drive s) = true) -> dk_sectors (id_drive s) = a.
Proof.
  intros I Hs. pose proof (iv_drive _ _ _ I) as Hd. destruct l as [|i l]; [apply Hd|].
  destruct (iv_reqs _ _ _ I i) as (b & Hb & _); [by left|]. specialize (Hd b Hb). unfold serves in Hd.
  rewrite Hs in Hd by done. by destruct (dirty b); destruct Hd as [_ ->].
Qed.

(** ** The driver at work *)

Module System.
Definition queued (s : ide) (i : nat) : Prop := exists l, linked (id_qnext s) (id_queue s) l /\ i ∈ l.

(** Steps of the driver, its drives and the owners of the buffers, with the
    contents the disk has for its users (ghost): a process submits a request,
    an owner changes a buffer that is not queued, the drive ends its command,
    well or with an error, and its interrupt is taken. *)
Inductive step : ide * (Z * Z -> block) -> ide * (Z * Z -> block) -> Prop :=
| step_submit s a i b s' r : id_bufs s !! i = Some b -> request_ok s b -> ~ queued s i -> iderw i s = Done r s' -> step (s, a) (s', a)
| step_owner s a i b : ~ queued s i -> step (s, a) (set_ibufs (<[i := b]> (id_bufs s)) s, a)
| step_drive s a err : dk_busy (id_drive s) = true -> step (s, a) (set_drive (finish err (id_drive s)) s, a)
| step_intr s a r s' : dk_busy (id_drive s) = false -> ideintr s = Done r s' ->
    step (s, a) (s', match id_queue s ≫= (id_bufs s !!.) with Some b => complete (dk_err (id_drive s)) b a | None => a end).

Inductive reachable : ide * (Z * Z -> block) -> Prop :=
| reach_start bufs q d1 d : length q = length bufs -> dk_busy d = false ->
    reachable (mkide bufs q None d1 d, dk_sectors d)
| reach_step x y : reachable x -> step x y -> reachable y.

Lemma ide_step_inv x y l : inv x.1 x.2 l -> step x y -> exists l', inv y.1 y.2 l'.
Proof.
  intros I Hs. destruct Hs as [s a i b s' r Hb Hr Hq E|s a i b Hq|s a err Hbusy|s a r s' Hbusy E]; simpl in *.
  - destruct (iderw_spec s a l i b I Hb Hr) as (s1 & E1 & I1 & _); [intros Hi; apply Hq; exists l; by split; [apply I|]|].
    rewrite E in E1. injection E1 as -> ->. eauto.
  - assert (Hi : i ∉ l) by (intros Hi; apply Hq; exists l; by split; [apply I|]). exists l. destruct I as [Hl Hnd Hlen Hreq Herr Hd].
    split; [done|done|simpl; by rewrite length_insert| |done|].
    + intros j Hj. destruct (Hreq j Hj) as (c & Hc & Hrc). exists c. split; [|done]. simpl. rewrite list_lookup_insert_ne; [done|]. by intros ->.
    + destruct l as [|j l]; [done|]. simpl. rewrite list_lookup_insert_ne; [done|]. intros ->. set_solver.
  - exists l. destruct I as [Hl Hnd Hlen Hreq Herr Hd]. split; [done..|]. simpl. destruct l as [|j l]; [by destruct Hd; congruence|].
    intros b Hb. specialize (Hd b Hb). unfold serves in *. simpl. destruct (dirty b); destruct Hd as [Hc Hs]; rewrite Hc; [|done].
    rewrite Hbusy in Hs. split; [done|]. simpl in Hs. rewrite Hs. destruct err; [done|]. by destruct (addr b).
  - destruct l as [|i l].
    + rewrite (ideintr_empty s a I) in E. injection E as <- <-. rewrite (iv_links _ _ _ I : id_queue s = None). simpl. eauto.
    + destruct (iv_reqs _ _ _ I i) as (b & Hb & _); [by left|]. destruct (iv_links _ _ _ I) as [Hq _]. rewrite Hq. simpl. rewrite Hb.
      destruct (ideintr_spec s a i l b I Hb Hbusy) as (s1 & E1 & I1 & _). rewrite E in E1. injection E1 as -> ->. eauto.
Qed.
Lemma ide_reachable_inv x : reachable x -> exists l, inv x.1 x.2 l.
Proof.
  induction 1 as [bufs q d1 d Hl Hb|x y _ [l I] Hs]; [|by eapply ide_step_inv]. exists []. split; simpl; try done; [constructor|set_solver|congruence].
Qed.

(** C15.  The interrupt-driven disk serves its requests in order.  In every
    reachable state, drive errors included, the queue is a list of distinct
    requests; a new request is appended and [iderw] neither panics nor spins;
    when the drive has ended its command the interrupt handler finishes exactly
    the oldest request, marks its buffer valid and clean, wakes its waiter and
    starts the next request, so with requests queued the drive always has work.
    If the drive reported no error, a write has reached the disk and a read has
    the contents that the successful writes before it left.  If it reported an
    error, the disk is as before and the buffer keeps its old data, and its
    waiter cannot tell the difference. *)
Theorem ide_serves_in_order s a : reachable (s, a) -> exists l, linked (id_qnext s) (id_queue s) l /\ NoDup l /\
  (forall i b, id_bufs s !! i = Some b -> request_ok s b -> i ∉ l ->
     exists s', iderw i s = Done false s' /\ linked (id_qnext s') (id_queue s') (l ++ [i]) /\ id_bufs s' = id_bufs s) /\
  match l with
  | [] => ideintr s = Done None s /\ dk_sectors (id_drive s) = a
  | i :: l' => dk_busy (id_drive s) = false -> exists b s' b', id_bufs s !! i = Some b /\ ideintr s = Done (Some i) s' /\
      linked (id_qnext s') (id_queue s') l' /\ id_bufs s' = <[i := b']> (id_bufs s) /\ finished b' = true /\
      b_data b' = (if dirty b || dk_err (id_drive s) then b_data b else a (addr b)) /\
      dk_sectors (id_drive s') = (if dirty b && negb (dk_err (id_drive s)) then <[addr b := b_data b]> a else a) /\
      (l' <> [] -> dk_busy (id_drive s') = true)
  end.
Proof.
  intros Hr. destruct (ide_reachable_inv _ Hr) as [l I]. clear Hr. simpl in I. exists l. split_and!; [apply I|apply I| |].
  - intros i b Hb Hrq Hi. destruct (iderw_spec s a l i b I Hb Hrq Hi) as (s' & E & I' & Eb & _). exists s'. split_and!; [done|apply I'|done].
  - destruct l as [|i l]; [split; [by eapply ideintr_empty|apply (iv_drive _ _ _ I)]|]. intros Hbusy.
    destruct (iv_reqs _ _ _ I i) as (b & Hb & _); [by left|].
    destruct (ideintr_spec s a i l b I Hb Hbusy) as (s' & E & I' & Eb & Hnext).
    exists b, s', (done_buf b (result (dk_err (id_drive s)) b a)). split_and!; try done; [apply I'|apply done_finished|].
    by apply (started_sectors _ _ _ I').
Qed.

(** A locked buffer waiting to be read, on a disk of sevens. *)
Definition demo_request : buf := mkbuf 0 1 5 (mksleeplock true 1) 1 0 0 [].
Definition demo_ide : ide :=
  mkide [demo_request] [None] None true (mkdrive (fun _ => [7]) 0 0 0 0 None false false).
(** The request is submitted, and the drive ends it. *)
Definition demo_submitted : ide := match iderw 0 demo_ide with Done _ s => s | _ => demo_ide end.
Definition demo_ended : ide := set_drive (finish false (id_drive demo_submitted)) demo_submitted.
Lemma demo_ended_reachable : reachable (demo_ended, fun _ => [7]).
Proof.
  apply (reach_step (demo_submitted, fun _ => [7])); [|by apply step_drive].
  apply (reach_step (demo_ide, fun _ => [7])); [by apply (reach_start [demo_request] [None] true (mkdrive (fun _ => [7]) 0 0 0 0 None false false))|].
  apply (step_submit _ _ 0 demo_request _ false); [done| | |done].
  - unfold request_ok, FSSIZE. simpl. split_and!; [done|done|by right|lia|lia].
  - intros (l & Hl & Hi). destruct l; [by apply not_elem_of_nil in Hi|by destruct Hl].
Qed.
Lemma ide_serves_in_order_witness : exists s' b', ideintr demo_ended = Done (Some 0%nat) s' /\
  id_bufs s' = [b'] /\ finished b' = true /\ b_data b' = [7].
Proof.
  destruct (ide_serves_in_order demo_ended (fun _ => [7]) demo_ended_reachable) as (l & Hl & _ & _ & Hs).
  destruct l as [|i l]; [discriminate Hl|]. destruct Hl as [[= <-] _]. destruct (Hs eq_refl) as (b & s' & b' & [= <-] & E & _ & Eb & Hf & Hd & _).
  exists s', b'. by split_and!.
Defined.
End System.

(** A failed read goes unnoticed: when the drive reports an error the handler
    leaves the old contents in the buffer and still marks it valid, so [iderw]
    returns as if the block had been read. *)
Theorem ide_read_error_ignored s i b : id_queue s = Some i -> id_qnext s !! i = Some None -> id_bufs s !! i = Some b ->
  dirty b = false -> dk_busy (id_drive s) = false -> dk_err (id_drive s) = true ->
  exists s' b', ideintr s = Done (Some i) s' /\ id_bufs s' !! i = Some b' /\ finished b' = true /\ b_data b' = b_data b.
Proof.
  intros Hq Hn Hb Hd Hbusy Herr. unfold dirty in Hd. apply negb_false_iff in Hd.
  exists (set_ibufs (alter (fun b => set_flags (Z.ldiff (Z.lor (b_flags b) B_VALID) B_DIRTY) b) i (id_bufs s)) (set_queue None s)), (done_buf b (b_data b)).
  split_and!; [|simpl; rewrite (alter_insert _ _ _ _ Hb), list_lookup_insert_eq by (by eapply lookup_lt_Some); by destruct b|apply done_finished|done].
  unfold ideintr. erewrite bind_done by done. rewrite Hq. erewrite bind_done by done. rewrite Hn. change (mjoin (Some None)) with (@None nat).
  erewrite bind_done by (unfold ide_buf; simpl; by rewrite Hb). rewrite Hd.
  assert (Ew : idewait true (set_queue None s) = Done (-1) (set_queue None s)).
  { unfold idewait, mbind, km_bind, kget, status. simpl. by rewrite Hbusy, Herr. }
  erewrite (bind_done _ _ _ tt (set_queue None s)); [|by erewrite bind_done by exact Ew].
  by erewrite bind_done by done; erewrite bind_done by done.
Qed.
Lemma ide_read_error_ignored_witness : exists s' b',
  ideintr (mkide [System.demo_request] [None] (Some 0%nat) true (mkdrive (fun _ => [7]) 0 0 0 0 (Some (Read 1 5)) false true)) = Done (Some 0%nat) s' /\
  id_bufs s' !! 0%nat = Some b' /\ finished b' = true /\ b_data b' = [].
Proof.
  apply (ide_read_error_ignored (mkide [System.demo_request] [None] (Some 0%nat) true (mkdrive (fun _ => [7]) 0 0 0 0 (Some (Read 1 5)) false true)) 0
    System.demo_request); done.
Defined.
