(* ===== verification/LogSpec.v ===== *)
(** * What the routines of [log.c] do

    Each routine is followed write by write: [at_log s0 a tr s] says that [s]
    is [s0] with the cache in the abstract state [a] and [tr] the disk writes
    since boot.  [commit_writes] and [recover_writes] are the writes of
    [commit] and of [recover_from_log], in order. *)

From S2P Require Import Prelude Sleeplock Bio BioSpec Log.

(** ** Buffer operations inside the log *)

Record at_log (s0 : log) (a : babs) (tr : list (Z * block)) (s : log) : Prop := mk_at_log {
  al_bio : bio_repr (l_bio s) a;
  al_tr : d_trace (l_bio s) = tr;
  al_pid : cur_pid (l_bio s) = cur_pid (l_bio s0);
  al_rest : set_bio (l_bio s0) s = s0
}.

Lemma wp_io {A} (m : KM bio A) s (Q : A -> log -> Prop) :
  wp m (l_bio s) (fun x b => Q x (set_bio b s)) -> wp (io m) s Q.
Proof. apply wp_zoom. Qed.

Lemma al_fields s0 a tr s : at_log s0 a tr s ->
  l_start s = l_start s0 /\ l_size s = l_size s0 /\ l_dev s = l_dev s0 /\ lh_n s = lh_n s0 /\
  lh_block s = lh_block s0.
Proof. intros [_ _ _ <-]. done. Qed.

Lemma al_step s0 a tr s b' a' tr' :
  at_log s0 a tr s -> bio_repr b' a' -> d_trace b' = tr' -> cur_pid b' = cur_pid (l_bio s) ->
  at_log s0 a' tr' (set_bio b' s).
Proof. intros [_ _ Hp Hs] Hr Ht Hp'. split; simpl; [done|done|congruence|exact Hs]. Qed.

Section buffer_steps.
Context (s0 : log) (tr : list (Z * block)).
Implicit Types (a : babs) (s : log) (b : Z) (d : block).

Lemma at_bread a s b d (Q : nat -> log -> Prop) :
  at_log s0 a tr s -> ba_view a !! b = Some d -> b ∉ (map_img (ba_held a) : gset Z) ->
  b ∈ ba_dirty a \/ (size (pinned a) < NBUF)%nat ->
  (forall h s', ba_held a !! h = None -> at_log s0 (a_hold h b a) tr s' -> Q h s') ->
  wp (io (bread ROOTDEV b)) s Q.
Proof.
  intros Hat; pose proof Hat as [Hr Ht _ _]; intros Hv Hh Hroom HQ. apply wp_io. eapply wp_mono; [by eapply bread_spec|].
  intros h b' (Hn & Hr' & _ & Ht' & Hp'). apply HQ; [done|]. eapply al_step; [done|done|congruence|done].
Qed.
Lemma at_data a s h b d (Q : block -> log -> Prop) :
  at_log s0 a tr s -> ba_held a !! h = Some b -> ba_view a !! b = Some d -> Q d s ->
  wp (io (bp_data h)) s Q.
Proof.
  intros [Hr _ _ _] Hh Hv HQ. apply wp_io. eapply bp_data_spec; [done..|]. by destruct s.
Qed.
Lemma at_bput a s h b d off bytes (Q : unit -> log -> Prop) :
  at_log s0 a tr s -> ba_held a !! h = Some b -> ba_view a !! b = Some d ->
  (forall s', at_log s0 (a_setdata b (splice off bytes d) a) tr s' -> Q tt s') ->
  wp (io (bput h off bytes)) s Q.
Proof.
  intros Hat; pose proof Hat as [Hr Ht _ _]; intros Hh Hv HQ. apply wp_io. eapply wp_mono; [by eapply bput_spec|].
  intros [] b' (Hr' & _ & Ht' & Hp'). apply HQ. eapply al_step; [done|done|congruence|done].
Qed.
Lemma at_bwrite a s h b d (Q : unit -> log -> Prop) :
  at_log s0 a tr s -> ba_held a !! h = Some b -> ba_view a !! b = Some d ->
  (forall s', at_log s0 (a_write b d a) (tr ++ [(b, d)]) s' -> Q tt s') ->
  wp (io (bwrite h)) s Q.
Proof.
  intros Hat; pose proof Hat as [Hr Ht _ _]; intros Hh Hv HQ. apply wp_io. eapply wp_mono; [by eapply bwrite_spec|].
  intros [] b' (Hr' & _ & Ht' & Hp'). apply HQ. eapply al_step; [done|done|congruence|done].
Qed.
Lemma at_brelse a s h b (Q : unit -> log -> Prop) :
  at_log s0 a tr s -> ba_held a !! h = Some b -> b ∉ ba_mod a ->
  (forall s', at_log s0 (a_drop h a) tr s' -> Q tt s') ->
  wp (io (brelse h)) s Q.
Proof.
  intros Hat; pose proof Hat as [Hr Ht _ _]; intros Hh Hv HQ. apply wp_io. eapply wp_mono; [by eapply brelse_spec|].
  intros [] b' (Hr' & _ & Ht' & Hp'). apply HQ. eapply al_step; [done|done|congruence|done].
Qed.
End buffer_steps.

(** ** One block written through the cache *)

Definition a_put (b : Z) (d : block) (a : babs) : babs :=
  mkbabs (<[Z.to_nat b := d]> (ba_disk a)) (<[b := d]> (ba_view a)) (ba_held a)
         (ba_dirty a ∖ {[b]}) (ba_mod a ∖ {[b]}).
Definition a_puts (ws : list (Z * block)) (a : babs) : babs :=
  foldl (fun a w => a_put w.1 w.2 a) a ws.

Lemma write_setdata b d a : a_write b d (a_setdata b d a) = a_put b d a.
Proof. unfold a_write, a_setdata, a_put. simpl. f_equal. set_solver. Qed.
Lemma a_puts_app ws ws' a : a_puts (ws ++ ws') a = a_puts ws' (a_puts ws a).
Proof. apply foldl_app. Qed.

(** Disk writes. *)
Definition apply_writes (ws : list (Z * block)) (disk : list block) : list block :=
  foldl (fun dk w => <[Z.to_nat w.1 := w.2]> dk) disk ws.
Lemma apply_writes_app ws ws' disk :
  apply_writes (ws ++ ws') disk = apply_writes ws' (apply_writes ws disk).
Proof. apply foldl_app. Qed.

Lemma a_puts_disk ws a : ba_disk (a_puts ws a) = apply_writes ws (ba_disk a).
Proof. revert a. induction ws as [|w ws IH]; intros a; [done|]. simpl. by rewrite IH. Qed.
Lemma a_puts_held ws a : ba_held (a_puts ws a) = ba_held a.
Proof. revert a. induction ws as [|w ws IH]; intros a; [done|]. simpl. by rewrite IH. Qed.
Lemma a_puts_mod ws a : ba_mod a = ∅ -> ba_mod (a_puts ws a) = ∅.
Proof.
  revert a. induction ws as [|w ws IH]; intros a H; [done|]. simpl. apply IH. simpl. rewrite H. set_solver.
Qed.
Lemma a_puts_dirty ws a : ba_dirty (a_puts ws a) = ba_dirty a ∖ list_to_set ws.*1.
Proof.
  revert a. induction ws as [|w ws IH]; intros a; simpl; [set_solver|]. rewrite IH. simpl. set_solver.
Qed.
Lemma a_puts_view ws a b : b ∉ ws.*1 -> ba_view (a_puts ws a) !! b = ba_view a !! b.
Proof.
  revert a. induction ws as [|w ws IH]; intros a H; [done|]. simpl. rewrite IH by set_solver.
  simpl. rewrite lookup_insert_ne by set_solver. done.
Qed.
Lemma a_puts_view_in ws a b d :
  NoDup ws.*1 -> (b, d) ∈ ws -> ba_view (a_puts ws a) !! b = Some d.
Proof.
  revert a. induction ws as [|w ws IH]; intros a Hn H; [set_solver|].
  simpl in Hn. apply NoDup_cons in Hn as [Hw Hn].
  apply elem_of_cons in H as [<-|H]; simpl; [|by apply IH].
  rewrite a_puts_view by done. simpl. by rewrite lookup_insert_eq.
Qed.

(** Two buffers are read, one is copied over the other, written and both are
    released. *)
Lemma splice_all (d d' : block) :
  length d = BSIZE -> length d' = BSIZE -> splice 0 (slice 0 BSIZE d) d' = d.
Proof.
  intros H H'. unfold splice, slice. rewrite drop_0, take_0. simpl.
  rewrite take_ge by lia. rewrite drop_ge by lia. by rewrite app_nil_r.
Qed.

Lemma hold_drop h b a : ba_held a !! h = None -> a_drop h (a_hold h b a) = a.
Proof. destruct a. intros H. unfold a_drop, a_hold. simpl in *. by rewrite delete_insert_id. Qed.

Lemma copy_tail s0 tr a s src dst hs hd ds dd (Q : unit -> log -> Prop) :
  at_log s0 (mkbabs (ba_disk a) (ba_view a) (<[hs := src]> (<[hd := dst]> ∅)) (ba_dirty a) (ba_mod a)) tr s ->
  hs <> hd -> src <> dst -> ba_held a = ∅ -> ba_mod a = ∅ ->
  ba_view a !! src = Some ds -> ba_view a !! dst = Some dd -> length ds = BSIZE -> length dd = BSIZE ->
  (forall s', at_log s0 (a_put dst ds a) (tr ++ [(dst, ds)]) s' -> Q tt s') ->
  wp (d ← io (bp_data hs); io (bput hd 0 (slice 0 BSIZE d));; io (bwrite hd);;
      io (brelse hs);; io (brelse hd)) s Q.
Proof.
  intros Hat Hne Hb Hheld Hmod Hs Hd Hls Hld HQ.
  assert (Hhs : (<[hs := src]> (<[hd := dst]> ∅) : gmap nat Z) !! hs = Some src) by by simplify_map_eq.
  assert (Hhd : (<[hs := src]> (<[hd := dst]> ∅) : gmap nat Z) !! hd = Some dst) by by simplify_map_eq.
  wp_step. eapply at_data; [done|apply Hhs|done|].
  wp_step. eapply at_bput; [done|apply Hhd|done|]. clear s Hat. intros s Hat.
  rewrite splice_all in Hat by done.
  wp_step. eapply at_bwrite; [done|done|simpl; by rewrite lookup_insert_eq|]. clear s Hat. intros s Hat.
  rewrite write_setdata in Hat.
  assert (Hm : forall b : Z, b ∉ ba_mod a ∖ {[dst]}) by (rewrite Hmod; set_solver).
  assert (Hhd' : (delete hs (<[hs := src]> (<[hd := dst]> ∅)) : gmap nat Z) !! hd = Some dst) by by simplify_map_eq.
  wp_step. eapply at_brelse; [done|exact Hhs|apply Hm|]. clear s Hat. intros s Hat.
  eapply at_brelse; [done|exact Hhd'|apply Hm|]. clear s Hat. intros s Hat.
  apply HQ. replace (a_put dst ds a) with (a_drop hd (a_drop hs (a_put dst ds
    (mkbabs (ba_disk a) (ba_view a) (<[hs:=src]> (<[hd:=dst]> ∅)) (ba_dirty a) (ba_mod a))))); [done|].
  unfold a_drop, a_put. simpl. f_equal. rewrite Hheld.
  apply map_eq. intros i. rewrite lookup_empty.
  destruct (decide (i = hs)), (decide (i = hd)); subst; by simplify_map_eq.
Qed.

(** ** The loops of [write_log] and [install_trans] *)

Definition vat (v : gmap Z block) (b : Z) : block := default [] (v !! b).
Definition vwf (v : gmap Z block) : Prop :=
  forall b d, v !! b = Some d -> length d = BSIZE /\ 0 <= b < 2 ^ 31.

Definition log_writes (start : Z) (v : gmap Z block) (L : list Z) : list (Z * block) :=
  imap (fun i b => (start + Z.of_nat i + 1, vat v b)) L.
Definition inst_writes (start : Z) (v : gmap Z block) (L : list Z) : list (Z * block) :=
  imap (fun i b => (b, vat v (start + Z.of_nat i + 1))) L.

(** The blocks of the log area that [n] entries use, the header included, and
    the blocks of a transaction, which lie outside. *)
Definition log_area (start : Z) (n : nat) (b : Z) : Prop := start <= b <= start + Z.of_nat n.

Record trans_ok (start : Z) (a : babs) (L : list Z) : Prop := mk_trans_ok {
  to_wf : vwf (ba_view a);
  to_held : ba_held a = ∅;
  to_mod : ba_mod a = ∅;
  to_nodup : NoDup L;
  to_home : forall b, b ∈ L -> is_Some (ba_view a !! b) /\ ~ log_area start (length L) b;
  to_area : forall b, log_area start (length L) b -> is_Some (ba_view a !! b);
  to_room : (list_to_set L ⊆ ba_dirty a /\ (size (ba_dirty a) < NBUF)%nat) \/ ba_dirty a = ∅
}.

Lemma elem_of_take_sub {A} (x : A) i l : x ∈ take i l -> x ∈ l.
Proof.
  intros (j & Hj)%list_elem_of_lookup. apply lookup_take_Some in Hj as [Hj _].
  by eapply list_elem_of_lookup_2.
Qed.

Lemma inst_writes_fst start v L : (inst_writes start v L).*1 = L.
Proof.
  unfold inst_writes. rewrite fmap_imap. change (imap (fun (_ : nat) (b : Z) => b) L = L).
  apply list_eq. intros i. rewrite list_lookup_imap. by destruct (L !! i).
Qed.
Lemma log_writes_fst start v L b :
  b ∈ (log_writes start v L).*1 <-> start < b <= start + Z.of_nat (length L).
Proof.
  unfold log_writes. rewrite fmap_imap. rewrite list_elem_of_lookup. split.
  - intros [i Hi]. rewrite list_lookup_imap in Hi. destruct (L !! i) eqn:E; [|done].
    apply lookup_lt_Some in E. simplify_eq/=. lia.
  - intros H. exists (Z.to_nat (b - start - 1)). rewrite list_lookup_imap.
    destruct (L !! Z.to_nat (b - start - 1)) eqn:E; simpl.
    + f_equal. lia.
    + apply lookup_ge_None in E. lia.
Qed.
Lemma log_writes_nodup start v L : NoDup (log_writes start v L).*1.
Proof.
  unfold log_writes. rewrite fmap_imap. apply NoDup_alt. intros i j x Hi Hj.
  rewrite list_lookup_imap in Hi, Hj. destruct (L !! i), (L !! j); simplify_eq/=. lia.
Qed.
Lemma length_log_writes start v L : length (log_writes start v L) = length L.
Proof. apply length_imap. Qed.
Lemma length_inst_writes start v L : length (inst_writes start v L) = length L.
Proof. apply length_imap. Qed.

Lemma vat_Some v b d : v !! b = Some d -> vat v b = d.
Proof. unfold vat. by intros ->. Qed.
Lemma vat_is_Some v b : is_Some (v !! b) -> v !! b = Some (vat v b).
Proof. unfold vat. by intros [d ->]. Qed.

(** Reading the log block of entry [tail] and then its home block. *)
Lemma open_two s0 tr a s tail b (k : nat -> nat -> KM log unit) (Q : unit -> log -> Prop) :
  at_log s0 a tr s -> l_dev s0 = ROOTDEV -> vwf (ba_view a) -> ba_held a = ∅ ->
  lh_block s0 !! tail = Some b -> l_start s0 + Z.of_nat tail + 1 <> b ->
  is_Some (ba_view a !! (l_start s0 + Z.of_nat tail + 1)) -> is_Some (ba_view a !! b) ->
  (b ∈ ba_dirty a /\ (size (ba_dirty a) < NBUF)%nat) \/ ba_dirty a = ∅ ->
  (forall h1 h2 s', h1 <> h2 ->
     at_log s0 (a_hold h2 b (a_hold h1 (l_start s0 + Z.of_nat tail + 1) a)) tr s' ->
     wp (k h1 h2) s' Q) ->
  wp (h1 ← io (bread (l_dev s0) (u32 (l_start s0 + Z.of_nat tail + 1)));
      b ← lh_get tail; h2 ← io (bread (l_dev s0) (u32 b)); k h1 h2) s Q.
Proof.
  set (x := l_start s0 + Z.of_nat tail + 1).
  intros Hat Hdev Hwf Hh Hb Hxb [dx Hx] [db Hbv] Hroom HQ. rewrite Hdev.
  assert (u32 x = x) as -> by (apply u32_id; apply Hwf in Hx; lia).
  assert (Hpin : pinned a = ba_dirty a).
  { unfold pinned. rewrite Hh, map_img_empty_L. set_solver. }
  wp_step. eapply at_bread; [done|done| |right|].
  { rewrite Hh, map_img_empty_L. set_solver. }
  { rewrite Hpin. destruct Hroom as [[_ ?]| ->]; [done|rewrite size_empty; unfold NBUF; lia]. }
  clear s Hat. intros h1 s Hn Hat.
  wp_step. unfold wp at 1, lh_get. destruct (al_fields _ _ _ _ Hat) as (_ & _ & _ & _ & ->).
  rewrite Hb. wp_step.
  assert (u32 b = b) as -> by (apply u32_id; apply Hwf in Hbv; lia).
  eapply at_bread; [done|exact Hbv| | |].
  - simpl. rewrite Hh. rewrite insert_empty, map_img_singleton_L. set_solver.
  - simpl. destruct Hroom as [[? _]|Hd]; [by left|right].
    unfold pinned, a_hold. simpl. rewrite Hh, Hd, insert_empty, map_img_singleton_L.
    rewrite union_empty_r_L, size_singleton. unfold NBUF. lia.
  - clear s Hat. intros h2 s Hn2 Hat. apply HQ; [|done]. intros ->.
    simpl in Hn2. by rewrite lookup_insert_eq in Hn2.
Qed.

Lemma puts_wf ws a0 :
  vwf (ba_view a0) -> (forall b d, (b, d) ∈ ws -> length d = BSIZE /\ is_Some (ba_view a0 !! b)) ->
  vwf (ba_view (a_puts ws a0)).
Proof.
  revert a0. induction ws as [|[b d] ws IH]; intros a0 Hwf Hws; [done|]. simpl. apply IH; simpl.
  - intros b' d'. rewrite lookup_insert. case_decide as E; [|apply Hwf]. intros [= <-]. subst.
    destruct (Hws b' d) as [? [d0 Hd0]]; [set_solver|]. split; [done|]. by eapply Hwf.
  - intros b' d' Hb. destruct (Hws b' d') as [? ?]; [set_solver|]. split; [done|].
    rewrite lookup_insert. by case_decide.
Qed.

Section loops.
Context (s0 : log) (a : babs) (L : list Z) (tr : list (Z * block)).
Hypothesis Hdev : l_dev s0 = ROOTDEV.
Hypothesis Hn : lh_n s0 = Z.of_nat (length L).
Hypothesis HL : take (length L) (lh_block s0) = L.
Hypothesis OK : trans_ok (l_start s0) a L.

Let start := l_start s0.

Lemma lh_entry i b : L !! i = Some b -> lh_block s0 !! i = Some b.
Proof. rewrite <- HL at 1. by intros [? _]%lookup_take_Some. Qed.

Lemma elem_of_log_writes b d :
  (b, d) ∈ log_writes start (ba_view a) L <->
  exists i x, L !! i = Some x /\ b = start + Z.of_nat i + 1 /\ d = vat (ba_view a) x.
Proof.
  unfold log_writes. rewrite list_elem_of_lookup. split.
  - intros [i Hi]. rewrite list_lookup_imap in Hi. destruct (L !! i) as [x|] eqn:E; simplify_eq/=. eauto.
  - intros (i & x & E & -> & ->). exists i. by rewrite list_lookup_imap, E.
Qed.
Lemma elem_of_inst_writes b d :
  (b, d) ∈ inst_writes start (ba_view a) L <->
  exists i, L !! i = Some b /\ d = vat (ba_view a) (start + Z.of_nat i + 1).
Proof.
  unfold inst_writes. rewrite list_elem_of_lookup. split.
  - intros [i Hi]. rewrite list_lookup_imap in Hi. destruct (L !! i) as [x|] eqn:E; simplify_eq/=. eauto.
  - intros (i & E & ->). exists i. by rewrite list_lookup_imap, E.
Qed.

Lemma entry_view i b : L !! i = Some b ->
  ba_view a !! b = Some (vat (ba_view a) b) /\ length (vat (ba_view a) b) = BSIZE.
Proof.
  intros Hi. destruct (to_home _ _ _ OK b) as [Hs _]; [by eapply list_elem_of_lookup_2|].
  pose proof (vat_is_Some _ _ Hs) as H. split; [done|]. by apply (to_wf _ _ _ OK) in H as [? _].
Qed.
Lemma slot_view i b : L !! i = Some b -> let x := start + Z.of_nat i + 1 in
  ba_view a !! x = Some (vat (ba_view a) x) /\ length (vat (ba_view a) x) = BSIZE.
Proof.
  intros Hi x. assert (is_Some (ba_view a !! x)) as Hs.
  { apply (to_area _ _ _ OK). unfold log_area. apply lookup_lt_Some in Hi. unfold x, start. lia. }
  pose proof (vat_is_Some _ _ Hs) as H. split; [done|]. by apply (to_wf _ _ _ OK) in H as [? _].
Qed.
Lemma slot_not_home i x : L !! i = Some x -> forall b, b ∈ L -> b <> start + Z.of_nat i + 1.
Proof.
  intros Hi b Hb ->. destruct (to_home _ _ _ OK _ Hb) as [_ H]. apply H. unfold log_area.
  apply lookup_lt_Some in Hi. unfold start. lia.
Qed.

Lemma take_fst ws i (b : Z) : b ∈ (take i ws : list (Z * block)).*1 -> b ∈ ws.*1.
Proof. rewrite fmap_take. apply elem_of_take_sub. Qed.

(** The state in which an iteration of either loop starts. *)
Lemma iter_pre ws i b : let x := start + Z.of_nat i + 1 in let ai := a_puts (take i ws) a in
  L !! i = Some b -> b ∉ (take i ws).*1 -> x ∉ (take i ws).*1 ->
  (forall b d, (b, d) ∈ ws -> length d = BSIZE /\ is_Some (ba_view a !! b)) ->
  vwf (ba_view ai) /\ ba_held ai = ∅ /\ ba_mod ai = ∅ /\
  ba_view ai !! b = Some (vat (ba_view a) b) /\ ba_view ai !! x = Some (vat (ba_view a) x) /\
  ((b ∈ ba_dirty ai /\ (size (ba_dirty ai) < NBUF)%nat) \/ ba_dirty ai = ∅).
Proof.
  intros x ai Hi Hb Hx Hws. unfold ai. rewrite !a_puts_view, a_puts_held, a_puts_dirty by done.
  pose proof (entry_view _ _ Hi) as [Hbv _]. pose proof (slot_view _ _ Hi) as [Hxv _].
  split_and!; try done.
  - apply puts_wf; [apply OK|]. intros b' d' H. apply Hws. by eapply elem_of_take_sub.
  - apply (to_held _ _ _ OK).
  - apply a_puts_mod, (to_mod _ _ _ OK).
  - destruct (to_room _ _ _ OK) as [[Hsub Hsz]|E]; [left|right; rewrite E; set_solver]. split.
    + apply list_elem_of_lookup_2 in Hi. set_solver.
    + eapply Nat.le_lt_trans; [|exact Hsz]. apply subseteq_size. set_solver.
Qed.

Lemma log_writes_ok b d :
  (b, d) ∈ log_writes start (ba_view a) L -> length d = BSIZE /\ is_Some (ba_view a !! b).
Proof.
  intros (i & x & Hi & -> & ->)%elem_of_log_writes. split; [by eapply entry_view|].
  destruct (slot_view _ _ Hi) as [H _]. by rewrite H.
Qed.
Lemma inst_writes_ok b d :
  (b, d) ∈ inst_writes start (ba_view a) L -> length d = BSIZE /\ is_Some (ba_view a !! b).
Proof.
  intros (i & Hi & ->)%elem_of_inst_writes. split; [by eapply slot_view|].
  destruct (entry_view _ _ Hi) as [H _]. by rewrite H.
Qed.

Lemma puts_snoc ws i w s : ws !! i = Some w ->
  at_log s0 (a_put w.1 w.2 (a_puts (take i ws) a)) ((tr ++ take i ws) ++ [w]) s ->
  at_log s0 (a_puts (take (S i) ws) a) (tr ++ take (S i) ws) s.
Proof.
  intros Hw. by rewrite (take_S_r _ _ _ Hw), a_puts_app, app_assoc.
Qed.

Lemma hold_two h1 h2 x y a0 : ba_held a0 = ∅ ->
  a_hold h2 y (a_hold h1 x a0) =
  mkbabs (ba_disk a0) (ba_view a0) (<[h2 := y]> (<[h1 := x]> ∅)) (ba_dirty a0) (ba_mod a0).
Proof. intros H. unfold a_hold. simpl. by rewrite H. Qed.

Lemma write_log_spec s (Q : unit -> log -> Prop) :
  at_log s0 a tr s ->
  (forall s', at_log s0 (a_puts (log_writes start (ba_view a) L) a)
                     (tr ++ log_writes start (ba_view a) L) s' -> Q tt s') ->
  wp write_log s Q.
Proof.
  intros Hat HQ. set (ws := log_writes start (ba_view a) L) in *.
  unfold write_log. wp_step. wp_step.
  destruct (al_fields _ _ _ _ Hat) as (Es & _ & Ed & En & _). rewrite Es, Ed, En, Hn, Nat2Z.id.
  apply (wp_kfor (fun i s => at_log s0 (a_puts (take i ws) a) (tr ++ take i ws) s)).
  - by rewrite take_0, app_nil_r.
  - clear s Hat Es Ed En. intros i s Hi Hat.
    destruct (lookup_lt_is_Some_2 L i) as [b Hb]; [lia|].
    assert (Hws : ws !! i = Some (start + Z.of_nat i + 1, vat (ba_view a) b)).
    { unfold ws, log_writes. by rewrite list_lookup_imap, Hb. }
    pose proof (list_elem_of_lookup_2 _ _ _ Hb) as HbL.
    pose proof (slot_not_home _ _ Hb _ HbL) as Hne.
    destruct (iter_pre ws i b) as (Hwf & Hheld & Hmod & Hbv & Hxv & Hroom); try done.
    { intros H%take_fst. apply log_writes_fst in H. destruct (to_home _ _ _ OK _ HbL) as [_ H'].
      apply H'. unfold log_area. fold start. lia. }
    { intros H. rewrite fmap_take in H.
      apply list_elem_of_lookup in H as [j [Hj Hlt]%lookup_take_Some].
      assert (j = i); [|lia]. eapply NoDup_lookup; [apply (log_writes_nodup start (ba_view a) L)|exact Hj|].
      fold ws. by rewrite list_lookup_fmap, Hws. }
    { apply log_writes_ok. }
    eapply open_two; [done|done|done|done|by apply lh_entry|done|by eauto|by eauto|done|].
    clear s Hat. intros h1 h2 s Hh Hat. rewrite hold_two in Hat by done.
    eapply copy_tail; [exact Hat|done|done|done|done|exact Hbv|exact Hxv|by eapply entry_view|by eapply slot_view|].
    intros s' Hat'. by eapply puts_snoc.
  - intros s' Hat'. rewrite Nat.add_0_l, take_ge in Hat' by (unfold ws; rewrite length_log_writes; lia).
    by apply HQ.
Qed.

Lemma install_trans_spec s (Q : unit -> log -> Prop) :
  at_log s0 a tr s ->
  (forall s', at_log s0 (a_puts (inst_writes start (ba_view a) L) a)
                     (tr ++ inst_writes start (ba_view a) L) s' -> Q tt s') ->
  wp install_trans s Q.
Proof.
  intros Hat HQ. set (ws := inst_writes start (ba_view a) L) in *.
  unfold install_trans. wp_step. wp_step.
  destruct (al_fields _ _ _ _ Hat) as (Es & _ & Ed & En & _). rewrite Es, Ed, En, Hn, Nat2Z.id.
  apply (wp_kfor (fun i s => at_log s0 (a_puts (take i ws) a) (tr ++ take i ws) s)).
  - by rewrite take_0, app_nil_r.
  - clear s Hat Es Ed En. intros i s Hi Hat.
    destruct (lookup_lt_is_Some_2 L i) as [b Hb]; [lia|].
    assert (Hws : ws !! i = Some (b, vat (ba_view a) (start + Z.of_nat i + 1))).
    { unfold ws, inst_writes. by rewrite list_lookup_imap, Hb. }
    pose proof (list_elem_of_lookup_2 _ _ _ Hb) as HbL.
    pose proof (slot_not_home _ _ Hb _ HbL) as Hne.
    destruct (iter_pre ws i b) as (Hwf & Hheld & Hmod & Hbv & Hxv & Hroom); try done.
    { intros H. unfold ws in H. rewrite fmap_take, inst_writes_fst in H.
      apply list_elem_of_lookup in H as [j [Hj Hlt]%lookup_take_Some].
      assert (j = i); [|lia]. by eapply NoDup_lookup; [apply OK| |]. }
    { intros H%take_fst. unfold ws in H. rewrite inst_writes_fst in H.
      by apply (slot_not_home _ _ Hb _ H). }
    { apply inst_writes_ok. }
    eapply open_two; [done|done|done|done|by apply lh_entry|done|by eauto|by eauto|done|].
    clear s Hat. intros h1 h2 s Hh Hat. rewrite hold_two, insert_insert_ne in Hat by done.
    eapply copy_tail; [exact Hat|done|done|done|done|exact Hxv|exact Hbv|by eapply slot_view|by eapply entry_view|].
    intros s' Hat'. by eapply puts_snoc.
  - intros s' Hat'. rewrite Nat.add_0_l, take_ge in Hat' by (unfold ws; rewrite length_inst_writes; lia).
    by apply HQ.
Qed.
End loops.

(** ** The header block *)

Fixpoint head_fill (i : nat) (L : list Z) (d : block) : block :=
  match L with
  | [] => d
  | b :: L => head_fill (S i) L (splice (4 + 4 * i) (put32 b) d)
  end.
(** The header block that lists [L], over its old contents [d]. *)
Definition headblk (L : list Z) (d : block) : block :=
  head_fill 0 L (splice 0 (put32 (Z.of_nat (length L))) d).

(** The block numbers a header block lists. *)
Definition hdr_n (d : block) : nat := Z.to_nat (geti32 0 d).
Definition hdr (d : block) : list Z := (fun i => geti32 (4 + 4 * i) d) <$> seq 0 (hdr_n d).

Lemma length_put32 v : length (put32 v) = 4%nat.
Proof. apply length_le_bytes. Qed.
Lemma get32_splice_eq off v d :
  (off + 4 <= length d)%nat -> get32 off (splice off (put32 v) d) = u32 v.
Proof.
  intros H. unfold get32. rewrite <- (length_put32 v) at 1.
  rewrite slice_splice_eq by (rewrite length_put32; lia). unfold put32. by rewrite le_val_bytes.
Qed.
Lemma get32_splice_ne off off' v d :
  (off + 4 <= length d)%nat -> (off' + 4 <= off \/ off + 4 <= off')%nat ->
  get32 off' (splice off (put32 v) d) = get32 off' d.
Proof. intros. unfold get32. by rewrite slice_splice_ne by (rewrite length_put32; lia). Qed.

Lemma i32_u32 z : i32 (u32 z) = i32 z.
Proof. unfold i32, u32. by rewrite Zplus_mod_idemp_l. Qed.

Lemma length_head_fill L : forall i d,
  (4 + 4 * (i + length L) <= length d)%nat -> length (head_fill i L d) = length d.
Proof.
  induction L as [|b L IH]; intros i d H; [done|]. simpl in *.
  rewrite IH; rewrite length_splice; rewrite ?length_put32; lia.
Qed.
Lemma head_fill_below L : forall i d off,
  (4 + 4 * (i + length L) <= length d)%nat -> (off + 4 <= 4 + 4 * i)%nat ->
  get32 off (head_fill i L d) = get32 off d.
Proof.
  induction L as [|b L IH]; intros i d off H Ho; [done|]. cbn [head_fill length] in *.
  rewrite IH by (rewrite ?length_splice; rewrite ?length_put32; lia).
  apply get32_splice_ne; lia.
Qed.
Lemma head_fill_at L : forall i d j b,
  (4 + 4 * (i + length L) <= length d)%nat -> L !! j = Some b ->
  get32 (4 + 4 * (i + j)) (head_fill i L d) = u32 b.
Proof.
  induction L as [|b0 L IH]; intros i d j b H Hj; [done|]. cbn [head_fill length] in *.
  destruct j as [|j]; simpl in Hj.
  - simplify_eq. rewrite Nat.add_0_r, head_fill_below by (rewrite ?length_splice; rewrite ?length_put32; lia).
    apply get32_splice_eq. lia.
  - replace (i + S j)%nat with (S i + j)%nat by lia.
    apply IH; [|done]. rewrite length_splice; rewrite ?length_put32; lia.
Qed.
Lemma head_fill_snoc L : forall i b d,
  head_fill i (L ++ [b]) d = splice (4 + 4 * (i + length L)) (put32 b) (head_fill i L d).
Proof.
  induction L as [|b0 L IH]; intros i b d; cbn [head_fill length app].
  - by rewrite Nat.add_0_r.
  - rewrite IH. do 2 f_equal. lia.
Qed.

Section headblk.
Context (L : list Z) (d : block).
Hypothesis Hd : length d = BSIZE.
Hypothesis HL : (length L <= 30)%nat.

Lemma length_headblk : length (headblk L d) = BSIZE.
Proof.
  unfold headblk. rewrite length_head_fill; rewrite length_splice; rewrite ?length_put32, ?Hd;
    unfold BSIZE; lia.
Qed.
Lemma hdr_n_headblk : geti32 0 (headblk L d) = Z.of_nat (length L).
Proof.
  unfold geti32, headblk. rewrite head_fill_below.
  - rewrite get32_splice_eq by (rewrite Hd; unfold BSIZE; lia). rewrite i32_u32. apply i32_id. lia.
  - rewrite length_splice; rewrite ?length_put32, Hd; unfold BSIZE; lia.
  - lia.
Qed.
Lemma hdr_headblk : (forall b, b ∈ L -> 0 <= b < 2 ^ 31) -> hdr (headblk L d) = L.
Proof.
  intros Hr. unfold hdr, hdr_n. rewrite hdr_n_headblk, Nat2Z.id.
  apply list_eq. intros i. rewrite list_lookup_fmap.
  destruct (L !! i) as [b|] eqn:E.
  - rewrite lookup_seq_lt by by eapply lookup_lt_Some. simpl. f_equal.
    unfold geti32, headblk. etrans; [apply (f_equal i32), (head_fill_at L 0 _ i b); [|done]|].
    { rewrite length_splice; rewrite ?length_put32, Hd; unfold BSIZE; lia. }
    rewrite i32_u32. apply i32_id. apply list_elem_of_lookup_2, Hr in E. lia.
  - rewrite lookup_seq_ge by by apply lookup_ge_None. done.
Qed.
End headblk.

Lemma setdata_setdata b d d' a : a_setdata b d' (a_setdata b d a) = a_setdata b d' a.
Proof. unfold a_setdata. simpl. rewrite insert_insert_eq. f_equal. set_solver. Qed.

Lemma write_head_spec s0 a L tr s d (Q : unit -> log -> Prop) :
  l_dev s0 = ROOTDEV -> lh_n s0 = Z.of_nat (length L) -> take (length L) (lh_block s0) = L ->
  (length L <= 30)%nat -> vwf (ba_view a) -> ba_held a = ∅ -> ba_mod a = ∅ ->
  (size (ba_dirty a) < NBUF)%nat -> ba_view a !! l_start s0 = Some d ->
  at_log s0 a tr s ->
  (forall s', at_log s0 (a_put (l_start s0) (headblk L d) a) (tr ++ [(l_start s0, headblk L d)]) s' -> Q tt s') ->
  wp write_head s Q.
Proof.
  intros Hdev Hn HL Hlen Hwf Hheld Hmod Hsz Hd Hat HQ.
  destruct (Hwf _ _ Hd) as [Hld Hst]. set (b := l_start s0) in *.
  unfold write_head. wp_step. wp_step.
  destruct (al_fields _ _ _ _ Hat) as (Es & _ & Ed & En & Eb). rewrite Es, Ed, En, Hdev, Hn.
  fold b. rewrite (u32_id b) by lia. wp_step. eapply at_bread; [done|done| |right|].
  { rewrite Hheld, map_img_empty_L. set_solver. }
  { unfold pinned. rewrite Hheld, map_img_empty_L, union_empty_l_L. done. }
  clear s Hat Es Ed En Eb. intros h s Hfree Hat.
  assert (Hh : ba_held (a_hold h b a) !! h = Some b) by (simpl; by rewrite lookup_insert_eq).
  set (d1 := splice 0 (put32 (Z.of_nat (length L))) d).
  wp_step. eapply at_bput; [done|done|exact Hd|]. fold d1. clear s Hat. intros s Hat. rewrite Nat2Z.id.
  wp_step. apply (wp_kfor (fun i s => at_log s0 (a_setdata b (head_fill 0 (take i L) d1) (a_hold h b a)) tr s)).
  - by rewrite take_0.
  - clear s Hat. intros i s Hi Hat.
    destruct (lookup_lt_is_Some_2 L i) as [bi Hbi]; [lia|].
    wp_step. unfold wp at 1, lh_get. destruct (al_fields _ _ _ _ Hat) as (_ & _ & _ & _ & ->).
    rewrite (lh_entry s0 L HL _ _ Hbi). wp_step. unfold in_block.
    rewrite (proj2 (Nat.leb_le _ _)) by (unfold BSIZE; lia). wp_step.
    eapply at_bput; [done|exact Hh|simpl; by rewrite lookup_insert_eq|].
    intros s' Hat'. rewrite setdata_setdata in Hat'.
    rewrite (take_S_r _ _ _ Hbi), head_fill_snoc. rewrite length_take, Nat.min_l by lia. done.
  - clear s Hat. intros s Hat. rewrite Nat.add_0_l, take_ge in Hat by lia.
    change (head_fill 0 L d1) with (headblk L d) in Hat.
    wp_step. eapply at_bwrite; [done|exact Hh|simpl; by rewrite lookup_insert_eq|].
    clear s Hat. intros s Hat. rewrite write_setdata in Hat.
    eapply at_brelse; [done|exact Hh|simpl; set_solver|]. intros s' Hat'. apply HQ.
    replace (a_put b (headblk L d) a) with (a_drop h (a_put b (headblk L d) (a_hold h b a))); [done|].
    unfold a_drop, a_put, a_hold. simpl. by rewrite delete_insert_id.
Qed.

(** ** [commit] *)

Lemma at_set_lh n bl s0 a tr s : at_log s0 a tr s -> at_log (set_lh n bl s0) a tr (set_lh n bl s).
Proof. intros [? ? ? <-]. by split. Qed.

(** The home blocks of the transaction. *)
Definition home_writes (v : gmap Z block) (L : list Z) : list (Z * block) :=
  (fun b => (b, vat v b)) <$> L.
(** The writes before, and from, the one that commits. *)
Definition commit_writes (start : Z) (v : gmap Z block) (L : list Z) (d : block) : list (Z * block) :=
  (log_writes start v L ++ [(start, headblk L d)]) ++
  (home_writes v L ++ [(start, headblk [] (headblk L d))]).

Lemma trans_ok_area start a L ws :
  trans_ok start a L ->
  (forall b d, (b, d) ∈ ws -> length d = BSIZE /\ log_area start (length L) b) ->
  trans_ok start (a_puts ws a) L.
Proof.
  intros OK Hws. assert (Hin : forall b, b ∈ ws.*1 -> log_area start (length L) b).
  { intros b ([b' d] & -> & H)%list_elem_of_fmap. by eapply Hws. }
  assert (Hdom : forall b, is_Some (ba_view a !! b) -> is_Some (ba_view (a_puts ws a) !! b)).
  { clear. revert a. induction ws as [|w ws IH]; intros a b H; [done|]. simpl. apply IH. simpl.
    rewrite lookup_insert. by case_decide. }
  split.
  - apply puts_wf; [apply OK|]. intros b d H. destruct (Hws _ _ H) as [? ?]. split; [done|].
    by apply (to_area _ _ _ OK).
  - rewrite a_puts_held. apply OK.
  - apply a_puts_mod, OK.
  - apply OK.
  - intros b Hb. destruct (to_home _ _ _ OK _ Hb). auto.
  - intros b Hb. apply Hdom. by apply (to_area _ _ _ OK).
  - rewrite a_puts_dirty. destruct (to_room _ _ _ OK) as [[Hsub Hsz]|E]; [left|right; rewrite E; set_solver].
    split.
    + intros b Hb. apply elem_of_difference. split; [set_solver|].
      intros H%elem_of_list_to_set. apply Hin in H. apply elem_of_list_to_set in Hb.
      by apply (to_home _ _ _ OK _ Hb).
    + eapply Nat.le_lt_trans; [|exact Hsz]. apply subseteq_size. set_solver.
Qed.

Lemma log_writes_area start v L b d :
  (b, d) ∈ log_writes start v L -> log_area start (length L) b.
Proof.
  intros H. assert (b ∈ (log_writes start v L).*1) as H' by (apply list_elem_of_fmap; by exists (b, d)).
  apply log_writes_fst in H'. unfold log_area. lia.
Qed.

Section commit.
Context (s0 : log) (a : babs) (L : list Z) (tr : list (Z * block)) (d : block).
Let start := l_start s0.
Hypothesis Hdev : l_dev s0 = ROOTDEV.
Hypothesis Hn : lh_n s0 = Z.of_nat (length L).
Hypothesis HL : take (length L) (lh_block s0) = L.
Hypothesis OK : trans_ok start a L.
Hypothesis Hlen : (length L <= 29)%nat.
Hypothesis Hdirty : ba_dirty a = list_to_set L.
Hypothesis Hd : ba_view a !! start = Some d.

Let W1 := log_writes start (ba_view a) L ++ [(start, headblk L d)].

Lemma W1_area b x : (b, x) ∈ W1 -> length x = BSIZE /\ log_area start (length L) b.
Proof.
  intros [H|[[= -> ->]|[]%not_elem_of_nil]%elem_of_cons]%elem_of_app.
  - split; [by eapply log_writes_ok|by eapply log_writes_area].
  - split; [|unfold log_area; lia]. apply length_headblk; [by eapply (to_wf _ _ _ OK)|lia].
Qed.

Lemma W1_view_home b : b ∈ L -> ba_view (a_puts W1 a) !! b = ba_view a !! b.
Proof.
  intros Hb. apply a_puts_view. intros ([b' x] & -> & H)%list_elem_of_fmap.
  apply W1_area in H as [_ H]. by apply (to_home _ _ _ OK _ Hb).
Qed.

Lemma W1_view_log i b : L !! i = Some b ->
  ba_view (a_puts W1 a) !! (start + Z.of_nat i + 1) = Some (vat (ba_view a) b).
Proof.
  intros Hi. unfold W1. rewrite a_puts_app. cbn [a_puts foldl fst snd]. unfold a_put. cbn [ba_view].
  rewrite lookup_insert_ne by lia. apply a_puts_view_in; [apply log_writes_nodup|].
  apply list_elem_of_lookup. exists i. unfold log_writes. by rewrite list_lookup_imap, Hi.
Qed.

Lemma W1_inst : inst_writes start (ba_view (a_puts W1 a)) L = home_writes (ba_view a) L.
Proof.
  apply list_eq. intros i. unfold inst_writes, home_writes. rewrite list_lookup_imap, list_lookup_fmap.
  destruct (L !! i) as [b|] eqn:E; [|done]. simpl. do 2 f_equal. by apply vat_Some, W1_view_log.
Qed.

Lemma size_dirty ws : (size (ba_dirty (a_puts ws a)) < NBUF)%nat.
Proof.
  rewrite a_puts_dirty, Hdirty. eapply Nat.le_lt_trans; [apply subseteq_size, subseteq_difference_l; reflexivity|].
  rewrite size_list_to_set by apply OK. unfold NBUF. lia.
Qed.

Lemma commit_spec s (Q : unit -> log -> Prop) :
  L <> [] -> at_log s0 a tr s ->
  (forall s', at_log (set_lh 0 (lh_block s0) s0) (a_puts (commit_writes start (ba_view a) L d) a)
                     (tr ++ commit_writes start (ba_view a) L d) s' -> Q tt s') ->
  wp commit s Q.
Proof.
  intros HL0 Hat HQ. unfold commit. wp_step. wp_step.
  destruct (al_fields _ _ _ _ Hat) as (_ & _ & _ & -> & _). rewrite Hn.
  assert (HL1 : length L <> 0%nat) by by intros ?%nil_length_inv.
  rewrite (proj2 (Z.ltb_lt 0 _)) by lia.
  wp_step. eapply (write_log_spec s0 a L tr); [done..|]. clear s Hat. intros s Hat.
  assert (OK1 : trans_ok start (a_puts (log_writes start (ba_view a) L) a) L).
  { apply trans_ok_area; [done|]. intros b x H. apply W1_area. unfold W1. set_solver. }
  wp_step. eapply (write_head_spec s0 _ L); [done|done|done|lia|apply OK1|apply OK1|apply OK1| | |done|].
  { apply size_dirty. }
  { rewrite a_puts_view; [exact Hd|]. rewrite log_writes_fst. fold start. lia. }
  clear s Hat. intros s Hat. fold start in Hat.
  change (a_put start (headblk L d) ?x) with (a_puts [(start, headblk L d)] x) in Hat.
  rewrite <- a_puts_app, <- app_assoc in Hat. fold W1 in Hat.
  assert (OK2 : trans_ok start (a_puts W1 a) L) by by apply trans_ok_area, W1_area.
  wp_step. eapply (install_trans_spec s0 _ L); [done..|]. clear s Hat. intros s Hat.
  fold start in Hat. rewrite W1_inst, <- a_puts_app, <- app_assoc in Hat.
  wp_step. wp_step. destruct (al_fields _ _ _ _ Hat) as (_ & _ & _ & _ & ->).
  apply (at_set_lh 0 (lh_block s0)) in Hat. set (s1 := set_lh 0 (lh_block s0) s0) in *.
  assert (Hh1 : length (headblk L d) = BSIZE).
  { apply length_headblk; [by eapply (to_wf _ _ _ OK)|lia]. }
  eapply (write_head_spec s1 _ []); [done|done|done|simpl; lia| | | | | |done|].
  - rewrite a_puts_app. apply puts_wf; [apply OK2|]. rewrite <- W1_inst.
    eapply inst_writes_ok; done.
  - rewrite a_puts_held. apply OK.
  - apply a_puts_mod, OK.
  - apply size_dirty.
  - simpl. rewrite a_puts_app, a_puts_view.
    + unfold W1. rewrite a_puts_app. simpl. apply lookup_insert_eq.
    + rewrite <- W1_inst, inst_writes_fst. intros H. destruct (to_home _ _ _ OK _ H) as [_ H'].
      apply H'. unfold log_area. fold start. lia.
  - intros s' Hat'. apply HQ. fold W1. unfold commit_writes. fold W1.
    change (l_start s1) with start in Hat'.
    rewrite (app_assoc W1), a_puts_app, (app_assoc tr). exact Hat'.
Qed.
End commit.

(** ** Recovery *)

Lemma length_hdr d : length (hdr d) = hdr_n d.
Proof. unfold hdr. by rewrite length_fmap, length_seq. Qed.

Lemma insert_take_drop {A} (l l' : list A) i x :
  l !! i = Some x -> (i < length l')%nat ->
  <[i := x]> (take i l ++ drop i l') = take (S i) l ++ drop (S i) l'.
Proof.
  intros Hi Hlt. pose proof (lookup_lt_Some _ _ _ Hi).
  destruct (lookup_lt_is_Some_2 l' i) as [y Hy]; [lia|].
  rewrite (drop_S _ _ _ Hy), (take_S_r _ _ _ Hi).
  rewrite <- (Nat.add_0_r i) at 1. replace i with (length (take i l)) at 1 by (rewrite length_take; lia).
  rewrite insert_app_r. simpl. by rewrite <- app_assoc.
Qed.

Lemma read_head_spec s0 a tr s d (Q : unit -> log -> Prop) :
  l_dev s0 = ROOTDEV -> vwf (ba_view a) -> ba_held a = ∅ -> ba_mod a = ∅ ->
  (size (ba_dirty a) < NBUF)%nat -> ba_view a !! l_start s0 = Some d ->
  0 <= geti32 0 d <= 30 -> length (lh_block s0) = 30%nat ->
  at_log s0 a tr s ->
  (forall s', at_log (set_lh (Z.of_nat (hdr_n d)) (hdr d ++ drop (hdr_n d) (lh_block s0)) s0) a tr s' -> Q tt s') ->
  wp read_head s Q.
Proof.
  intros Hdev Hwf Hheld Hmod Hsz Hd Hn Hlb Hat HQ.
  destruct (Hwf _ _ Hd) as [Hld Hst]. set (b := l_start s0) in *.
  unfold read_head. wp_step. wp_step.
  destruct (al_fields _ _ _ _ Hat) as (Es & _ & Ed & En & Eb). rewrite Es, Ed, Hdev.
  fold b. rewrite (u32_id b) by lia. wp_step. eapply at_bread; [done|done| |right|].
  { rewrite Hheld, map_img_empty_L. set_solver. }
  { unfold pinned. rewrite Hheld, map_img_empty_L, union_empty_l_L. done. }
  clear s Hat Es Ed En Eb. intros h s Hfree Hat.
  assert (Hh : ba_held (a_hold h b a) !! h = Some b) by (simpl; by rewrite lookup_insert_eq).
  wp_step. eapply at_data; [done|done|exact Hd|].
  wp_step. wp_step. destruct (al_fields _ _ _ _ Hat) as (_ & _ & _ & _ & ->).
  apply (at_set_lh (geti32 0 d) (lh_block s0)) in Hat.
  wp_step. apply (wp_kfor (fun i s => at_log (set_lh (geti32 0 d) (take i (hdr d) ++ drop i (lh_block s0)) s0)
                                        (a_hold h b a) tr s)).
  - done.
  - clear s Hat. intros i s Hi Hat. unfold in_block. rewrite (proj2 (Nat.leb_le _ _)) by (unfold BSIZE; lia).
    wp_step. wp_step. unfold wp, lh_put. destruct (al_fields _ _ _ _ Hat) as (_ & _ & _ & -> & ->).
    simpl. assert (Hlt : (i < length (hdr d))%nat) by (rewrite length_hdr; unfold hdr_n; lia).
    rewrite (proj2 (Nat.ltb_lt _ _)) by (rewrite length_app, length_take, length_drop; lia).
    rewrite insert_take_drop; [|unfold hdr; rewrite list_lookup_fmap, lookup_seq_lt by (unfold hdr_n; lia); done|lia].
    by apply (at_set_lh (geti32 0 d) (take (S i) (hdr d) ++ drop (S i) (lh_block s0))) in Hat.
  - clear s Hat. intros s Hat. rewrite Nat.add_0_l, take_ge in Hat by (rewrite length_hdr; unfold hdr_n; lia).
    eapply at_brelse; [done|exact Hh|simpl; rewrite Hmod; set_solver|]. intros s' Hat'.
    rewrite hold_drop in Hat' by done. apply HQ. unfold hdr_n in *. by rewrite Z2Nat.id by lia.
Qed.

Definition recover_writes (start : Z) (v : gmap Z block) (d : block) : list (Z * block) :=
  inst_writes start v (hdr d) ++ [(start, headblk [] d)].

Lemma recover_spec s0 a tr s d (Q : unit -> log -> Prop) :
  l_dev s0 = ROOTDEV -> trans_ok (l_start s0) a (hdr d) -> ba_dirty a = ∅ ->
  ba_view a !! l_start s0 = Some d ->
  0 <= geti32 0 d <= 30 -> length (lh_block s0) = 30%nat ->
  at_log s0 a tr s ->
  (forall s' bl, length bl = 30%nat ->
    at_log (set_lh 0 bl s0) (a_puts (recover_writes (l_start s0) (ba_view a) d) a)
                       (tr ++ recover_writes (l_start s0) (ba_view a) d) s' -> Q tt s') ->
  wp recover_from_log s Q.
Proof.
  intros Hdev OK Hdirty Hd Hn Hlb Hat HQ. unfold recover_from_log.
  wp_step. eapply read_head_spec; [done|apply OK|apply OK|apply OK| |done|done|done|done|].
  { rewrite Hdirty, size_empty. unfold NBUF. lia. }
  clear s Hat. intros s Hat. set (bl := hdr d ++ drop (hdr_n d) (lh_block s0)) in *.
  wp_step. eapply (install_trans_spec (set_lh (Z.of_nat (hdr_n d)) bl s0) a (hdr d)); [done| | |done|exact Hat|].
  { by rewrite length_hdr. }
  { simpl. unfold bl. by rewrite take_app_length. }
  clear s Hat. intros s Hat. wp_step. wp_step.
  destruct (al_fields _ _ _ _ Hat) as (_ & _ & _ & _ & ->).
  apply (at_set_lh 0 bl) in Hat. simpl l_start in Hat. unfold set_lh in Hat at 1. simpl in Hat.
  set (s1 := mklog _ _ _ _ _ _ _ _) in Hat. set (ws := inst_writes _ _ _) in Hat.
  eapply (write_head_spec s1 _ []); [done|done|done|simpl; lia| | | | | |exact Hat|].
  - apply puts_wf; [apply OK|]. intros b x H. eapply (inst_writes_ok s0); done.
  - rewrite a_puts_held. apply OK.
  - apply a_puts_mod, OK.
  - rewrite a_puts_dirty, Hdirty. eapply Nat.le_lt_trans; [apply subseteq_size, subseteq_difference_l; reflexivity|].
    rewrite size_empty. unfold NBUF. lia.
  - simpl. rewrite a_puts_view; [exact Hd|]. unfold ws. rewrite inst_writes_fst.
    intros H. destruct (to_home _ _ _ OK _ H) as [_ H']. apply H'. unfold log_area. lia.
  - intros s' Hat'. apply (HQ s' bl).
    + unfold bl. rewrite length_app, length_drop, length_hdr, Hlb. unfold hdr_n. lia.
    + unfold recover_writes. fold ws. rewrite a_puts_app, app_assoc. exact Hat'.
Qed.
