(* ===== verification/LogCrash.v ===== *)
(** * Crash safety of the log

    [recovered start disk b] is the contents recovery gives to block [b]: the
    log's copy if the header on the disk lists [b], the home block otherwise.
    The disk after a crash is the disk with some prefix of the writes applied
    ([apply_writes (take k ws)]).  A prefix of the writes of recovery keeps
    [recovered] unchanged, and a prefix of the writes of [commit] gives either
    the blocks before the transaction or all the blocks of the transaction. *)

From S2P Require Import Prelude Sleeplock Bio BioSpec Log LogSpec.

Definition disk_at (disk : list block) (b : Z) : option block := disk !! Z.to_nat b.

(** The block number of an entry of the log: not the super block, not the log. *)
Definition home (start nlog : Z) (disk : list block) (b : Z) : Prop :=
  0 <= b < Z.of_nat (length disk) /\ b <> 1 /\ ~ (start <= b < start + nlog).

Record disk_base (start nlog : Z) (disk : list block) : Prop := mk_disk_base {
  dk_len : Z.of_nat (length disk) <= 2 ^ 31;
  dk_blk : forall b d, disk_at disk b = Some d -> length d = BSIZE;
  dk_sb : exists d, disk_at disk 1 = Some d /\
    i32 (sb_logstart (dec_sb d)) = start /\ i32 (sb_nlog (dec_sb d)) = nlog;
  dk_area : 2 <= start /\ 2 <= nlog /\ start + nlog <= Z.of_nat (length disk)
}.
(** A header block that lists [L]. *)
Record hdr_ok (start nlog : Z) (disk : list block) (L : list Z) : Prop := mk_hdr_ok {
  ho_hdr : exists d, disk_at disk start = Some d /\ geti32 0 d = Z.of_nat (length L) /\ hdr d = L;
  ho_len : Z.of_nat (length L) <= 30 /\ Z.of_nat (length L) < nlog;
  ho_nodup : NoDup L;
  ho_home : forall b, b ∈ L -> home start nlog disk b
}.
Definition disk_ok (start nlog : Z) (disk : list block) : Prop :=
  disk_base start nlog disk /\ exists L, hdr_ok start nlog disk L.

Definition recovered (start : Z) (disk : list block) (b : Z) : option block :=
  match disk_at disk start with
  | None => None
  | Some d =>
      match list_find (b =.) (hdr d) with
      | Some (i, _) => disk_at disk (start + Z.of_nat i + 1)
      | None => disk_at disk b
      end
  end.

(** ** Disk writes *)

Lemma length_apply_writes ws disk : length (apply_writes ws disk) = length disk.
Proof.
  revert disk. induction ws as [|w ws IH]; intros disk; [done|]. simpl. by rewrite IH, length_insert.
Qed.
Lemma aw_ne ws disk b :
  (forall w, w ∈ ws -> 0 <= w.1) -> 0 <= b -> b ∉ ws.*1 ->
  disk_at (apply_writes ws disk) b = disk_at disk b.
Proof.
  revert disk. induction ws as [|w ws IH]; intros disk Hw Hb Hn; [done|]. simpl.
  rewrite IH by set_solver. unfold disk_at. apply list_lookup_insert_ne.
  intros E. assert (0 <= w.1) by set_solver. assert (w.1 = b) by lia. set_solver.
Qed.
Lemma aw_in ws disk b d :
  (forall w, w ∈ ws -> 0 <= w.1) -> NoDup ws.*1 -> (b, d) ∈ ws ->
  0 <= b < Z.of_nat (length disk) -> disk_at (apply_writes ws disk) b = Some d.
Proof.
  revert disk. induction ws as [|w ws IH]; intros disk Hw Hn Hin Hb; [set_solver|]. simpl in *.
  apply NoDup_cons in Hn as [Hn1 Hn]. apply elem_of_cons in Hin as [<-|Hin].
  - change (disk_at (apply_writes ws (<[Z.to_nat b:=d]> disk)) b = Some d).
    rewrite aw_ne; [|intros w Hw'; apply Hw; set_solver|lia|done]. apply list_lookup_insert_eq. lia.
  - apply IH; [set_solver|done|done|]. by rewrite length_insert.
Qed.
Lemma home_apply start nlog ws disk b :
  home start nlog (apply_writes ws disk) b <-> home start nlog disk b.
Proof. unfold home. by rewrite length_apply_writes. Qed.

Lemma disk_base_apply start nlog ws disk :
  disk_base start nlog disk ->
  (forall b d, (b, d) ∈ ws -> length d = BSIZE /\ 0 <= b /\ b <> 1) ->
  disk_base start nlog (apply_writes ws disk).
Proof.
  intros [H1 H2 H3 H4] Hws. split; rewrite ?length_apply_writes; try done.
  - revert disk H1 H2 H3 H4. induction ws as [|[b d] ws IH]; intros disk H1 H2 H3 H4; [done|].
    simpl. apply IH; rewrite ?length_insert; try done.
    + set_solver.
    + intros b' d'. unfold disk_at. rewrite list_lookup_insert. case_decide; [|apply H2].
      intros [= <-]. by eapply Hws, list_elem_of_here.
    + destruct H3 as (d1 & Hd1 & H3). exists d1. split; [|done]. unfold disk_at in *.
      rewrite list_lookup_insert_ne; [done|]. destruct (Hws b d); [set_solver|]. lia.
  - destruct H3 as (d1 & Hd1 & H3). exists d1. split; [|done]. rewrite aw_ne; [done| |lia|].
    + intros [b d] Hw. by eapply Hws.
    + intros ([b d] & E & Hw)%list_elem_of_fmap. destruct (Hws _ _ Hw) as (_ & _ & ?). simpl in E. lia.
Qed.

Lemma list_find_Some_eq (b : Z) L i : NoDup L -> L !! i = Some b -> list_find (b =.) L = Some (i, b).
Proof.
  intros Hnd Hi. apply list_find_Some. split_and!; [done|done|].
  intros j y Hj Hlt ->. assert (j = i) by by eapply NoDup_lookup. lia.
Qed.
Lemma list_find_None_eq (b : Z) L : b ∉ L -> list_find (b =.) L = None.
Proof. intros H. apply list_find_None. apply Forall_forall. intros x Hx ->. done. Qed.

Section recovered.
Context (start nlog : Z) (disk : list block) (L : list Z).
Hypothesis B : disk_base start nlog disk.
Hypothesis H : hdr_ok start nlog disk L.

Lemma recovered_in i b : L !! i = Some b -> recovered start disk b = disk_at disk (start + Z.of_nat i + 1).
Proof.
  intros Hi. unfold recovered. destruct (ho_hdr _ _ _ _ H) as (d & -> & _ & ->).
  by rewrite (list_find_Some_eq _ _ _ (ho_nodup _ _ _ _ H) Hi).
Qed.
Lemma recovered_out b : b ∉ L -> recovered start disk b = disk_at disk b.
Proof.
  intros Hb. unfold recovered. destruct (ho_hdr _ _ _ _ H) as (d & -> & _ & ->).
  by rewrite list_find_None_eq.
Qed.
Lemma slot_range i b : L !! i = Some b -> start < start + Z.of_nat i + 1 < start + nlog.
Proof. intros Hi%lookup_lt_Some. pose proof (ho_len _ _ _ _ H). lia. Qed.

(** If the header and the log slots are the same and no block outside [L] and
    the log has changed, recovery gives the same contents. *)
Lemma recovered_same disk' b :
  hdr_ok start nlog disk' L ->
  (forall i b, L !! i = Some b -> disk_at disk' (start + Z.of_nat i + 1) = disk_at disk (start + Z.of_nat i + 1)) ->
  (b ∉ L -> disk_at disk' b = disk_at disk b) ->
  recovered start disk' b = recovered start disk b.
Proof.
  intros H' Hs Ho. destruct (decide (b ∈ L)) as [[i Hi]%list_elem_of_lookup|Hb].
  - rewrite (recovered_in _ _ Hi), <- (Hs _ _ Hi). unfold recovered.
    destruct (ho_hdr _ _ _ _ H') as (d & -> & _ & ->).
    by rewrite (list_find_Some_eq _ _ _ (ho_nodup _ _ _ _ H) Hi).
  - rewrite recovered_out, <- Ho by done. unfold recovered.
    destruct (ho_hdr _ _ _ _ H') as (d & -> & _ & ->). by rewrite list_find_None_eq.
Qed.
End recovered.

(** ** Crashes while the log is installed *)

Section install.
Context (start nlog : Z) (disk : list block) (L : list Z) (v : gmap Z block) (d : block).
Hypothesis B : disk_base start nlog disk.
Hypothesis H : hdr_ok start nlog disk L.
Hypothesis Hd : disk_at disk start = Some d.
Hypothesis Hv : forall i b, L !! i = Some b ->
  disk_at disk (start + Z.of_nat i + 1) = Some (vat v (start + Z.of_nat i + 1)).

Let ws := inst_writes start v L ++ [(start, headblk [] d)].

Lemma inst_mem b x : (b, x) ∈ inst_writes start v L ->
  exists i, L !! i = Some b /\ x = vat v (start + Z.of_nat i + 1).
Proof.
  unfold inst_writes. intros [i Hi]%list_elem_of_lookup. rewrite list_lookup_imap in Hi.
  destruct (L !! i) as [y|] eqn:E; simplify_eq/=. eauto.
Qed.
Lemma inst_prefix_fst k b : b ∈ (take k (inst_writes start v L)).*1 -> b ∈ L.
Proof. rewrite fmap_take, inst_writes_fst. apply elem_of_take_sub. Qed.
Lemma area_not_home b : start <= b < start + nlog -> b ∉ L.
Proof. intros Hb Hin. by destruct (ho_home _ _ _ _ H _ Hin) as (_ & _ & ?). Qed.
Lemma inst_pos w : w ∈ inst_writes start v L -> 0 <= w.1.
Proof.
  destruct w as [b x]. intros (i & Hi & _)%inst_mem. apply list_elem_of_lookup_2 in Hi.
  apply (ho_home _ _ _ _ H) in Hi as [? _]. simpl. lia.
Qed.
Lemma inst_base k : disk_base start nlog (apply_writes (take k ws) disk).
Proof.
  apply disk_base_apply; [done|]. intros b x Hin%elem_of_take_sub.
  apply elem_of_app in Hin as [(i & Hi & ->)%inst_mem|[= -> ->]%list_elem_of_singleton].
  - pose proof Hi as Hi'. apply Hv, (dk_blk _ _ _ B) in Hi'. split; [done|].
    apply list_elem_of_lookup_2, (ho_home _ _ _ _ H) in Hi as (? & ? & _). lia.
  - pose proof (dk_area _ _ _ B). split; [|lia].
    apply length_headblk; [by eapply (dk_blk _ _ _ B)|simpl; lia].
Qed.

(** Before the header is cleared. *)
Lemma inst_prefix k : let dk := apply_writes (take k (inst_writes start v L)) disk in
  (forall b, 0 <= b -> b ∉ L -> disk_at dk b = disk_at disk b) /\ hdr_ok start nlog dk L /\
  forall b, home start nlog disk b -> recovered start dk b = recovered start disk b.
Proof.
  intros dk. pose proof (dk_area _ _ _ B) as Ha.
  assert (Hout : forall b, 0 <= b -> b ∉ L -> disk_at dk b = disk_at disk b).
  { intros b Hb Hn. apply aw_ne; [|done|].
    - intros w Hw. eapply inst_pos, elem_of_take_sub, Hw.
    - intros Hin. by apply inst_prefix_fst in Hin. }
  assert (Hdk : hdr_ok start nlog dk L).
  { destruct H as [(x & Hx & ?) ? ? Hho]. split; try done.
    - exists x. rewrite Hout; [done|lia|apply area_not_home; lia].
    - intros b Hb. unfold dk. by apply home_apply, Hho. }
  split; [done|]. split; [done|]. intros b Hb. eapply recovered_same; [done|done| |].
  - intros i b' Hi. pose proof (slot_range _ _ _ _ H _ _ Hi). apply Hout; [lia|]. apply area_not_home. lia.
  - apply Hout. unfold home in Hb. lia.
Qed.

(** After all the writes. *)
Lemma inst_all : let dk := apply_writes ws disk in
  hdr_ok start nlog dk [] /\ forall b, home start nlog disk b -> disk_at dk b = recovered start disk b.
Proof.
  intros dk. pose proof (dk_area _ _ _ B) as Ha. pose proof (inst_prefix (length L)) as (Hout & _ & _).
  rewrite take_ge in Hout by (rewrite length_inst_writes; lia).
  assert (Hhd : disk_at dk start = Some (headblk [] d)).
  { unfold dk, ws. rewrite apply_writes_app. simpl. unfold disk_at. apply list_lookup_insert_eq.
    rewrite length_apply_writes. lia. }
  assert (Hne : forall b, 0 <= b -> b <> start -> disk_at dk b = disk_at (apply_writes (inst_writes start v L) disk) b).
  { intros b Hb Hs. unfold dk, ws. rewrite apply_writes_app. simpl. unfold disk_at.
    apply list_lookup_insert_ne. lia. }
  split.
  - split; [|simpl; lia|apply NoDup_nil_2|by intros b ?%not_elem_of_nil].
    exists (headblk [] d). split; [done|].
    assert (length d = BSIZE) by by eapply (dk_blk _ _ _ B).
    split; [apply hdr_n_headblk; [done|simpl; lia]|apply hdr_headblk; [done|simpl; lia|]].
    by intros b ?%not_elem_of_nil.
  - intros b Hb. unfold home in Hb. rewrite Hne by lia.
    destruct (decide (b ∈ L)) as [[i Hi]%list_elem_of_lookup|Hn].
    + rewrite (recovered_in _ _ _ _ H _ _ Hi), (Hv _ _ Hi). apply aw_in; [apply inst_pos| | |lia].
      * rewrite inst_writes_fst. apply H.
      * apply list_elem_of_lookup. exists i. unfold inst_writes. by rewrite list_lookup_imap, Hi.
    + rewrite (recovered_out _ _ _ _ H _ Hn). apply Hout; [lia|done].
Qed.

(** Any prefix of the writes of recovery leaves a disk that recovers to the
    same contents. *)
Lemma recovery_prefix k : let dk := apply_writes (take k ws) disk in
  disk_ok start nlog dk /\ forall b, home start nlog disk b -> recovered start dk b = recovered start disk b.
Proof.
  intros dk. pose proof (inst_base k) as Hb. fold dk in Hb.
  destruct (decide (k <= length L)%nat) as [Hk|Hk].
  - assert (Hdk : dk = apply_writes (take k (inst_writes start v L)) disk).
    { unfold dk, ws. by rewrite take_app_le by (rewrite length_inst_writes; lia). }
    destruct (inst_prefix k) as (_ & Hh & Hr). rewrite <- Hdk in Hh, Hr. split; [|done]. split; eauto.
  - assert (Hdk : dk = apply_writes ws disk).
    { unfold dk. rewrite take_ge; [done|]. unfold ws. rewrite length_app, length_inst_writes. simpl. lia. }
    destruct inst_all as (Hh & Hr). rewrite <- Hdk in Hh, Hr. split; [split; eauto|].
    intros b Hho. rewrite <- Hr by done. apply (recovered_out _ _ _ _ Hh). apply not_elem_of_nil.
Qed.
End install.

(** ** Crashes while a transaction is committed *)

Section commit_crash.
Context (start nlog : Z) (disk : list block) (L : list Z) (v : gmap Z block) (d : block).
Hypothesis B : disk_base start nlog disk.
Hypothesis H0 : hdr_ok start nlog disk [].
Hypothesis Hd : disk_at disk start = Some d.
Hypothesis HL : Z.of_nat (length L) <= 30 /\ Z.of_nat (length L) < nlog.
Hypothesis Hnd : NoDup L.
Hypothesis Hhome : forall b, b ∈ L -> home start nlog disk b.
Hypothesis Hv : forall b x, v !! b = Some x -> length x = BSIZE.
Hypothesis HvL : forall b, b ∈ L -> is_Some (v !! b).
Hypothesis Hclean : forall b, home start nlog disk b -> b ∉ L -> disk_at disk b = v !! b.

Let W1 := log_writes start v L ++ [(start, headblk L d)].

Lemma log_mem b x : (b, x) ∈ log_writes start v L ->
  exists i y, L !! i = Some y /\ b = start + Z.of_nat i + 1 /\ x = vat v y.
Proof.
  unfold log_writes. intros [i Hi]%list_elem_of_lookup. rewrite list_lookup_imap in Hi.
  destruct (L !! i) as [y|] eqn:E; simplify_eq/=. eauto.
Qed.
Lemma vat_len b : b ∈ L -> length (vat v b) = BSIZE.
Proof. intros Hb. apply HvL in Hb. by eapply Hv, vat_is_Some. Qed.
Lemma d_len : length d = BSIZE.
Proof. by eapply (dk_blk _ _ _ B). Qed.

Lemma W1_mem b x : (b, x) ∈ W1 -> length x = BSIZE /\ start <= b < start + nlog.
Proof.
  pose proof d_len. intros [(i & y & Hi & -> & ->)%log_mem|[= -> ->]%list_elem_of_singleton]%elem_of_app.
  - split; [by eapply vat_len, list_elem_of_lookup_2|]. apply lookup_lt_Some in Hi. lia.
  - split; [|lia]. apply length_headblk; [done|lia].
Qed.
Lemma W1_base k : disk_base start nlog (apply_writes (take k W1) disk).
Proof.
  apply disk_base_apply; [done|]. intros b x [Hx Hb]%elem_of_take_sub%W1_mem.
  pose proof (dk_area _ _ _ B). split; [done|lia].
Qed.
Lemma W1_home k b : home start nlog disk b -> disk_at (apply_writes (take k W1) disk) b = disk_at disk b.
Proof.
  intros (Hb & _ & Hn). pose proof (dk_area _ _ _ B). apply aw_ne; [|lia|].
  - intros [b' x] [_ ?]%elem_of_take_sub%W1_mem. simpl. lia.
  - intros ([b' x] & -> & [_ ?]%elem_of_take_sub%W1_mem)%list_elem_of_fmap. done.
Qed.

(** Up to the write of the header the old contents are recovered. *)
Lemma before_commit k : (k <= length L)%nat -> let dk := apply_writes (take k W1) disk in
  disk_ok start nlog dk /\ forall b, home start nlog disk b -> recovered start dk b = disk_at disk b.
Proof.
  intros Hk dk. pose proof (dk_area _ _ _ B).
  assert (Hst : disk_at dk start = disk_at disk start).
  { unfold dk, W1. rewrite take_app_le by (rewrite length_log_writes; lia). apply aw_ne; [|lia|].
    - intros [b x] Hw. apply elem_of_take_sub in Hw. assert ((b, x) ∈ W1) as Hw' by (unfold W1; set_solver).
      apply W1_mem in Hw'. simpl. lia.
    - rewrite fmap_take. intros Hin%elem_of_take_sub%log_writes_fst. lia. }
  assert (Hh : hdr_ok start nlog dk []).
  { destruct H0 as [(x & Hx & ?) ? ? ?]. split; try done.
    - exists x. by rewrite Hst.
    - by intros b ?%not_elem_of_nil. }
  split; [split; [apply W1_base|by eauto]|]. intros b Hb.
  rewrite (recovered_out _ _ _ _ Hh) by apply not_elem_of_nil. by apply W1_home.
Qed.

(** The write of the header makes all the blocks of the transaction
    recoverable. *)
Lemma at_commit : let dk := apply_writes W1 disk in
  disk_base start nlog dk /\ hdr_ok start nlog dk L /\ disk_at dk start = Some (headblk L d) /\
  (forall i b, L !! i = Some b -> disk_at dk (start + Z.of_nat i + 1) = Some (vat v b)) /\
  forall b, home start nlog disk b -> recovered start dk b = v !! b.
Proof.
  intros dk. pose proof (dk_area _ _ _ B) as Ha. pose proof d_len as Hdl.
  assert (Hall : take (length W1) W1 = W1) by by apply take_ge.
  assert (Hst : disk_at dk start = Some (headblk L d)).
  { unfold dk, W1. rewrite apply_writes_app. simpl. unfold disk_at. apply list_lookup_insert_eq.
    rewrite length_apply_writes. lia. }
  assert (Hh : hdr_ok start nlog dk L).
  { split; [|done|done|].
    - exists (headblk L d). split; [done|]. split; [apply hdr_n_headblk; [done|lia]|].
      apply hdr_headblk; [done|lia|]. intros b Hb. apply Hhome in Hb as (? & _).
      pose proof (dk_len _ _ _ B). lia.
    - intros b Hb. unfold dk. by apply home_apply, Hhome. }
  assert (Hslot : forall i b, L !! i = Some b -> disk_at dk (start + Z.of_nat i + 1) = Some (vat v b)).
  { intros i b Hi. pose proof (lookup_lt_Some _ _ _ Hi). unfold dk, W1. rewrite apply_writes_app. simpl. unfold disk_at at 1.
    rewrite list_lookup_insert_ne by lia. apply aw_in; [|apply log_writes_nodup| |lia].
    - intros [b' x] Hw. assert ((b', x) ∈ W1) as Hw' by (unfold W1; set_solver).
      apply W1_mem in Hw'. simpl. lia.
    - apply list_elem_of_lookup. exists i. unfold log_writes. by rewrite list_lookup_imap, Hi. }
  split; [unfold dk; rewrite <- Hall; apply W1_base|]. split; [done|]. split; [done|]. split; [done|].
  intros b Hb. destruct (decide (b ∈ L)) as [[i Hi]%list_elem_of_lookup|Hn].
  - rewrite (recovered_in _ _ _ _ Hh _ _ Hi), (Hslot _ _ Hi). symmetry.
    by apply vat_is_Some, HvL, (list_elem_of_lookup_2 _ i).
  - rewrite (recovered_out _ _ _ _ Hh _ Hn), <- Hclean by done.
    unfold dk. rewrite <- Hall. by apply W1_home.
Qed.

(** The rest of the writes of [commit] are those of recovery from there. *)
Lemma commit_split : exists v',
  commit_writes start v L d = W1 ++ (inst_writes start v' L ++ [(start, headblk [] (headblk L d))]) /\
  forall i b, L !! i = Some b ->
    disk_at (apply_writes W1 disk) (start + Z.of_nat i + 1) = Some (vat v' (start + Z.of_nat i + 1)).
Proof.
  destruct at_commit as (_ & _ & _ & Hslot & _).
  set (v' := list_to_map (imap (fun i b => (start + Z.of_nat i + 1, vat v b)) L) : gmap Z block).
  assert (Hv' : forall i b, L !! i = Some b -> vat v' (start + Z.of_nat i + 1) = vat v b).
  { intros i b Hi. apply vat_Some, elem_of_list_to_map.
    - apply (log_writes_nodup start v L).
    - apply list_elem_of_lookup. exists i. by rewrite list_lookup_imap, Hi. }
  exists v'. split.
  - unfold commit_writes. fold W1. do 2 f_equal.
    apply list_eq. intros i. unfold inst_writes, home_writes. rewrite list_lookup_imap, list_lookup_fmap.
    destruct (L !! i) as [b|] eqn:E; [|done]. simpl. do 2 f_equal. symmetry. by apply Hv'.
  - intros i b E. by rewrite (Hslot _ _ E), (Hv' _ _ E).
Qed.

Lemma length_W1 : length W1 = (length L + 1)%nat.
Proof. unfold W1. by rewrite length_app, length_log_writes. Qed.

Lemma after_commit k : (length L < k)%nat ->
  let dk := apply_writes (take k (commit_writes start v L d)) disk in
  disk_ok start nlog dk /\ forall b, home start nlog disk b -> recovered start dk b = v !! b.
Proof.
  intros Hk dk. destruct at_commit as (Hb & Hh & Hst & _ & Hrec).
  destruct commit_split as (v' & Hcw & Hs). unfold dk. rewrite Hcw, take_app, apply_writes_app.
  rewrite (take_ge W1) by (rewrite length_W1; lia).
  destruct (recovery_prefix start nlog _ L v' (headblk L d) Hb Hh Hst Hs (k - length W1)) as [Hok Hr].
  split; [done|]. intros b Hho. rewrite Hr; [by apply Hrec|]. by apply home_apply.
Qed.

Lemma before_commit' k : (k <= length L)%nat ->
  let dk := apply_writes (take k (commit_writes start v L d)) disk in
  disk_ok start nlog dk /\ forall b, home start nlog disk b -> recovered start dk b = disk_at disk b.
Proof.
  intros Hk. destruct commit_split as (v' & -> & _). rewrite take_app_le by (rewrite length_W1; lia).
  by apply before_commit.
Qed.

Lemma commit_final : let dk := apply_writes (commit_writes start v L d) disk in
  disk_base start nlog dk /\ hdr_ok start nlog dk [] /\ forall b, home start nlog disk b -> disk_at dk b = v !! b.
Proof.
  destruct at_commit as (Hb & Hh & Hst & _ & Hrec).
  destruct commit_split as (v' & -> & Hs). rewrite apply_writes_app.
  destruct (inst_all start nlog _ L v' (headblk L d) Hb Hh Hst Hs) as [H1 H2].
  split; [|split; [done|]].
  - pose proof (inst_base start nlog _ L v' (headblk L d) Hb Hh Hst Hs (length L + 1)) as H3.
    rewrite take_ge in H3; [done|]. rewrite length_app, length_inst_writes. simpl. lia.
  - intros b Hho. cbv zeta. rewrite H2; [by apply Hrec|]. by apply home_apply.
Qed.
End commit_crash.

(** ** Booting *)

(** The log in the kernel's zeroed data over a disk, and what boot does with
    it: [binit] in [main], [initlog] in the first [forkret]. *)
Definition boot_log (disk : list block) (pid : Z) : log :=
  mklog (boot_bio disk pid) 0 0 0 0 0 0 (replicate (Z.to_nat LOGSIZE) 0).
Definition boot : KM log unit := io binit;; initlog ROOTDEV.

Lemma view0_lookup disk b :
  (map_seqZ 0 disk : gmap Z block) !! b = if decide (0 <= b) then disk_at disk b else None.
Proof.
  rewrite lookup_map_seqZ, Z.sub_0_r. unfold disk_at.
  case_decide; [by rewrite option_guard_True|by rewrite option_guard_False].
Qed.
Lemma view0_at disk b : 0 <= b -> (map_seqZ 0 disk : gmap Z block) !! b = disk_at disk b.
Proof. intros Hb. by rewrite view0_lookup, decide_True. Qed.
Lemma disk_at_lt disk b : 0 <= b < Z.of_nat (length disk) -> is_Some (disk_at disk b).
Proof. intros Hb. apply lookup_lt_is_Some_2. lia. Qed.

Section boot.
Context (start nlog : Z) (disk : list block) (L : list Z) (d : block).
Hypothesis B : disk_base start nlog disk.
Hypothesis H : hdr_ok start nlog disk L.
Hypothesis Hd : disk_at disk start = Some d.

Lemma hdr_d : hdr d = L /\ geti32 0 d = Z.of_nat (length L).
Proof. destruct (ho_hdr _ _ _ _ H) as (d' & Hd' & ? & ?). by simplify_eq. Qed.

Lemma vwf0 : vwf (map_seqZ 0 disk).
Proof.
  intros b x Hb. rewrite view0_lookup in Hb. case_decide; [|done].
  split; [by eapply (dk_blk _ _ _ B)|]. apply lookup_lt_Some in Hb. pose proof (dk_len _ _ _ B). lia.
Qed.

Lemma trans_ok0 : trans_ok start (babs0 disk) (hdr d).
Proof.
  destruct hdr_d as [-> _]. pose proof (dk_area _ _ _ B). pose proof (ho_len _ _ _ _ H).
  split; simpl; try done.
  - apply vwf0.
  - apply H.
  - intros b Hb. apply (ho_home _ _ _ _ H) in Hb as (Hb & _ & Hn). split.
    + rewrite view0_at by lia. by apply disk_at_lt.
    + unfold log_area. lia.
  - intros b Hb. unfold log_area in Hb. rewrite view0_at by lia. apply disk_at_lt. lia.
  - by right.
Qed.

Lemma readsb_at s0 tr s (Q : superblock -> log -> Prop) :
  at_log s0 (babs0 disk) tr s ->
  (forall sb s', at_log s0 (babs0 disk) tr s' -> i32 (sb_logstart sb) = start -> i32 (sb_nlog sb) = nlog -> Q sb s') ->
  wp (io (readsb ROOTDEV)) s Q.
Proof.
  intros Hat HQ. destruct (dk_sb _ _ _ B) as (d1 & Hd1 & Hst & Hnl).
  assert (Hv : ba_view (babs0 disk) !! 1 = Some d1) by (simpl; by rewrite view0_at by lia).
  assert (wp (bp ← io (bread ROOTDEV 1); x ← io (bp_data bp); io (brelse bp);; mret (dec_sb x)) s Q) as Hw.
  { wp_step. eapply at_bread; [done|done|simpl; rewrite map_img_empty_L; set_solver|right|].
    { unfold pinned. simpl. rewrite map_img_empty_L, union_empty_l_L, size_empty. unfold NBUF. lia. }
    clear s Hat. intros h s Hfree Hat.
    assert (Hh : ba_held (a_hold h 1 (babs0 disk)) !! h = Some 1) by (simpl; by rewrite lookup_insert_eq).
    wp_step. eapply at_data; [done|done|exact Hv|].
    wp_step. eapply at_brelse; [done|done|simpl; set_solver|]. intros s' Hat'.
    rewrite hold_drop in Hat' by done. wp_step. by eapply HQ. }
  clear -Hw. revert Hw. unfold wp, io, zoom, readsb, mbind, km_bind, mret, km_ret.
  destruct (bread ROOTDEV 1 (l_bio s)) as [bp b1| | |]; [|done..]. simpl.
  destruct (bp_data bp b1) as [x b2| | |]; [|done..]. simpl.
  destruct (brelse bp b2) as [[] b3| | |]; [|done..]. by destruct s.
Qed.

(** [initlog], from any state of the cache that has only read. *)
Lemma initlog_spec pid s (Q : unit -> log -> Prop) : at_log (boot_log disk pid) (babs0 disk) [] s ->
  (forall s bl, length bl = 30%nat ->
    at_log (mklog (boot_bio disk pid) start nlog 0 0 ROOTDEV 0 bl)
           (a_puts (recover_writes start (map_seqZ 0 disk) d) (babs0 disk))
           (recover_writes start (map_seqZ 0 disk) d) s -> Q tt s) ->
  wp (initlog ROOTDEV) s Q.
Proof.
  intros Hat HQ. unfold initlog. change (Z.of_nat BSIZE <=? sizeof_logheader) with false. cbv iota.
  wp_step. eapply readsb_at; [done|]. clear s Hat. intros sb s Hat -> ->.
  wp_step. wp_step.
  assert (Hat' : at_log (set_area start nlog ROOTDEV (boot_log disk pid)) (babs0 disk) []
                        (set_area start nlog ROOTDEV s)) by (destruct Hat as [? ? ? <-]; by split).
  destruct hdr_d as [HL Hn]. pose proof (ho_len _ _ _ _ H). pose proof (dk_area _ _ _ B).
  eapply (recover_spec (set_area start nlog ROOTDEV (boot_log disk pid))); [done|apply trans_ok0|done| |lia|done|exact Hat'|].
  { simpl. by rewrite view0_at by lia. }
  intros s' bl Hbl Hat''. by eapply HQ.
Qed.
End boot.

(** ** The log between system calls *)

(** [s] represents the cache state [a] with the blocks of [L] in the current
    transaction; the header on the disk is empty. *)
Record log_ready (s : log) (a : babs) (L : list Z) : Prop := mk_log_ready {
  lr_bio : bio_repr (l_bio s) a;
  lr_dev : l_dev s = ROOTDEV;
  lr_n : lh_n s = Z.of_nat (length L);
  lr_take : take (length L) (lh_block s) = L;
  lr_bl : length (lh_block s) = 30%nat;
  lr_dirty : ba_dirty a = list_to_set L;
  lr_base : disk_base (l_start s) (l_size s) (d_disk (l_bio s));
  lr_hdr : hdr_ok (l_start s) (l_size s) (d_disk (l_bio s)) [];
  lr_size : l_size s <= 30;
  lr_len : Z.of_nat (length L) <= l_size s - 1;
  lr_nodup : NoDup L;
  lr_home : forall b, b ∈ L -> home (l_start s) (l_size s) (d_disk (l_bio s)) b;
  lr_wf : forall b d, ba_view a !! b = Some d -> length d = BSIZE
}.

Section ready.
Context (s : log) (a : babs) (L : list Z).
Hypothesis R : log_ready s a L.

Lemma ready_dom b : is_Some (ba_view a !! b) <-> 0 <= b < Z.of_nat (length (d_disk (l_bio s))).
Proof. apply (co_dom _ _ _ (br_cache _ _ (lr_bio _ _ _ R))). Qed.
Lemma ready_vwf : vwf (ba_view a).
Proof.
  intros b d Hb. split; [by eapply (lr_wf _ _ _ R)|].
  assert (is_Some (ba_view a !! b)) as Hs%ready_dom by eauto.
  pose proof (dk_len _ _ _ (lr_base _ _ _ R)). lia.
Qed.
Lemma ready_clean b : ba_held a = ∅ -> 0 <= b < Z.of_nat (length (d_disk (l_bio s))) -> b ∉ L ->
  disk_at (d_disk (l_bio s)) b = ba_view a !! b.
Proof.
  intros Hh Hb Hn. assert (is_Some (ba_view a !! b)) as [x Hx] by by apply ready_dom.
  pose proof (br_cache _ _ (lr_bio _ _ _ R)) as Hc. rewrite Hx. apply (co_clean _ _ _ Hc); [done| |].
  - rewrite (lr_dirty _ _ _ R). by rewrite elem_of_list_to_set.
  - intros Hm. apply (co_mod _ _ _ Hc) in Hm as [i Hi]. by rewrite Hh in Hi.
Qed.
Lemma ready_trans : ba_held a = ∅ -> trans_ok (l_start s) a L.
Proof.
  intros Hh. pose proof (br_cache _ _ (lr_bio _ _ _ R)) as Hc. pose proof (dk_area _ _ _ (lr_base _ _ _ R)).
  pose proof (lr_len _ _ _ R). pose proof (lr_size _ _ _ R).
  split; [apply ready_vwf|done| |apply R| | |].
  - apply set_eq. intros b. split; [|set_solver]. intros [i Hi]%(co_mod _ _ _ Hc). by rewrite Hh in Hi.
  - intros b Hb. apply (lr_home _ _ _ R) in Hb as (Hb & _ & Hn). split; [by apply ready_dom|].
    unfold log_area. lia.
  - intros b Hb. unfold log_area in Hb. apply ready_dom. lia.
  - left. rewrite (lr_dirty _ _ _ R). split; [done|].
    rewrite size_list_to_set by apply R. unfold NBUF. lia.
Qed.
End ready.

Lemma bio_disk b a : bio_repr b a -> d_disk b = ba_disk a.
Proof. intros [_ _ Hc]. by rewrite (co_disk _ _ _ Hc). Qed.

(** ** [log_write] *)

Lemma absorb_in bl b n : forall i,
  (forall x, x ∈ take n (drop i bl) -> 0 <= x < 2 ^ 31) -> (i + n <= length bl)%nat ->
  b ∈ take n (drop i bl) -> exists j, (i <= j < i + n)%nat /\ absorb bl b i n = Some j /\ bl !! j = Some b.
Proof.
  induction n as [|n IH]; intros i Hr Hl Hb; [by apply not_elem_of_nil in Hb|]. cbn [absorb].
  destruct (lookup_lt_is_Some_2 bl i) as [x Hx]; [lia|]. rewrite Hx.
  rewrite (drop_S _ _ _ Hx) in Hb, Hr. cbn [take] in Hb, Hr.
  rewrite u32_id by (assert (0 <= x < 2 ^ 31) by set_solver; lia).
  destruct (x =? b) eqn:E.
  - apply Z.eqb_eq in E as ->. exists i. split; [lia|done].
  - apply Z.eqb_neq in E. destruct (IH (S i)) as (j & Hj & ? & ?); [set_solver|lia|set_solver|].
    exists j. split; [lia|done].
Qed.
Lemma absorb_out bl b n : forall i,
  (forall x, x ∈ take n (drop i bl) -> 0 <= x < 2 ^ 31) -> (i + n <= length bl)%nat ->
  b ∉ take n (drop i bl) -> absorb bl b i n = Some (i + n)%nat.
Proof.
  induction n as [|n IH]; intros i Hr Hl Hb; cbn [absorb]; [by rewrite Nat.add_0_r|].
  destruct (lookup_lt_is_Some_2 bl i) as [x Hx]; [lia|]. rewrite Hx.
  rewrite (drop_S _ _ _ Hx) in Hb, Hr. cbn [take] in Hb, Hr.
  rewrite u32_id by (assert (0 <= x < 2 ^ 31) by set_solver; lia).
  rewrite (proj2 (Z.eqb_neq x b)) by set_solver.
  rewrite IH; [f_equal; lia|set_solver|lia|set_solver].
Qed.

(** The transaction after [log_write] of block [b]. *)
Definition logged (b : Z) (L : list Z) : list Z := if decide (b ∈ L) then L else L ++ [b].

Lemma log_write_spec s a L h b :
  log_ready s a L -> ba_held a !! h = Some b -> home (l_start s) (l_size s) (d_disk (l_bio s)) b ->
  Z.of_nat (length L) < l_size s - 1 -> 1 <= l_outstanding s ->
  wp (log_write h) s (fun _ s' => log_ready s' (a_mark b a) (logged b L) /\
    d_disk (l_bio s') = d_disk (l_bio s) /\ d_trace (l_bio s') = d_trace (l_bio s) /\
    cur_pid (l_bio s') = cur_pid (l_bio s) /\ l_start s' = l_start s /\ l_size s' = l_size s /\
    l_outstanding s' = l_outstanding s /\ l_committing s' = l_committing s).
Proof.
  intros R Hh Hb Hlen Hout. pose proof R as [R1 R2 R3 R4 R5 R6 R7 R8 R9 R10 R11 R12 R13].
  destruct (repr_held _ _ _ _ R1 Hh) as (bb & Hi & Hbb & _ & _ & _ & Hbn & _ & _).
  pose proof (dk_len _ _ _ R7). destruct Hb as (Hb1 & Hb2).
  unfold log_write. wp_step. wp_step. rewrite R3. unfold LOGSIZE, MAXOPBLOCKS.
  rewrite (proj2 (Z.leb_gt (10 * 3) _)), (proj2 (Z.leb_gt (l_size s - 1) _)) by lia. cbn [orb].
  rewrite (proj2 (Z.ltb_ge _ 1)) by lia.
  wp_step. apply wp_io. eapply wp_get_buf; [exact Hbb|]. cbv beta. rewrite Hbn, Nat2Z.id.
  assert (Hrng : forall x, x ∈ take (length L) (drop 0 (lh_block s)) -> 0 <= x < 2 ^ 31).
  { intros x. rewrite drop_0, R4. intros Hx%R12. unfold home in Hx. lia. }
  rewrite (i32_id b) by lia. set (S1 := set_bio (l_bio s) s).
  assert (S1 = s) as -> by by destruct s.
  set (P := fun (_ : unit) s' => _).
  assert (Hfin : forall n bl s1, s1 = set_lh n bl s -> n = Z.of_nat (length (logged b L)) ->
    take (length (logged b L)) bl = logged b L -> length bl = 30%nat -> wp (io (bmark h)) s1 P).
  { intros n bl s1 -> Hn Ht Hl. apply wp_io. eapply wp_mono; [by eapply bmark_spec|].
    intros [] b' (Hr' & Hdk & Htr & Hpid). split; [|done]. unfold logged in *.
    split; simpl; rewrite ?Hdk; try done.
    - rewrite R6. case_decide; [set_solver|]. rewrite list_to_set_app_L. set_solver.
    - case_decide; [lia|]. rewrite length_app. simpl. lia.
    - case_decide; [done|]. apply NoDup_app. split; [done|]. split; [set_solver|apply NoDup_singleton].
    - intros x Hx. case_decide; [by apply R12|]. apply elem_of_app in Hx as [Hx|Hx]; [by apply R12|].
      apply list_elem_of_singleton in Hx as ->. by split. }
  unfold logged in Hfin. destruct (decide (b ∈ L)) as [Hin|Hout'].
  - destruct (absorb_in (lh_block s) b (length L) 0) as (j & Hj & -> & Hbj); [done|lia|by rewrite drop_0, R4|].
    wp_step. unfold wp, lh_put. rewrite (proj2 (Nat.ltb_lt _ _)) by lia. rewrite list_insert_id by done.
    rewrite R3, (proj2 (Z.eqb_neq _ _)) by lia.
    eapply (Hfin (lh_n s) (lh_block s)); [by rewrite <- R3|done|done|done].
  - rewrite absorb_out; [|done|lia|by rewrite drop_0, R4]. rewrite Nat.add_0_l.
    wp_step. unfold wp at 1, lh_put. rewrite (proj2 (Nat.ltb_lt _ _)) by lia.
    rewrite R3, Z.eqb_refl. wp_step. wp_step.
    eapply (Hfin _ (<[length L := b]> (lh_block s))); [done| | |by rewrite length_insert].
    + rewrite length_app. simpl. lia.
    + rewrite length_app. simpl. rewrite Nat.add_1_r.
      rewrite (take_S_r _ _ b) by (apply list_lookup_insert_eq; lia).
      by rewrite take_insert_ge, R4 by lia.
Qed.

(** ** Crash and recovery *)

(** [reboots disk disk']: the machine boots from [disk], crashing any number
    of times during recovery, until a boot completes and leaves [disk']. *)
Inductive reboots (disk : list block) : list block -> Prop :=
| reboot_done pid s :
    boot (boot_log disk pid) = Done tt s -> reboots disk (d_disk (l_bio s))
| reboot_crash pid s k disk' :
    boot (boot_log disk pid) = Done tt s ->
    reboots (apply_writes (take k (d_trace (l_bio s))) disk) disk' -> reboots disk disk'.

(** Everything one boot does. *)
Record boot_result (start nlog : Z) (disk : list block) (s : log) : Prop := mk_boot_result {
  bt_ready : exists a, log_ready s a [] /\ ba_held a = ∅ /\
    forall b, home start nlog disk b -> ba_view a !! b = recovered start disk b;
  bt_fields : l_start s = start /\ l_size s = nlog /\ l_outstanding s = 0 /\ l_committing s = 0;
  bt_disk : forall b, home start nlog disk b -> disk_at (d_disk (l_bio s)) b = recovered start disk b;
  bt_length : length (d_disk (l_bio s)) = length disk;
  bt_sb : disk_at (d_disk (l_bio s)) 1 = disk_at disk 1;
  bt_crash : forall k, let dk := apply_writes (take k (d_trace (l_bio s))) disk in
    disk_ok start nlog dk /\ forall b, home start nlog disk b -> recovered start dk b = recovered start disk b
}.

Lemma initlog_runs start nlog disk pid s : disk_ok start nlog disk -> nlog <= 30 -> at_log (boot_log disk pid) (babs0 disk) [] s ->
  wp (initlog ROOTDEV) s (fun _ s => boot_result start nlog disk s).
Proof.
  intros [B (L & H)] Hnl Hat0. destruct (ho_hdr _ _ _ _ H) as (d & Hd & Hn & Hhd).
  pose proof (dk_area _ _ _ B) as Ha.
  apply (initlog_spec start nlog disk L d B H Hd pid s _ Hat0). clear s Hat0. intros s bl Hbl Hat.
  set (W := recover_writes start (map_seqZ 0 disk) d) in *.
  assert (Hv : forall i b, L !! i = Some b ->
    disk_at disk (start + Z.of_nat i + 1) = Some (vat (map_seqZ 0 disk) (start + Z.of_nat i + 1))).
  { intros i b Hi. pose proof (slot_range _ _ _ _ H _ _ Hi). rewrite <- view0_at by lia.
    apply vat_is_Some. rewrite view0_at by lia. apply disk_at_lt. lia. }
  assert (HW : W = inst_writes start (map_seqZ 0 disk) L ++ [(start, headblk [] d)]).
  { unfold W, recover_writes. by rewrite Hhd. }
  pose proof (recovery_prefix _ _ _ _ _ _ B H Hd Hv) as Hpre. rewrite <- HW in Hpre.
  destruct (inst_all _ _ _ _ _ _ B H Hd Hv) as [Hh Hall]. rewrite <- HW in Hh, Hall.
  destruct (al_fields _ _ _ _ Hat) as (E1 & E2 & E3 & E4 & E5).
  pose proof (al_rest _ _ _ _ Hat) as E6. pose proof (al_bio _ _ _ _ Hat) as Hr.
  assert (Hdk : d_disk (l_bio s) = apply_writes W disk).
  { rewrite (bio_disk _ _ Hr), a_puts_disk. done. }
  assert (R : log_ready s (a_puts W (babs0 disk)) []).
  { split; rewrite ?Hdk, ?E1, ?E2, ?E3, ?E4, ?E5; simpl; try done.
    - rewrite a_puts_dirty. apply set_eq. clear. set_solver.
    - replace W with (take (length W) W) by by apply take_ge. rewrite HW. by apply (inst_base _ _ _ L).
    - lia.
    - apply NoDup_nil_2.
    - by intros b ?%not_elem_of_nil.
    - intros b x Hx. eapply (puts_wf W (babs0 disk) (vwf0 start nlog disk B)); [|exact Hx].
      intros b' x' Hin. rewrite HW in Hin.
      apply elem_of_app in Hin as [(i & Hi & ->)%inst_mem|[= -> ->]%list_elem_of_singleton].
      + split; [by eapply (dk_blk _ _ _ B), Hv|]. apply list_elem_of_lookup_2, (ho_home _ _ _ _ H) in Hi as (? & _).
        simpl. rewrite view0_at by lia. by apply disk_at_lt.
      + split; [apply length_headblk; [by eapply (dk_blk _ _ _ B)|simpl; lia]|].
        simpl. rewrite view0_at by lia. apply disk_at_lt. lia. }
  split.
  - exists (a_puts W (babs0 disk)). split; [done|]. assert (Hheld : ba_held (a_puts W (babs0 disk)) = ∅) by by rewrite a_puts_held.
    split; [done|]. intros b Hb. rewrite <- Hall, <- Hdk by done. symmetry.
    apply (ready_clean _ _ _ R); [done| |apply not_elem_of_nil].
    rewrite Hdk, length_apply_writes. by destruct Hb.
  - rewrite E1, E2. repeat split; [exact (f_equal l_outstanding E6)|exact (f_equal l_committing E6)].
  - intros b Hb. rewrite Hdk. by apply Hall.
  - by rewrite Hdk, length_apply_writes.
  - rewrite Hdk. assert (Hw1 : forall b x, (b, x) ∈ W -> 0 <= b /\ b <> 1).
    { intros b x Hin. rewrite HW in Hin.
      apply elem_of_app in Hin as [(i & Hi & ->)%inst_mem|[= -> ->]%list_elem_of_singleton]; [|lia].
      apply list_elem_of_lookup_2, (ho_home _ _ _ _ H) in Hi as (? & ? & _). lia. }
    apply aw_ne; [|lia|].
    + intros [b x] Hin. by apply Hw1 in Hin as [? _].
    + intros ([b x] & Eb & Hin)%list_elem_of_fmap. apply Hw1 in Hin as [_ Hne]. by rewrite Eb in Hne.
  - rewrite (al_tr _ _ _ _ Hat). exact Hpre.
Qed.
Lemma binit_at disk pid (Q : unit -> log -> Prop) : (forall s, at_log (boot_log disk pid) (babs0 disk) [] s -> Q tt s) -> wp (io binit) (boot_log disk pid) Q.
Proof. intros HQ. apply wp_io. eapply wp_mono; [apply binit_spec|]. intros [] b (Hr & Hdk & Ht & Hp). apply HQ. by split. Qed.
Lemma boot_runs start nlog disk pid :
  disk_ok start nlog disk -> nlog <= 30 ->
  wp boot (boot_log disk pid) (fun _ s => boot_result start nlog disk s).
Proof. intros Hok Hnl. unfold boot. wp_step. apply binit_at. intros s Hat. by apply (initlog_runs start nlog disk pid). Qed.
#[local] Opaque boot.

Lemma reboots_recovered start nlog disk disk' :
  disk_ok start nlog disk -> nlog <= 30 -> reboots disk disk' ->
  forall b, home start nlog disk b -> disk_at disk' b = recovered start disk b.
Proof.
  intros Hok Hnl Hrb. revert Hok. induction Hrb as [disk pid s Hs|disk pid s k disk' Hs Hrb IH]; intros Hok b Hb.
  - pose proof (wp_elim boot _ _ _ _ (boot_runs _ _ _ pid Hok Hnl) Hs) as Hw.
    by apply (bt_disk _ _ _ _ Hw).
  - pose proof (wp_elim boot _ _ _ _ (boot_runs _ _ _ pid Hok Hnl) Hs) as Hw.
    destruct (bt_crash _ _ _ _ Hw k) as [Hok' Hrec]. rewrite <- (Hrec _ Hb). apply IH; [done|].
    by apply home_apply.
Qed.

Lemma reboots_exists start nlog disk :
  disk_ok start nlog disk -> nlog <= 30 -> exists disk', reboots disk disk'.
Proof.
  intros Hok Hnl. destruct (wp_inv _ _ _ (boot_runs _ _ _ 1 Hok Hnl)) as ([] & s & Hs & _).
  exists (d_disk (l_bio s)). by eapply reboot_done.
Qed.

(** ** [end_op] *)

Section end_op.
Context (s : log) (a : babs) (L : list Z).
Hypothesis R : log_ready s a L.
Hypothesis Hheld : ba_held a = ∅.

Let start := l_start s.
Let disk := d_disk (l_bio s).

Lemma ready_header : exists d, disk_at disk start = Some d /\ ba_view a !! start = Some d.
Proof.
  pose proof (dk_area _ _ _ (lr_base _ _ _ R)). destruct (ho_hdr _ _ _ _ (lr_hdr _ _ _ R)) as (d & Hd & _).
  exists d. split; [done|]. rewrite <- (ready_clean _ _ _ R _ Hheld); [done|unfold start; lia|].
  intros (_ & _ & Hn)%(lr_home _ _ _ R). unfold start in Hn. lia.
Qed.

(** The premises of the crash lemmas. *)
Lemma ready_premises :
  (Z.of_nat (length L) <= 30 /\ Z.of_nat (length L) < l_size s) /\
  (forall b, b ∈ L -> is_Some (ba_view a !! b)) /\
  (forall b, home start (l_size s) disk b -> b ∉ L -> disk_at disk b = ba_view a !! b).
Proof.
  pose proof (lr_size _ _ _ R). pose proof (lr_len _ _ _ R). split; [lia|]. split.
  - intros b (Hb & _)%(lr_home _ _ _ R). by apply (ready_dom _ _ _ R).
  - intros b (Hb & _) Hn. by apply (ready_clean _ _ _ R).
Qed.

(** The crash lemmas at this transaction. *)
Lemma ready_crash d : disk_at disk start = Some d ->
  let W := commit_writes start (ba_view a) L d in
  (disk_base start (l_size s) (apply_writes W disk) /\ hdr_ok start (l_size s) (apply_writes W disk) [] /\
   forall b, home start (l_size s) disk b -> disk_at (apply_writes W disk) b = ba_view a !! b) /\
  forall k, let dk := apply_writes (take k W) disk in
    disk_ok start (l_size s) dk /\ forall b, home start (l_size s) disk b ->
      recovered start dk b = if (k <=? length L)%nat then disk_at disk b else ba_view a !! b.
Proof.
  intros Hd W. destruct ready_premises as (P1 & P2 & P3). destruct R. split.
  - by apply commit_final.
  - intros k. destruct (Nat.leb_spec k (length L)) as [Hk|Hk]; [by apply before_commit'|by apply after_commit].
Qed.

Lemma commit_ready d s' :
  disk_at disk start = Some d ->
  at_log (set_lh 0 (lh_block s) s) (a_puts (commit_writes start (ba_view a) L d) a)
         (d_trace (l_bio s) ++ commit_writes start (ba_view a) L d) s' ->
  log_ready s' (a_puts (commit_writes start (ba_view a) L d) a) [] /\
  d_disk (l_bio s') = apply_writes (commit_writes start (ba_view a) L d) disk.
Proof.
  intros Hd Hat. set (W := commit_writes start (ba_view a) L d) in *.
  destruct ready_premises as (P1 & P2 & P3).
  destruct (ready_crash d Hd) as ((F1 & F2 & _) & _). fold W in F1, F2.
  destruct (al_fields _ _ _ _ Hat) as (E1 & E2 & E3 & E4 & E5).
  pose proof (al_bio _ _ _ _ Hat) as Hr.
  assert (Hdk : d_disk (l_bio s') = apply_writes W disk).
  { rewrite (bio_disk _ _ Hr), a_puts_disk. unfold disk. by rewrite (bio_disk _ _ (lr_bio _ _ _ R)). }
  split; [|done]. pose proof (dk_area _ _ _ (lr_base _ _ _ R)).
  split; rewrite ?Hdk, ?E1, ?E2, ?E3, ?E4, ?E5; try done;
    try (first [exact (lr_dev _ _ _ R)|exact (lr_bl _ _ _ R)|exact (lr_size _ _ _ R)]).
  - rewrite a_puts_dirty, (lr_dirty _ _ _ R). apply set_eq. intros b. split; [|clear; set_solver].
    rewrite elem_of_difference, !elem_of_list_to_set. intros [Hb Hn]. destruct Hn.
    unfold W, commit_writes. rewrite !fmap_app, !elem_of_app. right. left.
    unfold home_writes. rewrite <- list_fmap_compose. apply list_elem_of_fmap. by exists b.
  - simpl. lia.
  - apply NoDup_nil_2.
  - by intros b ?%not_elem_of_nil.
  - intros b x Hx. eapply (puts_wf W a (ready_vwf _ _ _ R)); [|exact Hx].
    assert (Hdl : length d = BSIZE) by by eapply (dk_blk _ _ _ (lr_base _ _ _ R)).
    assert (Hh1 : length (headblk L d) = BSIZE) by (apply length_headblk; [done|lia]).
    assert (Hst : is_Some (ba_view a !! start)) by (apply (ready_dom _ _ _ R); unfold start; lia).
    assert (Hl : forall y, y ∈ L -> length (vat (ba_view a) y) = BSIZE).
    { intros y Hy. apply P2, vat_is_Some in Hy. by eapply (lr_wf _ _ _ R). }
    intros b' x'. unfold W, commit_writes. rewrite !elem_of_app, !list_elem_of_singleton.
    intros [[(i & y & Hi & -> & ->)%log_mem|[= -> ->]]|[Hin|[= -> ->]]]; try done.
    + split; [by eapply Hl, list_elem_of_lookup_2|]. apply lookup_lt_Some in Hi.
      apply (ready_dom _ _ _ R). unfold start. lia.
    + apply list_elem_of_fmap in Hin as (y & [= -> ->] & Hy). auto.
    + split; [|done]. apply length_headblk; [done|simpl; lia].
Qed.
End end_op.

(** What a commit leaves as it was. *)
Record commit_kept (s : log) (a : babs) (s' : log) (a' : babs) : Prop := mk_commit_kept {
  ck_held : ba_held a' = ∅;
  ck_start : l_start s' = l_start s;
  ck_size : l_size s' = l_size s;
  ck_len : length (d_disk (l_bio s')) = length (d_disk (l_bio s));
  ck_sb : ba_view a' !! 1 = ba_view a !! 1
}.
Lemma commit_writes_sb start v L d : 2 <= start -> 1 ∉ L -> 1 ∉ (commit_writes start v L d).*1.
Proof.
  intros Hs Hn. unfold commit_writes, log_writes, home_writes. rewrite !fmap_app, !elem_of_app, fmap_imap.
  rewrite <- list_fmap_compose, elem_of_lookup_imap. simpl. rewrite !list_elem_of_singleton, list_elem_of_fmap.
  intros [[(i & y & E & _)|E]|[(y & E & Hy)|E]]; simpl in E; try lia. by subst.
Qed.

(** What an [end_op] that commits [L] promises: [s'] is the log after it. *)
Definition commit_promise (s : log) (a : babs) (L : list Z) (s' : log) : Prop := exists a' ws,
    commit_kept s a s' a' /\ log_ready s' a' [] /\ l_outstanding s' = 0 /\ l_committing s' = 0 /\
    d_trace (l_bio s') = d_trace (l_bio s) ++ ws /\
    (forall b, home (l_start s) (l_size s) (d_disk (l_bio s)) b ->
       disk_at (d_disk (l_bio s')) b = ba_view a !! b /\ ba_view a' !! b = ba_view a !! b) /\
    forall k, let crashed := apply_writes (take k ws) (d_disk (l_bio s)) in
      (exists disk', reboots crashed disk') /\
      forall disk' b, reboots crashed disk' -> home (l_start s) (l_size s) (d_disk (l_bio s)) b ->
        disk_at disk' b = if (k <=? length L)%nat then disk_at (d_disk (l_bio s)) b else ba_view a !! b.

Lemma end_op_spec s a L :
  log_ready s a L -> ba_held a = ∅ -> l_outstanding s = 1 -> l_committing s = 0 ->
  wp end_op s (fun _ s' => commit_promise s a L s').
Proof.
  intros R Hheld Ho Hc. destruct (ready_header _ _ _ R Hheld) as (d & Hd & Hdv).
  destruct (ready_premises _ _ _ R Hheld) as (P1 & P2 & P3).
  destruct (ready_crash _ _ _ R Hheld d Hd) as ((_ & _ & Hfin) & Hcrash).
  pose proof (lr_size _ _ _ R) as Hsz.
  unfold end_op. wp_step. wp_step. wp_step. wp_step. simpl. rewrite Hc, Ho. simpl.
  wp_step. wp_step. wp_step. set (s1 := set_committing 1 _).
  assert (Hat : at_log s1 a (d_trace (l_bio s1)) s1) by (split; [apply R|done..]).
  destruct (decide (L = [])) as [->|HL].
  { unfold commit. wp_step. wp_step. simpl. rewrite (lr_n _ _ _ R). simpl. wp_step. wp_step.
    exists a, []. split; [done|]. split; [by destruct R|]. rewrite app_nil_r. repeat (split; [done|]). split.
    - intros b Hb. split; [|done]. simpl. apply P3; [done|apply not_elem_of_nil].
    - intros k. rewrite take_nil. simpl.
      assert (Hok : disk_ok (l_start s) (l_size s) (d_disk (l_bio s))) by (split; [apply R|exists []; apply R]).
      split; [by eapply reboots_exists|]. intros disk' b Hrb Hb.
      rewrite (reboots_recovered _ _ _ _ Hok Hsz Hrb b Hb).
      rewrite (recovered_out _ _ _ _ (lr_hdr _ _ _ R)) by apply not_elem_of_nil.
      case_match; [done|]. apply P3; [done|apply not_elem_of_nil]. }
  assert (Hl : (length L <= 29)%nat) by (pose proof (lr_len _ _ _ R); lia).
  apply (commit_spec s1 a L _ d (lr_dev _ _ _ R) (lr_n _ _ _ R) (lr_take _ _ _ R)
           (ready_trans _ _ _ R Hheld) Hl (lr_dirty _ _ _ R) Hdv s1 _ HL Hat).
  intros s' Hat'. destruct (commit_ready s a L R Hheld d (set_committing 0 (set_outstanding 1 s'))) as [R' Hdk].
  { done. }
  { destruct Hat' as [H1 H2 H3 H4]. split; [done|done|done|].
    assert (E : set_committing 0 (set_outstanding 1 (set_lh 0 (lh_block s1) s1)) = set_lh 0 (lh_block s) s).
    { unfold s1, set_lh, set_committing, set_outstanding. simpl. by rewrite <- Ho, <- Hc. }
    exact (eq_trans (f_equal (fun x => set_committing 0 (set_outstanding 1 x)) H4) E). }
  set (W := commit_writes (l_start s) (ba_view a) L d) in *.
  destruct (al_fields _ _ _ _ Hat') as (E1 & E2 & E3 & E4 & E5).
  wp_step. exists (a_puts W a), W. split.
  { simpl in Hdk. split; simpl; rewrite ?a_puts_held, ?Hdk, ?length_apply_writes, ?E1, ?E2; try done.
    apply a_puts_view, commit_writes_sb; [apply (dk_area _ _ _ (lr_base _ _ _ R))|].
    intros H1%(lr_home _ _ _ R). by destruct H1 as (_ & ? & _). }
  split; [by destruct R'|].
  assert (Hdisk : forall b, home (l_start s) (l_size s) (d_disk (l_bio s)) b ->
    disk_at (d_disk (l_bio s')) b = ba_view a !! b).
  { intros b Hb. simpl in Hdk. rewrite Hdk. by apply Hfin. }
  split; [exact (f_equal l_outstanding (al_rest _ _ _ _ Hat'))|]. split; [done|].
  split; [apply Hat'|]. split.
  - intros b Hb. split; [by apply Hdisk|]. rewrite <- (Hdisk b Hb).
    symmetry. apply (ready_clean _ _ _ R'); [|simpl in *; rewrite Hdk, length_apply_writes; by destruct Hb|apply not_elem_of_nil].
    by rewrite a_puts_held.
  - intros k. destruct (Hcrash k) as [Hok Hr]. split; [by eapply reboots_exists|].
    intros disk' b Hrb Hb. rewrite <- (Hr b Hb). eapply reboots_recovered; try done. by apply home_apply.
Qed.

(** C2.  Commits are atomic. No buffer is held and the log has at most 30
    blocks. The [end_op] that ends the last system call of a transaction returns
    with every block of the transaction at its home location. Its disk writes
    are [ws]; whatever number [k] of them reaches the disk before a crash, the
    machine can boot again, and after any number of crashes during recovery the
    home blocks are exactly the old ones if at most the [length L] log blocks
    were written, and exactly the new ones once the header was. *)
Theorem commit_crash_atomic s a L :
  log_ready s a L -> ba_held a = ∅ -> l_outstanding s = 1 -> l_committing s = 0 ->
  wp end_op s (fun _ s' => exists a' ws,
    log_ready s' a' [] /\ l_outstanding s' = 0 /\ l_committing s' = 0 /\
    d_trace (l_bio s') = d_trace (l_bio s) ++ ws /\
    (forall b, home (l_start s) (l_size s) (d_disk (l_bio s)) b ->
       disk_at (d_disk (l_bio s')) b = ba_view a !! b /\ ba_view a' !! b = ba_view a !! b) /\
    forall k, let crashed := apply_writes (take k ws) (d_disk (l_bio s)) in
      (exists disk', reboots crashed disk') /\
      forall disk' b, reboots crashed disk' -> home (l_start s) (l_size s) (d_disk (l_bio s)) b ->
        disk_at disk' b = if (k <=? length L)%nat then disk_at (d_disk (l_bio s)) b else ba_view a !! b).
Proof.
  intros R Hh Ho Hc. eapply wp_mono; [by apply end_op_spec|].
  intros [] s' (a' & ws & _ & Hp). by exists a', ws.
Qed.

(** ** A small disk

    Eight blocks: boot, super block, a log of a header and two slots, and
    three home blocks. *)

Definition zblock : block := replicate BSIZE 0.
Definition demo_sb : block :=
  put32 8 ++ put32 1 ++ put32 1 ++ put32 3 ++ put32 2 ++ put32 5 ++ put32 6 ++ replicate 484 0.
Definition demo_disk : list block := [zblock; demo_sb; zblock; zblock; zblock; zblock; zblock; zblock].

Lemma demo_base : disk_base 2 3 demo_disk.
Proof.
  split.
  - done.
  - intros b d. unfold disk_at. intros Hd%list_elem_of_lookup_2.
    assert (Forall (fun d => length d = BSIZE) demo_disk) as Hall by by repeat constructor.
    rewrite Forall_forall in Hall. by apply Hall.
  - exists demo_sb. done.
  - done.
Qed.
Lemma demo_hdr : hdr_ok 2 3 demo_disk [].
Proof.
  split; [by exists zblock|done|apply NoDup_nil_2|by intros b ?%not_elem_of_nil].
Qed.

(** A system call that changes the first byte of block 5. *)
Definition demo_call : KM log unit :=
  begin_op;;
  h ← io (bread ROOTDEV 5);
  io (bput h 0 [7]);;
  log_write h;;
  io (brelse h).

Lemma demo_call_spec s a :
  log_ready s a [] -> ba_held a = ∅ -> l_outstanding s = 0 -> l_committing s = 0 ->
  home (l_start s) (l_size s) (d_disk (l_bio s)) 5 -> 3 <= l_size s ->
  wp demo_call s (fun _ s' => exists a', log_ready s' a' [5] /\ ba_held a' = ∅ /\
    l_outstanding s' = 1 /\ l_committing s' = 0 /\ l_start s' = l_start s /\ l_size s' = l_size s).
Proof.
  intros R Hheld Ho Hc H5 Hsz. unfold demo_call, begin_op. wp_step. wp_step. wp_step.
  rewrite Hc, Ho, (lr_n _ _ _ R). simpl. wp_step.
  assert (is_Some (ba_view a !! 5)) as [d Hd] by (apply (ready_dom _ _ _ R); by destruct H5).
  pose proof (lr_wf _ _ _ R _ _ Hd) as Hdl. pose proof R as [R1 R2 R3 R4 R5 R6 R7 R8 R9 R10 R11 R12 R13].
  set (s1 := set_outstanding 1 s).
  assert (Hat : at_log s1 a (d_trace (l_bio s1)) s1) by by split.
  wp_step. eapply at_bread; [done|done|rewrite Hheld, map_img_empty_L; set_solver|right|].
  { unfold pinned. rewrite Hheld, map_img_empty_L, union_empty_l_L, R6, list_to_set_nil, size_empty. unfold NBUF. lia. }
  clear Hat. intros h s2 Hfree Hat.
  assert (Hh : ba_held (a_hold h 5 a) !! h = Some 5) by (simpl; by rewrite lookup_insert_eq).
  wp_step. eapply at_bput; [done|done|exact Hd|]. clear s2 Hat. intros s2 Hat.
  set (d' := splice 0 [7] d) in *. set (a2 := a_setdata 5 d' (a_hold h 5 a)) in *.
  destruct (al_fields _ _ _ _ Hat) as (E1 & E2 & E3 & E4 & E5). pose proof (al_rest _ _ _ _ Hat) as E6.
  change (l_start s1) with (l_start s) in E1. change (l_size s1) with (l_size s) in E2.
  assert (Hdk : d_disk (l_bio s2) = d_disk (l_bio s)).
  { rewrite (bio_disk _ _ (al_bio _ _ _ _ Hat)), (bio_disk _ _ R1). done. }
  assert (R' : log_ready s2 a2 []).
  { split; rewrite ?E1, ?E2, ?E3, ?E4, ?E5, ?Hdk; try done; [by destruct Hat|].
    intros b x. simpl. rewrite lookup_insert. case_decide; [|by eauto]. intros [= <-].
    unfold d'. rewrite length_splice; [done|rewrite Hdl; unfold BSIZE; simpl; lia]. }
  assert (Eo : l_outstanding s2 = 1) by exact (f_equal l_outstanding E6).
  assert (Ec : l_committing s2 = 0) by (rewrite <- Hc; exact (f_equal l_committing E6)).
  wp_step. eapply wp_mono; [eapply (log_write_spec s2 a2 [] h 5 R'); [done| | |lia]|].
  { by rewrite E1, E2, Hdk. }
  { rewrite E2. simpl. lia. }
  clear Hat R'. intros [] s3 (R' & Hdk' & _ & _ & F1 & F2 & F3 & F4). apply wp_io.
  eapply wp_mono; [eapply (brelse_spec _ _ h 5 (lr_bio _ _ _ R')); [done|simpl; set_solver]|].
  intros [] b (Hr & Hbd & _ & _). exists (a_drop h (a_mark 5 a2)). split.
  - destruct R'. split; simpl; rewrite ?Hbd; done.
  - simpl. split; [|split_and!; congruence].
    by rewrite delete_insert_id.
Qed.

(** The state of the demo call, computed by the model. *)
Definition demo_state : log :=
  match (boot;; demo_call) (boot_log demo_disk 1) with
  | Done _ s => s
  | _ => boot_log demo_disk 1
  end.

Lemma demo_ready : exists a, log_ready demo_state a [5] /\ ba_held a = ∅ /\
  l_outstanding demo_state = 1 /\ l_committing demo_state = 0.
Proof.
  assert (wp (boot;; demo_call) (boot_log demo_disk 1) (fun _ s => exists a, log_ready s a [5] /\ ba_held a = ∅ /\
    l_outstanding s = 1 /\ l_committing s = 0)) as Hw.
  { wp_step. eapply wp_mono; [apply (boot_runs 2 3 demo_disk); [split; [apply demo_base|exists []; apply demo_hdr]|lia]|].
    intros [] s [(a & R & Hh & _) (E1 & E2 & E3 & E4) _ Hl _ _].
    eapply wp_mono; [eapply (demo_call_spec s a R Hh E3 E4)|].
    - unfold home. rewrite E1, E2, Hl. simpl. lia.
    - lia.
    - intros [] s' (a' & ? & ? & ? & ? & _). eauto. }
  apply wp_inv in Hw as ([] & s & Hs & Hp). unfold demo_state. by rewrite Hs.
Qed.

Lemma commit_crash_atomic_witness : exists a, ba_held a = ∅ /\
  wp end_op demo_state (fun _ s' => l_outstanding s' = 0).
Proof.
  destruct demo_ready as (a & R & Hh & Ho & Hc). exists a. split; [exact Hh|].
  eapply wp_mono; [exact (commit_crash_atomic demo_state a [5] R Hh Ho Hc)|].
  intros [] s' (a' & ws & _ & E & _). exact E.
Defined.

(** C16.  Recovery is correct and idempotent.  Booting from a disk with a valid
    header gives every home block its recovered contents and clears the
    header; if the machine crashes after any number [k] of the writes of this
    recovery, further boots give the same contents. *)
Theorem recovery_correct start nlog disk pid :
  disk_ok start nlog disk -> nlog <= 30 ->
  wp boot (boot_log disk pid) (fun _ s =>
    hdr_ok start nlog (d_disk (l_bio s)) [] /\
    forall b, home start nlog disk b ->
      disk_at (d_disk (l_bio s)) b = recovered start disk b /\
      forall k disk', reboots (apply_writes (take k (d_trace (l_bio s))) disk) disk' ->
        disk_at disk' b = recovered start disk b).
Proof.
  intros Hok Hnl. eapply wp_mono; [by apply boot_runs|].
  intros [] s [(a & R & _) (E1 & E2 & _) Hdisk _ _ Hcrash]. split.
  - destruct R. by rewrite E1, E2 in *.
  - intros b Hb. split; [by apply Hdisk|]. intros k disk' Hrb.
    destruct (Hcrash k) as [Hok' Hrec]. rewrite <- (Hrec b Hb).
    eapply reboots_recovered; try done. by apply home_apply.
Qed.
Lemma recovery_correct_witness : wp boot (boot_log demo_disk 1) (fun _ s =>
  disk_at (d_disk (l_bio s)) 7 = Some zblock).
Proof.
  eapply wp_mono; [apply (recovery_correct 2 3 demo_disk 1)|].
  - split; [exact demo_base|exists []; exact demo_hdr].
  - lia.
  - intros [] s [_ H]. destruct (H 7) as [E _]; [unfold home; simpl; lia|].
    rewrite E. reflexivity.
Defined.

(** ** Three system calls and the log of [mkfs] *)

(** How a system call updates block [b]: [bread], [log_write], [brelse]; and
    its updates one after the other. *)
Definition log_block (b : Z) : KM log unit :=
  h ← io (bread ROOTDEV b);
  log_write h;;
  io (brelse h).
Fixpoint log_blocks (bs : list Z) : KM log unit :=
  match bs with [] => mret tt | b :: bs => log_block b;; log_blocks bs end.

(** Inside a transaction that lists [L], nothing held. *)
Record in_trans (s : log) (L : list Z) (n : Z) (disk : list block) (start : Z) : Prop := mk_in_trans {
  it_ready : exists a, log_ready s a L /\ ba_held a = ∅;
  it_out : l_outstanding s = n;
  it_com : l_committing s = 0;
  it_size : l_size s = LOGSIZE;
  it_start : l_start s = start;
  it_disk : length (d_disk (l_bio s)) = length disk
}.
Lemma it_home s L n disk start b : in_trans s L n disk start -> home start LOGSIZE disk b ->
  home (l_start s) (l_size s) (d_disk (l_bio s)) b.
Proof. intros [_ _ _ E1 E2 E3] H. unfold home in *. by rewrite E1, E2, E3. Qed.

(** [bread] of any block inside the transaction. *)
Lemma trans_bread s L n disk start b (Q : nat -> log -> Prop) :
  in_trans s L n disk start -> home start LOGSIZE disk b ->
  (forall h s' a, log_ready s' (a_hold h b a) L -> ba_held a = ∅ -> l_outstanding s' = n -> l_committing s' = 0 ->
     l_size s' = LOGSIZE -> l_start s' = start -> length (d_disk (l_bio s')) = length disk -> Q h s') ->
  wp (io (bread ROOTDEV b)) s Q.
Proof.
  intros IT Hb HQ. pose proof (it_home _ _ _ _ _ _ IT Hb) as Hb'. destruct IT as [(a & R & Hh) Ho Hc Hz Hs Hd].
  pose proof R as [R1 R2 R3 R4 R5 R6 R7 R8 R9 R10 R11 R12 R13].
  assert (is_Some (ba_view a !! b)) as [d Hbd] by (apply (ready_dom _ _ _ R); by destruct Hb').
  assert (Hat : at_log s a (d_trace (l_bio s)) s) by (split; try done; by destruct s).
  eapply at_bread; [done|done|rewrite Hh, map_img_empty_L; set_solver|right|].
  { unfold pinned. rewrite Hh, map_img_empty_L, union_empty_l_L, R6, size_list_to_set by done. unfold NBUF, LOGSIZE, MAXOPBLOCKS in *. lia. }
  clear Hat. intros h s2 Hfree Hat. destruct (al_fields _ _ _ _ Hat) as (E1 & E2 & E3 & E4 & E5). pose proof (al_rest _ _ _ _ Hat) as E6.
  assert (Hdk : d_disk (l_bio s2) = d_disk (l_bio s)) by (by rewrite (bio_disk _ _ (al_bio _ _ _ _ Hat)), (bio_disk _ _ R1)).
  apply (HQ h s2 a); [|done|by rewrite <- Ho; exact (f_equal l_outstanding E6)|by rewrite <- Hc; exact (f_equal l_committing E6)|congruence|congruence|congruence].
  split; rewrite ?E1, ?E2, ?E3, ?E4, ?E5, ?Hdk; try done. by destruct Hat.
Qed.

Lemma log_block_spec s L n disk start b :
  in_trans s L n disk start -> 1 <= n -> home start LOGSIZE disk b -> b ∉ L -> Z.of_nat (length L) < LOGSIZE - 1 ->
  wp (log_block b) s (fun _ s' => in_trans s' (L ++ [b]) n disk start).
Proof.
  intros IT Hn Hb HL Hlen. unfold log_block. wp_step. eapply trans_bread; [done|done|]. intros h s1 a R Hh Ho Hc Hz Hs Hd.
  wp_step. eapply wp_mono; [apply (log_write_spec s1 _ L h b R)|].
  { apply lookup_insert_eq. } { unfold home in *. by rewrite Hz, Hs, Hd. } { lia. } { lia. }
  intros [] s2 (R2 & Hdk & _ & _ & F1 & F2 & F3 & F4). apply wp_io.
  eapply wp_mono; [eapply (brelse_spec _ _ h b (lr_bio _ _ _ R2)); [apply lookup_insert_eq|simpl; set_solver]|].
  intros [] b' (Hr & Hbd & _ & _). unfold logged in R2. rewrite decide_False in R2 by done.
  split; simpl; rewrite ?Hbd; try congruence. exists (a_drop h (a_mark b (a_hold h b a))). split.
  - destruct R2. split; simpl; rewrite ?Hbd; done.
  - simpl. by rewrite Hh, delete_insert_id.
Qed.
Lemma log_blocks_spec bs : forall s L n disk start,
  in_trans s L n disk start -> 1 <= n -> (forall b, b ∈ bs -> home start LOGSIZE disk b) -> NoDup (L ++ bs) ->
  Z.of_nat (length (L ++ bs)) <= LOGSIZE - 1 ->
  wp (log_blocks bs) s (fun _ s' => in_trans s' (L ++ bs) n disk start).
Proof.
  induction bs as [|b bs IH]; intros s L n disk start IT Hn Hb Hnd Hlen; cbn [log_blocks].
  { wp_step. by rewrite app_nil_r. }
  wp_step. rewrite length_app in Hlen. cbn [length] in Hlen.
  assert (HL : b ∉ L) by (apply NoDup_app in Hnd as (_ & Hd & _); intros Hin; apply (Hd b Hin); by left).
  eapply wp_mono; [apply log_block_spec; [done|done|apply Hb; by left|done|lia]|]. intros [] s1 IT1.
  replace (L ++ b :: bs) with ((L ++ [b]) ++ bs) in * by (by rewrite <- app_assoc).
  apply IH; [done|done|intros x Hx; apply Hb; by right|done|]. rewrite !length_app. cbn [length]. lia.
Qed.

Lemma log_blocks_app l1 l2 s : log_blocks (l1 ++ l2) s = (log_blocks l1;; log_blocks l2) s.
Proof.
  revert s. induction l1 as [|b l1 IH]; intros s; [done|]. cbn [log_blocks app]. unfold mbind, km_bind in *.
  destruct (log_block b s) as [[] s1| | |]; [apply IH|done..].
Qed.

(** With the log full, the next [log_write] panics. *)
Lemma log_block_full s L n disk start b :
  in_trans s L n disk start -> home start LOGSIZE disk b -> Z.of_nat (length L) = LOGSIZE - 1 ->
  log_block b s = Panic "too big a transaction".
Proof.
  intros IT Hb HL. unfold log_block.
  assert (H : wp (io (bread ROOTDEV b)) s (fun _ s1 => lh_n s1 = LOGSIZE - 1 /\ l_size s1 = LOGSIZE)).
  { eapply trans_bread; [done|done|]. intros h s1 a R _ _ _ Hz _ _. split; [|done]. by rewrite (lr_n _ _ _ R). }
  apply wp_inv in H as (h & s1 & E & Hl & Hz). rewrite (bind_done _ _ _ _ _ E).
  unfold log_write, mbind, km_bind, kget. by rewrite Hl, Hz.
Qed.

(** [begin_op] admits the third call. *)
Lemma begin_op_admits s n disk start : in_trans s [] n disk start -> 0 <= n <= 2 ->
  wp begin_op s (fun _ s' => in_trans s' [] (n + 1) disk start).
Proof.
  intros [(a & R & Hh) Ho Hc Hz Hs Hd] Hn. unfold begin_op. wp_step. wp_step. rewrite Hc, Ho, (lr_n _ _ _ R).
  cbn [negb Z.eqb length Z.of_nat]. rewrite (proj2 (Z.ltb_ge _ _)) by (unfold LOGSIZE, MAXOPBLOCKS; lia).
  wp_step. split; try done. exists a. split; [|done]. by destruct R.
Qed.

(** The machine boots and three calls begin. *)
Definition three_calls : KM log unit := boot;; begin_op;; begin_op;; begin_op.
Lemma three_calls_spec start disk pid : disk_ok start LOGSIZE disk ->
  wp three_calls (boot_log disk pid) (fun _ s => in_trans s [] 3 disk start).
Proof.
  intros Hok. unfold three_calls. wp_step. eapply wp_mono; [by apply (boot_runs start LOGSIZE)|].
  intros [] s [(a & R & Hh & _) (E1 & E2 & E3 & E4) _ Hl _ _].
  assert (IT : in_trans s [] 0 disk start) by (split; try done; by exists a).
  wp_step. eapply wp_mono; [by apply begin_op_admits|]. intros [] s1 IT1.
  wp_step. eapply wp_mono; [by apply begin_op_admits|]. intros [] s2 IT2.
  eapply wp_mono; [by apply begin_op_admits|]. done.
Qed.

(** C40.  The reservation of [begin_op] exceeds the capacity of the log that
    [mkfs] makes ([nlog = LOGSIZE], the header included).  From any such disk:
    the machine boots, [begin_op] admits three system calls, none of them logs
    more than the [MAXOPBLOCKS] blocks it reserved, and with the first 29 of
    their 30 blocks logged the last [log_write] panics. *)
Theorem log_reservation_gap start disk pid c1 c2 c3 b :
  disk_ok start LOGSIZE disk -> length c1 = 10%nat -> length c2 = 10%nat -> length c3 = 9%nat ->
  NoDup (c1 ++ c2 ++ c3) -> (forall x, x ∈ c1 ++ c2 ++ c3 \/ x = b -> home start LOGSIZE disk x) ->
  wp (three_calls;; log_blocks (c1 ++ c2 ++ c3)) (boot_log disk pid) (fun _ s =>
    l_outstanding s = 3 /\ lh_n s = LOGSIZE - 1 /\ log_block b s = Panic "too big a transaction") /\
  (three_calls;; log_blocks (c1 ++ c2 ++ c3 ++ [b])) (boot_log disk pid) = Panic "too big a transaction".
Proof.
  intros Hok H1 H2 H3 Hnd Hb. set (bs := c1 ++ c2 ++ c3) in *.
  assert (Hlen : length bs = 29%nat) by (unfold bs; rewrite !length_app; lia).
  assert (Hw : wp (three_calls;; log_blocks bs) (boot_log disk pid) (fun _ s => in_trans s bs 3 disk start)).
  { wp_step. eapply wp_mono; [by apply (three_calls_spec start)|]. intros [] s IT.
    apply (log_blocks_spec bs s []); [done|lia|auto|done|]. simpl. rewrite Hlen. unfold LOGSIZE, MAXOPBLOCKS. lia. }
  assert (Hend : forall s, in_trans s bs 3 disk start -> log_block b s = Panic "too big a transaction").
  { intros s IT. eapply log_block_full; [done|auto|]. by rewrite Hlen. }
  split.
  - eapply wp_mono; [exact Hw|]. intros [] s IT. split; [apply IT|]. split; [|by apply Hend].
    destruct (it_ready _ _ _ _ _ IT) as (a & R & _). by rewrite (lr_n _ _ _ R), Hlen.
  - apply wp_inv in Hw as ([] & s & E & IT). replace (c1 ++ c2 ++ c3 ++ [b]) with (bs ++ [b]) by (unfold bs; by rewrite <- !app_assoc).
    apply bind_done_inv in E as ([] & s0 & E0 & E). rewrite (bind_done _ _ _ _ _ E0), log_blocks_app.
    rewrite (bind_done _ _ _ _ _ E). cbn [log_blocks]. unfold mbind, km_bind. by rewrite (Hend s IT).
Qed.

(** A disk with a log of 30 blocks and 31 home blocks. *)
Definition gap_sb : block :=
  put32 63 ++ put32 30 ++ put32 1 ++ put32 30 ++ put32 2 ++ put32 32 ++ put32 33 ++ replicate 484 0.
Definition gap_disk : list block := zblock :: gap_sb :: replicate 61 zblock.
Lemma gap_disk_ok : disk_ok 2 LOGSIZE gap_disk.
Proof.
  split; [split|exists []; split].
  - done.
  - intros b d Hd%list_elem_of_lookup_2. assert (Forall (fun d => length d = BSIZE) gap_disk) as Hall; [|by rewrite Forall_forall in Hall; apply Hall].
    apply Forall_cons. split; [done|]. apply Forall_cons. split; [done|]. by apply Forall_replicate.
  - by exists gap_sb.
  - done.
  - by exists zblock.
  - done.
  - apply NoDup_nil_2.
  - by intros b ?%not_elem_of_nil.
Qed.
Lemma log_reservation_gap_witness :
  (three_calls;; log_blocks (seqZ 32 10 ++ seqZ 42 10 ++ seqZ 52 9 ++ [61])) (boot_log gap_disk 1) = Panic "too big a transaction".
Proof.
  apply (log_reservation_gap 2 gap_disk 1 (seqZ 32 10) (seqZ 42 10) (seqZ 52 9) 61).
  - exact gap_disk_ok.
  - reflexivity.
  - reflexivity.
  - reflexivity.
  - change (NoDup (seqZ 32 29)). apply NoDup_seqZ.
  - change (seqZ 32 10 ++ seqZ 42 10 ++ seqZ 52 9) with (seqZ 32 29). intros x Hx.
    assert (32 <= x < 62) by (destruct Hx as [Hx%elem_of_seqZ| ->]; lia).
    unfold home, LOGSIZE, MAXOPBLOCKS. change (Z.of_nat (length gap_disk)) with 63. lia.
Defined.
