(* ===== verification/Printf.v ===== *)
(** * Formatted output: [printf.c] and the printing half of [console.c]

    [printf] (user library) and [cprintf] (kernel console) as functions from
    the format, the argument words and the memory that holds string arguments
    to the characters they emit.  [None] is undefined behaviour: a write past
    [char buf[16]] in [printint], a missing argument, an unterminated string.

    Results: [printint] never overruns its buffer and prints a number that
    reads back as the argument, for every 32-bit argument; the two printers
    agree on the formats that both document. *)

From S2P Require Import Prelude CString.

(** ** [printint] *)

(** The characters of a string literal, as bytes. *)
Definition chars (s : string) : list Z := map (fun a => Z.of_N (Ascii.N_of_ascii a)) (String.list_ascii_of_string s).

Definition digits_upper : list Z := chars "0123456789ABCDEF".
Definition digits_lower : list Z := chars "0123456789abcdef".

(** [do{ buf[i++] = digits[x % base]; }while((x /= base) != 0)], with [room]
    bytes of [buf] left; the bytes stored, in the order of [buf]. *)
Fixpoint digit_loop (digits : list Z) (room : nat) (x base : Z) : option (list Z) :=
  match room with
  | O => None
  | S room =>
      d ← digits !! Z.to_nat (x mod base);
      if x / base =? 0 then Some [d]
      else (cons d) <$> digit_loop digits room (x / base) base
  end.

(** The size of [char buf[16]]. *)
Definition PRINTBUF : nat := 16.

(** [printint] of [printf.c]; the result is what it writes to the fd. *)
Definition printint (xx base : Z) (sgn : bool) : option (list Z) :=
  let neg := sgn && (xx <? 0) in
  let x := if neg then u32 (- xx) else u32 xx in
  buf ← digit_loop digits_upper PRINTBUF x base;
  buf ← (if neg then (if (length buf <? PRINTBUF)%nat then Some (buf ++ [45]) else None)
         else Some buf);
  Some (reverse buf).

(** [printint] of [console.c]: [sign] is reused as the sign of [xx]. *)
Definition cprintint (xx base : Z) (sign : bool) : option (list Z) :=
  let sign' := if sign then xx <? 0 else sign in
  let x := if sign && sign' then u32 (- xx) else u32 xx in
  buf ← digit_loop digits_lower PRINTBUF x base;
  buf ← (if sign' then (if (length buf <? PRINTBUF)%nat then Some (buf ++ [45]) else None)
         else Some buf);
  Some (reverse buf).

(** ** [printf] and [cprintf] *)

Definition null_string : list Z := chars "(null)".

(** The characters of the string at [s], for [%s]. *)
Fixpoint put_string (fuel : nat) (m : mem) (s : Z) : option (list Z) :=
  match fuel with
  | O => None
  | S fuel => if m s =? 0 then Some [] else cons (m s) <$> put_string fuel m (s + 1)
  end.

Definition put_strarg (fuel : nat) (m : mem) (s : Z) : option (list Z) :=
  if s =? 0 then Some null_string else put_string fuel m s.

(** [printf]: [percent] is [state == '%'].  [ap] is the list of the argument
    words from [*ap] on. *)
Fixpoint printf_loop (fuel : nat) (m : mem) (fmt : list Z) (percent : bool) (ap : list Z)
  : option (list Z) :=
  match fmt with
  | [] => Some []
  | c :: fmt =>
      if percent then
        if c =? 100 then
          match ap with
          | [] => None
          | a :: ap => out ← printint (i32 a) 10 true; app out <$> printf_loop fuel m fmt false ap
          end
        else if (c =? 120) || (c =? 112) then
          match ap with
          | [] => None
          | a :: ap => out ← printint (i32 a) 16 false; app out <$> printf_loop fuel m fmt false ap
          end
        else if c =? 115 then
          match ap with
          | [] => None
          | a :: ap => out ← put_strarg fuel m a; app out <$> printf_loop fuel m fmt false ap
          end
        else if c =? 99 then
          match ap with
          | [] => None
          | a :: ap => cons (u8 a) <$> printf_loop fuel m fmt false ap
          end
        else if c =? 37 then cons c <$> printf_loop fuel m fmt false ap
        else (fun out => 37 :: c :: out) <$> printf_loop fuel m fmt false ap
      else
        if c =? 37 then printf_loop fuel m fmt true ap
        else cons c <$> printf_loop fuel m fmt false ap
  end.
Definition printf (fuel : nat) (m : mem) (fmt : list Z) (ap : list Z) : option (list Z) :=
  printf_loop fuel m fmt false ap.

(** [cprintf]: reads the character after a [%] in the same iteration. *)
Fixpoint cprintf (fuel : nat) (m : mem) (fmt : list Z) (argp : list Z) {struct fmt}
  : option (list Z) :=
  match fmt with
  | [] => Some []
  | c :: fmt =>
      if negb (c =? 37) then cons c <$> cprintf fuel m fmt argp
      else
        match fmt with
        | [] => Some []
        | c :: fmt =>
            if c =? 100 then
              match argp with
              | [] => None
              | a :: argp => out ← cprintint (i32 a) 10 true; app out <$> cprintf fuel m fmt argp
              end
            else if (c =? 120) || (c =? 112) then
              match argp with
              | [] => None
              | a :: argp => out ← cprintint (i32 a) 16 false; app out <$> cprintf fuel m fmt argp
              end
            else if c =? 115 then
              match argp with
              | [] => None
              | a :: argp => out ← put_strarg fuel m a; app out <$> cprintf fuel m fmt argp
              end
            else if c =? 37 then cons 37 <$> cprintf fuel m fmt argp
            else (fun out => 37 :: c :: out) <$> cprintf fuel m fmt argp
        end
  end.

(** ** Lemmas *)

(** The value of digit characters in a base, most significant first. *)
Definition hex_digit (c : Z) : Z :=
  if c <=? 57 then c - 48 else if c <=? 70 then c - 55 else c - 87.
Definition base_val (base : Z) (l : list Z) : Z :=
  foldl (fun n c => n * base + hex_digit c) 0 l.

(** A decimal integer as [printint] writes it. *)
Definition parse_int (l : list Z) : Z :=
  match l with
  | 45 :: l => - base_val 10 l
  | _ => base_val 10 l
  end.

(** A digit table is good for a base if entry [d] is the character of [d]. *)
Definition good_digits (digits : list Z) (base : Z) : Prop :=
  forall d, 0 <= d < base ->
    exists c, digits !! Z.to_nat d = Some c /\ hex_digit c = d /\ 48 <= c /\
              (d < 10 -> c = 48 + d).

Lemma good_digits_check digits base :
  0 <= base ->
  Forall (fun d => exists c, digits !! Z.to_nat d = Some c /\ hex_digit c = d /\ 48 <= c /\
              (d < 10 -> c = 48 + d)) (seqZ 0 base) ->
  good_digits digits base.
Proof. intros Hb H d Hd. rewrite Forall_forall in H. apply H. apply elem_of_seqZ. lia. Qed.

Ltac good_digits_tac :=
  apply good_digits_check; [lia|];
  repeat (apply Forall_cons; split; [eexists; split; [reflexivity|]; vm_compute; intuition congruence|]);
  apply Forall_nil; done.

Lemma good_upper_10 : good_digits digits_upper 10.
Proof. good_digits_tac. Qed.
Lemma good_upper_16 : good_digits digits_upper 16.
Proof. good_digits_tac. Qed.
Lemma good_lower_10 : good_digits digits_lower 10.
Proof. good_digits_tac. Qed.
Lemma good_lower_16 : good_digits digits_lower 16.
Proof. good_digits_tac. Qed.

Lemma base_val_snoc base l c : base_val base (l ++ [c]) = base_val base l * base + hex_digit c.
Proof. unfold base_val. by rewrite foldl_app. Qed.

Lemma digit_loop_spec digits base k room x :
  good_digits digits base -> 1 < base -> (0 < k <= room)%nat ->
  0 <= x < base ^ Z.of_nat k ->
  exists buf, digit_loop digits room x base = Some buf /\ (length buf <= k)%nat /\
    base_val base (reverse buf) = x /\ Forall (fun c => 48 <= c) buf.
Proof.
  intros Hg Hb. revert k x. induction room as [|room IH]; intros k x Hk Hx; [lia|].
  cbn [digit_loop].
  destruct (Hg (x mod base)) as (d & Hd & Hv & Hlo & _); [apply Z.mod_pos_bound; lia|].
  rewrite Hd. simpl.
  pose proof (Z_div_mod_eq_full x base) as Hdm.
  destruct (Z.eqb_spec (x / base) 0) as [E|E].
  - exists [d]. split; [done|]. split; [simpl; lia|]. split; [|by apply Forall_singleton].
    change (hex_digit d = x). rewrite Hv. lia.
  - destruct k as [|[|k]]; [lia| |].
    { change (Z.of_nat 1) with 1 in Hx. rewrite Z.pow_1_r in Hx.
      rewrite Z.div_small in E by lia. done. }
    destruct (IH (S k) (x / base)) as (buf & -> & Hl & Hbv & Hd'); [lia| |].
    { split; [apply Z.div_pos; lia|]. apply Z.div_lt_upper_bound; [lia|].
      rewrite <- Z.pow_succ_r by lia. rewrite <- Nat2Z.inj_succ. lia. }
    exists (d :: buf). split; [done|]. split; [simpl; lia|]. split; [|by constructor].
    rewrite reverse_cons, base_val_snoc, Hbv, Hv. lia.
Qed.

Lemma parse_int_nonneg l :
  Forall (fun c => 48 <= c) l -> parse_int l = base_val 10 l.
Proof.
  intros Hl. destruct l as [|c l]; [done|]. apply Forall_cons in Hl as [Hc _].
  unfold parse_int. repeat (case_match; try done); lia.
Qed.

Lemma printint_decimal xx :
  - 2 ^ 31 <= xx < 2 ^ 31 ->
  exists out, printint xx 10 true = Some out /\ parse_int out = xx /\ (length out <= 11)%nat /\
    (0 <= xx -> Forall (fun c => 48 <= c) out).
Proof.
  intros Hxx. unfold printint. cbn [andb].
  set (x := if xx <? 0 then u32 (- xx) else u32 xx).
  assert (Hx : x = Z.abs xx).
  { unfold x. destruct (Z.ltb_spec xx 0); rewrite u32_id; lia. }
  destruct (digit_loop_spec digits_upper 10 10 PRINTBUF x good_upper_10)
    as (buf & -> & Hl & Hv & Hd); [lia|unfold PRINTBUF; lia|rewrite Hx; lia|].
  simpl. destruct (Z.ltb_spec xx 0) as [Hneg|Hpos].
  - rewrite (proj2 (Nat.ltb_lt _ _)) by (unfold PRINTBUF; lia). simpl.
    eexists. split; [done|]. rewrite reverse_app. simpl. split; [lia|].
    rewrite length_reverse. split; lia.
  - simpl. eexists. split; [done|]. rewrite length_reverse.
    assert (Forall (fun c => 48 <= c) (reverse buf)) by by apply Forall_reverse.
    rewrite parse_int_nonneg by done. split; [lia|]. split; [lia|]. done.
Qed.

(** ** Properties *)

(** [printint] prints every [int] in decimal within its 16-byte buffer
    (at most 11 characters), and the characters read back as the argument,
    [INT_MIN] included. *)
Theorem printint_roundtrip xx :
  - 2 ^ 31 <= xx < 2 ^ 31 ->
  exists out, printint xx 10 true = Some out /\ (length out <= 11)%nat /\ parse_int out = xx.
Proof. intros H. destruct (printint_decimal xx H) as (out & ? & ? & ? & _). eauto. Qed.

Lemma printint_roundtrip_witness :
  exists out, printint (- 2 ^ 31) 10 true = Some out /\ (length out <= 11)%nat /\
    parse_int out = - 2 ^ 31.
Proof. apply (printint_roundtrip (- 2 ^ 31)). lia. Defined.

(** The hexadecimal printout has at most 8 digits and denotes the word. *)
Lemma printint_hex xx :
  exists out, printint xx 16 false = Some out /\ (length out <= 8)%nat /\
    base_val 16 out = u32 xx.
Proof.
  unfold printint. cbn [andb].
  destruct (digit_loop_spec digits_upper 16 8 PRINTBUF (u32 xx) good_upper_16)
    as (buf & -> & Hl & Hv & Hd); [lia|unfold PRINTBUF; lia| |].
  { pose proof (u32_range xx). lia. }
  eexists. split; [done|]. rewrite length_reverse. done.
Qed.

(** The two printers share decimal output: below 10 the digit tables agree. *)
Lemma digit_loop_decimal room x :
  digit_loop digits_upper room x 10 = digit_loop digits_lower room x 10.
Proof.
  revert x. induction room as [|room IH]; intros x; [done|].
  cbn [digit_loop]. rewrite IH.
  destruct (good_upper_10 (x mod 10)) as (c & -> & _ & _ & Ec); [apply Z.mod_pos_bound; lia|].
  destruct (good_lower_10 (x mod 10)) as (c' & -> & _ & _ & Ec'); [apply Z.mod_pos_bound; lia|].
  pose proof (Z.mod_pos_bound x 10). by rewrite Ec, Ec' by lia.
Qed.

Lemma cprintint_decimal xx : cprintint xx 10 true = printint xx 10 true.
Proof. unfold cprintint, printint. cbn [andb]. by rewrite digit_loop_decimal. Qed.

(** A format both printers understand: every [%] is followed by [d], [s] or
    [%], the last character is not a lone [%]. *)
Fixpoint common_fmt (fmt : list Z) : Prop :=
  match fmt with
  | [] => True
  | c :: fmt =>
      if c =? 37 then
        match fmt with
        | [] => False
        | c :: fmt => (c = 100 \/ c = 115 \/ c = 37) /\ common_fmt fmt
        end
      else common_fmt fmt
  end.

Lemma printf_cprintf_common fuel m n fmt ap :
  (length fmt <= n)%nat -> common_fmt fmt ->
  printf_loop fuel m fmt false ap = cprintf fuel m fmt ap.
Proof.
  revert fmt ap. induction n as [|n IH]; intros [|c fmt] ap Hn Hc; simpl in Hn; try done; try lia.
  cbn [common_fmt] in Hc. cbn [printf_loop cprintf].
  destruct (c =? 37) eqn:E; cbn [negb].
  - destruct fmt as [|d fmt]; [done|]. destruct Hc as [Hd Hc]. simpl in Hn.
    cbn [printf_loop]. destruct Hd as [-> | [-> | ->]]; cbn -[printint cprintint printf_loop cprintf].
    + destruct ap as [|a ap]; [done|]. rewrite cprintint_decimal.
      destruct (printint _ _ _); [|done]. simpl. rewrite IH by (done || lia). done.
    + destruct ap as [|a ap]; [done|].
      destruct (put_strarg _ _ _); [|done]. simpl. rewrite IH by (done || lia). done.
    + rewrite IH by (done || lia). done.
  - rewrite IH by (done || lia). done.
Qed.

(** The kernel's [cprintf] and the user library's [printf] emit the same
    characters, on every format made of text and [%d], [%s] and [%%], for all
    argument words and all memory contents. *)
Theorem cprintf_printf_agree fuel m fmt ap :
  common_fmt fmt -> cprintf fuel m fmt ap = printf fuel m fmt ap.
Proof. intros H. symmetry. by apply (printf_cprintf_common fuel m (length fmt)). Qed.

Lemma cprintf_printf_agree_witness :
  cprintf 10 (mem_of [0; 104; 105; 0]) (chars "pid %d: %s") [u32 (-7); 1] =
  printf 10 (mem_of [0; 104; 105; 0]) (chars "pid %d: %s") [u32 (-7); 1].
Proof. apply cprintf_printf_agree. vm_compute. intuition auto. Defined.

(** What that format prints. *)
Example printf_example :
  printf 10 (mem_of [0; 104; 105; 0]) (chars "pid %d: %s") [u32 (-7); 1] = Some (chars "pid -7: hi").
Proof. vm_compute. reflexivity. Qed.

(** The comments of both files list [%d %x %p %s]; [printf] also has [%c],
    which [cprintf] prints as an unknown sequence. *)
Example printf_percent_c :
  printf 1 (mem_of []) (chars "%c") [65] = Some (chars "A") /\
  cprintf 1 (mem_of []) (chars "%c") [65] = Some (chars "%c").
Proof. split; reflexivity. Qed.

(** ** [cprintf] is total on arguments that suit the format *)

(** The arguments a format prints as strings, if there are enough of them. *)
Fixpoint str_args (fmt args : list Z) : option (list Z) :=
  match fmt with
  | [] => Some []
  | c :: fmt =>
      if negb (c =? 37) then str_args fmt args
      else
        match fmt with
        | [] => Some []
        | c :: fmt =>
            if (c =? 100) || (c =? 120) || (c =? 112) then
              match args with [] => None | _ :: args => str_args fmt args end
            else if c =? 115 then
              match args with [] => None | a :: args => cons a <$> str_args fmt args end
            else str_args fmt args
        end
  end.

Lemma cprintint_hex xx : exists out, cprintint xx 16 false = Some out.
Proof.
  unfold cprintint. cbn [andb].
  destruct (digit_loop_spec digits_lower 16 8 PRINTBUF (u32 xx) good_lower_16) as (buf & -> & _); [lia|unfold PRINTBUF; lia| |by eexists].
  pose proof (u32_range xx). lia.
Qed.
Lemma cprintint_dec xx : exists out, cprintint (i32 xx) 10 true = Some out.
Proof. rewrite cprintint_decimal. destruct (printint_decimal (i32 xx) (i32_range xx)) as (out & -> & _). by eexists. Qed.

Lemma cprintf_total_n fuel m : forall n fmt args l, (length fmt <= n)%nat -> str_args fmt args = Some l ->
  Forall (fun a => is_Some (put_strarg fuel m a)) l -> is_Some (cprintf fuel m fmt args).
Proof.
  induction n as [|n IH]; intros [|c fmt] args l Hn Ha Hl; simpl in Hn; try lia; [by eexists..|]. cbn [cprintf str_args] in *.
  destruct (c =? 37); cbn [negb] in *.
  2: { destruct (IH fmt args l) as [out ->]; [lia|done|done|by eexists]. }
  destruct fmt as [|d fmt]; [by eexists|]. simpl in Hn. destruct (d =? 100); cbn [orb] in *.
  { destruct args as [|a args]; [done|]. destruct (cprintint_dec a) as (o1 & ->). destruct (IH fmt args l) as [out E]; [lia|done|done|]. simpl. rewrite E. by eexists. }
  destruct ((d =? 120) || (d =? 112)).
  { destruct args as [|a args]; [done|]. destruct (cprintint_hex (i32 a)) as (o1 & ->). destruct (IH fmt args l) as [out E]; [lia|done|done|]. simpl. rewrite E. by eexists. }
  destruct (d =? 115).
  { destruct args as [|a args]; [done|]. apply fmap_Some in Ha as (l' & Ha & ->). apply Forall_cons in Hl as [[o1 ->] Hl].
    destruct (IH fmt args l') as [out E]; [lia|done|done|]. simpl. rewrite E. by eexists. }
  destruct (d =? 37); (destruct (IH fmt args l) as [out ->]; [lia|done|done|by eexists]).
Qed.
Lemma cprintf_total fuel m fmt args l : str_args fmt args = Some l ->
  Forall (fun a => is_Some (put_strarg fuel m a)) l -> is_Some (cprintf fuel m fmt args).
Proof. by apply (cprintf_total_n fuel m (length fmt)). Qed.
