(* ===== verification/Rtc.v ===== *)
(** * The real-time clock: [cmostime] of [lapic.c] and [date] of [proc.c]

    The clock chip is hardware: [cmos k reg] is the byte that the [k]-th read
    of the call finds in register [reg].  The state of the routines is the
    number of reads done.  [cmostime] reads the six registers of the date until
    two readings agree with no update in progress in between, and decodes them.
    The number of rounds is bounded by fuel; [cmostime_correct] shows that one
    round more than the reads before the chip is stable is enough. *)

From S2P Require Import Prelude CString Printf.

(** ** [date.h] *)

Record rtcdate := mkrtcdate {
  r_second : Z; r_minute : Z; r_hour : Z; r_day : Z; r_month : Z; r_year : Z
}.
#[global] Instance rtcdate_eq_dec : EqDecision rtcdate.
Proof. solve_decision. Defined.

Definition CMOS_STATA : Z := 0x0a.
Definition CMOS_STATB : Z := 0x0b.
Definition CMOS_UIP : Z := Z.shiftl 1 7.
Definition SECS : Z := 0x00.
Definition MINS : Z := 0x02.
Definition HOURS : Z := 0x04.
Definition DAY : Z := 0x07.
Definition MONTH : Z := 0x08.
Definition YEAR : Z := 0x09.

(** The macro [CONV]. *)
Definition CONV (x : Z) : Z := u32 (u32 (Z.shiftr x 4 * 10) + Z.land x 0xf).
Definition convert (t : rtcdate) : rtcdate :=
  mkrtcdate (CONV (r_second t)) (CONV (r_minute t)) (CONV (r_hour t)) (CONV (r_day t)) (CONV (r_month t)) (CONV (r_year t)).
Definition add_century (t : rtcdate) : rtcdate :=
  mkrtcdate (r_second t) (r_minute t) (r_hour t) (r_day t) (r_month t) (u32 (r_year t + 2000)).

Section cmos.
Context (cmos : nat -> Z -> Z).

Definition cmos_read (reg : Z) : KM nat Z := fun k => Done (u8 (cmos k reg)) (S k).

Definition fill_rtcdate : KM nat rtcdate :=
  second ← cmos_read SECS;
  minute ← cmos_read MINS;
  hour ← cmos_read HOURS;
  day ← cmos_read DAY;
  month ← cmos_read MONTH;
  year ← cmos_read YEAR;
  mret (mkrtcdate second minute hour day month year).

(** The loop of [cmostime], at most [fuel] rounds. *)
Fixpoint stable_date (fuel : nat) : KM nat rtcdate :=
  match fuel with
  | O => fault "cmostime: out of fuel"
  | S fuel =>
      t1 ← fill_rtcdate;
      a ← cmos_read CMOS_STATA;
      if negb (Z.land a CMOS_UIP =? 0) then stable_date fuel else
      t2 ← fill_rtcdate;
      if decide (t1 = t2) then mret t1 else stable_date fuel
  end.

Definition cmostime (fuel : nat) : KM nat rtcdate :=
  sb ← cmos_read CMOS_STATB;
  let bcd := Z.land sb (Z.shiftl 1 2) =? 0 in
  t1 ← stable_date fuel;
  mret (add_century (if bcd then convert t1 else t1)).

(** What [date] prints. *)
Definition date_text (r : rtcdate) : option (list Z) :=
  cprintf 1 (fun _ => 0) (chars "%d/%d/%d %d:%d:%d" ++ [10])
    [r_day r; r_month r; r_year r; r_hour r; r_minute r; r_second r].
Definition date (fuel : nat) : KM nat (Z * option (list Z)) :=
  r ← cmostime fuel;
  mret (25, date_text r).

(** ** Reading the clock *)

(** The six reads from the [k]-th on. *)
Definition shown (k : nat) : rtcdate :=
  mkrtcdate (u8 (cmos k SECS)) (u8 (cmos (k + 1) MINS)) (u8 (cmos (k + 2) HOURS))
    (u8 (cmos (k + 3) DAY)) (u8 (cmos (k + 4) MONTH)) (u8 (cmos (k + 5) YEAR)).
Definition updating (k : nat) : bool := negb (Z.land (u8 (cmos k CMOS_STATA)) CMOS_UIP =? 0).

(** Two readings agree, with no update between them. *)
Definition steady (k : nat) : Prop := updating (k + 6) = false /\ shown (k + 7) = shown k.

Lemma fill_run k : fill_rtcdate k = Done (shown k) (k + 6)%nat.
Proof.
  unfold fill_rtcdate, mbind, km_bind, cmos_read, shown. rewrite !(Nat.add_comm k). done.
Qed.

(** A round takes 7 or 13 reads, so one starts in any 13 reads. *)
Lemma stable_spec M : (forall k, (M <= k < M + 13)%nat -> steady k) ->
  forall fuel k, (M < fuel + k)%nat -> (k < M + 13)%nat -> fuel <> 0%nat ->
  wp (stable_date fuel) k (fun r _ => exists j, (k <= j < M + 13)%nat /\ steady j /\ r = shown j).
Proof.
  intros HM. induction fuel as [|fuel IH]; intros k Hk Hw Hf; [done|]. cbn [stable_date].
  assert (Hnext : forall k', (k < M)%nat -> (k + 7 <= k' <= k + 13)%nat ->
    wp (stable_date fuel) k' (fun r _ => exists j, (k <= j < M + 13)%nat /\ steady j /\ r = shown j)).
  { intros k' Hlt Hk'. eapply wp_mono; [apply IH; lia|]. intros r _ (j & ? & ? & ?). exists j. split_and!; [lia|lia|done|done]. }
  wp_step. eapply wp_done; [apply fill_run|]. wp_step. eapply wp_done; [done|].
  change (negb _) with (updating (k + 6)). destruct (updating (k + 6)) eqn:E.
  - destruct (decide (M <= k)%nat); [destruct (HM k) as [Hs _]; [lia|congruence]|]. apply Hnext; lia.
  - wp_step. eapply wp_done; [apply fill_run|]. replace (S (k + 6)) with (k + 7)%nat by lia. case_decide as Hd.
    + wp_step. exists k. split_and!; [lia|lia|by split|done].
    + destruct (decide (M <= k)%nat); [destruct (HM k) as [_ Hs]; [lia|congruence]|]. apply Hnext; lia.
Qed.
End cmos.

(** ** Dates as the chip keeps them *)

Definition valid_date (d : rtcdate) : Prop :=
  0 <= r_second d < 60 /\ 0 <= r_minute d < 60 /\ 0 <= r_hour d < 24 /\ 1 <= r_day d <= 31 /\ 1 <= r_month d <= 12 /\
  2000 <= r_year d < 2100.
(** A register in binary coded decimal, or in binary. *)
Definition encode (bcd : bool) (n : Z) : Z := if bcd then 16 * (n / 10) + n mod 10 else n.
(** The chip shows [d] at the 26 reads from the [M]-th on. *)
Definition shows (cmos : nat -> Z -> Z) (bcd : bool) (d : rtcdate) (M : nat) : Prop := forall k, (M <= k < M + 26)%nat ->
  cmos k SECS = encode bcd (r_second d) /\ cmos k MINS = encode bcd (r_minute d) /\ cmos k HOURS = encode bcd (r_hour d) /\
  cmos k DAY = encode bcd (r_day d) /\ cmos k MONTH = encode bcd (r_month d) /\ cmos k YEAR = encode bcd (r_year d - 2000) /\
  Z.testbit (cmos k CMOS_STATA) 7 = false.

Lemma u8_bit a n : 0 <= n < 8 -> Z.testbit (u8 a) n = Z.testbit a n.
Proof. intros. apply Z.mod_pow2_bits_low. lia. Qed.

Lemma encode_range bcd n : 0 <= n < 100 -> 0 <= encode bcd n < 256.
Proof. intros. destruct bcd; simpl; [|lia]. pose proof (Z.mod_pos_bound n 10). pose proof (Z_div_mod_eq_full n 10). lia. Qed.
Lemma encode_u8 bcd n : 0 <= n < 100 -> u8 (encode bcd n) = encode bcd n.
Proof. intros. apply Z.mod_small. by apply (encode_range bcd n). Qed.
Lemma CONV_encode n : 0 <= n < 100 -> CONV (encode true n) = n.
Proof.
  intros Hn. unfold CONV. rewrite Z.shiftr_div_pow2 by lia. change 0xf with (Z.ones 4). rewrite Z.land_ones by lia. simpl encode.
  pose proof (Z.mod_pos_bound n 10). pose proof (Z_div_mod_eq_full n 10).
  replace ((16 * (n / 10) + n mod 10) / 2 ^ 4) with (n / 10) by (apply (Z.div_unique_pos _ _ _ (n mod 10)); lia).
  replace ((16 * (n / 10) + n mod 10) mod 2 ^ 4) with (n mod 10) by (apply (Z.mod_unique_pos _ _ (n / 10)); lia).
  rewrite (u32_id (n / 10 * 10)) by lia. rewrite u32_id by lia. lia.
Qed.

Lemma shows_steady cmos bcd d M : shows cmos bcd d M -> forall k, (M <= k < M + 13)%nat -> steady cmos k.
Proof.
  intros H k Hk. split.
  - unfold updating. unfold CMOS_UIP. rewrite land_bit_eq, u8_bit by lia.
    destruct (H (k + 6)%nat) as (_ & _ & _ & _ & _ & _ & ->); [lia|done].
  - unfold shown. f_equal; f_equal.
    + destruct (H (k + 7)%nat ltac:(lia)) as (-> & _), (H k ltac:(lia)) as (-> & _). done.
    + destruct (H (k + 7 + 1)%nat ltac:(lia)) as (_ & -> & _), (H (k + 1)%nat ltac:(lia)) as (_ & -> & _). done.
    + destruct (H (k + 7 + 2)%nat ltac:(lia)) as (_ & _ & -> & _), (H (k + 2)%nat ltac:(lia)) as (_ & _ & -> & _). done.
    + destruct (H (k + 7 + 3)%nat ltac:(lia)) as (_ & _ & _ & -> & _), (H (k + 3)%nat ltac:(lia)) as (_ & _ & _ & -> & _). done.
    + destruct (H (k + 7 + 4)%nat ltac:(lia)) as (_ & _ & _ & _ & -> & _), (H (k + 4)%nat ltac:(lia)) as (_ & _ & _ & _ & -> & _). done.
    + destruct (H (k + 7 + 5)%nat ltac:(lia)) as (_ & _ & _ & _ & _ & -> & _), (H (k + 5)%nat ltac:(lia)) as (_ & _ & _ & _ & _ & -> & _). done.
Qed.

(** What the chip shows decodes to the date. *)
Lemma shows_decode cmos bcd d M k : shows cmos bcd d M -> valid_date d -> (M <= k < M + 13)%nat ->
  add_century (if bcd then convert (shown cmos k) else shown cmos k) = d.
Proof.
  intros H (V1 & V2 & V3 & V4 & V5 & V6) Hk.
  assert (E : shown cmos k = mkrtcdate (encode bcd (r_second d)) (encode bcd (r_minute d)) (encode bcd (r_hour d))
    (encode bcd (r_day d)) (encode bcd (r_month d)) (encode bcd (r_year d - 2000))).
  { unfold shown. destruct (H k ltac:(lia)) as (-> & _), (H (k + 1)%nat ltac:(lia)) as (_ & -> & _),
      (H (k + 2)%nat ltac:(lia)) as (_ & _ & -> & _), (H (k + 3)%nat ltac:(lia)) as (_ & _ & _ & -> & _),
      (H (k + 4)%nat ltac:(lia)) as (_ & _ & _ & _ & -> & _), (H (k + 5)%nat ltac:(lia)) as (_ & _ & _ & _ & _ & -> & _).
    by rewrite !encode_u8 by lia. }
  rewrite E. destruct bcd; unfold convert, add_century; cbn [r_second r_minute r_hour r_day r_month r_year];
    rewrite ?CONV_encode by lia; unfold encode; rewrite (u32_id (r_year d - 2000 + 2000)) by lia; destruct d; simpl; f_equal; lia.
Qed.

(** Whatever the clock chip did before, once it shows a date steadily for
    26 reads [cmostime] returns, and what it returns was read twice in a row
    with no update in progress in between.  When that reading lies in the
    steady period the result is the date shown, in either encoding. *)
Theorem cmostime_correct cmos bcd d M fuel :
  valid_date d -> shows cmos bcd d M -> Z.testbit (cmos 0%nat CMOS_STATB) 2 = negb bcd -> (M < fuel)%nat ->
  wp (cmostime cmos fuel) 0%nat (fun r _ => exists j, (1 <= j < M + 13)%nat /\ steady cmos j /\
    r = add_century (if bcd then convert (shown cmos j) else shown cmos j) /\ ((M <= j)%nat -> r = d)).
Proof.
  intros Hd Hs Hb Hf. unfold cmostime. wp_step. eapply wp_done; [done|].
  rewrite land_bit_eq, u8_bit, Hb, negb_involutive by lia.
  wp_step. eapply wp_mono; [apply (stable_spec cmos M (shows_steady cmos bcd d M Hs)); lia|].
  intros r k (j & Hj & Hst & ->). wp_step. exists j. split_and!; [lia|lia|done|done|]. intros Hm.
  apply (shows_decode cmos bcd d M); [done|done|lia].
Qed.

(** New year's eve, in binary coded decimal. *)
Definition demo_clock (k : nat) (reg : Z) : Z :=
  match Z.to_nat reg with
  | 0%nat => 0x59 | 2%nat => 0x59 | 4%nat => 0x23 | 7%nat => 0x31 | 8%nat => 0x12 | 9%nat => 0x17 | 11%nat => 2 | _ => 0
  end.
Lemma cmostime_correct_witness : wp (cmostime demo_clock 1) 0%nat (fun r _ => r = mkrtcdate 59 59 23 31 12 2017).
Proof.
  eapply wp_mono; [apply (cmostime_correct demo_clock true (mkrtcdate 59 59 23 31 12 2017) 0 1)|].
  - unfold valid_date. simpl. lia.
  - by intros k _.
  - done.
  - lia.
  - intros r k (j & _ & _ & _ & H). apply H. lia.
Defined.
