(* ===== verification/Grep.v ===== *)
(** * [grep.c] and [wc.c]

    The regular expression matcher is translated on strings as the lists of
    their characters before the NUL; it decides the language of the expression
    ([match_correct]).  [grep] and [wc] read a file descriptor in pieces: the
    input is the list of pieces that successive reads find, a read takes at
    most as many bytes as it asks for and leaves the rest of the piece. *)

From S2P Require Import Prelude CString Printf.

Definition CARET : Z := 94.
Definition STAR : Z := 42.
Definition DOLLAR : Z := 36.
Definition PERIOD : Z := 46.
Definition NEWLINE : Z := 10.

(** ** [matchhere], [matchstar] and [match] *)

(** The loop of [matchstar], with [matchhere re] as [here]. *)
Fixpoint matchstar (here : list Z -> bool) (c : Z) (text : list Z) : bool :=
  here text ||
  match text with
  | [] => false
  | x :: text => ((x =? c) || (c =? PERIOD)) && matchstar here c text
  end.

Fixpoint matchhere (re text : list Z) {struct re} : bool :=
  match re with
  | [] => true
  | c :: re1 =>
      match re1 with
      | d :: re2 =>
          if d =? STAR then matchstar (matchhere re2) c text
          else match text with
               | [] => false
               | x :: text => ((c =? PERIOD) || (c =? x)) && matchhere re1 text
               end
      | [] =>
          if c =? DOLLAR then match text with [] => true | _ => false end
          else match text with
               | [] => false
               | x :: text => ((c =? PERIOD) || (c =? x)) && matchhere re1 text
               end
      end
  end.

(** The loop of [match]. *)
Fixpoint match_anywhere (re text : list Z) {struct text} : bool :=
  matchhere re text ||
  match text with
  | [] => false
  | _ :: text => match_anywhere re text
  end.
Definition rmatch (re text : list Z) : bool :=
  match re with
  | c :: re1 => if c =? CARET then matchhere re1 text else match_anywhere re text
  | [] => match_anywhere re text
  end.

(** ** The language of an expression *)

Inductive item := One (c : Z) | Star (c : Z).

(** The items of an expression and whether it is anchored at the end. *)
Fixpoint parse_items (re : list Z) : list item * bool :=
  match re with
  | [] => ([], false)
  | c :: re1 =>
      match re1 with
      | d :: re2 =>
          if d =? STAR then let '(l, e) := parse_items re2 in (Star c :: l, e)
          else let '(l, e) := parse_items re1 in (One c :: l, e)
      | [] => if c =? DOLLAR then ([], true) else ([One c], false)
      end
  end.
Definition parse (re : list Z) : bool * (list item * bool) :=
  match re with
  | c :: re1 => if c =? CARET then (true, parse_items re1) else (false, parse_items re)
  | [] => (false, parse_items re)
  end.

(** A character [.] stands for any character. *)
Definition accepts (c x : Z) : Prop := c = PERIOD \/ c = x.
Definition item_lang (i : item) (s : list Z) : Prop :=
  match i with
  | One c => exists x, s = [x] /\ accepts c x
  | Star c => Forall (accepts c) s
  end.
Fixpoint lang (l : list item) (s : list Z) : Prop :=
  match l with
  | [] => s = []
  | i :: l => exists s1 s2, s = s1 ++ s2 /\ item_lang i s1 /\ lang l s2
  end.

(** [text] starts with a word of [l], and is one when [e]. *)
Definition starts (l : list item) (e : bool) (text : list Z) : Prop :=
  exists w post, text = w ++ post /\ lang l w /\ (e = true -> post = []).

Lemma accepts_spec c x : (x =? c) || (c =? PERIOD) = true <-> accepts c x.
Proof. unfold accepts. destruct (Z.eqb_spec x c), (Z.eqb_spec c PERIOD); naive_solver. Qed.
Lemma accepts_spec' c x : (c =? PERIOD) || (c =? x) = true <-> accepts c x.
Proof. unfold accepts. destruct (Z.eqb_spec c x), (Z.eqb_spec c PERIOD); naive_solver. Qed.

Lemma starts_one c l e text : starts (One c :: l) e text <-> exists x rest, text = x :: rest /\ accepts c x /\ starts l e rest.
Proof.
  split.
  - intros (w & post & -> & (s1 & s2 & -> & (x & -> & Ha) & Hl) & He). exists x, (s2 ++ post). split_and!; [done|done|].
    by exists s2, post.
  - intros (x & rest & -> & Ha & w & post & -> & Hl & He). exists (x :: w), post. split_and!; [done| |done].
    exists [x], w. split_and!; [done|by exists x|done].
Qed.
Lemma starts_star c l e text : starts (Star c :: l) e text <->
  starts l e text \/ exists x rest, text = x :: rest /\ accepts c x /\ starts (Star c :: l) e rest.
Proof.
  split.
  - intros (w & post & -> & (s1 & s2 & -> & Hs & Hl) & He). destruct s1 as [|x s1]; [left; by exists s2, post|].
    apply Forall_cons in Hs as [Hx Hs]. right. exists x, ((s1 ++ s2) ++ post). split_and!; [done|done|].
    exists (s1 ++ s2), post. split_and!; [done| |done]. by exists s1, s2.
  - intros [(w & post & -> & Hl & He)|(x & rest & -> & Ha & w & post & -> & (s1 & s2 & -> & Hs & Hl) & He)].
    + exists w, post. split_and!; [done| |done]. exists [], w. split_and!; [done|by constructor|done].
    + exists (x :: s1 ++ s2), post. split_and!; [done| |done]. exists (x :: s1), s2. split_and!; [done|by constructor|done].
Qed.

Lemma matchstar_spec here c l e : (forall t, here t = true <-> starts l e t) ->
  forall text, matchstar here c text = true <-> starts (Star c :: l) e text.
Proof.
  intros Hh. induction text as [|x text IH]; cbn [matchstar]; rewrite starts_star, orb_true_iff, Hh.
  - split; [naive_solver|]. intros [?|(x & rest & [=] & _)]. by left.
  - rewrite andb_true_iff, accepts_spec, IH. split.
    + intros [?|[? ?]]; [by left|right; eauto].
    + intros [?|(y & rest & [= <- <-] & ? & ?)]; [by left|by right].
Qed.

Lemma one_step c l e rec text : (forall t, rec t = true <-> starts l e t) ->
  match text with [] => false | x :: text => ((c =? PERIOD) || (c =? x)) && rec text end = true <-> starts (One c :: l) e text.
Proof.
  intros Hr. rewrite starts_one. destruct text as [|x text].
  - split; [done|]. by intros (x & rest & [=] & _).
  - rewrite andb_true_iff, accepts_spec', Hr. split; [intros [? ?]; eauto|]. by intros (y & rest & [= <- <-] & ? & ?).
Qed.

Lemma starts_end text : starts [] true text <-> text = [].
Proof.
  split; [intros (w & post & -> & -> & He); by rewrite He|]. intros ->. by exists [], [].
Qed.
Lemma starts_nil text : starts [] false text.
Proof. by exists [], text. Qed.

Lemma matchhere_spec n : forall re text, (length re <= n)%nat ->
  matchhere re text = true <-> starts (parse_items re).1 (parse_items re).2 text.
Proof.
  induction n as [|n IH]; intros [|c [|d re]] text Hn; simpl in Hn; try lia; try (split; [intros _; apply starts_nil|done]).
  - cbn [matchhere parse_items]. destruct (c =? DOLLAR); simpl.
    + rewrite starts_end. by destruct text.
    + apply (one_step c [] false (matchhere [])). intros t. split; [intros _; apply starts_nil|done].
  - cbn [matchhere]. cbn [parse_items]. destruct (d =? STAR).
    + pose proof (fun t => IH re t ltac:(lia)) as H. destruct (parse_items re) as [l e]. by apply matchstar_spec.
    + pose proof (fun t => IH (d :: re) t ltac:(simpl; lia)) as H. cbn [parse_items] in H.
      match type of H with context [fst ?X] => destruct X as [l e] end. by apply (one_step c l e (matchhere (d :: re))).
Qed.

Lemma match_anywhere_spec re text : match_anywhere re text = true <->
  exists pre suf, text = pre ++ suf /\ starts (parse_items re).1 (parse_items re).2 suf.
Proof.
  pose proof (fun t => matchhere_spec (length re) re t ltac:(lia)) as H.
  induction text as [|x text IH]; cbn [match_anywhere]; rewrite orb_true_iff, H.
  - split; [intros [Hs|[=]]; by exists [], []|]. intros (pre & suf & E & Hs). left. symmetry in E. by apply app_nil in E as [-> ->].
  - rewrite IH. split.
    + intros [Hs|(pre & suf & -> & Hs)]; [by exists [], (x :: text)|by exists (x :: pre), suf].
    + intros ([|y pre] & suf & E & Hs); [left; by simpl in E; subst|]. injection E as <- ->. right. by exists pre, suf.
Qed.

(** C35.  The matcher decides the language of the expression: [match] accepts a
    text exactly when some part of it is a word of the expression's items
    (characters, [.], and starred ones), at the start of the text when the
    expression begins with [^], and reaching its end when it ends in [$]. *)
Theorem match_correct re text : rmatch re text = true <->
  let '(anchored, (l, at_end)) := parse re in
  exists pre w post, text = pre ++ w ++ post /\ lang l w /\ (anchored = true -> pre = []) /\ (at_end = true -> post = []).
Proof.
  unfold rmatch, parse. assert (HA : forall r, match_anywhere r text = true <-> exists pre w post, text = pre ++ w ++ post /\
    lang (parse_items r).1 w /\ (false = true -> pre = []) /\ ((parse_items r).2 = true -> post = [])).
  { intros r. rewrite match_anywhere_spec. split; [intros (pre & suf & -> & w & post & -> & ? & ?); by exists pre, w, post|].
    intros (pre & w & post & -> & ? & _ & ?). exists pre, (w ++ post). split; [done|]. by exists w, post. }
  destruct re as [|c re]; [apply (HA [])|]. destruct (c =? CARET).
  - rewrite (matchhere_spec (length re)) by lia. destruct (parse_items re) as [l e]. simpl. split.
    + intros (w & post & -> & ? & ?). by exists [], w, post.
    + intros (pre & w & post & -> & ? & Hp & ?). rewrite Hp by done. by exists w, post.
  - rewrite HA. by destruct (parse_items (c :: re)) as [l e].
Qed.

(** ** [grep] *)

(** [strchr(p, '\n')], as an offset, in the bytes up to the end of the data. *)
Fixpoint find_newline (l : list Z) : option nat :=
  match l with
  | [] => None
  | x :: l => if x =? 0 then None else if x =? NEWLINE then Some 0%nat else S <$> find_newline l
  end.

(** The inner loop: what is written, and the bytes from [p] on. *)
Fixpoint grep_lines (fuel : nat) (re l : list Z) : list Z * list Z :=
  match fuel with
  | O => ([], l)
  | S fuel =>
      match find_newline l with
      | None => ([], l)
      | Some q =>
          let line := take q l in
          let out := if rmatch re line then line ++ [NEWLINE] else [] in
          let '(out', rest) := grep_lines fuel re (drop (S q) l) in
          (out ++ out', rest)
      end
  end.

(** [read(fd, p, n)]: the bytes read and the pieces left. *)
Definition read (n : nat) (pieces : list (list Z)) : list Z * list (list Z) :=
  match pieces with
  | [] => ([], [])
  | c :: cs => (take n c, match drop n c with [] => cs | c' => c' :: cs end)
  end.

Definition BUFSIZE : nat := 1024.

(** [buf] is the [m] bytes at the start of the buffer. *)
Fixpoint grep (fuel : nat) (re buf : list Z) (pieces : list (list Z)) : option (list Z) :=
  match fuel with
  | O => None
  | S fuel =>
      let '(got, pieces) := read (BUFSIZE - length buf - 1) pieces in
      match got with
      | [] => Some []
      | _ =>
          let data := buf ++ got in
          let '(out, p) := grep_lines (length data) re data in
          let buf := if decide (length p = length data) then [] else p in
          app out <$> grep fuel re buf pieces
      end
  end.

(** The lines of a text and what follows the last newline; [cur] is the start
    of the first line. *)
Fixpoint lines_of (cur l : list Z) : list (list Z) * list Z :=
  match l with
  | [] => ([], cur)
  | x :: l => if x =? NEWLINE then let '(ls, r) := lines_of [] l in (cur :: ls, r) else lines_of (cur ++ [x]) l
  end.
Definition print_lines (re : list Z) (ls : list (list Z)) : list Z :=
  mjoin ((fun s => s ++ [NEWLINE]) <$> filter (fun s => rmatch re s = true) ls).

Lemma lines_app a : forall cur b, lines_of cur (a ++ b) =
  let '(l1, r1) := lines_of cur a in let '(l2, r2) := lines_of r1 b in (l1 ++ l2, r2).
Proof.
  induction a as [|x a IH]; intros cur b; simpl; [by destruct (lines_of cur b)|].
  destruct (x =? NEWLINE); [|apply IH]. rewrite IH. destruct (lines_of [] a) as [l1 r1]. by destruct (lines_of r1 b).
Qed.
Lemma print_app re l1 l2 : print_lines re (l1 ++ l2) = print_lines re l1 ++ print_lines re l2.
Proof. unfold print_lines. by rewrite filter_app, fmap_app, join_app. Qed.
Lemma print_cons re s l : print_lines re (s :: l) = (if rmatch re s then s ++ [NEWLINE] else []) ++ print_lines re l.
Proof. unfold print_lines. rewrite filter_cons. by destruct (rmatch re s). Qed.

Definition no_newline (l : list Z) : Prop := Forall (fun x => x <> NEWLINE) l.
Definition no_nul (l : list Z) : Prop := Forall (fun x => x <> 0) l.

Lemma lines_plain l : forall cur, no_newline l -> lines_of cur l = ([], cur ++ l).
Proof.
  induction l as [|x l IH]; intros cur H; simpl; [by rewrite app_nil_r|]. apply Forall_cons in H as [Hx Hl].
  rewrite (proj2 (Z.eqb_neq _ _)) by done. rewrite IH by done. by rewrite <- app_assoc.
Qed.
Lemma lines_rest l : forall cur, no_newline cur -> no_newline (lines_of cur l).2.
Proof.
  induction l as [|x l IH]; intros cur Hc; simpl; [done|]. destruct (Z.eqb_spec x NEWLINE).
  - specialize (IH [] (List.Forall_nil _)). by destruct (lines_of [] l).
  - apply IH. apply Forall_app. by repeat constructor.
Qed.
Lemma lines_none l : forall cur, (lines_of cur l).1 = [] -> no_newline l.
Proof.
  induction l as [|x l IH]; intros cur; simpl; [by constructor|]. destruct (Z.eqb_spec x NEWLINE).
  - by destruct (lines_of [] l).
  - intros H. constructor; [done|]. by eapply IH.
Qed.
Lemma lines_first l : forall cur s ls, (lines_of cur l).1 = s :: ls -> exists t, s = cur ++ t.
Proof.
  induction l as [|x l IH]; intros cur s ls; simpl; [done|]. destruct (x =? NEWLINE).
  - destruct (lines_of [] l). intros [= <- _]. exists []. by rewrite app_nil_r.
  - intros (t & ->)%IH. exists (x :: t). by rewrite <- app_assoc.
Qed.

Lemma lines_suffix l : forall cur, (lines_of cur l).1 <> [] -> exists pre, pre <> [] /\ l = pre ++ (lines_of cur l).2.
Proof.
  induction l as [|x l IH]; intros cur; simpl; [done|]. destruct (x =? NEWLINE).
  - specialize (IH []). destruct (lines_of [] l) as [ls r] eqn:E. simpl in *. intros _. destruct ls as [|s ls].
    + exists [x]. assert (no_newline l) by (eapply (lines_none l []); by rewrite E). rewrite lines_plain in E by done. by injection E as <-.
    + destruct IH as (pre & _ & ->); [done|]. by exists (x :: pre).
  - intros (pre & _ & E)%IH. exists (x :: pre). split; [done|]. by rewrite E at 1.
Qed.

Lemma find_newline_spec l : no_nul l -> match find_newline l with
  | Some q => no_newline (take q l) /\ l = take q l ++ NEWLINE :: drop (S q) l
  | None => no_newline l
  end.
Proof.
  induction l as [|x l IH]; intros H; simpl; [by constructor|]. apply Forall_cons in H as [Hx Hl].
  rewrite (proj2 (Z.eqb_neq _ _)) by done. destruct (Z.eqb_spec x NEWLINE) as [->|]; [by split; [constructor|]|].
  specialize (IH Hl). destruct (find_newline l) as [q|]; simpl; [|by constructor].
  destruct IH as [Hp E]. split; [by constructor|]. by rewrite <- E.
Qed.

Lemma grep_lines_spec re fuel : forall l, (length l <= fuel)%nat -> no_nul l ->
  grep_lines fuel re l = (print_lines re (lines_of [] l).1, (lines_of [] l).2).
Proof.
  induction fuel as [|fuel IH]; intros l Hf Hn; [by destruct l; simpl in Hf; [|lia]|]. cbn [grep_lines].
  pose proof (find_newline_spec l Hn) as Hs. destruct (find_newline l) as [q|].
  - destruct Hs as [Hp E]. set (a := take q l) in *. set (b := drop (S q) l) in *.
    assert (length b <= fuel)%nat by (apply (f_equal length) in E; rewrite length_app in E; simpl in E; lia).
    assert (no_nul b) by (rewrite E in Hn; apply Forall_app in Hn as [_ Hn]; by apply Forall_cons in Hn as [_ Hn]).
    rewrite IH by done. rewrite E, lines_app, (lines_plain a) by done. simpl. destruct (lines_of [] b) as [ls r]. simpl. by rewrite print_cons.
  - by rewrite lines_plain.
Qed.

(** Pieces that end in a newline, but for the last one. *)
Fixpoint whole_lines (pieces : list (list Z)) : Prop :=
  match pieces with
  | [] => True
  | c :: cs => c <> [] /\ (cs <> [] -> exists a, c = a ++ [NEWLINE]) /\ whole_lines cs
  end.
Definition short (ls : list (list Z)) : Prop := Forall (fun s => (length s < BUFSIZE - 1)%nat) ls.

Lemma print_nil re : print_lines re [] = [].
Proof. done. Qed.

Lemma read_join n (c : list Z) (cs : list (list Z)) :
  mjoin (c :: cs) = take n c ++ mjoin (match drop n c with [] => cs | c' => c' :: cs end : list (list Z)).
Proof.
  simpl. rewrite <- (take_drop n c) at 1. destruct (drop n c); simpl; [by rewrite app_nil_r|by rewrite <- app_assoc].
Qed.
Lemma whole_tail (n : nat) c cs : (0 < n)%nat -> whole_lines (c :: cs) ->
  whole_lines (match drop n c with [] => cs | c' => c' :: cs end) /\
  mjoin (c :: cs) = take n c ++ mjoin (match drop n c with [] => cs | c' => c' :: cs end) /\
  (drop n c = [] -> take n c = c) /\ take n c <> [].
Proof.
  intros Hn (Hc & Hl & Hw). pose proof (take_drop n c) as E. split_and!.
  - destruct (drop n c) as [|x d] eqn:D; [done|]. split_and!; [done| |done]. intros (a & ->)%Hl.
    assert (Hlen : (n <= length a)%nat).
    { destruct (decide (n <= length a)%nat); [done|]. rewrite drop_ge in D; [done|]. rewrite length_app. simpl. lia. }
    rewrite drop_app_le in D by done. rewrite <- D. eauto.
  - apply read_join.
  - intros D. by rewrite D, app_nil_r in E.
  - destruct c; [done|]. by destruct n; [lia|].
Qed.

(** A line is not lost: when the buffer holds no newline there is none left,
    or the line does not fit. *)
Lemma dropped (n : nat) buf c cs : n = (BUFSIZE - length buf - 1)%nat -> (0 < n)%nat -> whole_lines (c :: cs) ->
  short (lines_of buf (mjoin (c :: cs))).1 -> no_newline (take n c) -> no_newline (mjoin (c :: cs)).
Proof.
  intros En Hn Hw Hs Hp. destruct (whole_tail n c cs Hn Hw) as (_ & E & Hd & _).
  destruct (decide (drop n c = [])) as [D|D].
  - rewrite (Hd D) in Hp. destruct (decide (cs = [])) as [->|Hc]; [simpl; by rewrite app_nil_r|].
    destruct Hw as (_ & Hl & _). destruct (Hl Hc) as [a ->]. apply Forall_app in Hp as [_ Hp]. by apply Forall_cons in Hp as [? _].
  - assert (Hlen : length (take n c) = n).
    { rewrite length_take. apply Nat.min_l. destruct (decide (n <= length c)%nat); [done|]. by rewrite drop_ge in D by lia. }
    destruct (lines_of buf (mjoin (c :: cs))).1 as [|s ls] eqn:L; [by eapply lines_none|]. exfalso.
    rewrite E, lines_app, (lines_plain (take n c)) in L by done.
    set (r := match drop n c with [] => cs | c' => c' :: cs end) in *.
    destruct (lines_of (buf ++ take n c) (mjoin r)) as [l2 r2] eqn:L2. simpl in L. subst l2.
    destruct (lines_first (mjoin r) (buf ++ take n c) s ls) as [t ->]; [by rewrite L2|].
    apply Forall_cons in Hs as [Hs _]. rewrite !length_app, Hlen in Hs. unfold BUFSIZE in *. lia.
Qed.

Lemma grep_spec re fuel : forall buf pieces, (length (mjoin pieces) < fuel)%nat -> (length buf < BUFSIZE - 1)%nat ->
  no_newline buf -> no_nul buf -> no_nul (mjoin pieces) -> whole_lines pieces -> short (lines_of buf (mjoin pieces)).1 ->
  grep fuel re buf pieces = Some (print_lines re (lines_of buf (mjoin pieces)).1).
Proof.
  induction fuel as [|fuel IH]; intros buf pieces Hf Hb Hnl Hn0 Hn Hw Hs; [lia|]. cbn [grep].
  set (n := (BUFSIZE - length buf - 1)%nat). assert (Hnp : (0 < n)%nat) by (unfold n; unfold BUFSIZE in *; lia).
  destruct pieces as [|c cs]; [done|]. cbn [read]. destruct (whole_tail n c cs Hnp Hw) as (Hw' & E & _ & Hg).
  set (r := match drop n c with [] => cs | c' => c' :: cs end) in *. set (got := take n c) in *.
  destruct got as [|g0 got0] eqn:G; [done|]. rewrite <- G in *. clear G g0 got0.
  assert (Hlen : (length got <= n)%nat) by (unfold got; rewrite length_take; lia).
  rewrite E in Hn. apply Forall_app in Hn as [Hng Hnr].
  rewrite grep_lines_spec by (done || apply Forall_app; done). rewrite lines_app, (lines_plain buf []) by done. simpl app.
  destruct (lines_of buf got) as [l1 r1] eqn:L1. cbn [fst snd]. fold n in Hlen.
  pose proof (lines_rest got buf Hnl) as Hr1. rewrite L1 in Hr1.
  destruct (decide (l1 = [])) as [->|Hl1].
  - assert (Hp : no_newline got) by (eapply (lines_none got buf); by rewrite L1). rewrite lines_plain in L1 by done. injection L1 as <-.
    rewrite decide_True by done. pose proof (dropped n buf c cs eq_refl Hnp Hw Hs Hp) as Hnone.
    assert (Hrn : no_newline (mjoin r)) by (rewrite E in Hnone; by apply Forall_app in Hnone as [_ ?]).
    rewrite IH; [|rewrite E, length_app in Hf; destruct got; [done|simpl in Hf; lia]|unfold BUFSIZE; simpl; lia|by constructor|by constructor|done|done|].
    2:{ rewrite lines_plain by done. constructor. }
    by rewrite !lines_plain.
  - destruct (lines_suffix got buf) as (pre & Hpre & Eg); [by rewrite L1|]. rewrite L1 in Eg. simpl in Eg.
    assert (length r1 < length got)%nat by (rewrite Eg, length_app; destruct pre; [done|simpl; lia]).
    rewrite decide_False by (rewrite length_app; lia). rewrite E, lines_app, L1 in Hs |- *.
    specialize (IH r1 r). destruct (lines_of r1 (mjoin r)) as [l2 r2]. simpl in Hs |- *. apply Forall_app in Hs as [_ Hs2].
    rewrite IH; [by rewrite print_app|rewrite E, length_app in Hf; lia|unfold n, BUFSIZE in *; lia|done| |done|done|done].
    rewrite Eg in Hng. by apply Forall_app in Hng as [_ ?].
Qed.

(** [grep] prints, in order, exactly the lines its expression matches: for
    input without NUL bytes whose lines fit the buffer, read as a file or in
    any pieces that end at line ends, whatever the reads cut.  Text after the
    last newline is not printed. *)
Theorem grep_correct re pieces :
  whole_lines pieces -> no_nul (mjoin pieces) -> short (lines_of [] (mjoin pieces)).1 ->
  grep (S (length (mjoin pieces))) re [] pieces = Some (print_lines re (lines_of [] (mjoin pieces)).1).
Proof.
  intros Hw Hn Hs. apply grep_spec; [lia|unfold BUFSIZE; simpl; lia|by constructor|by constructor|done|done|done].
Qed.
Lemma grep_correct_witness :
  grep 9 (chars "b.$") [] [chars "abc" ++ [10] ++ chars "bde" ++ [10]] = Some (chars "abc" ++ [10]).
Proof.
  apply (grep_correct (chars "b.$") [chars "abc" ++ [10] ++ chars "bde" ++ [10]]).
  - by split_and!.
  - by repeat constructor.
  - repeat constructor; simpl; lia.
Defined.

(** A read that ends inside a line loses it: when a buffer without a newline
    is followed by more input, [grep] forgets what it read of the line, and a
    line that matches in one piece does not in two. *)
Theorem grep_drops_partial_line :
  grep 5 (chars "abc") [] [chars "abc" ++ [10]] = Some (chars "abc" ++ [10]) /\
  grep 5 (chars "abc") [] [chars "ab"; chars "c" ++ [10]] = Some [].
Proof. done. Qed.

(** ** [wc] *)

Record counts := mkcounts { wc_l : Z; wc_w : Z; wc_c : Z; wc_inword : bool }.

(** [strchr(" \r\t\n\v", x)]; the terminating NUL is not found. *)
Definition is_sep (x : Z) : bool := (x =? 32) || (x =? 13) || (x =? 9) || (x =? 10) || (x =? 11).

(** The body of the loop over the buffer. *)
Definition wc_char (s : counts) (x : Z) : counts :=
  let c := i32 (wc_c s + 1) in
  let l := if x =? NEWLINE then i32 (wc_l s + 1) else wc_l s in
  if is_sep x then mkcounts l (wc_w s) c false
  else if wc_inword s then mkcounts l (wc_w s) c true
  else mkcounts l (i32 (wc_w s + 1)) c true.

Fixpoint wc_loop (fuel : nat) (s : counts) (pieces : list (list Z)) : option counts :=
  match fuel with
  | O => None
  | S fuel =>
      let '(got, pieces) := read 512 pieces in
      match got with
      | [] => Some s
      | _ => wc_loop fuel (foldl wc_char s got) pieces
      end
  end.
Definition wc (fuel : nat) (name : list Z) (pieces : list (list Z)) : option (list Z) :=
  s ← wc_loop fuel (mkcounts 0 0 0 false) pieces;
  printf (S (length name)) (mem_of (0 :: name)) (chars "%d %d %d %s" ++ [10]) [wc_l s; wc_w s; wc_c s; 1].

(** The words of a text: its parts between separators that are not empty. *)
Fixpoint parts (cur l : list Z) : list (list Z) :=
  match l with
  | [] => [cur]
  | x :: l => if is_sep x then cur :: parts [] l else parts (cur ++ [x]) l
  end.
Definition words (l : list Z) : list (list Z) := filter (fun s => s <> []) (parts [] l).
Definition newlines (l : list Z) : nat := length (filter (fun x => x = NEWLINE) l).

Lemma i32_nat n : Z.of_nat n < 2 ^ 31 -> i32 (Z.of_nat n) = Z.of_nat n.
Proof. intros. apply i32_id. lia. Qed.

Lemma newlines_cons x l : newlines (x :: l) = ((if decide (x = NEWLINE) then 1 else 0) + newlines l)%nat.
Proof. unfold newlines. rewrite filter_cons. by case_decide. Qed.

(** The counts from a state inside the word [cur], or outside when it is empty. *)
Lemma wc_fold l : forall (a b n : nat) cur, Z.of_nat (n + length l) < 2 ^ 31 -> (a <= n)%nat -> (b <= n)%nat -> exists k,
  foldl wc_char (mkcounts (Z.of_nat a) (Z.of_nat b) (Z.of_nat n) (negb (bool_decide (cur = [])))) l =
  mkcounts (Z.of_nat (a + newlines l))
    (Z.of_nat b + Z.of_nat (length (filter (fun s => s <> []) (parts cur l))) - (if decide (cur = []) then 0 else 1))
    (Z.of_nat (n + length l)) k.
Proof.
  induction l as [|x l IH]; intros a b n cur Hb Ha Hw; cbn [foldl parts].
  { eexists. unfold newlines. rewrite filter_nil, filter_cons, filter_nil. simpl length. rewrite !Nat.add_0_r.
    destruct (decide (cur = [])) as [->|]; [rewrite decide_False by tauto|rewrite decide_True by done]; simpl length;
    rewrite ?Z.add_0_r, ?Z.sub_0_r, ?Z.add_simpl_r; reflexivity. }
  simpl length in Hb. rewrite newlines_cons. unfold wc_char at 2. cbn [wc_c wc_l wc_w wc_inword].
  assert (En : forall m : nat, (m <= n)%nat -> i32 (Z.of_nat m + 1) = Z.of_nat (S m)).
  { intros m Hm. replace (Z.of_nat m + 1) with (Z.of_nat (S m)) by lia. apply i32_nat. lia. }
  rewrite (En n) by lia. assert (El : (if x =? NEWLINE then i32 (Z.of_nat a + 1) else Z.of_nat a) = Z.of_nat ((if decide (x = NEWLINE) then 1 else 0) + a)).
  { destruct (Z.eqb_spec x NEWLINE); [rewrite decide_True by done|by rewrite decide_False by done]. by rewrite En. }
  rewrite El. destruct (is_sep x) eqn:Hx.
  - destruct (IH ((if decide (x = NEWLINE) then 1 else 0) + a)%nat b (S n) []) as [k E]; [lia|case_decide; lia|lia|].
    exists k. rewrite bool_decide_true in E by done. simpl negb in E. rewrite E. rewrite filter_cons.
    rewrite (decide_True (P := @nil Z = [])) by done. destruct (decide (cur = [])) as [->|]; [rewrite (decide_False (P := @nil Z <> [])) by tauto|rewrite (decide_True (P := cur <> [])) by done];
      simpl length; f_equal; lia.
  - assert (Hne : cur ++ [x] <> []) by (by destruct cur).
    assert (x <> NEWLINE) by (intros ->; by vm_compute in Hx). rewrite decide_False by done. cbn [Nat.add].
    destruct (decide (cur = [])) as [->|Hc].
    + rewrite bool_decide_true by done. cbn [negb]. rewrite (En b) by lia.
      destruct (IH a (S b) (S n) [x]) as [k E]; [lia..|]. exists k. simpl negb in E. simpl app in *. rewrite E. rewrite decide_False by done. f_equal; simpl length; lia.
    + rewrite bool_decide_false by done. cbn [negb].
      destruct (IH a b (S n) (cur ++ [x])) as [k E]; [lia..|]. exists k. rewrite bool_decide_false in E by done. cbn [negb] in E. rewrite E.
      rewrite decide_False by done. f_equal; simpl length; lia.
Qed.

Lemma wc_loop_spec fuel : forall s pieces, (length (mjoin pieces) < fuel)%nat -> Forall (fun c => c <> []) pieces ->
  wc_loop fuel s pieces = Some (foldl wc_char s (mjoin pieces)).
Proof.
  induction fuel as [|fuel IH]; intros s pieces Hf Hp; [lia|]. cbn [wc_loop]. destruct pieces as [|c cs]; [done|]. cbn [read].
  apply Forall_cons in Hp as [Hc Hcs]. rewrite (read_join 512) in Hf |- *. set (r := match drop 512 c with [] => cs | c' => c' :: cs end) in *.
  rewrite foldl_app. destruct (take 512 c) as [|x t] eqn:T; [by destruct c|]. apply IH.
  - rewrite length_app in Hf. simpl in Hf. lia.
  - unfold r. destruct (drop 512 c); [done|by constructor].
Qed.

(** [wc] counts lines, words and characters: whatever pieces the reads
    return, it prints the number of newlines, of parts between separators that
    are not empty, and of bytes of its input, as long as an [int] holds them. *)
Theorem wc_correct name pieces : Forall (fun c => c <> []) pieces -> Z.of_nat (length (mjoin pieces)) < 2 ^ 31 ->
  let text := mjoin pieces in
  wc (S (length text)) name pieces =
  printf (S (length name)) (mem_of (0 :: name)) (chars "%d %d %d %s" ++ [10])
    [Z.of_nat (newlines text); Z.of_nat (length (words text)); Z.of_nat (length text); 1].
Proof.
  intros Hp Hb text. unfold wc. rewrite wc_loop_spec by (done || (unfold text; lia)). cbn [mbind option_bind].
  destruct (wc_fold text 0 0 0 []) as [k E]; [done|lia|lia|]. change (mkcounts (Z.of_nat 0) (Z.of_nat 0) (Z.of_nat 0) (negb (bool_decide ([] = []))))
    with (mkcounts 0 0 0 false) in E. fold text. rewrite E. cbn [wc_l wc_w wc_c]. rewrite decide_True by done.
  unfold words. by rewrite Z.sub_0_r.
Qed.
Lemma wc_correct_witness : wc 8 (chars "f") [chars "a bc"; [10] ++ chars " d"] = Some (chars "1 3 7 f" ++ [10]).
Proof.
  etransitivity; [apply (wc_correct (chars "f") [chars "a bc"; [10] ++ chars " d"])|].
  - by repeat constructor.
  - done.
  - by vm_compute.
Defined.
