(* ===== verification/Sh.v ===== *)
(** * The shell's parser: [sh.c]

    A command line is the list of its characters before the NUL, and a string
    of the parse tree is a pair of positions in it, as the pointers [q] and
    [eq] of the code.  The parser's state is the position [*ps].  [panic] ends
    the process, so it is the monad's [Panic].  Loops and recursion are bounded
    by fuel; [parsecmd] gives them enough for its line ([parsecmd_total]).

    [nulterminate] writes a NUL at the end of every string into the line the
    strings share; [cstring] reads a string back. *)

From S2P Require Import Prelude CString Printf.

Definition MAXARGS : nat := 10.
Definition O_RDONLY : Z := 0x000.
Definition O_WRONLY : Z := 0x001.
Definition O_CREATE : Z := 0x200.

(** The commands, over the type of their strings. *)
Inductive cmd (T : Type) :=
| EXEC (argv : list T)
| REDIR (c : cmd T) (file : T) (mode fd : Z)
| PIPE (left right : cmd T)
| LIST (left right : cmd T)
| BACK (c : cmd T).
Arguments EXEC {T} _.
Arguments REDIR {T} _ _ _ _.
Arguments PIPE {T} _ _.
Arguments LIST {T} _ _.
Arguments BACK {T} _.

(** A string of the line, from [q] to [eq]. *)
Definition tok : Type := nat * nat.

Definition is_white (c : Z) : bool := bool_decide (c ∈ [32; 9; 13; 10; 11]).
Definition is_symbol (c : Z) : bool := bool_decide (c ∈ [60; 124; 62; 38; 59; 40; 41]).

(** [cmd->argv] of the [execcmd] at the bottom of the redirections [ret]. *)
Fixpoint set_argv (argv : list tok) (ret : cmd tok) : cmd tok :=
  match ret with
  | REDIR c f m fd => REDIR (set_argv argv c) f m fd
  | EXEC _ => EXEC argv
  | c => c
  end.

Section parse.
Context (buf : list Z).

Abbreviation P := (KM nat).
Definition es : nat := length buf.
Definition char_at (s : nat) : Z := nth s buf 0.

Fixpoint skip (p : Z -> bool) (n s : nat) : nat :=
  match n with
  | O => s
  | S n => if p (char_at s) then skip p n (S s) else s
  end.
Definition skip_white (s : nat) : nat := skip is_white (es - s) s.
Definition skip_word (s : nat) : nat := skip (fun c => negb (is_white c) && negb (is_symbol c)) (es - s) s.

Definition gettoken : P (Z * tok) :=
  s ← kget;
  let q := skip_white s in
  let c := char_at q in
  let '(ret, s) :=
    if c =? 0 then (c, q)
    else if bool_decide (c ∈ [124; 40; 41; 59; 38; 60]) then (c, S q)
    else if c =? 62 then (if char_at (S q) =? 62 then (43, S (S q)) else (c, S q))
    else (97, skip_word q) in
  kput (skip_white s);;
  mret (ret, (q, s)).

Definition peek (toks : list Z) : P bool :=
  s ← kget;
  let s := skip_white s in
  kput s;;
  mret (negb (char_at s =? 0) && bool_decide (char_at s ∈ toks)).

Fixpoint parseredirs (fuel : nat) (c : cmd tok) : P (cmd tok) :=
  match fuel with
  | O => fault "parseredirs"
  | S fuel =>
      b ← peek [60; 62];
      if (b : bool) then
        t ← gettoken;
        f ← gettoken;
        if negb (f.1 =? 97) then panic "missing file for redirection" else
        parseredirs fuel
          (if t.1 =? 60 then REDIR c f.2 O_RDONLY 0
           else REDIR c f.2 (Z.lor O_WRONLY O_CREATE) 1)
      else mret c
  end.

(** The loop of [parseexec]. *)
Fixpoint parse_args (fuel : nat) (argv : list tok) (ret : cmd tok) : P (cmd tok) :=
  match fuel with
  | O => fault "parseexec"
  | S fuel =>
      b ← peek [124; 41; 38; 59];
      if (b : bool) then mret (set_argv argv ret) else
      t ← gettoken;
      if t.1 =? 0 then mret (set_argv argv ret) else
      if negb (t.1 =? 97) then panic "syntax" else
      let argv := argv ++ [t.2] in
      if Nat.leb MAXARGS (length argv) then panic "too many args" else
      ret ← parseredirs (S es) ret;
      parse_args fuel argv ret
  end.

(** The loop of [parseline] over [&]. *)
Fixpoint parse_back (fuel : nat) (c : cmd tok) : P (cmd tok) :=
  match fuel with
  | O => fault "parseline"
  | S fuel =>
      b ← peek [38];
      if (b : bool) then gettoken;; parse_back fuel (BACK c) else mret c
  end.

Definition parseblock (parseline : P (cmd tok)) : P (cmd tok) :=
  b ← peek [40];
  if negb (b : bool) then panic "parseblock" else
  gettoken;;
  c ← parseline;
  b ← peek [41];
  if negb (b : bool) then panic "syntax - missing )" else
  gettoken;;
  parseredirs (S es) c.

Definition parseexec (parseline : P (cmd tok)) : P (cmd tok) :=
  b ← peek [40];
  if (b : bool) then parseblock parseline else
  ret ← parseredirs (S es) (EXEC []);
  parse_args (S es) [] ret.

Fixpoint parsepipe (fuel : nat) (parseline : P (cmd tok)) : P (cmd tok) :=
  match fuel with
  | O => fault "parsepipe"
  | S fuel =>
      c ← parseexec parseline;
      b ← peek [124];
      if (b : bool) then
        gettoken;;
        r ← parsepipe fuel parseline;
        mret (PIPE c r)
      else mret c
  end.

Fixpoint parseline (fuel : nat) : P (cmd tok) :=
  match fuel with
  | O => fault "parseline"
  | S fuel =>
      c ← parsepipe (S es) (parseline fuel);
      c ← parse_back (S es) c;
      b ← peek [59];
      if (b : bool) then
        gettoken;;
        r ← parseline fuel;
        mret (LIST c r)
      else mret c
  end.
End parse.

(** [*p = 0], at a position of the line or at its end. *)
Definition put_nul (p : nat) (buf : list Z) : list Z := <[p := 0]> buf.
Fixpoint nulterminate (c : cmd tok) (buf : list Z) : list Z :=
  match c with
  | EXEC argv => foldl (fun b t => put_nul t.2 b) buf argv
  | REDIR c file _ _ => put_nul file.2 (nulterminate c buf)
  | PIPE l r => nulterminate r (nulterminate l buf)
  | LIST l r => nulterminate r (nulterminate l buf)
  | BACK c => nulterminate c buf
  end.

(** The command and the line its strings point into. *)
Definition parsecmd (buf : list Z) : KM nat (cmd tok * list Z) :=
  kput 0%nat;;
  c ← parseline buf (S (es buf));
  peek buf [];;
  s ← kget;
  if decide (s <> es buf) then panic "syntax" else
  mret (c, nulterminate c buf).

(** The string that starts at [q]. *)
Fixpoint before_nul (l : list Z) : list Z :=
  match l with
  | [] => []
  | c :: l => if c =? 0 then [] else c :: before_nul l
  end.
Definition cstring (buf : list Z) (q : nat) : list Z := before_nul (drop q buf).

(** ** Runs that end, or panic *)

Definition safe {A} (m : KM nat A) (s : nat) (Q : A -> nat -> Prop) : Prop :=
  match m s with Done a s' => Q a s' | Panic _ => True | _ => False end.

Section safe_rules.
Lemma safe_ret {A} (a : A) s (Q : A -> nat -> Prop) : Q a s -> safe (mret a) s Q.
Proof. done. Qed.
Lemma safe_bind {A B} (m : KM nat A) (f : A -> KM nat B) s Q :
  safe m s (fun a s' => safe (f a) s' Q) -> safe (m ≫= f) s Q.
Proof. unfold safe, mbind, km_bind. by destruct (m s). Qed.
Lemma safe_mono {A} (m : KM nat A) s (P Q : A -> nat -> Prop) : safe m s P -> (forall a s', P a s' -> Q a s') -> safe m s Q.
Proof. unfold safe. destruct (m s); naive_solver. Qed.
Lemma safe_panic {A} e s (Q : A -> nat -> Prop) : safe (panic e) s Q.
Proof. done. Qed.
Lemma safe_get s (Q : nat -> nat -> Prop) : Q s s -> safe kget s Q.
Proof. done. Qed.
Lemma safe_put s0 s (Q : unit -> nat -> Prop) : Q tt s0 -> safe (kput s0) s Q.
Proof. done. Qed.
End safe_rules.
#[local] Hint Resolve safe_panic : core.

Fixpoint strings {T} (c : cmd T) : list T :=
  match c with
  | EXEC argv => argv
  | REDIR c f _ _ => strings c ++ [f]
  | PIPE l r => strings l ++ strings r
  | LIST l r => strings l ++ strings r
  | BACK c => strings c
  end.

(** The [execcmd] a chain of redirections ends in. *)
Fixpoint chain (c : cmd tok) : Prop :=
  match c with EXEC _ => True | REDIR c _ _ _ => chain c | _ => False end.

Definition is_word (c : Z) : bool := negb (c =? 0) && negb (is_white c) && negb (is_symbol c).

Section tokens.
Context (buf : list Z) (no_nul : Forall (fun c => c <> 0) buf).
Abbreviation es := (es buf).
Abbreviation char_at := (char_at buf).

Lemma char_in s : (s < es)%nat -> char_at s <> 0.
Proof.
  intros Hs. unfold char_at. rewrite Forall_forall in no_nul. apply no_nul.
  rewrite list_elem_of_In. by apply nth_In.
Qed.
Lemma char_end : char_at es = 0.
Proof. apply nth_overflow. unfold Sh.es. lia. Qed.

Lemma skip_spec p n : forall s, let e := skip buf p n s in
  (s <= e <= s + n)%nat /\ (forall i, (s <= i < e)%nat -> p (char_at i) = true) /\ ((e < s + n)%nat -> p (char_at e) = false).
Proof.
  induction n as [|n IH]; intros s; simpl; [split_and!; intros; lia|].
  destruct (p (char_at s)) eqn:E; [|split_and!; intros; (lia || done)].
  destruct (IH (S s)) as (H1 & H2 & H3). split_and!; [lia|lia| |intros; apply H3; lia].
  intros i Hi. destruct (decide (i = s)) as [->|]; [done|]. apply H2. lia.
Qed.
Lemma skip_white_spec s : (s <= es)%nat -> let e := skip_white buf s in
  (s <= e <= es)%nat /\ ((e < es)%nat -> is_white (char_at e) = false).
Proof.
  intros Hs. destruct (skip_spec is_white (es - s) s) as (H1 & _ & H3). unfold skip_white. split; [lia|]. intros. apply H3. lia.
Qed.

(** A string of the parse tree: a maximal run of word characters. *)
Definition good_tok (t : tok) : Prop :=
  (t.1 < t.2 <= es)%nat /\ (forall i, (t.1 <= i < t.2)%nat -> is_word (char_at i) = true) /\ is_word (char_at t.2) = false.
Definition good (c : cmd tok) : Prop := Forall good_tok (strings c).

Lemma gettoken_safe s : (s <= es)%nat -> safe (gettoken buf) s (fun t s' =>
  (s <= s' <= es)%nat /\ (t.1 <> 0 -> (s < s')%nat) /\ (t.1 = 97 -> good_tok t.2) /\ (char_at s <> 0 -> is_white (char_at s) = false -> t.1 <> 0)).
Proof.
  intros Hs. unfold gettoken. apply safe_bind, safe_get. cbv zeta. destruct (skip_white_spec s Hs) as [Hq Hw]. set (q := skip_white buf s) in *.
  assert (Hq0 : char_at s <> 0 -> is_white (char_at s) = false -> q = s).
  { intros H0 H1. unfold q, skip_white. destruct (es - s)%nat eqn:E; [done|]. simpl. by rewrite H1. }
  assert (Hend : forall e, (q <= e <= es)%nat -> (s <= skip_white buf e <= es)%nat /\ (e <= skip_white buf e)%nat).
  { intros e He. destruct (skip_white_spec e) as [H1 _]; lia. }
  destruct (Z.eqb_spec (char_at q) 0) as [E0|E0].
  { apply safe_bind, safe_put, safe_ret. destruct (Hend q); [lia|]. simpl. rewrite E0. split_and!; [lia|lia|done|done|].
    intros G0 G1. rewrite (Hq0 G0 G1) in E0. done. }
  assert (Hlt : (q < es)%nat) by (destruct (decide (q = es)) as [E|]; [by rewrite E, char_end in E0|lia]).
  case_bool_decide as Hsym.
  { apply safe_bind, safe_put, safe_ret. destruct (Hend (S q)); [lia|]. simpl. split_and!; [lia|lia|lia| |done].
    intros E. rewrite E in Hsym. set_solver. }
  destruct (Z.eqb_spec (char_at q) 62) as [E62|E62].
  { destruct (Z.eqb_spec (char_at (S q)) 62) as [E1|E1]; apply safe_bind, safe_put, safe_ret; simpl.
    - assert (S q < es)%nat by (destruct (decide (S q = es)) as [E|]; [by rewrite E, char_end in E1|lia]).
      destruct (Hend (S (S q))); [lia|]. split_and!; [lia|lia|lia|done|done].
    - destruct (Hend (S q)); [lia|]. split_and!; [lia|lia|lia|by rewrite E62|done]. }
  apply safe_bind, safe_put, safe_ret. simpl.
  destruct (skip_spec (fun c => negb (is_white c) && negb (is_symbol c)) (es - q) q) as (H1 & H2 & H3). fold (skip_word buf q) in H1, H2, H3.
  assert (Hns : is_symbol (char_at q) = false) by (apply bool_decide_eq_false; set_solver).
  assert (q < skip_word buf q)%nat.
  { destruct (decide (skip_word buf q = q)) as [E|]; [|lia]. rewrite E in H3. rewrite Hw, Hns in H3 by done. specialize (H3 ltac:(lia)). done. }
  destruct (Hend (skip_word buf q)); [lia|]. split_and!; [lia|lia|lia| |done]. intros _. split_and!; simpl; [lia|lia| |].
  - intros i Hi. unfold is_word. rewrite <- andb_assoc, H2 by lia. rewrite (proj2 (Z.eqb_neq _ _)); [done|]. apply char_in. lia.
  - unfold is_word. destruct (decide (skip_word buf q = es)) as [->|]; [by rewrite char_end|].
    rewrite <- andb_assoc, H3 by lia. apply andb_false_r.
Qed.

Lemma peek_safe toks s : (s <= es)%nat -> safe (peek buf toks) s (fun b s' =>
  (s <= s' <= es)%nat /\ (b = true -> char_at s' <> 0 /\ is_white (char_at s') = false /\ char_at s' ∈ toks)).
Proof.
  intros Hs. destruct (skip_white_spec s Hs) as [Hq Hw]. unfold peek. apply safe_bind, safe_get, safe_bind, safe_put, safe_ret.
  split; [done|]. intros [H0 H1]%andb_prop. apply bool_decide_eq_true in H1. apply negb_true_iff, Z.eqb_neq in H0.
  split_and!; [done| |done]. apply Hw. destruct (decide (skip_white buf s = es)) as [E|]; [by rewrite E, char_end in H0|lia].
Qed.

(** After a successful [peek] the token moves on. *)
Lemma next_safe (toks : list Z) s (Q : Z * tok -> nat -> Prop) : (s <= es)%nat -> char_at s <> 0 /\ is_white (char_at s) = false /\ char_at s ∈ toks ->
  (forall t s', (s < s' <= es)%nat -> Q t s') -> safe (gettoken buf) s Q.
Proof.
  intros Hs (H0 & H1 & _) HQ. eapply safe_mono; [by apply gettoken_safe|]. intros t s' (Hle & Hp & _ & Hn). apply HQ.
  specialize (Hp (Hn H0 H1)). lia.
Qed.

Definition grows (s : nat) (c : cmd tok) (s' : nat) : Prop := (s <= s' <= es)%nat /\ good c.

Lemma good_redir c f m fd : good c -> good_tok f -> good (REDIR c f m fd).
Proof. intros Hc Hf. apply Forall_app. split; [done|by apply Forall_singleton]. Qed.
Lemma chain_argv argv c : chain c -> Forall good_tok argv -> good c -> good (set_argv argv c).
Proof.
  induction c; simpl; try done. intros Hc Ha [Hs Hf]%Forall_app. apply Forall_app. split; [by apply IHc|done].
Qed.

Lemma parseredirs_safe fuel : forall s c, (s <= es)%nat -> (es - s < fuel)%nat -> good c ->
  safe (parseredirs buf fuel c) s (fun c' s' => grows s c' s' /\ (chain c -> chain c')).
Proof.
  induction fuel as [|fuel IH]; intros s c Hs Hf Hc; [lia|]. cbn [parseredirs]. apply safe_bind.
  eapply safe_mono; [by apply peek_safe|]. intros [|] s1 [H1 Hp]; [|apply safe_ret; repeat split; (lia || done)].
  apply safe_bind. eapply next_safe; [lia|by apply Hp|]. intros t s2 H2. apply safe_bind.
  eapply safe_mono; [apply gettoken_safe; lia|]. intros f s3 (H3 & _ & Hg & _). destruct (Z.eqb_spec f.1 97) as [E|]; [|apply safe_panic]. cbn [negb].
  assert (Hr : forall m fd, safe (parseredirs buf fuel (REDIR c f.2 m fd)) s3 (fun c' s' => grows s c' s' /\ (chain c -> chain c'))).
  { intros m fd. eapply safe_mono; [apply IH; [lia|lia|by apply good_redir; [|apply Hg]]|]. intros c' s' [[? ?] ?]. repeat split; (lia || done). }
  by destruct (t.1 =? 60).
Qed.

Lemma parse_args_safe fuel : forall s argv c, (s <= es)%nat -> (es - s < fuel)%nat -> chain c -> good c -> Forall good_tok argv ->
  safe (parse_args buf fuel argv c) s (grows s).
Proof.
  induction fuel as [|fuel IH]; intros s argv c Hs Hf Hch Hc Ha; [lia|]. cbn [parse_args]. apply safe_bind.
  eapply safe_mono; [by apply peek_safe|]. intros [|] s1 [H1 _].
  { apply safe_ret. split; [lia|by apply chain_argv]. }
  apply safe_bind. eapply safe_mono; [apply gettoken_safe; lia|]. intros t s2 (H2 & Hlt & Hg & _).
  destruct (Z.eqb_spec t.1 0) as [E0|E0]; [apply safe_ret; split; [lia|by apply chain_argv]|].
  destruct (Z.eqb_spec t.1 97) as [E|]; [|apply safe_panic]. cbn [negb]. destruct (Nat.leb _ _); [apply safe_panic|]. apply safe_bind.
  eapply safe_mono; [apply parseredirs_safe; [lia|lia|done]|]. intros c' s3 [[H3 Hc'] Hch'].
  eapply safe_mono; [apply IH; [lia|specialize (Hlt E0); lia|by apply Hch'|done|]|].
  - apply Forall_app. split; [done|]. apply Forall_singleton. by apply Hg.
  - intros c2 s4 [? ?]. split; [lia|done].
Qed.

Lemma parse_back_safe fuel : forall s c, (s <= es)%nat -> (es - s < fuel)%nat -> good c -> safe (parse_back buf fuel c) s (grows s).
Proof.
  induction fuel as [|fuel IH]; intros s c Hs Hf Hc; [lia|]. cbn [parse_back]. apply safe_bind.
  eapply safe_mono; [by apply peek_safe|]. intros [|] s1 [H1 Hp]; [|apply safe_ret; split; (lia || done)].
  apply safe_bind. eapply next_safe; [lia|by apply Hp|]. intros t s2 H2.
  eapply safe_mono; [apply IH; [lia|lia|done]|]. intros c' s' [? ?]. split; [lia|done].
Qed.

Section with_line.
Context (pl : KM nat (cmd tok)) (s0 : nat) (Hpl : forall s, (s0 < s <= es)%nat -> safe pl s (grows s)).

Lemma parseexec_safe s : (s0 <= s <= es)%nat -> safe (parseexec buf pl) s (grows s).
Proof.
  intros Hs. unfold parseexec. apply safe_bind. eapply safe_mono; [apply peek_safe; lia|]. intros [|] s1 [H1 Hp].
  - unfold parseblock. apply safe_bind. eapply safe_mono; [apply peek_safe; lia|]. intros [|] s2 [H2 Hp2]; [|apply safe_panic]. cbn [negb].
    apply safe_bind. eapply next_safe; [lia|by apply Hp2|]. intros t s3 H3. apply safe_bind.
    eapply safe_mono; [apply Hpl; lia|]. intros c s4 [H4 Hc]. apply safe_bind.
    eapply safe_mono; [apply peek_safe; lia|]. intros [|] s5 [H5 Hp5]; [|apply safe_panic]. cbn [negb].
    apply safe_bind. eapply next_safe; [lia|by apply Hp5|]. intros t' s6 H6.
    eapply safe_mono; [apply parseredirs_safe; [lia|lia|done]|]. intros c' s7 [[? ?] _]. split; [lia|done].
  - apply safe_bind. eapply safe_mono; [apply parseredirs_safe; [lia|lia|by constructor]|]. intros c s2 [[H2 Hc] Hch].
    eapply safe_mono; [apply parse_args_safe; [lia|lia|by apply Hch|done|by constructor]|]. intros c' s3 [? ?]. split; [lia|done].
Qed.

Lemma parsepipe_safe fuel : forall s, (s0 <= s <= es)%nat -> (es - s < fuel)%nat -> safe (parsepipe buf fuel pl) s (grows s).
Proof.
  induction fuel as [|fuel IH]; intros s Hs Hf; [lia|]. cbn [parsepipe]. apply safe_bind.
  eapply safe_mono; [by apply parseexec_safe|]. intros c s1 [H1 Hc]. apply safe_bind.
  eapply safe_mono; [apply peek_safe; lia|]. intros [|] s2 [H2 Hp]; [|apply safe_ret; split; (lia || done)].
  apply safe_bind. eapply next_safe; [lia|by apply Hp|]. intros t s3 H3. apply safe_bind.
  eapply safe_mono; [apply IH; lia|]. intros r s4 [H4 Hr]. apply safe_ret. split; [lia|]. by apply Forall_app.
Qed.
End with_line.

Lemma parseline_safe fuel : forall s, (s <= es)%nat -> (es - s < fuel)%nat -> safe (parseline buf fuel) s (grows s).
Proof.
  induction fuel as [|fuel IH]; intros s Hs Hf; [lia|]. cbn [parseline]. apply safe_bind.
  eapply safe_mono; [apply (parsepipe_safe _ s); [intros; apply IH; lia|lia|lia]|]. intros c s1 [H1 Hc]. apply safe_bind.
  eapply safe_mono; [apply parse_back_safe; [lia|lia|done]|]. intros c' s2 [H2 Hc']. apply safe_bind.
  eapply safe_mono; [apply peek_safe; lia|]. intros [|] s3 [H3 Hp]; [|apply safe_ret; split; (lia || done)].
  apply safe_bind. eapply next_safe; [lia|by apply Hp|]. intros t s4 H4. apply safe_bind.
  eapply safe_mono; [apply IH; lia|]. intros r s5 [H5 Hr]. apply safe_ret. split; [lia|]. by apply Forall_app.
Qed.

(** ** The strings after [nulterminate] *)

Lemma put_nul_other p l i : i <> p -> nth i (put_nul p l) 0 = nth i l 0.
Proof. intros H. rewrite !nth_lookup. unfold put_nul. by rewrite list_lookup_insert_ne. Qed.
Lemma put_nul_at p l : nth p (put_nul p l) 0 = 0.
Proof.
  rewrite nth_lookup. unfold put_nul. destruct (decide (p < length l)%nat); [by rewrite list_lookup_insert_eq|].
  by rewrite lookup_ge_None_2 by (rewrite length_insert; lia).
Qed.
Lemma put_nuls ts : forall l i, nth i (foldl (fun b (t : tok) => put_nul t.2 b) l ts) 0 =
  if decide (i ∈ ts.*2) then 0 else nth i l 0.
Proof.
  induction ts as [|t ts IH]; intros l i; cbn [foldl]; [by rewrite decide_False by (simpl; set_solver)|].
  rewrite IH. simpl. destruct (decide (i ∈ ts.*2)); [by rewrite decide_True by set_solver|].
  destruct (decide (i = t.2)) as [->|]; [rewrite put_nul_at; by rewrite decide_True by set_solver|].
  rewrite put_nul_other by done. by rewrite decide_False by set_solver.
Qed.
Lemma nulterminate_spec c : forall l i, nth i (nulterminate c l) 0 = if decide (i ∈ (strings c).*2) then 0 else nth i l 0.
Proof.
  induction c as [argv|c IH f m fd|c1 IH1 c2 IH2|c1 IH1 c2 IH2|c IH]; intros l i; cbn [nulterminate strings]; [apply put_nuls| | | |apply IH].
  - rewrite fmap_app. simpl. destruct (decide (i = f.2)) as [->|].
    + rewrite put_nul_at. by rewrite decide_True by set_solver.
    + rewrite put_nul_other, IH by done. destruct (decide (i ∈ (strings c).*2)); [by rewrite decide_True by set_solver|].
      by rewrite decide_False by set_solver.
  - rewrite fmap_app, IH2, IH1. by repeat case_decide; try done; exfalso; set_solver.
  - rewrite fmap_app, IH2, IH1. by repeat case_decide; try done; exfalso; set_solver.
Qed.

Lemma before_nul_spec l : forall n, (forall i, (i < n)%nat -> nth i l 0 <> 0) -> nth n l 0 = 0 -> before_nul l = take n l.
Proof.
  induction l as [|c l IH]; intros n Hi Hn; [by rewrite take_nil|]. simpl. destruct n as [|n].
  - simpl in Hn. by rewrite Hn.
  - rewrite (proj2 (Z.eqb_neq c 0)) by (by apply (Hi 0%nat); lia). simpl. f_equal. apply IH; [|done].
    intros i Hlt. apply (Hi (S i)). lia.
Qed.

(** The text of a string of the tree. *)
Definition text (t : tok) : list Z := take (t.2 - t.1) (drop t.1 buf).

Lemma word_nonzero c : is_word c = true -> c <> 0.
Proof. unfold is_word. destruct (Z.eqb_spec c 0); [done|]. done. Qed.

Lemma length_nulterminate c : forall l, length (nulterminate c l) = length l.
Proof.
  induction c as [argv|c IH f m fd|c1 IH1 c2 IH2|c1 IH1 c2 IH2|c IH]; intros l; cbn [nulterminate]; [|unfold put_nul; by rewrite length_insert|by rewrite IH2..|done].
  revert l. induction argv as [|t argv IH]; intros l; cbn [foldl]; [done|]. rewrite IH. apply length_insert.
Qed.
Lemma lookup_nth l i : (i < length l)%nat -> l !! i = Some (nth i l 0).
Proof. intros H. destruct (lookup_lt_is_Some_2 _ _ H) as [x Hx]. by rewrite nth_lookup, Hx. Qed.

Lemma string_kept c t : good c -> t ∈ strings c -> cstring (nulterminate c buf) t.1 = text t.
Proof.
  intros Hc Ht. pose proof (proj1 (Forall_forall _ _) Hc t Ht) as (Hr & Hw & _). unfold Sh.es in Hr.
  assert (Hin : forall i, (t.1 <= i < t.2)%nat -> nth i (nulterminate c buf) 0 = nth i buf 0).
  { intros i Hi. rewrite nulterminate_spec, decide_False; [done|]. intros (u & -> & Hu)%list_elem_of_fmap.
    pose proof (proj1 (Forall_forall _ _) Hc u Hu) as (_ & _ & Hn). by rewrite Hw in Hn. }
  unfold cstring, text. assert (Hnth : forall i, nth i (drop t.1 (nulterminate c buf)) 0 = nth (t.1 + i) (nulterminate c buf) 0).
  { intros i. by rewrite !nth_lookup, lookup_drop. }
  rewrite (before_nul_spec _ (t.2 - t.1)).
  - apply list_eq. intros i. destruct (decide (i < t.2 - t.1)%nat); [|by rewrite !lookup_take_ge by lia].
    rewrite !lookup_take_lt, !lookup_drop by done. rewrite !lookup_nth by (rewrite ?length_nulterminate; lia). f_equal. apply Hin. lia.
  - intros i Hi. rewrite Hnth, Hin by lia. apply word_nonzero, Hw. lia.
  - rewrite Hnth, nulterminate_spec. replace (t.1 + (t.2 - t.1))%nat with t.2 by lia.
    by rewrite decide_True by (apply list_elem_of_fmap; eauto).
Qed.
End tokens.

(** The parser handles every command line: it never loops, and either
    panics or returns a command.  The strings of the command are then, after
    the NULs [nulterminate] wrote into the shared line, exactly the words of
    the line between their pointers, and each is a maximal run of characters
    that are neither white space nor symbols. *)
Theorem parsecmd_total buf : Forall (fun c => c <> 0) buf ->
  safe (parsecmd buf) 0%nat (fun r s => s = es buf /\
    Forall (fun t => good_tok buf t /\ cstring r.2 t.1 = text buf t) (strings r.1)).
Proof.
  intros Hn. unfold parsecmd. apply safe_bind, safe_put, safe_bind.
  eapply safe_mono; [apply parseline_safe; [done|lia|lia]|]. intros c s1 [H1 Hc]. apply safe_bind.
  eapply safe_mono; [apply peek_safe; lia|]. intros b s2 [H2 _]. apply safe_bind, safe_get.
  case_decide as Hd; [apply safe_panic|]. apply safe_ret. split; [lia|]. simpl.
  apply Forall_forall. intros t Ht. split; [by eapply Forall_forall in Hc|by apply string_kept].
Qed.
Lemma parsecmd_total_witness : safe (parsecmd (chars "ls -l | wc")) 0%nat (fun r _ =>
  Forall (fun t => good_tok (chars "ls -l | wc") t) (strings r.1)).
Proof.
  eapply safe_mono; [apply (parsecmd_total (chars "ls -l | wc")); by repeat constructor|].
  intros r s [_ H]. eapply Forall_impl; [exact H|]. by intros t [? _].
Defined.

(** ** Printing commands *)

Fixpoint cmd_map {T U} (f : T -> U) (c : cmd T) : cmd U :=
  match c with
  | EXEC argv => EXEC (f <$> argv)
  | REDIR c x m fd => REDIR (cmd_map f c) (f x) m fd
  | PIPE l r => PIPE (cmd_map f l) (cmd_map f r)
  | LIST l r => LIST (cmd_map f l) (cmd_map f r)
  | BACK c => BACK (cmd_map f c)
  end.

Inductive token := TWord (w : list Z) | TSym (c : Z).
Definition tok_text (t : token) : list Z := match t with TWord w => w | TSym c => [c] end.
Definition tok_kind (t : token) : Z := match t with TWord _ => 97 | TSym c => c end.
Definition print_tokens (ts : list token) : list Z := mjoin ((fun t => tok_text t ++ [32]) <$> ts).
Definition redir_sym (mode : Z) : Z := if mode =? O_RDONLY then 60 else 62.

(** Where a command stands: on a line, before [&], in a pipeline, in a command. *)
Inductive level := LLine | LBack | LPipe | LExec.
Definition paren (ts : list token) : list token := [TSym 40] ++ ts ++ [TSym 41].
Fixpoint show (lv : level) (c : cmd (list Z)) : list token :=
  match c with
  | EXEC argv => TWord <$> argv
  | REDIR c f mode _ => show LExec c ++ [TSym (redir_sym mode); TWord f]
  | PIPE l r =>
      let ts := show LExec l ++ [TSym 124] ++ show LPipe r in
      match lv with LExec => paren ts | _ => ts end
  | LIST l r =>
      let ts := show LBack l ++ [TSym 59] ++ show LLine r in
      match lv with LLine => ts | _ => paren ts end
  | BACK c =>
      let ts := show LBack c ++ [TSym 38] in
      match lv with LLine | LBack => ts | _ => paren ts end
  end.
Definition print (c : cmd (list Z)) : list Z := print_tokens (show LLine c).

(** Commands the syntax can express. *)
Definition wf_word (w : list Z) : Prop := w <> [] /\ Forall (fun c => is_word c = true) w.
Definition wf_redir (mode fd : Z) : Prop := (mode = O_RDONLY /\ fd = 0) \/ (mode = Z.lor O_WRONLY O_CREATE /\ fd = 1).
Fixpoint wf_cmd (c : cmd (list Z)) : Prop :=
  match c with
  | EXEC argv => (length argv < MAXARGS)%nat /\ Forall wf_word argv
  | REDIR c f m fd => wf_cmd c /\ wf_word f /\ wf_redir m fd
  | PIPE l r => wf_cmd l /\ wf_cmd r
  | LIST l r => wf_cmd l /\ wf_cmd r
  | BACK c => wf_cmd c
  end.

Definition wf_token (t : token) : Prop :=
  match t with TWord w => wf_word w | TSym c => c ∈ [124; 40; 41; 59; 38; 60; 62] end.

Section roundtrip.
Context (buf : list Z).

(** The position [s] is at the tokens [ts]. *)
Definition at_toks (s : nat) (ts : list token) : Prop :=
  (s <= es buf)%nat /\ drop s buf = print_tokens ts /\ Forall wf_token ts.

Lemma char_drop s : char_at buf s = default 0 (head (drop s buf)).
Proof. unfold char_at. rewrite nth_lookup, head_lookup, lookup_drop. by rewrite Nat.add_0_r. Qed.

Definition first_char (t : token) : Z := default 0 (head (tok_text t)).
Lemma first_char_wf t : wf_token t -> first_char t <> 0 /\ is_white (first_char t) = false.
Proof.
  destruct t as [[|c w]|c]; simpl.
  - by intros [? _].
  - intros [_ [Hc _]%Forall_cons]. unfold first_char. simpl. unfold is_word in Hc. destruct (Z.eqb_spec c 0); [done|]. destruct (is_white c); [done|]. done.
  - unfold first_char. simpl. intros Hc. split; [set_solver|]. apply bool_decide_eq_false. set_solver.
Qed.
Lemma at_char s t ts : at_toks s (t :: ts) -> char_at buf s = first_char t.
Proof.
  intros (_ & E & Hw). apply Forall_cons in Hw as [Hw _]. rewrite char_drop, E. unfold print_tokens, first_char. simpl.
  destruct t as [[|c w]|c]; simpl; [by destruct Hw|done|done].
Qed.
Lemma at_end s : at_toks s [] -> s = es buf /\ char_at buf s = 0.
Proof.
  intros (Hs & E & _). split; [|by rewrite char_drop, E]. apply (f_equal length) in E. rewrite length_drop in E. unfold es in *. simpl in E. lia.
Qed.
Lemma at_skip s ts : at_toks s ts -> skip_white buf s = s.
Proof.
  intros H. unfold skip_white. destruct (es buf - s)%nat eqn:E; [done|]. cbn [skip]. destruct ts as [|t ts].
  - destruct (at_end s H) as [-> _]. lia.
  - rewrite (at_char s t ts H). destruct H as (_ & _ & [Hw _]%Forall_cons). by destruct (first_char_wf t Hw) as [_ ->].
Qed.

Lemma peek_at toks s t ts : at_toks s (t :: ts) -> peek buf toks s = Done (bool_decide (first_char t ∈ toks)) s.
Proof.
  intros H. unfold peek, mbind, km_bind, kget, kput. rewrite (at_skip s _ H), (at_char s t ts H).
  destruct H as (_ & _ & [Hw _]%Forall_cons). destruct (first_char_wf t Hw) as [H0 _]. by rewrite (proj2 (Z.eqb_neq _ _)).
Qed.
Lemma peek_end toks s : at_toks s [] -> peek buf toks s = Done false s.
Proof.
  intros H. unfold peek, mbind, km_bind, kget, kput. rewrite (at_skip s _ H). destruct (at_end s H) as [_ ->]. done.
Qed.
Lemma gettoken_end s : at_toks s [] -> exists t, gettoken buf s = Done t s /\ t.1 = 0.
Proof.
  intros H. unfold gettoken, mbind, km_bind, kget, kput. rewrite (at_skip s _ H). destruct (at_end s H) as [_ ->]. cbn [Z.eqb].
  rewrite (at_skip s _ H). eexists; split; [done|done].
Qed.

Lemma skip_run p k : forall n s, (k < n)%nat -> (forall i, (i < k)%nat -> p (char_at buf (s + i)) = true) ->
  p (char_at buf (s + k)) = false -> skip buf p n s = (s + k)%nat.
Proof.
  induction k as [|k IH]; intros [|n] s Hn Hi Hk; try lia; cbn [skip].
  - rewrite Nat.add_0_r in *. by rewrite Hk.
  - specialize (Hi 0%nat) as H0. rewrite Nat.add_0_r in H0. rewrite H0 by lia. rewrite IH; [lia|lia| |].
    + intros i Hlt. specialize (Hi (S i)). replace (S s + i)%nat with (s + S i)%nat by lia. apply Hi. lia.
    + by replace (S s + k)%nat with (s + S k)%nat by lia.
Qed.

Lemma gettoken_at s t ts : at_toks s (t :: ts) -> exists s', gettoken buf s = Done (tok_kind t, (s, (s + length (tok_text t))%nat)) s' /\
  at_toks s' ts /\ (s < s')%nat /\ text buf (s, (s + length (tok_text t))%nat) = tok_text t.
Proof.
  intros H. pose proof H as (Hs & E & Hw). pose proof (at_char s t ts H) as Ec. apply Forall_cons in Hw as [Ht Hts].
  set (k := length (tok_text t)). change (print_tokens (t :: ts)) with ((tok_text t ++ [32]) ++ print_tokens ts) in E. rewrite <- app_assoc in E. simpl in E.
  assert (Hk : (0 < k)%nat) by (unfold k; destruct t as [[|c w]|c]; simpl; [by destruct Ht|lia|lia]).
  assert (Hlen : (s + k < es buf)%nat).
  { apply (f_equal length) in E. rewrite length_drop, length_app in E. simpl in E. fold k in E. unfold es in *. lia. }
  assert (Ed : drop (s + k) buf = 32 :: print_tokens ts).
  { rewrite <- drop_drop, E. unfold k. apply drop_app_length. }
  assert (E1 : char_at buf (s + k) = 32) by (by rewrite char_drop, Ed).
  assert (Hat : at_toks (S (s + k)) ts).
  { split_and!; [lia| |done]. replace (S (s + k)) with ((s + k) + 1)%nat by lia. rewrite <- drop_drop, Ed. done. }
  assert (Esk : skip_white buf (s + k) = S (s + k)).
  { unfold skip_white. destruct (es buf - (s + k))%nat as [|n] eqn:En; [lia|]. cbn [skip]. rewrite E1. cbv [is_white].
    rewrite bool_decide_true by set_solver. pose proof (at_skip _ _ Hat) as E2. unfold skip_white in E2. by replace n with (es buf - S (s + k))%nat by lia. }
  exists (S (s + k)). split_and!; [|done|lia|].
  - unfold gettoken, mbind, km_bind, kget, kput, mret, km_ret. cbv zeta. rewrite (at_skip _ _ H), Ec. destruct (first_char_wf t Ht) as [H0 _]. rewrite (proj2 (Z.eqb_neq _ _) H0).
    destruct t as [w|c]; simpl tok_kind.
    + destruct w as [|c w]; [by destruct Ht|]. destruct Ht as [_ Hwd]. change (first_char (TWord (c :: w))) with c in *.
      assert (Hc : is_word c = true) by (by apply Forall_cons in Hwd as [? _]).
      assert (Hcs : is_symbol c = false) by (unfold is_word in Hc; destruct (is_symbol c); [by rewrite andb_false_r in Hc|done]).
      apply bool_decide_eq_false in Hcs. rewrite bool_decide_false by set_solver. rewrite (proj2 (Z.eqb_neq c 62)) by set_solver.
      assert (Esw : skip_word buf s = (s + k)%nat).
      { unfold skip_word. apply skip_run; [lia| |by rewrite E1].
        intros i Hi. assert (Ei : char_at buf (s + i) = nth i (c :: w) 0).
        { unfold char_at. rewrite !nth_lookup. rewrite <- lookup_drop, E, lookup_app_l by done. done. }
        rewrite Ei. assert (is_word (nth i (c :: w) 0) = true) as Hx.
        { rewrite Forall_forall in Hwd. apply Hwd. rewrite list_elem_of_In. by apply nth_In. }
        unfold is_word in Hx. rewrite <- andb_assoc in Hx. by apply andb_prop in Hx as [_ ?]. }
      rewrite Esw. by rewrite Esk.
    + unfold k in *. simpl in *. change (first_char (TSym c)) with c in *. rewrite Nat.add_1_r in *. case_bool_decide as Hc.
      * by rewrite Esk.
      * assert (c = 62) as -> by set_solver. rewrite E1. cbn [Z.eqb Pos.eqb]. by rewrite Esk.
  - unfold text. simpl. replace (s + k - s)%nat with k by lia. rewrite E. apply take_app_length.
Qed.

(** *** Redirections *)

Fixpoint wrap (c : cmd (list Z)) (rs : list (list Z * Z * Z)) : cmd (list Z) :=
  match rs with [] => c | (f, m, fd) :: rs => wrap (REDIR c f m fd) rs end.
Definition redir_toks (rs : list (list Z * Z * Z)) : list token :=
  mjoin ((fun r : list Z * Z * Z => [TSym (redir_sym r.1.2); TWord r.1.1]) <$> rs).
Definition wf_redirs (rs : list (list Z * Z * Z)) : Prop := Forall (fun r => wf_word r.1.1 /\ wf_redir r.1.2 r.2) rs.

(** The next token starts with one of [l]. *)
Definition next_in (l : list Z) (ts : list token) : Prop := match ts with [] => True | t :: _ => first_char t ∈ l end.
Definition ctext : cmd tok -> cmd (list Z) := cmd_map (text buf).

Lemma redir_mode m fd : wf_redir m fd ->
  (redir_sym m = 60 /\ m = O_RDONLY /\ fd = 0) \/ (redir_sym m = 62 /\ m = Z.lor O_WRONLY O_CREATE /\ fd = 1).
Proof. intros [[-> ->]|[-> ->]]; [by left|by right]. Qed.

Lemma parseredirs_at fuel : forall s c rs ts, (es buf - s < fuel)%nat -> at_toks s (redir_toks rs ++ ts) ->
  match ts with [] => True | t :: _ => first_char t ∉ [60; 62] end -> wf_redirs rs ->
  wp (parseredirs buf fuel c) s (fun c' s' => at_toks s' ts /\ (s <= s')%nat /\ ctext c' = wrap (ctext c) rs /\
    forall argv, ctext (set_argv argv c') = wrap (ctext (set_argv argv c)) rs).
Proof.
  induction fuel as [|fuel IH]; intros s c rs ts Hf Hat Hn Hw; [lia|]. cbn [parseredirs]. destruct rs as [|[[f m] fd] rs].
  - wp_step. destruct ts as [|t ts].
    + eapply wp_done; [by apply peek_end|]. cbv iota. by wp_step.
    + eapply wp_done; [apply (peek_at _ s t ts Hat)|]. rewrite bool_decide_false by done. cbv iota. by wp_step.
  - apply Forall_cons in Hw as [[Hwf Hm] Hw]. change (redir_toks ((f, m, fd) :: rs) ++ ts) with (TSym (redir_sym m) :: TWord f :: (redir_toks rs ++ ts)) in Hat.
    wp_step. eapply wp_done; [by eapply peek_at|]. simpl in Hm.
    destruct (gettoken_at _ _ _ Hat) as (s1 & G1 & A1 & L1 & _). destruct (gettoken_at _ _ _ A1) as (s2 & G2 & A2 & L2 & T2).
    pose proof (proj1 A2) as B2. simpl tok_text in T2.
    destruct (redir_mode m fd Hm) as [(Er & -> & ->)|(Er & -> & ->)]; rewrite Er in *;
      (rewrite bool_decide_true by (unfold first_char; simpl; set_solver)); cbv iota; wp_step; (eapply wp_done; [exact G1|]); wp_step; (eapply wp_done; [exact G2|]);
      cbn [tok_kind fst snd Z.eqb Pos.eqb negb];
      (eapply wp_mono; [apply (IH s2 _ rs ts); [lia|exact A2|done|done]|]); intros c' s' (A3 & L3 & E3 & E4); (split_and!; [done|lia| |]).
    + rewrite E3. unfold ctext. simpl. by rewrite T2.
    + intros argv. rewrite E4. unfold ctext. simpl. by rewrite T2.
    + rewrite E3. unfold ctext. simpl. by rewrite T2.
    + intros argv. rewrite E4. unfold ctext. simpl. by rewrite T2.
Qed.

(** *** Arguments *)

Lemma args_stop fuel s argv c ts : (0 < fuel)%nat -> at_toks s ts -> next_in [124; 41; 38; 59] ts ->
  parse_args buf fuel argv c s = Done (set_argv argv c) s.
Proof.
  intros Hf Hat Hn. destruct fuel as [|fuel]; [lia|]. cbn [parse_args]. unfold mbind at 1, km_bind at 1. destruct ts as [|t ts].
  - rewrite (peek_end _ s Hat). unfold mbind at 1, km_bind at 1. destruct (gettoken_end s Hat) as (t & -> & ->). done.
  - rewrite (peek_at _ s t ts Hat). by rewrite bool_decide_true.
Qed.

Lemma next_out (l l' : list Z) t ts : next_in l (t :: ts) -> forallb (fun x => negb (bool_decide (x ∈ l'))) l = true ->
  bool_decide (first_char t ∈ l') = false.
Proof.
  simpl. intros Hn Hd. rewrite forallb_forall in Hd. apply list_elem_of_In in Hn. specialize (Hd _ Hn). by apply negb_true_iff in Hd.
Qed.
Lemma next_sub (l l' : list Z) ts : next_in l ts -> forallb (fun x => bool_decide (x ∈ l')) l = true -> next_in l' ts.
Proof.
  destruct ts as [|t ts]; [done|]. simpl. intros Hn Hd. rewrite forallb_forall in Hd. apply list_elem_of_In in Hn. specialize (Hd _ Hn).
  by apply bool_decide_eq_true in Hd.
Qed.
Lemma next_no_redir ts : next_in [124; 41; 38; 59] ts -> match ts with [] => True | t :: _ => first_char t ∉ [60; 62] end.
Proof. destruct ts as [|t ts]; [done|]. intros H. by eapply bool_decide_eq_false, (next_out _ [60; 62] t ts H). Qed.

(** A word does not start as a symbol. *)
Lemma word_first w l : wf_word w -> Forall (fun c => is_word c = false) l -> first_char (TWord w) ∉ l.
Proof.
  intros [Hne Hw] Hl Hin. destruct w as [|c w]; [done|]. change (first_char (TWord (c :: w))) with c in Hin.
  apply Forall_cons in Hw as [Hc _]. rewrite Forall_forall in Hl. by rewrite Hl in Hc.
Qed.

Lemma parse_args_at fuel : forall s argv ws rs ts, (es buf - s < fuel)%nat -> ws <> [] -> (length argv + length ws < MAXARGS)%nat ->
  at_toks s ((TWord <$> ws) ++ redir_toks rs ++ ts) -> next_in [124; 41; 38; 59] ts -> Forall wf_word ws -> wf_redirs rs ->
  wp (parse_args buf fuel argv (EXEC [])) s (fun c' s' => at_toks s' ts /\ (s <= s')%nat /\
    ctext c' = wrap (EXEC ((text buf <$> argv) ++ ws)) rs).
Proof.
  induction fuel as [|fuel IH]; intros s argv ws rs ts Hf Hne Hl Hat Hn Hw Hr; [lia|]. destruct ws as [|w ws]; [done|].
  apply Forall_cons in Hw as [Hw Hws]. cbn [parse_args]. wp_step. eapply wp_done; [apply (peek_at _ s (TWord w) _ Hat)|].
  rewrite bool_decide_false by (apply word_first; [done|by repeat constructor]). cbv iota.
  destruct (gettoken_at s (TWord w) _ Hat) as (s1 & G1 & A1 & L1 & T1). pose proof (proj1 A1) as B1.
  wp_step. eapply wp_done; [exact G1|]. cbn [tok_kind fst snd Z.eqb Pos.eqb negb].
  set (t := (s, (s + length (tok_text (TWord w)))%nat)) in *. simpl in Hl.
  rewrite (proj2 (Nat.leb_gt _ _)) by (rewrite length_app; simpl; lia). cbv iota. wp_step. destruct ws as [|w' ws].
  - eapply wp_mono; [apply (parseredirs_at _ s1 (EXEC []) rs ts); [lia|exact A1| |done]|].
    { by apply next_no_redir. }
    intros c' s2 (A2 & L2 & _ & E2). eapply wp_done; [eapply (args_stop _ _ _ _ ts); [|done|done]|].
    { pose proof (proj1 A2). lia. }
    split_and!; [done|lia|]. rewrite E2. unfold ctext. cbn [set_argv cmd_map]. rewrite fmap_app. cbn [fmap list_fmap]. by rewrite T1.
  - eapply wp_mono; [apply (parseredirs_at _ s1 (EXEC []) [] ((TWord <$> w' :: ws) ++ redir_toks rs ++ ts)); [lia|exact A1| |by constructor]|].
    { simpl. apply word_first; [by apply Forall_cons in Hws as [? _]|by repeat constructor]. }
    intros c' s2 (A2 & L2 & E2 & _). assert (c' = EXEC []) as -> by (destruct c' as [[|]| | | |]; by try discriminate E2).
    eapply wp_mono; [apply (IH s2 (argv ++ [t]) (w' :: ws) rs ts); [pose proof (proj1 A2); lia|done|rewrite length_app; simpl; simpl in Hl; lia|exact A2|done|done|done]|].
    intros c' s3 (A3 & L3 & E3). split_and!; [done|lia|]. rewrite E3, fmap_app, <- app_assoc. simpl. by rewrite T1.
Qed.

(** *** The grammar *)

Lemma wrap_snoc rs : forall c f m fd, wrap c (rs ++ [(f, m, fd)]) = REDIR (wrap c rs) f m fd.
Proof. induction rs as [|[[g n] d] rs IH]; intros; simpl; [done|apply IH]. Qed.
Lemma redir_toks_app a b : redir_toks (a ++ b) = redir_toks a ++ redir_toks b.
Proof. unfold redir_toks. by rewrite fmap_app, join_app. Qed.
Definition not_redir (c : cmd (list Z)) : Prop := match c with REDIR _ _ _ _ => False | _ => True end.
Lemma decompose c : wf_cmd c -> exists base rs, c = wrap base rs /\ not_redir base /\ wf_cmd base /\ wf_redirs rs /\
  forall lv, show lv c = match rs with [] => show lv base | _ => show LExec base ++ redir_toks rs end.
Proof.
  induction c as [argv|c IH f m fd|c1 _ c2 _|c1 _ c2 _|c _]; intros Hw.
  2:{ destruct Hw as (Hc & Hf & Hm). destruct (IH Hc) as (base & rs & -> & Hb & Hwb & Hrs & Hs). exists base, (rs ++ [(f, m, fd)]).
      split_and!; [by rewrite wrap_snoc|done|done|apply Forall_app; split; [done|by apply Forall_singleton]|].
      intros lv. cbn [show]. rewrite Hs. rewrite redir_toks_app. destruct rs as [|r rs]; [done|]. rewrite app_assoc. done. }
  all: by eexists _, []; split_and!; [done|done|done|constructor|].
Qed.

Section with_line.
Context (pl : KM nat (cmd tok)) (s0 : nat).
Context (Hpl : forall s c ts, (s0 < s)%nat -> wf_cmd c -> at_toks s (show LLine c ++ ts) -> next_in [41] ts ->
  wp pl s (fun c' s' => at_toks s' ts /\ (s <= s')%nat /\ ctext c' = c)).

Lemma block_at s c rs ts : (s0 <= s)%nat -> wf_cmd c -> wf_redirs rs -> at_toks s (paren (show LLine c) ++ redir_toks rs ++ ts) ->
  next_in [124; 41; 38; 59] ts ->
  wp (parseexec buf pl) s (fun c' s' => at_toks s' ts /\ (s <= s')%nat /\ ctext c' = wrap c rs).
Proof.
  intros Hs Hc Hr Hat Hn. unfold paren in Hat. rewrite <- !app_assoc in Hat. unfold parseexec. wp_step.
  pose proof (peek_at [40] s (TSym 40) _ Hat) as Pk. rewrite bool_decide_true in Pk by (unfold first_char; simpl; set_solver).
  eapply wp_done; [exact Pk|]. cbv iota. unfold parseblock. wp_step. eapply wp_done; [exact Pk|]. cbn [negb].
  destruct (gettoken_at s (TSym 40) _ Hat) as (s1 & G1 & A1 & L1 & _). wp_step. eapply wp_done; [exact G1|].
  wp_step. eapply wp_mono; [apply (Hpl s1 c _ ltac:(lia) Hc A1)|].
  { simpl. unfold first_char. simpl. set_solver. }
  intros c' s2 (A2 & L2 & E2). wp_step. eapply wp_done; [apply (peek_at _ s2 (TSym 41) _ A2)|].
  rewrite bool_decide_true by (unfold first_char; simpl; set_solver). cbn [negb].
  destruct (gettoken_at s2 (TSym 41) _ A2) as (s3 & G3 & A3 & L3 & _). wp_step. eapply wp_done; [exact G3|].
  eapply wp_mono; [apply (parseredirs_at _ s3 c' rs ts); [pose proof (proj1 A3); lia|exact A3| |done]|].
  { by apply next_no_redir. }
  intros c2 s4 (A4 & L4 & E4 & _). split_and!; [done|lia|]. by rewrite E4, E2.
Qed.

Lemma simple_at s argv rs ts : (s0 <= s)%nat -> wf_cmd (EXEC argv) -> wf_redirs rs -> at_toks s ((TWord <$> argv) ++ redir_toks rs ++ ts) ->
  next_in [124; 41; 38; 59] ts ->
  wp (parseexec buf pl) s (fun c' s' => at_toks s' ts /\ (s <= s')%nat /\ ctext c' = wrap (EXEC argv) rs).
Proof.
  intros Hs [Hl Hw] Hr Hat Hn. unfold parseexec. wp_step.
  pose proof (next_no_redir ts Hn) as Hts.
  assert (Pk : peek buf [40] s = Done false s).
  { destruct argv as [|w argv].
    - destruct rs as [|[[f m] fd] rs].
      + destruct ts as [|t ts]; [by apply peek_end|]. rewrite (peek_at _ s t ts Hat). by rewrite (next_out _ [40] t ts Hn).
      + rewrite (peek_at _ s (TSym (redir_sym m)) _ Hat). rewrite bool_decide_false; [done|]. unfold first_char. simpl.
        unfold redir_sym. destruct (m =? O_RDONLY); set_solver.
    - rewrite (peek_at _ s (TWord w) _ Hat). rewrite bool_decide_false; [done|]. apply Forall_cons in Hw as [Hw _].
      apply word_first; [done|by repeat constructor]. }
  eapply wp_done; [exact Pk|]. cbv iota. wp_step. pose proof (proj1 Hat) as B0. destruct argv as [|w argv].
  - eapply wp_mono; [apply (parseredirs_at _ s (EXEC []) rs ts); [lia|exact Hat|done|done]|].
    intros c1 s1 (A1 & L1 & _ & E1). eapply wp_done; [by eapply (args_stop _ _ _ _ ts); [lia|..]|]. split_and!; [done|lia|]. by rewrite E1.
  - pose proof Hw as Hw'. apply Forall_cons in Hw' as [Hw1 _].
    eapply wp_mono; [apply (parseredirs_at _ s (EXEC []) [] ((TWord <$> w :: argv) ++ redir_toks rs ++ ts)); [lia|exact Hat| |by constructor]|].
    { simpl. apply word_first; [done|by repeat constructor]. }
    intros c1 s1 (A1 & L1 & E1 & _). assert (c1 = EXEC []) as -> by (destruct c1 as [[|]| | | |]; by try discriminate E1).
    eapply wp_mono; [apply (parse_args_at _ s1 [] (w :: argv) rs ts); [pose proof (proj1 A1); lia|done|done|exact A1|done|done|done]|].
    intros c2 s2 (A2 & L2 & E2). split_and!; [done|lia|done].
Qed.

Lemma exec_at s c ts : (s0 <= s)%nat -> wf_cmd c -> at_toks s (show LExec c ++ ts) -> next_in [124; 41; 38; 59] ts ->
  wp (parseexec buf pl) s (fun c' s' => at_toks s' ts /\ (s <= s')%nat /\ ctext c' = c).
Proof.
  intros Hs Hc Hat Hn. destruct (decompose c Hc) as (base & rs & -> & Hb & Hwb & Hrs & Hsh).
  assert (E : show LExec (wrap base rs) = show LExec base ++ redir_toks rs) by (rewrite Hsh; destruct rs; [by rewrite app_nil_r|done]).
  rewrite E, <- app_assoc in Hat. destruct base as [argv| |l r|l r|b]; [by apply simple_at|done|by apply block_at..].
Qed.

Lemma pipe_at fuel : forall s c ts, (s0 <= s)%nat -> (es buf - s < fuel)%nat -> wf_cmd c -> at_toks s (show LPipe c ++ ts) -> next_in [41; 38; 59] ts ->
  wp (parsepipe buf fuel pl) s (fun c' s' => at_toks s' ts /\ (s <= s')%nat /\ ctext c' = c).
Proof.
  induction fuel as [|fuel IH]; intros s c ts Hs Hf Hc Hat Hn; [lia|]. cbn [parsepipe]. wp_step.
  assert (Hn' : next_in [124; 41; 38; 59] ts) by (by eapply next_sub).
  assert (Hp : forall s1, at_toks s1 ts -> peek buf [124] s1 = Done false s1).
  { intros s1 A1. destruct ts as [|t ts]; [by apply peek_end|]. rewrite (peek_at _ s1 t ts A1). by rewrite (next_out _ [124] t ts Hn). }
  assert (Hsimple : show LPipe c = show LExec c -> wp (parseexec buf pl) s (fun c1 s' => wp (b ← peek buf [124]; if (b : bool) then
      gettoken buf;; r ← parsepipe buf fuel pl; mret (PIPE c1 r) else mret c1) s' (fun c' s' => at_toks s' ts /\ (s <= s')%nat /\ ctext c' = c))).
  { intros E. rewrite E in Hat. eapply wp_mono; [by apply exec_at|]. intros c' s1 (A1 & L1 & E1). wp_step. eapply wp_done; [by apply Hp|]. cbv iota. by wp_step. }
  destruct c as [argv|c f m fd|l r|l r|b]; [by apply Hsimple|by apply Hsimple| |by apply Hsimple|by apply Hsimple].
  destruct Hc as [Hl Hr]. cbn [show] in Hat. rewrite <- !app_assoc in Hat.
  eapply wp_mono; [apply (exec_at s l _ Hs Hl Hat)|].
  { simpl. unfold first_char. simpl. set_solver. }
  intros l' s1 (A1 & L1 & E1). wp_step. eapply wp_done; [apply (peek_at _ s1 (TSym 124) _ A1)|].
  rewrite bool_decide_true by (unfold first_char; simpl; set_solver). cbv iota.
  destruct (gettoken_at s1 (TSym 124) _ A1) as (s2 & G2 & A2 & L2 & _). wp_step. eapply wp_done; [exact G2|]. wp_step.
  eapply wp_mono; [apply (IH s2 r ts); [lia|pose proof (proj1 A2); lia|done|exact A2|done]|]. intros r' s3 (A3 & L3 & E3). wp_step.
  split_and!; [done|lia|]. unfold ctext in *. simpl. by rewrite E1, E3.
Qed.
End with_line.

Fixpoint backs {T} (n : nat) (c : cmd T) : cmd T := match n with O => c | S n => backs n (BACK c) end.
Lemma backs_snoc {T} n : forall c : cmd T, BACK (backs n c) = backs (S n) c.
Proof. induction n as [|n IH]; intros c; simpl; [done|apply IH]. Qed.
Lemma backs_decompose c : wf_cmd c -> exists n p, c = backs n p /\ wf_cmd p /\ show LBack c = show LPipe p ++ replicate n (TSym 38).
Proof.
  induction c as [argv|c _ f m fd|c1 _ c2 _|c1 _ c2 _|c IH]; intros Hw.
  5:{ destruct (IH Hw) as (n & p & -> & Hp & E). exists (S n), p. split_and!; [apply backs_snoc|done|].
      cbn [show]. rewrite E, <- app_assoc. f_equal. change ([TSym 38]) with (replicate 1 (TSym 38)).
      rewrite <- replicate_add. f_equal. lia. }
  all: by eexists 0%nat, _; split_and!; [done|done|]; cbn [show]; rewrite app_nil_r.
Qed.

Lemma parse_back_at n : forall fuel s c ts, (es buf - s < fuel)%nat -> at_toks s (replicate n (TSym 38) ++ ts) -> next_in [41; 59] ts ->
  wp (parse_back buf fuel c) s (fun c' s' => at_toks s' ts /\ (s <= s')%nat /\ ctext c' = backs n (ctext c)).
Proof.
  induction n as [|n IH]; intros [|fuel] s c ts Hf Hat Hn; try lia; cbn [parse_back]; wp_step.
  - assert (Pk : peek buf [38] s = Done false s).
    { destruct ts as [|t ts]; [by apply peek_end|]. rewrite (peek_at _ s t ts Hat). by rewrite (next_out _ [38] t ts Hn). }
    eapply wp_done; [exact Pk|]. cbv iota. by wp_step.
  - eapply wp_done; [apply (peek_at _ s (TSym 38) _ Hat)|]. rewrite bool_decide_true by (unfold first_char; simpl; set_solver). cbv iota.
    destruct (gettoken_at s (TSym 38) _ Hat) as (s1 & G1 & A1 & L1 & _). wp_step. eapply wp_done; [exact G1|].
    eapply wp_mono; [apply (IH fuel s1 (BACK c) ts); [pose proof (proj1 A1); lia|exact A1|done]|].
    intros c' s2 (A2 & L2 & E2). split_and!; [done|lia|done].
Qed.

Lemma line_at fuel : forall s c ts, (es buf - s < fuel)%nat -> wf_cmd c -> at_toks s (show LLine c ++ ts) -> next_in [41] ts ->
  wp (parseline buf fuel) s (fun c' s' => at_toks s' ts /\ (s <= s')%nat /\ ctext c' = c).
Proof.
  induction fuel as [|fuel IH]; intros s c ts Hf Hc Hat Hn; [lia|]. cbn [parseline]. pose proof (proj1 Hat) as B0.
  assert (Hfirst : forall b rest (Q : cmd tok -> nat -> Prop), wf_cmd b -> at_toks s (show LBack b ++ rest) -> next_in [41; 59] rest ->
    (forall c' s', at_toks s' rest -> (s <= s')%nat -> ctext c' = b -> Q c' s') ->
    wp (c ← parsepipe buf (S (es buf)) (parseline buf fuel); parse_back buf (S (es buf)) c) s Q).
  { intros b rest Q Hb Ha Hr HQ. destruct (backs_decompose b Hb) as (n & p & -> & Hp & E). rewrite E, <- app_assoc in Ha. wp_step.
    eapply wp_mono; [apply (pipe_at (parseline buf fuel) s)|].
    - intros s1 c1 ts1 Hs1 Hc1 Ha1 Hn1. apply IH; [pose proof (proj1 Ha1); lia|done|done|done].
    - lia.
    - lia.
    - exact Hp.
    - exact Ha.
    - destruct n; [by eapply next_sub|]. simpl. unfold first_char. simpl. set_solver.
    - intros p' s1 (A1 & L1 & E1). eapply wp_mono; [apply (parse_back_at n _ s1 p' rest); [pose proof (proj1 A1); lia|done|done]|].
      intros c' s2 (A2 & L2 & E2). apply HQ; [done|lia|]. by rewrite E2, E1. }
  assert (Hshape : (exists l r, c = LIST l r) \/ show LLine c = show LBack c) by (destruct c; eauto).
  destruct Hshape as [(l & r & ->)|E].
  - destruct Hc as [Hl Hr]. cbn [show] in Hat. rewrite <- !app_assoc in Hat.
    assert (Hsemi : next_in [41; 59] ([TSym 59] ++ show LLine r ++ ts)) by (simpl; unfold first_char; simpl; set_solver).
    pose proof (wp_bind_inv _ _ _ _ (Hfirst l _ (fun c' s' => at_toks s' ([TSym 59] ++ show LLine r ++ ts) /\ (s <= s')%nat /\ ctext c' = l)
      Hl Hat Hsemi ltac:(by intros))) as H1.
    wp_step. eapply wp_mono; [exact H1|]. intros c1 s1 H2. wp_step. eapply wp_mono; [exact H2|]. clear H1 H2. intros c2 s2 (A2 & L2 & E2).
    wp_step. eapply wp_done; [apply (peek_at _ s2 (TSym 59) _ A2)|]. rewrite bool_decide_true by (unfold first_char; simpl; set_solver). cbv iota.
    destruct (gettoken_at s2 (TSym 59) _ A2) as (s3 & G3 & A3 & L3 & _). wp_step. eapply wp_done; [exact G3|]. wp_step.
    eapply wp_mono; [apply (IH s3 r ts); [pose proof (proj1 A3); lia|done|exact A3|done]|]. intros r' s4 (A4 & L4 & E4). wp_step.
    split_and!; [done|lia|]. unfold ctext in *. simpl. by rewrite E2, E4.
  - rewrite E in Hat. pose proof (wp_bind_inv _ _ _ _ (Hfirst c _ (fun c' s' => at_toks s' ts /\ (s <= s')%nat /\ ctext c' = c)
      Hc Hat ltac:(by eapply next_sub) ltac:(by intros))) as H1.
    wp_step. eapply wp_mono; [exact H1|]. intros c1 s1 H2. wp_step. eapply wp_mono; [exact H2|]. clear H1 H2. intros c2 s2 (A2 & L2 & E2).
    assert (Pk : peek buf [59] s2 = Done false s2).
    { destruct ts as [|t ts]; [by apply peek_end|]. rewrite (peek_at _ s2 t ts A2). by rewrite (next_out _ [59] t ts Hn). }
    wp_step. eapply wp_done; [exact Pk|]. cbv iota. by wp_step.
Qed.
End roundtrip.

Lemma sym_wf c : bool_decide (c ∈ [124; 40; 41; 59; 38; 60; 62]) = true -> Forall wf_token [TSym c].
Proof. intros H. apply Forall_singleton. by apply bool_decide_eq_true in H. Qed.
Lemma paren_wf ts : Forall wf_token ts -> Forall wf_token (paren ts).
Proof. intros H. apply Forall_app. split; [by apply sym_wf|]. apply Forall_app. split; [done|by apply sym_wf]. Qed.
Lemma show_wf c : forall lv, wf_cmd c -> Forall wf_token (show lv c).
Proof.
  induction c as [argv|c IH f m fd|c1 IH1 c2 IH2|c1 IH1 c2 IH2|c IH]; intros lv; cbn [show wf_cmd].
  - intros [_ Hw]. by apply Forall_fmap.
  - intros (Hc & Hf & Hm). apply Forall_app. split; [by apply IH|]. apply Forall_cons. split; [|by apply Forall_singleton].
    destruct (redir_mode m fd Hm) as [(-> & _)|(-> & _)]; simpl; set_solver.
  - intros [H1 H2]. assert (Forall wf_token (show LExec c1 ++ [TSym 124] ++ show LPipe c2)).
    { apply Forall_app. split; [by apply IH1|]. apply Forall_app. split; [by apply sym_wf|by apply IH2]. }
    destruct lv; [done|done|done|]. by apply paren_wf.
  - intros [H1 H2]. assert (Forall wf_token (show LBack c1 ++ [TSym 59] ++ show LLine c2)).
    { apply Forall_app. split; [by apply IH1|]. apply Forall_app. split; [by apply sym_wf|by apply IH2]. }
    destruct lv; [done|..]; (by apply paren_wf).
  - intros H1. assert (Forall wf_token (show LBack c ++ [TSym 38])).
    { apply Forall_app. split; [by apply IH|by apply sym_wf]. }
    destruct lv; [done|done|..]; (by apply paren_wf).
Qed.

Lemma print_no_nul ts : Forall wf_token ts -> Forall (fun c => c <> 0) (print_tokens ts).
Proof.
  induction ts as [|t ts IH]; intros Hw; [constructor|]. apply Forall_cons in Hw as [Ht Hts].
  change (print_tokens (t :: ts)) with ((tok_text t ++ [32]) ++ print_tokens ts). apply Forall_app. split; [|by apply IH].
  apply Forall_app. split; [|by repeat constructor]. destruct t as [w|c]; simpl.
  - destruct Ht as [_ Hw]. eapply Forall_impl; [exact Hw|]. intros c. apply word_nonzero.
  - apply Forall_singleton. intros ->. simpl in Ht. set_solver.
Qed.

Lemma cmd_map_ext {T U} (f g : T -> U) c : (forall t, t ∈ strings c -> f t = g t) -> cmd_map f c = cmd_map g c.
Proof.
  induction c as [argv|c IH x m fd|c1 IH1 c2 IH2|c1 IH1 c2 IH2|c IH]; intros H; simpl in *.
  - f_equal. apply list_fmap_ext. intros i t Ht. apply H. by eapply list_elem_of_lookup_2.
  - rewrite IH by (intros; apply H; set_solver). by rewrite H by set_solver.
  - by rewrite IH1, IH2 by (intros; apply H; set_solver).
  - by rewrite IH1, IH2 by (intros; apply H; set_solver).
  - by rewrite IH.
Qed.

(** C13.  The parser inverts the printer.  Every command the syntax can express
    (pipelines, lists, background jobs, redirections and blocks, nested in any
    way) is what [parsecmd] returns for its text: same shape, same operators,
    and the strings that [nulterminate] left in the line are the words of the
    command. *)
Theorem parsecmd_print c s : wf_cmd c ->
  wp (parsecmd (print c)) s (fun r s' => s' = length (print c) /\ cmd_map (fun t => cstring r.2 t.1) r.1 = c).
Proof.
  intros Hc. unfold parsecmd. wp_step. wp_step. wp_step. set (buf := print c).
  assert (Hn : Forall (fun c => c <> 0) buf) by (by apply print_no_nul, show_wf).
  assert (Hat : at_toks buf 0 (show LLine c ++ [])).
  { split_and!; [lia|by rewrite app_nil_r|rewrite app_nil_r; by apply show_wf]. }
  destruct (wp_inv _ _ _ (line_at buf (S (es buf)) 0 c [] ltac:(lia) Hc Hat I)) as (c' & s1 & E & A1 & _ & E1).
  pose proof (parseline_safe buf Hn (S (es buf)) 0 ltac:(lia) ltac:(lia)) as Hg. unfold safe in Hg. rewrite E in Hg. destruct Hg as [_ Hg].
  eapply wp_done; [exact E|]. wp_step. eapply wp_done; [by apply peek_end|]. wp_step. wp_step. destruct (at_end buf s1 A1) as [-> _].
  rewrite decide_False by tauto. wp_step. split; [done|]. simpl. etransitivity; [|exact E1]. apply cmd_map_ext.
  intros t Ht. by apply string_kept.
Qed.
Lemma parsecmd_print_witness : wp (parsecmd (chars "( ls > f ; a & ) | wc ")) 0%nat (fun r _ =>
  cmd_map (fun t => cstring r.2 t.1) r.1 =
  PIPE (LIST (REDIR (EXEC [chars "ls"]) (chars "f") 0x201 1) (BACK (EXEC [chars "a"]))) (EXEC [chars "wc"])).
Proof.
  eapply wp_mono; [apply (parsecmd_print (PIPE (LIST (REDIR (EXEC [chars "ls"]) (chars "f") 0x201 1) (BACK (EXEC [chars "a"]))) (EXEC [chars "wc"])) 0)|].
  - simpl. unfold MAXARGS, wf_word, wf_redir. simpl. split_and!; try lia; try (by repeat constructor); try done.
  - by intros r s [_ ?].
Defined.
