(* ===== verification/ShRun.v ===== *)
(** * Running commands: [runcmd] of [sh.c]

    What a process of the shell does is the tree of its system calls
    ([prog]): [runcmd] builds it from a parsed command.  [launch] runs the
    tree against descriptor tables, with the kernel's rule that [open], [dup]
    and [pipe] return the lowest free descriptors, and collects the programs
    executed with the tables they get and the programs they come after.
    [runcmd_plan] says which those are. *)

From S2P Require Import Prelude CString Printf Sh.

Abbreviation str := (list Z).

Inductive prog :=
| Exit
| Exec (argv : list str) (failed : prog)
| Print (fmt : list Z) (arg : str) (k : prog)
| Close (fd : nat) (k : prog)
| Dup (fd : nat) (k : prog)
| Open (path : str) (mode : Z) (k : Z -> prog)
| Pipe (k : option (nat * nat) -> prog)
| Fork (child parent : prog)
| Wait (k : prog).

Definition panic (s : list Z) : prog := Print (chars "%s" ++ [10]) s Exit.

(** [fork1] in its two returns; a failing [fork] panics instead of both. *)
Fixpoint runcmd (c : cmd str) : prog :=
  match c with
  | EXEC argv =>
      match argv with
      | [] => Exit
      | a :: _ => Exec argv (Print (chars "exec %s failed" ++ [10]) a Exit)
      end
  | REDIR c file mode fd =>
      Close (Z.to_nat fd) (Open file mode (fun r =>
        if r <? 0 then Print (chars "open %s failed" ++ [10]) file Exit else runcmd c))
  | LIST l r => Fork (runcmd l) (Wait (runcmd r))
  | PIPE l r =>
      Pipe (fun p =>
        match p with
        | None => panic (chars "pipe")
        | Some (p0, p1) =>
            Fork (Close 1 (Dup p1 (Close p0 (Close p1 (runcmd l)))))
            (Fork (Close 0 (Dup p0 (Close p0 (Close p1 (runcmd r)))))
            (Close p0 (Close p1 (Wait (Wait Exit)))))
        end)
  | BACK c => Fork (runcmd c) Exit
  end.

(** ** Descriptors *)

Inductive obj := Device (n : nat) | File (path : str) (mode : Z) | PipeR (q : nat) | PipeW (q : nat).
Definition fds : Type := list (option obj).
Definition NOFILE : nat := 16.

Fixpoint lowest (t : fds) : option nat :=
  match t with
  | [] => None
  | None :: _ => Some 0%nat
  | Some _ :: t => S <$> lowest t
  end.
Definition put (o : obj) (t : fds) : option (nat * fds) :=
  i ← lowest t; Some (i, <[i := Some o]> t).
Definition put_pipe (q : nat) (t : fds) : option (nat * nat * fds) :=
  '(i, t1) ← put (PipeR q) t;
  '(j, t2) ← put (PipeW q) t1;
  Some (i, j, t2).

(** An executed program, its descriptors, and the programs that have ended
    before it starts, by their number in the order of the forks. *)
Definition started : Type := list str * fds * gset nat.

Section launch.
Context (opens : str -> bool).       (* which files [open] finds *)

(** The programs a process and its children execute, in the order of the
    forks, the next pipe's number, and the programs that have ended when the
    process exits.  [q] numbers the next pipe and [n] the next program; [seen]
    are the programs known to have ended; [kids] are, for the children since
    the last time all had been waited for, the programs ended when each exits,
    and [w] the number of these children waited for: only the [wait] for the
    last of them tells which have exited. *)
Fixpoint launch (p : prog) (t : fds) (q n : nat) (seen : gset nat) (kids : list (gset nat)) (w : nat) : list started * nat * gset nat :=
  match p with
  | Exit => ([], q, seen)
  | Exec argv _ => ([(argv, t, seen)], q, {[n]} ∪ seen)
  | Print _ _ k => launch k t q n seen kids w
  | Close fd k => launch k (<[fd := None]> t) q n seen kids w
  | Dup fd k =>
      match t !! fd with
      | Some (Some o) => match put o t with Some (_, t) => launch k t q n seen kids w | None => launch k t q n seen kids w end
      | _ => launch k t q n seen kids w
      end
  | Open path mode k =>
      if opens path then
        match put (File path mode) t with
        | Some (i, t) => launch (k (Z.of_nat i)) t q n seen kids w
        | None => launch (k (-1)) t q n seen kids w
        end
      else launch (k (-1)) t q n seen kids w
  | Pipe k =>
      match put_pipe q t with
      | Some (i, j, t) => launch (k (Some (i, j))) t (S q) n seen kids w
      | None => launch (k None) t q n seen kids w
      end
  | Fork c p =>
      let '(l1, q, e1) := launch c t q n seen [] 0 in
      let '(l2, q, e2) := launch p t q (n + length l1)%nat seen (kids ++ [e1]) w in
      (l1 ++ l2, q, e2)
  | Wait k =>
      if (length kids <=? S w)%nat then launch k t q n (seen ∪ ⋃ kids) [] 0
      else launch k t q n seen kids (S w)
  end.

(** ** What a command means *)

(** The programs a command runs, each with its standard input and output and
    with the programs that end before it starts; the next pipe; and the
    programs that have ended when the command has.  The two sides of a pipe run
    side by side, [r] of [l ; r] starts when [l] has ended, and nobody waits
    for a command in the background. *)
Fixpoint plan (c : cmd str) (inp out : obj) (q n : nat) (seen : gset nat) : list (list str * obj * obj * gset nat) * nat * gset nat :=
  match c with
  | EXEC argv => match argv with [] => ([], q, seen) | _ => ([(argv, inp, out, seen)], q, {[n]} ∪ seen) end
  | REDIR c file mode fd =>
      if opens file then
        if fd =? 0 then plan c (File file mode) out q n seen else plan c inp (File file mode) q n seen
      else ([], q, seen)
  | PIPE l r =>
      let '(l1, q1, e1) := plan l inp (PipeW q) (S q) n seen in
      let '(l2, q2, e2) := plan r (PipeR q) out q1 (n + length l1)%nat seen in
      (l1 ++ l2, q2, e1 ∪ e2)
  | LIST l r =>
      let '(l1, q1, e1) := plan l inp out q n seen in
      let '(l2, q2, e2) := plan r inp out q1 (n + length l1)%nat e1 in
      (l1 ++ l2, q2, e2)
  | BACK c =>
      let '(l, q, _) := plan c inp out q n seen in (l, q, seen)
  end.

(** A table with the three standard descriptors and nothing else. *)
Definition std (inp out err : obj) : fds := [Some inp; Some out; Some err] ++ replicate (NOFILE - 3) None.
Definition with_std (err : obj) (x : list str * obj * obj * gset nat) : started :=
  (x.1.1.1, std x.1.1.2 x.1.2 err, x.2).

Lemma plan_seen c : forall inp out q n seen, seen ⊆ (plan c inp out q n seen).2.
Proof.
  induction c as [argv|c IH f m fd|l IHl r IHr|l IHl r IHr|c IH]; intros inp out q n seen; cbn [plan].
  - destruct argv; simpl; set_solver.
  - destruct (opens f); [|done]. destruct (fd =? 0); apply IH.
  - pose proof (IHl inp (PipeW q) (S q) n seen) as H1. destruct (plan l inp (PipeW q) (S q) n seen) as [[l1 q1] e1].
    pose proof (IHr (PipeR q) out q1 (n + length l1)%nat seen) as H2. destruct (plan r (PipeR q) out q1 (n + length l1)%nat seen) as [[l2 q2] e2].
    simpl in *. set_solver.
  - pose proof (IHl inp out q n seen) as H1. destruct (plan l inp out q n seen) as [[l1 q1] e1].
    pose proof (IHr inp out q1 (n + length l1)%nat e1) as H2. destruct (plan r inp out q1 (n + length l1)%nat e1) as [[l2 q2] e2].
    simpl in *. set_solver.
  - by destruct (plan c inp out q n seen) as [[l q'] e].
Qed.

Lemma runcmd_plan_spec c : forall inp out err q n seen, wf_cmd c ->
  launch (runcmd c) (std inp out err) q n seen [] 0 =
  let '(l, q', e) := plan c inp out q n seen in (with_std err <$> l, q', e).
Proof.
  induction c as [argv|c IH f m fd|l IHl r IHr|l IHl r IHr|c IH]; intros inp out err q n seen Hw; cbn [runcmd plan].
  - by destruct argv.
  - destruct Hw as (Hc & _ & [[-> ->]|[-> ->]]); simpl Z.to_nat; cbn [launch]; destruct (opens f); try done; simpl; [apply (IH (File f 0) out)|apply (IH inp (File f 513))]; done.
  - destruct Hw as [Hl Hr].
    change (launch (Pipe _) (std inp out err) q n seen [] 0) with
      (let '(l1, q1, e1) := launch (runcmd l) (std inp (PipeW q) err) (S q) n seen [] 0 in
       let '(l2, q2, e) := (let '(l2, q2, e2) := launch (runcmd r) (std (PipeR q) out err) q1 (n + length l1)%nat seen [] 0 in
                            (l2 ++ [], q2, seen ∪ ⋃ [e1; e2])) in (l1 ++ l2, q2, e)).
    rewrite (IHl inp (PipeW q) err (S q) n seen Hl). pose proof (plan_seen l inp (PipeW q) (S q) n seen) as H1.
    destruct (plan l inp (PipeW q) (S q) n seen) as [[l1 q1] e1]. rewrite length_fmap.
    rewrite (IHr (PipeR q) out err q1 (n + length l1)%nat seen Hr). destruct (plan r (PipeR q) out q1 (n + length l1)%nat seen) as [[l2 q2] e2].
    rewrite app_nil_r, fmap_app. f_equal. simpl in *. set_solver.
  - destruct Hw as [Hl Hr]. cbn [launch]. rewrite (IHl inp out err q n seen Hl). pose proof (plan_seen l inp out q n seen) as H1.
    destruct (plan l inp out q n seen) as [[l1 q1] e1]. cbn [app length Nat.leb]. rewrite length_fmap.
    assert (seen ∪ ⋃ [e1] = e1) as -> by (simpl in *; set_solver).
    rewrite (IHr inp out err q1 (n + length l1)%nat e1 Hr). destruct (plan r inp out q1 (n + length l1)%nat e1) as [[l2 q2] e2]. by rewrite fmap_app.
  - cbn [launch]. rewrite (IH inp out err q n seen Hw). destruct (plan c inp out q n seen) as [[l1 q1] e1]. by rewrite app_nil_r.
Qed.
End launch.

(** C14.  The shell wires its programs as the command says.  From standard
    descriptors 0, 1 and 2, [runcmd] executes exactly the programs of the
    command's plan, in the order in which their processes are forked, each with
    the planned input and output (a file, an end of a pipe shared with its
    neighbour, or the shell's own), with the shell's error output, and with no
    other descriptor open: no end of a pipe stays open in a program that does
    not use it.  The shell's waits make each program start after exactly the
    programs the command says it comes after: those of [l] before those of [r]
    in [l ; r], but none in the background and none on the other side of a pipe.
    Forks and [exec] succeed; [open] may fail. *)
Theorem runcmd_plan opens c inp out err q n seen : wf_cmd c ->
  let '(l, q', e) := plan opens c inp out q n seen in
  launch opens (runcmd c) (std inp out err) q n seen [] 0 = (with_std err <$> l, q', e).
Proof. intros Hc. pose proof (runcmd_plan_spec opens c inp out err q n seen Hc) as H. by destruct (plan opens c inp out q n seen) as [[l q'] e]. Qed.

(** [ls | wc > f ; rm f] *)
Definition demo_cmd : cmd str :=
  LIST (PIPE (EXEC [chars "ls"]) (REDIR (EXEC [chars "wc"]) (chars "f") 0x201 1)) (EXEC [chars "rm"; chars "f"]).
Lemma runcmd_plan_witness :
  exists e, launch (fun _ => true) (runcmd demo_cmd) (std (Device 0) (Device 1) (Device 2)) 0 0 ∅ [] 0 =
  ([([chars "ls"], std (Device 0) (PipeW 0) (Device 2), ∅); ([chars "wc"], std (PipeR 0) (File (chars "f") 0x201) (Device 2), ∅);
    ([chars "rm"; chars "f"], std (Device 0) (Device 1) (Device 2), {[0%nat]} ∪ ∅ ∪ ({[1%nat]} ∪ ∅))], 1%nat, e).
Proof.
  eexists. apply (runcmd_plan (fun _ => true) demo_cmd (Device 0) (Device 1) (Device 2) 0 0 ∅).
  simpl. unfold MAXARGS, wf_word, wf_redir. simpl. split_and!; try lia; try (by repeat constructor); try done.
Defined.
