(* ===== verification/Pipe.v ===== *)
(** * Pipes: [pipe.c]

    The ring buffer with its two 32-bit counters, and [pipewrite],
    [piperead] and [pipeclose] as the sections they run with the pipe's lock
    held: each section ends by returning or by going to sleep, and a process
    that is woken goes through its loop's test again.

    Results: the counters may wrap around and the buffer still is a queue of
    at most [PIPESIZE] bytes; in every interleaving of readers and writers the
    bytes read are the bytes written, in order; without [kill] no reader and
    no writer sleeps while it could run.  A killed writer that finds the pipe
    full returns without waking the readers. *)

From S2P Require Import Prelude.

Definition PIPESIZE : Z := 512.

Record pipe := mkpipe {
  p_data : list Z;      (* data[PIPESIZE] *)
  p_nread : Z;          (* uint *)
  p_nwrite : Z;         (* uint *)
  p_readopen : Z;
  p_writeopen : Z
}.

(** The pipe [pipealloc] makes in a page with contents [junk]. *)
Definition pipe_init (junk : list Z) : pipe := mkpipe junk 0 0 1 1.

Definition pipe_full (p : pipe) : bool := p_nwrite p =? u32 (p_nread p + PIPESIZE).
Definition pipe_empty (p : pipe) : bool := p_nread p =? p_nwrite p.

(** [p->data[p->nwrite++ % PIPESIZE] = c] *)
Definition put_byte (c : Z) (p : pipe) : pipe :=
  mkpipe (<[Z.to_nat (p_nwrite p mod PIPESIZE) := c]> (p_data p))
         (p_nread p) (u32 (p_nwrite p + 1)) (p_readopen p) (p_writeopen p).
(** [p->data[p->nread++ % PIPESIZE]] *)
Definition get_byte (p : pipe) : Z * pipe :=
  (nth (Z.to_nat (p_nread p mod PIPESIZE)) (p_data p) 0,
   mkpipe (p_data p) (u32 (p_nread p + 1)) (p_nwrite p) (p_readopen p) (p_writeopen p)).

(** How a section of [pipewrite] ends: it returns [n], or it returns -1 or
    sleeps with the bytes [rest] (those from [addr + i] on) not written. *)
Inductive wres :=
| WDone (p : pipe)
| WFail (rest : list Z) (p : pipe)
| WSleep (rest : list Z) (p : pipe).

(** [pipewrite] from the byte [addr[i]] on, the bytes left being [l]. *)
Fixpoint pipewrite (killed : bool) (l : list Z) (p : pipe) : wres :=
  match l with
  | [] => WDone p
  | c :: l' =>
      if pipe_full p then
        if (p_readopen p =? 0) || killed then WFail l p else WSleep l p
      else pipewrite killed l' (put_byte c p)
  end.

Inductive rres :=
| RDone (bytes : list Z) (p : pipe)
| RFail (p : pipe)
| RSleep (p : pipe).

Fixpoint read_loop (n : nat) (p : pipe) : list Z * pipe :=
  match n with
  | O => ([], p)
  | S n =>
      if pipe_empty p then ([], p)
      else let '(c, p) := get_byte p in
           let '(l, p) := read_loop n p in (c :: l, p)
  end.

Definition piperead (killed : bool) (n : Z) (p : pipe) : rres :=
  if pipe_empty p && negb (p_writeopen p =? 0) then
    if killed then RFail p else RSleep p
  else let '(l, p) := read_loop (Z.to_nat n) p in RDone l p.

(** [pipeclose]; the flag tells whether the pipe is freed. *)
Definition pipeclose (writable : bool) (p : pipe) : bool * pipe :=
  let p := if writable then mkpipe (p_data p) (p_nread p) (p_nwrite p) (p_readopen p) 0
           else mkpipe (p_data p) (p_nread p) (p_nwrite p) 0 (p_writeopen p) in
  ((p_readopen p =? 0) && (p_writeopen p =? 0), p).

(** ** The bytes in the pipe *)

Definition pipe_count (p : pipe) : Z := u32 (p_nwrite p - p_nread p).

Record pipe_ok (p : pipe) : Prop := mk_pipe_ok {
  po_len : length (p_data p) = 512%nat;
  po_nread : 0 <= p_nread p < 2 ^ 32;
  po_nwrite : 0 <= p_nwrite p < 2 ^ 32;
  po_count : pipe_count p <= PIPESIZE
}.

Definition slot (r : Z) (k : nat) : nat := Z.to_nat ((r + Z.of_nat k) mod PIPESIZE).
Definition contents (p : pipe) : list Z :=
  (fun k => nth (slot (p_nread p) k) (p_data p) 0) <$> seq 0 (Z.to_nat (pipe_count p)).

Lemma length_contents p : length (contents p) = Z.to_nat (pipe_count p).
Proof. unfold contents. by rewrite length_fmap, length_seq. Qed.

Lemma u32_eq_iff a b : u32 a = u32 b <-> u32 (a - b) = 0.
Proof.
  unfold u32. split; intros H.
  - rewrite Zminus_mod, H, Z.sub_diag. done.
  - apply Z.mod_divide in H; [|lia]. destruct H as [k Hk]. replace a with (b + k * 2 ^ 32) by lia.
    by rewrite Z_mod_plus_full.
Qed.

Lemma pipe_empty_spec p : pipe_ok p -> pipe_empty p = true <-> contents p = [].
Proof.
  intros [_ Hr Hw Hc]. unfold pipe_empty. rewrite Z.eqb_eq. rewrite <- (u32_id _ Hr), <- (u32_id _ Hw).
  assert (E : u32 (p_nwrite p) = u32 (p_nread p) <-> pipe_count p = 0) by apply u32_eq_iff.
  pose proof (u32_range (p_nwrite p - p_nread p)) as Hg. fold (pipe_count p) in Hg.
  assert (El : contents p = [] <-> length (contents p) = 0%nat).
  { split; [by intros ->|apply nil_length_inv]. }
  rewrite El, length_contents. split; [intros H|intros H; symmetry; apply E; lia].
  rewrite (proj1 E) by done. done.
Qed.
Lemma pipe_full_spec p : pipe_ok p -> pipe_full p = true <-> pipe_count p = PIPESIZE.
Proof.
  intros [_ Hr Hw Hc]. unfold pipe_full. rewrite Z.eqb_eq. rewrite <- (u32_id _ Hw) at 1.
  rewrite u32_eq_iff. unfold pipe_count. replace (p_nwrite p - (p_nread p + PIPESIZE))
    with ((p_nwrite p - p_nread p) - PIPESIZE) by lia.
  unfold PIPESIZE in *. unfold pipe_count, u32 in *. 
  pose proof (Z.mod_pos_bound (p_nwrite p - p_nread p) (2 ^ 32)). 
  rewrite <- Zminus_mod_idemp_l. split; intros H'.
  - apply Z.mod_divide in H' as [k Hk]; lia.
  - by rewrite H'.
Qed.

Lemma slot_inj r j k : (j < 512)%nat -> (k < 512)%nat -> slot r j = slot r k -> j = k.
Proof.
  unfold slot, PIPESIZE. intros Hj Hk H.
  pose proof (Z.mod_pos_bound (r + Z.of_nat j) 512). pose proof (Z.mod_pos_bound (r + Z.of_nat k) 512).
  assert (E : (r + Z.of_nat j) mod 512 = (r + Z.of_nat k) mod 512) by lia.
  assert (((r + Z.of_nat j) - (r + Z.of_nat k)) mod 512 = 0) as E' by (rewrite Zminus_mod, E, Z.sub_diag; done).
  apply Z.mod_divide in E' as [q Hq]; lia.
Qed.
Lemma slot_lt r k : (slot r k < 512)%nat.
Proof. unfold slot, PIPESIZE. pose proof (Z.mod_pos_bound (r + Z.of_nat k) 512). lia. Qed.

Lemma slot_S r k : slot (u32 (r + 1)) k = slot r (S k).
Proof.
  unfold slot. f_equal. rewrite <- (u32_mod_divide (u32 _ + _) PIPESIZE) by (done || by exists 8388608).
  rewrite u32_add_l, u32_mod_divide by (done || by exists 8388608). f_equal. lia.
Qed.

(** Adding a byte at the end, also when the counters wrap around. *)
Lemma put_byte_spec c p :
  pipe_ok p -> pipe_full p = false ->
  pipe_ok (put_byte c p) /\ contents (put_byte c p) = contents p ++ [c].
Proof.
  intros Hok Hf. pose proof Hok as [Hl Hr Hw Hc].
  assert (Hlt : 0 <= pipe_count p < 512).
  { pose proof (u32_range (p_nwrite p - p_nread p)) as Hg. fold (pipe_count p) in Hg.
    unfold PIPESIZE in Hc. assert (pipe_count p <> 512); [|lia].
    intros E. apply (pipe_full_spec p Hok) in E. congruence. }
  assert (Hcnt : pipe_count (put_byte c p) = pipe_count p + 1).
  { unfold pipe_count, put_byte in *. simpl. rewrite u32_sub_l.
    replace (p_nwrite p + 1 - p_nread p) with ((p_nwrite p - p_nread p) + 1) by lia.
    rewrite <- u32_add_l. apply u32_id. lia. }
  assert (Hslot : slot (p_nread p) (Z.to_nat (pipe_count p)) = Z.to_nat (p_nwrite p mod PIPESIZE)).
  { unfold slot. f_equal. rewrite Z2Nat.id by lia. unfold pipe_count.
    rewrite <- (u32_mod_divide (p_nread p + _) PIPESIZE) by (done || by exists 8388608).
    rewrite u32_add_r. replace (p_nread p + (p_nwrite p - p_nread p)) with (p_nwrite p) by lia.
    apply u32_mod_divide; [done|by exists 8388608]. }
  split.
  - split; [simpl; by rewrite length_insert|done|apply u32_range|]. rewrite Hcnt. unfold PIPESIZE. lia.
  - unfold contents. rewrite Hcnt. replace (Z.to_nat (pipe_count p + 1)) with (Z.to_nat (pipe_count p) + 1)%nat by lia.
    rewrite seq_app, fmap_app. simpl. f_equal.
    + apply list_fmap_ext. intros i k Hk. apply lookup_seq in Hk as [-> Hk]. rewrite Nat.add_0_l in *.
      rewrite !nth_lookup, list_lookup_insert_ne; [done|].
      rewrite <- Hslot. intros E. apply slot_inj in E; lia.
    + rewrite Hslot, nth_lookup, list_lookup_insert_eq; [done|]. rewrite <- Hslot, Hl. apply slot_lt.
Qed.

(** Taking the first byte. *)
Lemma get_byte_spec p :
  pipe_ok p -> pipe_empty p = false ->
  let '(c, p') := get_byte p in pipe_ok p' /\ contents p = c :: contents p' /\
    p_readopen p' = p_readopen p /\ p_writeopen p' = p_writeopen p.
Proof.
  intros Hok He. pose proof Hok as [Hl Hr Hw Hc]. unfold get_byte.
  assert (Hlt : 0 < pipe_count p <= 512).
  { pose proof (u32_range (p_nwrite p - p_nread p)) as Hg. fold (pipe_count p) in Hg.
    unfold PIPESIZE in Hc. assert (pipe_count p <> 0); [|lia]. intros E.
    assert (contents p = []) as E' by (apply nil_length_inv; rewrite length_contents, E; done).
    apply (pipe_empty_spec p Hok) in E'. congruence. }
  set (p' := mkpipe _ _ _ _ _).
  assert (Hcnt : pipe_count p' = pipe_count p - 1).
  { unfold pipe_count, p' in *. simpl. rewrite u32_sub_r.
    replace (p_nwrite p - (p_nread p + 1)) with ((p_nwrite p - p_nread p) - 1) by lia.
    rewrite <- u32_sub_l. apply u32_id. lia. }
  split; [|split; [|done]].
  - split; [done|apply u32_range|done|]. rewrite Hcnt. unfold PIPESIZE. lia.
  - unfold contents. rewrite Hcnt.
    replace (Z.to_nat (pipe_count p)) with (S (Z.to_nat (pipe_count p - 1))) by lia.
    cbn [seq]. rewrite fmap_cons. f_equal.
    + unfold slot. by rewrite Z.add_0_r.
    + rewrite <- fmap_S_seq, <- list_fmap_compose. apply list_fmap_ext. intros i k _. simpl.
      unfold p'. simpl. by rewrite slot_S.
Qed.

(** What a section of [pipewrite] does to the queue. *)
Lemma pipewrite_spec killed l : forall p, pipe_ok p ->
  match pipewrite killed l p with
  | WDone p' => pipe_ok p' /\ contents p' = contents p ++ l /\
      p_readopen p' = p_readopen p /\ p_writeopen p' = p_writeopen p
  | WFail l2 p' => exists l1, l = l1 ++ l2 /\ l2 <> [] /\ pipe_ok p' /\ contents p' = contents p ++ l1 /\
      pipe_full p' = true /\ (p_readopen p' = 0 \/ killed = true) /\
      p_readopen p' = p_readopen p /\ p_writeopen p' = p_writeopen p
  | WSleep l2 p' => exists l1, l = l1 ++ l2 /\ l2 <> [] /\ pipe_ok p' /\ contents p' = contents p ++ l1 /\
      pipe_full p' = true /\ p_readopen p' <> 0 /\ killed = false /\
      p_readopen p' = p_readopen p /\ p_writeopen p' = p_writeopen p
  end.
Proof.
  induction l as [|c l IH]; intros p Hok; cbn [pipewrite]; [by rewrite app_nil_r|].
  destruct (pipe_full p) eqn:Ef.
  - destruct (p_readopen p =? 0) eqn:Er; simpl.
    + apply Z.eqb_eq in Er. exists []. rewrite app_nil_r. split_and!; auto.
    + apply Z.eqb_neq in Er. destruct killed.
      * exists []. rewrite app_nil_r. split_and!; auto.
      * exists []. rewrite app_nil_r. split_and!; auto.
  - destruct (put_byte_spec c p Hok Ef) as [Hok' Hc]. specialize (IH _ Hok').
    destruct (pipewrite killed l (put_byte c p)) as [p'|l2 p'|l2 p'].
    + destruct IH as (? & -> & ?). by rewrite Hc, <- app_assoc.
    + destruct IH as (l1 & -> & ? & ? & -> & ?). exists (c :: l1). by rewrite Hc, <- app_assoc.
    + destruct IH as (l1 & -> & ? & ? & -> & ?). exists (c :: l1). by rewrite Hc, <- app_assoc.
Qed.

Lemma read_loop_spec n : forall p, pipe_ok p ->
  let '(l, p') := read_loop n p in
  pipe_ok p' /\ contents p = l ++ contents p' /\ l = take n (contents p) /\
  p_readopen p' = p_readopen p /\ p_writeopen p' = p_writeopen p.
Proof.
  induction n as [|n IH]; intros p Hok; cbn [read_loop]; [done|].
  destruct (pipe_empty p) eqn:Ee.
  - apply (pipe_empty_spec p Hok) in Ee. rewrite Ee. done.
  - pose proof (get_byte_spec p Hok Ee) as Hg. destruct (get_byte p) as [c p1].
    destruct Hg as (Hok1 & Hc & Hro & Hwo). specialize (IH p1 Hok1).
    destruct (read_loop n p1) as [l p2]. destruct IH as (? & ? & ? & ? & ?).
    rewrite Hc. simpl. split_and!; [done|by f_equal|by f_equal|congruence|congruence].
Qed.

Lemma piperead_spec killed n p : pipe_ok p ->
  match piperead killed n p with
  | RDone l p' => pipe_ok p' /\ contents p = l ++ contents p' /\ l = take (Z.to_nat n) (contents p) /\
      p_readopen p' = p_readopen p /\ p_writeopen p' = p_writeopen p /\
      (contents p <> [] \/ p_writeopen p = 0)
  | RFail p' => p' = p /\ killed = true
  | RSleep p' => p' = p /\ contents p = [] /\ p_writeopen p <> 0 /\ killed = false
  end.
Proof.
  intros Hok. unfold piperead. destruct (pipe_empty p) eqn:Ee; simpl.
  - pose proof Ee as Ee'. apply (pipe_empty_spec p Hok) in Ee'. destruct (p_writeopen p =? 0) eqn:Ew; simpl.
    + apply Z.eqb_eq in Ew. pose proof (read_loop_spec (Z.to_nat n) p Hok).
      destruct (read_loop (Z.to_nat n) p). destruct_and!. split_and!; auto.
    + apply Z.eqb_neq in Ew. by destruct killed.
  - assert (contents p <> []).
    { intros E. apply (pipe_empty_spec p Hok) in E. congruence. }
    pose proof (read_loop_spec (Z.to_nat n) p Hok).
    destruct (read_loop (Z.to_nat n) p). destruct_and!. split_and!; auto.
Qed.

Lemma pipeclose_spec w p : pipe_ok p ->
  let '(freed, p') := pipeclose w p in
  pipe_ok p' /\ contents p' = contents p /\
  p_readopen p' = (if w then p_readopen p else 0) /\ p_writeopen p' = (if w then 0 else p_writeopen p) /\
  freed = (p_readopen p' =? 0) && (p_writeopen p' =? 0).
Proof. intros [? ? ? ?]. destruct w; simpl; (split; [by split|done]). Qed.

(** ** Readers and writers *)

Module System.

(** The file layer calls [pipeclose] for an end when the last reference to it
    is gone, so a call at an end only runs while that end is open. *)

(** A process in the middle of a call: ready to run its section, or asleep. *)
Inductive call :=
| Writing (l : list Z) | WAsleep (l : list Z)
| Reading (n : Z) | RAsleep (n : Z).

(** [s_sent] records, section by section, the bytes of its argument that a
    writer has got past in its loop; [s_rcvd] the bytes that readers return. *)
Record state := mkstate { s_pipe : pipe; s_calls : gmap Z call; s_sent : list Z; s_rcvd : list Z }.

(** [wakeup(&p->nread)] and [wakeup(&p->nwrite)] *)
Definition wake_readers (c : call) : call := match c with RAsleep n => Reading n | c => c end.
Definition wake_writers (c : call) : call := match c with WAsleep l => Writing l | c => c end.

Definition is_writer (c : call) : bool := match c with Writing _ | WAsleep _ => true | _ => false end.

(** The bytes of [l] that come before [rest]: the [addr[i]] a section of
    [pipewrite] is done with when it stops with [rest] left. *)
Definition stored (l rest : list Z) : list Z := take (length l - length rest) l.

Inductive step (killed : bool) : state -> state -> Prop :=
| call_write s pid l :
    s_calls s !! pid = None -> p_writeopen (s_pipe s) <> 0 ->
    step killed s (mkstate (s_pipe s) (<[pid := Writing l]> (s_calls s)) (s_sent s) (s_rcvd s))
| call_read s pid n :
    s_calls s !! pid = None -> p_readopen (s_pipe s) <> 0 ->
    step killed s (mkstate (s_pipe s) (<[pid := Reading n]> (s_calls s)) (s_sent s) (s_rcvd s))
| write_done s pid l p' :
    s_calls s !! pid = Some (Writing l) -> pipewrite killed l (s_pipe s) = WDone p' ->
    step killed s (mkstate p' (wake_readers <$> delete pid (s_calls s)) (s_sent s ++ l) (s_rcvd s))
| write_sleep s pid l rest p' :
    s_calls s !! pid = Some (Writing l) -> pipewrite killed l (s_pipe s) = WSleep rest p' ->
    step killed s (mkstate p' (<[pid := WAsleep rest]> (wake_readers <$> s_calls s))
                           (s_sent s ++ stored l rest) (s_rcvd s))
| write_fail s pid l rest p' :
    s_calls s !! pid = Some (Writing l) -> pipewrite killed l (s_pipe s) = WFail rest p' ->
    step killed s (mkstate p' (delete pid (s_calls s)) (s_sent s ++ stored l rest) (s_rcvd s))
| read_done s pid n l p' :
    s_calls s !! pid = Some (Reading n) -> piperead killed n (s_pipe s) = RDone l p' ->
    step killed s (mkstate p' (wake_writers <$> delete pid (s_calls s)) (s_sent s) (s_rcvd s ++ l))
| read_sleep s pid n p' :
    s_calls s !! pid = Some (Reading n) -> piperead killed n (s_pipe s) = RSleep p' ->
    step killed s (mkstate p' (<[pid := RAsleep n]> (s_calls s)) (s_sent s) (s_rcvd s))
| read_fail s pid n p' :
    s_calls s !! pid = Some (Reading n) -> piperead killed n (s_pipe s) = RFail p' ->
    step killed s (mkstate p' (delete pid (s_calls s)) (s_sent s) (s_rcvd s))
| close_end s w :
    (forall pid c, s_calls s !! pid = Some c -> is_writer c = negb w) ->
    step killed s (mkstate (pipeclose w (s_pipe s)).2
                   ((if w then wake_readers else wake_writers) <$> s_calls s) (s_sent s) (s_rcvd s))
| kill_wakes s pid c :   (* [kill] makes a sleeping process runnable *)
    killed = true -> s_calls s !! pid = Some c ->
    step killed s (mkstate (s_pipe s) (<[pid := wake_readers (wake_writers c)]> (s_calls s)) (s_sent s) (s_rcvd s)).

(** States reached from a new pipe; [kills] allows steps of killed processes. *)
Inductive reachable (kills : bool) : state -> Prop :=
| reach_init junk : length junk = 512%nat -> reachable kills (mkstate (pipe_init junk) ∅ [] [])
| reach_step killed s s' :
    reachable kills s -> step killed s s' -> (killed = true -> kills = true) -> reachable kills s'.

Record inv (s : state) : Prop := mk_inv {
  i_ok : pipe_ok (s_pipe s);
  i_fifo : s_sent s = s_rcvd s ++ contents (s_pipe s)
}.
(** Nobody sleeps who could go on. *)
Record awake (s : state) : Prop := mk_awake {
  aw_r : forall pid n, s_calls s !! pid = Some (RAsleep n) ->
    contents (s_pipe s) = [] /\ p_writeopen (s_pipe s) <> 0;
  aw_w : forall pid l, s_calls s !! pid = Some (WAsleep l) ->
    pipe_full (s_pipe s) = true /\ p_readopen (s_pipe s) <> 0
}.

Lemma stored_app l1 l2 : stored (l1 ++ l2) l2 = l1.
Proof.
  unfold stored. rewrite length_app, Nat.add_sub. apply take_app_length.
Qed.

Lemma pipe_step_inv killed s s' : inv s -> step killed s s' -> inv s'.
Proof.
  intros [Hok Hf] Hs. destruct Hs as [s pid l _ _|s pid n _ _|s pid l p' _ Hp|s pid l rest p' _ Hp|s pid l rest p' _ Hp
    |s pid n l p' _ Hp|s pid n p' _ Hp|s pid n p' _ Hp|s w _|s pid c _ _]; try by split.
  - pose proof (pipewrite_spec killed l _ Hok) as H. rewrite Hp in H. destruct_and!.
    split; simpl; [done|]. rewrite Hf, <- app_assoc. congruence.
  - pose proof (pipewrite_spec killed l _ Hok) as H. rewrite Hp in H. destruct H as (l1 & -> & H). destruct_and!.
    split; simpl; [done|]. rewrite stored_app, Hf, <- app_assoc. congruence.
  - pose proof (pipewrite_spec killed l _ Hok) as H. rewrite Hp in H. destruct H as (l1 & -> & H). destruct_and!.
    split; simpl; [done|]. rewrite stored_app, Hf, <- app_assoc. congruence.
  - pose proof (piperead_spec killed n _ Hok) as H. rewrite Hp in H. destruct H as (? & E & _).
    split; simpl; [done|]. by rewrite Hf, E, app_assoc.
  - pose proof (piperead_spec killed n _ Hok) as H. rewrite Hp in H. destruct H as (-> & _). by split.
  - pose proof (piperead_spec killed n _ Hok) as H. rewrite Hp in H. destruct H as (-> & _). by split.
  - pose proof (pipeclose_spec w _ Hok) as H. destruct (pipeclose w (s_pipe s)) as [fr p'].
    destruct H as (? & E & _). split; simpl; [done|]. by rewrite E.
Qed.

Lemma pipe_reachable_inv kills s : reachable kills s -> inv s.
Proof.
  induction 1 as [junk Hj|killed s s' _ IH Hs _]; [|by eapply pipe_step_inv].
  split; simpl; [|done]. split; simpl; [done|lia|lia|done].
Qed.

(** Each end a call uses is open. *)
Definition open_ends (s : state) : Prop := forall pid c, s_calls s !! pid = Some c ->
  if is_writer c then p_writeopen (s_pipe s) <> 0 else p_readopen (s_pipe s) <> 0.

Lemma is_writer_wake c : is_writer (wake_readers c) = is_writer c /\ is_writer (wake_writers c) = is_writer c.
Proof. by destruct c. Qed.

(** The calls left by a step, when the step leaves the flags alone. *)
Lemma open_ends_sub s s' :
  open_ends s -> p_readopen (s_pipe s') = p_readopen (s_pipe s) -> p_writeopen (s_pipe s') = p_writeopen (s_pipe s) ->
  (forall pid c, s_calls s' !! pid = Some c -> exists c', s_calls s !! pid = Some c' /\ is_writer c = is_writer c') ->
  open_ends s'.
Proof.
  intros Ho Hr Hw Hc pid c (c' & Hc' & E)%Hc. rewrite Hr, Hw, E. by apply (Ho pid).
Qed.
Lemma fmap_calls (f : call -> call) (m : gmap Z call) pid c :
  (f <$> m) !! pid = Some c -> exists c', m !! pid = Some c' /\ c = f c'.
Proof. rewrite lookup_fmap. intros (c' & Hc & ->)%fmap_Some. eauto. Qed.

Lemma step_open killed s s' : inv s -> open_ends s -> step killed s s' -> open_ends s'.
Proof.
  intros [Hok _] Ho Hs. destruct Hs as [s pid l Hn Hw|s pid n Hn Hr|s pid l p' Hc Hp|s pid l rest p' Hc Hp|s pid l rest p' Hc Hp
    |s pid n l p' Hc Hp|s pid n p' Hc Hp|s pid n p' Hc Hp|s w Hc|s pid c Hk Hc].
  - intros q c. simpl. rewrite lookup_insert. case_decide; [by intros [= <-]|apply Ho].
  - intros q c. simpl. rewrite lookup_insert. case_decide; [by intros [= <-]|apply Ho].
  - pose proof (pipewrite_spec killed l _ Hok) as H. rewrite Hp in H. destruct_and!.
    eapply open_ends_sub; [done..|]. simpl. intros q c (c' & [_ Hc']%lookup_delete_Some & ->)%fmap_calls.
    exists c'. split; [done|]. apply is_writer_wake.
  - pose proof (pipewrite_spec killed l _ Hok) as H. rewrite Hp in H. destruct H as (l1 & -> & H). destruct_and!.
    eapply open_ends_sub; [done..|]. simpl. intros q c. rewrite lookup_insert. case_decide; [subst|].
    + intros [= <-]. by eexists.
    + intros (c' & Hc' & ->)%fmap_calls. exists c'. split; [done|]. apply is_writer_wake.
  - pose proof (pipewrite_spec killed l _ Hok) as H. rewrite Hp in H. destruct H as (l1 & -> & H). destruct_and!.
    eapply open_ends_sub; [done..|]. simpl. intros q c [_ Hc']%lookup_delete_Some. by exists c.
  - pose proof (piperead_spec killed n _ Hok) as H. rewrite Hp in H. destruct_and!.
    eapply open_ends_sub; [done..|]. simpl. intros q c (c' & [_ Hc']%lookup_delete_Some & ->)%fmap_calls.
    exists c'. split; [done|]. apply is_writer_wake.
  - pose proof (piperead_spec killed n _ Hok) as H. rewrite Hp in H. destruct H as (-> & _).
    eapply open_ends_sub; [done..|]. simpl. intros q c. rewrite lookup_insert. case_decide; [subst|].
    + intros [= <-]. by eexists.
    + intros Hc'. by exists c.
  - pose proof (piperead_spec killed n _ Hok) as H. rewrite Hp in H. destruct H as (-> & _).
    eapply open_ends_sub; [done..|]. simpl. intros q c [_ Hc']%lookup_delete_Some. by exists c.
  - intros q c. simpl. intros (c' & Hc' & ->)%fmap_calls. pose proof (Hc _ _ Hc') as Hw. pose proof (Ho _ _ Hc') as Hop.
    pose proof (is_writer_wake c') as [E1 E2]. destruct w; simpl in Hw.
    + rewrite E1. by rewrite Hw in *.
    + rewrite E2. by rewrite Hw in *.
  - intros q c'. simpl. rewrite lookup_insert. case_decide as E; [|apply Ho].
    intros [= <-]. pose proof (Ho _ _ Hc). pose proof (is_writer_wake c). by destruct c.
Qed.

Lemma full_done l p p' : pipe_full p = true -> pipewrite false l p = WDone p' -> p' = p.
Proof.
  intros Hf. destruct l as [|c l]; cbn [pipewrite]; [by intros [= <-]|]. rewrite Hf.
  by destruct ((p_readopen p =? 0) || false).
Qed.

Lemma step_awake s s' : inv s -> open_ends s -> awake s -> step false s s' -> awake s'.
Proof.
  intros [Hok _] Ho [Hr Hw] Hs. destruct Hs as [s pid l Hn _|s pid n Hn _|s pid l p' Hc Hp|s pid l rest p' Hc Hp|s pid l rest p' Hc Hp
    |s pid n l p' Hc Hp|s pid n p' Hc Hp|s pid n p' Hc Hp|s w Hc|s pid c Hk Hc].
  - split; simpl; intros q c; rewrite lookup_insert; case_decide; naive_solver.
  - split; simpl; intros q c; rewrite lookup_insert; case_decide; naive_solver.
  - split; simpl.
    + intros q n (c & _ & E)%fmap_calls. by destruct c.
    + intros q l' (c & [_ Hq]%lookup_delete_Some & E)%fmap_calls. destruct c; simplify_eq/=.
      destruct (Hw _ _ Hq) as [Hf ?]. by rewrite (full_done _ _ _ Hf Hp).
  - pose proof (pipewrite_spec false l _ Hok) as H. rewrite Hp in H. destruct H as (l1 & -> & H). destruct_and!.
    split; simpl.
    + intros q n. rewrite lookup_insert. case_decide; [done|]. intros (c & _ & E)%fmap_calls. by destruct c.
    + done.
  - pose proof (pipewrite_spec false l _ Hok) as H. rewrite Hp in H. destruct H as (l1 & -> & H). destruct_and!.
    destruct_or!; [|done]. split; simpl.
    + intros q n [_ Hq]%lookup_delete_Some. specialize (Ho _ _ Hq). simpl in Ho. congruence.
    + intros q n [_ Hq]%lookup_delete_Some. destruct (Hw _ _ Hq). congruence.
  - pose proof (piperead_spec false n _ Hok) as H. rewrite Hp in H. destruct_and!. split; simpl.
    + intros q m (c & [_ Hq]%lookup_delete_Some & E)%fmap_calls. destruct c; simplify_eq/=.
      destruct (Hr _ _ Hq). by destruct_or!.
    + intros q m (c & _ & E)%fmap_calls. by destruct c.
  - pose proof (piperead_spec false n _ Hok) as H. rewrite Hp in H. destruct H as (-> & ? & ? & _). split; simpl.
    + done.
    + intros q m. rewrite lookup_insert. case_decide; [done|]. apply Hw.
  - pose proof (piperead_spec false n _ Hok) as H. rewrite Hp in H. by destruct H.
  - pose proof (pipeclose_spec w _ Hok) as H. destruct (pipeclose w (s_pipe s)) as [fr p'].
    split; simpl; intros q m (c & Hq & E)%fmap_calls; pose proof (Hc _ _ Hq) as Hcw; destruct w, c; simplify_eq/=.
  - done.
Qed.

Lemma reachable_open kills s : reachable kills s -> open_ends s.
Proof.
  induction 1 as [junk Hj|killed s s' H IH Hs _]; [done|].
  eapply step_open; [|done..]. by eapply pipe_reachable_inv.
Qed.
Lemma reachable_awake s : reachable false s -> awake s.
Proof.
  induction 1 as [junk Hj|killed s s' H IH Hs Hk]; [by split|].
  destruct killed; [by specialize (Hk eq_refl)|].
  eapply step_awake; [| |done|done]; [by eapply pipe_reachable_inv|by eapply reachable_open].
Qed.

(** C7.  Pipes are first in, first out.  In every interleaving of the calls of
    readers and writers, with closed ends, with kills and with 32-bit counters
    that wrap around, the bytes of their arguments that the writers' loops have
    got past, also in the calls that return -1 half way, are exactly the bytes
    that the readers have returned followed by the bytes in the buffer, which
    are at most [PIPESIZE]. *)
Theorem pipe_fifo kills s :
  reachable kills s ->
  s_sent s = s_rcvd s ++ contents (s_pipe s) /\ (length (contents (s_pipe s)) <= Z.to_nat PIPESIZE)%nat.
Proof.
  intros [Hok Hf]%pipe_reachable_inv. split; [done|]. rewrite length_contents.
  pose proof (po_count _ Hok). lia.
Qed.

(** C33.  Without kills no wakeup is lost: a sleeping reader means an empty pipe
    with its write end open, a sleeping writer means a full pipe with its read
    end open, so readers and writers never sleep at the same time. *)
Theorem pipe_no_lost_wakeup s :
  reachable false s ->
  (forall pid n, s_calls s !! pid = Some (RAsleep n) ->
     piperead false n (s_pipe s) = RSleep (s_pipe s)) /\
  (forall pid l, s_calls s !! pid = Some (WAsleep l) ->
     pipe_full (s_pipe s) = true /\ p_readopen (s_pipe s) <> 0) /\
  ~ (exists pid pid' n l, s_calls s !! pid = Some (RAsleep n) /\ s_calls s !! pid' = Some (WAsleep l)).
Proof.
  intros Hs. pose proof (i_ok _ (pipe_reachable_inv _ _ Hs)) as Hok. destruct (reachable_awake _ Hs) as [Hr Hw].
  split_and!.
  - intros pid n [He Ho]%Hr. unfold piperead. apply (pipe_empty_spec _ Hok) in He.
    rewrite He, (proj2 (Z.eqb_neq _ 0) Ho). done.
  - apply Hw.
  - intros (pid & pid' & n & l & [He _]%Hr & [Hf _]%Hw). apply (pipe_full_spec _ Hok) in Hf.
    pose proof (length_contents (s_pipe s)) as Hl. rewrite He, Hf in Hl. done.
Qed.

(** A new pipe, a reader that finds it empty and sleeps, a writer of three
    bytes that wakes it, and the reader taking two of them. *)
Definition demo0 : state := mkstate (pipe_init (replicate 512 0)) ∅ [] [].
Definition demo_sleeper : state := mkstate (s_pipe demo0) {[ 2 := RAsleep 2 ]} [] [].
Definition demo_pipe : pipe := put_byte 3 (put_byte 2 (put_byte 1 (s_pipe demo0))).
Definition demo_read : state := mkstate (get_byte (get_byte demo_pipe).2).2 ∅ [1; 2; 3] [1; 2].

Lemma demo_sleeper_reachable kills : reachable kills demo_sleeper.
Proof.
  pose (s1 := mkstate (s_pipe demo0) {[ 2 := Reading 2 ]} [] []).
  apply (reach_step kills false s1); [|exact (read_sleep false s1 2 2 _ eq_refl eq_refl)|done].
  apply (reach_step kills false demo0); [|by apply (call_read false demo0 2 2)|done].
  apply (reach_init kills (replicate 512 0)). apply length_replicate.
Qed.
Lemma demo_read_reachable kills : reachable kills demo_read.
Proof.
  pose (s1 := mkstate (s_pipe demo0) (<[1 := Writing [1; 2; 3]]> {[ 2 := RAsleep 2 ]}) [] []).
  pose (s2 := mkstate demo_pipe {[ 2 := Reading 2 ]} [1; 2; 3] []).
  apply (reach_step kills false s2); [|exact (read_done false s2 2 2 [1; 2] _ eq_refl eq_refl)|done].
  apply (reach_step kills false s1); [|exact (write_done false s1 1 [1; 2; 3] _ eq_refl eq_refl)|done].
  apply (reach_step kills false demo_sleeper); [|by apply (call_write false demo_sleeper 1 [1; 2; 3])|done].
  apply demo_sleeper_reachable.
Qed.

Lemma pipe_fifo_witness : reachable true demo_read /\ [1; 2; 3] = [1; 2] ++ contents (s_pipe demo_read).
Proof.
  split; [apply demo_read_reachable|]. exact (proj1 (pipe_fifo _ _ (demo_read_reachable true))).
Defined.
Lemma pipe_no_lost_wakeup_witness : reachable false demo_sleeper /\
  piperead false 2 (s_pipe demo_sleeper) = RSleep (s_pipe demo_sleeper).
Proof.
  split; [apply demo_sleeper_reachable|].
  exact (proj1 (pipe_no_lost_wakeup _ (demo_sleeper_reachable false)) 2 2 eq_refl).
Defined.

(** A killed writer loses a wakeup: a reader can be asleep while the pipe
    is full and no other process is in a pipe call, because [pipewrite] returns
    -1 to a killed process without waking the readers. *)
Theorem pipe_killed_writer_lost_wakeup :
  exists s pid n, reachable true s /\ s_calls s = {[ pid := RAsleep n ]} /\ pipe_full (s_pipe s) = true /\
    p_writeopen (s_pipe s) <> 0.
Proof.
  set (p0 := pipe_init (replicate 512 0)). set (c1 := <[1 := Reading 1]> (∅ : gmap Z call)).
  set (c2 := <[2 := Writing (replicate 513 7)]> (<[1 := RAsleep 1]> c1)).
  assert (Hok : pipe_ok p0) by (split; [apply length_replicate|simpl; lia|simpl; lia|done]).
  pose proof (pipewrite_spec true (replicate 513 7) p0 Hok) as H.
  destruct (pipewrite true (replicate 513 7) p0) as [p'|rest p'|rest p'] eqn:Ep.
  - destruct H as (Hok' & Hc & _). pose proof (length_contents p') as Hl. pose proof (po_count _ Hok').
    rewrite Hc, length_app, length_replicate in Hl. unfold PIPESIZE in *. lia.
  - destruct H as (l1 & _ & _ & _ & _ & Hf & _ & _ & Hw).
    exists (mkstate p' (delete 2 c2) ([] ++ stored (replicate 513 7) rest) []), 1, 1. split; [|split; [|split]].
    + pose (s0 := mkstate p0 ∅ [] []). pose (s1 := mkstate p0 c1 [] []). pose (s2 := mkstate p0 (<[1 := RAsleep 1]> c1) [] []).
      pose (s3 := mkstate p0 c2 [] []).
      assert (R0 : reachable true s0) by (apply reach_init, length_replicate).
      assert (R1 : reachable true s1) by (apply (reach_step true true _ s1 R0); [by apply (call_read true s0 1 1)|done]).
      assert (R2 : reachable true s2) by (apply (reach_step true false _ s2 R1); [by apply (read_sleep false s1 1 1)|done]).
      assert (R3 : reachable true s3) by (apply (reach_step true true _ s3 R2); [by apply (call_write true s2 2 (replicate 513 7))|done]).
      apply (reach_step true true _ _ R3); [|done].
      by apply (write_fail true s3 2 (replicate 513 7) rest).
    + simpl. unfold c2, c1. by rewrite delete_insert_id, insert_insert_eq.
    + done.
    + simpl. by rewrite Hw.
  - destruct H as (l1 & _ & _ & _ & _ & _ & _ & [=] & _).
Qed.
End System.
