(* ===== verification/Mmu.v ===== *)
(** * The memory management unit: [mmu.h], [memlayout.h]

    The constants, address macros and descriptor formats of the x86 that the
    kernel uses.  The bit fields of a descriptor are the fields of a record;
    [seg_base], [seg_limit] and [gate_off] are what the processor reads from
    them.

    Results: an address is recovered from its three parts, rounding to pages
    is arithmetic, an entry is recovered from its address and flags, and a
    segment or gate descriptor describes the base, limit and entry point it
    was built from. *)

From S2P Require Import Prelude.

(** ** [memlayout.h] *)

Definition EXTMEM : Z := 0x100000.
Definition PHYSTOP : Z := 0xE000000.
Definition DEVSPACE : Z := 0xFE000000.
Definition KERNBASE : Z := 0x80000000.
Definition KERNLINK : Z := KERNBASE + EXTMEM.
Definition V2P (a : Z) : Z := u32 (a - KERNBASE).
Definition P2V (a : Z) : Z := u32 (a + KERNBASE).

(** ** Pages *)

Definition FL_IF : Z := 0x200.

Definition PDXSHIFT : Z := 22.
Definition PTXSHIFT : Z := 12.
Definition PDX (va : Z) : Z := Z.land (Z.shiftr (u32 va) PDXSHIFT) 0x3FF.
Definition PTX (va : Z) : Z := Z.land (Z.shiftr (u32 va) PTXSHIFT) 0x3FF.
Definition PGADDR (d t o : Z) : Z :=
  u32 (Z.lor (Z.lor (Z.shiftl d PDXSHIFT) (Z.shiftl t PTXSHIFT)) o).

Definition NPDENTRIES : Z := 1024.
Definition NPTENTRIES : Z := 1024.
Definition PGSIZE : Z := 4096.
Definition PGROUNDUP (sz : Z) : Z := Z.land (u32 (sz + PGSIZE - 1)) (u32 (Z.lnot (PGSIZE - 1))).
Definition PGROUNDDOWN (a : Z) : Z := Z.land a (u32 (Z.lnot (PGSIZE - 1))).

Definition PTE_P : Z := 0x001.
Definition PTE_W : Z := 0x002.
Definition PTE_U : Z := 0x004.
Definition PTE_ADDR (pte : Z) : Z := Z.land (u32 pte) (u32 (Z.lnot 0xFFF)).
Definition PTE_FLAGS (pte : Z) : Z := Z.land (u32 pte) 0xFFF.

(** ** Segments *)

Definition SEG_KCODE : Z := 1.
Definition SEG_KDATA : Z := 2.
Definition SEG_UCODE : Z := 3.
Definition SEG_UDATA : Z := 4.
Definition SEG_TSS : Z := 5.
Definition NSEGS : nat := 6.
Definition DPL_USER : Z := 3.
Definition STA_X : Z := 0x8.
Definition STA_W : Z := 0x2.
Definition STA_R : Z := 0x2.
Definition STS_T32A : Z := 0x9.
Definition STS_IG32 : Z := 0xE.
Definition STS_TG32 : Z := 0xF.

Record segdesc := mksegdesc {
  lim_15_0 : Z; base_15_0 : Z; base_23_16 : Z; sd_type : Z; sd_s : Z; sd_dpl : Z; sd_p : Z;
  lim_19_16 : Z; sd_avl : Z; sd_rsv1 : Z; sd_db : Z; sd_g : Z; base_31_24 : Z
}.
#[global] Instance segdesc_eq_dec : EqDecision segdesc.
Proof. solve_decision. Defined.
Definition segdesc0 : segdesc := mksegdesc 0 0 0 0 0 0 0 0 0 0 0 0 0.

Definition SEG (type base lim dpl : Z) : segdesc :=
  mksegdesc (Z.land (Z.shiftr lim 12) 0xffff) (Z.land (u32 base) 0xffff)
    (Z.land (Z.shiftr (u32 base) 16) 0xff) type 1 dpl 1
    (Z.shiftr (u32 lim) 28) 0 0 1 1 (Z.shiftr (u32 base) 24).
Definition SEG16 (type base lim dpl : Z) : segdesc :=
  mksegdesc (Z.land lim 0xffff) (Z.land (u32 base) 0xffff)
    (Z.land (Z.shiftr (u32 base) 16) 0xff) type 1 dpl 1
    (Z.shiftr (u32 lim) 16) 0 0 1 0 (Z.shiftr (u32 base) 24).

(** The base and the limit the processor reads from a descriptor: with the
    granularity bit the limit counts pages. *)
Definition seg_base (s : segdesc) : Z :=
  base_15_0 s + 2 ^ 16 * base_23_16 s + 2 ^ 24 * base_31_24 s.
Definition seg_limit (s : segdesc) : Z :=
  let l := lim_15_0 s + 2 ^ 16 * lim_19_16 s in
  if sd_g s =? 1 then 4096 * l + 4095 else l.

(** ** The task state segment: the fields of [struct taskstate], the paddings
    left out *)
Record taskstate := mktaskstate {
  ts_link : Z; ts_esp0 : Z; ts_ss0 : Z; ts_esp1 : Z; ts_ss1 : Z; ts_esp2 : Z; ts_ss2 : Z;
  ts_cr3 : Z; ts_eip : Z; ts_eflags : Z; ts_eax : Z; ts_ecx : Z; ts_edx : Z; ts_ebx : Z;
  ts_esp : Z; ts_ebp : Z; ts_esi : Z; ts_edi : Z; ts_es : Z; ts_cs : Z; ts_ss : Z; ts_ds : Z;
  ts_fs : Z; ts_gs : Z; ts_ldt : Z; ts_t : Z; ts_iomb : Z
}.
Definition taskstate0 : taskstate :=
  mktaskstate 0 0 0 0 0 0 0 0 0 0 0 0 0 0 0 0 0 0 0 0 0 0 0 0 0 0 0.
(** [sizeof(struct taskstate)] *)
Definition sizeof_taskstate : Z := 104.
Definition set_kernel_stack (ss0 esp0 iomb : Z) (t : taskstate) : taskstate :=
  mktaskstate (ts_link t) esp0 ss0 (ts_esp1 t) (ts_ss1 t) (ts_esp2 t) (ts_ss2 t) (ts_cr3 t)
    (ts_eip t) (ts_eflags t) (ts_eax t) (ts_ecx t) (ts_edx t) (ts_ebx t) (ts_esp t) (ts_ebp t)
    (ts_esi t) (ts_edi t) (ts_es t) (ts_cs t) (ts_ss t) (ts_ds t) (ts_fs t) (ts_gs t) (ts_ldt t)
    (ts_t t) iomb.

(** ** Interrupt gates *)
Record gatedesc := mkgatedesc {
  off_15_0 : Z; g_cs : Z; g_args : Z; g_rsv1 : Z; g_type : Z; g_s : Z; g_dpl : Z; g_p : Z;
  off_31_16 : Z
}.
Definition SETGATE (istrap : bool) (sel off d : Z) : gatedesc :=
  mkgatedesc (Z.land (u32 off) 0xffff) sel 0 0 (if istrap then STS_TG32 else STS_IG32) 0 d 1
    (Z.shiftr (u32 off) 16).
Definition gate_off (g : gatedesc) : Z := off_15_0 g + 2 ^ 16 * off_31_16 g.

(** ** Lemmas *)

Lemma land_ones_mod a k : 0 <= k -> Z.land a (2 ^ k - 1) = a mod 2 ^ k.
Proof. intros. rewrite <- Z.land_ones by done. by rewrite Z.ones_equiv, Z.sub_1_r. Qed.

(** Clearing the low [k] bits of a 32-bit word. *)
Lemma land_high a k : 0 <= k <= 32 -> 0 <= a < 2 ^ 32 ->
  Z.land a (2 ^ 32 - 2 ^ k) = 2 ^ k * (a / 2 ^ k).
Proof.
  intros Hk Ha. apply Z.bits_inj'. intros n Hn. rewrite Z.land_spec.
  assert (Hm : 2 ^ 32 - 2 ^ k = Z.shiftl (Z.ones (32 - k)) k).
  { rewrite Z.shiftl_mul_pow2, Z.ones_equiv by lia.
    replace (2 ^ 32) with (2 ^ (32 - k) * 2 ^ k); [lia|]. rewrite <- Z.pow_add_r by lia. f_equal. lia. }
  rewrite Hm. rewrite Z.shiftl_spec by lia.
  rewrite (Z.mul_comm (2 ^ k)), <- Z.shiftl_mul_pow2, <- Z.shiftr_div_pow2, Z.shiftl_spec by lia.
  destruct (decide (n < k)).
  - by rewrite (Z.testbit_neg_r (Z.ones _)), (Z.testbit_neg_r (Z.shiftr _ _)), andb_false_r by lia.
  - rewrite Z.shiftr_spec, Z.sub_add by lia. destruct (decide (n < 32)).
    + rewrite Z.ones_spec_low, andb_true_r by lia. done.
    + rewrite Z.ones_spec_high, andb_false_r by lia. symmetry.
      apply Z.bits_above_log2; [lia|]. destruct (decide (a = 0)) as [->|]; [simpl; lia|].
      apply Z.log2_lt_pow2; [lia|]. assert (2 ^ 32 <= 2 ^ n) by (apply Z.pow_le_mono_r; lia). lia.
Qed.

(** Or-ing flags below the low bits of an aligned word adds them. *)
Lemma lor_low a b k : 0 <= k -> a mod 2 ^ k = 0 -> 0 <= b < 2 ^ k -> Z.lor a b = a + b.
Proof.
  intros Hk Ha Hb. symmetry. rewrite <- Z.lxor_lor; [apply Z.add_nocarry_lxor|];
  apply Z.bits_inj'; intros n Hn; rewrite Z.land_spec, Z.bits_0; destruct (decide (n < k)).
  1,3: assert (Z.testbit a n = false) as ->; [|done];
       rewrite <- (Z.mod_pow2_bits_low a k n) by lia; rewrite Ha; apply Z.bits_0.
  all: assert (Z.testbit b n = false) as ->; [|apply andb_false_r];
       rewrite <- (Z.mod_small b (2 ^ k)) by lia; apply Z.mod_pow2_bits_high; lia.
Qed.

Lemma PGROUNDDOWN_eq a : 0 <= a < 2 ^ 32 -> PGROUNDDOWN a = 4096 * (a / 4096).
Proof. intros. exact (land_high a 12 ltac:(lia) H). Qed.
Lemma PGROUNDUP_eq a : 0 <= a <= 2 ^ 32 - 4096 -> PGROUNDUP a = 4096 * ((a + 4095) / 4096).
Proof.
  intros. unfold PGROUNDUP, PGSIZE. rewrite u32_id by lia.
  replace (a + 4096 - 1) with (a + 4095) by lia. exact (land_high (a + 4095) 12 ltac:(lia) ltac:(lia)).
Qed.
Lemma PDX_eq va : 0 <= va < 2 ^ 32 -> PDX va = va / 2 ^ 22.
Proof.
  intros. unfold PDX, PDXSHIFT. rewrite u32_id, Z.shiftr_div_pow2 by lia.
  change 0x3FF with (2 ^ 10 - 1). rewrite land_ones_mod by lia. apply Z.mod_small.
  split; [apply Z.div_pos; lia|apply Z.div_lt_upper_bound; lia].
Qed.
Lemma PTX_eq va : 0 <= va < 2 ^ 32 -> PTX va = va / 4096 mod 1024.
Proof.
  intros. unfold PTX, PTXSHIFT. rewrite u32_id, Z.shiftr_div_pow2 by lia.
  change 0x3FF with (2 ^ 10 - 1). by rewrite land_ones_mod by lia.
Qed.
Lemma PTE_ADDR_eq e : 0 <= e < 2 ^ 32 -> PTE_ADDR e = 4096 * (e / 4096).
Proof. intros. unfold PTE_ADDR. rewrite u32_id by lia. exact (land_high e 12 ltac:(lia) ltac:(lia)). Qed.
Lemma PTE_FLAGS_eq e : 0 <= e < 2 ^ 32 -> PTE_FLAGS e = e mod 4096.
Proof.
  intros. unfold PTE_FLAGS. rewrite u32_id by lia. change 0xFFF with (2 ^ 12 - 1). by rewrite land_ones_mod by lia.
Qed.

Lemma PGADDR_eq d t o : 0 <= d -> 0 <= t < 1024 -> 0 <= o < 4096 ->
  PGADDR d t o = u32 (2 ^ 22 * d + 4096 * t + o).
Proof.
  intros Hd Ht Ho. unfold PGADDR, PDXSHIFT, PTXSHIFT. rewrite !Z.shiftl_mul_pow2 by lia. f_equal.
  rewrite (lor_low (d * 2 ^ 22) _ 22); [|lia|apply Z.mod_mul; lia|lia].
  rewrite (lor_low _ o 12); [lia|lia| |lia].
  replace (d * 2 ^ 22 + t * 2 ^ 12) with ((d * 1024 + t) * 2 ^ 12) by lia. apply Z.mod_mul. lia.
Qed.

(** An address is its directory index, table index and offset. *)
Lemma PGADDR_split va : 0 <= va < 2 ^ 32 -> PGADDR (PDX va) (PTX va) (va mod PGSIZE) = va.
Proof.
  intros. rewrite PDX_eq, PTX_eq, PGADDR_eq by (try apply Z.mod_pos_bound; try apply Z.div_pos; lia).
  unfold PGSIZE. replace (va / 2 ^ 22) with (va / 4096 / 1024) by (rewrite Z.div_div by lia; done).
  pose proof (Z_div_mod_eq_full va 4096). pose proof (Z_div_mod_eq_full (va / 4096) 1024).
  rewrite u32_id; lia.
Qed.

(** An entry is its address and its flags. *)
Lemma PTE_split e : 0 <= e < 2 ^ 32 -> Z.lor (PTE_ADDR e) (PTE_FLAGS e) = e.
Proof.
  intros. rewrite PTE_ADDR_eq, PTE_FLAGS_eq by done.
  rewrite (lor_low _ _ 12); [|lia|by rewrite Z.mul_comm, Z.mod_mul by lia|apply Z.mod_pos_bound; lia].
  symmetry. apply Z_div_mod_eq_full.
Qed.
Lemma PTE_make pa flags : 0 <= pa < 2 ^ 32 -> pa mod PGSIZE = 0 -> 0 <= flags < 4096 ->
  PTE_ADDR (Z.lor pa flags) = pa /\ PTE_FLAGS (Z.lor pa flags) = flags.
Proof.
  unfold PGSIZE. intros Hr Hp Hf. rewrite (lor_low _ _ 12) by (try exact Hp; lia).
  pose proof (Z_div_mod_eq_full pa 4096).
  assert (pa / 4096 < 2 ^ 20) by (apply Z.div_lt_upper_bound; lia).
  assert (E : (pa + flags) / 4096 = pa / 4096).
  { replace (pa + flags) with (flags + pa / 4096 * 4096) by lia. rewrite Z.div_add, (Z.div_small flags) by lia. lia. }
  rewrite PTE_ADDR_eq, PTE_FLAGS_eq by lia. rewrite E. split; [lia|].
  replace (pa + flags) with (flags + pa / 4096 * 4096) by lia. rewrite Z.mod_add, Z.mod_small; lia.
Qed.

(** A segment has the base and the limit it was built from (the limit in
    whole pages), a gate leads to its handler. *)
Lemma base_fields b : 0 <= b < 2 ^ 32 ->
  Z.land (u32 b) 0xffff + 2 ^ 16 * Z.land (Z.shiftr (u32 b) 16) 0xff + 2 ^ 24 * Z.shiftr (u32 b) 24 = b.
Proof.
  intros. rewrite u32_id, !Z.shiftr_div_pow2 by lia. change 0xffff with (2 ^ 16 - 1). change 0xff with (2 ^ 8 - 1).
  rewrite !land_ones_mod by lia. change (2 ^ 24) with (2 ^ 16 * 2 ^ 8). rewrite <- Z.div_div by lia.
  pose proof (Z_div_mod_eq_full b (2 ^ 16)). pose proof (Z_div_mod_eq_full (b / 2 ^ 16) (2 ^ 8)). lia.
Qed.
Lemma SEG_correct type base lim dpl : 0 <= base < 2 ^ 32 -> 0 <= lim < 2 ^ 32 ->
  seg_base (SEG type base lim dpl) = base /\
  seg_limit (SEG type base lim dpl) = 4096 * (lim / 4096) + 4095.
Proof.
  intros Hb Hl. split; [by apply base_fields|]. unfold seg_limit, SEG. simpl.
  rewrite u32_id, !Z.shiftr_div_pow2 by lia. change 65535 with (2 ^ 16 - 1). rewrite land_ones_mod by lia.
  change (2 ^ 28) with (2 ^ 12 * 2 ^ 16). rewrite <- Z.div_div by lia.
  change (2 ^ 12) with 4096. pose proof (Z_div_mod_eq_full (lim / 4096) (2 ^ 16)). lia.
Qed.
Lemma SEG16_correct type base lim dpl : 0 <= base < 2 ^ 32 -> 0 <= lim < 2 ^ 20 ->
  seg_base (SEG16 type base lim dpl) = base /\ seg_limit (SEG16 type base lim dpl) = lim.
Proof.
  intros Hb Hl. split; [by apply base_fields|]. unfold seg_limit, SEG16. simpl.
  rewrite u32_id, !Z.shiftr_div_pow2 by lia. change 65535 with (2 ^ 16 - 1). rewrite land_ones_mod by lia.
  pose proof (Z_div_mod_eq_full lim (2 ^ 16)). lia.
Qed.
Lemma SETGATE_off istrap sel off d : 0 <= off < 2 ^ 32 -> gate_off (SETGATE istrap sel off d) = off.
Proof.
  intros. unfold gate_off, SETGATE. simpl. rewrite u32_id, Z.shiftr_div_pow2 by lia.
  change 65535 with (2 ^ 16 - 1). rewrite land_ones_mod by lia. pose proof (Z_div_mod_eq_full off (2 ^ 16)). lia.
Qed.
