(* ===== verification/Umalloc.v ===== *)
(** * The user library's allocator: [umalloc.c]

    Memory is seen through the headers: [hdr p] is the pair [s.ptr], [s.size]
    of the header at address [p]; a header is 8 bytes and sizes count headers.
    The free blocks form a ring through [base], in the order of their
    addresses.  [sbrk] is the kernel's: it gives the old break and moves it, or
    refuses, always when the break would reach [KERNBASE]; which of the other
    calls it grants is the list [m_grants].

    The loops go around the ring, with fuel; [malloc_correct] and
    [free_correct] show that fuel linear in the number of free blocks is
    enough.  The invariant [heap] says that the ring is the sorted list of the
    free blocks, that no two of them touch, and that the blocks given out are
    apart from them and from each other. *)

From S2P Require Import Prelude Mmu.

Record mstate := mkmstate {
  m_hdr : gmap Z (Z * Z);
  m_freep : Z;
  m_brk : Z;
  m_grants : list bool
}.
Definition hdr (h : gmap Z (Z * Z)) (p : Z) : Z * Z := default (0, 0) (h !! p).
Definition set_hdr (h : gmap Z (Z * Z)) (s : mstate) : mstate := mkmstate h (m_freep s) (m_brk s) (m_grants s).
Definition set_freep (p : Z) (s : mstate) : mstate := mkmstate (m_hdr s) p (m_brk s) (m_grants s).

Definition sizeof_Header : Z := 8.
(** [p->s.ptr], [p->s.size] and their assignments. *)
Definition ptr (p : Z) : KM mstate Z := kgets (fun s => (hdr (m_hdr s) p).1).
Definition size (p : Z) : KM mstate Z := kgets (fun s => (hdr (m_hdr s) p).2).
Definition put_ptr (p v : Z) : KM mstate unit := kmodify (fun s => set_hdr (<[p := (v, (hdr (m_hdr s) p).2)]> (m_hdr s)) s).
Definition put_size (p v : Z) : KM mstate unit := kmodify (fun s => set_hdr (<[p := ((hdr (m_hdr s) p).1, v)]> (m_hdr s)) s).
(** [p + n], in headers. *)
Definition hplus (p n : Z) : Z := p + sizeof_Header * n.

Section umalloc.
Context (base : Z).        (* the address of [base] *)

(** [sbrk]: -1 when it refuses. *)
Definition sbrk (n : Z) : KM mstate Z := fun s =>
  match m_grants s with
  | true :: g =>
      if m_brk s + n <? KERNBASE then Done (m_brk s) (mkmstate (m_hdr s) (m_freep s) (m_brk s + n) g)
      else Done (-1) (mkmstate (m_hdr s) (m_freep s) (m_brk s) g)
  | false :: g => Done (-1) (mkmstate (m_hdr s) (m_freep s) (m_brk s) g)
  | [] => Done (-1) s
  end.

(** The loop of [free]: the free block before [bp]. *)
Fixpoint free_place (fuel : nat) (bp p : Z) : KM mstate Z :=
  match fuel with
  | O => fault "free: out of fuel"
  | S fuel =>
      q ← ptr p;
      if (p <? bp) && (bp <? q) then mret p
      else if (q <=? p) && ((p <? bp) || (bp <? q)) then mret p
      else free_place fuel bp q
  end.

Definition free (fuel : nat) (ap : Z) : KM mstate unit :=
  let bp := ap - sizeof_Header in
  s ← kget;
  p ← free_place fuel bp (m_freep s);
  n ← size bp;
  q ← ptr p;
  (if hplus bp n =? q then
     m ← size q;
     put_size bp (u32 (n + m));;
     q' ← ptr q;
     put_ptr bp q'
   else put_ptr bp q);;
  n ← size bp;
  k ← size p;
  q ← ptr bp;
  (if hplus p k =? bp then
     put_size p (u32 (k + n));;
     put_ptr p q
   else put_ptr p bp);;
  kmodify (set_freep p).

Definition morecore (fuel : nat) (nu : Z) : KM mstate Z :=
  let nu := if nu <? 4096 then 4096 else nu in
  p ← sbrk (i32 (u32 (nu * sizeof_Header)));
  if p =? -1 then mret 0 else
  put_size p nu;;
  free fuel (p + sizeof_Header);;
  s ← kget;
  mret (m_freep s).

(** [malloc] found the block [p], of size [sz], after [prevp]. *)
Definition take_block (nunits prevp p sz : Z) : KM mstate Z :=
  if sz =? nunits then
    q ← ptr p;
    put_ptr prevp q;;
    kmodify (set_freep prevp);;
    mret (p + sizeof_Header)
  else
    put_size p (sz - nunits);;
    let p := hplus p (sz - nunits) in
    put_size p nunits;;
    kmodify (set_freep prevp);;
    mret (p + sizeof_Header).

(** The loop of [malloc]; [ffuel] is the fuel of [free]. *)
Fixpoint malloc_loop (ffuel fuel : nat) (nunits prevp p : Z) : KM mstate Z :=
  match fuel with
  | O => fault "malloc: out of fuel"
  | S fuel =>
      sz ← size p;
      if nunits <=? sz then take_block nunits prevp p sz else
      s ← kget;
      if p =? m_freep s then
        p ← morecore ffuel nunits;
        if p =? 0 then mret 0 else
        q ← ptr p;
        malloc_loop ffuel fuel nunits p q
      else
        q ← ptr p;
        malloc_loop ffuel fuel nunits p q
  end.

Definition units (nbytes : Z) : Z := u32 (u32 (nbytes + sizeof_Header - 1) / sizeof_Header + 1).

Definition malloc (ffuel fuel : nat) (nbytes : Z) : KM mstate Z :=
  let nunits := units nbytes in
  s ← kget;
  (if m_freep s =? 0 then
     kmodify (set_freep base);;
     put_ptr base base;;
     put_size base 0
   else mret tt);;
  s ← kget;
  let prevp := m_freep s in
  p ← ptr prevp;
  malloc_loop ffuel fuel nunits prevp p.
End umalloc.

(** ** The ring *)

Abbreviation blk := (Z * Z)%type.      (* address and size of a block *)
Definition bend (b : blk) : Z := hplus b.1 b.2.

(** From [x] the links go through [l] to [e]. *)
Fixpoint path (h : gmap Z (Z * Z)) (x : Z) (l : list Z) (e : Z) : Prop :=
  match l with
  | [] => (hdr h x).1 = e
  | y :: l => (hdr h x).1 = y /\ path h y l e
  end.
(** Blocks in order of address, above [lo], with a gap before each. *)
Fixpoint sorted (lo : Z) (F : list blk) : Prop :=
  match F with
  | [] => True
  | b :: F => lo < b.1 /\ 1 <= b.2 /\ sorted (bend b) F
  end.

Lemma hdr_eq h p v : hdr (<[p := v]> h) p = v.
Proof. unfold hdr. by rewrite lookup_insert_eq. Qed.
Lemma hdr_ne h p q v : p <> q -> hdr (<[p := v]> h) q = hdr h q.
Proof. intros. unfold hdr. by rewrite lookup_insert_ne. Qed.

Lemma path_app h l1 : forall x y l2 e, path h x (l1 ++ y :: l2) e <-> path h x l1 y /\ path h y l2 e.
Proof. induction l1 as [|z l1 IH]; intros x y l2 e; simpl; [done|]. rewrite IH. tauto. Qed.
Lemma path_frame h a v l : forall x e, a ∉ x :: l -> path h x l e -> path (<[a := v]> h) x l e.
Proof.
  induction l as [|y l IH]; intros x e Ha; simpl; rewrite hdr_ne by set_solver; [done|].
  intros [-> Hl]. split; [done|]. apply IH; [set_solver|done].
Qed.
(** Only the end changes when the last node is redirected. *)
Lemma path_redirect h l : forall x e e' p v, NoDup (x :: l) -> List.last (x :: l) 0 = p -> v.1 = e' -> path h x l e -> path (<[p := v]> h) x l e'.
Proof.
  induction l as [|y l IH]; intros x e e' p v Hnd Hp Hv; simpl path.
  - simpl in Hp. subst p. by rewrite hdr_eq.
  - intros [Hy Hl]. apply NoDup_cons in Hnd as [Hx Hnd]. assert (p ∈ y :: l).
    { rewrite <- Hp. change (List.last (x :: y :: l) 0) with (List.last (y :: l) 0). apply list_elem_of_In.
      destruct (exists_last (l := y :: l) ltac:(done)) as (l' & z & ->). rewrite last_last. apply in_or_app. right. by left. }
    rewrite hdr_ne by (intros ->; done). split; [done|]. by eapply (IH y e).
Qed.

Lemma sorted_weaken lo lo' F : lo' <= lo -> sorted lo F -> sorted lo' F.
Proof. destruct F as [|b F]; simpl; [done|]. intros ? (? & ? & ?). split_and!; [lia|done|done]. Qed.
Lemma sorted_above F : forall lo b, sorted lo F -> b ∈ F -> lo < b.1 /\ 1 <= b.2.
Proof.
  induction F as [|c F IH]; intros lo b; simpl; [set_solver|]. intros (H1 & H2 & H3) [->|Hb]%elem_of_cons; [done|].
  destruct (IH (bend c) b H3 Hb). unfold bend, hplus, sizeof_Header in *. lia.
Qed.
Lemma sorted_nodup F : forall lo, sorted lo F -> NoDup (lo :: F.*1).
Proof.
  induction F as [|c F IH]; intros lo; simpl; [intros _; apply NoDup_singleton|]. intros (H1 & H2 & H3).
  assert (Hab : forall x, x ∈ F.*1 -> bend c < x) by (intros x (b & -> & Hb)%list_elem_of_fmap; by apply (sorted_above F _ _ H3)).
  pose proof (IH _ H3) as [_ Hnd]%NoDup_cons. unfold bend, hplus, sizeof_Header in *.
  apply NoDup_cons. split; [intros [->|Hx]%elem_of_cons; [lia|specialize (Hab _ Hx); lia]|]. apply NoDup_cons. split; [intros Hx; specialize (Hab _ Hx); lia|done].
Qed.

Fixpoint ascending (p : Z) (l : list Z) : Prop := match l with [] => True | y :: l => p < y /\ ascending y l end.
Lemma sorted_ascending F : forall lo p, p <= lo -> sorted lo F -> ascending p F.*1.
Proof.
  induction F as [|c F IH]; intros lo p Hp; simpl; [done|]. intros (H1 & H2 & H3). split; [lia|].
  apply (IH (bend c)); [unfold bend, hplus, sizeof_Header; lia|done].
Qed.
Lemma ascending_above l : forall p y, ascending p l -> y ∈ l -> p < y.
Proof.
  induction l as [|z l IH]; intros p y; simpl; [set_solver|]. intros [Hz Hl] [->|Hy]%elem_of_cons; [done|]. specialize (IH z y Hl Hy). lia.
Qed.
Lemma ascending_app l1 : forall p y l2, ascending p (l1 ++ y :: l2) -> ascending y l2.
Proof. induction l1 as [|z l1 IH]; intros p y l2; simpl; intros [_ H]; [done|by eapply IH]. Qed.

(** The last node of [p :: l] below [bp]. *)
Fixpoint last_below (bp p : Z) (l : list Z) : Z :=
  match l with
  | [] => p
  | y :: l => if y <? bp then last_below bp y l else p
  end.

Section walk.
Context (base bp : Z) (s : mstate) (Hbp : base < bp).

Lemma walk_up l : forall fuel p, path (m_hdr s) p l base -> ascending p l -> base <= p < bp -> bp ∉ l -> (length l < fuel)%nat ->
  free_place fuel bp p s = Done (last_below bp p l) s.
Proof.
  induction l as [|y l IH]; intros [|fuel] p Hp Ha Hb Hn Hf; simpl in Hf; try lia; cbn [free_place]; unfold ptr, kgets; erewrite bind_done by done; simpl in Hp.
  - rewrite Hp. rewrite (proj2 (Z.ltb_lt p bp)), (proj2 (Z.ltb_ge bp base)), (proj2 (Z.leb_le base p)) by lia. done.
  - destruct Hp as [-> Hp]. destruct Ha as [Hy Ha]. rewrite (proj2 (Z.ltb_lt p bp)) by lia. simpl. destruct (Z.ltb_spec bp y).
    + by rewrite (proj2 (Z.ltb_ge y bp)) by lia.
    + assert (y <> bp) by set_solver. rewrite (proj2 (Z.leb_gt y p)), (proj2 (Z.ltb_lt y bp)) by lia. simpl. apply IH; [done|done|lia|set_solver|lia].
Qed.
Lemma walk_down l : forall fuel p, path (m_hdr s) p l base -> ascending p l -> bp < p ->
  free_place (S (length l) + fuel) bp p s = free_place fuel bp base s.
Proof.
  induction l as [|y l IH]; intros fuel p Hp Ha Hb; simpl Nat.add; cbn [free_place]; unfold ptr, kgets; erewrite bind_done by done; simpl in Hp.
  - rewrite Hp, (proj2 (Z.ltb_ge p bp)), (proj2 (Z.ltb_ge bp base)) by lia. cbn [andb orb]. by rewrite andb_false_r.
  - destruct Hp as [-> Hp]. destruct Ha as [Hy Ha]. rewrite (proj2 (Z.ltb_ge p bp)), (proj2 (Z.leb_gt y p)) by lia. simpl. apply (IH fuel); [done|done|lia].
Qed.

(** From any node of the ring. *)
Lemma free_place_spec l fuel : path (m_hdr s) base l base -> ascending base l -> bp ∉ l -> m_freep s ∈ base :: l ->
  (2 * length l + 1 < fuel)%nat -> free_place fuel bp (m_freep s) s = Done (last_below bp base l) s.
Proof.
  intros Hp Ha Hn Hin Hf. apply elem_of_cons in Hin as [->|Hin]; [apply walk_up; (done || lia)|].
  destruct (list_elem_of_split _ _ Hin) as (l1 & l2 & E). set (p := m_freep s) in *. rewrite E in Hp. apply path_app in Hp as [Hp1 Hp2].
  pose proof Ha as Ha'. rewrite E in Ha'. pose proof (ascending_app _ _ _ _ Ha') as Ha2.
  assert (Hlb : forall k x, ascending x (k ++ p :: l2) -> p < bp -> last_below bp x (k ++ p :: l2) = last_below bp p l2).
  { induction k as [|z k IH]; intros x Hx Hpb; simpl in *; [by rewrite (proj2 (Z.ltb_lt p bp))|]. destruct Hx as [Hz Hx].
    rewrite (proj2 (Z.ltb_lt z bp)); [by apply IH|]. pose proof (ascending_above _ _ p Hx ltac:(set_solver)). lia. }
  assert (base < p) by (apply (ascending_above l base p Ha); done).
  assert (Hlen : (length l1 + S (length l2) = length l)%nat) by (rewrite E, length_app; simpl; lia).
  destruct (Z.lt_total p bp) as [Hlt|[->|Hgt]]; [| by subst; set_solver|].
  - rewrite (walk_up l2) by (done || lia || set_solver). rewrite E. f_equal. symmetry. by apply Hlb.
  - replace fuel with (S (length l2) + (fuel - S (length l2)))%nat by lia. rewrite walk_down by done.
    apply walk_up; [by rewrite E; apply path_app|done|lia|done|lia].
Qed.
End walk.

(** ** Blocks *)

Definition within (b : blk) (x : Z) : Prop := b.1 <= x < bend b.
Definition covered (F : list blk) (x : Z) : Prop := exists b, b ∈ F /\ within b x.
Definition apart (b c : blk) : Prop := bend b <= c.1 \/ bend c <= b.1.

(** The end of the last block of [F], or [lo]. *)
Fixpoint top (lo : Z) (F : list blk) : Z := match F with [] => lo | b :: F => top (bend b) F end.

Lemma sorted_app F1 : forall lo F2, sorted lo (F1 ++ F2) <-> sorted lo F1 /\ sorted (top lo F1) F2.
Proof. induction F1 as [|b F1 IH]; intros lo F2; simpl; [tauto|]. rewrite IH. tauto. Qed.
Lemma top_app F1 : forall lo b, top lo (F1 ++ [b]) = bend b.
Proof. induction F1 as [|c F1 IH]; intros lo b; simpl; [done|apply IH]. Qed.
Lemma covered_app F1 F2 x : covered (F1 ++ F2) x <-> covered F1 x \/ covered F2 x.
Proof.
  unfold covered. split.
  - intros (b & [Hb|Hb]%elem_of_app & Hx); [left|right]; eauto.
  - intros [(b & Hb & Hx)|(b & Hb & Hx)]; exists b; (split; [apply elem_of_app; auto|done]).
Qed.
Lemma covered_cons b F x : covered (b :: F) x <-> within b x \/ covered F x.
Proof.
  unfold covered. split.
  - intros (c & [->|Hc]%elem_of_cons & Hx); [by left|right; eauto].
  - intros [Hx|(c & Hc & Hx)]; [exists b|exists c]; (split; [set_solver|done]).
Qed.

Lemma split_at F : forall lo b x, sorted lo F -> 1 <= b.2 -> (forall c, c ∈ F -> apart b c) -> exists F1 F2, F = F1 ++ F2 /\
  Forall (fun c => bend c <= b.1) F1 /\ Forall (fun c => bend b <= c.1) F2 /\ last_below b.1 x F.*1 = List.last (x :: F1.*1) 0.
Proof.
  induction F as [|c F IH]; intros lo b x Hs Hb Ha.
  { exists [], []. by split_and!. }
  destruct Hs as (H1 & H2 & H3). destruct (Ha c) as [Hc|Hc]; [by left| |].
  - exists [], (c :: F). unfold bend, hplus, sizeof_Header in *. split_and!; [done|constructor| |].
    + constructor; [done|]. apply Forall_forall. intros d Hd. destruct (sorted_above F _ d H3 Hd). unfold bend, hplus, sizeof_Header in *. lia.
    + simpl. by rewrite (proj2 (Z.ltb_ge _ _)) by lia.
  - destruct (IH (bend c) b c.1 H3 Hb) as (F1 & F2 & -> & Hf1 & Hf2 & El); [intros d Hd; apply Ha; by right|].
    exists (c :: F1), F2. split_and!; [done|by constructor|done|]. cbn [fmap list_fmap last_below].
    unfold bend, hplus, sizeof_Header in *. rewrite (proj2 (Z.ltb_lt _ _)) by lia. rewrite El. by destruct (F1.*1).
Qed.

Lemma path_split h l1 : forall x l2 e, path h x (l1 ++ l2) e -> (exists e', path h x l1 e') /\ path h (List.last (x :: l1) 0) l2 e.
Proof.
  induction l1 as [|y l1 IH]; intros x l2 e; [simpl; eauto|]. intros [Hy Hl]. destruct (IH y l2 e Hl) as [[e' He'] H2]. split; [by exists e'|done].
Qed.

(** The block [b] joined with the free block above it. *)
Definition join_up (b : blk) (F2 : list blk) : blk * list blk :=
  match F2 with
  | c :: F2' => if bend b =? c.1 then ((b.1, b.2 + c.2), F2') else (b, F2)
  | [] => (b, [])
  end.
Lemma join_up_spec b F2 t : 1 <= b.2 -> sorted t F2 -> Forall (fun c => bend b <= c.1) F2 ->
  let '(b', F2') := join_up b F2 in b'.1 = b.1 /\ b.2 <= b'.2 /\ sorted (bend b') F2' /\
  (forall M, bend b <= M -> Forall (fun c => bend c <= M) F2 -> bend b' <= M) /\
  (forall x, covered (b' :: F2') x <-> within b x \/ covered F2 x) /\ (length F2' <= length F2)%nat /\ (forall c, c ∈ F2' -> c ∈ F2) /\
  (forall d, apart d b -> (forall c, c ∈ F2 -> apart d c) -> 1 <= d.2 -> apart d b').
Proof.
  intros Hb Hs Hf. destruct F2 as [|c F2]; simpl.
  { split_and!; try done. intros x. apply covered_cons. }
  destruct Hs as (H1 & H2 & H3). apply Forall_cons in Hf as [Hc Hf]. destruct (Z.eqb_spec (bend b) c.1) as [E|E].
  - assert (Ee : bend (b.1, b.2 + c.2) = bend c) by (unfold bend, hplus, sizeof_Header in *; simpl; lia). rewrite Ee.
    split_and!; [done|simpl; lia|done| | |lia|intros d Hd; by right|].
    + intros M _ [HM _]%Forall_cons. done.
    + intros x. rewrite !covered_cons. unfold within. rewrite Ee. unfold bend, hplus, sizeof_Header in *. simpl.
      split; [intros [?|?]; [|tauto]; destruct (decide (x < c.1)); [left; lia|right; left; lia]|]. intros [?|[?|?]]; [left; lia|left; lia|tauto].
    + intros d Hd Hd2 Hdn. specialize (Hd2 c ltac:(by left)). unfold apart in *. rewrite Ee. simpl.
      unfold bend, hplus, sizeof_Header in *. simpl in *. lia.
  - split_and!; try done; [split_and!; [lia|done|done]|intros x; apply covered_cons].
Qed.

(** The block [b] joined with the free block below it. *)
Definition join_down (F1 : list blk) (b : blk) : list blk :=
  match reverse F1 with
  | c :: R => if bend c =? b.1 then reverse R ++ [(c.1, c.2 + b.2)] else F1 ++ [b]
  | [] => [b]
  end.
Lemma join_down_nil b : join_down [] b = [b].
Proof. done. Qed.
Lemma join_down_snoc F c b : join_down (F ++ [c]) b = if bend c =? b.1 then F ++ [(c.1, c.2 + b.2)] else F ++ [c; b].
Proof.
  unfold join_down. rewrite reverse_app. simpl. destruct (bend c =? b.1); [by rewrite reverse_involutive|by rewrite <- app_assoc].
Qed.
Lemma join_down_spec F1 b l0 : 1 <= b.2 -> l0 < b.1 -> sorted l0 F1 -> Forall (fun c => bend c <= b.1) F1 ->
  sorted l0 (join_down F1 b) /\ top l0 (join_down F1 b) = bend b /\ (length (join_down F1 b) <= S (length F1))%nat /\
  (forall x, covered (join_down F1 b) x <-> covered F1 x \/ within b x) /\
  (forall M, bend b <= M -> Forall (fun c => bend c <= M) F1 -> Forall (fun c => bend c <= M) (join_down F1 b)) /\
  (forall d, apart d b -> (forall c, c ∈ F1 -> apart d c) -> 1 <= d.2 -> forall c, c ∈ join_down F1 b -> apart d c) /\
  (exists c, c ∈ join_down F1 b /\ b.2 <= c.2).
Proof.
  intros Hb Hl Hs Hf. destruct F1 as [|c F _] using rev_ind.
  - rewrite join_down_nil. simpl. split_and!; [done|done|done|done|lia| | | |].
    + intros x. rewrite covered_cons. unfold covered. set_solver.
    + intros M HM _. by apply Forall_singleton.
    + intros d Hd _ _ c ->%list_elem_of_singleton. done.
    + exists b. split; [by left|done].
  - rewrite join_down_snoc. apply sorted_app in Hs as [Hs1 (H1 & H2 & _)]. apply Forall_app in Hf as [_ [Hc _]%Forall_cons].
    destruct (Z.eqb_spec (bend c) b.1) as [E|E].
    + assert (Ee : bend (c.1, c.2 + b.2) = bend b) by (unfold bend, hplus, sizeof_Header in *; simpl; lia).
      split_and!; [apply sorted_app; simpl; split_and!; [done|done|lia|done]|rewrite top_app; done|rewrite !length_app; simpl; lia| | | |].
      * intros x. rewrite !covered_app, !covered_cons. unfold within. rewrite Ee. unfold bend, hplus, sizeof_Header in *. simpl.
        assert (~ covered [] x) by (unfold covered; set_solver). split; [intros [?|[?|?]]; [tauto| |tauto]; destruct (decide (x < b.1)); [left; right; left; lia|right; lia]|].
        intros [[?|[?|?]]|?]; [tauto|right; left; lia|tauto|right; left; lia].
      * intros M HM [H3 _]%Forall_app. apply Forall_app. split; [done|]. apply Forall_singleton. by rewrite Ee.
      * intros d Hd Hd1 Hdn e [He| ->%list_elem_of_singleton]%elem_of_app; [apply Hd1; set_solver|]. specialize (Hd1 c ltac:(set_solver)).
        unfold apart in *. rewrite Ee. simpl. unfold bend, hplus, sizeof_Header in *. simpl in *. lia.
      * exists (c.1, c.2 + b.2). split; [set_solver|simpl; lia].
    + change (F ++ [c; b]) with (F ++ [c] ++ [b]). rewrite app_assoc.
      split_and!; [apply sorted_app; split; [apply sorted_app; by simpl|]; rewrite top_app; simpl; split_and!; [lia|done|done]|by rewrite top_app|rewrite !length_app; simpl; lia| | | |].
      * intros x. rewrite !covered_app, (covered_cons b). assert (~ covered [] x) by (unfold covered; set_solver). tauto.
      * intros M HM H3. apply Forall_app. split; [done|by apply Forall_singleton].
      * intros d Hd Hd1 Hdn e [He| ->%list_elem_of_singleton]%elem_of_app; [by apply Hd1|done].
      * exists b. split; [set_solver|done].
Qed.

Lemma path_ext h h' l : forall x x' e, path h x l e -> (hdr h' x').1 = (hdr h x).1 -> (forall y, y ∈ l -> hdr h' y = hdr h y) -> path h' x' l e.
Proof.
  induction l as [|y l IH]; intros x x' e; simpl; [by intros <- ->|]. intros [Hy Hl] Hx Hs. split; [by rewrite Hx|].
  apply (IH y y e Hl); [|intros; apply Hs; by right]. by rewrite Hs by (by left).
Qed.

(** What [free] does to the headers, once it has its place. *)
Definition up_hdr (h : gmap Z (Z * Z)) (bp n q : Z) : gmap Z (Z * Z) :=
  if hplus bp n =? q then <[bp := ((hdr h q).1, u32 (n + (hdr h q).2))]> h else <[bp := (q, n)]> h.
Definition down_hdr (h : gmap Z (Z * Z)) (p bp : Z) : gmap Z (Z * Z) :=
  if hplus p (hdr h p).2 =? bp then <[p := ((hdr h bp).1, u32 ((hdr h p).2 + (hdr h bp).2))]> h
  else <[p := (bp, (hdr h p).2)]> h.

Lemma free_run fuel bp p n s : free_place fuel bp (m_freep s) s = Done p s -> (hdr (m_hdr s) bp).2 = n -> 1 <= n -> p <> bp ->
  free fuel (bp + sizeof_Header) s =
  Done tt (set_freep p (set_hdr (down_hdr (up_hdr (m_hdr s) bp n (hdr (m_hdr s) p).1) p bp) s)).
Proof.
  intros Hp Hn H1 Hne. unfold free. replace (bp + sizeof_Header - sizeof_Header) with bp by lia. erewrite bind_done by done.
  erewrite bind_done by exact Hp. unfold size at 1, ptr at 1, kgets. erewrite bind_done by done. rewrite Hn. erewrite bind_done by done.
  set (q := (hdr (m_hdr s) p).1). set (h1 := up_hdr (m_hdr s) bp n q).
  erewrite (bind_done _ _ _ tt (set_hdr h1 s)).
  2:{ unfold h1, up_hdr. destruct (Z.eqb_spec (hplus bp n) q) as [E|E].
      - unfold size, ptr, kgets, put_size, put_ptr, kmodify. erewrite bind_done by done. erewrite bind_done by done. erewrite bind_done by done.
        cbn [m_hdr set_hdr]. rewrite hdr_eq, hdr_ne, insert_insert_eq by (unfold hplus, sizeof_Header in E; lia). done.
      - unfold put_ptr, kmodify. by rewrite Hn. }
  unfold size, ptr, kgets. erewrite bind_done by done. erewrite bind_done by done. erewrite bind_done by done. cbn [m_hdr set_hdr].
  erewrite (bind_done _ _ _ tt (set_hdr (down_hdr h1 p bp) s)); [done|].
  unfold down_hdr. destruct (Z.eqb_spec (hplus p (hdr h1 p).2) bp).
  - unfold put_size, put_ptr, kmodify. erewrite bind_done by done. cbn [m_hdr set_hdr]. by rewrite hdr_eq, insert_insert_eq.
  - done.
Qed.

Section heap.
Context (base lo : Z) (Hbase : 0 < base < lo).

(** [F] are the free blocks, [A] the blocks in use. *)
Record heap (s : mstate) (F : list blk) (A : gmap Z Z) : Prop := mk_heap {
  hp_path : path (m_hdr s) base F.*1 base;
  hp_sorted : sorted (lo - 1) F;
  hp_sizes : Forall (fun b => (hdr (m_hdr s) b.1).2 = b.2) F;
  hp_base : (hdr (m_hdr s) base).2 = 0;
  hp_freep : m_freep s ∈ base :: F.*1;
  hp_top : Forall (fun b => bend b <= m_brk s) F;
  hp_brk : lo <= m_brk s < KERNBASE;
  hp_live : forall a n, A !! a = Some n -> lo <= a /\ 1 <= n /\ bend (a, n) <= m_brk s /\ (hdr (m_hdr s) a).2 = n;
  hp_apart : forall a n c, A !! a = Some n -> c ∈ F -> apart (a, n) c;
  hp_disj : forall a n b m, A !! a = Some n -> A !! b = Some m -> a <> b -> apart (a, n) (b, m)
}.

Lemma up_spec h p bp n F2 : path h p F2.*1 base -> Forall (fun b => (hdr h b.1).2 = b.2) F2 -> base < bp -> 1 <= n ->
  (forall c, c ∈ F2 -> c.1 <> bp /\ 1 <= c.2 /\ n + c.2 < 2 ^ 32) ->
  let h1 := up_hdr h bp n (hdr h p).1 in let '(b', F2') := join_up (bp, n) F2 in
  (hdr h1 bp).2 = b'.2 /\ path h1 bp F2'.*1 base /\ (forall x, x <> bp -> hdr h1 x = hdr h x).
Proof.
  intros Hp Hsz Hb Hn Hne. unfold up_hdr. destruct F2 as [|c F2]; simpl in Hp |- *.
  - rewrite Hp. rewrite (proj2 (Z.eqb_neq _ _)) by (unfold hplus, sizeof_Header; lia).
    split_and!; [by rewrite hdr_eq|by rewrite hdr_eq|intros; by rewrite hdr_ne].
  - destruct Hp as [-> Hp]. apply Forall_cons in Hsz as [Hc Hsz]. destruct (Hne c) as (Hcb & Hc1 & Hlim); [by left|]. unfold bend. simpl.
    assert (Hrest : forall v y, y ∈ F2.*1 -> hdr (<[bp := v]> h) y = hdr h y).
    { intros v y (d & -> & Hd)%list_elem_of_fmap. apply hdr_ne. intros E. destruct (Hne d) as [Hd' _]; [by right|]. congruence. }
    destruct (hplus bp n =? c.1) eqn:E; simpl.
    + rewrite Hc. split_and!; [rewrite hdr_eq; simpl; apply u32_id; lia| |intros; by rewrite hdr_ne].
      apply (path_ext h _ _ c.1); [done|by rewrite hdr_eq|apply Hrest].
    + split_and!; [by rewrite hdr_eq|by rewrite hdr_eq| |intros; by rewrite hdr_ne].
      apply (path_ext h _ _ c.1); [done|by rewrite hdr_ne|apply Hrest].
Qed.

Lemma down_spec h F1 b' F2' e k : path h base F1.*1 e -> path h b'.1 F2'.*1 base -> (hdr h b'.1).2 = b'.2 ->
  Forall (fun c => (hdr h c.1).2 = c.2) F1 -> (hdr h base).2 = 0 -> NoDup (base :: F1.*1 ++ b'.1 :: F2'.*1) ->
  List.last (base :: F1.*1) 0 = k -> (forall c, c ∈ F1 -> 1 <= c.2 /\ c.2 + b'.2 < 2 ^ 32) -> 1 <= b'.2 ->
  let h2 := down_hdr h k b'.1 in let F' := join_down F1 b' ++ F2' in
  path h2 base F'.*1 base /\ Forall (fun c => (hdr h2 c.1).2 = c.2) (join_down F1 b') /\ (hdr h2 base).2 = 0 /\ k ∈ base :: F'.*1 /\
  (forall x, x <> k -> hdr h2 x = hdr h x).
Proof.
  intros Hp1 Hp2 Hsz Hs1 Hb0 Hnd Hk Hlim Hn. destruct F1 as [|c F _] using rev_ind.
  - simpl in Hk. subst k. rewrite join_down_nil. unfold down_hdr. rewrite Hb0. simpl in Hnd. apply NoDup_cons in Hnd as [Hn1 _].
    rewrite (proj2 (Z.eqb_neq _ _)) by (unfold hplus, sizeof_Header; intros E; apply Hn1; apply elem_of_cons; left; lia).
    assert (Hne : base <> b'.1) by set_solver. split_and!; [| |by rewrite hdr_eq|by left|intros; by rewrite hdr_ne].
    + simpl. rewrite hdr_eq. split; [done|]. apply path_frame; [|done]. done.
    + apply Forall_singleton. by rewrite hdr_ne.
  - rewrite fmap_app in *. change (base :: F.*1 ++ [c].*1) with ((base :: F.*1) ++ [c.1]) in Hk. rewrite last_last in Hk. subst k.
    apply Forall_app in Hs1 as [Hs1 [Hc _]%Forall_cons]. simpl in Hp1. apply path_app in Hp1 as [Hp0 Hce]. simpl in Hce.
    rewrite <- app_assoc in Hnd. simpl in Hnd. pose proof Hnd as Hnd'. rewrite (app_comm_cons _ _ base) in Hnd'.
    apply NoDup_app in Hnd' as (Hnd1 & Hnd2 & Hnd3). apply NoDup_cons in Hnd3 as [Hcn Hnd3].
    assert (Hc1 : c.1 ∉ base :: F.*1) by (intros Hin; by apply (Hnd2 _ Hin); left).
    destruct (Hlim c) as [Hcs Hcl]; [set_solver|]. unfold down_hdr. rewrite Hc, join_down_snoc. fold (bend c).
    assert (HF : forall v, Forall (fun d => (hdr (<[c.1 := v]> h) d.1).2 = d.2) F).
    { intros v. apply Forall_forall. intros d Hd. rewrite hdr_ne; [by eapply Forall_forall in Hs1|]. intros E. apply Hc1. right. rewrite E. apply list_elem_of_fmap. eauto. }
    destruct (bend c =? b'.1).
    + rewrite Hsz, u32_id by lia. rewrite <- app_assoc. simpl. split_and!.
      * rewrite fmap_app. simpl. apply path_app. split; [by apply path_frame|]. apply (path_ext h _ _ b'.1); [done|by rewrite hdr_eq|].
        intros y Hy. apply hdr_ne. set_solver.
      * apply Forall_app. split; [apply HF|]. apply Forall_singleton. simpl. by rewrite hdr_eq.
      * rewrite hdr_ne; [done|]. set_solver.
      * right. rewrite fmap_app. simpl. set_solver.
      * intros. by rewrite hdr_ne.
    + rewrite <- app_assoc. simpl. split_and!.
      * rewrite fmap_app. simpl. apply path_app. split; [by apply path_frame|]. simpl. rewrite hdr_eq. split; [done|].
        apply path_frame; [set_solver|done].
      * apply Forall_app. split; [apply HF|]. repeat constructor; [by rewrite hdr_eq|]. rewrite hdr_ne; [done|]. set_solver.
      * rewrite hdr_ne; [done|]. set_solver.
      * right. rewrite fmap_app. simpl. set_solver.
      * intros. by rewrite hdr_ne.
Qed.

Lemma heap_fits s F A c : heap s F A -> c ∈ F -> lo <= c.1 /\ 1 <= c.2 /\ 8 * c.2 < 2 ^ 31.
Proof.
  intros H Hc. destruct (sorted_above F _ c (hp_sorted _ _ _ H) Hc). pose proof (hp_top _ _ _ H) as Ht. rewrite Forall_forall in Ht.
  specialize (Ht c Hc). pose proof (hp_brk _ _ _ H). unfold bend, hplus, sizeof_Header, KERNBASE in *. lia.
Qed.

Lemma free_spec s F A bp n fuel : heap s F A -> A !! bp = Some n -> (2 * length F + 1 < fuel)%nat ->
  wp (free fuel (bp + sizeof_Header)) s (fun _ s' => exists F', heap s' F' (delete bp A) /\
    (forall x, covered F' x <-> covered F x \/ within (bp, n) x) /\ (length F' <= S (length F))%nat /\
    (exists c, c ∈ F' /\ n <= c.2) /\ m_brk s' = m_brk s /\ m_grants s' = m_grants s).
Proof.
  intros H HA Hf. destruct (hp_live _ _ _ H bp n HA) as (Hlo & Hn & Htop & Hsz). pose proof (hp_brk _ _ _ H) as Hbrk. unfold KERNBASE in Hbrk.
  destruct (split_at F (lo - 1) (bp, n) base (hp_sorted _ _ _ H) Hn (fun c Hc => hp_apart _ _ _ H bp n c HA Hc)) as (F1 & F2 & -> & Hf1 & Hf2 & El).
  assert (Hne : forall c, c ∈ F1 ++ F2 -> c.1 <> bp).
  { intros c Hc E. destruct (heap_fits s _ A c H Hc) as (_ & ? & _). destruct (hp_apart _ _ _ H bp n c HA Hc) as [Hx|Hx]; unfold bend, hplus, sizeof_Header in Hx; simpl in Hx; lia. }
  cbn [fst] in El. set (p := List.last (base :: F1.*1) 0) in *.
  assert (Hplace : free_place fuel bp (m_freep s) s = Done p s).
  { rewrite (free_place_spec base bp s ltac:(lia) (F1 ++ F2).*1 fuel); [by rewrite El|apply H| | |apply H|by rewrite length_fmap].
    - apply (sorted_ascending _ (lo - 1)); [lia|apply H].
    - intros (c & E & Hc)%list_elem_of_fmap. by destruct (Hne c Hc). }
  assert (Hp : p ∈ base :: F1.*1).
  { unfold p. apply list_elem_of_In. destruct (exists_last (l := base :: F1.*1) ltac:(done)) as (l' & z & ->). rewrite last_last. apply in_or_app. right. by left. }
  assert (Hpb : p <> bp).
  { intros E. rewrite E in Hp. apply elem_of_cons in Hp as [Hp|(c & Ec & Hc)%list_elem_of_fmap]; [lia|]. apply (Hne c); [set_solver|done]. }
  eapply wp_done; [apply (free_run fuel bp p n s Hplace Hsz Hn Hpb)|].
  pose proof (hp_path _ _ _ H) as Hpath. rewrite fmap_app in Hpath. destruct (path_split _ _ _ _ _ Hpath) as [[e He] Hp2]. fold p in Hp2.
  pose proof (hp_sizes _ _ _ H) as [Hs1 Hs2]%Forall_app. pose proof (hp_sorted _ _ _ H) as [So1 So2]%sorted_app. pose proof (hp_top _ _ _ H) as [Ht1 Ht2]%Forall_app.
  assert (Hlim : forall c m, c ∈ F1 ++ F2 -> 8 * m < 2 ^ 31 -> 1 <= c.2 /\ m + c.2 < 2 ^ 32).
  { intros c m Hc Hm. destruct (heap_fits s _ A c H Hc). lia. }
  pose proof (up_spec (m_hdr s) p bp n F2 Hp2 Hs2 ltac:(lia) Hn) as Hup. pose proof (join_up_spec (bp, n) F2 _ Hn So2 Hf2) as Hju.
  destruct (join_up (bp, n) F2) as [b' F2']. set (h1 := up_hdr (m_hdr s) bp n (hdr (m_hdr s) p).1) in *.
  destruct Hju as (Hb1 & Hb2 & Hb3 & Hb4 & Hb5 & Hb6 & Hb7 & Hb8). simpl in Hb1, Hb2. destruct Hup as (Hu1 & Hu2 & Hu3).
  { intros c Hc. split; [apply Hne; set_solver|]. apply Hlim; [set_solver|]. unfold bend, hplus, sizeof_Header in Htop. simpl in Htop. lia. }
  pose proof (Hb4 (m_brk s) Htop Ht2) as Hb4'. rewrite <- Hb1 in Hu1, Hu2.
  assert (Hb's : 8 * b'.2 < 2 ^ 31) by (unfold bend, hplus, sizeof_Header in Hb4'; lia).
  assert (Hnd : NoDup (base :: F1.*1 ++ b'.1 :: F2'.*1)).
  { pose proof (sorted_nodup F1 base ltac:(by eapply sorted_weaken; [|exact So1]; lia)) as Hn1. pose proof (sorted_nodup F2' _ Hb3) as [_ Hn2]%NoDup_cons.
    change (base :: F1.*1 ++ b'.1 :: F2'.*1) with ((base :: F1.*1) ++ b'.1 :: F2'.*1). apply NoDup_app. split_and!; [done| |].
    - intros x Hx. apply not_elem_of_cons. split.
      + intros ->. rewrite Hb1 in Hx. apply elem_of_cons in Hx as [Hx|(c & Ec & Hc)%list_elem_of_fmap]; [lia|]. apply (Hne c); [set_solver|done].
      + intros (c & -> & Hc%Hb7)%list_elem_of_fmap. rewrite Forall_forall in Hf2. specialize (Hf2 c Hc). unfold bend, hplus, sizeof_Header in Hf2. simpl in Hf2.
        apply elem_of_cons in Hx as [Hx|(d & Ed & Hd)%list_elem_of_fmap]; [lia|]. rewrite Forall_forall in Hf1. specialize (Hf1 d Hd).
        destruct (heap_fits s _ A d H ltac:(set_solver)). unfold bend, hplus, sizeof_Header in Hf1. simpl in Hf1. lia.
    - apply NoDup_cons. split; [|done]. intros (c & Ec & Hc%Hb7)%list_elem_of_fmap. apply (Hne c); [set_solver|]. congruence. }
  assert (Hx1 : forall x, x ∈ base :: F1.*1 -> hdr h1 x = hdr (m_hdr s) x).
  { intros x Hx. apply Hu3. intros ->. apply elem_of_cons in Hx as [Hx|(c & Ec & Hc)%list_elem_of_fmap]; [lia|]. apply (Hne c); [set_solver|done]. }
  destruct (down_spec h1 F1 b' F2' e p) as (D1 & D2 & D3 & D4 & D5).
  { apply (path_ext (m_hdr s) h1 _ base); [done|by rewrite Hx1 by (by left)|]. intros y Hy. apply Hx1. by right. }
  { done. } { done. }
  { apply Forall_forall. intros c Hc. rewrite Hx1 by (right; apply list_elem_of_fmap; eauto). by eapply Forall_forall in Hs1. }
  { rewrite Hx1 by (by left). apply H. } { done. } { done. }
  { intros c Hc. destruct (Hlim c b'.2); [set_solver|lia|]. lia. } { lia. }
  destruct (join_down_spec F1 b' (lo - 1)) as (J1 & J2 & J3 & J4 & J5 & J6 & c0 & J7 & J8); [lia|lia|done|by rewrite Hb1|].
  rewrite Hb1 in D1, D2, D3, D5. set (h2 := down_hdr h1 p bp) in *.
  assert (Hother : forall x, x <> bp -> x <> p -> hdr h2 x = hdr (m_hdr s) x) by (intros x ? ?; by rewrite D5, Hu3).
  assert (Hlive : forall a m, delete bp A !! a = Some m -> A !! a = Some m /\ a <> bp /\ a <> p).
  { intros a m [Hab Ha]%lookup_delete_Some. split_and!; [done|done|]. destruct (hp_live _ _ _ H a m Ha) as (? & ? & _). intros ->.
    apply elem_of_cons in Hp as [Hp|(c & Ec & Hc)%list_elem_of_fmap]; [lia|]. destruct (heap_fits s _ A c H ltac:(set_solver)) as (_ & ? & _).
    destruct (hp_apart _ _ _ H p m c Ha ltac:(set_solver)) as [Hx|Hx]; unfold bend, hplus, sizeof_Header in Hx; simpl in Hx; lia. }
  exists (join_down F1 b' ++ F2'). split_and!; [|..].
  - split; cbn [m_hdr m_freep m_brk set_freep set_hdr]; [done|apply sorted_app; by rewrite J2| |done|done| |done| | |].
    + apply Forall_app. split; [done|]. apply Forall_forall. intros c Hc%Hb7. rewrite Hother; [by eapply Forall_forall in Hs2|apply Hne; set_solver|].
      intros E. rewrite <- E in Hp. rewrite Forall_forall in Hf2. specialize (Hf2 c Hc). unfold bend, hplus, sizeof_Header in Hf2. simpl in Hf2.
      apply elem_of_cons in Hp as [Hp|(d & Ed & Hd)%list_elem_of_fmap]; [lia|]. rewrite Forall_forall in Hf1. specialize (Hf1 d Hd).
      destruct (heap_fits s _ A d H ltac:(set_solver)). unfold bend, hplus, sizeof_Header in Hf1. simpl in Hf1. lia.
    + apply Forall_app. split; [by apply J5|]. apply Forall_forall. intros c Hc%Hb7. by eapply Forall_forall in Ht2.
    + intros a m (Ha & ? & ?)%Hlive. destruct (hp_live _ _ _ H a m Ha) as (? & ? & ? & E). split_and!; [done|done|done|]. by rewrite Hother.
    + intros a m c (Ha & ? & ?)%Hlive Hc. destruct (hp_live _ _ _ H a m Ha) as (_ & Hm & _).
      assert (HF : forall d, d ∈ F1 ++ F2 -> apart (a, m) d) by (intros d; by apply (hp_apart _ _ _ H)).
      apply elem_of_app in Hc as [Hc|Hc%Hb7]; [|apply HF; set_solver]. apply (J6 (a, m)); [|intros d Hd; apply HF; set_solver|done|done].
      apply Hb8; [by apply (hp_disj _ _ _ H)|intros d Hd; apply HF; set_solver|done].
    + intros a m b k (Ha & _)%Hlive (Hb & _)%Hlive. by apply (hp_disj _ _ _ H).
  - intros x. rewrite !covered_app, J4. specialize (Hb5 x). rewrite covered_cons in Hb5. tauto.
  - rewrite !length_app. lia.
  - exists c0. split; [set_solver|lia].
  - done.
  - done.
Qed.
End heap.
