(* ===== verification/UmallocSpec.v ===== *)
(** * Correctness of [malloc] and [free]

    The search of [malloc] goes once around the ring of free blocks; when no
    block is large enough [morecore] adds one that is, and a second round finds
    it.  [malloc_correct] and [free_correct] state what the two promise over
    the invariant [heap] of [Umalloc.v]. *)

From S2P Require Import Prelude Mmu Umalloc.

Section malloc.
Context (base lo : Z) (Hbase : 0 < base < lo).
Abbreviation heap := (heap base lo).

(** ** Going around the ring *)

Lemma ring_from h l x : path h base l base -> NoDup (base :: l) -> x ∈ base :: l ->
  exists R, path h x R x /\ x :: R ≡ₚ base :: l.
Proof.
  intros Hp Hnd [->|Hx]%elem_of_cons; [by exists l|]. destruct (list_elem_of_split _ _ Hx) as (l1 & l2 & ->).
  apply path_app in Hp as [H1 H2]. exists (l2 ++ base :: l1). split; [by apply path_app|].
  change (x :: l2 ++ base :: l1) with ((x :: l2) ++ base :: l1). rewrite (Permutation_app_comm (x :: l2)). done.
Qed.

(** A node of a ring has one predecessor. *)
Lemma path_pred h l1 : forall x p l2 pv, path h x (l1 ++ p :: l2) base -> NoDup (x :: l1 ++ p :: l2) -> base ∉ l1 ++ p :: l2 ->
  pv ∈ x :: l1 ++ p :: l2 -> (hdr h pv).1 = p -> pv = List.last (x :: l1) 0.
Proof.
  assert (Hnext : forall l x y, path h x l base -> y ∈ x :: l -> (hdr h y).1 ∈ l ++ [base]).
  { induction l as [|z l IH]; intros x y Hp Hy.
    - apply list_elem_of_singleton in Hy as ->. simpl in Hp. rewrite Hp. set_solver.
    - destruct Hp as [Hz Hp]. apply elem_of_cons in Hy as [->|Hy]; [rewrite Hz; set_solver|]. specialize (IH z y Hp Hy). set_solver. }
  induction l1 as [|y l1 IH]; intros x p l2 pv Hp Hnd Hb Hpv E.
  - destruct Hp as [Hx Hp]. apply elem_of_cons in Hpv as [->|Hpv]; [done|]. pose proof (Hnext _ _ _ Hp Hpv) as Hin. rewrite E in Hin.
    apply NoDup_cons in Hnd as [_ Hnd]. apply NoDup_cons in Hnd as [Hpl _]. exfalso. apply elem_of_app in Hin as [?| ->%list_elem_of_singleton]; [done|set_solver].
  - destruct Hp as [Hx Hp]. apply elem_of_cons in Hpv as [->|Hpv].
    + exfalso. rewrite E in Hx. subst y. apply NoDup_cons in Hnd as [_ Hnd]. simpl in Hnd. apply NoDup_cons in Hnd as [Hn _]. set_solver.
    + change (List.last (x :: y :: l1) 0) with (List.last (y :: l1) 0). apply NoDup_cons in Hnd as [_ Hnd].
      apply (IH y p l2 pv); [done|done|set_solver|done|done].
Qed.

Lemma loop_eq ffuel fuel n prevp p s : malloc_loop ffuel (S fuel) n prevp p s =
  if n <=? (hdr (m_hdr s) p).2 then take_block n prevp p (hdr (m_hdr s) p).2 s
  else if p =? m_freep s then (p ← morecore ffuel n; if p =? 0 then mret 0 else q ← ptr p; malloc_loop ffuel fuel n p q) s
  else malloc_loop ffuel fuel n p (hdr (m_hdr s) p).1 s.
Proof.
  cbn [malloc_loop]. rewrite (bind_done (size p) _ s (hdr (m_hdr s) p).2 s eq_refl). destruct (n <=? _); [done|].
  rewrite (bind_done kget _ s s s eq_refl). by destruct (p =? m_freep s).
Qed.

Lemma search_spec ffuel n s R : forall fuel prevp p, (hdr (m_hdr s) prevp).1 = p -> path (m_hdr s) prevp R (m_freep s) -> m_freep s ∉ R ->
  (length R < fuel)%nat ->
  (exists pv c, pv ∈ prevp :: R /\ c ∈ R ++ [m_freep s] /\ (hdr (m_hdr s) pv).1 = c /\ n <= (hdr (m_hdr s) c).2 /\
     malloc_loop ffuel fuel n prevp p s = take_block n pv c (hdr (m_hdr s) c).2 s) \/
  (Forall (fun c => (hdr (m_hdr s) c).2 < n) (R ++ [m_freep s]) /\ exists fuel', (fuel' + length R + 1 = fuel)%nat /\
     malloc_loop ffuel fuel n prevp p s =
     (p ← morecore ffuel n; if p =? 0 then mret 0 else q ← ptr p; malloc_loop ffuel fuel' n p q) s).
Proof.
  induction R as [|y R IH]; intros [|fuel] prevp p Hp Hpath Hn Hf; simpl in Hf; try lia; rewrite loop_eq; simpl in Hpath.
  - rewrite Hpath in Hp. subst p. destruct (Z.leb_spec n (hdr (m_hdr s) (m_freep s)).2) as [Hle|Hlt].
    + left. exists prevp, (m_freep s). split_and!; [by left|by left|done|done|done].
    + right. split; [by apply Forall_singleton|]. exists fuel. split; [simpl; lia|]. by rewrite Z.eqb_refl.
  - destruct Hpath as [Hy Hpath]. rewrite Hy in Hp. subst p. destruct (Z.leb_spec n (hdr (m_hdr s) y).2) as [Hle|Hlt].
    + left. exists prevp, y. split_and!; [by left|set_solver|done|done|done].
    + rewrite (proj2 (Z.eqb_neq y _)) by set_solver.
      destruct (IH fuel y (hdr (m_hdr s) y).1 eq_refl Hpath) as [(pv & c & H1 & H2 & H3 & H4 & E)|(H1 & fuel' & H2 & E)]; [set_solver|lia| |].
      * left. exists pv, c. split_and!; [by right|set_solver|done|done|done].
      * right. split; [by constructor|]. exists fuel'. split; [simpl; lia|done].
Qed.

(** ** Taking a block *)

Lemma sorted_around G1 : forall l0 b G2, sorted l0 (G1 ++ b :: G2) ->
  Forall (fun c => bend c < b.1) G1 /\ Forall (fun c => bend b < c.1) G2 /\ l0 < b.1 /\ 1 <= b.2.
Proof.
  induction G1 as [|c G1 IH]; intros l0 b G2; simpl.
  - intros (H1 & H2 & H3). split_and!; [constructor| |done|done]. apply Forall_forall. intros d Hd. by apply (sorted_above G2 _ d H3).
  - intros (H1 & H2 & H3). destruct (IH _ _ _ H3) as (I1 & I2 & I3 & I4). unfold bend, hplus, sizeof_Header in *.
    split_and!; [by constructor|done|lia|done].
Qed.
Lemma sorted_remove G1 : forall l0 b G2, sorted l0 (G1 ++ b :: G2) -> sorted l0 (G1 ++ G2).
Proof.
  induction G1 as [|c G1 IH]; intros l0 b G2; simpl.
  - intros (H1 & H2 & H3). eapply sorted_weaken; [|exact H3]. unfold bend, hplus, sizeof_Header. lia.
  - intros (H1 & H2 & H3). split_and!; [done|done|by eapply IH].
Qed.
Lemma sorted_shrink G1 : forall l0 p k m G2, sorted l0 (G1 ++ (p, k) :: G2) -> 1 <= m <= k -> sorted l0 (G1 ++ (p, m) :: G2).
Proof.
  induction G1 as [|c G1 IH]; intros l0 p k m G2; simpl.
  - intros (H1 & H2 & H3) Hm. split_and!; [done|lia|]. eapply sorted_weaken; [|exact H3]. unfold bend, hplus, sizeof_Header. simpl. lia.
  - intros (H1 & H2 & H3) Hm. split_and!; [done|done|by eapply IH].
Qed.

(** A free block and where it stands in the ring. *)
Lemma found_block s F A pv p k : heap s F A -> (p, k) ∈ F -> pv ∈ base :: F.*1 -> (hdr (m_hdr s) pv).1 = p ->
  exists G1 G2, F = G1 ++ (p, k) :: G2 /\ pv = List.last (base :: G1.*1) 0 /\ NoDup (base :: F.*1) /\
  path (m_hdr s) base G1.*1 p /\ path (m_hdr s) p G2.*1 base.
Proof.
  intros H Hin Hpv E. destruct (list_elem_of_split _ _ Hin) as (G1 & G2 & ->). exists G1, G2.
  assert (Hnd : NoDup (base :: (G1 ++ (p, k) :: G2).*1)).
  { apply sorted_nodup. eapply sorted_weaken; [|apply (hp_sorted _ _ _ _ _ H)]. lia. }
  pose proof (hp_path _ _ _ _ _ H) as Hp. rewrite fmap_app in *. simpl in *. split_and!; [done| |done|by apply path_app in Hp as [? _]|by apply path_app in Hp as [_ ?]].
  apply (path_pred (m_hdr s) G1.*1 base p G2.*1 pv Hp Hnd); [|done|done]. by apply NoDup_cons in Hnd as [? _].
Qed.

(** The invariant after the block at [a], of size [n], left the free list. *)
Lemma heap_take s s' F F' A a n : heap s F A -> sorted (lo - 1) F' -> path (m_hdr s') base F'.*1 base ->
  Forall (fun b => (hdr (m_hdr s') b.1).2 = b.2) F' -> (hdr (m_hdr s') base).2 = 0 -> m_freep s' ∈ base :: F'.*1 ->
  m_brk s' = m_brk s -> lo <= a -> 1 <= n -> bend (a, n) <= m_brk s -> (hdr (m_hdr s') a).2 = n ->
  (forall x m, A !! x = Some m -> (hdr (m_hdr s') x).2 = (hdr (m_hdr s) x).2 /\ apart (x, m) (a, n)) ->
  (forall c, c ∈ F' -> apart (a, n) c /\ exists d, d ∈ F /\ d.1 <= c.1 /\ bend c <= bend d) -> heap s' F' (<[a := n]> A).
Proof.
  intros H Hs Hp Hsz Hb0 Hfp Hbrk Ha Hn Htop Hsa HA HF.
  assert (Hsub : forall x m c, A !! x = Some m -> c ∈ F' -> apart (x, m) c).
  { intros x m c Hx Hc. destruct (HF c Hc) as (_ & d & Hd & H1 & H2). pose proof (hp_apart _ _ _ _ _ H x m d Hx Hd) as Hap. unfold apart in *. simpl in *. lia. }
  split; [done|done|done|done|done| |rewrite Hbrk; apply H| | |].
  - apply Forall_forall. intros c Hc. destruct (HF c Hc) as (_ & d & Hd & _ & H2). pose proof (hp_top _ _ _ _ _ H) as Ht.
    rewrite Forall_forall in Ht. specialize (Ht d Hd). rewrite Hbrk. lia.
  - intros x m [[<- <-]|[Hx Hm]]%lookup_insert_Some; [rewrite Hbrk; done|]. destruct (hp_live _ _ _ _ _ H x m Hm) as (? & ? & ? & E).
    rewrite Hbrk. split_and!; [done|done|done|]. by rewrite (proj1 (HA x m Hm)).
  - intros x m c [[<- <-]|[Hx Hm]]%lookup_insert_Some Hc; [by apply HF|by apply Hsub].
  - intros x m y k [[<- <-]|[Hx Hm]]%lookup_insert_Some [[<- <-]|[Hy Hk]]%lookup_insert_Some Hne; [done| | |by apply (hp_disj _ _ _ _ _ H)].
    + destruct (HA y k Hk) as [_ Hap]. unfold apart in *. simpl in *. lia.
    + by apply HA.
Qed.

(** What [malloc] gives out: the block at [a], apart from all the others. *)
Definition taken (s : mstate) (F : list blk) (A : gmap Z Z) (n r : Z) (s' : mstate) : Prop :=
  exists F' a, r = a + sizeof_Header /\ A !! a = None /\ heap s' F' (<[a := n]> A) /\
    (forall x, covered F x <-> covered F' x \/ within (a, n) x) /\ (length F' <= length F)%nat /\ m_brk s' = m_brk s.

Lemma covered_split G1 G2 b x : covered (G1 ++ b :: G2) x <-> covered (G1 ++ G2) x \/ within b x.
Proof. rewrite !covered_app, covered_cons. tauto. Qed.

Lemma live_apart s F A c x m : heap s F A -> c ∈ F -> A !! x = Some m -> apart (x, m) c /\ x <> c.1.
Proof.
  intros H Hc Hx. pose proof (hp_apart _ _ _ _ _ H x m c Hx Hc) as Hap. split; [done|]. destruct (hp_live _ _ _ _ _ H x m Hx) as (_ & ? & _).
  destruct (heap_fits base lo Hbase s F A c H Hc) as (_ & ? & _). unfold apart, bend, hplus, sizeof_Header in Hap. simpl in Hap. lia.
Qed.

Lemma take_exact s F A pv p n : heap s F A -> (p, n) ∈ F -> pv ∈ base :: F.*1 -> (hdr (m_hdr s) pv).1 = p ->
  wp (take_block n pv p n) s (taken s F A n).
Proof.
  intros H Hin Hpv E. destruct (found_block s F A pv p n H Hin Hpv E) as (G1 & G2 & -> & Epv & Hnd & P1 & P2).
  destruct (sorted_around G1 _ _ _ (hp_sorted _ _ _ _ _ H)) as (S1 & S2 & S3 & S4). simpl in S3, S4.
  unfold take_block. rewrite Z.eqb_refl. eapply wp_done; [reflexivity|]. set (h := m_hdr s) in *. set (q := (hdr h p).1).
  set (h' := <[pv := (q, (hdr h pv).2)]> h). rewrite fmap_app in Hnd. simpl in Hnd.
  assert (Hsz : forall x, (hdr h' x).2 = (hdr h x).2) by (intros x; unfold h'; destruct (decide (pv = x)) as [->|]; [by rewrite hdr_eq|by rewrite hdr_ne]).
  pose proof Hnd as Hnd'. rewrite (app_comm_cons _ _ base) in Hnd'. apply NoDup_app in Hnd' as (Hnd1 & Hnd2 & Hnd3). apply NoDup_cons in Hnd3 as [Hp2 Hnd3].
  assert (Hpv1 : pv ∈ base :: G1.*1).
  { rewrite Epv. apply list_elem_of_In. destruct (exists_last (l := base :: G1.*1) ltac:(done)) as (l' & z & ->). rewrite last_last. apply in_or_app. right. by left. }
  assert (Hpath : path h' base (G1 ++ G2).*1 base).
  { rewrite fmap_app. pose proof (path_redirect h G1.*1 base p q pv (q, (hdr h pv).2) Hnd1 (eq_sym Epv) eq_refl P1) as P1'. fold h' in P1'.
    destruct G2 as [|c G2]; simpl in *; [by rewrite app_nil_r; unfold q in P1'; rewrite P2 in P1'|]. destruct P2 as [P2 P3]. unfold q in P1'. rewrite P2 in P1'.
    apply path_app. split; [done|]. apply path_frame; [|done]. intros Hc. apply (Hnd2 pv Hpv1). by right. }
  exists (G1 ++ G2), p. split_and!; [done| | |apply covered_split|rewrite !length_app; simpl; lia|done].
  - destruct (A !! p) as [m|] eqn:Ea; [|done]. by destruct (live_apart s _ A (p, n) p m H Hin Ea).
  - apply (heap_take s _ (G1 ++ (p, n) :: G2)); cbn [m_hdr m_freep m_brk set_freep set_hdr]; [done|by eapply sorted_remove, H|done| |rewrite Hsz; apply H| |done|lia|done| | | |].
    + pose proof (hp_sizes _ _ _ _ _ H) as Hs. apply Forall_app in Hs as [Hs1 [_ Hs2]%Forall_cons]. apply Forall_app.
      split; [eapply Forall_impl; [exact Hs1|]|eapply Forall_impl; [exact Hs2|]]; intros c; by rewrite Hsz.
    + rewrite fmap_app. set_solver.
    + pose proof (hp_top _ _ _ _ _ H) as Ht. rewrite Forall_forall in Ht. by apply (Ht (p, n)).
    + rewrite Hsz. pose proof (hp_sizes _ _ _ _ _ H) as Hs. rewrite Forall_forall in Hs. by apply (Hs (p, n)).
    + intros x m Hx. split; [apply Hsz|]. by apply (live_apart s _ A (p, n) x m H).
    + intros c Hc. split; [|exists c; split; [set_solver|lia]]. rewrite Forall_forall in S1, S2. unfold apart. simpl. apply elem_of_app in Hc as [Hc|Hc].
      * right. specialize (S1 c Hc). simpl in S1. lia.
      * left. specialize (S2 c Hc). simpl in S2. lia.
Qed.

Lemma path_same h h' l : forall x e, (forall y, y ∈ x :: l -> (hdr h' y).1 = (hdr h y).1) -> path h x l e -> path h' x l e.
Proof.
  induction l as [|y l IH]; intros x e Hx; simpl; rewrite (Hx x) by (by left); [done|]. intros [E Hl].
  split; [done|]. apply IH; [|done]. intros z Hz. apply Hx. by right.
Qed.

(** The end of a free block, as a block of its own. *)
Lemma tail_apart p k n a : a = hplus p (k - n) -> 1 <= n < k ->
  p < a /\ a < bend (p, k) /\ bend (a, n) = bend (p, k) /\ bend (p, k - n) = a /\
  (forall x, within (p, k) x <-> within (p, k - n) x \/ within (a, n) x).
Proof. intros -> Hn. unfold within, bend, hplus, sizeof_Header. simpl. split_and!; lia. Qed.

Lemma tail_new s F A p k n a : heap s F A -> (p, k) ∈ F -> a = hplus p (k - n) -> 1 <= n < k ->
  (forall x, x ∈ base :: F.*1 -> x <> a) /\ (forall x m, A !! x = Some m -> apart (x, m) (a, n) /\ x <> a /\ x <> p).
Proof.
  intros H Hin Ea Hn. destruct (tail_apart p k n a Ea Hn) as (Ha1 & Ha2 & Ha3 & Ha4 & _).
  destruct (heap_fits base lo Hbase s F A _ H Hin) as (Hp & _). simpl in Hp. split.
  - intros x [->|(c & -> & Hc)%list_elem_of_fmap]%elem_of_cons; [lia|]. intros Ec.
    destruct (list_elem_of_split _ _ Hin) as (G1 & G2 & ->). destruct (sorted_around G1 _ _ _ (hp_sorted _ _ _ _ _ H)) as (S1 & S2 & _).
    rewrite Forall_forall in S1, S2. apply elem_of_app in Hc as [Hc|[->|Hc]%elem_of_cons]; [|simpl in Ec; lia|specialize (S2 c Hc); lia].
    specialize (S1 c Hc). destruct (heap_fits base lo Hbase s _ A c H ltac:(set_solver)) as (_ & ? & _). unfold bend, hplus, sizeof_Header in *. simpl in *. lia.
  - intros x m Hx. destruct (live_apart s _ A (p, k) x m H Hin Hx) as [Hap Hxp]. simpl in Hxp. destruct (hp_live _ _ _ _ _ H x m Hx) as (_ & Hm & _).
    unfold apart in *. rewrite Ha3. simpl in *. split_and!; [lia| |done]. unfold bend, hplus, sizeof_Header in Hap, Ha2. simpl in Hap, Ha2. lia.
Qed.

Lemma take_tail s F A pv p k n : heap s F A -> (p, k) ∈ F -> pv ∈ base :: F.*1 -> (hdr (m_hdr s) pv).1 = p -> 1 <= n < k ->
  wp (take_block n pv p k) s (taken s F A n).
Proof.
  intros H Hin Hpv E Hn. destruct (found_block s F A pv p k H Hin Hpv E) as (G1 & G2 & -> & _ & Hnd & _).
  destruct (sorted_around G1 _ _ _ (hp_sorted _ _ _ _ _ H)) as (S1 & S2 & S3 & S4). simpl in S3, S4. rewrite Forall_forall in S1, S2.
  unfold take_block. rewrite (proj2 (Z.eqb_neq k n)) by lia. eapply wp_done; [reflexivity|]. set (h := m_hdr s) in *.
  remember (hplus p (k - n)) as a eqn:Ea. destruct (tail_apart p k n a Ea Hn) as (Ha1 & Ha2 & Ha3 & Ha4 & Hcov).
  destruct (tail_new s _ A p k n a H Hin Ea Hn) as [Hna HnA]. cbn [m_hdr set_hdr]. set (h' := <[a := _]> _).
  assert (Hoth : forall x, x <> a -> x <> p -> hdr h' x = hdr h x) by (intros; unfold h'; by rewrite !hdr_ne by done).
  assert (Hp' : hdr h' p = ((hdr h p).1, k - n)) by (unfold h'; rewrite hdr_ne, hdr_eq by lia; done).
  assert (Hlink : forall x, x ∈ base :: (G1 ++ (p, k) :: G2).*1 -> (hdr h' x).1 = (hdr h x).1).
  { intros x Hx. destruct (decide (x = p)) as [->|]; [by rewrite Hp'|]. rewrite Hoth; [done|by apply Hna|done]. }
  assert (Efs : (G1 ++ (p, k - n) :: G2).*1 = (G1 ++ (p, k) :: G2).*1) by (by rewrite !fmap_app).
  pose proof (hp_sizes _ _ _ _ _ H) as Hs. rewrite Forall_forall in Hs. pose proof (hp_top _ _ _ _ _ H) as Ht. rewrite Forall_forall in Ht. specialize (Ht _ Hin).
  assert (Hne : forall c, c ∈ G1 \/ c ∈ G2 -> c.1 <> p /\ c.1 <> a /\ c ∈ (G1 ++ (p, k) :: G2)).
  { intros c Hc. rewrite fmap_app in Hnd. simpl in Hnd. apply NoDup_cons in Hnd as [_ Hnd]. apply NoDup_app in Hnd as (_ & Hn1 & [Hn2 _]%NoDup_cons).
    assert (Hin' : c ∈ G1 ++ (p, k) :: G2) by (apply elem_of_app; destruct Hc; [by left|right; by right]).
    split_and!; [|apply Hna; right; by apply list_elem_of_fmap_2|done]. intros <-. destruct Hc as [Hc|Hc]; apply (list_elem_of_fmap_2 fst) in Hc; [|done]. apply (Hn1 _ Hc). by left. }
  exists (G1 ++ (p, k - n) :: G2), a. split_and!; [done| | | |rewrite !length_app; simpl; lia|done].
  - destruct (A !! a) as [m|] eqn:EA; [|done]. by destruct (HnA a m EA) as (_ & ? & _).
  - apply (heap_take s _ (G1 ++ (p, k) :: G2)); cbn [m_hdr m_freep m_brk set_freep set_hdr]; [done|eapply sorted_shrink; [apply H|lia]| | | | |done|lia|lia|lia| | |].
    + rewrite Efs. apply (path_same h); [done|apply H].
    + apply Forall_forall. intros c Hc. apply elem_of_app in Hc as [Hc|[->|Hc]%elem_of_cons]; [|simpl; by rewrite Hp'|];
        (destruct (Hne c) as (? & ? & Hc'); [tauto|]; rewrite Hoth by done; by apply Hs).
    + rewrite Hoth; [apply H|apply Hna; by left|lia].
    + by rewrite Efs.
    + unfold h'. by rewrite hdr_eq.
    + intros x m Hx. destruct (HnA x m Hx) as (? & ? & ?). by rewrite Hoth.
    + intros c Hc. unfold apart. rewrite Ha3. simpl. apply elem_of_app in Hc as [Hc|[->|Hc]%elem_of_cons].
      * specialize (S1 c Hc). simpl in S1. split; [lia|]. exists c. split; [set_solver|lia].
      * rewrite Ha4. simpl. split; [lia|]. exists (p, k). split; [done|]. simpl. lia.
      * specialize (S2 c Hc). split; [lia|]. exists c. split; [set_solver|lia].
  - intros x. rewrite !covered_split, Hcov. tauto.
Qed.

Lemma take_spec s F A pv p k n : heap s F A -> (p, k) ∈ F -> pv ∈ base :: F.*1 -> (hdr (m_hdr s) pv).1 = p -> 1 <= n <= k ->
  wp (take_block n pv p k) s (taken s F A n).
Proof. intros. destruct (decide (n = k)) as [->|]; [by apply take_exact|]. apply take_tail; (done || lia). Qed.

(** ** More memory *)

Definition nalloc (nu : Z) : Z := Z.max 4096 nu.      (* what [morecore] asks for *)
(** The kernel would not grow the process by [nu] units. *)
Definition refused (s : mstate) (nu : Z) : Prop := head (m_grants s) <> Some true \/ KERNBASE <= m_brk s + sizeof_Header * nalloc nu.

Lemma sbrk_spec s n : 0 <= m_brk s ->
  (exists g, sbrk n s = Done (-1) (mkmstate (m_hdr s) (m_freep s) (m_brk s) g) /\ (head (m_grants s) <> Some true \/ KERNBASE <= m_brk s + n)) \/
  (exists g, sbrk n s = Done (m_brk s) (mkmstate (m_hdr s) (m_freep s) (m_brk s + n) g) /\ m_brk s + n < KERNBASE).
Proof.
  intros Hb. unfold sbrk. destruct s as [h f b [|[] g]]; simpl in *.
  - left. exists []. split; [done|by left].
  - destruct (Z.ltb_spec (b + n) KERNBASE); [right|left]; exists g; (split; [done|]); [done|by right].
  - left. exists g. split; [done|by left].
Qed.

Lemma heap_grants s F A g : heap s F A -> heap (mkmstate (m_hdr s) (m_freep s) (m_brk s) g) F A.
Proof. intros []. by split. Qed.

(** The memory above the old break as a block in use. *)
Lemma heap_grow s F A n g : heap s F A -> 1 <= n -> m_brk s + sizeof_Header * n < KERNBASE ->
  let b := m_brk s in A !! b = None /\
  heap (mkmstate (<[b := ((hdr (m_hdr s) b).1, n)]> (m_hdr s)) (m_freep s) (b + sizeof_Header * n) g) F (<[b := n]> A).
Proof.
  intros H Hn Hk b. pose proof (hp_brk _ _ _ _ _ H) as Hb. pose proof (hp_top _ _ _ _ _ H) as Ht. rewrite Forall_forall in Ht.
  assert (HF : forall c, c ∈ F -> c.1 < b /\ bend c <= b).
  { intros c Hc. specialize (Ht c Hc). destruct (heap_fits base lo Hbase s F A c H Hc) as (_ & ? & _). unfold bend, hplus, sizeof_Header in *. split; [lia|done]. }
  assert (HA : forall x m, A !! x = Some m -> x < b /\ bend (x, m) <= b).
  { intros x m Hx. destruct (hp_live _ _ _ _ _ H x m Hx) as (_ & ? & ? & _). unfold bend, hplus, sizeof_Header in *. simpl in *. split; [lia|done]. }
  assert (Hne : forall x, x ∈ base :: F.*1 -> b <> x).
  { intros x [->|(c & -> & Hc)%list_elem_of_fmap]%elem_of_cons; [lia|]. destruct (HF c Hc). lia. }
  split; [destruct (A !! b) as [m|] eqn:E; [destruct (HA b m E); lia|done]|].
  unfold sizeof_Header in *. split; cbn [m_hdr m_freep m_brk]; [|apply H| | |apply H| |lia| | |].
  - apply path_frame; [intros Hx; by apply (Hne b)|apply H].
  - pose proof (hp_sizes _ _ _ _ _ H) as Hs. rewrite Forall_forall in *. intros c Hc. rewrite hdr_ne; [by apply Hs|]. apply Hne. right. by apply list_elem_of_fmap_2.
  - rewrite hdr_ne; [apply H|]. apply Hne. by left.
  - apply Forall_forall. intros c Hc. destruct (HF c Hc). lia.
  - intros x m [[<- <-]|[Hx Hm]]%lookup_insert_Some; [rewrite hdr_eq; unfold bend, hplus, sizeof_Header; simpl; split_and!; [lia|done|lia|done]|].
    destruct (hp_live _ _ _ _ _ H x m Hm) as (? & ? & ? & ?). rewrite hdr_ne by done. split_and!; [done|done|lia|done].
  - intros x m c [[<- <-]|[Hx Hm]]%lookup_insert_Some Hc; [right; by apply HF|by apply (hp_apart _ _ _ _ _ H)].
  - intros x m y k [[<- <-]|[Hx Hm]]%lookup_insert_Some [[<- <-]|[Hy Hk']]%lookup_insert_Some Hxy; [done| | |by apply (hp_disj _ _ _ _ _ H)].
    + right. by apply HA.
    + left. by apply HA.
Qed.

Lemma morecore_spec s F A nu fuel : heap s F A -> 1 <= nu < 2 ^ 28 -> (2 * length F + 1 < fuel)%nat ->
  wp (morecore fuel nu) s (fun r s' =>
    (r = 0 /\ heap s' F A /\ m_brk s' = m_brk s /\ refused s nu) \/
    (r = m_freep s' /\ r <> 0 /\ exists F', heap s' F' A /\ (length F' <= S (length F))%nat /\ (exists c, c ∈ F' /\ nu <= c.2) /\
       m_brk s < m_brk s' /\ forall x, covered F' x <-> covered F x \/ m_brk s <= x < m_brk s')).
Proof.
  intros H Hnu Hf. unfold morecore. replace (if nu <? 4096 then 4096 else nu) with (nalloc nu) by (unfold nalloc; destruct (Z.ltb_spec nu 4096); lia).
  assert (Hn : nu <= nalloc nu /\ 4096 <= nalloc nu < 2 ^ 28) by (unfold nalloc; lia). remember (nalloc nu) as n eqn:En.
  assert (Ei : i32 (u32 (n * sizeof_Header)) = sizeof_Header * n).
  { unfold sizeof_Header. rewrite u32_id by lia. rewrite i32_id by lia. lia. }
  pose proof (hp_brk _ _ _ _ _ H) as Hb. rewrite Ei. apply wp_bind.
  destruct (sbrk_spec s (sizeof_Header * n) ltac:(lia)) as [(g & E & Hr)|(g & E & Hr)]; (eapply wp_done; [exact E|]).
  - rewrite Z.eqb_refl. apply wp_ret. left. split_and!; [done|by apply heap_grants|done|]. unfold refused. by rewrite <- En.
  - rewrite (proj2 (Z.eqb_neq _ _)) by lia. destruct (heap_grow s F A n g H ltac:(lia) Hr) as [HA HG].
    apply wp_bind. eapply wp_done; [reflexivity|]. cbn [m_hdr m_freep m_brk m_grants set_hdr]. apply wp_bind.
    eapply wp_mono; [apply (free_spec base lo Hbase _ F _ (m_brk s) n fuel HG); [apply lookup_insert_eq|done]|].
    intros _ s' (F' & H' & Hcov & Hlen & (c & Hc & Hcn) & Hbrk & _). rewrite delete_insert_id in H' by done. cbn [m_brk] in Hbrk. wp_steps.
    right. split_and!; [done| |].
    + pose proof (hp_freep _ _ _ _ _ H') as Hfp. apply elem_of_cons in Hfp as [->|(d & -> & Hd)%list_elem_of_fmap]; [lia|].
      destruct (heap_fits base lo Hbase s' F' A d H' Hd). lia.
    + exists F'. split_and!; [done|done|exists c; split; [done|lia]|rewrite Hbrk; unfold sizeof_Header; lia|].
      intros x. rewrite Hcov, Hbrk. done.
Qed.

(** ** [malloc] *)

(** The ring as [malloc] goes around it, from [freep]. *)
Lemma heap_ring s F A : heap s F A -> exists R, path (m_hdr s) (m_freep s) R (m_freep s) /\ m_freep s ∉ R /\ length R = length F /\
  forall x, x ∈ m_freep s :: R <-> x ∈ base :: F.*1.
Proof.
  intros H. assert (Hnd : NoDup (base :: F.*1)) by (apply sorted_nodup; eapply sorted_weaken; [|apply (hp_sorted _ _ _ _ _ H)]; lia).
  destruct (ring_from (m_hdr s) F.*1 (m_freep s)) as (R & Hp & Hperm); [apply H|done|apply H|]. exists R. split_and!; [done| | |intros x; by rewrite Hperm].
  - rewrite <- Hperm in Hnd. by apply NoDup_cons in Hnd as [? _].
  - apply Permutation_length in Hperm. simpl in Hperm. rewrite length_fmap in Hperm. lia.
Qed.

Lemma loop_round s F A n ffuel fuel : heap s F A -> 1 <= n -> (length F < fuel)%nat ->
  wp (malloc_loop ffuel fuel n (m_freep s) (hdr (m_hdr s) (m_freep s)).1) s (taken s F A n) \/
  ((forall c, c ∈ F -> c.2 < n) /\ exists fuel', (fuel' + length F + 1 = fuel)%nat /\
   malloc_loop ffuel fuel n (m_freep s) (hdr (m_hdr s) (m_freep s)).1 s =
   (p ← morecore ffuel n; if p =? 0 then mret 0 else q ← ptr p; malloc_loop ffuel fuel' n p q) s).
Proof.
  intros H Hn Hf. destruct (heap_ring s F A H) as (R & Hp & HnR & Hlen & Hmem). pose proof (hp_sizes _ _ _ _ _ H) as Hs. rewrite Forall_forall in Hs.
  assert (Hmem' : forall x, x ∈ R ++ [m_freep s] <-> x ∈ base :: F.*1) by (intros x; rewrite <- Hmem; set_solver).
  destruct (search_spec ffuel n s R fuel (m_freep s) _ eq_refl Hp HnR ltac:(lia)) as [(pv & c & H1 & H2 & H3 & H4 & E)|(H1 & fuel' & H2 & E)].
  - left. apply Hmem' in H2 as [->|(b & -> & Hb)%list_elem_of_fmap]%elem_of_cons; [rewrite (hp_base _ _ _ _ _ H) in H4; lia|].
    unfold wp. rewrite E. rewrite (Hs b Hb) in H4 |- *. apply (take_spec s F A pv b.1 b.2 n H); [by destruct b|by apply Hmem|done|lia].
  - right. split; [|exists fuel'; by rewrite <- Hlen]. intros c Hc. rewrite <- (Hs c Hc). rewrite Forall_forall in H1. apply H1, Hmem'. right. by apply list_elem_of_fmap_2.
Qed.

(** What [malloc] gives: null when no free block is large enough and the kernel
    refused, or a block that was free, or lies above the old break. *)
Definition allocated (s : mstate) (F : list blk) (A : gmap Z Z) (n r : Z) (s' : mstate) : Prop :=
  (r = 0 /\ heap s' F A /\ m_brk s' = m_brk s /\ (forall c, c ∈ F -> c.2 < n) /\ refused s n) \/
  (exists F' a, r = a + sizeof_Header /\ A !! a = None /\ heap s' F' (<[a := n]> A) /\ (length F' <= S (length F))%nat /\
     forall x, covered F' x \/ within (a, n) x <-> covered F x \/ m_brk s <= x < m_brk s').

Lemma loop_spec s F A n ffuel fuel : heap s F A -> 1 <= n < 2 ^ 28 -> (2 * length F + 1 < ffuel)%nat -> (2 * length F + 2 < fuel)%nat ->
  wp (malloc_loop ffuel fuel n (m_freep s) (hdr (m_hdr s) (m_freep s)).1) s (allocated s F A n).
Proof.
  intros H Hn Hff Hf. destruct (loop_round s F A n ffuel fuel H ltac:(lia) ltac:(lia)) as [Hw|(Hsmall & fuel' & Hf' & E)].
  { eapply wp_mono; [exact Hw|]. intros r s' (F' & a & -> & Ha & H' & Hcov & Hlen & Hb). right. exists F', a. split_and!; [done|done|done|lia|].
    intros x. rewrite Hb, Hcov. intuition lia. }
  unfold wp. rewrite E. apply wp_bind. eapply wp_mono; [apply (morecore_spec s F A n ffuel H Hn Hff)|].
  intros r s1 [(-> & H1 & Hb & Hr)|(-> & Hr & F1 & H1 & Hl1 & (c & Hc & Hcn) & Hb & Hcov)].
  { apply wp_ret. by left. }
  rewrite (proj2 (Z.eqb_neq _ _)) by done. apply wp_bind. eapply wp_done; [reflexivity|].
  destruct (loop_round s1 F1 A n ffuel fuel' H1 ltac:(lia) ltac:(lia)) as [Hw|(Hno & _)]; [|specialize (Hno c Hc); lia].
  eapply wp_mono; [exact Hw|]. intros r s' (F' & a & -> & Ha & H' & Hcov' & Hlen & Hb'). right. exists F', a. split_and!; [done|done|done|lia|].
  intros x. rewrite Hb', <- Hcov', Hcov. done.
Qed.

(** The heap, or before the first call of [malloc]. *)
Definition ready (s : mstate) (F : list blk) (A : gmap Z Z) : Prop :=
  heap s F A \/ (m_freep s = 0 /\ F = [] /\ A = ∅ /\ lo <= m_brk s < KERNBASE).

Lemma malloc_alloc s F A nbytes ffuel fuel : ready s F A -> 1 <= units nbytes < 2 ^ 28 -> (2 * length F + 1 < ffuel)%nat -> (2 * length F + 2 < fuel)%nat ->
  wp (malloc base ffuel fuel nbytes) s (allocated s F A (units nbytes)).
Proof.
  intros H Hr Hff Hf. set (n := units nbytes) in *.
  unfold malloc. apply wp_bind, wp_get. destruct H as [H|(Hf0 & -> & -> & Hb)].
  - pose proof (hp_freep _ _ _ _ _ H) as Hfp. rewrite (proj2 (Z.eqb_neq (m_freep s) 0)).
    2: { apply elem_of_cons in Hfp as [->|(d & -> & Hc)%list_elem_of_fmap]; [lia|]. destruct (heap_fits base lo Hbase s F A d H Hc). lia. }
    wp_steps. by apply loop_spec.
  - rewrite Hf0. cbn [Z.eqb]. set (s1 := mkmstate (<[base := (base, 0)]> (m_hdr s)) base (m_brk s) (m_grants s)).
    assert (H1 : heap s1 [] ∅).
    { split; cbn; try done; [by rewrite hdr_eq|by rewrite hdr_eq|by left]. }
    assert (E : (kmodify (set_freep base);; put_ptr base base;; put_size base 0) s = Done tt s1).
    { unfold put_ptr, put_size, kmodify, mbind, km_bind. cbn [m_hdr set_freep set_hdr m_freep m_brk m_grants]. unfold set_hdr. cbn [m_hdr set_freep m_freep m_brk m_grants]. by rewrite hdr_eq, insert_insert_eq. }
    apply wp_bind. eapply wp_done; [exact E|].
    wp_steps. pose proof (loop_spec s1 [] ∅ (units nbytes) ffuel fuel H1 Hr Hff Hf) as Hl. exact Hl.
Qed.

Lemma units_spec nbytes : 0 <= nbytes < 2 ^ 31 - 16 ->
  1 <= units nbytes < 2 ^ 28 /\ nbytes <= sizeof_Header * (units nbytes - 1) < nbytes + sizeof_Header.
Proof.
  intros Hn. assert (Hu : units nbytes = (nbytes + 7) / 8 + 1).
  { unfold units, sizeof_Header. rewrite (u32_id (nbytes + 8 - 1)) by lia. replace (nbytes + 8 - 1) with (nbytes + 7) by lia. apply u32_id.
    pose proof (Z.div_le_upper_bound (nbytes + 7) 8 (2 ^ 31)). pose proof (Z.div_pos (nbytes + 7) 8). lia. }
  pose proof (Z_div_mod_eq_full (nbytes + 7) 8) as Hd. pose proof (Z.mod_pos_bound (nbytes + 7) 8 ltac:(lia)) as Hm.
  unfold sizeof_Header. rewrite Hu. lia.
Qed.
(** The sum in [nunits] wraps. *)
Lemma units_wrap nbytes : 2 ^ 32 - 7 <= nbytes < 2 ^ 32 -> units nbytes = 1.
Proof.
  intros Hn. unfold units, sizeof_Header. replace (u32 (nbytes + 8 - 1)) with (nbytes + 7 - 2 ^ 32).
  - rewrite Z.div_small by lia. reflexivity.
  - symmetry. unfold u32. replace (nbytes + 8 - 1) with (nbytes + 7 - 2 ^ 32 + 1 * 2 ^ 32) by lia. rewrite Z.mod_add by lia. apply Z.mod_small. lia.
Qed.
End malloc.

(** C23.  [malloc] of less than [2^31 - 16] bytes, on a well-formed heap,
    returns: null, with the heap as it was, only when no free block is large
    enough and the kernel refused to grow the process; otherwise the address
    after the header of a block that holds [nbytes], taken from the free memory
    or from the memory above the old break, apart from every other block in use
    and from the free list, and nothing is lost: what was free and what the
    kernel gave is now free or in this block. The two loops end within two
    passes over the free list. For requests near [2^32] the claim is false, see
    [malloc_wraps]. *)
Theorem malloc_correct (base lo : Z) (s : mstate) (F : list blk) (A : gmap Z Z) (nbytes : Z) (ffuel fuel : nat) :
  0 < base < lo -> ready base lo s F A -> 0 <= nbytes < 2 ^ 31 - 16 -> (2 * length F + 1 < ffuel)%nat -> (2 * length F + 2 < fuel)%nat ->
  wp (malloc base ffuel fuel nbytes) s (allocated base lo s F A (units nbytes)) /\
  nbytes <= sizeof_Header * (units nbytes - 1) < nbytes + sizeof_Header.
Proof. intros Hb H Hn Hff Hf. destruct (units_spec nbytes Hn) as [Hu Hr]. split; [by apply malloc_alloc|done]. Qed.

(** An error path the code misses: the unit count of a request within 7
    bytes of [2^32] wraps to 1, so [malloc] does not refuse such a request but
    returns a block that is its header and nothing else. *)
Theorem malloc_wraps (base lo : Z) (s : mstate) (F : list blk) (A : gmap Z Z) (nbytes : Z) (ffuel fuel : nat) :
  0 < base < lo -> ready base lo s F A -> F <> [] -> 2 ^ 32 - 7 <= nbytes < 2 ^ 32 -> (2 * length F + 1 < ffuel)%nat -> (2 * length F + 2 < fuel)%nat ->
  wp (malloc base ffuel fuel nbytes) s (fun r s' => exists a F', r = a + sizeof_Header /\ heap base lo s' F' (<[a := 1]> A) /\ bend (a, 1) = r).
Proof.
  intros Hb H HF Hn Hff Hf. pose proof (malloc_alloc base lo Hb s F A nbytes ffuel fuel H) as Hm. rewrite (units_wrap nbytes Hn) in Hm.
  eapply wp_mono; [apply Hm; (done || lia)|]. intros r s' [(_ & H' & _ & Hno & _)|(F' & a & -> & _ & H' & _)]; [|by exists a, F'].
  destruct F as [|c F]; [done|]. specialize (Hno c ltac:(by left)). destruct (heap_fits base lo Hb s' _ A c H' ltac:(by left)). lia.
Qed.

(** C24.  [free] of a block in use returns; the block is free again, joined
    with the free blocks it touches, the other blocks in use are as they were,
    and the free list is again sorted with a gap between any two blocks. *)
Theorem free_correct (base lo : Z) (s : mstate) (F : list blk) (A : gmap Z Z) (a n : Z) (fuel : nat) :
  0 < base < lo -> heap base lo s F A -> A !! a = Some n -> (2 * length F + 1 < fuel)%nat ->
  wp (free fuel (a + sizeof_Header)) s (fun _ s' => exists F', heap base lo s' F' (delete a A) /\ (length F' <= S (length F))%nat /\
    m_brk s' = m_brk s /\ forall x, covered F' x <-> covered F x \/ within (a, n) x).
Proof.
  intros Hb H HA Hf. eapply wp_mono; [by apply (free_spec base lo Hb s F A a n fuel)|].
  intros _ s' (F' & H' & Hcov & Hlen & _ & Hbrk & _). by exists F'.
Qed.

(** ** A first allocation *)

Definition umalloc0 : mstate := mkmstate ∅ 0 16384 [true; true].
Lemma umalloc0_ready : ready 4096 8192 umalloc0 [] ∅.
Proof. right. cbn. unfold KERNBASE. split_and!; (done || lia). Qed.

Lemma malloc_correct_witness : wp (malloc 4096 2 3 100) umalloc0 (allocated 4096 8192 umalloc0 [] ∅ (units 100)) /\
  100 <= sizeof_Header * (units 100 - 1) < 100 + sizeof_Header.
Proof. apply (malloc_correct 4096 8192 umalloc0 [] ∅ 100 2 3); [lia|apply umalloc0_ready|lia|simpl; lia|simpl; lia]. Defined.

(** The same run: 14 units, the end of the 4096 that [morecore] got. *)
Definition umalloc1 : mstate := mkmstate (<[49040 := (0, 14)]> (<[16384 := (4096, 4082)]> (<[4096 := (16384, 0)]> ∅))) 4096 49152 [true].
Lemma umalloc1_run : malloc 4096 2 3 100 umalloc0 = Done 49048 umalloc1.
Proof. vm_compute. reflexivity. Qed.
Lemma umalloc1_heap : heap 4096 8192 umalloc1 [(16384, 4082)] {[49040 := 14]}.
Proof.
  split; cbn; try done.
  - apply Forall_singleton. reflexivity.
  - by left.
  - apply Forall_singleton. unfold bend, hplus, sizeof_Header. simpl. lia.
  - intros a n [<- <-]%lookup_singleton_Some. split_and!; [lia|lia|unfold bend, hplus, sizeof_Header; simpl; lia|reflexivity].
  - intros a n c [<- <-]%lookup_singleton_Some ->%list_elem_of_singleton. right. unfold bend, hplus, sizeof_Header. simpl. lia.
  - intros a n b m [<- <-]%lookup_singleton_Some [<- <-]%lookup_singleton_Some. done.
Qed.
Lemma free_correct_witness : ({[49040 := 14]} : gmap Z Z) !! 49040 = Some 14 /\
  wp (free 4 (49040 + sizeof_Header)) umalloc1 (fun _ s' => exists F', heap 4096 8192 s' F' (delete 49040 {[49040 := 14]}) /\ (length F' <= 2)%nat /\
    m_brk s' = m_brk umalloc1 /\ forall x, covered F' x <-> covered [(16384, 4082)] x \/ within (49040, 14) x).
Proof.
  split; [reflexivity|]. apply (free_correct 4096 8192 umalloc1 [(16384, 4082)] {[49040 := 14]} 49040 14 4); [lia|apply umalloc1_heap|reflexivity|simpl; lia].
Defined.
Lemma malloc_wraps_witness : wp (malloc 4096 4 5 4294967292) umalloc1 (fun r s' => exists a F',
  r = a + sizeof_Header /\ heap 4096 8192 s' F' (<[a := 1]> {[49040 := 14]}) /\ bend (a, 1) = r).
Proof. apply (malloc_wraps 4096 8192 umalloc1 [(16384, 4082)] {[49040 := 14]}); [lia|left; apply umalloc1_heap|done|lia|simpl; lia|simpl; lia]. Defined.
