(* ===== verification/Spinlock.v ===== *)
(** * Spin locks and the CPU: [spinlock.c], [cpuid], [mycpu] and [myproc] of
    [proc.c]

    A machine has the [cpus] array, the flags register of every processor and
    the locks; [h] is the processor that executes.  The local APIC id of a
    processor is hardware and a parameter.  [acquire] and [release] are made
    of the memory accesses the code performs; an [acquire] that finds the lock
    taken spins, which is [Sleep] here, until another processor runs.

    [Module Concurrent] interleaves the processors between any two of these
    accesses and shows mutual exclusion, that [holding] is right although it
    reads the two fields of the lock at different times, that a processor
    holding a lock has interrupts off, and that [acquire] panics only on a lock
    its own processor holds. *)

From stdpp Require Import functions.
From S2P Require Import Prelude CString Mmu.

Record cpu := mkcpu {
  cpu_apicid : Z;
  cpu_scheduler : Z;
  cpu_ts : taskstate;
  cpu_gdt : list segdesc;
  cpu_started : Z;
  cpu_ncli : Z;
  cpu_intena : Z;
  cpu_proc : option nat
}.
Definition set_ncli (n : Z) (c : cpu) : cpu :=
  mkcpu (cpu_apicid c) (cpu_scheduler c) (cpu_ts c) (cpu_gdt c) (cpu_started c) n (cpu_intena c) (cpu_proc c).
Definition set_intena (b : Z) (c : cpu) : cpu :=
  mkcpu (cpu_apicid c) (cpu_scheduler c) (cpu_ts c) (cpu_gdt c) (cpu_started c) (cpu_ncli c) b (cpu_proc c).
Definition set_gdt (g : list segdesc) (c : cpu) : cpu :=
  mkcpu (cpu_apicid c) (cpu_scheduler c) (cpu_ts c) g (cpu_started c) (cpu_ncli c) (cpu_intena c) (cpu_proc c).
Definition set_ts (t : taskstate) (c : cpu) : cpu :=
  mkcpu (cpu_apicid c) (cpu_scheduler c) t (cpu_gdt c) (cpu_started c) (cpu_ncli c) (cpu_intena c) (cpu_proc c).
Definition set_cpu_proc (p : option nat) (c : cpu) : cpu :=
  mkcpu (cpu_apicid c) (cpu_scheduler c) (cpu_ts c) (cpu_gdt c) (cpu_started c) (cpu_ncli c) (cpu_intena c) p.

Record spinlock := mkspinlock {
  lk_locked : Z;
  lk_name : string;
  lk_cpu : option nat;     (* a pointer into [cpus] *)
  lk_pcs : list Z
}.

Record machine := mkmachine {
  mc_cpus : list cpu;
  mc_eflags : list Z;      (* the flags register of each processor *)
  mc_locks : list spinlock
}.
Definition set_cpus (l : list cpu) (s : machine) : machine := mkmachine l (mc_eflags s) (mc_locks s).
Definition set_eflags (l : list Z) (s : machine) : machine := mkmachine (mc_cpus s) l (mc_locks s).
Definition set_locks (l : list spinlock) (s : machine) : machine := mkmachine (mc_cpus s) (mc_eflags s) l.

Definition initlock (name : string) (lk : spinlock) : spinlock := mkspinlock 0 name None (lk_pcs lk).

(** The return addresses on the chain of frames at [ebp], at most [n]. *)
Fixpoint walk_frames (n : nat) (m : mem) (ebp : Z) : list Z :=
  match n with
  | O => []
  | S n' =>
      if (ebp =? 0) || (ebp <? KERNBASE) || (ebp =? 0xffffffff) then replicate n 0
      else load32 m (ebp + 4) :: walk_frames n' m (load32 m ebp)
  end.
Definition getcallerpcs (m : mem) (v : Z) : list Z := walk_frames 10 m (u32 (v - 8)).

(** The index of the CPU with an APIC id, as the loop of [mycpu] finds it. *)
Fixpoint find_cpu (id : Z) (i : nat) (l : list cpu) : option nat :=
  match l with
  | [] => None
  | c :: l => if cpu_apicid c =? id then Some i else find_cpu id (S i) l
  end.

Section spinlock.
Context (lapicid : nat -> Z).   (* the APIC id of each processor *)

Definition readeflags (h : nat) : KM machine Z := kgets (fun s => nth h (mc_eflags s) 0).
Definition cli (h : nat) : KM machine unit :=
  kmodify (fun s => set_eflags (alter (fun f => Z.land f (Z.lnot FL_IF)) h (mc_eflags s)) s).
Definition sti (h : nat) : KM machine unit :=
  kmodify (fun s => set_eflags (alter (fun f => Z.lor f FL_IF) h (mc_eflags s)) s).

Definition mycpu (h : nat) : KM machine nat :=
  f ← readeflags h;
  if negb (Z.land f FL_IF =? 0) then panic "mycpu called with interrupts enabled" else
  s ← kget;
  match find_cpu (lapicid h) 0 (mc_cpus s) with
  | Some i => mret i
  | None => panic "unknown apicid"
  end.
Definition cpuid (h : nat) : KM machine nat := mycpu h.

Definition get_cpu (i : nat) : KM machine cpu := fun s =>
  match mc_cpus s !! i with Some c => Done c s | None => Fault "cpu pointer" end.
Definition upd_cpu (f : cpu -> cpu) (i : nat) : KM machine unit :=
  kmodify (fun s => set_cpus (alter f i (mc_cpus s)) s).
Definition get_lock (l : nat) : KM machine spinlock := fun s =>
  match mc_locks s !! l with Some lk => Done lk s | None => Fault "lock pointer" end.
Definition upd_lock (f : spinlock -> spinlock) (l : nat) : KM machine unit :=
  kmodify (fun s => set_locks (alter f l (mc_locks s)) s).

Definition pushcli (h : nat) : KM machine unit :=
  eflags ← readeflags h;
  cli h;;
  i ← mycpu h;
  c ← get_cpu i;
  (if cpu_ncli c =? 0 then upd_cpu (set_intena (Z.land eflags FL_IF)) i else mret tt);;
  upd_cpu (fun c => set_ncli (i32 (cpu_ncli c + 1)) c) i.

Definition popcli (h : nat) : KM machine unit :=
  f ← readeflags h;
  if negb (Z.land f FL_IF =? 0) then panic "popcli - interruptible" else
  i ← mycpu h;
  upd_cpu (fun c => set_ncli (i32 (cpu_ncli c - 1)) c) i;;
  c ← get_cpu i;
  if cpu_ncli c <? 0 then panic "popcli" else
  if (cpu_ncli c =? 0) && negb (cpu_intena c =? 0) then sti h else mret tt.

Definition myproc (h : nat) : KM machine (option nat) :=
  pushcli h;;
  i ← mycpu h;
  c ← get_cpu i;
  popcli h;;
  mret (cpu_proc c).

(** The accesses to the lock: [holding] reads [locked], then [cpu]. *)
Definition read_locked (l : nat) : KM machine Z := lk ← get_lock l; mret (lk_locked lk).
Definition read_cpu (h l : nat) : KM machine bool :=
  lk ← get_lock l; i ← mycpu h; mret (bool_decide (lk_cpu lk = Some i)).
Definition xchg (l : nat) (newval : Z) : KM machine Z :=
  lk ← get_lock l;
  upd_lock (fun lk => mkspinlock newval (lk_name lk) (lk_cpu lk) (lk_pcs lk)) l;;
  mret (lk_locked lk).
Definition record_owner (h l : nat) (pcs : list Z) : KM machine unit :=
  i ← mycpu h;
  upd_lock (fun lk => mkspinlock (lk_locked lk) (lk_name lk) (Some i) pcs) l.
Definition clear_owner (l : nat) : KM machine unit :=
  upd_lock (fun lk => mkspinlock (lk_locked lk) (lk_name lk) None (<[0%nat := 0]> (lk_pcs lk))) l.
Definition store_unlocked (l : nat) : KM machine unit :=
  upd_lock (fun lk => mkspinlock 0 (lk_name lk) (lk_cpu lk) (lk_pcs lk)) l.

Definition holding (h l : nat) : KM machine bool :=
  x ← read_locked l;
  if x =? 0 then mret false else read_cpu h l.

(** [acquire]; [pcs] is the caller's call stack, [getcallerpcs(&lk)]. *)
Definition acquire (h l : nat) (pcs : list Z) : KM machine unit :=
  pushcli h;;
  b ← holding h l;
  if (b : bool) then panic "acquire" else
  x ← xchg l 1;
  if negb (x =? 0) then ksleep "spin" else
  record_owner h l pcs.

Definition release (h l : nat) : KM machine unit :=
  b ← holding h l;
  if negb b then panic "release" else
  clear_owner l;;
  store_unlocked l;;
  popcli h.

(** ** The routines on a well-formed machine *)

(** [cpus[h]] is the entry of processor [h], for the [n] processors. *)
Record machine_ok (n : nat) (s : machine) : Prop := mk_machine_ok {
  mo_cpus : length (mc_cpus s) = n;
  mo_eflags : length (mc_eflags s) = n;
  mo_apic : forall h c, mc_cpus s !! h = Some c -> cpu_apicid c = lapicid h;
  mo_inj : forall h h', (h < n)%nat -> (h' < n)%nat -> lapicid h = lapicid h' -> h = h'
}.

Definition if_on (f : Z) : Prop := Z.land f FL_IF <> 0.
#[global] Instance if_on_dec f : Decision (if_on f).
Proof. unfold if_on. apply _. Defined.

Lemma if_cli f : Z.land (Z.land f (Z.lnot FL_IF)) FL_IF = 0.
Proof. by rewrite <- Z.land_assoc, (Z.land_comm (Z.lnot _)), Z.land_lnot_diag, Z.land_0_r. Qed.
Lemma if_sti f : if_on (Z.lor f FL_IF).
Proof. unfold if_on. rewrite Z.land_lor_distr_l, Z.land_diag. intros [_ H]%Z.lor_eq_0_iff. done. Qed.

Lemma find_cpu_spec n s h : machine_ok n s -> (h < n)%nat -> find_cpu (lapicid h) 0 (mc_cpus s) = Some h.
Proof.
  intros [Hl _ Ha Hi] Hh.
  assert (H : forall i l, (forall j c, l !! j = Some c -> cpu_apicid c = lapicid (i + j)) ->
    (i <= h < i + length l)%nat -> (i + length l <= n)%nat -> find_cpu (lapicid h) i l = Some h).
  { intros i l. revert i. induction l as [|c l IH]; intros i Hc Hr Hn; simpl in *; [lia|].
    rewrite (Hc 0%nat c eq_refl), Nat.add_0_r. destruct (Z.eqb_spec (lapicid i) (lapicid h)) as [E|E].
    - f_equal. apply Hi; [lia|lia|done].
    - apply IH; [|destruct (decide (i = h)); [congruence|lia]|lia].
      intros j c' Hj. rewrite (Hc (S j) c' Hj). f_equal. lia. }
  apply H; [done|lia|lia].
Qed.

Lemma mycpu_spec n s h f : machine_ok n s -> (h < n)%nat -> mc_eflags s !! h = Some f ->
  Z.land f FL_IF = 0 -> mycpu h s = Done h s.
Proof.
  intros Hok Hh Hf Hi. unfold mycpu, readeflags. unfold mbind, km_bind. cbn [kgets].
  rewrite (nth_lookup_Some _ _ _ _ Hf), Hi. simpl. by rewrite (find_cpu_spec n).
Qed.

Definition push_cpu (f : Z) (c : cpu) : cpu :=
  set_ncli (cpu_ncli c + 1) (if cpu_ncli c =? 0 then set_intena (Z.land f FL_IF) c else c).

Lemma machine_ok_step n s h c c' f f' ls :
  machine_ok n s -> mc_cpus s !! h = Some c -> mc_eflags s !! h = Some f -> cpu_apicid c' = cpu_apicid c ->
  machine_ok n (mkmachine (<[h := c']> (mc_cpus s)) (<[h := f']> (mc_eflags s)) ls).
Proof.
  intros [Hl He Ha Hi] Hc Hf Hid. split; simpl; rewrite ?length_insert; try done.
  intros h0 c0. destruct (decide (h0 = h)) as [->|].
  - rewrite list_lookup_insert_eq by eauto using lookup_lt_Some. intros [= <-]. rewrite Hid. by apply Ha.
  - rewrite list_lookup_insert_ne by done. apply Ha.
Qed.


Lemma pushcli_spec n s h c f :
  machine_ok n s -> mc_cpus s !! h = Some c -> mc_eflags s !! h = Some f -> 0 <= cpu_ncli c < 2 ^ 31 - 1 ->
  pushcli h s = Done tt (mkmachine (<[h := push_cpu f c]> (mc_cpus s))
                           (<[h := Z.land f (Z.lnot FL_IF)]> (mc_eflags s)) (mc_locks s)).
Proof.
  intros Hok Hc Hf Hn. pose proof (lookup_lt_Some _ _ _ Hc) as Hh. rewrite (mo_cpus _ _ Hok) in Hh.
  pose proof (lookup_lt_Some _ _ _ Hf) as Hh'.
  unfold pushcli. rewrite (bind_done _ _ _ f s).
  2:{ unfold readeflags, kgets. by rewrite (nth_lookup_Some _ _ _ _ Hf). }
  set (f' := Z.land f (Z.lnot FL_IF)).
  rewrite (bind_done _ _ _ tt (set_eflags (<[h := f']> (mc_eflags s)) s)).
  2:{ unfold cli, kmodify. by rewrite (alter_insert _ _ _ _ Hf). }
  set (s1 := set_eflags _ s).
  assert (Hok1 : machine_ok n s1) by (destruct Hok; split; simpl; rewrite ?length_insert; done).
  rewrite (bind_done _ _ _ h s1).
  2:{ eapply (mycpu_spec n _ _ f'); [done|done| |apply if_cli]. simpl. by rewrite list_lookup_insert_eq. }
  rewrite (bind_done _ _ _ c s1); [|unfold get_cpu; simpl; by rewrite Hc].
  unfold push_cpu. destruct (cpu_ncli c =? 0) eqn:E0.
  - rewrite (bind_done _ _ _ tt (set_cpus (<[h := set_intena (Z.land f FL_IF) c]> (mc_cpus s)) s1)).
    2:{ unfold upd_cpu, kmodify. simpl. by rewrite (alter_insert _ _ _ _ Hc). }
    unfold upd_cpu, kmodify. simpl. f_equal. unfold set_cpus. simpl. f_equal.
    erewrite alter_insert; [|by rewrite list_lookup_insert_eq by eauto using lookup_lt_Some].
    rewrite list_insert_insert_eq. simpl. by rewrite i32_id by lia.
  - rewrite (bind_done _ _ _ tt s1) by done. unfold upd_cpu, kmodify. simpl. f_equal. unfold set_cpus. simpl. f_equal.
    rewrite (alter_insert _ _ _ _ Hc). by rewrite i32_id by lia.
Qed.

Lemma popcli_spec n s h c f :
  machine_ok n s -> mc_cpus s !! h = Some c -> mc_eflags s !! h = Some f -> 0 < cpu_ncli c < 2 ^ 31 ->
  Z.land f FL_IF = 0 ->
  popcli h s = Done tt (mkmachine (<[h := set_ncli (cpu_ncli c - 1) c]> (mc_cpus s))
     (<[h := if (cpu_ncli c =? 1) && negb (cpu_intena c =? 0) then Z.lor f FL_IF else f]> (mc_eflags s)) (mc_locks s)).
Proof.
  intros Hok Hc Hf Hn Hi. pose proof (lookup_lt_Some _ _ _ Hc) as Hh. rewrite (mo_cpus _ _ Hok) in Hh.
  unfold popcli. rewrite (bind_done _ _ _ f s).
  2:{ unfold readeflags, kgets. by rewrite (nth_lookup_Some _ _ _ _ Hf). }
  rewrite Hi. cbn [negb Z.eqb]. rewrite (bind_done _ _ _ h s) by by eapply mycpu_spec.
  set (c' := set_ncli (cpu_ncli c - 1) c).
  rewrite (bind_done _ _ _ tt (set_cpus (<[h := c']> (mc_cpus s)) s)).
  2:{ unfold upd_cpu, kmodify. rewrite (alter_insert _ _ _ _ Hc). by rewrite i32_id by lia. }
  rewrite (bind_done _ _ _ c' (set_cpus (<[h := c']> (mc_cpus s)) s)).
  2:{ unfold get_cpu. simpl. by rewrite list_lookup_insert_eq by eauto using lookup_lt_Some. }
  simpl. rewrite (proj2 (Z.ltb_ge _ 0)) by lia.
  replace (cpu_ncli c - 1 =? 0) with (cpu_ncli c =? 1) by (destruct (Z.eqb_spec (cpu_ncli c) 1), (Z.eqb_spec (cpu_ncli c - 1) 0); lia).
  destruct (_ && _).
  - unfold sti, kmodify. simpl. by rewrite (alter_insert _ _ _ _ Hf).
  - unfold mret, km_ret. unfold set_cpus. by rewrite (list_insert_id _ _ _ Hf).
Qed.
End spinlock.

(** ** Processors racing for locks

    A processor is between two calls ([Run]), or inside [acquire] or [release]
    of a lock, just before one of its accesses.  [y_held] are the locks it has
    acquired and not begun to release; [y_ie] remembers whether interrupts were
    on when it last held no lock.  An access that panics is a step as well. *)
Module Concurrent.

Inductive pc :=
| Run
| Acq1 (l : nat)       (* after pushcli: [holding] reads [locked] *)
| Acq2 (l : nat)       (* [locked] was not 0: [holding] reads [cpu] *)
| Spin (l : nat)       (* at the xchg *)
| Own (l : nat)        (* the xchg got the lock: sets [cpu] *)
| Rel1 (l : nat)       (* [holding] reads [locked] *)
| Rel2 (l : nat)       (* [holding] reads [cpu] *)
| Rel3 (l : nat)       (* clears [cpu] *)
| Rel4 (l : nat)       (* stores [locked = 0] *)
| Rel5 (l : nat)       (* popcli *)
| PanicAcq (l : nat)   (* panic("acquire") *)
| PanicRel (l : nat)   (* panic("release") *)
| Crash.               (* a panic or a fault inside pushcli, popcli or mycpu *)
#[global] Instance spin_pc_eq_dec : EqDecision pc.
Proof. solve_decision. Defined.

Record sys := mksys {
  y_m : machine;
  y_pc : nat -> pc;
  y_held : nat -> list nat;
  y_ie : nat -> bool
}.
Definition goto (h : nat) (p : pc) (m : machine) (y : sys) : sys :=
  mksys m (<[h := p]> (y_pc y)) (y_held y) (y_ie y).
Definition set_held (h : nat) (l : list nat) (y : sys) : sys :=
  mksys (y_m y) (y_pc y) (<[h := l]> (y_held y)) (y_ie y).
Definition set_ie (h : nat) (b : bool) (y : sys) : sys :=
  mksys (y_m y) (y_pc y) (y_held y) (<[h := b]> (y_ie y)).

Section concurrent.
Context (lapicid : nat -> Z) (n L : nat).

(** [h] performs an access: when it returns, [h] goes on as [k] says; when it
    panics or faults, [h] has crashed. *)
Definition access {A} (h : nat) (act : KM machine A) (y : sys) (k : A -> machine -> sys) : sys :=
  match act (y_m y) with Done a m => k a m | _ => goto h Crash (y_m y) y end.

Inductive step (y : sys) : sys -> Prop :=
| acq_push h l : (h < n)%nat -> (l < L)%nat -> y_pc y h = Run ->
    step y (access h (pushcli lapicid h) y (fun _ m => goto h (Acq1 l) m y))
| acq_locked h l : (h < n)%nat -> y_pc y h = Acq1 l ->
    step y (access h (read_locked l) y (fun x m => goto h (if x =? 0 then Spin l else Acq2 l) m y))
| acq_cpu h l : (h < n)%nat -> y_pc y h = Acq2 l ->
    step y (access h (read_cpu lapicid h l) y (fun b m => goto h (if b : bool then PanicAcq l else Spin l) m y))
| acq_xchg h l : (h < n)%nat -> y_pc y h = Spin l ->
    step y (access h (xchg l 1) y (fun x m => goto h (if x =? 0 then Own l else Spin l) m y))
| acq_own h l pcs : (h < n)%nat -> y_pc y h = Own l ->
    step y (access h (record_owner lapicid h l pcs) y (fun _ m => set_held h (l :: y_held y h) (goto h Run m y)))
| rel_start h l l1 l2 : (h < n)%nat -> y_pc y h = Run -> y_held y h = l1 ++ l :: l2 ->
    step y (set_held h (l1 ++ l2) (goto h (Rel1 l) (y_m y) y))
| rel_locked h l : (h < n)%nat -> y_pc y h = Rel1 l ->
    step y (access h (read_locked l) y (fun x m => goto h (if x =? 0 then PanicRel l else Rel2 l) m y))
| rel_cpu h l : (h < n)%nat -> y_pc y h = Rel2 l ->
    step y (access h (read_cpu lapicid h l) y (fun b m => goto h (if b : bool then Rel3 l else PanicRel l) m y))
| rel_clear h l : (h < n)%nat -> y_pc y h = Rel3 l ->
    step y (access h (clear_owner l) y (fun _ m => goto h (Rel4 l) m y))
| rel_store h l : (h < n)%nat -> y_pc y h = Rel4 l ->
    step y (access h (store_unlocked l) y (fun _ m => goto h (Rel5 l) m y))
| rel_pop h l : (h < n)%nat -> y_pc y h = Rel5 l ->
    step y (access h (popcli lapicid h) y (fun _ m => goto h Run m y))
| run_sti h : (h < n)%nat -> y_pc y h = Run -> y_held y h = [] ->
    step y (access h (sti h) y (fun _ m => set_ie h true (goto h Run m y)))
| run_cli h : (h < n)%nat -> y_pc y h = Run -> y_held y h = [] ->
    step y (access h (cli h) y (fun _ m => set_ie h false (goto h Run m y))).

(** At the start interrupts are off, no lock is taken and [ncli] is 0. *)
Record start (y : sys) : Prop := mk_start {
  st_ok : machine_ok lapicid n (y_m y);
  st_cpu : forall h c, mc_cpus (y_m y) !! h = Some c -> cpu_ncli c = 0;
  st_if : forall h f, mc_eflags (y_m y) !! h = Some f -> Z.land f FL_IF = 0;
  st_locks : length (mc_locks (y_m y)) = L;
  st_free : forall l lk, mc_locks (y_m y) !! l = Some lk -> lk_locked lk = 0 /\ lk_cpu lk = None;
  st_run : forall h, y_pc y h = Run /\ y_held y h = [] /\ y_ie y h = false
}.

Inductive reachable : sys -> Prop :=
| reach_start y : start y -> reachable y
| reach_step y y' : reachable y -> step y y' -> reachable y'.

(** The locks whose [locked] word a processor has set: those it holds and the
    one it is taking or giving back. *)
Definition moving (p : pc) : list nat :=
  match p with Own l | Rel1 l | Rel2 l | Rel3 l | Rel4 l => [l] | _ => [] end.
Definition owned (y : sys) (h : nat) : list nat := moving (y_pc y h) ++ y_held y h.
(** [lk->cpu] is not set yet, or not set any more. *)
Definition quiet (p : pc) (l : nat) : bool := bool_decide (p = Own l \/ p = Rel4 l).

(** The depth of [pushcli]. *)
Definition depth (y : sys) (h : nat) : nat :=
  ((match y_pc y h with Run => 0 | _ => 1 end) + length (y_held y h))%nat.

Record cpu_inv (y : sys) (h : nat) : Prop := mk_cpu_inv {
  ci_nodup : NoDup (owned y h);
  ci_range : forall l, l ∈ owned y h -> (l < L)%nat;
  ci_wants : forall l, y_pc y h = Spin l -> l ∉ y_held y h;
  ci_lock : forall l, y_pc y h = Acq1 l \/ y_pc y h = Acq2 l \/ y_pc y h = Spin l -> (l < L)%nat;
  ci_panic : match y_pc y h with PanicAcq l => l ∈ y_held y h | PanicRel _ | Crash => False | _ => True end;
  ci_flags : exists c f, mc_cpus (y_m y) !! h = Some c /\ mc_eflags (y_m y) !! h = Some f /\
    cpu_ncli c = Z.of_nat (depth y h) /\
    if decide (depth y h = 0%nat) then if_on f <-> y_ie y h = true
    else Z.land f FL_IF = 0 /\ (cpu_intena c <> 0 <-> y_ie y h = true)
}.

Definition lock_inv (y : sys) (l : nat) : Prop := exists lk, mc_locks (y_m y) !! l = Some lk /\
  ((lk_locked lk = 0 /\ lk_cpu lk = None /\ forall h, (h < n)%nat -> l ∉ owned y h) \/
   exists h, (h < n)%nat /\ lk_locked lk = 1 /\ l ∈ owned y h /\
     (forall h', (h' < n)%nat -> l ∈ owned y h' -> h' = h) /\
     lk_cpu lk = if quiet (y_pc y h) l then None else Some h).

Record inv (y : sys) : Prop := mk_inv {
  iv_ok : machine_ok lapicid n (y_m y);
  iv_cpu : forall h, (h < n)%nat -> cpu_inv y h;
  iv_lock : forall l, (l < L)%nat -> lock_inv y l
}.
Context (few_locks : Z.of_nat L < 2 ^ 30).

Lemma owned_ne y h p m h' : h' <> h -> owned (goto h p m y) h' = owned y h'.
Proof. intros. unfold owned, goto. simpl. by rewrite fn_lookup_insert_ne by done. Qed.

Lemma depth_bound y h : cpu_inv y h -> Z.of_nat (depth y h) < 2 ^ 31 - 1.
Proof.
  intros H. assert (Hl : (length (y_held y h) <= L)%nat).
  { pose proof (ci_nodup _ _ H) as Hn. unfold owned in Hn. apply NoDup_app in Hn as (_ & _ & Hn).
    rewrite <- (length_seq L 0). apply submseteq_length, NoDup_submseteq; [done|].
    intros x Hx. apply elem_of_seq. split; [lia|]. simpl. apply (ci_range _ _ H). unfold owned. apply elem_of_app. by right. }
  unfold depth. destruct (y_pc y h); lia.
Qed.

(** A processor's part of the invariant depends on its own state only. *)
Lemma cpu_inv_frame y y' h :
  y_pc y' h = y_pc y h -> y_held y' h = y_held y h -> y_ie y' h = y_ie y h ->
  mc_cpus (y_m y') !! h = mc_cpus (y_m y) !! h -> mc_eflags (y_m y') !! h = mc_eflags (y_m y) !! h ->
  cpu_inv y h -> cpu_inv y' h.
Proof.
  intros Ep Eh Ei Ec Ef [H1 H2 H3 H4 H5 H6]. unfold owned, depth in *.
  split; unfold owned, depth; rewrite ?Ep, ?Eh, ?Ei, ?Ec, ?Ef; done.
Qed.

(** A lock's part depends on who owns it. *)
Lemma lock_inv_frame y y' l :
  mc_locks (y_m y') !! l = mc_locks (y_m y) !! l ->
  (forall h, (h < n)%nat -> (l ∈ owned y' h <-> l ∈ owned y h)) ->
  (forall h, (h < n)%nat -> l ∈ owned y h -> quiet (y_pc y' h) l = quiet (y_pc y h) l) ->
  lock_inv y l -> lock_inv y' l.
Proof.
  intros El Ho Hq (lk & Hl & H). exists lk. rewrite El. split; [done|].
  destruct H as [(H1 & H2 & H3)|(h & Hh & H1 & H2 & H3 & H4)].
  - left. split_and!; try done. intros h Hh. rewrite Ho by done. by apply H3.
  - right. exists h. rewrite Ho, Hq by done. split_and!; try done. intros h' Hh'. rewrite Ho by done. by apply H3.
Qed.

(** Steps of processor [h] inside its calls that keep what it owns, and do
    not touch the locks or the registers. *)
Lemma inv_move y h p :
  (h < n)%nat -> inv y -> moving p = moving (y_pc y h) ->
  (forall l, l ∈ owned y h -> quiet p l = quiet (y_pc y h) l) ->
  p <> Run -> y_pc y h <> Run ->
  (forall l, p = Spin l -> l ∉ y_held y h /\ (l < L)%nat) ->
  (forall l, p = Acq1 l \/ p = Acq2 l -> (l < L)%nat) ->
  match p with PanicAcq l => l ∈ y_held y h | PanicRel _ | Crash => False | _ => True end ->
  inv (goto h p (y_m y) y).
Proof.
  intros Hh [Hok Hc Hl] Hm Hq Hp1 Hp2 Hspin Hacq Hpanic. split; [done| |].
  - intros h' Hh'. destruct (decide (h' = h)) as [->|].
    2:{ apply (cpu_inv_frame y); simpl; rewrite ?fn_lookup_insert_ne by done; auto. }
    destruct (Hc h Hh) as [H1 H2 H3 H4 H5 (c & f & H6)].
    assert (Eo : owned (goto h p (y_m y) y) h = owned y h).
    { unfold owned. simpl. by rewrite fn_lookup_insert, Hm. }
    assert (Ed : depth (goto h p (y_m y) y) h = depth y h).
    { unfold depth. simpl. rewrite fn_lookup_insert. destruct p, (y_pc y h); done. }
    split; rewrite ?Eo, ?Ed; simpl; rewrite ?fn_lookup_insert; try done.
    + intros l E. by apply Hspin.
    + intros l [E|[E|E]]; [apply Hacq; auto..|by apply Hspin].
    + eauto.
  - intros l Hl'. apply (lock_inv_frame y); [done| | |by apply Hl].
    + intros h' _. destruct (decide (h' = h)) as [->|]; [|by rewrite owned_ne].
      unfold owned. simpl. by rewrite fn_lookup_insert, Hm.
    + intros h' _ Hw. simpl. destruct (decide (h' = h)) as [->|].
      * rewrite fn_lookup_insert. by apply Hq.
      * by rewrite fn_lookup_insert_ne.
Qed.

Lemma mycpu_inv y h : (h < n)%nat -> inv y -> y_pc y h <> Run -> mycpu lapicid h (y_m y) = Done h (y_m y).
Proof.
  intros Hh Hi Hp. destruct (ci_flags _ _ (iv_cpu _ Hi h Hh)) as (c & f & Hc & Hf & _ & Hd).
  rewrite decide_False in Hd by (unfold depth; destruct (y_pc y h); [done|lia..]). destruct Hd as [Hd _].
  by eapply mycpu_spec; [apply Hi|..].
Qed.

(** What [h] sees in a lock: it is not held, or [h] owns it, or another does. *)
Lemma lock_view y l : inv y -> (l < L)%nat -> exists lk, mc_locks (y_m y) !! l = Some lk /\
  (lk_locked lk = 0 \/ lk_locked lk = 1) /\
  (forall h, (h < n)%nat -> lk_locked lk = 0 -> l ∉ owned y h) /\
  (forall h, (h < n)%nat -> l ∈ owned y h ->
     lk_locked lk = 1 /\ lk_cpu lk = if quiet (y_pc y h) l then None else Some h) /\
  (forall h, lk_cpu lk = Some h -> l ∈ owned y h).
Proof.
  intros Hi Hl. destruct (iv_lock _ Hi l Hl) as (lk & E & H). exists lk. split; [done|].
  destruct H as [(H1 & H2 & H3)|(h & Hh & H1 & H2 & H3 & H4)].
  - split_and!; [by left|intros h Hh _; by apply H3|intros h Hh Hw; by destruct (H3 h Hh)|congruence].
  - split_and!; [by right|congruence| |].
    + intros h' Hh' Hw. by rewrite (H3 h' Hh' Hw).
    + intros h'. rewrite H4. destruct (quiet _ _); [done|]. by intros [= <-].
Qed.

(** What is known of a lock [h] owns. *)
Lemma owner_view y h l : inv y -> (h < n)%nat -> (l < L)%nat -> l ∈ owned y h ->
  exists lk, mc_locks (y_m y) !! l = Some lk /\ lk_locked lk = 1 /\
    (forall h', (h' < n)%nat -> l ∈ owned y h' -> h' = h) /\
    lk_cpu lk = if quiet (y_pc y h) l then None else Some h.
Proof.
  intros Hi Hh Hl Hw. destruct (iv_lock _ Hi l Hl) as (lk & Elk & [(_ & _ & Hf)|(h0 & Hh0 & H1 & H2 & H3 & H4)]).
  - by destruct (Hf h Hh).
  - assert (h0 = h) as -> by (symmetry; by apply H3). exists lk. by split_and!.
Qed.

Lemma acq_push_inv y h l m : (h < n)%nat -> (l < L)%nat -> y_pc y h = Run -> inv y ->
  pushcli lapicid h (y_m y) = Done tt m -> inv (goto h (Acq1 l) m y).
Proof.
  intros Hh Hl Ep Hi Hm. pose proof (iv_cpu _ Hi h Hh) as Hc0. pose proof (depth_bound _ _ Hc0) as Hb.
  destruct Hi as [Hok Hc Hls]. destruct Hc0 as [H1 H2 H3 H4 H5 (c & f & Ec & Ef & Hn & Hd)].
  erewrite pushcli_spec in Hm by (eauto; lia). injection Hm as <-.
  assert (Ed : depth (goto h (Acq1 l) (y_m y) y) h = S (depth y h)).
  { unfold depth. simpl. rewrite fn_lookup_insert, Ep. lia. }
  assert (Eo : owned (goto h (Acq1 l) (y_m y) y) h = owned y h).
  { unfold owned. simpl. by rewrite fn_lookup_insert, Ep. }
  split.
  - by eapply machine_ok_step; [|exact Ec|exact Ef|unfold push_cpu; destruct (_ =? _)].
  - intros h' Hh'. destruct (decide (h' = h)) as [->|].
    2:{ apply (cpu_inv_frame y); simpl; rewrite ?fn_lookup_insert_ne, ?list_lookup_insert_ne by done; auto. }
    split.
    1-2: change (owned _ h) with (owned (goto h (Acq1 l) (y_m y) y) h); by rewrite Eo.
    all: simpl; rewrite ?fn_lookup_insert; try done.
    + intros l' [E|[E|E]]; by simplify_eq.
    + change (depth _ h) with (depth (goto h (Acq1 l) (y_m y) y) h). rewrite Ed.
      eexists _, _. rewrite !list_lookup_insert_eq by eauto using lookup_lt_Some. split_and!; [done..| |].
      * unfold push_cpu. simpl. lia.
      * rewrite decide_False by lia. split; [apply if_cli|]. unfold push_cpu, depth in *. rewrite Ep, Hn in *. simpl in *.
        destruct (length (y_held y h)); simpl in *; [exact Hd|apply Hd].
  - intros l' Hl'. apply (lock_inv_frame y); [done| | |by apply Hls].
    + intros h' _. destruct (decide (h' = h)) as [->|].
      * change (owned _ h) with (owned (goto h (Acq1 l) (y_m y) y) h) at 1. by rewrite Eo.
      * by rewrite owned_ne.
    + intros h' _ _. simpl. destruct (decide (h' = h)) as [->|]; [rewrite fn_lookup_insert, Ep|by rewrite fn_lookup_insert_ne].
      unfold quiet. rewrite !bool_decide_eq_false_2; [done|intros [?|?]; done..].
Qed.

Lemma rel_pop_inv y h l m : (h < n)%nat -> y_pc y h = Rel5 l -> inv y ->
  popcli lapicid h (y_m y) = Done tt m -> inv (goto h Run m y).
Proof.
  intros Hh Ep Hi Hm. pose proof (iv_cpu _ Hi h Hh) as Hc0. pose proof (depth_bound _ _ Hc0) as Hb.
  destruct Hi as [Hok Hc Hls]. destruct Hc0 as [H1 H2 H3 H4 H5 (c & f & Ec & Ef & Hn & Hd)].
  assert (Ed : depth y h = S (length (y_held y h))) by (unfold depth; rewrite Ep; lia).
  rewrite decide_False in Hd by lia. destruct Hd as [Hf Hie].
  erewrite popcli_spec in Hm by (eauto; lia). injection Hm as <-.
  assert (Eo : owned (goto h Run (y_m y) y) h = owned y h).
  { unfold owned. simpl. by rewrite fn_lookup_insert, Ep. }
  split.
  - by eapply machine_ok_step; [|exact Ec|exact Ef|].
  - intros h' Hh'. destruct (decide (h' = h)) as [->|].
    2:{ apply (cpu_inv_frame y); simpl; rewrite ?fn_lookup_insert_ne, ?list_lookup_insert_ne by done; auto. }
    split.
    1-2: change (owned _ h) with (owned (goto h Run (y_m y) y) h); by rewrite Eo.
    all: simpl; rewrite ?fn_lookup_insert; try done.
    + intros l' [E|[E|E]]; by simplify_eq.
    + unfold depth. simpl. rewrite fn_lookup_insert. simpl.
      eexists _, _. rewrite !list_lookup_insert_eq by eauto using lookup_lt_Some. split_and!; [done..|simpl; lia|].
      rewrite Hn, Ed. destruct (length (y_held y h)) as [|k].
      * rewrite decide_True by done. simpl. destruct (Z.eqb_spec (cpu_intena c) 0) as [E|E]; simpl.
        -- rewrite <- Hie. unfold if_on. naive_solver.
        -- rewrite <- Hie. split; [done|]. intros _. apply if_sti.
      * rewrite decide_False by done. destruct (Z.eqb_spec (Z.of_nat (S (S k))) 1) as [E|E]; [lia|]. simpl. done.
  - intros l' Hl'. apply (lock_inv_frame y); [done| | |by apply Hls].
    + intros h' _. destruct (decide (h' = h)) as [->|].
      * change (owned _ h) with (owned (goto h Run (y_m y) y) h) at 1. by rewrite Eo.
      * by rewrite owned_ne.
    + intros h' _ _. simpl. destruct (decide (h' = h)) as [->|]; [rewrite fn_lookup_insert, Ep|by rewrite fn_lookup_insert_ne].
      unfold quiet. rewrite !bool_decide_eq_false_2; [done|intros [?|?]; done..].
Qed.

(** A step of [h] that changes lock [l] and nothing else of the machine. *)
Lemma inv_lock_step y y' h l lk lk' :
  (h < n)%nat -> (l < L)%nat -> inv y -> mc_locks (y_m y) !! l = Some lk ->
  y_m y' = set_locks (<[l := lk']> (mc_locks (y_m y))) (y_m y) ->
  (forall h', h' <> h -> y_pc y' h' = y_pc y h' /\ y_held y' h' = y_held y h') ->
  (forall h', y_ie y' h' = y_ie y h') -> depth y' h = depth y h ->
  cpu_inv y' h ->
  (forall l', l' <> l -> l' ∈ owned y' h <-> l' ∈ owned y h) ->
  (forall l', l' <> l -> l' ∈ owned y h -> quiet (y_pc y' h) l' = quiet (y_pc y h) l') ->
  lock_inv y' l -> inv y'.
Proof.
  intros Hh Hl [Hok Hc Hls] Elk Em Hpc Hie Hd Hch Ho Hq Hll. split.
  - rewrite Em. by destruct Hok.
  - intros h' Hh'. destruct (decide (h' = h)) as [->|Hne]; [done|]. destruct (Hpc h' Hne).
    apply (cpu_inv_frame y); rewrite ?Em; auto.
  - intros l' Hl'. destruct (decide (l' = l)) as [->|Hne]; [done|].
    apply (lock_inv_frame y); [rewrite Em; simpl; by rewrite list_lookup_insert_ne| | |by apply Hls].
    + intros h' _. destruct (decide (h' = h)) as [->|Hne']; [by apply Ho|]. destruct (Hpc h' Hne') as [E1 E2].
      unfold owned. by rewrite E1, E2.
    + intros h' _ Hw. destruct (decide (h' = h)) as [->|Hne']; [by apply Hq|]. by rewrite (proj1 (Hpc h' Hne')).
Qed.

(** The registers of [h] are as the invariant wants them when its depth and
    the machine's registers stay. *)
Lemma flags_frame y y' h : depth y' h = depth y h -> y_ie y' h = y_ie y h ->
  mc_cpus (y_m y') = mc_cpus (y_m y) -> mc_eflags (y_m y') = mc_eflags (y_m y) -> cpu_inv y h ->
  exists c f, mc_cpus (y_m y') !! h = Some c /\ mc_eflags (y_m y') !! h = Some f /\
    cpu_ncli c = Z.of_nat (depth y' h) /\
    if decide (depth y' h = 0%nat) then if_on f <-> y_ie y' h = true
    else Z.land f FL_IF = 0 /\ (cpu_intena c <> 0 <-> y_ie y' h = true).
Proof. intros -> -> -> -> H. exact (ci_flags _ _ H). Qed.

Lemma get_lock_Done l m lk m' : get_lock l m = Done lk m' -> mc_locks m !! l = Some lk /\ m' = m.
Proof. unfold get_lock. destruct (mc_locks m !! l); [|done]. by intros [= -> ->]. Qed.
Lemma upd_lock_Done f l m lk : mc_locks m !! l = Some lk ->
  upd_lock f l m = Done tt (set_locks (<[l := f lk]> (mc_locks m)) m).
Proof. intros H. unfold upd_lock, kmodify. by rewrite (alter_insert _ _ _ _ H). Qed.

Ltac goto_simpl := unfold owned, depth in *; simpl in *; rewrite ?fn_lookup_insert in *.

Lemma acq_xchg_inv y h l x m : (h < n)%nat -> y_pc y h = Spin l -> inv y ->
  xchg l 1 (y_m y) = Done x m -> inv (goto h (if x =? 0 then Own l else Spin l) m y).
Proof.
  intros Hh Ep Hi Hx. pose proof (iv_cpu _ Hi h Hh) as Hch. pose proof Hch as [H1 H2 H3 H4 H5 _].
  assert (Hl : (l < L)%nat) by (apply H4; auto).
  destruct (lock_view y l Hi Hl) as (lk & Elk & Hv & Hfree & Hown & Hcpu).
  unfold xchg in Hx. erewrite bind_done in Hx by (unfold get_lock; by rewrite Elk).
  erewrite bind_done in Hx by (by apply upd_lock_Done). injection Hx as <- <-.
  set (lk' := mkspinlock 1 _ _ _). destruct Hv as [Hv|Hv].
  - rewrite Hv. simpl. eapply (inv_lock_step y _ h l lk lk'); try done.
    + intros h' Hne. simpl. by rewrite fn_lookup_insert_ne.
    + goto_simpl. by rewrite Ep.
    + pose proof (flags_frame y (goto h (Own l) (set_locks (<[l:=lk']> (mc_locks (y_m y))) (y_m y)) y) h) as Hfl.
      specialize (Hfl ltac:(goto_simpl; by rewrite Ep) eq_refl eq_refl eq_refl Hch).
      goto_simpl. rewrite Ep in *. simpl in *.
      split; goto_simpl; simpl; try done; [constructor; [by apply H3|done]| |naive_solver..].
      intros l'. rewrite elem_of_cons. intros [->|?]; auto.
    + intros l' Hne. goto_simpl. rewrite Ep. simpl. set_solver.
    + intros l' Hne _. simpl. rewrite fn_lookup_insert, Ep. unfold quiet.
      rewrite !bool_decide_eq_false_2; [done|intros [?|?]; congruence..].
    + exists lk'. simpl. rewrite list_lookup_insert_eq by eauto using lookup_lt_Some. split; [done|]. right. exists h.
      goto_simpl. split_and!; [done|done|set_solver| |].
      * intros h' Hh'. destruct (decide (h' = h)) as [->|Hne]; [done|]. rewrite fn_lookup_insert_ne by done.
        intros Hw. by destruct (Hfree h' Hh' Hv).
      * unfold quiet. rewrite bool_decide_eq_true_2 by auto. simpl.
        destruct (iv_lock _ Hi l Hl) as (lk0 & E0 & [(_ & E & _)|(h0 & _ & E & _)]); congruence.
  - assert (lk' = lk) as -> by (unfold lk'; destruct lk; simpl in *; congruence). rewrite Hv. simpl.
    rewrite (list_insert_id _ _ _ Elk). destruct (y_m y) as [cs fs ls] eqn:Em. unfold set_locks. simpl.
    replace (mkmachine cs fs ls) with (y_m y). apply inv_move; try done; rewrite ?Ep; try done.
    + intros l' [= <-]. split; [by apply H3|done].
    + naive_solver.
Qed.

Lemma acq_own_inv y h l pcs m : (h < n)%nat -> y_pc y h = Own l -> inv y ->
  record_owner lapicid h l pcs (y_m y) = Done tt m -> inv (set_held h (l :: y_held y h) (goto h Run m y)).
Proof.
  intros Hh Ep Hi Hx. pose proof (iv_cpu _ Hi h Hh) as Hch. pose proof Hch as [H1 H2 H3 H4 H5 _].
  assert (Ho : owned y h = l :: y_held y h) by (unfold owned; by rewrite Ep).
  assert (Hl : (l < L)%nat) by (apply H2; rewrite Ho; by left).
  destruct (owner_view y h l Hi Hh Hl) as (lk & Elk & Hk1 & Hk3 & Hk4); [rewrite Ho; by left|].
  unfold record_owner in Hx. erewrite bind_done in Hx by (apply mycpu_inv; [done|done|by rewrite Ep]).
  rewrite (upd_lock_Done _ _ _ _ Elk) in Hx. injection Hx as <-. set (lk' := mkspinlock _ _ _ _).
  eapply (inv_lock_step y _ h l lk lk'); try done.
  - intros h' Hne. simpl. by rewrite !fn_lookup_insert_ne.
  - goto_simpl. rewrite Ep. simpl. lia.
  - pose proof (flags_frame y (set_held h (l :: y_held y h) (goto h Run (set_locks (<[l:=lk']> (mc_locks (y_m y))) (y_m y)) y)) h) as Hfl.
    specialize (Hfl ltac:(goto_simpl; rewrite Ep; simpl; lia) eq_refl eq_refl eq_refl Hch).
    rewrite Ho in *. split; goto_simpl; try done. by intros l' [?|[?|?]].
  - intros l' Hne. rewrite Ho. by goto_simpl.
  - intros l' Hne _. simpl. rewrite fn_lookup_insert, Ep. unfold quiet.
    rewrite !bool_decide_eq_false_2; [done|intros [?|?]; congruence..].
  - exists lk'. simpl. rewrite list_lookup_insert_eq by eauto using lookup_lt_Some. split; [done|]. right. exists h.
    split_and!; [done|done|goto_simpl; set_solver| |simpl; by rewrite fn_lookup_insert].
    intros h' Hh'. destruct (decide (h' = h)) as [->|Hne]; [done|]. goto_simpl. rewrite !fn_lookup_insert_ne by done. by apply Hk3.
Qed.

Lemma rel_start_inv y h l l1 l2 : (h < n)%nat -> y_pc y h = Run -> y_held y h = l1 ++ l :: l2 -> inv y ->
  inv (set_held h (l1 ++ l2) (goto h (Rel1 l) (y_m y) y)).
Proof.
  intros Hh Ep Eh Hi. pose proof (iv_cpu _ Hi h Hh) as Hch. pose proof Hch as [H1 H2 H3 H4 H5 _].
  set (y' := set_held _ _ _).
  assert (Ho : owned y h = l1 ++ l :: l2) by (unfold owned; by rewrite Ep, Eh).
  assert (Ho' : owned y' h = l :: l1 ++ l2) by (unfold owned, y'; simpl; by rewrite !fn_lookup_insert).
  assert (HP : owned y' h ≡ₚ owned y h) by (rewrite Ho, Ho'; apply Permutation_middle).
  destruct Hi as [Hok Hc Hls]. split; [done| |].
  - intros h' Hh'. destruct (decide (h' = h)) as [->|Hne].
    2:{ apply (cpu_inv_frame y); simpl; rewrite ?fn_lookup_insert_ne by done; auto. }
    assert (Hd : depth y' h = depth y h).
    { unfold depth, y'. simpl. rewrite !fn_lookup_insert, Ep, Eh, !length_app. simpl. lia. }
    pose proof (flags_frame y y' h Hd eq_refl eq_refl eq_refl Hch) as Hfl.
    split; [by rewrite HP|intros l'; rewrite HP; apply H2|..|exact Hfl]; unfold y'; simpl; rewrite ?fn_lookup_insert; try done.
    by intros l' [?|[?|?]].
  - intros l' Hl'. apply (lock_inv_frame y); [done| | |by apply Hls].
    + intros h' _. destruct (decide (h' = h)) as [->|Hne]; [by rewrite HP|]. unfold owned, y'. simpl.
      by rewrite !fn_lookup_insert_ne.
    + intros h' _ _. simpl. destruct (decide (h' = h)) as [->|]; [rewrite fn_lookup_insert, Ep|by rewrite fn_lookup_insert_ne].
      unfold quiet. rewrite !bool_decide_eq_false_2; [done|intros [?|?]; done..].
Qed.

Lemma rel_clear_inv y h l m : (h < n)%nat -> y_pc y h = Rel3 l -> inv y ->
  clear_owner l (y_m y) = Done tt m -> inv (goto h (Rel4 l) m y).
Proof.
  intros Hh Ep Hi Hx. pose proof (iv_cpu _ Hi h Hh) as Hch. pose proof Hch as [H1 H2 H3 H4 H5 _].
  assert (Ho : owned y h = l :: y_held y h) by (unfold owned; by rewrite Ep).
  assert (Hl : (l < L)%nat) by (apply H2; rewrite Ho; by left).
  destruct (owner_view y h l Hi Hh Hl) as (lk & Elk & Hk1 & Hk3 & Hk4); [rewrite Ho; by left|].
  unfold clear_owner in Hx. rewrite (upd_lock_Done _ _ _ _ Elk) in Hx. injection Hx as <-. set (lk' := mkspinlock _ _ _ _).
  set (y' := goto _ _ _ _).
  assert (Ho' : owned y' h = owned y h) by (unfold owned, y'; simpl; by rewrite fn_lookup_insert, Ep).
  assert (Hd : depth y' h = depth y h) by (unfold depth, y'; simpl; by rewrite fn_lookup_insert, Ep).
  eapply (inv_lock_step y _ h l lk lk'); try done.
  - intros h' Hne. simpl. by rewrite fn_lookup_insert_ne.
  - pose proof (flags_frame y y' h Hd eq_refl eq_refl eq_refl Hch) as Hfl.
    split; rewrite ?Ho'; try done; unfold y'; simpl; rewrite ?fn_lookup_insert; try done. by intros l' [?|[?|?]].
  - intros l' Hne. by rewrite Ho'.
  - intros l' Hne _. unfold y'. simpl. rewrite fn_lookup_insert, Ep. unfold quiet.
    rewrite !bool_decide_eq_false_2; [done|intros [?|?]; congruence..].
  - exists lk'. simpl. rewrite list_lookup_insert_eq by eauto using lookup_lt_Some. split; [done|]. right. exists h.
    rewrite Ho'. split_and!; [done|done|rewrite Ho; by left| |].
    + intros h' Hh'. destruct (decide (h' = h)) as [->|Hne]; [done|]. unfold y'. rewrite owned_ne by done. by apply Hk3.
    + unfold y'. simpl. rewrite fn_lookup_insert. unfold quiet. by rewrite bool_decide_eq_true_2 by auto.
Qed.

Lemma rel_store_inv y h l m : (h < n)%nat -> y_pc y h = Rel4 l -> inv y ->
  store_unlocked l (y_m y) = Done tt m -> inv (goto h (Rel5 l) m y).
Proof.
  intros Hh Ep Hi Hx. pose proof (iv_cpu _ Hi h Hh) as Hch. pose proof Hch as [H1 H2 H3 H4 H5 _].
  assert (Ho : owned y h = l :: y_held y h) by (unfold owned; by rewrite Ep).
  assert (Hl : (l < L)%nat) by (apply H2; rewrite Ho; by left).
  destruct (owner_view y h l Hi Hh Hl) as (lk & Elk & Hk1 & Hk3 & Hk4); [rewrite Ho; by left|].
  rewrite Ep in Hk4. unfold quiet in Hk4. rewrite bool_decide_eq_true_2 in Hk4 by auto.
  unfold store_unlocked in Hx. rewrite (upd_lock_Done _ _ _ _ Elk) in Hx. injection Hx as <-. set (lk' := mkspinlock _ _ _ _).
  set (y' := goto _ _ _ _).
  assert (Ho' : owned y' h = y_held y h) by (unfold owned, y'; simpl; by rewrite fn_lookup_insert).
  assert (Hd : depth y' h = depth y h) by (unfold depth, y'; simpl; by rewrite fn_lookup_insert, Ep).
  rewrite Ho in H1. apply NoDup_cons in H1 as [Hnl H1].
  eapply (inv_lock_step y _ h l lk lk'); try done.
  - intros h' Hne. simpl. by rewrite fn_lookup_insert_ne.
  - pose proof (flags_frame y y' h Hd eq_refl eq_refl eq_refl Hch) as Hfl.
    split; rewrite ?Ho'; [done| |unfold y'; simpl; rewrite ?fn_lookup_insert..|exact Hfl]; [|done|by intros l' [?|[?|?]]|done].
    intros l' Hw. apply H2. rewrite Ho. by right.
  - intros l' Hne. rewrite Ho, Ho'. set_solver.
  - intros l' Hne _. unfold y'. simpl. rewrite fn_lookup_insert, Ep. unfold quiet.
    rewrite !bool_decide_eq_false_2; [done|intros [?|?]; congruence..].
  - exists lk'. simpl. rewrite list_lookup_insert_eq by eauto using lookup_lt_Some. split; [done|]. left.
    split_and!; [done|done|]. intros h' Hh'. destruct (decide (h' = h)) as [->|Hne]; [by rewrite Ho'|].
    unfold y'. rewrite owned_ne by done. intros Hw. by destruct (Hk3 h' Hh' Hw).
Qed.

Lemma read_locked_Done l m x m' : read_locked l m = Done x m' ->
  exists lk, mc_locks m !! l = Some lk /\ x = lk_locked lk /\ m' = m.
Proof.
  unfold read_locked, mbind, km_bind, get_lock. destruct (mc_locks m !! l) as [lk|]; [|done].
  intros [= <- <-]. eauto.
Qed.
Lemma read_cpu_Done y h l b m : (h < n)%nat -> inv y -> y_pc y h <> Run -> read_cpu lapicid h l (y_m y) = Done b m ->
  exists lk, mc_locks (y_m y) !! l = Some lk /\ b = bool_decide (lk_cpu lk = Some h) /\ m = y_m y.
Proof.
  intros Hh Hi Hp. unfold read_cpu. unfold mbind at 1, km_bind at 1. unfold get_lock.
  destruct (mc_locks (y_m y) !! l) as [lk|]; [|done]. erewrite bind_done by by apply mycpu_inv.
  intros [= <- <-]. eauto.
Qed.

Lemma run_flags_inv y h f f' b : (h < n)%nat -> y_pc y h = Run -> y_held y h = [] -> inv y ->
  mc_eflags (y_m y) !! h = Some f -> (if_on f' <-> b = true) ->
  inv (set_ie h b (goto h Run (set_eflags (<[h := f']> (mc_eflags (y_m y))) (y_m y)) y)).
Proof.
  intros Hh Ep Eh Hi Ef Hf'. destruct Hi as [Hok Hc Hls].
  pose proof (Hc h Hh) as [H1 H2 H3 H4 H5 (c & f0 & Ec & Ef0 & Hn & _)].
  set (y' := set_ie _ _ _).
  assert (Epc : forall h', y_pc y' h' = y_pc y h').
  { intros h'. unfold y'. simpl. destruct (decide (h' = h)) as [->|]; [by rewrite fn_lookup_insert|by rewrite fn_lookup_insert_ne]. }
  assert (Eo : forall h', owned y' h' = owned y h') by (intros h'; unfold owned; by rewrite Epc).
  assert (Ed : depth y' h = 0%nat) by (unfold depth; simpl; by rewrite fn_lookup_insert, Eh).
  split.
  - destruct Hok. split; simpl; rewrite ?length_insert; done.
  - intros h' Hh'. destruct (decide (h' = h)) as [->|].
    2:{ apply (cpu_inv_frame y); rewrite ?Epc; simpl; rewrite ?fn_lookup_insert_ne, ?list_lookup_insert_ne by done; auto. }
    split; rewrite ?Eo, ?Epc, ?Ed; try done. exists c, f'. simpl.
    rewrite list_lookup_insert_eq, fn_lookup_insert by eauto using lookup_lt_Some. split_and!; try done.
    rewrite Hn. unfold depth. by rewrite Ep, Eh.
  - intros l Hl. apply (lock_inv_frame y); [done|intros; by rewrite Eo|intros; by rewrite Epc|by apply Hls].
Qed.

(** The accesses return: a processor inside a call has interrupts off and an
    entry in [cpus], its depth is what [popcli] counts down, and its lock exists. *)
Lemma pushcli_returns y h : (h < n)%nat -> y_pc y h = Run -> inv y ->
  exists m, pushcli lapicid h (y_m y) = Done tt m.
Proof.
  intros Hh Ep Hi. pose proof (iv_cpu _ Hi h Hh) as Hc. pose proof (depth_bound _ _ Hc).
  destruct (ci_flags _ _ Hc) as (c & f & Ec & Ef & Hn & _).
  eexists. eapply pushcli_spec; [apply Hi|done|done|lia].
Qed.
Lemma popcli_returns y h l : (h < n)%nat -> y_pc y h = Rel5 l -> inv y ->
  exists m, popcli lapicid h (y_m y) = Done tt m.
Proof.
  intros Hh Ep Hi. pose proof (iv_cpu _ Hi h Hh) as Hc. pose proof (depth_bound _ _ Hc).
  destruct (ci_flags _ _ Hc) as (c & f & Ec & Ef & Hn & Hd).
  assert (Hp : (0 < depth y h)%nat) by (unfold depth; rewrite Ep; lia).
  rewrite decide_False in Hd by lia. eexists. eapply popcli_spec; [apply Hi|done|done|lia|apply Hd].
Qed.
Lemma get_lock_returns y l : inv y -> (l < L)%nat -> exists lk, get_lock l (y_m y) = Done lk (y_m y).
Proof.
  intros Hi Hl. destruct (iv_lock _ Hi l Hl) as (lk & E & _). exists lk. unfold get_lock. by rewrite E.
Qed.
Lemma read_locked_returns y l : inv y -> (l < L)%nat -> exists x, read_locked l (y_m y) = Done x (y_m y).
Proof.
  intros Hi Hl. destruct (get_lock_returns y l Hi Hl) as [lk E]. eexists. unfold read_locked. by rewrite (bind_done _ _ _ _ _ E).
Qed.
Lemma xchg_returns y l v : inv y -> (l < L)%nat -> exists x m, xchg l v (y_m y) = Done x m.
Proof.
  intros Hi Hl. destruct (get_lock_returns y l Hi Hl) as [lk E]. eexists _, _. unfold xchg. by rewrite (bind_done _ _ _ _ _ E).
Qed.
Lemma read_cpu_returns y h l : inv y -> (h < n)%nat -> (l < L)%nat -> y_pc y h <> Run ->
  exists b, read_cpu lapicid h l (y_m y) = Done b (y_m y).
Proof.
  intros Hi Hh Hl Hp. destruct (get_lock_returns y l Hi Hl) as [lk E]. eexists. unfold read_cpu.
  by rewrite (bind_done _ _ _ _ _ E), (bind_done _ _ _ _ _ (mycpu_inv y h Hh Hi Hp)).
Qed.
Lemma record_owner_returns y h l pcs : inv y -> (h < n)%nat -> y_pc y h <> Run ->
  exists m, record_owner lapicid h l pcs (y_m y) = Done tt m.
Proof.
  intros Hi Hh Hp. eexists. unfold record_owner. by rewrite (bind_done _ _ _ _ _ (mycpu_inv y h Hh Hi Hp)).
Qed.

Lemma access_done {A} h (act : KM machine A) y k a m : act (y_m y) = Done a m -> access h act y k = k a m.
Proof. intros E. unfold access. by rewrite E. Qed.

(** The four reads of [holding]. *)
Lemma acq_locked_inv y h l : inv y -> (h < n)%nat -> y_pc y h = Acq1 l -> (l < L)%nat ->
  inv (access h (read_locked l) y (fun x m => goto h (if x =? 0 then Spin l else Acq2 l) m y)).
Proof.
  intros Hi Hh Ep Hl. destruct (read_locked_returns y l Hi Hl) as [x Hm]. rewrite (access_done _ _ _ _ _ _ Hm).
  apply read_locked_Done in Hm as (lk & Elk & -> & _).
  destruct (lock_view y l Hi Hl) as (lk0 & E0 & _ & Hfree & _). rewrite Elk in E0. injection E0 as <-.
  destruct (Z.eqb_spec (lk_locked lk) 0) as [E|E]; apply inv_move; rewrite ?Ep; try done; try naive_solver.
  intros l' [= <-]. split; [|done]. specialize (Hfree h Hh E). unfold owned in Hfree. by rewrite Ep in Hfree.
Qed.
Lemma acq_cpu_inv y h l : inv y -> (h < n)%nat -> y_pc y h = Acq2 l -> (l < L)%nat ->
  inv (access h (read_cpu lapicid h l) y (fun b m => goto h (if b : bool then PanicAcq l else Spin l) m y)).
Proof.
  intros Hi Hh Ep Hl. destruct (read_cpu_returns y h l Hi Hh Hl) as [b Hm]; [by rewrite Ep|]. rewrite (access_done _ _ _ _ _ _ Hm).
  apply read_cpu_Done in Hm as (lk & Elk & -> & _); [|done|done|by rewrite Ep].
  destruct (lock_view y l Hi Hl) as (lk0 & E0 & _ & _ & Hown & Hcpu). rewrite Elk in E0. injection E0 as <-.
  case_bool_decide as E; apply inv_move; rewrite ?Ep; try done; try naive_solver.
  - specialize (Hcpu h E). unfold owned in Hcpu. by rewrite Ep in Hcpu.
  - intros l' [= <-]. split; [|done]. intros Hw. destruct (Hown h Hh) as [_ E']; [unfold owned; by rewrite Ep|].
    rewrite Ep in E'. unfold quiet in E'. rewrite bool_decide_eq_false_2 in E' by (by intros [?|?]). done.
Qed.
Lemma rel_locked_inv y h l : inv y -> (h < n)%nat -> y_pc y h = Rel1 l -> (l < L)%nat ->
  inv (access h (read_locked l) y (fun x m => goto h (if x =? 0 then PanicRel l else Rel2 l) m y)).
Proof.
  intros Hi Hh Ep Hl. destruct (read_locked_returns y l Hi Hl) as [x Hm]. rewrite (access_done _ _ _ _ _ _ Hm).
  apply read_locked_Done in Hm as (lk & Elk & -> & _).
  assert (Ho : l ∈ owned y h) by (unfold owned; rewrite Ep; by left).
  destruct (owner_view y h l Hi Hh Hl Ho) as (lk0 & E0 & Hk & _).
  rewrite Elk in E0. injection E0 as <-. rewrite Hk. simpl.
  apply inv_move; rewrite ?Ep; try done; try naive_solver.
Qed.
Lemma rel_cpu_inv y h l : inv y -> (h < n)%nat -> y_pc y h = Rel2 l -> (l < L)%nat ->
  inv (access h (read_cpu lapicid h l) y (fun b m => goto h (if b : bool then Rel3 l else PanicRel l) m y)).
Proof.
  intros Hi Hh Ep Hl. destruct (read_cpu_returns y h l Hi Hh Hl) as [b Hm]; [by rewrite Ep|]. rewrite (access_done _ _ _ _ _ _ Hm).
  apply read_cpu_Done in Hm as (lk & Elk & -> & _); [|done|done|by rewrite Ep].
  assert (Ho : l ∈ owned y h) by (unfold owned; rewrite Ep; by left).
  destruct (owner_view y h l Hi Hh Hl Ho) as (lk0 & E0 & _ & _ & Hk).
  rewrite Elk in E0. injection E0 as <-. rewrite Ep in Hk. unfold quiet in Hk.
  rewrite bool_decide_eq_false_2 in Hk by (by intros [?|?]). rewrite bool_decide_eq_true_2 by done.
  apply inv_move; rewrite ?Ep; try done; try naive_solver.
Qed.

Lemma spin_step_inv y y' : inv y -> step y y' -> inv y'.
Proof.
  intros Hi Hs.
  assert (Hmv : forall h l, (h < n)%nat -> moving (y_pc y h) = [l] -> (l < L)%nat).
  { intros h l Hh E. apply (ci_range _ _ (iv_cpu _ Hi h Hh)). unfold owned. rewrite E. by left. }
  assert (Hlk : forall h l, (h < n)%nat -> y_pc y h = Acq1 l \/ y_pc y h = Acq2 l \/ y_pc y h = Spin l -> (l < L)%nat)
    by (intros h l Hh; apply (ci_lock _ _ (iv_cpu _ Hi h Hh))).
  destruct Hs as [h l Hh Hl Ep|h l Hh Ep|h l Hh Ep|h l Hh Ep|h l pcs Hh Ep
    |h l l1 l2 Hh Ep Eh|h l Hh Ep|h l Hh Ep|h l Hh Ep|h l Hh Ep|h l Hh Ep|h Hh Ep Eh|h Hh Ep Eh];
    pose proof (iv_cpu _ Hi h Hh) as Hch.
  - destruct (pushcli_returns y h Hh Ep Hi) as [m Hm]. rewrite (access_done _ _ _ _ _ _ Hm). by eapply acq_push_inv.
  - eapply acq_locked_inv; eauto.
  - eapply acq_cpu_inv; eauto.
  - destruct (xchg_returns y l 1 Hi) as (x & m & Hm); [eauto|]. rewrite (access_done _ _ _ _ _ _ Hm). by eapply acq_xchg_inv.
  - destruct (record_owner_returns y h l pcs Hi Hh) as [m Hm]; [by rewrite Ep|].
    rewrite (access_done _ _ _ _ _ _ Hm). by eapply acq_own_inv.
  - by eapply rel_start_inv.
  - eapply rel_locked_inv; [done..|]. apply (Hmv h); [done|by rewrite Ep].
  - eapply rel_cpu_inv; [done..|]. apply (Hmv h); [done|by rewrite Ep].
  - by eapply rel_clear_inv.
  - by eapply rel_store_inv.
  - destruct (popcli_returns y h l Hh Ep Hi) as [m Hm]. rewrite (access_done _ _ _ _ _ _ Hm). by eapply rel_pop_inv.
  - destruct (ci_flags _ _ Hch) as (c & f & _ & Ef & _). unfold access, sti, kmodify.
    rewrite (alter_insert _ _ _ _ Ef). eapply run_flags_inv; try done.
    split; [done|]. intros _. apply if_sti.
  - destruct (ci_flags _ _ Hch) as (c & f & _ & Ef & _). unfold access, cli, kmodify.
    rewrite (alter_insert _ _ _ _ Ef). eapply run_flags_inv; try done.
    split; [|done]. unfold if_on. by rewrite if_cli.
Qed.

Lemma start_inv y : start y -> inv y.
Proof.
  intros [Hok Hc Hf Hls Hfree Hr]. assert (Ho : forall h, owned y h = []).
  { intros h. destruct (Hr h) as (E1 & E2 & _). unfold owned. by rewrite E1, E2. }
  split; [done| |].
  - intros h Hh. destruct (Hr h) as (E1 & E2 & E3). split; rewrite ?Ho, ?E1; try done; [by apply NoDup_nil_2| | |].
    + intros l Hl. set_solver.
    + by intros l [?|[?|?]].
    + destruct (lookup_lt_is_Some_2 (mc_cpus (y_m y)) h) as [c Ec]; [by rewrite (mo_cpus _ _ _ Hok)|].
      destruct (lookup_lt_is_Some_2 (mc_eflags (y_m y)) h) as [f Ef]; [by rewrite (mo_eflags _ _ _ Hok)|].
      exists c, f. assert (depth y h = 0%nat) as -> by (unfold depth; by rewrite E1, E2).
      rewrite decide_True by done. split_and!; [done|done|by eapply Hc|]. rewrite E3.
      split; [|done]. intros Hi. destruct Hi. by eapply Hf.
  - intros l Hl. destruct (lookup_lt_is_Some_2 (mc_locks (y_m y)) l) as [lk Elk]; [by rewrite Hls|].
    exists lk. split; [done|]. left. destruct (Hfree l lk Elk). split_and!; try done. intros h _. rewrite Ho. apply not_elem_of_nil.
Qed.

Lemma spin_reachable_inv y : reachable y -> inv y.
Proof. induction 1; [by apply start_inv|by eapply spin_step_inv]. Qed.

Lemma holding_spec y h l : inv y -> (h < n)%nat -> (l < L)%nat -> y_pc y h = Run -> y_held y h <> [] ->
  holding lapicid h l (y_m y) = Done (bool_decide (l ∈ y_held y h)) (y_m y).
Proof.
  intros Hi Hh Hl Ep Eh. destruct (lock_view y l Hi Hl) as (lk & Elk & Hv & Hfree & Hown & Hcpu).
  assert (Ho : owned y h = y_held y h) by (unfold owned; by rewrite Ep).
  unfold holding. erewrite bind_done by (unfold read_locked, mbind, km_bind, get_lock; by rewrite Elk).
  destruct (Z.eqb_spec (lk_locked lk) 0) as [E|E].
  - specialize (Hfree h Hh E). rewrite Ho in Hfree. by rewrite bool_decide_eq_false_2.
  - unfold read_cpu. erewrite bind_done by (unfold get_lock; by rewrite Elk).
    destruct (ci_flags _ _ (iv_cpu _ Hi h Hh)) as (c & f & Hc & Hf & _ & Hd).
    rewrite decide_False in Hd by (unfold depth; rewrite Ep; destruct (y_held y h); simpl; [done|lia]).
    erewrite bind_done by (eapply mycpu_spec; [apply Hi|done|exact Hf|apply Hd]).
    unfold mret, km_ret. f_equal. rewrite <- Ho. apply bool_decide_ext. split; [by intros ?%Hcpu|].
    intros Hw. destruct (Hown h Hh Hw) as [_ ->]. rewrite Ep. unfold quiet. by rewrite bool_decide_eq_false_2 by (by intros [?|?]).
Qed.
End concurrent.

(** C27.  Spin locks (fewer than 2^30) on any number of processors, interleaved
    between any two memory accesses of [acquire] and [release]: a lock is held by
    at most one processor; a processor that holds a lock has interrupts off, so
    no handler runs on it that could spin on the same lock, and one that holds
    none and is in no call has them as it had before; [holding] asked by a
    processor that holds a lock tells exactly the locks of that processor; no
    panic of [release], [pushcli], [popcli] or [mycpu] is ever reached when
    processors release only locks they hold, and [acquire] panics only on a lock
    the same processor holds already. *)
Theorem spinlock_exclusion lapicid n L y :
  Z.of_nat L < 2 ^ 30 -> reachable lapicid n L y ->
  (forall h h' l, (h < n)%nat -> (h' < n)%nat -> l ∈ y_held y h -> l ∈ y_held y h' -> h = h') /\
  (forall h f, (h < n)%nat -> mc_eflags (y_m y) !! h = Some f ->
     if decide (y_held y h = []) then y_pc y h = Run -> (if_on f <-> y_ie y h = true) else ~ if_on f) /\
  (forall h l, (h < n)%nat -> (l < L)%nat -> y_pc y h = Run -> y_held y h <> [] ->
     holding lapicid h l (y_m y) = Done (bool_decide (l ∈ y_held y h)) (y_m y)) /\
  (forall h l, (h < n)%nat -> y_pc y h <> PanicRel l /\ y_pc y h <> Crash /\ (y_pc y h = PanicAcq l -> l ∈ y_held y h)).
Proof.
  intros HL Hr. pose proof (spin_reachable_inv lapicid n L HL y Hr) as Hi. split_and!.
  - intros h h' l Hh Hh' Hw Hw'. assert (Ho : l ∈ owned y h) by (unfold owned; set_solver).
    assert (Ho' : l ∈ owned y h') by (unfold owned; set_solver).
    destruct (owner_view _ _ _ y h' l Hi Hh' (ci_range _ _ _ (iv_cpu _ _ _ _ Hi h Hh) l Ho) Ho') as (lk & _ & _ & Hu & _).
    by apply Hu.
  - intros h f Hh Ef. destruct (ci_flags _ _ _ (iv_cpu _ _ _ _ Hi h Hh)) as (c & f0 & _ & Ef0 & _ & Hd).
    rewrite Ef in Ef0. injection Ef0 as <-. unfold depth in Hd. destruct (decide (y_held y h = [])) as [E|E].
    + intros Ep. rewrite E, Ep in Hd. done.
    + rewrite decide_False in Hd by (destruct (y_held y h), (y_pc y h); simpl; (done || lia)).
      unfold if_on. intros Hn. by apply Hn, Hd.
  - intros h l Hh Hl Ep Eh. by apply (holding_spec lapicid n L).
  - intros h l Hh. pose proof (ci_panic _ _ _ (iv_cpu _ _ _ _ Hi h Hh)) as Hp. split.
    + intros E. by rewrite E in Hp.
    + split; intros E; by rewrite E in Hp.
Qed.

(** Two processors and one lock, with processor 0 in its critical section. *)
Definition demo_cpu (id : Z) : cpu := mkcpu id 0 taskstate0 [] 1 0 0 None.
Definition demo_sys : sys :=
  mksys (mkmachine [demo_cpu 0; demo_cpu 1] [0; 0] [mkspinlock 0 "demo" None (replicate 10 0)])
        (fun _ => Run) (fun _ => []) (fun _ => false).
Lemma demo_start : start Z.of_nat 2 1 demo_sys.
Proof.
  split; simpl; try done.
  - split; simpl; try done.
    + intros [|[|h]] c; simpl; [by intros [= <-]..|done].
    + intros. lia.
  - intros [|[|h]] c; simpl; [by intros [= <-]..|done].
  - intros [|[|h]] c; simpl; [by intros [= <-]..|done].
  - intros [|l] lk; simpl; [by intros [= <-]|done].
Qed.
Definition demo1 : sys := access 0 (pushcli Z.of_nat 0) demo_sys (fun _ m => goto 0 (Acq1 0) m demo_sys).
Definition demo2 : sys := access 0 (read_locked 0) demo1 (fun x m => goto 0 (if x =? 0 then Spin 0 else Acq2 0) m demo1).
Definition demo3 : sys := access 0 (xchg 0 1) demo2 (fun x m => goto 0 (if x =? 0 then Own 0 else Spin 0) m demo2).
Definition demo4 : sys := access 0 (record_owner Z.of_nat 0 0 (replicate 10 0)) demo3
  (fun _ m => set_held 0 (0%nat :: y_held demo3 0%nat) (goto 0 Run m demo3)).
Lemma spinlock_exclusion_witness : reachable Z.of_nat 2 1 demo4 /\ y_held demo4 0%nat = [0%nat] /\
  forall h, (h < 2)%nat -> 0%nat ∈ y_held demo4 h -> h = 0%nat.
Proof.
  assert (Hr : reachable Z.of_nat 2 1 demo4).
  { apply (reach_step _ _ _ demo3); [apply (reach_step _ _ _ demo2); [apply (reach_step _ _ _ demo1);
      [apply (reach_step _ _ _ demo_sys); [apply reach_start, demo_start|]|]|]|].
    - apply (acq_push Z.of_nat 2 1 demo_sys 0 0); [lia|lia|reflexivity].
    - apply (acq_locked Z.of_nat 2 1 demo1 0 0); [lia|reflexivity].
    - apply (acq_xchg Z.of_nat 2 1 demo2 0 0); [lia|reflexivity].
    - apply (acq_own Z.of_nat 2 1 demo3 0 0 (replicate 10 0)); [lia|reflexivity]. }
  split; [exact Hr|]. split; [reflexivity|]. intros h Hh Hw.
  exact (proj1 (spinlock_exclusion Z.of_nat 2 1 demo4 ltac:(lia) Hr) h 0%nat 0%nat Hh ltac:(lia) Hw ltac:(left)).
Defined.
End Concurrent.
