(* ===== verification/Kalloc.v ===== *)
(** * The page allocator: [kalloc.c]

    Physical memory is byte memory; the free list is threaded through the
    first word of each free page, as [struct run] does.  [end], the first
    address after the kernel, comes from the linker and is a parameter.

    Results: the free list is always a list of distinct whole pages of the
    allocator's range; whatever the owners of allocated pages write into them,
    the pages on the list and the allocated pages partition the memory handed
    to [kinit1] and [kinit2], so no page is handed out twice, and [kalloc]
    fails only when every page is allocated. *)

From S2P Require Import Prelude CString Mmu.


Record kmem := mkkmem {
  k_mem : mem;
  k_use_lock : bool;
  k_freelist : Z
}.

Definition set_mem (m : mem) (s : kmem) : kmem := mkkmem m (k_use_lock s) (k_freelist s).

Section kalloc.
Context (kend : Z).

Definition kfree (v : Z) : KM kmem unit :=
  if negb (v mod PGSIZE =? 0) || (v <? kend) || (PHYSTOP <=? V2P v) then panic "kfree" else
  kmodify (fun s =>
    let m := memset (k_mem s) v 1 PGSIZE in
    let m := store32 m v (k_freelist s) in       (* r->next = kmem.freelist *)
    mkkmem m (k_use_lock s) v).

Definition kalloc : KM kmem Z :=
  s ← kget;
  let r := k_freelist s in
  (if negb (r =? 0) then kput (mkkmem (k_mem s) (k_use_lock s) (load32 (k_mem s) r))
   else mret tt);;
  mret r.

(** [for(; p + PGSIZE <= vend; p += PGSIZE) kfree(p)], at most [n] times. *)
Fixpoint free_loop (n : nat) (p vend : Z) : KM kmem unit :=
  match n with
  | O => mret tt
  | S n => if p + PGSIZE <=? vend then kfree p;; free_loop n (p + PGSIZE) vend else mret tt
  end.
Definition freerange (vstart vend : Z) : KM kmem unit :=
  let p := PGROUNDUP vstart in
  free_loop (S (Z.to_nat ((vend - p) / PGSIZE))) p vend.

Definition kinit1 (vstart vend : Z) : KM kmem unit :=
  kmodify (fun s => mkkmem (k_mem s) false (k_freelist s));;
  freerange vstart vend.
Definition kinit2 (vstart vend : Z) : KM kmem unit :=
  freerange vstart vend;;
  kmodify (fun s => mkkmem (k_mem s) true (k_freelist s)).

(** ** The free list *)

(** The pages the allocator may own. *)
Definition good_page (v : Z) : Prop :=
  v mod PGSIZE = 0 /\ kend <= v /\ KERNBASE <= v < KERNBASE + PHYSTOP.

Fixpoint free_list (m : mem) (r : Z) (l : list Z) : Prop :=
  match l with
  | [] => r = 0
  | x :: l => r = x /\ free_list m (load32 m x) l
  end.

Record kmem_ok (s : kmem) (l : list Z) : Prop := mk_kmem_ok {
  ko_list : free_list (k_mem s) (k_freelist s) l;
  ko_nodup : NoDup l;
  ko_page : forall v, v ∈ l -> good_page v
}.

Definition in_page (v x : Z) : Prop := v <= x < v + PGSIZE.

Lemma pages_disjoint v w x : good_page v -> good_page w -> in_page v x -> in_page w x -> v = w.
Proof.
  intros (Hv & _) (Hw & _) Hx Hx'. unfold in_page, PGSIZE in *.
  pose proof (Z_div_mod_eq_full v 4096). pose proof (Z_div_mod_eq_full w 4096). lia.
Qed.

Lemma free_list_ext m m' r l :
  (forall v x, v ∈ l -> v <= x < v + 4 -> m' x = m x) -> free_list m r l -> free_list m' r l.
Proof.
  revert r. induction l as [|v l IH]; intros r H; [done|]. cbn [free_list]. intros [-> Hl]. split; [done|].
  apply IH; [intros; apply (H v0); [by right|done]|].
  rewrite (load32_ext m m'); [done|]. intros x Hx. apply (H v); [by left|done].
Qed.

Lemma kmem_ok_unique s l l' : kmem_ok s l -> kmem_ok s l' -> l = l'.
Proof.
  intros [H _ Hp] [H' _ Hp']. revert l' H' Hp'. generalize dependent (k_freelist s).
  assert (Hz : forall v, good_page v -> v <> 0) by (unfold good_page, KERNBASE, V2P; intros v (_ & ? & ?); lia).
  induction l as [|v l IH]; intros r Hl [|v' l'] Hl' Hp'; simpl in *; [done| | |].
  - destruct Hl' as [-> _]. by destruct (Hz v'); [apply Hp'; left|].
  - destruct Hl as [-> _]. by destruct (Hz v); [apply Hp; left|].
  - destruct Hl as [-> Hl], Hl' as [<- Hl']. f_equal. eapply IH; [intros; apply Hp; by right|done|done|intros; apply Hp'; by right].
Qed.

Lemma kfree_spec s l v :
  kmem_ok s l -> good_page v -> v ∉ l ->
  wp (kfree v) s (fun _ s' => kmem_ok s' (v :: l) /\ k_use_lock s' = k_use_lock s /\
    forall x, ~ in_page v x -> k_mem s' x = k_mem s x).
Proof.
  intros [Hl Hn Hp] Hv Hnl. pose proof Hv as (Hm & He & Hr). unfold kfree, V2P, KERNBASE, PHYSTOP in *.
  rewrite Hm. rewrite (proj2 (Z.ltb_ge v kend)) by lia.
  rewrite u32_id by lia. rewrite (proj2 (Z.leb_gt _ (v - _))) by lia. cbn [negb orb Z.eqb]. apply wp_modify.
  assert (Hout : forall x, ~ in_page v x ->
    store32 (memset (k_mem s) v 1 PGSIZE) v (k_freelist s) x = k_mem s x).
  { intros x Hx. unfold in_page, PGSIZE in Hx. rewrite store32_out by lia.
    rewrite memset_at by (unfold PGSIZE; lia). by rewrite bool_decide_eq_false_2 by (unfold PGSIZE; lia). }
  split; [|done]. split; simpl.
  - split; [done|]. rewrite load32_store32.
    assert (u32 (k_freelist s) = k_freelist s) as ->.
    { apply u32_id. destruct l as [|w l]; simpl in Hl; [lia|]. destruct Hl as [-> _].
      destruct (Hp w) as (_ & _ & ?); [set_solver|]. unfold KERNBASE, PHYSTOP in *. lia. }
    eapply free_list_ext; [|exact Hl]. intros w x Hw Hx. apply Hout. intros Hx'.
    apply Hnl. rewrite (pages_disjoint v w x Hv (Hp _ Hw) Hx'); [done|]. unfold in_page, PGSIZE. lia.
  - by constructor.
  - intros w [->|Hw]%elem_of_cons; [done|by apply Hp].
Qed.

Lemma kalloc_spec s l :
  kmem_ok s l ->
  wp kalloc s (fun r s' => k_mem s' = k_mem s /\ k_use_lock s' = k_use_lock s /\
    match l with
    | [] => r = 0 /\ kmem_ok s' []
    | v :: l' => r = v /\ kmem_ok s' l'
    end).
Proof.
  intros [Hl Hn Hp]. unfold kalloc. wp_step. wp_step. destruct l as [|v l]; simpl in Hl.
  - rewrite Hl. simpl. wp_steps. by split_and!.
  - destruct Hl as [E Hl]. destruct (Hp v) as (_ & _ & Hr); [set_solver|].
    rewrite E, (proj2 (Z.eqb_neq v 0)) by (unfold KERNBASE in Hr; lia). simpl. wp_steps.
    split_and!; try done. apply NoDup_cons in Hn as [_ Hn]. split; [done|done|set_solver].
Qed.

(** The whole pages of [vstart .. vend]. *)
Definition range_pages (vstart vend : Z) : list Z :=
  (fun k => PGROUNDUP vstart + PGSIZE * Z.of_nat k) <$>
  seq 0 (Z.to_nat ((vend - PGROUNDUP vstart) / PGSIZE)).

Lemma free_loop_spec n : forall p vend s l,
  kmem_ok s l ->
  let k := Z.to_nat ((vend - p) / PGSIZE) in
  (k < n)%nat ->
  let pages := (fun i => p + PGSIZE * Z.of_nat i) <$> seq 0 k in
  (forall v, v ∈ pages -> good_page v /\ v ∉ l) ->
  wp (free_loop n p vend) s (fun _ s' => kmem_ok s' (reverse pages ++ l) /\ k_use_lock s' = k_use_lock s).
Proof.
  induction n as [|n IH]; intros p vend s l Hok k Hk pages Hp; [lia|]. cbn [free_loop].
  unfold PGSIZE in *. pose proof (Z_div_mod_eq_full (vend - p) 4096). pose proof (Z.mod_pos_bound (vend - p) 4096).
  destruct (Z.leb_spec (p + 4096) vend) as [Hle|Hgt].
  - assert (Ek : k = S (Z.to_nat ((vend - (p + 4096)) / 4096))).
    { unfold k. replace (vend - (p + 4096)) with (vend - p + (-1) * 4096) by lia.
      rewrite Z.div_add by lia. lia. }
    set (k' := Z.to_nat ((vend - (p + 4096)) / 4096)) in *.
    assert (Epages : pages = p :: ((fun i => p + 4096 + 4096 * Z.of_nat i) <$> seq 0 k')).
    { unfold pages. rewrite Ek. cbn [seq]. rewrite fmap_cons. f_equal; [lia|].
      rewrite <- fmap_S_seq, <- list_fmap_compose. apply list_fmap_ext. intros ? ? _. simpl. lia. }
    assert (Hnd : p ∉ (fun i => p + 4096 + 4096 * Z.of_nat i) <$> seq 0 k').
    { intros (i & Hi & _)%list_elem_of_fmap. lia. }
    wp_step. eapply wp_mono; [apply (kfree_spec s l p Hok); apply Hp; rewrite Epages; set_solver|].
    intros [] s1 (Hok1 & Hu & _). eapply wp_mono; [apply (IH (p + 4096) vend s1 (p :: l) Hok1)|].
    + fold k'. lia.
    + fold k'. intros v Hv. destruct (Hp v) as [? ?]; [rewrite Epages; set_solver|]. split; [done|].
      intros [->|?]%elem_of_cons; done.
    + intros [] s2 [Hok2 Hu2]. rewrite Epages, reverse_cons, <- app_assoc. split; [done|congruence].
  - assert (Ek : k = 0%nat) by (unfold k; assert ((vend - p) / 4096 < 1) by (apply Z.div_lt_upper_bound; lia); lia).
    unfold pages. rewrite Ek. by wp_step.
Qed.

Lemma freerange_spec vstart vend s l :
  kmem_ok s l -> (forall v, v ∈ range_pages vstart vend -> good_page v /\ v ∉ l) ->
  wp (freerange vstart vend) s (fun _ s' =>
    kmem_ok s' (reverse (range_pages vstart vend) ++ l) /\ k_use_lock s' = k_use_lock s).
Proof.
  intros Hok Hp. unfold freerange. apply free_loop_spec; [done|lia|done].
Qed.

End kalloc.

(** ** Allocator and owners *)

Module Owners.
Section owners.
Context (kend v1 v2 v3 : Z).

(** [o_owned] are the pages handed out. *)
Record state := mkstate { o_kmem : kmem; o_owned : gset Z }.

Inductive step : state -> state -> Prop :=
| do_alloc s r s' :
    kalloc (o_kmem s) = Done r s' -> r <> 0 -> step s (mkstate s' ({[r]} ∪ o_owned s))
| do_free s v s' :
    v ∈ o_owned s -> kfree kend v (o_kmem s) = Done tt s' -> step s (mkstate s' (o_owned s ∖ {[v]}))
| do_store s v x b :
    v ∈ o_owned s -> in_page v x -> step s (mkstate (set_mem (upd (k_mem (o_kmem s)) x b) (o_kmem s)) (o_owned s)).

(** The boot sequence of [main] with the two ranges [v1..v2] and [v2..v3]. *)
Definition boot : KM kmem unit := kinit1 kend v1 v2;; kinit2 kend v2 v3.
Inductive reachable : state -> Prop :=
| reach_boot m s : boot (mkkmem m false 0) = Done tt s -> reachable (mkstate s ∅)
| reach_step s s' : reachable s -> step s s' -> reachable s'.

Definition boot_pages : list Z := range_pages v1 v2 ++ range_pages v2 v3.

(** What [main] passes: page-sized pieces of the allocator's memory, none of
    them twice. *)
Hypothesis pages_good : forall v, v ∈ boot_pages -> good_page kend v.
Hypothesis pages_nodup : NoDup boot_pages.

Definition inv (s : state) : Prop := exists l, kmem_ok kend (o_kmem s) l /\
  list_to_set l ∪ o_owned s = list_to_set boot_pages /\ list_to_set l ## o_owned s.

Lemma own_boot_spec m : wp boot (mkkmem m false 0) (fun _ s => inv (mkstate s ∅)).
Proof.
  apply NoDup_app in pages_nodup as (_ & Hdis & _).
  assert (H0 : kmem_ok kend (mkkmem m false 0) []) by (split; [done|apply NoDup_nil_2|set_solver]).
  unfold boot, kinit1, kinit2. wp_steps. eapply wp_mono; [apply (freerange_spec _ _ _ _ [] H0)|].
  { intros v Hv. split; [|set_solver]. apply pages_good. unfold boot_pages. set_solver. }
  intros [] s1 [H1 _]. rewrite app_nil_r in H1. wp_step. eapply wp_mono; [apply (freerange_spec _ _ _ _ _ H1)|].
  { intros v Hv. split; [apply pages_good; unfold boot_pages; set_solver|].
    rewrite elem_of_reverse. intros Hv'. by apply (Hdis v). }
  intros [] s2 [[Hl Hn Hp] _]. wp_step. eexists. split; [by split|]. simpl. split; [|set_solver].
  unfold boot_pages. rewrite union_empty_r_L. apply set_eq. intros v.
  rewrite !elem_of_list_to_set, !elem_of_app, !elem_of_reverse. tauto.
Qed.

Lemma own_step_inv s s' : inv s -> step s s' -> inv s'.
Proof.
  intros (l & Hok & Hu & Hd) Hs. destruct Hs as [s r s' Ha Hr|s v s' Hv Hf|s v x b Hv Hx].
  - pose proof (wp_elim _ _ _ _ _ (kalloc_spec kend _ _ Hok) Ha) as (_ & _ & H).
    destruct l as [|w l]; [by destruct H|]. destruct H as [-> Hok']. exists l. split; [done|].
    pose proof (ko_nodup _ _ _ Hok) as [Hn _]%NoDup_cons. simpl in *. rewrite <- Hu.
    clear -Hn Hd. split; set_solver.
  - assert (Hg : good_page kend v).
    { apply pages_good. apply (elem_of_list_to_set (C := gset Z)). rewrite <- Hu. by apply elem_of_union_r. }
    assert (Hn : v ∉ l) by (clear -Hv Hd; set_solver).
    pose proof (wp_elim _ _ _ _ _ (kfree_spec kend _ _ _ Hok Hg Hn) Hf) as (Hok' & _).
    exists (v :: l). split; [done|]. simpl. rewrite <- Hu. clear -Hd Hv. split; [|set_solver].
    apply set_eq. intros w. destruct (decide (w = v)); set_solver.
  - exists l. split; [|done]. destruct Hok as [Hl Hn Hp]. split; [|done|done]. simpl.
    eapply free_list_ext; [|exact Hl]. intros w y Hw Hy. apply upd_ne. intros ->.
    assert (Hg : good_page kend v).
    { apply pages_good. apply (elem_of_list_to_set (C := gset Z)). rewrite <- Hu. by apply elem_of_union_r. }
    assert (w = v) as ->; [|clear -Hw Hv Hd; set_solver].
    eapply (pages_disjoint kend w v); [by apply Hp|done| |exact Hx]. unfold in_page, PGSIZE. lia.
Qed.

Lemma own_reachable_inv s : reachable s -> inv s.
Proof.
  induction 1 as [m s Hs|s s' _ IH Hs].
  - exact (wp_elim _ _ _ _ _ (own_boot_spec m) Hs).
  - by eapply own_step_inv.
Qed.
End owners.

(** C12.  The allocator never hands out a page twice and never loses one.
    After any history of allocations, frees and stores into owned pages,
    [kalloc] returns a page of the boot ranges that nobody owns; it returns 0
    only when every page is owned; and freeing an owned page succeeds. *)
Theorem kalloc_fresh kend v1 v2 v3 s :
  (forall v, v ∈ boot_pages v1 v2 v3 -> good_page kend v) -> NoDup (boot_pages v1 v2 v3) ->
  reachable kend v1 v2 v3 s ->
  wp kalloc (o_kmem s) (fun r _ =>
    (r = 0 /\ o_owned s = list_to_set (boot_pages v1 v2 v3)) \/
    (r ∈ boot_pages v1 v2 v3 /\ r ∉ o_owned s)) /\
  forall v, v ∈ o_owned s -> wp (kfree kend v) (o_kmem s) (fun _ s' => k_freelist s' = v).
Proof.
  intros Hg Hn (l & Hok & Hu & Hd)%own_reachable_inv; [|done..]. split.
  - eapply wp_mono; [by apply kalloc_spec|]. intros r s' (_ & _ & H). destruct l as [|v l].
    + left. destruct H as [-> _]. split; [done|]. rewrite <- Hu. clear. set_solver.
    + right. destruct H as [-> _]. split; [|clear -Hd; set_solver].
      apply (elem_of_list_to_set (C := gset Z)). rewrite <- Hu. clear. set_solver.
  - intros v Hv. assert (v ∈ boot_pages v1 v2 v3) as Hb.
    { apply (elem_of_list_to_set (C := gset Z)). rewrite <- Hu. by apply elem_of_union_r. }
    eapply wp_mono; [apply (kfree_spec kend _ l v Hok (Hg _ Hb)); clear -Hv Hd; set_solver|].
    intros [] s' ([[? _] _ _] & _). done.
Qed.

Lemma kalloc_fresh_witness : exists s, wp kalloc (o_kmem s) (fun r _ => r = 0 \/ r ∈ boot_pages 2147483648 2147495936 2147500032).
Proof.
  set (v1 := 2147483648). set (v2 := 2147495936). set (v3 := 2147500032).
  assert (Hb : boot_pages v1 v2 v3 = [2147483648; 2147487744; 2147491840; 2147495936]) by reflexivity.
  assert (Hg : forall v, v ∈ boot_pages v1 v2 v3 -> good_page v1 v).
  { rewrite Hb. intros v. rewrite !elem_of_cons, elem_of_nil.
    intros [->|[->|[->|[->|[]]]]]; unfold good_page, v1, KERNBASE, PHYSTOP; split; try reflexivity; lia. }
  assert (Hn : NoDup (boot_pages v1 v2 v3)) by (rewrite Hb; apply (bool_decide_unpack _); reflexivity).
  destruct (wp_inv _ _ _ (own_boot_spec v1 v1 v2 v3 Hg Hn (fun _ => 0))) as ([] & s & Hs & _).
  exists (mkstate s ∅).
  eapply wp_mono; [exact (proj1 (kalloc_fresh v1 v1 v2 v3 (mkstate s ∅) Hg Hn (reach_boot _ _ _ _ _ _ Hs)))|].
  intros r _ [[E _]|[E _]]; [left; exact E|right; exact E].
Defined.
End Owners.
