(* ===== verification/Vm.v ===== *)
(** * Virtual memory: [vm.c]

    Page directories and page tables are pages of the kernel's memory, read
    and written as 32-bit words at kernel virtual addresses, exactly where
    [vm.c] puts them; pages come from [kalloc.c].  A pointer is its address
    and 0 is null.  What is printed by [cprintf] on the failure paths of
    [allocuvm] is not part of the state.

    [data], the start of the kernel's data, comes from the linker and is a
    parameter, as is [end] of the page allocator.  [loaduvm] reads a file
    through [readi], which is an argument. *)

From S2P Require Import Prelude CString Mmu Spinlock Kalloc.

Definition kload (a : Z) : KM kmem Z := kgets (fun s => load32 (k_mem s) a).
Definition kstore (a v : Z) : KM kmem unit := kmodify (fun s => set_mem (store32 (k_mem s) a v) s).
Definition kmemset (dst c n : Z) : KM kmem unit := kmodify (fun s => set_mem (memset (k_mem s) dst c n) s).
Definition kmemmove (dst src n : Z) : KM kmem unit := kmodify (fun s => set_mem (memmove (k_mem s) dst src n) s).
(** Storing bytes that come from outside the kernel's memory. *)
Fixpoint store_bytes (m : mem) (a : Z) (l : list Z) : mem :=
  match l with
  | [] => m
  | b :: l => store_bytes (upd m a b) (a + 1) l
  end.
Definition kput_bytes (dst : Z) (l : list Z) : KM kmem unit := kmodify (fun s => set_mem (store_bytes (k_mem s) dst l) s).

Definition has_flag (e f : Z) : bool := negb (Z.land e f =? 0).

Section vm.
Context (kend kdata : Z).

Definition walkpgdir (pgdir va : Z) (alloc : bool) : KM kmem Z :=
  let pde := pgdir + 4 * PDX va in
  e ← kload pde;
  if has_flag e PTE_P then mret (P2V (PTE_ADDR e) + 4 * PTX va)
  else if negb alloc then mret 0 else
  pgtab ← kalloc;
  if pgtab =? 0 then mret 0 else
  kmemset pgtab 0 PGSIZE;;
  kstore pde (Z.lor (Z.lor (Z.lor (V2P pgtab) PTE_P) PTE_W) PTE_U);;
  mret (pgtab + 4 * PTX va).

(** The [for(;;)] of [mappages], at most [n] times round. *)
Fixpoint map_loop (n : nat) (pgdir a last pa perm : Z) : KM kmem Z :=
  match n with
  | O => fault "mappages: loop"
  | S n =>
      pte ← walkpgdir pgdir a true;
      if pte =? 0 then mret (-1) else
      e ← kload pte;
      if has_flag e PTE_P then panic "remap" else
      kstore pte (Z.lor (Z.lor pa perm) PTE_P);;
      if a =? last then mret 0
      else map_loop n pgdir (u32 (a + PGSIZE)) last (u32 (pa + PGSIZE)) perm
  end.
(** [a] goes up to [last] in steps of a page, so this many rounds reach it. *)
Definition mappages (pgdir va size pa perm : Z) : KM kmem Z :=
  let a := PGROUNDDOWN (u32 va) in
  let last := PGROUNDDOWN (u32 (u32 va + size - 1)) in
  map_loop (S (Z.to_nat (u32 (last - a) / PGSIZE))) pgdir a last pa perm.

(** The loop of [deallocuvm]; [a] grows by a page at least. *)
Fixpoint dealloc_loop (n : nat) (pgdir a oldsz : Z) : KM kmem unit :=
  match n with
  | O => if a <? oldsz then fault "deallocuvm: loop" else mret tt
  | S n =>
      if a <? oldsz then
        pte ← walkpgdir pgdir a false;
        (if pte =? 0 then dealloc_loop n pgdir (u32 (u32 (PGADDR (PDX a + 1) 0 0 - PGSIZE) + PGSIZE)) oldsz
         else
           e ← kload pte;
           (if has_flag e PTE_P then
              let pa := PTE_ADDR e in
              if pa =? 0 then panic "kfree" else
              kfree kend (P2V pa);;
              kstore pte 0
            else mret tt);;
           dealloc_loop n pgdir (u32 (a + PGSIZE)) oldsz)
      else mret tt
  end.
Definition deallocuvm (pgdir oldsz newsz : Z) : KM kmem Z :=
  if oldsz <=? newsz then mret oldsz else
  dealloc_loop (Z.to_nat (oldsz / PGSIZE + 1)) pgdir (PGROUNDUP newsz) oldsz;;
  mret newsz.

(** The loop of [freevm] over the directory. *)
Fixpoint free_tables (n : nat) (pgdir i : Z) : KM kmem unit :=
  match n with
  | O => mret tt
  | S n =>
      e ← kload (pgdir + 4 * i);
      (if has_flag e PTE_P then kfree kend (P2V (PTE_ADDR e)) else mret tt);;
      free_tables n pgdir (i + 1)
  end.
Definition freevm (pgdir : Z) : KM kmem unit :=
  if pgdir =? 0 then panic "freevm: no pgdir" else
  deallocuvm pgdir KERNBASE 0;;
  free_tables (Z.to_nat NPDENTRIES) pgdir 0;;
  kfree kend pgdir.

(** [kmap]: virtual address, physical range and permissions. *)
Record kmap := mkkmap { virt : Z; phys_start : Z; phys_end : Z; km_perm : Z }.
Definition kmaps : list kmap := [
  mkkmap KERNBASE 0 EXTMEM PTE_W;
  mkkmap KERNLINK (V2P KERNLINK) (V2P kdata) 0;
  mkkmap kdata (V2P kdata) PHYSTOP PTE_W;
  mkkmap DEVSPACE DEVSPACE 0 PTE_W
].

Fixpoint map_all (pgdir : Z) (ks : list kmap) : KM kmem Z :=
  match ks with
  | [] => mret pgdir
  | k :: ks =>
      r ← mappages pgdir (virt k) (u32 (phys_end k - phys_start k)) (phys_start k) (km_perm k);
      if r <? 0 then freevm pgdir;; mret 0 else map_all pgdir ks
  end.
Definition setupkvm : KM kmem Z :=
  pgdir ← kalloc;
  if pgdir =? 0 then mret 0 else
  kmemset pgdir 0 PGSIZE;;
  if DEVSPACE <? P2V PHYSTOP then panic "PHYSTOP too high" else
  map_all pgdir kmaps.

Definition inituvm (pgdir : Z) (init : list Z) : KM kmem unit :=
  if PGSIZE <=? Z.of_nat (length init) then panic "inituvm: more than a page" else
  mem ← kalloc;
  if mem =? 0 then fault "inituvm: null page" else
  kmemset mem 0 PGSIZE;;
  mappages pgdir 0 PGSIZE (V2P mem) (Z.lor PTE_W PTE_U);;
  kput_bytes mem init.

Fixpoint alloc_loop (n : nat) (pgdir a oldsz newsz : Z) : KM kmem Z :=
  match n with
  | O => if a <? newsz then fault "allocuvm: loop" else mret newsz
  | S n =>
      if a <? newsz then
        mem ← kalloc;
        if mem =? 0 then deallocuvm pgdir newsz oldsz;; mret 0 else
        kmemset mem 0 PGSIZE;;
        r ← mappages pgdir a PGSIZE (V2P mem) (Z.lor PTE_W PTE_U);
        if r <? 0 then
          deallocuvm pgdir newsz oldsz;;
          kfree kend mem;;
          mret 0
        else alloc_loop n pgdir (u32 (a + PGSIZE)) oldsz newsz
      else mret newsz
  end.
Definition allocuvm (pgdir oldsz newsz : Z) : KM kmem Z :=
  if KERNBASE <=? newsz then mret 0 else
  if newsz <? oldsz then mret oldsz else
  alloc_loop (Z.to_nat (newsz / PGSIZE + 1)) pgdir (PGROUNDUP oldsz) oldsz newsz.

Definition clearpteu (pgdir uva : Z) : KM kmem unit :=
  pte ← walkpgdir pgdir uva false;
  if pte =? 0 then panic "clearpteu" else
  e ← kload pte;
  kstore pte (Z.land e (Z.lnot PTE_U)).

(** The loop of [copyuvm], and what it does at the label [bad]. *)
Fixpoint copy_loop (n : nat) (pgdir d i sz : Z) : KM kmem Z :=
  match n with
  | O => if i <? sz then fault "copyuvm: loop" else mret d
  | S n =>
      if i <? sz then
        pte ← walkpgdir pgdir i false;
        if pte =? 0 then panic "copyuvm: pte should exist" else
        e ← kload pte;
        if negb (has_flag e PTE_P) then panic "copyuvm: page not present" else
        let pa := PTE_ADDR e in
        let flags := PTE_FLAGS e in
        mem ← kalloc;
        if mem =? 0 then freevm d;; mret 0 else
        kmemmove mem (P2V pa) PGSIZE;;
        r ← mappages d i PGSIZE (V2P mem) flags;
        if r <? 0 then freevm d;; mret 0
        else copy_loop n pgdir d (u32 (i + PGSIZE)) sz
      else mret d
  end.
Definition copyuvm (pgdir sz : Z) : KM kmem Z :=
  d ← setupkvm;
  if d =? 0 then mret 0 else
  copy_loop (Z.to_nat (sz / PGSIZE + 1)) pgdir d 0 sz.

(** [uva2ka] reads [*pte] without a test for null. *)
Definition uva2ka (pgdir uva : Z) : KM kmem Z :=
  pte ← walkpgdir pgdir uva false;
  if pte =? 0 then fault "uva2ka: null pte" else
  e ← kload pte;
  if negb (has_flag e PTE_P) then mret 0 else
  if negb (has_flag e PTE_U) then mret 0 else
  mret (P2V (PTE_ADDR e)).

(** [copyout]; the bytes at [p] are a list. *)
Fixpoint copyout_loop (n : nat) (pgdir va : Z) (l : list Z) : KM kmem Z :=
  match n with
  | O => if 0 <? Z.of_nat (length l) then fault "copyout: loop" else mret 0
  | S n =>
      if 0 <? Z.of_nat (length l) then
        let va0 := PGROUNDDOWN (u32 va) in
        pa0 ← uva2ka pgdir va0;
        if pa0 =? 0 then mret (-1) else
        let k := Z.min (PGSIZE - (va - va0)) (Z.of_nat (length l)) in
        kput_bytes (pa0 + (va - va0)) (take (Z.to_nat k) l);;
        copyout_loop n pgdir (u32 (va0 + PGSIZE)) (drop (Z.to_nat k) l)
      else mret 0
  end.
Definition copyout (pgdir va : Z) (l : list Z) : KM kmem Z :=
  copyout_loop (S (S (Z.to_nat (Z.of_nat (length l) / PGSIZE)))) pgdir va l.

(** ** Loading a segment: a client state [T] that contains the kernel's
    memory, and [readi] of the file on that state, which returns its result
    and the bytes it read. *)
Section load.
Context {T : Type} (sel : T -> kmem) (upd_mem : kmem -> T -> T).
Context (readi : Z -> Z -> KM T (Z * list Z)).

Fixpoint load_loop (n : nat) (pgdir addr offset sz i : Z) : KM T Z :=
  match n with
  | O => if i <? sz then fault "loaduvm: loop" else mret 0
  | S n =>
      if i <? sz then
        pte ← zoom sel upd_mem (walkpgdir pgdir (u32 (addr + i)) false);
        if pte =? 0 then panic "loaduvm: address should exist" else
        e ← zoom sel upd_mem (kload pte);
        let pa := PTE_ADDR e in
        let k := if sz - i <? PGSIZE then sz - i else PGSIZE in
        '(r, bytes) ← readi (u32 (offset + i)) k;
        zoom sel upd_mem (kput_bytes (P2V pa) bytes);;
        if negb (r =? k) then mret (-1)
        else load_loop n pgdir addr offset sz (u32 (i + PGSIZE))
      else mret 0
  end.
Definition loaduvm (pgdir addr offset sz : Z) : KM T Z :=
  if negb (addr mod PGSIZE =? 0) then panic "loaduvm: addr must be page aligned" else
  load_loop (Z.to_nat (sz / PGSIZE + 1)) pgdir addr offset sz 0.
End load.
End vm.
