(* ===== verification/VmUser.v ===== *)
(** * User memory: adding and removing pages

    The contents of a user address space as a map from addresses to bytes
    ([umem]), and how it changes when pages are added ([grew]) and when an
    allocation that failed is undone ([undone]). *)

From S2P Require Import Prelude CString Mmu Kalloc Vm VmSpec.

(** The byte a user program sees at [va]. *)
Definition umem (m : mem) (U : gmap Z Z) (va : Z) : option Z :=
  (fun p => m (p + va mod 4096)) <$> U !! (va / 4096).

Lemma umem_frame m m' U va : (forall p, p ∈ vals U -> same_on p m m') -> umem m' U va = umem m U va.
Proof.
  intros H. unfold umem. destruct (U !! (va / 4096)) as [p|] eqn:E; [|done]. simpl. f_equal.
  apply (H p); [apply elem_of_vals; eauto|]. unfold in_page, PGSIZE. pose proof (Z.mod_pos_bound va 4096). lia.
Qed.

(** As many pages as keys. *)
Lemma vals_length_le (T : gmap Z Z) K : (forall i, is_Some (T !! i) -> i ∈ K) -> (length (vals T) <= length K)%nat.
Proof.
  intros H. unfold vals. rewrite length_fmap, <- (length_fmap fst).
  apply submseteq_length, NoDup_submseteq; [apply NoDup_fst_map_to_list|].
  intros i ((j & t) & -> & Hj)%list_elem_of_fmap. apply elem_of_map_to_list in Hj. apply H. simpl. eauto.
Qed.
Lemma vals_length (T : gmap Z Z) K : NoDup K -> (forall i, is_Some (T !! i) <-> i ∈ K) -> length (vals T) = length K.
Proof.
  intros Hn H. unfold vals. rewrite length_fmap, <- (length_fmap fst). apply Permutation_length, NoDup_Permutation; [apply NoDup_fst_map_to_list|done|].
  intros i. rewrite <- H, list_elem_of_fmap. split.
  - intros ((j & t) & -> & Hj). apply elem_of_map_to_list in Hj. simpl. eauto.
  - intros [t Ht]. exists (i, t). split; [done|]. by apply elem_of_map_to_list.
Qed.

Section user.
Context (kend : Z).
Abbreviation aspace := (aspace kend).
Abbreviation good_page := (good_page kend).

Lemma entry_good p perm : good_page p -> 0 <= perm < 4096 ->
  entry (V2P p) perm 0 = V2P p + Z.lor perm 1 /\ PTE_ADDR (V2P p + Z.lor perm 1) = V2P p /\
  PTE_FLAGS (V2P p + Z.lor perm 1) = Z.lor perm 1 /\ has_flag (V2P p + Z.lor perm 1) PTE_P = true.
Proof.
  intros Hp Hperm. destruct (V2P_good kend p Hp) as (_ & Hr & Hm).
  assert (Hf : 0 <= Z.lor perm 1 < 4096) by (apply (lor_range perm 1 12); lia).
  assert (E : Z.lor (V2P p) (Z.lor perm 1) = V2P p + Z.lor perm 1) by (apply (lor_low _ _ 12); [lia|done|lia]).
  destruct (PTE_make (V2P p) (Z.lor perm 1)) as [Ea Ef]; [lia|done|lia|]. rewrite E in *. split_and!; try done.
  - unfold entry, PGSIZE, PTE_P. by rewrite Z.mul_0_r, Z.add_0_r, u32_id, <- Z.lor_assoc by lia.
  - unfold has_flag. rewrite <- E, Z.lor_assoc, Z.land_lor_distr_l. apply negb_true_iff, Z.eqb_neq.
    by intros [_ ?]%Z.lor_eq_0_iff.
Qed.

Lemma grows_elem tabs l tabs' l' x : grows tabs l tabs' l' -> x ∈ vals tabs' ++ l' <-> x ∈ vals tabs ++ l.
Proof. intros [_ HP]. by rewrite HP. Qed.

(** The pages of a space after its tables grew. *)
Lemma aspace_grows s l d tabs U s' tabs' l' :
  aspace s l d tabs U -> vspace kend s' l' d tabs' -> grows tabs l tabs' l' ->
  NoDup (d :: vals tabs' ++ vals U ++ l') /\ (forall q, q ∈ vals U -> q ∉ vals tabs' /\ q <> d).
Proof.
  intros H Hv Hg. assert (Hnd : NoDup (d :: vals tabs' ++ vals U ++ l')).
  { assert (HP : d :: vals tabs' ++ vals U ++ l' ≡ₚ d :: vals tabs ++ vals U ++ l).
    { rewrite (Permutation_app_swap_app (vals tabs')), (Permutation_app_swap_app (vals tabs)). by rewrite (proj2 Hg). }
    rewrite HP. apply H. }
  split; [done|]. intros q Hq. apply NoDup_cons in Hnd as [Hd Hnd]. apply NoDup_app in Hnd as (_ & Hn & _). split.
  - intros Hw. apply (Hn q Hw). apply elem_of_app. by left.
  - intros ->. apply Hd. apply elem_of_app. right. apply elem_of_app. by left.
Qed.

(** Mapping one allocated page [p], held by the caller, at virtual page [v]. *)
Lemma map_user s l d tabs U v p perm :
  aspace s l d tabs U -> 0 <= v < UPAGES -> U !! v = None ->
  good_page p -> p ∉ pages_of d tabs U -> p ∉ l -> 0 <= perm < 4096 ->
  wp (mappages d (4096 * v) PGSIZE (V2P p) perm) s (fun r s' => exists tabs' l',
    grows tabs l tabs' l' /\ touched (d :: vals tabs') (k_mem s) (k_mem s') /\ p ∉ vals tabs' /\ p ∉ l' /\
    ((r = 0 /\ aspace s' l' d tabs' (<[v := p]> U) /\
      forall w, 0 <= w < 2 ^ 20 -> pte_of (k_mem s') tabs' w =
        if decide (w = v) then V2P p + Z.lor perm 1 else pte_of (k_mem s) tabs w) \/
     (r = -1 /\ l' = [] /\ aspace s' [] d tabs' U /\ same_ptes (k_mem s) tabs (k_mem s') tabs'))).
Proof.
  intros H Hv Hu Hg Hpp Hpl Hperm. destruct (V2P_good kend p Hg) as (_ & Hr & _). unfold UPAGES in Hv.
  destruct (entry_good p perm Hg Hperm) as (Ee & Ea & _ & Ep).
  pose proof (as_pte _ _ _ _ _ _ H v Hv) as Hv0. rewrite Hu in Hv0. simpl in Hv0.
  eapply wp_mono; [apply (mappages_one kend s l d tabs v); [apply H|lia|done|lia|by rewrite Hv0]|].
  intros r s' (tabs' & l' & j & [Hm1 Hm2 Hm3 Hm4] & Hres). exists tabs', l'.
  assert (Hn : p ∉ vals tabs' ++ l').
  { rewrite (grows_elem _ _ _ _ _ Hm2). unfold pages_of in Hpp. set_solver. }
  destruct (aspace_grows _ _ _ _ _ _ _ _ H Hm1 Hm2) as [Hnd _].
  split_and!; try done; [set_solver..|]. destruct Hres as [[-> ->]|(-> & -> & ->)].
  - left. assert (Hpte : forall w, 0 <= w < 2 ^ 20 -> pte_of (k_mem s') tabs' w =
        if decide (w = v) then V2P p + Z.lor perm 1 else pte_of (k_mem s) tabs w).
    { intros w Hw. rewrite Hm3 by done. case_decide; case_decide; try lia. subst w. by rewrite Z.sub_diag. }
    split_and!; [done| |done]. split; [done|..].
    + assert (HP : d :: vals tabs' ++ vals (<[v := p]> U) ++ l' ≡ₚ p :: d :: vals tabs' ++ vals U ++ l').
      { rewrite (vals_insert _ _ _ Hu). simpl. rewrite <- Permutation_middle. constructor. }
      rewrite HP. constructor; [|exact Hnd]. unfold pages_of in Hpp. set_solver.
    + intros q. rewrite (vals_insert _ _ _ Hu), elem_of_cons. intros [->|Hq]; [done|]. by apply (as_good _ _ _ _ _ _ H).
    + intros w q. rewrite lookup_insert_Some. intros [[<- _]|[_ ?]]; [done|]. by apply (as_dom _ _ _ _ _ _ H w q).
    + intros w Hw. unfold UPAGES in Hw. rewrite Hpte by lia. rewrite lookup_insert. repeat case_decide; try lia; [done|].
      by apply (as_pte _ _ _ _ _ _ H).
    + intros w Hw. unfold UPAGES in Hw. rewrite Hpte, decide_False by lia. by apply (as_kern _ _ _ _ _ _ H).
  - right. assert (Hpte : same_ptes (k_mem s) tabs (k_mem s') tabs').
    { intros w Hw. rewrite Hm3 by done. by rewrite decide_False by lia. }
    split_and!; [done..| |done]. split; [done|done|apply H|apply H|..].
    + intros w Hw. unfold UPAGES in Hw. rewrite Hpte by lia. by apply (as_pte _ _ _ _ _ _ H).
    + intros w Hw. unfold UPAGES in Hw. rewrite Hpte by lia. by apply (as_kern _ _ _ _ _ _ H).
Qed.

Lemma tabs_bound s l d tabs : vspace kend s l d tabs -> (length (vals tabs) <= 1024)%nat.
Proof.
  intros H. apply (vals_length_le tabs (seqZ 0 1024)). intros i [t Hj]. apply elem_of_seqZ.
  pose proof (vs_dom _ _ _ _ _ H _ _ Hj). lia.
Qed.

(** Taking a free page. *)
Lemma take_page s l d tabs U : aspace s l d tabs U ->
  wp kalloc s (fun r s' => k_mem s' = k_mem s /\
    match l with
    | [] => r = 0 /\ aspace s' [] d tabs U
    | p :: l' => r = p /\ aspace s' l' d tabs U /\ good_page p /\ p ∉ pages_of d tabs U /\ p ∉ l'
    end).
Proof.
  intros H. pose proof (vs_kmem _ _ _ _ _ (as_v _ _ _ _ _ _ H)) as Hk. pose proof (aspace_sep _ _ _ _ _ _ H) as (Hg & _).
  eapply wp_mono; [apply (kalloc_spec kend _ _ Hk)|]. intros r s' (Em & _ & Hr). split; [done|].
  destruct l as [|p l].
  - destruct Hr as [-> Hk']. split; [done|]. eapply aspace_frame; [exact H|done|set_solver|]. intros p _ x _. by rewrite Em.
  - destruct Hr as [-> Hk']. pose proof (ko_nodup _ _ _ Hk) as [Hpl _]%NoDup_cons. split_and!; try done.
    + eapply aspace_frame; [exact H|done| |intros q _ x _; by rewrite Em].
      intros q Hq Hw. apply (Hg q Hq). by right.
    + apply (ko_page _ _ _ Hk). by left.
    + intros Hw. apply (Hg p Hw). by left.
Qed.

(** Writing a page the space does not use. *)
Lemma aspace_scratch s l d tabs U p m' :
  aspace s l d tabs U -> good_page p -> p ∉ pages_of d tabs U -> p ∉ l -> touched [p] (k_mem s) m' ->
  aspace (set_mem m' s) l d tabs U.
Proof.
  intros H Hp Hn Hl HT. pose proof (aspace_sep _ _ _ _ _ _ H) as (Hg & _).
  assert (Hs : forall q, good_page q -> q <> p -> same_on q (k_mem s) m').
  { intros q Hq Hne. eapply touched_same; [exact HT|by intros ? ->%list_elem_of_singleton|done|set_solver]. }
  eapply aspace_frame; [exact H| |apply Hg|].
  - apply kmem_ok_write; [apply H|]. intros v Hv. apply Hs; [|congruence].
    by apply (ko_page _ _ _ (vs_kmem _ _ _ _ _ (as_v _ _ _ _ _ _ H))).
  - intros q Hq. assert (q ∈ pages_of d tabs U) as Hq' by (unfold pages_of; set_solver). apply Hs; [by apply Hg|congruence].
Qed.

(** What adding the pages [v .. vn - 1] does, when the new page [w] gets the
    flags [fl w] and the byte at [va] is [fill va]. *)
Record grew (fl : Z -> Z) (fill : Z -> option Z) (s : kmem) (l : list Z) (d : Z) (tabs U : gmap Z Z) (v vn : Z)
    (s' : kmem) (l' : list Z) (tabs' U' : gmap Z Z) : Prop := mk_grew {
  gr_space : aspace s' l' d tabs' U';
  gr_sub : U ⊆ U';
  gr_fresh : forall w, v <= w < vn -> U !! w = None;
  gr_new : forall w, v <= w < vn -> exists p, U' !! w = Some p /\ p ∈ l /\ pte_of (k_mem s') tabs' w = V2P p + fl w;
  gr_old : forall w, ~ (v <= w < vn) -> U' !! w = U !! w /\
    (0 <= w < 2 ^ 20 -> pte_of (k_mem s') tabs' w = pte_of (k_mem s) tabs w);
  gr_umem : forall va, umem (k_mem s') U' va =
    if decide (v <= va / 4096 < vn) then fill va else umem (k_mem s) U va;
  gr_tabs : tabs ⊆ tabs';
  gr_pages : vals tabs' ++ vals U' ++ l' ≡ₚ vals tabs ++ vals U ++ l;
  gr_touched : touched (d :: vals tabs ++ l) (k_mem s) (k_mem s')
}.

(** What an allocation that failed and was undone leaves; [U1] are the pages
    it keeps. *)
Record undone (s : kmem) (l : list Z) (d : Z) (tabs U U1 : gmap Z Z)
    (s' : kmem) (l' : list Z) (tabs' : gmap Z Z) : Prop := mk_undone {
  un_space : aspace s' l' d tabs' U1;
  un_pte : forall w, 0 <= w < 2 ^ 20 -> is_Some (U1 !! w) \/ UPAGES <= w ->
    pte_of (k_mem s') tabs' w = pte_of (k_mem s) tabs w;
  un_umem : forall va, umem (k_mem s') U1 va = umem (k_mem s) U1 va;
  un_tabs : tabs ⊆ tabs';
  un_pages : vals tabs' ++ vals U1 ++ l' ≡ₚ vals tabs ++ vals U ++ l;
  un_touched : touched (d :: vals tabs ++ vals U ++ l) (k_mem s) (k_mem s')
}.

(** Freeing pages of a space whose tables have grown since [s]. *)
Lemma freed_undone s l d tabs U s1 l1 tabs1 s2 U1 :
  aspace s l d tabs U -> aspace s1 l1 d tabs1 U -> grows tabs l tabs1 l1 ->
  same_ptes (k_mem s) tabs (k_mem s1) tabs1 ->
  touched (d :: vals tabs ++ l) (k_mem s) (k_mem s1) -> U1 ⊆ U ->
  freed kend s1 l1 d tabs1 U U1 s2 -> exists l2, undone s l d tabs U U1 s2 l2 tabs1.
Proof.
  intros H H1 Hg Hp HT Hs (F & H2 & HP & HT2 & Hp2). exists (F ++ l1).
  pose proof (aspace_sep _ _ _ _ _ _ H) as (Hgood & Hu & _). pose proof (aspace_sep _ _ _ _ _ _ H1) as (Hgood1 & Hu1 & _).
  split; [done|..].
  - intros w Hw Hc. rewrite Hp2 by done. by apply Hp.
  - intros va. apply umem_frame. intros p Hpv. assert (HpU : p ∈ vals U) by (rewrite HP; set_solver).
    assert (Hgp : good_page p) by by apply (as_good _ _ _ _ _ _ H).
    apply elem_of_vals in Hpv as (v & Hpv). pose proof (lookup_weaken _ _ _ _ Hpv Hs) as HpU'.
    pose proof (as_nodup _ _ _ _ _ _ H2) as Hnd.
    apply (same_on_trans p _ (k_mem s1)).
    + eapply touched_same; [exact HT| |done|].
      * intros q Hq. apply elem_of_cons in Hq as [->|[Hq|Hq]%elem_of_app]; [apply Hgood; by left|..].
        -- apply Hgood. unfold pages_of. set_solver.
        -- by apply (ko_page _ _ _ (vs_kmem _ _ _ _ _ (as_v _ _ _ _ _ _ H))).
      * destruct (Hu _ _ HpU') as (? & ? & _). destruct (Hgood p) as [_ ?]; [unfold pages_of; set_solver|]. set_solver.
    + eapply touched_same; [exact HT2| |done|].
      * intros q Hq. apply Hgood1. unfold pages_of. rewrite HP. set_solver.
      * destruct (Hu1 _ _ HpU') as (_ & ? & _). apply not_elem_of_app. split; [done|]. intros HpF.
        apply NoDup_cons in Hnd as [_ Hnd]. apply NoDup_app in Hnd as (_ & _ & Hnd). apply NoDup_app in Hnd as (_ & Hnd & _).
        apply (Hnd p); [apply elem_of_vals; eauto|]. apply elem_of_app. by left.
  - apply Hg.
  - rewrite HP. rewrite (app_assoc (vals U1)), (Permutation_app_comm (vals U1)).
    rewrite (Permutation_app_swap_app (vals tabs1)), (Permutation_app_swap_app (vals tabs)). by rewrite (proj2 Hg).
  - eapply touched_trans; [exact HT|exact HT2|set_solver|]. intros q Hq. apply elem_of_cons. right.
    apply elem_of_app in Hq as [Hq|Hq].
    + assert (q ∈ vals tabs ++ l) as Hq' by (apply (grows_elem _ _ _ _ _ Hg); set_solver). set_solver.
    + apply elem_of_app. right. apply elem_of_app. left. rewrite HP. set_solver.
Qed.

Lemma grew_refl fl fill s l d tabs U v vn : aspace s l d tabs U -> vn <= v -> grew fl fill s l d tabs U v vn s l tabs U.
Proof.
  intros H Hv. split; try done; try (intros; lia). intros va. by rewrite decide_False by lia.
Qed.

Lemma gr_elem fl fill s l d tabs U v w s1 l1 tabs1 U1 q :
  grew fl fill s l d tabs U v w s1 l1 tabs1 U1 -> q ∈ vals tabs1 ++ l1 -> aspace s l d tabs U -> q ∈ vals tabs ++ l.
Proof.
  intros HG Hq H. pose proof (gr_pages _ _ _ _ _ _ _ _ _ _ _ _ _ HG) as HP. pose proof (gr_space _ _ _ _ _ _ _ _ _ _ _ _ _ HG) as H1.
  assert (Hin : q ∈ vals tabs ++ vals U ++ l).
  { rewrite <- HP. set_solver. }
  rewrite !elem_of_app in Hin. destruct Hin as [?|[Hu|?]]; [set_solver| |set_solver].
  exfalso. apply elem_of_vals in Hu as (x & Hx). pose proof (lookup_weaken _ _ _ _ Hx (gr_sub _ _ _ _ _ _ _ _ _ _ _ _ _ HG)) as Hx1.
  pose proof (aspace_sep _ _ _ _ _ _ H1) as (Hg1 & Hu1 & _). destruct (Hu1 _ _ Hx1) as (_ & ? & ?).
  destruct (Hg1 q); [unfold pages_of; set_solver|]. set_solver.
Qed.

Lemma grew_trans fl fill s l d tabs U v w s1 l1 tabs1 U1 x s2 l2 tabs2 U2 :
  aspace s l d tabs U -> v <= w <= x ->
  grew fl fill s l d tabs U v w s1 l1 tabs1 U1 -> grew fl fill s1 l1 d tabs1 U1 w x s2 l2 tabs2 U2 ->
  grew fl fill s l d tabs U v x s2 l2 tabs2 U2.
Proof.
  intros H Hr A B. split.
  - apply B.
  - transitivity U1; [apply A|apply B].
  - intros y Hy. destruct (decide (y < w)); [apply A; lia|].
    rewrite <- (proj1 (gr_old _ _ _ _ _ _ _ _ _ _ _ _ _ A y ltac:(lia))). apply B. lia.
  - intros y Hy. destruct (decide (y < w)).
    + destruct (gr_new _ _ _ _ _ _ _ _ _ _ _ _ _ A y ltac:(lia)) as (p & Hp & Hl & Hpt).
      destruct (gr_old _ _ _ _ _ _ _ _ _ _ _ _ _ B y ltac:(lia)) as [E1 E2]. exists p. rewrite E1. split_and!; [done..|].
      rewrite E2; [done|]. pose proof (as_dom _ _ _ _ _ _ (gr_space _ _ _ _ _ _ _ _ _ _ _ _ _ A) _ _ Hp). unfold UPAGES in *. lia.
    + destruct (gr_new _ _ _ _ _ _ _ _ _ _ _ _ _ B y ltac:(lia)) as (p & Hp & Hl & Hpt). exists p. split_and!; [done| |done].
      assert (Hq : p ∈ vals tabs ++ l) by (eapply gr_elem; [exact A|set_solver|done]).
      apply elem_of_app in Hq as [Hq|?]; [|done]. exfalso.
      pose proof (aspace_sep _ _ _ _ _ _ (gr_space _ _ _ _ _ _ _ _ _ _ _ _ _ A)) as (Hg1 & _).
      destruct (Hg1 p) as [_ ?]; [|done]. unfold pages_of. apply elem_of_cons. right. apply elem_of_app. left.
      apply (vals_subseteq tabs tabs1); [apply A|done].
  - intros y Hy. destruct (gr_old _ _ _ _ _ _ _ _ _ _ _ _ _ A y ltac:(lia)) as [E1 E2].
    destruct (gr_old _ _ _ _ _ _ _ _ _ _ _ _ _ B y ltac:(lia)) as [E3 E4]. split; [congruence|]. intros Hb. by rewrite E4, E2.
  - intros va. rewrite (gr_umem _ _ _ _ _ _ _ _ _ _ _ _ _ B), (gr_umem _ _ _ _ _ _ _ _ _ _ _ _ _ A).
    repeat case_decide; try lia; done.
  - transitivity tabs1; [apply A|apply B].
  - rewrite (gr_pages _ _ _ _ _ _ _ _ _ _ _ _ _ B). apply A.
  - eapply touched_trans; [apply A|apply B|done|]. intros q [->|Hq]%elem_of_cons; [by left|]. right.
    by eapply gr_elem.
Qed.

Lemma grew_undone fl fill s l d tabs U v w s1 l1 tabs1 U1 U0 s2 l2 tabs2 :
  aspace s l d tabs U -> grew fl fill s l d tabs U v w s1 l1 tabs1 U1 -> U0 ⊆ U ->
  undone s1 l1 d tabs1 U1 U0 s2 l2 tabs2 -> undone s l d tabs U U0 s2 l2 tabs2.
Proof.
  intros H A Hs B. assert (Hout : forall y, is_Some (U0 !! y) -> ~ (v <= y < w)).
  { intros y [p Hp] Hy. pose proof (lookup_weaken _ _ _ _ Hp Hs) as Hp'.
    rewrite (gr_fresh _ _ _ _ _ _ _ _ _ _ _ _ _ A y Hy) in Hp'. done. }
  split.
  - apply B.
  - intros y Hy Hc. rewrite (un_pte _ _ _ _ _ _ _ _ _ B y Hy Hc).
    apply (gr_old _ _ _ _ _ _ _ _ _ _ _ _ _ A); [|done]. destruct Hc as [Hc|Hc]; [by apply Hout|].
    intros Hy'. destruct (gr_new _ _ _ _ _ _ _ _ _ _ _ _ _ A y Hy') as (p & Hp & _).
    pose proof (as_dom _ _ _ _ _ _ (gr_space _ _ _ _ _ _ _ _ _ _ _ _ _ A) _ _ Hp). lia.
  - intros va. rewrite (un_umem _ _ _ _ _ _ _ _ _ B). pose proof (gr_umem _ _ _ _ _ _ _ _ _ _ _ _ _ A va) as Hm.
    unfold umem in *. destruct (U0 !! (va / 4096)) as [p|] eqn:E; [|done].
    rewrite decide_False in Hm by (apply Hout; eauto). pose proof (lookup_weaken _ _ _ _ E Hs) as E1.
    pose proof (lookup_weaken _ _ _ _ E1 (gr_sub _ _ _ _ _ _ _ _ _ _ _ _ _ A)) as E2. by rewrite E1, E2 in Hm.
  - transitivity tabs1; [apply A|apply B].
  - rewrite (un_pages _ _ _ _ _ _ _ _ _ B). apply A.
  - eapply touched_trans; [apply A|apply B|set_solver|]. intros q [->|Hq]%elem_of_cons; [by left|]. right.
    by rewrite <- (gr_pages _ _ _ _ _ _ _ _ _ _ _ _ _ A).
Qed.

Lemma insert_insert_umem m U v p va : U !! v = None ->
  umem m (<[v := p]> U) va = if decide (va / 4096 = v) then Some (m (p + va mod 4096)) else umem m U va.
Proof.
  intros Hu. unfold umem. case_decide as E; [by rewrite E, lookup_insert_eq|by rewrite lookup_insert_ne].
Qed.

Lemma grew_one fl fill s p l d tabs U v s2 s3 l3 tabs3 :
  aspace s (p :: l) d tabs U -> U !! v = None -> 0 <= v < UPAGES ->
  touched [p] (k_mem s) (k_mem s2) ->
  (forall va, va / 4096 = v -> fill va = Some (k_mem s2 (p + va mod 4096))) -> aspace s2 l d tabs U ->
  grows tabs l tabs3 l3 -> touched (d :: vals tabs3) (k_mem s2) (k_mem s3) -> p ∉ vals tabs3 ->
  aspace s3 l3 d tabs3 (<[v := p]> U) ->
  (forall w, 0 <= w < 2 ^ 20 -> pte_of (k_mem s3) tabs3 w =
     if decide (w = v) then V2P p + fl v else pte_of (k_mem s2) tabs w) ->
  grew fl fill s (p :: l) d tabs U v (v + 1) s3 l3 tabs3 (<[v := p]> U).
Proof.
  intros H Hu Hv HT1 Hfill H2 Hg HT Hpt H3 Hpte.
  pose proof (aspace_sep _ _ _ _ _ _ H) as (Hgood & Hus & _). pose proof (aspace_sep _ _ _ _ _ _ H3) as (Hgood3 & Hu3 & _).
  assert (Hgp : good_page p) by (apply (ko_page _ _ _ (vs_kmem _ _ _ _ _ (as_v _ _ _ _ _ _ H))); by left).
  assert (Hpp : p ∉ pages_of d tabs U) by (intros Hw; apply (Hgood p Hw); by left).
  assert (Hsame : forall q, q ∈ pages_of d tabs U -> same_on q (k_mem s) (k_mem s2)).
  { intros q Hq. eapply touched_same; [exact HT1|by intros ? ->%list_elem_of_singleton|by apply Hgood|].
    intros ->%list_elem_of_singleton. done. }
  assert (Hg3 : forall q, q ∈ d :: vals tabs3 -> good_page q) by (intros q Hq; apply Hgood3; unfold pages_of; set_solver).
  assert (Hsame3 : forall q, q ∈ vals (<[v := p]> U) -> same_on q (k_mem s2) (k_mem s3)).
  { intros q Hq. eapply touched_same; [exact HT|done|by apply (as_good _ _ _ _ _ _ H3)|].
    apply elem_of_vals in Hq as (w & Hw). destruct (Hu3 _ _ Hw) as (? & ? & _). set_solver. }
  split; [done|by apply insert_subseteq|..].
  - intros w Hw. by replace w with v by lia.
  - intros w Hw. replace w with v by lia. exists p. rewrite lookup_insert_eq. split_and!; [done|by left|].
    unfold UPAGES in Hv. rewrite Hpte by lia. by rewrite decide_True.
  - intros w Hw. rewrite lookup_insert_ne by lia. split; [done|]. intros Hr. rewrite Hpte, decide_False by lia.
    apply pte_frame; [lia|]. intros t Ht. apply Hsame. unfold pages_of. set_solver.
  - intros va. rewrite (umem_frame (k_mem s2) (k_mem s3)) by done. rewrite insert_insert_umem by done.
    case_decide; case_decide; try lia.
    + symmetry. by apply Hfill.
    + apply umem_frame. intros q Hq. apply Hsame. unfold pages_of. set_solver.
  - apply Hg.
  - rewrite (vals_insert _ _ _ Hu). simpl. rewrite <- !Permutation_middle. constructor.
    rewrite (Permutation_app_swap_app (vals tabs3)), (Permutation_app_swap_app (vals tabs)). by rewrite (proj2 Hg).
  - eapply touched_trans; [exact HT1|exact HT|set_solver|]. intros q [->|Hq]%elem_of_cons; [by left|]. right.
    assert (q ∈ vals tabs ++ l) as Hq' by (apply (grows_elem _ _ _ _ _ Hg); set_solver). set_solver.
Qed.

Lemma trim_sub U v sz : trim U v sz ⊆ U.
Proof. apply map_filter_subseteq. Qed.
Lemma trim_insert U v v0 sz p : v0 <= v -> 4096 * v < sz -> trim (<[v := p]> U) v0 sz = trim (delete v U) v0 sz.
Proof.
  intros H1 H2. apply map_eq. intros w. apply option_eq. intros q. rewrite !trim_lookup, lookup_insert_Some, lookup_delete_Some.
  split; [intros [[[<- _]|[? ?]] ?]; [lia|naive_solver]|naive_solver].
Qed.
Lemma trim_insert_fresh U v v0 sz p : U !! v = None -> v0 <= v -> 4096 * v < sz -> trim (<[v := p]> U) v0 sz = trim U v0 sz.
Proof. intros Hu H1 H2. rewrite trim_insert by done. by rewrite delete_id. Qed.

(** Giving back the page [p] the caller took and could not map. *)
Lemma undone_return s p l d tabs U U1 s2 s4 l4 tabs4 :
  aspace s (p :: l) d tabs U -> k_mem s2 = memset (k_mem s) p 0 PGSIZE -> undone s2 l d tabs U U1 s4 l4 tabs4 ->
  wp (kfree kend p) s4 (fun _ s5 => undone s (p :: l) d tabs U U1 s5 (p :: l4) tabs4).
Proof.
  intros H Em HU. pose proof (un_space _ _ _ _ _ _ _ _ _ HU) as H4. pose proof (un_pages _ _ _ _ _ _ _ _ _ HU) as HP.
  pose proof (aspace_sep _ _ _ _ _ _ H) as (Hgood & _).
  assert (Hgp : good_page p) by (apply (ko_page _ _ _ (vs_kmem _ _ _ _ _ (as_v _ _ _ _ _ _ H))); by left).
  assert (Hpp : p ∉ pages_of d tabs U) by (intros Hw; apply (Hgood p Hw); by left).
  pose proof (ko_nodup _ _ _ (vs_kmem _ _ _ _ _ (as_v _ _ _ _ _ _ H))) as [Hpl _]%NoDup_cons.
  assert (Hn : p ∉ vals tabs4 ++ vals U1 ++ l4) by (rewrite HP; unfold pages_of in Hpp; set_solver).
  assert (Hn4 : p ∉ pages_of d tabs4 U1) by (unfold pages_of in *; set_solver).
  pose proof (aspace_sep _ _ _ _ _ _ H4) as (Hgood4 & _).
  eapply wp_mono; [apply (kfree_ok kend s4 l4 p); [apply H4|done|set_solver]|]. intros [] s5 [Hk5 Hm5].
  assert (HT5 : touched [p] (k_mem s4) (k_mem s5)) by (intros x Hx; apply Hm5, Hx; by left).
  assert (HT1 : touched [p] (k_mem s) (k_mem s2)) by (rewrite Em; apply touched_memset).
  assert (Hsame5 : forall q, q ∈ pages_of d tabs4 U1 -> same_on q (k_mem s4) (k_mem s5)).
  { intros q Hq. eapply touched_same; [exact HT5|by intros ? ->%list_elem_of_singleton|by apply Hgood4|].
    intros ->%list_elem_of_singleton. done. }
  assert (Hsame1 : forall q, q ∈ pages_of d tabs U -> same_on q (k_mem s) (k_mem s2)).
  { intros q Hq. eapply touched_same; [exact HT1|by intros ? ->%list_elem_of_singleton|by apply Hgood|].
    intros ->%list_elem_of_singleton. done. }
  split.
  - eapply aspace_frame; [exact H4|done| |].
    + intros q Hq [->|Hw]%elem_of_cons; [done|]. by apply (Hgood4 q Hq).
    + intros q Hq. apply Hsame5. unfold pages_of. set_solver.
  - intros w Hw Hc. rewrite (pte_frame (k_mem s4)); [|lia|intros t Ht; apply Hsame5; unfold pages_of; set_solver].
    rewrite (un_pte _ _ _ _ _ _ _ _ _ HU w Hw Hc). apply pte_frame; [lia|]. intros t Ht. apply Hsame1. unfold pages_of. set_solver.
  - intros va. rewrite (umem_frame (k_mem s4) (k_mem s5)) by (intros q Hq; apply Hsame5; unfold pages_of; set_solver).
    rewrite (un_umem _ _ _ _ _ _ _ _ _ HU). apply umem_frame. intros q Hq.
    assert (Hq' : q ∈ vals tabs ++ vals U ++ l) by (rewrite <- HP; set_solver).
    eapply touched_same; [exact HT1|by intros ? ->%list_elem_of_singleton|by apply (as_good _ _ _ _ _ _ H4)|].
    intros ->%list_elem_of_singleton. unfold pages_of in Hn4. set_solver.
  - apply HU.
  - rewrite <- !Permutation_middle. by constructor.
  - set (R := d :: vals tabs ++ vals U ++ p :: l).
    eapply (touched_trans R [p] R); [eapply (touched_trans [p] (d :: vals tabs ++ vals U ++ l) R); [exact HT1|apply HU|..]|exact HT5|..];
      unfold R; clear; set_solver.
Qed.
End user.
