(* ===== verification/VmAlloc.v ===== *)
(** * Growing and copying user memory: [allocuvm], [setupkvm], [copyuvm],
    [copyout] of [vm.c]

    What the four routines do to the address spaces, on success and when
    memory runs out. *)

From S2P Require Import Prelude CString Mmu Kalloc Vm VmSpec VmUser.

Section alloc.
Context (kend : Z) (kend_high : KERNBASE < kend).
Abbreviation aspace := (aspace kend).
Abbreviation good_page := (good_page kend).
Abbreviation grew := (grew kend (fun _ => 7) (fun _ => Some 0)).
Abbreviation undone := (undone kend).

(** ** [allocuvm] *)

Lemma memset_page m p va : Some 0 = Some (memset m p 0 PGSIZE (p + va mod 4096)).
Proof.
  rewrite memset_at by (unfold PGSIZE; lia). pose proof (Z.mod_pos_bound va 4096).
  by rewrite bool_decide_eq_true_2 by (unfold PGSIZE; lia).
Qed.

Lemma alloc_loop_spec n : forall s l d tabs U v oldsz newsz,
  aspace s l d tabs U -> 0 <= oldsz <= newsz -> newsz < KERNBASE -> first_page oldsz <= v <= first_page newsz ->
  first_page newsz <= v + Z.of_nat n ->
  (forall w, v <= w < first_page newsz -> U !! w = None) ->
  wp (alloc_loop kend n d (4096 * v) oldsz newsz) s (fun r s' =>
    (r = newsz /\ exists l' tabs' U', grew s l d tabs U v (first_page newsz) s' l' tabs' U') \/
    (r = 0 /\ (exists l' tabs', undone s l d tabs U (trim U (first_page oldsz) newsz) s' l' tabs') /\
     Z.of_nat (length (vals tabs) + length l) <= 1024 + (first_page newsz - v))).
Proof.
  induction n as [|n IH]; intros s l d tabs U v oldsz newsz H Ho Hk Hv Hn Hfree; cbn [alloc_loop];
    assert (Hk' : newsz < 2 ^ 31) by exact Hk;
    assert (Hfp : 4096 * first_page newsz < newsz + 4096 /\ newsz <= 4096 * first_page newsz /\ 0 <= first_page oldsz)
      by (unfold first_page; pose proof (Z_div_mod_eq_full (newsz + 4095) 4096);
          pose proof (Z.mod_pos_bound (newsz + 4095) 4096); pose proof (Z.div_pos (oldsz + 4095) 4096); lia).
  { rewrite (proj2 (Z.ltb_ge _ _)) by lia. wp_step. left. split; [done|]. exists l, tabs, U. apply grew_refl; [done|lia]. }
  destruct (Z.ltb_spec (4096 * v) newsz) as [Hlt|Hge].
  2:{ wp_step. left. split; [done|]. exists l, tabs, U. apply grew_refl; [done|lia]. }
  assert (Hvf : v < first_page newsz) by lia. assert (Hvu : 0 <= v < UPAGES) by (unfold UPAGES; lia).
  assert (Hvn : U !! v = None) by (apply Hfree; lia).
  pose proof (tabs_bound kend _ _ _ _ (as_v _ _ _ _ _ _ H)) as Htb.
  wp_step. eapply wp_mono; [by apply take_page|]. intros r s1 [Em1 Hr]. destruct l as [|p l].
  { destruct Hr as [-> H1]. simpl. wp_step. eapply wp_mono; [apply (deallocuvm_spec kend kend_high s1 [] d tabs U newsz oldsz H1); [lia|by apply Z.lt_le_incl]|].
    intros r s2 [_ Hf]. wp_step. right. split_and!; [done| |simpl; lia].
    destruct (freed_undone kend s [] d tabs U s1 [] tabs s2 (trim U (first_page oldsz) newsz) H H1 (grows_refl _ _)) as [l2 ?]; [rewrite Em1..| |exact Hf|by eauto].
    - by intros w.
    - apply touched_refl.
    - apply trim_sub. }
  destruct Hr as (-> & H1 & Hgp & Hpp & Hpl). rewrite (good_ne_0 kend p Hgp). unfold kmemset. wp_steps.
  set (s2 := set_mem (memset (k_mem s1) p 0 PGSIZE) s1).
  assert (H2 : aspace s2 l d tabs U) by (eapply aspace_scratch; [exact H1|done..|apply touched_memset]).
  eapply wp_mono; [apply (map_user kend s2 l d tabs U v p _ H2 Hvu Hvn Hgp Hpp Hpl); change (Z.lor PTE_W PTE_U) with 6; lia|].
  change (Z.lor (Z.lor PTE_W PTE_U) 1) with 7.
  intros r s3 (tabs3 & l3 & Hg & HT & Hp3 & Hpl3 & [(-> & H3 & Hpte)|(-> & -> & H3 & Hpte)]).
  - cbn [Z.ltb Z.compare].
    assert (HG : grew s (p :: l) d tabs U v (v + 1) s3 l3 tabs3 (<[v := p]> U))
      by (eapply (grew_one kend _ _ s p l d tabs U v s2); [done|done|done|..|done|done|done|done|done|done];
          [unfold s2; simpl; rewrite Em1; apply touched_memset|intros va _; by apply memset_page]).
    replace (u32 (4096 * v + PGSIZE)) with (4096 * (v + 1)) by (unfold PGSIZE; rewrite u32_id; lia).
    eapply wp_mono; [apply (IH s3 l3 d tabs3 (<[v := p]> U) (v + 1) oldsz newsz H3 Ho Hk); [lia|lia|]|].
    + intros w Hw. rewrite lookup_insert_ne by lia. apply Hfree. lia.
    + intros r s4 [(-> & l4 & tabs4 & U4 & HG4)|(-> & (l4 & tabs4 & HU4) & Hlen)].
      * left. split; [done|]. exists l4, tabs4, U4. eapply grew_trans; [exact H| |exact HG|exact HG4]. lia.
      * right. split_and!; [done| |].
        -- exists l4, tabs4. rewrite trim_insert_fresh in HU4 by (done || lia).
           eapply grew_undone; [exact H|exact HG|apply trim_sub|exact HU4].
        -- pose proof (Permutation_length (proj2 Hg)) as HL. rewrite !length_app in HL. simpl. lia.
  - cbn [Z.ltb Z.compare]. wp_step.
    eapply wp_mono; [apply (deallocuvm_spec kend kend_high s3 [] d tabs3 U newsz oldsz H3); [lia|by apply Z.lt_le_incl]|].
    intros r s4 [_ Hf]. destruct (freed_undone kend s2 l d tabs U s3 [] tabs3 s4 (trim U (first_page oldsz) newsz) H2 H3 Hg Hpte) as [l4 HU]; [| |exact Hf|].
    + eapply touched_mono; [exact HT|]. intros q [->|Hq]%elem_of_cons; [by left|]. right.
      apply (grows_elem _ _ _ _ _ Hg). apply elem_of_app. by left.
    + apply trim_sub.
    + wp_step. eapply wp_mono; [apply (undone_return kend s p l d tabs U (trim U (first_page oldsz) newsz) s2 s4 l4 tabs3 H); [unfold s2; simpl; by rewrite Em1|exact HU]|].
      intros [] s5 HU5. wp_step. right. split_and!; [done|by eauto|].
      pose proof (Permutation_length (proj2 Hg)) as HL. rewrite !length_app in HL. simpl in *.
      pose proof (tabs_bound kend _ _ _ _ (as_v _ _ _ _ _ _ H3)). lia.
Qed.

Lemma allocuvm_spec s l d tabs U oldsz newsz :
  aspace s l d tabs U -> 0 <= oldsz <= newsz -> newsz < KERNBASE ->
  (forall w, first_page oldsz <= w < first_page newsz -> U !! w = None) ->
  wp (allocuvm kend d oldsz newsz) s (fun r s' =>
    (r = newsz /\ exists l' tabs' U', grew s l d tabs U (first_page oldsz) (first_page newsz) s' l' tabs' U') \/
    (r = 0 /\ (exists l' tabs', undone s l d tabs U U s' l' tabs') /\
     Z.of_nat (length (vals tabs) + length l) <= 1024 + (first_page newsz - first_page oldsz))).
Proof.
  intros H Ho Hk Hfree. assert (Hk' : newsz < 2 ^ 31) by exact Hk. unfold allocuvm.
  rewrite (proj2 (Z.leb_gt _ _)) by done. rewrite (proj2 (Z.ltb_ge _ _)) by lia. rewrite PGROUNDUP_eq by lia.
  fold (first_page oldsz).
  assert (Hfp : first_page oldsz <= first_page newsz) by (apply Z.div_le_mono; lia).
  assert (Ht : trim U (first_page oldsz) newsz = U).
  { rewrite (trim_skip U _ (first_page newsz)); [|done|intros w Hw _; by apply Hfree]. apply trim_all.
    unfold first_page. pose proof (Z_div_mod_eq_full (newsz + 4095) 4096). pose proof (Z.mod_pos_bound (newsz + 4095) 4096). lia. }
  eapply wp_mono; [apply (alloc_loop_spec _ s l d tabs U); try done|].
  - unfold first_page, PGSIZE. pose proof (Z.div_pos (oldsz + 4095) 4096). pose proof (Z.div_pos newsz 4096).
    pose proof (Z_div_mod_eq_full (newsz + 4095) 4096). pose proof (Z_div_mod_eq_full newsz 4096).
    pose proof (Z.mod_pos_bound (newsz + 4095) 4096). pose proof (Z.mod_pos_bound newsz 4096). lia.
  - by rewrite Ht.
Qed.

(** ** [setupkvm] *)

Definition ksize (k : kmap) : Z := u32 (phys_end k - phys_start k).
(** Virtual page [w] belongs to the range of [k]. *)
Definition covers (k : kmap) (w : Z) : Prop := virt k / 4096 <= w < virt k / 4096 + ksize k / 4096.
#[local] Instance covers_dec k w : Decision (covers k w).
Proof. unfold covers. apply _. Defined.

(** A range of the kernel's part, in whole pages and not for users. *)
Record kvalid (k : kmap) : Prop := mk_kvalid {
  kv_virt : KERNBASE <= virt k /\ virt k + ksize k <= 2 ^ 32;
  kv_align : virt k mod 4096 = 0 /\ ksize k mod 4096 = 0 /\ phys_start k mod 4096 = 0;
  kv_size : 0 < ksize k;
  kv_phys : 0 <= phys_start k < 2 ^ 32;
  kv_perm : 0 <= km_perm k < 4096 /\ Z.land (km_perm k) PTE_U = 0
}.

(** The entry the table of ranges prescribes for page [w]. *)
Fixpoint kpte (ks : list kmap) (w old : Z) : Z :=
  match ks with
  | [] => old
  | k :: ks => if decide (covers k w) then entry (phys_start k) (km_perm k) (w - virt k / 4096) else kpte ks w old
  end.

Lemma entry_not_user pa perm k : pa mod 4096 = 0 -> Z.land perm PTE_U = 0 -> has_flag (entry pa perm k) PTE_U = false.
Proof.
  intros Hpa Hp. unfold has_flag, entry. rewrite !Z.land_lor_distr_l, Hp.
  change (Z.land PTE_P PTE_U) with 0. rewrite !Z.lor_0_r. apply negb_false_iff, Z.eqb_eq.
  assert (Hm : u32 (pa + PGSIZE * k) mod 4096 = 0).
  { unfold u32. rewrite Z.mod_mod_divide by (exists (2 ^ 20); lia). unfold PGSIZE.
    rewrite (Z.mul_comm 4096), Z.mod_add by lia. done. }
  apply Z.bits_inj'. intros n Hn. rewrite Z.land_spec, Z.bits_0. destruct (decide (n < 12)).
  - rewrite <- (Z.mod_pow2_bits_low _ 12 n) by lia. change (2 ^ 12) with 4096. by rewrite Hm, Z.bits_0.
  - assert (Z.testbit PTE_U n = false) as ->; [|by rewrite andb_false_r]. unfold PTE_U.
    apply Z.bits_above_log2; [lia|]. simpl. lia.
Qed.

Lemma mapped_aspace s l d tabs v j pa perm s' tabs' l' :
  aspace s l d tabs ∅ -> mapped kend s tabs l d v j pa perm s' tabs' l' -> UPAGES <= v ->
  pa mod 4096 = 0 -> Z.land perm PTE_U = 0 -> aspace s' l' d tabs' ∅.
Proof.
  intros H [M1 M2 M3 M4] Hv Hpa Hperm. split; [done|..]; unfold UPAGES in *.
  - rewrite vals_empty. apply M1.
  - intros p. rewrite vals_empty. by intros ?%elem_of_nil.
  - intros w p. by rewrite lookup_empty.
  - intros w Hw. unfold UPAGES in Hw. rewrite M3, decide_False by lia. by apply (as_pte _ _ _ _ _ _ H).
  - intros w Hw. unfold UPAGES in Hw. rewrite M3 by lia. case_decide; [by apply entry_not_user|by apply (as_kern _ _ _ _ _ _ H)].
Qed.

Lemma kvalid_pages k : kvalid k ->
  (virt k + ksize k - 1) / 4096 - virt k / 4096 + 1 = ksize k / 4096 /\ UPAGES <= virt k / 4096 /\ 0 < ksize k / 4096.
Proof.
  intros [[H1 H2] (H3 & H4 & _) H5 _ _]. unfold UPAGES, KERNBASE in *.
  pose proof (Z_div_mod_eq_full (virt k) 4096). pose proof (Z_div_mod_eq_full (ksize k) 4096).
  assert (E : (virt k + ksize k - 1) / 4096 = virt k / 4096 + ksize k / 4096 - 1).
  { symmetry. apply (Z.div_unique_pos _ _ _ 4095); lia. }
  split_and!; lia.
Qed.

Lemma kvalid_covers k w : kvalid k -> covers k w -> 0 <= w < 2 ^ 20.
Proof.
  intros Hk. destruct (kvalid_pages k Hk) as (_ & Hu & _). destruct Hk as [[_ H2] (H3 & H4 & _) _ _ _]. unfold covers, UPAGES in *.
  pose proof (Z_div_mod_eq_full (virt k) 4096). pose proof (Z_div_mod_eq_full (ksize k) 4096). lia.
Qed.
Lemma kpte_none ks w old : (forall k, k ∈ ks -> ~ covers k w) -> kpte ks w old = old.
Proof.
  induction ks as [|k ks IH]; intros H; [done|]. cbn [kpte]. rewrite decide_False by (apply H; by left).
  apply IH. intros k' Hk'. apply H. by right.
Qed.

(** The directory entries the ranges need. *)
Definition table_for (ks : list kmap) (i : Z) : Prop := exists k w, k ∈ ks /\ covers k w /\ i = w / 1024.
Lemma table_for_cons k ks i : table_for (k :: ks) i <-> (exists w, covers k w /\ i = w / 1024) \/ table_for ks i.
Proof.
  unfold table_for. split.
  - intros (k' & w & [->|Hk]%elem_of_cons & Hw); [left|right]; eauto.
  - intros [(w & Hw)|(k' & w & Hk & Hw)]; [exists k, w|exists k', w]; split; auto using list_elem_of_here, list_elem_of_further.
Qed.

Lemma map_all_spec ks : forall s l d tabs,
  aspace s l d tabs ∅ -> Forall kvalid ks -> ForallOrdPairs (fun k k' => forall w, covers k w -> ~ covers k' w) ks ->
  (forall k w, k ∈ ks -> covers k w -> has_flag (pte_of (k_mem s) tabs w) PTE_P = false) ->
  wp (map_all kend d ks) s (fun r s' =>
    (r = 0 /\ exists l', kmem_ok kend s' l' /\ l' ≡ₚ d :: vals tabs ++ l /\
       (exists T : gmap Z Z, vals T ≡ₚ vals tabs ++ l /\
          forall i, is_Some (T !! i) -> is_Some (tabs !! i) \/ table_for ks i) /\
       touched (d :: vals tabs ++ l) (k_mem s) (k_mem s')) \/
    (r = d /\ exists tabs' l', aspace s' l' d tabs' ∅ /\ grows tabs l tabs' l' /\
       (forall w, 0 <= w < 2 ^ 20 -> pte_of (k_mem s') tabs' w = kpte ks w (pte_of (k_mem s) tabs w)) /\
       touched (d :: vals tabs ++ l) (k_mem s) (k_mem s') /\
       (forall i, is_Some (tabs' !! i) <-> is_Some (tabs !! i) \/ table_for ks i))).
Proof.
  induction ks as [|k ks IH]; intros s l d tabs H Hv Hdis Hfree; cbn [map_all].
  { wp_step. right. split; [done|]. exists tabs, l. split_and!; try done. intros i. split; [by left|].
    intros [?|(k & w & ?%elem_of_nil & _)]; done. }
  apply Forall_cons in Hv as [Hk Hv]. inversion Hdis as [|? ? Hd1 Hd2]; subst. rewrite Forall_forall in Hd1.
  destruct (kvalid_pages k Hk) as (Ek & Hku & Hkp). destruct Hk as [[K1 K2] (K3 & K4 & K5) K6 K7 [K8 K9]].
  unfold KERNBASE in K1. wp_step.
  eapply wp_mono; [apply (mappages_spec kend s l d tabs (virt k) (ksize k)); try done; [apply H|lia|]|].
  { intros w Hw. apply (Hfree k w); [by left|]. unfold covers. lia. }
  intros r s1 (tabs1 & l1 & j & HM & Hres).
  pose proof (mapped_aspace _ _ _ _ _ _ _ _ _ _ _ H HM Hku K5 K9) as H1. destruct HM as [M1 M2 M3 M4 M5].
  assert (HT1 : touched (d :: vals tabs ++ l) (k_mem s) (k_mem s1)).
  { eapply touched_mono; [exact M4|]. intros q [->|Hq]%elem_of_cons; [by left|]. right.
    apply (grows_elem _ _ _ _ _ M2). apply elem_of_app. by left. }
  destruct Hres as [[-> ->]|(-> & Hj & ->)]; cbn [Z.ltb Z.compare].
  - rewrite Ek in M3.
    assert (M3' : forall w, 0 <= w < 2 ^ 20 -> pte_of (k_mem s1) tabs1 w =
      if decide (covers k w) then entry (phys_start k) (km_perm k) (w - virt k / 4096) else pte_of (k_mem s) tabs w).
    { intros w Hw. rewrite M3 by done. unfold covers. by repeat case_decide. }
    eapply wp_mono; [apply (IH s1 l1 d tabs1 H1 Hv Hd2)|].
    + intros k' w Hk' Hw. assert (Hnk : ~ covers k w) by (intros Hw'; by apply (Hd1 k' Hk' w)).
      rewrite M3', decide_False; [apply (Hfree k'); [by right|done]|done|].
      rewrite Forall_forall in Hv. eapply kvalid_covers; [by apply Hv|done].
    + rewrite Ek in M5. fold (covers k) in M5.
      intros r s2 [(-> & l2 & Hk2 & HP2 & (T & HT & HD) & HT2)|(-> & tabs2 & l2 & H2 & G2 & P2 & HT2 & D2)].
      * left. split; [done|]. exists l2. split_and!; [done| | |].
        -- by rewrite HP2, (proj2 M2).
        -- exists T. rewrite HT, (proj2 M2). split; [done|]. intros i Hi. rewrite table_for_cons.
           apply HD in Hi as [Hi|?]; [|by right; right]. apply M5 in Hi as [?|?]; [by left|right; by left].
        -- eapply touched_trans; [exact HT1|exact HT2|done|]. intros q. by rewrite (proj2 M2).
      * right. split; [done|]. exists tabs2, l2. split_and!; [done|by eapply grows_trans|..].
        -- intros w Hw. rewrite P2, M3' by done. cbn [kpte]. case_decide as Hc; [|done]. apply kpte_none.
           intros k' Hk' Hw'. by apply (Hd1 k' Hk' w).
        -- eapply touched_trans; [exact HT1|exact HT2|done|]. intros q. by rewrite (proj2 M2).
        -- intros i. rewrite D2, M5, table_for_cons. unfold covers. tauto.
  - wp_step. eapply wp_mono; [by apply (freevm_spec kend kend_high s1 [] d tabs1 ∅)|].
    intros [] s2 (l2 & Hk2 & HP2 & HT2). wp_step. left. split; [done|]. exists l2.
    unfold pages_of in *. rewrite vals_empty, !app_nil_r in *.
    pose proof (proj2 M2) as HP. rewrite app_nil_r in HP. split_and!; [done| | |].
    + by rewrite HP2, HP.
    + exists tabs1. split; [done|]. intros i. rewrite M5, table_for_cons. intros [?|(w & Hw & ->)]; [by left|right; left].
      exists w. split; [unfold covers; lia|done].
    + eapply touched_trans; [exact HT1|exact HT2|done|]. intros q. by rewrite HP.
Qed.

(** The kernel's data starts on a page above its text. *)
Context (kdata : Z) (kdata_ok : kdata mod 4096 = 0 /\ KERNLINK < kdata < KERNBASE + PHYSTOP).

Lemma ksizes : ksize <$> kmaps kdata = [EXTMEM; kdata - KERNLINK; PHYSTOP - (kdata - KERNBASE); 0x2000000].
Proof.
  destruct kdata_ok as [_ Hr]. unfold KERNLINK, KERNBASE, PHYSTOP, EXTMEM in *. unfold kmaps, ksize. simpl.
  unfold V2P, KERNLINK, KERNBASE, PHYSTOP, EXTMEM. rewrite (u32_id (kdata - _)) by lia.
  change (u32 1048576) with 1048576. change (u32 (-4261412864)) with 33554432.
  change (u32 (2147483648 + 1048576 - 2147483648)) with 1048576.
  rewrite !u32_id by lia. repeat (f_equal; try lia).
Qed.

Lemma kmaps_valid : Forall kvalid (kmaps kdata) /\
  ForallOrdPairs (fun k k' => forall w, covers k w -> ~ covers k' w) (kmaps kdata).
Proof.
  pose proof ksizes as Hs. unfold kmaps in *. cbn [fmap list_fmap] in Hs. injection Hs as E2 E3.
  assert (E1 : ksize (mkkmap KERNBASE 0 EXTMEM PTE_W) = EXTMEM) by reflexivity.
  assert (E4 : ksize (mkkmap DEVSPACE DEVSPACE 0 PTE_W) = 0x2000000) by reflexivity.
  destruct kdata_ok as [Hm Hr]. unfold KERNLINK, KERNBASE, PHYSTOP, EXTMEM, DEVSPACE in *.
  assert (EV : V2P kdata = kdata - 2147483648) by (unfold V2P, KERNBASE; rewrite u32_id; lia).
  pose proof (Z_div_mod_eq_full kdata 4096) as Ed.
  assert (M1 : (kdata - (2147483648 + 1048576)) mod 4096 = 0) by (rewrite Zminus_mod, Hm; done).
  assert (M2 : (234881024 - (kdata - 2147483648)) mod 4096 = 0).
  { replace (234881024 - (kdata - 2147483648)) with (581632 * 4096 - kdata) by lia. rewrite Zminus_mod, Hm, Z.mod_mul by lia. done. }
  assert (M3 : (kdata - 2147483648) mod 4096 = 0) by (rewrite Zminus_mod, Hm; done).
  split.
  - repeat apply Forall_cons_2; [..|apply Forall_nil_2]; split; rewrite ?E1, ?E2, ?E3, ?E4; simpl; rewrite ?EV;
      unfold KERNBASE, PTE_W, PTE_U; split_and?; try done; try lia; vm_compute; (done || split; done).
  - pose proof (Z_div_mod_eq_full (kdata - (2147483648 + 1048576)) 4096) as D1.
    pose proof (Z_div_mod_eq_full (234881024 - (kdata - 2147483648)) 4096) as D2. rewrite M1 in D1. rewrite M2 in D2. rewrite Hm in Ed.
    repeat apply FOP_cons; repeat apply Forall_cons_2; try apply Forall_nil_2; try apply FOP_nil;
      intros w; unfold covers; rewrite ?E1, ?E2, ?E3, ?E4; cbn [virt];
      change (2147483648 / 4096) with 524288; change ((2147483648 + 1048576) / 4096) with 524544;
      change (4261412864 / 4096) with 1040384; change (1048576 / 4096) with 256; lia.
Qed.

(** A zeroed page is an empty directory. *)
Lemma empty_space s d l :
  kmem_ok kend s l -> good_page d -> d ∉ l -> let s' := set_mem (memset (k_mem s) d 0 PGSIZE) s in aspace s' l d ∅ ∅.
Proof.
  intros Hk Hd Hn s'. assert (H0 : forall m v, pte_of m ∅ v = 0) by (intros; unfold pte_of; by rewrite lookup_empty).
  assert (Hnd : NoDup (d :: l)) by (constructor; [done|apply Hk]).
  split; [split|..]; rewrite ?vals_empty; try done; try (intros ? ?; by rewrite lookup_empty).
  - apply kmem_ok_write; [done|]. intros v Hv. eapply touched_same; [apply touched_memset| |by apply (ko_page _ _ _ Hk)|].
    + by intros q ->%list_elem_of_singleton.
    + intros ->%list_elem_of_singleton. done.
  - by intros v ->%list_elem_of_singleton.
  - intros i Hi. rewrite lookup_empty. by apply memset_zero_load.
  - by intros p ?%elem_of_nil.
Qed.

(** The directory entries of the kernel's part. *)
Definition ktables : list Z := seqZ 512 56 ++ seqZ 1016 8.
Lemma ktables_elem i : i ∈ ktables <-> 512 <= i < 568 \/ 1016 <= i < 1024.
Proof. unfold ktables. rewrite elem_of_app, !elem_of_seqZ. lia. Qed.

Lemma table_for_kmaps i : table_for (kmaps kdata) i <-> i ∈ ktables.
Proof.
  pose proof ksizes as Hs. unfold kmaps in Hs. cbn [fmap list_fmap] in Hs. injection Hs as E2 E3.
  assert (E1 : ksize (mkkmap KERNBASE 0 EXTMEM PTE_W) = EXTMEM) by reflexivity.
  assert (E4 : ksize (mkkmap DEVSPACE DEVSPACE 0 PTE_W) = 0x2000000) by reflexivity.
  destruct kdata_ok as [Hm Hr]. unfold KERNLINK, KERNBASE, PHYSTOP, EXTMEM, DEVSPACE in *.
  pose proof (Z_div_mod_eq_full kdata 4096) as Ed. rewrite Hm in Ed. set (q := kdata / 4096) in *.
  assert (Hq2 : (kdata - (2147483648 + 1048576)) / 4096 = q - 524544).
  { symmetry. apply (Z.div_unique_pos _ _ _ 0); lia. }
  assert (Hq3 : (234881024 - (kdata - 2147483648)) / 4096 = 581632 - q).
  { symmetry. apply (Z.div_unique_pos _ _ _ 0); lia. }
  assert (Hc : table_for (kmaps kdata) i <-> exists w, i = w / 1024 /\ (524288 <= w < 581632 \/ 1040384 <= w < 1048576)).
  { unfold kmaps, KERNLINK, KERNBASE, EXTMEM, DEVSPACE, PHYSTOP. rewrite !table_for_cons. unfold covers.
    rewrite E1, E2, E3, E4, Hq2, Hq3. cbn [virt]. fold q. change (2147483648 / 4096) with 524288.
    change ((2147483648 + 1048576) / 4096) with 524544. change (4261412864 / 4096) with 1040384.
    change (1048576 / 4096) with 256. change (33554432 / 4096) with 8192. split.
    - intros [(w & Hw & ->)|[(w & Hw & ->)|[(w & Hw & ->)|[(w & Hw & ->)|(? & ? & ?%elem_of_nil & _)]]]];
        [..|done]; exists w; (split; [done|lia]).
    - intros (w & -> & Hw). destruct (decide (w < 524544)); [left; exists w; split; [lia|done]|right].
      destruct (decide (w < q)); [left; exists w; split; [lia|done]|right].
      destruct (decide (w < 581632)); [left; exists w; split; [lia|done]|right]. left. exists w. split; [lia|done]. }
  rewrite Hc, ktables_elem. split.
  - intros (w & -> & Hw). pose proof (Z_div_mod_eq_full w 1024). pose proof (Z.mod_pos_bound w 1024). lia.
  - intros Hi. exists (i * 1024). rewrite Z.div_mul by lia. split; [done|]. lia.
Qed.

(** [setupkvm] succeeds when 66 pages are free: the directory and the 64
    tables of the kernel's part take 65 of them. *)
Lemma setupkvm_spec s l : kmem_ok kend s l ->
  wp (setupkvm kend kdata) s (fun r s' =>
    (r = 0 /\ exists l', kmem_ok kend s' l' /\ l' ≡ₚ l /\ (length l <= 65)%nat /\ touched l (k_mem s) (k_mem s')) \/
    exists tabs l', aspace s' l' r tabs ∅ /\ r :: vals tabs ++ l' ≡ₚ l /\
      (forall w, 0 <= w < 2 ^ 20 -> pte_of (k_mem s') tabs w = kpte (kmaps kdata) w 0) /\
      touched l (k_mem s) (k_mem s') /\ (forall i, is_Some (tabs !! i) <-> i ∈ ktables)).
Proof.
  intros Hk. unfold setupkvm. wp_step. eapply wp_mono; [by apply kalloc_spec|]. intros r s1 (Em & _ & Hr).
  destruct l as [|d l].
  { destruct Hr as [-> Hk1]. simpl. wp_step. left. split; [done|]. exists []. rewrite Em. split_and!; [done|done|simpl; lia|apply touched_refl]. }
  destruct Hr as [-> Hk1]. assert (Hg : good_page d) by (apply (ko_page _ _ _ Hk); by left).
  pose proof (ko_nodup _ _ _ Hk) as [Hdl _]%NoDup_cons. rewrite (good_ne_0 kend d Hg). unfold kmemset. wp_steps.
  change (DEVSPACE <? P2V PHYSTOP) with false. cbv iota.
  pose proof (empty_space s1 d l Hk1 Hg Hdl) as H2. set (s2 := set_mem _ s1) in *.
  assert (HT : touched (d :: l) (k_mem s) (k_mem s2)).
  { unfold s2. simpl. rewrite Em. eapply touched_mono; [apply touched_memset|]. intros q ->%list_elem_of_singleton. by left. }
  destruct kmaps_valid as [Hv Hdis].
  eapply wp_mono; [apply (map_all_spec (kmaps kdata) s2 l d ∅ H2 Hv Hdis)|].
  - intros k w _ _. unfold pte_of. by rewrite lookup_empty.
  - rewrite vals_empty. cbn [app].
    intros r s3 [(-> & l3 & Hk3 & HP3 & (T & HPT & HD) & HT3)|(-> & tabs3 & l3 & H3 & [_ HP3] & Hp3 & HT3 & HD)].
    + left. split; [done|]. exists l3. split_and!; [done|done| |].
      * simpl. rewrite <- HPT. pose proof (vals_length_le T ktables) as HL. change (length ktables) with 64%nat in HL.
        enough ((length (vals T) <= 64)%nat) by lia. apply HL. intros i Hi. apply table_for_kmaps.
        apply HD in Hi as [[? Hi]|?]; [by rewrite lookup_empty in Hi|done].
      * eapply touched_trans; [exact HT|exact HT3|done..].
    + right. exists tabs3, l3. rewrite vals_empty in HP3. split_and!; [done| | | |].
      * by rewrite HP3.
      * intros w Hw. rewrite Hp3 by done. unfold pte_of. by rewrite lookup_empty.
      * eapply touched_trans; [exact HT|exact HT3|done..].
      * intros i. rewrite HD, table_for_kmaps. split; [|by right]. intros [[? Hi]|?]; [by rewrite lookup_empty in Hi|done].
Qed.

(** ** [copyuvm] *)

(** The parent's space is intact when only other pages were touched. *)
Lemma parent_frame s l d0 tabs0 U0 s' l' ps :
  aspace s l d0 tabs0 U0 -> kmem_ok kend s' l' -> touched ps (k_mem s) (k_mem s') ->
  (forall q, q ∈ ps -> good_page q) -> (forall q, q ∈ pages_of d0 tabs0 U0 -> q ∉ ps /\ q ∉ l') ->
  aspace s' l' d0 tabs0 U0 /\ (forall va, umem (k_mem s') U0 va = umem (k_mem s) U0 va) /\
  same_ptes (k_mem s) tabs0 (k_mem s') tabs0.
Proof.
  intros H Hk HT Hg Hn. pose proof (aspace_sep _ _ _ _ _ _ H) as (Hg0 & _).
  assert (Hs : forall q, q ∈ pages_of d0 tabs0 U0 -> same_on q (k_mem s) (k_mem s')).
  { intros q Hq. eapply touched_same; [exact HT|done|by apply Hg0|by apply Hn]. }
  split_and!.
  - eapply aspace_frame; [exact H|done|intros p Hp; by apply Hn|]. intros p Hp. apply Hs. unfold pages_of.
    change (d0 :: vals tabs0 ++ vals U0) with ((d0 :: vals tabs0) ++ vals U0). apply elem_of_app. by left.
  - intros va. apply umem_frame. intros p Hp. apply Hs. right. apply elem_of_app. by right.
  - intros w Hw. apply pte_frame; [lia|]. intros t Ht. apply Hs. right. apply elem_of_app. by left.
Qed.

Lemma flags_present e : 0 <= e < 2 ^ 32 -> has_flag e PTE_P = true ->
  Z.lor (PTE_FLAGS e) 1 = PTE_FLAGS e /\ 0 <= PTE_FLAGS e < 4096.
Proof.
  intros He Hp. rewrite PTE_FLAGS_eq by done. split; [|apply Z.mod_pos_bound; lia].
  unfold has_flag, PTE_P in Hp. apply negb_true_iff, Z.eqb_neq in Hp. change 1 with (2 ^ 1 - 1) in Hp. rewrite land_ones_mod in Hp by lia.
  assert (Ho : Z.testbit (e mod 4096) 0 = true).
  { rewrite Z.bit0_odd. change 4096 with (2 ^ 12). rewrite <- Z.bit0_odd, Z.mod_pow2_bits_low, Z.bit0_odd by lia.
    rewrite Zodd_mod. apply Z.eqb_eq. pose proof (Z.mod_pos_bound e 2). change (2 ^ 1) with 2 in Hp. lia. }
  apply Z.bits_inj'. intros n Hn. rewrite Z.lor_spec. destruct (decide (n = 0)) as [->|]; [by rewrite Ho|].
  rewrite (Z.bits_above_log2 1 n) by (simpl; lia). apply orb_false_r.
Qed.

Lemma touched_memmove p q m : touched [p] m (memmove m p q PGSIZE).
Proof.
  intros x Hx. rewrite memmove_at by (unfold PGSIZE; lia). rewrite bool_decide_eq_false_2; [done|].
  intros Hr. apply (Hx p); [by left|]. exact Hr.
Qed.

Section copy.
Context (d0 : Z) (tabs0 U0 : gmap Z Z) (sz : Z) (fl : Z -> Z) (fill : Z -> option Z).
Context (sz_ok : 0 <= sz <= KERNBASE) (full : forall w, 0 <= w < first_page sz -> is_Some (U0 !! w)).

(** What the copy reads from the parent. *)
Definition source (s : kmem) : Prop :=
  (forall w, 0 <= w < first_page sz -> PTE_FLAGS (pte_of (k_mem s) tabs0 w) = fl w) /\
  (forall va, 0 <= va / 4096 < first_page sz -> umem (k_mem s) U0 va = fill va).

Definition copy_failed (s : kmem) (l : list Z) (d : Z) (tabs U : gmap Z Z) (v : Z) (s' : kmem) : Prop :=
  exists l' leak, kmem_ok kend s' l' /\ l' ++ leak ≡ₚ pages_of d tabs U ++ l /\ (length leak <= 1)%nat /\
    touched (pages_of d tabs U ++ l) (k_mem s) (k_mem s') /\
    Z.of_nat (length (vals tabs) + length l) <= 1024 + (first_page sz - v).

Lemma first_page_bound : sz <= 4096 * first_page sz < sz + 4096 /\ 0 <= first_page sz <= UPAGES.
Proof.
  assert (Hk : sz <= 2 ^ 31) by apply sz_ok. unfold first_page, UPAGES. pose proof (Z_div_mod_eq_full (sz + 4095) 4096).
  pose proof (Z.mod_pos_bound (sz + 4095) 4096). pose proof (Z.div_pos (sz + 4095) 4096). lia.
Qed.

(** The child's pages after tables and pages were added. *)
Lemma child_sep d tabs U l tabs' l' v p q :
  grows tabs l tabs' l' -> U !! v = None -> q ∉ pages_of d tabs U -> q ∉ p :: l ->
  q ∉ pages_of d tabs' (<[v := p]> U) /\ q ∉ l'.
Proof.
  intros Hg Hu Hq Hl. unfold pages_of in *. rewrite (vals_insert _ _ _ Hu).
  rewrite !elem_of_cons, !elem_of_app in *. pose proof (grows_elem _ _ _ _ q Hg) as Hge. rewrite !elem_of_app in Hge.
  rewrite elem_of_cons. tauto.
Qed.

(** One page of the copy: from the state [s] with the page [p] free to the
    state with [p] mapped. *)
Lemma copy_step s p l d tabs U v p0 s1 s3 tabs3 l3 :
  aspace s (p :: l) d tabs U -> aspace s (p :: l) d0 tabs0 U0 -> source s ->
  (forall q, q ∈ pages_of d0 tabs0 U0 -> q ∉ pages_of d tabs U) ->
  0 <= v < first_page sz -> U !! v = None -> U0 !! v = Some p0 -> k_mem s1 = k_mem s ->
  let s2 := set_mem (memmove (k_mem s1) p p0 PGSIZE) s1 in
  aspace s2 l d tabs U -> grows tabs l tabs3 l3 -> touched (d :: vals tabs3) (k_mem s2) (k_mem s3) -> p ∉ vals tabs3 ->
  aspace s3 l3 d tabs3 (<[v := p]> U) ->
  (forall w, 0 <= w < 2 ^ 20 -> pte_of (k_mem s3) tabs3 w =
     if decide (w = v) then V2P p + fl v else pte_of (k_mem s2) tabs w) ->
  VmUser.grew kend fl fill s (p :: l) d tabs U v (v + 1) s3 l3 tabs3 (<[v := p]> U) /\
  aspace s3 l3 d0 tabs0 U0 /\ source s3.
Proof.
  intros H H0 Hsrc Hsep Hv Hu Hp0 Em1 s2 H2 Hg HT Hp3 H3 Hpte. pose proof first_page_bound as (_ & Hf2).
  assert (HG : VmUser.grew kend fl fill s (p :: l) d tabs U v (v + 1) s3 l3 tabs3 (<[v := p]> U)).
  { apply (grew_one kend _ _ s p l d tabs U v s2); try done; [unfold UPAGES in *; lia| |].
    - unfold s2. simpl. rewrite Em1. apply touched_memmove.
    - intros va Hva. rewrite <- (proj2 Hsrc) by lia. unfold umem. rewrite Hva, Hp0. simpl. f_equal.
      rewrite Em1, memmove_at by (unfold PGSIZE; lia). pose proof (Z.mod_pos_bound va 4096).
      rewrite bool_decide_eq_true_2 by (unfold PGSIZE; lia). f_equal. lia. }
  split; [done|]. pose proof (aspace_sep _ _ _ _ _ _ H) as (Hgood & _). pose proof (aspace_sep _ _ _ _ _ _ H0) as (Hgood0 & _).
  destruct (parent_frame s (p :: l) d0 tabs0 U0 s3 l3 _ H0 (vs_kmem _ _ _ _ _ (as_v _ _ _ _ _ _ H3)) (gr_touched _ _ _ _ _ _ _ _ _ _ _ _ _ _ HG)) as (A & B & C).
  - intros q Hq. apply elem_of_cons in Hq as [->|[Hq|Hq]%elem_of_app]; [apply Hgood; by left| |].
    + apply Hgood. right. apply elem_of_app. by left.
    + by apply (ko_page _ _ _ (vs_kmem _ _ _ _ _ (as_v _ _ _ _ _ _ H))).
  - intros q Hq. pose proof (Hsep q Hq) as Hn. destruct (Hgood0 q Hq) as [_ Hl].
    split; [|by apply (child_sep d tabs U l tabs3 l3 v p q)].
    unfold pages_of in Hn. rewrite !elem_of_cons, !elem_of_app in *. rewrite !elem_of_cons in *; tauto.
  - split; [done|]. destruct Hsrc as [S1 S2]. split.
    + intros w Hw. unfold UPAGES in *. rewrite C by lia. by apply S1.
    + intros va Hva. rewrite B. by apply S2.
Qed.

Lemma copy_loop_spec n : forall s l d tabs U v,
  aspace s l d tabs U -> aspace s l d0 tabs0 U0 -> source s ->
  (forall q, q ∈ pages_of d0 tabs0 U0 -> q ∉ pages_of d tabs U) ->
  0 <= v <= first_page sz -> first_page sz <= v + Z.of_nat n ->
  (forall w, v <= w < first_page sz -> U !! w = None) ->
  wp (copy_loop kend n d0 d (4096 * v) sz) s (fun r s' =>
    (r = d /\ exists l' tabs' U', VmUser.grew kend fl fill s l d tabs U v (first_page sz) s' l' tabs' U') \/
    (r = 0 /\ copy_failed s l d tabs U v s')).
Proof.
  pose proof first_page_bound as (Hf1 & Hf2).
  induction n as [|n IH]; intros s l d tabs U v H H0 Hsrc Hsep Hv Hn Hfree; cbn [copy_loop].
  { rewrite (proj2 (Z.ltb_ge _ _)) by lia. wp_step. left. split; [done|]. exists l, tabs, U. apply grew_refl; [done|lia]. }
  destruct (Z.ltb_spec (4096 * v) sz) as [Hlt|Hge].
  2:{ wp_step. left. split; [done|]. exists l, tabs, U. apply grew_refl; [done|lia]. }
  assert (Hvu : 0 <= v < UPAGES) by lia. assert (Hvn : U !! v = None) by (apply Hfree; lia).
  destruct (full v) as [p0 Hp0]; [lia|]. pose proof (aspace_sep _ _ _ _ _ _ H0) as (Hg0 & Hu0 & _).
  destruct (page_index v) as (Hr & E1 & E2); [unfold UPAGES in *; lia|].
  pose proof (as_pte _ _ _ _ _ _ H0 v Hvu) as Hpt. rewrite Hp0 in Hpt. destruct Hpt as [Hpp0 Ha0].
  destruct (tabs0 !! (v / 1024)) as [t0|] eqn:Et0.
  2:{ rewrite pte_no_table in Hpp0 by done. done. }
  wp_step. eapply wp_done; [eapply walk_hit; [apply H0|done|by rewrite E1]|].
  rewrite E2, (tab_ne_0 kend _ _ _ _ _ _ v (as_v _ _ _ _ _ _ H0) Et0 (proj1 Hvu)). unfold kload. wp_steps.
  assert (Ep : load32 (k_mem s) (t0 + 4 * (v mod 1024)) = pte_of (k_mem s) tabs0 v) by (unfold pte_of; by rewrite Et0).
  rewrite Ep, Hpp0. cbn [negb]. wp_step.
  destruct (Hg0 p0) as [Hgp0 _]; [right; apply elem_of_app; right; by apply (Hu0 v)|]. rewrite (P2V_PTE kend _ _ Hgp0 Ha0).
  pose proof (proj1 Hsrc v ltac:(lia)) as Hfl. destruct (flags_present _ (vs_word _ _ _ _ _ (as_v _ _ _ _ _ _ H0) v ltac:(unfold UPAGES in *; lia)) Hpp0) as [Ef Hfr].
  rewrite Hfl in *.
  pose proof (tabs_bound kend _ _ _ _ (as_v _ _ _ _ _ _ H)) as Htb.
  eapply wp_mono; [apply (take_page kend _ _ _ _ _ H)|]. intros r s1 [Em1 Hr1]. destruct l as [|p l].
  { destruct Hr1 as [-> H1]. simpl. wp_step. eapply wp_mono; [by apply (freevm_spec kend kend_high s1 [] d tabs U)|].
    intros [] s2 (l2 & Hk2 & HP2 & HT2). wp_step. right. split; [done|]. exists l2, []. rewrite app_nil_r in HP2.
    rewrite !app_nil_r, <- Em1. split_and!; [done|done|simpl; lia|done|simpl; lia]. }
  destruct Hr1 as (-> & H1 & Hgp & Hpp & Hpl). rewrite (good_ne_0 kend p Hgp). unfold kmemmove. wp_steps.
  set (s2 := set_mem (memmove (k_mem s1) p p0 PGSIZE) s1).
  assert (H2 : aspace s2 l d tabs U) by (eapply aspace_scratch; [exact H1|done..|apply touched_memmove]).
  eapply wp_mono; [apply (map_user kend s2 l d tabs U v p _ H2 Hvu Hvn Hgp Hpp Hpl Hfr)|]. rewrite Ef.
  intros r s3 (tabs3 & l3 & Hg & HT & Hp3 & Hpl3 & [(-> & H3 & Hpte)|(-> & -> & H3 & Hpte)]); cbn [Z.ltb Z.compare].
  - destruct (copy_step s p l d tabs U v p0 s1 s3 tabs3 l3 H H0 Hsrc Hsep) as (HG & H03 & Hsrc3); try done; [lia|].
    replace (u32 (4096 * v + PGSIZE)) with (4096 * (v + 1)) by (unfold PGSIZE, UPAGES in *; rewrite u32_id; lia).
    eapply wp_mono; [apply (IH s3 l3 d tabs3 (<[v := p]> U) (v + 1) H3 H03 Hsrc3); [|lia|lia|]|].
    + intros q Hq. destruct (Hg0 q Hq). by apply (child_sep d tabs U l tabs3 l3 v p q Hg Hvn (Hsep q Hq)).
    + intros w Hw. rewrite lookup_insert_ne by lia. apply Hfree. lia.
    + intros r s4 [(-> & l4 & tabs4 & U4 & HG4)|(-> & l4 & leak & Hk4 & HP4 & Hlk & HT4 & Hlen)].
      * left. split; [done|]. exists l4, tabs4, U4. eapply grew_trans; [exact H| |exact HG|exact HG4]. lia.
      * right. split; [done|]. exists l4, leak.
        assert (HP : pages_of d tabs3 (<[v := p]> U) ++ l3 ≡ₚ pages_of d tabs U ++ p :: l).
        { unfold pages_of. simpl. rewrite <- !app_assoc. constructor. apply HG. }
        split_and!; [done|by rewrite HP4|done| |].
        -- eapply touched_trans; [apply HG|exact HT4| |intros q; by rewrite HP].
           intros q. unfold pages_of. rewrite !elem_of_cons, !elem_of_app, !elem_of_cons, !elem_of_app. tauto.
        -- pose proof (Permutation_length (proj2 Hg)) as HL. rewrite !length_app in HL. simpl. lia.
  - wp_step. eapply wp_mono; [by apply (freevm_spec kend kend_high s3 [] d tabs3 U)|].
    intros [] s4 (l4 & Hk4 & HP4 & HT4). wp_step. right. split; [done|]. exists l4, [p].
    assert (HP : pages_of d tabs3 U ≡ₚ pages_of d tabs U ++ l).
    { unfold pages_of. simpl. constructor. rewrite <- (app_nil_r (vals tabs3 ++ vals U)), <- !app_assoc.
      rewrite (Permutation_app_swap_app (vals tabs3)), (Permutation_app_swap_app (vals tabs)). by rewrite (proj2 Hg). }
    split_and!; [done| |done| |].
    + rewrite HP4, app_nil_r, HP, <- app_assoc. by rewrite (Permutation_app_comm l).
    + set (R := pages_of d tabs U ++ p :: l).
      assert (HR : pages_of d tabs3 U ⊆ R) by (intros q; unfold R; rewrite HP, !elem_of_app, elem_of_cons; tauto).
      apply (touched_trans R (pages_of d tabs3 U) R _ (k_mem s3)); [|exact HT4|reflexivity|exact HR].
      apply (touched_trans [p] (d :: vals tabs3) R _ (k_mem s2)); [unfold s2; simpl; rewrite Em1; apply touched_memmove|exact HT|..].
      * intros q ->%list_elem_of_singleton. unfold R. apply elem_of_app. right. by left.
      * intros q Hq. apply HR. unfold pages_of. rewrite elem_of_cons in Hq. rewrite elem_of_cons, elem_of_app. tauto.
    + pose proof (Permutation_length (proj2 Hg)) as HL. rewrite !length_app in HL. simpl in *.
      pose proof (tabs_bound kend _ _ _ _ (as_v _ _ _ _ _ _ H3)). lia.
Qed.
End copy.
End alloc.
