(* ===== verification/VmCopyout.v ===== *)
(** * Writing to user memory from the kernel: [uva2ka] and [copyout] of [vm.c]

    [copyout] writes its bytes at the user addresses it is given, page by
    page, stops at the first page the user may not use, and never writes
    anything but user pages of the space. *)

From S2P Require Import Prelude CString Mmu Kalloc Vm VmSpec VmUser.

Lemma store_bytes_at m a l x :
  store_bytes m a l x = if decide (a <= x) then default (m x) (l !! Z.to_nat (x - a)) else m x.
Proof.
  revert m a. induction l as [|b l IH]; intros m a; cbn [store_bytes].
  { by case_decide; rewrite ?lookup_nil. }
  rewrite IH. destruct (decide (a + 1 <= x)).
  - rewrite decide_True by lia. replace (Z.to_nat (x - a)) with (S (Z.to_nat (x - (a + 1)))) by lia. simpl.
    rewrite upd_ne by lia. done.
  - destruct (decide (a <= x)).
    + replace x with a by lia. rewrite Z.sub_diag. simpl. by rewrite upd_eq.
    + rewrite upd_ne by lia. done.
Qed.

Section copyout.
Context (kend : Z).
Abbreviation aspace := (aspace kend).
Abbreviation good_page := (good_page kend).

(** The user may use virtual page [w]. *)
Definition accessible (m : mem) (tabs : gmap Z Z) (w : Z) : Prop :=
  has_flag (pte_of m tabs w) PTE_P = true /\ has_flag (pte_of m tabs w) PTE_U = true.
#[global] Instance accessible_dec m tabs w : Decision (accessible m tabs w).
Proof. unfold accessible. apply _. Defined.

Lemma accessible_page s l d tabs U w : aspace s l d tabs U -> 0 <= w < 2 ^ 20 -> accessible (k_mem s) tabs w ->
  exists p, U !! w = Some p /\ PTE_ADDR (pte_of (k_mem s) tabs w) = V2P p /\ good_page p.
Proof.
  intros H Hw [H1 H2]. destruct (decide (w < UPAGES)).
  - pose proof (as_pte _ _ _ _ _ _ H w ltac:(lia)) as Hp. destruct (U !! w) as [p|] eqn:E.
    + exists p. split_and!; [done|apply Hp|]. apply (as_good _ _ _ _ _ _ H), elem_of_vals. eauto.
    + simpl in Hp. rewrite Hp in H1. done.
  - by rewrite (as_kern _ _ _ _ _ _ H w) in H2 by lia.
Qed.

Lemma uva2ka_spec s l d tabs U w t :
  aspace s l d tabs U -> 0 <= w < 2 ^ 20 -> tabs !! (w / 1024) = Some t ->
  wp (uva2ka d (4096 * w)) s (fun r s' => s' = s /\
    if decide (accessible (k_mem s) tabs w) then exists p, U !! w = Some p /\ good_page p /\ r = p else r = 0).
Proof.
  intros H Hw Ht. destruct (page_index w Hw) as (Hr & E1 & E2). unfold uva2ka.
  wp_step. eapply wp_done; [eapply walk_hit; [apply H|done|by rewrite E1]|].
  rewrite E2, (tab_ne_0 kend _ _ _ _ _ _ w (as_v _ _ _ _ _ _ H) Ht (proj1 Hw)). unfold kload. wp_steps.
  assert (Ep : load32 (k_mem s) (t + 4 * (w mod 1024)) = pte_of (k_mem s) tabs w) by (unfold pte_of; by rewrite Ht).
  rewrite Ep. destruct (decide (accessible (k_mem s) tabs w)) as [Ha|Ha].
  - destruct (accessible_page _ _ _ _ _ _ H Hw Ha) as (p & Hp & Ea & Hg). destruct Ha as [-> ->]. cbn [negb]. wp_step.
    split; [done|]. exists p. split_and!; [done|done|]. by apply (P2V_PTE kend).
  - unfold accessible in Ha. destruct (has_flag _ PTE_P) eqn:E3; cbn [negb]; [|by wp_step].
    destruct (has_flag _ PTE_U) eqn:E4; cbn [negb]; [|by wp_step]. by destruct Ha.
Qed.

(** Storing bytes in a page of the space. *)
Lemma put_user s l d tabs U w p o bs :
  aspace s l d tabs U -> U !! w = Some p -> 0 <= o -> o + Z.of_nat (length bs) <= 4096 ->
  let s' := set_mem (store_bytes (k_mem s) (p + o) bs) s in
  aspace s' l d tabs U /\ touched [p] (k_mem s) (k_mem s') /\ same_ptes (k_mem s) tabs (k_mem s') tabs /\
  forall va, umem (k_mem s') U va =
    if decide (4096 * w + o <= va < 4096 * w + o + Z.of_nat (length bs)) then bs !! Z.to_nat (va - (4096 * w + o))
    else umem (k_mem s) U va.
Proof.
  intros H Hp Ho Hl s'. pose proof (aspace_sep _ _ _ _ _ _ H) as (Hg & Hu & Hinj). destruct (Hu _ _ Hp) as (Hpd & Hpt & Hpu).
  destruct (Hg p) as [Hgp Hpl]; [right; apply elem_of_app; by right|].
  assert (HT : touched [p] (k_mem s) (k_mem s')).
  { intros x Hx. unfold s'. simpl. rewrite store_bytes_at. case_decide; [|done].
    destruct (bs !! Z.to_nat (x - (p + o))) as [b|] eqn:E; [|done]. apply lookup_lt_Some in E.
    destruct (Hx p); [by left|]. unfold in_page, PGSIZE. lia. }
  assert (Hs : forall q, good_page q -> q <> p -> same_on q (k_mem s) (k_mem s')).
  { intros q Hq Hne. eapply touched_same; [exact HT|by intros ? ->%list_elem_of_singleton|done|]. by intros ?%list_elem_of_singleton. }
  assert (Hst : forall q, q ∈ d :: vals tabs -> same_on q (k_mem s) (k_mem s')).
  { intros q Hq. apply Hs; [by apply (vs_good _ _ _ _ _ (as_v _ _ _ _ _ _ H))|]. intros ->. apply elem_of_cons in Hq as [->|?]; done. }
  split_and!; [|done| |].
  - eapply aspace_frame; [exact H| |apply Hg|done]. apply kmem_ok_write; [apply H|]. intros q Hq.
    apply Hs; [by apply (ko_page _ _ _ (vs_kmem _ _ _ _ _ (as_v _ _ _ _ _ _ H)))|congruence].
  - intros v Hv. apply pte_frame; [lia|]. intros t Ht. apply Hst. by right.
  - intros va. pose proof (Z_div_mod_eq_full va 4096) as Hd. pose proof (Z.mod_pos_bound va 4096) as Hm.
    unfold umem. destruct (decide (va / 4096 = w)) as [E|E].
    + rewrite E, Hp. simpl. rewrite store_bytes_at. destruct (decide (4096 * w + o <= va < _)) as [Hin|Hout].
      * rewrite decide_True by lia. replace (p + va mod 4096 - (p + o)) with (va - (4096 * w + o)) by lia.
        destruct (bs !! _) as [b|] eqn:Eb; [done|]. apply lookup_ge_None in Eb. lia.
      * case_decide; [|done]. rewrite (lookup_ge_None_2 bs); [done|]. lia.
    + rewrite decide_False by lia. destruct (U !! (va / 4096)) as [q|] eqn:Eq; [|done]. simpl. f_equal.
      apply (Hs q); [apply (as_good _ _ _ _ _ _ H), elem_of_vals; eauto| |unfold in_page, PGSIZE; lia].
      intros ->. by eapply E, Hinj.
Qed.

(** [k] bytes of [bs] were written at [va], in pages the user may use. *)
Record put_bytes (s : kmem) (tabs U : gmap Z Z) (va : Z) (bs : list Z) (k : Z) (s' : kmem) : Prop := mk_put_bytes {
  pb_count : 0 <= k <= Z.of_nat (length bs);
  pb_umem : forall x, umem (k_mem s') U x =
    if decide (va <= x < va + k) then bs !! Z.to_nat (x - va) else umem (k_mem s) U x;
  pb_pages : forall x, va <= x < va + k -> accessible (k_mem s) tabs (x / 4096);
  pb_ptes : same_ptes (k_mem s) tabs (k_mem s') tabs;
  pb_touched : touched (vals U) (k_mem s) (k_mem s')
}.

Lemma put_bytes_0 s tabs U va bs : put_bytes s tabs U va bs 0 s.
Proof.
  split; [lia| | |done|apply touched_refl].
  - intros x. by rewrite decide_False by lia.
  - intros x Hx. lia.
Qed.

Lemma put_bytes_app s tabs U va bs s1 m k s2 :
  0 <= va -> va + Z.of_nat (length bs) <= 2 ^ 32 -> 0 <= m <= Z.of_nat (length bs) ->
  put_bytes s tabs U va bs m s1 -> put_bytes s1 tabs U (va + m) (drop (Z.to_nat m) bs) k s2 ->
  put_bytes s tabs U va bs (m + k) s2.
Proof.
  intros Hva Hr Hm [A1 A2 A3 A4 A5] [B1 B2 B3 B4 B5]. rewrite length_drop in B1. split.
  - lia.
  - intros x. rewrite B2, A2. repeat case_decide; try lia; try done. rewrite lookup_drop. f_equal. lia.
  - intros x Hx. destruct (decide (x < va + m)); [apply A3; lia|].
    assert (Hx' : accessible (k_mem s1) tabs (x / 4096)) by (apply B3; lia). unfold accessible in *.
    rewrite A4 in Hx'; [done|]. split; [apply Z.div_pos; lia|apply Z.div_lt_upper_bound; lia].
  - intros v Hv. by rewrite B4, A4.
  - by eapply touched_trans.
Qed.

Lemma copyout_loop_spec n : forall s l d tabs U va bs,
  aspace s l d tabs U -> 0 <= va < 2 ^ 32 -> va + Z.of_nat (length bs) <= 2 ^ 32 ->
  va mod 4096 + Z.of_nat (length bs) <= 4096 * Z.of_nat n ->
  (forall x, va <= x < va + Z.of_nat (length bs) -> is_Some (tabs !! (x / 4096 / 1024))) ->
  wp (copyout_loop n d va bs) s (fun r s' => aspace s' l d tabs U /\ exists k, put_bytes s tabs U va bs k s' /\
    ((r = 0 /\ k = Z.of_nat (length bs)) \/
     (r = -1 /\ k < Z.of_nat (length bs) /\ ~ accessible (k_mem s) tabs ((va + k) / 4096)))).
Proof.
  induction n as [|n IH]; intros s l d tabs U va bs H Hva Hr Hn Htabs; cbn [copyout_loop].
  { pose proof (Z.mod_pos_bound va 4096). rewrite (proj2 (Z.ltb_ge _ _)) by lia. wp_step. split; [done|].
    exists 0. split; [apply put_bytes_0|]. left. lia. }
  destruct (Z.ltb_spec 0 (Z.of_nat (length bs))) as [Hpos|Hz].
  2:{ wp_step. split; [done|]. exists 0. split; [apply put_bytes_0|]. left. lia. }
  rewrite (u32_id va) by lia. rewrite PGROUNDDOWN_eq by lia. set (w := va / 4096).
  pose proof (Z_div_mod_eq_full va 4096) as Hd. pose proof (Z.mod_pos_bound va 4096) as Hm. fold w in Hd.
  assert (Hw : 0 <= w < 2 ^ 20) by (split; [apply Z.div_pos; lia|apply Z.div_lt_upper_bound; lia]).
  destruct (Htabs va) as [t Ht]; [lia|]. fold w in Ht.
  wp_step. eapply wp_mono; [by apply (uva2ka_spec s l d tabs U w t)|]. intros r s1 [-> Hacc].
  destruct (decide (accessible (k_mem s) tabs w)) as [Ha|Ha].
  2:{ subst r. simpl. wp_step. split; [done|]. exists 0. split; [apply put_bytes_0|]. right. rewrite Z.add_0_r. split_and!; [done|lia|done]. }
  destruct Hacc as (p & Hp & Hgp & ->). rewrite (good_ne_0 kend p Hgp). unfold PGSIZE.
  replace (va - 4096 * w) with (va mod 4096) by lia. set (o := va mod 4096) in *. cbv zeta.
  set (m := Z.min (4096 - o) (Z.of_nat (length bs))). assert (Hmb : 0 < m <= Z.of_nat (length bs)) by lia.
  assert (Hlen : Z.of_nat (length (take (Z.to_nat m) bs)) = m) by (rewrite length_take; lia).
  unfold kput_bytes. wp_steps.
  destruct (put_user s l d tabs U w p o (take (Z.to_nat m) bs) H Hp) as (H2 & HT2 & HP2 & Hu2); [lia|lia|]. rewrite Hlen in Hu2.
  set (s2 := set_mem _ s) in *.
  assert (Hput : put_bytes s tabs U va bs m s2).
  { split; [lia| | |done|].
    - intros x. rewrite Hu2. replace (4096 * w + o) with va by lia. case_decide; [|done]. rewrite lookup_take_lt by lia. done.
    - intros x Hx. replace (x / 4096) with w; [done|]. apply (Z.div_unique_pos _ _ _ (x - 4096 * w)); lia.
    - eapply touched_mono; [exact HT2|]. intros q ->%list_elem_of_singleton. apply elem_of_vals. eauto. }
  destruct (decide (m = Z.of_nat (length bs))) as [Eall|Hmore].
  { rewrite drop_ge by lia. destruct n as [|n].
    - simpl. wp_step. split; [done|]. exists m. split; [done|]. left. by rewrite Eall.
    - simpl. wp_step. split; [done|]. exists m. split; [done|]. left. by rewrite Eall. }
  assert (Em : m = 4096 - o) by lia. replace (u32 (4096 * w + 4096)) with (va + m) by (rewrite u32_id; lia).
  eapply wp_mono; [apply (IH s2 l d tabs U (va + m) (drop (Z.to_nat m) bs) H2)|]; rewrite ?length_drop.
  - lia.
  - lia.
  - replace (va + m) with ((w + 1) * 4096) by lia. rewrite Z.mod_mul by lia. lia.
  - intros x Hx. apply Htabs. lia.
  - intros r s3 (H3 & k & Hk & Hres). split; [done|]. exists (m + k). split; [eapply put_bytes_app; [..|exact Hput|exact Hk]; lia|].
    destruct Hres as [[-> ->]|(-> & Hk' & Hna)]; [left; split; [done|lia]|right]. split_and!; [done|lia|].
    rewrite Z.add_assoc. intros Ha'. apply Hna. unfold accessible in *. rewrite HP2; [done|].
    pose proof (pb_count _ _ _ _ _ _ _ Hk). split; [apply Z.div_pos; lia|apply Z.div_lt_upper_bound; lia].
Qed.
End copyout.
