(* ===== verification/VmTheorems.v ===== *)
(** * Theorems on virtual memory

    The properties of [vm.c] proved from the lemmas of the files before, on
    address spaces that boot and [setupkvm] really build ([demo_parent]). *)

From S2P Require Import Prelude CString Mmu Kalloc Vm VmSpec VmUser VmAlloc VmCopyout.

(** Where the linker may put the end and the data of the kernel. *)
Record linked (kend kdata : Z) : Prop := mk_linked {
  lk_end : KERNBASE < kend;
  lk_data : kdata mod 4096 = 0 /\ KERNLINK < kdata < KERNBASE + PHYSTOP
}.

(** What a copy of the first [sz] bytes of the space [U0] must be. *)
Record copy_of (s : kmem) (tabs0 U0 : gmap Z Z) (sz : Z) (s' : kmem) (tabs' U' : gmap Z Z) : Prop := mk_copy_of {
  cp_bytes : forall va, 0 <= va -> umem (k_mem s') U' va =
    if decide (va < 4096 * first_page sz) then umem (k_mem s) U0 va else None;
  cp_flags : forall w, 0 <= w < first_page sz ->
    PTE_FLAGS (pte_of (k_mem s') tabs' w) = PTE_FLAGS (pte_of (k_mem s) tabs0 w)
}.

Section theorems.
Context (kend kdata : Z) (Hlink : linked kend kdata).

Lemma copy_of_grew s l d0 tabs0 U0 sz s1 l1 d tabs s2 l2 tabs2 U2 :
  aspace kend s l d0 tabs0 U0 -> 0 <= first_page sz <= UPAGES -> (forall w, 0 <= w < first_page sz -> is_Some (U0 !! w)) ->
  grew kend (fun w => PTE_FLAGS (pte_of (k_mem s) tabs0 w)) (umem (k_mem s) U0) s1 l1 d tabs ∅ 0 (first_page sz) s2 l2 tabs2 U2 ->
  copy_of s tabs0 U0 sz s2 tabs2 U2.
Proof.
  intros H0 Hf Hfull HG. split.
  - intros va Hva. rewrite (gr_umem _ _ _ _ _ _ _ _ _ _ _ _ _ _ HG).
    pose proof (Z_div_mod_eq_full va 4096). pose proof (Z.mod_pos_bound va 4096). repeat case_decide; try lia; [done|].
    unfold umem. by rewrite lookup_empty.
  - intros w Hw. destruct (gr_new _ _ _ _ _ _ _ _ _ _ _ _ _ _ HG w Hw) as (p & Hp & _ & ->).
    assert (Hgp : good_page kend p).
    { apply (as_good _ _ _ _ _ _ (gr_space _ _ _ _ _ _ _ _ _ _ _ _ _ _ HG)), elem_of_vals. eauto. }
    destruct (Hfull w Hw) as [p0 Hp0]. pose proof (as_pte _ _ _ _ _ _ H0 w ltac:(lia)) as Hpt. rewrite Hp0 in Hpt.
    destruct (flags_present (pte_of (k_mem s) tabs0 w)) as [Ef Hfr]; [|apply Hpt|].
    + apply (vs_word _ _ _ _ _ (as_v _ _ _ _ _ _ H0)). unfold UPAGES in *. lia.
    + destruct (entry_good kend p _ Hgp Hfr) as (_ & _ & E & _). by rewrite Ef in E.
Qed.

Lemma copyuvm_spec s l d0 tabs0 U0 sz :
  aspace kend s l d0 tabs0 U0 -> 0 <= sz <= KERNBASE -> (forall w, 0 <= w < first_page sz -> is_Some (U0 !! w)) ->
  wp (copyuvm kend kdata d0 sz) s (fun r s' => exists l',
    aspace kend s' l' d0 tabs0 U0 /\ (forall va, umem (k_mem s') U0 va = umem (k_mem s) U0 va) /\
    ((r <> 0 /\ exists tabs' U', aspace kend s' l' r tabs' U' /\ copy_of s tabs0 U0 sz s' tabs' U' /\
        (forall w, UPAGES <= w < 2 ^ 20 -> pte_of (k_mem s') tabs' w = kpte (kmaps kdata) w 0) /\
        pages_of r tabs' U' ++ l' ≡ₚ l) \/
     (r = 0 /\ exists leak, l' ++ leak ≡ₚ l /\ (length leak <= 1)%nat /\ Z.of_nat (length l) <= 1025 + first_page sz))).
Proof.
  destruct Hlink as [Hend Hdata]. intros H0 Hsz Hfull. pose proof (first_page_bound sz Hsz) as (Hf1 & Hf2).
  pose proof (aspace_sep _ _ _ _ _ _ H0) as (Hg0 & _).
  pose proof (vs_kmem _ _ _ _ _ (as_v _ _ _ _ _ _ H0)) as Hk0.
  assert (Hpf : forall s' l', kmem_ok kend s' l' -> touched l (k_mem s) (k_mem s') -> (forall q, q ∈ l' -> q ∈ l) ->
    aspace kend s' l' d0 tabs0 U0 /\ (forall va, umem (k_mem s') U0 va = umem (k_mem s) U0 va) /\
    same_ptes (k_mem s) tabs0 (k_mem s') tabs0).
  { intros s' l' Hk HT Hsub. eapply (parent_frame kend); [exact H0|done|exact HT|apply Hk0|].
    intros q Hq. destruct (Hg0 q Hq). split; [done|]. intros ?%Hsub. done. }
  unfold copyuvm. wp_step. eapply wp_mono; [by apply (setupkvm_spec kend Hend kdata Hdata s l)|].
  intros d s1 [(-> & l1 & Hk1 & HP1 & HL1 & HT1)|(tabs & l1 & H1 & HP1 & Hk & HT1 & _)].
  { simpl. wp_step. destruct (Hpf s1 l1 Hk1 HT1) as (A & B & _); [intros q; by rewrite HP1|].
    exists l1. split_and!; [done|done|]. right. split; [done|]. exists []. rewrite app_nil_r.
    split_and!; [done|simpl; lia|lia]. }
  pose proof (aspace_sep _ _ _ _ _ _ H1) as (Hg1 & _). destruct (Hg1 d) as [Hgd _]; [by left|]. rewrite (good_ne_0 kend d Hgd).
  pose proof (vs_kmem _ _ _ _ _ (as_v _ _ _ _ _ _ H1)) as Hk1.
  destruct (Hpf s1 l1 Hk1 HT1) as (A & B & C); [intros q Hq; rewrite <- HP1; right; apply elem_of_app; by right|].
  set (fl := fun w => PTE_FLAGS (pte_of (k_mem s) tabs0 w)). set (fill := umem (k_mem s) U0).
  eapply wp_mono; [apply (copy_loop_spec kend Hend kdata Hdata d0 tabs0 U0 sz fl fill Hsz Hfull _ s1 l1 d tabs ∅ 0 H1 A)|].
  - split; [intros w Hw; unfold fl; by rewrite C by (unfold UPAGES in *; lia)|intros va _; by apply B].
  - intros q Hq Hin. destruct (Hg0 q Hq) as [_ Hn]. apply Hn. rewrite <- HP1. unfold pages_of in Hin.
    rewrite vals_empty, app_nil_r in Hin. rewrite elem_of_cons in *. rewrite elem_of_app. tauto.
  - lia.
  - unfold PGSIZE. pose proof (Z_div_mod_eq_full sz 4096). pose proof (Z.mod_pos_bound sz 4096). lia.
  - done.
  - assert (HPl : pages_of d tabs ∅ ++ l1 ≡ₚ l) by (unfold pages_of; rewrite vals_empty, app_nil_r; exact HP1).
    intros r s2 [(-> & l2 & tabs2 & U2 & HG)|(-> & l2 & leak & Hk2 & HP2 & HL2 & HT2 & Hlen)].
    + assert (HP2 : pages_of d tabs2 U2 ++ l2 ≡ₚ l).
      { rewrite <- HPl. unfold pages_of. simpl. rewrite <- !app_assoc. constructor. apply HG. }
      destruct (Hpf s2 l2) as (A2 & B2 & _).
      * apply HG.
      * eapply touched_trans; [exact HT1|apply HG|done|]. intros q. by rewrite <- HP1.
      * intros q Hq. rewrite <- HP2. apply elem_of_app. by right.
      * exists l2. split_and!; [done|done|left]. split; [apply Z.eqb_neq, (good_ne_0 kend d Hgd)|].
        exists tabs2, U2. split_and!; [apply HG| | |done].
        -- by eapply copy_of_grew.
        -- intros w Hw. unfold UPAGES in *. rewrite (proj2 (gr_old _ _ _ _ _ _ _ _ _ _ _ _ _ _ HG w ltac:(lia))) by lia. apply Hk. lia.
    + destruct (Hpf s2 l2 Hk2) as (A2 & B2 & _).
      * eapply touched_trans; [exact HT1|exact HT2|done|]. intros q. by rewrite HPl.
      * intros q Hq. rewrite <- HPl, <- HP2. apply elem_of_app. by left.
      * exists l2. split_and!; [done|done|right]. split; [done|]. exists leak. split_and!; [by rewrite HP2|done|].
        rewrite <- (Permutation_length HP1). simpl. rewrite length_app. lia.
Qed.

(** With one free page left and no table for it, the page is lost. *)
Lemma copy_leaks s p d0 tabs0 U0 d tabs sz n :
  aspace kend s [p] d0 tabs0 U0 -> aspace kend s [p] d tabs ∅ -> 0 < sz -> is_Some (U0 !! 0) -> tabs !! 0 = None ->
  wp (copy_loop kend (S n) d0 d 0 sz) s (fun r s' => r = 0 /\ exists l',
    kmem_ok kend s' l' /\ l' ≡ₚ pages_of d tabs ∅ /\ touched (p :: pages_of d tabs ∅) (k_mem s) (k_mem s')).
Proof.
  destruct Hlink as [Hend _]. intros H0 H Hsz [p0 Hp0] Ht. cbn [copy_loop]. rewrite (proj2 (Z.ltb_lt 0 sz)) by done.
  pose proof (as_pte _ _ _ _ _ _ H0 0 ltac:(unfold UPAGES; lia)) as Hpt. rewrite Hp0 in Hpt. destruct Hpt as [Hpp0 Ha0].
  destruct (tabs0 !! 0) as [t0|] eqn:Et0; [|by rewrite pte_no_table in Hpp0].
  wp_step. eapply wp_done; [eapply (walk_hit kend _ _ _ _ 0); [apply H0|lia|exact Et0]|].
  rewrite (tab_ne_0 kend _ _ _ _ _ _ (0 / 4096) (as_v _ _ _ _ _ _ H0) Et0 ltac:(done)). unfold kload. wp_steps.
  assert (Ep : load32 (k_mem s) (t0 + 4 * (0 / 4096 mod 1024)) = pte_of (k_mem s) tabs0 0) by (unfold pte_of; change (0 / 1024) with 0; by rewrite Et0).
  rewrite Ep, Hpp0. cbn [negb]. wp_step.
  destruct (flags_present _ (vs_word _ _ _ _ _ (as_v _ _ _ _ _ _ H0) 0 ltac:(lia)) Hpp0) as [Ef Hfr].
  eapply wp_mono; [apply (take_page kend _ _ _ _ _ H)|]. intros r s1 (Em1 & -> & H1 & Hgp & Hpp & Hpl).
  rewrite (good_ne_0 kend p Hgp). unfold kmemmove. wp_steps. set (s2 := set_mem _ s1).
  assert (H2 : aspace kend s2 [] d tabs ∅) by (eapply aspace_scratch; [exact H1|done..|apply touched_memmove]).
  eapply wp_mono; [apply (map_user kend s2 [] d tabs ∅ 0 p _ H2 ltac:(unfold UPAGES; lia) (lookup_empty _) Hgp Hpp Hpl Hfr)|].
  intros r s3 (tabs3 & l3 & Hg & HT & _ & _ & [(_ & H3 & Hpte)|(-> & -> & H3 & _)]).
  { exfalso. destruct (tabs3 !! 0) as [t|] eqn:Et.
    - assert (Hin : t ∈ vals tabs ++ []) by (apply (grows_elem _ _ _ _ _ Hg), elem_of_app; left; apply elem_of_vals; eauto).
      rewrite app_nil_r in Hin. apply elem_of_vals in Hin as (j & Hj).
      destruct (vspace_sep kend _ _ _ _ (as_v _ _ _ _ _ _ H3)) as (_ & _ & Hinj).
      assert (j = 0) as -> by (eapply Hinj; [by eapply lookup_weaken; [exact Hj|apply Hg]|exact Et]). congruence.
    - pose proof (Hpte 0 ltac:(lia)) as E. rewrite pte_no_table, Ef in E by done. simpl in E.
      destruct (entry_good kend p _ Hgp Hfr) as (_ & _ & _ & Ef'). rewrite Ef, <- E in Ef'. done. }
  cbn [Z.ltb Z.compare]. wp_step. eapply wp_mono; [by apply (freevm_spec kend Hend s3 [] d tabs3 ∅)|].
  intros [] s4 (l4 & Hk4 & HP4 & HT4). wp_step. split; [done|]. exists l4.
  assert (HP : pages_of d tabs3 ∅ ≡ₚ pages_of d tabs ∅).
  { unfold pages_of. rewrite vals_empty. constructor. by apply Hg. }
  split_and!; [done|by rewrite HP4, app_nil_r|].
  apply (touched_trans (p :: pages_of d tabs ∅) (pages_of d tabs3 ∅) _ _ (k_mem s3)); [|exact HT4|done|intros q; rewrite HP; by right].
  apply (touched_trans [p] (d :: vals tabs3) _ _ (k_mem s2)); [unfold s2; simpl; rewrite Em1; apply touched_memmove|exact HT|..].
  - intros q ->%list_elem_of_singleton. by left.
  - intros q Hq. right. rewrite <- HP. unfold pages_of. by rewrite vals_empty, app_nil_r.
Qed.
End theorems.

(** ** A machine after boot *)

Definition demo_end : Z := 0x80400000.
Definition demo_data : Z := 0x80108000.
Lemma demo_linked : linked demo_end demo_data.
Proof. split; [done|]. unfold demo_data, KERNLINK, KERNBASE, EXTMEM, PHYSTOP. split; [done|lia]. Qed.

(** [freerange] over [n] pages above the kernel. *)
Lemma demo_pages (n : nat) : Z.of_nat n <= 4096 -> exists s l, kmem_ok demo_end s l /\ length l = n.
Proof.
  intros Hn. set (top := demo_end + 4096 * Z.of_nat n).
  assert (H0 : kmem_ok demo_end (mkkmem (fun _ => 0) false 0) []) by (split; [done|apply NoDup_nil_2|by intros v ?%elem_of_nil]).
  assert (Er : range_pages demo_end top = (fun k => demo_end + PGSIZE * Z.of_nat k) <$> seq 0 n).
  { unfold range_pages. change (PGROUNDUP demo_end) with demo_end. f_equal. f_equal. unfold top, PGSIZE.
    replace (demo_end + 4096 * Z.of_nat n - demo_end) with (Z.of_nat n * 4096) by lia. rewrite Z.div_mul by lia. lia. }
  assert (Hg : forall v, v ∈ range_pages demo_end top -> good_page demo_end v /\ v ∉ []).
  { rewrite Er. intros v (k & -> & Hk%elem_of_seq)%list_elem_of_fmap. split; [|apply not_elem_of_nil].
    unfold good_page, demo_end, PGSIZE, KERNBASE, PHYSTOP. split; [|lia].
    replace (2151677952 + 4096 * Z.of_nat k) with ((525312 + Z.of_nat k) * 4096) by lia. apply Z.mod_mul. lia. }
  destruct (wp_inv _ _ _ (freerange_spec demo_end demo_end top _ [] H0 Hg)) as ([] & s & _ & Hk & _).
  exists s, (reverse (range_pages demo_end top) ++ []). split; [done|].
  rewrite app_nil_r, length_reverse, Er, length_fmap. apply length_seq.
Qed.

(** A process of one page, with [k] free pages left. *)
Lemma demo_parent (k : nat) : (k <= 1090)%nat ->
  exists s l d tabs U, aspace demo_end s l d tabs U /\ is_Some (U !! 0) /\ length l = k.
Proof.
  intros Hk. destruct demo_linked as [He Hd]. destruct (demo_pages 4000) as (s & l & Hok & Hl); [lia|].
  destruct (wp_inv _ _ _ (setupkvm_spec demo_end He demo_data Hd s l Hok)) as (d & s1 & _ & [(_ & l1 & _ & _ & HL & _)|(tabs & l1 & H1 & HP & _ & _ & HK)]).
  { lia. }
  assert (Hl1 : length l1 = 3935%nat).
  { pose proof (Permutation_length HP) as E. simpl in E. rewrite length_app in E.
    rewrite (vals_length tabs ktables) in E; [change (length ktables) with 64%nat in E; lia| |exact HK].
    unfold ktables. apply NoDup_app. split_and!; [apply NoDup_seqZ| |apply NoDup_seqZ]. intros i Hi. rewrite elem_of_seqZ in *. lia. }
  destruct (wp_inv _ _ _ (allocuvm_spec demo_end He s1 l1 d tabs ∅ 0 4096 H1 ltac:(lia) ltac:(done) ltac:(done)))
    as (r & s2 & _ & [(_ & l2 & tabs2 & U2 & HG)|(_ & _ & HL)]).
  2:{ change (first_page 4096 - first_page 0) with 1 in HL. lia. }
  assert (H2 : aspace demo_end s2 l2 d tabs2 U2) by apply HG.
  assert (HU : is_Some (U2 !! 0)) by (destruct (gr_new _ _ _ _ _ _ _ _ _ _ _ _ _ _ HG 0) as (p & Hp & _); [done|eauto]).
  assert (Hl2 : (k <= length l2)%nat).
  { pose proof (Permutation_length (gr_pages _ _ _ _ _ _ _ _ _ _ _ _ _ _ HG)) as E. rewrite !length_app, vals_empty in E. simpl in E.
    pose proof (tabs_bound _ _ _ _ _ (as_v _ _ _ _ _ _ H2)).
    assert (length (vals U2) = 1%nat); [|lia]. apply (vals_length U2 [0]); [apply NoDup_singleton|].
    intros i. rewrite list_elem_of_singleton. split; [|by intros ->]. intros [p Hp].
    destruct (decide (first_page 0 <= i < first_page 4096)) as [Hi|Hi]; [change (first_page 0) with 0 in Hi; change (first_page 4096) with 1 in Hi; lia|].
    rewrite (proj1 (gr_old _ _ _ _ _ _ _ _ _ _ _ _ _ _ HG i Hi)), lookup_empty in Hp. done. }
  clear -H2 HU Hl2. remember (length l2 - k)%nat as m eqn:Em. revert s2 l2 H2 Hl2 Em.
  induction m as [|m IH]; intros s l H Hl Em.
  - exists s, l, d, tabs2, U2. split_and!; [done|done|lia].
  - destruct (wp_inv _ _ _ (take_page _ _ _ _ _ _ H)) as (r & s' & _ & _ & Hr). destruct l as [|p l]; [simpl in *; lia|].
    apply (IH s' l); [apply Hr|simpl in *; lia..].
Qed.

(** ** Theorems *)

(** C5.  [copyuvm], the copy of memory at [fork]. For a parent with [sz] bytes
    mapped: either it returns a new address space in which every byte below [sz]
    and every page's permissions are the parent's and the kernel's part is as
    [setupkvm] defines it, made only of pages that were free (so parent and
    child share no page), or it returns 0, and then at most 1025 pages and one
    for each page of [sz], rounded up, were free. The parent's memory is
    unchanged in both cases, and on failure at most one page is lost. *)
Theorem copyuvm_correct kend kdata s l d0 tabs0 U0 sz :
  linked kend kdata -> aspace kend s l d0 tabs0 U0 -> 0 <= sz <= KERNBASE ->
  (forall w, 0 <= w < first_page sz -> is_Some (U0 !! w)) ->
  wp (copyuvm kend kdata d0 sz) s (fun r s' => exists l',
    aspace kend s' l' d0 tabs0 U0 /\ (forall va, umem (k_mem s') U0 va = umem (k_mem s) U0 va) /\
    ((r <> 0 /\ exists tabs' U', aspace kend s' l' r tabs' U' /\ copy_of s tabs0 U0 sz s' tabs' U' /\
        (forall w, UPAGES <= w < 2 ^ 20 -> pte_of (k_mem s') tabs' w = kpte (kmaps kdata) w 0) /\
        pages_of r tabs' U' ++ l' ≡ₚ l) \/
     (r = 0 /\ exists leak, l' ++ leak ≡ₚ l /\ (length leak <= 1)%nat /\ Z.of_nat (length l) <= 1025 + first_page sz))).
Proof. intros Hl. by apply copyuvm_spec. Qed.
Lemma copyuvm_correct_witness : exists s l d tabs U, aspace demo_end s l d tabs U /\ (1089 <= length l)%nat /\
  wp (copyuvm demo_end demo_data d 4096) s (fun r s' => exists tabs' U', copy_of s tabs U 4096 s' tabs' U').
Proof.
  destruct (demo_parent 1089) as (s & l & d & tabs & U & H & HU & Hl); [lia|]. exists s, l, d, tabs, U.
  split; [exact H|]. split; [lia|].
  eapply wp_mono; [apply (copyuvm_correct demo_end demo_data s l d tabs U 4096 demo_linked H)|].
  - unfold KERNBASE. lia.
  - change (first_page 4096) with 1. intros w Hw. replace w with 0 by lia. exact HU.
  - intros r s' (l' & _ & _ & [(_ & tabs' & U' & _ & Hc & _)|(_ & _ & _ & _ & Hn)]); [by exists tabs', U'|].
    change (first_page 4096) with 1 in Hn. lia.
Defined.

(** The error path of [copyuvm] loses a page: with 66 free pages the
    directory and the kernel's tables take 65, the copy of the first user page
    the last one, and when [mappages] then finds no page for a table the copy
    is neither mapped nor freed.  The call returns 0 with 65 pages free. *)
Theorem copyuvm_leaks_page kend kdata s l d0 tabs0 U0 sz :
  linked kend kdata -> aspace kend s l d0 tabs0 U0 -> 0 < sz <= KERNBASE -> is_Some (U0 !! 0) -> length l = 66%nat ->
  wp (copyuvm kend kdata d0 sz) s (fun r s' => r = 0 /\ exists l', aspace kend s' l' d0 tabs0 U0 /\ length l' = 65%nat).
Proof.
  intros Hlk H0 Hsz HU Hlen. pose proof Hlk as [Hend Hdata]. pose proof (aspace_sep _ _ _ _ _ _ H0) as (Hg0 & _).
  pose proof (vs_kmem _ _ _ _ _ (as_v _ _ _ _ _ _ H0)) as Hk0.
  unfold copyuvm. wp_step. eapply wp_mono; [by apply (setupkvm_spec kend Hend kdata Hdata s l)|].
  intros d s1 [(_ & l1 & _ & _ & HL & _)|(tabs & l1 & H1 & HP & _ & HT1 & HK)]; [lia|].
  pose proof (aspace_sep _ _ _ _ _ _ H1) as (Hg1 & _). destruct (Hg1 d) as [Hgd _]; [by left|]. rewrite (good_ne_0 kend d Hgd).
  assert (Ht : length (vals tabs) = 64%nat).
  { apply (vals_length tabs ktables); [|exact HK]. unfold ktables. apply NoDup_app.
    split_and!; [apply NoDup_seqZ| |apply NoDup_seqZ]. intros i Hi. rewrite elem_of_seqZ in *. lia. }
  assert (Hl1 : length l1 = 1%nat) by (pose proof (Permutation_length HP) as E; simpl in E; rewrite length_app in E; lia).
  destruct l1 as [|p [|]]; try done.
  assert (Hsub : forall q, q ∈ d :: vals tabs ++ [p] -> q ∈ l) by (intros q; by rewrite HP).
  destruct (parent_frame kend s l d0 tabs0 U0 s1 [p] l H0) as (A & _); [apply H1|exact HT1|apply Hk0| |].
  { intros q Hq. destruct (Hg0 q Hq). split; [done|]. intros Hin. by apply H2, Hsub; right; apply elem_of_app; right. }
  destruct (Z.to_nat (sz / PGSIZE + 1)) as [|n] eqn:En; [pose proof (Z.div_pos sz PGSIZE); unfold PGSIZE in *; lia|].
  eapply wp_mono; [apply (copy_leaks kend kdata Hlk s1 p d0 tabs0 U0 d tabs sz n A H1); [lia|done|]|].
  { destruct (tabs !! 0) eqn:E; [|done]. assert (0 ∈ ktables) as Hin by (apply HK; eauto). apply ktables_elem in Hin. lia. }
  unfold pages_of. rewrite vals_empty, app_nil_r. intros r s2 (-> & l2 & Hk2 & HP2 & HT2). split; [done|]. exists l2. split.
  - eapply (parent_frame kend s1 [p] d0 tabs0 U0 s2 l2 (p :: d :: vals tabs) A Hk2 HT2).
    + intros q Hq. apply (ko_page _ _ _ Hk0), Hsub. rewrite !elem_of_cons in Hq. rewrite elem_of_cons, elem_of_app, list_elem_of_singleton. tauto.
    + intros q Hq. destruct (Hg0 q Hq) as [_ Hn]. rewrite HP2.
      split; intros Hin; apply Hn, Hsub; rewrite !elem_of_cons in Hin; rewrite elem_of_cons, elem_of_app, ?list_elem_of_singleton; tauto.
  - rewrite HP2. simpl. lia.
Qed.
Lemma copyuvm_leaks_page_witness : exists s (l : list Z) d, length l = 66%nat /\
  wp (copyuvm demo_end demo_data d 4096) s (fun r s' => r = 0 /\ exists l', kmem_ok demo_end s' l' /\ length l' = 65%nat).
Proof.
  destruct (demo_parent 66) as (s & l & d & tabs & U & H & HU & Hl); [lia|]. exists s, l, d. split; [exact Hl|].
  eapply wp_mono; [apply (copyuvm_leaks_page demo_end demo_data s l d tabs U 4096 demo_linked H ltac:(unfold KERNBASE; lia) HU Hl)|].
  intros r s' (-> & l' & H' & Hl'). split; [reflexivity|]. exists l'. split; [apply H'|exact Hl'].
Defined.

(** [allocuvm] grows a process from [oldsz] to [newsz] bytes: every page
    of the new part is a page that was free, zeroed and writable by the user,
    and the rest of the space is as before.  When memory runs out it returns 0
    and the user part, contents and permissions, is exactly what it was, with
    every page accounted for. *)
Theorem allocuvm_correct kend s l d tabs U oldsz newsz :
  KERNBASE < kend -> aspace kend s l d tabs U -> 0 <= oldsz <= newsz -> newsz < KERNBASE ->
  (forall w, first_page oldsz <= w < first_page newsz -> U !! w = None) ->
  wp (allocuvm kend d oldsz newsz) s (fun r s' =>
    (r = newsz /\ exists l' tabs' U',
       grew kend (fun _ => 7) (fun _ => Some 0) s l d tabs U (first_page oldsz) (first_page newsz) s' l' tabs' U') \/
    (r = 0 /\ (exists l' tabs', undone kend s l d tabs U U s' l' tabs') /\
     Z.of_nat (length (vals tabs) + length l) <= 1024 + (first_page newsz - first_page oldsz))).
Proof. intros Hend. by apply allocuvm_spec. Qed.
Lemma allocuvm_correct_witness : exists s l d, kmem_ok demo_end s l /\
  wp (allocuvm demo_end d 0 9000) s (fun r s' => r = 9000).
Proof.
  destruct demo_linked as [He Hd]. destruct (demo_pages 4000) as (s & l & Hok & Hl); [lia|].
  destruct (wp_inv _ _ _ (setupkvm_spec demo_end He demo_data Hd s l Hok)) as (d & s1 & _ & [(_ & l1 & _ & _ & HL & _)|(tabs & l1 & H1 & HP & _)]); [lia|].
  exists s1, l1, d. split; [apply H1|].
  eapply wp_mono; [apply (allocuvm_correct demo_end s1 l1 d tabs ∅ 0 9000 He H1); [lia|reflexivity|reflexivity]|].
  intros r s' [[E _]|(_ & _ & Hn)]; [exact E|].
  pose proof (Permutation_length HP) as E. simpl in E. rewrite length_app in E. change (first_page 9000 - first_page 0) with 3 in Hn. lia.
Defined.

(** C30.  [freevm] gives back exactly the pages of the address space: the
    user pages, the page tables and the directory, each once, and it touches no
    other memory; it never panics. *)
Theorem freevm_returns_pages kend s l d tabs U :
  KERNBASE < kend -> aspace kend s l d tabs U ->
  wp (freevm kend d) s (fun _ s' => exists l', kmem_ok kend s' l' /\ l' ≡ₚ pages_of d tabs U ++ l /\
    touched (pages_of d tabs U) (k_mem s) (k_mem s')).
Proof. intros Hend. by apply freevm_spec. Qed.
Lemma freevm_returns_pages_witness : exists s l d, kmem_ok demo_end s l /\
  wp (freevm demo_end d) s (fun _ s' => exists l', kmem_ok demo_end s' l' /\ (length l < length l')%nat).
Proof.
  destruct (demo_parent 10) as (s & l & d & tabs & U & H & _); [lia|]. exists s, l, d. split; [apply H|].
  eapply wp_mono; [apply (freevm_returns_pages demo_end s l d tabs U (lk_end _ _ demo_linked) H)|].
  intros [] s' (l' & Hk & HP & _). exists l'. split; [exact Hk|]. rewrite HP, length_app. unfold pages_of. simpl. lia.
Defined.

(** C29.  [copyout] to a range of user addresses below [2^32] for which the
    space has page tables (the pages may be missing or the kernel's) writes the
    bytes from [va] on, up to the first page the user may not use. It returns 0
    when all were written and -1 otherwise; the memory outside the user pages of
    the space, the page tables and the kernel's memory included, is never
    written. Where there is no page table [uva2ka] reads through a null entry,
    and nothing is claimed. *)
Theorem copyout_correct kend s l d tabs U va bs :
  aspace kend s l d tabs U -> 0 <= va < 2 ^ 32 -> va + Z.of_nat (length bs) <= 2 ^ 32 ->
  (forall x, va <= x < va + Z.of_nat (length bs) -> is_Some (tabs !! (x / 4096 / 1024))) ->
  wp (copyout d va bs) s (fun r s' => aspace kend s' l d tabs U /\ exists k, put_bytes s tabs U va bs k s' /\
    ((r = 0 /\ k = Z.of_nat (length bs)) \/
     (r = -1 /\ k < Z.of_nat (length bs) /\ ~ accessible (k_mem s) tabs ((va + k) / 4096)))).
Proof.
  intros H Hva Hr Htabs. apply copyout_loop_spec; try done. unfold PGSIZE.
  pose proof (Z_div_mod_eq_full (Z.of_nat (length bs)) 4096). pose proof (Z.mod_pos_bound (Z.of_nat (length bs)) 4096).
  pose proof (Z.mod_pos_bound va 4096). lia.
Qed.
Lemma copyout_correct_witness : exists s d tabs U,
  wp (copyout d 100 [104; 105; 0]) s (fun r s' => exists k, put_bytes s tabs U 100 [104; 105; 0] k s').
Proof.
  destruct (demo_parent 10) as (s & l & d & tabs & U & H & [p Hp] & _); [lia|]. exists s, d, tabs, U.
  eapply wp_mono; [apply (copyout_correct demo_end s l d tabs U 100 [104; 105; 0] H); [lia|simpl; lia|]|].
  - intros x Hx. simpl in Hx. pose proof (as_pte _ _ _ _ _ _ H 0 ltac:(unfold UPAGES; lia)) as Hpt. rewrite Hp in Hpt.
    rewrite (Z.div_small x 4096) by lia. change (0 / 1024) with 0. destruct (tabs !! 0) eqn:E; [by eexists|].
    rewrite pte_no_table in Hpt by exact E. destruct Hpt as [Hf _]. discriminate Hf.
  - intros r s' (_ & k & Hk & _). exists k. exact Hk.
Defined.
