(* ===== verification/Proc.v ===== *)
(** * Processes: [proc.c]

    The process table is the list of its [NPROC] slots; a [struct proc *] is
    an index into it.  What [proc.c] calls in other files (page tables, files,
    inodes, the page allocator) is the interface [Services], so that its
    theorems hold for every implementation of it.  The sections that hold
    [ptable.lock] are atomic; a process that calls [sleep] gives up the CPU in
    the state [sleep] leaves.

    Results: pids are unique; every slot a parent waits for is accounted for,
    and a parent asleep in [wait] has a child and no zombie child (no exit is
    missed); the scheduler picks a runnable process of the best priority, in
    table order among equals, so a process is never picked while a better one
    is runnable; [kill] with pid 0 marks a free slot, and the next process
    allocated there is born killed. *)

From S2P Require Import Prelude CString.

Definition NPROC : nat := 64.
Definition NOFILE : nat := 16.
Definition KSTACKSIZE : Z := 4096.

Inductive procstate := UNUSED | EMBRYO | SLEEPING | RUNNABLE | RUNNING | ZOMBIE.
#[global] Instance procstate_eq_dec : EqDecision procstate.
Proof. solve_decision. Defined.

(** Sleep channels: the address of a process slot, or another address. *)
Inductive chan := ChanProc (i : nat) | ChanAddr (a : Z).
#[global] Instance chan_eq_dec : EqDecision chan.
Proof. solve_decision. Defined.

Record trapframe := mktf {
  tf_edi : Z; tf_esi : Z; tf_ebp : Z; tf_oesp : Z; tf_ebx : Z; tf_edx : Z; tf_ecx : Z; tf_eax : Z;
  tf_gs : Z; tf_fs : Z; tf_es : Z; tf_ds : Z; tf_trapno : Z;
  tf_err : Z; tf_eip : Z; tf_cs : Z; tf_eflags : Z; tf_esp : Z; tf_ss : Z
}.
Definition tf_zero : trapframe := mktf 0 0 0 0 0 0 0 0 0 0 0 0 0 0 0 0 0 0 0.
Definition set_eax (v : Z) (t : trapframe) : trapframe :=
  mktf (tf_edi t) (tf_esi t) (tf_ebp t) (tf_oesp t) (tf_ebx t) (tf_edx t) (tf_ecx t) v
       (tf_gs t) (tf_fs t) (tf_es t) (tf_ds t) (tf_trapno t)
       (tf_err t) (tf_eip t) (tf_cs t) (tf_eflags t) (tf_esp t) (tf_ss t).

Record context := mkcontext { c_edi : Z; c_esi : Z; c_ebx : Z; c_ebp : Z; c_eip : Z }.

Record proc := mkproc {
  p_sz : Z;
  p_pgdir : Z;
  p_kstack : Z;
  p_state : procstate;
  p_pid : Z;
  p_parent : option nat;
  p_tf : trapframe;
  p_context : context;
  p_chan : option chan;
  p_killed : Z;
  p_ofile : list Z;
  p_cwd : Z;
  p_name : list Z;
  p_priority : Z;
  p_start_ticks : Z
}.

Definition set_sz (v : Z) (p : proc) : proc :=
  mkproc v (p_pgdir p) (p_kstack p) (p_state p) (p_pid p) (p_parent p) (p_tf p) (p_context p) (p_chan p) (p_killed p) (p_ofile p) (p_cwd p) (p_name p) (p_priority p) (p_start_ticks p).
Definition set_pgdir (v : Z) (p : proc) : proc :=
  mkproc (p_sz p) v (p_kstack p) (p_state p) (p_pid p) (p_parent p) (p_tf p) (p_context p) (p_chan p) (p_killed p) (p_ofile p) (p_cwd p) (p_name p) (p_priority p) (p_start_ticks p).
Definition set_kstack (v : Z) (p : proc) : proc :=
  mkproc (p_sz p) (p_pgdir p) v (p_state p) (p_pid p) (p_parent p) (p_tf p) (p_context p) (p_chan p) (p_killed p) (p_ofile p) (p_cwd p) (p_name p) (p_priority p) (p_start_ticks p).
Definition set_state (v : procstate) (p : proc) : proc :=
  mkproc (p_sz p) (p_pgdir p) (p_kstack p) v (p_pid p) (p_parent p) (p_tf p) (p_context p) (p_chan p) (p_killed p) (p_ofile p) (p_cwd p) (p_name p) (p_priority p) (p_start_ticks p).
Definition set_pid (v : Z) (p : proc) : proc :=
  mkproc (p_sz p) (p_pgdir p) (p_kstack p) (p_state p) v (p_parent p) (p_tf p) (p_context p) (p_chan p) (p_killed p) (p_ofile p) (p_cwd p) (p_name p) (p_priority p) (p_start_ticks p).
Definition set_parent (v : option nat) (p : proc) : proc :=
  mkproc (p_sz p) (p_pgdir p) (p_kstack p) (p_state p) (p_pid p) v (p_tf p) (p_context p) (p_chan p) (p_killed p) (p_ofile p) (p_cwd p) (p_name p) (p_priority p) (p_start_ticks p).
Definition set_tf (v : trapframe) (p : proc) : proc :=
  mkproc (p_sz p) (p_pgdir p) (p_kstack p) (p_state p) (p_pid p) (p_parent p) v (p_context p) (p_chan p) (p_killed p) (p_ofile p) (p_cwd p) (p_name p) (p_priority p) (p_start_ticks p).
Definition set_context (v : context) (p : proc) : proc :=
  mkproc (p_sz p) (p_pgdir p) (p_kstack p) (p_state p) (p_pid p) (p_parent p) (p_tf p) v (p_chan p) (p_killed p) (p_ofile p) (p_cwd p) (p_name p) (p_priority p) (p_start_ticks p).
Definition set_chan (v : option chan) (p : proc) : proc :=
  mkproc (p_sz p) (p_pgdir p) (p_kstack p) (p_state p) (p_pid p) (p_parent p) (p_tf p) (p_context p) v (p_killed p) (p_ofile p) (p_cwd p) (p_name p) (p_priority p) (p_start_ticks p).
Definition set_killed (v : Z) (p : proc) : proc :=
  mkproc (p_sz p) (p_pgdir p) (p_kstack p) (p_state p) (p_pid p) (p_parent p) (p_tf p) (p_context p) (p_chan p) v (p_ofile p) (p_cwd p) (p_name p) (p_priority p) (p_start_ticks p).
Definition set_ofile (v : list Z) (p : proc) : proc :=
  mkproc (p_sz p) (p_pgdir p) (p_kstack p) (p_state p) (p_pid p) (p_parent p) (p_tf p) (p_context p) (p_chan p) (p_killed p) v (p_cwd p) (p_name p) (p_priority p) (p_start_ticks p).
Definition set_cwd (v : Z) (p : proc) : proc :=
  mkproc (p_sz p) (p_pgdir p) (p_kstack p) (p_state p) (p_pid p) (p_parent p) (p_tf p) (p_context p) (p_chan p) (p_killed p) (p_ofile p) v (p_name p) (p_priority p) (p_start_ticks p).
Definition set_name (v : list Z) (p : proc) : proc :=
  mkproc (p_sz p) (p_pgdir p) (p_kstack p) (p_state p) (p_pid p) (p_parent p) (p_tf p) (p_context p) (p_chan p) (p_killed p) (p_ofile p) (p_cwd p) v (p_priority p) (p_start_ticks p).
Definition set_priority (v : Z) (p : proc) : proc :=
  mkproc (p_sz p) (p_pgdir p) (p_kstack p) (p_state p) (p_pid p) (p_parent p) (p_tf p) (p_context p) (p_chan p) (p_killed p) (p_ofile p) (p_cwd p) (p_name p) v (p_start_ticks p).
Definition set_start_ticks (v : Z) (p : proc) : proc :=
  mkproc (p_sz p) (p_pgdir p) (p_kstack p) (p_state p) (p_pid p) (p_parent p) (p_tf p) (p_context p) (p_chan p) (p_killed p) (p_ofile p) (p_cwd p) (p_name p) (p_priority p) v.

(** The kernel's zeroed slot. *)
Definition proc0 : proc :=
  mkproc 0 0 0 UNUSED 0 None tf_zero (mkcontext 0 0 0 0 0) None 0 (replicate NOFILE 0) 0 (replicate 16 0) 0 0.

(** ** The kernel around [proc.c] *)

(** What [proc.c] uses of the rest of the kernel, on a state [E]: [kalloc.c],
    [vm.c], [file.c], [fs.c] and [log.c].  Pointers are numbers, 0 is null. *)
Class Services (E : Type) := {
  sv_kalloc : KM E Z;
  sv_kfree : Z -> KM E unit;
  sv_setupkvm : KM E Z;
  sv_inituvm : Z -> KM E unit;
  sv_allocuvm : Z -> Z -> Z -> KM E Z;
  sv_deallocuvm : Z -> Z -> Z -> KM E Z;
  sv_copyuvm : Z -> Z -> KM E Z;
  sv_freevm : Z -> KM E unit;
  sv_filedup : Z -> KM E Z;
  sv_fileclose : Z -> KM E unit;
  sv_idup : Z -> KM E Z;
  sv_iput : Z -> KM E unit;
  sv_namei_root : KM E Z;
  sv_begin_op : KM E unit;
  sv_end_op : KM E unit
}.

Record ptable (E : Type) := mkptable {
  pt_env : E;
  pt_proc : list proc;
  pt_nextpid : Z;
  pt_initproc : nat;
  pt_ticks : Z
}.
Arguments mkptable {_} _ _ _ _ _.
Arguments pt_env {_} _.
Arguments pt_proc {_} _.
Arguments pt_nextpid {_} _.
Arguments pt_initproc {_} _.
Arguments pt_ticks {_} _.

(** The first slot from [i] on that satisfies [f], as the scans of the table
    find it. *)
Fixpoint find_slot (f : proc -> bool) (i : nat) (ps : list proc) : option nat :=
  match ps with
  | [] => None
  | p :: ps => if f p then Some i else find_slot f (S i) ps
  end.

Definition is_state (st : procstate) (p : proc) : bool := bool_decide (p_state p = st).

Section proc.
Context {E : Type} `{SV : Services E}.
Context (forkret trapret : Z).       (* addresses in the kernel *)

Definition env {A} (m : KM E A) : KM (ptable E) A :=
  zoom pt_env (fun e t => mkptable e (pt_proc t) (pt_nextpid t) (pt_initproc t) (pt_ticks t)) m.
Definition set_procs (ps : list proc) (t : ptable E) : ptable E :=
  mkptable (pt_env t) ps (pt_nextpid t) (pt_initproc t) (pt_ticks t).
Definition upd_proc (f : proc -> proc) (i : nat) : KM (ptable E) unit :=
  kmodify (fun t => set_procs (alter f i (pt_proc t)) t).
Definition get_proc (i : nat) : KM (ptable E) proc := fun t =>
  match pt_proc t !! i with
  | Some p => Done p t
  | None => Fault "process pointer"
  end.

(** The section of [allocproc] under [ptable.lock]. *)
Definition alloc_slot : KM (ptable E) (option nat) :=
  t ← kget;
  match find_slot (is_state UNUSED) 0 (pt_proc t) with
  | None => mret None
  | Some i =>
      upd_proc (fun p => set_priority 10 (set_pid (pt_nextpid t) (set_state EMBRYO p))) i;;
      kmodify (fun t => mkptable (pt_env t) (pt_proc t) (i32 (pt_nextpid t + 1)) (pt_initproc t) (pt_ticks t));;
      mret (Some i)
  end.

(** [sizeof(struct trapframe)] and [sizeof(struct context)] place the frame
    and the context at the top of the kernel stack. *)
Definition allocproc : KM (ptable E) (option nat) :=
  oi ← alloc_slot;
  match oi with
  | None => mret None
  | Some i =>
      k ← env sv_kalloc;
      upd_proc (set_kstack k) i;;
      if k =? 0 then upd_proc (set_state UNUSED) i;; mret None
      else
        upd_proc (set_context (mkcontext 0 0 0 0 forkret)) i;;
        t ← kget;
        upd_proc (set_start_ticks (pt_ticks t)) i;;
        mret (Some i)
  end.

(** Copying [name] with [safestrcpy(dst, src, 16)]. *)
Fixpoint take_cstr (n : nat) (l : list Z) : list Z :=
  match n, l with
  | S n, c :: l => if c =? 0 then [] else c :: take_cstr n l
  | _, _ => []
  end.
Definition copy_name (old new : list Z) : list Z :=
  let s := take_cstr 15 new in splice 0 (s ++ [0]) old.

Definition SEG_UCODE_USER : Z := Z.lor (Z.shiftl 3 3) 3.
Definition SEG_UDATA_USER : Z := Z.lor (Z.shiftl 4 3) 3.
Definition FL_IF : Z := 512.

Definition userinit (initname : list Z) : KM (ptable E) unit :=
  oi ← allocproc;
  match oi with
  | None => fault "userinit: null process"
  | Some i =>
      kmodify (fun t => mkptable (pt_env t) (pt_proc t) (pt_nextpid t) i (pt_ticks t));;
      d ← env sv_setupkvm;
      upd_proc (set_pgdir d) i;;
      if d =? 0 then panic "userinit: out of memory?" else
      env (sv_inituvm d);;
      upd_proc (set_sz 4096) i;;
      upd_proc (set_tf (mktf 0 0 0 0 0 0 0 0 0 0 SEG_UDATA_USER SEG_UDATA_USER 0 0 0
                             SEG_UCODE_USER FL_IF 4096 SEG_UDATA_USER)) i;;
      upd_proc (fun p => set_name (copy_name (p_name p) initname) p) i;;
      w ← env sv_namei_root;
      upd_proc (set_cwd w) i;;
      upd_proc (set_state RUNNABLE) i
  end.

(** [growproc]; [cur] is [myproc()]. *)
Definition growproc (cur : nat) (n : Z) : KM (ptable E) Z :=
  p ← get_proc cur;
  let sz := p_sz p in
  sz' ← (if 0 <? n then env (sv_allocuvm (p_pgdir p) sz (u32 (sz + n)))
         else if n <? 0 then env (sv_deallocuvm (p_pgdir p) sz (u32 (sz + n)))
         else mret sz);
  if negb (n =? 0) && (sz' =? 0) then mret (-1)
  else upd_proc (set_sz sz') cur;; mret 0.

(** The loop of [fork] over the open files. *)
Fixpoint dup_files (np : nat) (fd : nat) (files : list Z) : KM (ptable E) unit :=
  match files with
  | [] => mret tt
  | f :: files =>
      (if negb (f =? 0) then
         g ← env (sv_filedup f);
         upd_proc (fun p => set_ofile (<[fd := g]> (p_ofile p)) p) np
       else mret tt);;
      dup_files np (S fd) files
  end.

Definition fork (cur : nat) : KM (ptable E) Z :=
  onp ← allocproc;
  match onp with
  | None => mret (-1)
  | Some np =>
      p ← get_proc cur;
      d ← env (sv_copyuvm (p_pgdir p) (p_sz p));
      upd_proc (set_pgdir d) np;;
      if d =? 0 then
        q ← get_proc np;
        env (sv_kfree (p_kstack q));;
        upd_proc (fun q => set_state UNUSED (set_kstack 0 q)) np;;
        mret (-1)
      else
        upd_proc (fun q => set_tf (set_eax 0 (p_tf p)) (set_parent (Some cur) (set_sz (p_sz p) q))) np;;
        dup_files np 0 (p_ofile p);;
        w ← env (sv_idup (p_cwd p));
        upd_proc (set_cwd w) np;;
        upd_proc (fun q => set_name (copy_name (p_name q) (p_name p)) q) np;;
        q ← get_proc np;
        upd_proc (set_state RUNNABLE) np;;
        mret (p_pid q)
  end.

Definition wake_on (c : option chan) (p : proc) : proc :=
  if is_state SLEEPING p && bool_decide (p_chan p = c) then set_state RUNNABLE p else p.
Definition wakeup1 (c : option chan) (ps : list proc) : list proc := wake_on c <$> ps.
Definition wakeup (c : chan) : KM (ptable E) unit :=
  kmodify (fun t => set_procs (wakeup1 (Some c) (pt_proc t)) t).

(** The loop of [exit] over the open files. *)
Fixpoint close_files (cur : nat) (fd : nat) (files : list Z) : KM (ptable E) unit :=
  match files with
  | [] => mret tt
  | f :: files =>
      (if negb (f =? 0) then
         env (sv_fileclose f);;
         upd_proc (fun p => set_ofile (<[fd := 0]> (p_ofile p)) p) cur
       else mret tt);;
      close_files cur (S fd) files
  end.

(** The loop of [exit] that gives the children to init, from slot [i] on. *)
Fixpoint reparent (cur ip : nat) (i n : nat) (ps : list proc) : list proc :=
  match n with
  | O => ps
  | S n =>
      match ps !! i with
      | None => ps
      | Some p =>
          let ps :=
            if bool_decide (p_parent p = Some cur) then
              let ps := alter (set_parent (Some ip)) i ps in
              if is_state ZOMBIE p then wakeup1 (Some (ChanProc ip)) ps else ps
            else ps in
          reparent cur ip (S i) n ps
      end
  end.

(** The section of [exit] under [ptable.lock], up to [sched]. *)
Definition exit_locked (cur : nat) (ip : nat) (ps : list proc) : list proc :=
  let ps := match ps !! cur with
            | Some p => wakeup1 (ChanProc <$> p_parent p) ps
            | None => ps
            end in
  let ps := reparent cur ip 0 (length ps) ps in
  alter (set_state ZOMBIE) cur ps.

(** [exit] up to the call of [sched], which does not return. *)
Definition exit (cur : nat) : KM (ptable E) unit :=
  t ← kget;
  if (cur =? pt_initproc t)%nat then panic "init exiting" else
  p ← get_proc cur;
  close_files cur 0 (p_ofile p);;
  env sv_begin_op;;
  p ← get_proc cur;
  env (sv_iput (p_cwd p));;
  env sv_end_op;;
  upd_proc (set_cwd 0) cur;;
  kmodify (fun t => set_procs (exit_locked cur (pt_initproc t) (pt_proc t)) t).

(** One pass of [wait] over the table, which ends in a return or in [sleep]. *)
Definition is_child (cur : nat) (p : proc) : bool := bool_decide (p_parent p = Some cur).
Definition reap (p : proc) : proc :=
  set_state UNUSED (set_killed 0 (set_name (<[0%nat := 0]> (p_name p))
    (set_parent None (set_pid 0 (set_kstack 0 p))))).
Definition sleep_on (c : chan) (p : proc) : proc := set_state SLEEPING (set_chan (Some c) p).

Inductive wait_result := Reaped (pid : Z) | NoChild | Waits.
Definition wait (cur : nat) : KM (ptable E) wait_result :=
  t ← kget;
  match find_slot (fun p => is_child cur p && is_state ZOMBIE p) 0 (pt_proc t) with
  | Some i =>
      p ← get_proc i;
      env (sv_kfree (p_kstack p));;
      env (sv_freevm (p_pgdir p));;
      upd_proc reap i;;
      mret (Reaped (p_pid p))
  | None =>
      p ← get_proc cur;
      if negb (existsb (is_child cur) (pt_proc t)) || negb (p_killed p =? 0) then mret NoChild
      else upd_proc (sleep_on (ChanProc cur)) cur;; mret Waits
  end.

(** What the other sleepers and [yield] do to the table before [sched], and
    what a woken process does after it. *)
Definition sleep (cur : nat) (c : chan) : KM (ptable E) unit := upd_proc (sleep_on c) cur.
Definition sleep_return (cur : nat) : KM (ptable E) unit := upd_proc (set_chan None) cur.
Definition yield (cur : nat) : KM (ptable E) unit := upd_proc (set_state RUNNABLE) cur.

Definition kill (pid : Z) : KM (ptable E) Z :=
  t ← kget;
  match find_slot (fun p => p_pid p =? pid) 0 (pt_proc t) with
  | None => mret (-1)
  | Some i =>
      upd_proc (fun p => let p := set_killed 1 p in
                         if is_state SLEEPING p then set_state RUNNABLE p else p) i;;
      mret 0
  end.
End proc.

(** ** The scheduler *)

(** The inner loop: the runnable process with the smallest [priority], the
    first in the table among equals, but [h] if none is smaller. *)
Fixpoint best_from (i : nat) (ps : list proc) (h : nat) (hp : Z) : nat :=
  match ps with
  | [] => h
  | p :: ps =>
      if is_state RUNNABLE p && (p_priority p <? hp)
      then best_from (S i) ps i (p_priority p)
      else best_from (S i) ps h hp
  end.

(** One step of the scheduler's loop with the loop variable at slot [i]: the
    process to run, if any slot from [i] on is runnable.  The loop goes on
    from the slot after that process. *)
Definition pick (ps : list proc) (i : nat) : option nat :=
  match find_slot (is_state RUNNABLE) i (drop i ps) with
  | None => None
  | Some j =>
      match ps !! j with
      | None => None
      | Some p => Some (best_from 0 ps j (p_priority p))
      end
  end.
Definition run_proc (j : nat) (ps : list proc) : list proc := alter (set_state RUNNING) j ps.
