(* ===== verification/ProcSpec.v ===== *)
(** * Properties of the process table

    The scheduler's choice, and the life cycle of processes.  [step] interleaves
    the sections of [proc.c] at the points where other processes can run;
    [fork_steps], [exit_steps] and [growproc_step] show that the calls, when
    nothing comes between their sections, are sequences of these steps.  [pinv]
    is the invariant of the table, on the fields that the life cycle uses
    ([key]), and [calls_ok] that of the calls in progress; every step keeps
    them, whatever the rest of the kernel does. *)

From stdpp Require Import functions.
From S2P Require Import Prelude CString Proc.

(** ** The scheduler *)

Section scheduler.
Implicit Types (ps : list proc) (i j k h : nat).

Lemma find_slot_Some f ps : forall i j,
  find_slot f i ps = Some j -> (i <= j)%nat /\ (exists p, ps !! (j - i)%nat = Some p /\ f p = true) /\
    forall k p, (i <= k < j)%nat -> ps !! (k - i)%nat = Some p -> f p = false.
Proof.
  induction ps as [|p ps IH]; intros i j; [done|]. cbn [find_slot]. destruct (f p) eqn:Ef.
  - intros [= <-]. split; [lia|]. rewrite Nat.sub_diag. split; [eauto|lia].
  - intros (Hle & (q & Hq & Hf) & Hb)%IH. split; [lia|].
    split; [exists q; split; [|done]; by replace (j - i)%nat with (S (j - S i)) by lia|].
    intros k q' Hk. destruct (decide (k = i)) as [->|].
    + rewrite Nat.sub_diag. intros [= <-]. done.
    + replace (k - i)%nat with (S (k - S i)) by lia. apply Hb. lia.
Qed.
Lemma find_slot_None f ps : forall i, find_slot f i ps = None <-> forall k p, ps !! k = Some p -> f p = false.
Proof.
  induction ps as [|p ps IH]; intros i; cbn [find_slot]; [done|]. destruct (f p) eqn:Ef.
  - split; [done|]. intros H. by rewrite (H 0%nat p) in Ef.
  - rewrite IH. split.
    + intros H [|k] q; [by intros [= <-]|apply H].
    + intros H k q Hq. by apply (H (S k)).
Qed.

(** The process found, with its priority [bp]: [h], or the first slot that has
    the best priority. *)
Lemma best_from_spec ps : forall i h hp, exists bp,
  ((best_from i ps h hp = h /\ bp = hp) \/
   (exists k p, best_from i ps h hp = (i + k)%nat /\ ps !! k = Some p /\ p_state p = RUNNABLE /\
      bp = p_priority p /\ bp < hp /\
      forall k' q, (k' < k)%nat -> ps !! k' = Some q -> p_state q = RUNNABLE -> bp < p_priority q)) /\
  bp <= hp /\ forall k p, ps !! k = Some p -> p_state p = RUNNABLE -> bp <= p_priority p.
Proof.
  induction ps as [|p ps IH]; intros i h hp; cbn [best_from].
  { exists hp. split; [by left|]. split; [lia|done]. }
  destruct (is_state RUNNABLE p && (p_priority p <? hp)) eqn:Eb.
  - apply andb_true_iff in Eb as [Er Hlt]. apply bool_decide_eq_true in Er. apply Z.ltb_lt in Hlt.
    destruct (IH (S i) i (p_priority p)) as (bp & Hb & Hle & Hmin). exists bp. split; [|split; [lia|]].
    + right. destruct Hb as [[-> ->]|(k & q & -> & Hq & Hr & -> & Hlt' & Hfst)].
      * exists 0%nat, p. rewrite Nat.add_0_r. split_and!; try done. intros k' q Hk'. lia.
      * exists (S k), q. split_and!; [lia|done|done|done|lia|].
        intros [|k'] q' Hk'; [intros [= <-] _; lia|apply Hfst; lia].
    + intros [|k] q; [intros [= <-] _; lia|apply Hmin].
  - assert (Hp : p_state p = RUNNABLE -> hp <= p_priority p).
    { intros Hr. unfold is_state in Eb. rewrite bool_decide_eq_true_2 in Eb by done. simpl in Eb. apply Z.ltb_ge in Eb. lia. }
    destruct (IH (S i) h hp) as (bp & Hb & Hle & Hmin). exists bp. split; [|split; [done|]].
    + destruct Hb as [Hb|(k & q & -> & Hq & Hr & -> & Hlt & Hfst)]; [by left|right]. exists (S k), q.
      split_and!; [lia|done|done|done|done|]. intros [|k'] q' Hk'; [intros [= <-] Hr'; specialize (Hp Hr'); lia|apply Hfst; lia].
    + intros [|k] q; [|apply Hmin]. intros [= <-] Hr. specialize (Hp Hr). lia.
Qed.

(** C37.  The choice of the scheduler.  From any position of its loop it finds a
    process exactly if some slot from there on is runnable; it then picks a
    runnable process whose priority value no runnable process beats.  Among the
    processes of that priority it picks the first runnable one from the position
    on if that one is among them, and the lowest slot of the table otherwise.
    (Nothing is said about a process being picked eventually: with equal best
    priorities in slots on both sides of a worse one, the lower slot can be
    picked every time.) *)
Theorem scheduler_picks_best ps i :
  (pick ps i = None <-> forall k p, (i <= k)%nat -> ps !! k = Some p -> p_state p <> RUNNABLE) /\
  forall j, pick ps i = Some j ->
    exists p f pf, ps !! j = Some p /\ p_state p = RUNNABLE /\
      (forall k q, ps !! k = Some q -> p_state q = RUNNABLE -> p_priority p <= p_priority q) /\
      (i <= f)%nat /\ ps !! f = Some pf /\ p_state pf = RUNNABLE /\
      (forall k q, (i <= k < f)%nat -> ps !! k = Some q -> p_state q <> RUNNABLE) /\
      if p_priority pf =? p_priority p then j = f
      else forall k q, (k < j)%nat -> ps !! k = Some q -> p_state q = RUNNABLE -> p_priority p < p_priority q.
Proof.
  unfold pick. destruct (find_slot (is_state RUNNABLE) i (drop i ps)) as [h|] eqn:Ef.
  - apply find_slot_Some in Ef as (Hle & (ph & Hph & Hr) & Hb).
    rewrite lookup_drop in Hph. replace (i + (h - i))%nat with h in Hph by lia. rewrite Hph.
    apply bool_decide_eq_true in Hr. split.
    + split; [done|]. intros H. by destruct (H h ph).
    + intros j [= <-]. assert (Hbef : forall k q, (i <= k < h)%nat -> ps !! k = Some q -> p_state q <> RUNNABLE).
      { intros k q Hk Hq Hrq. assert (Hq' : ps !! (i + (k - i))%nat = Some q) by by replace (i + (k - i))%nat with k by lia.
        rewrite <- lookup_drop in Hq'. specialize (Hb k q). unfold is_state in Hb.
        rewrite (bool_decide_eq_true_2 _ Hrq) in Hb. by discriminate Hb. }
      destruct (best_from_spec ps 0 h (p_priority ph)) as (bp & Hbest & Hbp & Hmin).
      destruct Hbest as [[-> ->]|(k & p & -> & Hp & Hrp & -> & Hlt & Hfst)].
      * exists ph, h, ph. split_and!; try done. by rewrite Z.eqb_refl.
      * exists p, h, ph. split_and!; try done. by rewrite (proj2 (Z.eqb_neq _ _)) by lia.
  - rewrite find_slot_None in Ef. split; [|done]. split; [|done]. intros _ k p Hk Hp Hr.
    assert (Hp' : ps !! (i + (k - i))%nat = Some p) by by replace (i + (k - i))%nat with k by lia.
    rewrite <- lookup_drop in Hp'. apply Ef in Hp'. unfold is_state in Hp'.
    by rewrite bool_decide_eq_true_2 in Hp'.
Qed.

(** Slots of equal priority do not take turns: with priorities 5, 10 and 5 the
    loop that ran slot 0 goes on from slot 1 and runs slot 0 again. *)
Example equal_priorities_starve :
  let ps := [set_priority 5 (set_state RUNNABLE proc0); set_priority 10 (set_state RUNNABLE proc0); set_priority 5 (set_state RUNNABLE proc0)] in
  pick ps 0 = Some 0%nat /\ pick ps 1 = Some 0%nat.
Proof. done. Qed.
End scheduler.

(** ** The life cycle *)

(** The fields the life cycle uses. *)
Record key := mkkey { k_st : procstate; k_pid : Z; k_parent : option nat; k_chan : option chan }.
Definition key_of (p : proc) : key := mkkey (p_state p) (p_pid p) (p_parent p) (p_chan p).
Definition keys (ps : list proc) : list key := key_of <$> ps.

Definition live (k : key) : Prop := k_st k = SLEEPING \/ k_st k = RUNNABLE \/ k_st k = RUNNING.

(** The table at every moment, [ip] being init: parents are alive, every
    process but init has one, and a process asleep in [wait] has a child but
    no zombie child. *)
Record pinv (ks : list key) (ip : nat) : Prop := mk_pinv {
  pv_len : length ks = NPROC;
  pv_init : exists k, ks !! ip = Some k /\ live k /\ k_parent k = None;
  pv_self : forall i k, ks !! i = Some k -> k_parent k <> Some i;
  pv_parent : forall i k q, ks !! i = Some k -> k_parent k = Some q ->
    k_st k <> UNUSED /\ exists kq, ks !! q = Some kq /\ live kq;
  pv_child : forall i k, ks !! i = Some k -> k_st k <> UNUSED -> k_st k <> EMBRYO -> i <> ip -> is_Some (k_parent k);
  pv_wait : forall i k c, ks !! i = Some k -> k_st k = SLEEPING -> k_chan k = Some (ChanProc c) ->
    c = i /\ (exists j l, ks !! j = Some l /\ k_parent l = Some i) /\
    forall j l, ks !! j = Some l -> k_parent l = Some i -> k_st l <> ZOMBIE
}.

(** The pids, as long as [nextpid] has not wrapped around. *)
Record pids_ok (ks : list key) (nextpid : Z) : Prop := mk_pids_ok {
  pd_next : 1 <= nextpid;
  pd_range : forall i k, ks !! i = Some k -> k_st k <> UNUSED -> 1 <= k_pid k < nextpid;
  pd_uniq : forall i j k l, ks !! i = Some k -> ks !! j = Some l ->
    k_st k <> UNUSED -> k_st l <> UNUSED -> k_pid k = k_pid l -> i = j
}.

(** Where a process is in [fork] and [exit]: it has slot [n] as an embryo, it
    has made itself the parent of that embryo, or it is closing its files. *)
Inductive call := Free | Forking (n : nat) | Parented (n : nat) | Exiting.
Definition embryo_of (c : call) : option nat := match c with Forking n | Parented n => Some n | _ => None end.
Definition embryo_parent (q : nat) (c : call) : option nat := match c with Parented _ => Some q | _ => None end.

Record calls_ok (ks : list key) (ip : nat) (c : nat -> call) : Prop := mk_calls_ok {
  ca_live : forall q n, embryo_of (c q) = Some n -> exists k, ks !! q = Some k /\ live k;
  ca_slot : forall q n, embryo_of (c q) = Some n ->
    exists k, ks !! n = Some k /\ k_st k = EMBRYO /\ k_parent k = embryo_parent q (c q);
  ca_one : forall q q' n, embryo_of (c q) = Some n -> embryo_of (c q') = Some n -> q = q';
  ca_exit : forall q, c q = Exiting -> q <> ip
}.

Lemma live_not k : live k -> k_st k <> UNUSED /\ k_st k <> ZOMBIE /\ k_st k <> EMBRYO.
Proof. by intros [-> |[-> | ->]]. Qed.
Lemma keys_lookup ps i : keys ps !! i = key_of <$> ps !! i.
Proof. apply list_lookup_fmap. Qed.
Lemma keys_alter (f : proc -> proc) (g : key -> key) i ps :
  (forall p, key_of (f p) = g (key_of p)) -> keys (alter f i ps) = alter g i (keys ps).
Proof.
  intros H. apply list_eq. intros j. rewrite keys_lookup. destruct (decide (i = j)) as [<-|].
  - rewrite !list_lookup_alter_eq, keys_lookup. destruct (ps !! i); simpl; [by rewrite H|done].
  - by rewrite !list_lookup_alter_ne, keys_lookup by done.
Qed.
Lemma keys_silent (f : proc -> proc) i ps :
  (forall p, key_of (f p) = key_of p) -> keys (alter f i ps) = keys ps.
Proof.
  intros H. rewrite (keys_alter f id) by (intros p; apply H). apply list_eq. intros j. rewrite list_lookup_alter.
  case_decide; [subst|done]. destruct (keys ps !! j); reflexivity.
Qed.
Lemma keys_upd (f : proc -> proc) i ps p : ps !! i = Some p -> keys (alter f i ps) = <[i := key_of (f p)]> (keys ps).
Proof.
  intros Hp. rewrite (alter_insert _ _ _ _ Hp). unfold keys. apply list_fmap_insert.
Qed.

(** A slot that keeps its pid and parent and is neither born, freed nor made
    a zombie, nor sent to sleep in [wait]. *)
Definition krel (k l : key) : Prop :=
  (k_pid l = k_pid k \/ k_st l = UNUSED) /\ k_parent l = k_parent k /\ ((live k /\ live l) \/ k_st l = k_st k) /\
  forall c, k_st l = SLEEPING -> k_chan l = Some (ChanProc c) -> k_st k = SLEEPING /\ k_chan k = Some (ChanProc c).

Lemma krel_refl k : krel k k.
Proof. unfold krel. split; [by left|]. naive_solver. Qed.
Lemma krel_st k l : krel k l -> (k_st l = UNUSED <-> k_st k = UNUSED) /\ (k_st l = ZOMBIE <-> k_st k = ZOMBIE) /\
  (k_st l = EMBRYO <-> k_st k = EMBRYO) /\ (live l <-> live k).
Proof.
  intros (_ & _ & [[Hk Hl]|E] & _).
  - pose proof (live_not _ Hk). pose proof (live_not _ Hl). tauto.
  - unfold live. rewrite E. tauto.
Qed.

Lemma pinv_rel ks ks' ip : Forall2 krel ks ks' -> pinv ks ip -> pinv ks' ip.
Proof.
  intros HF [P1 P2 P0 P6 P7 P8].
  assert (Hlk : forall j l, ks' !! j = Some l -> exists k, ks !! j = Some k /\ krel k l).
  { intros j l. by apply Forall2_lookup_r. }
  assert (Hex : forall j k, ks !! j = Some k -> exists l, ks' !! j = Some l /\ krel k l).
  { intros j k. by apply Forall2_lookup_l. }
  split.
  - by rewrite <- (Forall2_length _ _ _ HF).
  - destruct P2 as (k & Hk & Hl & Hp). destruct (Hex _ _ Hk) as (l & Hl' & Hr). exists l.
    pose proof (krel_st _ _ Hr). destruct Hr as (_ & -> & _). tauto.
  - intros j l (k & Hk & _ & -> & _)%Hlk. by apply P0.
  - intros j l q (k & Hk & Hr)%Hlk Hq. pose proof (krel_st _ _ Hr). destruct Hr as (_ & E & _). rewrite E in Hq.
    destruct (P6 _ _ _ Hk Hq) as (? & kq & Hkq & Hlq). split; [tauto|].
    destruct (Hex _ _ Hkq) as (lq & Hlq' & Hr'%krel_st). exists lq. tauto.
  - intros j l (k & Hk & Hr)%Hlk. pose proof (krel_st _ _ Hr). destruct Hr as (_ & -> & _).
    specialize (P7 _ _ Hk). tauto.
  - intros j l c (k & Hk & _ & _ & _ & Hc)%Hlk Hs Hch. destruct (Hc _ Hs Hch) as [Hs' Hc'].
    destruct (P8 _ _ _ Hk Hs' Hc') as (-> & (j' & k' & Hk' & Hp') & Hz). split; [done|]. split.
    + destruct (Hex _ _ Hk') as (l' & Hl' & _ & E & _). exists j', l'. split; [done|]. by rewrite E.
    + intros j2 l2 (k2 & Hk2 & Hr)%Hlk. pose proof (krel_st _ _ Hr). destruct Hr as (_ & -> & _).
      specialize (Hz _ _ Hk2). tauto.
Qed.
Lemma pids_rel ks ks' np : Forall2 krel ks ks' -> pids_ok ks np -> pids_ok ks' np.
Proof.
  intros HF [P1 P4 P5].
  assert (Hlk : forall j l, ks' !! j = Some l -> exists k, ks !! j = Some k /\ krel k l).
  { intros j l. by apply Forall2_lookup_r. }
  split; [done| |].
  - intros j l (k & Hk & Hr)%Hlk. pose proof (krel_st _ _ Hr). destruct Hr as ([-> | ->] & _); [|done].
    specialize (P4 _ _ Hk). tauto.
  - intros j j' l l' (k & Hk & Hr)%Hlk (k' & Hk' & Hr')%Hlk. pose proof (krel_st _ _ Hr). pose proof (krel_st _ _ Hr').
    destruct Hr as ([-> | ->] & _), Hr' as ([-> | ->] & _); try done. specialize (P5 _ _ _ _ Hk Hk'). tauto.
Qed.

(** ** Calls in progress *)

Lemma calls_frame ks ks' ip c : calls_ok ks ip c ->
  (forall q k, is_Some (embryo_of (c q)) -> ks !! q = Some k -> live k -> exists k', ks' !! q = Some k' /\ live k') ->
  (forall q n k, embryo_of (c q) = Some n -> ks !! n = Some k -> k_st k = EMBRYO -> k_parent k = embryo_parent q (c q) ->
     exists k', ks' !! n = Some k' /\ k_st k' = EMBRYO /\ k_parent k' = k_parent k) ->
  calls_ok ks' ip c.
Proof.
  intros [C1 C2 C3 C4] H1 H2. split; [| |done|done].
  - intros q n E. destruct (C1 q n E) as (k & Hk & Hl). apply (H1 q k); eauto.
  - intros q n E. destruct (C2 q n E) as (k & Hk & Hs & Hp). destruct (H2 q n k E Hk Hs Hp) as (k' & ? & ? & Hp').
    exists k'. by rewrite Hp'.
Qed.
Lemma calls_rel ks ks' ip c : Forall2 krel ks ks' -> calls_ok ks ip c -> calls_ok ks' ip c.
Proof.
  intros HF HC. eapply calls_frame; [done| |].
  - intros q k _ Hk Hl. destruct (Forall2_lookup_l _ _ _ _ _ HF Hk) as (l & Hl' & Hr). exists l. split; [done|]. by apply (krel_st _ _ Hr).
  - intros q n k _ Hk Hs _. destruct (Forall2_lookup_l _ _ _ _ _ HF Hk) as (l & Hl' & Hr). exists l. split; [done|].
    split; [by apply (krel_st _ _ Hr)|]. by destruct Hr as (_ & ? & _).
Qed.
(** A slot that no call has as its embryo, and that is not alive, changes. *)
Lemma calls_other ks ip c n k0 k1 : calls_ok ks ip c -> ks !! n = Some k0 -> ~ live k0 ->
  (forall q, embryo_of (c q) <> Some n) -> calls_ok (<[n := k1]> ks) ip c.
Proof.
  intros HC Hn Hl Hq. eapply calls_frame; [done| |].
  - intros q k _ Hk Hlk. exists k. split; [|done]. rewrite list_lookup_insert_ne; [done|]. intros ->. congruence.
  - intros q m k E Hk Hs _. exists k. split; [|done]. rewrite list_lookup_insert_ne; [done|]. intros ->. by destruct (Hq q).
Qed.
(** A process ends its [fork], or begins its [exit]. *)
Lemma calls_set ks ip c cur x : calls_ok ks ip c -> embryo_of x = None -> (x = Exiting -> cur <> ip) ->
  calls_ok ks ip (<[cur := x]> c).
Proof.
  intros [C1 C2 C3 C4] Hx He.
  assert (Hq : forall q n, embryo_of (<[cur := x]> c q) = Some n -> <[cur := x]> c q = c q /\ embryo_of (c q) = Some n).
  { intros q n. destruct (decide (q = cur)) as [->|]; [rewrite fn_lookup_insert; congruence|by rewrite fn_lookup_insert_ne]. }
  split.
  - intros q n [_ E]%Hq. eauto.
  - intros q n [-> E]%Hq. eauto.
  - intros q q' n [_ E]%Hq [_ E']%Hq. eauto.
  - intros q. destruct (decide (q = cur)) as [->|]; [rewrite fn_lookup_insert; auto|rewrite fn_lookup_insert_ne by done; auto].
Qed.
(** A process has [n] as its embryo. *)
Lemma calls_begin ks ip c cur x n kc k : calls_ok ks ip c -> embryo_of x = Some n -> ks !! cur = Some kc -> live kc ->
  ks !! n = Some k -> k_st k = EMBRYO -> k_parent k = embryo_parent cur x ->
  (forall q, embryo_of (c q) = Some n -> q = cur) -> calls_ok ks ip (<[cur := x]> c).
Proof.
  intros [C1 C2 C3 C4] Hx Hc Hl Hk Hs Hp Hu. split.
  - intros q m. destruct (decide (q = cur)) as [->|]; [eauto|rewrite fn_lookup_insert_ne by done; apply C1].
  - intros q m. destruct (decide (q = cur)) as [->|].
    + rewrite fn_lookup_insert. intros E. exists k. by simplify_eq.
    + rewrite fn_lookup_insert_ne by done. apply C2.
  - intros q q' m. destruct (decide (q = cur)) as [->|], (decide (q' = cur)) as [->|]; try done;
      rewrite ?fn_lookup_insert, ?fn_lookup_insert_ne by done.
    + intros E E'. simplify_eq. symmetry. by apply Hu.
    + intros E E'. simplify_eq. by apply Hu.
    + apply C3.
  - intros q. destruct (decide (q = cur)) as [->|]; [rewrite fn_lookup_insert; intros ->; done|rewrite fn_lookup_insert_ne by done; apply C4].
Qed.
Lemma calls_ext ks ip c c' : (forall q, c' q = c q) -> calls_ok ks ip c -> calls_ok ks ip c'.
Proof. intros E [C1 C2 C3 C4]. split; intros q; rewrite ?E; eauto. intros q' n. rewrite !E. eauto. Qed.
(** Only the caller of [fork] has its embryo. *)
Lemma calls_alone ks ip c cur n q : calls_ok ks ip c -> embryo_of (c cur) = Some n ->
  embryo_of (<[cur := Free]> c q) <> Some n.
Proof.
  intros HC E. destruct (decide (q = cur)) as [->|Hq]; [by rewrite fn_lookup_insert|].
  rewrite fn_lookup_insert_ne by done. intros E'. destruct Hq. by eapply (ca_one _ _ _ HC).
Qed.

(** ** One slot changes *)

(** A slot that is not alive changes: its old parent, if any, and its new one
    are not asleep. *)
Lemma pinv_insert ks ip n k0 k1 :
  pinv ks ip -> ks !! n = Some k0 -> ~ live k0 -> k_st k1 <> SLEEPING ->
  (k_st k1 <> UNUSED -> k_st k1 <> EMBRYO -> is_Some (k_parent k1)) ->
  (forall q, k_parent k0 = Some q -> exists kq, ks !! q = Some kq /\ k_st kq <> SLEEPING) ->
  (forall q, k_parent k1 = Some q -> k_st k1 <> UNUSED /\ exists kq, ks !! q = Some kq /\ live kq /\ k_st kq <> SLEEPING) ->
  pinv (<[n := k1]> ks) ip.
Proof.
  intros [P1 P2 P0 P6 P7 P8] Hn Hd Hs1 Hc1 Hp0 Hp1.
  assert (Hlk : forall j, <[n := k1]> ks !! j = if decide (j = n) then Some k1 else ks !! j).
  { intros j. destruct (decide (j = n)) as [->|].
    - apply list_lookup_insert_eq. by eapply lookup_lt_Some.
    - by rewrite list_lookup_insert_ne. }
  assert (Hne : forall j k, ks !! j = Some k -> live k -> j <> n) by congruence.
  split.
  - by rewrite length_insert.
  - destruct P2 as (k & Hk & Hl & ?). exists k. rewrite Hlk, decide_False; [done|]. by apply (Hne _ _ Hk).
  - intros i k. rewrite Hlk. case_decide; [|apply P0]. subst i. intros [= <-] E. destruct (Hp1 _ E) as (_ & kq & Hkq & Hlq & _). congruence.
  - intros i k q. rewrite Hlk. case_decide.
    + intros [= <-] Hq. destruct (Hp1 _ Hq) as (? & kq & Hkq & Hlq & _). split; [done|]. exists kq.
      rewrite Hlk, decide_False; [done|]. by apply (Hne _ _ Hkq).
    + intros Hk Hq. destruct (P6 _ _ _ Hk Hq) as (? & kq & Hkq & Hlq). split; [done|]. exists kq.
      rewrite Hlk, decide_False; [done|]. by apply (Hne _ _ Hkq).
  - intros i k. rewrite Hlk. case_decide; [intros [= <-] ? ? _; auto|apply P7].
  - intros i k c. rewrite Hlk. case_decide; [by intros [= <-]|]. intros Hk Hs Hc.
    destruct (P8 _ _ _ Hk Hs Hc) as (-> & (j & l & Hl & Hp) & Hz). split; [done|]. split.
    + exists j, l. rewrite Hlk, decide_False; [done|]. intros ->. simplify_eq.
      destruct (Hp0 _ Hp) as (kq & Hkq & Hsq). congruence.
    + intros j2 l2. rewrite Hlk. case_decide; [|apply Hz]. intros [= <-] Hp2.
      destruct (Hp1 _ Hp2) as (_ & kq & Hkq & _ & Hsq). congruence.
Qed.
Lemma pids_insert ks np np' n k0 k1 : pids_ok ks np -> np <= np' -> ks !! n = Some k0 ->
  (k_st k1 = UNUSED \/ np <= k_pid k1 < np' \/ (k_st k0 <> UNUSED /\ k_pid k1 = k_pid k0)) ->
  pids_ok (<[n := k1]> ks) np'.
Proof.
  intros [P1 P4 P5] Hle Hn Hk1.
  assert (Hlk : forall j, <[n := k1]> ks !! j = if decide (j = n) then Some k1 else ks !! j).
  { intros j. destruct (decide (j = n)) as [->|].
    - apply list_lookup_insert_eq. by eapply lookup_lt_Some.
    - by rewrite list_lookup_insert_ne. }
  split; [lia| |].
  - intros i k. rewrite Hlk. case_decide.
    + intros [= <-] Hu. destruct Hk1 as [?|[?|[H0 E]]]; [done|lia|]. specialize (P4 _ _ Hn H0). lia.
    + intros Hk Hu. specialize (P4 _ _ Hk Hu). lia.
  - assert (Hno : forall j l, j <> n -> ks !! j = Some l -> k_st l <> UNUSED -> k_st k1 <> UNUSED -> k_pid k1 <> k_pid l).
    { intros j l Hj Hl Hu Hu1 E. destruct Hk1 as [?|[?|[H0 E0]]]; [done| |].
      - specialize (P4 _ _ Hl Hu). lia.
      - destruct Hj. by apply (P5 _ _ _ _ Hl Hn); [..|congruence]. }
    intros i j k l. rewrite !Hlk. destruct (decide (i = n)) as [->|], (decide (j = n)) as [->|]; try done.
    + intros [= <-] Hl Hu Hu' E. by destruct (Hno j l).
    + intros Hk [= <-] Hu Hu' E. by destruct (Hno i k).
    + apply P5.
Qed.

Lemma slot_rel ks i g :
  (forall k, ks !! i = Some k -> krel k (g k)) -> Forall2 krel ks (alter g i ks).
Proof.
  intros Hg. apply Forall2_same_length_lookup. split; [by rewrite length_alter|].
  intros j k l Hk. rewrite list_lookup_alter. case_decide; [subst|].
  - rewrite Hk. intros [= <-]. by apply Hg.
  - rewrite Hk. intros [= <-]. apply krel_refl.
Qed.

(** Waking the sleepers on a channel. *)
Definition kwake (c : option chan) (k : key) : key :=
  if bool_decide (k_st k = SLEEPING) && bool_decide (k_chan k = c)
  then mkkey RUNNABLE (k_pid k) (k_parent k) (k_chan k) else k.
Lemma keys_wakeup1 c ps : keys (wakeup1 c ps) = kwake c <$> keys ps.
Proof.
  unfold keys, wakeup1. rewrite <- !list_fmap_compose. apply list_fmap_ext. intros i p _. simpl.
  unfold wake_on, kwake, is_state. simpl. by destruct (bool_decide _ && bool_decide _).
Qed.

Lemma kwake_rel c k : krel k (kwake c k).
Proof.
  unfold kwake. destruct (bool_decide (k_st k = SLEEPING)) eqn:Es; simpl; [|apply krel_refl].
  apply bool_decide_eq_true in Es. destruct (bool_decide _); [|apply krel_refl].
  split; [by left|]. split; [done|]. split; [left; unfold live; simpl; tauto|done].
Qed.
Lemma wake_rel c ks : Forall2 krel ks (kwake c <$> ks).
Proof.
  apply Forall2_fmap_r, Forall2_same_length_lookup. split; [done|].
  intros j k l Hk Hl. simplify_eq. apply kwake_rel.
Qed.

(** ** [exit] *)

Lemma keys_length ps : length (keys ps) = length ps.
Proof. apply length_fmap. Qed.

(** What the loop over the children does to one slot. *)
Definition reparented (cur ip i : nat) (ks : list key) (j : nat) (k k' : key) : Prop :=
  k_pid k' = k_pid k /\ k_chan k' = k_chan k /\
  k_parent k' = (if decide ((i <= j)%nat /\ k_parent k = Some cur) then Some ip else k_parent k) /\
  (k_st k' = k_st k \/ (k_st k = SLEEPING /\ k_chan k = Some (ChanProc ip) /\ k_st k' = RUNNABLE)) /\
  (k_st k' = SLEEPING -> k_chan k = Some (ChanProc ip) ->
     forall j2 k2, (i <= j2)%nat -> ks !! j2 = Some k2 -> k_parent k2 = Some cur -> k_st k2 <> ZOMBIE).

(** One iteration, on keys. *)
Definition reparent1 (cur ip i : nat) (k : key) (ks : list key) : list key :=
  if bool_decide (k_parent k = Some cur) then
    let ks := alter (fun k => mkkey (k_st k) (k_pid k) (Some ip) (k_chan k)) i ks in
    if bool_decide (k_st k = ZOMBIE) then kwake (Some (ChanProc ip)) <$> ks else ks
  else ks.

Lemma keys_reparent_S cur ip i n ps p :
  ps !! i = Some p ->
  exists ps1, reparent cur ip i (S n) ps = reparent cur ip (S i) n ps1 /\
    keys ps1 = reparent1 cur ip i (key_of p) (keys ps) /\ length ps1 = length ps.
Proof.
  intros Hp. cbn [reparent]. rewrite Hp. eexists. split; [reflexivity|].
  unfold reparent1, is_state. simpl. destruct (bool_decide (p_parent p = Some cur)); [|done].
  assert (E : keys (alter (set_parent (Some ip)) i ps) =
    alter (fun k => mkkey (k_st k) (k_pid k) (Some ip) (k_chan k)) i (keys ps)) by by apply keys_alter.
  destruct (bool_decide (p_state p = ZOMBIE)).
  - rewrite keys_wakeup1, E. unfold wakeup1. by rewrite length_fmap, length_alter.
  - by rewrite E, length_alter.
Qed.

Lemma reparent1_spec cur ip i ks k0 : ip <> cur -> ks !! i = Some k0 -> forall j k, ks !! j = Some k ->
  exists k', reparent1 cur ip i k0 ks !! j = Some k' /\
  k_pid k' = k_pid k /\ k_chan k' = k_chan k /\
  k_parent k' = (if decide (i = j /\ k_parent k = Some cur) then Some ip else k_parent k) /\
  (k_st k' = k_st k \/ (k_st k = SLEEPING /\ k_chan k = Some (ChanProc ip) /\ k_st k' = RUNNABLE)) /\
  (k_st k' = SLEEPING -> k_chan k = Some (ChanProc ip) -> k_parent k0 = Some cur -> k_st k0 <> ZOMBIE).
Proof.
  intros Hne Hi j k Hk. unfold reparent1. destruct (bool_decide (k_parent k0 = Some cur)) eqn:Ep.
  - apply bool_decide_eq_true in Ep. set (f := fun k => mkkey (k_st k) (k_pid k) (Some ip) (k_chan k)).
    set (k1 := if decide (i = j) then f k else k).
    assert (Hk1 : alter f i ks !! j = Some k1).
    { rewrite list_lookup_alter. unfold k1. case_decide; [by subst; rewrite Hk|done]. }
    assert (E1 : k_pid k1 = k_pid k /\ k_chan k1 = k_chan k /\ k_st k1 = k_st k /\
      k_parent k1 = (if decide (i = j /\ k_parent k = Some cur) then Some ip else k_parent k)).
    { unfold k1. destruct (decide (i = j)) as [<-|].
      - simplify_eq. rewrite (decide_True (P := i = i /\ _)) by done. done.
      - rewrite (decide_False (P := i = j /\ _)) by tauto. done. }
    destruct E1 as (A1 & A2 & A3 & A4). destruct (bool_decide (k_st k0 = ZOMBIE)) eqn:Ez.
    + exists (kwake (Some (ChanProc ip)) k1). rewrite list_lookup_fmap, Hk1. split; [done|].
      unfold kwake. rewrite A2, A3. destruct (bool_decide (k_st k = SLEEPING)) eqn:Es; simpl.
      * apply bool_decide_eq_true in Es. destruct (bool_decide (k_chan k = Some (ChanProc ip))) eqn:Ec; simpl.
        -- apply bool_decide_eq_true in Ec. rewrite A1, A4. split_and!; [done|done|done|by right|done].
        -- apply bool_decide_eq_false in Ec. split_and!; [done|done|done|by left|done].
      * apply bool_decide_eq_false in Es. split_and!; [done|done|done|by left|congruence].
    + apply bool_decide_eq_false in Ez. exists k1. split_and!; [done|done|done|done|by left|done].
  - apply bool_decide_eq_false in Ep. exists k. split_and!; [done|done|done| |by left|done].
    rewrite decide_False; [done|]. intros [-> E]. simplify_eq.
Qed.

Lemma reparent_spec cur ip n : ip <> cur -> forall i ps, (i + n)%nat = length ps ->
  length (reparent cur ip i n ps) = length ps /\
  forall j k, keys ps !! j = Some k ->
    exists k', keys (reparent cur ip i n ps) !! j = Some k' /\ reparented cur ip i (keys ps) j k k'.
Proof.
  intros Hne. induction n as [|n IH]; intros i ps Hn.
  - split; [done|]. intros j k Hk. exists k. split; [done|]. pose proof (lookup_lt_Some _ _ _ Hk) as Hlt.
    rewrite keys_length in Hlt. unfold reparented. rewrite decide_False by lia. split_and!; [done..|by left|].
    intros _ _ j2 k2 Hj2 Hk2. apply lookup_lt_Some in Hk2. rewrite keys_length in Hk2. lia.
  - destruct (lookup_lt_is_Some_2 ps i) as [p Hp]; [lia|].
    destruct (keys_reparent_S cur ip i n ps p Hp) as (ps1 & -> & Hks & Hl).
    assert (Hi : keys ps !! i = Some (key_of p)) by by rewrite keys_lookup, Hp.
    destruct (IH (S i) ps1) as [Hlen Hsp]; [lia|]. split; [congruence|]. intros j k Hk.
    destruct (reparent1_spec cur ip i (keys ps) (key_of p) Hne Hi j k Hk) as (k1 & Hk1 & A1 & A2 & A3 & A4 & A5).
    rewrite <- Hks in Hk1. destruct (Hsp j k1 Hk1) as (k' & Hk' & B1 & B2 & B3 & B4 & B5).
    exists k'. split; [done|]. unfold reparented. rewrite A1 in B1. rewrite A2 in *. split_and!; [done|done| | |].
    + rewrite B3, A3. destruct (decide (k_parent k = Some cur)) as [E|E].
      * destruct (decide (i = j)) as [->|].
        -- rewrite (decide_True (P := j = j /\ _)), (decide_True (P := (j <= j)%nat /\ _)) by done.
           rewrite decide_False; [done|]. intros [_ [=]]. congruence.
        -- rewrite (decide_False (P := i = j /\ _)) by tauto. rewrite E.
           destruct (decide (i <= j)%nat).
           ++ rewrite !decide_True by (split; [lia|done]). done.
           ++ rewrite !decide_False by lia. done.
      * rewrite !(decide_False (P := _ /\ k_parent k = Some cur)) by tauto.
        done.
    + destruct B4 as [->|(Hs & Hc & ->)]; [done|right]. split_and!; [|done|done].
      destruct A4 as [<-|(? & _ & E)]; [done|congruence].
    + intros Hs Hc j2 k2 Hj2 Hk2 Hp2.
      assert (Hs1 : k_st k1 = SLEEPING) by (destruct B4 as [<-|(? & _)]; done).
      destruct (decide (j2 = i)) as [->|].
      * simplify_eq. by apply A5.
      * destruct (reparent1_spec cur ip i (keys ps) (key_of p) Hne Hi j2 k2 Hk2) as (k3 & Hk3 & _ & _ & C3 & C4 & _).
        rewrite <- Hks in Hk3. rewrite decide_False in C3 by (intros [-> _]; done).
        intros Hz. apply (B5 Hs Hc j2 k3); [lia|done|congruence|]. destruct C4 as [->|(? & _)]; congruence.
Qed.

(** The slots after the section of [exit], each from the slot before it. *)
Definition exited (cur ip : nat) (kc : key) (ks : list key) (j : nat) (k k' : key) : Prop :=
  k_pid k' = k_pid k /\ k_chan k' = k_chan k /\
  k_parent k' = (if decide (k_parent k = Some cur) then Some ip else k_parent k) /\
  if decide (j = cur) then k_st k' = ZOMBIE else
    (k_st k' = k_st k \/ (k_st k = SLEEPING /\ k_st k' = RUNNABLE)) /\
    (k_st k' = SLEEPING -> k_chan k <> ChanProc <$> k_parent kc) /\
    (k_st k' = SLEEPING -> k_chan k = Some (ChanProc ip) ->
       forall j2 k2, ks !! j2 = Some k2 -> k_parent k2 = Some cur -> k_st k2 <> ZOMBIE).
Lemma exit_locked_spec cur ip ps kc :
  ip <> cur -> keys ps !! cur = Some kc ->
  length (exit_locked cur ip ps) = length ps /\
  forall j k, keys ps !! j = Some k -> exists k', keys (exit_locked cur ip ps) !! j = Some k' /\
    exited cur ip kc (keys ps) j k k'.
Proof.
  intros Hne Hcur. unfold exit_locked.
  assert (exists p, ps !! cur = Some p /\ key_of p = kc) as (p & Hp & <-).
  { rewrite keys_lookup in Hcur. apply fmap_Some in Hcur as (p & ? & ->). eauto. }
  rewrite Hp. set (c := ChanProc <$> p_parent p). set (ps1 := wakeup1 c ps).
  assert (Hl1 : length ps1 = length ps) by (unfold ps1, wakeup1; apply length_fmap).
  destruct (reparent_spec cur ip (length ps1) Hne 0 ps1 eq_refl) as [Hl2 Hsp].
  set (ps2 := reparent cur ip 0 (length ps1) ps1) in *.
  split; [rewrite length_alter; congruence|]. intros j k Hk.
  assert (Hk1 : keys ps1 !! j = Some (kwake c k)).
  { unfold ps1. rewrite keys_wakeup1, list_lookup_fmap, Hk. done. }
  destruct (Hsp _ _ Hk1) as (k2 & Hk2 & B1 & B2 & B3 & B4 & B5).
  assert (W : k_pid (kwake c k) = k_pid k /\ k_chan (kwake c k) = k_chan k /\ k_parent (kwake c k) = k_parent k /\
    (k_st (kwake c k) = k_st k \/ (k_st k = SLEEPING /\ k_st (kwake c k) = RUNNABLE)) /\
    (k_st (kwake c k) = SLEEPING -> k_chan k <> c)).
  { unfold kwake. destruct (bool_decide (k_st k = SLEEPING)) eqn:Es; simpl.
    - apply bool_decide_eq_true in Es. destruct (bool_decide (k_chan k = c)) eqn:Ec; simpl.
      + split_and!; [done..|by right|done].
      + apply bool_decide_eq_false in Ec. split_and!; [done..|by left|done].
    - apply bool_decide_eq_false in Es. split_and!; [done..|by left|done]. }
  destruct W as (W1 & W2 & W3 & W4 & W5). rewrite W1 in B1. rewrite W2 in *. rewrite W3 in B3.
  assert (B3' : k_parent k2 = if decide (k_parent k = Some cur) then Some ip else k_parent k).
  { rewrite B3. destruct (decide (k_parent k = Some cur)).
    - by rewrite decide_True by (split; [lia|done]).
    - by rewrite decide_False by tauto. }
  rewrite (keys_alter (set_state ZOMBIE) (fun k => mkkey ZOMBIE (k_pid k) (k_parent k) (k_chan k))) by done.
  destruct (decide (j = cur)) as [->|Hj].
  - rewrite list_lookup_alter_eq, Hk2. eexists. split; [reflexivity|]. unfold exited. by rewrite (decide_True (P := cur = cur)).
  - rewrite list_lookup_alter_ne by done. exists k2. unfold exited. rewrite (decide_False (P := j = cur)) by done. split_and!; try done.
    + destruct B4 as [->|(? & ? & ->)]; [done|]. right. split; [|done].
      destruct W4 as [<-|[? E]]; [done|congruence].
    + intros Hs. apply W5. destruct B4 as [<-|(? & ? & ?)]; [done|congruence].
    + intros Hs Hc j2 k3 Hk3 Hp3 Hz. eapply (B5 Hs Hc j2 (kwake c k3)); [lia| | |].
      * unfold ps1. by rewrite keys_wakeup1, list_lookup_fmap, Hk3.
      * unfold kwake. by destruct (_ && _).
      * unfold kwake. rewrite (bool_decide_eq_false_2 (k_st k3 = SLEEPING)) by congruence. done.
Qed.

Section exit_table.
Context (cur ip : nat) (ps : list proc) (kc : key).
Hypothesis Hcur : keys ps !! cur = Some kc.
Hypothesis Hlc : live kc.
Hypothesis Hne : cur <> ip.

Lemma exited_fwd j k : keys ps !! j = Some k ->
  exists k', keys (exit_locked cur ip ps) !! j = Some k' /\ exited cur ip kc (keys ps) j k k'.
Proof using Hcur Hne. apply exit_locked_spec; done. Qed.
Lemma exited_back j k' : keys (exit_locked cur ip ps) !! j = Some k' ->
  exists k, keys ps !! j = Some k /\ exited cur ip kc (keys ps) j k k'.
Proof using Hcur Hne.
  intros Hk'. destruct (exit_locked_spec cur ip ps kc) as [Hlen Hsp]; [done..|].
  destruct (lookup_lt_is_Some_2 (keys ps) j) as [k Hk].
  - apply lookup_lt_Some in Hk'. rewrite keys_length in *. lia.
  - destruct (Hsp _ _ Hk) as (k2 & Hk2 & H). simplify_eq. eauto.
Qed.
Lemma exited_st j k k' : keys ps !! j = Some k -> exited cur ip kc (keys ps) j k k' ->
  (k_st k' = UNUSED <-> k_st k = UNUSED) /\ (k_st k' = EMBRYO <-> k_st k = EMBRYO).
Proof using Hcur Hlc.
  intros Hk (_ & _ & _ & Hst). pose proof (live_not _ Hlc) as Hnot. destruct (decide (j = cur)) as [->|].
  - assert (k = kc) as -> by congruence. rewrite Hst. clear -Hnot. intuition congruence.
  - destruct Hst as ([->|[E ->]] & _); [done|]. rewrite E. clear. intuition congruence.
Qed.
Lemma exited_live j k : keys ps !! j = Some k -> live k -> j <> cur ->
  exists k', keys (exit_locked cur ip ps) !! j = Some k' /\ live k'.
Proof using Hcur Hlc Hne.
  intros Hk Hl Hj. destruct (exited_fwd _ _ Hk) as (k' & Hk' & _ & _ & _ & Hst). exists k'. split; [done|].
  rewrite decide_False in Hst by done. destruct Hst as ([E|[_ E]] & _); unfold live in *; rewrite E; tauto.
Qed.

Lemma exit_locked_pinv : pinv (keys ps) ip -> pinv (keys (exit_locked cur ip ps)) ip.
Proof using Hcur Hlc Hne.
  intros [P1 P2 P0 P6 P7 P8]. destruct (exit_locked_spec cur ip ps kc) as [Hlen _]; [done..|]. split.
  - by rewrite keys_length, Hlen, <- keys_length.
  - destruct P2 as (k & Hk & Hl & Hp). destruct (exited_live _ _ Hk Hl) as (k' & Hk' & Hl'); [done|].
    exists k'. split; [done|]. split; [done|]. destruct (exited_back _ _ Hk') as (k0 & Hk0 & _ & _ & -> & _). simplify_eq.
    by rewrite decide_False by congruence.
  - intros j k' Hk'. destruct (exited_back _ _ Hk') as (k & Hk & _ & _ & -> & _). case_decide; [|by apply P0].
    intros [= ->]. destruct P2 as (k0 & ? & _ & ?). simplify_eq.
  - intros j k' q Hk'. destruct (exited_back _ _ Hk') as (k & Hk & Hx). pose proof (exited_st _ _ _ Hk Hx) as [Hu _].
    destruct Hx as (_ & _ & -> & _). intros Hq. destruct (decide (k_parent k = Some cur)) as [E|E].
    + injection Hq as <-. destruct (P6 _ _ _ Hk E) as [? _]. split; [tauto|].
      destruct P2 as (ki & Hki & Hli & _). by apply (exited_live _ _ Hki Hli).
    + destruct (P6 _ _ _ Hk Hq) as (? & kq & Hkq & Hlq). split; [tauto|]. apply (exited_live _ _ Hkq Hlq). congruence.
  - intros j k' Hk' Hs Hs' Hj. destruct (exited_back _ _ Hk') as (k & Hk & Hx). pose proof (exited_st _ _ _ Hk Hx) as [Hu He].
    destruct Hx as (_ & _ & -> & _). case_decide; [done|]. apply (P7 _ _ Hk); [tauto|tauto|done].
  - intros j k' c Hk' Hs Hc. destruct (exited_back _ _ Hk') as (k & Hk & _ & Hch & _ & Hst).
    destruct (decide (j = cur)) as [->|Hj]; [congruence|]. destruct Hst as (Hst & Hw & Hz).
    assert (Hsk : k_st k = SLEEPING) by (destruct Hst as [<-|[? ?]]; congruence).
    rewrite Hch in Hc. destruct (P8 _ _ _ Hk Hsk Hc) as (-> & (i & l & Hl & Hlp) & Hnz). split; [done|]. split.
    + destruct (exited_fwd _ _ Hl) as (l' & Hl' & _ & _ & E & _). exists i, l'. split; [done|]. rewrite E, Hlp.
      by rewrite decide_False by congruence.
    + intros i2 l2' Hl2' Hp2. destruct (exited_back _ _ Hl2') as (l2 & Hl2 & _ & _ & E & Hst2).
      rewrite E in Hp2. destruct (decide (i2 = cur)) as [->|Hi2].
      * assert (l2 = kc) as -> by congruence. rewrite decide_False in Hp2 by (by apply (P0 _ _ Hcur)). exfalso. apply (Hw Hs).
        by rewrite Hc, Hp2.
      * intros Ez. assert (k_st l2 = ZOMBIE) as Ez'.
        { destruct Hst2 as ([<-|[_ E']] & _); congruence. }
        destruct (decide (k_parent l2 = Some cur)) as [Ec|Ec].
        -- injection Hp2 as <-. by apply (Hz Hs Hc i2 l2).
        -- by apply (Hnz i2 l2).
Qed.
Lemma exit_locked_pids np : pids_ok (keys ps) np -> pids_ok (keys (exit_locked cur ip ps)) np.
Proof using Hcur Hlc Hne.
  intros [P1 P4 P5]. split; [done| |].
  - intros j k' Hk' Hs. destruct (exited_back _ _ Hk') as (k & Hk & Hx). pose proof (exited_st _ _ _ Hk Hx) as [Hu _].
    destruct Hx as (-> & _). apply (P4 _ _ Hk). tauto.
  - intros i j k' l' Hk' Hl' Hs Hs'. destruct (exited_back _ _ Hk') as (k & Hk & Hx), (exited_back _ _ Hl') as (l & Hl & Hy).
    pose proof (exited_st _ _ _ Hk Hx) as [Hu _]. pose proof (exited_st _ _ _ Hl Hy) as [Hu' _].
    destruct Hx as (-> & _), Hy as (-> & _). apply (P5 _ _ _ _ Hk Hl); tauto.
Qed.
(** The embryos of the processes in [fork] stay theirs. *)
Lemma exit_locked_calls c : calls_ok (keys ps) ip c -> embryo_of (c cur) = None ->
  calls_ok (keys (exit_locked cur ip ps)) ip c.
Proof using Hcur Hlc Hne.
  intros HC Hx. eapply calls_frame; [done| |].
  - intros q k Hq Hk Hl. apply (exited_live _ _ Hk Hl). intros ->. rewrite Hx in Hq. by destruct Hq.
  - intros q n k E Hk Hs Hp. destruct (exited_fwd _ _ Hk) as (k' & Hk' & Hxk). exists k'. split; [done|].
    split; [by apply (exited_st _ _ _ Hk Hxk)|]. destruct Hxk as (_ & _ & -> & _).
    rewrite decide_False; [done|]. rewrite Hp. unfold embryo_parent. destruct (c q) eqn:Eq; try done. intros [= ->]. by rewrite Eq in Hx.
Qed.
End exit_table.

(** ** [wait] *)

(** A process that goes to sleep in [wait]. *)
Lemma pinv_sleep ks ip cur kc :
  pinv ks ip -> ks !! cur = Some kc -> live kc ->
  (exists j l, ks !! j = Some l /\ k_parent l = Some cur) ->
  (forall j l, ks !! j = Some l -> k_parent l = Some cur -> k_st l <> ZOMBIE) ->
  pinv (alter (fun k => mkkey SLEEPING (k_pid k) (k_parent k) (Some (ChanProc cur))) cur ks) ip.
Proof.
  intros Hi Hcur Hlc Hex Hnz. pose proof Hi as [_ _ _ _ _ P8].
  set (g := fun k => _). set (g0 := fun k => mkkey RUNNABLE (k_pid k) (k_parent k) (k_chan k)).
  assert (H0 : pinv (alter g0 cur ks) ip).
  { eapply pinv_rel; [|done]. apply slot_rel. intros k Hk. assert (k = kc) as -> by congruence. split; [by left|]. split; [done|].
    split; [left; unfold live at 2; simpl; tauto|done]. }
  destruct H0 as [P1 P2 P0 P6 P7 _].
  assert (HF : forall j k, alter g cur ks !! j = Some k -> exists k0, alter g0 cur ks !! j = Some k0 /\
    k_parent k = k_parent k0 /\ (live k <-> live k0) /\
    (k_st k = UNUSED <-> k_st k0 = UNUSED) /\ (k_st k = EMBRYO <-> k_st k0 = EMBRYO)).
  { intros j k. rewrite !list_lookup_alter. case_decide; [subst|].
    - rewrite Hcur. intros [= <-]. eexists. split; [done|]. unfold live. simpl. intuition congruence.
    - intros Hk. by exists k. }
  assert (HB : forall j k0, alter g0 cur ks !! j = Some k0 -> exists k, alter g cur ks !! j = Some k).
  { intros j k0 H%lookup_lt_Some. apply lookup_lt_is_Some_2. rewrite length_alter in *. done. }
  split.
  - by rewrite length_alter in *.
  - destruct P2 as (k0 & Hk0 & Hl & Hp). destruct (HB _ _ Hk0) as [k Hk]. exists k. split; [done|].
    destruct (HF _ _ Hk) as (k0' & Hk0' & -> & -> & _). by simplify_eq.
  - intros j k (k0 & Hk0 & -> & _)%HF. by apply P0.
  - intros j k q (k0 & Hk0 & -> & _ & -> & _)%HF Hq. destruct (P6 _ _ _ Hk0 Hq) as (? & kq0 & Hkq0 & Hlq).
    split; [done|]. destruct (HB _ _ Hkq0) as [kq Hkq]. exists kq. split; [done|].
    destruct (HF _ _ Hkq) as (k0' & Hk0' & _ & -> & _). by simplify_eq.
  - intros j k (k0 & Hk0 & -> & _ & -> & ->)%HF. by apply P7.
  - assert (Hlk : forall j l, ks !! j = Some l -> exists l', alter g cur ks !! j = Some l' /\ k_parent l' = k_parent l).
    { intros j l Hl. rewrite list_lookup_alter. case_decide; [subst; rewrite Hl|]; eauto. }
    assert (Hlk' : forall j l', alter g cur ks !! j = Some l' -> exists l, ks !! j = Some l /\
      k_parent l' = k_parent l /\ (k_st l' = ZOMBIE -> k_st l = ZOMBIE)).
    { intros j l'. rewrite list_lookup_alter. case_decide; [subst|].
      - rewrite Hcur. intros [= <-]. exists kc. by simpl.
      - intros Hl. by exists l'. }
    intros i k c. destruct (decide (i = cur)) as [->|Hic].
    + rewrite list_lookup_alter_eq, Hcur. intros [= <-] _ [= <-]. split; [done|]. split.
      * destruct Hex as (j & l & Hl & Hp). destruct (Hlk _ _ Hl) as (l' & ? & E). exists j, l'. by rewrite E.
      * intros j l' (l & Hl & -> & Hz)%Hlk' Hp Hz'. by apply (Hnz j l Hl Hp), Hz.
    + rewrite list_lookup_alter_ne by done. intros Hk Hs Hc.
      destruct (P8 _ _ _ Hk Hs Hc) as (-> & (j & l & Hl & Hp) & Hz). split; [done|]. split.
      * destruct (Hlk _ _ Hl) as (l' & ? & E). exists j, l'. by rewrite E.
      * intros j2 l' (l2 & Hl2 & -> & Hz2)%Hlk' Hp2 Hz'. by apply (Hz j2 l2 Hl2 Hp2), Hz2.
Qed.
Lemma sleeping_calls ks ip c cur kc : calls_ok ks ip c -> ks !! cur = Some kc -> live kc ->
  calls_ok (alter (fun k => mkkey SLEEPING (k_pid k) (k_parent k) (Some (ChanProc cur))) cur ks) ip c.
Proof.
  intros HC Hcur Hl. eapply calls_frame; [done| |].
  - intros q k _ Hk Hlk. rewrite list_lookup_alter. case_decide; [subst; rewrite Hk; eexists; split; [done|by left]|eauto].
  - intros q n k _ Hk Hs _. exists k. split; [|done]. rewrite list_lookup_alter_ne; [done|]. intros ->. simplify_eq.
    by apply live_not in Hl as (_ & _ & ?).
Qed.
Lemma sleeping_pids ks np cur kc : pids_ok ks np -> ks !! cur = Some kc -> live kc ->
  pids_ok (alter (fun k => mkkey SLEEPING (k_pid k) (k_parent k) (Some (ChanProc cur))) cur ks) np.
Proof.
  intros HP Hc Hl%live_not. rewrite (alter_insert _ _ _ _ Hc). eapply pids_insert; [done|lia|done|]. tauto.
Qed.

(** ** The operations *)

(** The table with the first process in slot 0. *)
Lemma first_table wrap k0 :
  let ks := alter (fun k => mkkey RUNNABLE (k_pid k) (k_parent k) (k_chan k)) 0%nat
              (<[0%nat := mkkey EMBRYO 1 (k_parent k0) (k_chan k0)]> (keys (replicate NPROC proc0))) in
  keys (replicate NPROC proc0) !! 0%nat = Some k0 ->
  pinv ks 0 /\ calls_ok ks 0 (fun _ => Free) /\ (wrap = false -> pids_ok ks 2).
Proof.
  intros ks [= <-]. set (k1 := mkkey RUNNABLE 1 None None). set (k0 := mkkey UNUSED 0 None None).
  assert (Hlk : forall j k, ks !! j = Some k -> (j = 0%nat /\ k = k1) \/ k = k0).
  { intros j k. unfold ks. rewrite list_lookup_alter. case_decide as Ej; [subst; intros [= <-]; by left|].
    rewrite list_lookup_insert_ne by done. unfold keys. rewrite list_lookup_fmap. intros (p & [-> _]%lookup_replicate & ->)%fmap_Some. by right. }
  split; [|split; [by split|intros _]]; split.
  - done.
  - exists k1. split; [done|]. by split; [right; left|].
  - intros j k [[-> ->]| ->]%Hlk; done.
  - intros j k q [[-> ->]| ->]%Hlk; done.
  - intros j k [[-> ->]| ->]%Hlk; done.
  - intros j k c [[-> ->]| ->]%Hlk; done.
  - lia.
  - intros j k [[-> ->]| ->]%Hlk; [simpl; lia|done].
  - intros i j k l [[-> ->]| ->]%Hlk [[-> ->]| ->]%Hlk; done.
Qed.

Section operations.
Context {E : Type} `{SV : Services E} (forkret : Z).
Implicit Types t : ptable E.

(** [t'] differs from [t] in nothing the life cycle uses. *)
Definition same t t' : Prop :=
  keys (pt_proc t') = keys (pt_proc t) /\ pt_initproc t' = pt_initproc t /\ pt_nextpid t' = pt_nextpid t.
Definition is_running t (i : nat) : Prop := exists p, pt_proc t !! i = Some p /\ p_state p = RUNNING.

Lemma same_refl t : same t t.
Proof. done. Qed.
Lemma same_trans t1 t2 t3 : same t1 t2 -> same t2 t3 -> same t1 t3.
Proof. intros (? & ? & ?) (? & ? & ?). split_and!; congruence. Qed.

Lemma wlp_env {A} (m : KM E A) t (Q : A -> ptable E -> Prop) :
  (forall a t', same t t' -> pt_proc t' = pt_proc t -> Q a t') -> wlp (env m) t Q.
Proof. intros H. apply wlp_zoom. intros a e. by apply H. Qed.
Lemma wlp_get_proc i t (Q : proc -> ptable E -> Prop) :
  (forall p, pt_proc t !! i = Some p -> Q p t) -> wlp (get_proc i) t Q.
Proof.
  intros H p t'. unfold get_proc. destruct (pt_proc t !! i) as [q|] eqn:Eq; [|done].
  intros [= <- <-]. by apply H.
Qed.
Lemma wlp_upd f i t (Q : unit -> ptable E -> Prop) :
  Q tt (set_procs (alter f i (pt_proc t)) t) -> wlp (upd_proc f i) t Q.
Proof. intros H. by apply wlp_modify. Qed.
Lemma wlp_silent f i t (Q : unit -> ptable E -> Prop) :
  (forall p, key_of (f p) = key_of p) -> (forall t', same t t' -> Q tt t') -> wlp (upd_proc f i) t Q.
Proof. intros Hf H. apply wlp_upd, H. split; [by apply keys_silent|done]. Qed.

(** The section of [allocproc] under the lock. *)
Lemma alloc_slot_keys t n t' : alloc_slot t = Done (Some n) t' ->
  find_slot (is_state UNUSED) 0 (pt_proc t) = Some n /\ pt_initproc t' = pt_initproc t /\
  pt_nextpid t' = i32 (pt_nextpid t + 1) /\
  exists k, keys (pt_proc t) !! n = Some k /\ k_st k = UNUSED /\
    keys (pt_proc t') = <[n := mkkey EMBRYO (pt_nextpid t) (k_parent k) (k_chan k)]> (keys (pt_proc t)).
Proof.
  unfold alloc_slot, mbind, km_bind, kget. destruct (find_slot (is_state UNUSED) 0 (pt_proc t)) as [i|] eqn:Ef; [|done].
  intros [= -> <-]. split; [done|]. split; [done|]. split; [done|].
  apply find_slot_Some in Ef as (_ & (p & Hp & Hu%bool_decide_eq_true) & _). rewrite Nat.sub_0_r in Hp.
  exists (key_of p). rewrite keys_lookup, Hp. split; [done|]. split; [done|]. simpl. by rewrite (keys_upd _ _ _ _ Hp).
Qed.

Lemma dup_files_same np files : forall fd t,
  wlp (dup_files np fd files) t (fun _ t' => same t t').
Proof.
  induction files as [|f files IH]; intros fd t; cbn [dup_files]; [by wlp_step|].
  wlp_step. destruct (f =? 0); cbn [negb].
  - wlp_step. apply IH.
  - wlp_step. apply wlp_env. intros g t1 H1 _. apply wlp_silent; [done|]. intros t2 H2.
    eapply wlp_mono; [apply IH|]. intros [] t3 H3. eauto using same_trans.
Qed.
Lemma close_files_same cur files : forall fd t,
  wlp (close_files cur fd files) t (fun _ t' => same t t').
Proof.
  induction files as [|f files IH]; intros fd t; cbn [close_files]; [by wlp_step|].
  wlp_step. destruct (f =? 0); cbn [negb].
  - wlp_step. apply IH.
  - wlp_step. apply wlp_env. intros g t1 H1 _. apply wlp_silent; [done|]. intros t2 H2.
    eapply wlp_mono; [apply IH|]. intros [] t3 H3. eauto using same_trans.
Qed.
Lemma growproc_same t cur n : wlp (growproc cur n) t (fun _ t' => same t t').
Proof.
  unfold growproc. wlp_step. apply wlp_get_proc. intros p _. wlp_step.
  assert (forall sz' t', same t t' -> wlp (if negb (n =? 0) && (sz' =? 0) then mret (-1)
    else upd_proc (set_sz sz') cur;; mret 0) t' (fun _ t' => same t t')) as Hk.
  { intros sz' t' Ht. destruct (_ && _); [by wlp_step|]. wlp_step. apply wlp_silent; [done|]. intros t2 H2.
    wlp_step. eauto using same_trans. }
  destruct (0 <? n); [apply wlp_env; intros; by apply Hk|].
  destruct (n <? 0); [apply wlp_env; intros; by apply Hk|]. wlp_step. by apply Hk.
Qed.

Lemma running_key t i : is_running t i ->
  exists k, keys (pt_proc t) !! i = Some k /\ k_st k = RUNNING /\ live k.
Proof.
  intros (p & Hp & Hr). exists (key_of p). rewrite keys_lookup, Hp. unfold live. simpl. rewrite Hr. auto.
Qed.
Lemma key_running t i k : keys (pt_proc t) !! i = Some k -> k_st k = RUNNING -> is_running t i.
Proof. rewrite keys_lookup. intros (p & Hp & ->)%fmap_Some Hr. by exists p. Qed.
Lemma same_running t t' i : same t t' -> is_running t i -> is_running t' i.
Proof. intros (Ek & _) (k & Hk & Hr & _)%running_key. apply (key_running _ _ k); [by rewrite Ek|done]. Qed.

(** ** Sections that keep every slot alive or dead *)

Definition rel t t' : Prop :=
  Forall2 krel (keys (pt_proc t)) (keys (pt_proc t')) /\ pt_initproc t' = pt_initproc t /\ pt_nextpid t' = pt_nextpid t.

Lemma same_rel t t' : same t t' -> rel t t'.
Proof.
  intros (Ek & Ei & En). split; [|done]. rewrite Ek. apply Forall_Forall2_diag, Forall_forall. intros k _. apply krel_refl.
Qed.
Lemma upd_rel f g i t :
  (forall p, key_of (f p) = g (key_of p)) ->
  (forall k, keys (pt_proc t) !! i = Some k -> krel k (g k)) -> wlp (upd_proc f i) t (fun _ t' => rel t t').
Proof. intros Hf Hg. apply wlp_upd. split; [|done]. simpl. rewrite (keys_alter f g) by done. by apply slot_rel. Qed.

Lemma sleep_rel t cur a : is_running t cur -> wlp (sleep cur (ChanAddr a)) t (fun _ t' => rel t t').
Proof.
  intros (kc & Hkc & Hrun & Hlive)%running_key.
  apply (upd_rel _ (fun k => mkkey SLEEPING (k_pid k) (k_parent k) (Some (ChanAddr a)))); [done|].
  intros k Hk. assert (k = kc) as -> by congruence. split; [by left|]. split; [done|].
  split; [left; split; [done|by left]|done].
Qed.
Lemma sleep_return_rel t cur : wlp (sleep_return cur) t (fun _ t' => rel t t').
Proof.
  apply (upd_rel _ (fun k => mkkey (k_st k) (k_pid k) (k_parent k) None)); [done|].
  intros k Hk. split; [by left|]. split; [done|]. split; [by right|done].
Qed.
Lemma yield_rel t cur : is_running t cur -> wlp (yield cur) t (fun _ t' => rel t t').
Proof.
  intros (kc & Hkc & Hrun & Hlive)%running_key.
  apply (upd_rel _ (fun k => mkkey RUNNABLE (k_pid k) (k_parent k) (k_chan k))); [done|].
  intros k Hk. assert (k = kc) as -> by congruence. split; [by left|]. split; [done|].
  split; [left; split; [done|unfold live; simpl; tauto]|done].
Qed.
Lemma kill_rel t pid : wlp (kill pid) t (fun _ t' => rel t t').
Proof.
  unfold kill. wlp_step. wlp_step. destruct (find_slot _ 0 (pt_proc t)) as [n|]; [|wlp_step; by apply same_rel].
  wlp_step. eapply wlp_mono.
  - apply (upd_rel _ (fun k => if bool_decide (k_st k = SLEEPING)
      then mkkey RUNNABLE (k_pid k) (k_parent k) (k_chan k) else k)).
    + intros p. unfold is_state. simpl. by destruct (bool_decide _).
    + intros k _. destruct (bool_decide (k_st k = SLEEPING)) eqn:Es; [|apply krel_refl].
      apply bool_decide_eq_true in Es. split; [by left|]. split; [done|].
      split; [left; unfold live; simpl; tauto|done].
  - intros [] t' H. by wlp_step.
Qed.
Lemma wakeup_rel t c : wlp (wakeup c) t (fun _ t' => rel t t').
Proof. unfold wakeup. wlp_step. split; [|done]. simpl. rewrite keys_wakeup1. apply wake_rel. Qed.
Lemma run_rel t i j : pick (pt_proc t) i = Some j -> rel t (set_procs (run_proc j (pt_proc t)) t).
Proof.
  intros Hj. assert (exists p, pt_proc t !! j = Some p /\ p_state p = RUNNABLE) as (p & Hpj & Hr).
  { revert Hj. unfold pick. destruct (find_slot (is_state RUNNABLE) i (drop i (pt_proc t))) as [h|] eqn:Ef; [|done].
    apply find_slot_Some in Ef as (Hle & (ph & Hph & Hr) & _). rewrite lookup_drop in Hph.
    replace (i + (h - i))%nat with h in Hph by lia. rewrite Hph. intros [= <-].
    apply bool_decide_eq_true in Hr.
    destruct (best_from_spec (pt_proc t) 0 h (p_priority ph)) as (bp & [[-> _]|(k & p & -> & ? & ? & _)] & _); eauto. }
  split; [|done]. simpl. unfold run_proc.
  rewrite (keys_alter _ (fun k => mkkey RUNNING (k_pid k) (k_parent k) (k_chan k))) by done.
  apply slot_rel. intros k. rewrite keys_lookup, Hpj. intros [= <-].
  split; [by left|]. split; [done|]. split; [left; unfold live; simpl; tauto|done].
Qed.

(** One pass of [wait]: nothing happens, a zombie child is reaped, or the
    caller goes to sleep with children and no zombie among them. *)
Lemma wait_keys t cur : is_running t cur ->
  wlp (wait cur) t (fun r t' => pt_initproc t' = pt_initproc t /\ pt_nextpid t' = pt_nextpid t /\
    let ks := keys (pt_proc t) in
    match r with
    | NoChild => keys (pt_proc t') = ks
    | Reaped _ => exists n k, ks !! n = Some k /\ k_st k = ZOMBIE /\ k_parent k = Some cur /\
        keys (pt_proc t') = <[n := mkkey UNUSED 0 None (k_chan k)]> ks
    | Waits => keys (pt_proc t') = alter (fun k => mkkey SLEEPING (k_pid k) (k_parent k) (Some (ChanProc cur))) cur ks /\
        (exists j l, ks !! j = Some l /\ k_parent l = Some cur) /\
        forall j l, ks !! j = Some l -> k_parent l = Some cur -> k_st l <> ZOMBIE
    end).
Proof.
  intros (kc & Hkc & Hrun & Hlive)%running_key. unfold wait. wlp_step. wlp_step.
  destruct (find_slot _ 0 (pt_proc t)) as [n|] eqn:Ef.
  - apply find_slot_Some in Ef as (_ & (p & Hp & [Hch Hz]%andb_true_iff) & _). rewrite Nat.sub_0_r in Hp.
    apply bool_decide_eq_true in Hch, Hz.
    wlp_step. apply wlp_get_proc. intros p' _. wlp_step. apply wlp_env. intros _ t1 H1 Ep1.
    wlp_step. apply wlp_env. intros _ t2 H2 Ep2. wlp_step. apply wlp_upd. wlp_step. simpl.
    assert (same t t2) as (Ek & Ei & En) by eauto using same_trans. split; [done|]. split; [done|].
    exists n, (key_of p). rewrite keys_lookup, Hp. split_and!; [done..|].
    rewrite Ep2, Ep1. by rewrite (keys_upd _ _ _ _ Hp).
  - rewrite find_slot_None in Ef. wlp_step. apply wlp_get_proc. intros p Hp.
    destruct (existsb (is_child cur) (pt_proc t)) eqn:Ex; cbn [negb orb]; [|by wlp_step].
    destruct (p_killed p =? 0); cbn [negb]; [|by wlp_step]. wlp_step. apply wlp_upd. wlp_step.
    simpl. split; [done|]. split; [done|].
    rewrite (keys_alter _ (fun k => mkkey SLEEPING (k_pid k) (k_parent k) (Some (ChanProc cur)))) by done.
    split; [done|]. split.
    + apply existsb_exists in Ex as (q & Hq & Hc). apply list_elem_of_In, list_elem_of_lookup in Hq as [j Hj].
      apply bool_decide_eq_true in Hc. exists j, (key_of q). rewrite keys_lookup, Hj. done.
    + intros j k. rewrite keys_lookup. intros (q & Hq & ->)%fmap_Some Hpar Hz. simpl in *.
      specialize (Ef _ _ Hq). unfold is_child, is_state in Ef. by rewrite !bool_decide_eq_true_2 in Ef.
Qed.

(** ** All interleavings

    A step is what a process or the scheduler does to the table between two
    points where others can run.  [fork] takes its slot under [ptable.lock],
    may give it up, makes itself the parent, and publishes the child; [exit]
    closes the process's files, for which it may sleep many times, and ends
    under [ptable.lock]; [service] is the rest of the kernel, which does
    anything to memory, files and the other fields of processes.  With [wrap]
    the pids may wrap around. *)
Inductive step (wrap : bool) : ptable E * (nat -> call) -> ptable E * (nat -> call) -> Prop :=
| fork_alloc t c cur n t' : is_running t cur -> c cur = Free -> (wrap = false -> pt_nextpid t < 2 ^ 31 - 1) ->
    alloc_slot t = Done (Some n) t' -> step wrap (t, c) (t', <[cur := Forking n]> (<[n := Free]> c))
| fork_fail t c cur n : is_running t cur -> c cur = Forking n ->
    step wrap (t, c) (set_procs (alter (set_state UNUSED) n (pt_proc t)) t, <[cur := Free]> c)
| fork_parent t c cur n : is_running t cur -> c cur = Forking n ->
    step wrap (t, c) (set_procs (alter (set_parent (Some cur)) n (pt_proc t)) t, <[cur := Parented n]> c)
| fork_publish t c cur n : is_running t cur -> c cur = Parented n ->
    step wrap (t, c) (set_procs (alter (set_state RUNNABLE) n (pt_proc t)) t, <[cur := Free]> c)
| exit_begin t c cur : is_running t cur -> c cur = Free -> cur <> pt_initproc t ->
    step wrap (t, c) (t, <[cur := Exiting]> c)
| exit_end t c cur : is_running t cur -> c cur = Exiting ->
    step wrap (t, c) (set_procs (exit_locked cur (pt_initproc t) (pt_proc t)) t, c)
| wait_pass t c cur r t' : is_running t cur -> c cur = Free -> wait cur t = Done r t' -> step wrap (t, c) (t', c)
| sleeps t c cur a t' : is_running t cur -> sleep cur (ChanAddr a) t = Done tt t' -> step wrap (t, c) (t', c)
| sleep_ends t c cur t' : is_running t cur -> sleep_return cur t = Done tt t' -> step wrap (t, c) (t', c)
| yields t c cur t' : is_running t cur -> yield cur t = Done tt t' -> step wrap (t, c) (t', c)
| wakes t c a t' : wakeup (ChanAddr a) t = Done tt t' -> step wrap (t, c) (t', c)
| kills t c pid r t' : kill pid t = Done r t' -> step wrap (t, c) (t', c)
| runs t c i j : pick (pt_proc t) i = Some j -> step wrap (t, c) (set_procs (run_proc j (pt_proc t)) t, c)
| service t c t' : same t t' -> step wrap (t, c) (t', c).

Inductive reachable (wrap : bool) : ptable E * (nat -> call) -> Prop :=
| reach_init e ticks name t :
    userinit forkret name (mkptable e (replicate NPROC proc0) 1 0 ticks) = Done tt t -> reachable wrap (t, fun _ => Free)
| reach_step y y' : reachable wrap y -> step wrap y y' -> reachable wrap y'.

Definition sinv (wrap : bool) (y : ptable E * (nat -> call)) : Prop :=
  let ks := keys (pt_proc y.1) in
  pinv ks (pt_initproc y.1) /\ calls_ok ks (pt_initproc y.1) y.2 /\ (wrap = false -> pids_ok ks (pt_nextpid y.1)).

Lemma sinv_rel wrap t t' c : rel t t' -> sinv wrap (t, c) -> sinv wrap (t', c).
Proof.
  intros (HF & Ei & En) (HP & HC & HI). unfold sinv in *. simpl in *. rewrite Ei, En. split_and!.
  - by eapply pinv_rel.
  - by eapply calls_rel.
  - intros Hw. eapply pids_rel; eauto.
Qed.

(** The sections of [fork]. *)
Lemma fork_alloc_inv wrap t c cur n t' : is_running t cur -> (wrap = false -> pt_nextpid t < 2 ^ 31 - 1) ->
  alloc_slot t = Done (Some n) t' -> sinv wrap (t, c) -> sinv wrap (t', <[cur := Forking n]> (<[n := Free]> c)).
Proof.
  intros (kc & Hkc & Hrun & Hlive)%running_key Hw Ha (HP & HC & HI). simpl in *.
  apply alloc_slot_keys in Ha as (_ & Ei & En & k & Hk & Hu & Ek). unfold sinv. simpl. rewrite Ei, En, Ek.
  assert (Hpar : k_parent k = None).
  { destruct (k_parent k) as [q|] eqn:Eq; [|done]. by destruct (pv_parent _ _ HP _ _ _ Hk Eq). }
  assert (Hd : ~ live k) by (intros Hl%live_not; tauto).
  assert (Hno : forall q, embryo_of (c q) <> Some n).
  { intros q Eq. destruct (ca_slot _ _ _ HC q n Eq) as (k' & Hk' & Hs & _). congruence. }
  assert (Hcn : cur <> n) by congruence. split_and!.
  - apply (pinv_insert _ _ _ k); simpl; try done; intros; congruence.
  - eapply (calls_begin _ _ _ cur (Forking n) n kc (mkkey EMBRYO (pt_nextpid t) (k_parent k) (k_chan k))); [|done| |done| |done|exact Hpar|].
    + apply calls_set; [|done|done]. by apply (calls_other _ _ _ n k).
    + by rewrite list_lookup_insert_ne by done.
    + apply list_lookup_insert_eq. by eapply lookup_lt_Some.
    + intros q. destruct (decide (q = n)) as [->|]; [by rewrite fn_lookup_insert|]. rewrite fn_lookup_insert_ne by done. by intros []%Hno.
  - intros Hf. specialize (HI Hf). specialize (Hw Hf). pose proof (pd_next _ _ HI). rewrite i32_id by lia.
    eapply pids_insert; [done|lia|done|]. right. left. simpl. lia.
Qed.
(** What is known of the embryo [n] of [cur]. *)
Lemma embryo_view wrap t c cur n : is_running t cur -> embryo_of (c cur) = Some n -> sinv wrap (t, c) ->
  exists p kc, pt_proc t !! n = Some p /\ key_of p = mkkey EMBRYO (p_pid p) (embryo_parent cur (c cur)) (p_chan p) /\
    keys (pt_proc t) !! n = Some (key_of p) /\ ~ live (key_of p) /\
    keys (pt_proc t) !! cur = Some kc /\ live kc /\ k_st kc <> SLEEPING /\ cur <> n.
Proof.
  intros (kc & Hkc & Hrun & Hlive)%running_key Ec (_ & HC & _). destruct (ca_slot _ _ _ HC cur n Ec) as (k & Hk & Hs & Hp).
  simpl in Hk. pose proof Hk as Hk'. rewrite keys_lookup in Hk. apply fmap_Some in Hk as (p & Hpn & ->). exists p, kc.
  split; [done|]. split; [unfold key_of in *; simpl in *; by rewrite Hs, Hp|]. split; [done|].
  split; [intros Hl%live_not; tauto|]. split; [done|]. split; [done|]. split; [congruence|].
  intros ->. rewrite Hk' in Hkc. injection Hkc as <-. congruence.
Qed.
Lemma fork_fail_inv wrap t c cur n : is_running t cur -> c cur = Forking n -> sinv wrap (t, c) ->
  sinv wrap (set_procs (alter (set_state UNUSED) n (pt_proc t)) t, <[cur := Free]> c).
Proof.
  intros Hr Ec Hi. assert (Ee : embryo_of (c cur) = Some n) by by rewrite Ec.
  destruct (embryo_view wrap t c cur n Hr Ee Hi) as (p & kc & Hp & Ep & Hk & Hd & Hkc & Hlc & Hsc & Hne).
  destruct Hi as (HP & HC & HI). unfold sinv. simpl in *. rewrite (keys_upd _ _ _ _ Hp). rewrite Ec in Ep.
  assert (Hpar : p_parent p = None) by exact (f_equal k_parent Ep). split_and!.
  - apply (pinv_insert _ _ _ (key_of p)); simpl; try done; intros; congruence.
  - eapply calls_other; [by apply calls_set|done|done|]. intros q. exact (calls_alone _ _ _ cur n q HC Ee).
  - intros Hf. eapply pids_insert; [by apply HI|done|done|by left].
Qed.
Lemma fork_parent_inv wrap t c cur n : is_running t cur -> c cur = Forking n -> sinv wrap (t, c) ->
  sinv wrap (set_procs (alter (set_parent (Some cur)) n (pt_proc t)) t, <[cur := Parented n]> c).
Proof.
  intros Hr Ec Hi. assert (Ee : embryo_of (c cur) = Some n) by by rewrite Ec.
  destruct (embryo_view wrap t c cur n Hr Ee Hi) as (p & kc & Hp & Ep & Hk & Hd & Hkc & Hlc & Hsc & Hne).
  destruct Hi as (HP & HC & HI). unfold sinv. simpl in *. rewrite (keys_upd _ _ _ _ Hp). rewrite Ec in Ep.
  assert (Hpar : p_parent p = None) by exact (f_equal k_parent Ep).
  assert (Hst : p_state p = EMBRYO) by exact (f_equal k_st Ep). split_and!.
  - apply (pinv_insert _ _ _ (key_of p)); simpl; rewrite ?Hpar, ?Hst; try done. intros q [= <-]. split; [done|]. by exists kc.
  - apply (calls_ext _ _ (<[cur := Parented n]> (<[cur := Free]> c))).
    { intros q. destruct (decide (q = cur)) as [->|]; [by rewrite !fn_lookup_insert|by rewrite !fn_lookup_insert_ne]. }
    eapply (calls_begin _ _ _ cur (Parented n) n kc (key_of (set_parent (Some cur) p))); [|done| |done| |exact Hst|done|].
    + eapply calls_other; [by apply calls_set|done|done|]. intros q. exact (calls_alone _ _ _ cur n q HC Ee).
    + by rewrite list_lookup_insert_ne by done.
    + apply list_lookup_insert_eq. by eapply lookup_lt_Some.
    + intros q Eq. by destruct (calls_alone _ _ _ cur n q HC Ee).
  - intros Hf. eapply pids_insert; [by apply HI|done|done|right; right; simpl; by rewrite Hst].
Qed.
Lemma fork_publish_inv wrap t c cur n : is_running t cur -> c cur = Parented n -> sinv wrap (t, c) ->
  sinv wrap (set_procs (alter (set_state RUNNABLE) n (pt_proc t)) t, <[cur := Free]> c).
Proof.
  intros Hr Ec Hi. assert (Ee : embryo_of (c cur) = Some n) by by rewrite Ec.
  destruct (embryo_view wrap t c cur n Hr Ee Hi) as (p & kc & Hp & Ep & Hk & Hd & Hkc & Hlc & Hsc & Hne).
  destruct Hi as (HP & HC & HI). unfold sinv. simpl in *. rewrite (keys_upd _ _ _ _ Hp). rewrite Ec in Ep.
  assert (Hpar : p_parent p = Some cur) by exact (f_equal k_parent Ep).
  assert (Hst : p_state p = EMBRYO) by exact (f_equal k_st Ep). split_and!.
  - apply (pinv_insert _ _ _ (key_of p)); simpl; rewrite ?Hpar; try done.
    + intros q [= <-]. by exists kc.
    + intros q [= <-]. split; [done|]. by exists kc.
  - eapply calls_other; [by apply calls_set|done|done|]. intros q. exact (calls_alone _ _ _ cur n q HC Ee).
  - intros Hf. eapply pids_insert; [by apply HI|done|done|right; right; simpl; by rewrite Hst].
Qed.

Lemma wait_pass_inv wrap t c cur r t' : is_running t cur -> c cur = Free -> wait cur t = Done r t' -> sinv wrap (t, c) -> sinv wrap (t', c).
Proof.
  intros Hr Ec Hw (HP & HC & HI). pose proof (running_key _ _ Hr) as (kc & Hkc & Hrun & Hlive).
  destruct (wait_keys t cur Hr _ _ Hw) as (Ei & En & H). unfold sinv. simpl in *. rewrite Ei, En. destruct r.
  - destruct H as (n & k & Hk & Hz & Hp & ->). assert (Hd : ~ live k) by (intros Hl%live_not; tauto). split_and!.
    + eapply pinv_insert; [done..| | |]; simpl; try done. rewrite Hp. intros q [= <-]. exists kc. split; [done|]. congruence.
    + eapply calls_other; [done..|]. intros q Eq. destruct (ca_slot _ _ _ HC q n Eq) as (k' & Hk' & Hs & _). congruence.
    + intros Hf. eapply pids_insert; [by apply HI|done|done|by left].
  - by rewrite H.
  - destruct H as (-> & Hex & Hnz). split_and!; [by eapply pinv_sleep|by eapply sleeping_calls|intros Hf; eapply sleeping_pids; eauto].
Qed.

Lemma step_inv wrap y y' : sinv wrap y -> step wrap y y' -> sinv wrap y'.
Proof.
  intros Hi Hs. destruct Hs as [t c cur n t' Hr Ec Hw H|t c cur n Hr Ec|t c cur n Hr Ec|t c cur n Hr Ec|t c cur Hr Ec Hne|t c cur Hr Ec
    |t c cur r t' Hr Ec H|t c cur a t' Hr H|t c cur t' Hr H|t c cur t' Hr H|t c a t' H|t c pid r t' H|t c i j H|t c t' H].
  - by eapply fork_alloc_inv.
  - by apply fork_fail_inv.
  - by apply fork_parent_inv.
  - by eapply fork_publish_inv.
  - destruct Hi as (HP & HC & HI). split_and!; [done| |done]. by apply calls_set.
  - apply running_key in Hr as (kc & Hkc & Hrun & Hlive). destruct Hi as (HP & HC & HI). unfold sinv. simpl in *.
    pose proof (ca_exit _ _ _ HC _ Ec) as Hne.
    split_and!; [by eapply exit_locked_pinv|eapply exit_locked_calls; try done; by rewrite Ec|intros Hf; eapply exit_locked_pids; eauto].
  - by eapply wait_pass_inv.
  - eapply sinv_rel; [|exact Hi]. exact (sleep_rel _ _ _ Hr _ _ H).
  - eapply sinv_rel; [|exact Hi]. exact (sleep_return_rel _ _ _ _ H).
  - eapply sinv_rel; [|exact Hi]. exact (yield_rel _ _ Hr _ _ H).
  - eapply sinv_rel; [|exact Hi]. exact (wakeup_rel _ _ _ _ H).
  - eapply sinv_rel; [|exact Hi]. exact (kill_rel _ _ _ _ H).
  - eapply sinv_rel; [|exact Hi]. by eapply run_rel.
  - eapply sinv_rel; [|exact Hi]. by apply same_rel.
Qed.

(** The first process. *)
Lemma userinit_inv t name :
  pt_proc t = replicate NPROC proc0 -> pt_nextpid t = 1 ->
  wlp (userinit forkret name) t (fun _ t' => forall wrap, sinv wrap (t', fun _ => Free)).
Proof.
  intros Hp Hn. unfold userinit, allocproc. wlp_step. wlp_step. intros [n|] t1 H1; [|by wlp_step; wlp_step].
  apply alloc_slot_keys in H1 as (Hf & _ & En & k0 & Hk0 & _ & Ek). rewrite Hp in Hf, Ek, Hk0. rewrite Hn in En, Ek.
  assert (n = 0%nat) as -> by (vm_compute in Hf; congruence). clear Hf.
  wlp_step. apply wlp_env. intros s t2 H2 _. wlp_step. apply wlp_silent; [done|]. intros t3 H3.
  destruct (s =? 0); [wlp_step; apply wlp_upd; wlp_step; by wlp_step|].
  wlp_step. apply wlp_silent; [done|]. intros t4 H4. wlp_step. wlp_step. wlp_step. apply wlp_silent; [done|]. intros t5 H5. wlp_step.
  wlp_step. wlp_step. wlp_step. apply wlp_env. intros d t6 (Ek6 & Ei6 & En6) _. simpl in Ek6, Ei6, En6.
  wlp_step. apply wlp_silent; [done|]. intros t7 H7. destruct (d =? 0); [by wlp_step|].
  wlp_step. apply wlp_env. intros _ t8 H8 _. wlp_step. apply wlp_silent; [done|]. intros t9 H9.
  wlp_step. apply wlp_silent; [done|]. intros t10 H10. wlp_step. apply wlp_silent; [done|]. intros t11 H11.
  wlp_step. apply wlp_env. intros w t12 H12 _. wlp_step. apply wlp_silent; [done|]. intros t13 H13.
  apply wlp_upd. assert (same t6 t13) as (E1 & E2 & E3) by eauto 10 using same_trans.
  assert (same t1 t5) as (F1 & _ & F3) by eauto using same_trans. intros wrap. unfold sinv. simpl.
  rewrite (keys_alter _ (fun k => mkkey RUNNABLE (k_pid k) (k_parent k) (k_chan k))) by done.
  rewrite E1, E2, E3, Ek6, Ei6, En6, F1, F3, En, Ek. change (i32 (1 + 1)) with 2. by apply first_table.
Qed.

Lemma reachable_inv wrap y : reachable wrap y -> sinv wrap y.
Proof.
  induction 1 as [e ticks name t H|y y' _ IH H]; [|by eapply step_inv].
  by apply (userinit_inv (mkptable e (replicate NPROC proc0) 1 0 ticks) name eq_refl eq_refl tt).
Qed.

(** ** The calls are sequences of steps *)

Section calls.
Context (wrap : bool).
Implicit Types (c : nat -> call).

Lemma steps_same y t c t' : rtc (step wrap) y (t, c) -> same t t' -> rtc (step wrap) y (t', c).
Proof. intros H Hs. eapply rtc_r; [exact H|]. by apply service. Qed.
Lemma upd_upd f g n t : set_procs (alter (fun p => f (g p)) n (pt_proc t)) t =
  set_procs (alter f n (pt_proc (set_procs (alter g n (pt_proc t)) t))) (set_procs (alter g n (pt_proc t)) t).
Proof. unfold set_procs. simpl. by rewrite list_alter_alter_eq. Qed.
Lemma upd_same f n t : (forall p, key_of (f p) = key_of p) -> same t (set_procs (alter f n (pt_proc t)) t).
Proof. intros Hf. split; [by apply keys_silent|done]. Qed.

(** [allocproc] for [cur]. *)
Lemma allocproc_steps t c cur : is_running t cur -> c cur = Free -> (wrap = false -> pt_nextpid t < 2 ^ 31 - 1) ->
  wlp (allocproc forkret) t (fun o t' => exists c', rtc (step wrap) (t, c) (t', c') /\ is_running t' cur /\
    (forall q, q <> cur -> c q = Free -> c' q = Free) /\
    match o with Some n => c' cur = Forking n /\ cur <> n | None => c' cur = Free end).
Proof.
  intros Hr Ec Hw. unfold allocproc. wlp_step. intros [n|] t1 H1.
  2:{ unfold alloc_slot, mbind, km_bind, kget in H1. destruct (find_slot _ _ _); [done|]. injection H1 as <-. wlp_step. by exists c. }
  assert (Hs : step wrap (t, c) (t1, <[cur := Forking n]> (<[n := Free]> c))) by by apply fork_alloc.
  pose proof (running_key _ _ Hr) as (kc & Hkc & Hrun & Hlc).
  apply alloc_slot_keys in H1 as (_ & _ & _ & k & Hk & Hu & Ek). assert (Hne : cur <> n) by (intros ->; congruence).
  assert (Hr1 : is_running t1 cur) by (apply (key_running _ _ kc); [by rewrite Ek, list_lookup_insert_ne|done]).
  set (c1 := <[cur := Forking n]> _) in Hs. assert (Ec1 : c1 cur = Forking n) by apply fn_lookup_insert.
  assert (Hq1 : forall q, q <> cur -> c q = Free -> c1 q = Free).
  { intros q Hq Hf. unfold c1. rewrite fn_lookup_insert_ne by done. destruct (decide (q = n)) as [->|]; [apply fn_lookup_insert|by rewrite fn_lookup_insert_ne]. }
  assert (R1 : rtc (step wrap) (t, c) (t1, c1)) by by apply rtc_once. clear Hs Hkc Hk Hr.
  wlp_step. apply wlp_env. intros s t2 H2 _. wlp_step. apply wlp_silent; [done|]. intros t3 H3.
  assert (H13 : same t1 t3) by eauto using same_trans. pose proof (same_running _ _ _ H13 Hr1) as Hr3.
  pose proof (steps_same _ _ _ _ R1 H13) as R3. destruct (s =? 0).
  - wlp_step. apply wlp_upd. wlp_step. exists (<[cur := Free]> c1). split; [eapply rtc_r; [exact R3|by apply fork_fail]|].
    split; [destruct Hr3 as (p & Hp & Hst); exists p; simpl; by rewrite list_lookup_alter_ne|].
    split; [|apply fn_lookup_insert]. intros q Hq Hf. rewrite fn_lookup_insert_ne by done. auto.
  - wlp_step. apply wlp_silent; [done|]. intros t4 H4. wlp_step. wlp_step. wlp_step. apply wlp_silent; [done|]. intros t5 H5. wlp_step.
    assert (H35 : same t3 t5) by eauto using same_trans. exists c1. split; [by eapply steps_same|].
    split; [by eapply same_running|done].
Qed.
Lemma fork_steps t c cur : is_running t cur -> c cur = Free -> (wrap = false -> pt_nextpid t < 2 ^ 31 - 1) ->
  wlp (fork forkret cur) t (fun _ t' => exists c', rtc (step wrap) (t, c) (t', c') /\ forall q, q = cur \/ c q = Free -> c' q = Free).
Proof.
  intros Hr Ec Hw. unfold fork. wlp_step. eapply wlp_mono; [by apply (allocproc_steps t c cur)|].
  intros [n|] t1 (c1 & R1 & Hr1 & Hq1 & Ec1); [|wlp_step; exists c1; split; [done|]; intros q Hq; destruct (decide (q = cur)) as [->|]; [done|naive_solver]].
  destruct Ec1 as [Ec1 Hne].
  assert (Hq : forall x q, q = cur \/ c q = Free -> <[cur := Free]> (<[cur := x]> c1) q = Free).
  { intros x q Hq. destruct (decide (q = cur)) as [->|Hn]; [apply fn_lookup_insert|]. rewrite !fn_lookup_insert_ne by done. naive_solver. }
  wlp_step. apply wlp_get_proc. intros p _. wlp_step. apply wlp_env. intros d t2 H2 _.
  wlp_step. apply wlp_silent; [done|]. intros t3 H3. assert (H13 : same t1 t3) by eauto using same_trans.
  pose proof (same_running _ _ _ H13 Hr1) as Hr3. pose proof (steps_same _ _ _ _ R1 H13) as R3. clear R1 Hr1 H13. destruct (d =? 0).
  - wlp_step. apply wlp_get_proc. intros q _. wlp_step. apply wlp_env. intros _ t4 H4 _.
    wlp_step. apply wlp_upd. wlp_step. exists (<[cur := Free]> c1). split.
    2:{ intros q' Hq'. destruct (decide (q' = cur)) as [->|]; [apply fn_lookup_insert|rewrite fn_lookup_insert_ne by done; naive_solver]. }
    rewrite (upd_upd (set_state UNUSED) (set_kstack 0)). set (t5 := set_procs _ t4).
    assert (H35 : same t3 t5) by (eapply same_trans; [exact H4|by apply upd_same]).
    eapply rtc_r; [by eapply steps_same|]. apply fork_fail; [by eapply same_running|done].
  - wlp_step. apply wlp_upd. set (g := fun q : proc => set_tf (set_eax 0 (p_tf p)) (set_parent (Some cur) (set_sz (p_sz p) q))).
    assert (R4 : rtc (step wrap) (t, c) (set_procs (alter g n (pt_proc t3)) t3, <[cur := Parented n]> c1)).
    { unfold g. rewrite (upd_upd (set_tf _) (fun q => set_parent (Some cur) (set_sz (p_sz p) q))), (upd_upd (set_parent (Some cur)) (set_sz (p_sz p))).
      set (t4 := set_procs _ t3) at 1 2 3 4. assert (H34 : same t3 t4) by by apply upd_same.
      eapply steps_same; [|by apply upd_same]. eapply rtc_r; [by eapply steps_same|].
      apply fork_parent; [by eapply same_running|done]. }
    assert (Hr4 : is_running (set_procs (alter g n (pt_proc t3)) t3) cur).
    { destruct Hr3 as (q & Hqn & Hst). exists q. simpl. by rewrite list_lookup_alter_ne. }
    wlp_step. eapply wlp_mono; [apply dup_files_same|]. intros [] t5 H5. wlp_step. apply wlp_env. intros w t6 H6 _.
    wlp_step. apply wlp_silent; [done|]. intros t7 H7. wlp_step. apply wlp_silent; [done|]. intros t8 H8.
    wlp_step. apply wlp_get_proc. intros q _. wlp_step. apply wlp_upd. wlp_step.
    assert (H48 : same (set_procs (alter g n (pt_proc t3)) t3) t8) by eauto 6 using same_trans.
    exists (<[cur := Free]> (<[cur := Parented n]> c1)). split; [|apply Hq].
    eapply rtc_r; [by eapply steps_same|]. apply fork_publish; [by eapply same_running|apply fn_lookup_insert].
Qed.
Lemma exit_steps t c cur : is_running t cur -> c cur = Free ->
  wlp (exit cur) t (fun _ t' => exists c', rtc (step wrap) (t, c) (t', c')).
Proof.
  intros Hr Ec. unfold exit. wlp_step. wlp_step.
  destruct (cur =? pt_initproc t)%nat eqn:Ei; [by wlp_step|]. apply Nat.eqb_neq in Ei.
  wlp_step. apply wlp_get_proc. intros p _. wlp_step. eapply wlp_mono; [apply close_files_same|].
  intros [] t1 H1. wlp_step. apply wlp_env. intros _ t2 H2 _. wlp_step. apply wlp_get_proc. intros q _.
  wlp_step. apply wlp_env. intros _ t3 H3 _. wlp_step. apply wlp_env. intros _ t4 H4 _.
  wlp_step. apply wlp_silent; [done|]. intros t5 H5. wlp_step.
  assert (H15 : same t t5) by eauto 6 using same_trans. exists (<[cur := Exiting]> c).
  eapply rtc_r; [eapply steps_same; [apply rtc_once; by apply exit_begin|exact H15]|].
  apply exit_end; [by eapply same_running|apply fn_lookup_insert].
Qed.

Lemma growproc_step t c cur n : wlp (growproc cur n) t (fun _ t' => step wrap (t, c) (t', c)).
Proof. eapply wlp_mono; [apply growproc_same|]. intros r t' H. by apply service. Qed.

Lemma reachable_steps y y' : reachable wrap y -> rtc (step wrap) y y' -> reachable wrap y'.
Proof. intros Hr Hs. induction Hs as [|x y z H _ IH]; [done|]. apply IH. by eapply reach_step. Qed.
End calls.
End operations.

(** A kernel that never runs out of anything, for examples. *)
#[global] Instance demo_services : Services unit := {|
  sv_kalloc := mret 4096; sv_kfree _ := mret tt; sv_setupkvm := mret 8192; sv_inituvm _ := mret tt;
  sv_allocuvm _ _ n := mret n; sv_deallocuvm _ _ n := mret n; sv_copyuvm _ _ := mret 12288;
  sv_freevm _ := mret tt; sv_filedup f := mret f; sv_fileclose _ := mret tt; sv_idup i := mret i;
  sv_iput _ := mret tt; sv_namei_root := mret 1; sv_begin_op := mret tt; sv_end_op := mret tt |}.
Definition demo_boot : ptable unit := mkptable tt (replicate NPROC proc0) 1 0 0.
Definition demo_after {A} (m : KM (ptable unit) A) (t : ptable unit) : ptable unit := match m t with Done _ t' => t' | _ => t end.
Definition demo_table : ptable unit := Eval vm_compute in demo_after (userinit 0 [105]) demo_boot.
Lemma demo_reachable wrap : reachable 0 wrap (demo_table, fun _ => Free).
Proof. exact (reach_init 0 wrap tt 0 [105] demo_table eq_refl). Qed.

(** Init forks process 1 and waits; process 1 forks process 2 and gives up the
    processor; process 2 exits. *)
Definition demo_run (j : nat) (t : ptable unit) : ptable unit := set_procs (run_proc j (pt_proc t)) t.
Definition demo_t1 : ptable unit := Eval vm_compute in demo_after (fork 0 0) (demo_run 0 demo_table).
Definition demo_t2 : ptable unit := Eval vm_compute in demo_after (wait 0) demo_t1.
Definition demo_t3 : ptable unit := Eval vm_compute in demo_after (fork 0 1) (demo_run 1 demo_t2).
Definition demo_t4 : ptable unit := Eval vm_compute in demo_after (yield 1) demo_t3.
Definition demo_exited : ptable unit := Eval vm_compute in demo_after (exit 2) (demo_run 2 demo_t4).

(** The witness's run. *)
Definition all_free (c : nat -> call) : Prop := forall q, c q = Free.
Lemma demo_sched t j i : (exists c, reachable 0 true (t, c) /\ all_free c) -> pick (pt_proc t) i = Some j ->
  exists c, reachable 0 true (demo_run j t, c) /\ all_free c.
Proof. intros (c & Hr & Hc) H. exists c. split; [|done]. eapply reach_step; [exact Hr|]. by eapply runs. Qed.
Lemma demo_fork t i r t' : (exists c, reachable 0 true (t, c) /\ all_free c) -> is_running t i -> fork 0 i t = Done r t' ->
  exists c, reachable 0 true (t', c) /\ all_free c.
Proof.
  intros (c & Hr & Hc) Hi E. destruct (fork_steps 0 true t c i Hi (Hc i) ltac:(done) _ _ E) as (c' & Hs & Hq).
  exists c'. split; [by eapply reachable_steps|]. intros q. apply Hq. right. apply Hc.
Qed.
Lemma demo_exited_reachable : exists c, reachable 0 true (demo_exited, c).
Proof.
  assert (R0 : exists c, reachable 0 true (demo_table, c) /\ all_free c) by (eexists; split; [apply demo_reachable|done]).
  assert (R1 : exists c, reachable 0 true (demo_t1, c) /\ all_free c).
  { eapply (demo_fork (demo_run 0 demo_table) 0 2); [apply (demo_sched demo_table 0 0 R0); reflexivity|by eexists|reflexivity]. }
  assert (R2 : exists c, reachable 0 true (demo_t2, c) /\ all_free c).
  { destruct R1 as (c & Hr & Hc). exists c. split; [|done]. eapply reach_step; [exact Hr|].
    apply (wait_pass true _ _ 0 Waits); [by eexists|apply Hc|reflexivity]. }
  assert (R3 : exists c, reachable 0 true (demo_t3, c) /\ all_free c).
  { eapply (demo_fork (demo_run 1 demo_t2) 1 3); [apply (demo_sched demo_t2 1 0 R2); reflexivity|by eexists|reflexivity]. }
  assert (R4 : exists c, reachable 0 true (demo_t4, c) /\ all_free c).
  { destruct R3 as (c & Hr & Hc). exists c. split; [|done]. eapply reach_step; [exact Hr|].
    apply (yields true _ _ 1); [by eexists|reflexivity]. }
  destruct (demo_sched demo_t4 2 2 R4) as (c & Hr & Hc); [reflexivity|].
  destruct (exit_steps true (demo_run 2 demo_t4) c 2) with (a := tt) (s' := demo_exited) as (c' & Hs); [by eexists|apply Hc|reflexivity|].
  exists c'. by eapply reachable_steps.
Qed.

(** C8.  No exit is missed.  In every interleaving of the processes at the
    points where others can run, [fork] and [exit] being sequences of steps
    between which they may be preempted and, in [exit], sleep for the file
    system, whatever the rest of the kernel does to memory, files and the other
    fields, and also when pids wrap around: a process asleep in [wait] has a
    child and no zombie child, and every zombie has a parent that is alive and
    not asleep in [wait], so its next [wait] finds the zombie. *)
Theorem exit_never_missed {E} `{SV : Services E} forkret wrap (t : ptable E) c :
  reachable forkret wrap (t, c) ->
  (forall i p, pt_proc t !! i = Some p -> p_state p = SLEEPING -> p_chan p = Some (ChanProc i) ->
     (exists j q, pt_proc t !! j = Some q /\ p_parent q = Some i) /\
     forall j q, pt_proc t !! j = Some q -> p_parent q = Some i -> p_state q <> ZOMBIE) /\
  (forall i p, pt_proc t !! i = Some p -> p_state p = ZOMBIE ->
     exists j q, p_parent p = Some j /\ pt_proc t !! j = Some q /\
       (p_state q = RUNNABLE \/ p_state q = RUNNING \/ (p_state q = SLEEPING /\ p_chan q <> Some (ChanProc j)))).
Proof.
  intros ([P1 P2 P0 P6 P7 P8] & _)%reachable_inv. simpl in *.
  assert (Hk : forall i p, pt_proc t !! i = Some p -> keys (pt_proc t) !! i = Some (key_of p)).
  { intros i p Hp. by rewrite keys_lookup, Hp. }
  assert (Hk' : forall i k, keys (pt_proc t) !! i = Some k -> exists p, pt_proc t !! i = Some p /\ k = key_of p).
  { intros i k. rewrite keys_lookup. intros (p & ? & ->)%fmap_Some. eauto. }
  split.
  - intros i p Hp Hs Hc. destruct (P8 _ _ _ (Hk _ _ Hp) Hs Hc) as (_ & (j & l & Hl & Hlp) & Hz). split.
    + destruct (Hk' _ _ Hl) as (q & Hq & ->). eauto.
    + intros j2 q Hq Hqp. exact (Hz j2 _ (Hk _ _ Hq) Hqp).
  - intros i p Hp Hz. destruct (P7 _ _ (Hk _ _ Hp)) as [j Hj].
    { simpl. by rewrite Hz. }
    { simpl. by rewrite Hz. }
    { intros ->. destruct P2 as (k & Hki & Hl & _). rewrite (Hk _ _ Hp) in Hki. injection Hki as <-.
      apply live_not in Hl. simpl in Hl. tauto. }
    destruct (P6 _ _ _ (Hk _ _ Hp) Hj) as (_ & kq & Hkq & Hlq). destruct (Hk' _ _ Hkq) as (q & Hq & ->).
    exists j, q. split; [done|]. split; [done|]. destruct Hlq as [Hs|[?|?]]; [|tauto..]. right. right. split; [done|].
    intros Hc. destruct (P8 _ _ _ Hkq Hs Hc) as (_ & _ & Hnz). exact (Hnz _ _ (Hk _ _ Hp) Hj Hz).
Qed.
Lemma exit_never_missed_witness :
  (forall j q, pt_proc demo_exited !! j = Some q -> p_parent q = Some 0%nat -> p_state q <> ZOMBIE) /\
  exists q, pt_proc demo_exited !! 1%nat = Some q /\ p_state q = RUNNABLE /\
    (exists z, pt_proc demo_exited !! 2%nat = Some z /\ p_state z = ZOMBIE /\ p_parent z = Some 1%nat).
Proof.
  destruct demo_exited_reachable as [c Hr]. destruct (exit_never_missed 0 true demo_exited c Hr) as [Hw Hz]. split.
  - eapply (Hw 0%nat); reflexivity.
  - destruct (Hz 2%nat _ eq_refl eq_refl) as (j & q & Hj & Hq & _). injection Hj as <-. exists q. split; [exact Hq|].
    injection Hq as <-. split; [reflexivity|]. eexists. split; [reflexivity|]. split; reflexivity.
Defined.

(** Process ids identify processes: in every interleaving, until
    [nextpid] wraps around, two slots in use never have the same pid, and pids
    in use are positive. *)
Theorem pids_unique {E} `{SV : Services E} forkret (t : ptable E) c i j p q :
  reachable forkret false (t, c) -> pt_proc t !! i = Some p -> pt_proc t !! j = Some q ->
  p_state p <> UNUSED -> p_state q <> UNUSED ->
  1 <= p_pid p < pt_nextpid t /\ (p_pid p = p_pid q -> i = j).
Proof.
  intros (_ & _ & Hpid)%reachable_inv Hp Hq Hsp Hsq. destruct (Hpid eq_refl) as [_ P4 P5].
  assert (Hkp : keys (pt_proc t) !! i = Some (key_of p)) by by rewrite keys_lookup, Hp.
  assert (Hkq : keys (pt_proc t) !! j = Some (key_of q)) by by rewrite keys_lookup, Hq.
  split; [exact (P4 _ _ Hkp Hsp)|]. exact (P5 _ _ _ _ Hkp Hkq Hsp Hsq).
Qed.
Lemma pids_unique_witness : exists p, pt_proc demo_table !! 0%nat = Some p /\ 1 <= p_pid p.
Proof.
  eexists. split; [reflexivity|].
  apply (pids_unique 0 demo_table _ 0 0 _ _ (demo_reachable false) eq_refl eq_refl); discriminate.
Defined.

(** [kill(0)] poisons a free slot.  When the first free slot has pid 0,
    as after boot and after every [wait], [kill(0)] reports success and marks
    that slot killed, and the next process [allocproc] makes is born killed. *)
Theorem kill_zero_poisons {E} `{SV : Services E} forkret (t : ptable E) c n p :
  reachable forkret false (t, c) -> pt_nextpid t < 2 ^ 31 - 1 ->
  find_slot (is_state UNUSED) 0 (pt_proc t) = Some n -> pt_proc t !! n = Some p -> p_pid p = 0 ->
  wp (kill 0) t (fun r t' => r = 0 /\
    wlp (allocproc forkret) t' (fun o t'' => forall m q,
      o = Some m -> pt_proc t'' !! m = Some q -> m = n /\ p_state q = EMBRYO /\ p_killed q = 1)).
Proof.
  intros (_ & _ & Hi)%reachable_inv Hnp Hf Hp Hpid. destruct (Hi eq_refl) as [Hp1 P4 P5]. simpl in *.
  pose proof (find_slot_Some _ _ _ _ Hf) as (_ & (p' & Hp' & Hu%bool_decide_eq_true) & Hb).
  rewrite Nat.sub_0_r in Hp'. assert (p' = p) as -> by congruence.
  assert (Hk : find_slot (fun p => p_pid p =? 0) 0 (pt_proc t) = Some n).
  { destruct (find_slot (fun p => p_pid p =? 0) 0 (pt_proc t)) as [m|] eqn:Em.
    - apply find_slot_Some in Em as (_ & (q & Hq & Hq0%Z.eqb_eq) & Hb'). rewrite Nat.sub_0_r in Hq. f_equal.
      destruct (lt_eq_lt_dec m n) as [[Hlt| ->]|Hlt]; [|done|].
      + assert (Hnu : p_state q <> UNUSED).
        { intros E0. assert (is_state UNUSED q = false) as Hf0 by (apply (Hb m); [lia|by rewrite Nat.sub_0_r]).
          unfold is_state in Hf0. by rewrite bool_decide_eq_true_2 in Hf0. }
        assert (keys (pt_proc t) !! m = Some (key_of q)) as Hkq by by rewrite keys_lookup, Hq.
        specialize (P4 _ _ Hkq Hnu). simpl in P4. lia.
      + assert ((p_pid p =? 0) = false) as E0 by (apply (Hb' n); [lia|by rewrite Nat.sub_0_r]).
        by rewrite Hpid in E0.
    - rewrite find_slot_None in Em. specialize (Em _ _ Hp). simpl in Em. by rewrite Hpid in Em. }
  unfold kill, upd_proc. wp_step. wp_step. rewrite Hk. wp_step. wp_step. wp_step. split; [done|].
  set (t1 := set_procs _ t). set (f := fun p : proc => _) in t1.
  assert (Hfp : f p = set_killed 1 p).
  { unfold f, is_state. simpl. by rewrite bool_decide_eq_false_2 by congruence. }
  assert (Hf1 : find_slot (is_state UNUSED) 0 (pt_proc t1) = Some n).
  { simpl. clear -Hf Hp Hfp Hu. revert Hf Hp. generalize (pt_proc t) as ps. intros ps.
    assert (forall ps i, find_slot (is_state UNUSED) i ps = Some (i + n)%nat -> ps !! n = Some p ->
      find_slot (is_state UNUSED) i (alter f n ps) = Some (i + n)%nat) as Hg.
    { clear ps. induction n as [|n IH]; intros [|q ps] i; try done; simpl.
      - intros _ [= ->]. rewrite Hfp. unfold is_state. simpl. by rewrite bool_decide_eq_true_2, Nat.add_0_r.
      - destruct (is_state UNUSED q); [intros [= E0]; lia|]. replace (i + S n)%nat with (S i + n)%nat by lia. apply IH. }
    apply (Hg ps 0%nat). }
  assert (Hn1 : pt_proc t1 !! n = Some (set_killed 1 p)).
  { simpl. by rewrite list_lookup_alter_eq, Hp, <- Hfp. }
  clearbody t1. intros o t2 Ho m q -> Hq. revert Ho Hq. unfold allocproc, alloc_slot, mbind, km_bind, kget. rewrite Hf1.
  unfold upd_proc, kmodify, env, zoom, mret, km_ret. cbv beta iota. destruct (sv_kalloc _) as [k e| | |]; try done. simpl.
  destruct (k =? 0); [done|]. intros [= <- <-]. simpl.
  rewrite !list_alter_alter_eq, list_lookup_alter_eq, Hn1. intros [= <-]. done.
Qed.
Lemma kill_zero_poisons_witness :
  wp (kill 0) demo_table (fun r t' => r = 0).
Proof.
  eapply wp_mono; [eapply (kill_zero_poisons 0 demo_table _ 1 _ (demo_reachable false)); [reflexivity|reflexivity|reflexivity|reflexivity]|].
  intros r t' [E _]. exact E.
Defined.
