(* ===== verification/Console.v ===== *)
(** * The console: [console.c]

    The input ring with its three 32-bit indices [r], [w] and [e]
    ([consoleintr], [consoleread]), and the CGA screen with its cursor
    ([cgaputc], [consputc]).  [consoleintr] runs with [cons.lock] held;
    [consoleread] is the section up to its return or its [sleep].

    Results: the ring implements a line discipline ([line_key]): the bytes the
    readers may see, then the line being edited; backspace and kill-line never
    reach bytes already handed to the readers, the 32-bit indices may wrap
    around, and a typed line is read back as it stands after editing; the
    cursor stays on the screen, so [cgaputc] never panics. *)

From S2P Require Import Prelude.

Definition INPUT_BUF : Z := 128.
Definition BACKSPACE : Z := 256.
Definition ctrl (x : Z) : Z := x - 64.          (* C(x) *)
Definition CTL_P : Z := ctrl 80.
Definition CTL_U : Z := ctrl 85.
Definition CTL_H : Z := ctrl 72.
Definition CTL_D : Z := ctrl 68.
Definition NL : Z := 10.
Definition CR : Z := 13.
Definition DEL : Z := 127.

Record input := mkinput {
  i_buf : list Z;
  i_r : Z; i_w : Z; i_e : Z      (* uint *)
}.

(** [input.buf[i % INPUT_BUF]] *)
Definition buf_at (i : Z) (s : input) : Z := nth (Z.to_nat (i mod INPUT_BUF)) (i_buf s) 0.

(** The kill-line loop; [n] bounds the number of bytes it can remove. *)
Fixpoint kill_line (n : nat) (s : input) : input * list Z :=
  match n with
  | O => (s, [])
  | S n =>
      if negb (i_e s =? i_w s) && negb (buf_at (u32 (i_e s - 1)) s =? NL) then
        let '(s, out) := kill_line n (mkinput (i_buf s) (i_r s) (i_w s) (u32 (i_e s - 1))) in
        (s, BACKSPACE :: out)
      else (s, [])
  end.

(** One character in the loop of [consoleintr]: the new state, what is echoed,
    whether the readers are woken, whether a process listing is wanted. *)
Definition intr_char (c : Z) (s : input) : input * list Z * bool * bool :=
  if c =? CTL_P then (s, [], false, true)
  else if c =? CTL_U then
    let '(s, out) := kill_line (Z.to_nat INPUT_BUF) s in (s, out, false, false)
  else if (c =? CTL_H) || (c =? DEL) then
    if negb (i_e s =? i_w s)
    then (mkinput (i_buf s) (i_r s) (i_w s) (u32 (i_e s - 1)), [BACKSPACE], false, false)
    else (s, [], false, false)
  else if negb (c =? 0) && (u32 (i_e s - i_r s) <? INPUT_BUF) then
    let c := if c =? CR then NL else c in
    let s := mkinput (<[Z.to_nat (i_e s mod INPUT_BUF) := u8 c]> (i_buf s)) (i_r s) (i_w s) (u32 (i_e s + 1)) in
    if (c =? NL) || (c =? CTL_D) || (i_e s =? u32 (i_r s + INPUT_BUF))
    then (mkinput (i_buf s) (i_r s) (i_e s) (i_e s), [c], true, false)
    else (s, [c], false, false)
  else (s, [], false, false).

(** [consoleintr] on the characters its [getc] delivers. *)
Fixpoint consoleintr (cs : list Z) (s : input) : input * list Z * bool * bool :=
  match cs with
  | [] => (s, [], false, false)
  | c :: cs =>
      let '(s, o1, w1, d1) := intr_char c s in
      let '(s, o2, w2, d2) := consoleintr cs s in
      (s, o1 ++ o2, w1 || w2, d1 || d2)
  end.

(** How a section of [consoleread] ends: with the bytes copied, with -1, or
    asleep after copying [bytes]. *)
Inductive read_result :=
| Read (bytes : list Z) (s : input)
| ReadFail (s : input)
| ReadSleep (bytes : list Z) (s : input).

(** The loop with [n] bytes to go of [target]. *)
Fixpoint read_from (killed : bool) (n target : nat) (s : input) : read_result :=
  match n with
  | O => Read [] s
  | S n' =>
      if i_r s =? i_w s then if killed then ReadFail s else ReadSleep [] s
      else
        let c := buf_at (i_r s) s in
        let s1 := mkinput (i_buf s) (u32 (i_r s + 1)) (i_w s) (i_e s) in
        if c =? CTL_D then
          if (n <? target)%nat then Read [] s        (* input.r-- *)
          else Read [] s1
        else if c =? NL then Read [c] s1
        else
          match read_from killed n' target s1 with
          | Read l s => Read (c :: l) s
          | ReadFail s => ReadFail s
          | ReadSleep l s => ReadSleep (c :: l) s
          end
  end.
Definition consoleread (killed : bool) (n : Z) (s : input) : read_result :=
  read_from killed (Z.to_nat n) (Z.to_nat n) s.

(** ** The line discipline *)

(** [q] is what the readers may read, [l] the line being edited. *)
Definition line_key (c : Z) (q l : list Z) : list Z * list Z :=
  if c =? CTL_P then (q, l)
  else if c =? CTL_U then (q, [])
  else if (c =? CTL_H) || (c =? DEL) then (q, take (length l - 1) l)
  else if negb (c =? 0) && (length q + length l <? 128)%nat then
    let c := if c =? CR then NL else c in
    let l := l ++ [u8 c] in
    if (c =? NL) || (c =? CTL_D) || (length q + length l =? 128)%nat then (q ++ l, []) else (q, l)
  else (q, l).
Definition line_keys (cs q l : list Z) : list Z * list Z :=
  foldl (fun s c => line_key c s.1 s.2) (q, l) cs.

(** The bytes between two unbounded indices. *)
Definition ring (b : list Z) (from to : Z) : list Z :=
  (fun k => nth (Z.to_nat (k mod INPUT_BUF)) b 0) <$> seqZ from (to - from).

Record input_ok (s : input) (R W E : Z) : Prop := mk_input_ok {
  io_r : i_r s = u32 R;
  io_w : i_w s = u32 W;
  io_e : i_e s = u32 E;
  io_ord : 0 <= R <= W /\ W <= E <= R + INPUT_BUF;
  io_len : length (i_buf s) = 128%nat;
  io_nl : Forall (fun c => c <> NL /\ c <> CTL_D) (ring (i_buf s) W E)
}.
Definition input_repr (s : input) (q l : list Z) : Prop :=
  exists R W E, input_ok s R W E /\ q = ring (i_buf s) R W /\ l = ring (i_buf s) W E.

Lemma length_ring b x y : x <= y -> length (ring b x y) = Z.to_nat (y - x).
Proof. intros H. unfold ring. by rewrite length_fmap, length_seqZ. Qed.
Lemma ring_snoc b x y : x <= y -> ring b x (y + 1) = ring b x y ++ [nth (Z.to_nat (y mod INPUT_BUF)) b 0].
Proof.
  intros H. unfold ring. replace (y + 1 - x) with ((y - x) + 1) by lia.
  rewrite seqZ_app by lia. rewrite fmap_app. f_equal. replace (x + (y - x)) with y by lia. done.
Qed.
Lemma ring_cons b x y : x < y -> ring b x y = nth (Z.to_nat (x mod INPUT_BUF)) b 0 :: ring b (x + 1) y.
Proof.
  intros H. unfold ring. rewrite seqZ_cons by lia. rewrite fmap_cons. f_equal. do 2 f_equal; lia.
Qed.
Lemma ring_app b x y z : x <= y -> y <= z -> ring b x z = ring b x y ++ ring b y z.
Proof.
  intros H1 H2. unfold ring. replace (z - x) with ((y - x) + (z - y)) by lia.
  rewrite seqZ_app by lia. rewrite fmap_app. do 2 f_equal. f_equal. lia.
Qed.
Lemma ring_empty b x : ring b x x = [].
Proof. unfold ring. by rewrite Z.sub_diag. Qed.
(** A byte stored outside the range does not change it. *)
Lemma ring_insert b x y k c : x <= y -> y <= k < x + INPUT_BUF ->
  ring (<[Z.to_nat (k mod INPUT_BUF) := c]> b) x y = ring b x y.
Proof.
  intros H Hk. unfold ring. apply list_fmap_ext. intros i j Hj. apply lookup_seqZ in Hj as [-> Hj].
  rewrite !nth_lookup, list_lookup_insert_ne; [done|]. unfold INPUT_BUF in *.
  pose proof (Z.mod_pos_bound k 128). pose proof (Z.mod_pos_bound (x + Z.of_nat i) 128).
  intros E. assert (E' : k mod 128 = (x + Z.of_nat i) mod 128) by lia.
  assert ((k - (x + Z.of_nat i)) mod 128 = 0) as D by (rewrite Zminus_mod, E', Z.sub_diag; done).
  apply Z.mod_divide in D as [m Hm]; lia.
Qed.

Lemma u32_mod_ring z : u32 z mod INPUT_BUF = z mod INPUT_BUF.
Proof. apply u32_mod_divide; [done|by exists 33554432]. Qed.
Lemma u32_eq_near a b : Z.abs (a - b) < 2 ^ 32 -> (u32 a =? u32 b) = (a =? b).
Proof.
  intros H. destruct (Z.eqb_spec a b) as [->|Hne]; [apply Z.eqb_refl|]. apply Z.eqb_neq.
  unfold u32. intros E. assert ((a - b) mod 2 ^ 32 = 0) as D by (rewrite Zminus_mod, E, Z.sub_diag; done).
  apply Z.mod_divide in D as [m Hm]; lia.
Qed.
Lemma u32_sub_near a b : 0 <= a - b < 2 ^ 32 -> u32 (u32 a - u32 b) = a - b.
Proof. intros H. rewrite u32_sub_l, u32_sub_r. by apply u32_id. Qed.

Ltac ring_facts H :=
  pose proof (io_r _ _ _ _ H) as Hr; pose proof (io_w _ _ _ _ H) as Hw;
  pose proof (io_e _ _ _ _ H) as He; pose proof (io_ord _ _ _ _ H) as Ho;
  pose proof (io_len _ _ _ _ H) as Hl; pose proof (io_nl _ _ _ _ H) as Hn;
  unfold INPUT_BUF in Ho.

(** Dropping the last byte of the line being edited. *)
Lemma input_ok_back s R W E : input_ok s R W E -> W < E ->
  input_ok (mkinput (i_buf s) (i_r s) (i_w s) (u32 (i_e s - 1))) R W (E - 1) /\
  ring (i_buf s) W (E - 1) = take (length (ring (i_buf s) W E) - 1) (ring (i_buf s) W E) /\
  buf_at (u32 (i_e s - 1)) s <> NL.
Proof.
  intros H HWE. ring_facts H.
  assert (Hs : ring (i_buf s) W E =
    ring (i_buf s) W (E - 1) ++ [nth (Z.to_nat ((E - 1) mod INPUT_BUF)) (i_buf s) 0]).
  { rewrite <- ring_snoc by lia. f_equal; lia. }
  assert (Hu : u32 (i_e s - 1) = u32 (E - 1)) by by rewrite He, u32_sub_l.
  split; [|split].
  - split; simpl; try done; [unfold INPUT_BUF; lia|]. rewrite Hs in Hn.
    apply Forall_app in Hn. tauto.
  - rewrite Hs, length_app. simpl. rewrite Nat.add_sub. by rewrite take_app_length.
  - unfold buf_at. rewrite Hu, u32_mod_ring. rewrite Hs in Hn.
    apply Forall_app in Hn as [_ Hn]. apply Forall_cons in Hn. tauto.
Qed.

Lemma kill_line_spec n : forall s R W E, input_ok s R W E -> E - W <= Z.of_nat n ->
  kill_line n s = (mkinput (i_buf s) (i_r s) (i_w s) (u32 W), replicate (Z.to_nat (E - W)) BACKSPACE).
Proof.
  induction n as [|n IH]; intros s R W E H Hle; pose proof H as H'; ring_facts H'; simpl.
  - assert (E = W) as -> by lia. rewrite Z.sub_diag. simpl. destruct s; simpl in *. congruence.
  - rewrite He, Hw, u32_eq_near by lia. destruct (Z.eqb_spec E W) as [->|HWE]; simpl.
    + rewrite Z.sub_diag. simpl. destruct s; simpl in *. congruence.
    + destruct (input_ok_back _ _ _ _ H ltac:(lia)) as (H1 & _ & Hb).
      rewrite <- He, (proj2 (Z.eqb_neq _ _) Hb). simpl.
      rewrite <- Hw, (IH _ _ _ _ H1) by lia. simpl.
      replace (Z.to_nat (E - W)) with (S (Z.to_nat (E - 1 - W))) by lia. by rewrite ?Hw.
Qed.

(** Appending a byte to the line being edited. *)
Lemma input_ok_put s R W E c : input_ok s R W E -> E < R + INPUT_BUF ->
  let b := <[Z.to_nat (i_e s mod INPUT_BUF) := c]> (i_buf s) in
  length b = 128%nat /\ ring b R W = ring (i_buf s) R W /\
  ring b W (E + 1) = ring (i_buf s) W E ++ [c] /\ u32 (i_e s + 1) = u32 (E + 1).
Proof.
  intros H HE b. ring_facts H. unfold b. rewrite length_insert, He, u32_mod_ring, u32_add_l.
  unfold INPUT_BUF in HE.
  rewrite ring_insert by (unfold INPUT_BUF; lia).
  rewrite ring_snoc by lia. rewrite (ring_insert _ W E) by (unfold INPUT_BUF; lia).
  rewrite nth_lookup, list_lookup_insert_eq; [done|].
  pose proof (Z.mod_pos_bound E 128). unfold INPUT_BUF. lia.
Qed.

Lemma put_char_refines s R W E c : input_ok s R W E -> E < R + INPUT_BUF -> is_byte c ->
  let c' := if c =? CR then NL else c in
  let s1 := mkinput (<[Z.to_nat (i_e s mod INPUT_BUF) := u8 c']> (i_buf s)) (i_r s) (i_w s) (u32 (i_e s + 1)) in
  let fin := (c' =? NL) || (c' =? CTL_D) || (E + 1 =? R + INPUT_BUF) in
  ((i_e s1 =? u32 (i_r s1 + INPUT_BUF)) = (E + 1 =? R + INPUT_BUF)) /\
  (fin = true -> input_repr (mkinput (i_buf s1) (i_r s1) (i_e s1) (i_e s1))
                   (ring (i_buf s) R W ++ ring (i_buf s) W E ++ [u8 c']) []) /\
  (fin = false -> input_repr s1 (ring (i_buf s) R W) (ring (i_buf s) W E ++ [u8 c'])).
Proof.
  intros H HE Hc c' s1 fin. pose proof H as H'. ring_facts H'. unfold INPUT_BUF in HE.
  destruct (input_ok_put s R W E (u8 c') H HE) as (Hbl & HRW & HWE & Hu).
  assert (Hc' : u8 c' = c').
  { apply u8_id. unfold is_byte, c' in *. destruct (c =? CR); unfold NL; lia. }
  split; [|split].
  - unfold s1. cbn [i_e i_r]. rewrite Hu, Hr, u32_add_l. apply u32_eq_near. unfold INPUT_BUF. lia.
  - intros _. exists R, (E + 1), (E + 1). rewrite ring_empty. split_and!; [|unfold s1; cbn [i_buf]; rewrite (ring_app _ R W (E + 1)) by lia; by rewrite HRW, HWE|done].
    split; simpl; try done; [unfold INPUT_BUF; lia|rewrite ring_empty; constructor].
  - intros Hf. apply orb_false_iff in Hf as [Hf Hf3]. apply orb_false_iff in Hf as [Hf1 Hf2].
    exists R, W, (E + 1). unfold s1. cbn [i_buf]. rewrite HRW, HWE. split_and!; [|done|done].
    split; simpl; try done; [unfold INPUT_BUF; lia|]. rewrite HWE. apply Forall_app. split; [done|].
    constructor; [|done]. rewrite Hc'. lia.
Qed.

Lemma intr_char_refines c s q l : input_repr s q l -> is_byte c ->
  let '(s', _, woken, _) := intr_char c s in
  input_repr s' (line_key c q l).1 (line_key c q l).2 /\
  ((line_key c q l).1 <> q -> woken = true).
Proof.
  intros (R & W & E & H & -> & ->) Hc. pose proof H as H'. ring_facts H'.
  unfold intr_char, line_key. destruct (c =? CTL_P); [split; [by exists R, W, E|done]|].
  destruct (c =? CTL_U).
  { rewrite (kill_line_spec _ _ _ _ _ H) by (unfold INPUT_BUF; lia). split; [|done].
    exists R, W, W. rewrite ring_empty. split_and!; [|done|done].
    split; simpl; try done; [unfold INPUT_BUF; lia|rewrite ring_empty; constructor]. }
  destruct ((c =? CTL_H) || (c =? DEL)).
  { rewrite He, Hw, u32_eq_near by lia. destruct (Z.eqb_spec E W) as [->|HWE]; cbn [negb].
    - rewrite ring_empty. split; [|done]. exists R, W, W. by rewrite ring_empty.
    - rewrite <- He, <- Hw. destruct (input_ok_back _ _ _ _ H ltac:(lia)) as (H1 & Ht & _).
      split; [|done]. exists R, W, (E - 1). by rewrite <- Ht. }
  rewrite !length_ring by lia. 
  assert (u32 (i_e s - i_r s) = E - R) as -> by (rewrite He, Hr; apply u32_sub_near; lia).
  replace (E - R <? INPUT_BUF) with (Z.to_nat (W - R) + Z.to_nat (E - W) <? 128)%nat
    by (unfold INPUT_BUF; destruct (Nat.ltb_spec (Z.to_nat (W - R) + Z.to_nat (E - W)) 128); lia).
  destruct (negb (c =? 0) && (Z.to_nat (W - R) + Z.to_nat (E - W) <? 128)%nat) eqn:Hf;
    [|split; [by exists R, W, E|done]].
  apply andb_true_iff in Hf as [_ Hf]. apply Nat.ltb_lt in Hf.
  destruct (put_char_refines s R W E c H ltac:(unfold INPUT_BUF; lia) Hc) as (Hfull & Hcom & Hgo).
  cbv zeta in *. rewrite Hfull, length_app, length_ring by lia. simpl length.
  replace (Z.to_nat (W - R) + (Z.to_nat (E - W) + 1) =? 128)%nat with (E + 1 =? R + INPUT_BUF)
    by (unfold INPUT_BUF; destruct (Z.eqb_spec (E + 1) (R + 128)); symmetry; [apply Nat.eqb_eq|apply Nat.eqb_neq]; lia).
  destruct ((_ =? NL) || (_ =? CTL_D) || _); split; simpl; auto; done.
Qed.

Lemma consoleintr_refines cs : forall s q l, input_repr s q l -> Forall is_byte cs ->
  let '(s', _, woken, _) := consoleintr cs s in
  input_repr s' (line_keys cs q l).1 (line_keys cs q l).2 /\
  ((line_keys cs q l).1 <> q -> woken = true).
Proof.
  induction cs as [|c cs IH]; intros s q l H Hb; simpl; [done|].
  apply Forall_cons in Hb as [Hc Hb].
  pose proof (intr_char_refines c s q l H Hc) as H1.
  destruct (intr_char c s) as [[[s1 o1] w1] d1]. destruct H1 as [H1 Hw1].
  specialize (IH _ _ _ H1 Hb). destruct (consoleintr cs s1) as [[[s2 o2] w2] d2].
  unfold line_keys in *. simpl. rewrite <- surjective_pairing in IH. destruct IH as [H2 Hw2].
  split; [done|]. intros Hne. apply orb_true_iff.
  destruct (decide ((line_key c q l).1 = q)) as [Heq|Hq]; [right; apply Hw2; congruence|auto].
Qed.

(** ** Reading *)

(** What a reader takes from the readable bytes. *)
Inductive line_result :=
| LRead (bytes rest : list Z)
| LWait (bytes : list Z).
Fixpoint line_read (n target : nat) (q : list Z) : line_result :=
  match n, q with
  | O, _ => LRead [] q
  | S _, [] => LWait []
  | S n', c :: q' =>
      if c =? CTL_D then LRead [] (if (n <? target)%nat then q else q')
      else if c =? NL then LRead [c] q'
      else
        match line_read n' target q' with
        | LRead l r => LRead (c :: l) r
        | LWait l => LWait (c :: l)
        end
  end.

Definition read_agrees (killed : bool) (a : line_result) (l : list Z) (r : read_result) : Prop :=
  match a, r with
  | LRead bs rest, Read bs' s' => bs = bs' /\ input_repr s' rest l
  | LWait bs, ReadSleep bs' s' => killed = false /\ bs = bs' /\ input_repr s' [] l
  | LWait _, ReadFail s' => killed = true /\ input_repr s' [] l
  | _, _ => False
  end.

Lemma read_from_refines killed target : forall n s q l, input_repr s q l ->
  read_agrees killed (line_read n target q) l (read_from killed n target s).
Proof.
  induction n as [|n IH]; intros s q l H0; [done|].
  pose proof H0 as (R & W & E & H & Hq & Hl'). pose proof H as H'. ring_facts H'. cbn [read_from].
  rewrite Hr, Hw, u32_eq_near by lia. destruct (Z.eqb_spec R W) as [->|HRW].
  { rewrite Hq, ring_empty. cbn [line_read]. assert (input_repr s [] l).
    { exists W, W, E. by rewrite ring_empty. }
    by destruct killed. }
  rewrite (ring_cons _ R W) in Hq by lia.
  set (c := nth (Z.to_nat (R mod INPUT_BUF)) (i_buf s) 0) in *.
  assert (Hc : buf_at (u32 R) s = c) by (unfold buf_at; by rewrite u32_mod_ring).
  rewrite Hc, Hq. cbn [line_read]. clearbody c.
  set (s1 := mkinput _ _ _ _).
  assert (H1 : input_repr s1 (ring (i_buf s) (R + 1) W) l).
  { exists (R + 1), W, E. split_and!; [|done|done]. split; simpl; try done; [apply u32_add_l|].
    unfold INPUT_BUF. lia. }
  destruct (c =? CTL_D); [by destruct (S n <? target)%nat; [rewrite <- Hq|]|].
  destruct (c =? NL); [done|].
  specialize (IH s1 _ l H1). unfold read_agrees in *.
  destruct (line_read n target _), (read_from killed n target s1); try done; naive_solver.
Qed.

(** [consoleintr] implements the line discipline: whatever bytes arrive
    and wherever the 32-bit indices stand, the readable bytes and the line
    being edited change as [line_keys] says, and the readers are woken
    whenever bytes became readable. *)
Theorem console_line_discipline cs s q l :
  input_repr s q l -> Forall is_byte cs ->
  let '(s', _, woken, _) := consoleintr cs s in
  input_repr s' (line_keys cs q l).1 (line_keys cs q l).2 /\
  ((line_keys cs q l).1 <> q -> woken = true).
Proof. apply consoleintr_refines. Qed.

(** Indices about to wrap around: "ab", a backspace, "c", return. *)
Definition demo_input : input := mkinput (replicate 128 0) (2 ^ 32 - 2) (2 ^ 32 - 2) (2 ^ 32 - 2).
Lemma demo_input_repr : input_repr demo_input [] [].
Proof.
  exists (2 ^ 32 - 2), (2 ^ 32 - 2), (2 ^ 32 - 2). rewrite ring_empty. split_and!; [|done|done].
  split; done.
Qed.
Lemma console_line_discipline_witness :
  line_keys [97; 98; 127; 99; 13] [] [] = ([97; 99; 10], []) /\
  input_repr (consoleintr [97; 98; 127; 99; 13] demo_input).1.1.1 [97; 99; 10] [] /\
  i_w (consoleintr [97; 98; 127; 99; 13] demo_input).1.1.1 = 1.
Proof.
  split; [reflexivity|]. split; [|reflexivity].
  pose proof (console_line_discipline [97; 98; 127; 99; 13] demo_input [] [] demo_input_repr
    ltac:(repeat constructor; unfold is_byte; lia)) as H.
  destruct (consoleintr [97; 98; 127; 99; 13] demo_input) as [[[s' o] w] d].
  destruct H as [H _]. exact H.
Defined.

Lemma line_read_line n target l q : Forall (fun c => c <> NL /\ c <> CTL_D) l -> (length l < n)%nat ->
  line_read n target (l ++ NL :: q) = LRead (l ++ [NL]) q.
Proof.
  revert n. induction l as [|c l IH]; intros [|n] Hl Hn; simpl in *; try lia; [done|].
  apply Forall_cons in Hl as [[H1 H2] Hl].
  rewrite (proj2 (Z.eqb_neq _ _) H2), (proj2 (Z.eqb_neq _ _) H1), (IH n) by (done || lia). done.
Qed.

Lemma line_key_return q l : (length q + length l < 128)%nat -> line_key CR q l = (q ++ l ++ [NL], []).
Proof.
  intros H. unfold line_key. simpl. rewrite (proj2 (Nat.ltb_lt _ _) H). done.
Qed.

Lemma consoleintr_app cs1 cs2 s :
  let '(s1, o1, w1, d1) := consoleintr cs1 s in
  let '(s2, o2, w2, d2) := consoleintr cs2 s1 in
  consoleintr (cs1 ++ cs2) s = (s2, o1 ++ o2, w1 || w2, d1 || d2).
Proof.
  revert s. induction cs1 as [|c cs1 IH]; intros s; simpl.
  { by destruct (consoleintr cs2 s) as [[[s2 o2] w2] d2]. }
  destruct (intr_char c s) as [[[s1 o1] w1] d1]. specialize (IH s1).
  destruct (consoleintr cs1 s1) as [[[s2 o2] w2] d2].
  destruct (consoleintr cs2 s2) as [[[s3 o3] w3] d3]. rewrite IH.
  by rewrite app_assoc, !orb_assoc.
Qed.

(** A typed line is read back: if nothing is waiting for the readers and
    the keys [cs] leave the edited line [l] (with no return yet and room for
    one), then after the return key a read of more than [length l] bytes
    returns exactly [l] and the newline, leaving the console empty. *)
Theorem console_line_roundtrip s cs l n killed :
  input_repr s [] [] -> Forall is_byte cs -> line_keys cs [] [] = ([], l) ->
  (length l < 128)%nat -> Z.of_nat (length l) < n ->
  exists s', consoleread killed n (consoleintr (cs ++ [CR]) s).1.1.1 = Read (l ++ [NL]) s' /\
    input_repr s' [] [].
Proof.
  intros H Hb Hk Hlen Hn.
  pose proof (consoleintr_refines cs s [] [] H Hb) as H1. rewrite Hk in H1.
  pose proof (consoleintr_app cs [CR] s) as Happ.
  destruct (consoleintr cs s) as [[[s1 o1] w1] d1]. destruct H1 as [H1 _]. simpl in H1.
  pose proof (consoleintr_refines [CR] s1 [] l H1 ltac:(repeat constructor; done)) as H2.
  destruct (consoleintr [CR] s1) as [[[s2 o2] w2] d2]. rewrite Happ. cbn [fst].
  unfold line_keys in H2. cbn [foldl fst snd] in H2. rewrite line_key_return in H2 by done.
  destruct H2 as [H2 _]. cbn [fst snd app] in H2.
  assert (Hl : Forall (fun c => c <> NL /\ c <> CTL_D) l).
  { destruct H1 as (R & W & E & Hok & _ & ->). by apply (io_nl _ _ _ _ Hok). }
  pose proof (read_from_refines killed (Z.to_nat n) (Z.to_nat n) s2 _ _ H2) as Hr.
  rewrite (line_read_line _ _ l []) in Hr by (done || lia). unfold read_agrees, consoleread in *.
  destruct (read_from _ _ _ s2); try done. destruct Hr as [<- Hr]. by eexists.
Qed.

Lemma console_line_roundtrip_witness :
  line_keys [108; 120; 8; 115] [] [] = ([], [108; 115]) /\
  exists s', consoleread false 100 (consoleintr ([108; 120; 8; 115] ++ [CR]) demo_input).1.1.1
    = Read [108; 115; 10] s' /\ input_repr s' [] [].
Proof.
  split; [reflexivity|].
  apply (console_line_roundtrip demo_input [108; 120; 8; 115] [108; 115] 100 false).
  - exact demo_input_repr.
  - repeat constructor; unfold is_byte; lia.
  - reflexivity.
  - simpl. lia.
  - simpl. lia.
Defined.

(** ** The screen *)

Record cga := mkcga { crt : list Z; cur : Z }.       (* ushort cells, cursor register *)

Definition cgaputc (c : Z) (s : cga) : option cga :=
  let pos := cur s in
  let '(m, pos) :=
    if c =? NL then (crt s, pos + (80 - Z.rem pos 80))
    else if c =? BACKSPACE then (crt s, if 0 <? pos then pos - 1 else pos)
    else (<[Z.to_nat pos := Z.lor (Z.land c 255) 0x700]> (crt s), pos + 1) in
  if (pos <? 0) || (25 * 80 <? pos) then None                     (* panic *)
  else
    let '(m, pos) :=
      if 24 <=? Z.quot pos 80 then
        let m := take (23 * 80) (drop 80 m) ++ drop (23 * 80) m in
        let pos := pos - 80 in
        (take (Z.to_nat pos) m ++ replicate (Z.to_nat (24 * 80 - pos)) 0 ++ drop (24 * 80) m, pos)
      else (m, pos) in
    Some (mkcga (<[Z.to_nat pos := Z.lor 32 0x700]> m) (u16 pos)).

(** The serial line and the screen; [panicked] makes [consputc] spin. *)
Record screen := mkscreen { uart_out : list Z; vga : cga; panicked : bool }.
Definition consputc (c : Z) (s : screen) : option screen :=
  if panicked s then None
  else
    let out := if c =? BACKSPACE then [8; 32; 8] else [c] in
    v ← cgaputc c (vga s);
    Some (mkscreen (uart_out s ++ out) v (panicked s)).
Fixpoint consolewrite (buf : list Z) (s : screen) : option screen :=
  match buf with
  | [] => Some s
  | b :: buf => s ← consputc (Z.land b 255) s; consolewrite buf s
  end.

Definition cga_ok (s : cga) : Prop := length (crt s) = 2000%nat /\ 0 <= cur s < 24 * 80.
Definition text (s : cga) : list Z := take (Z.to_nat (cur s)) (crt s).
Definition cell (c : Z) : Z := Z.lor (Z.land c 255) 0x700.

(** Scrolling: the cells before [pos] move up one row. *)
Lemma scroll_text (m : list Z) pos : length m = 2000%nat -> 24 * 80 <= pos <= 24 * 80 ->
  let m1 := take (23 * 80) (drop 80 m) ++ drop (23 * 80) m in
  let m2 := take (Z.to_nat (pos - 80)) m1 ++ replicate (Z.to_nat (24 * 80 - (pos - 80))) 0 ++ drop (24 * 80) m1 in
  length m2 = 2000%nat /\
  take (Z.to_nat (pos - 80)) m2 = drop 80 (take (Z.to_nat pos) m).
Proof.
  intros Hl Hp m1 m2. assert (length m1 = 2000%nat) as Hm1.
  { unfold m1. rewrite length_app, length_take, !length_drop. lia. }
  assert (length (take (Z.to_nat (pos - 80)) m1) = Z.to_nat (pos - 80)) as Ht by (rewrite length_take; lia).
  split.
  - unfold m2. rewrite !length_app, Ht, length_replicate, length_drop, Hm1. lia.
  - unfold m2. rewrite take_app_le by lia. rewrite take_take, Nat.min_id.
    unfold m1. rewrite take_app_le by (rewrite length_take, length_drop; lia).
    rewrite take_take. rewrite take_drop_commute. do 2 f_equal. lia.
Qed.

Lemma take_insert_end {A} (l : list A) i x : (i < length l)%nat -> take (S i) (<[i:=x]> l) = take i l ++ [x].
Proof.
  intros H. rewrite (take_S_r _ _ x); [by rewrite take_insert_ge by lia|by apply list_lookup_insert_eq].
Qed.
Lemma quot_row pos : 0 <= pos -> (24 <=? Z.quot pos 80) = (24 * 80 <=? pos).
Proof.
  intros H. rewrite Z.quot_div_nonneg by lia.
  pose proof (Z.div_mod pos 80). pose proof (Z.mod_pos_bound pos 80). lia.
Qed.
Lemma next_row pos : 0 <= pos < 24 * 80 ->
  let p := pos + (80 - Z.rem pos 80) in pos < p <= 24 * 80 /\ p mod 80 = 0.
Proof.
  intros H p. unfold p. rewrite Z.rem_mod_nonneg by lia.
  pose proof (Z.div_mod pos 80). pose proof (Z.mod_pos_bound pos 80).
  replace (pos + (80 - pos mod 80)) with ((pos / 80 + 1) * 80) by lia.
  split; [|apply Z.mod_mul; lia]. assert (pos / 80 < 24) by (apply Z.div_lt_upper_bound; lia). lia.
Qed.

(** The tail of [cgaputc], from the cursor's new position on. *)
Lemma cga_finish (m : list Z) pos : length m = 2000%nat -> 0 <= pos <= 24 * 80 ->
  exists s', (if (pos <? 0) || (25 * 80 <? pos) then None
    else
    let '(m, pos) :=
      if 24 <=? Z.quot pos 80 then
        let m := take (23 * 80) (drop 80 m) ++ drop (23 * 80) m in
        let pos := pos - 80 in
        (take (Z.to_nat pos) m ++ replicate (Z.to_nat (24 * 80 - pos)) 0 ++ drop (24 * 80) m, pos)
      else (m, pos) in
    Some (mkcga (<[Z.to_nat pos := Z.lor 32 0x700]> m) (u16 pos))) = Some s' /\ cga_ok s' /\
    let up := if pos =? 24 * 80 then 80 else 0 in
    cur s' = pos - up /\ text s' = drop (Z.to_nat up) (take (Z.to_nat pos) m).
Proof.
  intros Hl Hp. rewrite quot_row by lia.
  destruct (Z.ltb_spec pos 0); [lia|]. destruct (Z.ltb_spec (25 * 80) pos); [lia|]. cbn [orb].
  destruct (Z.eqb_spec pos (24 * 80)) as [Heq|Hne].
  - rewrite (proj2 (Z.leb_le _ _)) by lia.
    destruct (scroll_text m pos Hl ltac:(lia)) as [H1 H2]. cbv zeta in *.
    eexists. split; [reflexivity|]. unfold cga_ok, text. cbn [crt cur].
    rewrite length_insert, u16_id by lia. split_and!; try lia.
    rewrite take_insert_ge by lia. rewrite H2. done.
  - rewrite (proj2 (Z.leb_gt _ _)) by lia.
    eexists. split; [reflexivity|]. unfold cga_ok, text. cbn [crt cur].
    rewrite length_insert, u16_id by lia. split_and!; try lia.
    rewrite take_insert_ge by lia. done.
Qed.

(** [cgaputc] never panics from a cursor on the screen's 24 text rows, and
    leaves it there: a printing character is appended to the text before the
    cursor (which loses its first row when the screen is full), a backspace
    removes its last cell, a newline moves to the start of the next row. *)
Theorem cgaputc_correct s c : cga_ok s ->
  exists s', cgaputc c s = Some s' /\ cga_ok s' /\
    (c <> NL -> c <> BACKSPACE ->
      text s' = drop (if cur s =? 24 * 80 - 1 then 80 else 0) (text s ++ [cell c])) /\
    (c = BACKSPACE -> text s' = take (length (text s) - 1) (text s)) /\
    (c = NL -> cur s' mod 80 = 0).
Proof.
  intros [Hl Hc]. unfold cgaputc, text.
  assert (length (take (Z.to_nat (cur s)) (crt s)) = Z.to_nat (cur s)) as Ht by (rewrite length_take; lia).
  destruct (Z.eqb_spec c NL) as [->|Hnl]; [|destruct (Z.eqb_spec c BACKSPACE) as [->|Hbs]].
  - destruct (next_row (cur s) Hc) as [Hp Hm]. cbv zeta in *.
    destruct (cga_finish (crt s) (cur s + (80 - Z.rem (cur s) 80)) Hl ltac:(lia)) as (s' & E & Hok & Hcur & _).
    exists s'. split_and!; [exact E|done|done|done|]. intros _. rewrite Hcur.
    destruct (_ =? 24 * 80); [|by rewrite Z.sub_0_r]. rewrite Zminus_mod, Hm. done.
  - set (pos := if 0 <? cur s then cur s - 1 else cur s).
    assert (0 <= pos < 24 * 80 - 1 \/ pos = 0) as Hp by (unfold pos; destruct (Z.ltb_spec 0 (cur s)); lia).
    destruct (cga_finish (crt s) pos Hl ltac:(lia)) as (s' & E & Hok & Hcur & Htx).
    exists s'. split_and!; [exact E|done|done| |done]. intros _.
    unfold text in Htx. rewrite Htx, Ht. rewrite take_take.
    rewrite (proj2 (Z.eqb_neq _ _)) by lia. rewrite drop_0. f_equal. unfold pos.
    destruct (Z.ltb_spec 0 (cur s)); lia.
  - destruct (cga_finish (<[Z.to_nat (cur s):=Z.lor (Z.land c 255) 0x700]> (crt s)) (cur s + 1))
      as (s' & E & Hok & Hcur & Htx); [by rewrite length_insert|lia|].
    exists s'. split_and!; [exact E|done| |done|done]. intros _ _.
    unfold text in Htx. rewrite Htx. replace (Z.to_nat (cur s + 1)) with (S (Z.to_nat (cur s))) by lia.
    rewrite take_insert_end by lia.
    replace (cur s + 1 =? 24 * 80) with (cur s =? 24 * 80 - 1) by lia.
    by destruct (_ =? 24 * 80 - 1).
Qed.

Lemma cgaputc_correct_witness :
  cga_ok (mkcga (replicate 2000 0) 1919) /\
  exists s', cgaputc 65 (mkcga (replicate 2000 0) 1919) = Some s' /\ cga_ok s' /\
    text s' = drop 80 (text (mkcga (replicate 2000 0) 1919) ++ [cell 65]).
Proof.
  assert (H : cga_ok (mkcga (replicate 2000 0) 1919)).
  { split; [exact (length_replicate 2000 0)|done]. }
  split; [exact H|].
  destruct (cgaputc_correct (mkcga (replicate 2000 0) 1919) 65 H) as (s' & E & Hok & Htx & _).
  exists s'. split; [exact E|]. split; [exact Hok|]. exact (Htx ltac:(discriminate) ltac:(discriminate)).
Defined.
