(* ===== verification/Kbd.v ===== *)
(** * The keyboard: [kbd.c] and the key tables of [kbd.h]

    [kbdgetc] is a function of the modifier state (its static [shift]) and the
    scan code the controller holds.  Results: every character it returns is a
    byte; a letter key gives the letter the modifiers ask for; a key pressed
    and released leaves the modifiers as they were; an interrupt's worth of
    scan codes drives the console's line discipline. *)

From S2P Require Import Prelude Console.

Definition NO : Z := 0.
Definition SHIFT : Z := Z.shiftl 1 0.
Definition CTL : Z := Z.shiftl 1 1.
Definition ALT : Z := Z.shiftl 1 2.
Definition CAPSLOCK : Z := Z.shiftl 1 3.
Definition NUMLOCK : Z := Z.shiftl 1 4.
Definition SCROLLLOCK : Z := Z.shiftl 1 5.
Definition E0ESC : Z := Z.shiftl 1 6.
Definition KEY_HOME : Z := 0xE0.
Definition KEY_END : Z := 0xE1.
Definition KEY_UP : Z := 0xE2.
Definition KEY_DN : Z := 0xE3.
Definition KEY_LF : Z := 0xE4.
Definition KEY_RT : Z := 0xE5.
Definition KEY_PGUP : Z := 0xE6.
Definition KEY_PGDN : Z := 0xE7.
Definition KEY_INS : Z := 0xE8.
Definition KEY_DEL : Z := 0xE9.

(** A 256-entry initialiser: the leading entries, then the designated ones. *)
Definition table (lead : list Z) (designated : list (Z * Z)) : list Z :=
  foldl (fun t iv => <[Z.to_nat iv.1 := iv.2]> t) (lead ++ replicate (256 - length lead) 0) designated.

Definition shiftcode : list Z := table []
    [(0x1D, CTL); (0x2A, SHIFT); (0x36, SHIFT); (0x38, ALT); (0x9D, CTL); (0xB8, ALT)].
Definition togglecode : list Z := table []
    [(0x3A, CAPSLOCK); (0x45, NUMLOCK); (0x46, SCROLLLOCK)].
Definition normalmap : list Z := table 
    [NO; 27; 49; 50; 51; 52; 53; 54;
     55; 56; 57; 48; 45; 61; 8; 9;
     113; 119; 101; 114; 116; 121; 117; 105;
     111; 112; 91; 93; 10; NO; 97; 115;
     100; 102; 103; 104; 106; 107; 108; 59;
     39; 96; NO; 92; 122; 120; 99; 118;
     98; 110; 109; 44; 46; 47; NO; 42;
     NO; 32; NO; NO; NO; NO; NO; NO;
     NO; NO; NO; NO; NO; NO; NO; 55;
     56; 57; 45; 52; 53; 54; 43; 49;
     50; 51; 48; 46; NO; NO; NO; NO]
    [(0x9C, 10); (0xB5, 47); (0xC8, KEY_UP); (0xD0, KEY_DN); (0xC9, KEY_PGUP); (0xD1, KEY_PGDN); (0xCB, KEY_LF); (0xCD, KEY_RT); (0x97, KEY_HOME); (0xCF, KEY_END); (0xD2, KEY_INS); (0xD3, KEY_DEL)].
Definition shiftmap : list Z := table 
    [NO; 27; 33; 64; 35; 36; 37; 94;
     38; 42; 40; 41; 95; 43; 8; 9;
     81; 87; 69; 82; 84; 89; 85; 73;
     79; 80; 123; 125; 10; NO; 65; 83;
     68; 70; 71; 72; 74; 75; 76; 58;
     34; 126; NO; 124; 90; 88; 67; 86;
     66; 78; 77; 60; 62; 63; NO; 42;
     NO; 32; NO; NO; NO; NO; NO; NO;
     NO; NO; NO; NO; NO; NO; NO; 55;
     56; 57; 45; 52; 53; 54; 43; 49;
     50; 51; 48; 46; NO; NO; NO; NO]
    [(0x9C, 10); (0xB5, 47); (0xC8, KEY_UP); (0xD0, KEY_DN); (0xC9, KEY_PGUP); (0xD1, KEY_PGDN); (0xCB, KEY_LF); (0xCD, KEY_RT); (0x97, KEY_HOME); (0xCF, KEY_END); (0xD2, KEY_INS); (0xD3, KEY_DEL)].
Definition ctlmap : list Z := table 
    [NO; NO; NO; NO; NO; NO; NO; NO;
     NO; NO; NO; NO; NO; NO; NO; NO;
     17; 23; 5; 18; 20; 25; 21; 9;
     15; 16; NO; NO; 13; NO; 1; 19;
     4; 6; 7; 8; 10; 11; 12; NO;
     NO; NO; NO; 28; 26; 24; 3; 22;
     2; 14; 13; NO; NO; 239; NO; NO]
    [(0x9C, 13); (0xB5, 239); (0xC8, KEY_UP); (0xD0, KEY_DN); (0xC9, KEY_PGUP); (0xD1, KEY_PGDN); (0xCB, KEY_LF); (0xCD, KEY_RT); (0x97, KEY_HOME); (0xCF, KEY_END); (0xD2, KEY_INS); (0xD3, KEY_DEL)].

Definition at_code (t : list Z) (i : Z) : Z := nth (Z.to_nat i) t 0.
Definition bits_set (x m : Z) : bool := negb (Z.land x m =? 0).

(** [kbdgetc] with [data] in the controller's buffer (or [None] when the status
    port says it is empty): the new modifier state and the result. *)
Definition kbdgetc (port : option Z) (shift : Z) : Z * Z :=
  match port with
  | None => (shift, -1)
  | Some data =>
      if data =? 0xE0 then (Z.lor shift E0ESC, 0)
      else if bits_set data 0x80 then
        let data := if bits_set shift E0ESC then data else Z.land data 0x7F in
        (Z.ldiff shift (Z.lor (at_code shiftcode data) E0ESC), 0)
      else
        let '(data, shift) :=
          if bits_set shift E0ESC then (Z.lor data 0x80, Z.ldiff shift E0ESC) else (data, shift) in
        let shift := Z.lor shift (at_code shiftcode data) in
        let shift := Z.lxor shift (at_code togglecode data) in
        let charcode :=
          match Z.land shift (Z.lor CTL SHIFT) with
          | 0 => normalmap | 1 => shiftmap | _ => ctlmap
          end in
        let c := at_code charcode data in
        let c :=
          if bits_set shift CAPSLOCK then
            if (97 <=? c) && (c <=? 122) then c + (65 - 97)
            else if (65 <=? c) && (c <=? 90) then c + (97 - 65)
            else c
          else c in
        (shift, c)
  end.

#[global] Arguments kbdgetc : simpl never.

(** The characters one interrupt delivers: the scan codes waiting, in order;
    the call that finds the controller empty ends the loop. *)
Fixpoint kbd_chars (codes : list Z) (shift : Z) : Z * list Z :=
  match codes with
  | [] => (shift, [])
  | d :: codes =>
      let '(shift, c) := kbdgetc (Some d) shift in
      let '(shift, cs) := kbd_chars codes shift in
      (shift, c :: cs)
  end.
Definition kbdintr (codes : list Z) (st : Z * input) : Z * input :=
  let '(shift, cs) := kbd_chars codes st.1 in
  (shift, (consoleintr cs st.2).1.1.1).

(** ** Properties *)

Definition all_bytes (t : list Z) : bool := forallb (fun c => (0 <=? c) && (c <? 256)) t.
Lemma at_code_byte t i : all_bytes t = true -> is_byte (at_code t i).
Proof.
  intros H. unfold at_code. destruct (nth_in_or_default (Z.to_nat i) t 0) as [Hin| ->]; [|by split].
  unfold all_bytes in H. rewrite forallb_forall in H. apply H in Hin. unfold is_byte. lia.
Qed.
Lemma normalmap_bytes : all_bytes normalmap = true.
Proof. by vm_compute. Qed.
Lemma shiftmap_bytes : all_bytes shiftmap = true.
Proof. by vm_compute. Qed.
Lemma ctlmap_bytes : all_bytes ctlmap = true.
Proof. by vm_compute. Qed.

(** The character of a pressed key is a byte, whatever the modifiers. *)
Lemma kbdgetc_byte d shift : is_byte (kbdgetc (Some d) shift).2.
Proof.
  unfold kbdgetc. destruct (d =? 0xE0); [by split|]. destruct (bits_set d 0x80); [by split|].
  destruct (if bits_set shift E0ESC then _ else _) as [data sh]. cbn [snd].
  set (m := match Z.land _ _ with 0 => _ | _ => _ end).
  assert (is_byte (at_code m data)) as Hc.
  { unfold m. repeat case_match; apply at_code_byte;
      auto using normalmap_bytes, shiftmap_bytes, ctlmap_bytes. }
  unfold is_byte in *. repeat case_match; lia.
Qed.
Lemma kbd_chars_bytes codes : forall shift, Forall is_byte (kbd_chars codes shift).2.
Proof.
  induction codes as [|d codes IH]; intros shift; simpl; [constructor|].
  pose proof (kbdgetc_byte d shift) as H. destruct (kbdgetc (Some d) shift) as [sh c].
  specialize (IH sh). destruct (kbd_chars codes sh) as [sh' cs]. simpl in *. by constructor.
Qed.

(** The keyboard drives the line discipline: whatever scan codes wait at an
    interrupt, [kbdintr] changes the readable bytes and the edited line as
    [line_keys] does on the characters the modifiers and tables give. *)
Theorem kbdintr_line_discipline codes shift s q l : input_repr s q l ->
  let ql := line_keys (kbd_chars codes shift).2 q l in
  (kbdintr codes (shift, s)).1 = (kbd_chars codes shift).1 /\
  input_repr (kbdintr codes (shift, s)).2 ql.1 ql.2.
Proof.
  intros H. unfold kbdintr. cbn [fst snd].
  pose proof (kbd_chars_bytes codes shift) as Hb.
  destruct (kbd_chars codes shift) as [sh cs]. cbn [fst snd] in *.
  pose proof (consoleintr_refines cs s q l H Hb) as Hr.
  destruct (consoleintr cs s) as [[[s' o] w] d]. by destruct Hr.
Qed.

(** Shift down, H, shift up, I, return: "Hi" and a newline. *)
Lemma kbdintr_line_discipline_witness :
  (kbd_chars [0x2A; 0x23; 0xA3; 0xAA; 0x17; 0x97; 0x1C] 0).2 = [0; 72; 0; 0; 105; 0; 10] /\
  input_repr (kbdintr [0x2A; 0x23; 0xA3; 0xAA; 0x17; 0x97; 0x1C] (0, demo_input)).2 [72; 105; 10] [].
Proof.
  assert (E : (kbd_chars [0x2A; 0x23; 0xA3; 0xAA; 0x17; 0x97; 0x1C] 0).2 = [0; 72; 0; 0; 105; 0; 10])
    by (vm_compute; reflexivity).
  split; [exact E|].
  pose proof (proj2 (kbdintr_line_discipline [0x2A; 0x23; 0xA3; 0xAA; 0x17; 0x97; 0x1C] 0
    demo_input [] [] demo_input_repr)) as H.
  rewrite E in H. exact H.
Defined.

Lemma shiftcode_no_e0 i : Z.land (at_code shiftcode i) E0ESC = 0.
Proof.
  assert (forallb (fun c => Z.land c E0ESC =? 0) shiftcode = true) as H by by vm_compute.
  unfold at_code. destruct (nth_in_or_default (Z.to_nat i) shiftcode 0) as [Hin| ->]; [|done].
  rewrite forallb_forall in H. apply H in Hin. lia.
Qed.

(** The modifiers held when a key that is no toggle goes down and up again. *)
Lemma ldiff_lor_disjoint a b m : Z.land a b = 0 -> Z.land a m = 0 -> Z.ldiff (Z.lor a b) (Z.lor b m) = a.
Proof.
  intros H1 H2. apply Z.bits_inj'. intros n Hn. rewrite Z.ldiff_spec, !Z.lor_spec.
  assert (Z.testbit (Z.land a b) n = false) as B1 by (rewrite H1; apply Z.bits_0).
  assert (Z.testbit (Z.land a m) n = false) as B2 by (rewrite H2; apply Z.bits_0).
  rewrite Z.land_spec in B1, B2. destruct (Z.testbit a n), (Z.testbit b n), (Z.testbit m n); done.
Qed.

Lemma land_lor_7f_80 d : 0 <= d < 0x80 -> Z.land (Z.lor d 0x80) 0x7F = d.
Proof.
  intros H. rewrite Z.land_lor_distr_l. change (Z.land 0x80 0x7F) with 0. rewrite Z.lor_0_r.
  change 0x7F with (Z.ones 7). rewrite Z.land_ones by lia. apply Z.mod_small. lia.
Qed.
Lemma bits_80 d : 0 <= d < 0x80 -> bits_set d 0x80 = false /\ bits_set (Z.lor d 0x80) 0x80 = true.
Proof.
  intros H. assert (Z.land d 0x80 = 0) as Hd.
  { replace 0x80 with (Z.shiftl 1 7) by done. rewrite Z.shiftl_1_l.
    apply Z.bits_inj'. intros n Hn. rewrite Z.land_spec, Z.pow2_bits_eqb, Z.bits_0 by lia.
    destruct (Z.eqb_spec 7 n) as [<-|]; [|by rewrite andb_false_r]. rewrite andb_true_r.
    destruct (Z.eq_dec d 0) as [->|]; [done|]. apply Z.bits_above_log2; [lia|].
    apply Z.log2_lt_pow2; lia. }
  unfold bits_set. rewrite Hd, Z.land_lor_distr_l, Hd. done.
Qed.

(** A key pressed and released (scan code [d], then [d + 0x80]) leaves the
    modifiers as they were, for every key that is no toggle and whose own
    modifier was not already down. *)
Theorem kbd_press_release d shift : 0 <= d < 0x80 -> 0x60 <> d ->
  at_code togglecode d = 0 -> Z.land shift (at_code shiftcode d) = 0 -> Z.land shift E0ESC = 0 ->
  (kbd_chars [d; Z.lor d 0x80] shift).1 = shift.
Proof.
  intros Hd He0 Ht Hs He. destruct (bits_80 d Hd) as [Hb1 Hb2]. simpl.
  assert (forall s, bits_set s E0ESC = false -> kbdgetc (Some (Z.lor d 0x80)) s =
    (Z.ldiff s (Z.lor (at_code shiftcode d) E0ESC), 0)) as Hrel.
  { intros s Hse. unfold kbdgetc. rewrite Hb2, Hse, land_lor_7f_80 by done.
    destruct (Z.eqb_spec (Z.lor d 0x80) 0xE0) as [E|]; [|done].
    exfalso. apply He0. rewrite <- (land_lor_7f_80 d Hd), E. done. }
  assert (bits_set shift E0ESC = false) as Hse by (unfold bits_set; by rewrite He).
  unfold kbdgetc at 1. rewrite Hb1, Hse, Ht, Z.lxor_0_r. rewrite (proj2 (Z.eqb_neq _ _)) by lia.
  rewrite Hrel; [by apply ldiff_lor_disjoint|].
  unfold bits_set. by rewrite Z.land_lor_distr_l, He, shiftcode_no_e0.
Qed.

(** Left shift (0x2A) with caps lock on. *)
Lemma kbd_press_release_witness :
  at_code shiftcode 0x2A = SHIFT /\ (kbd_chars [0x2A; Z.lor 0x2A 0x80] CAPSLOCK).1 = CAPSLOCK.
Proof. split; [reflexivity|]. apply (kbd_press_release 0x2A CAPSLOCK); by vm_compute. Defined.

(** A letter key gives its letter: with any modifiers down, a scan code whose
    plain character is the letter [c] returns its control code when control
    is down, and otherwise the letter in upper case exactly when one of shift
    and caps lock is on; the modifiers do not change. *)
Theorem kbd_letter d shift : 0 <= d < 0x80 -> 0 <= shift < 64 ->
  let c := at_code normalmap d in
  97 <= c <= 122 ->
  kbdgetc (Some d) shift =
    (shift, if bits_set shift CTL then c - 96
            else if xorb (bits_set shift SHIFT) (bits_set shift CAPSLOCK) then c - 32 else c).
Proof.
  intros Hd Hs c Hc.
  assert (forallb (fun d => if (97 <=? at_code normalmap d) && (at_code normalmap d <=? 122) then
      forallb (fun shift => bool_decide (kbdgetc (Some d) shift =
        (shift, if bits_set shift CTL then at_code normalmap d - 96
                else if xorb (bits_set shift SHIFT) (bits_set shift CAPSLOCK)
                     then at_code normalmap d - 32 else at_code normalmap d))) (seqZ 0 64)
      else true) (seqZ 0 128) = true) as H by by vm_compute.
  rewrite forallb_forall in H. specialize (H d). rewrite <- list_elem_of_In, elem_of_seqZ in H.
  specialize (H ltac:(lia)). rewrite (proj2 (andb_true_iff _ _)) in H by (unfold c in *; lia).
  rewrite forallb_forall in H. specialize (H shift). rewrite <- list_elem_of_In, elem_of_seqZ in H.
  specialize (H ltac:(lia)). by apply bool_decide_eq_true in H.
Qed.

(** The key Q (0x10) with control down. *)
Lemma kbd_letter_witness : at_code normalmap 0x10 = 113 /\ kbdgetc (Some 0x10) CTL = (CTL, 17).
Proof. split; [reflexivity|]. apply (kbd_letter 0x10 CTL); by vm_compute. Defined.
