(* ===== verification/Mp.v ===== *)
(** * Finding the processors: [mp.c], [mp.h]

    The multiprocessor tables the firmware leaves in memory.  [mpsearch] looks
    for the floating pointer, [mpconfig] checks the configuration table it
    points to, and [mpinit] goes through the entries of the table.  Memory is
    the kernel's view of the physical memory.

    [mpinit_correct]: for a table of entries [mpinit] returns with the local
    APIC ids of the first [NCPU] processors, in order.  [mpinit_unknown_hangs]:
    on an entry of another type it never returns. *)

From S2P Require Import Prelude CString Printf Mmu.

Definition NCPU : nat := 8.
Definition sizeof_mp : Z := 16.
Definition sizeof_mpconf : Z := 44.
Definition sizeof_mpproc : Z := 20.
Definition sizeof_mpioapic : Z := 8.
Definition MPPROC : Z := 0.
Definition MPBUS : Z := 1.
Definition MPIOAPIC : Z := 2.
Definition MPIOINTR : Z := 3.
Definition MPLINTR : Z := 4.

Definition load16 (m : mem) (a : Z) : Z := m a + 2 ^ 8 * m (a + 1).
(** [struct mp] at [p] and [struct mpconf] at [c] *)
Definition mp_physaddr (m : mem) (p : Z) : Z := load32 m (p + 4).
Definition mp_imcrp (m : mem) (p : Z) : Z := m (p + 12).
Definition conf_length (m : mem) (c : Z) : Z := load16 m (c + 4).
Definition conf_version (m : mem) (c : Z) : Z := m (c + 6).
Definition conf_lapicaddr (m : mem) (c : Z) : Z := load32 m (c + 36).

(** [memcmp(p, lit, n) == 0] for a literal of [n] characters *)
Fixpoint same (m : mem) (p : Z) (lit : list Z) : bool :=
  match lit with
  | [] => true
  | c :: lit => (m p =? c) && same m (p + 1) lit
  end.

Fixpoint sum_loop (m : mem) (addr : Z) (n : nat) (acc : Z) : Z :=
  match n with
  | O => acc
  | S n => sum_loop m (addr + 1) n (acc + m addr)
  end.
Definition sum (m : mem) (addr len : Z) : Z := u8 (sum_loop m addr (Z.to_nat len) 0).

Fixpoint search_loop (fuel : nat) (m : mem) (p e : Z) : option Z :=
  match fuel with
  | O => None
  | S fuel =>
      if p <? e then
        if same m p (chars "_MP_") && (sum m p sizeof_mp =? 0) then Some p
        else search_loop fuel m (p + sizeof_mp) e
      else None
  end.
Definition mpsearch1 (m : mem) (a len : Z) : option Z :=
  let addr := P2V a in search_loop (Z.to_nat (len / sizeof_mp) + 1) m addr (addr + len).

Definition mpsearch (m : mem) : option Z :=
  let bda := P2V 0x400 in
  let p := Z.shiftl (Z.lor (Z.shiftl (m (bda + 0x0F)) 8) (m (bda + 0x0E))) 4 in
  let r :=
    if negb (p =? 0) then mpsearch1 m p 1024
    else mpsearch1 m (Z.lor (Z.shiftl (m (bda + 0x14)) 8) (m (bda + 0x13)) * 1024 - 1024) 1024 in
  match r with
  | Some mp => Some mp
  | None => mpsearch1 m 0xF0000 0x10000
  end.

(** The floating pointer and the configuration table. *)
Definition mpconfig (m : mem) : option (Z * Z) :=
  match mpsearch m with
  | None => None
  | Some mp =>
      if mp_physaddr m mp =? 0 then None else
      let conf := P2V (mp_physaddr m mp) in
      if negb (same m conf (chars "PCMP")) then None
      else if negb (conf_version m conf =? 1) && negb (conf_version m conf =? 4) then None
      else if negb (sum m conf (conf_length m conf) =? 0) then None
      else Some (mp, conf)
  end.

(** The globals of [mp.c] and [lapic.c]; [mp_cpus] are the [apicid]s of the
    first [ncpu] elements of [cpus]; [mp_ports] are the writes to i/o ports. *)
Record mpstate := mkmpstate {
  mp_cpus : list Z;
  mp_ioapicid : Z;
  mp_lapic : Z;
  mp_ports : list (Z * Z)
}.
Definition ncpu (s : mpstate) : nat := length (mp_cpus s).
Definition add_cpu (apicid : Z) (s : mpstate) : mpstate :=
  if (ncpu s <? NCPU)%nat then mkmpstate (mp_cpus s ++ [apicid]) (mp_ioapicid s) (mp_lapic s) (mp_ports s) else s.
Definition set_ioapicid (i : Z) (s : mpstate) : mpstate := mkmpstate (mp_cpus s) i (mp_lapic s) (mp_ports s).
Definition set_lapic (a : Z) (s : mpstate) : mpstate := mkmpstate (mp_cpus s) (mp_ioapicid s) a (mp_ports s).
Definition mp_outb (port v : Z) (s : mpstate) : mpstate := mkmpstate (mp_cpus s) (mp_ioapicid s) (mp_lapic s) (mp_ports s ++ [(port, v)]).

Fixpoint mp_loop (fuel : nat) (m : mem) (p e : Z) (ismp : bool) : KM mpstate bool :=
  match fuel with
  | O => fault "mpinit: loop"
  | S fuel =>
      if p <? e then
        if m p =? MPPROC then
          kmodify (add_cpu (m (p + 1)));;
          mp_loop fuel m (p + sizeof_mpproc) e ismp
        else if m p =? MPIOAPIC then
          kmodify (set_ioapicid (m (p + 1)));;
          mp_loop fuel m (p + sizeof_mpioapic) e ismp
        else if (m p =? MPBUS) || (m p =? MPIOINTR) || (m p =? MPLINTR) then mp_loop fuel m (p + 8) e ismp
        else mp_loop fuel m p e false
      else mret ismp
  end.

(** [imcr] is what port 0x23 reads. *)
Definition mpinit (fuel : nat) (imcr : Z) (m : mem) : KM mpstate unit :=
  match mpconfig m with
  | None => panic "Expect to run on an SMP"
  | Some (mp, conf) =>
      kmodify (set_lapic (conf_lapicaddr m conf));;
      ismp ← mp_loop fuel m (conf + sizeof_mpconf) (conf + conf_length m conf) true;
      if negb ismp then panic "Didn't find a suitable machine" else
      if negb (mp_imcrp m mp =? 0) then
        kmodify (mp_outb 0x22 0x70);;
        kmodify (mp_outb 0x23 (Z.lor imcr 1))
      else mret tt
  end.

(** ** Tables *)

(** An entry: a processor with its APIC id and the rest of its bytes, an I/O
    APIC, or one of the others. *)
Inductive entry :=
| Processor (apicid : Z) (rest : list Z)
| Ioapic (apicno : Z) (rest : list Z)
| Other (type : Z) (rest : list Z).
Definition enc_entry (e : entry) : list Z :=
  match e with
  | Processor i rest => MPPROC :: i :: rest
  | Ioapic i rest => MPIOAPIC :: i :: rest
  | Other t rest => t :: rest
  end.
Fixpoint enc_entries (l : list entry) : list Z :=
  match l with
  | [] => []
  | e :: l => enc_entry e ++ enc_entries l
  end.
Definition entry_ok (e : entry) : Prop :=
  match e with
  | Processor _ rest => length rest = 18%nat
  | Ioapic _ rest => length rest = 6%nat
  | Other t rest => t ∈ [MPBUS; MPIOINTR; MPLINTR] /\ length rest = 7%nat
  end.
Definition apicids (l : list entry) : list Z := omap (fun e => match e with Processor i _ => Some i | _ => None end) l.
Definition ioapics (l : list entry) : list Z := omap (fun e => match e with Ioapic i _ => Some i | _ => None end) l.

Lemma holds_head m a b l : holds m a (b :: l) -> m a = b.
Proof. by intros [? _]. Qed.
Lemma holds_at_app m l1 : forall a l2, holds m a (l1 ++ l2) -> holds m (a + Z.of_nat (length l1)) l2.
Proof.
  induction l1 as [|b l1 IH]; intros a l2; cbn [app length].
  - intros H. by rewrite Z.add_0_r.
  - intros [_ H]. apply IH in H. replace (a + Z.of_nat (S (length l1))) with (a + 1 + Z.of_nat (length l1)) by lia. done.
Qed.

(** What the loop makes of the entries. *)
Definition scanned (l : list entry) (s : mpstate) : mpstate :=
  mkmpstate (mp_cpus s ++ take (NCPU - ncpu s) (apicids l)) (default (mp_ioapicid s) (last (ioapics l))) (mp_lapic s) (mp_ports s).

Lemma scanned_cpu i l s : scanned l (add_cpu i s) = mkmpstate (mp_cpus s ++ take (NCPU - ncpu s) (i :: apicids l)) (default (mp_ioapicid s) (last (ioapics l))) (mp_lapic s) (mp_ports s).
Proof.
  unfold scanned, add_cpu. destruct (Nat.ltb_spec (ncpu s) NCPU) as [Hlt|Hge]; unfold ncpu in *; cbn [mp_cpus mp_ioapicid mp_lapic mp_ports].
  - rewrite length_app. cbn [length]. destruct (NCPU - length (mp_cpus s))%nat as [|k] eqn:Ek; [lia|].
    replace (NCPU - (length (mp_cpus s) + 1))%nat with k by lia. cbn [take]. by rewrite <- app_assoc.
  - replace (NCPU - length (mp_cpus s))%nat with 0%nat by lia. done.
Qed.

Lemma mp_loop_spec m e l : forall fuel p s, Forall entry_ok l -> holds m p (enc_entries l) ->
  e = p + Z.of_nat (length (enc_entries l)) -> (length l < fuel)%nat ->
  mp_loop fuel m p e true s = Done true (scanned l s).
Proof.
  induction l as [|x l IH]; intros [|fuel] p s Hok Hm He Hf; simpl in Hf; try lia; cbn [mp_loop].
  { rewrite (proj2 (Z.ltb_ge p e)) by (subst; simpl; lia). unfold scanned. cbn. rewrite take_nil, app_nil_r. by destruct s. }
  apply Forall_cons in Hok as [Hx Hok]. cbn [enc_entries] in Hm, He. rewrite length_app in He.
  pose proof (holds_at_app _ _ _ _ Hm) as Hm'.
  assert (Hpos : (0 < length (enc_entry x))%nat) by (destruct x; simpl; lia). rewrite (proj2 (Z.ltb_lt p e)) by lia.
  destruct x as [i rest|i rest|t rest]; simpl in Hx; cbn [enc_entry app] in Hm.
  - rewrite (holds_head _ _ _ _ Hm). destruct Hm as [_ Hi%holds_head]. cbn [Z.eqb MPPROC]. rewrite (bind_done _ _ s tt (add_cpu (m (p + 1)) s) eq_refl).
    cbn [enc_entry length] in Hm', He. rewrite Hx in Hm', He. rewrite (IH fuel (p + sizeof_mpproc) _ Hok Hm'); [|unfold sizeof_mpproc; lia|lia]. rewrite Hi, scanned_cpu. done.
  - rewrite (holds_head _ _ _ _ Hm). destruct Hm as [_ Hi%holds_head]. cbn [Z.eqb MPPROC MPIOAPIC Pos.eqb]. rewrite (bind_done _ _ s tt (set_ioapicid (m (p + 1)) s) eq_refl).
    cbn [enc_entry length] in Hm', He. rewrite Hx in Hm', He. rewrite (IH fuel (p + sizeof_mpioapic) _ Hok Hm'); [|unfold sizeof_mpioapic; lia|lia].
    rewrite Hi. unfold scanned. cbn [mp_cpus mp_ioapicid mp_lapic mp_ports set_ioapicid ncpu]. do 2 f_equal. cbn [ioapics omap list_omap]. fold (ioapics l). rewrite last_cons. by destruct (last (ioapics l)).
  - rewrite (holds_head _ _ _ _ Hm). destruct Hx as [Ht Hl]. cbn [enc_entry length] in Hm', He. rewrite Hl in Hm', He.
    assert (Hty : (t =? MPPROC) = false /\ (t =? MPIOAPIC) = false /\ ((t =? MPBUS) || (t =? MPIOINTR) || (t =? MPLINTR)) = true).
    { rewrite !elem_of_cons in Ht. destruct Ht as [->|[->|[->|Ht]]]; [done|done|done|by apply elem_of_nil in Ht]. }
    destruct Hty as (-> & -> & ->). rewrite (IH fuel (p + 8) _ Hok Hm'); [done|lia|lia].
Qed.

(** ** The search *)

(** The paragraphs of [n] times 16 bytes of physical memory at [a], and all
    those the firmware may have left the floating pointer in, in the order
    they are looked at. *)
Definition paragraphs (a : Z) (n : nat) : list Z := (fun k => P2V a + 16 * Z.of_nat k) <$> seq 0 n.
Definition ebda (m : mem) : Z := 16 * load16 m (P2V 0x40E).
Definition base_kbytes (m : mem) : Z := load16 m (P2V 0x413).
Definition places (m : mem) : list Z :=
  (if decide (ebda m = 0) then paragraphs (1024 * base_kbytes m - 1024) 64 else paragraphs (ebda m) 64) ++ paragraphs 0xF0000 4096.
Definition is_mp (m : mem) (p : Z) : bool := same m p (chars "_MP_") && (foldr Z.add 0 ((fun k => m (p + k)) <$> seqZ 0 16) mod 256 =? 0).

Lemma sum_loop_spec m n : forall a acc, sum_loop m a n acc = acc + foldr Z.add 0 ((fun k => m (a + k)) <$> seqZ 0 (Z.of_nat n)).
Proof.
  induction n as [|n IH]; intros a acc; cbn [sum_loop]; [simpl; lia|].
  rewrite IH, (seqZ_cons 0 (Z.of_nat (S n))) by lia. cbn [fmap list_fmap foldr]. rewrite Z.add_0_r, <- Z.add_assoc. do 2 f_equal.
  replace (Z.pred (Z.of_nat (S n))) with (Z.of_nat n) by lia. f_equal. change (Z.succ 0) with (1 + 0). rewrite <- (fmap_add_seqZ 1 0 (Z.of_nat n)), <- list_fmap_compose.
  apply list_fmap_ext. intros _ k _. simpl. f_equal. lia.
Qed.
Lemma sum_spec m a n : 0 <= n -> sum m a n = foldr Z.add 0 ((fun k => m (a + k)) <$> seqZ 0 n) mod 256.
Proof. intros Hn. unfold sum. rewrite sum_loop_spec, Z2Nat.id by lia. done. Qed.

Lemma same_holds m lit : forall p, same m p lit = true <-> holds m p lit.
Proof.
  induction lit as [|c lit IH]; intros p; simpl; [done|]. rewrite andb_true_iff, IH, Z.eqb_eq. done.
Qed.

Lemma search_loop_spec m n : forall k a fuel, (n < fuel)%nat ->
  search_loop fuel m (a + 16 * Z.of_nat k) (a + 16 * Z.of_nat (k + n)) = List.find (is_mp m) ((fun k => a + 16 * Z.of_nat k) <$> seq k n).
Proof.
  induction n as [|n IH]; intros k a [|fuel] Hf; try lia; cbn [search_loop].
  { by rewrite (proj2 (Z.ltb_ge _ _)) by lia. }
  rewrite (proj2 (Z.ltb_lt _ _)) by lia. cbn [seq fmap list_fmap List.find]. unfold is_mp at 1. rewrite sum_spec by (unfold sizeof_mp; lia).
  unfold sizeof_mp. destruct (same _ _ _ && _); [done|].
  specialize (IH (S k) a fuel ltac:(lia)). rewrite <- IH. f_equal; lia.
Qed.
Lemma mpsearch1_spec m a n : mpsearch1 m a (16 * Z.of_nat n) = List.find (is_mp m) (paragraphs a n).
Proof.
  unfold mpsearch1, paragraphs. rewrite <- (search_loop_spec m n 0 (P2V a) (n + 1)) by lia.
  replace (Z.to_nat (16 * Z.of_nat n / sizeof_mp) + 1)%nat with (n + 1)%nat; [f_equal; lia|].
  unfold sizeof_mp. rewrite Z.mul_comm, Z.div_mul, Nat2Z.id by lia. done.
Qed.

Lemma lor_bytes a b : is_byte b -> Z.lor (Z.shiftl a 8) b = b + 2 ^ 8 * a.
Proof.
  intros Hb. unfold is_byte in Hb. rewrite Z.shiftl_mul_pow2, (lor_low _ b 8); [lia|lia| |lia|lia]. by apply Z.mod_mul.
Qed.

Lemma find_app {A} (f : A -> bool) l1 l2 : List.find f (l1 ++ l2) = match List.find f l1 with Some x => Some x | None => List.find f l2 end.
Proof. induction l1 as [|x l1 IH]; simpl; [done|]. by destruct (f x). Qed.

Lemma mpsearch_spec m : (forall a, is_byte (m a)) -> mpsearch m = List.find (is_mp m) (places m).
Proof.
  intros Hb. unfold mpsearch. cbv zeta. rewrite !lor_bytes by done. rewrite Z.shiftl_mul_pow2 by lia.
  replace (_ * 2 ^ 4) with (ebda m); [|unfold ebda, load16; change (P2V 0x400 + 0x0E) with (P2V 0x40E); change (P2V 0x400 + 0x0F) with (P2V 0x40E + 1); lia].
  replace (_ * 1024) with (1024 * base_kbytes m); [|unfold base_kbytes, load16; change (P2V 0x400 + 0x13) with (P2V 0x413); change (P2V 0x400 + 0x14) with (P2V 0x413 + 1); lia].
  change 0x10000 with (16 * Z.of_nat 4096). assert (Hk : forall a, mpsearch1 m a 1024 = List.find (is_mp m) (paragraphs a 64)) by (intros a; exact (mpsearch1_spec m a 64)).
  rewrite !Hk, mpsearch1_spec.
  unfold places. rewrite find_app. destruct (Z.eqb_spec (ebda m) 0) as [E|E]; cbn [negb].
  - rewrite (decide_True _ _ E). done.
  - rewrite (decide_False _ _ E). done.
Qed.

(** ** The configuration table *)

(** The firmware's tables: a valid floating pointer, the first in the places
    searched, and a valid header where it points to. *)
Record mp_table (m : mem) (mp conf len : Z) : Prop := {
  mt_bytes : forall a, is_byte (m a);
  mt_mp : List.find (is_mp m) (places m) = Some mp;
  mt_addr : mp_physaddr m mp <> 0;
  mt_conf : conf = P2V (mp_physaddr m mp);
  mt_sig : holds m conf (chars "PCMP");
  mt_version : conf_version m conf = 1 \/ conf_version m conf = 4;
  mt_length : conf_length m conf = len;
  mt_sum : foldr Z.add 0 ((fun k => m (conf + k)) <$> seqZ 0 len) mod 256 = 0
}.

Lemma mpconfig_spec m mp conf len : mp_table m mp conf len -> mpconfig m = Some (mp, conf).
Proof.
  intros [Hb Hmp Ha -> Hsig Hv Hlen Hs]. unfold mpconfig. rewrite mpsearch_spec, Hmp by done.
  rewrite (proj2 (Z.eqb_neq _ 0) Ha). cbv zeta. rewrite (proj2 (same_holds _ _ _) Hsig). cbn [negb].
  assert (Hl : 0 <= len) by (rewrite <- Hlen; unfold conf_length, load16; pose proof (Hb (P2V (mp_physaddr m mp) + 4)); pose proof (Hb (P2V (mp_physaddr m mp) + 4 + 1)); unfold is_byte in *; lia).
  rewrite Hlen, sum_spec, Hs by done. destruct Hv as [-> | ->]; done.
Qed.

(** What [mpinit] leaves: the local APICs of the processors listed, in
    order and at most [NCPU] of them, the last I/O APIC, and the interrupt
    mode register switched where there is one. *)
Definition mp_result (imcr : Z) (m : mem) (mp conf : Z) (es : list entry) (s : mpstate) : mpstate :=
  mkmpstate (mp_cpus s ++ take (NCPU - ncpu s) (apicids es)) (default (mp_ioapicid s) (last (ioapics es))) (conf_lapicaddr m conf)
            (mp_ports s ++ if decide (mp_imcrp m mp = 0) then [] else [(0x22, 0x70); (0x23, Z.lor imcr 1)]).

(** [mpinit] decodes the firmware's tables: when the first valid
    floating pointer in the places the specification names points to a valid
    configuration table, [mpinit] returns, and it has recorded the APIC ids
    of the processors of the table in the table's order, the first [NCPU] of
    them, the id of the last I/O APIC and the local APIC's address. *)
Theorem mpinit_correct fuel imcr m mp conf es s :
  mp_table m mp conf (sizeof_mpconf + Z.of_nat (length (enc_entries es))) ->
  holds m (conf + sizeof_mpconf) (enc_entries es) -> Forall entry_ok es -> (length es < fuel)%nat ->
  mpinit fuel imcr m s = Done tt (mp_result imcr m mp conf es s).
Proof.
  intros Ht Hm Hok Hf. unfold mpinit. rewrite (mpconfig_spec _ _ _ _ Ht), (mt_length _ _ _ _ Ht).
  rewrite (bind_done _ _ s tt (set_lapic (conf_lapicaddr m conf) s) eq_refl).
  erewrite bind_done; [|apply (mp_loop_spec m _ es); [done|exact Hm|lia|done]]. cbn [negb].
  unfold mp_result, scanned. destruct (Z.eqb_spec (mp_imcrp m mp) 0) as [E|E]; cbn [negb].
  - rewrite (decide_True _ _ E), app_nil_r. done.
  - rewrite (decide_False _ _ E). change [(0x22, 0x70); (0x23, Z.lor imcr 1)] with ([(0x22, 0x70)] ++ [(0x23, Z.lor imcr 1)]). rewrite app_assoc. done.
Qed.

Lemma mp_loop_stuck m e p t : m p = t -> t ∉ [MPPROC; MPBUS; MPIOAPIC; MPIOINTR; MPLINTR] -> p < e ->
  forall fuel ismp s, mp_loop fuel m p e ismp s = Fault "mpinit: loop".
Proof.
  intros Hp Ht Hlt fuel. induction fuel as [|fuel IH]; intros ismp s; [done|]. cbn [mp_loop]. rewrite (proj2 (Z.ltb_lt _ _) Hlt), Hp.
  rewrite !not_elem_of_cons in Ht. destruct Ht as (H0 & H1 & H2 & H3 & H4 & _).
  rewrite !(proj2 (Z.eqb_neq t _)) by done. cbn [orb]. apply IH.
Qed.

Lemma mp_loop_prefix m e t l : forall fuel p s, Forall entry_ok l -> holds m p (enc_entries l ++ [t]) ->
  p + Z.of_nat (length (enc_entries l)) < e -> t ∉ [MPPROC; MPBUS; MPIOAPIC; MPIOINTR; MPLINTR] ->
  mp_loop fuel m p e true s = Fault "mpinit: loop".
Proof.
  induction l as [|x l IH]; intros fuel p s Hok Hm He Ht.
  { destruct Hm as [Hm _]. cbn in He. apply (mp_loop_stuck m e p t); [done|done|lia]. }
  destruct fuel as [|fuel]; [done|]. apply Forall_cons in Hok as [Hx Hok]. cbn [enc_entries] in Hm, He. rewrite <- app_assoc in Hm. rewrite length_app in He.
  pose proof (holds_at_app _ _ _ _ Hm) as Hm'. cbn [mp_loop]. rewrite (proj2 (Z.ltb_lt p e)) by lia.
  destruct x as [i rest|i rest|y rest]; simpl in Hx; cbn [enc_entry app] in Hm; rewrite (holds_head _ _ _ _ Hm); cbn [enc_entry length] in Hm', He.
  - cbn [Z.eqb MPPROC]. rewrite (bind_done _ _ s tt (add_cpu (m (p + 1)) s) eq_refl). rewrite Hx in Hm', He. apply IH; [done|exact Hm'|unfold sizeof_mpproc; lia|done].
  - cbn [Z.eqb MPPROC MPIOAPIC Pos.eqb]. rewrite (bind_done _ _ s tt (set_ioapicid (m (p + 1)) s) eq_refl). rewrite Hx in Hm', He. apply IH; [done|exact Hm'|unfold sizeof_mpioapic; lia|done].
  - destruct Hx as [Hy Hl]. rewrite Hl in Hm', He.
    rewrite !elem_of_cons in Hy. destruct Hy as [->|[->|[->|Hy]]]; [| | |by apply elem_of_nil in Hy]; cbn; (apply IH; [done|exact Hm'|lia|done]).
Qed.

(** On an entry of a type it does not know [mpinit] neither skips the
    entry nor panics with the message it has for this case: its loop stays at
    that entry, so it does not return however many iterations it is given. *)
Theorem mpinit_unknown_hangs imcr m mp conf es t len s :
  mp_table m mp conf len -> holds m (conf + sizeof_mpconf) (enc_entries es ++ [t]) -> Forall entry_ok es ->
  sizeof_mpconf + Z.of_nat (length (enc_entries es)) < len ->
  t ∉ [MPPROC; MPBUS; MPIOAPIC; MPIOINTR; MPLINTR] ->
  forall fuel, mpinit fuel imcr m s = Fault "mpinit: loop".
Proof.
  intros Ht Hm Hok Hlen Hu fuel. unfold mpinit. rewrite (mpconfig_spec _ _ _ _ Ht), (mt_length _ _ _ _ Ht).
  rewrite (bind_done _ _ s tt (set_lapic (conf_lapicaddr m conf) s) eq_refl).
  unfold mbind, km_bind. rewrite (mp_loop_prefix m _ t es) by (done || lia). done.
Qed.

(** ** A machine *)

Definition checksum (l : list Z) : Z := (- foldr Z.add 0 l) mod 256.
(** Three processors and an I/O APIC, at physical address 0x9FC10, the floating
    pointer before it, in the first paragraph of the extended BIOS data area. *)
Definition demo_entries : list entry :=
  [Processor 0 (replicate 18 1); Processor 2 (replicate 18 0); Other MPBUS (replicate 7 0x49);
   Ioapic 4 (replicate 6 0); Processor 5 (replicate 18 0); Other MPIOINTR (replicate 7 0)].
Definition demo_conf (tail : list Z) : list Z :=
  let hd c := chars "PCMP" ++ [44 + Z.of_nat (length tail); 0; 4; c] ++ replicate 28 0x58 ++ [0; 0; 0xE0; 0xFE] ++ [0; 0; 0; 0] in
  hd (checksum (hd 0 ++ tail)) ++ tail.
Definition demo_mp : list Z :=
  let mp c := chars "_MP_" ++ [0x10; 0xFC; 0x09; 0; 1; 4; c; 0; 0x80; 0; 0; 0] in mp (checksum (mp 0)).
Definition demo_mem (tail : list Z) : mem := fun a =>
  if a =? P2V 0x40E then 0xC0 else if a =? P2V 0x40F then 0x9F
  else if a <? P2V 0x9FC00 then 0 else default 0 ((demo_mp ++ demo_conf tail) !! Z.to_nat (a - P2V 0x9FC00)).

Lemma demo_mem_bytes tail : Forall is_byte (demo_mp ++ demo_conf tail) -> forall a, is_byte (demo_mem tail a).
Proof.
  intros H a. unfold demo_mem. destruct (a =? _); [unfold is_byte; lia|]. destruct (a =? _); [unfold is_byte; lia|]. destruct (a <? _); [unfold is_byte; lia|].
  destruct (_ !! _) as [b|] eqn:E; simpl; [|unfold is_byte; lia]. exact (proj1 (Forall_lookup _ _) H _ _ E).
Qed.
Lemma demo_table tail : Forall is_byte (demo_mp ++ demo_conf tail) -> demo_mem tail (P2V 0x9FC14) + 2 ^ 8 * demo_mem tail (P2V 0x9FC15) = 44 + Z.of_nat (length tail) ->
  demo_mem tail (P2V 0x9FC16) = 4 ->
  same (demo_mem tail) (P2V 0x9FC10) (chars "PCMP") = true ->
  is_mp (demo_mem tail) (P2V 0x9FC00) = true -> mp_physaddr (demo_mem tail) (P2V 0x9FC00) = 0x9FC10 ->
  foldr Z.add 0 ((fun k => demo_mem tail (P2V 0x9FC10 + k)) <$> seqZ 0 (44 + Z.of_nat (length tail))) mod 256 = 0 ->
  mp_table (demo_mem tail) (P2V 0x9FC00) (P2V 0x9FC10) (44 + Z.of_nat (length tail)).
Proof.
  intros Hb Hl Hv Hsig Hmp Ha Hs. split; [by apply demo_mem_bytes| |by rewrite Ha|by rewrite Ha|by apply same_holds|by right|exact Hl|exact Hs].
  assert (He : ebda (demo_mem tail) = 0x9FC00) by reflexivity. unfold places. rewrite decide_False by (rewrite He; done).
  rewrite find_app, He. change (paragraphs 0x9FC00 64) with (P2V 0x9FC00 :: ((fun k => P2V 0x9FC00 + 16 * Z.of_nat k) <$> seq 1 63)). cbn [List.find].
  rewrite Hmp. done.
Qed.

Lemma mpinit_correct_witness :
  mpinit 10 0 (demo_mem (enc_entries demo_entries)) (mkmpstate [] 0 0 []) =
  Done tt (mkmpstate [0; 2; 5] 4 0xFEE00000 [(0x22, 0x70); (0x23, 1)]).
Proof.
  refine (mpinit_correct 10 0 (demo_mem (enc_entries demo_entries)) (P2V 0x9FC00) (P2V 0x9FC10) demo_entries (mkmpstate [] 0 0 []) _ _ _ _).
  - apply demo_table; [|vm_compute; reflexivity..]. apply (bool_decide_unpack _). vm_compute. exact I.
  - apply same_holds. vm_compute. reflexivity.
  - repeat (apply Forall_cons; split); try apply Forall_nil; simpl; try done; (split; [set_solver|done]).
  - simpl. lia.
Defined.

(** An entry of type 0x80, one the specification reserves for extensions. *)
Lemma mpinit_unknown_hangs_witness : forall fuel,
  mpinit fuel 0 (demo_mem (enc_entries [Processor 0 (replicate 18 1)] ++ [0x80; 8; 0; 0; 0; 0; 0; 0])) (mkmpstate [] 0 0 []) = Fault "mpinit: loop".
Proof.
  apply (mpinit_unknown_hangs 0 _ (P2V 0x9FC00) (P2V 0x9FC10) [Processor 0 (replicate 18 1)] 0x80 72 (mkmpstate [] 0 0 [])).
  - refine (demo_table (enc_entries [Processor 0 (replicate 18 1)] ++ [0x80; 8; 0; 0; 0; 0; 0; 0]) _ _ _ _ _ _ _); [|vm_compute; reflexivity..]. apply (bool_decide_unpack _). vm_compute. exact I.
  - apply same_holds. vm_compute. reflexivity.
  - apply Forall_cons. split; [done|apply Forall_nil; done].
  - done.
  - set_solver.
Defined.
