(* ===== verification/Apic.v ===== *)
(** * The interrupt controllers: [ioapic.c], [picirq.c], [lapic.c]

    [Module Ioapic]: the I/O APIC, whose registers are reached through an
    index register and a data register, and the old controllers, which are
    masked.  [Module Lapic]: the local APIC of a processor, its registers in
    memory, and the start of another processor.

    [Ioapic.ioapic_routes]: after [ioapicinit] and calls of [ioapicenable]
    exactly the interrupts enabled are delivered, each to the processor last
    named and at its own vector.  [Lapic.lapicinit_correct]: [lapicinit]
    returns once its message is delivered, with the timer running. *)

From S2P Require Import Prelude CString Printf Mmu.

Definition T_IRQ0 : Z := 32.
Definition IRQ_TIMER : Z := 0.
Definition IRQ_KBD : Z := 1.
Definition IRQ_COM1 : Z := 4.
Definition IRQ_IDE : Z := 14.
Definition IRQ_ERROR : Z := 19.
Definition IRQ_SPURIOUS : Z := 31.

Module Ioapic.

Definition REG_ID : Z := 0x00.
Definition REG_VER : Z := 0x01.
Definition REG_TABLE : Z := 0x10.
Definition INT_DISABLED : Z := 0x00010000.

(** [io_reg] is the index register, [io_data] the registers it selects, and
    [io_out] the characters printed. *)
Record iostate := mkio { io_reg : Z; io_data : Z -> Z; io_out : list Z }.
Definition sel (reg : Z) (s : iostate) : iostate := mkio reg (io_data s) (io_out s).
Definition put (v : Z) (s : iostate) : iostate := mkio (io_reg s) (upd (io_data s) (io_reg s) (u32 v)) (io_out s).
Definition say (msg : list Z) (s : iostate) : iostate := mkio (io_reg s) (io_data s) (io_out s ++ msg).

Definition ioapicread (reg : Z) : KM iostate Z :=
  kmodify (sel reg);;
  kgets (fun s => io_data s (io_reg s)).
Definition ioapicwrite (reg data : Z) : KM iostate unit :=
  kmodify (sel reg);;
  kmodify (put data).

Definition ioapicinit (ioapicid : Z) : KM iostate unit :=
  v ← ioapicread REG_VER;
  let maxintr := Z.land (Z.shiftr v 16) 0xFF in
  id ← ioapicread REG_ID;
  (if negb (Z.shiftr id 24 =? ioapicid) then kmodify (say (chars "ioapicinit: id isn't equal to ioapicid; not a MP" ++ [10])) else mret tt);;
  kfor 0 (Z.to_nat (maxintr + 1)) (fun i =>
    let i := Z.of_nat i in
    ioapicwrite (REG_TABLE + 2 * i) (Z.lor INT_DISABLED (T_IRQ0 + i));;
    ioapicwrite (REG_TABLE + 2 * i + 1) 0).

Definition ioapicenable (irq cpunum : Z) : KM iostate unit :=
  ioapicwrite (REG_TABLE + 2 * irq) (T_IRQ0 + irq);;
  ioapicwrite (REG_TABLE + 2 * irq + 1) (i32 (Z.shiftl cpunum 24)).

(** [picinit]: the writes to the ports of the two 8259A. *)
Definition IO_PIC1 : Z := 0x20.
Definition IO_PIC2 : Z := 0xA0.
Definition picinit : KM (list (Z * Z)) unit :=
  kmodify (fun w => w ++ [(IO_PIC1 + 1, 0xFF)]);;
  kmodify (fun w => w ++ [(IO_PIC2 + 1, 0xFF)]).

(** ** Routing *)

Definition maxintr (s : iostate) : Z := Z.land (Z.shiftr (io_data s REG_VER) 16) 0xFF.
(** Where the controller sends an interrupt: the vector and the APIC id of
    the processor, or nowhere when it is masked. *)
Definition route (s : iostate) (irq : Z) : option (Z * Z) :=
  let lo := io_data s (REG_TABLE + 2 * irq) in
  let hi := io_data s (REG_TABLE + 2 * irq + 1) in
  if Z.testbit lo 16 then None else Some (lo mod 256, hi / 2 ^ 24).
Fixpoint enable_all (l : list (Z * Z)) : KM iostate unit :=
  match l with
  | [] => mret tt
  | (irq, cpu) :: l => ioapicenable irq cpu;; enable_all l
  end.
(** The processor the last call for [irq] named. *)
Fixpoint enabled (l : list (Z * Z)) (irq : Z) (cpu : option Z) : option Z :=
  match l with
  | [] => cpu
  | (i, c) :: l => enabled l irq (if i =? irq then Some c else cpu)
  end.

(** The state of the routes: as [f] says for the interrupts there are. *)
Definition routes (n : Z) (f : Z -> option Z) (s : iostate) : Prop :=
  forall irq, 0 <= irq < n -> route s irq = (fun c => (T_IRQ0 + irq, c)) <$> f irq.

Lemma ioapicwrite_done reg v s : ioapicwrite reg v s = Done tt (mkio reg (upd (io_data s) reg (u32 v)) (io_out s)).
Proof. done. Qed.

Lemma route_other s reg v irq : reg <> REG_TABLE + 2 * irq -> reg <> REG_TABLE + 2 * irq + 1 ->
  route (mkio reg (upd (io_data s) reg v) (io_out s)) irq = route s irq.
Proof. intros H1 H2. unfold route. cbn [io_data]. by rewrite !upd_ne by congruence. Qed.

(** A pair of writes sets one route and keeps the others and the version. *)
Lemma pair_written s irq lo hi : 0 <= irq -> exists s',
  (ioapicwrite (REG_TABLE + 2 * irq) lo;; ioapicwrite (REG_TABLE + 2 * irq + 1) hi) s = Done tt s' /\
  route s' irq = (if Z.testbit (u32 lo) 16 then None else Some (u32 lo mod 256, u32 hi / 2 ^ 24)) /\
  (forall j, j <> irq -> route s' j = route s j) /\ io_data s' REG_VER = io_data s REG_VER.
Proof.
  intros Hi. rewrite (bind_done _ _ s tt _ (ioapicwrite_done _ _ _)), ioapicwrite_done. eexists. split_and!; [done|..].
  - unfold route. cbn [io_data io_out]. rewrite upd_ne, !upd_eq by lia. done.
  - intros j Hj. rewrite (route_other (mkio (REG_TABLE + 2 * irq) _ _)) by lia. apply route_other; lia.
  - cbn [io_data]. rewrite !upd_ne; unfold REG_VER, REG_TABLE; [done|lia|lia].
Qed.

Lemma low_masked i : 0 <= i < 256 -> Z.testbit (u32 (Z.lor INT_DISABLED (T_IRQ0 + i))) 16 = true.
Proof.
  intros Hi. unfold u32. rewrite Z.mod_pow2_bits_low, Z.lor_spec by lia. done.
Qed.
Lemma low_open i : 0 <= i < 224 -> Z.testbit (u32 (T_IRQ0 + i)) 16 = false /\ u32 (T_IRQ0 + i) mod 256 = T_IRQ0 + i.
Proof.
  unfold T_IRQ0, u32. intros Hi. rewrite (Z.mod_small (32 + i) (2 ^ 32)), (Z.mod_small _ 256) by lia. split; [|done].
  rewrite Z.testbit_eqb, Z.div_small by lia. done.
Qed.
Lemma high_cpu c : 0 <= c < 256 -> u32 (i32 (Z.shiftl c 24)) / 2 ^ 24 = c.
Proof.
  intros Hc. rewrite Z.shiftl_mul_pow2 by lia.
  assert (E : u32 (i32 (c * 2 ^ 24)) = c * 2 ^ 24) by (unfold u32, i32; Z.div_mod_to_equations; lia).
  rewrite E. by apply Z.div_mul.
Qed.

Lemma init_loop n : 0 <= n <= 256 -> forall s, wp (kfor 0 (Z.to_nat n) (fun i =>
    let i := Z.of_nat i in
    ioapicwrite (REG_TABLE + 2 * i) (Z.lor INT_DISABLED (T_IRQ0 + i));;
    ioapicwrite (REG_TABLE + 2 * i + 1) 0)) s (fun _ s' => routes n (fun _ => None) s').
Proof.
  intros Hn s. apply (wp_kfor (fun i s => routes (Z.of_nat i) (fun _ => None) s)); [intros irq; lia| |].
  - intros i s1 Hi Hr. destruct (pair_written s1 (Z.of_nat i) (Z.lor INT_DISABLED (T_IRQ0 + Z.of_nat i)) 0) as (s2 & E & Hp & Ho & _); [lia|].
    apply (wp_done _ _ _ _ _ E). intros irq Hq. destruct (decide (irq = Z.of_nat i)) as [->|Hne].
    + rewrite Hp, low_masked by lia. done.
    + rewrite Ho by done. apply Hr. lia.
  - intros s1 Hr. rewrite Nat.add_0_l, Z2Nat.id in Hr by lia. exact Hr.
Qed.

Lemma ioapicinit_spec ioapicid s : 0 <= maxintr s < 256 -> wp (ioapicinit ioapicid) s (fun _ s' => routes (maxintr s + 1) (fun _ => None) s').
Proof.
  intros Hm. unfold ioapicinit, ioapicread. wp_steps. cbv zeta. wp_steps. cbn [io_data io_reg sel]. fold (maxintr s).
  destruct (negb _); wp_steps; apply init_loop; lia.
Qed.

Lemma enable_all_spec n l : n <= 224 -> Forall (fun x => 0 <= fst x < n /\ 0 <= snd x < 256) l -> forall f s, routes n f s ->
  wp (enable_all l) s (fun _ s' => routes n (fun irq => enabled l irq (f irq)) s').
Proof.
  intros Hn Hl. induction Hl as [|[i c] l [Hi Hc] Hl IH]; intros f s Hr; cbn [enable_all]; [by apply wp_ret|]. simpl in Hi, Hc.
  destruct (pair_written s i (T_IRQ0 + i) (i32 (Z.shiftl c 24))) as (s2 & E & Hp & Ho & _); [lia|].
  apply wp_bind, (wp_done _ _ _ _ _ E). cbn [enabled]. apply (IH (fun irq => if i =? irq then Some c else f irq)). intros irq Hq.
  destruct (Z.eqb_spec i irq) as [->|Hne]; [|rewrite Ho by congruence; by apply Hr].
  destruct (low_open irq) as [H1 H2]; [lia|]. rewrite Hp, H1, H2, high_cpu by done. done.
Qed.

(** The I/O APIC after [ioapicinit] and any calls of [ioapicenable]
    for interrupts it has: each interrupt that was enabled is delivered at
    the vector of its own number, to the processor that the last call for it
    named, and every other one is masked. *)
Theorem ioapic_routes ioapicid l s :
  maxintr s < 224 -> Forall (fun x => 0 <= fst x <= maxintr s /\ 0 <= snd x < 256) l ->
  exists s', (ioapicinit ioapicid;; enable_all l) s = Done tt s' /\
    forall irq, 0 <= irq <= maxintr s -> route s' irq = (fun cpu => (T_IRQ0 + irq, cpu)) <$> enabled l irq None.
Proof.
  intros Hm Hl. assert (Hm0 : 0 <= maxintr s) by (apply Z.land_nonneg; right; done).
  assert (H : wp (ioapicinit ioapicid;; enable_all l) s (fun _ s' => routes (maxintr s + 1) (fun irq => enabled l irq None) s')).
  { apply wp_bind. eapply wp_mono; [apply ioapicinit_spec; lia|]. intros [] s2 Hr. apply (enable_all_spec (maxintr s + 1) l); [lia| |exact Hr].
    eapply Forall_impl; [exact Hl|]. intros [i c]. simpl. lia. }
  apply wp_inv in H as ([] & s' & E & Hr). exists s'. split; [done|]. intros irq Hq. apply Hr. lia.
Qed.

(** The kernel's three devices: keyboard to processor 0, disk to the last of
    four, serial port to processor 0. *)
Lemma ioapic_routes_witness : exists s',
  (ioapicinit 2;; enable_all [(IRQ_KBD, 0); (IRQ_COM1, 0); (IRQ_IDE, 3)]) (mkio 0 (fun r => if r =? REG_VER then 0x170011 else 0) []) = Done tt s' /\
  route s' IRQ_KBD = Some (33, 0) /\ route s' IRQ_IDE = Some (46, 3) /\ route s' IRQ_TIMER = None.
Proof.
  destruct (ioapic_routes 2 [(IRQ_KBD, 0); (IRQ_COM1, 0); (IRQ_IDE, 3)] (mkio 0 (fun r => if r =? REG_VER then 0x170011 else 0) [])) as (s' & E & H).
  - reflexivity.
  - change (maxintr _) with 23. repeat (apply Forall_cons; split); [simpl; unfold IRQ_KBD, IRQ_COM1, IRQ_IDE; lia..|apply Forall_nil; done].
  - change (maxintr _) with 23 in H. exists s'. split; [exact E|]. rewrite !H by (unfold IRQ_KBD, IRQ_TIMER, IRQ_IDE; lia). done.
Defined.

End Ioapic.

Module Lapic.

(** Register numbers: offsets in [uint]s. *)
Definition ID : Z := 0x0020 / 4.
Definition VER : Z := 0x0030 / 4.
Definition TPR : Z := 0x0080 / 4.
Definition EOI : Z := 0x00B0 / 4.
Definition SVR : Z := 0x00F0 / 4.
Definition ENABLE : Z := 0x00000100.
Definition ESR : Z := 0x0280 / 4.
Definition ICRLO : Z := 0x0300 / 4.
Definition INIT : Z := 0x00000500.
Definition STARTUP : Z := 0x00000600.
Definition DELIVS : Z := 0x00001000.
Definition ASSERT : Z := 0x00004000.
Definition LEVEL : Z := 0x00008000.
Definition BCAST : Z := 0x00080000.
Definition ICRHI : Z := 0x0310 / 4.
Definition TIMER : Z := 0x0320 / 4.
Definition X1 : Z := 0x0000000B.
Definition PERIODIC : Z := 0x00020000.
Definition PCINT : Z := 0x0340 / 4.
Definition LINT0 : Z := 0x0350 / 4.
Definition LINT1 : Z := 0x0360 / 4.
Definition ERROR : Z := 0x0370 / 4.
Definition MASKED : Z := 0x00010000.
Definition TICR : Z := 0x0380 / 4.
Definition TDCR : Z := 0x03E0 / 4.
Definition CMOS_PORT : Z := 0x70.

(** [l_lapic] is the global [lapic] (0 before [mpinit]); [l_regs] the
    registers as last written; [l_log] the writes to them in order; [l_polls]
    counts the reads of the command register; [l_ports] are the writes to i/o
    ports and [l_mem] is memory. *)
Record lstate := mkls {
  l_lapic : Z;
  l_regs : Z -> Z;
  l_log : list (Z * Z);
  l_polls : nat;
  l_ports : list (Z * Z);
  l_mem : mem
}.
Definition l_write (i v : Z) (s : lstate) : lstate :=
  mkls (l_lapic s) (upd (l_regs s) i (u32 v)) (l_log s ++ [(i, u32 v)]) (l_polls s) (l_ports s) (l_mem s).
Definition l_outb (port v : Z) (s : lstate) : lstate :=
  mkls (l_lapic s) (l_regs s) (l_log s) (l_polls s) (l_ports s ++ [(port, v)]) (l_mem s).
Definition l_store (m : mem) (s : lstate) : lstate :=
  mkls (l_lapic s) (l_regs s) (l_log s) (l_polls s) (l_ports s) m.
Definition l_tick (s : lstate) : lstate :=
  mkls (l_lapic s) (l_regs s) (l_log s) (S (l_polls s)) (l_ports s) (l_mem s).

Definition store16 (m : mem) (a v : Z) : mem := upd (upd m a (u8 v)) (a + 1) (u8 (Z.shiftr v 8)).

Definition lapicw (index value : Z) : KM lstate unit := kmodify (l_write index value).

Section lapic.
(** What the [k]-th read of the command register gives. *)
Context (icr : nat -> Z).

Fixpoint wait_delivery (fuel : nat) : KM lstate unit :=
  match fuel with
  | O => fault "lapicinit: loop"
  | S fuel =>
      k ← kgets l_polls;
      kmodify l_tick;;
      if negb (Z.land (icr k) DELIVS =? 0) then wait_delivery fuel else mret tt
  end.

Definition lapicinit (fuel : nat) : KM lstate unit :=
  lapic ← kgets l_lapic;
  if lapic =? 0 then mret tt else
  lapicw SVR (Z.lor ENABLE (T_IRQ0 + IRQ_SPURIOUS));;
  lapicw TDCR X1;;
  lapicw TIMER (Z.lor PERIODIC (T_IRQ0 + IRQ_TIMER));;
  lapicw TICR 10000000;;
  lapicw LINT0 MASKED;;
  lapicw LINT1 MASKED;;
  ver ← kgets (fun s => l_regs s VER);
  (if 4 <=? Z.land (Z.shiftr ver 16) 0xFF then lapicw PCINT MASKED else mret tt);;
  lapicw ERROR (T_IRQ0 + IRQ_ERROR);;
  lapicw ESR 0;;
  lapicw ESR 0;;
  lapicw EOI 0;;
  lapicw ICRHI 0;;
  lapicw ICRLO (Z.lor (Z.lor BCAST INIT) LEVEL);;
  wait_delivery fuel;;
  lapicw TPR 0.

End lapic.

Definition lapicid : KM lstate Z :=
  lapic ← kgets l_lapic;
  if lapic =? 0 then mret 0 else kgets (fun s => Z.shiftr (l_regs s ID) 24).

Definition lapiceoi : KM lstate unit :=
  lapic ← kgets l_lapic;
  if negb (lapic =? 0) then lapicw EOI 0 else mret tt.

Definition lapicstartap (apicid addr : Z) : KM lstate unit :=
  kmodify (l_outb CMOS_PORT 0xF);;
  kmodify (l_outb (CMOS_PORT + 1) 0x0A);;
  let wrv := P2V (Z.lor (Z.shiftl 0x40 4) 0x67) in
  kmodify (fun s => l_store (store16 (l_mem s) wrv 0) s);;
  kmodify (fun s => l_store (store16 (l_mem s) (wrv + 2) (Z.shiftr addr 4)) s);;
  lapicw ICRHI (Z.shiftl apicid 24);;
  lapicw ICRLO (Z.lor (Z.lor INIT LEVEL) ASSERT);;
  lapicw ICRLO (Z.lor INIT LEVEL);;
  kfor 0 2 (fun _ =>
    lapicw ICRHI (Z.shiftl apicid 24);;
    lapicw ICRLO (Z.lor STARTUP (Z.shiftr addr 12))).

(** ** What the controller is told *)

(** The commands a series of register writes sends: a write of the low
    command register sends it to the destination in the high one. *)
Fixpoint sent (hi : Z) (log : list (Z * Z)) : list (Z * Z) :=
  match log with
  | [] => []
  | (i, v) :: log =>
      if i =? ICRHI then sent v log
      else if i =? ICRLO then (hi / 2 ^ 24, v) :: sent hi log
      else sent hi log
  end.
(** The delivery mode and vector of a command, and the real-mode address of
    the far pointer at [a]. *)
Definition mode (v : Z) : Z := Z.land v 0x700.
Definition vector (v : Z) : Z := v mod 256.
Definition far (m : mem) (a : Z) : Z := 16 * (m (a + 2) + 2 ^ 8 * m (a + 3)) + (m a + 2 ^ 8 * m (a + 1)).

Lemma store16_at m a v x : store16 m a v x = if x =? a + 1 then u8 (Z.shiftr v 8) else if x =? a then u8 v else m x.
Proof. unfold store16, upd. done. Qed.

Lemma land_disjoint a b k : 0 <= k -> 0 <= a < 2 ^ k -> Z.land a (b * 2 ^ k) = 0.
Proof.
  intros Hk Ha. apply Z.bits_inj'. intros n Hn. rewrite Z.land_spec, Z.bits_0. destruct (Z.lt_ge_cases n k) as [Hlt|Hge].
  - rewrite (Z.mul_pow2_bits_low b k n) by done. apply andb_false_r.
  - rewrite <- (Z.mod_small a (2 ^ k)), Z.mod_pow2_bits_high by lia. done.
Qed.

(** [lapicstartap] makes processor [apicid] start at [addr], a page of
    the first megabyte: it sends that processor, and no other, the sequence
    of the multiprocessor specification, an INIT, its de-assertion and two
    STARTUP messages whose vector is the page of [addr]; by then the warm
    reset vector at 40:67 also leads to [addr]. *)
Theorem lapicstartap_correct apicid page s : 0 <= apicid < 256 -> 0 <= page < 256 ->
  exists s' log init deinit startup, lapicstartap apicid (4096 * page) s = Done tt s' /\
    l_log s' = l_log s ++ log /\ (forall hi, sent hi log = [(apicid, init); (apicid, deinit); (apicid, startup); (apicid, startup)]) /\
    mode init = INIT /\ mode deinit = INIT /\ mode startup = STARTUP /\ 4096 * vector startup = 4096 * page /\
    far (l_mem s') (P2V 0x467) = 4096 * page /\ (forall a, a < P2V 0x467 \/ P2V 0x46B <= a -> l_mem s' a = l_mem s a).
Proof.
  intros Ha Hp. assert (Es : Z.shiftr (4096 * page) 12 = page) by (rewrite Z.shiftr_div_pow2, Z.mul_comm by lia; apply Z.div_mul; done).
  assert (E4 : Z.shiftr (4096 * page) 4 = 256 * page) by (rewrite Z.shiftr_div_pow2 by lia; replace (4096 * page) with (256 * page * 2 ^ 4) by lia; apply Z.div_mul; done).
  assert (E8 : Z.shiftr (256 * page) 8 = page) by (rewrite Z.shiftr_div_pow2, Z.mul_comm by lia; apply Z.div_mul; done).
  assert (Eh : u32 (Z.shiftl apicid 24) / 2 ^ 24 = apicid) by (rewrite Z.shiftl_mul_pow2 by lia; unfold u32; rewrite Z.mod_small by lia; by apply Z.div_mul).
  assert (Est : u32 (Z.lor STARTUP page) = STARTUP + page) by (rewrite (lor_low STARTUP page 8); [unfold u32, STARTUP; apply Z.mod_small; lia|lia|done|lia]).
  unfold lapicstartap. rewrite Es, E4. do 5 eexists. split; [reflexivity|]. split; [cbn [l_log l_write]; rewrite <- !app_assoc; reflexivity|].
  split_and!.
  - intros hi. cbn. rewrite Eh. reflexivity.
  - reflexivity.
  - reflexivity.
  - unfold mode. rewrite Est. unfold STARTUP. rewrite <- (lor_low 0x600 page 8) by (done || lia). rewrite Z.land_lor_distr_l.
    change 0x700 with (7 * 2 ^ 8) at 2. rewrite land_disjoint by lia. done.
  - unfold vector. rewrite Est. unfold STARTUP. f_equal. Z.div_mod_to_equations; lia.
  - unfold far. cbn [l_mem l_write l_store l_outb]. rewrite !store16_at, E8. change (P2V (Z.lor (Z.shiftl 0x40 4) 0x67)) with (P2V 0x467). generalize (P2V 0x467). intros w.
    assert (Eu : u8 (256 * page) = 0) by (unfold u8; rewrite Z.mul_comm; by apply Z.mod_mul). rewrite Eu, (u8_id page) by done. change (u8 0) with 0. change (u8 (Z.shiftr 0 8)) with 0.
    repeat (match goal with |- context [?x =? ?y] => destruct (Z.eqb_spec x y); try lia end).
  - intros a Hout. cbn [l_mem l_write l_store l_outb]. rewrite !store16_at. change (P2V (Z.lor (Z.shiftl 0x40 4) 0x67)) with (P2V 0x467).
    change (P2V 0x46B) with (P2V 0x467 + 4) in Hout. revert Hout. generalize (P2V 0x467). intros w Hout. repeat (match goal with |- context [?x =? ?y] => destruct (Z.eqb_spec x y); try lia end).
Qed.

(** The second processor of a machine, started at the trampoline page. *)
Lemma lapicstartap_correct_witness : exists s' log init deinit startup,
  lapicstartap 1 0x7000 (mkls 0xFEE00000 (fun _ => 0) [] 0 [] (fun _ => 0)) = Done tt s' /\
  l_log s' = log /\ (forall hi, sent hi log = [(1, init); (1, deinit); (1, startup); (1, startup)]) /\
  mode init = INIT /\ mode deinit = INIT /\ mode startup = STARTUP /\ 4096 * vector startup = 0x7000 /\ far (l_mem s') (P2V 0x467) = 0x7000.
Proof.
  destruct (lapicstartap_correct 1 7 (mkls 0xFEE00000 (fun _ => 0) [] 0 [] (fun _ => 0))) as (s' & log & i & d & u & E & Hl & Hs & Hi & Hd & Hu & Hv & Hf & _); [lia|lia|].
  exists s', log, i, d, u. split_and!; [exact E|exact Hl|exact Hs|exact Hi|exact Hd|exact Hu|exact Hv|exact Hf].
Defined.

(** ** [lapicinit] *)

Lemma wait_delivery_spec icr N : Z.land (icr N) DELIVS = 0 -> forall fuel s, (l_polls s <= N)%nat -> (N - l_polls s < fuel)%nat ->
  wp (wait_delivery icr fuel) s (fun _ s' => l_regs s' = l_regs s /\ l_log s' = l_log s /\ l_mem s' = l_mem s).
Proof.
  intros HN fuel. induction fuel as [|fuel IH]; intros s Hle Hf; [lia|]. cbn [wait_delivery]. wp_steps.
  destruct (Z.eqb_spec (Z.land (icr (l_polls s)) DELIVS) 0) as [E|E]; cbn [negb]; [by apply wp_ret|].
  assert (l_polls s <> N) by congruence. apply (IH (l_tick s)); cbn [l_polls l_tick]; lia.
Qed.

(** The last value written to a register. *)
Definition last_write (log : list (Z * Z)) (i : Z) : option Z := snd <$> last (filter (fun w => fst w = i) log).

Definition init_writes (pc : bool) : list (Z * Z) :=
  [(SVR, Z.lor ENABLE (T_IRQ0 + IRQ_SPURIOUS)); (TDCR, X1); (TIMER, Z.lor PERIODIC (T_IRQ0 + IRQ_TIMER)); (TICR, 10000000);
   (LINT0, MASKED); (LINT1, MASKED)] ++ (if pc then [(PCINT, MASKED)] else []) ++
  [(ERROR, T_IRQ0 + IRQ_ERROR); (ESR, 0); (ESR, 0); (EOI, 0); (ICRHI, 0); (ICRLO, Z.lor (Z.lor BCAST INIT) LEVEL)].

(** [lapicinit] returns as soon as the controller reports its message
    delivered, after programming the controller: it is enabled, the timer
    repeats at the vector of the clock interrupt, the two local lines are
    masked, errors have their vector, and the task priority is lowered to let
    interrupts in by the very last write. *)
Theorem lapicinit_correct icr N fuel s :
  l_lapic s <> 0 -> Z.land (icr N) DELIVS = 0 -> (l_polls s <= N)%nat -> (N - l_polls s < fuel)%nat ->
  exists s' log, lapicinit icr fuel s = Done tt s' /\ l_log s' = l_log s ++ log ++ [(TPR, 0)] /\
    last_write log SVR = Some (Z.lor ENABLE (T_IRQ0 + IRQ_SPURIOUS)) /\
    last_write log TIMER = Some (Z.lor PERIODIC (T_IRQ0 + IRQ_TIMER)) /\ last_write log TICR = Some 10000000 /\
    last_write log LINT0 = Some MASKED /\ last_write log LINT1 = Some MASKED /\
    last_write log PCINT = (if decide (4 <= Z.land (Z.shiftr (l_regs s VER) 16) 0xFF) then Some MASKED else None) /\
    last_write log ERROR = Some (T_IRQ0 + IRQ_ERROR) /\ (forall hi, sent hi log = [(0, Z.lor (Z.lor BCAST INIT) LEVEL)]).
Proof.
  intros Hl HN Hle Hf. unfold lapicinit.
  match goal with |- exists s' log, ?m s = Done tt s' /\ @?P s' log => cut (wp m s (fun _ s' => exists log, P s' log)) end.
  { intros H. apply wp_inv in H as ([] & s' & E & log & HP). exists s', log. by split. }
  apply wp_bind, wp_gets. rewrite (proj2 (Z.eqb_neq _ 0) Hl). unfold lapicw. wp_steps.
  change (l_regs (l_write LINT1 _ _) VER) with (l_regs s VER).
  destruct (Z.leb_spec 4 (Z.land (Z.shiftr (l_regs s VER) 16) 0xFF)) as [Hv|Hv]; wp_steps;
    (eapply wp_mono; [apply (wait_delivery_spec icr N HN); cbn [l_polls l_write]; lia|]);
    intros _ s' (_ & E & _); wp_steps; cbn [l_log l_write] in *; rewrite E, <- !app_assoc; cbn [app].
  - exists (init_writes true). rewrite (decide_True _ _ Hv). split_and!; reflexivity.
  - exists (init_writes false). rewrite (decide_False _ _) by lia. split_and!; reflexivity.
Qed.

(** A controller that is busy for two reads. *)
Lemma lapicinit_correct_witness : exists s' log,
  lapicinit (fun k => if (k <? 2)%nat then DELIVS else 0) 5 (mkls 0xFEE00000 (fun i => if i =? VER then 0x50014 else 0) [] 0 [] (fun _ => 0)) = Done tt s' /\
  l_log s' = log ++ [(TPR, 0)] /\ last_write log TIMER = Some (Z.lor PERIODIC (T_IRQ0 + IRQ_TIMER)) /\ last_write log PCINT = Some MASKED.
Proof.
  destruct (lapicinit_correct (fun k => if (k <? 2)%nat then DELIVS else 0) 2 5 (mkls 0xFEE00000 (fun i => if i =? VER then 0x50014 else 0) [] 0 [] (fun _ => 0)))
    as (s' & log & E & Hl & _ & Ht & _ & _ & _ & Hp & _); [done|done|simpl; lia|simpl; lia|].
  exists s', log. split_and!; [exact E|exact Hl|exact Ht|exact Hp].
Defined.

End Lapic.
