(* ===== verification/Uart.v ===== *)
(** * The serial port: [uart.c], with the console's handler

    The 8250 as the driver sees it: the bytes that have arrived, the line
    status register and the writes to its ports.  [consoleintr] is here the
    whole loop of [console.c], calling [getc] for each character and echoing
    through [consputc] to the screen and back to the same serial port.

    [uartintr_correct]: an interrupt hands every byte that has arrived to the
    line discipline, in order, and echoes on the line what it should.
    [uartputc_correct]: a byte is written once, after the transmitter is ready
    or after 128 looks at the status register. *)

From S2P Require Import Prelude CString Printf Console Kbd Apic.

Definition COM1 : Z := 0x3f8.

(** [u_on] is the driver's [uart]; [u_rx] the bytes received and not read;
    [u_polls] the number of reads of the status register; [u_out] the writes
    to the ports; [u_irq] the interrupts enabled. *)
Record uart := mkuart {
  u_on : bool;
  u_rx : list Z;
  u_polls : nat;
  u_out : list (Z * Z);
  u_irq : list (Z * Z)
}.
Definition outb (port v : Z) (s : uart) : uart := mkuart (u_on s) (u_rx s) (u_polls s) (u_out s ++ [(port, u8 v)]) (u_irq s).
Definition set_on (s : uart) : uart := mkuart true (u_rx s) (u_polls s) (u_out s) (u_irq s).
Definition enable (irq cpu : Z) (s : uart) : uart := mkuart (u_on s) (u_rx s) (u_polls s) (u_out s) (u_irq s ++ [(irq, cpu)]).

Section uart.
(** Is there a port, and the bits 1 to 6 of its status at the [k]-th read. *)
Context (present : bool) (lsr : nat -> Z).

(** A read of the status register; without a port the bus reads 0xFF. *)
Definition in_status : KM uart Z := fun s =>
  Done (if present then Z.lor (Z.land (lsr (u_polls s)) 0x7E) (match u_rx s with [] => 0 | _ => 1 end) else 0xFF)
       (mkuart (u_on s) (u_rx s) (S (u_polls s)) (u_out s) (u_irq s)).
(** A read of the data register takes the next byte received. *)
Definition in_data : KM uart Z := fun s =>
  match u_rx s with
  | c :: rx => Done (u8 c) (mkuart (u_on s) rx (u_polls s) (u_out s) (u_irq s))
  | [] => Done (if present then 0 else 0xFF) s
  end.

Fixpoint putc_wait (n : nat) : KM uart unit :=
  match n with
  | O => mret tt
  | S n =>
      st ← in_status;
      if Z.land st 0x20 =? 0 then putc_wait n else mret tt
  end.
Definition uartputc (c : Z) : KM uart unit :=
  on ← kgets u_on;
  if negb on then mret tt else
  putc_wait 128;;
  kmodify (outb (COM1 + 0) c).

Definition uartgetc : KM uart Z :=
  on ← kgets u_on;
  if negb on then mret (-1) else
  st ← in_status;
  if Z.land st 0x01 =? 0 then mret (-1) else in_data.

Fixpoint puts (l : list Z) : KM uart unit :=
  match l with
  | [] => mret tt
  | c :: l => uartputc c;; puts l
  end.

Definition uartinit : KM uart unit :=
  kmodify (outb (COM1 + 2) 0);;
  kmodify (outb (COM1 + 3) 0x80);;
  kmodify (outb (COM1 + 0) (115200 / 9600));;
  kmodify (outb (COM1 + 1) 0);;
  kmodify (outb (COM1 + 3) 0x03);;
  kmodify (outb (COM1 + 4) 0);;
  kmodify (outb (COM1 + 1) 0x01);;
  st ← in_status;
  if st =? 0xFF then mret tt else
  kmodify set_on;;
  in_data;;                                (* inb(COM1+2) has no effect here *)
  kmodify (enable IRQ_COM1 0);;
  puts (chars "xv6..." ++ [10]).

(** ** The console on the serial line *)

(** [sr_kbd]: the scan codes in the keyboard controller and the modifiers
    [shift] of [kbdgetc]. *)
Record serial := mkserial { sr_uart : uart; sr_input : input; sr_vga : cga; sr_panicked : bool; sr_kbd : list Z * Z }.
Definition onuart {A} (m : KM uart A) : KM serial A :=
  zoom sr_uart (fun u s => mkserial u (sr_input s) (sr_vga s) (sr_panicked s) (sr_kbd s)) m.
Definition set_input (i : input) (s : serial) : serial := mkserial (sr_uart s) i (sr_vga s) (sr_panicked s) (sr_kbd s).
Definition set_vga (v : cga) (s : serial) : serial := mkserial (sr_uart s) (sr_input s) v (sr_panicked s) (sr_kbd s).

Definition consputc (c : Z) : KM serial unit :=
  p ← kgets sr_panicked;
  if (p : bool) then fault "consputc: panicked" else
  (if c =? BACKSPACE then
     onuart (uartputc 8);; onuart (uartputc 32);; onuart (uartputc 8)
   else onuart (uartputc c));;
  s ← kget;
  match cgaputc c (sr_vga s) with
  | None => panic "pos under/overflow"
  | Some v => kmodify (set_vga v)
  end.
Fixpoint echo (l : list Z) : KM serial unit :=
  match l with
  | [] => mret tt
  | c :: l => consputc c;; echo l
  end.

(** [consoleintr(getc)]: whether readers were woken, and whether a listing of
    the processes follows. *)
Fixpoint intr_loop (getc : KM serial Z) (fuel : nat) (woken dump : bool) : KM serial (bool * bool) :=
  match fuel with
  | O => fault "consoleintr: loop"
  | S fuel =>
      c ← getc;
      if 0 <=? c then
        s ← kget;
        let '(i, out, w, d) := intr_char c (sr_input s) in
        kmodify (set_input i);;
        echo out;;
        intr_loop getc fuel (woken || w) (dump || d)
      else mret (woken, dump)
  end.
Definition uartintr (fuel : nat) : KM serial (bool * bool) := intr_loop (onuart uartgetc) fuel false false.

(** [kbdgetc] on the controller's next scan code. *)
Definition kbd_next : KM serial Z := fun s =>
  let '(codes, shift) := sr_kbd s in
  let '(shift, c) := kbdgetc (head codes) shift in
  Done c (mkserial (sr_uart s) (sr_input s) (sr_vga s) (sr_panicked s) (tail codes, shift)).
Definition kbdintr (fuel : nat) : KM serial (bool * bool) := intr_loop kbd_next fuel false false.
End uart.

(** ** Sending *)

(** The bytes [l] were written to the data port, in order. *)
Definition wrote (l : list Z) (s s' : uart) : Prop :=
  u_on s' = u_on s /\ u_rx s' = u_rx s /\ u_irq s' = u_irq s /\ u_out s' = u_out s ++ ((fun c => (COM1, u8 c)) <$> l) /\ (u_polls s <= u_polls s')%nat.
Definition ready (lsr : nat -> Z) (k : nat) : Prop := Z.testbit (lsr k) 5 = true.

Lemma wrote_app l1 l2 s1 s2 s3 : wrote l1 s1 s2 -> wrote l2 s2 s3 -> wrote (l1 ++ l2) s1 s3.
Proof.
  intros (A1 & B1 & C1 & D1 & E1) (A2 & B2 & C2 & D2 & E2). split_and!; try congruence; [|lia]. rewrite D2, D1, fmap_app, app_assoc. done.
Qed.

Lemma status_thre (lsr : nat -> Z) k x : x = 0 \/ x = 1 -> (Z.land (Z.lor (Z.land (lsr k) 0x7E) x) 0x20 =? 0) = negb (Z.testbit (lsr k) 5).
Proof.
  intros Hx. assert (E : Z.land (Z.lor (Z.land (lsr k) 0x7E) x) 0x20 = Z.land (lsr k) (2 ^ 5)).
  { apply Z.bits_inj'. intros n Hn. rewrite !Z.land_spec, Z.lor_spec, Z.land_spec, Z.pow2_bits_eqb by lia.
    destruct (Z.eqb_spec 5 n) as [<-|Hne].
    - assert (Hx5 : Z.testbit x 5 = false) by (destruct Hx as [-> | ->]; done). rewrite Hx5, orb_false_r. change (Z.testbit 0x7E 5) with true. change (Z.testbit 0x20 5) with true. by rewrite !andb_true_r.
    - change 0x20 with (2 ^ 5). rewrite Z.pow2_bits_false by done. by rewrite !andb_false_r. }
  rewrite E. destruct (Z.testbit (lsr k) 5) eqn:Et.
  - apply Z.eqb_neq. intros E0. assert (Z.testbit (Z.land (lsr k) (2 ^ 5)) 5 = false) as Hf by (by rewrite E0, Z.bits_0).
    rewrite Z.land_spec, Et in Hf. done.
  - apply Z.eqb_eq. apply Z.bits_inj'. intros n Hn. rewrite Z.land_spec, Z.bits_0, Z.pow2_bits_eqb by lia. destruct (Z.eqb_spec 5 n) as [<-|]; [by rewrite Et|apply andb_false_r].
Qed.

Lemma putc_wait_spec lsr n : forall s, wp (putc_wait true lsr n) s (fun _ s' =>
  exists k, (k <= n)%nat /\ s' = mkuart (u_on s) (u_rx s) (u_polls s + k) (u_out s) (u_irq s) /\
    (forall j, (j < pred k)%nat -> ~ ready lsr (u_polls s + j)) /\ (k = n \/ (0 < k)%nat /\ ready lsr (u_polls s + pred k))).
Proof.
  induction n as [|n IH]; intros s; cbn [putc_wait].
  { apply wp_ret. exists 0%nat. split_and!; [lia|destruct s; simpl; by rewrite Nat.add_0_r|intros j; lia|by left]. }
  apply wp_bind. unfold wp at 1, in_status. rewrite status_thre by (destruct (u_rx s); auto).
  destruct (Z.testbit (lsr (u_polls s)) 5) eqn:Et; cbn [negb].
  - apply wp_ret. exists 1%nat. split_and!; [lia|by rewrite Nat.add_1_r|intros j; simpl; lia|right; split; [lia|]]. unfold ready. cbn [pred]. by rewrite Nat.add_0_r.
  - eapply wp_mono; [apply IH|]. intros _ s' (k & Hk & -> & Hb & He). cbn [u_on u_rx u_polls u_out u_irq] in *. exists (S k). split_and!.
    + lia.
    + f_equal. lia.
    + intros j Hj. destruct j as [|j]; [rewrite Nat.add_0_r; unfold ready; congruence|]. replace (u_polls s + S j)%nat with (S (u_polls s) + j)%nat by lia. apply Hb. simpl in Hj. lia.
    + destruct He as [-> | [Hk0 He]]; [by left|right]. split; [lia|]. simpl. destruct k as [|k]; [lia|]. simpl in He. by replace (u_polls s + S k)%nat with (S (u_polls s + k)) by lia.
Qed.

(** [uartputc] always returns, having written the character to the data
    port exactly once.  It reads the status register [k] times, at most 128,
    and does not look further than the first time the transmitter is ready;
    only if it was not ready in all 128 reads is the byte written all the
    same. *)
Theorem uartputc_correct lsr c s : u_on s = true -> exists k,
  uartputc true lsr c s = Done tt (mkuart true (u_rx s) (u_polls s + k) (u_out s ++ [(COM1, u8 c)]) (u_irq s)) /\ (0 < k <= 128)%nat /\
  (forall j, (j < pred k)%nat -> ~ ready lsr (u_polls s + j)) /\ (k = 128%nat \/ ready lsr (u_polls s + pred k)).
Proof.
  intros Hon. pose proof (putc_wait_spec lsr 128 s) as H. apply wp_inv in H as ([] & s' & E & k & Hk & -> & Hb & He).
  exists k. unfold uartputc. rewrite (bind_done (kgets u_on) _ s true s) by (unfold kgets; by rewrite Hon). cbn [negb]. rewrite (bind_done _ _ _ _ _ E).
  split; [unfold kmodify, outb; cbn [u_on u_rx u_polls u_out u_irq]; by rewrite Hon|]. split_and!; [|lia|done|].
  - destruct He as [->|[He _]]; lia.
  - destruct He as [->|[_ He]]; auto.
Qed.

(** A transmitter that is busy for three reads. *)
Lemma uartputc_correct_witness : exists k,
  uartputc true (fun k => if (k <? 3)%nat then 0 else 0x60) 65 (mkuart true [] 0 [] []) = Done tt (mkuart true [] k [(COM1, 65)] []) /\ (k <= 128)%nat.
Proof.
  destruct (uartputc_correct (fun k => if (k <? 3)%nat then 0 else 0x60) 65 (mkuart true [] 0 [] []) eq_refl) as (k & E & Hk & _).
  exists k. split; [exact E|lia].
Defined.

(** ** Receiving *)

(** What one echoed character puts on the line. *)
Definition wire (c : Z) : list Z := if c =? BACKSPACE then [8; 32; 8] else [c].

Section receive.
Context (lsr : nat -> Z).

Lemma uartputc_wrote c s : u_on s = true -> wp (uartputc true lsr c) s (fun _ s' => wrote [c] s s').
Proof.
  intros Hon. unfold uartputc. apply wp_bind, wp_gets. rewrite Hon. cbn [negb]. apply wp_bind. eapply wp_mono; [apply putc_wait_spec|].
  intros _ s' (k & _ & -> & _). apply wp_modify. unfold wrote, outb. cbn [u_on u_rx u_polls u_out u_irq]. split_and!; [done..|lia].
Qed.

(** Nothing but the port and the screen changed, and the screen is in order. *)
Definition echoed (l : list Z) (s s' : serial) : Prop :=
  wrote (mjoin (wire <$> l)) (sr_uart s) (sr_uart s') /\ sr_input s' = sr_input s /\ cga_ok (sr_vga s') /\ sr_panicked s' = false /\ sr_kbd s' = sr_kbd s.
Definition live (s : serial) : Prop := u_on (sr_uart s) = true /\ cga_ok (sr_vga s) /\ sr_panicked s = false.

Lemma onuart_put c s (Q : unit -> serial -> Prop) : live s ->
  (forall u, wrote [c] (sr_uart s) u -> Q tt (mkserial u (sr_input s) (sr_vga s) (sr_panicked s) (sr_kbd s))) -> wp (onuart (uartputc true lsr c)) s Q.
Proof. intros (Hon & _ & _) HQ. apply wp_zoom. eapply wp_mono; [by apply uartputc_wrote|]. intros [] u Hu. by apply HQ. Qed.

Lemma consputc_spec c s : live s -> wp (consputc true lsr c) s (fun _ s' => echoed [c] s s').
Proof.
  intros Hl. pose proof Hl as (Hon & Hv & Hp). destruct (cgaputc_correct (sr_vga s) c Hv) as (v & Ev & Hv' & _).
  assert (Hon1 : forall l u, wrote l (sr_uart s) u -> live (mkserial u (sr_input s) (sr_vga s) (sr_panicked s) (sr_kbd s))).
  { intros l u (E & _). unfold live. cbn. split_and!; [congruence|done|done]. }
  assert (Hend : forall u, wrote (wire c) (sr_uart s) u -> wp (s0 ← kget; match cgaputc c (sr_vga s0) with None => panic "pos under/overflow" | Some v => kmodify (set_vga v) end)
    (mkserial u (sr_input s) (sr_vga s) (sr_panicked s) (sr_kbd s)) (fun _ s' => echoed [c] s s')).
  { intros u Hu. apply wp_bind, wp_get. cbn [sr_vga]. rewrite Ev. apply wp_modify. unfold echoed. cbn [fmap list_fmap mjoin list_join]. rewrite app_nil_r. done. }
  unfold consputc. apply wp_bind, wp_gets. rewrite Hp. apply wp_bind. unfold wire in Hend. destruct (c =? BACKSPACE).
  - apply wp_bind, onuart_put; [done|]. intros u1 H1. apply wp_bind, onuart_put; [by apply (Hon1 [8])|]. cbn [sr_uart]. intros u2 H2.
    pose proof (wrote_app [8] [32] _ _ _ H1 H2) as H12. apply onuart_put; [by apply (Hon1 [8; 32])|]. cbn [sr_uart]. intros u3 H3.
    apply Hend. exact (wrote_app [8; 32] [8] _ _ _ H12 H3).
  - apply onuart_put; [done|]. exact Hend.
Qed.

Lemma echoed_live l s s' : live s -> echoed l s s' -> live s'.
Proof. intros (Hon & _ & _) ((E & _) & _ & Hv & Hp & _). unfold live. split_and!; [congruence|done|done]. Qed.

Lemma echo_spec l : forall s, live s -> wp (echo true lsr l) s (fun _ s' => echoed l s s').
Proof.
  induction l as [|c l IH]; intros s Hl; cbn [echo].
  { apply wp_ret. destruct Hl as (Hon & Hv & Hp). unfold echoed, wrote. cbn. rewrite app_nil_r. split_and!; done. }
  apply wp_bind. eapply wp_mono; [by apply consputc_spec|]. intros [] s1 H1. eapply wp_mono; [apply IH; by eapply echoed_live|].
  intros [] s2 H2. destruct H1 as (W1 & I1 & Hv1 & Hp1 & K1). destruct H2 as (W2 & I2 & Hv & Hp & K2). unfold echoed. cbn [fmap list_fmap mjoin list_join] in *.
  rewrite app_nil_r in W1. split_and!; [by eapply wrote_app|congruence|done|done|congruence].
Qed.

Lemma uartgetc_some c rx s : u_on s = true -> u_rx s = c :: rx -> is_byte c ->
  uartgetc true lsr s = Done c (mkuart true rx (S (u_polls s)) (u_out s) (u_irq s)).
Proof.
  destruct s as [on r k o i]. cbn [u_rx u_on u_polls u_out u_irq]. intros -> -> Hc. unfold uartgetc, in_status, in_data, mbind, km_bind, kgets. cbn [negb u_rx u_on u_polls u_out u_irq].
  replace (Z.land (Z.lor (Z.land (lsr k) 0x7E) 1) 0x01 =? 0) with false; [cbv iota beta; cbn [u_rx u_on u_polls u_out u_irq]; by rewrite (u8_id c)|].
  rewrite Z.land_lor_distr_l, <- Z.land_assoc. change (Z.land 0x7E 0x01) with 0. by rewrite Z.land_0_r.
Qed.
Lemma uartgetc_none s : u_on s = true -> u_rx s = [] -> uartgetc true lsr s = Done (-1) (mkuart true [] (S (u_polls s)) (u_out s) (u_irq s)).
Proof.
  destruct s as [on r k o i]. cbn [u_rx u_on u_polls u_out u_irq]. intros -> ->. unfold uartgetc, in_status, mbind, km_bind, kgets. cbn [negb u_rx u_on u_polls u_out u_irq].
  rewrite Z.lor_0_r, <- Z.land_assoc. change (Z.land 0x7E 0x01) with 0. by rewrite Z.land_0_r.
Qed.

Lemma onuart_done {A} (m : KM uart A) s a u : m (sr_uart s) = Done a u -> onuart m s = Done a (mkserial u (sr_input s) (sr_vga s) (sr_panicked s) (sr_kbd s)).
Proof. unfold onuart, zoom. by intros ->. Qed.

Lemma kbd_next_some d codes shift s : sr_kbd s = (d :: codes, shift) ->
  kbd_next s = Done (kbdgetc (Some d) shift).2 (mkserial (sr_uart s) (sr_input s) (sr_vga s) (sr_panicked s) (codes, (kbdgetc (Some d) shift).1)).
Proof. intros E. unfold kbd_next. rewrite E. cbn [head tail]. by destruct (kbdgetc (Some d) shift). Qed.
Lemma kbd_next_none shift s : sr_kbd s = ([], shift) -> kbd_next s = Done (-1) (mkserial (sr_uart s) (sr_input s) (sr_vga s) (sr_panicked s) ([], shift)).
Proof. intros E. unfold kbd_next. by rewrite E. Qed.

(** What a call of [getc] leaves alone. *)
Definition same_con (s s' : serial) : Prop :=
  u_on (sr_uart s') = u_on (sr_uart s) /\ u_out (sr_uart s') = u_out (sr_uart s) /\ u_irq (sr_uart s') = u_irq (sr_uart s) /\
  sr_input s' = sr_input s /\ sr_vga s' = sr_vga s /\ sr_panicked s' = sr_panicked s.
(** [getc] delivers the characters [pending] finds in the devices, then -1. *)
Record source (getc : KM serial Z) (pending : list Z -> list Z * Z -> list Z) : Prop := {
  src_char : forall s c cs, live s -> pending (u_rx (sr_uart s)) (sr_kbd s) = c :: cs -> is_byte c ->
    exists s', getc s = Done c s' /\ same_con s s' /\ pending (u_rx (sr_uart s')) (sr_kbd s') = cs;
  src_end : forall s, live s -> pending (u_rx (sr_uart s)) (sr_kbd s) = [] ->
    exists s', getc s = Done (-1) s' /\ same_con s s' /\ pending (u_rx (sr_uart s')) (sr_kbd s') = []
}.

Lemma uart_source : source (onuart (uartgetc true lsr)) (fun rx _ => rx).
Proof.
  split.
  - intros s c cs (Hon & _ & _) Hrx Hc. eexists. split; [apply onuart_done, (uartgetc_some c cs); done|]. unfold same_con. cbn. split_and!; done.
  - intros s (Hon & _ & _) Hrx. eexists. split; [apply onuart_done, uartgetc_none; done|]. unfold same_con. cbn. split_and!; done.
Qed.
Lemma kbd_source : source kbd_next (fun _ k => (kbd_chars k.1 k.2).2).
Proof.
  split.
  - intros s c cs _ Hp _. destruct (sr_kbd s) as [[|d codes] shift] eqn:E; [done|]. cbn [fst snd kbd_chars] in Hp.
    pose proof (kbd_next_some d codes shift s E) as Hn. destruct (kbdgetc (Some d) shift) as [sh c']. destruct (kbd_chars codes sh) as [sh2 cs2] eqn:Ek.
    cbn [fst snd] in *. injection Hp as <- <-. eexists. split; [exact Hn|]. unfold same_con. cbn. rewrite Ek. split_and!; done.
  - intros s _ Hp. destruct (sr_kbd s) as [[|d codes] shift] eqn:E.
    + eexists. split; [apply (kbd_next_none shift s E)|]. unfold same_con. cbn. split_and!; done.
    + cbn in Hp. destruct (kbdgetc (Some d) shift) as [sh c]. by destruct (kbd_chars codes sh).
Qed.

(** What the loop leaves, for the characters [cs]. *)
Definition served (cs : list Z) (s : serial) (r : bool * bool) (s' : serial) : Prop :=
  exists out w d, consoleintr cs (sr_input s) = (sr_input s', out, w, d) /\ r = (w, d) /\
    u_out (sr_uart s') = u_out (sr_uart s) ++ ((fun c => (COM1, u8 c)) <$> mjoin (wire <$> out)) /\ live s'.

Lemma same_con_live s s' : live s -> same_con s s' -> live s'.
Proof. intros (Hon & Hv & Hp) (E1 & _ & _ & _ & E2 & E3). unfold live. rewrite E1, E2, E3. done. Qed.

Lemma intr_loop_spec getc pending : source getc pending -> forall cs fuel s w0 d0, live s -> pending (u_rx (sr_uart s)) (sr_kbd s) = cs -> Forall is_byte cs -> (length cs < fuel)%nat ->
  wp (intr_loop true lsr getc fuel w0 d0) s (fun r s' => exists w d, r = (w0 || w, d0 || d) /\ served cs s (w, d) s' /\ pending (u_rx (sr_uart s')) (sr_kbd s') = []).
Proof.
  intros Hsrc. induction cs as [|c cs IH]; intros [|fuel] s w0 d0 Hl Hrx Hb Hf; simpl in Hf; try lia; cbn [intr_loop].
  - destruct (src_end _ _ Hsrc s Hl Hrx) as (s1 & E & Hs & Hp). apply wp_bind. eapply wp_done; [exact E|]. cbn [Z.leb Z.compare]. apply wp_ret.
    exists false, false. rewrite !orb_false_r. split; [done|]. split; [|done]. exists [], false, false. pose proof (same_con_live _ _ Hl Hs). destruct Hs as (_ & Ho & _ & Hi & _).
    cbn. rewrite app_nil_r, Hi, Ho. split_and!; done.
  - apply Forall_cons in Hb as [Hc Hb]. destruct (src_char _ _ Hsrc s c cs Hl Hrx Hc) as (s1 & E & Hs & Hp). apply wp_bind. eapply wp_done; [exact E|].
    rewrite (proj2 (Z.leb_le 0 c)) by (unfold is_byte in Hc; lia). apply wp_bind, wp_get. pose proof (same_con_live _ _ Hl Hs) as Hl1. destruct Hs as (_ & Ho1 & _ & Hi1 & _). rewrite Hi1.
    destruct (intr_char c (sr_input s)) as [[[i out] w1] d1] eqn:Ei. apply wp_bind, wp_modify. apply wp_bind.
    eapply wp_mono; [apply echo_spec; exact Hl1|]. intros [] s2 He.
    assert (Hl2 : live s2) by (eapply echoed_live; [|exact He]; exact Hl1). destruct He as ((_ & Hr & _ & Ho & _) & Hi & _ & _ & Hk).
    unfold set_input in *. cbn [sr_uart sr_input sr_kbd] in *. eapply wp_mono; [apply (IH fuel s2); [done|by rewrite Hr, Hk|done|lia]|].
    intros r s' (w & d & -> & (out2 & w2 & d2 & E2 & [= <- <-] & Ho' & Hl') & Hp'). exists (w1 || w), (d1 || d). split; [by rewrite !orb_assoc|]. split; [|done].
    exists (out ++ out2), (w1 || w), (d1 || d). rewrite Hi in E2. split_and!; [|done| |done].
    + cbn [consoleintr]. by rewrite Ei, E2.
    + rewrite Ho', Ho, Ho1, fmap_app, join_app, fmap_app, app_assoc. done.
Qed.
End receive.

(** A serial interrupt: [uartintr] returns, and all the bytes that had
    arrived went through the console's line discipline in their order: what
    readers may read and the line being edited are as the discipline says,
    readers are woken if there is more to read, and what was written to the
    line is the echo of those keys, a backspace as the three characters that
    erase one. *)
Theorem uartintr_correct lsr fuel s q l :
  live s -> Forall is_byte (u_rx (sr_uart s)) -> input_repr (sr_input s) q l -> (length (u_rx (sr_uart s)) < fuel)%nat ->
  exists s' woken dump out, uartintr true lsr fuel s = Done (woken, dump) s' /\ u_rx (sr_uart s') = [] /\ live s' /\
    input_repr (sr_input s') (line_keys (u_rx (sr_uart s)) q l).1 (line_keys (u_rx (sr_uart s)) q l).2 /\
    ((line_keys (u_rx (sr_uart s)) q l).1 <> q -> woken = true) /\
    consoleintr (u_rx (sr_uart s)) (sr_input s) = (sr_input s', out, woken, dump) /\
    u_out (sr_uart s') = u_out (sr_uart s) ++ ((fun c => (COM1, u8 c)) <$> mjoin (wire <$> out)).
Proof.
  intros Hl Hb Hi Hf. pose proof (intr_loop_spec lsr _ _ (uart_source lsr) _ fuel s false false Hl eq_refl Hb Hf) as H.
  apply wp_inv in H as (r & s' & E & w & d & -> & (out & w' & d' & Ec & [= <- <-] & Ho & Hl') & Hrx).
  pose proof (consoleintr_refines (u_rx (sr_uart s)) _ _ _ Hi Hb) as Hr. rewrite Ec in Hr. destruct Hr as [Hr Hw].
  exists s', w, d, out. split_and!; [exact E|done|done|done|done|done|done].
Qed.

(** The keys [a], [b], backspace and return. *)
Lemma uartintr_correct_witness : exists s' dump,
  uartintr true (fun _ => 0x60) 9 (mkserial (mkuart true [97; 98; 8; 13] 0 [] []) demo_input (mkcga (replicate 2000 0) 0) false ([], 0)) = Done (true, dump) s' /\
  input_repr (sr_input s') [97; 10] [] /\ u_rx (sr_uart s') = [].
Proof.
  destruct (uartintr_correct (fun _ => 0x60) 9 (mkserial (mkuart true [97; 98; 8; 13] 0 [] []) demo_input (mkcga (replicate 2000 0) 0) false ([], 0)) [] [])
    as (s' & w & d & out & E & Hrx & _ & Hi & Hw & _).
  - split_and!; [done| |done]. split; [exact (length_replicate 2000 0)|done].
  - repeat (apply Forall_cons; split); [unfold is_byte; lia..|apply Forall_nil; done].
  - exact demo_input_repr.
  - simpl. lia.
  - exists s', d. assert (Ew : w = true) by (apply Hw; discriminate). rewrite Ew in E. split_and!; [exact E|exact Hi|exact Hrx].
Defined.
