(* ===== verification/BlockStore.v ===== *)
(** * What the file system is promised by the layers under it

    [fs.c] reaches the disk through [bread], the bytes of a held buffer,
    [log_write] and [brelse], inside a transaction.  [BlockStore] names these
    operations; [TxStore] adds what they promise, over an abstract view
    ([tview]) of the blocks, of the buffers held and of the blocks logged so
    far.  The file system is verified against this interface.  It has two
    implementations: the view itself, run as a program ([view_store]), and
    the log over the buffer cache ([LogStore.v]). *)

From S2P Require Import Prelude Sleeplock Bio BioSpec.

Record tview := mktview {
  tv_blk : gmap Z block;     (* contents of the blocks *)
  tv_held : gmap nat Z;      (* buffers held, and the block each holds *)
  tv_mod : gset Z;           (* blocks modified and not yet logged *)
  tv_log : gset Z;           (* blocks of the transaction *)
  tv_home : gset Z;          (* blocks a transaction may log *)
  tv_cap : nat               (* how many *)
}.

Definition tv_hold (h : nat) (b : Z) (v : tview) : tview :=
  mktview (tv_blk v) (<[h := b]> (tv_held v)) (tv_mod v) (tv_log v) (tv_home v) (tv_cap v).
Definition tv_drop (h : nat) (v : tview) : tview :=
  mktview (tv_blk v) (delete h (tv_held v)) (tv_mod v) (tv_log v) (tv_home v) (tv_cap v).
Definition tv_set (b : Z) (d : block) (v : tview) : tview :=
  mktview (<[b := d]> (tv_blk v)) (tv_held v) ({[b]} ∪ tv_mod v) (tv_log v) (tv_home v) (tv_cap v).
Definition tv_mark (b : Z) (v : tview) : tview :=
  mktview (tv_blk v) (tv_held v) (tv_mod v ∖ {[b]}) ({[b]} ∪ tv_log v) (tv_home v) (tv_cap v).
(** Block [b] rewritten and logged. *)
Definition tv_put (b : Z) (d : block) (v : tview) : tview :=
  mktview (<[b := d]> (tv_blk v)) (tv_held v) (tv_mod v) ({[b]} ∪ tv_log v) (tv_home v) (tv_cap v).

Definition held_blocks (v : tview) : gset Z := map_img (tv_held v).

Class BlockStore (S : Type) := {
  bs_bread : Z -> Z -> KM S nat;
  bs_data : nat -> KM S block;
  bs_put : nat -> nat -> list Z -> KM S unit;
  bs_log_write : nat -> KM S unit;
  bs_brelse : nat -> KM S unit
}.

Class TxStore (S : Type) `{!BlockStore S} := {
  tx_at : S -> tview -> Prop;
  tx_wf : forall s v b d, tx_at s v -> tv_blk v !! b = Some d ->
    length d = BSIZE /\ Forall is_byte d /\ 0 <= b < 2 ^ 31;
  tx_room : forall s v, tx_at s v -> (tv_cap v + 3 <= NBUF)%nat;
  tx_bread : forall s v b d, tx_at s v -> tv_blk v !! b = Some d -> b ∉ held_blocks v ->
    (size (held_blocks v) <= 2)%nat -> (size (tv_log v) <= tv_cap v)%nat ->
    wp (bs_bread ROOTDEV b) s (fun h s' => tv_held v !! h = None /\ tx_at s' (tv_hold h b v));
  tx_data : forall s v h b d, tx_at s v -> tv_held v !! h = Some b -> tv_blk v !! b = Some d ->
    wp (bs_data h) s (fun x s' => x = d /\ s' = s);
  tx_put : forall s v h b d off bytes, tx_at s v -> tv_held v !! h = Some b ->
    tv_blk v !! b = Some d -> (off + length bytes <= BSIZE)%nat -> Forall is_byte bytes ->
    wp (bs_put h off bytes) s (fun _ s' => tx_at s' (tv_set b (splice off bytes d) v));
  tx_log_write : forall s v h b, tx_at s v -> tv_held v !! h = Some b -> b ∈ tv_home v ->
    (size (tv_log v) < tv_cap v)%nat ->
    wp (bs_log_write h) s (fun _ s' => tx_at s' (tv_mark b v));
  tx_brelse : forall s v h b, tx_at s v -> tv_held v !! h = Some b -> b ∉ tv_mod v ->
    wp (bs_brelse h) s (fun _ s' => tx_at s' (tv_drop h v))
}.

(** A store with transactions.  A transaction may log [MAXOPBLOCKS] blocks, the
    number [begin_op] reserves; outside transactions the capacity is 0. *)
Class TxOps (S : Type) := {
  ts_begin : KM S unit;
  ts_end : KM S unit
}.

Definition tv_begin (v : tview) : tview :=
  mktview (tv_blk v) (tv_held v) (tv_mod v) (tv_log v) (tv_home v) (Z.to_nat MAXOPBLOCKS).
Definition tv_end (v : tview) : tview :=
  mktview (tv_blk v) (tv_held v) (tv_mod v) ∅ (tv_home v) 0.

Class TxSystem (S : Type) `{!BlockStore S} `{!TxStore S} `{!TxOps S} := {
  tx_begin : forall s v, tx_at s v -> tv_cap v = 0%nat -> tv_log v = ∅ ->
    wp ts_begin s (fun _ s' => tx_at s' (tv_begin v));
  tx_end : forall s v, tx_at s v -> tv_cap v <> 0%nat -> tv_held v = ∅ ->
    wp ts_end s (fun _ s' => tx_at s' (tv_end v))
}.

(** ** The view run as a program *)

Definition v_bread (dev b : Z) : KM tview nat :=
  v ← kget;
  if negb (dev =? ROOTDEV) then fault "dev" else
  match tv_blk v !! b with
  | None => panic "iderw: block out of range"
  | Some _ =>
      if bool_decide (b ∈ held_blocks v) then ksleep "sleep lock"
      else let h := fresh (dom (tv_held v)) in kput (tv_hold h b v);; mret h
  end.
Definition v_data (h : nat) : KM tview block :=
  v ← kget;
  match b ← tv_held v !! h; tv_blk v !! b with Some d => mret d | None => fault "buffer" end.
Definition v_put (h off : nat) (bytes : list Z) : KM tview unit :=
  v ← kget;
  match b ← tv_held v !! h; d ← tv_blk v !! b; Some (b, d) with
  | Some (b, d) => kput (tv_set b (splice off bytes d) v)
  | None => fault "buffer"
  end.
Definition v_log_write (h : nat) : KM tview unit :=
  v ← kget;
  match tv_held v !! h with
  | None => fault "buffer"
  | Some b =>
      if (tv_cap v <=? size (tv_log v))%nat then panic "too big a transaction"
      else kput (tv_mark b v)
  end.
Definition v_brelse (h : nat) : KM tview unit :=
  v ← kget;
  match tv_held v !! h with
  | None => panic "brelse"
  | Some _ => kput (tv_drop h v)
  end.

#[global] Instance view_ops : BlockStore tview := {|
  bs_bread := v_bread; bs_data := v_data; bs_put := v_put;
  bs_log_write := v_log_write; bs_brelse := v_brelse
|}.

Record tview_ok (v : tview) : Prop := mk_tview_ok {
  tvo_blk : forall b d, tv_blk v !! b = Some d -> length d = BSIZE /\ Forall is_byte d /\ 0 <= b < 2 ^ 31;
  tvo_cap : (tv_cap v + 3 <= NBUF)%nat
}.

Lemma splice_bytes off (x d : list Z) : Forall is_byte x -> Forall is_byte d -> Forall is_byte (splice off x d).
Proof. intros Hx Hd. unfold splice. rewrite !Forall_app. auto using Forall_take, Forall_drop. Qed.

#[global] Instance view_store : TxStore tview.
Proof.
  refine {| tx_at := fun s v => s = v /\ tview_ok v |}.
  - intros s v b d [-> H]. by apply (tvo_blk _ H).
  - intros s v [-> H]. by apply (tvo_cap _ H).
  - intros s v b d [-> H] Hb Hh _ _. unfold bs_bread, view_ops, v_bread. wp_step. wp_step.
    rewrite Hb, bool_decide_false by done. simpl negb. cbv iota. wp_steps.
    split; [apply not_elem_of_dom, is_fresh|]. split; [done|]. by destruct H.
  - intros s v h b d [-> H] Hh Hb. unfold bs_data, view_ops, v_data. wp_step. wp_step.
    rewrite Hh. simpl. by rewrite Hb.
  - intros s v h b d off bytes [-> H] Hh Hb Hl Hy. unfold bs_put, view_ops, v_put. wp_step. wp_step.
    rewrite Hh. simpl. rewrite Hb. simpl. wp_steps. split; [done|]. destruct H as [Hw Hc]. split; [|done].
    intros b' d'. simpl. destruct (Hw b d Hb) as (Hd & Hy' & Hr). rewrite lookup_insert_Some.
    intros [[<- <-]|[_ H]]; [|by apply Hw]. rewrite length_splice by lia. auto using splice_bytes.
  - intros s v h b [-> H] Hh Hb Hc. unfold bs_log_write, view_ops, v_log_write. wp_step. wp_step.
    rewrite Hh, (proj2 (Nat.leb_gt _ _)) by done. wp_steps. split; [done|]. by destruct H.
  - intros s v h b [-> H] Hh Hm. unfold bs_brelse, view_ops, v_brelse. wp_step. wp_step.
    rewrite Hh. wp_steps. split; [done|]. by destruct H.
Defined.

#[global] Instance view_tx : TxOps tview := {| ts_begin := kmodify tv_begin; ts_end := kmodify tv_end |}.
#[global] Instance view_system : TxSystem tview.
Proof.
  split; intros s v [-> [H1 H2]] _ _; unfold ts_begin, ts_end, view_tx; apply wp_modify; split; try done;
    split; simpl; try done; unfold NBUF; lia.
Qed.

(** ** Patterns of use *)

Section patterns.
Context {S : Type} `{TxStore S}.
Implicit Types (s : S) (v : tview).

Lemma tv_hold_drop h b v : tv_held v !! h = None -> tv_drop h (tv_hold h b v) = v.
Proof.
  intros E. destruct v. unfold tv_drop, tv_hold. simpl in *. by rewrite delete_insert_id.
Qed.
Lemma held_hold h b v : tv_held v !! h = None -> held_blocks (tv_hold h b v) = {[b]} ∪ held_blocks v.
Proof. intros E. unfold held_blocks. simpl. by rewrite map_img_insert_notin_L. Qed.
Lemma tv_set_mark h b d v : b ∉ tv_mod v -> tv_held v !! h = None ->
  tv_drop h (tv_mark b (tv_set b d (tv_hold h b v))) = tv_put b d v.
Proof.
  intros Hm E. destruct v. unfold tv_drop, tv_mark, tv_set, tv_hold, tv_put. simpl in *. f_equal.
  - by rewrite delete_insert_id.
  - set_solver.
Qed.

(** [bp = bread(b); ... bp->data ...; brelse(bp)] *)
Lemma tx_read {A} s v b d (f : block -> A) (Q : A -> S -> Prop) :
  tx_at s v -> tv_blk v !! b = Some d -> b ∉ held_blocks v -> b ∉ tv_mod v ->
  (size (held_blocks v) <= 2)%nat -> (size (tv_log v) <= tv_cap v)%nat ->
  (forall s', tx_at s' v -> Q (f d) s') ->
  wp (bp ← bs_bread ROOTDEV b; x ← bs_data bp; bs_brelse bp;; mret (f x)) s Q.
Proof.
  intros Ha Hb Hh Hm Hs Hl HQ. wp_step. eapply wp_mono; [by eapply tx_bread|].
  intros h s1 [Hn H1]. wp_step.
  assert (tv_held (tv_hold h b v) !! h = Some b) as Hhb by apply lookup_insert_eq.
  eapply wp_mono; [by eapply (tx_data s1 _ h b d H1)|]. intros x s2 [-> ->]. wp_step.
  eapply wp_mono; [by eapply (tx_brelse s1 _ h b H1)|]. intros [] s3 H3. wp_step.
  rewrite tv_hold_drop in H3 by done. auto.
Qed.
End patterns.
