(* ===== verification/LogStore.v ===== *)
(** * The log implements the block store

    [log.c] over [bio.c] keeps the promises of [TxStore] inside a transaction,
    so every theorem on the file system holds of the kernel's own stack:
    [fs.c] over [log.c] over [bio.c]. *)

From S2P Require Import Prelude Sleeplock Bio BioSpec Log LogSpec LogCrash BlockStore.

#[global] Instance log_ops : BlockStore log := {|
  bs_bread := fun dev b => io (bread dev b);
  bs_data := fun h => io (bp_data h);
  bs_put := fun h off bytes => io (bput h off bytes);
  bs_log_write := log_write;
  bs_brelse := fun h => io (brelse h)
|}.

(** What a transaction in progress does not change. *)
Record log_frame (s0 s : log) : Prop := mk_log_frame {
  lf_start : l_start s = l_start s0;
  lf_size : l_size s = l_size s0;
  lf_out : l_outstanding s = l_outstanding s0;
  lf_com : l_committing s = l_committing s0;
  lf_disk : d_disk (l_bio s) = d_disk (l_bio s0);
  lf_trace : d_trace (l_bio s) = d_trace (l_bio s0)
}.

(** [s] is the log [s0] inside a transaction whose blocks, buffers and logged
    blocks are those of [v]. *)
Record log_at (s0 s : log) (v : tview) : Prop := mk_log_at {
  la_ready : exists a L, log_ready s a L /\ tv_blk v ⊆ ba_view a /\ ba_held a = tv_held v /\
    ba_mod a = tv_mod v /\ list_to_set L = tv_log v;
  la_bytes : forall b d, tv_blk v !! b = Some d -> Forall is_byte d;
  la_home : forall b, b ∈ tv_home v -> home (l_start s0) (l_size s0) (d_disk (l_bio s0)) b;
  la_cap : Z.of_nat (tv_cap v) <= l_size s0 - 1 /\ (tv_cap v + 3 <= NBUF)%nat;
  la_out : tv_cap v <> 0%nat -> 1 <= l_outstanding s0;
  la_frame : log_frame s0 s
}.

(** Replacing the buffer cache, its disk unchanged. *)
Lemma ready_set_bio s a L b' a' : log_ready s a L -> bio_repr b' a' -> d_disk b' = d_disk (l_bio s) ->
  ba_dirty a' = ba_dirty a -> (forall b d, ba_view a' !! b = Some d -> length d = BSIZE) ->
  log_ready (set_bio b' s) a' L.
Proof.
  intros [R1 R2 R3 R4 R5 R6 R7 R8 R9 R10 R11 R12 R13] Hb Hd Hdi Hw. split; simpl; rewrite ?Hd; try done. congruence.
Qed.

Section store.
Context (s0 : log).

(** A buffer operation that takes the cache from [a] to [a']. *)
Lemma log_io {A} s v (m : KM bio A) a L (P : A -> Prop) (F : A -> babs) (G : A -> tview) :
  log_at s0 s v -> log_ready s a L ->
  wp m (l_bio s) (fun x b' => P x /\ bio_repr b' (F x) /\ d_disk b' = d_disk (l_bio s) /\ d_trace b' = d_trace (l_bio s)) ->
  (forall x, ba_dirty (F x) = ba_dirty a) ->
  (forall x b d, ba_view (F x) !! b = Some d -> length d = BSIZE) ->
  (forall x b d, tv_blk (G x) !! b = Some d -> Forall is_byte d) ->
  (forall x, tv_blk (G x) ⊆ ba_view (F x) /\ ba_held (F x) = tv_held (G x) /\ ba_mod (F x) = tv_mod (G x) /\
     tv_log (G x) = tv_log v /\ tv_home (G x) = tv_home v /\ tv_cap (G x) = tv_cap v) ->
  list_to_set L = tv_log v ->
  wp (io m) s (fun x s' => P x /\ log_at s0 s' (G x)).
Proof.
  intros HA R Hm Hdi Hl Hby HG EL. apply wp_io. eapply wp_mono; [exact Hm|]. intros x b' (HP & Hr & Hd & Htr).
  split; [done|]. destruct (HG x) as (G1 & G2 & G3 & G4 & G5 & G6).
  destruct HA as [_ _ A3 A4 A5 [F1 F2 F3 F4 F5 F6]].
  split; rewrite ?G4, ?G5, ?G6; try done; [|by apply Hby|by split; simpl; congruence].
  exists (F x), L. split_and!; [|done|done|done|congruence].
  apply (ready_set_bio s a L); try done. apply Hl.
Qed.

Lemma log_bread s v b d : log_at s0 s v -> tv_blk v !! b = Some d -> b ∉ held_blocks v ->
  (size (held_blocks v) <= 2)%nat -> (size (tv_log v) <= tv_cap v)%nat ->
  wp (io (bread ROOTDEV b)) s (fun h s' => tv_held v !! h = None /\ log_at s0 s' (tv_hold h b v)).
Proof.
  intros A Hb Hh Hs Hl. pose proof A as [(a & L & R & Ev & Eh & Em & El) A2 A3 A4 A5 A6].
  eapply (log_io s v _ a L (fun h => tv_held v !! h = None) (fun h => a_hold h b a) (fun h => tv_hold h b v)); try done.
  - eapply wp_mono; [eapply (bread_spec _ a b d)|].
    + apply R.
    + by eapply lookup_weaken.
    + unfold held_blocks in Hh. by rewrite Eh.
    + right. unfold pinned. rewrite (lr_dirty _ _ _ R), El, Eh, size_union_alt.
      pose proof (subseteq_size (tv_log v ∖ map_img (tv_held v)) (tv_log v) ltac:(set_solver)).
      unfold held_blocks in Hs. lia.
    + intros h b' (Hn & Hr' & Hd & Htr & _). by rewrite <- Eh.
  - intros x. apply R.
  - intros x. simpl. by rewrite Eh.
Qed.

#[local] Instance log_store : TxStore log.
Proof.
  refine {| tx_at := log_at s0 |}.
  - intros s v b d [(a & L & R & Ev & _) Hby _ _ _ _] Hb. pose proof (lookup_weaken _ _ _ _ Hb Ev) as Hb'.
    destruct (ready_vwf _ _ _ R b d Hb') as [? ?]. split_and!; [done|by apply (Hby b)|lia|lia].
  - intros s v A. apply A.
  - intros s v b d A Hb Hh Hs Hl. by eapply log_bread.
  - intros s v h b d [(a & L & R & Ev & Eh & _) _ _ _ _ _] Hh Hb. apply wp_io.
    eapply bp_data_spec; [apply R|by rewrite Eh|by eapply lookup_weaken|]. split; [done|]. by destruct s.
  - intros s v h b d off bytes A Hh Hb Ho Hy. pose proof A as [(a & L & R & Ev & Eh & Em & El) Hby _ _ _ _].
    pose proof (lookup_weaken _ _ _ _ Hb Ev) as Hb'. pose proof (lr_wf _ _ _ R b d Hb') as Hlen.
    eapply wp_mono; [eapply (log_io s v _ a L (fun _ => True) (fun _ => a_setdata b (splice off bytes d) a)
      (fun _ => tv_set b (splice off bytes d) v)); try done|by intros [] s' [_ ?]].
    + eapply wp_mono; [eapply (bput_spec _ a h b d); [apply R|by rewrite Eh|done]|].
      intros [] b' (Hr & Hd & Htr & _). done.
    + intros _ b' d'. simpl. rewrite lookup_insert_Some. intros [[<- <-]|[_ H']].
      * by rewrite length_splice by lia.
      * by eapply (lr_wf _ _ _ R).
    + intros _ b' d'. simpl. rewrite lookup_insert_Some. intros [[<- <-]|[_ H']].
      * apply splice_bytes; [done|]. by apply (Hby b).
      * by apply (Hby b').
    + intros _. simpl. rewrite Eh, Em. split; [by apply insert_mono|done].
  - intros s v h b A Hh Hhome Hc. pose proof A as [(a & L & R & Ev & Eh & Em & El) Hby A3 A4 A5 [F1 F2 F3 F4 F5 F6]].
    assert (size (tv_log v) = length L) as Hsz by (rewrite <- El; by rewrite size_list_to_set by apply R).
    eapply wp_mono; [eapply (log_write_spec s a L h b); [done|by rewrite Eh|rewrite F1, F2, F5; by apply A3|lia|lia]|].
    intros [] s' (R' & Hd & Htr & _ & Hst & Hsi & Hout & Hcom). split; try done; [|split; congruence].
    exists (a_mark b a), (logged b L). simpl. rewrite Eh, Em. split_and!; try done.
    rewrite <- El. unfold logged. case_decide as E; [|rewrite list_to_set_app_L; set_solver].
    apply (elem_of_list_to_set (C:=gset Z)) in E. set_solver.
  - intros s v h b A Hh Hm. pose proof A as [(a & L & R & Ev & Eh & Em & El) Hby _ _ _ _].
    eapply wp_mono; [eapply (log_io s v _ a L (fun _ => True) (fun _ => a_drop h a) (fun _ => tv_drop h v)); try done
      |by intros [] s' [_ ?]].
    + eapply wp_mono; [eapply (brelse_spec _ a h b); [apply R|by rewrite Eh|by rewrite Em]|].
      intros [] b' (Hr & Hd & Htr & _). done.
    + intros _. apply R.
    + intros _. simpl. by rewrite Eh.
Defined.
End store.

(** ** Transactions one after the other *)

#[global] Instance log_tx : TxOps log := {| ts_begin := begin_op; ts_end := end_op |}.

(** The log between transactions (capacity 0), or inside the only one. *)
Definition log_view (s : log) (v : tview) : Prop := exists s0, log_at s0 s v /\
  l_committing s0 = 0 /\ l_outstanding s0 = (if (tv_cap v =? 0)%nat then 0 else 1) /\
  MAXOPBLOCKS <= l_size s0 - 1 /\ forall b, is_Some (tv_blk v !! b) -> b = 1 \/ home (l_start s0) (l_size s0) (d_disk (l_bio s0)) b.

#[global] Instance log_sys : TxStore log.
Proof.
  refine {| tx_at := log_view |}.
  - intros s v b d (s0 & A & _). by apply (@tx_wf log log_ops (log_store s0) s v b d A).
  - intros s v (s0 & A & _). by apply (@tx_room log log_ops (log_store s0) s v A).
  - intros s v b d (s0 & A & E) Hb Hh Hs Hl.
    eapply wp_mono; [by apply (@tx_bread log log_ops (log_store s0) s v b d)|]. intros h s' [? ?]. split; [done|by exists s0].
  - intros s v h b d (s0 & A & E) Hh Hb. by apply (@tx_data log log_ops (log_store s0) s v h b d).
  - intros s v h b d off bytes (s0 & A & E1 & E2 & E3 & E4) Hh Hb Ho Hy.
    eapply wp_mono; [by apply (@tx_put log log_ops (log_store s0) s v h b d off bytes)|].
    intros [] s' ?. exists s0. split_and!; try done. intros b' [x Hx]. simpl in Hx.
    rewrite lookup_insert_Some in Hx. apply E4. destruct Hx as [[<- _]|[_ Hx]]; eauto.
  - intros s v h b (s0 & A & E) Hh Hb Hc.
    eapply wp_mono; [by apply (@tx_log_write log log_ops (log_store s0) s v h b)|]. intros [] s' ?. by exists s0.
  - intros s v h b (s0 & A & E) Hh Hm.
    eapply wp_mono; [by apply (@tx_brelse log log_ops (log_store s0) s v h b)|]. intros [] s' ?. by exists s0.
Defined.

Lemma begin_op_view s v : log_view s v -> tv_cap v = 0%nat -> tv_log v = ∅ ->
  wp begin_op s (fun _ s' => log_view s' (tv_begin v)).
Proof.
  intros (s0 & [(a & L & R & Ev & Eh & Em & El) A2 A3 A4 _ [F1 F2 F3 F4 F5 F6]] & E1 & E2 & E3 & E4) Hc Hl.
  rewrite Hc in E2. simpl in E2. unfold begin_op. wp_step. wp_step.
  assert (L = []) as -> by (destruct L as [|x L]; [done|]; rewrite Hl in El; set_solver).
  rewrite F4, E1, F3, E2, (lr_n _ _ _ R). simpl. wp_step.
  exists (set_outstanding 1 s). split_and!; try done; simpl; rewrite ?F1, ?F2, ?F5; try done; [|congruence].
  split; simpl; rewrite ?F1, ?F2, ?F5; try done; [|split; [done|unfold NBUF; lia]].
  exists a, []. split_and!; try done. by destruct R.
Qed.

Lemma end_op_tview s v : log_view s v -> tv_cap v <> 0%nat -> tv_held v = ∅ ->
  wp end_op s (fun _ s' => log_view s' (tv_end v)).
Proof.
  intros (s0 & [(a & L & R & Ev & Eh & Em & El) A2 A3 A4 _ [F1 F2 F3 F4 F5 F6]] & E1 & E2 & E3 & E4) Hc Hh.
  rewrite (proj2 (Nat.eqb_neq _ _) Hc) in E2. eapply wp_mono; [apply (end_op_spec s a L R); congruence|].
  intros [] s' (a' & ws & [K1 K2 K3 K4 K5] & R' & Ho & Hcm & _ & Hv & _).
  assert (Hhome : forall b, home (l_start s0) (l_size s0) (d_disk (l_bio s0)) b ->
    home (l_start s') (l_size s') (d_disk (l_bio s')) b).
  { intros b. unfold home. rewrite K2, K3, K4, F1, F2, F5. done. }
  exists s'. split_and!; try done; [|congruence|intros b Hb; destruct (E4 b Hb) as [|]; auto].
  split; simpl; try done; [|by intros b Hb; apply Hhome, A3|lia].
  exists a', []. split; [done|]. rewrite K1, Hh. split_and!; try done.
  - apply map_subseteq_spec. intros b d Hb. pose proof (lookup_weaken _ _ _ _ Hb Ev) as Hb'.
    destruct (E4 b ltac:(eauto)) as [->|Hb1]; [by rewrite K5|].
    destruct (Hv b) as [_ ->]; [by rewrite F1, F2, F5|done].
  - pose proof (co_mod _ _ _ (br_cache _ _ (lr_bio _ _ _ R'))) as Hm.
    pose proof (co_mod _ _ _ (br_cache _ _ (lr_bio _ _ _ R))) as Hm0. rewrite <- Em.
    apply set_eq. intros b. split; intros Hb; exfalso.
    + apply Hm in Hb as [i Hi]. by rewrite K1 in Hi.
    + apply Hm0 in Hb as [i Hi]. by rewrite Eh, Hh in Hi.
Qed.

#[global] Instance log_system : TxSystem log.
Proof. split; [exact begin_op_view|exact end_op_tview]. Qed.
