(* ===== verification/Fs.v ===== *)
(** * The file system: [fs.c] and the structures of [fs.h], [file.h] and [stat.h]

    Block allocation, inodes, file contents, directories and paths, over any
    [BlockStore].  The state is the store with the in-core super block and
    inode cache, and the parts of [myproc()] the code reads (its pid and
    current directory).  An inode pointer is its index in [icache.inode].
    [icache.lock] sections are atomic; an [ilock] of an inode that is locked
    gives [Sleep].  Loops that are not counted run on fuel, which the theorems of
    [FsTheorems.v] and [FsNames.v] show to be enough.  The device switch is an argument of
    [readi] and [writei]. *)

From S2P Require Import Prelude Sleeplock Bio Log BlockStore.

(** ** [fs.h], [stat.h], [param.h] *)

Definition ROOTINO : Z := 1.
Definition NDIRECT : Z := 12.
Definition NINDIRECT : Z := 128.                       (* BSIZE / sizeof(uint) *)
Definition MAXFILE : Z := NDIRECT + NINDIRECT.
Definition BLK : Z := Z.of_nat BSIZE.
Definition IPB : Z := 8.                               (* BSIZE / sizeof(struct dinode) *)
Definition BPB : Z := BLK * 8.
Definition DIRSIZ : Z := 14.
Definition NINODE : nat := 50.
Definition NDEV : Z := 10.
Definition T_DIR : Z := 1.
Definition T_FILE : Z := 2.
Definition T_DEV : Z := 3.

Definition IBLOCK (i : Z) (sb : superblock) : Z := u32 (i / IPB + sb_inodestart sb).
Definition BBLOCK (b : Z) (sb : superblock) : Z := u32 (b / BPB + sb_bmapstart sb).

(** [struct dinode], 64 bytes in a block. *)
Record dinode := mkdinode {
  d_type : Z; d_major : Z; d_minor : Z; d_nlink : Z;   (* short *)
  d_size : Z;                                          (* uint *)
  d_addrs : list Z                                     (* uint[NDIRECT+1] *)
}.
Definition get16 (off : nat) (d : block) : Z := i16 (le_val (slice off 2 d)).
Definition dinode_off (inum : Z) : nat := (64 * Z.to_nat (inum mod IPB))%nat.
Definition dec_dinode (o : nat) (d : block) : dinode :=
  mkdinode (get16 o d) (get16 (o + 2) d) (get16 (o + 4) d) (get16 (o + 6) d) (get32 (o + 8) d)
           ((fun k => get32 (o + 12 + 4 * k) d) <$> seq 0 13).
Definition enc_dinode (x : dinode) : list Z :=
  le_bytes 2 (d_type x) ++ le_bytes 2 (d_major x) ++ le_bytes 2 (d_minor x) ++
  le_bytes 2 (d_nlink x) ++ le_bytes 4 (d_size x) ++ mjoin (le_bytes 4 <$> d_addrs x).

(** [struct inode] of [file.h] *)
Record inode := mkinode {
  i_dev : Z; i_inum : Z; i_ref : Z;
  i_lock : sleeplock;
  i_valid : bool;
  i_din : dinode                                       (* copy of disk inode *)
}.
Definition i_type (x : inode) : Z := d_type (i_din x).
Definition i_major (x : inode) : Z := d_major (i_din x).
Definition i_minor (x : inode) : Z := d_minor (i_din x).
Definition i_nlink (x : inode) : Z := d_nlink (i_din x).
Definition i_size (x : inode) : Z := d_size (i_din x).
Definition i_addrs (x : inode) : list Z := d_addrs (i_din x).

Definition set_ref (r : Z) (x : inode) : inode :=
  mkinode (i_dev x) (i_inum x) r (i_lock x) (i_valid x) (i_din x).
Definition set_ilock (l : sleeplock) (x : inode) : inode :=
  mkinode (i_dev x) (i_inum x) (i_ref x) l (i_valid x) (i_din x).
Definition set_valid (v : bool) (x : inode) : inode :=
  mkinode (i_dev x) (i_inum x) (i_ref x) (i_lock x) v (i_din x).
Definition set_din (d : dinode) (x : inode) : inode :=
  mkinode (i_dev x) (i_inum x) (i_ref x) (i_lock x) (i_valid x) d.
Definition din_type (t : Z) (d : dinode) : dinode :=
  mkdinode t (d_major d) (d_minor d) (d_nlink d) (d_size d) (d_addrs d).
Definition din_nlink (n : Z) (d : dinode) : dinode :=
  mkdinode (d_type d) (d_major d) (d_minor d) n (d_size d) (d_addrs d).
Definition din_dev (ma mi : Z) (d : dinode) : dinode :=
  mkdinode (d_type d) ma mi (d_nlink d) (d_size d) (d_addrs d).
Definition din_size (z : Z) (d : dinode) : dinode :=
  mkdinode (d_type d) (d_major d) (d_minor d) (d_nlink d) z (d_addrs d).
Definition din_addr (i : nat) (a : Z) (d : dinode) : dinode :=
  mkdinode (d_type d) (d_major d) (d_minor d) (d_nlink d) (d_size d) (<[i := a]> (d_addrs d)).

Record stat := mkstat { st_type : Z; st_dev : Z; st_ino : Z; st_nlink : Z; st_size : Z }.

(** ** Names *)

(** [strncmp] and [strncpy] of [string.c] on byte strings: a string ends at its
    first null byte. *)
Fixpoint strncmp (n : nat) (p q : list Z) : Z :=
  match n with
  | O => 0
  | S n =>
      let a := default 0 (head p) in
      let b := default 0 (head q) in
      if negb (a =? 0) && (a =? b) then strncmp n (tail p) (tail q) else u8 a - u8 b
  end.
Fixpoint strncpy (n : nat) (t : list Z) : list Z :=
  match n with
  | O => []
  | S n' =>
      let a := default 0 (head t) in
      a :: (if a =? 0 then replicate n' 0 else strncpy n' (tail t))
  end.
Definition namecmp (s t : list Z) : Z := strncmp (Z.to_nat DIRSIZ) s t.

(** [struct dirent]: [ushort inum; char name[DIRSIZ]] *)
Definition sizeof_dirent : Z := 16.
Definition de_inum (de : list Z) : Z := le_val (slice 0 2 de).
Definition de_name (de : list Z) : list Z := slice 2 (Z.to_nat DIRSIZ) de.
Definition mkdirent (inum : Z) (name : list Z) : list Z := le_bytes 2 inum ++ name.

(** A path is the list of its bytes before the null. *)
Definition SLASH : Z := 47.
Fixpoint skip_slashes (p : list Z) : list Z :=
  match p with
  | c :: p' => if c =? SLASH then skip_slashes p' else p
  | [] => []
  end.
Fixpoint span_elem (p : list Z) : list Z * list Z :=
  match p with
  | c :: p' => if c =? SLASH then ([], p) else let '(e, r) := span_elem p' in (c :: e, r)
  | [] => ([], [])
  end.
(** [skipelem(path, name)]: the rest of the path and the new contents of the
    buffer [name]; [None] is the null pointer. *)
Definition skipelem (path name : list Z) : option (list Z * list Z) :=
  match skip_slashes path with
  | [] => None
  | path =>
      let '(e, path) := span_elem path in
      let name :=
        if (Z.to_nat DIRSIZ <=? length e)%nat then splice 0 (take (Z.to_nat DIRSIZ) e) name
        else splice (length e) [0] (splice 0 e name) in
      Some (skip_slashes path, name)
  end.

(** ** The state *)

Record fs (S : Type) := mkfs {
  f_store : S;
  f_sb : superblock;
  f_icache : list inode;
  f_pid : Z;                (* myproc()->pid *)
  f_cwd : nat               (* myproc()->cwd *)
}.
Arguments mkfs {_} _ _ _ _ _.
Arguments f_store {_} _.
Arguments f_sb {_} _.
Arguments f_icache {_} _.
Arguments f_pid {_} _.
Arguments f_cwd {_} _.

Definition set_store {S} (st : S) (s : fs S) : fs S := mkfs st (f_sb s) (f_icache s) (f_pid s) (f_cwd s).
Definition set_sb {S} (b : superblock) (s : fs S) : fs S := mkfs (f_store s) b (f_icache s) (f_pid s) (f_cwd s).
Definition set_icache {S} (l : list inode) (s : fs S) : fs S := mkfs (f_store s) (f_sb s) l (f_pid s) (f_cwd s).

(** The device switch, [devsw[NDEV]]: the functions of a major number, each
    possibly null. *)
Record devops (S : Type) := mkdevops {
  dv_read : option (nat -> Z -> KM (fs S) (Z * list Z));
  dv_write : option (nat -> list Z -> Z -> KM (fs S) Z)
}.
Arguments mkdevops {_} _ _.
Arguments dv_read {_} _.
Arguments dv_write {_} _.

Section fs.
Context {S : Type} `{BlockStore S}.
Context (devsw : Z -> devops S).

Definition st {A} (m : KM S A) : KM (fs S) A := zoom f_store set_store m.

Definition get_ip (ip : nat) : KM (fs S) inode := fun s =>
  match f_icache s !! ip with
  | Some x => Done x s
  | None => Fault "inode"
  end.
Definition upd_ip (ip : nat) (f : inode -> inode) : KM (fs S) unit :=
  kmodify (fun s => set_icache (alter f ip (f_icache s)) s).
(** A sleep-lock routine on [ip->lock]. *)
Definition ip_lock {A} (ip : nat) (m : KM sleeplock A) : KM (fs S) A := fun s =>
  match f_icache s !! ip with
  | None => Fault "inode"
  | Some x =>
      match m (i_lock x) with
      | Done a l => Done a (set_icache (alter (set_ilock l) ip (f_icache s)) s)
      | Panic e => Panic e
      | Sleep c => Sleep c
      | Fault e => Fault e
      end
  end.

(** ** Blocks *)

Definition readsb (dev : Z) : KM (fs S) unit :=
  bp ← st (bs_bread dev 1);
  d ← st (bs_data bp);
  kmodify (set_sb (dec_sb d));;
  st (bs_brelse bp).

Definition bzero (dev bno : Z) : KM (fs S) unit :=
  bp ← st (bs_bread dev bno);
  st (bs_put bp 0 (replicate BSIZE 0));;
  st (bs_log_write bp);;
  st (bs_brelse bp).

(** [bp->data[bi/8]] and the mask [1 << (bi % 8)] *)
Definition map_byte (d : block) (bi : Z) : Z := nth (Z.to_nat (bi / 8)) d 0.
Definition map_mask (bi : Z) : Z := Z.shiftl 1 (bi mod 8).
Definition map_used (d : block) (bi : Z) : bool := negb (Z.land (map_byte d bi) (map_mask bi) =? 0).

(** The inner loop of [balloc], from bit [bi] of the map block of [b]. *)
Fixpoint scan_map (d : block) (b size bi : Z) (n : nat) : option Z :=
  match n with
  | O => None
  | Datatypes.S n =>
      if (bi <? BPB) && (u32 (b + bi) <? size) then
        if map_used d bi then scan_map d b size (bi + 1) n else Some bi
      else None
  end.
Fixpoint balloc_from (fuel : nat) (dev b : Z) : KM (fs S) Z :=
  match fuel with
  | O => fault "balloc"
  | Datatypes.S fuel =>
      sb ← kgets f_sb;
      if u32 b <? sb_size sb then
        bp ← st (bs_bread dev (BBLOCK b sb));
        d ← st (bs_data bp);
        match scan_map d b (sb_size sb) 0 (Z.to_nat BPB) with
        | Some bi =>
            st (bs_put bp (Z.to_nat (bi / 8)) [Z.lor (map_byte d bi) (map_mask bi)]);;
            st (bs_log_write bp);;
            st (bs_brelse bp);;
            bzero dev (b + bi);;
            mret (u32 (b + bi))
        | None =>
            st (bs_brelse bp);;
            balloc_from fuel dev (b + BPB)
        end
      else panic "balloc: out of blocks"
  end.
Definition balloc (dev : Z) : KM (fs S) Z :=
  sb ← kgets f_sb;
  balloc_from (Z.to_nat (sb_size sb / BPB + 2)) dev 0.

Definition bfree (dev b : Z) : KM (fs S) unit :=
  readsb dev;;
  sb ← kgets f_sb;
  bp ← st (bs_bread dev (BBLOCK b sb));
  let bi := b mod BPB in
  d ← st (bs_data bp);
  if negb (map_used d bi) then panic "freeing free block" else
  st (bs_put bp (Z.to_nat (bi / 8)) [Z.ldiff (map_byte d bi) (map_mask bi)]);;
  st (bs_log_write bp);;
  st (bs_brelse bp).

(** ** Inodes *)

Definition iinit (dev : Z) : KM (fs S) unit :=
  kmodify (fun s => set_icache (set_ilock initsleeplock <$> f_icache s) s);;
  readsb dev.

(** The search of [iget]: the entry of [(dev, inum)], or the first free one. *)
Fixpoint icache_find (l : list inode) (dev inum : Z) (i : nat) (empty : option nat) : bool * option nat :=
  match l with
  | [] => (false, empty)
  | x :: l =>
      if (0 <? i_ref x) && (i_dev x =? dev) && (i_inum x =? inum) then (true, Some i)
      else
        let empty := match empty with
          | None => if i_ref x =? 0 then Some i else None
          | e => e
          end in
        icache_find l dev inum (Datatypes.S i) empty
  end.
Definition iget (dev inum : Z) : KM (fs S) nat :=
  s ← kget;
  match icache_find (f_icache s) dev inum 0 None with
  | (true, Some ip) => upd_ip ip (fun x => set_ref (i_ref x + 1) x);; mret ip
  | (_, None) => panic "iget: no inodes"
  | (false, Some ip) =>
      upd_ip ip (fun x => mkinode dev inum 1 (i_lock x) false (i_din x));; mret ip
  end.

Fixpoint ialloc_from (fuel : nat) (dev type inum : Z) : KM (fs S) nat :=
  match fuel with
  | O => fault "ialloc"
  | Datatypes.S fuel =>
      sb ← kgets f_sb;
      if inum <? sb_ninodes sb then
        bp ← st (bs_bread dev (IBLOCK inum sb));
        d ← st (bs_data bp);
        let o := dinode_off inum in
        if d_type (dec_dinode o d) =? 0 then
          st (bs_put bp o (replicate 64 0));;
          st (bs_put bp o (le_bytes 2 type));;
          st (bs_log_write bp);;
          st (bs_brelse bp);;
          iget dev inum
        else
          st (bs_brelse bp);;
          ialloc_from fuel dev type (inum + 1)
      else panic "ialloc: no inodes"
  end.
Definition ialloc (dev type : Z) : KM (fs S) nat :=
  sb ← kgets f_sb;
  ialloc_from (Z.to_nat (sb_ninodes sb) + 1) dev type 1.

Definition iupdate (ip : nat) : KM (fs S) unit :=
  x ← get_ip ip;
  sb ← kgets f_sb;
  bp ← st (bs_bread (i_dev x) (IBLOCK (i_inum x) sb));
  st (bs_put bp (dinode_off (i_inum x)) (enc_dinode (i_din x)));;
  st (bs_log_write bp);;
  st (bs_brelse bp).

Definition idup (ip : nat) : KM (fs S) nat :=
  upd_ip ip (fun x => set_ref (i_ref x + 1) x);; mret ip.

Definition ilock (ip : nat) : KM (fs S) unit :=
  x ← get_ip ip;
  if i_ref x <? 1 then panic "ilock" else
  s ← kget;
  ip_lock ip (acquiresleep (f_pid s));;
  x ← get_ip ip;
  if i_valid x then mret tt
  else
    bp ← st (bs_bread (i_dev x) (IBLOCK (i_inum x) (f_sb s)));
    d ← st (bs_data bp);
    upd_ip ip (set_din (dec_dinode (dinode_off (i_inum x)) d));;
    st (bs_brelse bp);;
    upd_ip ip (set_valid true);;
    x ← get_ip ip;
    if i_type x =? 0 then panic "ilock: no type" else mret tt.

Definition iunlock (ip : nat) : KM (fs S) unit :=
  x ← get_ip ip;
  h ← ip_lock ip holdingsleep;
  if negb h || (i_ref x <? 1) then panic "iunlock" else
  ip_lock ip releasesleep.

(** ** Contents *)

Definition get_addr (i : nat) (x : inode) : KM (fs S) Z :=
  match i_addrs x !! i with Some a => mret a | None => fault "addrs" end.

Definition bmap (ip : nat) (bn : Z) : KM (fs S) Z :=
  x ← get_ip ip;
  if bn <? NDIRECT then
    addr ← get_addr (Z.to_nat bn) x;
    if addr =? 0 then
      addr ← balloc (i_dev x);
      upd_ip ip (fun x => set_din (din_addr (Z.to_nat bn) addr (i_din x)) x);;
      mret addr
    else mret addr
  else
    let bn := bn - NDIRECT in
    if bn <? NINDIRECT then
      addr ← get_addr (Z.to_nat NDIRECT) x;
      addr ← (if addr =? 0 then
                addr ← balloc (i_dev x);
                upd_ip ip (fun x => set_din (din_addr (Z.to_nat NDIRECT) addr (i_din x)) x);;
                mret addr
              else mret addr);
      bp ← st (bs_bread (i_dev x) addr);
      d ← st (bs_data bp);
      let addr := get32 (Z.to_nat (4 * bn)) d in
      addr ← (if addr =? 0 then
                addr ← balloc (i_dev x);
                st (bs_put bp (Z.to_nat (4 * bn)) (put32 addr));;
                st (bs_log_write bp);;
                mret addr
              else mret addr);
      st (bs_brelse bp);;
      mret addr
    else panic "bmap: out of range".

Definition itrunc (ip : nat) : KM (fs S) unit :=
  kfor 0 (Z.to_nat NDIRECT) (fun i =>
    x ← get_ip ip;
    a ← get_addr i x;
    if a =? 0 then mret tt
    else
      bfree (i_dev x) a;;
      upd_ip ip (fun x => set_din (din_addr i 0 (i_din x)) x));;
  x ← get_ip ip;
  ind ← get_addr (Z.to_nat NDIRECT) x;
  (if ind =? 0 then mret tt
   else
     bp ← st (bs_bread (i_dev x) ind);
     kfor 0 (Z.to_nat NINDIRECT) (fun j =>
       d ← st (bs_data bp);
       let a := get32 (4 * j) d in
       if a =? 0 then mret tt else bfree (i_dev x) a);;
     st (bs_brelse bp);;
     bfree (i_dev x) ind;;
     upd_ip ip (fun x => set_din (din_addr (Z.to_nat NDIRECT) 0 (i_din x)) x));;
  upd_ip ip (fun x => set_din (din_size 0 (i_din x)) x);;
  iupdate ip.

Definition iput (ip : nat) : KM (fs S) unit :=
  s ← kget;
  ip_lock ip (acquiresleep (f_pid s));;
  x ← get_ip ip;
  (if i_valid x && (i_nlink x =? 0) then
     if i_ref x =? 1 then
       itrunc ip;;
       upd_ip ip (fun x => set_din (din_type 0 (i_din x)) x);;
       iupdate ip;;
       upd_ip ip (set_valid false)
     else mret tt
   else mret tt);;
  ip_lock ip releasesleep;;
  upd_ip ip (fun x => set_ref (i_ref x - 1) x).

Definition iunlockput (ip : nat) : KM (fs S) unit :=
  iunlock ip;; iput ip.

Definition stati (ip : nat) : KM (fs S) stat :=
  x ← get_ip ip;
  mret (mkstat (i_type x) (i_dev x) (i_inum x) (i_nlink x) (i_size x)).

(** [min(n - tot, BSIZE - off % BSIZE)] *)
Definition chunk (n tot off : Z) : Z := Z.min (n - tot) (BLK - off mod BLK).

Fixpoint read_blocks (fuel : nat) (ip : nat) (dev off n tot : Z) : KM (fs S) (list Z) :=
  match fuel with
  | O => fault "readi"
  | Datatypes.S fuel =>
      if tot <? n then
        addr ← bmap ip (off / BLK);
        bp ← st (bs_bread dev addr);
        let m := chunk n tot off in
        d ← st (bs_data bp);
        st (bs_brelse bp);;
        rest ← read_blocks fuel ip dev (u32 (off + m)) n (tot + m);
        mret (slice (Z.to_nat (off mod BLK)) (Z.to_nat m) d ++ rest)
      else mret []
  end.

(** How many blocks [n] bytes can touch. *)
Definition max_blocks (n : Z) : nat := Z.to_nat (n / BLK + 3).

(** [readi(ip, dst, off, n)]: the result and the bytes stored at [dst]. *)
Definition readi (ip : nat) (off n : Z) : KM (fs S) (Z * list Z) :=
  x ← get_ip ip;
  if i_type x =? T_DEV then
    if (i_major x <? 0) || (NDEV <=? i_major x) then mret (-1, [])
    else match dv_read (devsw (i_major x)) with
         | None => mret (-1, [])
         | Some f => f ip (i32 n)
         end
  else if (i_size x <? off) || (u32 (off + n) <? off) then mret (-1, [])
  else
    let n := if i_size x <? u32 (off + n) then u32 (i_size x - off) else n in
    l ← read_blocks (max_blocks n) ip (i_dev x) off n 0;
    mret (i32 n, l).

Fixpoint write_blocks (fuel : nat) (ip : nat) (dev : Z) (src : list Z) (off n tot : Z) : KM (fs S) Z :=
  match fuel with
  | O => fault "writei"
  | Datatypes.S fuel =>
      if tot <? n then
        addr ← bmap ip (off / BLK);
        bp ← st (bs_bread dev addr);
        let m := chunk n tot off in
        st (bs_put bp (Z.to_nat (off mod BLK)) (slice (Z.to_nat tot) (Z.to_nat m) src));;
        st (bs_log_write bp);;
        st (bs_brelse bp);;
        write_blocks fuel ip dev src (u32 (off + m)) n (tot + m)
      else mret off
  end.

(** [writei(ip, src, off, n)] *)
Definition writei (ip : nat) (src : list Z) (off n : Z) : KM (fs S) Z :=
  x ← get_ip ip;
  if i_type x =? T_DEV then
    if (i_major x <? 0) || (NDEV <=? i_major x) then mret (-1)
    else match dv_write (devsw (i_major x)) with
         | None => mret (-1)
         | Some f => f ip src (i32 n)
         end
  else if (i_size x <? off) || (u32 (off + n) <? off) then mret (-1)
  else if MAXFILE * BLK <? u32 (off + n) then mret (-1)
  else
    off ← write_blocks (max_blocks n) ip (i_dev x) src off n 0;
    x ← get_ip ip;
    (if (0 <? n) && (i_size x <? off) then
       upd_ip ip (fun x => set_din (din_size off (i_din x)) x);;
       iupdate ip
     else mret tt);;
    mret (i32 n).

(** ** Directories *)

(** Read the directory entry at [off]; [msg] is the panic message. *)
Definition read_dirent (msg : string) (dp : nat) (off : Z) : KM (fs S) (list Z) :=
  r ← readi dp off sizeof_dirent;
  if negb (r.1 =? sizeof_dirent) then panic msg else mret r.2.

Fixpoint dirlookup_from (fuel : nat) (dp : nat) (name : list Z) (off : Z) : KM (fs S) (option (nat * Z)) :=
  match fuel with
  | O => fault "dirlookup"
  | Datatypes.S fuel =>
      x ← get_ip dp;
      if off <? i_size x then
        de ← read_dirent "dirlookup read" dp off;
        if de_inum de =? 0 then dirlookup_from fuel dp name (u32 (off + sizeof_dirent))
        else if namecmp name (de_name de) =? 0 then
          ip ← iget (i_dev x) (de_inum de);
          mret (Some (ip, off))
        else dirlookup_from fuel dp name (u32 (off + sizeof_dirent))
      else mret None
  end.
(** [dirlookup(dp, name, &poff)] *)
Definition dirlookup (dp : nat) (name : list Z) : KM (fs S) (option (nat * Z)) :=
  x ← get_ip dp;
  if negb (i_type x =? T_DIR) then panic "dirlookup not DIR" else
  dirlookup_from (Z.to_nat (i_size x / sizeof_dirent + 2)) dp name 0.

(** The loop of [dirlink] that looks for a free entry. *)
Fixpoint free_dirent (fuel : nat) (dp : nat) (off : Z) : KM (fs S) Z :=
  match fuel with
  | O => fault "dirlink"
  | Datatypes.S fuel =>
      x ← get_ip dp;
      if u32 off <? i_size x then
        de ← read_dirent "dirlink read" dp off;
        if de_inum de =? 0 then mret off else free_dirent fuel dp (off + sizeof_dirent)
      else mret off
  end.
Definition dirlink (dp : nat) (name : list Z) (inum : Z) : KM (fs S) Z :=
  r ← dirlookup dp name;
  match r with
  | Some (ip, _) => iput ip;; mret (-1)
  | None =>
      x ← get_ip dp;
      off ← free_dirent (Z.to_nat (i_size x / sizeof_dirent + 2)) dp 0;
      let de := mkdirent inum (strncpy (Z.to_nat DIRSIZ) name) in
      w ← writei dp de off sizeof_dirent;
      if negb (w =? sizeof_dirent) then panic "dirlink" else mret 0
  end.

(** ** Paths *)

Fixpoint namex_walk (fuel : nat) (ip : nat) (path name : list Z) (parent : bool)
    : KM (fs S) (option nat * list Z) :=
  match fuel with
  | O => fault "namex"
  | Datatypes.S fuel =>
      match skipelem path name with
      | None => if parent then iput ip;; mret (None, name) else mret (Some ip, name)
      | Some (path, name) =>
          ilock ip;;
          x ← get_ip ip;
          if negb (i_type x =? T_DIR) then iunlockput ip;; mret (None, name)
          else if parent && bool_decide (path = []) then iunlock ip;; mret (Some ip, name)
          else
            r ← dirlookup ip name;
            match r with
            | None => iunlockput ip;; mret (None, name)
            | Some (next, _) => iunlockput ip;; namex_walk fuel next path name parent
            end
      end
  end.
Definition namex (path : list Z) (parent : bool) (name : list Z) : KM (fs S) (option nat * list Z) :=
  s ← kget;
  ip ← (if bool_decide (head path = Some SLASH) then iget ROOTDEV ROOTINO else idup (f_cwd s));
  namex_walk (length path + 1) ip path name parent.
Definition namei (path : list Z) : KM (fs S) (option nat) :=
  r ← namex path false (replicate (Z.to_nat DIRSIZ) 0); mret r.1.
Definition nameiparent (path name : list Z) : KM (fs S) (option nat * list Z) :=
  namex path true name.
End fs.
