(* ===== verification/FsBlocks.v ===== *)
(** * The block allocator of [fs.c]: specification of [balloc] and [bfree]

    [used] reads the free map out of the blocks; [balloc] returns a block that
    was free, marks it and zeroes it, [bfree] gives a used block back, and
    neither touches any other block.  The free map never hands out a block of
    the metadata area. *)

From S2P Require Import Prelude Sleeplock Bio Log LogSpec BlockStore Fs.

(** ** Bits of the map *)

Lemma map_used_bit d bi : map_used d bi = Z.testbit (map_byte d bi) (bi mod 8).
Proof.
  unfold map_used, map_mask. rewrite land_bit_eq by (apply Z.mod_pos_bound; lia). apply negb_involutive.
Qed.

Lemma byte_of_bits z : (forall k, 8 <= k -> Z.testbit z k = false) -> is_byte z.
Proof.
  intros H. assert (z = z mod 2 ^ 8) as ->; [|apply Z.mod_pos_bound; lia].
  rewrite <- Z.land_ones by lia. apply Z.bits_inj'. intros n Hn. rewrite Z.land_spec.
  destruct (Z_lt_le_dec n 8).
  - by rewrite Z.ones_spec_low, andb_true_r by lia.
  - by rewrite H.
Qed.
Lemma byte_bits z k : is_byte z -> 8 <= k -> Z.testbit z k = false.
Proof.
  intros Hz Hk. unfold is_byte in Hz. replace z with (z mod 2 ^ 8) by (apply Z.mod_small; lia).
  apply Z.mod_pow2_bits_high. lia.
Qed.
Lemma byte_lor x k : is_byte x -> 0 <= k < 8 -> is_byte (Z.lor x (Z.shiftl 1 k)).
Proof.
  intros Hx Hk. apply byte_of_bits. intros n Hn.
  rewrite Z.lor_spec, (byte_bits x), Z.shiftl_1_l, Z.pow2_bits_false by (done || lia). done.
Qed.
Lemma byte_ldiff x k : is_byte x -> is_byte (Z.ldiff x (Z.shiftl 1 k)).
Proof. intros Hx. apply byte_of_bits. intros n Hn. by rewrite Z.ldiff_spec, (byte_bits x). Qed.

Lemma nth_splice1 (d : block) i j y : (i < length d)%nat ->
  nth j (splice i [y] d) 0 = if decide (j = i) then y else nth j d 0.
Proof.
  intros Hi. rewrite !nth_lookup. destruct (decide (j = i)) as [->|Hj].
  - rewrite splice_lookup_in by (simpl; lia). by rewrite Nat.sub_diag.
  - rewrite splice_lookup_out by (simpl; lia). done.
Qed.

Lemma map_index bi : 0 <= bi < BPB -> (Z.to_nat (bi / 8) < BSIZE)%nat /\ 0 <= bi mod 8 < 8.
Proof.
  intros Hbi. split; [|apply Z.mod_pos_bound; lia].
  assert (0 <= bi / 8 < 512) by (split; [apply Z.div_pos|apply Z.div_lt_upper_bound]; unfold BPB, BLK, BSIZE in *; lia).
  unfold BSIZE. lia.
Qed.

Section map_bits.
Context (d : block) (bi : Z).
Hypothesis (Hl : length d = BSIZE) (Hbi : 0 <= bi < BPB).

(** A bit changed by an update of its byte with [f]. *)
Lemma map_used_update f b' : 0 <= b' < BPB ->
  (forall k, 0 <= k -> k <> bi mod 8 -> Z.testbit (f (map_byte d bi)) k = Z.testbit (map_byte d bi) k) ->
  map_used (splice (Z.to_nat (bi / 8)) [f (map_byte d bi)] d) b' =
    if decide (b' = bi) then Z.testbit (f (map_byte d bi)) (bi mod 8) else map_used d b'.
Proof.
  intros Hb' Hf. destruct (map_index bi Hbi) as [Hi Hm]. rewrite !map_used_bit. unfold map_byte at 1.
  rewrite nth_splice1 by (rewrite Hl; done).
  pose proof (Z.div_mod b' 8). pose proof (Z.div_mod bi 8). pose proof (Z.mod_pos_bound b' 8).
  assert (0 <= b' / 8) by (apply Z.div_pos; lia). assert (0 <= bi / 8) by (apply Z.div_pos; lia).
  destruct (decide (b' = bi)) as [->|Hne]; [by rewrite decide_True|].
  case_decide as E; [|done].
  assert (b' / 8 = bi / 8) as E' by lia. rewrite Hf by lia. unfold map_byte. by rewrite E'.
Qed.
Lemma map_used_set b' : 0 <= b' < BPB ->
  map_used (splice (Z.to_nat (bi / 8)) [Z.lor (map_byte d bi) (map_mask bi)] d) b' =
    if decide (b' = bi) then true else map_used d b'.
Proof.
  intros Hb'. destruct (map_index bi Hbi) as [_ Hm].
  rewrite (map_used_update (fun x => Z.lor x (map_mask bi))) by
    (done || (intros k Hk Hne; unfold map_mask; rewrite Z.lor_spec, Z.shiftl_1_l, Z.pow2_bits_eqb by lia;
      rewrite (proj2 (Z.eqb_neq _ _)) by done; apply orb_false_r)).
  case_decide; [|done]. unfold map_mask. rewrite Z.lor_spec, Z.shiftl_1_l, Z.pow2_bits_true by lia.
  apply orb_true_r.
Qed.
Lemma map_used_clear b' : 0 <= b' < BPB ->
  map_used (splice (Z.to_nat (bi / 8)) [Z.ldiff (map_byte d bi) (map_mask bi)] d) b' =
    if decide (b' = bi) then false else map_used d b'.
Proof.
  intros Hb'. destruct (map_index bi Hbi) as [_ Hm].
  rewrite (map_used_update (fun x => Z.ldiff x (map_mask bi))) by
    (done || (intros k Hk Hne; unfold map_mask; rewrite Z.ldiff_spec, Z.shiftl_1_l, Z.pow2_bits_eqb by lia;
      rewrite (proj2 (Z.eqb_neq _ _)) by done; apply andb_true_r)).
  case_decide; [|done]. unfold map_mask. rewrite Z.ldiff_spec, Z.shiftl_1_l, Z.pow2_bits_true by lia.
  apply andb_false_r.
Qed.
End map_bits.

(** The first clear bit, in range. *)
Lemma scan_map_spec d b size n : forall bi, 0 <= bi -> 0 <= b -> b + BPB < 2 ^ 32 ->
  match scan_map d b size bi n with
  | Some r => bi <= r < BPB /\ b + r < size /\ map_used d r = false /\
              (forall k, bi <= k < r -> map_used d k = true)
  | None => forall k, bi <= k < bi + Z.of_nat n -> k < BPB -> b + k < size -> map_used d k = true
  end.
Proof.
  induction n as [|n IH]; intros bi Hbi Hb Hlt; cbn [scan_map]; [intros k; lia|].
  destruct (Z.ltb_spec bi BPB); cbn [andb]; [|intros k; lia].
  rewrite u32_id by lia. destruct (Z.ltb_spec (b + bi) size); [|intros k; lia].
  destruct (map_used d bi) eqn:E.
  - specialize (IH (bi + 1) ltac:(lia) Hb Hlt). destruct (scan_map d b size (bi + 1) n) as [r|].
    + destruct IH as (? & ? & ? & HI). split_and!; try done; try lia.
      intros k Hk. destruct (Z.eq_dec k bi) as [->|]; [done|apply HI; lia].
    + intros k Hk ? ?. destruct (Z.eq_dec k bi) as [->|]; [done|apply IH; lia].
  - split_and!; try done; try lia.
Qed.

(** ** The layout of the disk *)

(** The first block after the free map: everything below is metadata. *)
Definition meta_end (sb : superblock) : Z := sb_bmapstart sb + (sb_size sb - 1) / BPB + 1.
Definition is_map (sb : superblock) (b : Z) : Prop := sb_bmapstart sb <= b < meta_end sb.

Record layout (sb : superblock) : Prop := mk_layout {
  ly_size : 0 < sb_size sb < 2 ^ 30;
  ly_inodestart : 2 <= sb_inodestart sb;
  ly_ninodes : 0 < sb_ninodes sb;
  ly_inodes : sb_inodestart sb + (sb_ninodes sb - 1) / IPB < sb_bmapstart sb;
  ly_map : meta_end sb <= sb_size sb
}.

(** Is block [b] marked in the free map? *)
Definition used (v : tview) (sb : superblock) (b : Z) : bool :=
  match tv_blk v !! BBLOCK b sb with
  | Some d => map_used d (b mod BPB)
  | None => true
  end.
Definition free_blocks (v : tview) (sb : superblock) : gset Z :=
  filter (fun b => used v sb b = false) (list_to_set (seqZ 0 (sb_size sb))).

Record fs_inv (v : tview) (sb : superblock) : Prop := mk_fs_inv {
  fi_layout : layout sb;
  fi_dom : forall b, sb_inodestart sb <= b < sb_size sb -> is_Some (tv_blk v !! b);
  fi_home : forall b, sb_inodestart sb <= b < sb_size sb -> b ∈ tv_home v;
  fi_sb : exists d, tv_blk v !! 1 = Some d /\ dec_sb d = sb;
  fi_meta : forall b, 0 <= b < meta_end sb -> used v sb b = true
}.

Section geometry.
Context (sb : superblock).
Hypothesis L : layout sb.

Lemma bblock_eq b : 0 <= b < sb_size sb -> BBLOCK b sb = b / BPB + sb_bmapstart sb.
Proof.
  intros Hb. destruct L. unfold BBLOCK. apply u32_id.
  assert (0 <= b / BPB) by (apply Z.div_pos; unfold BPB, BLK, BSIZE; lia).
  assert (b / BPB <= b) by (apply Z.div_le_upper_bound; unfold BPB, BLK, BSIZE; lia).
  unfold meta_end in *. assert (0 <= (sb_size sb - 1) / BPB) by (apply Z.div_pos; unfold BPB, BLK, BSIZE; lia).
  assert (0 <= (sb_ninodes sb - 1) / IPB) by (apply Z.div_pos; unfold IPB; lia). lia.
Qed.
Lemma bblock_map b : 0 <= b < sb_size sb -> is_map sb (BBLOCK b sb).
Proof.
  intros Hb. rewrite bblock_eq by done. unfold is_map, meta_end.
  assert (0 <= b / BPB) by (apply Z.div_pos; unfold BPB, BLK, BSIZE; lia).
  assert (b / BPB <= (sb_size sb - 1) / BPB) by (apply Z.div_le_mono; unfold BPB, BLK, BSIZE; lia). lia.
Qed.
Lemma map_range b : is_map sb b -> sb_inodestart sb <= b < sb_size sb /\ 2 <= b < meta_end sb.
Proof.
  destruct L. unfold is_map, meta_end in *.
  assert (0 <= (sb_ninodes sb - 1) / IPB) by (apply Z.div_pos; unfold IPB; lia). lia.
Qed.
Lemma iblock_eq i : 0 <= i < sb_ninodes sb ->
  IBLOCK i sb = i / IPB + sb_inodestart sb /\ sb_inodestart sb <= IBLOCK i sb < sb_bmapstart sb.
Proof.
  intros Hi. destruct L. unfold meta_end in *.
  assert (0 <= i / IPB) by (apply Z.div_pos; unfold IPB; lia).
  assert (i / IPB <= (sb_ninodes sb - 1) / IPB) by (apply Z.div_le_mono; unfold IPB; lia).
  assert (0 <= (sb_size sb - 1) / BPB) by (apply Z.div_pos; unfold BPB, BLK, BSIZE; lia).
  unfold IBLOCK. rewrite u32_id by lia. lia.
Qed.
Lemma meta_pos : 2 <= sb_inodestart sb < meta_end sb.
Proof.
  destruct L. unfold meta_end in *.
  assert (0 <= (sb_size sb - 1) / BPB) by (apply Z.div_pos; unfold BPB, BLK, BSIZE; lia).
  assert (0 <= (sb_ninodes sb - 1) / IPB) by (apply Z.div_pos; unfold IPB; lia). lia.
Qed.
End geometry.

(** [used] after the map block of [b] was rewritten with bit [b] set to [x]. *)
Lemma used_put v sb b x d d' : layout sb -> 0 <= b < sb_size sb -> tv_blk v !! BBLOCK b sb = Some d ->
  (forall k, 0 <= k < BPB -> map_used d' k = if decide (k = b mod BPB) then x else map_used d k) ->
  forall b', 0 <= b' < sb_size sb ->
  used (tv_put (BBLOCK b sb) d' v) sb b' = if decide (b' = b) then x else used v sb b'.
Proof.
  intros L Hb Hd Hd' b' Hb'. unfold used. simpl. rewrite !bblock_eq by done.
  pose proof (Z.div_mod b BPB ltac:(done)). pose proof (Z.div_mod b' BPB ltac:(done)).
  pose proof (Z.mod_pos_bound b' BPB ltac:(done)).
  destruct (decide (b' / BPB = b / BPB)) as [E|E].
  - rewrite E, lookup_insert_eq, Hd' by done. rewrite bblock_eq in Hd by done. rewrite Hd.
    destruct (decide (b' = b)) as [->|Hne]; [by rewrite decide_True|].
    rewrite decide_False; [done|]. intros E2. apply Hne. rewrite E, E2 in *. lia.
  - rewrite lookup_insert_ne by lia. rewrite decide_False by congruence. done.
Qed.
(** ... and after a block that is no map block was. *)
Lemma used_data v sb b d b' : layout sb -> 0 <= b' < sb_size sb -> ~ is_map sb b ->
  used (tv_put b d v) sb b' = used v sb b'.
Proof.
  intros L Hb' Hm. unfold used. simpl. rewrite lookup_insert_ne; [done|].
  intros ->. by apply Hm, bblock_map.
Qed.
Lemma used_ext v v' sb : tv_blk v = tv_blk v' -> forall b, used v sb b = used v' sb b.
Proof. intros E b. unfold used. by rewrite E. Qed.

(** ** The store's laws, lifted *)

(** Bounds every operation starts from: no buffer modified and unlogged, few
    held, room in the transaction for [k] more blocks. *)
Definition ready (v : tview) (held k : nat) : Prop :=
  tv_mod v = ∅ /\ (size (held_blocks v) <= held)%nat /\ (size (tv_log v) + k <= tv_cap v)%nat.

Lemma size_add_le (b : Z) (X : gset Z) : (size ({[b]} ∪ X) <= 1 + size X)%nat.
Proof. rewrite size_union_alt, size_singleton. pose proof (subseteq_size (X ∖ {[b]}) X). set_solver by lia. Qed.

Lemma ready_put v b d h k : ready v h (S k) -> ready (tv_put b d v) h k.
Proof.
  intros (Hm & Hh & Hl). split; [done|]. split; [exact Hh|]. simpl.
  pose proof (size_add_le b (tv_log v)). lia.
Qed.
Lemma ready_weaken v h h' k k' : ready v h k -> (h <= h')%nat -> (k' <= k)%nat -> ready v h' k'.
Proof. intros (Hm & Hh & Hl) H1 H2. repeat split; [done|lia..]. Qed.


Section lifted.
Context {S : Type} `{TxStore S}.
Implicit Types (s : fs S) (v : tview).

Lemma st_bread s v b d k (Q : nat -> fs S -> Prop) :
  tx_at (f_store s) v -> ready v 2 k -> tv_blk v !! b = Some d -> b ∉ held_blocks v ->
  (forall h t, tv_held v !! h = None -> tx_at t (tv_hold h b v) -> Q h (set_store t s)) ->
  wp (st (bs_bread ROOTDEV b)) s Q.
Proof.
  intros Ha (_ & Hh & Hl) Hb Hn HQ. apply wp_zoom. eapply wp_mono; [eapply tx_bread; eauto; lia|].
  intros h t [Hf Ht]. auto.
Qed.
Lemma st_data s v h b d (Q : block -> fs S -> Prop) :
  tx_at (f_store s) v -> tv_held v !! h = Some b -> tv_blk v !! b = Some d -> Q d s ->
  wp (st (bs_data h)) s Q.
Proof.
  intros Ha Hh Hb HQ. apply wp_zoom. eapply wp_mono; [by eapply tx_data|].
  intros x t [-> ->]. by destruct s.
Qed.
Lemma st_put s v h b d off bytes (Q : unit -> fs S -> Prop) :
  tx_at (f_store s) v -> tv_held v !! h = Some b -> tv_blk v !! b = Some d ->
  (off + length bytes <= BSIZE)%nat -> Forall is_byte bytes ->
  (forall t, tx_at t (tv_set b (splice off bytes d) v) -> Q tt (set_store t s)) ->
  wp (st (bs_put h off bytes)) s Q.
Proof.
  intros Ha Hh Hb Ho Hy HQ. apply wp_zoom. eapply wp_mono; [by eapply tx_put|]. intros [] t Ht. auto.
Qed.
Lemma st_log_write s v h b (Q : unit -> fs S -> Prop) :
  tx_at (f_store s) v -> tv_held v !! h = Some b -> b ∈ tv_home v -> (size (tv_log v) < tv_cap v)%nat ->
  (forall t, tx_at t (tv_mark b v) -> Q tt (set_store t s)) ->
  wp (st (bs_log_write h)) s Q.
Proof.
  intros Ha Hh Hb Hc HQ. apply wp_zoom. eapply wp_mono; [by eapply tx_log_write|]. intros [] t Ht. auto.
Qed.
Lemma st_brelse s v h b (Q : unit -> fs S -> Prop) :
  tx_at (f_store s) v -> tv_held v !! h = Some b -> b ∉ tv_mod v ->
  (forall t, tx_at t (tv_drop h v) -> Q tt (set_store t s)) ->
  wp (st (bs_brelse h)) s Q.
Proof.
  intros Ha Hh Hb HQ. apply wp_zoom. eapply wp_mono; [by eapply tx_brelse|]. intros [] t Ht. auto.
Qed.

(** The end of every update: [bp->data[off...] = bytes; log_write(bp); brelse(bp)]. *)
Lemma st_finish s v h b d k off bytes (Q : unit -> fs S -> Prop) :
  tv_held v !! h = None -> tx_at (f_store s) (tv_hold h b v) -> ready v 2 (Datatypes.S k) ->
  tv_blk v !! b = Some d -> b ∈ tv_home v -> (off + length bytes <= BSIZE)%nat -> Forall is_byte bytes ->
  (forall t, tx_at t (tv_put b (splice off bytes d) v) -> Q tt (set_store t s)) ->
  wp (st (bs_put h off bytes);; st (bs_log_write h);; st (bs_brelse h)) s Q.
Proof.
  intros Hn Ha (Hm & _ & Hl) Hb Hh Ho Hy HQ.
  assert (tv_held (tv_hold h b v) !! h = Some b) as Hhb by apply lookup_insert_eq.
  wp_step. eapply st_put; [done..|]. intros t1 H1.
  wp_step. eapply st_log_write; [done|done|done|simpl; lia|]. intros t2 H2.
  eapply st_brelse; [done|done|simpl; set_solver|]. intros t3 H3.
  rewrite tv_set_mark in H3 by set_solver. by apply HQ.
Qed.

Lemma wp_seq3 {A B} (a b c : KM (fs S) A) (k : KM (fs S) B) s Q :
  wp (a;; b;; c) s (fun _ s' => wp k s' Q) -> wp (a;; b;; c;; k) s Q.
Proof.
  intros H1%wp_bind_inv. wp_step. eapply wp_mono; [exact H1|]. intros x s1 H2%wp_bind_inv.
  wp_step. eapply wp_mono; [exact H2|]. intros y s2 H3. by wp_step.
Qed.

Definition zeros : block := replicate BSIZE 0.
Lemma zeros_bytes n : Forall is_byte (replicate n 0).
Proof. by apply Forall_replicate. Qed.

Lemma splice_whole (x d : list Z) : length x = length d -> splice 0 x d = x.
Proof. intros E. unfold splice. rewrite take_0, drop_ge by lia. apply app_nil_r. Qed.

Lemma bzero_spec s v b d k (Q : unit -> fs S -> Prop) :
  tx_at (f_store s) v -> ready v 2 (Datatypes.S k) -> tv_blk v !! b = Some d ->
  b ∉ held_blocks v -> b ∈ tv_home v ->
  (forall t, tx_at t (tv_put b zeros v) -> Q tt (set_store t s)) ->
  wp (bzero ROOTDEV b) s Q.
Proof.
  intros Ha Hr Hb Hh Hm HQ. unfold bzero. wp_step. eapply st_bread; [done..|]. intros h t Hn Ht.
  destruct (tx_wf _ _ _ _ Ha Hb) as (Hl & _ & _).
  eapply (st_finish (set_store t s) v h b d k); [done|exact Ht|done|done|done| |apply zeros_bytes|].
  { by rewrite length_replicate. }
  intros t2 H2. rewrite splice_whole in H2 by by rewrite length_replicate, Hl. by apply (HQ t2).
Qed.
End lifted.

(** ** Allocation *)

(** [v'] is [v] with the free block [b] allocated and zeroed. *)
Record alloc_step (sb : superblock) (v v' : tview) (b : Z) : Prop := mk_alloc_step {
  as_range : 0 <= b < sb_size sb;
  as_free : used v sb b = false;
  as_used : forall b', 0 <= b' < sb_size sb -> used v' sb b' = if decide (b' = b) then true else used v sb b';
  as_zero : tv_blk v' !! b = Some zeros;
  as_frame : forall b', b' <> b -> ~ is_map sb b' -> tv_blk v' !! b' = tv_blk v !! b';
  as_held : tv_held v' = tv_held v;
  as_mod : tv_mod v' = tv_mod v;
  as_home : tv_home v' = tv_home v;
  as_cap : tv_cap v' = tv_cap v;
  as_log : tv_log v' = {[b]} ∪ ({[BBLOCK b sb]} ∪ tv_log v);
  as_inv : fs_inv v' sb
}.

Lemma fs_inv_put v sb b d : fs_inv v sb -> sb_inodestart sb <= b < sb_size sb ->
  (forall b', 0 <= b' < meta_end sb -> used (tv_put b d v) sb b' = true) ->
  fs_inv (tv_put b d v) sb.
Proof.
  intros [HL Hd Hh (d1 & H1 & E1) Hm] Hb Hu. split; [done| |done| |done].
  - intros b' Hb'. simpl. destruct (decide (b' = b)) as [->|]; [by rewrite lookup_insert_eq; eauto|].
    rewrite lookup_insert_ne by done. auto.
  - exists d1. simpl. rewrite lookup_insert_ne; [done|]. pose proof (ly_inodestart _ HL). lia.
Qed.

Lemma alloc_put v sb b d d' : fs_inv v sb -> 0 <= b < sb_size sb -> used v sb b = false ->
  tv_blk v !! BBLOCK b sb = Some d ->
  (forall k, 0 <= k < BPB -> map_used d' k = if decide (k = b mod BPB) then true else map_used d k) ->
  alloc_step sb v (tv_put b zeros (tv_put (BBLOCK b sb) d' v)) b.
Proof.
  intros Hi Hb Hf Hd Hd'. pose proof (fi_layout _ _ Hi) as HL.
  pose proof (used_put v sb b true d d' HL Hb Hd Hd') as Hu.
  assert (meta_end sb <= b) as Hmb.
  { destruct (Z_lt_le_dec b (meta_end sb)); [|done]. rewrite (fi_meta _ _ Hi) in Hf by lia. done. }
  assert (~ is_map sb b) as Hnm by (unfold is_map; lia).
  pose proof (bblock_map sb HL b Hb) as Hbm. pose proof (map_range sb HL _ Hbm) as [Hbr1 Hbr2].
  assert (forall b', 0 <= b' < sb_size sb ->
    used (tv_put b zeros (tv_put (BBLOCK b sb) d' v)) sb b' = if decide (b' = b) then true else used v sb b') as Hu2.
  { intros b' Hb'. rewrite used_data by done. auto. }
  split; try done.
  - simpl. by rewrite lookup_insert_eq.
  - intros b' Hne Hnm'. simpl. rewrite !lookup_insert_ne; [done|intros E; by rewrite <- E in Hnm'|done].
  - pose proof (ly_map _ HL). pose proof (ly_inodestart _ HL). unfold is_map in Hbm.
    apply fs_inv_put; [apply fs_inv_put; [done|lia|]|lia|]; intros b' Hb'.
    + rewrite Hu by lia. case_decide; [done|]. by apply (fi_meta _ _ Hi).
    + rewrite Hu2 by lia. case_decide; [done|]. by apply (fi_meta _ _ Hi).
Qed.

(** Held buffers never get in the way of the allocator: they hold used blocks
    outside the free map. *)
Definition held_data (v : tview) (sb : superblock) : Prop :=
  forall b, b ∈ held_blocks v -> ~ is_map sb b /\ 0 <= b < sb_size sb /\ used v sb b = true /\ b <> 1.

(** The bits of one map block. *)
Lemma same_map_block sb b i : layout sb -> (BPB | b) -> 0 <= b -> 0 <= i < BPB -> b + i < sb_size sb ->
  BBLOCK (b + i) sb = BBLOCK b sb /\ (b + i) mod BPB = i.
Proof.
  intros HL [q ->] Hb Hi1 Hi2. assert (BPB = 4096) by done. rewrite !bblock_eq by (done || lia).
  rewrite (Z.add_comm (q * BPB)), Z.div_add, Z.div_small, Z.div_mul, Z_mod_plus_full by lia.
  split; [lia|apply Z.mod_small; lia].
Qed.

(** Room in the transaction for a map block and one block more. *)
Definition alloc_room (v : tview) (sb : superblock) : Prop :=
  forall b, 0 <= b < sb_size sb -> (size ({[BBLOCK b sb]} ∪ tv_log v) < tv_cap v)%nat.
Lemma alloc_room_ready v sb h : ready v h 2 -> alloc_room v sb.
Proof. intros (_ & _ & Hl) b _. pose proof (size_add_le (BBLOCK b sb) (tv_log v)). lia. Qed.

Section balloc.
Context {S : Type} `{TxStore S}.

(** [balloc] from the moment it found bit [bi] of the map block of [b] clear. *)
Lemma balloc_take s v sb b bi d h (Q : Z -> fs S -> Prop) :
  fs_inv v sb -> held_data v sb -> ready v 1 1 -> alloc_room v sb -> 0 <= b -> (BPB | b) -> 0 <= bi < BPB ->
  b + bi < sb_size sb -> tv_blk v !! BBLOCK b sb = Some d -> map_used d bi = false ->
  length d = BSIZE -> Forall is_byte d ->
  tv_held v !! h = None -> tx_at (f_store s) (tv_hold h (BBLOCK b sb) v) ->
  (forall v' t, alloc_step sb v v' (b + bi) -> tx_at t v' -> Q (b + bi) (set_store t s)) ->
  wp (st (bs_put h (Z.to_nat (bi / 8)) [Z.lor (map_byte d bi) (map_mask bi)]);;
      st (bs_log_write h);; st (bs_brelse h);; bzero ROOTDEV (b + bi);; mret (u32 (b + bi))) s Q.
Proof.
  intros Hi Hheld (Hr1 & Hr2 & Hr3) Hal Hb Hdv Hbi Hbs Hd Hu Hdl Hdb Hn Ht HQ.
  pose proof (fi_layout _ _ Hi) as HL. pose proof (ly_size _ HL) as Hsz.
  destruct (same_map_block sb b bi HL Hdv Hb Hbi Hbs) as [EB EM].
  destruct (map_range sb HL _ (bblock_map sb HL b ltac:(lia))) as [Hm1 Hm2].
  destruct (map_index bi ltac:(lia)) as [Hx1 Hx2].
  assert (Hby : is_byte (map_byte d bi)) by by apply nth_byte.
  apply wp_seq3. eapply (st_finish s v h (BBLOCK b sb) d 0);
    [done|exact Ht|repeat split; [done|lia..]|done|by apply (fi_home _ _ Hi)|simpl; lia| |].
  { constructor; [|done]. by apply byte_lor. }
  intros t2 H2. set (d' := splice _ _ d) in *.
  assert (Ha : alloc_step sb v (tv_put (b + bi) zeros (tv_put (BBLOCK b sb) d' v)) (b + bi)).
  { rewrite <- EB. apply (alloc_put v sb (b + bi) d); [done|lia| |by rewrite EB|].
    - unfold used. by rewrite EB, Hd, EM.
    - intros k' Hk'. unfold d'. rewrite EM. apply map_used_set; [done|lia|done]. }
  pose proof (meta_pos sb HL). assert (meta_end sb <= b + bi) as Hmb.
  { destruct (Z_lt_le_dec (b + bi) (meta_end sb)); [|done].
    pose proof (as_free _ _ _ _ Ha) as Hf. rewrite (fi_meta _ _ Hi) in Hf by lia. done. }
  destruct (fi_dom _ _ Hi (b + bi) ltac:(lia)) as [db Hdb'].
  assert (b + bi <> BBLOCK b sb) as Hnb by lia.
  wp_step. eapply (bzero_spec (set_store t2 s) _ (b + bi) db 0).
  - exact H2.
  - split; [done|]. split; [exact (Nat.le_trans _ 1 _ Hr2 (Nat.le_succ_diag_r 1))|]. specialize (Hal b ltac:(lia)). simpl. lia.
  - simpl. by rewrite lookup_insert_ne.
  - intros Hx. apply Hheld in Hx as (_ & _ & Hx & _). by rewrite (as_free _ _ _ _ Ha) in Hx.
  - apply (fi_home _ _ Hi). lia.
  - intros t3 H3. wp_step. rewrite u32_id by lia. eapply (HQ _ t3); done.
Qed.

Lemma balloc_from_spec v sb fuel : forall (s : fs S) b (Q : Z -> fs S -> Prop),
  tx_at (f_store s) v -> f_sb s = sb -> fs_inv v sb -> held_data v sb ->
  ready v 1 1 -> alloc_room v sb -> 0 <= b -> (BPB | b) ->
  (forall b', 0 <= b' < b -> b' < sb_size sb -> used v sb b' = true) ->
  (exists b', 0 <= b' < sb_size sb /\ used v sb b' = false) ->
  sb_size sb < b + Z.of_nat fuel * BPB -> 
  (forall r v' t, alloc_step sb v v' r -> (forall b', 0 <= b' < r -> used v sb b' = true) ->
     tx_at t v' -> Q r (set_store t s)) ->
  wp (balloc_from fuel ROOTDEV b) s Q.
Proof.
  induction fuel as [|fuel IH]; intros s b Q Ha Hsb Hi Hheld Hr Hal Hb Hdv Hbelow Hfree Hfuel HQ.
  { destruct Hfree as (b' & Hb' & Hu). rewrite Hbelow in Hu by lia. done. }
  pose proof (fi_layout _ _ Hi) as HL. pose proof (ly_size _ HL) as Hsz.
  cbn [balloc_from]. wp_step. wp_step. rewrite Hsb.
  assert (b < sb_size sb) as Hlt.
  { destruct Hfree as (b' & Hb' & Hu). destruct (Z_lt_le_dec b (sb_size sb)); [done|].
    rewrite Hbelow in Hu by lia. done. }
  assert (BPB = 4096) as HBPB by done.
  rewrite u32_id by lia. rewrite (proj2 (Z.ltb_lt _ _)) by done.
  pose proof (bblock_map sb HL b ltac:(lia)) as Hbm. destruct (map_range sb HL _ Hbm) as [Hm1 Hm2].
  destruct (fi_dom _ _ Hi (BBLOCK b sb) ltac:(lia)) as [d Hd].
  destruct (tx_wf _ _ _ _ Ha Hd) as (Hdl & Hdb & _).
  assert (BBLOCK b sb ∉ held_blocks v) as Hnh by (intros Hx; by apply Hheld in Hx as [? _]).
  pose proof Hr as (Hr1 & Hr2 & Hr3).
  wp_step. eapply (st_bread s v (BBLOCK b sb) d 0); [done|repeat split; [done|lia..]|done|done|].
  intros h t Hn Ht. wp_step.
  eapply (st_data (set_store t s)); [exact Ht|apply lookup_insert_eq|exact Hd|].
  pose proof (scan_map_spec d b (sb_size sb) (Z.to_nat BPB) 0 ltac:(lia) ltac:(lia) ltac:(lia)) as Hscan.
  assert (Hblk : forall k, 0 <= k < BPB -> b + k < sb_size sb -> map_used d k = true -> used v sb (b + k) = true).
  { intros j Hj1 Hj2 Hj3. destruct (same_map_block sb b j HL Hdv Hb Hj1 Hj2) as [EB EM].
    unfold used. by rewrite EB, Hd, EM. }
  destruct (scan_map d b (sb_size sb) 0 (Z.to_nat BPB)) as [bi|].
  - destruct Hscan as (Hbi & Hbis & Hbu & Hbf).
    eapply (balloc_take (set_store t s) v sb b bi d h); [done..| |].
    { exact Ht. }
    intros v' t' Hs Ht'. apply (HQ _ v' t'); [done| |done]. intros b' Hb'.
    destruct (Z_lt_le_dec b' b); [apply Hbelow; lia|].
    replace b' with (b + (b' - b)) by lia. apply Hblk; [lia|lia|apply Hbf; lia].
  - wp_step. eapply (st_brelse (set_store t s)); [exact Ht|apply lookup_insert_eq|simpl; set_solver|].
    intros t2 H2. rewrite tv_hold_drop in H2 by done.
    apply (IH (set_store t2 s)); [exact H2|done|done|done|done|done|lia| | |done|lia|].
    + by apply Z.divide_add_r.
    + intros b' Hb' Hs. destruct (Z_lt_le_dec b' b); [apply Hbelow; lia|].
      replace b' with (b + (b' - b)) by lia. apply Hblk; [lia|lia|apply Hscan; lia].
    + intros r v' t' Hs Hl Ht'. by apply (HQ r v' t').
Qed.

Lemma balloc_spec s v sb (Q : Z -> fs S -> Prop) :
  tx_at (f_store s) v -> f_sb s = sb -> fs_inv v sb -> held_data v sb -> ready v 1 1 -> alloc_room v sb ->
  (exists b', 0 <= b' < sb_size sb /\ used v sb b' = false) ->
  (forall r v' t, alloc_step sb v v' r -> (forall b', 0 <= b' < r -> used v sb b' = true) ->
     tx_at t v' -> Q r (set_store t s)) ->
  wp (balloc ROOTDEV) s Q.
Proof.
  intros Ha Hsb Hi Hheld Hr Hal Hfree HQ. unfold balloc. wp_step. wp_step. rewrite Hsb.
  pose proof (ly_size _ (fi_layout _ _ Hi)). assert (BPB = 4096) by done.
  assert (0 <= sb_size sb / BPB) by (apply Z.div_pos; lia).
  pose proof (Z.div_mod (sb_size sb) BPB). pose proof (Z.mod_pos_bound (sb_size sb) BPB).
  eapply (balloc_from_spec v sb); try done; try lia. by exists 0.
Qed.
End balloc.

(** ** Freeing *)

(** [v'] is [v] with the used data block [b] given back. *)
Record free_step (sb : superblock) (v v' : tview) (b : Z) : Prop := mk_free_step {
  fr_used : forall b', 0 <= b' < sb_size sb -> used v' sb b' = if decide (b' = b) then false else used v sb b';
  fr_frame : forall b', ~ is_map sb b' -> tv_blk v' !! b' = tv_blk v !! b';
  fr_held : tv_held v' = tv_held v;
  fr_mod : tv_mod v' = tv_mod v;
  fr_home : tv_home v' = tv_home v;
  fr_cap : tv_cap v' = tv_cap v;
  fr_log : tv_log v' = {[BBLOCK b sb]} ∪ tv_log v;
  fr_inv : fs_inv v' sb
}.

Lemma free_put v sb b d d' : fs_inv v sb -> meta_end sb <= b < sb_size sb ->
  tv_blk v !! BBLOCK b sb = Some d ->
  (forall k, 0 <= k < BPB -> map_used d' k = if decide (k = b mod BPB) then false else map_used d k) ->
  free_step sb v (tv_put (BBLOCK b sb) d' v) b.
Proof.
  intros Hi Hb Hd Hd'. pose proof (fi_layout _ _ Hi) as HL. pose proof (meta_pos sb HL).
  pose proof (used_put v sb b false d d' HL ltac:(lia) Hd Hd') as Hu.
  pose proof (bblock_map sb HL b ltac:(lia)) as Hbm. pose proof (map_range sb HL _ Hbm) as [Hbr1 Hbr2].
  split; try done.
  - intros b' Hnm'. simpl. rewrite lookup_insert_ne; [done|]. intros E. by rewrite <- E in Hnm'.
  - apply fs_inv_put; [done|lia|]. intros b' Hb'. pose proof (ly_map _ HL). rewrite Hu by lia.
    rewrite decide_False by lia. by apply (fi_meta _ _ Hi).
Qed.

Section bfree.
Context {S : Type} `{TxStore S}.

Lemma set_sb_id (s : fs S) : set_sb (f_sb s) s = s.
Proof. by destruct s. Qed.

Lemma readsb_spec s v sb k (Q : unit -> fs S -> Prop) :
  tx_at (f_store s) v -> f_sb s = sb -> fs_inv v sb -> held_data v sb -> ready v 2 k ->
  (forall t, tx_at t v -> Q tt (set_store t s)) ->
  wp (readsb ROOTDEV) s Q.
Proof.
  intros Ha Hsb Hi Hheld Hr HQ. destruct (fi_sb _ _ Hi) as (d & Hd & E).
  assert (1 ∉ held_blocks v) by (intros Hx; by apply Hheld in Hx as (_ & _ & _ & ?)).
  unfold readsb. wp_step. eapply st_bread; [done..|]. intros h t Hn Ht. wp_step.
  eapply (st_data (set_store t s)); [exact Ht|apply lookup_insert_eq|exact Hd|].
  wp_step. wp_step. rewrite E, <- Hsb. change (f_sb s) with (f_sb (set_store t s)). rewrite set_sb_id.
  eapply (st_brelse (set_store t s)); [exact Ht|apply lookup_insert_eq|simpl; by rewrite (proj1 Hr); set_solver|].
  intros t2 H2. rewrite tv_hold_drop in H2 by done. by apply (HQ t2).
Qed.

Lemma bfree_spec s v sb b k (Q : unit -> fs S -> Prop) :
  tx_at (f_store s) v -> f_sb s = sb -> fs_inv v sb -> held_data v sb -> ready v 1 (1 + k) ->
  meta_end sb <= b < sb_size sb -> used v sb b = true ->
  (forall v' t, free_step sb v v' b -> tx_at t v' -> Q tt (set_store t s)) ->
  wp (bfree ROOTDEV b) s Q.
Proof.
  intros Ha Hsb Hi Hheld Hr Hb Hu HQ. pose proof (fi_layout _ _ Hi) as HL. pose proof (meta_pos sb HL).
  assert (BPB = 4096) as HBPB by done. pose proof (Z.mod_pos_bound b BPB ltac:(lia)) as Hbi.
  destruct (map_range sb HL _ (bblock_map sb HL b ltac:(lia))) as [Hm1 Hm2].
  destruct (fi_dom _ _ Hi (BBLOCK b sb) ltac:(lia)) as [d Hd].
  destruct (map_index (b mod BPB) Hbi) as [Hx1 Hx2].
  assert (BBLOCK b sb ∉ held_blocks v) as Hnh.
  { intros Hx; apply Hheld in Hx as [Hx _]. apply Hx, bblock_map; [done|lia]. }
  unfold bfree. wp_step. eapply (readsb_spec s v sb 0); [done..|by eapply ready_weaken; [exact Hr|lia..]|].
  intros t Ht. wp_step. wp_step. simpl f_sb. rewrite Hsb.
  destruct (tx_wf _ _ _ _ Ha Hd) as (Hdl & Hdb & _).
  wp_step. eapply (st_bread (set_store t s) v _ d 0); [exact Ht|by eapply ready_weaken; [exact Hr|lia..]|done|done|].
  intros h t1 Hn Ht1. wp_step.
  eapply (st_data (set_store t1 (set_store t s))); [exact Ht1|apply lookup_insert_eq|exact Hd|].
  assert (map_used d (b mod BPB) = true) as Hmu by (unfold used in Hu; by rewrite Hd in Hu).
  rewrite Hmu. cbn [negb].
  eapply (st_finish (set_store t1 (set_store t s)) v h (BBLOCK b sb) d k);
    [done|exact Ht1|by eapply ready_weaken; [exact Hr|lia..]|done|by apply (fi_home _ _ Hi)|simpl; lia| |].
  { constructor; [|done]. apply byte_ldiff, nth_byte. done. }
  intros t2 H2. eapply (HQ _ t2); [|exact H2]. apply (free_put v sb b d); [done|done|done|].
  intros k' Hk'. by apply map_used_clear.
Qed.
End bfree.
