(* ===== verification/FsInode.v ===== *)
(** * Inodes and their blocks: specification of [bmap]

    [slot] reads an inode's block addresses (direct, through the indirect
    block, and the indirect block itself), [fdata] the contents of its [k]th
    block, a missing block reading as zeros.  [bmap] returns the address of a
    block, allocating what is missing: the contents do not change, no other
    block of the file system does, and the inode stays well formed. *)

From S2P Require Import Prelude Sleeplock Bio Log LogSpec BlockStore Fs FsBlocks.

(** ** The blocks of an inode *)

Definition ind_addr (x : dinode) : Z := nth 12 (d_addrs x) 0.
Definition ind_entry (V : gmap Z block) (x : dinode) (k : Z) : Z :=
  if ind_addr x =? 0 then 0
  else match V !! ind_addr x with Some d => get32 (Z.to_nat (4 * k)) d | None => 0 end.
(** Address of block [k < 140]; [slot 140] is the indirect block. *)
Definition slot (V : gmap Z block) (x : dinode) (k : Z) : Z :=
  if k <? 12 then nth (Z.to_nat k) (d_addrs x) 0
  else if k <? 140 then ind_entry V x (k - 12) else ind_addr x.
Definition fdata (V : gmap Z block) (x : dinode) (k : Z) : block :=
  if slot V x k =? 0 then zeros else default zeros (V !! slot V x k).

Record inode_ok (v : tview) (sb : superblock) (x : dinode) : Prop := mk_inode_ok {
  in_len : length (d_addrs x) = 13%nat;
  in_area : forall k, 0 <= k <= 140 -> slot (tv_blk v) x k <> 0 ->
    meta_end sb <= slot (tv_blk v) x k < sb_size sb /\ used v sb (slot (tv_blk v) x k) = true;
  in_inj : forall k k', 0 <= k <= 140 -> 0 <= k' <= 140 -> slot (tv_blk v) x k <> 0 ->
    slot (tv_blk v) x k = slot (tv_blk v) x k' -> k = k';
  in_size : 0 <= d_size x <= MAXFILE * BLK;
  in_full : forall k, 0 <= k -> k * BLK < d_size x -> slot (tv_blk v) x k <> 0
}.

(** The fields other than the addresses. *)
Definition same_meta (x x' : dinode) : Prop :=
  d_type x' = d_type x /\ d_major x' = d_major x /\ d_minor x' = d_minor x /\
  d_nlink x' = d_nlink x /\ d_size x' = d_size x.

(** ** How the disk may evolve *)

Definition maps (sb : superblock) : gset Z := list_to_set (seqZ (sb_bmapstart sb) (meta_end sb - sb_bmapstart sb)).
Lemma elem_of_maps sb b : b ∈ maps sb <-> is_map sb b.
Proof. unfold maps, is_map. rewrite elem_of_list_to_set, elem_of_seqZ. lia. Qed.

(** Nothing is freed, and of the blocks in use only those of [W] and the free
    map change. *)
Record evolves (sb : superblock) (W : gset Z) (v v' : tview) : Prop := mk_evolves {
  ev_held : tv_held v' = tv_held v;
  ev_mod : tv_mod v' = tv_mod v;
  ev_home : tv_home v' = tv_home v;
  ev_cap : tv_cap v' = tv_cap v;
  ev_used : forall b, 0 <= b < sb_size sb -> used v sb b = true -> used v' sb b = true;
  ev_frame : forall b, 0 <= b < sb_size sb -> used v sb b = true -> ~ is_map sb b -> b ∉ W ->
    tv_blk v' !! b = tv_blk v !! b;
  ev_inv : fs_inv v' sb
}.

Lemma evolves_refl sb W v : fs_inv v sb -> evolves sb W v v.
Proof. by split. Qed.
Lemma evolves_trans sb W1 W2 v1 v2 v3 : evolves sb W1 v1 v2 -> evolves sb W2 v2 v3 -> evolves sb (W1 ∪ W2) v1 v3.
Proof.
  intros [A1 A2 A3 A4 A5 A6 A7] [B1 B2 B3 B4 B5 B6 B7]. split; try congruence; [auto|].
  intros b Hb Hu Hm Hw. rewrite B6, A6; auto; set_solver.
Qed.
Lemma evolves_mono sb W W' v v' : evolves sb W v v' -> W ⊆ W' -> evolves sb W' v v'.
Proof. intros [A1 A2 A3 A4 A5 A6 A7] Hw. split; try done. intros b ? ? ? ?. apply A6; set_solver. Qed.
Lemma alloc_evolves sb v v' b : alloc_step sb v v' b -> evolves sb ∅ v v'.
Proof.
  intros [A1 A2 A3 A4 A5 A6 A7 A8 A9 A10 A11]. split; try done.
  - intros b' Hb' Hu. rewrite A3 by done. by case_decide.
  - intros b' Hb' Hu Hm _. apply A5; [|done]. intros ->. congruence.
Qed.
(** Rewriting a block of the inode or data area. *)
Lemma put_evolves sb v b d : fs_inv v sb -> sb_inodestart sb <= b < sb_size sb -> ~ is_map sb b ->
  evolves sb {[b]} v (tv_put b d v).
Proof.
  intros Hi Hb Hm. pose proof (fi_layout _ _ Hi) as HL. pose proof (ly_map _ HL).
  split; try done.
  - intros b' Hb' Hu. by rewrite used_data.
  - intros b' Hb' Hu Hm' Hw. simpl. rewrite lookup_insert_ne by set_solver. done.
  - apply fs_inv_put; [done|done|]. intros b' Hb'. rewrite used_data by (done || lia). by apply (fi_meta _ _ Hi).
Qed.

(** Room in the transaction, the free map counted as logged. *)
Definition room (v : tview) (sb : superblock) (k : nat) : Prop :=
  (size (tv_log v ∪ maps sb) + k <= tv_cap v)%nat.
Lemma room_ready v sb h k : room v sb k -> tv_mod v = ∅ -> (size (held_blocks v) <= h)%nat -> ready v h k.
Proof.
  intros Hr Hm Hh. repeat split; [done..|].
  pose proof (subseteq_size (tv_log v) (tv_log v ∪ maps sb) ltac:(set_solver)). unfold room in Hr. lia.
Qed.
Lemma room_alloc v sb k : layout sb -> room v sb (S k) -> alloc_room v sb.
Proof.
  intros HL Hr b Hb. pose proof (elem_of_maps sb (BBLOCK b sb)) as Hm.
  pose proof (bblock_map sb HL b Hb) as Hbm. apply Hm in Hbm.
  pose proof (subseteq_size ({[BBLOCK b sb]} ∪ tv_log v) (tv_log v ∪ maps sb) ltac:(set_solver)). unfold room in Hr. lia.
Qed.
(** [D] bounds what was logged besides the map. *)
Definition logs (sb : superblock) (v v' : tview) (D : gset Z) : Prop := tv_log v' ⊆ tv_log v ∪ maps sb ∪ D.
Lemma size_union_le (A B : gset Z) : (size (A ∪ B) <= size A + size B)%nat.
Proof. rewrite size_union_alt. pose proof (subseteq_size (B ∖ A) B ltac:(set_solver)). lia. Qed.
Lemma room_logs v v' sb k j D : room v sb (j + k) -> logs sb v v' D -> (size D <= j)%nat ->
  tv_cap v' = tv_cap v -> room v' sb k.
Proof.
  unfold room, logs. intros Hr Hl Hd ->.
  pose proof (subseteq_size (tv_log v' ∪ maps sb) ((tv_log v ∪ maps sb) ∪ D) ltac:(set_solver)).
  pose proof (size_union_le (tv_log v ∪ maps sb) D). lia.
Qed.
Lemma logs_refl sb v : logs sb v v ∅.
Proof. unfold logs. set_solver. Qed.
Lemma logs_trans sb v1 v2 v3 D1 D2 : logs sb v1 v2 D1 -> logs sb v2 v3 D2 -> logs sb v1 v3 (D1 ∪ D2).
Proof. unfold logs. set_solver. Qed.
Lemma logs_mono sb v v' D D' : logs sb v v' D -> D ⊆ D' -> logs sb v v' D'.
Proof. unfold logs. set_solver. Qed.
Lemma alloc_logs sb v v' b : fs_inv v sb -> alloc_step sb v v' b -> logs sb v v' {[b]}.
Proof.
  intros Hi Ha. unfold logs. rewrite (as_log _ _ _ _ Ha).
  assert (BBLOCK b sb ∈ maps sb).
  { apply elem_of_maps, bblock_map; [apply (fi_layout _ _ Hi)|apply Ha]. }
  set_solver.
Qed.
Lemma put_logs sb v b d : logs sb v (tv_put b d v) {[b]}.
Proof. unfold logs. simpl. set_solver. Qed.

(** ** Free blocks *)

Lemma elem_of_free v sb b : b ∈ free_blocks v sb <-> used v sb b = false /\ 0 <= b < sb_size sb.
Proof. unfold free_blocks. rewrite elem_of_filter, elem_of_list_to_set, elem_of_seqZ. naive_solver lia. Qed.
Lemma free_some v sb n : (n < size (free_blocks v sb))%nat ->
  exists b, 0 <= b < sb_size sb /\ used v sb b = false.
Proof.
  intros H. destruct (size_pos_elem_of (free_blocks v sb)) as [b Hb]; [lia|].
  apply elem_of_free in Hb as [? ?]. eauto.
Qed.
Lemma free_put_data v sb b d : layout sb -> ~ is_map sb b -> free_blocks (tv_put b d v) sb = free_blocks v sb.
Proof.
  intros HL Hm. apply set_eq. intros b'. rewrite !elem_of_free.
  split; intros [H1 H2]; split; try done; [by rewrite used_data in H1|by rewrite used_data].
Qed.
Lemma free_alloc sb v v' b n : alloc_step sb v v' b -> (S n <= size (free_blocks v sb))%nat ->
  (n <= size (free_blocks v' sb))%nat.
Proof.
  intros Ha Hn. assert (free_blocks v' sb = free_blocks v sb ∖ {[b]}) as ->.
  { apply set_eq. intros b'. rewrite elem_of_difference, !elem_of_free, elem_of_singleton.
    split.
    - intros [Hu Hb]. rewrite (as_used _ _ _ _ Ha) in Hu by done. by case_decide.
    - intros [[Hu Hb] Hne]. rewrite (as_used _ _ _ _ Ha), decide_False by done. done. }
  rewrite size_difference_alt.
  pose proof (subseteq_size (free_blocks v sb ∩ {[b]}) {[b]} ltac:(set_solver)).
  rewrite size_singleton in *. lia.
Qed.

Section slots.
Context (sb : superblock) (v : tview) (x : dinode).
Hypothesis (Hi : fs_inv v sb) (Hx : inode_ok v sb x).
Abbreviation V := (tv_blk v).

Lemma slot_ind : slot V x 140 = ind_addr x.
Proof. done. Qed.
Lemma slot_map k : 0 <= k <= 140 -> slot V x k <> 0 ->
  ~ is_map sb (slot V x k) /\ 0 <= slot V x k < sb_size sb /\ used v sb (slot V x k) = true.
Proof.
  intros Hk Hs. destruct (in_area _ _ _ Hx k Hk Hs). pose proof (meta_pos sb (fi_layout _ _ Hi)).
  unfold is_map. split_and!; (done || lia).
Qed.
Lemma slot_ext V' k : (ind_addr x <> 0 -> V' !! ind_addr x = V !! ind_addr x) -> slot V' x k = slot V x k.
Proof.
  intros E. unfold slot, ind_entry. destruct (k <? 12); [done|]. destruct (k <? 140); [|done].
  destruct (Z.eqb_spec (ind_addr x) 0); [done|]. by rewrite E.
Qed.
Lemma slot_evolves W v' k : evolves sb W v v' -> ind_addr x ∉ W -> slot (tv_blk v') x k = slot V x k.
Proof.
  intros He Hw. apply slot_ext. intros Hn. rewrite <- slot_ind in *.
  destruct (slot_map 140 ltac:(lia) Hn) as (? & ? & ?). by apply (ev_frame _ _ _ _ He).
Qed.
Lemma fdata_evolves W v' k : evolves sb W v v' -> ind_addr x ∉ W -> 0 <= k <= 140 -> slot V x k ∉ W ->
  fdata (tv_blk v') x k = fdata V x k.
Proof.
  intros He Hw Hk Hs. unfold fdata. rewrite (slot_evolves W v' k) by done.
  destruct (Z.eqb_spec (slot V x k) 0) as [|Hn]; [done|].
  destruct (slot_map k Hk Hn) as (? & ? & ?). by rewrite (ev_frame _ _ _ _ He).
Qed.
(** An inode none of whose blocks is in [W] is not affected. *)
Lemma inode_ok_evolves W v' : evolves sb W v v' -> ind_addr x ∉ W -> inode_ok v' sb x.
Proof.
  intros He Hw. pose proof (slot_evolves W v') as Hs.
  split; [apply Hx|..|apply Hx|].
  - intros k Hk Hn. rewrite Hs in * by done. destruct (in_area _ _ _ Hx k Hk Hn). split; [done|].
    destruct (slot_map k Hk Hn) as (? & ? & ?). by apply (ev_used _ _ _ _ He).
  - intros k k' Hk Hk'. rewrite !Hs by done. by apply (in_inj _ _ _ Hx).
  - intros k Hk. rewrite Hs by done. by apply (in_full _ _ _ Hx).
Qed.

(** One slot [k] of the inode filled with a fresh block [b]. *)
Record grow (v' : tview) (x' : dinode) (k b : Z) : Prop := mk_grow {
  gr_len : length (d_addrs x') = 13%nat;
  gr_meta : same_meta x x';
  gr_k : 0 <= k <= 140;
  gr_empty : slot V x k = 0;
  gr_slot : forall j, 0 <= j <= 140 -> slot (tv_blk v') x' j = if decide (j = k) then b else slot V x j;
  gr_fresh : used v sb b = false /\ meta_end sb <= b < sb_size sb /\ used v' sb b = true;
  gr_used : forall b', 0 <= b' < sb_size sb -> used v sb b' = true -> used v' sb b' = true;
  gr_zero : k < 140 -> tv_blk v' !! b = Some zeros;
  gr_data : forall j, 0 <= j < 140 -> slot V x j <> 0 -> tv_blk v' !! slot V x j = V !! slot V x j;
  gr_new : forall b', 0 <= b' < sb_size sb -> used v' sb b' = true -> used v sb b' = true \/ b' = b
}.

Lemma grow_ok v' x' k b : grow v' x' k b -> inode_ok v' sb x'.
Proof.
  intros [G1 (_ & _ & _ & _ & G2) G3 G4 G5 (G6 & G7 & G8) G9 _ _ _]. pose proof (meta_pos sb (fi_layout _ _ Hi)).
  split; [done|..].
  - intros j Hj. rewrite G5 by done. case_decide; [done|]. intros Hn.
    destruct (in_area _ _ _ Hx j Hj Hn). split; [done|]. apply G9; [lia|done].
  - assert (Hb : forall j, 0 <= j <= 140 -> slot V x j <> b).
    { intros j Hj E. destruct (in_area _ _ _ Hx j Hj) as [_ Hu]; [lia|]. congruence. }
    intros j j' Hj Hj'. rewrite !G5 by done. repeat case_decide; subst; try done.
    + intros _ E. by apply eq_sym, Hb in E.
    + intros _ E. by apply Hb in E.
    + by apply (in_inj _ _ _ Hx).
  - rewrite G2. apply Hx.
  - intros j Hj. rewrite G2. intros Hs. pose proof (in_size _ _ _ Hx) as Hz.
    assert (j < 140) by (unfold MAXFILE, BLK, BSIZE, NDIRECT, NINDIRECT in *; lia).
    rewrite G5 by lia. case_decide; [lia|]. by apply (in_full _ _ _ Hx).
Qed.
Lemma grow_data v' x' k b j : grow v' x' k b -> 0 <= j < 140 -> fdata (tv_blk v') x' j = fdata V x j.
Proof.
  intros [G1 G2 G3 G4 G5 (G6 & G7 & G8) G9 G10 G11 _] Hj. pose proof (meta_pos sb (fi_layout _ _ Hi)).
  unfold fdata. rewrite G5 by lia. case_decide as E.
  - subst j. rewrite G4, (proj2 (Z.eqb_neq b 0)), G10 by lia. done.
  - destruct (Z.eqb_spec (slot V x j) 0) as [|Hn]; [done|]. by rewrite G11.
Qed.
End slots.

(** ** Filling a slot *)

Lemma get32_zeros off : get32 off zeros = 0.
Proof.
  unfold get32, slice, zeros. rewrite drop_replicate, take_replicate.
  induction (_ `min` _)%nat as [|n IH]; [done|]. simpl. by rewrite IH.
Qed.
Lemma ind_din_addr i b x : (i <> 12)%nat -> ind_addr (din_addr i b x) = ind_addr x.
Proof. intros Hi. unfold ind_addr. simpl. by rewrite !nth_lookup, list_lookup_insert_ne. Qed.

Section fill.
Context (sb : superblock) (v v1 : tview) (x : dinode) (b : Z).
Hypothesis (Hi : fs_inv v sb) (Hx : inode_ok v sb x) (Ha : alloc_step sb v v1 b).
Abbreviation V := (tv_blk v).

Lemma alloc_fresh : used v sb b = false /\ meta_end sb <= b < sb_size sb /\ used v1 sb b = true.
Proof.
  destruct Ha as [A1 A2 A3 _ _ _ _ _ _ _ _]. split; [done|]. rewrite A3, decide_True by done.
  split; [|done]. split; [|lia]. destruct (Z_lt_le_dec b (meta_end sb)); [|done].
  rewrite (fi_meta _ _ Hi) in A2 by lia. done.
Qed.
Lemma alloc_slot k : slot (tv_blk v1) x k = slot V x k.
Proof. apply (slot_evolves sb v x Hi Hx ∅ v1); [by eapply alloc_evolves|set_solver]. Qed.
Lemma alloc_data k : 0 <= k <= 140 -> slot V x k <> 0 -> tv_blk v1 !! slot V x k = V !! slot V x k.
Proof.
  intros Hk Hn. destruct (slot_map sb v x Hi Hx k Hk Hn) as (? & ? & Hu).
  apply (as_frame _ _ _ _ Ha); [|done]. intros E. rewrite E, (as_free _ _ _ _ Ha) in Hu. done.
Qed.
Lemma alloc_used b' : 0 <= b' < sb_size sb -> used v sb b' = true -> used v1 sb b' = true.
Proof. intros Hb Hu. rewrite (as_used _ _ _ _ Ha) by done. by case_decide. Qed.
Lemma alloc_new b' : 0 <= b' < sb_size sb -> used v1 sb b' = true -> used v sb b' = true \/ b' = b.
Proof. intros Hb. rewrite (as_used _ _ _ _ Ha) by done. case_decide; auto. Qed.

Lemma grow_direct k : 0 <= k < 12 -> slot V x k = 0 -> grow sb v x v1 (din_addr (Z.to_nat k) b x) k b.
Proof.
  intros Hk Hs. pose proof (in_len _ _ _ Hx).
  split; [by simpl; rewrite length_insert|done|lia|done| |exact alloc_fresh|exact alloc_used| | |exact alloc_new].
  - intros j Hj. unfold slot. simpl d_addrs.
    destruct (Z.ltb_spec j 12).
    + rewrite !nth_lookup. case_decide as E.
      * subst. rewrite list_lookup_insert_eq by lia. done.
      * rewrite list_lookup_insert_ne by lia. done.
    + rewrite decide_False by lia. destruct (Z.ltb_spec j 140).
      * pose proof (alloc_slot j) as E. unfold slot, ind_entry in *.
        rewrite (proj2 (Z.ltb_ge j 12)), (proj2 (Z.ltb_lt j 140)) in E by lia.
        by rewrite ind_din_addr by lia.
      * apply ind_din_addr. lia.
  - intros _. apply Ha.
  - intros j Hj. apply alloc_data. lia.
Qed.

Lemma grow_ind : ind_addr x = 0 -> grow sb v x v1 (din_addr 12 b x) 140 b.
Proof.
  intros Hs. pose proof (in_len _ _ _ Hx) as Hl. destruct alloc_fresh as (_ & Hb & _).
  pose proof (meta_pos sb (fi_layout _ _ Hi)).
  assert (ind_addr (din_addr 12 b x) = b) as Eb.
  { unfold ind_addr. simpl. rewrite nth_lookup, list_lookup_insert_eq by lia. done. }
  split; [by simpl; rewrite length_insert|done|lia|done| |exact alloc_fresh|exact alloc_used|lia| |exact alloc_new].
  - intros j Hj. unfold slot, ind_entry. rewrite Eb, Hs. destruct (Z.ltb_spec j 12).
    + rewrite decide_False by lia. simpl. by rewrite !nth_lookup, list_lookup_insert_ne by lia.
    + destruct (Z.ltb_spec j 140).
      * rewrite decide_False by lia. rewrite (proj2 (Z.eqb_neq b 0)) by lia.
        rewrite (as_zero _ _ _ _ Ha). by rewrite get32_zeros.
      * by rewrite decide_True by lia.
  - intros j Hj. apply alloc_data. lia.
Qed.

Lemma grow_entry k d : 12 <= k < 140 -> ind_addr x <> 0 -> V !! ind_addr x = Some d -> length d = BSIZE ->
  slot V x k = 0 ->
  let v2 := tv_put (ind_addr x) (splice (Z.to_nat (4 * (k - 12))) (put32 b) d) v1 in
  grow sb v x v2 x k b.
Proof.
  intros Hk Hn Hd Hdl Hs v2. destruct alloc_fresh as (Hf1 & Hf2 & Hf3). pose proof (ly_size _ (fi_layout _ _ Hi)).
  pose proof (meta_pos sb (fi_layout _ _ Hi)).
  destruct (slot_map sb v x Hi Hx 140 ltac:(lia) Hn) as (Hm & Hr & Hu). rewrite slot_ind in *.
  assert (forall b', 0 <= b' < sb_size sb -> used v2 sb b' = used v1 sb b') as Hu2.
  { intros b' Hb'. apply used_data; [apply Hi|done|done]. }
  assert (length (put32 b) = 4%nat) as Hp by apply length_put32.
  split; [apply Hx|done|lia|done| | | | | |].
  - intros j Hj. unfold slot, ind_entry, v2. cbn [tv_blk tv_put].
    destruct (Z.ltb_spec j 12); [by rewrite decide_False by lia|].
    destruct (Z.ltb_spec j 140); [|by rewrite decide_False by lia].
    rewrite (proj2 (Z.eqb_neq _ _) Hn), lookup_insert_eq, Hd. case_decide as E.
    + subst. rewrite get32_splice_eq by (unfold BSIZE in *; lia). apply u32_id. lia.
    + apply get32_splice_ne; unfold BSIZE in *; lia.
  - rewrite Hu2 by lia. done.
  - intros b' Hb' Hub. rewrite Hu2 by done. by apply alloc_used.
  - intros _. unfold v2. cbn [tv_blk tv_put]. rewrite lookup_insert_ne; [apply Ha|].
    intros E. rewrite E in Hu. congruence.
  - intros j Hj Hnj. unfold v2. cbn [tv_blk tv_put]. rewrite lookup_insert_ne; [apply alloc_data; lia|].
    intros E. rewrite <- (slot_ind v x) in E. apply (in_inj _ _ _ Hx) in E; [lia..|done].
  - intros b' Hb'. rewrite Hu2 by done. by apply alloc_new.
Qed.
End fill.

(** ** Growth of an inode *)

Definition ind_set (x : dinode) : gset Z := if ind_addr x =? 0 then ∅ else {[ind_addr x]}.

Lemma size_ind_set x : (size (ind_set x) <= 1)%nat.
Proof. unfold ind_set. destruct (_ =? 0); rewrite ?size_empty, ?size_singleton; lia. Qed.

(** [x] grew to [x'] by at most [n] fresh blocks: its contents and its old
    blocks are the same, the new ones were free, and the transaction logged at
    most [D] and the free map. *)
Record extends (sb : superblock) (n : nat) (D : gset Z) (v : tview) (x : dinode) (v' : tview) (x' : dinode) : Prop := mk_extends {
  ex_ok : inode_ok v' sb x';
  ex_meta : same_meta x x';
  ex_keep : forall j, 0 <= j <= 140 -> slot (tv_blk v) x j <> 0 -> slot (tv_blk v') x' j = slot (tv_blk v) x j;
  ex_fresh : forall j, 0 <= j <= 140 -> slot (tv_blk v) x j = 0 -> slot (tv_blk v') x' j <> 0 ->
    used v sb (slot (tv_blk v') x' j) = false;
  ex_data : forall j, 0 <= j < 140 -> fdata (tv_blk v') x' j = fdata (tv_blk v) x j;
  ex_ev : evolves sb (ind_set x) v v';
  ex_logs : logs sb v v' D;
  ex_free : (size (free_blocks v sb) <= n + size (free_blocks v' sb))%nat;
  ex_new : forall b, 0 <= b < sb_size sb -> used v' sb b = true -> used v sb b = true \/ exists j, 0 <= j <= 140 /\ slot (tv_blk v') x' j = b
}.

Lemma same_meta_trans x y z : same_meta x y -> same_meta y z -> same_meta x z.
Proof. unfold same_meta. intuition congruence. Qed.

Lemma extends_refl sb v x : fs_inv v sb -> inode_ok v sb x -> extends sb 0 ∅ v x v x.
Proof.
  intros Hi Hx. split; try done; [apply logs_refl|auto].
Qed.
Lemma extends_mono sb n D n' D' v x v' x' : extends sb n D v x v' x' -> (n <= n')%nat -> D ⊆ D' -> extends sb n' D' v x v' x'.
Proof. intros [E1 E2 E3 E4 E5 E6 E7 E8 E9] Hn HD. split; try done; [by eapply logs_mono|lia]. Qed.

Lemma extends_trans sb n1 n2 D1 D2 v x v1 x1 v2 x2 : fs_inv v sb -> inode_ok v sb x ->
  extends sb n1 D1 v x v1 x1 -> extends sb n2 D2 v1 x1 v2 x2 -> extends sb (n1 + n2) (D1 ∪ D2) v x v2 x2.
Proof.
  intros Hi Hx [A1 A2 A3 A4 A5 A6 A7 A8 A9] [B1 B2 B3 B4 B5 B6 B7 B8 B9].
  split; [done|by eapply same_meta_trans|..].
  - intros j Hj Hn. rewrite B3, A3; [done|done|done|done|by rewrite A3].
  - intros j Hj Hs Hn. destruct (decide (slot (tv_blk v1) x1 j = 0)) as [E|E].
    + specialize (B4 j Hj E Hn). destruct (used v sb (slot (tv_blk v2) x2 j)) eqn:Hu; [|done].
      rewrite (ev_used _ _ _ _ A6) in B4; [done| |done].
      destruct (slot_map sb v2 x2 (ev_inv _ _ _ _ B6) B1 j Hj Hn) as (_ & ? & _). done.
    + rewrite B3 by done. by apply A4.
  - intros j Hj. by rewrite B5, A5.
  - destruct (evolves_trans _ _ _ _ _ _ A6 B6) as [E1 E2 E3 E4 E5 E6 E7]. split; try done.
    intros b Hb Hu Hm Hw. apply E6; try done. apply not_elem_of_union. split; [done|].
    unfold ind_set in *. destruct (Z.eqb_spec (ind_addr x1) 0) as [|Hn1]; [set_solver|].
    destruct (Z.eqb_spec (ind_addr x) 0) as [E0|Hn0].
    + intros Hbi%elem_of_singleton. subst b. specialize (A4 140 ltac:(lia) E0 Hn1). change (slot (tv_blk v1) x1 140) with (ind_addr x1) in A4. congruence.
    + specialize (A3 140 ltac:(lia) Hn0). unfold slot in A3. simpl in A3. by rewrite A3.
  - by eapply logs_trans.
  - lia.
  - intros b Hb Hu. destruct (B9 b Hb Hu) as [Hu1|]; [|by right]. destruct (A9 b Hb Hu1) as [|(j & Hj & E)]; [by left|].
    destruct (decide (b = 0)) as [->|Hn]; [left; apply (fi_meta _ _ Hi); pose proof (meta_pos sb (fi_layout _ _ Hi)); lia|].
    right. exists j. split; [done|]. rewrite B3; [done|done|congruence].
Qed.

Lemma grow_extends sb v x v' x' k b D : fs_inv v sb -> inode_ok v sb x -> grow sb v x v' x' k b ->
  evolves sb (ind_set x) v v' -> logs sb v v' D -> (size (free_blocks v sb) <= 1 + size (free_blocks v' sb))%nat ->
  extends sb 1 D v x v' x' /\ slot (tv_blk v') x' k = b /\ b <> 0.
Proof.
  intros Hi Hx Hg He Hl Hf. pose proof (meta_pos sb (fi_layout _ _ Hi)).
  destruct (gr_fresh _ _ _ _ _ _ _ Hg) as (F1 & F2 & F3). split.
  - split; try done.
    + by eapply grow_ok.
    + apply Hg.
    + intros j Hj Hn. rewrite (gr_slot _ _ _ _ _ _ _ Hg) by done. rewrite decide_False; [done|].
      intros ->. by rewrite (gr_empty _ _ _ _ _ _ _ Hg) in Hn.
    + intros j Hj Hs. rewrite (gr_slot _ _ _ _ _ _ _ Hg) by done. by case_decide.
    + intros j Hj. by eapply grow_data.
    + intros b' Hb' Hu. destruct (gr_new _ _ _ _ _ _ _ Hg b' Hb' Hu) as [Hold|Hnew]; [by left|right; subst b']. pose proof (gr_k _ _ _ _ _ _ _ Hg).
      exists k. split; [done|]. by rewrite (gr_slot _ _ _ _ _ _ _ Hg), decide_True.
  - pose proof (gr_k _ _ _ _ _ _ _ Hg). rewrite (gr_slot _ _ _ _ _ _ _ Hg), decide_True by (done || lia). split; [done|lia].
Qed.

(** Allocation while a buffer is held. *)
Lemma alloc_hold sb v v2 h a b : alloc_step sb (tv_hold h a v) v2 b ->
  exists v1, v2 = tv_hold h a v1 /\ alloc_step sb v v1 b.
Proof.
  intros [A1 A2 A3 A4 A5 A6 A7 A8 A9 A10 A11].
  exists (mktview (tv_blk v2) (tv_held v) (tv_mod v2) (tv_log v2) (tv_home v2) (tv_cap v2)).
  split; [destruct v2; simpl in *; unfold tv_hold; simpl; by rewrite A6|].
  split; try done. by destruct A11.
Qed.
Lemma alloc_free_size sb v v1 b : alloc_step sb v v1 b -> (size (free_blocks v sb) <= 1 + size (free_blocks v1 sb))%nat.
Proof.
  intros Ha. destruct (size (free_blocks v sb)) eqn:E; [lia|].
  pose proof (free_alloc sb v v1 b n Ha). lia.
Qed.

(** The pure part of filling an entry of the indirect block. *)
Lemma entry_extends sb v v1 x b k d : fs_inv v sb -> inode_ok v sb x -> alloc_step sb v v1 b ->
  12 <= k < 140 -> ind_addr x <> 0 -> tv_blk v !! ind_addr x = Some d -> length d = BSIZE ->
  slot (tv_blk v) x k = 0 ->
  let v' := tv_put (ind_addr x) (splice (Z.to_nat (4 * (k - 12))) (put32 b) d) v1 in
  extends sb 1 {[ind_addr x; b]} v x v' x /\ slot (tv_blk v') x k = b /\ b <> 0.
Proof.
  intros Hi Hx Ha Hk Hn Hd Hdl Hs v'.
  destruct (slot_map sb v x Hi Hx 140 ltac:(lia) Hn) as (Hnm & Hr & _). rewrite slot_ind in *.
  destruct (in_area _ _ _ Hx 140 ltac:(lia) Hn) as [Harea _]. rewrite slot_ind in Harea.
  pose proof (fi_layout _ _ Hi) as HL. pose proof (map_range sb HL _ (bblock_map sb HL _ Hr)).
  apply (grow_extends sb v x v' x k b); [done|done|by apply grow_entry| | |].
  - assert (ind_set x = ∅ ∪ {[ind_addr x]}) as ->.
    { unfold ind_set. rewrite (proj2 (Z.eqb_neq _ _) Hn). set_solver. }
    eapply evolves_trans; [by eapply alloc_evolves|]. apply put_evolves; [apply Ha|lia|done].
  - eapply logs_mono; [eapply logs_trans; [by apply alloc_logs|apply put_logs]|set_solver].
  - unfold v'. rewrite free_put_data by (done || apply Ha). by apply (alloc_free_size _ _ _ b).
Qed.

(** ** [bmap] *)

(** [s] with the store [t] and [x] as the in-core copy of inode [ip]. *)
Definition at_ip {S} (s : fs S) (ip : nat) (t : S) (x : dinode) : fs S :=
  set_icache (alter (set_din x) ip (f_icache s)) (set_store t s).

Section at_ip.
Context {S : Type} `{TxStore S}.
Context (s : fs S) (ip : nat) (X : inode).
Hypothesis HX : f_icache s !! ip = Some X.

Lemma at_ip_lookup t x : f_icache (at_ip s ip t x) !! ip = Some (set_din x X).
Proof. unfold at_ip. simpl. by rewrite list_lookup_alter_eq, HX. Qed.
Lemma at_ip_self t : at_ip s ip t (i_din X) = set_store t s.
Proof.
  unfold at_ip, set_icache, set_store. simpl. f_equal. rewrite (alter_insert _ _ _ _ HX).
  apply list_insert_id. rewrite HX. by destruct X.
Qed.
Lemma at_ip_store t t' x : set_store t' (at_ip s ip t x) = at_ip s ip t' x.
Proof. done. Qed.
Lemma at_ip_at t x t' x' : at_ip (at_ip s ip t x) ip t' x' = at_ip s ip t' x'.
Proof.
  unfold at_ip at 1. rewrite (alter_insert _ _ _ _ (at_ip_lookup t x)).
  unfold at_ip, set_icache, set_store. simpl. f_equal.
  rewrite !(alter_insert _ _ _ _ HX). by rewrite list_insert_insert_eq.
Qed.
Lemma at_ip_upd t x (f : dinode -> dinode) :
  set_icache (alter (fun y => set_din (f (i_din y)) y) ip (f_icache (at_ip s ip t x))) (at_ip s ip t x) =
  at_ip s ip t (f x).
Proof.
  rewrite (alter_insert _ _ _ _ (at_ip_lookup t x)). unfold at_ip, set_icache, set_store. simpl. f_equal.
  rewrite !(alter_insert _ _ _ _ HX). by rewrite list_insert_insert_eq.
Qed.
Lemma wp_get_ip Y (s' : fs S) (Q : inode -> fs S -> Prop) : f_icache s' !! ip = Some Y -> Q Y s' -> wp (get_ip ip) s' Q.
Proof. intros E HQ. unfold wp, get_ip. by rewrite E. Qed.
Lemma wp_upd_din t x (f : dinode -> dinode) (Q : unit -> fs S -> Prop) :
  Q tt (at_ip s ip t (f x)) -> wp (upd_ip ip (fun y => set_din (f (i_din y)) y)) (at_ip s ip t x) Q.
Proof. intros HQ. unfold upd_ip. wp_step. by rewrite at_ip_upd. Qed.
Lemma wp_get_addr (s' : fs S) i Y (Q : Z -> fs S -> Prop) :
  length (i_addrs Y) = 13%nat -> (i < 13)%nat -> Q (nth i (i_addrs Y) 0) s' -> wp (get_addr i Y) s' Q.
Proof.
  intros Hl Hi HQ. unfold get_addr. destruct (lookup_lt_is_Some_2 (i_addrs Y) i) as [a Ha]; [lia|].
  rewrite Ha. rewrite nth_lookup, Ha in HQ. by wp_step.
Qed.
End at_ip.

Section bmap.
Context {S : Type} `{TxStore S}.
Context (s : fs S) (sb : superblock) (ip : nat) (X : inode).
Hypothesis (Hsb : f_sb s = sb) (HX : f_icache s !! ip = Some X) (Hdev : i_dev X = ROOTDEV).

(** [if((addr = ip->addrs[i]) == 0) ip->addrs[i] = addr = balloc(ip->dev);] *)
Lemma fill_addr v x t i (Q : Z -> fs S -> Prop) :
  tx_at t v -> fs_inv v sb -> tv_mod v = ∅ -> held_blocks v = ∅ -> inode_ok v sb x -> (i <= 12)%nat ->
  let k := if decide (i = 12%nat) then 140 else Z.of_nat i in
  slot (tv_blk v) x k <> 0 \/ (room v sb 1 /\ (0 < size (free_blocks v sb))%nat) ->
  (forall t' v' x', tx_at t' v' ->
     (slot (tv_blk v) x k <> 0 -> v' = v /\ x' = x) ->
     extends sb 1 {[slot (tv_blk v') x' k]} v x v' x' -> slot (tv_blk v') x' k <> 0 ->
     Q (slot (tv_blk v') x' k) (at_ip s ip t' x')) ->
  wp (addr ← get_addr i (set_din x X);
      if addr =? 0 then
        addr ← balloc (i_dev X);
        upd_ip ip (fun x => set_din (din_addr i addr (i_din x)) x);;
        mret addr
      else mret addr) (at_ip s ip t x) Q.
Proof.
  intros Ht Hi Hm Hh Hx Hi12 k Hneed HQ.
  assert (Hslot : slot (tv_blk v) x k = nth i (d_addrs x) 0).
  { unfold k. case_decide; [by subst|]. unfold slot. rewrite (proj2 (Z.ltb_lt _ _)) by lia. by rewrite Nat2Z.id. }
  assert (0 <= k <= 140) as Hk by (unfold k; case_decide; lia).
  wp_step. apply wp_get_addr; [by apply (in_len _ _ _ Hx)|lia|].
  change (i_addrs (set_din x X)) with (d_addrs x). rewrite <- Hslot.
  destruct (Z.eqb_spec (slot (tv_blk v) x k) 0) as [E|E].
  2:{ wp_step. apply (HQ t v x); try done. eapply extends_mono; [by apply extends_refl|lia|set_solver]. }
  destruct Hneed as [|[Hroom Hfree]]; [done|].
  rewrite Hdev. wp_step. eapply (balloc_spec _ v sb); [exact Ht|exact Hsb|done| | |apply (room_alloc v sb 0 (fi_layout _ _ Hi) Hroom)|by eapply (free_some v sb 0)|].
  { intros b Hb. rewrite Hh in Hb. set_solver. }
  { eapply room_ready; [exact Hroom|done|rewrite Hh, size_empty; lia]. }
  intros b v1 t1 Ha _ Ht1. rewrite at_ip_store. wp_step. eapply wp_upd_din; [done|]. wp_step.
  assert (Hg : grow sb v x v1 (din_addr i b x) k b).
  { unfold k in *. case_decide as Ei.
    - subst i. by apply grow_ind.
    - replace i with (Z.to_nat (Z.of_nat i)) at 1 by lia. apply grow_direct; [done..|lia|done]. }
  destruct (grow_extends sb v x v1 (din_addr i b x) k b {[b]}) as (He & Es & Hb0); [done|done|done| | | |].
  { eapply evolves_mono; [by eapply alloc_evolves|set_solver]. }
  { by apply alloc_logs. }
  { by apply (alloc_free_size _ _ _ b). }
  specialize (HQ t1 v1 (din_addr i b x) Ht1). rewrite Es in HQ. by apply HQ.
Qed.

Lemma wp_assoc {A B C} (a : KM (fs S) A) (g : A -> KM (fs S) B) (h : B -> KM (fs S) C) s' Q :
  wp (a ≫= g) s' (fun r s'' => wp (h r) s'' Q) -> wp (x ← a; y ← g x; h y) s' Q.
Proof.
  intros H1%wp_bind_inv. apply wp_bind. eapply wp_mono; [exact H1|]. intros x s1 H2. by apply wp_bind.
Qed.

(** The entry of the indirect block, filled if it is null. *)
Lemma fill_entry v x t k (Q : Z -> fs S -> Prop) :
  tx_at t v -> fs_inv v sb -> tv_mod v = ∅ -> held_blocks v = ∅ -> inode_ok v sb x -> 12 <= k < 140 ->
  ind_addr x <> 0 -> (size (tv_log v) <= tv_cap v)%nat ->
  slot (tv_blk v) x k <> 0 \/ (room v sb 2 /\ (0 < size (free_blocks v sb))%nat) ->
  (forall t' v', tx_at t' v' ->
     (slot (tv_blk v) x k <> 0 -> v' = v) ->
     extends sb 1 {[ind_addr x; slot (tv_blk v') x k]} v x v' x -> slot (tv_blk v') x k <> 0 ->
     Q (slot (tv_blk v') x k) (at_ip s ip t' x)) ->
  wp (bp ← st (bs_bread (i_dev X) (ind_addr x));
      d ← st (bs_data bp);
      let addr := get32 (Z.to_nat (4 * (k - 12))) d in
      addr ← (if addr =? 0 then
                addr ← balloc (i_dev X);
                st (bs_put bp (Z.to_nat (4 * (k - 12))) (put32 addr));;
                st (bs_log_write bp);;
                mret addr
              else mret addr);
      st (bs_brelse bp);;
      mret addr) (at_ip s ip t x) Q.
Proof.
  intros Ht Hi Hm Hh Hx Hk Hn Hlg Hneed HQ. rewrite Hdev.
  destruct (slot_map sb v x Hi Hx 140 ltac:(lia) Hn) as (Hnm & Hr & Hu). rewrite slot_ind in *.
  destruct (in_area _ _ _ Hx 140 ltac:(lia) Hn) as [Harea _]. rewrite slot_ind in Harea.
  pose proof (meta_pos sb (fi_layout _ _ Hi)) as Hmp.
  destruct (fi_dom _ _ Hi (ind_addr x) ltac:(lia)) as [d Hd]. destruct (tx_wf _ _ _ _ Ht Hd) as (Hdl & Hdb & _).
  assert (ready v 2 0) as Hrd0 by (repeat split; [done|rewrite Hh, size_empty; lia|lia]).
  wp_step. eapply st_bread; [exact Ht|exact Hrd0|exact Hd|rewrite Hh; set_solver|].
  intros h t1 Hnone Ht1. rewrite at_ip_store. wp_step.
  eapply st_data; [exact Ht1|apply lookup_insert_eq|exact Hd|]. cbv zeta.
  assert (Hslot : slot (tv_blk v) x k = get32 (Z.to_nat (4 * (k - 12))) d).
  { unfold slot, ind_entry. rewrite (proj2 (Z.ltb_ge k 12)), (proj2 (Z.ltb_lt k 140)) by lia.
    by rewrite (proj2 (Z.eqb_neq _ _) Hn), Hd. }
  rewrite <- Hslot. destruct (Z.eqb_spec (slot (tv_blk v) x k) 0) as [E|E].
  2:{ wp_step. wp_step. wp_step. eapply st_brelse; [exact Ht1|apply lookup_insert_eq|simpl; rewrite Hm; set_solver|].
      intros t2 Ht2. rewrite tv_hold_drop, at_ip_store in * by done. wp_step. apply (HQ t2 v); try done.
      eapply extends_mono; [by apply extends_refl|lia|set_solver]. }
  destruct Hneed as [|[Hroom Hfree]]; [done|].
  pose proof (room_ready v sb 2 2 Hroom Hm ltac:(rewrite Hh, size_empty; lia)) as Hrd.
  wp_step. wp_step. eapply (balloc_spec _ (tv_hold h (ind_addr x) v) sb); [exact Ht1|exact Hsb|by destruct Hi| | |apply (room_alloc v sb 1 (fi_layout _ _ Hi) Hroom)|by eapply (free_some v sb 0)|].
  { intros b. rewrite held_hold by done. rewrite Hh, union_empty_r_L. intros ->%elem_of_singleton.
    split_and!; [done|lia|lia|done|lia]. }
  { destruct Hrd as (_ & _ & Hrd). split; [done|]. rewrite held_hold by done.
    rewrite Hh, union_empty_r_L, size_singleton. split; [lia|simpl; lia]. }
  intros b v2 t2 Ha2 _ Ht2. destruct (alloc_hold _ _ _ _ _ _ Ha2) as (v1 & -> & Ha). rewrite at_ip_store.
  assert (tv_blk v1 !! ind_addr x = Some d) as Hd1.
  { rewrite <- (slot_ind v x) in *. by rewrite (alloc_data sb v v1 x b). }
  destruct (alloc_fresh sb v v1 b Hi Ha) as (Hf1 & Hf2 & Hf3). pose proof (ly_size _ (fi_layout _ _ Hi)).
  assert (tv_mod v1 = ∅) as Hm1 by by rewrite (as_mod _ _ _ _ Ha).
  assert (tv_held v1 !! h = None) as Hh1 by by rewrite (as_held _ _ _ _ Ha).
  assert (length (put32 b) = 4%nat) as Hpl by apply length_put32.
  pose proof (room_logs v v1 sb 1 1 {[b]} Hroom (alloc_logs _ _ _ _ Hi Ha) ltac:(by rewrite size_singleton)
    (as_cap _ _ _ _ Ha)) as Hroom1.
  apply (room_ready _ _ 2) in Hroom1 as (_ & _ & Hlog); [|done|unfold held_blocks; rewrite (as_held _ _ _ _ Ha); by destruct Hrd as (_ & ? & _)].
  wp_step. eapply st_put; [exact Ht2|apply lookup_insert_eq|exact Hd1|unfold BSIZE in *; lia|apply le_bytes_byte|].
  intros t3 Ht3. wp_step. eapply st_log_write; [exact Ht3|apply lookup_insert_eq| |simpl; lia|].
  { simpl. rewrite (as_home _ _ _ _ Ha). apply (fi_home _ _ Hi). pose proof (fi_layout _ _ Hi) as HL.
    pose proof (map_range sb HL _ (bblock_map sb HL _ Hr)). lia. }
  intros t4 Ht4. wp_step. wp_step. eapply st_brelse; [exact Ht4|apply lookup_insert_eq|simpl; set_solver|].
  intros t5 Ht5. wp_step. rewrite tv_set_mark in Ht5 by (done || set_solver).
  destruct (entry_extends sb v v1 x b k d) as (He & Es & Hb0); [done..|].
  rewrite !at_ip_store. specialize (HQ t5 _ Ht5). rewrite Es in HQ. by apply HQ.
Qed.

Lemma bmap_spec v x t k (Q : Z -> fs S -> Prop) :
  tx_at t v -> fs_inv v sb -> tv_mod v = ∅ -> held_blocks v = ∅ -> inode_ok v sb x -> 0 <= k < 140 ->
  (size (tv_log v) <= tv_cap v)%nat ->
  slot (tv_blk v) x k <> 0 \/ (room v sb 3 /\ (2 <= size (free_blocks v sb))%nat) ->
  (forall t' v' x', tx_at t' v' ->
     (slot (tv_blk v) x k <> 0 -> v' = v /\ x' = x) ->
     extends sb 2 (ind_set x' ∪ {[slot (tv_blk v') x' k]}) v x v' x' -> slot (tv_blk v') x' k <> 0 ->
     Q (slot (tv_blk v') x' k) (at_ip s ip t' x')) ->
  wp (bmap ip k) (at_ip s ip t x) Q.
Proof.
  intros Ht Hi Hm Hh Hx Hk Hlg Hneed HQ. unfold bmap. wp_step.
  eapply wp_get_ip; [by eapply at_ip_lookup|]. unfold NDIRECT, NINDIRECT.
  destruct (Z.ltb_spec k 12).
  - apply (fill_addr v x t (Z.to_nat k)); try done; [lia|..]; rewrite decide_False by lia; rewrite Z2Nat.id by lia.
    + destruct Hneed as [|[Hr Hf]]; [by left|right]. unfold room in *. lia.
    + intros t' v' x' Ht' Hsame He Hs. apply (HQ t' v' x'); try done.
      eapply extends_mono; [exact He|lia|set_solver].
  - rewrite (proj2 (Z.ltb_lt (k - 12) 128)) by lia. apply wp_assoc.
    assert (slot (tv_blk v) x k <> 0 -> ind_addr x <> 0) as Hki.
    { unfold slot, ind_entry. rewrite (proj2 (Z.ltb_ge k 12)), (proj2 (Z.ltb_lt k 140)) by lia.
      destruct (Z.eqb_spec (ind_addr x) 0); done. }
    apply (fill_addr v x t 12); try done; change (Z.to_nat 12) with 12%nat; rewrite decide_True by done.
    { destruct Hneed as [Hs|[Hr Hf]]; [left; by apply Hki|right]. unfold room in *. lia. }
    intros t1 v1 x1 Ht1 Hsame1 He1 Hs1. change (slot (tv_blk v1) x1 140) with (ind_addr x1) in *.
    pose proof (ev_cap _ _ _ _ (ex_ev _ _ _ _ _ _ _ He1)) as Hcap1.
    assert (slot (tv_blk v) x k <> 0 -> v1 = v /\ x1 = x) as Hsame1' by (intros; by apply Hsame1, Hki).
    assert (slot (tv_blk v) x k = 0 -> room v1 sb 2 /\ (1 <= size (free_blocks v1 sb))%nat) as Hneed1.
    { intros Hs0. destruct Hneed as [|[Hr Hf]]; [done|]. split.
      - eapply (room_logs v v1 sb 2 1); [done|apply He1|by rewrite size_singleton|done].
      - pose proof (ex_free _ _ _ _ _ _ _ He1). lia. }
    eapply (fill_entry v1 x1 t1 k); try done.
    + apply He1.
    + by rewrite (ev_mod _ _ _ _ (ex_ev _ _ _ _ _ _ _ He1)).
    + unfold held_blocks. by rewrite (ev_held _ _ _ _ (ex_ev _ _ _ _ _ _ _ He1)).
    + apply He1.
    + lia.
    + destruct (decide (slot (tv_blk v) x k = 0)) as [E|E]; [|by destruct (Hsame1' E) as [-> _]].
      destruct (Hneed1 E) as [Hr _]. unfold room in Hr.
      pose proof (subseteq_size (tv_log v1) (tv_log v1 ∪ maps sb) ltac:(set_solver)). lia.
    + destruct (decide (slot (tv_blk v) x k = 0)) as [E|E]; [right; by apply Hneed1|left].
      by destruct (Hsame1' E) as [-> ->].
    + intros t2 v2 Ht2 Hsame2 He2 Hs2. apply (HQ t2 v2 x1); try done.
      * intros E. destruct (Hsame1' E) as [-> ->]. split; [by apply Hsame2|done].
      * eapply extends_mono; [eapply extends_trans; [done|done|exact He1|exact He2]|lia|].
        unfold ind_set. rewrite (proj2 (Z.eqb_neq _ _) Hs1). set_solver.
Qed.
End bmap.
