(* ===== verification/FsFile.v ===== *)
(** * File contents: specification of [readi], [writei] and [iupdate]

    The contents of an inode are the bytes of its blocks up to its size.
    [readi] returns them and changes nothing; [writei] overwrites them,
    extending the file when it writes past its end, and leaves every other
    file's blocks alone; the inode on disk is the one in core. *)

From S2P Require Import Prelude Sleeplock Bio Log LogSpec BlockStore Fs FsBlocks FsInode.

(** ** Contents *)

Definition fbyte (V : gmap Z block) (x : dinode) (i : Z) : Z :=
  nth (Z.to_nat (i mod BLK)) (fdata V x (i / BLK)) 0.
Definition content (V : gmap Z block) (x : dinode) : list Z := fbyte V x <$> seqZ 0 (d_size x).
Lemma length_content V x : length (content V x) = Z.to_nat (d_size x).
Proof. unfold content. by rewrite length_fmap, length_seqZ. Qed.

(** ** Chunks *)

Definition nblocks (off r : Z) : nat :=
  if r <=? 0 then 0%nat else Z.to_nat ((off + r - 1) / BLK - off / BLK + 1).

Lemma BLK_eq : BLK = 512.
Proof. done. Qed.
#[local] Opaque BLK.

Lemma chunk_step off r m : 0 <= off -> 0 < r -> m = Z.min r (BLK - off mod BLK) ->
  0 < m <= r /\ off mod BLK + m <= BLK /\ nblocks off r = S (nblocks (off + m) (r - m)).
Proof.
  intros Ho Hr ->. pose proof BLK_eq. pose proof (Z.div_mod off BLK ltac:(lia)).
  pose proof (Z.mod_pos_bound off BLK ltac:(lia)) as Hm. split; [lia|]. split; [lia|].
  unfold nblocks. rewrite (proj2 (Z.leb_gt r 0)) by lia.
  assert (off / BLK <= (off + r - 1) / BLK) by (apply Z.div_le_mono; lia).
  destruct (Z.min_spec r (BLK - off mod BLK)) as [[Hlt ->]|[Hge ->]].
  - rewrite Z.sub_diag. simpl.
    assert ((off + r - 1) / BLK = off / BLK); [|lia].
    symmetry. apply (Z.div_unique _ _ _ (off mod BLK + r - 1)); lia.
  - assert ((off + (BLK - off mod BLK)) / BLK = off / BLK + 1) as E.
    { symmetry. apply (Z.div_unique _ _ _ 0); lia. }
    rewrite E. replace (off + (BLK - off mod BLK) + (r - (BLK - off mod BLK)) - 1) with (off + r - 1) by lia.
    destruct (Z.leb_spec (r - (BLK - off mod BLK)) 0) as [Hz|Hz].
    + assert ((off + r - 1) / BLK = off / BLK); [|lia].
      symmetry. apply (Z.div_unique _ _ _ (off mod BLK + r - 1)); lia.
    + assert (off / BLK + 1 <= (off + r - 1) / BLK) by (rewrite <- E; apply Z.div_le_mono; lia). lia.
Qed.
Lemma nblocks_pos off n : 0 < n -> (0 < nblocks off n)%nat.
Proof. intros Hn. pose proof BLK_eq. unfold nblocks. rewrite (proj2 (Z.leb_gt n 0)) by lia. assert (off / BLK <= (off + n - 1) / BLK) by (apply Z.div_le_mono; lia). lia. Qed.
Lemma nblocks_bound off n : 0 <= off -> 0 <= n -> (nblocks off n < max_blocks n)%nat.
Proof.
  intros Ho Hn. pose proof BLK_eq. unfold nblocks, max_blocks.
  assert (0 <= n / BLK) by (apply Z.div_pos; lia). destruct (Z.leb_spec n 0); [lia|].
  pose proof (Z.div_mod off BLK ltac:(lia)). pose proof (Z.mod_pos_bound off BLK ltac:(lia)).
  pose proof (Z.div_mod n BLK ltac:(lia)). pose proof (Z.mod_pos_bound n BLK ltac:(lia)).
  assert ((off + n - 1) / BLK <= off / BLK + n / BLK + 1); [|lia].
  apply Z.lt_succ_r, Z.div_lt_upper_bound; lia.
Qed.

Lemma slice_nth (d : list Z) o m : 0 <= o -> 0 <= m -> o + m <= Z.of_nat (length d) ->
  slice (Z.to_nat o) (Z.to_nat m) d = (fun j => nth (Z.to_nat j) d 0) <$> seqZ o m.
Proof.
  intros Ho Hm Hl. apply list_eq. intros i. rewrite list_lookup_fmap.
  destruct (decide (Z.of_nat i < m)) as [Hi|Hi].
  - rewrite slice_lookup, lookup_seqZ_lt by lia. simpl. rewrite nth_lookup.
    replace (Z.to_nat (o + Z.of_nat i)) with (Z.to_nat o + i)%nat by lia.
    destruct (lookup_lt_is_Some_2 d (Z.to_nat o + i)) as [y Hy]; [lia|]. by rewrite Hy.
  - rewrite lookup_seqZ_ge by lia. apply lookup_ge_None. rewrite length_slice; lia.
Qed.

(** Bytes [off .. off+m-1] lie in block [off / BLK]. *)
Lemma chunk_bytes V x off m : 0 <= off -> 0 <= m -> off mod BLK + m <= BLK ->
  length (fdata V x (off / BLK)) = BSIZE ->
  slice (Z.to_nat (off mod BLK)) (Z.to_nat m) (fdata V x (off / BLK)) = fbyte V x <$> seqZ off m.
Proof.
  intros Ho Hm Hb Hl. pose proof BLK_eq as HB. pose proof (Z.mod_pos_bound off BLK ltac:(lia)).
  rewrite slice_nth; [|lia|lia|rewrite Hl; unfold BSIZE; lia].
  apply list_eq. intros i. rewrite !list_lookup_fmap.
  destruct (decide (Z.of_nat i < m)) as [Hi|Hi]; [|by rewrite !lookup_seqZ_ge by lia].
  rewrite !lookup_seqZ_lt by lia. simpl. unfold fbyte. f_equal.
  pose proof (Z.div_mod off BLK ltac:(lia)).
  assert ((off + Z.of_nat i) / BLK = off / BLK) as -> by (symmetry; apply (Z.div_unique _ _ _ (off mod BLK + Z.of_nat i)); lia).
  assert ((off + Z.of_nat i) mod BLK = off mod BLK + Z.of_nat i) as -> by (symmetry; apply (Z.mod_unique _ _ (off / BLK)); lia).
  done.
Qed.
Lemma seqZ_split {A} (f : Z -> A) o m r : 0 <= m <= r -> f <$> seqZ o r = (f <$> seqZ o m) ++ (f <$> seqZ (o + m) (r - m)).
Proof.
  intros H. replace r with (m + (r - m)) at 1 by lia. rewrite seqZ_app by lia. apply fmap_app.
Qed.

Lemma slot_block {S} `{TxStore S} sb v x k (t : S) : fs_inv v sb -> inode_ok v sb x ->
  tx_at t v -> 0 <= k < 140 -> slot (tv_blk v) x k <> 0 ->
  tv_blk v !! slot (tv_blk v) x k = Some (fdata (tv_blk v) x k) /\ length (fdata (tv_blk v) x k) = BSIZE /\
  Forall is_byte (fdata (tv_blk v) x k).
Proof.
  intros Hi Hx Ht Hk Hs. destruct (in_area _ _ _ Hx k ltac:(lia) Hs) as [Hr _].
  pose proof (meta_pos sb (fi_layout _ _ Hi)). destruct (fi_dom _ _ Hi (slot (tv_blk v) x k) ltac:(lia)) as [d Hd]. unfold fdata. rewrite (proj2 (Z.eqb_neq _ _) Hs), Hd. simpl.
  destruct (tx_wf _ _ _ _ Ht Hd) as (? & ? & _). done.
Qed.

Section read.
Context {S : Type} `{TxStore S}.
Context (s : fs S) (sb : superblock) (ip : nat) (X : inode) (v : tview) (x : dinode).
Hypothesis (Hsb : f_sb s = sb) (HX : f_icache s !! ip = Some X) (Hdev : i_dev X = ROOTDEV).
Hypothesis (Hi : fs_inv v sb) (Hm : tv_mod v = ∅) (Hh : held_blocks v = ∅) (Hx : inode_ok v sb x).
Hypothesis (Hlg : (size (tv_log v) <= tv_cap v)%nat).

Lemma read_blocks_spec fuel : forall t off n tot (Q : list Z -> fs S -> Prop),
  tx_at t v -> 0 <= off -> 0 <= tot <= n -> off + (n - tot) <= d_size x ->
  (nblocks off (n - tot) < fuel)%nat ->
  (forall t', tx_at t' v -> Q (fbyte (tv_blk v) x <$> seqZ off (n - tot)) (at_ip s ip t' x)) ->
  wp (read_blocks fuel ip ROOTDEV off n tot) (at_ip s ip t x) Q.
Proof.
  pose proof BLK_eq as HB. pose proof (in_size _ _ _ Hx) as Hsz.
  induction fuel as [|fuel IH]; intros t off n tot Q Ht Ho Htot Hoff Hf HQ; [lia|]. cbn [read_blocks].
  destruct (Z.ltb_spec tot n); [|wp_step; replace (n - tot) with 0 in HQ by lia; by apply HQ].
  destruct (chunk_step off (n - tot) (chunk n tot off) Ho ltac:(lia) eq_refl) as (Hm1 & Hm2 & Hnb).
  set (m := chunk n tot off) in *. clearbody m.
  pose proof (Z.div_mod off BLK ltac:(lia)). pose proof (Z.mod_pos_bound off BLK ltac:(lia)).
  assert (0 <= off / BLK < 140) as Hk.
  { unfold MAXFILE, NDIRECT, NINDIRECT in Hsz. split; [apply Z.div_pos; lia|apply Z.div_lt_upper_bound; lia]. }
  assert (slot (tv_blk v) x (off / BLK) <> 0) as Hs by (apply (in_full _ _ _ Hx); lia).
  wp_step. eapply (bmap_spec s sb ip X); try done; [by left|].
  intros t1 v1 x1 Ht1 Hsame _ _. destruct (Hsame Hs) as [-> ->].
  destruct (slot_block sb v x _ t Hi Hx Ht Hk Hs) as (Hd & Hdl & _).
  assert (ready v 2 0) as Hrd by (repeat split; [done|rewrite Hh, size_empty; lia|lia]).
  wp_step. eapply st_bread; [exact Ht1|exact Hrd|exact Hd|rewrite Hh; set_solver|].
  intros h t2 Hn Ht2. wp_step. eapply st_data; [exact Ht2|apply lookup_insert_eq|exact Hd|].
  wp_step. eapply st_brelse; [exact Ht2|apply lookup_insert_eq|simpl; rewrite Hm; set_solver|].
  intros t3 Ht3. rewrite tv_hold_drop in Ht3 by done. rewrite !at_ip_store. wp_step.
  rewrite u32_id by (unfold MAXFILE, NDIRECT, NINDIRECT in Hsz; lia).
  apply IH; [done|lia|lia|lia|replace (n - (tot + m)) with (n - tot - m) by lia; lia|].
  intros t4 Ht4. wp_step. rewrite (chunk_bytes _ _ off m) by (done || lia).
  replace (n - (tot + m)) with (n - tot - m) by lia. rewrite <- seqZ_split by lia. by apply HQ.
Qed.
End read.

(** What the file operations start from: the mounted file system, no buffer
    held, and a cached inode whose contents are well formed. *)
Record file_pre {S} `{TxStore S} (s : fs S) (v : tview) (sb : superblock) (ip : nat) (X : inode) : Prop := mk_file_pre {
  fp_at : tx_at (f_store s) v;
  fp_sb : f_sb s = sb;
  fp_inv : fs_inv v sb;
  fp_mod : tv_mod v = ∅;
  fp_held : held_blocks v = ∅;
  fp_log : (size (tv_log v) <= tv_cap v)%nat;
  fp_ip : f_icache s !! ip = Some X;
  fp_dev : i_dev X = ROOTDEV;
  fp_ok : inode_ok v sb (i_din X)
}.

Section readi.
Context {S : Type} `{TxStore S} (devsw : Z -> devops S).
Context (s : fs S) (sb : superblock) (ip : nat) (X : inode) (v : tview).
Hypothesis P : file_pre s v sb ip X.

Lemma slice_content (V : gmap Z block) x off n : 0 <= off -> 0 <= n -> off + n <= d_size x ->
  fbyte V x <$> seqZ off n = slice (Z.to_nat off) (Z.to_nat n) (content V x).
Proof.
  intros Ho Hn Hl. unfold content. apply list_eq. intros i. rewrite list_lookup_fmap.
  destruct (decide (Z.of_nat i < n)) as [Hi|Hi].
  - rewrite slice_lookup, list_lookup_fmap, !lookup_seqZ_lt by lia. simpl. do 2 f_equal. lia.
  - rewrite lookup_seqZ_ge by lia. symmetry. apply lookup_ge_None. rewrite length_slice; [lia|].
    rewrite length_fmap, length_seqZ. lia.
Qed.

Lemma readi_spec off n (Q : Z * list Z -> fs S -> Prop) :
  i_type X <> T_DEV -> 0 <= off <= i_size X -> 0 <= n -> off + n < 2 ^ 32 ->
  (forall t, tx_at t v ->
     let m := Z.min n (i_size X - off) in
     Q (m, slice (Z.to_nat off) (Z.to_nat m) (content (tv_blk v) (i_din X))) (set_store t s)) ->
  wp (readi devsw ip off n) s Q.
Proof.
  intros Hty Ho Hn Hlt HQ. destruct P as [P1 P2 P3 P4 P5 P6 P7 P8 P9]. unfold readi.
  wp_step. eapply wp_get_ip; [done|]. rewrite (proj2 (Z.eqb_neq _ _) Hty).
  rewrite (proj2 (Z.ltb_ge _ _)) by lia. rewrite u32_id by lia. rewrite (proj2 (Z.ltb_ge _ _)) by lia. cbn [orb].
  pose proof (in_size _ _ _ P9) as Hsz. pose proof BLK_eq as HB.
  set (m := if i_size X <? off + n then u32 (i_size X - off) else n).
  assert (m = Z.min n (i_size X - off)) as Em.
  { unfold m. change (d_size (i_din X)) with (i_size X) in Hsz.
    destruct (Z.ltb_spec (i_size X) (off + n)); [rewrite u32_id by (unfold MAXFILE, NDIRECT, NINDIRECT in *; lia)|]; lia. }
  wp_step. replace s with (at_ip s ip (f_store s) (i_din X)) at 1 by (rewrite at_ip_self by done; by destruct s).
  rewrite P8. change (i_size X) with (d_size (i_din X)) in *.
  eapply (read_blocks_spec s sb ip X v (i_din X)); try done; try lia.
  { pose proof (nblocks_bound off m). rewrite Z.sub_0_r. lia. }
  intros t Ht. wp_step. rewrite Z.sub_0_r, slice_content by lia. rewrite at_ip_self by done.
  rewrite i32_id by (unfold MAXFILE, NDIRECT, NINDIRECT in *; lia). rewrite Em. by apply (HQ t).
Qed.
End readi.

(** ** Writing *)

(** The blocks of an inode. *)
Definition owned (V : gmap Z block) (x : dinode) : gset Z := list_to_set (slot V x <$> seqZ 0 141) ∖ {[0]}.
Lemma elem_of_owned V x b : b ∈ owned V x <-> b <> 0 /\ exists k, 0 <= k <= 140 /\ slot V x k = b.
Proof.
  unfold owned. rewrite elem_of_difference, elem_of_singleton, elem_of_list_to_set, list_elem_of_fmap.
  setoid_rewrite elem_of_seqZ. split.
  - intros [(k & -> & Hk) Hn]. split; [done|]. exists k. split; [lia|done].
  - intros [Hn (k & Hk & <-)]. split; [|done]. exists k. split; [done|lia].
Qed.

(** [x] became [x'] by writing [bytes] at [off], over the [n] blocks of [D]. *)
Record wrote (sb : superblock) (n : nat) (D : gset Z) (off : Z) (bytes : list Z) (v : tview) (x : dinode) (v' : tview) (x' : dinode) : Prop := mk_wrote {
  wr_ok : inode_ok v' sb x';
  wr_meta : same_meta x x';
  wr_keep : forall j, 0 <= j <= 140 -> slot (tv_blk v) x j <> 0 -> slot (tv_blk v') x' j = slot (tv_blk v) x j;
  wr_fresh : forall j, 0 <= j <= 140 -> slot (tv_blk v) x j = 0 -> slot (tv_blk v') x' j <> 0 ->
    used v sb (slot (tv_blk v') x' j) = false;
  wr_full : forall i, off <= i < off + Z.of_nat (length bytes) -> slot (tv_blk v') x' (i / BLK) <> 0;
  wr_bytes : forall i, 0 <= i < MAXFILE * BLK -> fbyte (tv_blk v') x' i =
    if decide (off <= i < off + Z.of_nat (length bytes)) then nth (Z.to_nat (i - off)) bytes 0
    else fbyte (tv_blk v) x i;
  wr_ev : evolves sb (owned (tv_blk v) x) v v';
  wr_same : (forall i, off <= i < off + Z.of_nat (length bytes) -> slot (tv_blk v) x (i / BLK) <> 0) -> x' = x;
  wr_size : (size D <= n)%nat;
  wr_logs : logs sb v v' (ind_set x' ∪ D);
  wr_free : (size (free_blocks v sb) <= 2 * n + size (free_blocks v' sb))%nat;
  wr_new : forall b, 0 <= b < sb_size sb -> used v' sb b = true -> used v sb b = true \/ b ∈ owned (tv_blk v') x'
}.

Lemma wrote_refl sb off v x : fs_inv v sb -> inode_ok v sb x -> wrote sb 0 ∅ off [] v x v x.
Proof.
  intros Hi Hx. split; try done.
  - simpl. intros i. lia.
  - simpl. intros i Hr. by rewrite decide_False by lia.
  - eapply logs_mono; [apply logs_refl|set_solver].
  - auto.
Qed.

(** One chunk: block [k] got [bytes] at [o]. *)
Lemma wrote_put sb v x k o bytes : fs_inv v sb -> inode_ok v sb x -> 0 <= k < 140 ->
  slot (tv_blk v) x k <> 0 -> length (fdata (tv_blk v) x k) = BSIZE ->
  0 <= o -> o + Z.of_nat (length bytes) <= BLK -> (0 < length bytes)%nat ->
  let v' := tv_put (slot (tv_blk v) x k) (splice (Z.to_nat o) bytes (fdata (tv_blk v) x k)) v in
  wrote sb 1 {[slot (tv_blk v) x k]} (k * BLK + o) bytes v x v' x.
Proof.
  intros Hi Hx Hk Hs Hl Ho Hb Hpos v'. pose proof BLK_eq as HB. assert (BSIZE = 512%nat) as HBS by done.
  destruct (slot_map sb v x Hi Hx k ltac:(lia) Hs) as (Hnm & Hr & Hu).
  destruct (in_area _ _ _ Hx k ltac:(lia) Hs) as [Harea _].
  pose proof (fi_layout _ _ Hi) as HL. pose proof (map_range sb HL _ (bblock_map sb HL _ Hr)) as [Hmr Hmr2].
  assert (evolves sb {[slot (tv_blk v) x k]} v v') as He by (apply put_evolves; [done|lia|done]).
  assert (ind_addr x <> slot (tv_blk v) x k) as Hik.
  { intros E. rewrite <- (slot_ind v x) in E. symmetry in E. apply (in_inj _ _ _ Hx) in E; [lia..|done]. }
  assert (forall j, slot (tv_blk v') x j = slot (tv_blk v) x j) as Hsl.
  { intros j. apply (slot_evolves sb v x Hi Hx _ v' j He). set_solver. }
  split; try done.
  - apply (inode_ok_evolves sb v x Hi Hx _ v' He). set_solver.
  - intros j Hj E. rewrite Hsl, E. done.
  - intros i Hir. rewrite Hsl. assert (i / BLK = k) as ->; [|done].
    symmetry. apply (Z.div_unique _ _ _ (i - k * BLK)); lia.
  - intros i Hir. unfold fbyte. pose proof (Z.div_mod i BLK ltac:(lia)). pose proof (Z.mod_pos_bound i BLK ltac:(lia)).
    assert (0 <= i / BLK < 140) as Hki.
    { unfold MAXFILE, NDIRECT, NINDIRECT in Hir. split; [apply Z.div_pos; lia|apply Z.div_lt_upper_bound; lia]. }
    destruct (decide (i / BLK = k)) as [E|E].
    + assert (fdata (tv_blk v') x (i / BLK) = splice (Z.to_nat o) bytes (fdata (tv_blk v) x k)) as ->.
      { unfold fdata at 1. rewrite Hsl, E, (proj2 (Z.eqb_neq _ _) Hs). unfold v'. cbn [tv_blk tv_put].
        by rewrite lookup_insert_eq. }
      rewrite !nth_lookup. rewrite E in *. case_decide as Hd.
      * rewrite splice_lookup_in by lia. do 2 f_equal. lia.
      * rewrite splice_lookup_out by lia. done.
    + rewrite decide_False by nia. f_equal. apply (fdata_evolves sb v x Hi Hx _ v' _ He); [set_solver|lia|].
      intros Hx'%elem_of_singleton. destruct (decide (slot (tv_blk v) x (i / BLK) = 0)) as [E0|E0]; [congruence|].
      apply (in_inj _ _ _ Hx) in Hx'; [done|lia..|done].
  - eapply evolves_mono; [exact He|]. intros b Hb'%elem_of_singleton. subst b. apply elem_of_owned. split; [done|]. exists k. split; [lia|done].
  - by rewrite size_singleton.
  - eapply logs_mono; [apply put_logs|set_solver].
  - unfold v'. rewrite free_put_data by done. lia.
  - intros b Hb'. unfold v'. rewrite used_data by done. auto.
Qed.

(** The blocks of [x'] that were in use before are blocks of [x]. *)
Lemma owned_keep sb v x v' x' b :
  (forall j, 0 <= j <= 140 -> slot (tv_blk v) x j <> 0 -> slot (tv_blk v') x' j = slot (tv_blk v) x j) ->
  (forall j, 0 <= j <= 140 -> slot (tv_blk v) x j = 0 -> slot (tv_blk v') x' j <> 0 ->
    used v sb (slot (tv_blk v') x' j) = false) ->
  b ∈ owned (tv_blk v') x' -> used v sb b = true -> b ∈ owned (tv_blk v) x.
Proof.
  rewrite !elem_of_owned. intros Hk Hf (Hb & j & Hj & <-) Hu. split; [done|]. exists j. split; [done|].
  destruct (decide (slot (tv_blk v) x j = 0)) as [E|E]; [|by rewrite Hk].
  by rewrite Hf in Hu.
Qed.
Lemma owned_grows v x v' x' :
  (forall j, 0 <= j <= 140 -> slot (tv_blk v) x j <> 0 -> slot (tv_blk v') x' j = slot (tv_blk v) x j) -> owned (tv_blk v) x ⊆ owned (tv_blk v') x'.
Proof. intros Hk b (Hb & j & Hj & E)%elem_of_owned. apply elem_of_owned. split; [done|]. exists j. split; [done|]. rewrite Hk; congruence. Qed.
Lemma ind_set_keep v x v' x' :
  (forall j, 0 <= j <= 140 -> slot (tv_blk v) x j <> 0 -> slot (tv_blk v') x' j = slot (tv_blk v) x j) ->
  ind_set x ⊆ ind_set x'.
Proof.
  intros Hk. unfold ind_set. destruct (Z.eqb_spec (ind_addr x) 0) as [|Hn]; [set_solver|].
  specialize (Hk 140 ltac:(lia) Hn). change (slot (tv_blk v') x' 140) with (ind_addr x') in Hk.
  change (slot (tv_blk v) x 140) with (ind_addr x) in Hk. rewrite Hk.
  by rewrite (proj2 (Z.eqb_neq _ _) Hn).
Qed.
Lemma ind_owned V x : ind_set x ⊆ owned V x.
Proof.
  unfold ind_set. destruct (Z.eqb_spec (ind_addr x) 0) as [|Hn]; [set_solver|].
  intros b ->%elem_of_singleton. apply elem_of_owned. split; [done|]. by exists 140.
Qed.
Lemma fresh_trans sb v x v1 x1 v2 x2 : evolves sb (owned (tv_blk v) x) v v1 ->
  (forall j, 0 <= j <= 140 -> slot (tv_blk v) x j = 0 -> slot (tv_blk v1) x1 j <> 0 ->
    used v sb (slot (tv_blk v1) x1 j) = false) ->
  (forall j, 0 <= j <= 140 -> slot (tv_blk v1) x1 j <> 0 -> slot (tv_blk v2) x2 j = slot (tv_blk v1) x1 j) ->
  (forall j, 0 <= j <= 140 -> slot (tv_blk v1) x1 j = 0 -> slot (tv_blk v2) x2 j <> 0 ->
    used v1 sb (slot (tv_blk v2) x2 j) = false) ->
  fs_inv v2 sb -> inode_ok v2 sb x2 ->
  forall j, 0 <= j <= 140 -> slot (tv_blk v) x j = 0 -> slot (tv_blk v2) x2 j <> 0 ->
    used v sb (slot (tv_blk v2) x2 j) = false.
Proof.
  intros He A4 B3 B4 Hi2 B1 j Hj Hs Hn. destruct (decide (slot (tv_blk v1) x1 j = 0)) as [E|E].
  - specialize (B4 j Hj E Hn). destruct (used v sb (slot (tv_blk v2) x2 j)) eqn:Hu; [|done].
    rewrite (ev_used _ _ _ _ He) in B4; [done| |done].
    by destruct (slot_map sb v2 x2 Hi2 B1 j Hj Hn) as (_ & ? & _).
  - rewrite B3 by done. by apply A4.
Qed.
Lemma owned_trans sb v x v1 x1 v2 : evolves sb (owned (tv_blk v) x) v v1 ->
  (forall j, 0 <= j <= 140 -> slot (tv_blk v) x j <> 0 -> slot (tv_blk v1) x1 j = slot (tv_blk v) x j) ->
  (forall j, 0 <= j <= 140 -> slot (tv_blk v) x j = 0 -> slot (tv_blk v1) x1 j <> 0 ->
    used v sb (slot (tv_blk v1) x1 j) = false) ->
  evolves sb (owned (tv_blk v1) x1) v1 v2 -> evolves sb (owned (tv_blk v) x) v v2.
Proof.
  intros He1 Hk Hf He2. destruct (evolves_trans _ _ _ _ _ _ He1 He2) as [E1 E2 E3 E4 E5 E6 E7]. split; try done.
  intros b Hb Hu Hm Hw. apply E6; try done. apply not_elem_of_union. split; [done|].
  intros Hb1. apply Hw. by apply (owned_keep sb v x v1 x1).
Qed.

Lemma zero_used sb v : fs_inv v sb -> used v sb 0 = true.
Proof. intros Hi. apply (fi_meta _ _ Hi). pose proof (meta_pos sb (fi_layout _ _ Hi)). lia. Qed.

Lemma extends_wrote sb n D off bytes v x v1 x1 v2 x2 : fs_inv v sb -> inode_ok v sb x ->
  extends sb 2 (ind_set x1 ∪ D) v x v1 x1 -> wrote sb n D off bytes v1 x1 v2 x2 -> (0 < n)%nat ->
  ((forall i, off <= i < off + Z.of_nat (length bytes) -> slot (tv_blk v) x (i / BLK) <> 0) -> x2 = x) ->
  size (free_blocks v1 sb) = size (free_blocks v2 sb) ->
  wrote sb n D off bytes v x v2 x2.
Proof.
  intros Hi Hx [A1 A2 A3 A4 A5 A6 A7 A8 A9] [B1 B2 B3 B4 B5 B6 B7 Bs B8 B9 B10 B11] Hn Hsame Hfr.
  assert (evolves sb (owned (tv_blk v) x) v v1) as He by (eapply evolves_mono; [exact A6|apply ind_owned]).
  split; try done.
  - by eapply same_meta_trans.
  - intros j Hj Hs. rewrite B3, A3; [done..|by rewrite A3].
  - by eapply fresh_trans; [..|apply B7|].
  - intros i Hir. rewrite B6 by done. case_decide; [done|]. unfold fbyte. rewrite A5; [done|].
    pose proof BLK_eq. unfold MAXFILE, NDIRECT, NINDIRECT in Hir.
    split; [apply Z.div_pos; lia|apply Z.div_lt_upper_bound; lia].
  - by eapply owned_trans.
  - eapply logs_mono; [eapply logs_trans; [exact A7|exact B9]|]. pose proof (ind_set_keep v1 x1 v2 x2 B3). set_solver.
  - lia.
  - intros b Hb Hu. destruct (B11 b Hb Hu) as [Hu1|]; [|by right]. destruct (A9 b Hb Hu1) as [|(j & Hj & E)]; [by left|].
    destruct (decide (b = 0)) as [->|Hb0]; [left; by apply zero_used|]. right. apply elem_of_owned. split; [done|]. exists j. split; [done|].
    rewrite B3; [done|done|congruence].
Qed.

Lemma wrote_trans sb n1 n2 D1 D2 off b1 b2 v x v1 x1 v2 x2 : fs_inv v sb -> inode_ok v sb x ->
  0 <= off -> off + Z.of_nat (length (b1 ++ b2)) <= MAXFILE * BLK ->
  wrote sb n1 D1 off b1 v x v1 x1 -> wrote sb n2 D2 (off + Z.of_nat (length b1)) b2 v1 x1 v2 x2 ->
  wrote sb (n1 + n2) (D1 ∪ D2) off (b1 ++ b2) v x v2 x2.
Proof.
  intros Hi Hx Ho Hmax [A1 A2 A3 A4 A5 A6 A7 As A8 A9 A10 A11] [B1 B2 B3 B4 B5 B6 B7 Bs B8 B9 B10 B11]. pose proof BLK_eq.
  split; try done.
  - by eapply same_meta_trans.
  - intros j Hj Hs. rewrite B3, A3; [done..|by rewrite A3].
  - by eapply fresh_trans; [..|apply B7|].
  - rewrite length_app in *.
    intros i Hir. destruct (Z_lt_le_dec i (off + Z.of_nat (length b1))); [|apply B5; lia].
    rewrite B3; [apply A5; lia| |apply A5; lia]. unfold MAXFILE, NDIRECT, NINDIRECT in Hmax.
    split; [apply Z.div_pos; lia|]. apply Z.lt_le_incl, Z.div_lt_upper_bound; lia.
  - intros i Hir. rewrite B6, A6 by done. rewrite length_app. case_decide; [|case_decide].
    + rewrite decide_True, app_nth2 by lia. f_equal. lia.
    + rewrite decide_True, app_nth1 by lia. done.
    + rewrite decide_False by lia. done.
  - by eapply owned_trans.
  - rewrite length_app in *. intros Hall. assert (x1 = x) as -> by (apply As; intros i Hir; apply Hall; lia).
    apply Bs. intros i Hir. rewrite A3; [apply Hall; lia| |apply Hall; lia].
    unfold MAXFILE, NDIRECT, NINDIRECT in Hmax.
    split; [apply Z.div_pos; lia|]. apply Z.lt_le_incl, Z.div_lt_upper_bound; lia.
  - rewrite size_union_alt. pose proof (subseteq_size (D2 ∖ D1) D2 ltac:(set_solver)). lia.
  - eapply logs_mono; [eapply logs_trans; [exact A9|exact B9]|]. pose proof (ind_set_keep v1 x1 v2 x2 B3). set_solver.
  - lia.
  - intros b Hb Hu. destruct (B11 b Hb Hu) as [Hu1|]; [|by right]. destruct (A11 b Hb Hu1) as [|(Hb0 & j & Hj & E)%elem_of_owned]; [by left|].
    right. apply elem_of_owned. split; [done|]. exists j. split; [done|]. rewrite B3; [done|done|congruence].
Qed.

Lemma slice_drop (l : list Z) a m : slice a m l ++ drop (a + m) l = drop a l.
Proof. unfold slice. rewrite <- drop_drop. apply take_drop. Qed.

Section write.
Context {S : Type} `{TxStore S}.
Context (s : fs S) (sb : superblock) (ip : nat) (X : inode) (src : list Z).
Hypothesis (Hsb : f_sb s = sb) (HX : f_icache s !! ip = Some X) (Hdev : i_dev X = ROOTDEV).
Hypothesis (Hsrc : Forall is_byte src).

(** One turn of the loop. *)
Lemma write_chunk t v x off m tot (Q : unit -> fs S -> Prop) :
  tx_at t v -> fs_inv v sb -> tv_mod v = ∅ -> held_blocks v = ∅ -> inode_ok v sb x ->
  0 <= off -> 0 < m -> off mod BLK + m <= BLK -> off + m <= MAXFILE * BLK ->
  0 <= tot -> tot + m <= Z.of_nat (length src) ->
  room v sb 3 -> (2 <= size (free_blocks v sb))%nat ->
  (forall t' v' x' b, tx_at t' v' -> tv_mod v' = ∅ -> held_blocks v' = ∅ ->
     wrote sb 1 {[b]} off (slice (Z.to_nat tot) (Z.to_nat m) src) v x v' x' -> Q tt (at_ip s ip t' x')) ->
  wp (addr ← bmap ip (off / BLK);
      bp ← st (bs_bread ROOTDEV addr);
      st (bs_put bp (Z.to_nat (off mod BLK)) (slice (Z.to_nat tot) (Z.to_nat m) src));;
      st (bs_log_write bp);;
      st (bs_brelse bp)) (at_ip s ip t x) Q.
Proof.
  intros Ht Hi Hm Hh Hx Ho Hm0 Hmb Hmax Htot Hts Hroom Hfree HQ. pose proof BLK_eq as HB.
  assert (BSIZE = 512%nat) as HBS by done.
  pose proof (Z.div_mod off BLK ltac:(lia)) as Hdm. pose proof (Z.mod_pos_bound off BLK ltac:(lia)).
  assert (0 <= off / BLK < 140) as Hk.
  { unfold MAXFILE, NDIRECT, NINDIRECT in *. split; [apply Z.div_pos; lia|apply Z.div_lt_upper_bound; lia]. }
  assert (length (slice (Z.to_nat tot) (Z.to_nat m) src) = Z.to_nat m) as Hsl by (apply length_slice; lia).
  pose proof (room_ready v sb 2 3 Hroom Hm ltac:(rewrite Hh, size_empty; lia)) as (_ & _ & Hlg).
  wp_step. eapply (bmap_spec s sb ip X); try done; [lia|by right|].
  intros t1 v1 x1 Ht1 Hsame He Hs. pose proof (ex_ev _ _ _ _ _ _ _ He) as Hev.
  assert (tv_mod v1 = ∅) as Hm1 by by rewrite (ev_mod _ _ _ _ Hev).
  assert (held_blocks v1 = ∅) as Hh1 by (unfold held_blocks; by rewrite (ev_held _ _ _ _ Hev)).
  pose proof (ev_inv _ _ _ _ Hev) as Hi1. pose proof (ex_ok _ _ _ _ _ _ _ He) as Hx1.
  destruct (slot_block sb v1 x1 _ t1 Hi1 Hx1 Ht1 Hk Hs) as (Hd & Hdl & _).
  destruct (slot_map sb v1 x1 Hi1 Hx1 (off / BLK) ltac:(lia) Hs) as (Hnm & Hr & Hu).
  assert (room v1 sb 1) as Hroom1.
  { eapply (room_logs v v1 sb 1 2); [exact Hroom|apply He| |by apply Hev].
    rewrite size_union_alt. pose proof (subseteq_size ({[slot (tv_blk v1) x1 (off / BLK)]} ∖ ind_set x1)
      {[slot (tv_blk v1) x1 (off / BLK)]} ltac:(set_solver)). rewrite size_singleton in *.
    pose proof (size_ind_set x1). lia. }
  pose proof (room_ready v1 sb 2 1 Hroom1 Hm1 ltac:(rewrite Hh1, size_empty; lia)) as Hrd.
  wp_step. eapply st_bread; [exact Ht1|exact Hrd|exact Hd|rewrite Hh1; set_solver|].
  intros h t2 Hn Ht2. rewrite at_ip_store.
  eapply (st_finish _ v1 h (slot (tv_blk v1) x1 (off / BLK)) _ 0); [done|exact Ht2|done|exact Hd| |rewrite Hsl; lia| |].
  { apply (fi_home _ _ Hi1). pose proof (fi_layout _ _ Hi1) as HL.
    pose proof (map_range sb HL _ (bblock_map sb HL _ Hr)). destruct (in_area _ _ _ Hx1 (off / BLK) ltac:(lia) Hs). lia. }
  { unfold slice. auto using Forall_take, Forall_drop. }
  intros t3 Ht3. rewrite at_ip_store. eapply HQ; [exact Ht3|done|done|].
  eapply (extends_wrote sb 1); [done|done|exact He| |lia| |by rewrite free_put_data by (done || apply Hi1)].
  2:{ intros Hall. apply Hsame, Hall. lia. }
  replace off with (off / BLK * BLK + off mod BLK) at 2 by lia.
  apply wrote_put; try done; lia.
Qed.

Lemma wp_seq5 {A B C D} (a : KM (fs S) A) (b : A -> KM (fs S) B) (c : A -> B -> KM (fs S) C)
    (d : A -> B -> KM (fs S) C) (e : A -> B -> KM (fs S) C) (k : KM (fs S) D) s' Q :
  wp (x ← a; y ← b x; c x y;; d x y;; e x y) s' (fun _ s'' => wp k s'' Q) ->
  wp (x ← a; y ← b x; c x y;; d x y;; e x y;; k) s' Q.
Proof.
  intros H1%wp_bind_inv. wp_step. eapply wp_mono; [exact H1|]. intros x s1 H2%wp_bind_inv.
  wp_step. eapply wp_mono; [exact H2|]. intros y s2 H3. by apply wp_seq3.
Qed.

Lemma write_blocks_spec fuel : forall t v x off n tot (Q : Z -> fs S -> Prop),
  tx_at t v -> fs_inv v sb -> tv_mod v = ∅ -> held_blocks v = ∅ -> inode_ok v sb x ->
  0 <= off -> 0 <= tot <= n -> n = Z.of_nat (length src) -> off + (n - tot) <= MAXFILE * BLK ->
  let nb := nblocks off (n - tot) in
  (nb < fuel)%nat -> room v sb (2 * nb + 1) -> (2 * nb <= size (free_blocks v sb))%nat ->
  (forall t' v' x' D, tx_at t' v' -> tv_mod v' = ∅ -> held_blocks v' = ∅ ->
     wrote sb nb D off (drop (Z.to_nat tot) src) v x v' x' -> Q (off + (n - tot)) (at_ip s ip t' x')) ->
  wp (write_blocks fuel ip ROOTDEV src off n tot) (at_ip s ip t x) Q.
Proof.
  pose proof BLK_eq as HB.
  induction fuel as [|fuel IH]; intros t v x off n tot Q Ht Hi Hm Hh Hx Ho Htot Hn Hmax nb Hf Hroom Hfree HQ; [lia|].
  cbn [write_blocks]. destruct (Z.ltb_spec tot n).
  2:{ wp_step. replace off with (off + (n - tot)) at 1 by lia. apply (HQ t v x ∅); try done.
      rewrite drop_ge by lia. unfold nb. replace (n - tot) with 0 by lia. by apply wrote_refl. }
  destruct (chunk_step off (n - tot) (chunk n tot off) Ho ltac:(lia) eq_refl) as (Hm1 & Hm2 & Hnb).
  set (m := chunk n tot off) in *. clearbody m. fold nb in Hnb.
  apply wp_seq5. apply (write_chunk t v x off m tot); try done; try lia.
  { unfold room in *. lia. }
  intros t1 v1 x1 b Ht1 Hm1' Hh1 Hw. rewrite u32_id by (unfold MAXFILE, NDIRECT, NINDIRECT in *; lia).
  pose proof (wr_ev _ _ _ _ _ _ _ _ _ Hw) as Hev.
  assert (length (slice (Z.to_nat tot) (Z.to_nat m) src) = Z.to_nat m) as Hsl by (apply length_slice; lia).
  replace (n - tot - m) with (n - (tot + m)) in * by lia.
  apply (IH t1 v1 x1); try done; try lia.
  - apply Hev.
  - apply Hw.
  - eapply (room_logs v v1 sb _ 2); [|apply Hw| |apply Hev].
    + unfold room in *. lia.
    + rewrite size_union_alt. pose proof (subseteq_size ({[b]} ∖ ind_set x1) {[b]} ltac:(set_solver)).
      rewrite size_singleton in *.
      pose proof (size_ind_set x1). lia.
  - pose proof (wr_free _ _ _ _ _ _ _ _ _ Hw). lia.
  - intros t2 v2 x2 D Ht2 Hm2' Hh2 Hw2. replace (off + m + (n - (tot + m))) with (off + (n - tot)) by lia.
    apply (HQ t2 v2 x2 ({[b]} ∪ D)); try done. rewrite Hnb.
    rewrite <- (slice_drop src (Z.to_nat tot) (Z.to_nat m)).
    apply (wrote_trans sb 1 _ _ _ _ _ _ v x v1 x1); try done; [rewrite slice_drop, length_drop; lia|].
    rewrite Hsl, Z2Nat.id by lia. by replace (Z.to_nat tot + Z.to_nat m)%nat with (Z.to_nat (tot + m)) by lia.
Qed.
End write.

(** ** The inode on disk *)

Definition disk_inode (v : tview) (sb : superblock) (inum : Z) : option dinode :=
  dec_dinode (dinode_off inum) <$> tv_blk v !! IBLOCK inum sb.

Definition short (z : Z) : Prop := - 2 ^ 15 <= z < 2 ^ 15.
(** The fields fit their types. *)
Definition din_range (x : dinode) : Prop :=
  short (d_type x) /\ short (d_major x) /\ short (d_minor x) /\ short (d_nlink x) /\
  0 <= d_size x < 2 ^ 32 /\ length (d_addrs x) = 13%nat /\ Forall (fun a => 0 <= a < 2 ^ 32) (d_addrs x).

Lemma slice_app_skip {A} (a b : list A) o n : (length a <= o)%nat -> slice o n (a ++ b) = slice (o - length a) n b.
Proof. intros H. unfold slice. rewrite drop_app_ge by done. done. Qed.
Lemma slice_app_here {A} (a b : list A) n : length a = n -> slice 0 n (a ++ b) = a.
Proof. intros <-. unfold slice. rewrite drop_0. apply take_app_length. Qed.
Lemma slice_splice_in {A} off (d l : list A) o n : (off + length d <= length l)%nat -> (o + n <= length d)%nat ->
  slice (off + o) n (splice off d l) = slice o n d.
Proof.
  intros H1 H2. apply list_eq. intros i. destruct (decide (i < n)%nat).
  - rewrite !slice_lookup by done. rewrite splice_lookup_in by lia. f_equal. lia.
  - unfold slice. rewrite !lookup_take_ge by lia. done.
Qed.
Lemma i16_short z : short (i16 z).
Proof. unfold short, i16. pose proof (Z.mod_pos_bound (z + 2 ^ 15) (2 ^ 16) ltac:(lia)). lia. Qed.
Lemma i16_le z : short z -> i16 (le_val (le_bytes 2 z)) = z.
Proof.
  intros H. rewrite le_val_bytes. unfold i16, short in *. change (256 ^ Z.of_nat 2) with (2 ^ 16).
  rewrite Zplus_mod_idemp_l, Z.mod_small; lia.
Qed.
Lemma length_words l : length (mjoin (le_bytes 4 <$> l)) = (4 * length l)%nat.
Proof. induction l as [|a l IH]; [done|].
  change (mjoin _) with (le_bytes 4 a ++ mjoin (le_bytes 4 <$> l)). rewrite length_app, IH, length_le_bytes. simpl. lia.
Qed.
Lemma slice_word l : forall k a, l !! k = Some a -> slice (4 * k) 4 (mjoin (le_bytes 4 <$> l)) = le_bytes 4 a.
Proof.
  induction l as [|b l IH]; intros [|k] a Ha; simpl in Ha; try done.
  - injection Ha as ->. apply (slice_app_here (le_bytes 4 a)). apply length_le_bytes.
  - change (mjoin _) with (le_bytes 4 b ++ mjoin (le_bytes 4 <$> l)).
    rewrite slice_app_skip; rewrite length_le_bytes; [|lia].
    rewrite <- (IH k a Ha). f_equal. lia.
Qed.
Lemma length_enc x : length (d_addrs x) = 13%nat -> length (enc_dinode x) = 64%nat.
Proof. intros H. unfold enc_dinode. rewrite !length_app, !length_le_bytes, length_words, H. lia. Qed.
Lemma enc_bytes x : Forall is_byte (enc_dinode x).
Proof.
  unfold enc_dinode. rewrite !Forall_app. split_and!; try apply le_bytes_byte.
  induction (d_addrs x) as [|a l IH]; [constructor|].
  change (mjoin _) with (le_bytes 4 a ++ mjoin (le_bytes 4 <$> l)). rewrite Forall_app.
  split; [apply le_bytes_byte|done].
Qed.

(** What [iupdate] stores is what [ilock] loads. *)
Lemma dec_enc_dinode x o d : din_range x -> (o + 64 <= length d)%nat ->
  dec_dinode o (splice o (enc_dinode x) d) = x.
Proof.
  intros (R1 & R2 & R3 & R4 & R5 & R6 & R7) Hl. pose proof (length_enc x R6) as He.
  assert (Hs : forall a n, (a + n <= 64)%nat ->
    slice (o + a) n (splice o (enc_dinode x) d) = slice a n (enc_dinode x)) by (intros; apply slice_splice_in; lia).
  unfold dec_dinode, get16, get32. rewrite <- (Nat.add_0_r o) at 1. rewrite !Hs by lia.
  assert (Ha : (fun k => le_val (slice (o + 12 + 4 * k) 4 (splice o (enc_dinode x) d))) <$> seq 0 13 = d_addrs x).
  { apply list_eq. intros k. rewrite list_lookup_fmap. destruct (decide (k < 13)%nat) as [Hk|Hk].
    - rewrite lookup_seq_lt by lia. simpl. destruct (lookup_lt_is_Some_2 (d_addrs x) k) as [a Hka]; [lia|].
      rewrite Hka. f_equal. rewrite <- Nat.add_assoc, Hs by lia. unfold enc_dinode.
      do 5 (rewrite slice_app_skip by (rewrite !length_le_bytes; lia)). rewrite !length_le_bytes.
      match goal with |- context [slice ?i 4 (mjoin _)] => replace i with (4 * k)%nat by lia end.
      rewrite (slice_word _ k a Hka), le_val_bytes. change (256 ^ Z.of_nat 4) with (2 ^ 32).
      apply Z.mod_small. by eapply Forall_lookup_1 in R7.
    - rewrite lookup_seq_ge by lia. symmetry. apply lookup_ge_None. lia. }
  rewrite Ha. unfold enc_dinode. destruct x as [ty ma mi nl sz ad]. cbn [d_type d_major d_minor d_nlink d_size d_addrs] in *.
  f_equal.
  - rewrite slice_app_here by apply length_le_bytes. by apply i16_le.
  - rewrite slice_app_skip by (rewrite length_le_bytes; lia). rewrite length_le_bytes.
    rewrite slice_app_here by apply length_le_bytes. by apply i16_le.
  - do 2 (rewrite slice_app_skip by (rewrite !length_le_bytes; lia)). rewrite !length_le_bytes.
    rewrite slice_app_here by apply length_le_bytes. by apply i16_le.
  - do 3 (rewrite slice_app_skip by (rewrite !length_le_bytes; lia)). rewrite !length_le_bytes.
    rewrite slice_app_here by apply length_le_bytes. by apply i16_le.
  - do 4 (rewrite slice_app_skip by (rewrite !length_le_bytes; lia)). rewrite !length_le_bytes.
    rewrite slice_app_here by apply length_le_bytes. rewrite le_val_bytes. change (256 ^ Z.of_nat 4) with (2 ^ 32).
    apply Z.mod_small. done.
Qed.
(** Another inode of the same block is not touched. *)
Lemma dec_splice_other o o' e d : length e = 64%nat -> (o + 64 <= length d)%nat ->
  (o' + 64 <= o \/ o + 64 <= o')%nat -> dec_dinode o' (splice o e d) = dec_dinode o' d.
Proof.
  intros He Hl Ho. unfold dec_dinode, get16, get32.
  rewrite !slice_splice_ne by lia. f_equal. apply list_fmap_ext. intros i k Hk.
  apply lookup_seq in Hk as [-> Hk]. rewrite slice_splice_ne by lia. done.
Qed.

Section iupdate.
Context {S : Type} `{TxStore S}.

Lemma dinode_off_le inum : (dinode_off inum + 64 <= BSIZE)%nat.
Proof. unfold dinode_off, IPB, BSIZE. pose proof (Z.mod_pos_bound inum 8). lia. Qed.

(** [v'] is [v] with inode [inum] on disk replaced by [x]. *)
Record inode_put (sb : superblock) (inum : Z) (x : dinode) (v v' : tview) : Prop := mk_inode_put {
  ip_ev : evolves sb {[IBLOCK inum sb]} v v';
  ip_logs : logs sb v v' {[IBLOCK inum sb]};
  ip_here : disk_inode v' sb inum = Some x;
  ip_other : forall i, 0 <= i < sb_ninodes sb -> i <> inum -> disk_inode v' sb i = disk_inode v sb i;
  ip_free : free_blocks v' sb = free_blocks v sb
}.

Lemma inode_put_ok sb inum x v d : fs_inv v sb -> 0 <= inum < sb_ninodes sb -> din_range x ->
  tv_blk v !! IBLOCK inum sb = Some d -> length d = BSIZE ->
  inode_put sb inum x v (tv_put (IBLOCK inum sb) (splice (dinode_off inum) (enc_dinode x) d) v).
Proof.
  intros Hi Hin Hr Hd Hl. pose proof (fi_layout _ _ Hi) as HL. pose proof (dinode_off_le inum).
  destruct (iblock_eq sb HL inum Hin) as [E Hb]. pose proof (ly_map _ HL).
  assert (~ is_map sb (IBLOCK inum sb)) as Hnm by (unfold is_map; lia).
  assert (0 <= (sb_size sb - 1) / BPB) by (apply Z.div_pos; pose proof (ly_size _ HL); unfold BPB; pose proof BLK_eq; lia).
  unfold meta_end in *. split.
  - apply put_evolves; [done|lia|done].
  - apply put_logs.
  - unfold disk_inode. cbn [tv_blk tv_put]. rewrite lookup_insert_eq. simpl. f_equal. apply dec_enc_dinode; [done|lia].
  - intros i Hir Hne. unfold disk_inode. cbn [tv_blk tv_put]. destruct (iblock_eq sb HL i Hir) as [E' _].
    destruct (decide (IBLOCK i sb = IBLOCK inum sb)) as [Eb|Eb]; [|by rewrite lookup_insert_ne].
    rewrite Eb, lookup_insert_eq, Hd. simpl. f_equal. destruct Hr as (_ & _ & _ & _ & _ & Hr & _).
    apply dec_splice_other; [by apply length_enc|lia|]. unfold dinode_off, IPB in *.
    pose proof (Z.div_mod i 8 ltac:(lia)). pose proof (Z.div_mod inum 8 ltac:(lia)).
    pose proof (Z.mod_pos_bound i 8 ltac:(lia)). pose proof (Z.mod_pos_bound inum 8 ltac:(lia)). lia.
  - by apply free_put_data.
Qed.

Lemma iupdate_spec s v sb ip X k (Q : unit -> fs S -> Prop) :
  file_pre s v sb ip X -> 0 <= i_inum X < sb_ninodes sb -> din_range (i_din X) ->
  (size (tv_log v) + (1 + k) <= tv_cap v)%nat ->
  (forall t v', tx_at t v' -> inode_put sb (i_inum X) (i_din X) v v' -> Q tt (set_store t s)) ->
  wp (iupdate ip) s Q.
Proof.
  intros P Hin Hr Hlg HQ. destruct P as [P1 P2 P3 P4 P5 P6 P7 P8 P9]. unfold iupdate.
  pose proof (fi_layout _ _ P3) as HL. destruct (iblock_eq sb HL _ Hin) as [E Hb]. pose proof (ly_map _ HL).
  assert (0 <= (sb_size sb - 1) / BPB) by (apply Z.div_pos; pose proof (ly_size _ HL); unfold BPB; pose proof BLK_eq; lia).
  unfold meta_end in *.
  destruct (fi_dom _ _ P3 (IBLOCK (i_inum X) sb)) as [d Hd]; [pose proof (ly_inodestart _ HL); lia|].
  destruct (tx_wf _ _ _ _ P1 Hd) as (Hdl & _ & _).
  wp_step. eapply wp_get_ip; [done|]. wp_step. wp_step. rewrite P2, P8.
  assert (ready v 2 (1 + k)) as Hrd by (repeat split; [done|rewrite P5, size_empty; lia|lia]).
  wp_step. eapply st_bread; [exact P1|exact Hrd|exact Hd|rewrite P5; set_solver|].
  intros h t Hn Ht. assert (length (d_addrs (i_din X)) = 13%nat) as Hla by apply Hr.
  eapply (st_finish _ v h _ d k); [done|exact Ht|done|done| | |apply enc_bytes|].
  { apply (fi_home _ _ P3). lia. }
  { rewrite length_enc by done. apply dinode_off_le. }
  intros t2 Ht2. eapply (HQ t2); [exact Ht2|]. by apply inode_put_ok.
Qed.
End iupdate.

(** ** [writei] *)

Lemma addrs_range v sb x : fs_inv v sb -> inode_ok v sb x -> Forall (fun a => 0 <= a < 2 ^ 32) (d_addrs x).
Proof.
  intros Hi Hx. apply Forall_lookup. intros k a Ha.
  pose proof (lookup_lt_Some _ _ _ Ha) as Hk. rewrite (in_len _ _ _ Hx) in Hk.
  pose proof (ly_size _ (fi_layout _ _ Hi)). pose proof (meta_pos sb (fi_layout _ _ Hi)).
  set (j := if decide (k = 12%nat) then 140 else Z.of_nat k).
  assert (slot (tv_blk v) x j = a) as <-.
  { unfold j, slot, ind_addr. case_decide; [subst k; simpl|rewrite (proj2 (Z.ltb_lt _ _)), Nat2Z.id by lia];
      by rewrite nth_lookup, Ha. }
  destruct (decide (slot (tv_blk v) x j = 0)) as [->|Hn]; [lia|].
  destruct (in_area _ _ _ Hx j) as [? _]; [unfold j; case_decide; lia|done|lia].
Qed.

(** The disk copies of inodes live outside the data area. *)
Lemma disk_inode_evolves sb W v v' i : fs_inv v sb -> evolves sb W v v' -> 0 <= i < sb_ninodes sb ->
  IBLOCK i sb ∉ W -> disk_inode v' sb i = disk_inode v sb i.
Proof.
  intros Hi He Hin HW. pose proof (fi_layout _ _ Hi) as HL. pose proof (ly_map _ HL). pose proof (ly_inodestart _ HL).
  destruct (iblock_eq sb HL i Hin) as [_ Hb].
  assert (0 <= (sb_size sb - 1) / BPB) by (apply Z.div_pos; pose proof (ly_size _ HL); unfold BPB; pose proof BLK_eq; lia).
  unfold disk_inode. f_equal. unfold meta_end in *. apply (ev_frame _ _ _ _ He); [lia| |unfold is_map; lia|done].
  apply (fi_meta _ _ Hi). unfold meta_end. lia.
Qed.
Lemma iblock_not_owned sb v x i : fs_inv v sb -> inode_ok v sb x -> 0 <= i < sb_ninodes sb ->
  IBLOCK i sb ∉ owned (tv_blk v) x.
Proof.
  intros Hi Hx Hin (Hn & k & Hk & E)%elem_of_owned. pose proof (fi_layout _ _ Hi) as HL.
  destruct (iblock_eq sb HL i Hin) as [_ Hb]. rewrite <- E in Hn. destruct (in_area _ _ _ Hx k Hk Hn) as [Ha _].
  assert (0 <= (sb_size sb - 1) / BPB) by (apply Z.div_pos; pose proof (ly_size _ HL); unfold BPB; pose proof BLK_eq; lia).
  unfold meta_end in *. lia.
Qed.

(** [x'] is [x] after [bytes] were written at [off], in core and on disk. *)
Record written (sb : superblock) (inum off : Z) (bytes : list Z) (v : tview) (x : dinode) (v' : tview) (x' : dinode) : Prop := mk_written {
  wn_ok : inode_ok v' sb x';
  wn_kind : d_type x' = d_type x /\ d_major x' = d_major x /\ d_minor x' = d_minor x /\ d_nlink x' = d_nlink x;
  wn_size : d_size x' = Z.max (d_size x) (off + Z.of_nat (length bytes));
  wn_content : content (tv_blk v') x' = splice (Z.to_nat off) bytes (content (tv_blk v) x);
  wn_here : disk_inode v sb inum = Some x -> disk_inode v' sb inum = Some x';
  wn_other : forall i, 0 <= i < sb_ninodes sb -> i <> inum -> disk_inode v' sb i = disk_inode v sb i;
  wn_ev : evolves sb ({[IBLOCK inum sb]} ∪ owned (tv_blk v) x) v v';
  wn_owned : forall b, b ∈ owned (tv_blk v') x' -> used v sb b = true -> b ∈ owned (tv_blk v) x;
  wn_logs : exists D, (size D <= nblocks off (Z.of_nat (length bytes)))%nat /\
    logs sb v v' ({[IBLOCK inum sb]} ∪ ind_set x' ∪ D);
  wn_free : (size (free_blocks v sb) <= 2 * nblocks off (Z.of_nat (length bytes)) + size (free_blocks v' sb))%nat;
  wn_new : forall b, 0 <= b < sb_size sb -> used v' sb b = true -> used v sb b = true \/ b ∈ owned (tv_blk v') x';
  wn_keep : owned (tv_blk v) x ⊆ owned (tv_blk v') x'
}.

Lemma content_splice (V V' : gmap Z block) x x' off bytes :
  0 <= off <= d_size x -> d_size x' = Z.max (d_size x) (off + Z.of_nat (length bytes)) ->
  d_size x' <= MAXFILE * BLK ->
  (forall i, 0 <= i < MAXFILE * BLK -> fbyte V' x' i =
    if decide (off <= i < off + Z.of_nat (length bytes)) then nth (Z.to_nat (i - off)) bytes 0 else fbyte V x i) ->
  content V' x' = splice (Z.to_nat off) bytes (content V x).
Proof.
  intros Ho Hsz Hmax Hb. unfold content.
  assert (length (fbyte V x <$> seqZ 0 (d_size x)) = Z.to_nat (d_size x)) as Hl by by rewrite length_fmap, length_seqZ.
  apply list_eq. intros i. rewrite list_lookup_fmap.
  destruct (decide (Z.of_nat i < d_size x')) as [Hi|Hi].
  - rewrite lookup_seqZ_lt by done. simpl. rewrite Z.add_0_l, Hb by lia. unfold splice. case_decide as Hd.
    + rewrite lookup_app_r by (rewrite length_take; lia). rewrite length_take, Hl, lookup_app_l by lia.
      rewrite nth_lookup. replace (i - Z.to_nat off `min` Z.to_nat (d_size x))%nat with (Z.to_nat (Z.of_nat i - off)) by lia.
      destruct (lookup_lt_is_Some_2 bytes (Z.to_nat (Z.of_nat i - off))) as [y Hy]; [lia|]. by rewrite Hy.
    + destruct (Z_lt_le_dec (Z.of_nat i) off).
      * rewrite lookup_app_l by (rewrite length_take; lia). rewrite lookup_take_lt, list_lookup_fmap, lookup_seqZ_lt by lia. done.
      * rewrite !lookup_app_r by (rewrite ?length_take; lia). rewrite lookup_drop, length_take, list_lookup_fmap, lookup_seqZ_lt by lia.
        simpl. do 2 f_equal. lia.
  - rewrite lookup_seqZ_ge by lia. symmetry. apply lookup_ge_None. unfold splice.
    rewrite !length_app, length_take, length_drop, Hl. lia.
Qed.
