(* ===== verification/FsDemo.v ===== *)
(** * A small file system

    Forty blocks: boot block, super block, a log of twenty, one block of eight
    inodes, the free map, and sixteen data blocks.  Inode 1 is a directory with
    no entries yet, inode 2 a file of five bytes in block 24.  The instances of the
    theorems on file systems are taken here. *)

From S2P Require Import Prelude Sleeplock Bio Log LogSpec BlockStore Fs FsBlocks FsInode FsFile.

Definition demo_sb : superblock := mksuperblock 40 16 8 20 2 22 23.
Definition demo_sb_block : block :=
  splice 0 (mjoin (put32 <$> [40; 16; 8; 20; 2; 22; 23])) zeros.
Definition no_addrs : list Z := replicate 13 0.
Definition demo_dir : dinode := mkdinode T_DIR 0 0 1 0 no_addrs.
Definition demo_file : dinode := mkdinode T_FILE 0 0 1 5 (<[0%nat := 24]> no_addrs).
Definition demo_inodes : block := splice 128 (enc_dinode demo_file) (splice 64 (enc_dinode demo_dir) zeros).
Definition demo_map : block := splice 0 [255; 255; 255; 1] zeros.             (* blocks 0 to 24 *)
Definition demo_data : block := splice 0 [104; 101; 108; 108; 111] zeros.

(** A disk of that layout: its inodes, its free map and its data blocks. *)
Definition disk_of (inodes map : block) (data : list block) : list block :=
  zeros :: demo_sb_block :: replicate 20 zeros ++ inodes :: map :: data.
(** The blocks the file system uses: all but the boot block and the log. *)
Definition blocks_of (disk : list block) : gmap Z block := filter (fun p => p.1 = 1 \/ 22 <= p.1) (map_seqZ 0 disk).
Definition view_of (disk : list block) : tview := mktview (blocks_of disk) ∅ ∅ ∅ (list_to_set (seqZ 22 18)) 19.

Definition demo_disk : list block := disk_of demo_inodes demo_map (demo_data :: replicate 15 zeros).
Definition demo_blocks : gmap Z block := blocks_of demo_disk.
Definition demo_view : tview := view_of demo_disk.

Definition demo_icache : list inode :=
  mkinode ROOTDEV 1 1 initsleeplock true demo_dir ::
  mkinode ROOTDEV 2 1 initsleeplock true demo_file ::
  replicate 48 (mkinode 0 0 0 initsleeplock false (mkdinode 0 0 0 0 0 no_addrs)).
Definition demo_fs : fs tview := mkfs demo_view demo_sb demo_icache 1 0.
Definition no_devices : Z -> devops tview := fun _ => mkdevops None None.

Lemma bytes_ok (l : list Z) : forallb (fun c => (0 <=? c) && (c <? 256)) l = true -> Forall is_byte l.
Proof. rewrite forallb_forall, Forall_forall. unfold is_byte. intros H c Hc%list_elem_of_In%H. lia. Qed.
Definition block_good (d : block) : bool := (length d =? BSIZE)%nat && forallb (fun c => (0 <=? c) && (c <? 256)) d.

Lemma demo_layout : layout demo_sb.
Proof. split; by vm_compute. Qed.

(** A disk whose free map has the blocks below [n] in use. *)
Section disk.
Context (inodes map : block) (data kinds : list block).
Let disk : list block := disk_of inodes map data.
Let view : tview := view_of disk.
Hypothesis Hlen : length data = 16%nat.
Hypothesis Hkinds : forall d, d ∈ data -> d ∈ kinds.
Hypothesis Hgood : forallb block_good (demo_sb_block :: zeros :: inodes :: map :: kinds) = true.

Lemma blocks_of_Some b d : blocks_of disk !! b = Some d <-> 0 <= b /\ disk !! Z.to_nat b = Some d /\ (b = 1 \/ 22 <= b).
Proof. unfold blocks_of. rewrite map_lookup_filter_Some, lookup_map_seqZ_Some, Z.sub_0_r. simpl. tauto. Qed.
Lemma length_disk : length disk = 40%nat.
Proof. unfold disk, disk_of. cbn [length]. rewrite length_app, length_replicate. cbn [length]. lia. Qed.
Lemma disk_in b d : disk !! b = Some d -> (b < 40)%nat /\ length d = BSIZE /\ Forall is_byte d.
Proof.
  intros Hd. pose proof (lookup_lt_Some _ _ _ Hd) as Hl. rewrite length_disk in Hl. split; [done|].
  apply list_elem_of_lookup_2 in Hd. unfold disk, disk_of in Hd. rewrite !elem_of_cons, elem_of_app, !elem_of_cons, elem_of_replicate in Hd.
  assert (Hin : d ∈ demo_sb_block :: zeros :: inodes :: map :: kinds).
  { rewrite !elem_of_cons. specialize (Hkinds d). tauto. }
  pose proof Hgood as Hg. rewrite forallb_forall in Hg. apply list_elem_of_In, Hg in Hin. apply andb_true_iff in Hin as [H1%Nat.eqb_eq H2%bytes_ok]. done.
Qed.
Lemma disk_dom b : 22 <= b < 40 -> is_Some (blocks_of disk !! b).
Proof.
  intros Hb. destruct (lookup_lt_is_Some_2 disk (Z.to_nat b)) as [d Hd]; [rewrite length_disk; lia|].
  exists d. apply blocks_of_Some. split_and!; [lia|done|lia].
Qed.
Lemma view_ok : tview_ok view.
Proof. split; [|simpl; unfold NBUF; lia]. intros b d (Hb & (Hl & H1 & H2)%disk_in & _)%blocks_of_Some. split_and!; (done || lia). Qed.

Context (n : Z).
Hypothesis Hused : forallb (fun b => Bool.eqb (used view demo_sb b) (b <? n)) (seqZ 0 40) = true.

Lemma view_used b : 0 <= b < 40 -> used view demo_sb b = (b <? n).
Proof.
  clear Hlen.
  intros Hb. pose proof Hused as H. rewrite forallb_forall in H. apply eqb_prop, H. apply list_elem_of_In, elem_of_seqZ. lia.
Qed.
Hypothesis Hn : 24 <= n <= 40.
Lemma view_inv : fs_inv view demo_sb.
Proof.
  split; [apply demo_layout|intros b Hb; apply disk_dom; simpl in Hb; lia| | |].
  - intros b Hb. apply elem_of_list_to_set, elem_of_seqZ. simpl in Hb. lia.
  - exists demo_sb_block. split; [|by vm_compute]. apply blocks_of_Some. split_and!; [lia|done|by left].
  - intros b Hb. change (meta_end demo_sb) with 24 in Hb. rewrite view_used by lia. lia.
Qed.
Lemma view_free : size (free_blocks view demo_sb) = Z.to_nat (40 - n).
Proof.
  clear Hlen.
  assert (free_blocks view demo_sb = list_to_set (seqZ n (40 - n))) as ->.
  { apply set_eq. intros b. rewrite elem_of_free, elem_of_list_to_set, elem_of_seqZ. simpl sb_size.
    split; [intros [Hu Hb]|intros Hb]; [|split; [|lia]]; rewrite view_used in * by lia; lia. }
  rewrite size_list_to_set by apply NoDup_seqZ. by rewrite length_seqZ.
Qed.
Lemma view_room k : (k <= 18)%nat -> room view demo_sb k.
Proof.
  clear Hlen Hn.
  intros Hk. unfold room. change (tv_log view) with (∅ : gset Z). rewrite union_empty_l_L.
  assert (maps demo_sb = {[23]}) as -> by by vm_compute. rewrite size_singleton. simpl. lia.
Qed.
End disk.

(** Its free map. *)
Definition demo_used (b : Z) : bool := b <? 25.
Lemma demo_blocks_Some b d : demo_blocks !! b = Some d <-> 0 <= b /\ demo_disk !! Z.to_nat b = Some d /\ (b = 1 \/ 22 <= b).
Proof. apply blocks_of_Some. Qed.
Lemma demo_kinds d : d ∈ demo_data :: replicate 15 zeros -> d ∈ [demo_data; zeros].
Proof. rewrite elem_of_cons, elem_of_replicate. set_solver. Qed.
Lemma demo_good : forallb block_good [demo_sb_block; zeros; demo_inodes; demo_map; demo_data; zeros] = true.
Proof. by vm_compute. Qed.
Lemma demo_used_all : forallb (fun b => Bool.eqb (used demo_view demo_sb b) (b <? 25)) (seqZ 0 40) = true.
Proof. by vm_compute. Qed.
Lemma demo_disk_in b d : demo_disk !! b = Some d -> (b < 40)%nat /\ length d = BSIZE /\ Forall is_byte d.
Proof. apply (disk_in demo_inodes demo_map (demo_data :: replicate 15 zeros) [demo_data; zeros] eq_refl demo_kinds demo_good). Qed.
Lemma demo_view_ok : tview_ok demo_view.
Proof. apply (view_ok demo_inodes demo_map (demo_data :: replicate 15 zeros) [demo_data; zeros] eq_refl demo_kinds demo_good). Qed.
Lemma demo_at : tx_at demo_view demo_view.
Proof. split; [done|apply demo_view_ok]. Qed.
Lemma demo_used_eq b : 0 <= b < 40 -> used demo_view demo_sb b = demo_used b.
Proof. apply view_used, demo_used_all. Qed.
Lemma demo_inv : fs_inv demo_view demo_sb.
Proof. apply (view_inv demo_inodes demo_map (demo_data :: replicate 15 zeros) eq_refl 25 demo_used_all). lia. Qed.
Lemma demo_free : size (free_blocks demo_view demo_sb) = 15%nat.
Proof. apply (view_free demo_inodes demo_map (demo_data :: replicate 15 zeros) 25 demo_used_all). lia. Qed.

(** An inode with at most its first block. *)
Definition one_block (ty nl z a : Z) : dinode := mkdinode ty 0 0 nl z (<[0%nat := a]> no_addrs).
Lemma one_block_slot V ty nl z a k : 0 <= k <= 140 -> slot V (one_block ty nl z a) k = if decide (k = 0) then a else 0.
Proof.
  intros Hk. set (x := one_block ty nl z a). unfold slot, ind_entry. change (ind_addr x) with 0.
  change (d_addrs x) with (<[0%nat := a]> no_addrs).
  destruct (Z.ltb_spec k 12); [|rewrite decide_False by lia; by destruct (k <? 140)].
  rewrite nth_lookup. case_decide as E; [by subst|].
  rewrite list_lookup_insert_ne by lia. unfold no_addrs. rewrite lookup_replicate_2; [done|lia].
Qed.
Lemma one_block_ok v sb a ty nl z : fs_inv v sb -> 0 <= z <= 512 ->
  (a <> 0 -> meta_end sb <= a < sb_size sb /\ used v sb a = true) -> (0 < z -> a <> 0) ->
  inode_ok v sb (one_block ty nl z a).
Proof.
  intros Hi Hz Ha Hza. pose proof (one_block_slot (tv_blk v) ty nl z a) as Hs. split; [done|..].
  - intros k Hk. rewrite Hs by done. by case_decide.
  - intros k k' Hk Hk'. rewrite !Hs by done. repeat case_decide; congruence.
  - simpl. unfold MAXFILE, NDIRECT, NINDIRECT, BLK, BSIZE. lia.
  - intros k Hk Hkz. assert (k = 0) as -> by (simpl in Hkz; unfold BLK, BSIZE in *; lia).
    rewrite Hs by lia. simpl in Hkz. by apply Hza.
Qed.
Lemma demo_file_ok : inode_ok demo_view demo_sb demo_file.
Proof.
  change demo_file with (one_block T_FILE 1 5 24). apply one_block_ok; [apply demo_inv|lia| |done]. intros _. split; [by vm_compute|]. by rewrite demo_used_eq.
Qed.
Lemma demo_dir_ok : inode_ok demo_view demo_sb demo_dir.
Proof.
  change demo_dir with (one_block T_DIR 1 0 0).
  apply one_block_ok; [apply demo_inv|lia|done|done].
Qed.
Lemma demo_range x : x ∈ [demo_dir; demo_file] -> din_range x.
Proof.
  set_unfold. unfold din_range, short. intros [->|[->|[]]]; simpl; split_and!; try lia; try done; repeat constructor; lia.
Qed.
Lemma demo_pre ip X : demo_icache !! ip = Some X -> (ip < 2)%nat -> file_pre demo_fs demo_view demo_sb ip X.
Proof.
  intros Hip Hlt. split; try done.
  - apply demo_at.
  - apply demo_inv.
  - change (tv_log demo_view) with (∅ : gset Z). rewrite size_empty. simpl. lia.
  - destruct ip as [|[|]]; [..|lia]; simplify_eq/=; done.
  - destruct ip as [|[|]]; [..|lia]; simplify_eq/=; [apply demo_dir_ok|apply demo_file_ok].
Qed.
Lemma demo_room k : (k <= 18)%nat -> room demo_view demo_sb k.
Proof. apply view_room. Qed.
