(* ===== verification/FsWrite.v ===== *)
(** * [readi] and [writei], end to end

    The theorems about whole reads and writes of a file, over any store that
    keeps the promises of [TxStore]. *)

From S2P Require Import Prelude Sleeplock Bio Log LogSpec BlockStore Fs FsBlocks FsInode FsFile.

#[local] Opaque BLK.

Lemma slot_size V x z k : slot V (din_size z x) k = slot V x k.
Proof. done. Qed.
Lemma size_ok v sb x z : inode_ok v sb x -> 0 <= z <= MAXFILE * BLK ->
  (forall k, 0 <= k -> k * BLK < z -> slot (tv_blk v) x k <> 0) -> inode_ok v sb (din_size z x).
Proof. intros [H1 H2 H3 H4 H5] Hz Hf. by split. Qed.

Lemma free_used sb v v' b : free_blocks v' sb = free_blocks v sb -> 0 <= b < sb_size sb -> used v' sb b = used v sb b.
Proof.
  intros E Hb. assert (Hf : b ∈ free_blocks v' sb <-> b ∈ free_blocks v sb) by (by rewrite E). rewrite !elem_of_free in Hf.
  destruct (used v' sb b), (used v sb b); naive_solver.
Qed.

Section finish.
Context (sb : superblock) (inum off : Z) (bytes : list Z) (v : tview) (x : dinode) (v1 : tview) (x1 : dinode) (D : gset Z).
Hypothesis (Hi : fs_inv v sb) (Hx : inode_ok v sb x) (Hin : 0 <= inum < sb_ninodes sb).
Hypothesis (Ho : 0 <= off <= d_size x) (Hmax : off + Z.of_nat (length bytes) <= MAXFILE * BLK).
Hypothesis Hw : wrote sb (nblocks off (Z.of_nat (length bytes))) D off bytes v x v1 x1.

Lemma size_kept : d_size x1 = d_size x.
Proof. apply (wr_meta _ _ _ _ _ _ _ _ _ Hw). Qed.

(** Inside the file: no block was missing, so the inode is as it was. *)
Lemma written_inside : off + Z.of_nat (length bytes) <= d_size x -> written sb inum off bytes v x v1 x1.
Proof.
  intros Hle. pose proof BLK_eq as HB.
  assert (x1 = x) as E.
  { apply (wr_same _ _ _ _ _ _ _ _ _ Hw). intros i Hir. apply (in_full _ _ _ Hx); [apply Z.div_pos; lia|].
    pose proof (Z.mul_div_le i BLK ltac:(lia)). lia. }
  assert (forall i, 0 <= i < sb_ninodes sb -> disk_inode v1 sb i = disk_inode v sb i) as Hdi.
  { intros i Hir. eapply disk_inode_evolves; [done|apply Hw|done|by apply iblock_not_owned]. }
  split.
  - apply Hw.
  - rewrite E. done.
  - rewrite E. lia.
  - apply content_splice; [lia|rewrite E; lia|rewrite E; apply Hx|apply Hw].
  - intros Hd. by rewrite Hdi, E.
  - intros i Hir _. by apply Hdi.
  - eapply evolves_mono; [apply Hw|apply union_subseteq_r].
  - intros b. apply owned_keep; apply Hw.
  - exists D. split; [apply Hw|]. eapply logs_mono; [apply Hw|set_solver].
  - apply Hw.
  - apply Hw.
  - apply owned_grows, Hw.
Qed.

(** Past the end: the size grows and the inode goes to the disk. *)
Lemma grown_ok : d_size x < off + Z.of_nat (length bytes) ->
  inode_ok v1 sb (din_size (off + Z.of_nat (length bytes)) x1).
Proof.
  intros Hlt. pose proof BLK_eq as HB. apply size_ok; [apply Hw|lia|]. intros k Hk Hkz.
  destruct (Z_lt_le_dec (k * BLK) (d_size x1)) as [|Hge]; [by apply (in_full _ _ _ (wr_ok _ _ _ _ _ _ _ _ _ Hw))|].
  rewrite size_kept in Hge. replace k with ((k * BLK) / BLK) by (apply Z.div_mul; lia).
  apply (wr_full _ _ _ _ _ _ _ _ _ Hw). lia.
Qed.
Lemma written_past v2 : d_size x < off + Z.of_nat (length bytes) ->
  inode_put sb inum (din_size (off + Z.of_nat (length bytes)) x1) v1 v2 ->
  written sb inum off bytes v x v2 (din_size (off + Z.of_nat (length bytes)) x1).
Proof.
  intros Hlt [I1 I2 I3 I4 I5]. pose proof BLK_eq as HB. pose proof (grown_ok Hlt) as Hg.
  pose proof (ev_inv _ _ _ _ (wr_ev _ _ _ _ _ _ _ _ _ Hw)) as Hi1.
  set (x2 := din_size _ x1) in *.
  assert (IBLOCK inum sb ∉ owned (tv_blk v1) x2) as Hno by by apply iblock_not_owned.
  assert (ind_addr x2 ∉ ({[IBLOCK inum sb]} : gset Z)) as Hni.
  { intros E%elem_of_singleton. apply Hno. rewrite <- E. apply elem_of_owned. split; [|by exists 140].
    rewrite E. pose proof (fi_layout _ _ Hi) as HL. destruct (iblock_eq sb HL inum Hin) as [_ Hb].
    pose proof (ly_inodestart _ HL). lia. }
  assert (forall k, 0 <= k <= 140 -> fdata (tv_blk v2) x2 k = fdata (tv_blk v1) x1 k) as Hfd.
  { intros k Hk. rewrite (fdata_evolves sb v1 x2 Hi1 Hg _ v2 k I1 Hni Hk); [done|].
    intros E%elem_of_singleton. apply Hno. rewrite <- E. apply elem_of_owned. split; [|by exists k].
    rewrite E. pose proof (fi_layout _ _ Hi) as HL. destruct (iblock_eq sb HL inum Hin) as [_ Hb].
    pose proof (ly_inodestart _ HL). lia. }
  assert (Hk : d_type x2 = d_type x /\ d_major x2 = d_major x /\ d_minor x2 = d_minor x /\ d_nlink x2 = d_nlink x).
  { destruct (wr_meta _ _ _ _ _ _ _ _ _ Hw) as (? & ? & ? & ? & _). done. }
  assert (forall k, slot (tv_blk v2) x2 k = slot (tv_blk v1) x2 k) as Hs2 by (intros k; by eapply slot_evolves).
  split; [by eapply inode_ok_evolves|done|simpl; lia| |done| | | | |rewrite I5; apply Hw| |].
  - apply content_splice; [lia|simpl; lia|simpl; lia|]. intros i Hir.
    rewrite <- (wr_bytes _ _ _ _ _ _ _ _ _ Hw) by done. unfold fbyte. rewrite Hfd; [done|].
    unfold MAXFILE, NDIRECT, NINDIRECT in Hir.
    split; [apply Z.div_pos; lia|]. apply Z.lt_le_incl, Z.div_lt_upper_bound; lia.
  - intros i Hir Hne. rewrite I4 by done.
    eapply disk_inode_evolves; [done|apply Hw|done|by apply iblock_not_owned].
  - eapply evolves_mono; [eapply evolves_trans; [apply Hw|exact I1]|by rewrite union_comm_L].
  - intros b. apply owned_keep; intros j; rewrite Hs2; apply Hw.
  - exists D. split; [apply Hw|]. eapply logs_mono; [eapply logs_trans; [apply Hw|exact I2]|].
    change (ind_set x2) with (ind_set x1). set_solver.
  - intros b Hb Hu. rewrite (free_used sb v1 v2) in Hu by done. destruct (wr_new _ _ _ _ _ _ _ _ _ Hw b Hb Hu) as [|Ho']; [by left|right].
    apply elem_of_owned in Ho' as (Hb0 & j & Hj & E). apply elem_of_owned. split; [done|]. exists j. split; [done|]. by rewrite Hs2.
  - apply owned_grows. intros j. rewrite Hs2. apply Hw.
Qed.
End finish.

(** ** Other files *)

(** An inode keeps its addresses, blocks and contents. *)
Definition kept (sb : superblock) (v v' : tview) (y : dinode) : Prop :=
  inode_ok v' sb y /\ (forall k, slot (tv_blk v') y k = slot (tv_blk v) y k) /\ owned (tv_blk v') y = owned (tv_blk v) y /\
  (forall i, 0 <= i < MAXFILE * BLK -> fbyte (tv_blk v') y i = fbyte (tv_blk v) y i) /\ content (tv_blk v') y = content (tv_blk v) y.
(** It does when its blocks stay in use and as they are. *)
Lemma blocks_kept sb v v' y : inode_ok v sb y -> (forall b, b ∈ owned (tv_blk v) y -> tv_blk v' !! b = tv_blk v !! b /\ used v' sb b = true) -> kept sb v v' y.
Proof.
  intros Hy Hb. pose proof BLK_eq as HB. assert (Hown : forall k, 0 <= k <= 140 -> slot (tv_blk v) y k <> 0 -> slot (tv_blk v) y k ∈ owned (tv_blk v) y) by (intros k Hk Hn; apply elem_of_owned; eauto).
  assert (Hsl : forall k, slot (tv_blk v') y k = slot (tv_blk v) y k).
  { intros k. apply slot_ext. intros Hn. apply Hb. rewrite <- (slot_ind v y) in *. by apply Hown. }
  assert (Hf : forall i, 0 <= i < MAXFILE * BLK -> fbyte (tv_blk v') y i = fbyte (tv_blk v) y i).
  { intros i Hii. unfold MAXFILE, NDIRECT, NINDIRECT in *.
    assert (0 <= i / BLK <= 140) by (split; [apply Z.div_pos; lia|]; apply Z.lt_le_incl, Z.div_lt_upper_bound; lia).
    unfold fbyte, fdata. rewrite Hsl. destruct (Z.eqb_spec (slot (tv_blk v) y (i / BLK)) 0); [done|]. by rewrite (proj1 (Hb _ (Hown _ ltac:(done) ltac:(done)))). }
  split_and!; [|done| |done|].
  - destruct Hy as [H1 H2 H3 H4 H5]. split; [done| | |done|]; [intros k Hk|intros k k'|intros k]; rewrite ?Hsl; [|apply H3|apply H5].
    intros Hn. split; [by apply H2|]. by apply Hb, Hown.
  - apply set_eq. intros b. rewrite !elem_of_owned. by setoid_rewrite Hsl.
  - unfold content. apply list_fmap_ext. intros j i Hj. apply lookup_seqZ in Hj as [-> Hj]. pose proof (in_size _ _ _ Hy). apply Hf. lia.
Qed.
Lemma evolves_other sb W v v' y : fs_inv v sb -> evolves sb W v v' -> inode_ok v sb y -> (forall k, 0 <= k <= 140 -> slot (tv_blk v) y k ∉ W) -> kept sb v v' y.
Proof.
  intros Hi He Hy HW. apply blocks_kept; [done|]. intros b (Hn & k & Hk & <-)%elem_of_owned. destruct (slot_map sb v y Hi Hy k Hk Hn) as (Hb & Hu & Hm).
  split; [by apply (ev_frame _ _ _ _ He); auto|by apply (ev_used _ _ _ _ He)].
Qed.

(** No address of an inode is a block of inodes. *)
Lemma slot_not_iblock sb v y inum k : fs_inv v sb -> inode_ok v sb y -> 0 <= inum < sb_ninodes sb -> 0 <= k <= 140 -> slot (tv_blk v) y k <> IBLOCK inum sb.
Proof.
  intros Hi Hy Hin Hk E. destruct (iblock_eq sb (fi_layout _ _ Hi) inum Hin) as [_ Hb]. pose proof (ly_inodestart _ (fi_layout _ _ Hi)).
  apply (iblock_not_owned sb v y inum Hi Hy Hin). rewrite <- E. apply elem_of_owned. split; [lia|eauto].
Qed.

(** The inode written still fits its fields on disk. *)
Lemma written_range sb inum off bytes v x v' x' : din_range x -> written sb inum off bytes v x v' x' -> din_range x'.
Proof.
  intros (R1 & R2 & R3 & R4 & _) W. destruct (wn_kind _ _ _ _ _ _ _ _ W) as (K1 & K2 & K3 & K4). pose proof (wn_ok _ _ _ _ _ _ _ _ W) as Hok.
  unfold din_range. rewrite K1, K2, K3, K4. pose proof (in_size _ _ _ Hok). unfold MAXFILE, NDIRECT, NINDIRECT in *. pose proof BLK_eq.
  split_and!; try done; [lia|lia|apply Hok|]. by eapply addrs_range; [apply W|].
Qed.

(** A write does not reach an inode that shares no block with the one written. *)
Lemma written_other sb inum off bytes v x v' x' y : fs_inv v sb -> 0 <= inum < sb_ninodes sb ->
  written sb inum off bytes v x v' x' -> inode_ok v sb y -> owned (tv_blk v) y ## owned (tv_blk v) x ->
  kept sb v v' y /\ owned (tv_blk v') y ## owned (tv_blk v') x'.
Proof.
  intros Hi Hin W Hy Hdis.
  assert (HW : forall k, 0 <= k <= 140 -> slot (tv_blk v) y k ∉ ({[IBLOCK inum sb]} ∪ owned (tv_blk v) x)).
  { intros k Hk. rewrite not_elem_of_union, elem_of_singleton. split; [by apply (slot_not_iblock sb v)|]. intros Hx. apply (Hdis (slot (tv_blk v) y k)); [|exact Hx].
    apply elem_of_owned in Hx as [Hn _]. apply elem_of_owned. eauto. }
  pose proof (evolves_other sb _ v v' y Hi (wn_ev _ _ _ _ _ _ _ _ W) Hy HW) as He. split; [done|]. destruct He as (_ & _ & Hown & _).
  rewrite Hown. intros b Hb1 Hb2. apply (Hdis b Hb1). apply (wn_owned _ _ _ _ _ _ _ _ W); [done|].
  apply elem_of_owned in Hb1 as (Hn & k & Hk & <-). by apply (in_area _ _ _ Hy).
Qed.

Section writei.
Context {S : Type} `{TxStore S} (devsw : Z -> devops S).
Context (s : fs S) (sb : superblock) (ip : nat) (X : inode) (v : tview).
Hypothesis P : file_pre s v sb ip X.

Lemma writei_spec off src (Q : Z -> fs S -> Prop) :
  let n := Z.of_nat (length src) in
  i_type X <> T_DEV -> 0 <= off <= i_size X -> off + n <= MAXFILE * BLK -> Forall is_byte src ->
  0 <= i_inum X < sb_ninodes sb -> din_range (i_din X) ->
  room v sb (2 * nblocks off n + 1) -> (2 * nblocks off n <= size (free_blocks v sb))%nat ->
  (forall t v' x', tx_at t v' -> tv_mod v' = ∅ -> held_blocks v' = ∅ ->
     written sb (i_inum X) off src v (i_din X) v' x' -> Q n (at_ip s ip t x')) ->
  wp (writei devsw ip src off n) s Q.
Proof.
  intros n Hty Ho Hmax Hsrc Hin Hr Hroom Hfree HQ. destruct P as [P1 P2 P3 P4 P5 P6 P7 P8 P9].
  pose proof BLK_eq as HB. pose proof (in_size _ _ _ P9) as Hsz. unfold i_size in *.
  unfold MAXFILE, NDIRECT, NINDIRECT in Hmax, Hsz.
  unfold writei. wp_step. eapply wp_get_ip; [done|]. rewrite (proj2 (Z.eqb_neq _ _) Hty).
  rewrite !u32_id by lia. unfold i_size. rewrite !(proj2 (Z.ltb_ge _ _)) by (unfold MAXFILE, NDIRECT, NINDIRECT; lia). cbn [orb].
  wp_step. replace s with (at_ip s ip (f_store s) (i_din X)) at 1 by (rewrite at_ip_self by done; by destruct s).
  rewrite P8. eapply (write_blocks_spec s sb ip X src); try done; try (unfold MAXFILE, NDIRECT, NINDIRECT; lia).
  { rewrite Z.sub_0_r. apply nblocks_bound; lia. }
  { rewrite Z.sub_0_r. done. }
  { rewrite Z.sub_0_r. done. }
  rewrite Z.sub_0_r. change (drop (Z.to_nat 0) src) with src.
  intros t v1 x1 D Ht Hm Hh Hw. wp_step. eapply wp_get_ip; [by eapply at_ip_lookup|]. simpl d_size.
  rewrite (size_kept sb off src v (i_din X) v1 x1 D Hw).
  rewrite i32_id by lia. wp_step.
  destruct (Z.ltb_spec (d_size (i_din X)) (off + n)) as [Hlt|Hge].
  2:{ rewrite andb_false_r. wp_step. wp_step. apply (HQ t v1 x1); try done. by apply (written_inside sb _ off src v _ v1 x1 D). }
  rewrite andb_true_r. rewrite (proj2 (Z.ltb_lt _ _)) by lia.
  pose proof (grown_ok sb off src v (i_din X) v1 x1 D ltac:(lia) ltac:(unfold MAXFILE, NDIRECT, NINDIRECT; lia) Hw Hlt) as Hg.
  pose proof (wr_ev _ _ _ _ _ _ _ _ _ Hw) as Hev.
  destruct (chunk_step off n _ ltac:(lia) ltac:(lia) eq_refl) as (_ & _ & Hnb).
  assert (size (tv_log v1) + 1 <= tv_cap v1)%nat as Hlg.
  { assert (room v1 sb 1) as Hr1.
    { eapply (room_logs v v1 sb 1 (1 + nblocks off n)); [unfold room in *; lia|apply Hw| |apply Hev].
      rewrite size_union_alt. pose proof (subseteq_size (D ∖ ind_set x1) D ltac:(set_solver)).
      pose proof (wr_size _ _ _ _ _ _ _ _ _ Hw). pose proof (size_ind_set x1). lia. }
    unfold room in Hr1. pose proof (subseteq_size (tv_log v1) (tv_log v1 ∪ maps sb) ltac:(set_solver)). lia. }
  wp_step. eapply wp_upd_din; [done|].
  eapply (iupdate_spec _ v1 sb ip (set_din (din_size (off + n) x1) X) 0).
  - split; try done; [apply Hev|lia|by rewrite (at_ip_lookup s ip X)].
  - done.
  - destruct Hr as (R1 & R2 & R3 & R4 & _ & _ & _).
    destruct (wr_meta _ _ _ _ _ _ _ _ _ Hw) as (E1 & E2 & E3 & E4 & _).
    unfold din_range. simpl. rewrite E1, E2, E3, E4. split_and!; try done; [lia|lia|apply Hg|by eapply addrs_range; [apply Hev|apply Hw]].
  - lia.
  - intros t2 v2 Ht2 Hp. wp_step. rewrite at_ip_store. apply (HQ t2 v2); try done.
    + by rewrite (ev_mod _ _ _ _ (ip_ev _ _ _ _ _ Hp)).
    + unfold held_blocks. by rewrite (ev_held _ _ _ _ (ip_ev _ _ _ _ _ Hp)).
    + by apply (written_past sb _ off src v _ v1 x1 D).
Qed.
End writei.
