(* ===== verification/FsTheorems.v ===== *)
(** * The file system's theorems

    Block allocation, reading and writing, over any store that keeps the
    promises of [TxStore]; each is instantiated at the small file system of
    [FsDemo.v]. *)

From S2P Require Import Prelude Sleeplock Bio Log LogSpec BlockStore Fs FsBlocks FsInode FsFile FsWrite FsDemo.

(** [balloc] allocates: on a file system with a free block it returns the
    lowest-numbered one, a data block, marked in use and zeroed; no other
    block but its free-map block changes, nothing else becomes used or free,
    and both are in the transaction. *)
Theorem balloc_correct {S} `{TxStore S} (s : fs S) v sb :
  tx_at (f_store s) v -> f_sb s = sb -> fs_inv v sb -> held_data v sb -> ready v 1 2 ->
  free_blocks v sb <> ∅ ->
  wp (balloc ROOTDEV) s (fun b s' => exists v', tx_at (f_store s') v' /\ alloc_step sb v v' b /\
    meta_end sb <= b /\ (forall b', 0 <= b' < b -> used v sb b' = true) /\
    f_icache s' = f_icache s /\ f_sb s' = f_sb s).
Proof.
  intros Ht Hsb Hi Hd Hr Hf. apply set_choose_L in Hf as [b Hb]. apply elem_of_free in Hb as [Hu Hb].
  eapply (balloc_spec s v sb); [done|done|done|done|eapply ready_weaken; [exact Hr|lia..]|by eapply alloc_room_ready|by exists b|]. intros r v' t Ha Hlow Ht'.
  exists v'. split_and!; try done. apply (alloc_fresh sb v v' r Hi Ha).
Qed.

Lemma balloc_correct_witness :
  wp (balloc ROOTDEV) demo_fs (fun b s' => exists v', tx_at (f_store s') v' /\
    alloc_step demo_sb demo_view v' b /\ meta_end demo_sb <= b /\
    (forall b', 0 <= b' < b -> used demo_view demo_sb b' = true) /\
    f_icache s' = f_icache demo_fs /\ f_sb s' = f_sb demo_fs).
Proof.
  apply (balloc_correct demo_fs demo_view demo_sb).
  - apply demo_at.
  - done.
  - apply demo_inv.
  - intros b Hb. change (held_blocks demo_view) with (∅ : gset Z) in Hb. set_solver.
  - eapply room_ready; [apply demo_room; lia|done|]. change (held_blocks demo_view) with (∅ : gset Z).
    rewrite size_empty. lia.
  - intros E. pose proof demo_free as Hs. rewrite E, size_empty in Hs. done.
Defined.

(** [readi] returns the file's contents: from an offset within the file it
    returns as many of the bytes asked for as the file has there, and changes
    neither the blocks, nor the transaction, nor the inode. *)
Theorem readi_correct {S} `{TxStore S} (devsw : Z -> devops S) (s : fs S) v sb ip X off n :
  file_pre s v sb ip X -> i_type X <> T_DEV -> 0 <= off <= i_size X -> 0 <= n -> off + n < 2 ^ 32 ->
  let m := Z.min n (i_size X - off) in
  wp (readi devsw ip off n) s (fun r s' =>
    r = (m, slice (Z.to_nat off) (Z.to_nat m) (content (tv_blk v) (i_din X))) /\
    exists t, s' = set_store t s /\ tx_at t v).
Proof.
  intros P Hty Ho Hn Hlt m. eapply readi_spec; [done..|]. intros t Ht. split; [done|]. by exists t.
Qed.

Definition demo_file_entry : inode := mkinode ROOTDEV 2 1 initsleeplock true demo_file.
Lemma readi_correct_witness :
  wp (readi no_devices 1 1 100) demo_fs (fun r s' =>
    r = (4, [101; 108; 108; 111]) /\ exists t, s' = set_store t demo_fs /\ tx_at t demo_view).
Proof.
  exact (readi_correct no_devices demo_fs demo_view demo_sb 1 demo_file_entry 1 100
    (demo_pre 1 demo_file_entry eq_refl ltac:(lia)) ltac:(discriminate) ltac:(by split)
    ltac:(lia) ltac:(lia)).
Defined.

(** [writei] writes the file: it returns the number of bytes, the contents
    are the old ones with the bytes overwritten (and the file extended when
    they reach past its end), the inode on disk follows the one in core and
    no other inode on disk changes. *)
Theorem writei_correct {S} `{TxStore S} (devsw : Z -> devops S) (s : fs S) v sb ip X off src :
  let n := Z.of_nat (length src) in
  file_pre s v sb ip X -> i_type X <> T_DEV -> 0 <= off <= i_size X -> off + n <= MAXFILE * BLK ->
  Forall is_byte src -> 0 <= i_inum X < sb_ninodes sb -> din_range (i_din X) ->
  room v sb (2 * nblocks off n + 1) -> (2 * nblocks off n <= size (free_blocks v sb))%nat ->
  wp (writei devsw ip src off n) s (fun r s' => r = n /\ exists t v' x',
    s' = at_ip s ip t x' /\ tx_at t v' /\ inode_ok v' sb x' /\
    d_size x' = Z.max (i_size X) (off + n) /\
    content (tv_blk v') x' = splice (Z.to_nat off) src (content (tv_blk v) (i_din X)) /\
    (disk_inode v sb (i_inum X) = Some (i_din X) -> disk_inode v' sb (i_inum X) = Some x') /\
    (forall i, 0 <= i < sb_ninodes sb -> i <> i_inum X -> disk_inode v' sb i = disk_inode v sb i)).
Proof.
  intros n P Hty Ho Hmax Hsrc Hin Hr Hroom Hfree. eapply writei_spec; [done..|].
  intros t v' x' Ht _ _ [W1 W2 W3 W4 W5 W6 W7 W8 W9 W10 _ _]. split; [done|]. by exists t, v', x'.
Qed.

Lemma demo_write_pre : file_pre demo_fs demo_view demo_sb 1 demo_file_entry.
Proof. exact (demo_pre 1 demo_file_entry eq_refl ltac:(lia)). Qed.
Lemma writei_correct_witness :
  wp (writei no_devices 1 [33; 33; 33] 5 3) demo_fs (fun r s' => r = 3 /\ exists t v' x',
    s' = at_ip demo_fs 1 t x' /\ tx_at t v' /\ inode_ok v' demo_sb x' /\ d_size x' = 8 /\
    content (tv_blk v') x' = [104; 101; 108; 108; 111; 33; 33; 33] /\
    (disk_inode demo_view demo_sb 2 = Some demo_file -> disk_inode v' demo_sb 2 = Some x') /\
    (forall i, 0 <= i < 8 -> i <> 2 -> disk_inode v' demo_sb i = disk_inode demo_view demo_sb i)).
Proof.
  apply (writei_correct no_devices demo_fs demo_view demo_sb 1 demo_file_entry 5 [33; 33; 33]).
  - exact demo_write_pre.
  - discriminate.
  - split; done.
  - done.
  - repeat constructor; done.
  - split; done.
  - apply demo_range. set_solver.
  - apply demo_room. vm_compute. lia.
  - rewrite demo_free. vm_compute. lia.
Defined.

(** Files do not interfere: a write to one inode leaves the contents and the
    blocks of every other well-formed inode that shares no block with it
    unchanged, and the two still share no block. *)
Theorem writei_isolated {S} `{TxStore S} (devsw : Z -> devops S) (s : fs S) v sb ip X off src y :
  let n := Z.of_nat (length src) in
  file_pre s v sb ip X -> i_type X <> T_DEV -> 0 <= off <= i_size X -> off + n <= MAXFILE * BLK ->
  Forall is_byte src -> 0 <= i_inum X < sb_ninodes sb -> din_range (i_din X) ->
  room v sb (2 * nblocks off n + 1) -> (2 * nblocks off n <= size (free_blocks v sb))%nat ->
  inode_ok v sb y -> owned (tv_blk v) y ## owned (tv_blk v) (i_din X) ->
  wp (writei devsw ip src off n) s (fun _ s' => exists t v' x',
    s' = at_ip s ip t x' /\ tx_at t v' /\ inode_ok v' sb y /\
    content (tv_blk v') y = content (tv_blk v) y /\ owned (tv_blk v') y ## owned (tv_blk v') x').
Proof.
  intros n P Hty Ho Hmax Hsrc Hin Hr Hroom Hfree Hy Hdis. eapply writei_spec; [done..|].
  intros t v' x' Ht _ _ W. exists t, v', x'.
  destruct (written_other _ _ _ _ _ _ _ _ y (fp_inv _ _ _ _ _ P) Hin W Hy Hdis) as ((? & _ & _ & _ & ?) & ?). done.
Qed.

Lemma writei_isolated_witness :
  wp (writei no_devices 1 [33; 33; 33] 5 3) demo_fs (fun _ s' => exists t v' x',
    s' = at_ip demo_fs 1 t x' /\ tx_at t v' /\ inode_ok v' demo_sb demo_dir /\
    content (tv_blk v') demo_dir = content demo_blocks demo_dir /\
    owned (tv_blk v') demo_dir ## owned (tv_blk v') x').
Proof.
  apply (writei_isolated no_devices demo_fs demo_view demo_sb 1 demo_file_entry 5 [33; 33; 33] demo_dir).
  - exact demo_write_pre.
  - discriminate.
  - split; done.
  - done.
  - repeat constructor; done.
  - split; done.
  - apply demo_range. set_solver.
  - apply demo_room. vm_compute. lia.
  - rewrite demo_free. vm_compute. lia.
  - exact demo_dir_ok.
  - intros b (Hn & k & Hk & E)%elem_of_owned _. apply Hn. rewrite <- E. unfold slot.
    change (ind_entry _ demo_dir (k - 12)) with 0. change (ind_addr demo_dir) with 0.
    destruct (k <? 12); [|by destruct (k <? 140)]. change (d_addrs demo_dir) with (replicate 13 0).
    by rewrite nth_lookup; destruct (replicate 13 0 !! Z.to_nat k) eqn:E2; [apply lookup_replicate in E2 as [-> _]|].
Defined.
