(* ===== verification/FsIcache.v ===== *)
(** * The inode cache

    [iget], [ilock], [iunlock] and [iput] of [fs.c] on the table of in-core
    inodes.  The invariant [icache_ok] says that a live entry stands for one
    inode of the disk and, when valid, holds its disk copy; [refs] counts the
    references to an inode, which is what these routines change. *)

From S2P Require Import Prelude Sleeplock Bio Log LogSpec BlockStore Fs FsBlocks FsInode FsFile.

(** ** References *)

Definition refs (l : list inode) (i : Z) : Z := foldr (fun X acc => (if i_inum X =? i then i_ref X else 0) + acc) 0 l.
(** The inodes somebody refers to. *)
Definition live (l : list inode) : gset Z := list_to_set (i_inum <$> filter (fun X => i_ref X <> 0) l).

Record icache_ok (v : tview) (sb : superblock) (l : list inode) : Prop := mk_icache_ok {
  ic_ref : forall ip X, l !! ip = Some X -> 0 <= i_ref X;
  ic_inode : forall ip X, l !! ip = Some X -> 0 < i_ref X -> i_dev X = ROOTDEV /\ 0 <= i_inum X < sb_ninodes sb;
  ic_uniq : forall ip ip' X X', l !! ip = Some X -> l !! ip' = Some X' -> 0 < i_ref X -> 0 < i_ref X' -> i_inum X = i_inum X' -> ip = ip';
  ic_valid : forall ip X, l !! ip = Some X -> 0 < i_ref X -> i_valid X = true -> disk_inode v sb (i_inum X) = Some (i_din X)
}.
Definition unlocked (l : list inode) : Prop := Forall (fun X => i_lock X = initsleeplock) l.

Lemma refs_insert l : forall ip X Y i, l !! ip = Some X ->
  refs (<[ip := Y]> l) i = refs l i - (if i_inum X =? i then i_ref X else 0) + (if i_inum Y =? i then i_ref Y else 0).
Proof.
  induction l as [|Z l IH]; intros [|ip] X Y i HX; simplify_eq/=; [lia|]. rewrite (IH ip X Y i HX). lia.
Qed.
Lemma elem_of_live l i : i ∈ live l <-> exists ip X, l !! ip = Some X /\ i_ref X <> 0 /\ i_inum X = i.
Proof.
  unfold live. rewrite elem_of_list_to_set, list_elem_of_fmap. split.
  - intros (X & -> & [Hr HX]%list_elem_of_filter). apply list_elem_of_lookup in HX as [ip HX]. eauto.
  - intros (ip & X & HX & Hr & <-). exists X. split; [done|]. apply list_elem_of_filter. split; [done|]. by eapply list_elem_of_lookup_2.
Qed.
Lemma refs_pos l i : (forall ip X, l !! ip = Some X -> 0 <= i_ref X) -> 0 <= refs l i /\ (i ∈ live l <-> refs l i <> 0).
Proof.
  induction l as [|Y l IH]; intros Hr.
  { split; [simpl; lia|]. rewrite elem_of_live. simpl. split; [by intros (? & ? & ? & _)|lia]. }
  destruct IH as [I1 I2]; [intros ip X; apply (Hr (S ip))|]. pose proof (Hr 0%nat Y eq_refl) as HY. cbn [refs foldr] in *. fold (refs l i) in *.
  split; [destruct (i_inum Y =? i); lia|]. rewrite elem_of_live in *. split.
  - intros ([|ip] & X & HX & Hn & E); simplify_eq/=; [rewrite Z.eqb_refl; lia|]. assert (refs l (i_inum X) <> 0) by (apply I2; eauto).
    destruct (i_inum Y =? i_inum X); lia.
  - intros Hn. destruct (decide (refs l i = 0)) as [E0|(ip & X & HX)%I2]; [|by exists (S ip), X]. exists 0%nat, Y. destruct (Z.eqb_spec (i_inum Y) i); [split_and!; (done || lia)|lia].
Qed.

Lemma filter_all {A} (P : A -> Prop) `{!forall x, Decision (P x)} (l : list A) : Forall P l -> filter P l = l.
Proof. induction 1 as [|x l Hx _ IH]; [done|]. rewrite filter_cons_True by done. by rewrite IH. Qed.

Lemma free_slot v sb l : icache_ok v sb l -> (size (live l) < length l)%nat -> exists ip X, l !! ip = Some X /\ i_ref X = 0.
Proof.
  intros Hc Hs. destruct (decide (Exists (fun X => i_ref X = 0) l)) as [(X & HX & Hr)%Exists_exists|Hn].
  { apply list_elem_of_lookup in HX as [ip HX]. eauto. }
  exfalso. assert (Hall : Forall (fun X => i_ref X <> 0) l) by (by rewrite <- Forall_Exists_neg in Hn). revert Hs. unfold live.
  rewrite filter_all by done. rewrite size_list_to_set; [rewrite length_fmap; lia|].
  apply NoDup_alt. intros a b i Ha Hb. apply list_lookup_fmap_Some in Ha as (X & -> & HX). apply list_lookup_fmap_Some in Hb as (Y & E & HY).
  assert (Hpos : forall c Z, l !! c = Some Z -> 0 < i_ref Z).
  { intros c Z HZ. rewrite Forall_lookup in Hall. specialize (Hall c Z HZ). pose proof (ic_ref _ _ _ Hc c Z HZ). lia. }
  by apply (ic_uniq _ _ _ Hc a b X Y HX HY); eauto.
Qed.

(** ** [iget] *)

Lemma icache_find_spec dev inum l : forall k empty,
  match icache_find l dev inum k empty with
  | (true, Some j) => exists X, (k <= j)%nat /\ l !! (j - k)%nat = Some X /\ 0 < i_ref X /\ i_dev X = dev /\ i_inum X = inum
  | (true, None) => False
  | (false, e) => (forall ip X, l !! ip = Some X -> 0 < i_ref X -> i_dev X = dev -> i_inum X <> inum) /\
      match empty with
      | Some j => e = Some j
      | None => match e with
                | Some j => exists X, (k <= j)%nat /\ l !! (j - k)%nat = Some X /\ i_ref X = 0
                | None => forall ip X, l !! ip = Some X -> i_ref X <> 0
                end
      end
  end.
Proof.
  induction l as [|Y l IH]; intros k empty; simpl.
  { split; [done|]. by destruct empty. }
  destruct ((0 <? i_ref Y) && (i_dev Y =? dev) && (i_inum Y =? inum)) eqn:E.
  { apply andb_true_iff in E as [[E1 E2]%andb_true_iff E3]. exists Y. rewrite Nat.sub_diag. split_and!; (done || lia). }
  set (e := match empty with Some _ => empty | None => if i_ref Y =? 0 then Some k else None end).
  specialize (IH (S k) e). destruct (icache_find l dev inum (S k) e) as [[] [j|]].
  - destruct IH as (X & Hk & HX & HP). exists X. split; [lia|]. replace (j - k)%nat with (S (j - S k)) by lia. done.
  - done.
  - destruct IH as [H1 H2]. split.
    + intros [|ip] X HX; simplify_eq/=; [|by apply (H1 ip)]. lia.
    + unfold e in H2. destruct empty as [j0|]; [done|]. destruct (Z.eqb_spec (i_ref Y) 0) as [E0|E0].
      * injection H2 as ->. exists Y. by rewrite Nat.sub_diag.
      * destruct H2 as (X & Hk & HX & Hr). exists X. split; [lia|]. replace (j - k)%nat with (S (j - S k)) by lia. done.
  - destruct IH as [H1 H2]. split.
    + intros [|ip] X HX; simplify_eq/=; [|by apply (H1 ip)]. lia.
    + unfold e in H2. destruct empty as [j0|]; [done|]. destruct (Z.eqb_spec (i_ref Y) 0) as [E0|E0]; [done|].
      intros [|ip] X HX; simplify_eq/=; [done|by apply (H2 ip)].
Qed.

(** An entry of the cache for inode [i] with one more reference. *)
Record got (v : tview) (sb : superblock) (l : list inode) (i : Z) (ip : nat) (l' : list inode) : Prop := mk_got {
  got_ok : icache_ok v sb l';
  got_refs : forall j, refs l' j = refs l j + (if j =? i then 1 else 0);
  got_len : length l' = length l;
  got_at : exists X X', l !! ip = Some X /\ l' !! ip = Some X' /\ i_inum X' = i /\ i_dev X' = ROOTDEV /\ 0 < i_ref X' /\
    i_lock X' = i_lock X /\ (i_valid X' = true -> 1 < i_ref X') /\ (0 < i_ref X -> i_inum X = i);
  got_other : forall ip', ip' <> ip -> l' !! ip' = l !! ip';
  got_locks : unlocked l -> unlocked l'
}.

Lemma insert_unlocked l ip X Y : l !! ip = Some X -> i_lock Y = i_lock X -> unlocked l -> unlocked (<[ip := Y]> l).
Proof. intros HX E Hu. apply Forall_insert; [done|]. rewrite E. by apply (Forall_lookup_1 _ _ _ _ Hu HX). Qed.

(** The invariant when one entry changes and stays the only one of its inode. *)
Lemma icache_insert v sb l ip X Y : icache_ok v sb l -> l !! ip = Some X -> 0 <= i_ref Y ->
  (0 < i_ref Y -> i_dev Y = ROOTDEV /\ 0 <= i_inum Y < sb_ninodes sb /\
    (forall ip' X', ip' <> ip -> l !! ip' = Some X' -> 0 < i_ref X' -> i_inum X' <> i_inum Y) /\
    (i_valid Y = true -> disk_inode v sb (i_inum Y) = Some (i_din Y))) ->
  icache_ok v sb (<[ip := Y]> l).
Proof.
  intros Hc HX Hr HY. pose proof (lookup_lt_Some _ _ _ HX) as Hl.
  assert (Hcase : forall j Z, <[ip := Y]> l !! j = Some Z -> j = ip /\ Z = Y \/ j <> ip /\ l !! j = Some Z).
  { intros j Z HZ. destruct (decide (j = ip)) as [->|]; [rewrite list_lookup_insert_eq in HZ by done; simplify_eq; by left|].
    rewrite list_lookup_insert_ne in HZ by done. by right. }
  split.
  - intros j Z [[_ ->]|[_ HZ]]%Hcase; [done|by eapply ic_ref].
  - intros j Z [[_ ->]|[_ HZ]]%Hcase Hp; [by destruct (HY Hp) as (? & ? & _)|by eapply ic_inode].
  - intros a b A B [[-> ->]|[Na HA]]%Hcase [[-> ->]|[Nb HB]]%Hcase Pa Pb E; [done| | |by eapply ic_uniq].
    + destruct (HY Pa) as (_ & _ & Hn & _). by destruct (Hn b B Nb HB Pb).
    + destruct (HY Pb) as (_ & _ & Hn & _). by destruct (Hn a A Na HA Pa).
  - intros j Z [[_ ->]|[_ HZ]]%Hcase Hp Hv; [by apply (HY Hp)|by eapply ic_valid].
Qed.

Lemma got_again v sb l ip X : icache_ok v sb l -> l !! ip = Some X -> 0 < i_ref X ->
  got v sb l (i_inum X) ip (<[ip := set_ref (i_ref X + 1) X]> l).
Proof.
  intros Hc HX Hr. pose proof (ic_inode _ _ _ Hc ip X HX Hr) as [Hd Hi]. pose proof (lookup_lt_Some _ _ _ HX) as Hl. split.
  - apply (icache_insert v sb l ip X); [done|done|simpl; lia|]. intros _. split_and!; [done|apply Hi|apply Hi| |].
    + intros ip' X' Hn HX' Hr' E. apply Hn. exact (ic_uniq _ _ _ Hc ip' ip X' X HX' HX Hr' Hr E).
    + intros Hv. exact (ic_valid _ _ _ Hc ip X HX Hr Hv).
  - intros j. rewrite (refs_insert l ip X) by done. simpl. rewrite (Z.eqb_sym j). destruct (i_inum X =? j); lia.
  - apply length_insert.
  - exists X, (set_ref (i_ref X + 1) X). rewrite list_lookup_insert_eq by done. split_and!; [done|done|done|done|simpl; lia|done|simpl; lia|done].
  - intros ip' Hn. by rewrite list_lookup_insert_ne.
  - by apply (insert_unlocked l ip X).
Qed.
Lemma got_new v sb l ip X i : icache_ok v sb l -> l !! ip = Some X -> i_ref X = 0 -> 0 <= i < sb_ninodes sb ->
  (forall ip X, l !! ip = Some X -> 0 < i_ref X -> i_dev X = ROOTDEV -> i_inum X <> i) ->
  got v sb l i ip (<[ip := mkinode ROOTDEV i 1 (i_lock X) false (i_din X)]> l).
Proof.
  intros Hc HX Hr Hi Hno. pose proof (lookup_lt_Some _ _ _ HX) as Hl. split.
  - apply (icache_insert v sb l ip X); [done|done|simpl; lia|]. intros _. split_and!; [done|apply Hi|apply Hi| |done].
    intros ip' X' Hn HX' Hr'. apply (Hno ip'); [done|done|]. by apply (ic_inode _ _ _ Hc ip' X').
  - intros j. rewrite (refs_insert l ip X) by done. simpl. rewrite (Z.eqb_sym j), Hr. destruct (i_inum X =? j), (i =? j); lia.
  - apply length_insert.
  - eexists X, _. rewrite list_lookup_insert_eq by done. split_and!; try done. lia.
  - intros ip' Hn. by rewrite list_lookup_insert_ne.
  - by apply (insert_unlocked l ip X).
Qed.

Lemma alter_at {A} (f : A -> A) (l : list A) i x : (i < length l)%nat -> alter f i (<[i := x]> l) = <[i := f x]> l.
Proof. intros Hi. rewrite (alter_insert _ _ _ x) by (by apply list_lookup_insert_eq). apply list_insert_insert_eq. Qed.

Section icache.
Context {S : Type} `{TxStore S}.
Implicit Types s : fs S.

Lemma set_icache_alter s ip X (f : inode -> inode) : f_icache s !! ip = Some X ->
  set_icache (alter f ip (f_icache s)) s = set_icache (<[ip := f X]> (f_icache s)) s.
Proof. intros HX. by rewrite (alter_insert _ _ _ _ HX). Qed.

Lemma iget_spec s v sb i (Q : nat -> fs S -> Prop) : icache_ok v sb (f_icache s) -> 0 <= i < sb_ninodes sb ->
  (size (live (f_icache s)) < length (f_icache s))%nat ->
  (forall ip l', got v sb (f_icache s) i ip l' -> Q ip (set_icache l' s)) -> wp (iget ROOTDEV i) s Q.
Proof.
  intros Hc Hi Hs HQ. unfold iget. wp_step. wp_step. pose proof (icache_find_spec ROOTDEV i (f_icache s) 0 None) as Hf.
  destruct (icache_find (f_icache s) ROOTDEV i 0 None) as [[] [ip|]].
  - destruct Hf as (X & _ & HX & Hr & Hd & Ei). rewrite Nat.sub_0_r in HX. unfold upd_ip. wp_steps. rewrite (set_icache_alter s ip X) by done.
    apply HQ. rewrite <- Ei. by apply got_again.
  - done.
  - destruct Hf as [Hno (X & _ & HX & Hr)]. rewrite Nat.sub_0_r in HX. unfold upd_ip. wp_steps. rewrite (set_icache_alter s ip X) by done.
    apply HQ. by apply got_new.
  - destruct Hf as [_ Hall]. destruct (free_slot v sb _ Hc Hs) as (ip & X & HX & Hr). by destruct (Hall ip X HX).
Qed.

Lemma idup_spec s v sb ip X (Q : nat -> fs S -> Prop) : icache_ok v sb (f_icache s) -> f_icache s !! ip = Some X -> 0 < i_ref X ->
  (forall l', got v sb (f_icache s) (i_inum X) ip l' -> Q ip (set_icache l' s)) -> wp (idup ip) s Q.
Proof.
  intros Hc HX Hr HQ. unfold idup, upd_ip. wp_steps. rewrite (set_icache_alter s ip X) by done. apply HQ. by apply got_again.
Qed.

(** [ilock] of an unlocked inode: what it holds then is the disk's copy. *)
Definition locked (X : inode) (pid : Z) (x : dinode) : inode := mkinode (i_dev X) (i_inum X) (i_ref X) (mksleeplock true pid) true x.

Lemma ilock_load s v sb ip X x (Q : unit -> fs S -> Prop) : tx_at (f_store s) v -> f_sb s = sb -> fs_inv v sb -> ready v 2 0 ->
  held_blocks v = ∅ -> icache_ok v sb (f_icache s) -> f_icache s !! ip = Some X -> 0 < i_ref X -> i_lock X = initsleeplock ->
  disk_inode v sb (i_inum X) = Some x -> d_type x <> 0 ->
  (forall t, tx_at t v -> Q tt (set_icache (<[ip := locked X (f_pid s) x]> (f_icache s)) (set_store t s))) -> wp (ilock ip) s Q.
Proof.
  intros Ht Hsb Hi Hrd Hh Hc HX Hr Hl Hx Hty HQ. unfold ilock. wp_step. eapply wp_get_ip; [exact HX|].
  rewrite (proj2 (Z.ltb_ge _ _)) by lia. wp_step. wp_step. wp_step.
  pose proof (lookup_lt_Some _ _ _ HX) as Hlt. set (X1 := set_ilock (mksleeplock true (f_pid s)) X).
  eapply wp_done; [unfold ip_lock; rewrite HX, Hl; reflexivity|]. rewrite (set_icache_alter s ip X) by done. fold X1.
  wp_step. eapply wp_get_ip; [simpl; by apply list_lookup_insert_eq|]. change (i_valid X1) with (i_valid X). destruct (i_valid X) eqn:Hv.
  { wp_step. assert (x = i_din X) as -> by (pose proof (ic_valid _ _ _ Hc ip X HX Hr Hv); congruence).
    replace X1 with (locked X (f_pid s) (i_din X)) by (unfold locked, X1; by rewrite <- Hv). specialize (HQ (f_store s) Ht). by destruct s. }
  destruct (ic_inode _ _ _ Hc ip X HX Hr) as [Hd Hin]. change (i_dev X1) with (i_dev X). change (i_inum X1) with (i_inum X). rewrite Hd.
  unfold disk_inode in Hx. rewrite Hsb. destruct (tv_blk v !! IBLOCK (i_inum X) sb) as [d|] eqn:Ed; [|done]. simplify_eq/=.
  wp_step. eapply st_bread; [exact Ht|exact Hrd|exact Ed|rewrite Hh; set_solver|]. intros h t1 Hn Ht1.
  wp_step. eapply st_data; [exact Ht1|apply lookup_insert_eq|exact Ed|].
  wp_step. unfold upd_ip at 1. wp_step. wp_step. eapply st_brelse; [exact Ht1|apply lookup_insert_eq|simpl; destruct Hrd as [Hm _]; set_solver|].
  intros t2 Ht2. rewrite tv_hold_drop in Ht2 by done. wp_step. unfold upd_ip. wp_step. wp_step.
  set (l2 := alter (set_valid true) ip _).
  assert (El : l2 = <[ip := locked X (f_pid s) (dec_dinode (dinode_off (i_inum X)) d)]> (f_icache s)).
  { unfold l2. cbn [f_icache set_icache set_store]. by rewrite !alter_at. }
  eapply wp_get_ip; [cbn [f_icache set_icache]; rewrite El; by apply list_lookup_insert_eq|]. unfold i_type at 1. cbn [i_din locked].
  rewrite (proj2 (Z.eqb_neq (d_type (dec_dinode (dinode_off (i_inum X)) d)) 0) Hty). wp_step. rewrite El. by apply (HQ t2).
Qed.

(** [iput] that leaves other references, or an inode with links. *)
Record dropped (v : tview) (sb : superblock) (l : list inode) (ip : nat) (X : inode) (l' : list inode) : Prop := mk_dropped {
  dr_ok : icache_ok v sb l';
  dr_refs : forall j, refs l' j = refs l j - (if j =? i_inum X then 1 else 0);
  dr_len : length l' = length l;
  dr_at : l' !! ip = Some (set_ref (i_ref X - 1) X);
  dr_other : forall ip', ip' <> ip -> l' !! ip' = l !! ip'
}.
Lemma drop_ref v sb l ip X : icache_ok v sb l -> l !! ip = Some X -> 0 < i_ref X -> dropped v sb l ip X (<[ip := set_ref (i_ref X - 1) X]> l).
Proof.
  intros Hc HX Hr. pose proof (ic_inode _ _ _ Hc ip X HX Hr) as [Hd Hi]. split.
  - apply (icache_insert v sb l ip X); [done|done|simpl; lia|]. intros _. split_and!; [done|apply Hi|apply Hi| |].
    + intros ip' X' Hn HX' Hr' E. apply Hn. exact (ic_uniq _ _ _ Hc ip' ip X' X HX' HX Hr' Hr E).
    + intros Hv. exact (ic_valid _ _ _ Hc ip X HX Hr Hv).
  - intros j. rewrite (refs_insert l ip X) by done. simpl. rewrite (Z.eqb_sym j). destruct (i_inum X =? j); lia.
  - apply length_insert.
  - apply list_lookup_insert_eq. by eapply lookup_lt_Some.
  - intros ip' Hn. by rewrite list_lookup_insert_ne.
Qed.

Lemma iput_keep s v sb ip X (Q : unit -> fs S -> Prop) : icache_ok v sb (f_icache s) -> f_icache s !! ip = Some X -> 0 < i_ref X ->
  i_lock X = initsleeplock -> (i_valid X = true -> i_nlink X = 0 -> i_ref X <> 1) ->
  (forall l', dropped v sb (f_icache s) ip X l' -> Q tt (set_icache l' s)) -> wp (iput ip) s Q.
Proof.
  intros Hc HX Hr Hl Hk HQ. unfold iput. wp_step. wp_step. wp_step. pose proof (lookup_lt_Some _ _ _ HX) as Hlt.
  set (X1 := set_ilock (mksleeplock true (f_pid s)) X).
  eapply wp_done; [unfold ip_lock; rewrite HX, Hl; reflexivity|]. rewrite (set_icache_alter s ip X) by done. fold X1.
  wp_step. eapply wp_get_ip; [simpl; by apply list_lookup_insert_eq|].
  change (i_valid X1) with (i_valid X). change (i_nlink X1) with (i_nlink X). change (i_ref X1) with (i_ref X).
  wp_step. assert (Hgo : forall Q', Q' tt (set_icache (<[ip := X1]> (f_icache s)) s) ->
    wp (if i_valid X && (i_nlink X =? 0) then if i_ref X =? 1 then itrunc ip;; upd_ip ip (fun x => set_din (din_type 0 (i_din x)) x);; iupdate ip;; upd_ip ip (set_valid false)
        else mret tt else mret tt) (set_icache (<[ip := X1]> (f_icache s)) s) Q').
  { intros Q' HQ'. destruct (i_valid X), (Z.eqb_spec (i_nlink X) 0); try by apply wp_ret. rewrite (proj2 (Z.eqb_neq _ _)) by auto. by apply wp_ret. }
  apply Hgo. clear Hgo. wp_step. eapply wp_done; [unfold ip_lock; cbn [f_icache set_icache]; rewrite list_lookup_insert_eq by done; reflexivity|].
  unfold upd_ip. wp_step. cbn [f_icache set_icache].
  rewrite !alter_at by done.
  apply HQ. replace (set_ref _ _) with (set_ref (i_ref X - 1) X); [by apply drop_ref|]. unfold X1. destruct X. simpl in *. by subst.
Qed.

Lemma iunlock_spec s ip X (Q : unit -> fs S -> Prop) : f_icache s !! ip = Some X -> 1 <= i_ref X -> sl_locked (i_lock X) = true ->
  Q tt (set_icache (<[ip := set_ilock initsleeplock X]> (f_icache s)) s) -> wp (iunlock ip) s Q.
Proof.
  intros HX Hr Hl HQ. unfold iunlock. wp_step. eapply wp_get_ip; [exact HX|]. pose proof (lookup_lt_Some _ _ _ HX) as Hlt.
  wp_step. eapply wp_done; [unfold ip_lock; rewrite HX; reflexivity|]. rewrite (set_icache_alter s ip X) by done.
  replace (set_ilock (i_lock X) X) with X by (by destruct X). rewrite list_insert_id by done. rewrite Hl, (proj2 (Z.ltb_ge _ _)) by lia. cbn [negb orb].
  replace (set_icache (f_icache s) s) with s by (by destruct s).
  eapply wp_done; [unfold ip_lock; rewrite HX; reflexivity|]. by rewrite (set_icache_alter s ip X).
Qed.
End icache.

(** ** The entry of an inode under its lock *)

(** The invariant does not depend on locks, nor on what a valid entry held before. *)
Lemma relock_ok v sb l ip X Y : icache_ok v sb l -> l !! ip = Some X -> 0 < i_ref X ->
  i_dev Y = i_dev X -> i_inum Y = i_inum X -> i_ref Y = i_ref X -> (i_valid Y = true -> disk_inode v sb (i_inum Y) = Some (i_din Y)) ->
  icache_ok v sb (<[ip := Y]> l) /\ forall j, refs (<[ip := Y]> l) j = refs l j.
Proof.
  intros Hc HX Hr E1 E2 E3 Hv. pose proof (ic_inode _ _ _ Hc ip X HX Hr) as [Hd Hi]. split.
  - apply (icache_insert v sb l ip X); [done|done|lia|]. intros _. rewrite E1, E2. split_and!; [done|apply Hi|apply Hi| |by rewrite <- E2].
    intros ip' X' Hn HX' Hr' E. apply Hn. exact (ic_uniq _ _ _ Hc ip' ip X' X HX' HX Hr' Hr E).
  - intros j. rewrite (refs_insert l ip X) by done. rewrite E2, E3. lia.
Qed.
Lemma refs_at v sb l : forall ip X, icache_ok v sb l -> l !! ip = Some X -> 0 < i_ref X -> refs l (i_inum X) = i_ref X.
Proof.
  intros ip X Hc HX Hr. assert (E : refs (<[ip := set_ref 0 X]> l) (i_inum X) = 0).
  { destruct (decide (refs (<[ip := set_ref 0 X]> l) (i_inum X) = 0)) as [|Hn]; [done|]. exfalso.
    assert (Hnn : forall j Z, <[ip := set_ref 0 X]> l !! j = Some Z -> 0 <= i_ref Z).
    { intros j Z HZ. destruct (decide (j = ip)) as [->|]; [rewrite list_lookup_insert_eq in HZ by (by eapply lookup_lt_Some); by simplify_eq/=|].
      rewrite list_lookup_insert_ne in HZ by done. by eapply ic_ref. }
    apply (proj2 (refs_pos _ _ Hnn)) in Hn. apply elem_of_live in Hn as (j & Z & HZ & Hz & Ez).
    destruct (decide (j = ip)) as [->|Hne]; [rewrite list_lookup_insert_eq in HZ by (by eapply lookup_lt_Some); by simplify_eq/=|].
    pose proof (Hnn j Z HZ). rewrite list_lookup_insert_ne in HZ by done. apply Hne. apply (ic_uniq _ _ _ Hc j ip Z X HZ HX); [lia|done|done]. }
  rewrite (refs_insert l ip X) in E by done. rewrite Z.eqb_refl in E. simpl in E. rewrite Z.eqb_refl in E. lia.
Qed.
