(* ===== verification/FsFree.v ===== *)
(** * Giving blocks and inodes back and taking inodes: [itrunc], [iput], [ialloc]

    [itrunc] frees every block of a file, through the indirect block, and
    empties the inode, in core and on disk: [itrunc_spec].  [iput] of the last
    reference to an inode without links does that and marks the inode free:
    [iput_free_spec].  Blocks freed stay as they are until they are allocated
    again; what is still in use does not change.  [ialloc] takes the first free
    inode: [ialloc_spec]. *)

From S2P Require Import Prelude Sleeplock Bio Log LogSpec BlockStore Fs FsBlocks FsInode FsFile FsWrite FsIcache.

#[local] Opaque BLK.

(** [v'] is [v] with the blocks of [F] free. *)
Record frees (sb : superblock) (F : gset Z) (v v' : tview) : Prop := mk_frees {
  fe_used : forall b, 0 <= b < sb_size sb -> used v' sb b = if decide (b ∈ F) then false else used v sb b;
  fe_frame : forall b, ~ is_map sb b -> tv_blk v' !! b = tv_blk v !! b;
  fe_held : tv_held v' = tv_held v;
  fe_mod : tv_mod v' = tv_mod v;
  fe_home : tv_home v' = tv_home v;
  fe_cap : tv_cap v' = tv_cap v;
  fe_logs : logs sb v v' ∅;
  fe_inv : fs_inv v' sb
}.

Lemma frees_refl sb v : fs_inv v sb -> frees sb ∅ v v.
Proof. intros Hi. split; try done. apply logs_refl. Qed.
Lemma frees_step sb F v v1 v2 b : fs_inv v sb -> frees sb F v v1 -> free_step sb v1 v2 b -> 0 <= b < sb_size sb -> frees sb (F ∪ {[b]}) v v2.
Proof.
  intros Hi [A1 A2 A3 A4 A5 A6 A7 A8] [B1 B2 B3 B4 B5 B6 B7 B8] Hb. split; try congruence; try done.
  - intros b' Hb'. rewrite B1, A1 by done. destruct (decide (b' = b)) as [->|Hne]; [by rewrite decide_True by (apply elem_of_union; right; by apply elem_of_singleton)|].
    destruct (decide (b' ∈ F)) as [HF|HF]; [by rewrite decide_True by (apply elem_of_union; by left)|]. rewrite decide_False; [done|].
    intros [?|?%elem_of_singleton]%elem_of_union; done.
  - intros b' Hm. by rewrite B2, A2.
  - unfold logs in *. rewrite B7. assert (BBLOCK b sb ∈ maps sb) by (apply elem_of_maps, bblock_map; [apply Hi|done]). clear - A7 H. set_solver.
Qed.

(** ** The blocks freed so far *)

Definition below (V : gmap Z block) (x : dinode) (n : Z) : gset Z := list_to_set (slot V x <$> seqZ 0 n) ∖ {[0]}.
Lemma elem_of_below V x n b : b ∈ below V x n <-> b <> 0 /\ exists k, 0 <= k < n /\ slot V x k = b.
Proof.
  unfold below. rewrite elem_of_difference, elem_of_singleton, elem_of_list_to_set, list_elem_of_fmap. setoid_rewrite elem_of_seqZ. split.
  - intros [(k & -> & Hk) Hn]. split; [done|]. exists k. split; [lia|done].
  - intros [Hn (k & Hk & <-)]. split; [|done]. exists k. split; [done|lia].
Qed.
Lemma below_S V x n : 0 <= n -> below V x (n + 1) = below V x n ∪ (if decide (slot V x n = 0) then ∅ else {[slot V x n]}).
Proof.
  intros Hn. apply set_eq. intros b. rewrite elem_of_union, !elem_of_below. split.
  - intros (Hb & k & Hk & E). destruct (decide (k = n)) as [->|]; [right; rewrite decide_False by congruence; set_solver|left; split; [done|]; exists k; split; [lia|done]].
  - intros [(Hb & k & Hk & E)|Hb]; [split; [done|]; exists k; split; [lia|done]|]. case_decide; [set_solver|]. apply elem_of_singleton in Hb as ->. split; [done|]. exists n. split; [lia|done].
Qed.

Section truncate.
Context (sb : superblock) (v : tview) (x : dinode).
Hypothesis (Hi : fs_inv v sb) (Hx : inode_ok v sb x).
Abbreviation V := (tv_blk v).

Lemma frees_skip n v1 : 0 <= n -> slot V x n = 0 -> frees sb (below V x n) v v1 -> frees sb (below V x (n + 1)) v v1.
Proof. intros Hn E H. rewrite below_S, decide_True, union_empty_r_L by done. done. Qed.
Lemma frees_slot n v1 v2 : 0 <= n <= 140 -> slot V x n <> 0 -> frees sb (below V x n) v v1 -> free_step sb v1 v2 (slot V x n) ->
  frees sb (below V x (n + 1)) v v2.
Proof.
  intros Hn E H Hf. rewrite below_S, decide_False by (done || lia). eapply frees_step; try done. by apply (slot_map sb v x Hi Hx).
Qed.
(** A block not yet reached is still in use, and the inode reads as before. *)
Lemma still_used n v1 : frees sb (below V x n) v v1 -> 0 <= n <= 140 -> slot V x n <> 0 ->
  used v1 sb (slot V x n) = true /\ meta_end sb <= slot V x n < sb_size sb.
Proof.
  intros Hf Hn E. destruct (in_area _ _ _ Hx n Hn E) as [Ha Hu]. split; [|done]. pose proof (meta_pos sb (fi_layout _ _ Hi)).
  rewrite (fe_used _ _ _ _ Hf) by lia. rewrite decide_False; [done|]. intros (_ & k & Hk & Ek)%elem_of_below.
  symmetry in Ek. apply (in_inj _ _ _ Hx) in Ek; [lia..|done].
Qed.
End truncate.

Lemma free_hold sb v v2 h a b : free_step sb (tv_hold h a v) v2 b -> exists v1, v2 = tv_hold h a v1 /\ free_step sb v v1 b.
Proof.
  intros [A1 A2 A3 A4 A5 A6 A7 A8]. exists (mktview (tv_blk v2) (tv_held v) (tv_mod v2) (tv_log v2) (tv_home v2) (tv_cap v2)).
  split; [destruct v2; simpl in *; unfold tv_hold; simpl; by rewrite A3|]. split; try done. by destruct A8.
Qed.

(** ** [itrunc] *)

(** The first [i] addresses cleared. *)
Definition cut (i : nat) (x : dinode) : dinode :=
  mkdinode (d_type x) (d_major x) (d_minor x) (d_nlink x) (d_size x) (replicate i 0 ++ drop i (d_addrs x)).
Lemma cut_0 x : cut 0 x = x.
Proof. by destruct x. Qed.
Lemma cut_S i x : (i < length (d_addrs x))%nat -> din_addr i 0 (cut i x) = cut (S i) x.
Proof.
  intros Hi. unfold din_addr, cut. cbn [d_type d_major d_minor d_nlink d_size d_addrs]. f_equal.
  destruct (lookup_lt_is_Some_2 _ _ Hi) as [a Ha]. rewrite (drop_S _ _ _ Ha).
  rewrite insert_app_r_alt; rewrite length_replicate; [|done]. rewrite Nat.sub_diag, replicate_S_end, <- app_assoc. done.
Qed.
Lemma cut_same i x : (i < length (d_addrs x))%nat -> nth i (d_addrs x) 0 = 0 -> cut (S i) x = cut i x.
Proof.
  intros Hi E. unfold cut. f_equal. destruct (lookup_lt_is_Some_2 _ _ Hi) as [a Ha]. rewrite (nth_lookup_Some _ _ _ _ Ha) in E. subst a.
  rewrite (drop_S _ _ _ Ha), replicate_S_end, <- app_assoc. done.
Qed.
Lemma cut_nth i x : (i < length (d_addrs x))%nat -> nth i (d_addrs (cut i x)) 0 = nth i (d_addrs x) 0.
Proof.
  intros Hi. destruct (lookup_lt_is_Some_2 _ _ Hi) as [a Ha]. cbn [cut d_addrs]. rewrite app_nth2; rewrite length_replicate; [|lia].
  by rewrite Nat.sub_diag, (drop_S _ _ _ Ha), (nth_lookup_Some _ _ _ _ Ha).
Qed.
Lemma cut_length i x : (i <= length (d_addrs x))%nat -> length (d_addrs (cut i x)) = length (d_addrs x).
Proof. intros Hi. cbn [cut d_addrs]. rewrite length_app, length_replicate, length_drop. lia. Qed.

Section itrunc.
Context {S : Type} `{TxStore S}.
Context (s : fs S) (sb : superblock) (ip : nat) (X : inode) (v : tview) (x : dinode).
Hypothesis (Hsb : f_sb s = sb) (HX : f_icache s !! ip = Some X) (Hdev : i_dev X = ROOTDEV).
Hypothesis (Hi : fs_inv v sb) (Hx : inode_ok v sb x).
Hypothesis (Hmod : tv_mod v = ∅) (Hheld : tv_held v = ∅) (Hroom : room v sb 1).
Abbreviation V := (tv_blk v).

Lemma none_held : held_blocks v = ∅.
Proof. unfold held_blocks. rewrite Hheld. apply map_img_empty_L. Qed.
(** Room for the free map and a block, however much was freed. *)
Lemma frees_ready F v1 h : frees sb F v v1 -> (size (held_blocks v1) <= h)%nat -> ready v1 h (1 + 0).
Proof.
  intros Hf Hh. apply (room_ready v1 sb h 1); [|by rewrite (fe_mod _ _ _ _ Hf)|done].
  eapply (room_logs v v1 sb 1 0 ∅); [exact Hroom|apply Hf|by rewrite size_empty|apply Hf].
Qed.
Lemma frees_none_held F v1 : frees sb F v v1 -> held_blocks v1 = ∅.
Proof. intros Hf. unfold held_blocks. rewrite (fe_held _ _ _ _ Hf). apply none_held. Qed.

(** [bfree(ip->dev, a)] with no buffer held. *)
Lemma bfree_slot n v1 t (y : dinode) (Q : unit -> fs S -> Prop) : frees sb (below V x n) v v1 -> 0 <= n <= 140 -> slot V x n <> 0 -> tx_at t v1 ->
  (forall t' v2, tx_at t' v2 -> frees sb (below V x (n + 1)) v v2 -> Q tt (at_ip s ip t' y)) ->
  wp (bfree ROOTDEV (slot V x n)) (at_ip s ip t y) Q.
Proof.
  intros Hf Hn E Ht HQ. destruct (still_used sb v x Hi Hx n v1 Hf Hn E) as [Hu Ha]. pose proof (frees_none_held _ _ Hf) as Hnh.
  eapply (bfree_spec _ v1 sb _ 0); [exact Ht|exact Hsb|apply Hf|intros b Hb; rewrite Hnh in Hb; set_solver| |exact Ha|exact Hu|].
  - eapply frees_ready; [exact Hf|]. rewrite Hnh, size_empty. lia.
  - intros v2 t2 Hs Ht2. rewrite at_ip_store. apply (HQ t2 v2 Ht2). by eapply frees_slot.
Qed.

(** The direct blocks. *)
Lemma direct_spec t (Q : unit -> fs S -> Prop) : tx_at t v ->
  (forall t' v1, tx_at t' v1 -> frees sb (below V x 12) v v1 -> Q tt (at_ip s ip t' (cut 12 x))) ->
  wp (kfor 0 (Z.to_nat NDIRECT) (fun i =>
    y ← get_ip ip;
    a ← get_addr i y;
    if a =? 0 then mret tt
    else
      bfree (i_dev y) a;;
      upd_ip ip (fun y => set_din (din_addr i 0 (i_din y)) y))) (at_ip s ip t x) Q.
Proof.
  intros Ht HQ. pose proof (in_len _ _ _ Hx) as Hl.
  apply (wp_kfor (fun i s' => exists t' v1, s' = at_ip s ip t' (cut i x) /\ tx_at t' v1 /\ frees sb (below V x (Z.of_nat i)) v v1)).
  - exists t, v. rewrite cut_0. split_and!; [done|done|by apply frees_refl].
  - intros i s1 Hir (t1 & v1 & -> & Ht1 & Hf). change (Z.to_nat NDIRECT) with 12%nat in Hir.
    wp_step. eapply wp_get_ip; [by eapply at_ip_lookup|]. wp_step. apply wp_get_addr; [change (length (d_addrs (cut i x)) = 13%nat); rewrite cut_length by lia; done|lia|].
    change (i_addrs (set_din (cut i x) X)) with (d_addrs (cut i x)). rewrite cut_nth by lia. change (i_dev (set_din (cut i x) X)) with (i_dev X). rewrite Hdev.
    assert (Es : slot V x (Z.of_nat i) = nth i (d_addrs x) 0) by (unfold slot; rewrite (proj2 (Z.ltb_lt _ _)), Nat2Z.id by lia; done). rewrite <- Es.
    destruct (Z.eqb_spec (slot V x (Z.of_nat i)) 0) as [E|E].
    + wp_step. exists t1, v1. rewrite cut_same by (rewrite ?Hl, <- ?Es; lia || done). split_and!; try done.
      replace (Z.of_nat (Datatypes.S i)) with (Z.of_nat i + 1) by lia. apply frees_skip; [lia|done|done].
    + wp_step. eapply bfree_slot; [exact Hf|lia|exact E|exact Ht1|]. intros t2 v2 Ht2 Hf2.
      eapply wp_upd_din; [done|]. exists t2, v2. rewrite cut_S by lia. split_and!; try done.
      by replace (Z.of_nat (Datatypes.S i)) with (Z.of_nat i + 1) by lia.
  - intros s1 (t1 & v1 & -> & Ht1 & Hf). by apply (HQ t1 v1).
Qed.

(** The blocks of the indirect block, read from it while it is held. *)
Lemma entry_slot n d : 12 <= n < 140 -> ind_addr x <> 0 -> V !! ind_addr x = Some d -> get32 (Z.to_nat (4 * (n - 12))) d = slot V x n.
Proof.
  intros Hn Hind Hd. unfold slot, ind_entry. rewrite (proj2 (Z.ltb_ge n 12)), (proj2 (Z.ltb_lt n 140)) by lia.
  by rewrite (proj2 (Z.eqb_neq _ _) Hind), Hd.
Qed.

Lemma entries_spec t v0 h (y : dinode) d (Q : unit -> fs S -> Prop) : ind_addr x <> 0 -> V !! ind_addr x = Some d -> frees sb (below V x 12) v v0 ->
  tv_held v0 !! h = None -> tx_at t (tv_hold h (ind_addr x) v0) ->
  (forall t' v1, tx_at t' (tv_hold h (ind_addr x) v1) -> frees sb (below V x 140) v v1 -> Q tt (at_ip s ip t' y)) ->
  wp (kfor 0 (Z.to_nat NINDIRECT) (fun j =>
       d ← st (bs_data h);
       let a := get32 (4 * j) d in
       if a =? 0 then mret tt else bfree ROOTDEV a)) (at_ip s ip t y) Q.
Proof.
  intros Hind Hd Hf0 Hh Ht HQ. destruct (slot_map sb v x Hi Hx 140 ltac:(lia) Hind) as (Hnm & Hr & Hu). rewrite slot_ind in *.
  destruct (in_area _ _ _ Hx 140 ltac:(lia) Hind) as [Ha _]. rewrite slot_ind in Ha. pose proof (meta_pos sb (fi_layout _ _ Hi)).
  apply (wp_kfor (fun j s' => exists t' v1, s' = at_ip s ip t' y /\ tx_at t' (tv_hold h (ind_addr x) v1) /\ frees sb (below V x (12 + Z.of_nat j)) v v1)).
  - exists t, v0. by split_and!.
  - intros j s1 Hj (t1 & v1 & -> & Ht1 & Hf). change (Z.to_nat NINDIRECT) with 128%nat in Hj.
    assert (Hn1 : tv_held v1 !! h = None) by (rewrite (fe_held _ _ _ _ Hf), Hheld; apply lookup_empty).
    wp_step. eapply st_data; [exact Ht1|apply lookup_insert_eq|cbn [tv_blk tv_hold]; rewrite (fe_frame _ _ _ _ Hf) by done; exact Hd|].
    cbv zeta. replace (4 * j)%nat with (Z.to_nat (4 * ((12 + Z.of_nat j) - 12))) by lia. rewrite (entry_slot (12 + Z.of_nat j) d) by (done || lia).
    replace (12 + Z.of_nat (Datatypes.S j)) with (12 + Z.of_nat j + 1) by lia.
    destruct (Z.eqb_spec (slot V x (12 + Z.of_nat j)) 0) as [E|E].
    + wp_step. exists t1, v1. split_and!; try done. apply frees_skip; [lia|done|done].
    + destruct (still_used sb v x Hi Hx _ v1 Hf ltac:(lia) E) as [Hu1 Ha1].
      assert (Hhb : held_blocks (tv_hold h (ind_addr x) v1) = {[ind_addr x]}) by (rewrite held_hold, (frees_none_held _ _ Hf), union_empty_r_L by done; done).
      eapply (bfree_spec _ (tv_hold h (ind_addr x) v1) sb _ 0); [exact Ht1|exact Hsb|by destruct (fe_inv _ _ _ _ Hf)| | |exact Ha1|exact Hu1|].
      * intros b Hb. rewrite Hhb in Hb. apply elem_of_singleton in Hb as ->. split_and!; [done|lia|lia| |lia].
        change (used v1 sb (ind_addr x) = true). rewrite (fe_used _ _ _ _ Hf) by lia. rewrite decide_False; [done|].
        intros (_ & k & Hk & Ek)%elem_of_below. rewrite <- (slot_ind v x) in Ek. symmetry in Ek. apply (in_inj _ _ _ Hx) in Ek; [lia..|done].
      * destruct (frees_ready _ v1 1 Hf) as (R1 & _ & R3); [rewrite (frees_none_held _ _ Hf), size_empty; lia|]. split; [exact R1|]. split; [|exact R3].
        rewrite Hhb, size_singleton. lia.
      * intros v2 t2 Hs Ht2. apply free_hold in Hs as (v3 & -> & Hs). exists t2, v3. split_and!; [done|done|]. eapply frees_slot; try done. lia.
  - intros s1 (t1 & v1 & -> & Ht1 & Hf). by apply (HQ t1 v1).
Qed.

(** [if(ip->addrs[NDIRECT]){ ... }] *)
Lemma indirect_spec t v0 (Q : unit -> fs S -> Prop) : tx_at t v0 -> frees sb (below V x 12) v v0 ->
  (forall t' v1, tx_at t' v1 -> frees sb (owned V x) v v1 -> Q tt (at_ip s ip t' (cut 13 x))) ->
  wp (y ← get_ip ip;
      ind ← get_addr (Z.to_nat NDIRECT) y;
      (if ind =? 0 then mret tt
       else
         bp ← st (bs_bread (i_dev y) ind);
         kfor 0 (Z.to_nat NINDIRECT) (fun j =>
           d ← st (bs_data bp);
           let a := get32 (4 * j) d in
           if a =? 0 then mret tt else bfree (i_dev y) a);;
         st (bs_brelse bp);;
         bfree (i_dev y) ind;;
         upd_ip ip (fun y => set_din (din_addr (Z.to_nat NDIRECT) 0 (i_din y)) y))) (at_ip s ip t (cut 12 x)) Q.
Proof.
  intros Ht Hf HQ. pose proof (in_len _ _ _ Hx) as Hl. pose proof (meta_pos sb (fi_layout _ _ Hi)).
  change (owned V x) with (below V x (140 + 1)) in HQ.
  wp_step. eapply wp_get_ip; [by eapply at_ip_lookup|]. wp_step. change (Z.to_nat NDIRECT) with 12%nat.
  apply wp_get_addr; [change (length (d_addrs (cut 12 x)) = 13%nat); rewrite cut_length by lia; done|lia|].
  change (i_addrs (set_din (cut 12 x) X)) with (d_addrs (cut 12 x)). rewrite cut_nth by lia. change (i_dev (set_din (cut 12 x) X)) with (i_dev X). rewrite Hdev.
  change (nth 12 (d_addrs x) 0) with (ind_addr x). destruct (Z.eqb_spec (ind_addr x) 0) as [E|E].
  - wp_step. rewrite <- (cut_same 12 x) by (lia || done). apply (HQ t v0 Ht). apply frees_skip; [lia|done|].
    assert (Hb : below V x 140 = below V x 12); [|by rewrite Hb]. apply set_eq. intros b. rewrite !elem_of_below. split; intros (Hn & k & Hk & Ek); (split; [done|]).
    + destruct (decide (k < 12)) as [|Hge]; [exists k; split; [lia|done]|]. destruct Hn. rewrite <- Ek. unfold slot, ind_entry.
      by rewrite (proj2 (Z.ltb_ge k 12)), (proj2 (Z.ltb_lt k 140)), E by lia.
    + exists k. split; [lia|done].
  - destruct (slot_map sb v x Hi Hx 140 ltac:(lia) E) as (Hnm & Hr & Hu). rewrite slot_ind in *.
    destruct (in_area _ _ _ Hx 140 ltac:(lia) E) as [Ha _]. rewrite slot_ind in Ha.
    destruct (fi_dom _ _ Hi (ind_addr x) ltac:(lia)) as [d Hd].
    wp_step. eapply (st_bread _ v0 _ d 1); [exact Ht| |rewrite (fe_frame _ _ _ _ Hf) by done; exact Hd|rewrite (frees_none_held _ _ Hf); apply not_elem_of_empty|].
    { eapply (frees_ready _ v0 2 Hf). rewrite (frees_none_held _ _ Hf), size_empty. lia. }
    intros h t1 Hn1 Ht1. rewrite at_ip_store. wp_step. eapply entries_spec; [exact E|exact Hd|exact Hf|exact Hn1|exact Ht1|]. intros t2 v2 Ht2 Hf2.
    assert (Hn2 : tv_held v2 !! h = None) by (rewrite (fe_held _ _ _ _ Hf2), Hheld; apply lookup_empty).
    wp_step. eapply st_brelse; [exact Ht2|apply lookup_insert_eq|cbn [tv_mod tv_hold]; rewrite (fe_mod _ _ _ _ Hf2), Hmod; apply not_elem_of_empty|].
    intros t3 Ht3. rewrite tv_hold_drop in Ht3 by done. rewrite at_ip_store. wp_step. rewrite <- (slot_ind v x).
    eapply bfree_slot; [exact Hf2|lia|by rewrite slot_ind|exact Ht3|]. intros t4 v4 Ht4 Hf4. eapply wp_upd_din; [done|]. rewrite cut_S by lia. by apply (HQ t4 v4).
Qed.
End itrunc.

(** An inode with no blocks. *)
Definition without_blocks (x : dinode) : dinode :=
  mkdinode (d_type x) (d_major x) (d_minor x) (d_nlink x) 0 (replicate 13 0).
Lemma cut_all x : length (d_addrs x) = 13%nat -> din_size 0 (cut 13 x) = without_blocks x.
Proof. intros Hl. unfold din_size, cut, without_blocks. cbn [d_type d_major d_minor d_nlink d_addrs]. rewrite drop_ge, app_nil_r by lia. done. Qed.
Lemma blank_slot V x k : d_addrs x = replicate 13 0 -> slot V x k = 0.
Proof.
  intros E. assert (Hn : forall n, nth n (d_addrs x) 0 = 0).
  { intros n. rewrite E, nth_lookup. destruct (replicate 13 0 !! n) eqn:El; [|done]. by apply lookup_replicate in El as [-> _]. }
  unfold slot, ind_entry, ind_addr. rewrite !Hn. destruct (k <? 12), (k <? 140); done.
Qed.
Lemma blank_owned V x : d_addrs x = replicate 13 0 -> owned V x = ∅.
Proof.
  intros E. apply set_eq. intros b. split; [|intros []%not_elem_of_empty]. intros (Hn & k & _ & Ek)%elem_of_owned. by rewrite blank_slot in Ek.
Qed.
Lemma blank_ok v sb x : d_addrs x = replicate 13 0 -> d_size x = 0 -> inode_ok v sb x.
Proof.
  intros E Ez. pose proof BLK_eq. split.
  - by rewrite E.
  - intros k _ []. by apply blank_slot.
  - intros k k' _ _ []. by apply blank_slot.
  - rewrite Ez. unfold MAXFILE, NDIRECT, NINDIRECT. lia.
  - intros k Hk. rewrite Ez. nia.
Qed.

Lemma blank_range ty ma mi nl : short ty -> short ma -> short mi -> short nl -> din_range (mkdinode ty ma mi nl 0 (replicate 13 0)).
Proof. intros. unfold din_range. cbn. split_and!; try done; repeat constructor; lia. Qed.

(** [v'] is [v] after the inode [inum], which was [x], gave its blocks back
    and became [x'] on disk. *)
Record emptied (sb : superblock) (inum : Z) (x : dinode) (v v' : tview) (x' : dinode) : Prop := mk_emptied {
  em_used : forall b, 0 <= b < sb_size sb -> used v' sb b = if decide (b ∈ owned (tv_blk v) x) then false else used v sb b;
  em_frame : forall b, 0 <= b < sb_size sb -> used v' sb b = true -> ~ is_map sb b -> b <> IBLOCK inum sb -> tv_blk v' !! b = tv_blk v !! b;
  em_here : disk_inode v' sb inum = Some x';
  em_other : forall i, 0 <= i < sb_ninodes sb -> i <> inum -> disk_inode v' sb i = disk_inode v sb i;
  em_held : tv_held v' = tv_held v;
  em_mod : tv_mod v' = tv_mod v;
  em_home : tv_home v' = tv_home v;
  em_cap : tv_cap v' = tv_cap v;
  em_logs : logs sb v v' {[IBLOCK inum sb]};
  em_inv : fs_inv v' sb
}.

Lemma iblock_range sb inum : layout sb -> 0 <= inum < sb_ninodes sb -> ~ is_map sb (IBLOCK inum sb) /\ 0 <= IBLOCK inum sb < meta_end sb /\ IBLOCK inum sb < sb_size sb.
Proof.
  intros HL Hin. destruct (iblock_eq sb HL inum Hin) as [_ Hb]. pose proof (ly_inodestart _ HL). pose proof (ly_map _ HL).
  assert (0 <= (sb_size sb - 1) / BPB) by (apply Z.div_pos; pose proof (ly_size _ HL); unfold BPB; pose proof BLK_eq; lia).
  unfold is_map, meta_end in *. lia.
Qed.

Lemma frees_put sb inum x v v1 v2 x' : fs_inv v sb -> 0 <= inum < sb_ninodes sb -> frees sb (owned (tv_blk v) x) v v1 -> inode_put sb inum x' v1 v2 -> emptied sb inum x v v2 x'.
Proof.
  intros Hi Hin [A1 A2 A3 A4 A5 A6 A7 A8] [B1 B2 B3 B4 B5]. pose proof (fi_layout _ _ Hi) as HL.
  pose proof (fun b => free_used sb v1 v2 b B5) as Hu.
  destruct B1 as [C1 C2 C3 C4 C5 C6 C7]. split; try congruence; try done.
  - intros b Hb. by rewrite Hu, A1.
  - intros b Hb Hu2 Hm Hne. rewrite C6; [by apply A2|done|by rewrite <- Hu|done|by rewrite elem_of_singleton].
  - intros i Hir Hne. rewrite B4 by done. unfold disk_inode. rewrite A2; [done|]. by apply iblock_range.
  - eapply logs_mono; [eapply logs_trans; [exact A7|exact B2]|]. by rewrite union_empty_l_L.
Qed.

Lemma wp_tail {S A B C D} (a : KM S A) (g : A -> KM S B) (h : A -> B -> KM S C) (k : KM S D) s Q :
  wp (x ← a; y ← g x; h x y) s (fun _ s' => wp k s' Q) -> wp (x ← a; y ← g x; h x y;; k) s Q.
Proof.
  intros H1%wp_bind_inv. apply wp_bind. eapply wp_mono; [exact H1|]. intros x s1 H2%wp_bind_inv. apply wp_bind. eapply wp_mono; [exact H2|].
  intros y s2 H3. by apply wp_bind.
Qed.

Section itrunc_all.
Context {S : Type} `{TxStore S}.

Lemma room_log v sb k : room v sb k -> (size (tv_log v) + k <= tv_cap v)%nat.
Proof. unfold room. intros Hr. pose proof (subseteq_size (tv_log v) (tv_log v ∪ maps sb) ltac:(apply union_subseteq_l)). lia. Qed.

Lemma itrunc_spec (s : fs S) v sb ip X (Q : unit -> fs S -> Prop) :
  file_pre s v sb ip X -> 0 <= i_inum X < sb_ninodes sb -> din_range (i_din X) -> tv_held v = ∅ -> room v sb 1 ->
  (forall t v', tx_at t v' -> emptied sb (i_inum X) (i_din X) v v' (without_blocks (i_din X)) -> Q tt (at_ip s ip t (without_blocks (i_din X)))) ->
  wp (itrunc ip) s Q.
Proof.
  intros P Hin Hr Hh Hroom HQ. destruct P as [P1 P2 P3 P4 P5 P6 P7 P8 P9]. pose proof (in_len _ _ _ P9) as Hl. unfold itrunc.
  replace s with (at_ip s ip (f_store s) (i_din X)) at 1 by (rewrite at_ip_self by done; by destruct s).
  wp_step. eapply (direct_spec s sb ip X v (i_din X)); [done..|]. intros t1 v1 Ht1 Hf1.
  apply wp_tail. eapply (indirect_spec s sb ip X v (i_din X)); [done..|]. intros t2 v2 Ht2 Hf2.
  wp_step. eapply wp_upd_din; [done|]. rewrite (cut_all _ Hl).
  assert (Hr2 : room v2 sb 1) by (eapply (room_logs v v2 sb 1 0 ∅); [exact Hroom|apply Hf2|by rewrite size_empty|apply Hf2]).
  eapply (iupdate_spec _ v2 sb ip (set_din (without_blocks (i_din X)) X) 0).
  - split; try done; [apply Hf2|by rewrite (fe_mod _ _ _ _ Hf2)|by eapply frees_none_held|pose proof (room_log _ _ _ Hr2); lia|by rewrite (at_ip_lookup s ip X)|by apply blank_ok].
  - done.
  - apply blank_range; apply Hr.
  - pose proof (room_log _ _ _ Hr2). lia.
  - intros t3 v3 Ht3 Hp. rewrite at_ip_store. apply (HQ t3 v3 Ht3). by eapply frees_put.
Qed.
End itrunc_all.

(** ** [iput] of the last reference *)

Definition free_inode (x : dinode) : dinode := din_type 0 (without_blocks x).

Lemma emptied_put sb inum x v v1 v2 x1 x2 : 0 <= inum < sb_ninodes sb -> emptied sb inum x v v1 x1 -> inode_put sb inum x2 v1 v2 -> emptied sb inum x v v2 x2.
Proof.
  intros Hin [A1 A2 A3 A4 A5 A6 A7 A8 A9 A10] [B1 B2 B3 B4 B5].
  pose proof (fun b => free_used sb v1 v2 b B5) as Hu.
  destruct B1 as [C1 C2 C3 C4 C5 C6 C7]. split; try congruence; try done.
  - intros b Hb. by rewrite Hu, A1.
  - intros b Hb Hu2 Hm Hne. rewrite C6; [apply A2; try done; by rewrite <- Hu|done|by rewrite <- Hu|done|by rewrite elem_of_singleton].
  - intros i Hir Hne. by rewrite B4, A4.
  - eapply logs_mono; [eapply logs_trans; [exact A9|exact B2]|]. by rewrite union_idemp_L.
Qed.

(** The cache after the inode of the entry [ip], and no other, changed on disk
    and the entry with it. *)
Lemma icache_moved sb inum v v' l ip X Y : icache_ok v sb l -> l !! ip = Some X -> 0 < i_ref X -> i_inum X = inum ->
  (forall i, 0 <= i < sb_ninodes sb -> i <> inum -> disk_inode v' sb i = disk_inode v sb i) -> 0 <= i_ref Y ->
  (0 < i_ref Y -> i_dev Y = ROOTDEV /\ i_inum Y = inum /\ (i_valid Y = true -> disk_inode v' sb inum = Some (i_din Y))) -> icache_ok v' sb (<[ip := Y]> l).
Proof.
  intros Hc HX Hr Ei Hd H0 HY. assert (Hother : forall j Z, j <> ip -> l !! j = Some Z -> 0 < i_ref Z -> i_inum Z <> inum).
  { intros j Z Hne HZ Hz E. apply Hne. eapply (ic_uniq _ _ _ Hc); [exact HZ|exact HX|done|done|congruence]. }
  assert (Hc1 : icache_ok v sb (<[ip := set_ref 0 X]> l)) by (apply (icache_insert v sb l ip X); [done|done|done|simpl; lia]).
  assert (Hlt : (ip < length l)%nat) by by eapply lookup_lt_Some. pose proof (ic_inode _ _ _ Hc ip X HX Hr) as [_ Hin]. rewrite Ei in Hin.
  assert (Hc2 : icache_ok v' sb (<[ip := set_ref 0 X]> l)).
  { destruct Hc1 as [I1 I2 I3 I4]. split; [done|done|done|]. intros j Z HZ Hz Hv. rewrite Hd; [by eapply I4|by eapply I2|].
    destruct (decide (j = ip)) as [->|Hne]; [rewrite list_lookup_insert_eq in HZ by done; simplify_eq; simpl in Hz; lia|]. rewrite list_lookup_insert_ne in HZ by done. by apply (Hother j). }
  rewrite <- (list_insert_insert_eq l ip Y (set_ref 0 X)). apply (icache_insert v' sb _ ip (set_ref 0 X)); [done|by apply list_lookup_insert_eq|done|].
  intros Hp. destruct (HY Hp) as (E1 & E2 & E3). rewrite E2. split_and!; [done|lia|lia| |done]. intros j Z Hne HZ. rewrite list_lookup_insert_ne in HZ by done. by apply (Hother j).
Qed.

Section iput.
Context {S : Type} `{TxStore S}.

Lemma iput_free_spec (s : fs S) v sb ip X (Q : unit -> fs S -> Prop) :
  file_pre s v sb ip X -> din_range (i_din X) -> tv_held v = ∅ -> room v sb 2 -> icache_ok v sb (f_icache s) ->
  i_ref X = 1 -> i_lock X = initsleeplock -> i_valid X = true -> i_nlink X = 0 ->
  (forall t v', tx_at t v' -> emptied sb (i_inum X) (i_din X) v v' (free_inode (i_din X)) ->
     let l' := <[ip := mkinode ROOTDEV (i_inum X) 0 initsleeplock false (free_inode (i_din X))]> (f_icache s) in
     icache_ok v' sb l' -> (forall j, refs l' j = refs (f_icache s) j - (if j =? i_inum X then 1 else 0)) -> Q tt (set_icache l' (set_store t s))) ->
  wp (iput ip) s Q.
Proof.
  intros P Hr Hh Hroom Hc Href Hlock Hv Hnl HQ. pose proof P as [P1 P2 P3 P4 P5 P6 P7 P8 P9].
  pose proof (lookup_lt_Some _ _ _ P7) as Hlt. destruct (ic_inode _ _ _ Hc ip X P7 ltac:(lia)) as [_ Hin].
  unfold iput. wp_step. wp_step. wp_step. set (X1 := set_ilock (mksleeplock true (f_pid s)) X).
  eapply wp_done; [unfold ip_lock; rewrite P7, Hlock; reflexivity|]. rewrite (set_icache_alter s ip X) by done. fold X1.
  set (s1 := set_icache (<[ip := X1]> (f_icache s)) s).
  assert (HX1 : f_icache s1 !! ip = Some X1) by (cbn; by apply list_lookup_insert_eq).
  wp_step. eapply wp_get_ip; [exact HX1|]. change (i_valid X1) with (i_valid X). change (i_nlink X1) with (i_nlink X). change (i_ref X1) with (i_ref X).
  rewrite Hv, Hnl, Href. change (true && (0 =? 0)) with true. change (1 =? 1) with true. cbv iota. wp_step. wp_step.
  eapply (itrunc_spec s1 v sb ip X1); [by split|exact Hin|exact Hr|exact Hh|unfold room in *; lia|]. change (i_inum X1) with (i_inum X). change (i_din X1) with (i_din X).
  intros t1 v1 Ht1 He1. wp_step. eapply wp_upd_din; [exact HX1|]. fold (free_inode (i_din X)).
  assert (Hr1 : room v1 sb 1) by (eapply (room_logs v v1 sb 1 1); [exact Hroom|apply He1|by rewrite size_singleton|apply He1]).
  wp_step. eapply (iupdate_spec _ v1 sb ip (set_din (free_inode (i_din X)) X1) 0).
  - split; try done; [apply He1|by rewrite (em_mod _ _ _ _ _ _ He1)|unfold held_blocks; rewrite (em_held _ _ _ _ _ _ He1), Hh; apply map_img_empty_L|pose proof (room_log _ _ _ Hr1); lia|by rewrite (at_ip_lookup s1 ip X1)|by apply blank_ok].
  - exact Hin.
  - apply blank_range; [done|apply Hr..].
  - pose proof (room_log _ _ _ Hr1). lia.
  - change (i_inum (set_din (free_inode (i_din X)) X1)) with (i_inum X). cbn [i_din set_din]. intros t2 v2 Ht2 Hp. rewrite at_ip_store.
    assert (He2 : emptied sb (i_inum X) (i_din X) v v2 (free_inode (i_din X))) by (by eapply emptied_put).
    unfold at_ip, s1. cbn [f_icache set_icache set_store]. rewrite alter_at by done. unfold upd_ip at 1. wp_step. cbn [f_icache set_icache set_store]. rewrite alter_at by done.
    wp_step. eapply wp_done; [unfold ip_lock; cbn [f_icache set_icache]; rewrite list_lookup_insert_eq by done; reflexivity|].
    unfold upd_ip. wp_step. cbn [f_icache set_icache]. rewrite !alter_at by done.
    match goal with |- Q tt (set_icache (<[ip := ?Y]> _) _) => replace Y with (mkinode ROOTDEV (i_inum X) 0 initsleeplock false (free_inode (i_din X))) by (cbn; rewrite Href, <- P8; done) end.
    apply (HQ t2 v2 Ht2 He2).
    + eapply icache_moved; try done; [lia|apply He2].
    + intros j. rewrite (refs_insert _ ip X) by done. cbn. rewrite Href, (Z.eqb_sym j). destruct (i_inum X =? j); lia.
Qed.
End iput.

(** ** [ialloc] *)

Definition new_inode (type : Z) : dinode := mkdinode type 0 0 0 0 (replicate 13 0).

Lemma splice_twice {A} o (a b c d : list A) : length a = length b -> (o + length (b ++ c) <= length d)%nat ->
  splice o a (splice o (b ++ c) d) = splice o (a ++ c) d.
Proof.
  intros Hl Hd. unfold splice. rewrite take_app_le, take_take, Nat.min_id by (rewrite length_take; lia). f_equal. rewrite <- (app_assoc a c). f_equal.
  rewrite drop_app_ge by (rewrite length_take; lia). rewrite length_take, Nat.min_l by lia. replace (o + length a - o)%nat with (length b) by lia.
  rewrite <- (app_assoc b c), drop_app_length. by rewrite !length_app, Hl.
Qed.
Lemma new_inode_bytes type o d : (o + 64 <= length d)%nat -> splice o (le_bytes 2 type) (splice o (replicate 64 0) d) = splice o (enc_dinode (new_inode type)) d.
Proof.
  intros Hd. change (replicate 64 0) with ([0; 0] ++ replicate 62 0). rewrite splice_twice; [reflexivity|by rewrite length_le_bytes|cbn; lia].
Qed.

(** The cache does not know an inode that nobody refers to. *)
Lemma icache_put sb i x v v' l : icache_ok v sb l -> inode_put sb i x v v' -> i ∉ live l -> icache_ok v' sb l.
Proof.
  intros [I1 I2 I3 I4] Hp Hl. split; [done|done|done|]. intros ip X HX Hr Hv. rewrite (ip_other _ _ _ _ _ Hp); [by eapply I4|by eapply I2|].
  intros E. apply Hl. rewrite elem_of_live. exists ip, X. split_and!; [done|lia|done].
Qed.

Lemma wp_seq4 {S A B} (a b c d : KM S A) (k : KM S B) s Q :
  wp (a;; b;; c;; d) s (fun _ s' => wp k s' Q) -> wp (a;; b;; c;; d;; k) s Q.
Proof.
  intros H1%wp_bind_inv. wp_step. eapply wp_mono; [exact H1|]. intros x s1 H2%wp_bind_inv. wp_step. eapply wp_mono; [exact H2|].
  intros y s2 H3%wp_bind_inv. wp_step. eapply wp_mono; [exact H3|]. intros z s3 H4. by wp_step.
Qed.

Section ialloc.
Context {S : Type} `{TxStore S}.
Context (v : tview) (sb : superblock) (type : Z).
Hypothesis (Hi : fs_inv v sb) (Hmod : tv_mod v = ∅) (Hheld : tv_held v = ∅) (Hlog : (size (tv_log v) + 1 <= tv_cap v)%nat).
Hypothesis (Htype : short type).

(** The entry of inode [i] cleared and typed. *)
Lemma ialloc_take (s : fs S) i d h (Q : unit -> fs S -> Prop) : 0 <= i < sb_ninodes sb -> tv_blk v !! IBLOCK i sb = Some d -> length d = BSIZE ->
  tv_held v !! h = None -> tx_at (f_store s) (tv_hold h (IBLOCK i sb) v) ->
  (forall t v', tx_at t v' -> inode_put sb i (new_inode type) v v' -> tv_held v' = ∅ -> Q tt (set_store t s)) ->
  wp (st (bs_put h (dinode_off i) (replicate 64 0));; st (bs_put h (dinode_off i) (le_bytes 2 type));; st (bs_log_write h);; st (bs_brelse h)) s Q.
Proof.
  intros Hin Hd Hl Hn Ht HQ. pose proof (dinode_off_le i) as Ho. pose proof (fi_layout _ _ Hi) as HL.
  destruct (iblock_range sb i HL Hin) as (Hnm & Hr & Hr2). destruct (iblock_eq sb HL i Hin) as [_ Hb].
  assert (Hh : tv_held (tv_hold h (IBLOCK i sb) v) !! h = Some (IBLOCK i sb)) by apply lookup_insert_eq.
  wp_step. eapply st_put; [exact Ht|exact Hh|exact Hd|rewrite length_replicate; lia|by apply Forall_replicate|]. intros t1 Ht1.
  wp_step. eapply st_put; [exact Ht1|exact Hh|apply (lookup_insert_eq (tv_blk v) (IBLOCK i sb))|rewrite length_le_bytes; lia|apply le_bytes_byte|]. intros t2 Ht2.
  wp_step. eapply st_log_write; [exact Ht2|exact Hh|apply (fi_home _ _ Hi); lia|cbn; lia|]. intros t3 Ht3.
  eapply st_brelse; [exact Ht3|exact Hh|cbn; rewrite Hmod; set_solver|]. intros t4 Ht4.
  apply (HQ t4 (tv_put (IBLOCK i sb) (splice (dinode_off i) (enc_dinode (new_inode type)) d) v)).
  - rewrite new_inode_bytes in Ht4 by lia. match type of Ht4 with tx_at _ ?w => replace (tv_put _ _ v) with w; [exact Ht4|] end.
    destruct v as [B H0 M L Ho' C]. cbn in *. subst M H0. unfold tv_drop, tv_mark, tv_set, tv_hold, tv_put. cbn. f_equal; [by rewrite insert_insert_eq|by rewrite delete_insert_id by apply lookup_empty|set_solver].
  - apply inode_put_ok; try done. by apply blank_range.
  - done.
Qed.

(** Is inode [i] free on disk? *)
Definition inode_free (i : Z) : Prop := exists x, disk_inode v sb i = Some x /\ d_type x = 0.

Lemma ialloc_from_spec fuel : forall (s : fs S) i (Q : nat -> fs S -> Prop), tx_at (f_store s) v -> f_sb s = sb -> icache_ok v sb (f_icache s) ->
  (size (live (f_icache s)) < length (f_icache s))%nat -> (forall j, inode_free j -> j ∉ live (f_icache s)) ->
  0 <= i -> (forall j, 1 <= j < i -> ~ inode_free j) -> (exists j, i <= j < sb_ninodes sb /\ inode_free j) -> (Z.to_nat (sb_ninodes sb - i) < fuel)%nat ->
  (forall j ip t v' l', i <= j < sb_ninodes sb -> inode_free j -> (forall k, 1 <= k < j -> ~ inode_free k) -> tx_at t v' ->
     inode_put sb j (new_inode type) v v' -> tv_held v' = ∅ -> got v' sb (f_icache s) j ip l' -> Q ip (set_icache l' (set_store t s))) ->
  wp (ialloc_from fuel ROOTDEV type i) s Q.
Proof.
  induction fuel as [|fuel IH]; intros s i Q Ht Hsb Hc Hs Hlive Hi0 Hbelow Hex Hfuel HQ; [lia|]. cbn [ialloc_from]. wp_step. wp_step. rewrite Hsb.
  destruct Hex as (j0 & Hj0 & Hf0). rewrite (proj2 (Z.ltb_lt _ _)) by lia. pose proof (fi_layout _ _ Hi) as HL.
  destruct (iblock_eq sb HL i ltac:(lia)) as [_ Hb]. destruct (iblock_range sb i HL ltac:(lia)) as (Hnm & Hr & Hr2).
  destruct (fi_dom _ _ Hi (IBLOCK i sb) ltac:(lia)) as [d Hd]. destruct (tx_wf _ _ _ _ Ht Hd) as (Hdl & _ & _).
  assert (Hnh : held_blocks v = ∅) by (unfold held_blocks; rewrite Hheld; apply map_img_empty_L).
  wp_step. eapply (st_bread _ v _ d 1); [exact Ht|repeat split; [done|rewrite Hnh, size_empty; lia|lia]|exact Hd|rewrite Hnh; apply not_elem_of_empty|].
  intros h t1 Hn Ht1. wp_step. eapply st_data; [exact Ht1|apply lookup_insert_eq|exact Hd|]. cbv zeta.
  assert (Ed : disk_inode v sb i = Some (dec_dinode (dinode_off i) d)) by (unfold disk_inode; by rewrite Hd).
  destruct (Z.eqb_spec (d_type (dec_dinode (dinode_off i) d)) 0) as [E|E].
  - assert (Hfi : inode_free i) by (by eexists).
    apply (wp_seq4 (st (bs_put h (dinode_off i) (replicate 64 0)))). eapply (ialloc_take (set_store t1 s) i d h); [lia|done|done|done|exact Ht1|].
    intros t2 v2 Ht2 Hp Hh2. eapply (iget_spec _ v2 sb); [eapply icache_put; [exact Hc|exact Hp|by apply Hlive]|lia|exact Hs|].
    intros ip l' Hg. apply (HQ i ip t2 v2 l'); try done. lia.
  - wp_step. eapply st_brelse; [exact Ht1|apply lookup_insert_eq|cbn; rewrite Hmod; apply not_elem_of_empty|]. intros t2 Ht2. rewrite tv_hold_drop in Ht2 by done.
    assert (Hni : ~ inode_free i) by (intros (x & Ex & Ex0); congruence).
    apply (IH (set_store t2 (set_store t1 s))); try done; [lia| | |lia|].
    + intros j Hj. destruct (decide (j = i)) as [->|]; [done|apply Hbelow; lia].
    + exists j0. split; [|done]. destruct (decide (j0 = i)) as [->|]; [done|lia].
    + intros j ip t v' l' Hj Hfj Hk Ht' Hp Hh Hg. apply (HQ j ip t v' l'); try done. lia.
Qed.

(** [ialloc] on a file system with a free inode: the first one is taken. *)
Lemma ialloc_spec (s : fs S) (Q : nat -> fs S -> Prop) : tx_at (f_store s) v -> f_sb s = sb -> icache_ok v sb (f_icache s) ->
  (size (live (f_icache s)) < length (f_icache s))%nat -> (forall j, inode_free j -> j ∉ live (f_icache s)) ->
  (exists j, 1 <= j < sb_ninodes sb /\ inode_free j) ->
  (forall j ip t v' l', 1 <= j < sb_ninodes sb -> inode_free j -> (forall k, 1 <= k < j -> ~ inode_free k) -> tx_at t v' ->
     inode_put sb j (new_inode type) v v' -> tv_held v' = ∅ -> got v' sb (f_icache s) j ip l' -> Q ip (set_icache l' (set_store t s))) ->
  wp (ialloc ROOTDEV type) s Q.
Proof.
  intros Ht Hsb Hc Hs Hlive Hex HQ. unfold ialloc. wp_step. wp_step. rewrite Hsb. eapply ialloc_from_spec; try done; [intros j; lia|]. lia.
Qed.
End ialloc.
