(* ===== verification/FsCheck.v ===== *)
(** * Consistency of the file system

    What a file system checker would check: every inode in use is well formed,
    no block belongs to two of them, and a data block is marked in use exactly
    when some inode owns it, so that no block is lost.  [writei], [itrunc],
    [iput] and [ialloc] keep the disk so ([consistent]), together with the inode
    cache ([mounted]). *)

From S2P Require Import Prelude Sleeplock Bio Log LogSpec BlockStore Fs FsBlocks FsInode FsFile FsWrite FsIcache FsFree.

#[local] Opaque BLK.

(** Inode [i] is in use and its disk copy is [x]. *)
Definition inode_at (v : tview) (sb : superblock) (i : Z) (x : dinode) : Prop :=
  0 <= i < sb_ninodes sb /\ disk_inode v sb i = Some x /\ d_type x <> 0.

Record consistent (v : tview) (sb : superblock) : Prop := mk_consistent {
  cs_inv : fs_inv v sb;
  cs_ok : forall i x, inode_at v sb i x -> inode_ok v sb x /\ din_range x;
  cs_disj : forall i j x y, i <> j -> inode_at v sb i x -> inode_at v sb j y -> owned (tv_blk v) x ## owned (tv_blk v) y;
  cs_leak : forall b, meta_end sb <= b < sb_size sb -> used v sb b = true -> exists i x, inode_at v sb i x /\ b ∈ owned (tv_blk v) x
}.

(** A data block is in use exactly when an inode owns it. *)
Lemma consistent_used v sb b : consistent v sb -> meta_end sb <= b < sb_size sb ->
  used v sb b = true <-> exists i x, inode_at v sb i x /\ b ∈ owned (tv_blk v) x.
Proof.
  intros C Hb. split; [by apply C|]. intros (i & x & Hx & (Hn & k & Hk & <-)%elem_of_owned). apply (cs_ok _ _ C) in Hx as [Hx _]. by apply (in_area _ _ _ Hx).
Qed.

(** ** One inode changes *)

(** Inode [i], which was [x], is [x'] now; the others are as before. *)
Record changes (sb : superblock) (i : Z) (x x' : dinode) (v v' : tview) : Prop := mk_changes {
  cg_inv : fs_inv v' sb;
  cg_here : disk_inode v' sb i = Some x';
  cg_other : forall j, 0 <= j < sb_ninodes sb -> j <> i -> disk_inode v' sb j = disk_inode v sb j;
  cg_ok : d_type x' <> 0 -> inode_ok v' sb x' /\ din_range x';
  cg_rest : forall j y, j <> i -> inode_at v sb j y -> kept sb v v' y;
  cg_disj : forall j y, j <> i -> inode_at v sb j y -> d_type x' <> 0 -> owned (tv_blk v) y ## owned (tv_blk v') x';
  cg_used : forall b, meta_end sb <= b < sb_size sb -> used v' sb b = true ->
    (used v sb b = true /\ (d_type x <> 0 -> b ∉ owned (tv_blk v) x)) \/ (d_type x' <> 0 /\ b ∈ owned (tv_blk v') x')
}.

Section changes.
Context (v v' : tview) (sb : superblock) (i : Z) (x x' : dinode).
Hypothesis C : consistent v sb.
Hypothesis G : changes sb i x x' v v'.
Hypothesis Hx : disk_inode v sb i = Some x.

Lemma changes_other j y : j <> i -> inode_at v' sb j y <-> inode_at v sb j y.
Proof. intros Hn. unfold inode_at. split; intros (Hj & Hy & Ht); (split; [done|]; split; [|done]); [rewrite <- (cg_other _ _ _ _ _ _ G) by done|rewrite (cg_other _ _ _ _ _ _ G) by done]; done. Qed.
Lemma changes_here y : inode_at v' sb i y -> y = x' /\ d_type x' <> 0.
Proof. intros (_ & Hy & Ht). rewrite (cg_here _ _ _ _ _ _ G) in Hy. by simplify_eq. Qed.

Lemma changes_consistent : 0 <= i < sb_ninodes sb -> consistent v' sb.
Proof.
  intros Hi. split.
  - apply G.
  - intros j y Hy. destruct (decide (j = i)) as [->|Hn]; [apply changes_here in Hy as [-> Ht]; by apply G|].
    apply changes_other in Hy; [|done]. split; [by apply (cg_rest _ _ _ _ _ _ G j)|by apply (cs_ok _ _ C j)].
  - intros j k y z Hjk Hy Hz.
    assert (Hcase : forall j y z, j <> i -> inode_at v' sb j y -> inode_at v' sb i z -> owned (tv_blk v') y ## owned (tv_blk v') z).
    { clear j k y z Hjk Hy Hz. intros j y z Hn Hy%changes_other [-> Ht]%changes_here; [|done]. destruct (cg_rest _ _ _ _ _ _ G j y Hn Hy) as (_ & _ & -> & _). by apply (cg_disj _ _ _ _ _ _ G j). }
    destruct (decide (j = i)) as [->|Hj]; [symmetry; by apply (Hcase k)|]. destruct (decide (k = i)) as [->|Hk]; [by apply (Hcase j)|].
    apply changes_other in Hy; [|done]. apply changes_other in Hz; [|done].
    destruct (cg_rest _ _ _ _ _ _ G j y Hj Hy) as (_ & _ & -> & _). destruct (cg_rest _ _ _ _ _ _ G k z Hk Hz) as (_ & _ & -> & _). by apply (cs_disj _ _ C j k).
  - intros b Hb Hu. destruct (cg_used _ _ _ _ _ _ G b Hb Hu) as [[Hu0 Hnot]|[Ht Ho]].
    + destruct (cs_leak _ _ C b Hb Hu0) as (j & y & Hy & Ho). destruct (decide (j = i)) as [->|Hn].
      { destruct Hy as (_ & Hy & Ht). rewrite Hx in Hy. simplify_eq. by destruct (Hnot Ht). }
      exists j, y. split; [by apply changes_other|]. by destruct (cg_rest _ _ _ _ _ _ G j y Hn Hy) as (_ & _ & -> & _).
    + exists i, x'. split; [|done]. split_and!; [lia|lia|apply G|done].
Qed.
End changes.

(** Its blocks in use stay in use. *)
Lemma owned_area v sb y b : fs_inv v sb -> inode_ok v sb y -> b ∈ owned (tv_blk v) y -> ~ is_map sb b /\ meta_end sb <= b < sb_size sb /\ 0 <= b /\ used v sb b = true.
Proof.
  intros Hi Hy (Hn & k & Hk & <-)%elem_of_owned. destruct (slot_map sb v y Hi Hy k Hk Hn) as (Hm & Hb & Hu). split; [done|]. split; [by apply (in_area _ _ _ Hy)|]. split; [lia|done].
Qed.

(** [writei]. *)
Lemma written_changes sb i off bytes v x v' x' : consistent v sb -> inode_at v sb i x -> written sb i off bytes v x v' x' -> changes sb i x x' v v'.
Proof.
  intros C Hx W. pose proof (cs_inv _ _ C) as Hi. destruct (cs_ok _ _ C i x Hx) as [Hok Hr]. pose proof Hx as (Hin & Hd & Ht).
  assert (Ht' : d_type x' <> 0) by (destruct (wn_kind _ _ _ _ _ _ _ _ W) as (-> & _); done).
  assert (Ho : forall j y, j <> i -> inode_at v sb j y -> kept sb v v' y /\ owned (tv_blk v') y ## owned (tv_blk v') x').
  { intros j y Hn Hy. apply (written_other _ _ _ _ _ _ _ _ y Hi Hin W); [by apply (cs_ok _ _ C j)|by apply (cs_disj _ _ C j i)]. }
  split.
  - apply W.
  - by apply W.
  - apply W.
  - intros _. split; [apply W|]. by eapply written_range.
  - intros j y Hn Hy. by apply (Ho j).
  - intros j y Hn Hy _. destruct (Ho j y Hn Hy) as [(_ & _ & <- & _) ?]. done.
  - intros b Hb Hu. pose proof (meta_pos sb (fi_layout _ _ Hi)). destruct (wn_new _ _ _ _ _ _ _ _ W b ltac:(lia) Hu) as [Hu0|]; [|by right].
    destruct (decide (b ∈ owned (tv_blk v) x)); [right; split; [done|by apply W]|by left].
Qed.

(** [itrunc], and [iput] of the last reference. *)
Lemma emptied_changes sb i v x v' x' : consistent v sb -> inode_at v sb i x -> emptied sb i x v v' x' ->
  d_addrs x' = replicate 13 0 -> d_size x' = 0 -> din_range x' -> changes sb i x x' v v'.
Proof.
  intros C Hx E Ha Hz Hr. pose proof (cs_inv _ _ C) as Hi. pose proof Hx as (Hin & Hd & Ht). split.
  - apply E.
  - apply E.
  - apply E.
  - intros _. split; [by apply blank_ok|done].
  - intros j y Hn Hy. destruct (cs_ok _ _ C j y Hy) as [Hok _]. apply blocks_kept; [done|]. intros b Hb. destruct (owned_area v sb y b Hi Hok Hb) as (Hm & Hb' & Hb0 & Hu).
    assert (Hu' : used v' sb b = true).
    { rewrite (em_used _ _ _ _ _ _ E) by lia. rewrite decide_False; [done|]. intros Hbx. by apply (cs_disj _ _ C j i y x Hn Hy Hx b). }
    split; [|done]. apply (em_frame _ _ _ _ _ _ E); [lia|done|done|]. destruct (iblock_range sb i (fi_layout _ _ Hi) Hin) as (_ & ? & _). lia.
  - intros j y _ _ _. rewrite (blank_owned _ x') by done. apply disjoint_empty_r.
  - intros b Hb. pose proof (meta_pos sb (fi_layout _ _ Hi)). rewrite (em_used _ _ _ _ _ _ E) by lia. case_decide; [done|]. intros Hu. left. by split.
Qed.

(** An inode's disk copy changes and its blocks do not: [iupdate], and [ialloc]. *)
Lemma put_changes sb i v x v' x' : consistent v sb -> 0 <= i < sb_ninodes sb -> disk_inode v sb i = Some x -> inode_put sb i x' v v' ->
  inode_ok v sb x' -> din_range x' -> (d_type x <> 0 -> d_type x' <> 0) ->
  owned (tv_blk v) x' = (if d_type x =? 0 then ∅ else owned (tv_blk v) x) -> changes sb i x x' v v'.
Proof.
  intros C Hin Hd P Hok Hr Ht Ho. pose proof (cs_inv _ _ C) as Hi.
  assert (Hk : forall y, inode_ok v sb y -> kept sb v v' y).
  { intros y Hy. apply (evolves_other sb _ v v' y Hi (ip_ev _ _ _ _ _ P) Hy). intros k Hk. rewrite elem_of_singleton. by apply (slot_not_iblock sb v). }
  destruct (Hk x' Hok) as (Hok' & _ & Ho' & _). split.
  - apply P.
  - apply P.
  - apply P.
  - by intros _.
  - intros j y _ Hy. by apply Hk, (cs_ok _ _ C j).
  - intros j y Hn Hy Htx. rewrite Ho', Ho. destruct (Z.eqb_spec (d_type x) 0); [apply disjoint_empty_r|]. by apply (cs_disj _ _ C j i); [| |split_and!; [lia|lia| |]].
  - intros b Hb Hu. pose proof (meta_pos sb (fi_layout _ _ Hi)). rewrite (free_used sb v v' b) in Hu by (apply P || lia).
    destruct (decide (d_type x <> 0 /\ b ∈ owned (tv_blk v) x)) as [[Hn Hbx]|Hno]; [|left; split; [done|tauto]].
    right. split; [by apply Ht|]. rewrite Ho', Ho. by rewrite (proj2 (Z.eqb_neq _ _) Hn).
Qed.

(** ** The abstract file system *)

(** What a file system holds, to its users: the files by inode number. *)
Record afile : Type := mkafile { af_type : Z; af_major : Z; af_minor : Z; af_nlink : Z; af_bytes : list Z }.
Definition file_of (V : gmap Z block) (x : dinode) : afile := mkafile (d_type x) (d_major x) (d_minor x) (d_nlink x) (content V x).
Definition afile_at (v : tview) (sb : superblock) (i : Z) : option afile :=
  x ← disk_inode v sb i; if d_type x =? 0 then None else Some (file_of (tv_blk v) x).
Definition afs (v : tview) (sb : superblock) : gmap Z afile := omap id (map_seqZ 0 (afile_at v sb <$> seqZ 0 (sb_ninodes sb))).

Definition af_write (off : Z) (bytes : list Z) (f : afile) : afile :=
  mkafile (af_type f) (af_major f) (af_minor f) (af_nlink f) (splice (Z.to_nat off) bytes (af_bytes f)).
Definition af_clear (f : afile) : afile := mkafile (af_type f) (af_major f) (af_minor f) (af_nlink f) [].

Lemma afs_lookup v sb i : afs v sb !! i = if decide (0 <= i < sb_ninodes sb) then afile_at v sb i else None.
Proof.
  unfold afs. rewrite lookup_omap, lookup_map_seqZ. case_decide as Hi.
  - rewrite option_guard_True by lia. rewrite Z.sub_0_r, list_lookup_fmap, lookup_seqZ_lt by lia. rewrite Z.add_0_l, Z2Nat.id by lia. cbn [fmap option_fmap option_map mbind option_bind]. by destruct (afile_at v sb i).
  - destruct (decide (0 <= i)) as [Hp|Hp]; [|by rewrite option_guard_False by lia]. rewrite option_guard_True by lia. rewrite list_lookup_fmap, lookup_seqZ_ge by lia. done.
Qed.
Lemma afs_at v sb i x : inode_at v sb i x -> afs v sb !! i = Some (file_of (tv_blk v) x).
Proof. intros (Hi & Hx & Ht). rewrite afs_lookup, decide_True by done. unfold afile_at. rewrite Hx. simpl. by rewrite (proj2 (Z.eqb_neq _ _) Ht). Qed.
Lemma afs_none v sb i x : disk_inode v sb i = Some x -> d_type x = 0 -> afs v sb !! i = None.
Proof. intros Hx Ht. rewrite afs_lookup. case_decide; [|done]. unfold afile_at. rewrite Hx. simpl. by rewrite Ht. Qed.
Lemma afs_free v sb i : fs_inv v sb -> 0 <= i < sb_ninodes sb -> afs v sb !! i = None <-> exists x, disk_inode v sb i = Some x /\ d_type x = 0.
Proof.
  intros Hi Hr. split; [|intros (x & Hx & Ht); by apply (afs_none v sb i x)]. rewrite afs_lookup, decide_True by done. unfold afile_at.
  destruct (disk_inode v sb i) as [x|] eqn:Hx; simpl; [destruct (Z.eqb_spec (d_type x) 0); [eauto|done]|]. intros _. exfalso.
  destruct (iblock_eq sb (fi_layout _ _ Hi) i Hr) as [_ Hb]. destruct (iblock_range sb i (fi_layout _ _ Hi) Hr) as (_ & _ & Hs).
  destruct (fi_dom _ _ Hi (IBLOCK i sb)) as [d Hd]; [lia|]. unfold disk_inode in Hx. by rewrite Hd in Hx.
Qed.

(** One inode changes, and so does its file. *)
Lemma changes_afs sb i x x' v v' : consistent v sb -> changes sb i x x' v v' -> 0 <= i < sb_ninodes sb ->
  afs v' sb = partial_alter (fun _ => if d_type x' =? 0 then None else Some (file_of (tv_blk v') x')) i (afs v sb).
Proof.
  intros C G Hi. apply map_eq. intros j. rewrite afs_lookup. destruct (decide (j = i)) as [->|Hn].
  - rewrite lookup_partial_alter_eq, decide_True by done. unfold afile_at. by rewrite (cg_here _ _ _ _ _ _ G).
  - rewrite lookup_partial_alter_ne by done. rewrite afs_lookup. case_decide as Hj; [|done]. unfold afile_at. rewrite (cg_other _ _ _ _ _ _ G) by done.
    destruct (disk_inode v sb j) as [y|] eqn:Hy; [|done]. simpl. destruct (Z.eqb_spec (d_type y) 0); [done|].
    destruct (cg_rest _ _ _ _ _ _ G j y Hn) as (_ & _ & _ & _ & Hc); [done|]. unfold file_of. by rewrite Hc.
Qed.
Lemma written_afs sb i off bytes v x v' x' : consistent v sb -> inode_at v sb i x -> written sb i off bytes v x v' x' ->
  afs v' sb = alter (af_write off bytes) i (afs v sb).
Proof.
  intros C Hx W. pose proof (written_changes _ _ _ _ _ _ _ _ C Hx W) as G. pose proof Hx as (Hin & Hd & Ht). rewrite (changes_afs sb i x x' v v' C G Hin).
  destruct (wn_kind _ _ _ _ _ _ _ _ W) as (K1 & K2 & K3 & K4). apply map_eq. intros j. destruct (decide (j = i)) as [->|Hn].
  - rewrite lookup_partial_alter_eq, lookup_alter_eq, (afs_at v sb i x Hx), K1, (proj2 (Z.eqb_neq _ _) Ht). simpl. unfold file_of, af_write. simpl.
    by rewrite K1, K2, K3, K4, (wn_content _ _ _ _ _ _ _ _ W).
  - by rewrite lookup_partial_alter_ne, lookup_alter_ne.
Qed.

(** ** A file system in use *)

(** No buffer is held, the transaction has room, the disk is consistent, and
    the cache's live entries are of inodes in use. *)
Record mounted {S} `{TxStore S} (s : fs S) (v : tview) (sb : superblock) : Prop := mk_mounted {
  mt_at : tx_at (f_store s) v;
  mt_sb : f_sb s = sb;
  mt_ok : consistent v sb;
  mt_mod : tv_mod v = ∅;
  mt_held : tv_held v = ∅;
  mt_log : (size (tv_log v) <= tv_cap v)%nat;
  mt_cache : icache_ok v sb (f_icache s);
  mt_live : forall i, i ∈ live (f_icache s) -> exists x, inode_at v sb i x
}.

(** The entry [ip] holds an inode, loaded. *)
Definition loaded {S} (s : fs S) (ip : nat) (X : inode) : Prop := f_icache s !! ip = Some X /\ 0 < i_ref X /\ i_valid X = true.

Section mounted.
Context {S : Type} `{TxStore S}.
Context (s : fs S) (v : tview) (sb : superblock).
Hypothesis M : mounted s v sb.

Lemma mounted_live ip X : f_icache s !! ip = Some X -> 0 < i_ref X -> exists x, inode_at v sb (i_inum X) x.
Proof. intros HX Hr. apply (mt_live _ _ _ M), elem_of_live. exists ip, X. split_and!; [done|lia|done]. Qed.
Lemma mounted_loaded ip X : loaded s ip X -> inode_at v sb (i_inum X) (i_din X) /\ file_pre s v sb ip X /\ din_range (i_din X).
Proof.
  intros (HX & Hr & Hv). destruct (mounted_live ip X HX Hr) as (x & Hx). pose proof (ic_valid _ _ _ (mt_cache _ _ _ M) ip X HX Hr Hv) as Hd.
  assert (x = i_din X) as -> by (destruct Hx as (_ & Hx & _); congruence). split; [done|]. destruct (cs_ok _ _ (mt_ok _ _ _ M) _ _ Hx) as [Hok Hrg]. split; [|done].
  split; [apply M|apply M|apply M|apply M| |apply M|done| |done].
  - unfold held_blocks. by rewrite (mt_held _ _ _ M).
  - by apply (ic_inode _ _ _ (mt_cache _ _ _ M) ip X HX Hr).
Qed.

(** The next state: one inode changed, with its entry of the cache. *)
Lemma mounted_changes i x x' v' t ip X Y : changes sb i x x' v v' -> disk_inode v sb i = Some x -> 0 <= i < sb_ninodes sb ->
  tx_at t v' -> tv_mod v' = ∅ -> tv_held v' = ∅ -> (size (tv_log v') <= tv_cap v')%nat ->
  f_icache s !! ip = Some X -> 0 < i_ref X -> i_inum X = i -> 0 <= i_ref Y ->
  (0 < i_ref Y -> i_dev Y = ROOTDEV /\ i_inum Y = i /\ d_type x' <> 0 /\ (i_valid Y = true -> i_din Y = x')) ->
  mounted (set_icache (<[ip := Y]> (f_icache s)) (set_store t s)) v' sb.
Proof.
  intros G Hx Hi Ht Hm Hh Hl HX Hr Ei H0 HY. split; try done.
  - apply M.
  - by apply (changes_consistent v v' sb i x x' (mt_ok _ _ _ M) G Hx).
  - apply (icache_moved sb i v v' _ ip X); [apply M|done|done|done|apply G|done|]. intros Hp. destruct (HY Hp) as (E1 & E2 & E3 & E4). split_and!; [done|done|]. intros Hv. rewrite (E4 Hv). apply G.
  - intros j (k & Z & HZ & Hz & <-)%elem_of_live. cbn [f_icache set_icache] in HZ. destruct (decide (k = ip)) as [->|Hn].
    + rewrite list_lookup_insert_eq in HZ by (by eapply lookup_lt_Some). injection HZ as <-. destruct HY as (_ & E2 & E3 & _); [lia|]. rewrite E2. exists x'. split_and!; [lia|lia|apply G|done].
    + rewrite list_lookup_insert_ne in HZ by done. pose proof (ic_ref _ _ _ (mt_cache _ _ _ M) k Z HZ). destruct (mounted_live k Z HZ ltac:(lia)) as [y Hy]. exists y.
      apply (changes_other v v' sb i x x' G); [|done]. intros E. apply Hn. apply (ic_uniq _ _ _ (mt_cache _ _ _ M) k ip Z X HZ HX); [lia|done|congruence].
Qed.
End mounted.

Section operations.
Context {S : Type} `{TxStore S}.
Context (s : fs S) (v : tview) (sb : superblock).
Hypothesis M : mounted s v sb.

(** The entry of a loaded inode whose disk copy changed with it. *)
Lemma loaded_changes ip X x' v' t : loaded s ip X -> changes sb (i_inum X) (i_din X) x' v v' -> d_type x' <> 0 ->
  tx_at t v' -> tv_mod v' = ∅ -> tv_held v' = ∅ -> (size (tv_log v') <= tv_cap v')%nat ->
  mounted (at_ip s ip t x') v' sb /\ loaded (at_ip s ip t x') ip (set_din x' X) /\ forall j, refs (f_icache (at_ip s ip t x')) j = refs (f_icache s) j.
Proof.
  intros L G Ht Hat Hm Hh Hl. destruct (mounted_loaded s v sb M ip X L) as (Hx & P & _). destruct L as (HX & Hr & Hv). unfold at_ip. rewrite (alter_insert _ _ _ _ HX). split_and!.
  - apply (mounted_changes s v sb M (i_inum X) (i_din X) x' v' t ip X); [done|apply Hx|apply Hx|done|done|done|done|done|done|done|simpl; lia|].
    intros _. split_and!; [apply P|done|done|done].
  - split_and!; [|done|done]. apply list_lookup_insert_eq. by eapply lookup_lt_Some.
  - intros j. cbn [f_icache set_icache]. rewrite (refs_insert _ _ _ _ _ HX). simpl. lia.
Qed.

(** The log after a write: inode, indirect block and data. *)
Lemma written_log i off bytes x x' v' k : room v sb k -> (nblocks off (Z.of_nat (length bytes)) + 2 <= k)%nat -> written sb i off bytes v x v' x' -> (size (tv_log v') <= tv_cap v')%nat.
Proof.
  intros Hroom Hk W. destruct (wn_logs _ _ _ _ _ _ _ _ W) as (D & HD & HL). assert (Hs : (size ({[IBLOCK i sb]} ∪ ind_set x' ∪ D) <= k)%nat).
  { pose proof (size_ind_set x'). pose proof (size_union_le ({[IBLOCK i sb]} ∪ ind_set x') D). pose proof (size_union_le {[IBLOCK i sb]} (ind_set x')). rewrite size_singleton in *. lia. }
  pose proof (room_logs v v' sb 0 _ _ ltac:(rewrite Nat.add_0_r; exact Hroom) HL Hs (ev_cap _ _ _ _ (wn_ev _ _ _ _ _ _ _ _ W))) as Hr'%room_log. lia.
Qed.
Lemma writei_mounted (devsw : Z -> devops S) ip X off src (Q : Z -> fs S -> Prop) : let n := Z.of_nat (length src) in
  loaded s ip X -> i_type X <> T_DEV -> 0 <= off <= i_size X -> 0 < n -> off + n <= MAXFILE * BLK -> Forall is_byte src ->
  room v sb (2 * nblocks off n + 1) -> (2 * nblocks off n <= size (free_blocks v sb))%nat ->
  (forall s' v' x', mounted s' v' sb -> loaded s' ip (set_din x' X) -> (forall j, refs (f_icache s') j = refs (f_icache s) j) ->
     afs v' sb = alter (af_write off src) (i_inum X) (afs v sb) -> Q n s') ->
  wp (writei devsw ip src off n) s Q.
Proof.
  intros n L Hty Ho Hn Hmax Hsrc Hroom Hfree HQ. destruct (mounted_loaded s v sb M ip X L) as (Hx & P & Hr). pose proof Hx as (Hin & _ & Htx).
  eapply writei_spec; [exact P|done|done|done|done|done|done|done|done|]. intros t v' x' Ht Hm _ W. pose proof (written_changes _ _ _ _ _ _ _ _ (mt_ok _ _ _ M) Hx W) as G.
  pose proof (ev_held _ _ _ _ (wn_ev _ _ _ _ _ _ _ _ W)) as Eh.
  assert (Hl : (size (tv_log v') <= tv_cap v')%nat) by (apply (written_log (i_inum X) off src (i_din X) x' v' _ Hroom); [pose proof (nblocks_pos off n Hn); fold n; lia|done]).
  destruct (loaded_changes ip X x' v' t L G) as (M' & L' & Hrefs); [|done|done|by rewrite Eh, (mt_held _ _ _ M)|done|].
  - by destruct (wn_kind _ _ _ _ _ _ _ _ W) as (-> & _).
  - apply (HQ _ v' x' M' L' Hrefs). by apply (written_afs _ _ _ _ v (i_din X) v' x' (mt_ok _ _ _ M) Hx).
Qed.

(** The cache alone changes, and refers to no more inodes. *)
Lemma mounted_cache l : icache_ok v sb l -> (forall j, refs l j <= refs (f_icache s) j) -> mounted (set_icache l s) v sb.
Proof.
  intros Hc Hle. destruct M as [M1 M2 M3 M4 M5 M6 M7 M8]. split; try done. intros j Hj. apply M8. cbn [f_icache set_icache] in Hj.
  destruct (refs_pos l j) as [Hp Hl]; [apply Hc|]. apply Hl in Hj. apply (refs_pos _ j); [apply M7|]. specialize (Hle j). lia.
Qed.

(** The log after one inode block and free-map blocks. *)
Lemma put_log i k v' : room v sb (1 + k) -> logs sb v v' {[IBLOCK i sb]} -> tv_cap v' = tv_cap v -> (size (tv_log v') <= tv_cap v')%nat.
Proof.
  intros Hroom Hl Ec. pose proof (room_logs v v' sb k 1 _ Hroom Hl ltac:(by rewrite size_singleton) Ec) as Hr%room_log. lia.
Qed.
Lemma blank_content V x : d_size x = 0 -> content V x = [].
Proof. intros E. unfold content. by rewrite E. Qed.

Lemma itrunc_mounted ip X (Q : unit -> fs S -> Prop) : loaded s ip X -> room v sb 1 ->
  (forall s' v', mounted s' v' sb -> loaded s' ip (set_din (without_blocks (i_din X)) X) -> (forall j, refs (f_icache s') j = refs (f_icache s) j) ->
     afs v' sb = alter af_clear (i_inum X) (afs v sb) ->
     (forall b, meta_end sb <= b < sb_size sb -> used v' sb b = true <-> used v sb b = true /\ b ∉ owned (tv_blk v) (i_din X)) -> Q tt s') ->
  wp (itrunc ip) s Q.
Proof.
  intros L Hroom HQ. destruct (mounted_loaded s v sb M ip X L) as (Hx & P & Hr). pose proof Hx as (Hin & Hd & Ht). pose proof (mt_ok _ _ _ M) as C.
  eapply itrunc_spec; [exact P|done|done|apply M|done|]. intros t v' Hat E. set (x' := without_blocks (i_din X)) in *.
  assert (G : changes sb (i_inum X) (i_din X) x' v v') by (apply emptied_changes; [done|done|done|done|done|apply blank_range; apply Hr]).
  destruct (loaded_changes ip X x' v' t L G) as (M' & L' & Hrefs); [done|done|by rewrite (em_mod _ _ _ _ _ _ E); apply M|by rewrite (em_held _ _ _ _ _ _ E); apply M| |].
  { apply (put_log (i_inum X) 0); [done|apply E|apply E]. }
  apply (HQ _ v' M' L' Hrefs).
  - rewrite (changes_afs sb _ _ _ v v' C G Hin). apply map_eq. intros j. destruct (decide (j = i_inum X)) as [->|Hn]; [|by rewrite lookup_partial_alter_ne, lookup_alter_ne].
    rewrite lookup_partial_alter_eq, lookup_alter_eq, (afs_at v sb _ _ Hx). cbn [x' without_blocks d_type]. rewrite (proj2 (Z.eqb_neq _ _) Ht). simpl. unfold file_of, af_clear. by rewrite blank_content.
  - intros b Hb. pose proof (meta_pos sb (fi_layout _ _ (cs_inv _ _ C))). rewrite (em_used _ _ _ _ _ _ E) by lia. case_decide; [split; [done|]|]; tauto.
Qed.

(** Does [iput] give the inode up? *)
Definition last_put (X : inode) : bool := i_valid X && (i_nlink X =? 0) && (i_ref X =? 1).

Lemma iput_mounted ip X (Q : unit -> fs S -> Prop) : f_icache s !! ip = Some X -> 0 < i_ref X -> i_lock X = initsleeplock -> room v sb 2 ->
  (forall s' v', mounted s' v' sb -> (forall j, refs (f_icache s') j = refs (f_icache s) j - (if j =? i_inum X then 1 else 0)) ->
     afs v' sb = (if last_put X then delete (i_inum X) (afs v sb) else afs v sb) ->
     (forall b, meta_end sb <= b < sb_size sb -> used v' sb b = true <-> used v sb b = true /\ (last_put X = true -> b ∉ owned (tv_blk v) (i_din X))) -> Q tt s') ->
  wp (iput ip) s Q.
Proof.
  intros HX Hr Hlk Hroom HQ. pose proof (mt_ok _ _ _ M) as C. pose proof (mt_cache _ _ _ M) as Hc. unfold last_put in HQ. destruct (i_valid X && (i_nlink X =? 0) && (i_ref X =? 1)) eqn:Hlast.
  - apply andb_true_iff in Hlast as [[Hv Hn%Z.eqb_eq]%andb_true_iff H1%Z.eqb_eq]. destruct (mounted_loaded s v sb M ip X ltac:(done)) as (Hx & P & Hrg). pose proof Hx as (Hin & Hd & Ht).
    eapply iput_free_spec; [exact P|done|apply M|done|done|done|done|done|done|]. intros t v' Hat E l' _ Hrefs. set (x' := free_inode (i_din X)) in *.
    assert (G : changes sb (i_inum X) (i_din X) x' v v') by (apply emptied_changes; [done|done|done|done|done|apply blank_range; [done|apply Hrg..]]).
    eapply (HQ _ v'); [|exact Hrefs| |].
    + apply (mounted_changes s v sb M (i_inum X) (i_din X) x' v' t ip X); [done|done|done|done|by rewrite (em_mod _ _ _ _ _ _ E); apply M|by rewrite (em_held _ _ _ _ _ _ E); apply M| |done|done|done|done|simpl; lia].
      apply (put_log (i_inum X) 1); [done|apply E|apply E].
    + rewrite (changes_afs sb _ _ _ v v' C G Hin). by apply map_eq.
    + intros b Hb. pose proof (meta_pos sb (fi_layout _ _ (cs_inv _ _ C))). rewrite (em_used _ _ _ _ _ _ E) by lia. case_decide; [split; [done|]|]; tauto.
  - eapply (iput_keep s v sb); [done|exact HX|done|done| |].
    + intros Hv Hn H1. rewrite Hv, Hn, H1 in Hlast. done.
    + intros l' D. apply (HQ _ v); [|apply D|done|intros b _; split; [by split|by intros []]]. apply mounted_cache; [apply D|]. intros j. rewrite (dr_refs _ _ _ _ _ _ D). destruct (j =? i_inum X); lia.
Qed.

(** [ialloc] makes an empty file of inode number [j], the lowest that is free. *)
Lemma ialloc_mounted type (Q : nat -> fs S -> Prop) : short type -> type <> 0 -> room v sb 1 ->
  (size (live (f_icache s)) < length (f_icache s))%nat -> (exists j, 1 <= j < sb_ninodes sb /\ afs v sb !! j = None) ->
  (forall j ip t v' l', let s' := set_icache l' (set_store t s) in mounted s' v' sb -> 1 <= j < sb_ninodes sb -> afs v sb !! j = None ->
     (forall k, 1 <= k < j -> is_Some (afs v sb !! k)) -> inode_put sb j (new_inode type) v v' -> (exists x, disk_inode v sb j = Some x /\ d_type x = 0 /\ changes sb j x (new_inode type) v v') ->
     got v' sb (f_icache s) j ip l' -> refs (f_icache s) j = 0 ->
     afs v' sb = <[j := mkafile type 0 0 0 []]> (afs v sb) -> Q ip s') ->
  wp (ialloc ROOTDEV type) s Q.
Proof.
  intros Hty Ht0 Hroom Hs (j0 & Hj0 & Hf0) HQ. pose proof (room_log v sb 1 Hroom) as Hlog. pose proof (mt_ok _ _ _ M) as C. pose proof (cs_inv _ _ C) as Hi.
  assert (Hlive : forall j, inode_free v sb j -> j ∉ live (f_icache s)).
  { intros j (x & Hx & Htx) (y & (_ & Hy & Hty'))%(mt_live _ _ _ M). congruence. }
  eapply (ialloc_spec v sb type Hi (mt_mod _ _ _ M) (mt_held _ _ _ M) Hlog Hty); [apply M|apply M|apply M|done|done| |].
  { exists j0. split; [done|]. apply afs_free; [done|lia|done]. }
  intros j ip t v' l' Hj (x & Hx & Htx) Hlow Hat P Hh Hg. set (x' := new_inode type) in *.
  assert (G : changes sb j x x' v v').
  { apply put_changes; [done|lia|done|done|by apply blank_ok|by apply blank_range|done|]. rewrite Htx. by apply blank_owned. }
  assert (Hin : 0 <= j < sb_ninodes sb) by lia.
  apply (HQ j ip t v' l').
  - pose proof (changes_consistent v v' sb j x x' C G Hx Hin) as C'. destruct M as [M1 M2 M3 M4 M5 M6 M7 M8]. split; try done.
    + by rewrite (ev_mod _ _ _ _ (ip_ev _ _ _ _ _ P)).
    + apply (put_log j 0); [done|apply P|apply P].
    + apply Hg.
    + intros k Hk. cbn [f_icache set_icache] in Hk. destruct (refs_pos l' k) as [_ Hl']; [apply Hg|]. apply Hl' in Hk. rewrite (got_refs _ _ _ _ _ _ Hg) in Hk.
      destruct (Z.eqb_spec k j) as [E|Hn]; [exists x'; rewrite E; split_and!; [lia|lia|apply P|done]|]. rewrite Z.add_0_r in Hk. apply (refs_pos (f_icache s) k) in Hk; [|apply M7].
      destruct (M8 k Hk) as [y Hy]. exists y. by apply (changes_other v v' sb j x x' G).
  - done.
  - by apply (afs_none v sb j x).
  - intros k Hk. destruct (afs v sb !! k) eqn:Ek; [done|]. apply afs_free in Ek; [|done|lia]. by destruct (Hlow k Hk).
  - done.
  - by exists x.
  - done.
  - destruct (refs_pos (f_icache s) j) as [Hp Hl]; [apply M|]. destruct (decide (refs (f_icache s) j = 0)) as [|Hn]; [done|]. apply Hl in Hn. by destruct (Hlive j); [exists x|].
  - rewrite (changes_afs sb _ _ _ v v' C G Hin). apply map_eq. intros k. destruct (decide (k = j)) as [->|Hn]; [|by rewrite lookup_partial_alter_ne, lookup_insert_ne].
    rewrite lookup_partial_alter_eq, lookup_insert_eq. cbn [x' new_inode d_type]. rewrite (proj2 (Z.eqb_neq _ _) Ht0). unfold file_of. by rewrite blank_content.
Qed.
End operations.

(** ** The calls *)

(** The operations of [fs.c] that change inodes and blocks. *)
Inductive icall : Type :=
  | Writei (ip : nat) (src : list Z) (off : Z)
  | Itrunc (ip : nat)
  | Iput (ip : nat)
  | Ialloc (type : Z).
Definition icall_run {S} `{BlockStore S} (devsw : Z -> devops S) (c : icall) : KM (fs S) Z :=
  match c with
  | Writei ip src off => writei devsw ip src off (Z.of_nat (length src))
  | Itrunc ip => itrunc ip;; mret 0
  | Iput ip => iput ip;; mret 0
  | Ialloc type => ip ← ialloc ROOTDEV type; mret (Z.of_nat ip)
  end.

(** When a call can be made: the inode is there, the bytes fit, and the
    transaction, the disk and the cache have room. *)
Definition icall_ok {S} (s : fs S) (v : tview) (sb : superblock) (c : icall) : Prop :=
  match c with
  | Writei ip src off => let n := Z.of_nat (length src) in exists X, loaded s ip X /\ i_type X <> T_DEV /\ 0 <= off <= i_size X /\ 0 < n /\
      off + n <= MAXFILE * BLK /\ Forall is_byte src /\ room v sb (2 * nblocks off n + 1) /\ (2 * nblocks off n <= size (free_blocks v sb))%nat
  | Itrunc ip => (exists X, loaded s ip X) /\ room v sb 1
  | Iput ip => (exists X, f_icache s !! ip = Some X /\ 0 < i_ref X /\ i_lock X = initsleeplock) /\ room v sb 2
  | Ialloc type => short type /\ type <> 0 /\ room v sb 1 /\ (size (live (f_icache s)) < length (f_icache s))%nat /\
      exists j, 1 <= j < sb_ninodes sb /\ afs v sb !! j = None
  end.

(** What it does to the files [F] and to the cache [l]. *)
Definition icall_effect (c : icall) (r : Z) (F F' : gmap Z afile) (l l' : list inode) : Prop :=
  match c with
  | Writei ip src off => exists X, l !! ip = Some X /\ r = Z.of_nat (length src) /\ F' = alter (af_write off src) (i_inum X) F /\ forall j, refs l' j = refs l j
  | Itrunc ip => exists X, l !! ip = Some X /\ F' = alter af_clear (i_inum X) F /\ forall j, refs l' j = refs l j
  | Iput ip => exists X, l !! ip = Some X /\ F' = (if last_put X then delete (i_inum X) F else F) /\
      forall j, refs l' j = refs l j - (if j =? i_inum X then 1 else 0)
  | Ialloc type => exists j X, l' !! Z.to_nat r = Some X /\ i_inum X = j /\ 1 <= j /\ F !! j = None /\ (forall k, 1 <= k < j -> is_Some (F !! k)) /\ F' = <[j := mkafile type 0 0 0 []]> F /\
      refs l j = 0 /\ forall k, refs l' k = refs l k + (if k =? j then 1 else 0)
  end.

Lemma icall_spec {S} `{TxStore S} (devsw : Z -> devops S) (s : fs S) v sb c : mounted s v sb -> icall_ok s v sb c ->
  wp (icall_run devsw c) s (fun r s' => exists v', mounted s' v' sb /\
    icall_effect c r (afs v sb) (afs v' sb) (f_icache s) (f_icache s')).
Proof.
  intros M Hok. destruct c as [ip src off|ip|ip|type]; cbn [icall_run icall_ok icall_effect] in *.
  - destruct Hok as (X & L & H1 & H2 & H3 & H4 & H5 & H6 & H7). eapply (writei_mounted s v sb M devsw ip X); [done..|]. intros s' v' x' M' L' Hr E.
    exists v'. split; [done|]. exists X. split; [apply L|]. by split_and!.
  - destruct Hok as ((X & L) & Hroom). wp_step. eapply (itrunc_mounted s v sb M ip X); [done..|]. intros s' v' M' L' Hr E _. wp_step.
    exists v'. split; [done|]. exists X. split; [apply L|]. by split.
  - destruct Hok as ((X & HX & Hr & Hl) & Hroom). wp_step. eapply (iput_mounted s v sb M ip X); [done..|]. intros s' v' M' Hrefs E _. wp_step.
    exists v'. split; [done|]. exists X. by split_and!.
  - destruct Hok as (H1 & H2 & H3 & H4 & H5). wp_step. eapply (ialloc_mounted s v sb M type); [done..|]. intros j ip t v' l' s' M' Hj Hf Hlow _ _ G H0 E. wp_step.
    destruct (got_at _ _ _ _ _ _ G) as (_ & X & _ & HX & Ei & _). exists v'. split; [done|]. exists j, X. rewrite Nat2Z.id. split_and!; [done|done|lia|done|done|done|done|apply G].
Qed.
