(* ===== verification/FsMounted.v ===== *)
(** * The file system as a map of files

    The inode operations of [fs.c] against the abstract file system of
    [FsCheck.v], a map from inode numbers to files: [writei] overwrites one
    file, [iput] of the last reference to a file without links deletes it,
    [ialloc] adds an empty one, and each leaves a consistent disk behind.  Each is
    instantiated at a small file system one of whose files has no link left. *)

From S2P Require Import Prelude Sleeplock Bio Log LogSpec BlockStore Fs FsBlocks FsInode FsFile FsWrite FsDemo FsIcache FsFree FsCheck.

(** ** The small file system *)

(** Inode 1 is a directory, inode 2 a file of block 24 with [nl] links. *)
Section small.
Context (v : tview) (nl : Z).
Hypothesis (Hi : fs_inv v demo_sb) (Hu : forall b, 0 <= b < 40 -> used v demo_sb b = demo_used b) (Hnl : short nl).
Abbreviation file := (one_block T_FILE nl 5 24).
Abbreviation nothing := (Some (mkdinode 0 0 0 0 0 no_addrs)).
Hypothesis Hd : (disk_inode v demo_sb <$> seqZ 0 8) = [nothing; Some demo_dir; Some file; nothing; nothing; nothing; nothing; nothing].

Lemma small_disk i : 0 <= i < 8 -> disk_inode v demo_sb i = if i =? 1 then Some demo_dir else if i =? 2 then Some file else nothing.
Proof.
  intros Hr. pose proof (f_equal (fun l => l !! Z.to_nat i) Hd) as E. cbv beta in E. rewrite list_lookup_fmap, lookup_seqZ_lt in E by lia. rewrite Z.add_0_l, Z2Nat.id in E by lia.
  change (Some (disk_inode v demo_sb i) = [nothing; Some demo_dir; Some file; nothing; nothing; nothing; nothing; nothing] !! Z.to_nat i) in E.
  assert (i = 0 \/ i = 1 \/ i = 2 \/ i = 3 \/ i = 4 \/ i = 5 \/ i = 6 \/ i = 7) as [->|[->|[->|[->|[->|[->|[->| ->]]]]]]] by lia; by injection E.
Qed.
Lemma small_at i x : inode_at v demo_sb i x -> (i = 1 /\ x = demo_dir) \/ (i = 2 /\ x = file).
Proof.
  intros (Hr & Hx & Ht). change (sb_ninodes demo_sb) with 8 in Hr. rewrite small_disk in Hx by done. destruct (Z.eqb_spec i 1); [left; split; congruence|]. destruct (Z.eqb_spec i 2); [right; split; congruence|].
  injection Hx as <-. done.
Qed.
Lemma dir_owns_none V : owned V demo_dir = ∅.
Proof. by apply blank_owned. Qed.
Lemma small_consistent : consistent v demo_sb.
Proof.
  split.
  - done.
  - intros i x [[-> ->]|[-> ->]]%small_at.
    + split; [by apply blank_ok|apply demo_range; set_solver].
    + split; [apply one_block_ok; [done|lia| |done]; intros _; split; [by vm_compute|by rewrite Hu]|]. unfold din_range. cbn. split_and!; try done. repeat constructor; lia.
  - intros i j x y Hn [[-> ->]|[-> ->]]%small_at [[-> ->]|[-> ->]]%small_at; [done|rewrite dir_owns_none; apply disjoint_empty_l|rewrite dir_owns_none; apply disjoint_empty_r|done].
  - intros b Hb. change (24 <= b < 40) in Hb. rewrite Hu by lia. unfold demo_used. intros Hlt%Z.ltb_lt. assert (b = 24) as -> by lia. exists 2, file. split.
    + split; [done|]. split; [by rewrite small_disk by done|done].
    + apply elem_of_owned. split; [done|]. exists 0. by rewrite one_block_slot.
Qed.
End small.

Definition small_inodes (nl : Z) : block := splice 128 (enc_dinode (one_block T_FILE nl 5 24)) (splice 64 (enc_dinode demo_dir) zeros).
Definition small_disk_of (nl : Z) : list block := disk_of (small_inodes nl) demo_map (demo_data :: replicate 15 zeros).
Definition small_view (nl : Z) : tview := view_of (small_disk_of nl).
Definition small_icache (nl : Z) : list inode :=
  mkinode ROOTDEV 1 1 initsleeplock true demo_dir ::
  mkinode ROOTDEV 2 1 initsleeplock true (one_block T_FILE nl 5 24) ::
  replicate 48 (mkinode 0 0 0 initsleeplock false (mkdinode 0 0 0 0 0 no_addrs)).
Definition small_fs (nl : Z) : fs tview := mkfs (small_view nl) demo_sb (small_icache nl) 1 0.

Lemma small_cache_at nl j X : small_icache nl !! j = Some X -> 0 < i_ref X ->
  (j = 0%nat /\ X = mkinode ROOTDEV 1 1 initsleeplock true demo_dir) \/ (j = 1%nat /\ X = mkinode ROOTDEV 2 1 initsleeplock true (one_block T_FILE nl 5 24)).
Proof. destruct j as [|[|j]]; cbn [small_icache lookup]; [intros [= <-]; by left|intros [= <-]; by right|]. intros [-> _]%lookup_replicate Hr. simpl in Hr. lia. Qed.

Section instance.
Context (nl : Z).
Hypothesis Hnl : 0 <= nl <= 1.
Hypothesis Hgood : forallb block_good [demo_sb_block; zeros; small_inodes nl; demo_map; demo_data; zeros] = true.
Hypothesis Hused : forallb (fun b => Bool.eqb (used (small_view nl) demo_sb b) (b <? 25)) (seqZ 0 40) = true.
Abbreviation nothing := (Some (mkdinode 0 0 0 0 0 no_addrs)).
Hypothesis Hdisk : (disk_inode (small_view nl) demo_sb <$> seqZ 0 8) =
  [nothing; Some demo_dir; Some (one_block T_FILE nl 5 24); nothing; nothing; nothing; nothing; nothing].

Lemma small_view_ok : tx_at (small_view nl) (small_view nl).
Proof. split; [done|]. apply (view_ok (small_inodes nl) demo_map (demo_data :: replicate 15 zeros) [demo_data; zeros] eq_refl demo_kinds Hgood). Qed.
Lemma small_inv : fs_inv (small_view nl) demo_sb.
Proof. apply (view_inv (small_inodes nl) demo_map (demo_data :: replicate 15 zeros) eq_refl 25 Hused). lia. Qed.
Lemma small_view_consistent : consistent (small_view nl) demo_sb.
Proof.
  apply (small_consistent _ nl small_inv); [|unfold short; lia|exact Hdisk]. intros b. apply (view_used (small_inodes nl) demo_map (demo_data :: replicate 15 zeros) 25 Hused).
Qed.
Lemma small_cached : icache_ok (small_view nl) demo_sb (small_icache nl).
Proof.
  split.
  - intros [|[|j]] X HX; cbn [small_icache lookup list_lookup] in HX; [injection HX as <-; simpl; lia..|]. apply lookup_replicate in HX as [-> _]. simpl. lia.
  - intros j X HX Hr. destruct (small_cache_at nl j X HX Hr) as [[_ ->]|[_ ->]]; (split; [reflexivity|]); cbn; lia.
  - intros j j' X X' HX HX' Hr Hr' E. destruct (small_cache_at nl j X HX Hr) as [[-> ->]|[-> ->]], (small_cache_at nl j' X' HX' Hr') as [[-> ->]|[-> ->]]; (reflexivity || discriminate).
  - intros j X HX Hr _. destruct (small_cache_at nl j X HX Hr) as [[_ ->]|[_ ->]]; cbn [i_inum i_din]; by rewrite (small_disk _ _ Hdisk) by lia.
Qed.
Lemma small_mounted : mounted (small_fs nl) (small_view nl) demo_sb.
Proof.
  split; [exact small_view_ok|reflexivity|exact small_view_consistent|reflexivity|reflexivity|apply Nat.le_0_l|exact small_cached|].
  intros i (j & X & HX & Hr & <-)%elem_of_live. pose proof (ic_ref _ _ _ small_cached j X HX).
  destruct (small_cache_at nl j X HX ltac:(lia)) as [[_ ->]|[_ ->]]; cbn [i_inum]; [exists demo_dir|exists (one_block T_FILE nl 5 24)];
    (split; [by split|]; split; [by rewrite (small_disk _ _ Hdisk) by lia|discriminate]).
Qed.
End instance.
Lemma small_mounted_0 : mounted (small_fs 0) (small_view 0) demo_sb.
Proof. apply small_mounted; [lia|by vm_compute..]. Qed.
Lemma small_mounted_1 : mounted (small_fs 1) (small_view 1) demo_sb.
Proof. apply small_mounted; [lia|by vm_compute..]. Qed.

Lemma small_write_ok : icall_ok (small_fs 1) (small_view 1) demo_sb (Writei 1 [33; 33; 33] 5).
Proof.
  cbn [icall_ok length]. eexists. split; [split; [reflexivity|by split]|]. split; [discriminate|]. split; [by split|]. split; [lia|]. split; [done|].
  split; [repeat constructor; done|]. split; [apply view_room; vm_compute; lia|]. change (small_view 1) with demo_view. rewrite demo_free. vm_compute. lia.
Qed.

(** ** The theorem *)

(** C4.  The file system is a map of files, and stays one. From a consistent
    file system in use, [writei], [itrunc], [iput] and [ialloc] return, and the
    file system after them is consistent again: every inode in use is well
    formed, no block is in two of them and no block is lost, and the cache
    agrees with the disk. In terms of files by inode number, [writei] overwrites
    bytes of one file, [itrunc] empties it, [iput] deletes it when it gives up
    the last reference to a file without links and changes no file otherwise,
    and [ialloc] adds an empty file under the lowest free number; every other
    file is as before, and so are the other reference counts. The call is one
    its callers make ([icall_ok]): its blocks fit in the transaction; [writei]
    has a locked inode that is not a device, at least one byte, an offset within
    the file, and free blocks; [itrunc] has a locked inode; [iput] one that is
    in use and not locked; [ialloc] finds a free inode and a free entry of the
    cache. *)
Theorem icalls_refine {S} `{TxStore S} (devsw : Z -> devops S) (s : fs S) v sb c : mounted s v sb -> icall_ok s v sb c ->
  wp (icall_run devsw c) s (fun r s' => exists v', mounted s' v' sb /\
    icall_effect c r (afs v sb) (afs v' sb) (f_icache s) (f_icache s')).
Proof. intros M Hok. by apply icall_spec. Qed.

Lemma icalls_refine_witness :
  wp (icall_run no_devices (Iput 1)) (small_fs 0) (fun _ s' => exists v', mounted s' v' demo_sb /\
    afs v' demo_sb = delete 2 (afs (small_view 0) demo_sb)) /\
  wp (icall_run no_devices (Ialloc T_FILE)) (small_fs 0) (fun _ s' => exists v', mounted s' v' demo_sb /\
    exists j, afs v' demo_sb = <[j := mkafile T_FILE 0 0 0 []]> (afs (small_view 0) demo_sb)) /\
  wp (icall_run no_devices (Writei 1 [33; 33; 33] 5)) (small_fs 1) (fun r s' => exists v', mounted s' v' demo_sb /\ r = 3 /\
    afs v' demo_sb = alter (af_write 5 [33; 33; 33]) 2 (afs (small_view 1) demo_sb)).
Proof.
  split; [|split].
  - eapply wp_mono; [apply (icalls_refine no_devices (small_fs 0) (small_view 0) demo_sb (Iput 1) small_mounted_0)|].
    + split; [|apply view_room; lia]. eexists. split; [reflexivity|]. split; [done|reflexivity].
    + intros r s' (v' & M' & X & [= <-] & E & _). exists v'. split; [exact M'|exact E].
  - eapply wp_mono; [apply (icalls_refine no_devices (small_fs 0) (small_view 0) demo_sb (Ialloc T_FILE) small_mounted_0)|].
    + split; [unfold short, T_FILE; lia|]. split; [done|]. split; [apply view_room; lia|]. split; [apply Nat.ltb_lt; by vm_compute|].
      exists 3. split; [done|]. eapply afs_none; [by vm_compute|done].
    + intros r s' (v' & M' & j & X & _ & _ & _ & _ & _ & E & _). exists v'. split; [exact M'|by exists j].
  - eapply wp_mono; [apply (icalls_refine no_devices (small_fs 1) (small_view 1) demo_sb (Writei 1 [33; 33; 33] 5) small_mounted_1 small_write_ok)|].
    intros r s' (v' & M' & X & [= <-] & Er & E & _). exists v'. split; [exact M'|]. split; [exact Er|exact E].
Defined.
