(* ===== verification/FsDir.v ===== *)
(** * Directories

    The contents of a directory as a list of entries, an inode number and a
    name each; [dirlookup] finds the first entry of a name and [dirlink] puts
    one into the first free slot, or at the end. *)

From S2P Require Import Prelude Sleeplock Bio Log LogSpec BlockStore Fs FsBlocks FsInode FsFile FsWrite FsIcache.

#[local] Opaque BLK.

(** ** Names *)

(** The characters of the string at [l], at most [n]. *)
Fixpoint cstr (n : nat) (l : list Z) : list Z :=
  match n, l with
  | S n, c :: l => if c =? 0 then [] else c :: cstr n l
  | _, _ => []
  end.

Lemma namecmp_zero n : forall p q, Forall is_byte p -> Forall is_byte q -> strncmp n p q = 0 <-> cstr n p = cstr n q.
Proof.
  induction n as [|n IH]; intros p q Hp Hq; [done|].
  assert (Hh : forall l : list Z, Forall is_byte l -> is_byte (default 0 (head l))).
  { intros l Hl. destruct Hl; simpl; [unfold is_byte; lia|done]. }
  pose proof (Hh p Hp) as H1. pose proof (Hh q Hq) as H2. cbn [strncmp]. rewrite !u8_id by done.
  destruct (Z.eqb_spec (default 0 (head p)) 0) as [E0|N0]; cbn [negb andb].
  - rewrite E0. destruct p as [|a p], q as [|b q]; simpl in *; subst; try done.
    + destruct (Z.eqb_spec b 0); split; intros; try done; lia.
    + rewrite Z.eqb_refl. destruct (Z.eqb_spec b 0); split; intros; try done; lia.
  - destruct p as [|a p]; [done|]. simpl in N0. simpl head in *. cbn [default] in *. cbn [tail cstr]. rewrite (proj2 (Z.eqb_neq a 0) N0).
    apply Forall_cons in Hp as [_ Hp]. destruct q as [|b q]; simpl in *.
    + destruct (Z.eqb_spec a 0); [done|]. split; [lia|done].
    + apply Forall_cons in Hq as [_ Hq]. destruct (Z.eqb_spec a b) as [->|Hne].
      * rewrite (proj2 (Z.eqb_neq b 0) N0). rewrite IH by done. split; [by intros ->|by intros [=]].
      * split; [lia|]. destruct (b =? 0); [done|]. intros [=]. lia.
Qed.

Lemma cstr_strncpy n : forall t, cstr n (strncpy n t) = cstr n t.
Proof.
  induction n as [|n IH]; intros t; [done|]. destruct t as [|a t]; [done|]. simpl. destruct (Z.eqb_spec a 0); [done|]. by rewrite IH.
Qed.
Lemma length_strncpy n : forall t, length (strncpy n t) = n.
Proof. induction n as [|n IH]; intros t; [done|]. cbn [strncpy length]. case_match; [by rewrite length_replicate|by rewrite IH]. Qed.
Lemma strncpy_bytes n : forall t, Forall is_byte t -> Forall is_byte (strncpy n t).
Proof.
  induction n as [|n IH]; intros t Ht; [constructor|]. cbn [strncpy]. constructor; [destruct Ht; simpl; [unfold is_byte; lia|done]|].
  case_match; [apply zeros_bytes|]. apply IH. by destruct Ht.
Qed.

(** ** Entries *)

Abbreviation dirent := (Z * list Z)%type.
Definition dirent_at (c : list Z) (k : nat) : dirent :=
  let de := slice (16 * k) 16 c in (de_inum de, cstr 14 (de_name de)).
Definition dirents (c : list Z) : list dirent := dirent_at c <$> seq 0 (length c / 16).

Fixpoint find_from (es : list dirent) (nm : list Z) (k : nat) : option (nat * Z) :=
  match es with
  | [] => None
  | e :: es => if bool_decide (e.1 <> 0 /\ e.2 = nm) then Some (k, e.1) else find_from es nm (S k)
  end.
(** The entry of a name: its position and inode number. *)
Definition dir_find (es : list dirent) (nm : list Z) : option (nat * Z) := find_from es nm 0.
Fixpoint first_free (es : list dirent) : nat :=
  match es with
  | [] => O
  | e :: es => if e.1 =? 0 then O else S (first_free es)
  end.
Definition dir_put (e : dirent) (es : list dirent) : list dirent :=
  let k := first_free es in if (k <? length es)%nat then <[k := e]> es else es ++ [e].

Lemma find_put es i nm n : forall k, i <> 0 -> find_from es nm k = None ->
  find_from (dir_put (i, nm) es) n k = if bool_decide (n = nm) then Some ((k + first_free es)%nat, i) else find_from es n k.
Proof.
  unfold dir_put. induction es as [|e es IH]; intros k Hi Hn.
  { simpl. destruct (decide (n = nm)) as [->|Hne].
    - rewrite !bool_decide_true by done. simpl. by rewrite Nat.add_0_r.
    - rewrite !bool_decide_false by naive_solver. done. }
  cbn [find_from first_free length] in *. destruct (bool_decide (e.1 <> 0 /\ e.2 = nm)) eqn:Eb; [done|]. destruct (Z.eqb_spec e.1 0) as [E0|N0].
  - simpl. destruct (decide (n = nm)) as [->|Hne].
    + rewrite !bool_decide_true by done. by rewrite Nat.add_0_r.
    + rewrite (bool_decide_false (n = nm)), (bool_decide_false (i <> 0 /\ nm = n)), (bool_decide_false (e.1 <> 0 /\ _)) by naive_solver. done.
  - specialize (IH (S k) Hi Hn). change (S (first_free es) <? S (length es))%nat with (first_free es <? length es)%nat.
    destruct (first_free es <? length es)%nat; simpl; (destruct (decide (n = nm)) as [->|Hne];
      [rewrite Eb, IH, !bool_decide_true by done; do 2 f_equal; lia|rewrite (bool_decide_false (n = nm)) in IH |- * by done; by rewrite IH]).
Qed.
Lemma first_free_le es : (first_free es <= length es)%nat.
Proof. induction es as [|e es IH]; simpl; [done|]. destruct (e.1 =? 0); lia. Qed.

Lemma length_dirents c : length (dirents c) = (length c / 16)%nat.
Proof. unfold dirents. by rewrite length_fmap, length_seq. Qed.
Lemma dirents_lookup c k : (k < length c / 16)%nat -> dirents c !! k = Some (dirent_at c k).
Proof. intros Hk. unfold dirents. rewrite list_lookup_fmap, lookup_seq_lt by done. done. Qed.

(** A whole entry written at its place. *)
Lemma dirents_splice c de k : (length c mod 16 = 0)%nat -> length de = 16%nat -> (k <= length c / 16)%nat ->
  dirents (splice (16 * k) de c) = if (k <? length c / 16)%nat then <[k := dirent_at de 0]> (dirents c) else dirents c ++ [dirent_at de 0].
Proof.
  intros Hm Hd Hk. pose proof (Nat.div_mod_eq (length c) 16) as Hlen. rewrite Hm, Nat.add_0_r in Hlen.
  assert (Hin : slice (16 * k) 16 (splice (16 * k) de c) = slice (16 * 0) 16 de).
  { replace (slice (16 * 0) 16 de) with de by (unfold slice; change (16 * 0)%nat with 0%nat; rewrite drop_0; symmetry; apply take_ge; lia).
    unfold slice, splice. rewrite drop_app_length' by (rewrite length_take; lia). by rewrite take_app_length' by lia. }
  assert (Hout : forall j, j <> k -> (j < length c / 16)%nat -> slice (16 * j) 16 (splice (16 * k) de c) = slice (16 * j) 16 c).
  { intros j Hj Hjl. destruct (Nat.lt_ge_cases j k).
    - apply list_eq. intros i. destruct (decide (i < 16)%nat); [|unfold slice; by rewrite !lookup_take_ge by lia].
      rewrite !slice_lookup by done. unfold splice. rewrite lookup_app_l by (rewrite length_take; lia). by rewrite lookup_take_lt by lia.
    - apply slice_splice_ne; lia. }
  destruct (Nat.ltb_spec k (length c / 16)) as [Hlt|Hge].
  - assert (Hls : length (splice (16 * k) de c) = length c) by (apply length_splice; lia). apply list_eq. intros j.
    destruct (decide (j < length c / 16)%nat) as [Hj|Hj].
    + rewrite dirents_lookup by (by rewrite Hls). destruct (decide (j = k)) as [->|Hne].
      * rewrite list_lookup_insert_eq by (by rewrite length_dirents). unfold dirent_at. by rewrite Hin.
      * rewrite list_lookup_insert_ne, dirents_lookup by done. unfold dirent_at. by rewrite Hout.
    + rewrite !lookup_ge_None_2; [done|rewrite length_insert, length_dirents; lia|rewrite length_dirents, Hls; lia].
  - assert (k = (length c / 16)%nat) as Ek by lia. assert (Hls : length (splice (16 * k) de c) = (16 * S k)%nat).
    { unfold splice. rewrite !length_app, length_take, length_drop. lia. }
    assert (Hdv : (length (splice (16 * k) de c) / 16 = S k)%nat) by (rewrite Hls, Nat.mul_comm; apply Nat.div_mul; lia).
    apply list_eq. intros j. destruct (Nat.lt_total j k) as [Hj|[->|Hj]].
    + rewrite dirents_lookup by lia. rewrite lookup_app_l, dirents_lookup by (rewrite ?length_dirents; lia). unfold dirent_at. rewrite Hout by lia. done.
    + rewrite dirents_lookup by lia. rewrite lookup_app_r by (rewrite length_dirents; lia). rewrite length_dirents.
      replace (k - length c / 16)%nat with 0%nat by lia. cbn [lookup list_lookup]. unfold dirent_at. by rewrite Hin.
    + rewrite !lookup_ge_None_2; [done|..]; rewrite ?length_app, ?length_dirents; cbn [length]; lia.
Qed.

(** ** [dirlookup] *)

Lemma content_bytes {S} `{TxStore S} (t : S) v sb x : tx_at t v -> fs_inv v sb -> inode_ok v sb x -> Forall is_byte (content (tv_blk v) x).
Proof.
  intros Ht Hi Hx. unfold content. apply Forall_fmap, Forall_forall. intros i Hin%elem_of_seqZ. unfold compose, fbyte.
  pose proof (in_size _ _ _ Hx) as Hsz. pose proof BLK_eq as HB. unfold MAXFILE, NDIRECT, NINDIRECT in Hsz.
  assert (Hk : 0 <= i / BLK < 140) by (split; [apply Z.div_pos; lia|apply Z.div_lt_upper_bound; lia]).
  assert (Hs : slot (tv_blk v) x (i / BLK) <> 0).
  { apply (in_full _ _ _ Hx); [lia|]. pose proof (Z.mul_div_le i BLK ltac:(lia)). lia. }
  destruct (slot_block sb v x _ t Hi Hx Ht Hk Hs) as (_ & _ & Hb). by apply nth_byte.
Qed.

(** What the directory routines start from. *)
Record dir_pre {S} `{TxStore S} (s : fs S) (v : tview) (sb : superblock) (dp : nat) (X : inode) : Prop := mk_dir_pre {
  dp_file : file_pre s v sb dp X;
  dp_type : i_type X = T_DIR;
  dp_size : i_size X mod 16 = 0
}.
Definition entries (v : tview) (x : dinode) : list dirent := dirents (content (tv_blk v) x).

Section dirlookup.
Context {S : Type} `{TxStore S} (devsw : Z -> devops S).
Context (s : fs S) (sb : superblock) (dp : nat) (X : inode) (v : tview).
Hypothesis P : dir_pre s v sb dp X.
Let es : list dirent := entries v (i_din X).
Let n : nat := Z.to_nat (i_size X / 16).

Lemma dir_size : i_size X = 16 * Z.of_nat n /\ length es = n /\ 0 <= i_size X <= MAXFILE * BLK.
Proof.
  pose proof (in_size _ _ _ (fp_ok _ _ _ _ _ (dp_file _ _ _ _ _ P))) as Hs. change (d_size (i_din X)) with (i_size X) in Hs.
  pose proof (Z_div_mod_eq_full (i_size X) 16). rewrite (dp_size _ _ _ _ _ P) in *. pose proof (Z.div_pos (i_size X) 16).
  assert (En : i_size X = 16 * Z.of_nat n) by (unfold n; lia). split_and!; [done| |apply Hs|apply Hs].
  unfold es, entries. rewrite length_dirents, length_content. change (d_size (i_din X)) with (i_size X). rewrite En.
  replace (Z.to_nat (16 * Z.of_nat n)) with (n * 16)%nat by lia. apply Nat.div_mul. lia.
Qed.

Lemma dir_pre_store t : tx_at t v -> dir_pre (set_store t s) v sb dp X.
Proof. intros Ht. destruct P as [[]]. by split; [split|..]. Qed.

Lemma read_dirent_spec msg k t (Q : list Z -> fs S -> Prop) : tx_at t v -> (k < n)%nat ->
  (forall t', tx_at t' v -> Q (slice (16 * k) 16 (content (tv_blk v) (i_din X))) (set_store t' s)) ->
  wp (read_dirent devsw msg dp (16 * Z.of_nat k)) (set_store t s) Q.
Proof.
  intros Ht0 Hk HQ. destruct dir_size as (En & _ & Hs). pose proof BLK_eq as HB. unfold read_dirent. wp_step.
  eapply (readi_spec devsw (set_store t s) sb dp X v (dp_file _ _ _ _ _ (dir_pre_store t Ht0))); [rewrite (dp_type _ _ _ _ _ P); done|lia|done|unfold MAXFILE, NDIRECT, NINDIRECT, sizeof_dirent in *; lia|].
  intros t1 Ht m. assert (m = 16) as -> by (unfold m, sizeof_dirent; lia). cbn [fst snd]. change (16 =? sizeof_dirent) with true. cbn [negb]. wp_step.
  replace (Z.to_nat (16 * Z.of_nat k)) with (16 * k)%nat by lia. by apply HQ.
Qed.

(** The entry read, as an element of the list. *)
Lemma entry_at k : (k < n)%nat -> let de := slice (16 * k) 16 (content (tv_blk v) (i_din X)) in
  es !! k = Some (de_inum de, cstr 14 (de_name de)) /\ Forall is_byte de.
Proof.
  intros Hk. destruct dir_size as (En & El & _). split.
  - unfold es, entries. rewrite dirents_lookup; [done|]. rewrite <- length_dirents. fold (entries v (i_din X)). fold es. lia.
  - unfold slice. apply Forall_take, Forall_drop. eapply content_bytes; apply P.
Qed.

Lemma dirlookup_from_spec name fuel : forall k t (Q : option (nat * Z) -> fs S -> Prop), Forall is_byte name -> tx_at t v -> (k <= n)%nat -> (n - k < fuel)%nat ->
  (forall t', tx_at t' v -> match find_from (drop k es) (cstr 14 name) k with
     | None => Q None (set_store t' s)
     | Some (j, i) => wp (iget ROOTDEV i) (set_store t' s) (fun ip s' => Q (Some (ip, 16 * Z.of_nat j)) s')
     end) ->
  wp (dirlookup_from devsw fuel dp name (16 * Z.of_nat k)) (set_store t s) Q.
Proof.
  destruct dir_size as (En & El & Hs). pose proof BLK_eq as HB. induction fuel as [|fuel IH]; intros k t Q Hn Ht Hk Hf HQ; [lia|].
  cbn [dirlookup_from]. wp_step. eapply wp_get_ip; [apply (fp_ip _ _ _ _ _ (dp_file _ _ _ _ _ P))|].
  destruct (Z.ltb_spec (16 * Z.of_nat k) (i_size X)) as [Hlt|Hge].
  2: { rewrite drop_ge in HQ by lia. wp_step. by apply HQ. }
  assert (Hkn : (k < n)%nat) by lia. destruct (entry_at k Hkn) as [He Hb]. set (de := slice (16 * k) 16 _) in *.
  wp_step. apply read_dirent_spec; [done|done|]. intros t1 Ht1. fold de.
  assert (Enext : u32 (16 * Z.of_nat k + sizeof_dirent) = 16 * Z.of_nat (Datatypes.S k)).
  { unfold sizeof_dirent. rewrite u32_id; [lia|]. unfold MAXFILE, NDIRECT, NINDIRECT in Hs. lia. }
  rewrite (drop_S _ _ _ He) in HQ. cbn [find_from fst snd] in HQ.
  assert (Hcmp : (namecmp name (de_name de) =? 0) = bool_decide (cstr 14 (de_name de) = cstr 14 name)).
  { unfold namecmp. change (Z.to_nat DIRSIZ) with 14%nat. destruct (Z.eqb_spec (strncmp 14 name (de_name de)) 0) as [E|E].
    - symmetry. apply bool_decide_true. symmetry. apply namecmp_zero; [done| |done]. by apply Forall_take, Forall_drop.
    - symmetry. apply bool_decide_false. intros E'. apply E, namecmp_zero; [done| |done]. by apply Forall_take, Forall_drop. }
  rewrite Enext, Hcmp. destruct (Z.eqb_spec (de_inum de) 0) as [E0|N0].
  { rewrite bool_decide_false in HQ by naive_solver. apply IH; (done || lia). }
  case_bool_decide as Ec.
  - rewrite bool_decide_true in HQ by done. rewrite (fp_dev _ _ _ _ _ (dp_file _ _ _ _ _ P)). wp_step. eapply wp_mono; [by apply HQ|]. intros ip s' HQ'. by wp_step.
  - rewrite bool_decide_false in HQ by naive_solver. apply IH; (done || lia).
Qed.

Lemma dirlookup_spec name (Q : option (nat * Z) -> fs S -> Prop) : Forall is_byte name ->
  (forall t, tx_at t v -> match dir_find es (cstr 14 name) with
     | None => Q None (set_store t s)
     | Some (j, i) => wp (iget ROOTDEV i) (set_store t s) (fun ip s' => Q (Some (ip, 16 * Z.of_nat j)) s')
     end) ->
  wp (dirlookup devsw dp name) s Q.
Proof.
  intros Hn HQ. destruct dir_size as (En & El & Hs). unfold dirlookup. wp_step. eapply wp_get_ip; [apply (fp_ip _ _ _ _ _ (dp_file _ _ _ _ _ P))|].
  rewrite (dp_type _ _ _ _ _ P). cbn [negb Z.eqb T_DIR Pos.eqb].
  replace s with (set_store (f_store s) s) by (by destruct s). apply (dirlookup_from_spec name _ 0); [done|apply P|lia| |done].
  rewrite En. unfold sizeof_dirent. rewrite Z.mul_comm, Z.div_mul by lia. lia.
Qed.

(** The loop of [dirlink]. *)
Lemma free_dirent_spec fuel : forall k t (Q : Z -> fs S -> Prop), tx_at t v -> (k <= n)%nat -> (n - k < fuel)%nat ->
  (forall t', tx_at t' v -> Q (16 * Z.of_nat (k + first_free (drop k es))) (set_store t' s)) ->
  wp (free_dirent devsw fuel dp (16 * Z.of_nat k)) (set_store t s) Q.
Proof.
  destruct dir_size as (En & El & Hs). pose proof BLK_eq as HB. induction fuel as [|fuel IH]; intros k t Q Ht Hk Hf HQ; [lia|].
  cbn [free_dirent]. wp_step. eapply wp_get_ip; [apply (fp_ip _ _ _ _ _ (dp_file _ _ _ _ _ P))|].
  rewrite u32_id by (unfold MAXFILE, NDIRECT, NINDIRECT in Hs; lia).
  destruct (Z.ltb_spec (16 * Z.of_nat k) (i_size X)) as [Hlt|Hge].
  2: { wp_step. rewrite drop_ge in HQ by lia. simpl in HQ. rewrite Nat.add_0_r in HQ. by apply HQ. }
  assert (Hkn : (k < n)%nat) by lia. destruct (entry_at k Hkn) as [He Hb]. set (de := slice (16 * k) 16 _) in *.
  wp_step. apply read_dirent_spec; [done|done|]. intros t1 Ht1. fold de. rewrite (drop_S _ _ _ He) in HQ. cbn [first_free fst] in HQ.
  destruct (Z.eqb_spec (de_inum de) 0) as [E0|N0].
  - wp_step. rewrite Nat.add_0_r in HQ. by apply HQ.
  - replace (16 * Z.of_nat k + sizeof_dirent) with (16 * Z.of_nat (Datatypes.S k)) by (unfold sizeof_dirent; lia).
    apply IH; [done|lia|lia|]. intros t' Ht'. replace (Datatypes.S k + first_free (drop (Datatypes.S k) es))%nat with (k + Datatypes.S (first_free (drop (Datatypes.S k) es)))%nat by lia. by apply HQ.
Qed.
End dirlookup.

(** ** [dirlink] *)

Lemma mkdirent_spec inum name : 0 <= inum < 2 ^ 16 -> Forall is_byte name -> let de := mkdirent inum (strncpy (Z.to_nat DIRSIZ) name) in
  length de = 16%nat /\ Forall is_byte de /\ dirent_at de 0 = (inum, cstr 14 name).
Proof.
  intros Hi Hn. change (Z.to_nat DIRSIZ) with 14%nat. unfold mkdirent. split_and!.
  - by rewrite length_app, length_le_bytes, length_strncpy.
  - apply Forall_app. split; [apply le_bytes_byte|by apply strncpy_bytes].
  - assert (E : slice (16 * 0) 16 (le_bytes 2 inum ++ strncpy 14 name) = le_bytes 2 inum ++ strncpy 14 name).
    { unfold slice. change (16 * 0)%nat with 0%nat. rewrite drop_0. apply take_ge. rewrite length_app, length_le_bytes, length_strncpy. lia. }
    unfold dirent_at. rewrite E. unfold de_inum, de_name. f_equal.
    + rewrite slice_app_here by apply length_le_bytes. rewrite le_val_bytes. apply Z.mod_small. done.
    + rewrite slice_app_skip by (by rewrite length_le_bytes). rewrite length_le_bytes. change (Z.to_nat DIRSIZ) with 14%nat.
      unfold slice. rewrite Nat.sub_diag, drop_0, take_ge by (rewrite length_strncpy; lia). apply cstr_strncpy.
Qed.

Lemma nblocks_dirent k : (nblocks (16 * Z.of_nat k) 16 <= 1)%nat.
Proof.
  pose proof BLK_eq as HB. unfold nblocks. cbn [Z.leb Z.compare]. assert ((16 * Z.of_nat k + 16 - 1) / BLK = 16 * Z.of_nat k / BLK) as ->; [|lia].
  rewrite HB. replace (16 * Z.of_nat k + 16 - 1) with (16 * Z.of_nat k + 15) by lia.
  pose proof (Z.div_mod (16 * Z.of_nat k) 512 ltac:(lia)). pose proof (Z.mod_pos_bound (16 * Z.of_nat k) 512 ltac:(lia)).
  symmetry. apply (Z.div_unique_pos _ _ _ (16 * Z.of_nat k mod 512 + 15)); [|lia].
  assert ((16 * Z.of_nat k) mod 512 = 16 * (Z.of_nat k mod 32)) as ->; [|pose proof (Z.mod_pos_bound (Z.of_nat k) 32); lia].
  change 512 with (16 * 32). rewrite Z.mul_mod_distr_l by lia. done.
Qed.

Section dirlink.
Context {S : Type} `{TxStore S} (devsw : Z -> devops S).
Context (s : fs S) (sb : superblock) (dp : nat) (X : inode) (v : tview).
Hypothesis P : dir_pre s v sb dp X.

Lemma dirlink_new name inum (Q : Z -> fs S -> Prop) : Forall is_byte name -> 0 < inum < 2 ^ 16 ->
  dir_find (entries v (i_din X)) (cstr 14 name) = None ->
  i_size X + 16 <= MAXFILE * BLK -> 0 <= i_inum X < sb_ninodes sb -> din_range (i_din X) -> room v sb 3 -> (2 <= size (free_blocks v sb))%nat ->
  (forall t v' x' k de, tx_at t v' -> tv_mod v' = ∅ -> held_blocks v' = ∅ -> length de = 16%nat -> written sb (i_inum X) (16 * Z.of_nat k) de v (i_din X) v' x' ->
     entries v' x' = dir_put (inum, cstr 14 name) (entries v (i_din X)) -> Q 0 (at_ip s dp t x')) ->
  wp (dirlink devsw dp name inum) s Q.
Proof.
  intros Hn Hi Hno Hmax Hin Hr Hroom Hfree HQ. destruct (dir_size s sb dp X v P) as (En & El & Hs). set (es := entries v (i_din X)) in *.
  set (n := Z.to_nat (i_size X / 16)) in *. unfold dirlink. wp_step. apply (dirlookup_spec devsw s sb dp X v P); [done|]. intros t Ht. fold es. rewrite Hno.
  wp_step. eapply wp_get_ip; [apply (fp_ip _ _ _ _ _ (dp_file _ _ _ _ _ P))|]. wp_step.
  apply (free_dirent_spec devsw s sb dp X v P _ 0); [done|lia| |].
  { fold n. rewrite En. unfold sizeof_dirent. rewrite Z.mul_comm, Z.div_mul by lia. lia. }
  intros t1 Ht1. rewrite Nat.add_0_l, drop_0. fold es. set (k := first_free es).
  assert (Hk : (k <= n)%nat) by (rewrite <- El; apply first_free_le). destruct (mkdirent_spec inum name ltac:(lia) Hn) as (Hdl & Hdb & Hde).
  set (de := mkdirent inum _) in *. pose proof (nblocks_dirent k) as Hnb. wp_step.
  assert (Hd16 : Z.of_nat (length de) = 16) by (by rewrite Hdl). replace sizeof_dirent with (Z.of_nat (length de)).
  eapply (writei_spec devsw (set_store t1 s) sb dp X v (dp_file _ _ _ _ _ (dir_pre_store s sb dp X v P t1 Ht1))); rewrite ?Hd16; try done; try lia.
  { rewrite (dp_type _ _ _ _ _ P). done. }
  { unfold room in *. lia. }
  intros t2 v' x' Ht2 Hm Hh W. cbn [negb Z.eqb Pos.eqb]. wp_step.
  change (at_ip (set_store t1 s) dp t2 x') with (at_ip s dp t2 x'). apply (HQ t2 v' x' k de Ht2 Hm Hh Hdl W).
  unfold entries. rewrite (wn_content _ _ _ _ _ _ _ _ W). replace (Z.to_nat (16 * Z.of_nat k)) with (16 * k)%nat by lia.
  assert (Hlc : length (content (tv_blk v) (i_din X)) = (16 * n)%nat) by (rewrite length_content; change (d_size (i_din X)) with (i_size X); lia).
  assert (Hdv : (length (content (tv_blk v) (i_din X)) / 16 = n)%nat) by (rewrite Hlc, Nat.mul_comm; apply Nat.div_mul; lia).
  rewrite dirents_splice; [|rewrite Hlc, Nat.mul_comm; apply Nat.Div0.mod_mul|done|lia]. rewrite Hdv, Hde, <- El. done.
Qed.

(** A name that is there: no second entry, and the reference taken is given back. *)
Lemma dirlink_present name inum j i (Q : Z -> fs S -> Prop) : Forall is_byte name ->
  dir_find (entries v (i_din X)) (cstr 14 name) = Some (j, i) -> i <> i_inum X ->
  icache_ok v sb (f_icache s) -> 0 < i_ref X -> 0 <= i < sb_ninodes sb -> (size (live (f_icache s)) < length (f_icache s))%nat ->
  (forall ip Y, ip <> dp -> f_icache s !! ip = Some Y -> i_lock Y = initsleeplock) ->
  (forall t l', tx_at t v -> icache_ok v sb l' -> (forall k, refs l' k = refs (f_icache s) k) -> Q (-1) (set_icache l' (set_store t s))) ->
  wp (dirlink devsw dp name inum) s Q.
Proof.
  intros Hn Hf Hne Hc Hr Hi Hs Hl HQ. unfold dirlink. wp_step. apply (dirlookup_spec devsw s sb dp X v P); [done|]. intros t Ht. rewrite Hf.
  apply (iget_spec (set_store t s) v sb i); [done|done|done|]. intros ip l' G. destruct (got_at _ _ _ _ _ _ G) as (Y & Y' & HY & HY' & Ei & _ & Hr' & Hlk & Hv & Hsame).
  assert (Hip : ip <> dp).
  { intros ->. pose proof (fp_ip _ _ _ _ _ (dp_file _ _ _ _ _ P)) as HX. simpl in HY. rewrite HX in HY. injection HY as <-. by apply Hne, eq_sym, Hsame. }
  wp_step. eapply (iput_keep (set_icache l' (set_store t s)) v sb ip Y'); [apply G|done|done|rewrite Hlk; by apply (Hl ip)|intros Hv' _; specialize (Hv Hv'); lia|].
  intros l2 D. wp_step. apply (HQ t l2 Ht); [apply D|]. intros k. rewrite (dr_refs _ _ _ _ _ _ D), Ei. simpl. rewrite (got_refs _ _ _ _ _ _ G). simpl. lia.
Qed.

(** The name of the directory itself ([.]): the inode found is the one the
    caller has locked, and [iput] waits for that lock. *)
Lemma dirlink_self name inum j : Forall is_byte name ->
  dir_find (entries v (i_din X)) (cstr 14 name) = Some (j, i_inum X) -> sl_locked (i_lock X) = true ->
  icache_ok v sb (f_icache s) -> 0 < i_ref X -> (size (live (f_icache s)) < length (f_icache s))%nat ->
  dirlink devsw dp name inum s = Sleep "sleep lock".
Proof.
  intros Hn Hf Hlk Hc Hr Hs. pose proof (fp_ip _ _ _ _ _ (dp_file _ _ _ _ _ P)) as HX.
  assert (Hw : wp (dirlookup devsw dp name) s (fun r s' => exists off Y, r = Some (dp, off) /\ f_icache s' !! dp = Some Y /\ sl_locked (i_lock Y) = true)).
  { apply (dirlookup_spec devsw s sb dp X v P); [done|]. intros t Ht. rewrite Hf.
    apply (iget_spec (set_store t s) v sb (i_inum X)); [done|by eapply ic_inode|done|]. intros ip l' G.
    destruct (got_at _ _ _ _ _ _ G) as (Y & Y' & HY & HY' & Ei & _ & Hr' & El & _ & Hsame). simpl in HY.
    assert (ip = dp) as ->.
    { destruct (decide (ip = dp)) as [|Hne]; [done|]. pose proof (got_other _ _ _ _ _ _ G dp ltac:(done)) as HX'. simpl in HX'. rewrite HX in HX'.
      by apply (ic_uniq _ _ _ (got_ok _ _ _ _ _ _ G) ip dp Y' X HY' HX' Hr' Hr). }
    exists (16 * Z.of_nat j), Y'. split_and!; [done|done|]. rewrite El. congruence. }
  apply wp_inv in Hw as (r & s1 & E & off & Y & -> & HY & HlY). unfold dirlink. rewrite (bind_done _ _ _ _ _ E). cbv iota beta.
  assert (Es : iput dp s1 = Sleep "sleep lock").
  { unfold iput. rewrite (bind_done kget _ s1 s1 s1 eq_refl). unfold mbind, km_bind, ip_lock. by rewrite HY, acquiresleep_taken. }
  unfold mbind, km_bind. by rewrite Es.
Qed.
End dirlink.
