(* ===== verification/FsPath.v ===== *)
(** * Path names

    The names of a path, and [namex] as the walk through the directories that
    they describe: [resolve] gives the inode number a path stands for on the
    disk, [namex] returns the cache entry of that inode with one reference,
    and gives back every reference it took on the way. *)

From S2P Require Import Prelude Sleeplock Bio Log LogSpec BlockStore Fs FsBlocks FsInode FsFile FsWrite FsIcache FsDir.

#[local] Opaque BLK.

(** ** The elements of a path *)

Fixpoint split_path (cur p : list Z) : list (list Z) :=
  match p with
  | [] => match cur with [] => [] | _ => [cur] end
  | c :: p =>
      if c =? SLASH then match cur with [] => split_path [] p | _ => cur :: split_path [] p end
      else split_path (cur ++ [c]) p
  end.
(** The kernel keeps [DIRSIZ] characters of each. *)
Definition elems (p : list Z) : list (list Z) := take 14 <$> split_path [] p.

Lemma split_skip p : split_path [] (skip_slashes p) = split_path [] p.
Proof. induction p as [|c p IH]; [done|]. simpl. destruct (c =? SLASH) eqn:E; [done|]. simpl. by rewrite E. Qed.
Lemma split_span p : forall cur e r, span_elem p = (e, r) -> cur ++ e <> [] -> split_path cur p = (cur ++ e) :: split_path [] (skip_slashes r).
Proof.
  induction p as [|c p IH]; intros cur e r; simpl.
  - intros [= <- <-] Hn. rewrite app_nil_r in *. by destruct cur.
  - destruct (c =? SLASH) eqn:E.
    + intros [= <- <-] Hn. rewrite app_nil_r in *. simpl. rewrite E, split_skip. by destruct cur.
    + destruct (span_elem p) as [e' r'] eqn:Es. intros [= <- <-] Hn. rewrite (IH (cur ++ [c]) e' r' eq_refl).
      * by rewrite <- app_assoc.
      * rewrite <- app_assoc. done.
Qed.
Lemma span_length p : forall e r, span_elem p = (e, r) -> (length e + length r = length p)%nat /\ (forall c, c ∈ e -> c ∈ p) /\ (forall c, c ∈ r -> c ∈ p).
Proof.
  induction p as [|c p IH]; intros e r; simpl; [by intros [= <- <-]|]. destruct (c =? SLASH).
  - intros [= <- <-]. split_and!; [done|set_solver|done].
  - destruct (span_elem p) as [e' r']. intros [= <- <-]. destruct (IH e' r' eq_refl) as (H1 & H2 & H3). split_and!; [simpl; lia|set_solver|set_solver].
Qed.
Lemma skip_length p : (length (skip_slashes p) <= length p)%nat /\ (forall c, c ∈ skip_slashes p -> c ∈ p).
Proof. induction p as [|c p IH]; simpl; [done|]. destruct (c =? SLASH); [|done]. destruct IH. split; [lia|set_solver]. Qed.
Lemma skip_head p : match skip_slashes p with [] => True | c :: _ => c <> SLASH end.
Proof. induction p as [|c p IH]; simpl; [done|]. destruct (Z.eqb_spec c SLASH); done. Qed.

Lemma cstr_app e l n : Forall (fun c => c <> 0) e -> (length e <= n)%nat -> cstr n (e ++ l) = e ++ cstr (n - length e) l.
Proof.
  intros He. revert n. induction He as [|c e Hc _ IH]; intros n Hn; simpl in *; [by rewrite Nat.sub_0_r|].
  destruct n as [|n]; [lia|]. simpl. rewrite (proj2 (Z.eqb_neq _ _) Hc). f_equal. apply IH. lia.
Qed.

(** [skipelem] takes the first element off a path. *)
Lemma skipelem_spec path name : Forall (fun c => c <> 0 /\ is_byte c) path -> length name = 14%nat -> Forall is_byte name ->
  match skipelem path name with
  | None => elems path = []
  | Some (path', name') => exists e, elems path = e :: elems path' /\ cstr 14 name' = e /\ length name' = 14%nat /\ Forall is_byte name' /\
      (length path' < length path)%nat /\ Forall (fun c => c <> 0 /\ is_byte c) path' /\ (path' = [] <-> elems path' = [])
  end.
Proof.
  intros Hp Hn Hb. unfold skipelem. pose proof (skip_head path) as Hh. destruct (skip_length path) as [Hl Hin]. unfold elems. rewrite <- (split_skip path).
  destruct (skip_slashes path) as [|c p] eqn:Es; [done|]. set (q := c :: p) in *. destruct (span_elem q) as [e r] eqn:Ee.
  assert (Hne : e <> []). { unfold q in Ee. simpl in Ee. rewrite (proj2 (Z.eqb_neq _ _) Hh) in Ee. destruct (span_elem p). by injection Ee as <- <-. }
  destruct (span_length q e r Ee) as (Hle & Hine & Hinr). destruct (skip_length r) as [Hl2 Hin2]. rewrite (split_span q [] e r Ee Hne).
  rewrite Forall_forall in Hp. assert (He0 : Forall (fun c => c <> 0) e) by (apply Forall_forall; intros x Hx; apply Hp; auto).
  assert (Heb : Forall is_byte e) by (apply Forall_forall; intros x Hx; apply Hp; auto). change (Z.to_nat DIRSIZ) with 14%nat.
  set (name' := if (14 <=? length e)%nat then _ else _).
  assert (Hname : cstr 14 name' = take 14 e /\ length name' = 14%nat /\ Forall is_byte name').
  { unfold name'. destruct (Nat.leb_spec 14 (length e)).
    - assert (E : splice 0 (take 14 e) name = take 14 e) by (apply splice_whole; rewrite length_take; lia). rewrite E. split_and!; [|rewrite length_take; lia|by apply Forall_take].
      rewrite <- (app_nil_r (take 14 e)) at 1. rewrite cstr_app; [|by apply Forall_take|rewrite length_take; lia]. destruct (14 - _)%nat; simpl; by rewrite app_nil_r.
    - assert (Hl1 : length (splice 0 e name) = 14%nat) by (rewrite length_splice; lia).
      assert (E : splice (length e) [0] (splice 0 e name) = e ++ 0 :: drop (length e + 1) (splice 0 e name)).
      { unfold splice at 1. f_equal. unfold splice. rewrite take_0. simpl app. by rewrite take_app_length. }
      rewrite E. split_and!.
      + rewrite cstr_app by (done || lia). rewrite take_ge by lia. destruct (14 - length e)%nat; simpl; by rewrite app_nil_r.
      + rewrite length_app. cbn [length]. rewrite length_drop, Hl1. lia.
      + apply Forall_app. split; [done|]. constructor; [unfold is_byte; lia|]. apply Forall_drop. by apply splice_bytes. }
  destruct Hname as (H1 & H2 & H3). exists (take 14 e). split_and!; [done|done|done|done| | |].
  - assert (1 <= length e)%nat by (destruct e; [done|simpl; lia]). lia.
  - apply Forall_forall. intros x Hx. apply Hp. auto.
  - rewrite split_skip. pose proof (skip_head r) as Hr. split; [by rewrite <- split_skip; intros ->|].
    rewrite <- split_skip. destruct (skip_slashes r) as [|d r'] eqn:Er; [done|]. destruct (span_elem (d :: r')) as [e2 r2] eqn:E2.
    rewrite (split_span _ [] e2 r2 E2); [done|]. simpl in E2. rewrite (proj2 (Z.eqb_neq _ _) Hr) in E2. destruct (span_elem r'). by injection E2 as <- <-.
Qed.

(** ** The walk *)

(** The inode number a list of names leads to from inode [i]: through
    directories only; with [parent], the directory of the last name. *)
Fixpoint resolve (v : tview) (sb : superblock) (parent : bool) (i : Z) (es : list (list Z)) : option Z :=
  match es with
  | [] => if parent then None else Some i
  | e :: es =>
      x ← disk_inode v sb i;
      if negb (d_type x =? T_DIR) then None
      else if parent && bool_decide (es = []) then Some i
      else '(_, j) ← dir_find (entries v x) e; resolve v sb parent j es
  end.

(** The directories of the disk: entries name inodes in use, with links. *)
Definition tree_ok (v : tview) (sb : superblock) : Prop := forall i x, 0 <= i < sb_ninodes sb -> disk_inode v sb i = Some x -> d_type x <> 0 ->
  inode_ok v sb x /\ (d_type x = T_DIR -> d_size x mod 16 = 0 /\
    forall k j nm, entries v x !! k = Some (j, nm) -> j <> 0 ->
      0 <= j < sb_ninodes sb /\ exists y, disk_inode v sb j = Some y /\ d_type y <> 0 /\ d_nlink y <> 0).

Lemma find_entry es nm : forall k j i, find_from es nm k = Some (j, i) -> i <> 0 /\ exists k', es !! k' = Some (i, nm).
Proof.
  induction es as [|e es IH]; intros k j i; simpl; [done|]. case_bool_decide as Hb.
  - intros [= <- <-]. destruct Hb as [H1 H2]. split; [done|]. exists 0%nat. destruct e. simpl in *. by subst.
  - intros Hf. destruct (IH _ _ _ Hf) as (H1 & k' & H2). split; [done|]. by exists (S k').
Qed.

Section namex.
Context {S : Type} `{TxStore S} (devsw : Z -> devops S).
Context (v : tview) (sb : superblock) (pid : Z) (cwd : nat).
Hypothesis (Hi : fs_inv v sb) (Hrd : ready v 2 0) (Hm : tv_mod v = ∅) (Hh : held_blocks v = ∅) (Hlg : (size (tv_log v) <= tv_cap v)%nat).
Hypothesis Htree : tree_ok v sb.
(** The references others hold, and the inodes they hold them to. *)
Context (R : Z -> Z) (B : gset Z).
Hypothesis (HB : forall j, R j <> 0 -> j ∈ B) (HR : forall j, 0 <= R j).

(** The state between two elements: nothing locked, and one reference of its
    own, to inode [i], if any. *)
Record at_inode (s : fs S) (i : option Z) : Prop := mk_at_inode {
  ai_at : tx_at (f_store s) v;
  ai_sb : f_sb s = sb;
  ai_pid : f_pid s = pid /\ f_cwd s = cwd;
  ai_ok : icache_ok v sb (f_icache s);
  ai_locks : unlocked (f_icache s);
  ai_refs : forall j, refs (f_icache s) j = R j + (if bool_decide (i = Some j) then 1 else 0);
  ai_room : (size B + 2 <= length (f_icache s))%nat
}.

Lemma live_bound l i : icache_ok v sb l -> (forall j, refs l j = R j + (if bool_decide (Some i = Some j) then 1 else 0)) -> (size (live l) <= size B + 1)%nat.
Proof using HB.
  intros Hc Hr. clear - HB Hc Hr. assert (Hsub : live l ⊆ {[i]} ∪ B).
  { intros j Hj. apply (refs_pos l j) in Hj; [|apply Hc]. rewrite Hr in Hj. case_bool_decide as E; [injection E as ->; set_solver|].
    apply elem_of_union_r, HB. lia. }
  apply subseteq_size in Hsub. pose proof (size_add_le i B). lia.
Qed.

(** [iunlockput] of the current inode. *)
Lemma iunlockput_spec s ip X (Q : unit -> fs S -> Prop) : icache_ok v sb (f_icache s) -> f_icache s !! ip = Some X -> 0 < i_ref X ->
  sl_locked (i_lock X) = true -> (i_valid X = true -> i_nlink X = 0 -> i_ref X <> 1) ->
  (forall l', icache_ok v sb l' -> (forall j, refs l' j = refs (f_icache s) j - (if j =? i_inum X then 1 else 0)) -> length l' = length (f_icache s) ->
     l' !! ip = Some (set_ref (i_ref X - 1) (set_ilock initsleeplock X)) -> (forall ip', ip' <> ip -> l' !! ip' = f_icache s !! ip') -> Q tt (set_icache l' s)) ->
  wp (iunlockput ip) s Q.
Proof.
  intros Hc HX Hr Hl Hk HQ. unfold iunlockput. wp_step. eapply iunlock_spec; [exact HX|lia|done|]. pose proof (lookup_lt_Some _ _ _ HX) as Hlt.
  set (X' := set_ilock initsleeplock X). destruct (relock_ok v sb (f_icache s) ip X X' Hc HX Hr eq_refl eq_refl eq_refl (ic_valid _ _ _ Hc ip X HX Hr)) as [Hc' Hr'].
  eapply (iput_keep (set_icache (<[ip := X']> (f_icache s)) s) v sb ip X'); [done|by apply list_lookup_insert_eq|done|done|done|].
  intros l' D. apply HQ; [apply D| | |apply D|].
  - intros j. rewrite (dr_refs _ _ _ _ _ _ D). simpl f_icache. by rewrite Hr'.
  - rewrite (dr_len _ _ _ _ _ _ D). apply length_insert.
  - intros ip' Hn. rewrite (dr_other _ _ _ _ _ _ D) by done. simpl. by rewrite list_lookup_insert_ne.
Qed.

(** The current inode: an entry of the cache, in use on disk; it stays when its
    reference is given back. *)
Record current (s : fs S) (ip : nat) (X : inode) (x : dinode) : Prop := mk_current {
  cu_at : at_inode s (Some (i_inum X));
  cu_ip : f_icache s !! ip = Some X;
  cu_ref : 0 < i_ref X;
  cu_disk : disk_inode v sb (i_inum X) = Some x;
  cu_type : d_type x <> 0;
  cu_keep : R (i_inum X) <> 0 \/ d_nlink x <> 0
}.
(** The state with that inode locked. *)
Definition lock_at (s : fs S) (ip : nat) (X : inode) (x : dinode) (t : S) : fs S :=
  set_icache (<[ip := locked X pid x]> (f_icache s)) (set_store t s).

Lemma current_lock s ip X x (Q : unit -> fs S -> Prop) : current s ip X x -> (forall t, tx_at t v -> Q tt (lock_at s ip X x t)) -> wp (ilock ip) s Q.
Proof.
  intros [A1 A2 A3 A4 A5 _] HQ. destruct A1 as [B1 B2 [B3 _] B4 B5 B6 B7]. unfold lock_at in HQ. rewrite <- B3 in HQ.
  eapply (ilock_load s v sb ip X x); try done. by apply (Forall_lookup_1 _ _ _ _ B5 A2).
Qed.
Lemma lock_at_ok s ip X x t : current s ip X x ->
  icache_ok v sb (f_icache (lock_at s ip X x t)) /\ (forall j, refs (f_icache (lock_at s ip X x t)) j = refs (f_icache s) j) /\
  f_icache (lock_at s ip X x t) !! ip = Some (locked X pid x) /\ length (f_icache (lock_at s ip X x t)) = length (f_icache s).
Proof.
  intros [A1 A2 A3 A4 A5 _]. destruct (relock_ok v sb (f_icache s) ip X (locked X pid x) (ai_ok _ _ A1) A2 A3 eq_refl eq_refl eq_refl ltac:(done)) as [H1 H2].
  split_and!; [done|done| |apply length_insert]. apply list_lookup_insert_eq. by eapply lookup_lt_Some.
Qed.
(** The count of the entry, for [iput]. *)
Lemma current_ref s ip X x : current s ip X x -> i_ref X = R (i_inum X) + 1.
Proof.
  intros [A1 A2 A3 _ _ _]. rewrite <- (refs_at v sb _ ip X (ai_ok _ _ A1) A2 A3), (ai_refs _ _ A1). by rewrite bool_decide_true.
Qed.

Lemma leave_spec s ip X x t (Q : unit -> fs S -> Prop) : current s ip X x -> tx_at t v ->
  (forall s', at_inode s' None -> Q tt s') -> wp (iunlockput ip) (lock_at s ip X x t) Q.
Proof.
  intros C Ht HQ. destruct (lock_at_ok s ip X x t C) as (H1 & H2 & H3 & H4). pose proof (current_ref s ip X x C) as Hr. pose proof (HR (i_inum X)).
  eapply (iunlockput_spec (lock_at s ip X x t) ip (locked X pid x)); [done|done|apply C|done| |].
  { intros _ Hn. cbn [i_ref locked]. destruct (cu_keep _ _ _ _ C) as [|Hk]; [lia|by destruct Hk]. }
  intros l' L1 L2 L3 L4 L5. apply HQ. destruct (cu_at _ _ _ _ C) as [A1 A2 A3 A4 A5 A6 A7]. split; simpl; try done; [| |lia].
  - apply Forall_lookup. intros j Y HY. destruct (decide (j = ip)) as [->|Hne]; [rewrite L4 in HY; by simplify_eq|].
    rewrite L5 in HY by done. simpl in HY. rewrite list_lookup_insert_ne in HY by done. by apply (Forall_lookup_1 _ _ _ _ A5 HY).
  - intros j. rewrite L2, H2, A6. cbn [i_inum locked]. case_bool_decide as E1; [injection E1 as ->; rewrite Z.eqb_refl|rewrite (proj2 (Z.eqb_neq j _)) by congruence]; lia.
Qed.

(** On to the next inode: its reference is taken before the lock and the
    reference of the current one are given up, which may be the same inode. *)
Lemma next_spec s ip X x t j y ip2 l2 (Q : unit -> fs S -> Prop) : current s ip X x -> tx_at t v ->
  got v sb (f_icache (lock_at s ip X x t)) j ip2 l2 -> disk_inode v sb j = Some y -> d_type y <> 0 -> d_nlink y <> 0 ->
  (forall s' X2, current s' ip2 X2 y -> i_inum X2 = j -> Q tt s') -> wp (iunlockput ip) (set_icache l2 (lock_at s ip X x t)) Q.
Proof.
  intros C Ht G Hy Hty Hnl HQ. destruct (lock_at_ok s ip X x t C) as (H1 & H2 & H3 & H4). pose proof (current_ref s ip X x C) as Hr. pose proof (HR (i_inum X)) as HRi.
  destruct (got_at _ _ _ _ _ _ G) as (Y & Y' & HY & HY' & Ej & _ & Hr' & Hlk & Hv & Hsame). destruct (cu_at _ _ _ _ C) as [A1 A2 A3 A4 A5 A6 A7].
  assert (Hip : exists Z, l2 !! ip = Some Z /\ i_inum Z = i_inum X /\ sl_locked (i_lock Z) = true /\ 0 < i_ref Z /\
    (i_valid Z = true -> i_nlink Z = 0 -> i_ref Z <> 1) /\ (ip = ip2 -> Z = Y' /\ 1 < i_ref Z)).
  { destruct (decide (ip = ip2)) as [<-|Hne].
    - rewrite H3 in HY. injection HY as <-. exists Y'. assert (Ex : j = i_inum X) by (symmetry; apply Hsame, (cu_ref _ _ _ _ C)).
      pose proof (refs_at v sb l2 ip Y' (got_ok _ _ _ _ _ _ G) HY' Hr') as Hra. rewrite (got_refs _ _ _ _ _ _ G), Ej, Z.eqb_refl, H2, A6, Ex, bool_decide_true in Hra by done.
      split_and!; [done|congruence|by rewrite Hlk|done|intros Hv' _; specialize (Hv Hv'); lia|intros _; split; [done|lia]].
    - exists (locked X pid x). rewrite (got_other _ _ _ _ _ _ G) by done. split_and!; [done|done|done|apply C| |done].
      intros _ Hn. cbn [i_ref locked]. destruct (cu_keep _ _ _ _ C) as [|Hk]; [lia|by destruct Hk]. }
  destruct Hip as (Z & HZ & EZ & HlZ & HrZ & HkZ & HsZ).
  eapply (iunlockput_spec (set_icache l2 (lock_at s ip X x t)) ip Z); [apply G|done|done|done|done|].
  simpl f_icache. intros l' L1 L2 L3 L4 L5.
  assert (Hat : exists X2, l' !! ip2 = Some X2 /\ i_inum X2 = j /\ 0 < i_ref X2).
  { destruct (decide (ip = ip2)) as [<-|Hne].
    - destruct (HsZ eq_refl) as [-> Hz]. rewrite L4. eexists. split; [done|]. simpl. split; [done|lia].
    - rewrite L5 by done. by exists Y'. }
  destruct Hat as (X2 & HX2 & E2 & Hr2). apply (HQ _ X2); [|done]. split; [|done|done|by rewrite E2|done|by right].
  split; simpl; try done; [| |rewrite L3, (got_len _ _ _ _ _ _ G); lia].
  - apply Forall_lookup. intros k W HW. destruct (decide (k = ip)) as [->|Hne]; [rewrite L4 in HW; by simplify_eq|]. rewrite L5 in HW by done.
    destruct (decide (k = ip2)) as [->|Hne2].
    + rewrite HY' in HW. injection HW as <-. rewrite Hlk. simpl in HY. rewrite list_lookup_insert_ne in HY by done. by apply (Forall_lookup_1 _ _ _ _ A5 HY).
    + rewrite (got_other _ _ _ _ _ _ G) in HW by done. simpl in HW. rewrite list_lookup_insert_ne in HW by done. by apply (Forall_lookup_1 _ _ _ _ A5 HW).
  - intros k. rewrite L2, (got_refs _ _ _ _ _ _ G), H2, A6, EZ, E2.
    destruct (Z.eqb_spec k j), (Z.eqb_spec k (i_inum X)); repeat case_bool_decide; try congruence; lia.
Qed.

Lemma put_spec s ip X x (Q : unit -> fs S -> Prop) : current s ip X x -> (forall s', at_inode s' None -> Q tt s') -> wp (iput ip) s Q.
Proof.
  intros C HQ. pose proof (current_ref s ip X x C) as Hr. pose proof (HR (i_inum X)). destruct C as [[A1 A2 A3 A4 A5 A6 A7] C2 C3 C4 C5 C6].
  pose proof (Forall_lookup_1 _ _ _ _ A5 C2) as Hl. eapply (iput_keep s v sb ip X); [done|done|done|done| |].
  { intros Hv Hnl. destruct C6 as [|Hk]; [lia|]. destruct Hk. pose proof (ic_valid _ _ _ A4 ip X C2 C3 Hv) as Hx. rewrite C4 in Hx. by injection Hx as ->. }
  intros l' D. apply HQ. split; simpl; try done; [apply D| | |by rewrite (dr_len _ _ _ _ _ _ D)].
  - apply Forall_lookup. intros j Y HY. destruct (decide (j = ip)) as [->|Hne]; [rewrite (dr_at _ _ _ _ _ _ D) in HY; by simplify_eq|].
    rewrite (dr_other _ _ _ _ _ _ D) in HY by done. by apply (Forall_lookup_1 _ _ _ _ A5 HY).
  - intros j. rewrite (dr_refs _ _ _ _ _ _ D), A6. destruct (Z.eqb_spec j (i_inum X)); repeat case_bool_decide; try congruence; lia.
Qed.

Lemma unlock_spec s ip X x t (Q : unit -> fs S -> Prop) : current s ip X x -> tx_at t v ->
  (forall s' Y, at_inode s' (Some (i_inum X)) -> f_icache s' !! ip = Some Y -> i_inum Y = i_inum X -> 0 < i_ref Y -> Q tt s') ->
  wp (iunlock ip) (lock_at s ip X x t) Q.
Proof.
  intros C Ht HQ. destruct (lock_at_ok s ip X x t C) as (H1 & H2 & H3 & H4). pose proof (lookup_lt_Some _ _ _ H3) as Hlt. pose proof (cu_ref _ _ _ _ C) as Hr.
  eapply (iunlock_spec (lock_at s ip X x t) ip (locked X pid x)); [exact H3|simpl; lia|done|].
  set (Y := set_ilock initsleeplock (locked X pid x)).
  destruct (relock_ok v sb _ ip (locked X pid x) Y H1 H3 Hr eq_refl eq_refl eq_refl ltac:(intros _; apply C)) as [L1 L2].
  apply (HQ _ Y); [|by apply list_lookup_insert_eq|done|done]. destruct (cu_at _ _ _ _ C) as [A1 A2 A3 A4 A5 A6 A7]. split; cbn [f_store f_sb f_pid f_cwd f_icache set_icache]; try done.
  - apply Forall_lookup. intros j Z HZ. destruct (decide (j = ip)) as [->|Hne].
    + rewrite list_lookup_insert_eq in HZ by done. by simplify_eq.
    + rewrite list_lookup_insert_ne in HZ by done. simpl in HZ. rewrite list_lookup_insert_ne in HZ by done. by apply (Forall_lookup_1 _ _ _ _ A5 HZ).
  - intros j. by rewrite L2, H2, A6.
  - rewrite length_insert, H4. done.
Qed.

(** The current inode as a directory to look into. *)
Lemma current_dir s ip X x t : current s ip X x -> tx_at t v -> d_type x = T_DIR -> dir_pre (lock_at s ip X x t) v sb ip (locked X pid x).
Proof.
  intros C Ht Hd. destruct (lock_at_ok s ip X x t C) as (H1 & H2 & H3 & H4). destruct (cu_at _ _ _ _ C) as [A1 A2 A3 A4 A5 A6 A7].
  destruct (ic_inode _ _ _ A4 ip X (cu_ip _ _ _ _ C) (cu_ref _ _ _ _ C)) as [Hdev Hin]. destruct (Htree _ _ Hin (cu_disk _ _ _ _ C) (cu_type _ _ _ _ C)) as [Hok Hdir].
  split; [by split|done|]. by apply Hdir.
Qed.

Lemma namex_walk_spec parent fuel : forall s ip X x path name (Q : option nat * list Z -> fs S -> Prop),
  current s ip X x -> Forall (fun c => c <> 0 /\ is_byte c) path -> length name = 14%nat -> Forall is_byte name -> (length path < fuel)%nat ->
  match resolve v sb parent (i_inum X) (elems path) with
  | None => forall s' name', at_inode s' None -> Q (None, name') s'
  | Some j => forall s' ip' Y name', at_inode s' (Some j) -> f_icache s' !! ip' = Some Y -> i_inum Y = j -> 0 < i_ref Y ->
      (parent = true -> cstr 14 name' = List.last (elems path) [] /\ Forall is_byte name') -> Q (Some ip', name') s'
  end -> wp (namex_walk devsw fuel ip path name parent) s Q.
Proof.
  induction fuel as [|fuel IH]; intros s ip X x path name Q C Hp Hn Hb Hf HQ; [lia|]. cbn [namex_walk].
  pose proof (skipelem_spec path name Hp Hn Hb) as Hs. destruct (skipelem path name) as [[path' name']|].
  2: { rewrite Hs in HQ. simpl in HQ. destruct parent.
       - wp_step. apply (put_spec s ip X x); [done|]. intros s' A. wp_step. by apply HQ.
       - wp_step. apply (HQ s ip X); (done || apply C). }
  destruct Hs as (e & Ees & Ee & Hn' & Hb' & Hlen & Hp' & Hnil). rewrite Ees in HQ. cbn [resolve] in HQ.
  rewrite (cu_disk _ _ _ _ C) in HQ. cbn [mbind option_bind] in HQ.
  wp_step. apply (current_lock s ip X x); [done|]. intros t Ht. destruct (lock_at_ok s ip X x t C) as (H1 & H2 & H3 & H4).
  wp_step. eapply wp_get_ip; [exact H3|]. change (i_type (locked X pid x)) with (d_type x).
  destruct (Z.eqb_spec (d_type x) T_DIR) as [Hd|Hd]; cbn [negb] in *.
  2: { wp_step. apply (leave_spec s ip X x t); [done|done|]. intros s' A. wp_step. by apply HQ. }
  replace (bool_decide (path' = [])) with (bool_decide (elems path' = [])) by (apply bool_decide_ext; by symmetry).
  destruct (parent && bool_decide (elems path' = [])) eqn:Estop.
  { apply andb_true_iff in Estop as [-> E0%bool_decide_eq_true]. wp_step. apply (unlock_spec s ip X x t); [done|done|].
    intros s' Y A HY EY HrY. wp_step. apply (HQ s' ip Y); [done|done|done|done|]. intros _. split; [by rewrite E0|done]. }
  wp_step. apply (dirlookup_spec devsw _ sb ip (locked X pid x) v (current_dir s ip X x t C Ht Hd)); [done|]. intros t1 Ht1.
  cbn [i_din locked]. rewrite Ee. change (set_store t1 (lock_at s ip X x t)) with (lock_at s ip X x t1).
  destruct (dir_find (entries v x) e) as [[k j]|] eqn:Ef; cbn [mbind option_bind] in HQ.
  2: { wp_step. apply (leave_spec s ip X x t1); [done|done|]. intros s' A. wp_step. by apply HQ. }
  destruct (find_entry _ _ _ _ _ Ef) as (Hj & k' & Hk').
  pose proof (cu_at _ _ _ _ C) as A. destruct (ic_inode _ _ _ (ai_ok _ _ A) ip X (cu_ip _ _ _ _ C) (cu_ref _ _ _ _ C)) as [_ Hin].
  destruct (Htree _ _ Hin (cu_disk _ _ _ _ C) (cu_type _ _ _ _ C)) as [_ Hdir]. destruct (Hdir Hd) as [_ Hent]. destruct (Hent k' j e Hk' Hj) as (Hjr & y & Hy & Hty & Hnl).
  destruct (lock_at_ok s ip X x t1 C) as (G1 & G2 & G3 & G4). apply (iget_spec _ v sb j); [done|done| |].
  { pose proof (live_bound _ (i_inum X) G1) as Hlb. rewrite G4. pose proof (ai_room _ _ A). apply Nat.le_lt_trans with (size B + 1)%nat; [|lia].
    apply Hlb. intros i. by rewrite G2, (ai_refs _ _ A). }
  intros ip2 l2 G. wp_step. eapply (next_spec s ip X x t1 j y ip2 l2); try done. intros s' X2 C2 E2.
  eapply (IH s' ip2 X2 y); [done|done|done|done|lia|]. rewrite E2. destruct (resolve v sb parent j (elems path')) as [r|]; [|done].
  intros s2 ip3 Y nm A2 HY EY HrY Hnm. apply (HQ s2 ip3 Y nm); [done|done|done|done|]. intros ->. destruct (Hnm eq_refl) as [-> Hnb]. split; [|done].
  simpl in Estop. apply bool_decide_eq_false in Estop. by destruct (elems path').
Qed.
End namex.
