(* ===== verification/FsNames.v ===== *)
(** * Directories and paths: the theorems

    [dirlink] adds one name to a directory, [namex] follows a path through the
    directories; both at a small tree, a root directory with the entries [.]
    and [f].  [dirlink] of a name that stands for the directory itself never
    returns. *)

From S2P Require Import Prelude Sleeplock Bio Log LogSpec BlockStore Fs FsBlocks FsInode FsFile FsWrite FsDemo FsIcache FsDir FsPath.

#[local] Opaque BLK.

(** ** [dirlink] *)

(** The inode number of a name. *)
Definition dir_inum (es : list dirent) (nm : list Z) : option Z := snd <$> dir_find es nm.

(** [dirlink] adds a name: if the directory has no entry of that name, it
    returns 0, the name then stands for the inode number given and every other
    name for what it stood for before; the directory stays well formed, its
    inode on disk follows, and no other inode on disk changes.  If the name is
    there already and stands for another inode, it returns -1, changes no
    block and gives back the reference it took. *)
Theorem dirlink_correct {S} `{TxStore S} (devsw : Z -> devops S) (s : fs S) v sb dp X name inum :
  dir_pre s v sb dp X -> Forall is_byte name -> 0 < inum < 2 ^ 16 -> i_size X + 16 <= MAXFILE * BLK -> 0 <= i_inum X < sb_ninodes sb ->
  din_range (i_din X) -> room v sb 3 -> (2 <= size (free_blocks v sb))%nat ->
  icache_ok v sb (f_icache s) -> 0 < i_ref X -> (size (live (f_icache s)) < length (f_icache s))%nat ->
  (forall ip Y, ip <> dp -> f_icache s !! ip = Some Y -> i_lock Y = initsleeplock) ->
  (forall i, dir_inum (entries v (i_din X)) (cstr 14 name) = Some i -> i <> i_inum X /\ 0 <= i < sb_ninodes sb) ->
  wp (dirlink devsw dp name inum) s (fun r s' => exists t v', tx_at t v' /\
    match dir_inum (entries v (i_din X)) (cstr 14 name) with
    | None => r = 0 /\ exists x', s' = at_ip s dp t x' /\ inode_ok v' sb x' /\
        (forall n, dir_inum (entries v' x') n = if bool_decide (n = cstr 14 name) then Some inum else dir_inum (entries v (i_din X)) n) /\
        (disk_inode v sb (i_inum X) = Some (i_din X) -> disk_inode v' sb (i_inum X) = Some x') /\
        (forall i, 0 <= i < sb_ninodes sb -> i <> i_inum X -> disk_inode v' sb i = disk_inode v sb i)
    | Some _ => r = -1 /\ v' = v /\ exists l', s' = set_icache l' (set_store t s) /\ icache_ok v sb l' /\ forall k, refs l' k = refs (f_icache s) k
    end).
Proof.
  intros P Hn Hi Hmax Hin Hr Hroom Hfree Hc Href Hlive Hlk Hother. unfold dir_inum in *.
  destruct (dir_find (entries v (i_din X)) (cstr 14 name)) as [[j i]|] eqn:Ef; cbn [fmap option_fmap option_map snd] in *.
  - destruct (Hother i eq_refl) as [Hne Hir]. eapply (dirlink_present devsw s sb dp X v P name inum j i); try done.
    intros t l' Ht Hc' Hrefs. exists t, v. split; [done|]. split; [done|]. split; [done|]. by exists l'.
  - eapply (dirlink_new devsw s sb dp X v P name inum); try done. intros t v' x' k de Ht _ _ _ W Ees. exists t, v'. split; [done|]. split; [done|].
    exists x'. split_and!; [done|apply W| |apply (wn_here _ _ _ _ _ _ _ _ W)|apply (wn_other _ _ _ _ _ _ _ _ W)].
    intros n. rewrite Ees. unfold dir_find. rewrite (find_put (entries v (i_din X)) inum (cstr 14 name) n 0 ltac:(lia) Ef). by case_bool_decide.
Qed.

(** C38.  [dirlink] deadlocks on the directory's own name.  The caller holds the
    lock of the directory; when the name stands for the directory itself, as
    [.] does, the inode that the lookup returns is the locked one, and the
    [iput] that gives it back waits for the lock for ever.  [sys_link], unlike
    [sys_unlink], does not refuse such a name. *)
Theorem dirlink_dot_deadlocks {S} `{TxStore S} (devsw : Z -> devops S) (s : fs S) v sb dp X name inum :
  dir_pre s v sb dp X -> Forall is_byte name -> sl_locked (i_lock X) = true ->
  icache_ok v sb (f_icache s) -> 0 < i_ref X -> (size (live (f_icache s)) < length (f_icache s))%nat ->
  dir_inum (entries v (i_din X)) (cstr 14 name) = Some (i_inum X) ->
  dirlink devsw dp name inum s = Sleep "sleep lock".
Proof.
  intros P Hn Hl Hc Hr Hs Hd. unfold dir_inum in Hd. destruct (dir_find (entries v (i_din X)) (cstr 14 name)) as [[j i]|] eqn:Ef; [|done].
  simpl in Hd. injection Hd as ->. by eapply (dirlink_self devsw s sb dp X v P name inum j).
Qed.

(** ** [namei] and [nameiparent] *)

(** What path lookup starts from: a mounted file system with a tree of
    directories, no inode locked, room for two more entries in the cache, the
    root in use, and the current directory of the process in the cache. *)
Record path_pre {S} `{TxStore S} (s : fs S) (v : tview) (sb : superblock) (C : inode) : Prop := mk_path_pre {
  pp_at : tx_at (f_store s) v;
  pp_sb : f_sb s = sb;
  pp_inv : fs_inv v sb;
  pp_mod : tv_mod v = ∅;
  pp_held : held_blocks v = ∅;
  pp_log : (size (tv_log v) <= tv_cap v)%nat;
  pp_tree : tree_ok v sb;
  pp_ok : icache_ok v sb (f_icache s);
  pp_locks : unlocked (f_icache s);
  pp_room : (size (live (f_icache s)) + 2 <= length (f_icache s))%nat;
  pp_root : ROOTINO < sb_ninodes sb /\ exists x, disk_inode v sb ROOTINO = Some x /\ d_type x <> 0 /\ d_nlink x <> 0;
  pp_cwd : f_icache s !! f_cwd s = Some C /\ 0 < i_ref C;
  pp_cwd_used : exists x, disk_inode v sb (i_inum C) = Some x /\ d_type x <> 0
}.

(** The entry [ip] stands for inode [i], and is the one new reference. *)
Record found {S} `{TxStore S} (s : fs S) (v : tview) (sb : superblock) (i : option Z) (r : option nat) (s' : fs S) : Prop := mk_found {
  fo_at : tx_at (f_store s') v;
  fo_same : f_sb s' = f_sb s /\ f_pid s' = f_pid s /\ f_cwd s' = f_cwd s;
  fo_ok : icache_ok v sb (f_icache s');
  fo_locks : unlocked (f_icache s');
  fo_refs : forall j, refs (f_icache s') j = refs (f_icache s) j + (if bool_decide (i = Some j) then 1 else 0);
  fo_room : (size (live (f_icache s)) + 2 <= length (f_icache s'))%nat;
  fo_entry : match i with
    | None => r = None
    | Some j => exists ip Y, r = Some ip /\ f_icache s' !! ip = Some Y /\ i_inum Y = j /\ 0 < i_ref Y
    end
}.

Lemma namex_spec {S} `{TxStore S} (devsw : Z -> devops S) (s : fs S) v sb C path parent name :
  path_pre s v sb C -> Forall (fun c => c <> 0 /\ is_byte c) path -> length name = 14%nat -> Forall is_byte name ->
  let start := if bool_decide (head path = Some SLASH) then ROOTINO else i_inum C in
  let res := resolve v sb parent start (elems path) in
  wp (namex devsw path parent name) s (fun r s' => found s v sb res r.1 s' /\
    (parent = true -> res <> None -> cstr 14 r.2 = List.last (elems path) [] /\ Forall is_byte r.2)).
Proof.
  intros P Hp Hn Hb start res. destruct P as [P1 P2 P3 P4 P5 P6 P7 P8 P9 P10 (R0 & xr & R1 & R2 & R3) [C1 C2] (xc & K1 & K2)].
  assert (Hrd : ready v 2 0) by (repeat split; [done|rewrite P5, size_empty; lia|lia]).
  set (R := refs (f_icache s)). assert (HR : forall j, 0 <= R j) by (intros j; apply refs_pos, P8).
  assert (HB : forall j, R j <> 0 -> j ∈ live (f_icache s)) by (intros j Hj; by apply (refs_pos (f_icache s) j (ic_ref _ _ _ P8))).
  unfold namex. wp_step. wp_step. wp_step.
  assert (Hgo : forall l' ip x, got v sb (f_icache s) start ip l' -> disk_inode v sb start = Some x -> d_type x <> 0 -> (R start <> 0 \/ d_nlink x <> 0) ->
    wp (namex_walk devsw (length path + 1) ip path name parent) (set_icache l' s) (fun r s' => found s v sb res r.1 s' /\
      (parent = true -> res <> None -> cstr 14 r.2 = List.last (elems path) [] /\ Forall is_byte r.2))).
  { intros l' ip x G Hx Hty Hk. destruct (got_at _ _ _ _ _ _ G) as (Y & Y' & HY & HY' & EY & _ & HrY & _).
    eapply (namex_walk_spec devsw v sb (f_pid s) (f_cwd s) P3 Hrd P4 P5 P6 P7 R (live (f_icache s)) HB HR parent _ _ ip Y' x); try done; [|lia|].
    - split; try done; [|by rewrite EY..]. split; simpl; try done; [apply G|by apply G| |rewrite (got_len _ _ _ _ _ _ G); done].
      intros j. rewrite (got_refs _ _ _ _ _ _ G), EY. unfold R. destruct (Z.eqb_spec j start); case_bool_decide; try congruence; done.
    - rewrite EY. fold res. destruct res as [r|] eqn:Er.
      + intros s' ip' Z nm [A1 A2 A3 A4 A5 A6 A7] HZ EZ HrZ Hnm. split; [|by auto]. split; try done; [split; [congruence|exact A3]|]. by exists ip', Z.
      + intros s' nm [A1 A2 A3 A4 A5 A6 A7]. split; [split; try done; split; [congruence|exact A3]|done]. }
  unfold start in *. case_bool_decide.
  - apply (iget_spec s v sb ROOTINO); [done|by split|lia|].
    intros ip l' G. by apply (Hgo l' ip xr); auto.
  - eapply (idup_spec s v sb (f_cwd s) C); [done|done|done|]. intros l' G. apply (Hgo l' _ xc); [done|done|done|]. left.
    unfold R. rewrite (refs_at v sb _ _ _ P8 C1 C2). lia.
Qed.

(** C9.  Paths are looked up in the directories of the disk, when no inode is
    locked and the inode cache has two spare entries ([path_pre]): from the root
    for a path that starts with a slash, otherwise from the current directory,
    [namex] returns the inode that the names of the path lead to (with [parent],
    the directory of the last name, which it copies to [name]), and null exactly
    if a name is missing or leads through something that is not a directory. It
    changes no block, leaves no inode locked, and the only reference it keeps is
    that of the inode returned. *)
Theorem namex_correct {S} `{TxStore S} (devsw : Z -> devops S) (s : fs S) v sb C path parent name :
  path_pre s v sb C -> Forall (fun c => c <> 0 /\ is_byte c) path -> length name = 14%nat -> Forall is_byte name ->
  let start := if bool_decide (head path = Some SLASH) then ROOTINO else i_inum C in
  let res := resolve v sb parent start (elems path) in
  wp (namex devsw path parent name) s (fun r s' => found s v sb res r.1 s' /\
    (parent = true -> res <> None -> cstr 14 r.2 = List.last (elems path) [])).
Proof.
  intros P Hp Hn Hb start res. eapply wp_mono; [by apply (namex_spec devsw s v sb C)|]. intros r s' [F Hr]. split; [exact F|]. intros H1 H2. by apply Hr.
Qed.

(** ** A small tree *)

(** Block 25 holds the root directory, with the entries [.] and [f]. *)
Definition tree_dir : dinode := mkdinode T_DIR 0 0 1 32 (<[0%nat := 25]> no_addrs).
Definition tree_entries : block := splice 0 (mkdirent 1 (strncpy 14 [46]) ++ mkdirent 2 (strncpy 14 [102])) zeros.
Definition tree_inodes : block := splice 128 (enc_dinode demo_file) (splice 64 (enc_dinode tree_dir) zeros).
Definition tree_map : block := splice 0 [255; 255; 255; 3] zeros.
Definition tree_data : list block := demo_data :: tree_entries :: replicate 14 zeros.
Definition tree_disk : list block := disk_of tree_inodes tree_map tree_data.
Definition tree_view : tview := view_of tree_disk.
Definition tree_root (lk : sleeplock) : inode := mkinode ROOTDEV 1 1 lk true tree_dir.
Definition no_inode : dinode := mkdinode 0 0 0 0 0 no_addrs.
Definition tree_icache (lk : sleeplock) : list inode := tree_root lk :: replicate 49 (mkinode 0 0 0 initsleeplock false no_inode).
Definition tree_fs (lk : sleeplock) : fs tview := mkfs tree_view demo_sb (tree_icache lk) 1 0.

Lemma tree_kinds d : d ∈ tree_data -> d ∈ [demo_data; tree_entries; zeros].
Proof. unfold tree_data. rewrite !elem_of_cons, elem_of_replicate. set_solver. Qed.
Lemma tree_good : forallb block_good [demo_sb_block; zeros; tree_inodes; tree_map; demo_data; tree_entries; zeros] = true.
Proof. by vm_compute. Qed.
Lemma tree_used_all : forallb (fun b => Bool.eqb (used tree_view demo_sb b) (b <? 26)) (seqZ 0 40) = true.
Proof. by vm_compute. Qed.
Lemma tree_at : tx_at tree_view tree_view.
Proof. split; [done|]. apply (view_ok tree_inodes tree_map tree_data [demo_data; tree_entries; zeros] eq_refl tree_kinds tree_good). Qed.
Lemma tree_inv : fs_inv tree_view demo_sb.
Proof. apply (view_inv tree_inodes tree_map tree_data eq_refl 26 tree_used_all). lia. Qed.
Lemma tree_used b : 0 <= b < 40 -> used tree_view demo_sb b = (b <? 26).
Proof. apply (view_used tree_inodes tree_map tree_data 26 tree_used_all). Qed.

Lemma tree_inode i : 0 <= i < 8 -> disk_inode tree_view demo_sb i = Some (if i =? 1 then tree_dir else if i =? 2 then demo_file else no_inode).
Proof.
  intros Hi. unfold disk_inode. assert (E : tv_blk tree_view !! IBLOCK i demo_sb = Some tree_inodes).
  { apply blocks_of_Some. assert (IBLOCK i demo_sb = 22) as ->; [|split_and!; [lia|done|lia]]. unfold IBLOCK, IPB. rewrite Z.div_small by lia. done. }
  rewrite E. assert (i = 0 \/ i = 1 \/ i = 2 \/ i = 3 \/ i = 4 \/ i = 5 \/ i = 6 \/ i = 7) as Hin by lia.
  destruct Hin as [->|[->|[->|[->|[->|[->|[->| ->]]]]]]]; by vm_compute.
Qed.
Lemma tree_dir_ok : inode_ok tree_view demo_sb tree_dir.
Proof. apply one_block_ok; [apply tree_inv|lia| |done]. intros _. split; [by vm_compute|]. by rewrite tree_used. Qed.
Lemma tree_file_ok : inode_ok tree_view demo_sb demo_file.
Proof. apply one_block_ok; [apply tree_inv|lia| |done]. intros _. split; [by vm_compute|]. by rewrite tree_used. Qed.
Lemma tree_names : entries tree_view tree_dir = [(1, [46]); (2, [102])].
Proof. by vm_compute. Qed.
Lemma tree_tree : tree_ok tree_view demo_sb.
Proof.
  intros i x Hi. change (sb_ninodes demo_sb) with 8 in *. rewrite tree_inode by done. intros [= <-] Hty.
  destruct (Z.eqb_spec i 1); [|destruct (Z.eqb_spec i 2); [|done]].
  - split; [apply tree_dir_ok|]. intros _. split; [done|]. rewrite tree_names. intros [|[|k]] j nm Hk Hj; simplify_eq/=.
    + split; [lia|]. rewrite tree_inode by lia. by eexists.
    + split; [lia|]. rewrite tree_inode by lia. by eexists.
  - split; [apply tree_file_ok|done].
Qed.
Lemma tree_icache_ok lk : icache_ok tree_view demo_sb (tree_icache lk).
Proof.
  assert (Hc : forall ip X, tree_icache lk !! ip = Some X -> (ip = 0%nat /\ X = tree_root lk) \/ i_ref X = 0).
  { unfold tree_icache. intros [|ip] X HX; cbn [lookup list_lookup] in HX; [left; by injection HX as <-|]. right. by apply lookup_replicate in HX as [-> _]. }
  split.
  - intros ip X [[-> ->]| ->]%Hc; simpl; lia.
  - intros ip X [[-> ->]|E]%Hc Hr; [|lia]. split; [done|]. simpl. lia.
  - intros a b A B [[-> ->]|E]%Hc [[-> ->]|E']%Hc Ha Hb _; (done || lia).
  - intros ip X [[-> ->]|E]%Hc Hr _; [|lia]. by apply tree_inode.
Qed.
Lemma tree_live lk : (size (live (tree_icache lk)) + 2 <= length (tree_icache lk))%nat.
Proof. apply Nat.leb_le. by vm_compute. Qed.

Lemma tree_log : (size (tv_log tree_view) <= tv_cap tree_view)%nat.
Proof. change (tv_log tree_view) with (∅ : gset Z). rewrite size_empty. simpl. lia. Qed.
Lemma tree_path_pre : path_pre (tree_fs initsleeplock) tree_view demo_sb (tree_root initsleeplock).
Proof.
  split; [apply tree_at|reflexivity|apply tree_inv|reflexivity|reflexivity|apply tree_log|apply tree_tree|apply tree_icache_ok| |apply tree_live| |split; reflexivity|].
  - unfold unlocked. constructor; [done|]. by apply Forall_replicate.
  - split; [reflexivity|]. exists tree_dir. split; [by apply tree_inode|done].
  - exists tree_dir. split; [by apply tree_inode|done].
Qed.

(** The path [/./f]. *)
Lemma namex_correct_witness :
  wp (namex no_devices [47; 46; 47; 102] false (replicate 14 0)) (tree_fs initsleeplock) (fun r s' =>
    found (tree_fs initsleeplock) tree_view demo_sb (Some 2) r.1 s' /\ (false = true -> Some 2 <> None -> cstr 14 r.2 = List.last (elems [47; 46; 47; 102]) [])).
Proof.
  exact (namex_correct no_devices (tree_fs initsleeplock) tree_view demo_sb (tree_root initsleeplock) [47; 46; 47; 102] false (replicate 14 0)
    tree_path_pre ltac:(repeat constructor; done) eq_refl (zeros_bytes 14)).
Defined.

(** The root directory, locked by the process. *)
Definition held_lock : sleeplock := mksleeplock true 1.
Lemma tree_dir_pre : dir_pre (tree_fs held_lock) tree_view demo_sb 0 (tree_root held_lock).
Proof.
  split; [|reflexivity|reflexivity].
  split; [apply tree_at|reflexivity|apply tree_inv|reflexivity|reflexivity|apply tree_log|reflexivity|reflexivity|apply tree_dir_ok].
Qed.
Lemma tree_live1 lk : (size (live (tree_icache lk)) < length (tree_icache lk))%nat.
Proof. pose proof (tree_live lk). lia. Qed.

(** The new name [g] for the file. *)
Lemma dirlink_correct_witness :
  dir_inum (entries tree_view tree_dir) (cstr 14 [103]) = None /\
  wp (dirlink no_devices 0 [103] 2) (tree_fs held_lock) (fun r s' => exists t v', tx_at t v' /\
    match dir_inum (entries tree_view tree_dir) (cstr 14 [103]) with
    | None => r = 0 /\ exists x', s' = at_ip (tree_fs held_lock) 0 t x' /\ inode_ok v' demo_sb x' /\
        (forall n, dir_inum (entries v' x') n = if bool_decide (n = cstr 14 [103]) then Some 2 else dir_inum (entries tree_view tree_dir) n) /\
        (disk_inode tree_view demo_sb 1 = Some tree_dir -> disk_inode v' demo_sb 1 = Some x') /\
        (forall i, 0 <= i < 8 -> i <> 1 -> disk_inode v' demo_sb i = disk_inode tree_view demo_sb i)
    | Some _ => r = -1 /\ v' = tree_view /\ exists l', s' = set_icache l' (set_store t (tree_fs held_lock)) /\
        icache_ok tree_view demo_sb l' /\ forall k, refs l' k = refs (tree_icache held_lock) k
    end).
Proof.
  split; [by rewrite tree_names|].
  apply (dirlink_correct no_devices (tree_fs held_lock) tree_view demo_sb 0 (tree_root held_lock) [103] 2 tree_dir_pre).
  - apply Forall_singleton. unfold is_byte. lia.
  - lia.
  - done.
  - split; done.
  - unfold din_range, short. simpl. split_and!; try lia; try done. repeat constructor; lia.
  - apply view_room. lia.
  - change (tree_view) with (view_of (disk_of tree_inodes tree_map tree_data)). rewrite (view_free tree_inodes tree_map tree_data 26 tree_used_all) by lia. simpl. lia.
  - apply tree_icache_ok.
  - done.
  - apply tree_live1.
  - intros [|ip] Y Hn HY; [done|]. cbn [f_icache tree_fs tree_icache lookup list_lookup] in HY. by apply lookup_replicate in HY as [-> _].
  - cbn [i_din tree_root]. rewrite tree_names. intros i Hi. done.
Defined.

Lemma dirlink_dot_deadlocks_witness : dir_inum (entries tree_view tree_dir) (cstr 14 [46]) = Some 1 /\
  dirlink no_devices 0 [46] 2 (tree_fs held_lock) = Sleep "sleep lock".
Proof.
  split; [by rewrite tree_names|].
  apply (dirlink_dot_deadlocks no_devices (tree_fs held_lock) tree_view demo_sb 0 (tree_root held_lock) [46] 2 tree_dir_pre).
  - apply Forall_singleton. unfold is_byte. lia.
  - done.
  - apply tree_icache_ok.
  - done.
  - apply tree_live1.
  - cbn [i_din tree_root]. by rewrite tree_names.
Defined.
