(* ===== verification/FsTree.v ===== *)
(** * The directory tree when it grows

    What making a file does to the directories: a new inode, and a new name for
    it in one directory.  Paths that were found are found as before, and the
    new path is found now ([grows_new], [grows_kept]).  The steps that make a
    file keep the file system as [FsCheck.v] has it ([mounted]). *)

From S2P Require Import Prelude Sleeplock Bio Log LogSpec BlockStore Fs FsBlocks FsInode FsFile FsWrite FsIcache FsFree FsCheck FsDir FsPath FsNames.

#[local] Opaque BLK.

(** ** The tree *)

(** [v'] is [v] with the name [e] for inode [j] in directory [d]. *)
Definition grows (sb : superblock) (d : Z) (e : list Z) (j : Z) (v v' : tview) : Prop :=
  forall i x, 0 <= i < sb_ninodes sb -> disk_inode v sb i = Some x -> d_type x = T_DIR -> exists x', disk_inode v' sb i = Some x' /\ d_type x' = T_DIR /\
    forall nm, dir_inum (entries v' x') nm = if bool_decide (i = d /\ nm = e) then Some j else dir_inum (entries v x) nm.

(** A step of the walk. *)
Lemma resolve_step v sb parent i e es : resolve v sb parent i (e :: es) =
  x ← disk_inode v sb i; if negb (d_type x =? T_DIR) then None else if parent && bool_decide (es = []) then Some i
  else j ← dir_inum (entries v x) e; resolve v sb parent j es.
Proof. cbn [resolve]. destruct (disk_inode v sb i); [|done]. simpl. repeat case_match; try done; unfold dir_inum; by destruct (dir_find _ e) as [[]|]. Qed.

(** The inode a name in a directory stands for has a link. *)
Definition linked (v : tview) (sb : superblock) (i : Z) : Prop := 0 <= i < sb_ninodes sb /\ exists y, disk_inode v sb i = Some y /\ d_type y <> 0 /\ d_nlink y <> 0.
Lemma tree_child v sb i x nm k : tree_ok v sb -> 0 <= i < sb_ninodes sb -> disk_inode v sb i = Some x -> d_type x = T_DIR -> dir_inum (entries v x) nm = Some k -> linked v sb k.
Proof.
  intros T Hi Hx Ht. unfold dir_inum. destruct (dir_find (entries v x) nm) as [[p j]|] eqn:Hk; [|done]. intros [= <-]. destruct (find_entry _ _ _ _ _ Hk) as (Hj & k' & Hk').
  destruct (T i x Hi Hx) as [_ Hd]; [by rewrite Ht|]. by apply (proj2 (Hd Ht) k' j nm).
Qed.

(** A directory a path leads to has a link, or is where the walk starts. *)
Lemma resolve_linked v sb parent es : tree_ok v sb -> forall i d, resolve v sb parent i es = Some d -> 0 <= i < sb_ninodes sb -> d = i \/ linked v sb d.
Proof.
  intros T. induction es as [|nm es IH]; intros i d; [cbn [resolve]; destruct parent; [done|]; intros [= <-]; by left|].
  rewrite resolve_step. destruct (disk_inode v sb i) as [x|] eqn:Hx; [|done]. cbn [mbind option_bind]. destruct (Z.eqb_spec (d_type x) T_DIR) as [Ht|]; [|done]. cbn [negb].
  destruct (parent && bool_decide (es = [])); [intros [= <-]; by left|]. destruct (dir_inum (entries v x) nm) as [j|] eqn:Hk; [|done]. cbn [mbind option_bind].
  intros Hr Hi. pose proof (tree_child v sb i x nm j T Hi Hx Ht Hk) as Hj. destruct (IH j d Hr (proj1 Hj)) as [->|]; by right.
Qed.

(** The directory of a path is one. *)
Lemma resolve_dir v sb es : forall i d, resolve v sb true i es = Some d -> exists x, disk_inode v sb d = Some x /\ d_type x = T_DIR.
Proof.
  induction es as [|nm es IH]; intros i d; [done|]. rewrite resolve_step. destruct (disk_inode v sb i) as [x|] eqn:Hx; [|done]. cbn [mbind option_bind].
  destruct (Z.eqb_spec (d_type x) T_DIR) as [Ht|]; [|done]. cbn [negb andb]. case_bool_decide; [intros [= <-]; by exists x|].
  destruct (dir_inum (entries v x) nm) as [j|]; [|done]. apply IH.
Qed.

Section grows.
Context (sb : superblock) (d : Z) (e : list Z) (j : Z) (v v' : tview).
Hypothesis T : tree_ok v sb.
Hypothesis G : grows sb d e j v v'.
Hypothesis Hnew : forall x, disk_inode v sb d = Some x -> dir_inum (entries v x) e = None.

Lemma grows_lookup i x nm k : 0 <= i < sb_ninodes sb -> disk_inode v sb i = Some x -> d_type x = T_DIR -> dir_inum (entries v x) nm = Some k ->
  0 <= k < sb_ninodes sb /\ exists x', disk_inode v' sb i = Some x' /\ d_type x' = T_DIR /\ dir_inum (entries v' x') nm = Some k.
Proof.
  intros Hi Hx Ht Hk. split; [by apply (tree_child v sb i x nm k)|]. destruct (G i x Hi Hx Ht) as (x' & H1 & H2 & H3). exists x'. split_and!; [done|done|]. rewrite H3. case_bool_decide as Hb; [|done].
  destruct Hb as [-> ->]. by rewrite (Hnew x Hx) in Hk.
Qed.

(** What a path stood for it stands for. *)
Lemma grows_kept parent es : forall i r, 0 <= i < sb_ninodes sb -> resolve v sb parent i es = Some r -> resolve v' sb parent i es = Some r.
Proof.
  induction es as [|nm es IH]; intros i r Hi; [done|]. rewrite !resolve_step. destruct (disk_inode v sb i) as [x|] eqn:Hx; [|done]. cbn [mbind option_bind].
  destruct (Z.eqb_spec (d_type x) T_DIR) as [Ht|]; [|done]. cbn [negb]. destruct (parent && bool_decide (es = [])) eqn:Ep.
  - destruct (G i x Hi Hx Ht) as (x' & -> & H2 & _). cbn [mbind option_bind]. rewrite H2, Z.eqb_refl. by cbn [negb].
  - destruct (dir_inum (entries v x) nm) as [k|] eqn:Hk; [|done]. cbn [mbind option_bind]. intros Hr. destruct (grows_lookup i x nm k Hi Hx Ht Hk) as (Hkr & x' & -> & H2 & H3).
    cbn [mbind option_bind]. rewrite H2, Z.eqb_refl, H3. cbn [negb mbind option_bind]. by apply IH.
Qed.

(** The new name is found where its directory was. *)
Lemma grows_new es : forall i, 0 <= i < sb_ninodes sb -> resolve v sb true i es = Some d -> List.last es [] = e -> resolve v' sb false i es = Some j.
Proof.
  induction es as [|nm es IH]; intros i Hi; [done|]. rewrite !resolve_step. destruct (disk_inode v sb i) as [x|] eqn:Hx; [|done]. cbn [mbind option_bind].
  destruct (Z.eqb_spec (d_type x) T_DIR) as [Ht|]; [|done]. cbn [negb andb]. case_bool_decide as En.
  - intros [= ->] He. rewrite En in He. simpl in He. destruct (G d x Hi Hx Ht) as (x' & -> & H2 & H3). cbn [mbind option_bind]. rewrite H2, Z.eqb_refl. cbn [negb].
    rewrite H3, bool_decide_true by done. by rewrite En.
  - destruct (dir_inum (entries v x) nm) as [k|] eqn:Hk; [|done]. cbn [mbind option_bind]. intros Hr He. destruct (grows_lookup i x nm k Hi Hx Ht Hk) as (Hkr & x' & -> & H2 & H3).
    cbn [mbind option_bind]. rewrite H2, Z.eqb_refl, H3. cbn [negb mbind option_bind]. apply IH; [done|done|]. by destruct es.
Qed.
End grows.

(** ** A new file *)

Lemma dir_put_in es e k f : dir_put e es !! k = Some f -> f = e \/ exists k', es !! k' = Some f.
Proof.
  unfold dir_put. destruct (first_free es <? length es)%nat.
  - rewrite list_lookup_insert_Some. intros [(_ & <- & _)|[_ Hf]]; [by left|right; eauto].
  - rewrite lookup_app_Some, list_lookup_singleton_Some. intros [Hf|(_ & _ & <-)]; [right; eauto|by left].
Qed.

(** [v'] is [v] with a new inode [j] that is [xn], and a name for it in the
    directory [d]; the rest is kept. *)
Record adds (sb : superblock) (d : Z) (x x' : dinode) (e : list Z) (j : Z) (xn : dinode) (v v' : tview) : Prop := mk_adds {
  ad_ok : consistent v' sb;
  ad_free : exists y, disk_inode v sb j = Some y /\ d_type y = 0;
  ad_new : inode_at v' sb j xn;
  ad_kind : d_type xn <> T_DIR /\ d_nlink xn <> 0;
  ad_dir : disk_inode v' sb d = Some x';
  ad_same : d_type x' = d_type x /\ d_nlink x' = d_nlink x;
  ad_size : d_size x' mod 16 = 0;
  ad_entries : entries v' x' = dir_put (j, e) (entries v x);
  ad_rest : forall i, 0 <= i < sb_ninodes sb -> i <> d -> i <> j -> disk_inode v' sb i = disk_inode v sb i;
  ad_kept : forall i y, i <> d -> inode_at v sb i y -> entries v' y = entries v y
}.

Section adds.
Context (sb : superblock) (d : Z) (x x' : dinode) (e : list Z) (j : Z) (xn : dinode) (v v' : tview).
Hypothesis A : adds sb d x x' e j xn v v'.
Hypothesis T : tree_ok v sb.
Hypothesis Hx : inode_at v sb d x.
Hypothesis Hd : d_type x = T_DIR.

(** An inode that had a link has one. *)
Lemma adds_linked i : linked v sb i -> linked v' sb i.
Proof.
  intros (Hi & y & Hy & Ht & Hl). split; [done|]. destruct Hx as (_ & Hdx & _). destruct (decide (i = d)) as [->|Hn].
  - exists x'. destruct (ad_same _ _ _ _ _ _ _ _ _ A) as [-> ->]. split; [apply A|]. by simplify_eq.
  - destruct (ad_free _ _ _ _ _ _ _ _ _ A) as (z & Hz & Hz0). exists y. rewrite (ad_rest _ _ _ _ _ _ _ _ _ A) by (done || congruence). done.
Qed.

Lemma adds_tree : tree_ok v' sb.
Proof.
  intros i y Hi Hy Ht. split; [by apply (cs_ok _ _ (ad_ok _ _ _ _ _ _ _ _ _ A) i)|]. intros Hty. destruct (ad_new _ _ _ _ _ _ _ _ _ A) as (Hj & Hn & Htn).
  destruct (decide (i = d)) as [->|Hid].
  - rewrite (ad_dir _ _ _ _ _ _ _ _ _ A) in Hy. injection Hy as <-. split; [apply A|]. rewrite (ad_entries _ _ _ _ _ _ _ _ _ A).
    intros k i nm [[= -> ->]|[k' Hk']]%dir_put_in Hne; [split; [done|]; exists xn; split; [done|]; split; [done|apply A]|].
    destruct Hx as (Hdr & Hdx & _). destruct (T d x Hdr Hdx) as [_ Hent]; [by rewrite Hd|]. destruct (Hent Hd) as [_ He]. exact (adds_linked i (He k' i nm Hk' Hne)).
  - destruct (decide (i = j)) as [->|Hij]; [rewrite Hn in Hy; injection Hy as <-; by destruct (ad_kind _ _ _ _ _ _ _ _ _ A)|].
    rewrite (ad_rest _ _ _ _ _ _ _ _ _ A) in Hy by done. destruct (T i y Hi Hy Ht) as [_ Hent]. destruct (Hent Hty) as [Hs He]. split; [done|].
    rewrite (ad_kept _ _ _ _ _ _ _ _ _ A i y Hid ltac:(done)). intros k i' nm Hk Hne. exact (adds_linked i' (He k i' nm Hk Hne)).
Qed.

Lemma adds_grows : j <> 0 -> dir_inum (entries v x) e = None -> grows sb d e j v v'.
Proof.
  intros Hj0 Hno i y Hi Hy Hty. destruct (decide (i = d)) as [->|Hn].
  - destruct Hx as (_ & Hdx & _). rewrite Hdx in Hy. injection Hy as <-. exists x'. split; [apply A|]. destruct (ad_same _ _ _ _ _ _ _ _ _ A) as [-> _]. split; [done|]. intros nm.
    rewrite (ad_entries _ _ _ _ _ _ _ _ _ A). unfold dir_inum, dir_find in *. rewrite (find_put (entries v x) j e nm 0 Hj0) by (by destruct (find_from (entries v x) e 0)).
    case_bool_decide; case_bool_decide; naive_solver.
  - destruct (ad_free _ _ _ _ _ _ _ _ _ A) as (z & Hz & Hz0). exists y.
    assert (i <> j) by (intros ->; rewrite Hy in Hz; injection Hz as <-; by rewrite Hty in Hz0). rewrite (ad_rest _ _ _ _ _ _ _ _ _ A) by done. split_and!; [done|done|]. intros nm.
    rewrite bool_decide_false by naive_solver. rewrite (ad_kept _ _ _ _ _ _ _ _ _ A i y); [done|done|]. split; [done|]. by split; [|rewrite Hty].
Qed.
End adds.

(** ** The steps *)

(** One inode changes; another one's entries do not. *)
Lemma changes_entries sb i x x' v v' j y : changes sb i x x' v v' -> j <> i -> inode_at v sb j y -> inode_at v' sb j y /\ entries v' y = entries v y.
Proof.
  intros G Hn Hy. split; [by apply (changes_other v v' sb i x x')|]. unfold entries. by destruct (cg_rest _ _ _ _ _ _ G j y Hn Hy) as (_ & _ & _ & _ & ->).
Qed.

(** An inode with other links, and the same blocks. *)
Definition same_blocks (x x' : dinode) : Prop := d_addrs x' = d_addrs x /\ d_size x' = d_size x.
Lemma same_slots V x x' k : same_blocks x x' -> slot V x' k = slot V x k.
Proof. intros [E _]. unfold slot, ind_entry, ind_addr. by rewrite E. Qed.
Lemma same_blocks_ok v sb x x' : same_blocks x x' -> inode_ok v sb x -> inode_ok v sb x' /\ owned (tv_blk v) x' = owned (tv_blk v) x /\ content (tv_blk v) x' = content (tv_blk v) x.
Proof.
  intros E [H1 H2 H3 H4 H5]. pose proof (fun k => same_slots (tv_blk v) x x' k E) as Hs. destruct E as [Ea Ez]. split_and!.
  - split; [by rewrite Ea| | |by rewrite Ez|]; [intros k|intros k k'|intros k; rewrite Ez]; rewrite ?Hs; auto.
  - apply set_eq. intros b. rewrite !elem_of_owned. by setoid_rewrite Hs.
  - unfold content. rewrite Ez. apply list_fmap_ext. intros i k _. unfold fbyte, fdata. by rewrite Hs.
Qed.

(** A change of the in-core copy. *)
Lemma upd_at {S} (s : fs S) ip X (f : dinode -> dinode) : f_icache s !! ip = Some X ->
  set_icache (alter (fun y => set_din (f (i_din y)) y) ip (f_icache s)) s = at_ip s ip (f_store s) (f (i_din X)).
Proof. intros HX. unfold at_ip. rewrite !(alter_insert _ _ _ _ HX). by destruct s. Qed.

Section steps.
Context {S : Type} `{TxStore S}.
Context (s : fs S) (v : tview) (sb : superblock).
Hypothesis M : mounted s v sb.

Lemma mounted_store t : tx_at t v -> mounted (set_store t s) v sb.
Proof. intros Ht. destruct M. by split. Qed.
Lemma mounted_ready h : ready v h 0.
Proof. repeat split; [apply M|unfold held_blocks; rewrite (mt_held _ _ _ M), map_img_empty_L, size_empty; lia|pose proof (mt_log _ _ _ M); lia]. Qed.

Lemma ilock_mounted ip X (Q : unit -> fs S -> Prop) : f_icache s !! ip = Some X -> 0 < i_ref X -> i_lock X = initsleeplock ->
  (forall t x, tx_at t v -> inode_at v sb (i_inum X) x -> let s' := set_icache (<[ip := locked X (f_pid s) x]> (f_icache s)) (set_store t s) in
     mounted s' v sb -> loaded s' ip (locked X (f_pid s) x) -> (forall j, refs (f_icache s') j = refs (f_icache s) j) -> Q tt s') ->
  wp (ilock ip) s Q.
Proof.
  intros HX Hr Hl HQ. destruct (mounted_live s v sb M ip X HX Hr) as [x Hx]. pose proof Hx as (_ & Hd & Ht). pose proof M as [M1 M2 M3 M4 M5 M6 M7 M8].
  eapply (ilock_load s v sb ip X x); [done|done|apply M3|apply mounted_ready|unfold held_blocks; rewrite M5; apply map_img_empty_L|done|done|done|done|done|done|].
  intros t Hat. destruct (relock_ok v sb _ ip X (locked X (f_pid s) x) M7 HX Hr eq_refl eq_refl eq_refl (fun _ => Hd)) as [Hc Hrefs].
  apply (HQ t x Hat Hx); [|split; [by apply list_lookup_insert_eq; eapply lookup_lt_Some|done]|done].
  apply (mounted_cache (set_store t s) v sb (mounted_store t Hat)); [done|]. intros j. by rewrite Hrefs.
Qed.

(** [iupdate] after a change that keeps the blocks. *)
Lemma iupdate_mounted ip X x' t (Q : unit -> fs S -> Prop) : loaded s ip X -> same_blocks (i_din X) x' -> d_type x' <> 0 -> din_range x' -> room v sb 1 -> tx_at t v ->
  (forall t' v', tx_at t' v' -> inode_put sb (i_inum X) x' v v' -> let s' := at_ip s ip t' x' in
     mounted s' v' sb -> loaded s' ip (set_din x' X) -> (forall j, refs (f_icache s') j = refs (f_icache s) j) -> changes sb (i_inum X) (i_din X) x' v v' -> Q tt s') ->
  wp (iupdate ip) (at_ip s ip t x') Q.
Proof.
  intros L E Ht Hr Hroom Hat HQ. destruct (mounted_loaded s v sb M ip X L) as (Hx & P & _). pose proof Hx as (Hin & Hd & Htx). destruct (same_blocks_ok v sb _ _ E (fp_ok _ _ _ _ _ P)) as (Hok & Ho & _).
  assert (P' : file_pre (at_ip s ip t x') v sb ip (set_din x' X)).
  { destruct P as [P1 P2 P3 P4 P5 P6 P7 P8 P9]. split; try done. by apply at_ip_lookup. }
  eapply (iupdate_spec _ v sb ip (set_din x' X) 0); [exact P'|done|done|exact (room_log v sb 1 Hroom)|]. intros t' v' Ht' Hp. cbn [i_inum i_din set_din] in Hp.
  assert (G : changes sb (i_inum X) (i_din X) x' v v') by (apply put_changes; [apply M|done|done|done|done|done|done|rewrite Ho; by rewrite (proj2 (Z.eqb_neq _ _) Htx)]).
  pose proof (ip_ev _ _ _ _ _ Hp) as Ev.
  destruct (loaded_changes s v sb M ip X x' v' t' L G Ht Ht') as (M' & L' & Hrefs); [rewrite (ev_mod _ _ _ _ Ev); apply M|rewrite (ev_held _ _ _ _ Ev); apply M| |].
  { eapply (put_log v sb (i_inum X) 0); [done|apply Hp|apply Ev]. }
  by apply (HQ t' v').
Qed.

(** [dirlink] of a new name. *)
Lemma dirlink_mounted (devsw : Z -> devops S) dp X name inum (Q : Z -> fs S -> Prop) : loaded s dp X -> i_type X = T_DIR -> i_size X mod 16 = 0 -> Forall is_byte name ->
  0 < inum < 2 ^ 16 -> dir_inum (entries v (i_din X)) (cstr 14 name) = None -> i_size X + 16 <= MAXFILE * BLK -> room v sb 3 -> (2 <= size (free_blocks v sb))%nat ->
  (forall t v' x', let s' := at_ip s dp t x' in mounted s' v' sb -> loaded s' dp (set_din x' X) -> (forall j, refs (f_icache s') j = refs (f_icache s) j) ->
     changes sb (i_inum X) (i_din X) x' v v' -> d_type x' = T_DIR -> d_nlink x' = i_nlink X -> d_size x' mod 16 = 0 ->
     entries v' x' = dir_put (inum, cstr 14 name) (entries v (i_din X)) -> Q 0 s') ->
  wp (dirlink devsw dp name inum) s Q.
Proof.
  intros L Hty Hsz Hn Hi Hno Hmax Hroom Hfree HQ. destruct (mounted_loaded s v sb M dp X L) as (Hx & P & Hr). pose proof Hx as (Hin & Hd & Htx).
  eapply (dirlink_new devsw s sb dp X v); [by split|done|done| |done|done|done|done|done|].
  { unfold dir_inum in Hno. by destruct (dir_find (entries v (i_din X)) (cstr 14 name)). }
  intros t v' x' k de Hat Hm _ Hde W Ees. pose proof (written_changes _ _ _ _ _ _ _ _ (mt_ok _ _ _ M) Hx W) as G. pose proof (wn_ev _ _ _ _ _ _ _ _ W) as Ev.
  destruct (wn_kind _ _ _ _ _ _ _ _ W) as (K1 & _ & _ & K4). assert (Ht' : d_type x' = T_DIR) by (by rewrite K1).
  destruct (loaded_changes s v sb M dp X x' v' t L G) as (M' & L' & Hrefs); [by rewrite Ht'|done|done|rewrite (ev_held _ _ _ _ Ev); apply M| |].
  { eapply written_log; [exact Hroom| |exact W]. rewrite Hde. pose proof (nblocks_dirent k). change (Z.of_nat 16) with 16. lia. }
  apply (HQ t v' x' M' L' Hrefs G Ht'); [done| |done]. rewrite (wn_size _ _ _ _ _ _ _ _ W), Hde. change (Z.of_nat 16) with 16.
  destruct (Z.max_spec (d_size (i_din X)) (16 * Z.of_nat k + 16)) as [[_ ->]|[_ ->]]; [|done]. replace (16 * Z.of_nat k + 16) with ((Z.of_nat k + 1) * 16) by lia. apply Z.mod_mul. lia.
Qed.

(** [iunlockput] that keeps the inode. *)
Lemma iunlockput_mounted ip X (Q : unit -> fs S -> Prop) : f_icache s !! ip = Some X -> 0 < i_ref X -> sl_locked (i_lock X) = true ->
  (i_valid X = true -> i_nlink X = 0 -> i_ref X <> 1) ->
  (forall l', let s' := set_icache l' s in mounted s' v sb -> (forall j, refs l' j = refs (f_icache s) j - (if j =? i_inum X then 1 else 0)) ->
     l' !! ip = Some (set_ref (i_ref X - 1) (set_ilock initsleeplock X)) -> (forall k, k <> ip -> l' !! k = f_icache s !! k) -> Q tt s') ->
  wp (iunlockput ip) s Q.
Proof.
  intros HX Hr Hl Hk HQ. eapply (iunlockput_spec v sb (mt_log _ _ _ M) s ip X); [apply M|done|done|done|done|]. intros l' Hc Hrefs _ Hip Ho. apply (HQ l'); [|done|done|done].
  apply (mounted_cache s v sb M); [done|]. intros j. rewrite Hrefs. destruct (j =? i_inum X); lia.
Qed.
End steps.
