(* ===== verification/Mkfs.v ===== *)
(** * Making the file system: [mkfs.c]

    The program of the host that writes the first disk image.  The image is a
    map from sectors to their bytes: a sector can be read once it has been
    written, and reads and writes of the host succeed.  The files are given by
    their names and by the pieces in which [read] returns their contents.  A
    failing [assert] or [read] ends the program and is a panic here.

    Values go to the image in Intel byte order ([xshort], [xint]), which is
    the order of [enc_dinode] and [le_bytes]; the host has that order too. *)

From S2P Require Import Prelude Sleeplock Bio Log LogSpec BlockStore Fs FsBlocks.

Definition FSSIZE : Z := 1000.
Definition NINODES : Z := 200.
Definition nbitmap : Z := FSSIZE / (BLK * 8) + 1.
Definition ninodeblocks : Z := NINODES / IPB + 1.
Definition nlog : Z := LOGSIZE.
Definition nmeta : Z := 2 + nlog + ninodeblocks + nbitmap.

Record image := mkimage {
  mk_sb : superblock;
  mk_img : gmap Z block;
  mk_freeinode : Z;
  mk_freeblock : Z
}.
Definition set_mksb (x : superblock) (s : image) : image := mkimage x (mk_img s) (mk_freeinode s) (mk_freeblock s).
Definition set_img (m : gmap Z block) (s : image) : image := mkimage (mk_sb s) m (mk_freeinode s) (mk_freeblock s).
Definition set_freeinode (n : Z) (s : image) : image := mkimage (mk_sb s) (mk_img s) n (mk_freeblock s).
Definition set_freeblock (n : Z) (s : image) : image := mkimage (mk_sb s) (mk_img s) (mk_freeinode s) n.

Definition assert (b : bool) : KM image unit := if b then mret tt else panic "assert".

Definition wsect (sec : Z) (buf : block) : KM image unit := kmodify (fun s => set_img (<[sec := buf]> (mk_img s)) s).
Definition rsect (sec : Z) : KM image block := fun s =>
  match mk_img s !! sec with
  | Some d => Done d s
  | None => Panic "read"
  end.

Definition winode (inum : Z) (ip : dinode) : KM image unit :=
  s ← kget;
  let bn := IBLOCK inum (mk_sb s) in
  buf ← rsect bn;
  wsect bn (splice (dinode_off inum) (enc_dinode ip) buf).
Definition rinode (inum : Z) : KM image dinode :=
  s ← kget;
  let bn := IBLOCK inum (mk_sb s) in
  buf ← rsect bn;
  mret (dec_dinode (dinode_off inum) buf).

Definition ialloc (type : Z) : KM image Z :=
  inum ← kgets mk_freeinode;
  kmodify (set_freeinode (u32 (inum + 1)));;
  winode inum (mkdinode type 0 0 1 0 (replicate 13 0));;
  mret inum.

(** [freeblock++] *)
Definition next_block : KM image Z :=
  b ← kgets mk_freeblock;
  kmodify (set_freeblock (u32 (b + 1)));;
  mret b.

(** The buffer of [balloc] after [n] turns of its loop. *)
Fixpoint bitmap (n : nat) : block :=
  match n with
  | O => replicate BSIZE 0
  | S n =>
      let i := Z.of_nat n in
      let buf := bitmap n in
      splice (Z.to_nat (i / 8)) [u8 (Z.lor (nth (Z.to_nat (i / 8)) buf 0) (Z.shiftl 1 (i mod 8)))] buf
  end.
Definition balloc (used : Z) : KM image unit :=
  assert (used <? BLK * 8);;
  s ← kget;
  wsect (sb_bmapstart (mk_sb s)) (bitmap (Z.to_nat used)).

(** The block of the file for [fbn], and the inode with its address. *)
Definition map_block (din : dinode) (fbn : Z) : KM image (dinode * Z) :=
  if fbn <? NDIRECT then
    let x := nth (Z.to_nat fbn) (d_addrs din) 0 in
    if x =? 0 then
      b ← next_block;
      mret (din_addr (Z.to_nat fbn) b din, b)
    else mret (din, x)
  else
    din ← (if nth (Z.to_nat NDIRECT) (d_addrs din) 0 =? 0 then
             b ← next_block;
             mret (din_addr (Z.to_nat NDIRECT) b din)
           else mret din);
    let ind := nth (Z.to_nat NDIRECT) (d_addrs din) 0 in
    indirect ← rsect ind;
    let o := Z.to_nat (4 * (fbn - NDIRECT)) in
    if get32 o indirect =? 0 then
      b ← next_block;
      wsect ind (splice o (put32 b) indirect);;
      mret (din, b)
    else mret (din, get32 o indirect).

Fixpoint append_loop (fuel : nat) (din : dinode) (off : Z) (p : list Z) : KM image (dinode * Z) :=
  match fuel with
  | O => fault "iappend: loop"
  | S fuel =>
      match p with
      | [] => mret (din, off)
      | _ =>
          let fbn := off / BLK in
          assert (fbn <? MAXFILE);;
          r ← map_block din fbn;
          let n1 := Z.min (Z.of_nat (length p)) ((fbn + 1) * BLK - off) in
          buf ← rsect r.2;
          wsect r.2 (splice (Z.to_nat (off - fbn * BLK)) (take (Z.to_nat n1) p) buf);;
          append_loop fuel r.1 (u32 (off + n1)) (drop (Z.to_nat n1) p)
      end
  end.
Definition iappend (inum : Z) (p : list Z) : KM image unit :=
  din ← rinode inum;
  r ← append_loop (S (length p)) din (d_size din) p;
  winode inum (din_size r.2 r.1).

Fixpoint append_all (inum : Z) (pieces : list (list Z)) : KM image unit :=
  match pieces with
  | [] => mret tt
  | p :: pieces => iappend inum p;; append_all inum pieces
  end.

(** The name of a file without its leading underscore. *)
Definition strip (name : list Z) : list Z :=
  match name with c :: rest => if c =? 95 then rest else name | [] => [] end.

Definition add_file (rootino : Z) (f : list Z * list (list Z)) : KM image unit :=
  assert (forallb (fun c => negb (c =? SLASH)) f.1);;
  inum ← ialloc T_FILE;
  iappend rootino (mkdirent inum (strncpy (Z.to_nat DIRSIZ) (strip f.1)));;
  append_all inum f.2.
Fixpoint add_files (rootino : Z) (files : list (list Z * list (list Z))) : KM image unit :=
  match files with
  | [] => mret tt
  | f :: files => add_file rootino f;; add_files rootino files
  end.

Definition enc_sb (x : superblock) : list Z :=
  put32 (sb_size x) ++ put32 (sb_nblocks x) ++ put32 (sb_ninodes x) ++ put32 (sb_nlog x) ++
  put32 (sb_logstart x) ++ put32 (sb_inodestart x) ++ put32 (sb_bmapstart x).
Definition mkfs_sb : superblock :=
  mksuperblock FSSIZE (FSSIZE - nmeta) NINODES nlog 2 (2 + nlog) (2 + nlog + ninodeblocks).

Definition main (files : list (list Z * list (list Z))) : KM image unit :=
  kmodify (set_mksb mkfs_sb);;
  kmodify (set_freeblock nmeta);;
  kfor 0 (Z.to_nat FSSIZE) (fun i => wsect (Z.of_nat i) (replicate BSIZE 0));;
  wsect 1 (splice 0 (enc_sb mkfs_sb) (replicate BSIZE 0));;
  rootino ← ialloc T_DIR;
  assert (rootino =? ROOTINO);;
  iappend rootino (mkdirent rootino (strncpy (Z.to_nat DIRSIZ) [46]));;
  iappend rootino (mkdirent rootino (strncpy (Z.to_nat DIRSIZ) [46; 46]));;
  add_files rootino files;;
  din ← rinode rootino;
  let off := (d_size din / BLK + 1) * BLK in
  winode rootino (din_size (u32 off) din);;
  b ← kgets mk_freeblock;
  balloc b.

(** The program before [main]. *)
Definition mkfs_start : image := mkimage (mksuperblock 0 0 0 0 0 0 0) ∅ 1 0.
