(* ===== verification/MkfsSpec.v ===== *)
(** * The image [mkfs] makes is a file system the kernel can use

    While [mkfs] runs the free map is not on the disk yet: the blocks below
    [freeblock] are in use.  [rep] relates a state of [mkfs] to the view of
    the disk with that free map in place.  Under this relation [freeblock++]
    is the allocation of a block, and [iappend] writes a file as the kernel's
    [writei] does, so the lemmas about the kernel's file system apply.

    [mkfs_correct]: the finished image satisfies the file system's invariants,
    its log is empty, the root directory names the files, and each file has
    the contents it was given. *)

From S2P Require Import Prelude Sleeplock Bio Log LogSpec BlockStore Fs FsBlocks FsInode FsFile FsWrite FsDir FsPath Mkfs.

Abbreviation sb := mkfs_sb.

(** ** The free map *)

Lemma nth_repeat_zero n i : nth i (replicate n 0) 0 = 0.
Proof. rewrite nth_lookup. destruct (replicate n 0 !! i) as [x|] eqn:E; [|done]. by apply lookup_replicate in E as [-> _]. Qed.
Lemma bitmap_spec n : (n <= 4096)%nat -> length (bitmap n) = BSIZE /\ Forall is_byte (bitmap n) /\
  forall b, 0 <= b < BPB -> map_used (bitmap n) b = (b <? Z.of_nat n).
Proof.
  induction n as [|n IH]; intros Hn; cbn [bitmap].
  - split; [apply length_replicate|]. split; [by apply Forall_replicate|]. intros b Hb. unfold map_used, map_byte.
    rewrite nth_repeat_zero. symmetry. apply Z.ltb_ge. lia.
  - destruct IH as (Hl & Hy & Hu); [lia|]. destruct (map_index (Z.of_nat n)) as [Hi Hm]; [unfold BPB, BLK, BSIZE; lia|].
    assert (Hb8 : is_byte (Z.lor (map_byte (bitmap n) (Z.of_nat n)) (map_mask (Z.of_nat n)))) by (apply byte_lor; [by apply nth_byte|done]).
    fold (map_byte (bitmap n) (Z.of_nat n)). fold (map_mask (Z.of_nat n)). rewrite (u8_id _ Hb8).
    split; [rewrite length_splice by (simpl; lia); done|]. split; [apply splice_bytes; [by apply Forall_singleton|done]|].
    intros b Hb. rewrite map_used_set; [|done|unfold BPB, BLK, BSIZE; lia|done]. case_decide as E; [subst; symmetry; apply Z.ltb_lt; lia|].
    rewrite Hu by done. destruct (Z.ltb_spec b (Z.of_nat n)), (Z.ltb_spec b (Z.of_nat (S n))); lia || done.
Qed.

(** ** The layout *)

Lemma mkfs_layout : layout sb.
Proof. split; vm_compute; repeat split; discriminate. Qed.
Lemma mkfs_meta : meta_end sb = 59.
Proof. reflexivity. Qed.
Lemma mkfs_is_map b : is_map sb b <-> b = 58.
Proof. unfold is_map. rewrite mkfs_meta. change (sb_bmapstart sb) with 58. lia. Qed.
Lemma mkfs_bblock b : 0 <= b < 1000 -> BBLOCK b sb = 58.
Proof. intros Hb. rewrite (bblock_eq sb mkfs_layout) by done. rewrite Z.div_small; [done|]. unfold BPB, BLK, BSIZE. lia. Qed.
Definition sb_block : block := splice 0 (enc_sb sb) zeros.
Lemma sb_block_ok : length sb_block = BSIZE /\ Forall is_byte sb_block /\ dec_sb sb_block = sb.
Proof.
  split; [reflexivity|]. split; [|vm_compute; reflexivity]. apply (bool_decide_unpack _). vm_compute. exact I.
Qed.

(** ** The image and the kernel's view of it *)

(** Blocks of the image that [mkfs] only writes once: boot, log and super block. *)
Definition fixed (b : Z) : option block := if b =? 1 then Some sb_block else if b <? 32 then Some zeros else None.

(** The blocks outside the log. *)
Definition data (img : gmap Z block) : gmap Z block := filter (fun p => ~ 2 <= p.1 < 32) img.
Lemma data_lookup img b : ~ 2 <= b < 32 -> data img !! b = img !! b.
Proof. intros Hb. unfold data. rewrite map_lookup_filter. destruct (img !! b) as [d|]; [|done]. simpl. by rewrite option_guard_True. Qed.
Lemma data_Some img b d : data img !! b = Some d -> img !! b = Some d /\ ~ 2 <= b < 32.
Proof. unfold data. by rewrite map_lookup_filter_Some. Qed.
Lemma data_insert img b d : 32 <= b -> data (<[b := d]> img) = <[b := d]> (data img).
Proof. intros Hb. unfold data. apply map_filter_insert_True. simpl. lia. Qed.

Record rep (s : image) (v : tview) : Prop := mk_rep {
  rp_sb : mk_sb s = sb;
  rp_fb : 59 <= mk_freeblock s <= 1000;
  rp_blk : tv_blk v = <[58 := bitmap (Z.to_nat (mk_freeblock s))]> (data (mk_img s));
  rp_dom : forall b, is_Some (mk_img s !! b) <-> 0 <= b < 1000;
  rp_wf : forall b d, mk_img s !! b = Some d -> length d = BSIZE /\ Forall is_byte d;
  rp_fixed : forall b d, 0 <= b -> fixed b = Some d -> mk_img s !! b = Some d;
  rp_zero : forall b, mk_freeblock s <= b < 1000 -> mk_img s !! b = Some zeros;
  rp_held : tv_held v = ∅ /\ tv_mod v = ∅;
  rp_home : tv_home v = list_to_set (seqZ 32 968);
  rp_cap : (tv_cap v + 3 <= NBUF)%nat
}.

Section rep.
Context (s : image) (v : tview).
Hypothesis R : rep s v.

Lemma rep_blk b : b <> 58 -> ~ 2 <= b < 32 -> tv_blk v !! b = mk_img s !! b.
Proof. intros Hb Hl. rewrite (rp_blk _ _ R), lookup_insert_ne by done. by apply data_lookup. Qed.
Lemma rep_used b : 0 <= b < 1000 -> used v sb b = (b <? mk_freeblock s).
Proof.
  intros Hb. unfold used. rewrite mkfs_bblock, (rp_blk _ _ R), lookup_insert_eq by done. pose proof (rp_fb _ _ R).
  destruct (bitmap_spec (Z.to_nat (mk_freeblock s))) as (_ & _ & Hu); [lia|]. rewrite Z.mod_small, Hu by (unfold BPB, BLK, BSIZE; lia).
  by rewrite Z2Nat.id by lia.
Qed.
Lemma rep_view_ok : tview_ok v.
Proof.
  split; [|apply R]. intros b d. rewrite (rp_blk _ _ R), lookup_insert_Some. pose proof (rp_fb _ _ R).
  intros [[<- <-]|[_ [Hd _]%data_Some]].
  - destruct (bitmap_spec (Z.to_nat (mk_freeblock s))) as (H1 & H2 & _); [lia|]. split_and!; [done|done|lia|lia].
  - destruct (rp_wf _ _ R b d Hd). assert (0 <= b < 1000) by (apply (rp_dom _ _ R); eauto). split_and!; [done|done|lia|lia].
Qed.
Lemma rep_inv : fs_inv v sb.
Proof.
  pose proof (rp_fb _ _ R). split.
  - exact mkfs_layout.
  - intros b Hb. change (sb_size sb) with 1000 in Hb. change (sb_inodestart sb) with 32 in Hb. rewrite (rp_blk _ _ R), lookup_insert_is_Some.
    destruct (decide (58 = b)); [by left|right]. split; [done|]. rewrite data_lookup by lia. apply (rp_dom _ _ R). lia.
  - intros b Hb. change (sb_size sb) with 1000 in Hb. change (sb_inodestart sb) with 32 in Hb. rewrite (rp_home _ _ R). apply elem_of_list_to_set, elem_of_seqZ. lia.
  - exists sb_block. rewrite rep_blk by lia. split; [by apply (rp_fixed _ _ R)|apply sb_block_ok].
  - intros b Hb. rewrite mkfs_meta in Hb. rewrite rep_used by lia. apply Z.ltb_lt. lia.
Qed.
End rep.

(** ** Writing and allocating blocks *)

Lemma rep_put s v b d : rep s v -> 32 <= b < mk_freeblock s -> b <> 58 -> length d = BSIZE -> Forall is_byte d ->
  rep (set_img (<[b := d]> (mk_img s)) s) (tv_put b d v).
Proof.
  intros [R1 R2 R3 R4 R5 R6 R7 R8 R9 R10] Hb H58 Hl Hy. split; cbn [mk_sb mk_img mk_freeblock set_img tv_blk tv_put tv_held tv_mod tv_home tv_cap]; try done.
  - rewrite R3, data_insert by lia. by apply insert_insert_ne.
  - intros b'. rewrite lookup_insert_is_Some, R4. destruct (decide (b = b')); lia.
  - intros b' d'. rewrite lookup_insert_Some. intros [[<- <-]|[_ H]]; [done|by apply (R5 b')].
  - intros b' d' Hb' Hf. rewrite lookup_insert_ne; [by apply R6|]. unfold fixed in Hf. destruct (Z.eqb_spec b' 1), (Z.ltb_spec b' 32); lia || done.
  - intros b' Hb'. rewrite lookup_insert_ne by lia. by apply R7.
Qed.

Definition alloc_view (fb : Z) (v : tview) : tview :=
  mktview (<[58 := bitmap (Z.to_nat (fb + 1))]> (tv_blk v)) (tv_held v) (tv_mod v) ({[fb]} ∪ ({[58]} ∪ tv_log v)) (tv_home v) (tv_cap v).
Lemma rep_alloc s v : rep s v -> mk_freeblock s < 1000 ->
  rep (set_freeblock (mk_freeblock s + 1) s) (alloc_view (mk_freeblock s) v) /\ alloc_step sb v (alloc_view (mk_freeblock s) v) (mk_freeblock s).
Proof.
  intros R Hfb. pose proof (rp_fb _ _ R) as Hr. set (fb := mk_freeblock s) in *.
  assert (R' : rep (set_freeblock (fb + 1) s) (alloc_view fb v)).
  { destruct R as [R1 R2 R3 R4 R5 R6 R7 R8 R9 R10]. split; cbn [mk_sb mk_img mk_freeblock set_freeblock tv_blk alloc_view tv_held tv_mod tv_home tv_cap]; try done; [lia| |].
    - rewrite R3. apply insert_insert_eq.
    - intros b' Hb'. apply R7. unfold fb in *. lia. }
  split; [done|]. split; try done.
  - change (sb_size sb) with 1000. lia.
  - rewrite (rep_used s v R) by lia. apply Z.ltb_ge. unfold fb. lia.
  - intros b' Hb'. change (sb_size sb) with 1000 in Hb'. rewrite (rep_used _ _ R') by done. rewrite (rep_used _ _ R) by done. cbn [mk_freeblock set_freeblock]. fold fb.
    case_decide; [apply Z.ltb_lt; lia|]. destruct (Z.ltb_spec b' (fb + 1)), (Z.ltb_spec b' fb); lia || done.
  - rewrite (rep_blk _ _ R') by lia. apply (rp_zero _ _ R). unfold fb in *. lia.
  - intros b' Hb' Hm. rewrite mkfs_is_map in Hm. cbn [tv_blk alloc_view]. by rewrite lookup_insert_ne.
  - cbn [tv_log alloc_view]. by rewrite mkfs_bblock by lia.
  - by apply (rep_inv _ _ R').
Qed.

Lemma next_block_spec s v (Q : Z -> image -> Prop) : rep s v -> mk_freeblock s < 1000 ->
  (rep (set_freeblock (mk_freeblock s + 1) s) (alloc_view (mk_freeblock s) v) -> alloc_step sb v (alloc_view (mk_freeblock s) v) (mk_freeblock s) ->
   Q (mk_freeblock s) (set_freeblock (mk_freeblock s + 1) s)) -> wp next_block s Q.
Proof.
  intros R Hfb HQ. unfold next_block. wp_steps. pose proof (rp_fb _ _ R). rewrite u32_id by lia. destruct (rep_alloc s v R Hfb). by apply HQ.
Qed.

Lemma rsect_spec s v b (Q : block -> image -> Prop) : rep s v -> 32 <= b < 1000 -> b <> 58 ->
  (forall d, tv_blk v !! b = Some d -> length d = BSIZE -> Forall is_byte d -> Q d s) -> wp (rsect b) s Q.
Proof.
  intros R Hb H58 HQ. destruct (proj2 (rp_dom _ _ R b) ltac:(lia)) as [d Hd]. unfold wp, rsect. rewrite Hd. destruct (rp_wf _ _ R b d Hd).
  apply HQ; [by rewrite (rep_blk _ _ R) by lia|done|done].
Qed.

(** ** The block of a file *)

Lemma slot_addr V x i : (i <= 12)%nat -> slot V x (if decide (i = 12%nat) then 140 else Z.of_nat i) = nth i (d_addrs x) 0.
Proof.
  intros Hi. case_decide; [by subst|]. unfold slot. rewrite (proj2 (Z.ltb_lt _ _)) by lia. by rewrite Nat2Z.id.
Qed.

(** [if(addrs[i] == 0) addrs[i] = freeblock++] *)
Lemma take_addr s v x i (Q : Z -> image -> Prop) : rep s v -> inode_ok v sb x -> (i <= 12)%nat -> nth i (d_addrs x) 0 = 0 -> mk_freeblock s < 1000 ->
  let k := if decide (i = 12%nat) then 140 else Z.of_nat i in
  (forall b s' v', rep s' v' -> mk_freeblock s' = mk_freeblock s + 1 -> mk_freeinode s' = mk_freeinode s ->
    extends sb 1 {[b]} v x v' (din_addr i b x) -> slot (tv_blk v') (din_addr i b x) k = b -> b <> 0 ->
    (forall j, 0 <= j <= 140 -> j <> k -> slot (tv_blk v') (din_addr i b x) j = slot (tv_blk v) x j) -> Q b s') ->
  wp next_block s Q.
Proof.
  intros R Hx Hi12 H0 Hfb k HQ. pose proof (rep_inv s v R) as Hi. rewrite <- (slot_addr (tv_blk v) x i Hi12) in H0. fold k in H0.
  apply (next_block_spec s v); [done|done|]. intros R' Ha. set (v' := alloc_view _ _) in *. set (b := mk_freeblock s) in *.
  assert (Hg : grow sb v x v' (din_addr i b x) k b).
  { unfold k in *. case_decide as Ei.
    - subst i. by apply grow_ind.
    - replace i with (Z.to_nat (Z.of_nat i)) at 1 by lia. apply grow_direct; [done..|lia|done]. }
  destruct (grow_extends sb v x v' (din_addr i b x) k b {[b]}) as (He & Es & Hb0); [done|done|done| | | |].
  - eapply evolves_mono; [by eapply alloc_evolves|set_solver].
  - by apply alloc_logs.
  - by apply (alloc_free_size _ _ _ b).
  - apply (HQ b _ v'); try done. intros j Hj Hne. rewrite (gr_slot _ _ _ _ _ _ _ Hg) by done. by rewrite decide_False.
Qed.

(** Where the blocks of a file lie. *)
Lemma slot_data s v x k : rep s v -> inode_ok v sb x -> 0 <= k <= 140 -> slot (tv_blk v) x k <> 0 -> 59 <= slot (tv_blk v) x k < mk_freeblock s.
Proof.
  intros R Hx Hk Hs. destruct (in_area _ _ _ Hx k Hk Hs) as [Ha Hu]. rewrite mkfs_meta in Ha. change (sb_size sb) with 1000 in Ha.
  rewrite (rep_used s v R) in Hu by lia. apply Z.ltb_lt in Hu. lia.
Qed.

(** The entry of the indirect block, filled if it is null. *)
Lemma take_entry s v x k (Q : dinode * Z -> image -> Prop) : rep s v -> inode_ok v sb x -> 12 <= k < 140 -> ind_addr x <> 0 -> mk_freeblock s + (if decide (slot (tv_blk v) x k = 0) then 1 else 0) <= 1000 ->
  (forall s' v', rep s' v' -> mk_freeblock s' = mk_freeblock s + (if decide (slot (tv_blk v) x k = 0) then 1 else 0) -> mk_freeinode s' = mk_freeinode s ->
    (slot (tv_blk v) x k <> 0 -> v' = v) ->
    extends sb 1 {[ind_addr x; slot (tv_blk v') x k]} v x v' x -> slot (tv_blk v') x k <> 0 ->
    (forall j, 0 <= j <= 140 -> j <> k -> slot (tv_blk v') x j = slot (tv_blk v) x j) -> Q (x, slot (tv_blk v') x k) s') ->
  wp (indirect ← rsect (ind_addr x);
      let o := Z.to_nat (4 * (k - 12)) in
      if get32 o indirect =? 0 then
        b ← next_block;
        wsect (ind_addr x) (splice o (put32 b) indirect);;
        mret (x, b)
      else mret (x, get32 o indirect)) s Q.
Proof.
  intros R Hx Hk Hn Hfb HQ. pose proof (rep_inv s v R) as Hi. pose proof (slot_data s v x 140 R Hx ltac:(lia) Hn) as Hind. rewrite slot_ind in Hind.
  pose proof (rp_fb _ _ R). apply wp_bind. apply (rsect_spec s v); [done|lia|lia|]. intros d Hd Hdl Hdy. cbv zeta.
  assert (Hslot : slot (tv_blk v) x k = get32 (Z.to_nat (4 * (k - 12))) d).
  { unfold slot, ind_entry. rewrite (proj2 (Z.ltb_ge k 12)), (proj2 (Z.ltb_lt k 140)) by lia. by rewrite (proj2 (Z.eqb_neq _ _) Hn), Hd. }
  rewrite <- Hslot. destruct (Z.eqb_spec (slot (tv_blk v) x k) 0) as [E|E].
  2:{ rewrite decide_False in HQ by done. apply wp_ret. apply (HQ s v); [done|lia|done|done| |done|done]. eapply extends_mono; [by apply extends_refl|lia|set_solver]. }
  rewrite decide_True in Hfb, HQ by done. apply wp_bind. apply (next_block_spec s v); [done|lia|]. intros R' Ha. apply wp_bind, wp_modify, wp_ret.
  destruct (entry_extends sb v _ x _ k d Hi Hx Ha Hk Hn Hd Hdl E) as (He & Es & Hb0). cbv zeta in He, Es.
  set (v' := tv_put _ _ _) in *. match goal with |- Q _ ?s1 => specialize (HQ s1 v') end. rewrite Es in HQ. apply HQ.
  - apply (rep_put _ _ _ _ R'); [cbn [mk_freeblock set_freeblock]; lia|lia| |].
    + rewrite length_splice; [done|]. rewrite length_put32. unfold BSIZE in *. lia.
    + apply splice_bytes; [apply le_bytes_byte|done].
  - done.
  - done.
  - done.
  - done.
  - done.
  - intros j Hj Hne. rewrite (gr_slot _ _ _ _ _ _ _ (grow_entry sb v _ x _ Hi Hx Ha k d Hk Hn Hd Hdl E)) by done. by rewrite decide_False.
Qed.

(** The number of blocks [map_block] takes. *)
Definition cost (V : gmap Z block) (x : dinode) (k : Z) : Z :=
  if decide (slot V x k = 0) then 1 + (if decide (12 <= k /\ ind_addr x = 0) then 1 else 0) else 0.
(** The effect on the addresses: [k] is there, and the indirect block if it
    takes one. *)
Record mapped (V V' : gmap Z block) (x x' : dinode) (k : Z) : Prop := mk_mapped {
  md_here : slot V' x' k <> 0;
  md_other : forall j, 0 <= j < 140 -> j <> k -> slot V' x' j = slot V x j;
  md_ind : ind_addr x' <> 0 <-> ind_addr x <> 0 \/ 12 <= k
}.

Lemma slot_needs_ind V x k : 12 <= k < 140 -> slot V x k <> 0 -> ind_addr x <> 0.
Proof.
  intros Hk. unfold slot, ind_entry. rewrite (proj2 (Z.ltb_ge k 12)), (proj2 (Z.ltb_lt k 140)) by lia. destruct (Z.eqb_spec (ind_addr x) 0); done.
Qed.

Lemma map_block_spec s v x k (Q : dinode * Z -> image -> Prop) : rep s v -> inode_ok v sb x -> 0 <= k < 140 -> mk_freeblock s + cost (tv_blk v) x k <= 1000 ->
  (forall x' s' v', rep s' v' -> mk_freeblock s' = mk_freeblock s + cost (tv_blk v) x k -> mk_freeinode s' = mk_freeinode s ->
    (slot (tv_blk v) x k <> 0 -> x' = x) -> mapped (tv_blk v) (tv_blk v') x x' k ->
    extends sb 2 (ind_set x' ∪ {[slot (tv_blk v') x' k]}) v x v' x' -> Q (x', slot (tv_blk v') x' k) s') ->
  wp (map_block x k) s Q.
Proof.
  intros R Hx Hk Hfb HQ. pose proof (rep_inv s v R) as Hi. pose proof (rp_fb _ _ R). unfold map_block, NDIRECT. destruct (Z.ltb_spec k 12) as [Hlt|Hge].
  - cbv zeta. assert (Hs : slot (tv_blk v) x k = nth (Z.to_nat k) (d_addrs x) 0) by (unfold slot; by rewrite (proj2 (Z.ltb_lt k 12))).
    assert (Hc : cost (tv_blk v) x k = if decide (slot (tv_blk v) x k = 0) then 1 else 0) by (unfold cost; case_decide; [rewrite (decide_False (P := 12 <= k /\ _)) by lia; lia|done]).
    rewrite Hc, Hs in *. destruct (Z.eqb_spec (nth (Z.to_nat k) (d_addrs x) 0) 0) as [E|E].
    + rewrite decide_True in Hfb, HQ by done. apply wp_bind. apply (take_addr s v x (Z.to_nat k)); [done|done|lia|done|lia|]. rewrite decide_False by lia. rewrite Z2Nat.id by lia.
      intros b s' v' R' Hf Hfi He Es Hb Ho. apply wp_ret. specialize (HQ (din_addr (Z.to_nat k) b x) s' v' R'). rewrite Es in HQ. apply HQ; [lia|done|done| |].
      * split; [by rewrite Es|intros j Hj; apply Ho; lia|]. rewrite ind_din_addr by lia. lia.
      * eapply extends_mono; [exact He|lia|set_solver].
    + rewrite decide_False in Hfb, HQ by done. apply wp_ret. rewrite <- Hs. apply (HQ x s v); [done|lia|done|done| |].
      * split; [by rewrite Hs|done|lia].
      * eapply extends_mono; [by apply extends_refl|lia|set_solver].
  - assert (Hki := slot_needs_ind (tv_blk v) x k ltac:(lia)).
    assert (Hrest : forall x1 s1 v1, rep s1 v1 -> mk_freeblock s1 = mk_freeblock s + (if decide (ind_addr x = 0) then 1 else 0) -> mk_freeinode s1 = mk_freeinode s ->
      (ind_addr x <> 0 -> v1 = v /\ x1 = x) -> (forall j, 0 <= j < 140 -> slot (tv_blk v1) x1 j = slot (tv_blk v) x j) ->
      extends sb 1 {[ind_addr x1]} v x v1 x1 -> ind_addr x1 <> 0 ->
      wp (indirect ← rsect (ind_addr x1);
          let o := Z.to_nat (4 * (k - 12)) in
          if get32 o indirect =? 0 then b ← next_block; wsect (ind_addr x1) (splice o (put32 b) indirect);; mret (x1, b)
          else mret (x1, get32 o indirect)) s1 Q).
    { intros x1 s1 v1 R1 Hf1 Hfi1 Hsame Hsl He1 Hn1.
      assert (Hc : mk_freeblock s1 + (if decide (slot (tv_blk v1) x1 k = 0) then 1 else 0) = mk_freeblock s + cost (tv_blk v) x k).
      { rewrite Hsl by lia. unfold cost. destruct (decide (ind_addr x = 0)) as [E|E].
        - rewrite !(decide_True (P := slot (tv_blk v) x k = 0)) by (destruct (decide (slot (tv_blk v) x k = 0)); [done|exfalso; by apply Hki]). rewrite decide_True by (split; [lia|done]). lia.
        - destruct (decide (slot (tv_blk v) x k = 0)); [rewrite decide_False by tauto; lia|lia]. }
      apply (take_entry s1 v1 x1 k); [done|apply He1|lia|done|lia|].
      intros s' v' R' Hf' Hfi' Hsame' He' Hs' Ho'. apply (HQ x1 s' v'); [done|lia|congruence|intros E; by apply Hsame, Hki| |].
      - split; [done| |split; [intros _; right; lia|done]]. intros j Hj Hne. rewrite Ho', Hsl by lia. done.
      - eapply extends_mono; [eapply extends_trans; [done|done|exact He1|exact He']|lia|].
        unfold ind_set. rewrite (proj2 (Z.eqb_neq _ _) Hn1). set_solver. }
    apply wp_bind. change (Z.to_nat 12) with 12%nat. change (nth 12 (d_addrs x) 0) with (ind_addr x). destruct (Z.eqb_spec (ind_addr x) 0) as [E|E].
    + assert (Hf0 : mk_freeblock s < 1000).
      { unfold cost in Hfb. rewrite !decide_True in Hfb; [lia|split; [lia|done]|]. destruct (decide (slot (tv_blk v) x k = 0)); [done|exfalso; by apply Hki]. }
      apply wp_bind. apply (take_addr s v x 12); [done|done|lia|done|lia|]. rewrite decide_True by done.
      intros b s1 v1 R1 Hf1 Hfi1 He1 Es Hb Ho. apply wp_ret. change (slot (tv_blk v1) (din_addr 12 b x) 140) with (ind_addr (din_addr 12 b x)) in Es.
      apply (Hrest (din_addr 12 b x) s1 v1); [done|by rewrite decide_True|done|done| |by rewrite Es|by rewrite Es]. intros j Hj. apply Ho; lia.
    + apply wp_ret. apply (Hrest x s v); [done|rewrite decide_False by done; lia|done|done|done| |done]. eapply extends_mono; [by apply extends_refl|lia|set_solver].
Qed.

(** ** [iappend] *)

Lemma mkfs_size : sb_size sb = 1000.
Proof. reflexivity. Qed.
Lemma mkfs_ninodes : sb_ninodes sb = 200.
Proof. reflexivity. Qed.
#[local] Opaque BLK mkfs_sb.

(** The addresses are those of a file of [n] bytes, no more and no less. *)
Definition exact (V : gmap Z block) (x : dinode) (n : Z) : Prop :=
  (forall k, 0 <= k < 140 -> slot V x k <> 0 <-> k * BLK < n) /\ (ind_addr x <> 0 <-> 12 * BLK < n).
(** The blocks such a file takes. *)
Definition fblocks (n : Z) : Z := (n + BLK - 1) / BLK + (if decide (12 * BLK < n) then 1 else 0).

Lemma fblocks_chunk off n1 : 0 <= off -> 0 < n1 -> off mod BLK + n1 <= BLK ->
  fblocks (off + n1) - fblocks off = (if decide (off / BLK * BLK < off) then 0 else 1) + (if decide (12 <= off / BLK /\ ~ 12 * BLK < off) then 1 else 0).
Proof.
  intros Ho Hn Hm. pose proof BLK_eq as HB. rewrite HB in *. unfold fblocks. pose proof (Z.div_mod off 512 ltac:(lia)). pose proof (Z.mod_pos_bound off 512 ltac:(lia)).
  assert (E1 : (off + n1 + 512 - 1) / 512 = off / 512 + 1) by (symmetry; apply (Z.div_unique _ _ _ (off mod 512 + n1 - 1)); lia).
  assert (E2 : (off + 512 - 1) / 512 = off / 512 + if decide (off / 512 * 512 < off) then 1 else 0).
  { case_decide; symmetry; [apply (Z.div_unique _ _ _ (off mod 512 - 1)); lia|apply (Z.div_unique _ _ _ 511); lia]. }
  rewrite HB, E1, E2. repeat case_decide; lia.
Qed.
Lemma exact_cost V x off n1 : exact V x off -> 0 <= off -> off / BLK < 140 -> 0 < n1 -> off mod BLK + n1 <= BLK ->
  cost V x (off / BLK) = fblocks (off + n1) - fblocks off.
Proof.
  intros [Hs Hi] Ho Hk Hn Hm. rewrite fblocks_chunk by done. pose proof BLK_eq as HB. assert (0 <= off / BLK) by (apply Z.div_pos; lia).
  pose proof (Z.div_mod off BLK ltac:(lia)). pose proof (Z.mod_pos_bound off BLK ltac:(lia)). specialize (Hs (off / BLK) ltac:(lia)).
  unfold cost. repeat case_decide; lia.
Qed.
Lemma exact_mapped V V' x x' off n1 : exact V x off -> mapped V V' x x' (off / BLK) -> 0 <= off -> 0 < n1 -> off mod BLK + n1 <= BLK ->
  exact V' x' (off + n1).
Proof.
  intros [Hs Hi] [M1 M2 M3] Ho Hn Hm. pose proof BLK_eq as HB. pose proof (Z.div_mod off BLK ltac:(lia)). pose proof (Z.mod_pos_bound off BLK ltac:(lia)).
  split.
  - intros k Hk. destruct (decide (k = off / BLK)) as [->|Hne]; [split; [lia|done]|]. rewrite M2, Hs by done. nia.
  - rewrite M3, Hi. nia.
Qed.

(** One turn of the loop. *)
Lemma append_chunk s v x off p n1 (K : dinode -> KM image (dinode * Z)) (P : dinode * Z -> image -> Prop) : rep s v -> inode_ok v sb x -> 0 <= off ->
  exact (tv_blk v) x off -> 0 < n1 <= Z.of_nat (length p) -> off mod BLK + n1 <= BLK -> off + n1 <= MAXFILE * BLK -> Forall is_byte p ->
  mk_freeblock s + (fblocks (off + n1) - fblocks off) <= 1000 ->
  (forall x' s' v' b, rep s' v' -> mk_freeblock s' = mk_freeblock s + (fblocks (off + n1) - fblocks off) -> mk_freeinode s' = mk_freeinode s ->
    exact (tv_blk v') x' (off + n1) -> wrote sb 1 {[b]} off (take (Z.to_nat n1) p) v x v' x' -> wp (K x') s' P) ->
  wp (r ← map_block x (off / BLK);
      buf ← rsect r.2;
      wsect r.2 (splice (Z.to_nat (off - off / BLK * BLK)) (take (Z.to_nat n1) p) buf);;
      K r.1) s P.
Proof.
  intros R Hx Ho Hex Hn1 Hmb Hmax Hp Hfb HK. pose proof BLK_eq as HB. pose proof (rp_fb _ _ R).
  pose proof (Z.div_mod off BLK ltac:(lia)) as Hdm. pose proof (Z.mod_pos_bound off BLK ltac:(lia)).
  assert (Hk : 0 <= off / BLK < 140).
  { unfold MAXFILE, NDIRECT, NINDIRECT in *. split; [apply Z.div_pos; lia|apply Z.div_lt_upper_bound; lia]. }
  rewrite <- (exact_cost _ _ _ _ Hex Ho (proj2 Hk) (proj1 Hn1) Hmb) in Hfb, HK.
  apply wp_bind. apply (map_block_spec s v x (off / BLK)); [done|done|done|done|].
  intros x1 s1 v1 R1 Hf1 Hfi1 Hsame Hmd He1. pose proof (md_here _ _ _ _ _ Hmd) as Hs1. pose proof (ex_ok _ _ _ _ _ _ _ He1) as Hx1. pose proof (rep_inv s1 v1 R1) as Hi1.
  pose proof (slot_data s1 v1 x1 (off / BLK) R1 Hx1 ltac:(lia) Hs1) as Hsr. pose proof (rp_fb _ _ R1).
  cbn [fst snd]. apply wp_bind. apply (rsect_spec s1 v1); [done|lia|lia|]. intros d Hd Hdl Hdy. apply wp_bind, wp_modify.
  assert (Hfd : fdata (tv_blk v1) x1 (off / BLK) = d) by (unfold fdata; by rewrite (proj2 (Z.eqb_neq _ _) Hs1), Hd).
  assert (Hlt : length (take (Z.to_nat n1) p) = Z.to_nat n1) by (rewrite length_take; lia).
  assert (Hoff : off - off / BLK * BLK = off mod BLK) by lia. rewrite Hoff.
  assert (HBS : BSIZE = 512%nat) by done. assert (Hnm : ~ is_map sb (slot (tv_blk v1) x1 (off / BLK))) by (rewrite mkfs_is_map; lia).
  apply (HK x1 _ (tv_put (slot (tv_blk v1) x1 (off / BLK)) (splice (Z.to_nat (off mod BLK)) (take (Z.to_nat n1) p) d) v1) (slot (tv_blk v1) x1 (off / BLK))).
  - apply rep_put; [done|lia|lia| |].
    + rewrite length_splice; [done|]. rewrite Hlt. lia.
    + apply splice_bytes; [by apply Forall_take|done].
  - done.
  - done.
  - pose proof (exact_mapped _ _ _ _ _ n1 Hex Hmd Ho ltac:(lia) Hmb) as [X1 X2]. split; [|done]. intros k Hkk. rewrite <- X1 by done. cbn [tv_put tv_blk].
    rewrite (slot_ext v1); [done|]. intros _. apply lookup_insert_ne. rewrite <- (slot_ind v1 x1).
    intros E. pose proof (in_inj _ _ _ Hx1 (off / BLK) 140 ltac:(lia) ltac:(lia) Hs1 E). lia.
  - eapply (extends_wrote sb 1); [by apply (rep_inv s)|done|exact He1| |lia| |].
    + replace off with (off / BLK * BLK + off mod BLK) at 2 by lia. rewrite <- Hfd.
      apply wrote_put; [done|done|done|done|by rewrite Hfd|lia|rewrite Hlt; lia|rewrite Hlt; lia].
    + intros Hall. apply Hsame, Hall. rewrite Hlt. lia.
    + exact (eq_sym (f_equal size (free_put_data v1 sb _ _ mkfs_layout Hnm))).
Qed.

Lemma fblocks_mono n m : n <= m -> fblocks n <= fblocks m.
Proof. intros Hn. unfold fblocks. pose proof BLK_eq. assert ((n + BLK - 1) / BLK <= (m + BLK - 1) / BLK) by (apply Z.div_le_mono; lia). repeat case_decide; lia. Qed.

Lemma append_loop_spec fuel : forall s v x off p, rep s v -> inode_ok v sb x -> 0 <= off -> exact (tv_blk v) x off -> off + Z.of_nat (length p) <= MAXFILE * BLK ->
  Forall is_byte p -> (length p < fuel)%nat -> mk_freeblock s + (fblocks (off + Z.of_nat (length p)) - fblocks off) <= 1000 ->
  wp (append_loop fuel x off p) s (fun r s' => exists v' D, rep s' v' /\ r.2 = off + Z.of_nat (length p) /\
    wrote sb (nblocks off (Z.of_nat (length p))) D off p v x v' r.1 /\ exact (tv_blk v') r.1 r.2 /\
    mk_freeblock s' = mk_freeblock s + (fblocks (off + Z.of_nat (length p)) - fblocks off) /\ mk_freeinode s' = mk_freeinode s).
Proof.
  pose proof BLK_eq as HB. induction fuel as [|fuel IH]; intros s v x off p R Hx Ho Hex Hmax Hp Hf Hfb; [lia|]. cbn [append_loop].
  destruct p as [|c p0] eqn:Ep.
  { apply wp_ret. exists v, ∅. cbn [length snd fst]. rewrite Z.add_0_r. split_and!; [done|done|apply wrote_refl; [by apply (rep_inv s)|done]|done|lia|done]. }
  rewrite <- Ep in *. assert (Hpos : (0 < length p)%nat) by (rewrite Ep; simpl; lia). clear Ep c p0. cbv zeta.
  pose proof (Z.div_mod off BLK ltac:(lia)) as Hdm. pose proof (Z.mod_pos_bound off BLK ltac:(lia)).
  assert (Hk : 0 <= off / BLK < 140).
  { unfold MAXFILE, NDIRECT, NINDIRECT in *. split; [apply Z.div_pos; lia|apply Z.div_lt_upper_bound; lia]. }
  replace ((off / BLK + 1) * BLK - off) with (BLK - off mod BLK) by lia.
  destruct (chunk_step off (Z.of_nat (length p)) _ Ho ltac:(lia) eq_refl) as (Hm1 & Hm2 & Hnb).
  set (n1 := Z.min (Z.of_nat (length p)) (BLK - off mod BLK)) in *. clearbody n1.
  unfold assert. rewrite (proj2 (Z.ltb_lt (off / BLK) MAXFILE)) by (unfold MAXFILE, NDIRECT, NINDIRECT; lia). apply wp_bind, wp_ret.
  pose proof (fblocks_mono (off + n1) (off + Z.of_nat (length p)) ltac:(lia)).
  apply (append_chunk s v x off p n1 (fun x' => append_loop fuel x' (u32 (off + n1)) (drop (Z.to_nat n1) p)) _ R Hx Ho Hex Hm1 Hm2 ltac:(lia) Hp ltac:(lia)).
  intros x1 s1 v1 b R1 Hf1 Hfi1 Hex1 Hw1. rewrite u32_id by (unfold MAXFILE, NDIRECT, NINDIRECT in *; lia).
  assert (Hlt : length (take (Z.to_nat n1) p) = Z.to_nat n1) by (rewrite length_take; lia).
  assert (Hld : off + n1 + Z.of_nat (length (drop (Z.to_nat n1) p)) = off + Z.of_nat (length p)) by (rewrite length_drop; lia).
  eapply wp_mono; [apply (IH s1 v1 x1 (off + n1) (drop (Z.to_nat n1) p)); [done|apply Hw1|lia|done|lia|by apply Forall_drop|rewrite length_drop; lia|rewrite Hld; lia]|].
  intros r s2 (v2 & D2 & R2 & Er & Hw2 & Hex2 & Hf2 & Hfi2). rewrite Hld in *. exists v2, ({[b]} ∪ D2). split_and!; [done|lia| |done|lia|congruence].
  rewrite Hnb. replace (Z.of_nat (length p) - n1) with (Z.of_nat (length (drop (Z.to_nat n1) p))) by lia.
  pose proof (wrote_trans sb 1 (nblocks (off + n1) (Z.of_nat (length (drop (Z.to_nat n1) p)))) {[b]} D2 off (take (Z.to_nat n1) p) (drop (Z.to_nat n1) p) v x v1 x1 v2 r.1 (rep_inv s v R) Hx Ho) as Hw.
  rewrite take_drop, Hlt, Z2Nat.id in Hw by lia. by apply Hw.
Qed.

Lemma winode_spec s v inum x (Q : unit -> image -> Prop) : rep s v -> 0 <= inum < 200 -> din_range x ->
  (forall s' v', rep s' v' -> mk_freeblock s' = mk_freeblock s -> mk_freeinode s' = mk_freeinode s -> inode_put sb inum x v v' -> Q tt s') ->
  wp (winode inum x) s Q.
Proof.
  intros R Hin Hr HQ. pose proof (rep_inv s v R) as Hi. rewrite <- mkfs_ninodes in Hin. destruct (iblock_eq sb mkfs_layout inum Hin) as [_ Hb].
  assert (Hb' : 32 <= IBLOCK inum sb < 58) by exact Hb. pose proof (rp_fb _ _ R). unfold winode. wp_steps. rewrite (rp_sb _ _ R). cbv zeta.
  apply (rsect_spec s v); [done|lia|lia|]. intros d Hd Hdl Hdy. apply wp_modify.
  eapply HQ; [apply rep_put; [done|lia|lia| |]|done|done|by apply inode_put_ok].
  - rewrite length_splice; [done|]. rewrite length_enc by apply Hr. rewrite Hdl. apply dinode_off_le.
  - apply splice_bytes; [apply enc_bytes|done].
Qed.

Lemma rinode_spec s v inum x (Q : dinode -> image -> Prop) : rep s v -> 0 <= inum < 200 -> disk_inode v sb inum = Some x -> Q x s -> wp (rinode inum) s Q.
Proof.
  intros R Hin Hx HQ. rewrite <- mkfs_ninodes in Hin. destruct (iblock_eq sb mkfs_layout inum Hin) as [_ Hb].
  assert (Hb' : 32 <= IBLOCK inum sb < 58) by exact Hb. unfold rinode. wp_steps. rewrite (rp_sb _ _ R). cbv zeta.
  apply (rsect_spec s v); [done|lia|lia|]. intros d Hd _ _. apply wp_ret. unfold disk_inode in Hx. rewrite Hd in Hx. by injection Hx as ->.
Qed.

(** A file of its exact size whose last block ends in zeros. *)
Definition tight (V : gmap Z block) (x : dinode) : Prop :=
  exact V x (d_size x) /\ forall i, d_size x <= i < MAXFILE * BLK -> fbyte V x i = 0.

(** [iappend] writes at the end of the file as [writei] would. *)
Lemma iappend_spec s v inum x p (Q : unit -> image -> Prop) : rep s v -> 0 <= inum < 200 -> disk_inode v sb inum = Some x -> inode_ok v sb x -> din_range x ->
  tight (tv_blk v) x -> Forall is_byte p -> p <> [] -> d_size x + Z.of_nat (length p) <= MAXFILE * BLK ->
  mk_freeblock s + (fblocks (d_size x + Z.of_nat (length p)) - fblocks (d_size x)) <= 1000 ->
  (forall s' v' x', rep s' v' -> mk_freeblock s' = mk_freeblock s + (fblocks (d_size x + Z.of_nat (length p)) - fblocks (d_size x)) ->
    mk_freeinode s' = mk_freeinode s -> written sb inum (d_size x) p v x v' x' -> tight (tv_blk v') x' -> din_range x' -> Q tt s') ->
  wp (iappend inum p) s Q.
Proof.
  intros R Hin Hd Hx Hr [Hex Htl] Hp Hp0 Hmax Hfb HQ. pose proof (rep_inv s v R) as Hi. pose proof (in_size _ _ _ Hx) as Hsz. pose proof BLK_eq as HB.
  assert (Hlen : (0 < length p)%nat) by (destruct p; [done|simpl; lia]).
  unfold iappend. apply wp_bind. apply (rinode_spec s v inum x); [done|done|done|]. apply wp_bind.
  eapply wp_mono; [apply (append_loop_spec _ s v x (d_size x) p); [done|done|lia|done|lia|done|lia|done]|].
  intros [x1 off1] s1 (v1 & D & R1 & Eo & Hw & Hex1 & Hf1 & Hfi1). cbn [fst snd] in *. subst off1.
  assert (Hg : inode_ok v1 sb (din_size (d_size x + Z.of_nat (length p)) x1)) by (apply (grown_ok sb (d_size x) p v x v1 x1 D); (done || lia)).
  assert (Hr1 : din_range (din_size (d_size x + Z.of_nat (length p)) x1)).
  { destruct (wr_meta _ _ _ _ _ _ _ _ _ Hw) as (E1 & E2 & E3 & E4 & _). destruct Hr as (A1 & A2 & A3 & A4 & _). unfold din_range. cbn [d_type d_major d_minor d_nlink d_size d_addrs din_size].
    rewrite E1, E2, E3, E4. split_and!; [done|done|done|done|lia| |apply Hg|by apply (addrs_range v1 sb _ (rep_inv s1 v1 R1) Hg)].
    unfold MAXFILE, NDIRECT, NINDIRECT in *. lia. }
  apply (winode_spec s1 v1 inum _); [done|done|done|]. intros s2 v2 R2 Hf2 Hfi2 Hput. eapply HQ; [exact R2|lia|congruence| | |exact Hr1].
  - apply (written_past sb inum (d_size x) p v x v1 x1 D); [done|done|by rewrite mkfs_ninodes|lia|lia|exact Hw|lia|exact Hput].
  - destruct (evolves_other sb _ v1 v2 _ (rep_inv s1 v1 R1) (ip_ev _ _ _ _ _ Hput) Hg) as (_ & Hsl & _ & Hfb2 & _).
    { intros k Hk. rewrite elem_of_singleton. apply (slot_not_iblock sb v1); [by apply (rep_inv s1)|done|by rewrite mkfs_ninodes|done]. }
    split; [split; [|apply Hex1]|].
    + intros k Hk. rewrite Hsl, slot_size. by apply Hex1.
    + cbn [d_size din_size]. intros i Hii. rewrite Hfb2 by lia. change (fbyte (tv_blk v1) x1 i = 0). rewrite (wr_bytes _ _ _ _ _ _ _ _ _ Hw) by lia.
      rewrite decide_False by lia. apply Htl. lia.
Qed.
