(* ===== verification/MkfsTheorems.v ===== *)
(** * The finished image

    The files made so far, as a list of types and contents, are what the image
    holds while [mkfs] runs ([built]); [ialloc] adds an empty file to the list
    and [iappend] adds bytes to one of them.  [mkfs_correct] is the statement
    about the whole program. *)

From S2P Require Import Prelude Sleeplock Bio Log LogSpec BlockStore Fs FsBlocks FsInode FsFile FsWrite FsFree FsCheck FsDir FsPath Mkfs MkfsSpec.

#[local] Opaque BLK mkfs_sb.

(** ** Files in the image *)

(** Inode [inum] is a file of type [t] with contents [c]. *)
Record file_at (v : tview) (inum t : Z) (c : list Z) (x : dinode) : Prop := mk_file_at {
  fa_disk : disk_inode v sb inum = Some x;
  fa_ok : inode_ok v sb x;
  fa_range : din_range x;
  fa_tight : tight (tv_blk v) x;
  fa_kind : d_type x = t /\ d_major x = 0 /\ d_minor x = 0 /\ d_nlink x = 1;
  fa_content : content (tv_blk v) x = c
}.
Lemma file_size v inum t c x : file_at v inum t c x -> d_size x = Z.of_nat (length c).
Proof. intros F. rewrite <- (fa_content _ _ _ _ _ F), length_content. pose proof (in_size _ _ _ (fa_ok _ _ _ _ _ F)). lia. Qed.

(** An inode that keeps its blocks keeps its file. *)
Lemma file_at_kept v v' inum t c x : kept sb v v' x -> file_at v inum t c x -> disk_inode v' sb inum = disk_inode v sb inum -> file_at v' inum t c x.
Proof.
  intros (H1 & H2 & H3 & H4 & H5) [F1 F2 F3 [[F4 F4'] F5] F6 F7] Hd. split; [congruence|done|done| |done|congruence]. split; [split; [|done]|].
  - intros k Hk. rewrite H2. by apply F4.
  - intros i Hii. pose proof (in_size _ _ _ F2). rewrite H4 by lia. by apply F5.
Qed.

(** The blocks that a list of files takes. *)
Definition total (ns : list (Z * list Z)) : Z := foldr (fun f n => fblocks (Z.of_nat (length f.2)) + n) 0 ns.
Lemma fblocks_nonneg n : 0 <= n -> 0 <= fblocks n.
Proof. intros Hn. unfold fblocks. pose proof BLK_eq. assert (0 <= (n + BLK - 1) / BLK) by (apply Z.div_pos; lia). case_decide; lia. Qed.
Lemma fblocks_zero : fblocks 0 = 0.
Proof. unfold fblocks. pose proof BLK_eq as HB. rewrite HB, decide_False by lia. done. Qed.
Lemma total_nonneg ns : 0 <= total ns.
Proof. induction ns as [|f ns IH]; [done|]. cbn [total foldr]. fold (total ns). pose proof (fblocks_nonneg (Z.of_nat (length f.2))). lia. Qed.
Lemma total_app l k : total (l ++ k) = total l + total k.
Proof. unfold total. induction l as [|f l IH]; [done|]. cbn [foldr app]. rewrite IH. lia. Qed.
Lemma total_insert ns k t c t' c' : ns !! k = Some (t, c) ->
  total (<[k := (t', c')]> ns) = total ns + (fblocks (Z.of_nat (length c')) - fblocks (Z.of_nat (length c))).
Proof.
  revert k. induction ns as [|f ns IH]; intros [|k] Hk; simplify_eq/=; [lia|]. unfold total in *. cbn [foldr]. rewrite (IH k Hk). lia.
Qed.

Definition no_inode : dinode := mkdinode 0 0 0 0 0 (replicate 13 0).
(** Inodes 1 and up are the files [ns], the other inodes and the blocks from
    [freeblock] on are free. *)
Record built (s : image) (v : tview) (ns : list (Z * list Z)) : Prop := mk_built {
  bt_rep : rep s v;
  bt_count : mk_freeinode s = 1 + Z.of_nat (length ns) /\ Z.of_nat (length ns) < 200;
  bt_type : Forall (fun f => f.1 <> 0) ns;
  bt_cons : consistent v sb;
  bt_file : forall k t c, ns !! k = Some (t, c) -> exists x, file_at v (1 + Z.of_nat k) t c x;
  bt_rest : forall i, i = 0 \/ Z.of_nat (length ns) < i < 200 -> disk_inode v sb i = Some no_inode;
  bt_blocks : mk_freeblock s = 59 + total ns
}.

(** A file just made. *)
Lemma new_tight V x : d_addrs x = replicate 13 0 -> d_size x = 0 -> tight V x.
Proof.
  intros Ha Hz. pose proof BLK_eq as HB. pose proof (fun k => blank_slot V x k Ha) as Hs. split; [split; [intros k Hk; rewrite Hs|unfold ind_addr; rewrite Ha, nth_repeat_zero]; rewrite Hz; lia|].
  intros i Hi. unfold fbyte, fdata. rewrite Hs. apply nth_repeat_zero.
Qed.

Section built.
Context (s : image) (v : tview) (ns : list (Z * list Z)).
Hypothesis B : built s v ns.

Lemma built_file i : 1 <= i <= Z.of_nat (length ns) -> exists t c x, ns !! Z.to_nat (i - 1) = Some (t, c) /\ file_at v i t c x.
Proof.
  intros Hi. destruct (lookup_lt_is_Some_2 ns (Z.to_nat (i - 1)) ltac:(lia)) as [[t c] Hk]. destruct (bt_file _ _ _ B _ t c Hk) as [x Hx].
  replace (1 + Z.of_nat (Z.to_nat (i - 1))) with i in Hx by lia. eauto.
Qed.

Lemma built_at k t c x : ns !! k = Some (t, c) -> file_at v (1 + Z.of_nat k) t c x -> inode_at v sb (1 + Z.of_nat k) x.
Proof.
  intros Hk F. pose proof (lookup_lt_Some _ _ _ Hk). destruct (bt_count _ _ _ B) as [_ Hl]. split; [rewrite mkfs_ninodes; lia|]. split; [apply F|].
  destruct F as [_ _ _ _ (-> & _) _]. by apply (Forall_lookup_1 _ _ _ _ (bt_type _ _ _ B) Hk).
Qed.

(** One inode changes; the files of the others are still there. *)
Lemma built_others i x x' v' : changes sb i x x' v v' -> forall k t c, ns !! k = Some (t, c) -> 1 + Z.of_nat k <> i -> exists y, file_at v' (1 + Z.of_nat k) t c y.
Proof.
  intros G k t c Hk Hn. destruct (bt_file _ _ _ B k t c Hk) as [y F]. exists y. pose proof (built_at k t c y Hk F) as Hy.
  apply (file_at_kept v); [by apply (cg_rest _ _ _ _ _ _ G (1 + Z.of_nat k))|done|]. apply (cg_other _ _ _ _ _ _ G); [apply Hy|done].
Qed.

(** [iappend] adds bytes to a file. *)
Lemma built_append k t c p : ns !! k = Some (t, c) -> Forall is_byte p -> p <> [] -> Z.of_nat (length (c ++ p)) <= MAXFILE * BLK ->
  59 + total (<[k := (t, c ++ p)]> ns) <= 1000 ->
  wp (iappend (1 + Z.of_nat k) p) s (fun _ s' => exists v', built s' v' (<[k := (t, c ++ p)]> ns)).
Proof.
  intros Hk Hp Hp0 Hmax Htot. destruct (bt_file _ _ _ B k t c Hk) as [x F]. pose proof (file_size _ _ _ _ _ F) as Hsz. pose proof (bt_rep _ _ _ B) as R.
  pose proof (rep_inv s v R) as Hi. destruct (bt_count _ _ _ B) as [Hfi Hlt]. pose proof (lookup_lt_Some _ _ _ Hk) as Hkl. rewrite (total_insert ns k t c) in Htot by done.
  rewrite length_app in *. destruct F as [F1 F2 F3 F4 F5 F6].
  assert (Hfb : mk_freeblock s + (fblocks (d_size x + Z.of_nat (length p)) - fblocks (d_size x)) = 59 + total (<[k := (t, c ++ p)]> ns)).
  { rewrite (bt_blocks _ _ _ B), (total_insert ns k t c), length_app, Hsz, Nat2Z.inj_add by done. lia. }
  apply (iappend_spec s v _ x p); [done|lia|done|done|done|done|done|done|lia| |].
  { rewrite Hfb, (total_insert ns k t c), length_app by done. lia. }
  intros s' v' x' R' Hf' Hfi' W Ht' Hr'. exists v'.
  assert (Hx : inode_at v sb (1 + Z.of_nat k) x) by (by apply (built_at k t c)).
  pose proof (written_changes sb _ _ _ v x v' x' (bt_cons _ _ _ B) Hx W) as G.
  split; rewrite ?length_insert.
  - done.
  - lia.
  - apply (Forall_insert (fun f : Z * list Z => f.1 <> 0)); [apply B|]. exact (Forall_lookup_1 _ _ _ _ (bt_type _ _ _ B) Hk).
  - by apply (changes_consistent v v' sb _ x x' (bt_cons _ _ _ B) G); [apply Hx|apply Hx].
  - intros j t0 c0. rewrite list_lookup_insert_Some. intros [(-> & [= <- <-] & _)|[Hne Hj]]; [|eapply built_others; [exact G|done|lia]].
    exists x'. split; [by apply (wn_here _ _ _ _ _ _ _ _ W)|apply W|done|done| |].
    + destruct (wn_kind _ _ _ _ _ _ _ _ W) as (-> & -> & -> & ->). done.
    + rewrite (wn_content _ _ _ _ _ _ _ _ W), F6, Hsz, Nat2Z.id. unfold splice. rewrite firstn_all, drop_ge by lia. by rewrite app_nil_r.
  - intros i Hir. rewrite (wn_other _ _ _ _ _ _ _ _ W) by (rewrite ?mkfs_ninodes; lia). by apply (bt_rest _ _ _ B).
  - congruence.
Qed.

(** [ialloc] adds an empty file. *)
Lemma built_ialloc t : short t -> t <> 0 -> Z.of_nat (length ns) + 1 < 200 ->
  wp (ialloc t) s (fun i s' => i = 1 + Z.of_nat (length ns) /\ exists v', built s' v' (ns ++ [(t, [])])).
Proof.
  intros Ht Ht0 Hlen. pose proof (bt_rep _ _ _ B) as R. destruct (bt_count _ _ _ B) as [Hfi _]. unfold ialloc. wp_steps. rewrite Hfi, u32_id by lia.
  set (x := mkdinode t 0 0 1 0 (replicate 13 0)). set (n := 1 + Z.of_nat (length ns)).
  assert (R1 : rep (set_freeinode (n + 1) s) v) by (destruct R; by split).
  assert (Hx : din_range x) by (by apply blank_range).
  apply (winode_spec _ v n x); [done|lia|done|]. intros s' v' R' Hf' Hfi' Hput. wp_steps. split; [done|]. exists v'. cbn [mk_freeblock mk_freeinode set_freeinode] in *.
  assert (Hn : 0 <= n < sb_ninodes sb) by (rewrite mkfs_ninodes; lia).
  assert (Hfree : disk_inode v sb n = Some no_inode) by (apply (bt_rest _ _ _ B); lia).
  assert (G : changes sb n no_inode x v v') by (apply put_changes; [apply B|done|done|done|by apply blank_ok|done|done|by apply blank_owned]).
  split; rewrite ?length_app; cbn [length].
  - done.
  - lia.
  - apply Forall_app. split; [apply B|by constructor].
  - by apply (changes_consistent v v' sb n no_inode x (bt_cons _ _ _ B) G).
  - intros k t0 c0. rewrite lookup_app_Some, list_lookup_singleton_Some. intros [Hk|(Hk & Hk0 & [= <- <-])].
    + pose proof (lookup_lt_Some _ _ _ Hk). eapply built_others; [exact G|done|lia].
    + exists x. replace (1 + Z.of_nat k) with n by lia. split; [apply Hput|by apply blank_ok|done|by apply new_tight|done|by apply blank_content].
  - intros i Hir. rewrite (ip_other _ _ _ _ _ Hput) by (rewrite ?mkfs_ninodes; lia). apply (bt_rest _ _ _ B). lia.
  - rewrite total_app. cbn [total foldr snd length]. change (Z.of_nat 0) with 0. rewrite fblocks_zero, Hf', (bt_blocks _ _ _ B). lia.
Qed.
End built.

(** The contents of a file, piece by piece. *)
Lemma built_append_all pieces : forall s v ns k t c, built s v ns -> ns !! k = Some (t, c) -> Forall (fun p => p <> [] /\ Forall is_byte p) pieces ->
  Z.of_nat (length (c ++ mjoin pieces)) <= MAXFILE * BLK -> 59 + total (<[k := (t, c ++ mjoin pieces)]> ns) <= 1000 ->
  wp (append_all (1 + Z.of_nat k) pieces) s (fun _ s' => exists v', built s' v' (<[k := (t, c ++ mjoin pieces)]> ns)).
Proof.
  induction pieces as [|p pieces IH]; intros s v ns k t c B Hk Hp Hmax Htot; cbn [append_all].
  { change (mjoin []) with (@nil Z) in *. rewrite app_nil_r in *. rewrite list_insert_id by done. apply wp_ret. eauto. }
  apply Forall_cons in Hp as [[Hp0 Hpb] Hp]. change (mjoin (p :: pieces)) with (p ++ mjoin pieces) in *. rewrite app_assoc in *. apply wp_bind. rewrite (total_insert ns k t c) in Htot by done. rewrite (length_app (c ++ p)) in *.
  pose proof (fblocks_mono (Z.of_nat (length (c ++ p))) (Z.of_nat (length (c ++ p) + length (mjoin pieces))) ltac:(lia)). pose proof (lookup_lt_Some _ _ _ Hk) as Hlt.
  eapply wp_mono; [apply (built_append s v ns B k t c p); [done|done|done|lia|rewrite (total_insert ns k t c) by done; lia]|]. intros [] s1 [v1 B1].
  rewrite <- (list_insert_insert_eq ns k (t, (c ++ p) ++ mjoin pieces) (t, c ++ p)).
  apply (IH s1 v1 _ k t (c ++ p)); [done|by apply list_lookup_insert_eq|done|rewrite length_app; lia|].
  rewrite list_insert_insert_eq, (total_insert ns k t c), length_app by done. lia.
Qed.

(** ** The files of the command line *)

(** The entries [mkfs] makes for the files, the first of which is inode [inum]. *)
Fixpoint dir_bytes (inum : Z) (files : list (list Z * list (list Z))) : list Z :=
  match files with
  | [] => []
  | f :: files => mkdirent inum (strncpy (Z.to_nat DIRSIZ) (strip f.1)) ++ dir_bytes (inum + 1) files
  end.
Lemma length_mkdirent i nm : length (mkdirent i (strncpy (Z.to_nat DIRSIZ) nm)) = 16%nat.
Proof. unfold mkdirent. by rewrite length_app, length_le_bytes, length_strncpy. Qed.
Lemma length_dir_bytes files : forall i, length (dir_bytes i files) = (16 * length files)%nat.
Proof. induction files as [|f files IH]; intros i; [done|]. cbn [dir_bytes length]. rewrite length_app, length_mkdirent, IH. lia. Qed.
(** A file [mkfs] can take: a name without a slash, contents that [read]
    returns in pieces and that fit in a file. *)
Definition file_ok (f : list Z * list (list Z)) : Prop :=
  Forall (fun c => is_byte c /\ c <> SLASH) f.1 /\ Forall (fun p => p <> [] /\ Forall is_byte p) f.2 /\ Z.of_nat (length (mjoin f.2)) <= MAXFILE * BLK.
#[export] Instance file_ok_dec f : Decision (file_ok f).
Proof. unfold file_ok, is_byte. apply _. Defined.

Lemma strip_bytes nm : Forall is_byte nm -> Forall is_byte (strip nm).
Proof. intros H. destruct H as [|c nm Hc Hn]; [done|]. unfold strip. case_match; [done|by constructor]. Qed.

Definition as_file (f : list Z * list (list Z)) : Z * list Z := (T_FILE, mjoin f.2).
(** The files of the image after those of the command line. *)
Definition disk_files (root : list Z) (files : list (list Z * list (list Z))) : list (Z * list Z) :=
  (T_DIR, root) :: (as_file <$> files).

Lemma built_add_file s v r fs f : built s v ((T_DIR, r) :: fs) -> file_ok f -> length r = (16 * (length fs + 2))%nat -> Z.of_nat (length fs) + 2 < 200 ->
  let d := mkdirent (2 + Z.of_nat (length fs)) (strncpy (Z.to_nat DIRSIZ) (strip f.1)) in
  let ns := (T_DIR, r ++ d) :: fs ++ [as_file f] in 59 + total ns <= 1000 ->
  wp (add_file 1 f) s (fun _ s' => exists v', built s' v' ns).
Proof.
  intros B (Hn & Hp & Hmax) Hr Hlen d ns Htot. pose proof BLK_eq as HB. unfold add_file, assert.
  assert (forallb (fun c => negb (c =? SLASH)) f.1 = true) as ->.
  { apply forallb_forall. intros c Hc%list_elem_of_In. rewrite Forall_forall in Hn. destruct (Hn c Hc) as [_ Hs]. by rewrite (proj2 (Z.eqb_neq _ _) Hs). }
  apply wp_bind, wp_ret, wp_bind. eapply wp_mono; [apply (built_ialloc s v _ B T_FILE); [unfold short, T_FILE; lia|done|cbn [length]; lia]|].
  intros i s1 [-> [v1 B1]]. cbn [length]. replace (1 + Z.of_nat (S (length fs))) with (2 + Z.of_nat (length fs)) by lia. fold d.
  assert (Hd : length d = 16%nat) by apply length_mkdirent. unfold ns in Htot. rewrite app_comm_cons, total_app in Htot.
  pose proof (total_nonneg [as_file f]). apply wp_bind.
  eapply wp_mono; [apply (built_append s1 v1 _ B1 0 T_DIR r d)|].
  - done.
  - apply mkdirent_spec; [lia|]. apply strip_bytes. eapply Forall_impl; [exact Hn|]. by intros c [? _].
  - by destruct d.
  - rewrite length_app, Hr, Hd, HB. unfold MAXFILE, NDIRECT, NINDIRECT. lia.
  - cbn [list_insert insert app]. rewrite app_comm_cons, total_app. cbn [total foldr snd length] in *. change (Z.of_nat 0) with 0. rewrite fblocks_zero. lia.
  - intros [] s2 [v2 B2]. cbn [list_insert insert app] in B2.
    replace (2 + Z.of_nat (length fs)) with (1 + Z.of_nat (S (length fs))) by lia.
    assert (E : <[S (length fs) := as_file f]> ((T_DIR, r ++ d) :: fs ++ [(T_FILE, [])]) = ns).
    { unfold ns. change (<[S (length fs) := as_file f]> ((T_DIR, r ++ d) :: fs ++ [(T_FILE, [])])) with ((T_DIR, r ++ d) :: <[length fs := as_file f]> (fs ++ [(T_FILE, [])])). f_equal. rewrite insert_app_r_alt, Nat.sub_diag by done. done. }
    rewrite <- E. change (as_file f) with (T_FILE, [] ++ mjoin f.2). eapply built_append_all; [exact B2| |done|done|].
    + cbn [lookup list_lookup]. by apply list_lookup_middle.
    + cbn [app]. change (T_FILE, mjoin f.2) with (as_file f). rewrite E. unfold ns. rewrite app_comm_cons, total_app. done.
Qed.

Lemma built_add_files files : forall s v r fs, built s v ((T_DIR, r) :: fs) -> Forall file_ok files -> length r = (16 * (length fs + 2))%nat ->
  Z.of_nat (length fs) + Z.of_nat (length files) + 1 < 200 ->
  let ns := (T_DIR, r ++ dir_bytes (2 + Z.of_nat (length fs)) files) :: fs ++ (as_file <$> files) in 59 + total ns <= 1000 ->
  wp (add_files 1 files) s (fun _ s' => exists v', built s' v' ns).
Proof.
  induction files as [|f files IH]; intros s v r fs B Hf Hr Hlen ns Htot; unfold ns in *; cbn [add_files dir_bytes length fmap list_fmap] in *.
  { rewrite !app_nil_r. apply wp_ret. eauto. }
  apply Forall_cons in Hf as [Hf Hfs]. apply wp_bind. set (d := mkdirent _ _) in *. assert (Hd : length d = 16%nat) by apply length_mkdirent.
  rewrite app_assoc in *. rewrite (cons_middle _ fs), app_assoc in *.
  eapply wp_mono; [apply (built_add_file s v r fs f B Hf Hr ltac:(lia))|].
  - fold d. rewrite app_comm_cons, total_app in Htot. cbn [total foldr snd app] in *. rewrite !length_app in Htot.
    pose proof (fblocks_mono (Z.of_nat (length (r ++ d))) (Z.of_nat (length r + length d + length (dir_bytes (2 + Z.of_nat (length fs) + 1) files))) ltac:(rewrite length_app; lia)).
    pose proof (total_nonneg (as_file <$> files)). unfold total in *. lia.
  - fold d. intros [] s1 [v1 B1]. pose proof (IH s1 v1 (r ++ d) (fs ++ [as_file f]) B1 Hfs) as Hrec. rewrite !length_app, Hd in Hrec. cbn [length] in Hrec.
    replace (2 + Z.of_nat (length fs + 1)) with (2 + Z.of_nat (length fs) + 1) in Hrec by lia. apply Hrec; [lia|lia|done].
Qed.

(** ** From the empty image to the finished one *)

Lemma zero_inode i : dec_dinode (dinode_off i) zeros = no_inode.
Proof.
  assert (Hs : forall o n, le_val (slice o n zeros) = 0).
  { intros o n. unfold slice, zeros. rewrite drop_replicate, take_replicate. generalize (n `min` (BSIZE - o))%nat. induction n0 as [|n0 IH]; [done|]. cbn [replicate le_val]. by rewrite IH. }
  unfold dec_dinode. cbn [seq fmap list_fmap]. unfold get16, get32. rewrite !Hs. done.
Qed.

(** The kernel's view of a finished image, with no transaction open. *)
Definition disk_view (img : gmap Z block) : tview := mktview (data img) ∅ ∅ ∅ (list_to_set (seqZ 32 968)) 0.

(** A file system without files is consistent. *)
Lemma no_files v : fs_inv v sb -> (forall i, 0 <= i < 200 -> disk_inode v sb i = Some no_inode) -> (forall b, 59 <= b < 1000 -> used v sb b = false) -> consistent v sb.
Proof.
  intros Hi Hno Hu. assert (Hat : forall i x, ~ inode_at v sb i x).
  { intros i x (Hr & Hx & Ht). rewrite mkfs_ninodes in Hr. rewrite Hno in Hx by done. by injection Hx as <-. }
  split; [done|by intros i x ?%Hat|by intros i j x y _ ?%Hat|]. intros b Hb. rewrite Hu; [done|exact Hb].
Qed.
Lemma main_init (K : KM image unit) (Q : unit -> image -> Prop) : (forall s v, built s v [] -> wp K s Q) ->
  wp (kmodify (set_mksb mkfs_sb);;
      kmodify (set_freeblock nmeta);;
      kfor 0 (Z.to_nat FSSIZE) (fun i => wsect (Z.of_nat i) (replicate BSIZE 0));;
      wsect 1 (splice 0 (enc_sb mkfs_sb) (replicate BSIZE 0));; K) mkfs_start Q.
Proof.
  intros HK. do 2 (apply wp_bind, wp_modify). apply wp_bind.
  apply (wp_kfor (fun i s => mk_sb s = sb /\ mk_freeblock s = 59 /\ mk_freeinode s = 1 /\ forall b, mk_img s !! b = if decide (0 <= b < Z.of_nat i) then Some zeros else None)).
  { split_and!; try done. intros b. by rewrite decide_False by lia. }
  { intros i s _ (H1 & H2 & H3 & H4). apply wp_modify. split_and!; try done. intros b. cbn [mk_img set_img]. destruct (decide (b = Z.of_nat i)) as [->|Hne].
    - rewrite lookup_insert_eq, decide_True by lia. done.
    - rewrite lookup_insert_ne, H4 by done. by repeat case_decide; try lia. }
  intros s (H1 & H2 & H3 & H4). change (0 + Z.to_nat FSSIZE)%nat with (Z.to_nat 1000) in H4. rewrite Z2Nat.id in H4 by lia. apply wp_bind, wp_modify. fold zeros. fold sb_block.
  set (s1 := set_img (<[1 := sb_block]> (mk_img s)) s).
  set (v := mktview (<[58 := bitmap (Z.to_nat 59)]> (data (mk_img s1))) ∅ ∅ ∅ (list_to_set (seqZ 32 968)) 0).
  assert (Hz : forall b, 0 <= b < 1000 -> b <> 1 -> mk_img s1 !! b = Some zeros).
  { intros b Hb H1'. cbn [mk_img s1 set_img]. by rewrite lookup_insert_ne, H4, decide_True. }
  assert (R : rep s1 v).
  { split; try done; cbn [s1 mk_sb mk_freeblock mk_freeinode mk_img set_img] in *.
    - lia.
    - by rewrite H2.
    - intros b. rewrite lookup_insert_is_Some, H4. case_decide; [split; [done|]|split; [|done]]; [intros _; destruct (decide (1 = b)); [by left|by right]|].
      intros [<-|[_ [? ?]]]; [lia|done].
    - intros b d. rewrite lookup_insert_Some, H4. intros [[<- <-]|[_ Hd]]; [split; apply sb_block_ok|]. case_decide; [|done]. injection Hd as <-. split; [done|apply zeros_bytes].
    - intros b d Hb. unfold fixed. destruct (Z.eqb_spec b 1) as [->|Hne]; [intros [= <-]; apply lookup_insert_eq|]. destruct (Z.ltb_spec b 32); [|done]. intros [= <-]. apply Hz; lia.
    - intros b Hb. apply Hz; lia.
    - cbn [v tv_cap]. unfold NBUF, MAXOPBLOCKS. lia. }
  assert (Hno : forall i, 0 <= i < 200 -> disk_inode v sb i = Some no_inode).
  { intros i Hi. assert (Hin : 0 <= i < sb_ninodes sb) by (rewrite mkfs_ninodes; lia). destruct (iblock_eq sb mkfs_layout i Hin) as [_ Hb].
    assert (Hb' : 32 <= IBLOCK i sb < 58) by exact Hb. unfold disk_inode. rewrite (rep_blk s1 v R), Hz by lia. simpl. by rewrite zero_inode. }
  apply (HK s1 v). split; [done|done|done| |intros k t c; rewrite lookup_nil; done| |done].
  - apply no_files; [by apply (rep_inv s1)|exact Hno|]. intros b Hb. rewrite (rep_used s1 v R) by lia. cbn [s1 mk_freeblock set_img]. rewrite H2. apply Z.ltb_ge. lia.
  - intros i Hi. apply Hno. cbn [length] in Hi. lia.
Qed.

(** What a finished image holds, as the kernel sees it: well-formed blocks, an
    empty log, a consistent file system (no block is in two files, and none is
    lost), the files, free inodes after the last one, and a free map that has
    the first blocks in use and no others. *)
Record made (img : gmap Z block) (ns : list (Z * list Z)) : Prop := mk_made {
  me_dom : forall b, is_Some (img !! b) <-> 0 <= b < 1000;
  me_wf : forall b d, img !! b = Some d -> length d = BSIZE /\ Forall is_byte d;
  me_log : forall b, 2 <= b < 32 -> img !! b = Some zeros;
  me_ok : tview_ok (disk_view img);
  me_cons : consistent (disk_view img) sb;
  me_file : forall k t c, ns !! k = Some (t, c) -> exists x, disk_inode (disk_view img) sb (1 + Z.of_nat k) = Some x /\
    inode_ok (disk_view img) sb x /\ din_range x /\ d_type x = t /\ d_nlink x = 1 /\ content (tv_blk (disk_view img)) x = c;
  me_rest : forall i, i = 0 \/ Z.of_nat (length ns) < i < 200 -> disk_inode (disk_view img) sb i = Some no_inode;
  me_used : forall b, 0 <= b < 1000 -> used (disk_view img) sb b = (b <? 59 + total ns)
}.

Lemma me_inv img ns : made img ns -> fs_inv (disk_view img) sb.
Proof. intros M. apply (me_cons _ _ M). Qed.

Lemma inode_ok_ext v v' x : tv_blk v' = tv_blk v -> inode_ok v sb x -> inode_ok v' sb x.
Proof. intros E [H1 H2 H3 H4 H5]. unfold used in *. split; unfold used; by rewrite ?E. Qed.
Lemma consistent_ext v v' : tv_blk v' = tv_blk v -> fs_inv v' sb -> consistent v sb -> consistent v' sb.
Proof.
  intros E Hi [C1 C2 C3 C4]. assert (Hat : forall i x, inode_at v' sb i x <-> inode_at v sb i x) by (intros i x; unfold inode_at, disk_inode; by rewrite E).
  split; [done| | |].
  - intros i x Hx%Hat. destruct (C2 i x Hx). split; [by apply (inode_ok_ext v)|done].
  - intros i j x y Hn Hx%Hat Hy%Hat. rewrite E. by apply (C3 i j).
  - intros b Hb. unfold used. rewrite E. intros Hu. destruct (C4 b Hb Hu) as (i & x & Hx & Ho). exists i, x. by rewrite Hat.
Qed.

(** The rest of the last block of the root directory. *)
Definition pad (r : list Z) : list Z := replicate (Z.to_nat ((Z.of_nat (length r) / BLK + 1) * BLK) - length r) 0.
Lemma grow_tail v x N : tight (tv_blk v) x -> inode_ok v sb x -> d_size x <= N <= MAXFILE * BLK ->
  content (tv_blk v) (din_size N x) = content (tv_blk v) x ++ replicate (Z.to_nat (N - d_size x)) 0.
Proof.
  intros [_ Ht] Hx HN. pose proof (in_size _ _ _ Hx). unfold content. cbn [d_size din_size].
  assert (E : seqZ 0 N = seqZ 0 (d_size x) ++ seqZ (0 + d_size x) (N - d_size x)) by (rewrite <- seqZ_app by lia; f_equal; lia).
  rewrite E, fmap_app. apply (f_equal2 app); [done|]. apply list_eq. intros i. rewrite list_lookup_fmap. destruct (decide (Z.of_nat i < N - d_size x)) as [Hi|Hi].
  - rewrite lookup_seqZ_lt by lia. rewrite lookup_replicate_2 by lia. simpl. f_equal. apply Ht. lia.
  - rewrite lookup_seqZ_ge by lia. symmetry. apply lookup_ge_None_2. rewrite length_replicate. lia.
Qed.

Lemma rep_final s v : rep s v -> let img := <[58 := bitmap (Z.to_nat (mk_freeblock s))]> (mk_img s) in
  rep (set_img img s) (disk_view img) /\ tv_blk (disk_view img) = tv_blk v.
Proof.
  intros R img. pose proof (rp_fb _ _ R). destruct (bitmap_spec (Z.to_nat (mk_freeblock s))) as (Hl & Hy & _); [lia|].
  assert (E : data img = tv_blk v) by (unfold img; rewrite data_insert by lia; by rewrite (rp_blk _ _ R)). split; [|done].
  destruct R as [R1 R2 R3 R4 R5 R6 R7 R8 R9 R10]. split; cbn [mk_sb mk_img mk_freeblock set_img tv_blk disk_view tv_held tv_mod tv_home tv_cap].
  - exact R1.
  - exact R2.
  - rewrite E, R3. by rewrite insert_insert_eq.
  - intros b. unfold img. rewrite lookup_insert_is_Some, R4. destruct (decide (58 = b)); lia.
  - intros b d. unfold img. rewrite lookup_insert_Some. intros [[<- <-]|[_ Hd]]; [done|by apply (R5 b)].
  - intros b d Hb Hf. unfold img. rewrite lookup_insert_ne; [by apply R6|]. unfold fixed in Hf. destruct (Z.eqb_spec b 1), (Z.ltb_spec b 32); lia || done.
  - intros b Hb. unfold img. rewrite lookup_insert_ne by lia. by apply R7.
  - split; reflexivity.
  - reflexivity.
  - unfold NBUF, MAXOPBLOCKS. lia.
Qed.

Lemma made_put s v r fs x c' s1 v1 : built s v ((T_DIR, r) :: fs) -> rep s1 v1 -> mk_freeblock s1 = mk_freeblock s -> inode_put sb 1 x v v1 ->
  inode_ok v sb x -> din_range x -> d_type x = T_DIR -> d_nlink x = 1 -> content (tv_blk v) x = c' -> fblocks (Z.of_nat (length c')) = fblocks (Z.of_nat (length r)) ->
  (forall y, disk_inode v sb 1 = Some y -> owned (tv_blk v) y = owned (tv_blk v) x) ->
  made (<[58 := bitmap (Z.to_nat (mk_freeblock s1))]> (mk_img s1)) ((T_DIR, c') :: fs).
Proof.
  intros B R1 Hf Hput Hx Hr Hty Hnl Hc Hfc Hox. pose proof (rep_inv s v (bt_rep _ _ _ B)) as Hi. destruct (rep_final s1 v1 R1) as [R2 E]. set (img := <[58 := _]> _) in *.
  destruct (bt_count _ _ _ B) as [_ Hlen]. cbn [length] in Hlen. assert (Hdi : forall i, disk_inode (disk_view img) sb i = disk_inode v1 sb i) by (intros i; unfold disk_inode; by rewrite E).
  destruct (bt_file _ _ _ B 0 T_DIR r eq_refl) as [y Fy]. pose proof (built_at s v _ B 0 T_DIR r y eq_refl Fy) as Hy. change (1 + Z.of_nat 0) with 1 in *.
  assert (G : changes sb 1 y x v v1).
  { apply put_changes; [apply B|apply Hy|apply Hy|done|done|done|by rewrite Hty|]. rewrite (proj2 (Z.eqb_neq _ _)) by apply Hy. symmetry. apply Hox, Fy. }
  destruct (evolves_other sb _ v v1 x Hi (ip_ev _ _ _ _ _ Hput) Hx) as (X1 & _ & X3 & _ & X5).
  { intros k Hk. rewrite elem_of_singleton. apply (slot_not_iblock sb v); [done|done|apply Hy|done]. }
  split; cbn [length]; try rewrite E.
  - apply R2.
  - apply R2.
  - intros b Hb. apply (rp_fixed _ _ R2); [lia|]. unfold fixed. destruct (Z.eqb_spec b 1), (Z.ltb_spec b 32); lia || done.
  - by apply (rep_view_ok _ _ R2).
  - apply (consistent_ext v1); [done|by apply (rep_inv _ _ R2)|]. by apply (changes_consistent v v1 sb 1 y x (bt_cons _ _ _ B) G); [apply Hy|apply Hy].
  - intros [|k] t c Hk; rewrite Hdi.
    + injection Hk as <- <-. exists x. split_and!; [apply Hput|by apply (inode_ok_ext v1)|done|done|done|congruence].
    + destruct (built_others s v _ B 1 y x v1 G (S k) t c Hk ltac:(lia)) as [z [G1 G2 G3 G4 (G5 & _ & _ & G8) G6]]. exists z.
      split_and!; [done|by apply (inode_ok_ext v1)|done|done|done|done].
  - intros i Hir. rewrite Hdi, (ip_other _ _ _ _ _ Hput) by (rewrite ?mkfs_ninodes; lia). apply (bt_rest _ _ _ B). cbn [length]. lia.
  - intros b Hb. rewrite (rep_used _ _ R2) by done. cbn [mk_freeblock set_img]. rewrite Hf, (bt_blocks _ _ _ B). cbn [total foldr snd]. by rewrite Hfc.
Qed.

(** The last steps of [main]: the size of the root, and the free map. *)
Lemma main_finish s v r fs : built s v ((T_DIR, r) :: fs) -> length r = (16 * (length fs + 2))%nat -> ((length fs + 2) mod 32 <> 0)%nat ->
  wp (din ← rinode 1;
      let off := (d_size din / BLK + 1) * BLK in
      winode 1 (din_size (u32 off) din);;
      b ← kgets mk_freeblock;
      balloc b) s (fun _ s' => made (mk_img s') ((T_DIR, r ++ pad r) :: fs)).
Proof.
  intros B Hr Hmod. pose proof (bt_rep _ _ _ B) as R. pose proof (rep_inv s v R) as Hi. pose proof BLK_eq as HB. destruct (bt_count _ _ _ B) as [_ Hlen]. cbn [length] in Hlen.
  destruct (bt_file _ _ _ B 0 T_DIR r eq_refl) as [x F]. change (1 + Z.of_nat 0) with 1 in F. pose proof (file_size _ _ _ _ _ F) as Hsz. destruct F as [F1 F2 F3 F4 F5 F6].
  apply wp_bind. apply (rinode_spec s v 1 x); [done|lia|done|]. cbv zeta. set (N := (d_size x / BLK + 1) * BLK).
  assert (HN : d_size x < N <= d_size x + BLK /\ N <= 4096 /\ forall k, 0 <= k -> k * BLK < N -> k * BLK < d_size x).
  { pose proof (Z.div_mod (d_size x) BLK ltac:(lia)). pose proof (Z.mod_pos_bound (d_size x) BLK ltac:(lia)).
    assert (d_size x mod BLK <> 0).
    { rewrite Hsz, Hr, HB. intros E. apply Hmod. apply Nat2Z.inj. rewrite Nat2Z.inj_mod. replace (Z.of_nat (16 * (length fs + 2))) with (16 * Z.of_nat (length fs + 2)) in E by lia.
      change 512 with (16 * 32) in E. rewrite Z.mul_mod_distr_l in E by lia. lia. }
    unfold N. split_and!; [lia|lia| |nia]. apply (Z.le_trans _ (d_size x + 512)); lia. }
  destruct HN as (HN1 & HN2 & HN3). rewrite u32_id by lia.
  assert (Hx' : inode_ok v sb (din_size N x)).
  { destruct F2 as [G1 G2 G3 G4 G5]. split; try done; cbn [d_size din_size]; [unfold MAXFILE, NDIRECT, NINDIRECT; lia|]. intros k Hk Hlt. rewrite slot_size. apply G5; [done|]. by apply HN3. }
  assert (Hr' : din_range (din_size N x)) by (destruct F3 as (A1 & A2 & A3 & A4 & A5 & A6 & A7); unfold din_range; cbn [d_type d_major d_minor d_nlink d_size d_addrs din_size]; split_and!; try done; lia).
  apply wp_bind. apply (winode_spec s v 1 _); [done|lia|done|]. intros s1 v1 R1 Hf1 Hfi1 Hput. wp_steps. unfold balloc, assert. pose proof (rp_fb _ _ R1).
  rewrite (proj2 (Z.ltb_lt _ _)) by lia. wp_steps. rewrite (rp_sb _ _ R1). apply wp_modify.
  assert (Hlr : Z.of_nat (length (r ++ pad r)) = N) by (rewrite length_app; unfold pad; rewrite length_replicate, <- Hsz; fold N; lia).
  apply (made_put s v r fs (din_size N x) (r ++ pad r) s1 v1); try done; [apply F5|apply F5| | |].
  - rewrite (grow_tail v x N F4 F2) by (unfold MAXFILE, NDIRECT, NINDIRECT; lia). rewrite F6. unfold pad. rewrite <- Hsz. fold N. do 2 f_equal. lia.
  - rewrite Hlr, <- Hsz. unfold fblocks. rewrite !decide_False by lia. rewrite HB in *. f_equal.
    symmetry. pose proof (Z.div_mod (d_size x) 512 ltac:(lia)). pose proof (Z.mod_pos_bound (d_size x) 512 ltac:(lia)). specialize (HN3 (d_size x / 512)).
    unfold N in *. rewrite HB in *. transitivity (d_size x / 512 + 1); [symmetry; apply (Z.div_unique _ _ _ (d_size x mod 512 - 1)); nia|apply (Z.div_unique _ _ _ 511); lia].
  - intros y Hy. rewrite F1 in Hy. injection Hy as <-. apply set_eq. intros b. rewrite !elem_of_owned. by setoid_rewrite slot_size.
Qed.

(** ** The root directory *)

Lemma dirents_app a b : (length a mod 16 = 0)%nat -> dirents (a ++ b) = dirents a ++ dirents b.
Proof.
  intros Hm. pose proof (Nat.div_mod_eq (length a) 16) as Ha. rewrite Hm, Nat.add_0_r in Ha. set (n := (length a / 16)%nat) in *.
  assert (Hd : ((length a + length b) / 16 = n + length b / 16)%nat) by (rewrite Ha, (Nat.mul_comm 16), Nat.add_comm, Nat.div_add by done; lia).
  apply list_eq. intros k. destruct (decide (k < n)%nat) as [Hk|Hk].
  - rewrite dirents_lookup by (rewrite length_app; lia). rewrite lookup_app_l, dirents_lookup by (rewrite ?length_dirents; fold n; lia).
    unfold dirent_at, slice. rewrite drop_app_le, take_app_le by (rewrite ?length_drop; lia). done.
  - rewrite lookup_app_r, length_dirents by (rewrite length_dirents; fold n; lia). fold n. destruct (decide (k < n + length b / 16)%nat) as [Hk2|Hk2].
    + rewrite !dirents_lookup by (rewrite ?length_app; lia). unfold dirent_at, slice. rewrite drop_app_ge by lia. do 5 f_equal; try lia.
      all: replace (16 * k - length a)%nat with (16 * (k - n))%nat by lia; done.
    + rewrite !lookup_ge_None_2; [done|rewrite length_dirents; lia|rewrite length_dirents, length_app; lia].
Qed.
Lemma dirents_one i nm : 0 <= i < 2 ^ 16 -> Forall is_byte nm -> dirents (mkdirent i (strncpy (Z.to_nat DIRSIZ) nm)) = [(i, cstr 14 nm)].
Proof.
  intros Hi Hn. unfold dirents. rewrite length_mkdirent. change (seq 0 (16 / 16)) with [0%nat]. cbn [fmap list_fmap].
  destruct (mkdirent_spec i nm Hi Hn) as (_ & _ & ->). done.
Qed.
Lemma dirents_zero n : dirents (replicate (16 * n) 0) = replicate n (0, []).
Proof.
  induction n as [|n IH]; [done|]. replace (16 * S n)%nat with (16 + 16 * n)%nat by lia. rewrite replicate_add, dirents_app, IH by done. done.
Qed.

(** The name the kernel sees. *)
Definition kname (f : list Z * list (list Z)) : list Z := cstr 14 (strip f.1).
Definition dots : list Z := mkdirent 1 (strncpy (Z.to_nat DIRSIZ) [46]) ++ mkdirent 1 (strncpy (Z.to_nat DIRSIZ) [46; 46]).
Definition root_dir (files : list (list Z * list (list Z))) : list Z := dots ++ dir_bytes 2 files.
Definition root_entries (files : list (list Z * list (list Z))) : list dirent :=
  (1, [46]) :: (1, [46; 46]) :: imap (fun i f => (2 + Z.of_nat i, kname f)) files.

Lemma file_bytes f : file_ok f -> Forall is_byte (strip f.1).
Proof. intros [Hn _]. apply strip_bytes. eapply Forall_impl; [exact Hn|]. by intros c [? _]. Qed.
Lemma dirents_files files : forall i, Forall file_ok files -> 0 <= i -> i + Z.of_nat (length files) < 2 ^ 16 ->
  dirents (dir_bytes i files) = imap (fun k f => (i + Z.of_nat k, kname f)) files.
Proof.
  induction files as [|f files IH]; intros i Hf Hi Hl; [done|]. apply Forall_cons in Hf as [Hf Hfs]. cbn [dir_bytes length imap] in *.
  rewrite dirents_app by (by rewrite length_mkdirent). rewrite dirents_one, IH by (done || lia || by apply file_bytes). cbn [app]. rewrite Z.add_0_r. f_equal.
  apply imap_ext. intros k x _. unfold compose. f_equal. lia.
Qed.
Lemma length_root files : length (root_dir files) = (16 * (length files + 2))%nat.
Proof. unfold root_dir. rewrite length_app, length_dir_bytes. change (length dots) with 32%nat. lia. Qed.
Lemma root_dirents files : Forall file_ok files -> (length files <= 198)%nat ->
  exists n, dirents (root_dir files ++ pad (root_dir files)) = root_entries files ++ replicate n (0, []).
Proof.
  intros Hf Hl. pose proof BLK_eq as HB. exists (Z.to_nat (32 - Z.of_nat (length files + 2) mod 32)).
  rewrite dirents_app by (rewrite length_root, Nat.mul_comm; apply Nat.Div0.mod_mul). f_equal.
  - unfold root_dir. rewrite dirents_app by done. rewrite dirents_files by (done || lia). done.
  - unfold pad. rewrite length_root, HB. rewrite <- dirents_zero. do 2 f_equal.
    replace (Z.of_nat (16 * (length files + 2)) / 512) with (Z.of_nat (length files + 2) / 32).
    + pose proof (Z.div_mod (Z.of_nat (length files + 2)) 32 ltac:(lia)). pose proof (Z.mod_pos_bound (Z.of_nat (length files + 2)) 32 ltac:(lia)). lia.
    + rewrite Nat2Z.inj_mul. change 512 with (16 * 32). rewrite Z.div_mul_cancel_l by lia. done.
Qed.

(** ** The whole program *)

(** What [mkfs] needs of its arguments: inodes and blocks enough. *)
Definition fits (files : list (list Z * list (list Z))) : Prop :=
  Forall file_ok files /\ (length files <= 198)%nat /\ 59 + total (disk_files (root_dir files) files) <= 1000.
#[export] Instance fits_dec files : Decision (fits files).
Proof. unfold fits. apply _. Defined.

(** [main] up to its last steps. *)
Lemma main_files files (Q : unit -> image -> Prop) : fits files ->
  (forall s v, built s v (disk_files (root_dir files) files) -> wp (
      din ← rinode 1;
      let off := (d_size din / BLK + 1) * BLK in
      winode 1 (din_size (u32 off) din);;
      b ← kgets mk_freeblock;
      balloc b) s Q) -> wp (main files) mkfs_start Q.
Proof.
  intros (Hf & Hl & Htot) HQ. pose proof BLK_eq as HB. unfold main. apply main_init. intros s0 v0 B0.
  apply wp_bind. eapply wp_mono; [apply (built_ialloc s0 v0 [] B0 T_DIR); [unfold short, T_DIR; lia|done|cbn; lia]|]. intros i s1 [-> [v1 B1]]. cbn [length app] in *.
  change (1 + Z.of_nat 0) with (1 + Z.of_nat 0%nat). unfold assert. rewrite (proj2 (Z.eqb_eq _ _)) by done. apply wp_bind, wp_ret, wp_bind.
  assert (Hb : forall r, (length r <= 32)%nat -> 59 + total [(T_DIR, r)] <= 1000).
  { intros r Hr. cbn [total foldr snd]. pose proof (fblocks_mono (Z.of_nat (length r)) 512 ltac:(lia)). assert (E : fblocks 512 = 1) by (unfold fblocks; by rewrite HB). lia. }
  eapply wp_mono; [apply (built_append s1 v1 _ B1 0 T_DIR [] (mkdirent 1 (strncpy (Z.to_nat DIRSIZ) [46]))); [done|apply mkdirent_spec; [lia|]; by apply (bool_decide_unpack _)|done| |]|].
  { rewrite HB, ?length_app, ?length_mkdirent. unfold MAXFILE, NDIRECT, NINDIRECT. cbn [length]. lia. }
  { apply Hb. rewrite ?length_app, ?length_mkdirent. cbn [length]. lia. }
  intros [] s2 [v2 B2]. cbn [list_insert insert app] in B2. apply wp_bind.
  eapply wp_mono; [apply (built_append s2 v2 _ B2 0 T_DIR (mkdirent 1 (strncpy (Z.to_nat DIRSIZ) [46])) (mkdirent 1 (strncpy (Z.to_nat DIRSIZ) [46; 46]))); [done|apply mkdirent_spec; [lia|]; by apply (bool_decide_unpack _)|done| |]|].
  { rewrite HB, ?length_app, ?length_mkdirent. unfold MAXFILE, NDIRECT, NINDIRECT. cbn [length]. lia. }
  { apply Hb. rewrite ?length_app, ?length_mkdirent. cbn [length]. lia. }
  intros [] s3 [v3 B3]. cbn [list_insert insert] in B3. fold dots in B3. apply wp_bind.
  eapply wp_mono; [apply (built_add_files files s3 v3 dots [] B3 Hf eq_refl); [cbn [length]; lia|exact Htot]|].
  intros [] s4 [v4 B4]. cbn [app length] in B4. change (2 + Z.of_nat 0) with 2 in B4. fold (root_dir files) in B4.
  by apply (HQ s4 v4).
Qed.
Lemma main_spec files (Q : unit -> image -> Prop) : fits files -> ((length files + 2) mod 32 <> 0)%nat ->
  (forall s, made (mk_img s) (disk_files (root_dir files ++ pad (root_dir files)) files) -> Q tt s) -> wp (main files) mkfs_start Q.
Proof.
  intros F Hmod HQ. apply main_files; [done|]. intros s v B.
  eapply wp_mono; [apply (main_finish s v (root_dir files) (as_file <$> files) B); rewrite ?length_fmap; [apply length_root|done]|]. intros [] s' M. by apply HQ.
Qed.

Section made.
Context (img : gmap Z block) (files : list (list Z * list (list Z))).
Hypothesis (M : made img (disk_files (root_dir files ++ pad (root_dir files)) files)) (F : fits files).
Let v := disk_view img.

(** The names of the root lead to the inodes of the files. *)
Lemma made_root : exists x n, disk_inode v sb 1 = Some x /\ d_type x = T_DIR /\ d_nlink x = 1 /\ d_size x mod 16 = 0 /\ inode_ok v sb x /\
  entries v x = root_entries files ++ replicate n (0, []).
Proof.
  destruct F as (Hf & Hl & _). destruct (me_file _ _ M 0 _ _ eq_refl) as (x & H1 & H2 & H3 & H4 & H5 & H6). destruct (root_dirents files Hf ltac:(lia)) as [n Hn]. exists x, n.
  change (1 + Z.of_nat 0) with 1 in H1. split_and!; [done|done|done| |done|exact (eq_trans (f_equal dirents H6) Hn)].
  apply (f_equal length) in H6. rewrite length_content in H6. pose proof (in_size _ _ _ H2). rewrite length_app, length_root in H6. unfold pad in H6. rewrite length_replicate, length_root, BLK_eq in H6.
  set (q := Z.of_nat (16 * (length files + 2)) / 512) in *. pose proof (Z.div_mod (Z.of_nat (16 * (length files + 2))) 512 ltac:(lia)). pose proof (Z.mod_pos_bound (Z.of_nat (16 * (length files + 2))) 512 ltac:(lia)). fold q in H0.
  assert (E : d_size x = (q + 1) * 32 * 16) by lia. rewrite E. apply Z.mod_mul. lia.
Qed.

Lemma made_file i f : files !! i = Some f -> exists y, disk_inode v sb (2 + Z.of_nat i) = Some y /\ inode_ok v sb y /\ d_type y = T_FILE /\ d_nlink y = 1 /\
  content (tv_blk v) y = mjoin f.2.
Proof.
  intros Hi. destruct (me_file _ _ M (S i) T_FILE (mjoin f.2)) as (y & H1 & H2 & _ & H4 & H5 & H6).
  { change ((as_file <$> files) !! i = Some (T_FILE, mjoin f.2)). by rewrite list_lookup_fmap, Hi. }
  exists y. replace (2 + Z.of_nat i) with (1 + Z.of_nat (S i)) by lia. done.
Qed.

Lemma made_tree : tree_ok v sb.
Proof.
  intros i x Hi Hx Hty. rewrite mkfs_ninodes in Hi. destruct made_root as (r & n & R1 & R2 & R3 & R4 & R5 & R6).
  assert (Hir : i = 1 \/ 1 < i <= 1 + Z.of_nat (length files)).
  { destruct (decide (1 <= i <= 1 + Z.of_nat (length files))); [lia|]. pose proof (me_rest _ _ M i) as Hr. unfold disk_files in Hr. cbn [length] in Hr. rewrite length_fmap in Hr.
    specialize (Hr ltac:(lia)). fold v in Hr. rewrite Hx in Hr. injection Hr as ->. done. }
  destruct Hir as [->|Hir].
  - assert (r = x) as -> by congruence. split; [done|]. intros _. split; [done|]. intros k j nm Hk Hj. rewrite R6 in Hk. rewrite mkfs_ninodes.
    apply lookup_app_Some in Hk as [Hk|[_ Hk]]; [|apply lookup_replicate in Hk as [[= -> ->] _]; done]. unfold root_entries in Hk.
    assert (Hone : 0 <= 1 < 200 /\ exists y, disk_inode v sb 1 = Some y /\ d_type y <> 0 /\ d_nlink y <> 0) by (split; [lia|]; exists x; split_and!; [done|done|lia]).
    destruct k as [|[|k]]; [by injection Hk as <- <-|by injection Hk as <- <-|]. change (imap (fun i f => (2 + Z.of_nat i, kname f)) files !! k = Some (j, nm)) in Hk. rewrite list_lookup_imap in Hk.
    destruct (files !! k) as [f|] eqn:Ef; [|done]. injection Hk as <- <-. destruct (made_file k f Ef) as (y & Y1 & Y2 & Y3 & Y4 & _). destruct F as (_ & Hl & _).
    pose proof (lookup_lt_Some _ _ _ Ef). split; [lia|]. exists y. split_and!; [done|rewrite Y3; done|lia].
  - destruct (lookup_lt_is_Some_2 files (Z.to_nat (i - 2)) ltac:(lia)) as [f Hf]. destruct (made_file _ f Hf) as (y & Y1 & Y2 & Y3 & _).
    replace (2 + Z.of_nat (Z.to_nat (i - 2))) with i in Y1 by lia. assert (y = x) as -> by congruence. split; [done|]. by rewrite Y3.
Qed.
End made.

Lemma find_first es nm j : forall i k, es !! i = Some (j, nm) -> j <> 0 -> (forall k' e, (k' < i)%nat -> es !! k' = Some e -> e.2 <> nm) -> find_from es nm k = Some ((k + i)%nat, j).
Proof.
  induction es as [|e es IH]; intros i k Hi Hj Hb; [done|]. cbn [find_from]. destruct i as [|i].
  - injection Hi as ->. rewrite bool_decide_true by done. by rewrite Nat.add_0_r.
  - rewrite bool_decide_false by (intros [_ E]; by apply (Hb 0%nat e); [lia|..]). rewrite (IH i (S k) Hi Hj); [do 2 f_equal; lia|].
    intros k' e' Hk He. apply (Hb (S k') e'); [lia|done].
Qed.
(** The first file of its name, not a dot name, is found under it. *)
Lemma root_find files n i f : files !! i = Some f -> kname f <> [46] -> kname f <> [46; 46] -> (forall k g, (k < i)%nat -> files !! k = Some g -> kname g <> kname f) ->
  dir_find (root_entries files ++ replicate n (0, [])) (kname f) = Some (S (S i), 2 + Z.of_nat i).
Proof.
  intros Hi H1 H2 Hb. unfold dir_find. pose proof (lookup_lt_Some _ _ _ Hi).
  assert (Hl : forall k, (k < length files)%nat -> (root_entries files ++ replicate n (0, [])) !! S (S k) = imap (fun i f => (2 + Z.of_nat i, kname f)) files !! k).
  { intros k Hk. rewrite lookup_app_l by (unfold root_entries; cbn [length]; rewrite length_imap; lia). done. }
  apply (find_first _ _ _ (S (S i)) 0); [rewrite Hl, list_lookup_imap, Hi by done; done|lia|].
  intros [|[|k]] e Hk; [intros [= <-]; simpl; congruence|intros [= <-]; simpl; congruence|]. rewrite Hl, list_lookup_imap by lia. intros He.
  destruct (files !! k) as [g|] eqn:Eg; [|done]. injection He as <-. apply (Hb k g); [lia|done].
Qed.

Lemma made_resolve img files i f : made img (disk_files (root_dir files ++ pad (root_dir files)) files) -> fits files ->
  files !! i = Some f -> kname f <> [46] -> kname f <> [46; 46] -> (forall k g, (k < i)%nat -> files !! k = Some g -> kname g <> kname f) ->
  resolve (disk_view img) sb false ROOTINO [kname f] = Some (2 + Z.of_nat i).
Proof.
  intros M F Hi H1 H2 Hb. destruct (made_root img files M F) as (x & n & R1 & R2 & _ & _ & _ & R6). cbn [resolve].
  change (disk_inode (disk_view img) sb ROOTINO) with (disk_inode (disk_view img) sb 1). rewrite R1. cbn [mbind option_bind andb].
  rewrite R2, R6, (root_find files n i f Hi H1 H2 Hb). reflexivity.
Qed.


Definition demo_files : list (list Z * list (list Z)) :=
  [([95; 99; 97; 116], [[7; 8; 9]; [10]]); ([82; 69; 65; 68; 77; 69], [replicate 512 65; [66; 67]])].

(** C39.  The size of the root is wrong when its entries fill whole blocks (30
    files, or 62): [main] rounds the size up to the block after the last one,
    so the directory the image holds ends with a block that it does not have:
    the address of the last block of its size is 0. *)
Theorem mkfs_root_hole files : fits files -> ((length files + 2) mod 32 = 0)%nat ->
  exists s x, main files mkfs_start = Done tt s /\ let v := disk_view (mk_img s) in
    disk_inode v sb ROOTINO = Some x /\ d_type x = T_DIR /\ d_size x = Z.of_nat (length (root_dir files)) + BLK /\ slot (tv_blk v) x (d_size x / BLK - 1) = 0.
Proof.
  intros F Hmod. assert (W : wp (main files) mkfs_start (fun _ s => exists x, let v := disk_view (mk_img s) in
    disk_inode v sb 1 = Some x /\ d_type x = T_DIR /\ d_size x = Z.of_nat (length (root_dir files)) + BLK /\ slot (tv_blk v) x (d_size x / BLK - 1) = 0)).
  { apply main_files; [done|]. intros s v B. pose proof (bt_rep _ _ _ B) as R. pose proof BLK_eq as HB. destruct F as (_ & Hl & _).
    destruct (bt_file _ _ _ B 0 T_DIR (root_dir files) eq_refl) as [x G]. change (1 + Z.of_nat 0) with 1 in G. pose proof (file_size _ _ _ _ _ G) as Hsz. destruct G as [F1 F2 F3 [[F4 _] _] F5 _].
    apply wp_bind. apply (rinode_spec s v 1 x); [done|lia|done|]. cbv zeta.
    destruct (Nat.Div0.mod_divides (length files + 2) 32) as [Hd _]. destruct (Hd Hmod) as [q Hq].
    assert (Es : d_size x = Z.of_nat q * BLK) by (rewrite Hsz, length_root, HB; lia). rewrite Es, Z.div_mul by lia. rewrite u32_id by lia.
    assert (Hr' : din_range (din_size ((Z.of_nat q + 1) * BLK) x)) by (destruct F3 as (A1 & A2 & A3 & A4 & A5 & A6 & A7); unfold din_range; cbn [d_type d_major d_minor d_nlink d_size d_addrs din_size]; split_and!; try done; lia).
    apply wp_bind. apply (winode_spec s v 1 _); [done|lia|done|]. intros s1 v1 R1 Hf1 Hfi1 Hput. wp_steps. unfold balloc, assert. pose proof (rp_fb _ _ R1).
    rewrite (proj2 (Z.ltb_lt _ _)) by lia. wp_steps. rewrite (rp_sb _ _ R1). change (sb_bmapstart sb) with 58. apply wp_modify. destruct (rep_final s1 v1 R1) as [_ E]. exists (din_size ((Z.of_nat q + 1) * BLK) x).
    cbv zeta. cbn [mk_img set_img d_size din_size d_type]. split_and!; [unfold disk_inode; rewrite E; apply Hput|apply F5|lia|].
    rewrite Z.div_mul, Z.add_simpl_r, slot_size, E by lia. assert (Hind : ind_addr x ∉ ({[IBLOCK 1 sb]} : gset Z)).
    { rewrite elem_of_singleton. apply (slot_not_iblock sb v x 1 140); [by apply (rep_inv s)|done|rewrite mkfs_ninodes; lia|lia]. }
    rewrite (slot_evolves sb v x (rep_inv s v R) F2 _ v1 _ (ip_ev _ _ _ _ _ Hput) Hind). specialize (F4 (Z.of_nat q) ltac:(lia)).
    destruct (Z.eq_dec (slot (tv_blk v) x (Z.of_nat q)) 0) as [E0|E0]; [exact E0|]. lia. }
  apply wp_inv in W as ([] & s & E & x & Hx). exists s, x. split; [exact E|exact Hx].
Qed.
Lemma mkfs_root_hole_witness : exists s x, main (replicate 30 ([97], [])) mkfs_start = Done tt s /\ disk_inode (disk_view (mk_img s)) sb ROOTINO = Some x /\
  slot (tv_blk (disk_view (mk_img s))) x 1 = 0.
Proof.
  destruct (mkfs_root_hole (replicate 30 ([97], []))) as (s & x & E & H1 & _ & H3 & H4).
  - apply (bool_decide_unpack _). vm_compute. exact I.
  - reflexivity.
  - exists s, x. split; [exact E|]. split; [exact H1|]. rewrite H3 in H4. exact H4.
Defined.
