(* ===== verification/FsBoot.v ===== *)
(** * From power-on to the first system call

    The file system's part of the boot: [binit] in [main], [namei("/")] in
    [userinit], which takes the root from the cache without reading the disk,
    and [iinit] and [initlog] in the first [forkret].  From any disk whose log
    is valid this ends in the state the file system's operations start from,
    on the recovered blocks; with [mkfs]'s image, the files given to [mkfs] are
    then found and read. *)

From S2P Require Import Prelude Sleeplock Bio BioSpec Log LogSpec LogCrash BlockStore LogStore Mkfs MkfsSpec MkfsTheorems.
From S2P Require Import Fs FsBlocks FsInode FsFile FsWrite FsIcache FsFree FsCheck FsDir FsPath FsNames.

#[local] Opaque BLK.

(** The static storage of the kernel at power-on, and the disk. *)
Definition inode0 : inode := mkinode 0 0 0 initsleeplock false (mkdinode 0 0 0 0 0 (replicate 13 0)).
Definition power_on (disk : list block) (pid : Z) : fs log :=
  mkfs (boot_log disk pid) (mksuperblock 0 0 0 0 0 0 0) (replicate NINODE inode0) pid 0.

(** The first [forkret]. *)
Definition forkret_first : KM (fs log) unit :=
  iinit ROOTDEV;;
  st (initlog ROOTDEV).
Definition start_fs (devsw : Z -> devops log) : KM (fs log) unit :=
  st (io binit);;
  r ← namei devsw [SLASH];
  match r with
  | None => fault "cwd"
  | Some ip => kmodify (fun s => mkfs (f_store s) (f_sb s) (f_icache s) (f_pid s) ip)
  end;;
  forkret_first.

(** A disk that can be mounted as the view [v]: its log is valid, [v] has the
    blocks after recovery, and they are a consistent file system with a root. *)
Record bootable (disk : list block) (v : tview) (sb : superblock) : Prop := mk_bootable {
  bo_disk : disk_ok (sb_logstart sb) (sb_nlog sb) disk;
  bo_nlog : MAXOPBLOCKS < sb_nlog sb <= 30;
  bo_sb : exists d, disk_at disk 1 = Some d /\ dec_sb d = sb;
  bo_blk : forall b d, tv_blk v !! b = Some d -> Forall is_byte d /\
    (b = 1 /\ disk_at disk 1 = Some d \/ home (sb_logstart sb) (sb_nlog sb) disk b /\ recovered (sb_logstart sb) disk b = Some d);
  bo_home : forall b, b ∈ tv_home v -> home (sb_logstart sb) (sb_nlog sb) disk b;
  bo_idle : tv_held v = ∅ /\ tv_mod v = ∅ /\ tv_log v = ∅ /\ tv_cap v = 0%nat;
  bo_cons : consistent v sb;
  bo_tree : tree_ok v sb;
  bo_root : ROOTINO < sb_ninodes sb /\ exists x, disk_inode v sb ROOTINO = Some x /\ d_type x <> 0 /\ d_nlink x <> 0
}.

Section boot.
Context (disk : list block) (v : tview) (sb : superblock).
Hypothesis B : bootable disk v sb.

(** The log after [initlog] gives the blocks of the view. *)
Lemma boot_view t : boot_result (sb_logstart sb) (sb_nlog sb) disk t -> tx_at t v.
Proof.
  intros [(a & R & Hh & Hv) (E1 & E2 & E3 & E4) Hdisk Hlen Hsb _]. destruct (bo_idle _ _ _ B) as (I1 & I2 & I3 & I4).
  pose proof (bo_nlog _ _ _ B) as Hnl. assert (Hhome : forall b, home (sb_logstart sb) (sb_nlog sb) disk b -> home (l_start t) (l_size t) (d_disk (l_bio t)) b) by (intros b Hb; unfold home in *; rewrite E1, E2, Hlen; done).
  exists t. split; [|rewrite I4, E3, E4, E2; split_and!; [done|done|lia|]].
  - split; [| |by intros b Hb%(bo_home _ _ _ B); apply Hhome| |by rewrite I4|by split].
    + exists a, []. rewrite I1, I2, I3. split_and!; [done| |done| |done].
      * apply map_subseteq_spec. intros b d Hb. destruct (bo_blk _ _ _ B b d Hb) as [_ [[-> H1]|[Hb' Hr]]]; [|by rewrite Hv].
        rewrite <- (ready_clean _ _ _ R 1 Hh); [by rewrite Hsb| |apply not_elem_of_nil]. rewrite Hlen. apply lookup_lt_Some in H1. lia.
      * apply (to_mod _ _ _ (ready_trans _ _ _ R Hh)).
    + intros b d Hb. by apply (bo_blk _ _ _ B b d Hb).
    + rewrite I4, E2. unfold NBUF, MAXOPBLOCKS in *. split; lia.
  - intros b [d Hb]. destruct (bo_blk _ _ _ B b d Hb) as [_ [[-> _]|[Hb' _]]]; [by left|right; rewrite <- E2; by apply Hhome].
Qed.

Lemma refs_none n j : refs (replicate n inode0) j = 0.
Proof. induction n as [|n IH]; [done|]. cbn [replicate refs foldr]. fold (refs (replicate n inode0) j). rewrite IH. by case_match. Qed.

(** [namei("/")] finds the root in an empty cache without touching the disk. *)
Lemma namei_root devsw t pid (Q : option nat -> fs log -> Prop) :
  (forall ip l', got v sb (replicate NINODE inode0) ROOTINO ip l' -> Q (Some ip) (mkfs t (mksuperblock 0 0 0 0 0 0 0) l' pid 0)) ->
  wp (namei devsw [SLASH]) (mkfs t (mksuperblock 0 0 0 0 0 0 0) (replicate NINODE inode0) pid 0) Q.
Proof.
  intros HQ. destruct (bo_root _ _ _ B) as [Hr _]. assert (H0 : forall ip X, replicate NINODE inode0 !! ip = Some X -> i_ref X = 0) by (by intros ip X [-> _]%lookup_replicate).
  assert (Hc : icache_ok v sb (replicate NINODE inode0)).
  { split; [intros ip X E%H0; lia|intros ip X E%H0; lia|intros ip ip' X X' E%H0; lia|intros ip X E%H0; lia]. }
  unfold namei, namex. wp_steps. cbn [head]. rewrite bool_decide_true by done. apply (iget_spec _ v sb ROOTINO); [done|by split| |].
  - apply Nat.ltb_lt. by vm_compute.
  - intros ip l' G. cbn [length Nat.add namex_walk]. change (skipelem [SLASH] (replicate (Z.to_nat DIRSIZ) 0)) with (@None (list Z * list Z)). wp_steps. by apply HQ.
Qed.

(** [iinit] reads the super block. *)
Lemma iinit_boot s pid (Q : unit -> fs log -> Prop) : at_log (boot_log disk pid) (babs0 disk) [] (f_store s) -> unlocked (f_icache s) ->
  (forall t, at_log (boot_log disk pid) (babs0 disk) [] t -> Q tt (set_sb sb (set_store t s))) -> wp (iinit ROOTDEV) s Q.
Proof.
  intros Hat Hl HQ. destruct (bo_sb _ _ _ B) as (d & Hd & E). assert (Hv : ba_view (babs0 disk) !! 1 = Some d) by (simpl; by rewrite view0_at by lia).
  assert (El : set_ilock initsleeplock <$> f_icache s = f_icache s).
  { rewrite <- (list_fmap_id (f_icache s)) at 2. apply list_fmap_ext. intros i X HX. unfold unlocked in Hl. rewrite Forall_lookup in Hl. specialize (Hl i X HX). destruct X. simpl in Hl. by subst. }
  unfold iinit, Fs.readsb. wp_step. wp_step. rewrite El. replace (set_icache (f_icache s) s) with s by (by destruct s).
  wp_step. apply wp_zoom. eapply at_bread; [exact Hat|exact Hv|simpl; rewrite map_img_empty_L; set_solver|right|].
  { unfold pinned. simpl. rewrite map_img_empty_L, union_empty_l_L, size_empty. unfold NBUF. lia. }
  intros h t Hf Ht. assert (Hh : ba_held (a_hold h 1 (babs0 disk)) !! h = Some 1) by (simpl; by rewrite lookup_insert_eq).
  wp_step. apply wp_zoom. eapply at_data; [exact Ht|exact Hh|exact Hv|]. wp_step. wp_step. rewrite E. apply wp_zoom.
  eapply at_brelse; [exact Ht|exact Hh|simpl; set_solver|]. intros t' Ht'. rewrite hold_drop in Ht' by done. by apply HQ.
Qed.

Lemma start_fs_spec devsw pid : wp (start_fs devsw) (power_on disk pid) (fun _ s => mounted s v sb /\ exists C, path_pre s v sb C /\ i_inum C = ROOTINO).
Proof.
  unfold start_fs, power_on. wp_step. apply wp_zoom. apply binit_at. intros t Hat. wp_step. cbn [set_store f_sb f_icache f_pid f_cwd].
  apply namei_root. intros ip l' G. wp_step. wp_step. cbn [f_store f_sb f_icache f_pid f_cwd]. unfold forkret_first. wp_step.
  assert (Hl' : unlocked l') by (apply (got_locks _ _ _ _ _ _ G); by apply Forall_replicate).
  eapply (iinit_boot _ pid); [exact Hat|done|]. intros t1 Hat1. apply wp_zoom. cbn [f_store set_sb set_store].
  eapply wp_mono; [apply (initlog_runs (sb_logstart sb) (sb_nlog sb) disk pid); [apply B|apply B|done]|]. intros [] t' Hb. pose proof (boot_view t' Hb) as Ht.
  destruct (got_at _ _ _ _ _ _ G) as (X & C & HX & HC & Ei & Ed & Hr & _). destruct (bo_idle _ _ _ B) as (I1 & I2 & I3 & I4). pose proof (bo_cons _ _ _ B) as Hcons.
  assert (Hs : live l' ⊆ {[ROOTINO]}).
  { intros j Hj. rewrite elem_of_singleton. pose proof (got_refs _ _ _ _ _ _ G j) as Hj'. apply (refs_pos l' j (ic_ref _ _ _ (got_ok _ _ _ _ _ _ G))) in Hj.
    destruct (Z.eqb_spec j ROOTINO); [done|]. rewrite refs_none in Hj'. lia. }
  destruct (bo_root _ _ _ B) as [Hroot (x & Hx & Hy & _)]. split.
  { split; cbn [f_store f_sb f_icache set_sb set_store]; try done; [by rewrite I3, I4, size_empty|apply G|]. intros i Hi%Hs%elem_of_singleton. subst i. exists x. by split. }
  exists C. split; [|done].
  split; cbn [f_store f_sb f_icache f_pid f_cwd set_sb set_store]; try done; try (by apply B); try (by apply Hcons).
  - unfold held_blocks. rewrite I1. apply map_img_empty_L.
  - rewrite I3, I4, size_empty. done.
  - apply G.
  - apply subseteq_size in Hs. rewrite size_singleton in Hs. rewrite (got_len _ _ _ _ _ _ G), length_replicate. unfold NINODE. lia.
  - rewrite Ei. by exists x.
Qed.
End boot.

(** ** The image of [mkfs] boots *)

(** The disk with the sectors of the image. *)
Definition image_disk (img : gmap Z block) : list block := (fun b => default [] (img !! b)) <$> seqZ 0 FSSIZE.

Section image.
Context (img : gmap Z block) (files : list (list Z * list (list Z))).
Hypothesis (M : made img (disk_files (root_dir files ++ pad (root_dir files)) files)) (F : fits files).

Lemma image_at b : 0 <= b < 1000 -> disk_at (image_disk img) b = img !! b.
Proof.
  intros Hb. unfold disk_at, image_disk. rewrite list_lookup_fmap, lookup_seqZ_lt by (unfold FSSIZE; lia). rewrite Z2Nat.id, Z.add_0_l by lia. cbn [fmap option_fmap option_map].
  destruct (proj2 (me_dom _ _ M b) Hb) as [d Hd]. by rewrite Hd.
Qed.
Lemma length_image : length (image_disk img) = Z.to_nat 1000.
Proof. unfold image_disk. by rewrite length_fmap, length_seqZ. Qed.
Lemma image_in b d : disk_at (image_disk img) b = Some d -> 0 <= b -> 0 <= b < 1000 /\ img !! b = Some d.
Proof. intros Hd H0. assert (Hl := Hd). apply lookup_lt_Some in Hl. rewrite length_image in Hl. assert (Hb : 0 <= b < 1000) by lia. by rewrite image_at in Hd. Qed.

Lemma image_ok : disk_ok 2 30 (image_disk img).
Proof.
  destruct (fi_sb _ _ (me_inv _ _ M)) as (d1 & Hd1 & E1). apply data_Some in Hd1 as [Hd1 _]. split.
  - split.
    + rewrite length_image. lia.
    + intros b d Hd. destruct (decide (0 <= b)) as [Hb|Hb]; [apply image_in in Hd as [_ Hd]; [|done]; by apply (me_wf _ _ M b)|].
      unfold disk_at in Hd. replace (Z.to_nat b) with (Z.to_nat 0) in Hd by lia. apply image_in in Hd as [_ Hd]; [|lia]. by apply (me_wf _ _ M 0).
    + exists d1. rewrite image_at by lia. split; [done|]. rewrite E1. done.
    + rewrite length_image. lia.
  - exists []. split; [exists zeros; rewrite image_at by lia; split; [by apply (me_log _ _ M)|done]|done|apply NoDup_nil_2|by intros b ?%not_elem_of_nil].
Qed.
Lemma image_recovered b : 0 <= b < 1000 -> recovered 2 (image_disk img) b = img !! b.
Proof.
  intros Hb. unfold recovered. rewrite image_at, (me_log _ _ M) by lia. change (hdr zeros) with (@nil Z). cbn [list_find]. by apply image_at.
Qed.

Lemma image_bootable : bootable (image_disk img) (disk_view img) mkfs_sb.
Proof.
  assert (Hhome : forall b, 0 <= b < 1000 -> b <> 1 -> ~ 2 <= b < 32 -> home 2 30 (image_disk img) b) by (intros b H1 H2 H3; unfold home; rewrite length_image; lia).
  destruct (fi_sb _ _ (me_inv _ _ M)) as (d1 & Hd1 & E1). destruct (made_root img files M F) as (x & n & R1 & R2 & R3 & _). split.
  - exact image_ok.
  - done.
  - exists d1. apply data_Some in Hd1 as [Hd1 _]. by rewrite image_at by lia.
  - intros b d [Hd Hb]%data_Some. assert (Hr : 0 <= b < 1000) by (apply (me_dom _ _ M); eauto). split; [by apply (me_wf _ _ M b d)|].
    destruct (decide (b = 1)) as [->|Hne]; [left; by rewrite image_at by lia|right]. split; [by apply Hhome|]. exact (eq_trans (image_recovered b Hr) Hd).
  - intros b Hb. apply elem_of_list_to_set, elem_of_seqZ in Hb. apply Hhome; lia.
  - done.
  - apply M.
  - by apply (made_tree img files).
  - split; [done|]. exists x. split; [exact R1|]. rewrite R2, R3. done.
Qed.
End image.

(** ** Reading a file back *)

(** What a process does to read the first [n] bytes of a file, as [sys_open]
    and [sys_read] do: look the path up, lock the inode, read. *)
Definition read_path (devsw : Z -> devops log) (path : list Z) (n : Z) : KM (fs log) (option (list Z)) :=
  r ← namei devsw path;
  match r with
  | None => mret None
  | Some ip =>
      ilock ip;;
      x ← readi devsw ip 0 n;
      mret (Some x.2)
  end.

Lemma cstr_chars n : forall l c, c ∈ cstr n l -> c <> 0 /\ c ∈ l.
Proof.
  induction n as [|n IH]; intros [|a l] c Hc; try by apply not_elem_of_nil in Hc. cbn [cstr] in Hc. destruct (Z.eqb_spec a 0); [by apply not_elem_of_nil in Hc|].
  apply elem_of_cons in Hc as [->|Hc]; [split; [done|left]|]. destruct (IH l c Hc). split; [done|by right].
Qed.
Lemma length_cstr n : forall l, (length (cstr n l) <= n)%nat.
Proof. induction n as [|n IH]; intros [|a l]; cbn [cstr length]; try lia. case_match; cbn [length]; [lia|]. specialize (IH l). lia. Qed.
Lemma split_name nm : forall cur, Forall (fun c => c <> SLASH) nm -> cur ++ nm <> [] -> split_path cur nm = [cur ++ nm].
Proof.
  induction nm as [|c nm IH]; intros cur Hn Hne; cbn [split_path].
  - rewrite app_nil_r in *. by destruct cur.
  - apply Forall_cons in Hn as [Hc Hn]. rewrite (proj2 (Z.eqb_neq _ _) Hc), IH, <- app_assoc by (done || by destruct cur). done.
Qed.
(** The path [/name] of a file of [mkfs]. *)
Lemma file_path f : file_ok f -> kname f <> [] ->
  Forall (fun c => c <> 0 /\ is_byte c) (SLASH :: kname f) /\ elems (SLASH :: kname f) = [kname f].
Proof.
  intros Hf Hne. assert (Hs : forall c, c ∈ kname f -> c <> 0 /\ is_byte c /\ c <> SLASH).
  { intros c [H0 Hc]%cstr_chars. split; [done|]. destruct Hf as [Hn _]. rewrite Forall_forall in Hn. apply Hn. destruct f as [[|a l] p]; [done|]. unfold strip in Hc. cbn [fst] in *. case_match; [by right|done]. }
  split.
  - constructor; [unfold is_byte, SLASH; lia|]. apply Forall_forall. intros c Hc. by destruct (Hs c Hc) as (? & ? & _).
  - unfold elems. cbn [split_path]. change (SLASH =? SLASH) with true. cbv iota. rewrite split_name; [|apply Forall_forall; intros c Hc; by apply Hs|done].
    cbn [fmap list_fmap app]. rewrite take_ge; [done|]. apply length_cstr.
Qed.

Lemma read_path_spec devsw s v sb C path i y n : path_pre s v sb C -> Forall (fun c => c <> 0 /\ is_byte c) path -> head path = Some SLASH ->
  resolve v sb false ROOTINO (elems path) = Some i -> 0 <= i < sb_ninodes sb -> disk_inode v sb i = Some y -> d_type y <> 0 -> d_type y <> T_DEV -> 0 <= n < 2 ^ 32 ->
  wp (read_path devsw path n) s (fun r _ => r = Some (take (Z.to_nat n) (content (tv_blk v) y))).
Proof.
  intros P Hp Hh Hres Hi Hy Ht0 Htd Hn. unfold read_path, namei. wp_step. wp_step.
  eapply wp_mono; [apply (namex_spec devsw s v sb C path false _ P Hp); [done|apply zeros_bytes]|]. cbv zeta. rewrite bool_decide_true, Hres by done.
  intros [r nm] s1 [[F1 F2 F3 F4 F5 _ (ip & Y & -> & HY & EY & HrY)] _]. wp_step. cbn [fst].
  destruct P as [P1 P2 P3 P4 P5 P6 P7 P8 P9 P10 P11 P12 P13]. destruct F2 as (S1 & S2 & S3). assert (Hsb : f_sb s1 = sb) by congruence.
  assert (Hrd : ready v 2 0) by (repeat split; [done|rewrite P5, size_empty; lia|lia]). rewrite <- EY in *. wp_step.
  eapply (ilock_load s1 v sb ip Y y); [done|done|done|done|done|done|done|done| |done|done|].
  { rewrite (Forall_lookup (fun X => i_lock X = initsleeplock)) in F4. by apply (F4 ip). }
  intros t Ht. destruct (ic_inode _ _ _ F3 ip Y HY HrY) as [Hd _]. destruct (P7 (i_inum Y) y Hi Hy Ht0) as [Hyo _]. pose proof (in_size _ _ _ Hyo). wp_step.
  eapply (readi_spec devsw _ sb ip (locked Y (f_pid s1) y) v); [|done|unfold i_size; cbn [locked i_din]; lia|lia|lia|].
  - split; try done. cbn [f_icache set_icache]. apply list_lookup_insert_eq. by eapply lookup_lt_Some.
  - intros t' Ht'. cbv zeta. wp_step. f_equal. unfold slice, i_size. cbn [locked i_din snd]. rewrite drop_0, Z.sub_0_r.
    destruct (Z.le_ge_cases n (d_size y)); [rewrite Z.min_l by done; done|]. rewrite Z.min_r by done. rewrite !take_ge by (rewrite length_content; lia). done.
Qed.

(** C18.  The boot mounts the file system.  From any disk with a valid log,
    whatever a crash left in it, whose recovered blocks are a consistent file
    system with a root directory, the boot returns (it does not sleep or panic),
    and the state after it is the one the operations on inodes and on paths
    start from, on the recovered blocks, with the root as the current
    directory. *)
Theorem start_fs_correct disk v sb devsw pid : bootable disk v sb ->
  wp (start_fs devsw) (power_on disk pid) (fun _ s => mounted s v sb /\ exists C, path_pre s v sb C /\ i_inum C = ROOTINO).
Proof. intros B. by apply start_fs_spec. Qed.

(** C3.  From [mkfs] to [read]. Take at most 198 files with names without a
    slash, none larger than a file can be, that fit on the disk together
    ([fits]), and whose entries, with [.] and [..], do not fill whole blocks of
    the root directory. Then [mkfs] makes an image, the image boots, and the
    kernel that booted from it reads under the path [/name] the contents of a
    file given to [mkfs], any number [n] of its first bytes. The name is the one
    [mkfs] keeps (without a leading underscore, cut to 14 characters); it is not
    empty, [.] or [..], and the file is the first that has it. *)
Theorem mkfs_boot_read files i f devsw pid n : fits files -> ((length files + 2) mod 32 <> 0)%nat ->
  files !! i = Some f -> kname f <> [] -> kname f <> [46] -> kname f <> [46; 46] -> (forall k g, (k < i)%nat -> files !! k = Some g -> kname g <> kname f) ->
  0 <= n < 2 ^ 32 ->
  exists s, Mkfs.main files mkfs_start = Done tt s /\
    wp (start_fs devsw;; read_path devsw (SLASH :: kname f) n) (power_on (image_disk (mk_img s)) pid)
       (fun r _ => r = Some (take (Z.to_nat n) (mjoin f.2))).
Proof.
  intros F Hmod Hi Hne H1 H2 Hb Hn.
  assert (W : wp (Mkfs.main files) mkfs_start (fun _ s => made (mk_img s) (disk_files (root_dir files ++ pad (root_dir files)) files))) by (by apply main_spec).
  apply wp_inv in W as ([] & s & E & M). exists s. split; [done|]. apply wp_bind.
  eapply wp_mono; [apply (start_fs_spec _ _ _ (image_bootable _ files M F) devsw pid)|]. intros [] s' (_ & C & P & _).
  destruct (made_file _ files M i f Hi) as (y & Y1 & _ & Y3 & Y4 & <-).
  pose proof F as (Hf & Hl & _). pose proof (lookup_lt_Some _ _ _ Hi). destruct (file_path f) as [Hp He]; [by eapply (Forall_lookup_1 file_ok)|done|].
  eapply (read_path_spec devsw s' _ _ C _ (2 + Z.of_nat i) y n P Hp eq_refl); [|rewrite mkfs_ninodes; lia|exact Y1|by rewrite Y3|by rewrite Y3|done].
  rewrite He. exact (made_resolve _ files i f M F Hi H1 H2 Hb).
Qed.

Definition no_dev : Z -> devops log := fun _ => mkdevops None None.
Lemma demo_fits : fits MkfsTheorems.demo_files.
Proof. apply (bool_decide_unpack _). vm_compute. exact I. Qed.
Lemma start_fs_correct_witness : exists s, Mkfs.main MkfsTheorems.demo_files mkfs_start = Done tt s /\
  wp (start_fs no_dev) (power_on (image_disk (mk_img s)) 1) (fun _ s' => mounted s' (disk_view (mk_img s)) mkfs_sb /\ exists C, path_pre s' (disk_view (mk_img s)) mkfs_sb C /\ i_inum C = ROOTINO).
Proof.
  destruct (wp_inv _ _ _ (main_spec MkfsTheorems.demo_files (fun _ s => made (mk_img s) _) demo_fits ltac:(vm_compute; discriminate) (fun s M => M))) as ([] & s & E & M).
  exists s. split; [exact E|]. exact (start_fs_correct _ _ _ no_dev 1 (image_bootable _ _ M demo_fits)).
Defined.
Lemma mkfs_boot_read_witness : exists s, Mkfs.main MkfsTheorems.demo_files mkfs_start = Done tt s /\
  wp (start_fs no_dev;; read_path no_dev [47; 99; 97; 116] 100) (power_on (image_disk (mk_img s)) 1) (fun r _ => r = Some [7; 8; 9; 10]).
Proof.
  apply (mkfs_boot_read MkfsTheorems.demo_files 0 ([95; 99; 97; 116], [[7; 8; 9]; [10]]) no_dev 1 100 demo_fits); [vm_compute; discriminate|done|discriminate|discriminate|discriminate|lia|lia].
Defined.
