(* ===== verification/FsCrash.v ===== *)
(** * The file system and crashes

    The file system over the log over the buffer cache: an operation on inodes
    followed by the [end_op] of its transaction either happens or does not,
    whatever the moment the machine stops, and the file system is consistent
    either way. *)

From S2P Require Import Prelude Sleeplock Bio BioSpec Log LogSpec LogCrash BlockStore LogStore.
From S2P Require Import Fs FsBlocks FsInode FsFile FsWrite FsIcache FsFree FsCheck FsDemo FsMounted.

(** The file system [s], in use, inside the only transaction in progress, which
    has logged nothing yet. *)
Record call_pre (s : fs log) (v : tview) (sb : superblock) : Prop := mk_call_pre {
  cp_fs : @mounted log log_ops (log_store (f_store s)) s v sb;
  cp_out : l_outstanding (f_store s) = 1;
  cp_com : l_committing (f_store s) = 0;
  cp_log : tv_log v = ∅
}.
Definition data_block (sb : superblock) (b : Z) : Prop := sb_inodestart sb <= b < sb_size sb.
(** The inodes, the free map and the data on the disk are those of [v]. *)
Definition on_disk (sb : superblock) (v : tview) (disk : list block) : Prop := forall b, data_block sb b -> disk_at disk b = tv_blk v !! b.

(** The disk when the call starts. *)
Lemma call_disk s v sb : call_pre s v sb -> on_disk sb v (d_disk (l_bio (f_store s))).
Proof.
  intros [M _ _ Hlog] b Hb. pose proof (cs_inv _ _ (mt_ok _ _ _ M)) as Hi.
  destruct (mt_at _ _ _ M) as [(a & L & R & Ev & Eh & Em & El) _ Hhome _ _ _].
  destruct (fi_dom _ _ Hi b) as [d Hd]; [pose proof (ly_inodestart _ (fi_layout _ _ Hi)); unfold data_block in Hb; lia|].
  rewrite Hd. rewrite <- (lookup_weaken _ _ _ _ Hd Ev). apply (ready_clean _ _ _ R).
  - rewrite Eh. apply M.
  - apply (fi_home _ _ Hi) in Hb. by apply Hhome in Hb as (? & _).
  - rewrite Hlog in El. intros Hin. apply (elem_of_list_to_set (C:=gset Z)) in Hin. rewrite El in Hin. set_solver.
Qed.

(** The [end_op] of a transaction with view [v']. *)
Lemma end_op_view (s0 t : log) v' sb : log_at s0 t v' -> fs_inv v' sb -> tv_held v' = ∅ ->
  l_outstanding s0 = 1 -> l_committing s0 = 0 ->
  wp end_op t (fun _ t' => exists ws, d_trace (l_bio t') = d_trace (l_bio s0) ++ ws /\
    on_disk sb v' (d_disk (l_bio t')) /\
    forall k, let crashed := apply_writes (take k ws) (d_disk (l_bio s0)) in
      (exists disk', reboots crashed disk') /\
      forall disk', reboots crashed disk' ->
        (forall b, data_block sb b -> disk_at disk' b = disk_at (d_disk (l_bio s0)) b) \/ on_disk sb v' disk').
Proof.
  intros [(a & L & R & Ev & Eh & Em & El) _ Hhome _ _ [F1 F2 F3 F4 F5 F6]] Hi Hh Ho Hc.
  assert (ba_held a = ∅) as Hheld by (by rewrite Eh).
  assert (Hdb : forall b, data_block sb b -> home (l_start t) (l_size t) (d_disk (l_bio t)) b /\ ba_view a !! b = tv_blk v' !! b).
  { intros b Hb. split; [rewrite F1, F2, F5; apply Hhome, (fi_home _ _ Hi), Hb|].
    destruct (fi_dom _ _ Hi b) as [d Hd]; [pose proof (ly_inodestart _ (fi_layout _ _ Hi)); unfold data_block in Hb; lia|].
    rewrite Hd. by eapply lookup_weaken. }
  eapply wp_mono; [apply (end_op_spec t a L R Hheld); congruence|].
  intros [] t' (a' & ws & _ & _ & _ & _ & Htr & Hdisk & Hcrash). exists ws. rewrite <- F6. split; [done|]. split.
  - intros b Hb. destruct (Hdb b Hb) as [Hb' <-]. by apply Hdisk.
  - intros k. rewrite <- F5. destruct (Hcrash k) as [Hex Hk]. split; [done|]. intros disk' Hrb.
    destruct (k <=? length L)%nat; [left|right]; intros b Hb; destruct (Hdb b Hb) as [Hb' Eb].
    + by apply Hk.
    + rewrite <- Eb. by apply Hk.
Qed.

(** C1.  The file system survives crashes. From a consistent file system in use,
    [writei], [itrunc], [iput] or [ialloc] inside its own transaction, followed
    by [end_op], returns, and then the disk holds a consistent file system whose
    files are the ones before with the call's effect. If the machine stops after
    any number [k] of the disk writes [ws] of [end_op], it can boot again, and
    after any number of crashes during recovery every inode, map and data block
    is the one of the file system before the call, or every one is the one of
    the file system after it. The call is one its callers make ([icall_ok]): its
    blocks fit in the log; [writei] has a locked inode that is not a device, at
    least one byte, an offset within the file, and free blocks; [itrunc] has a
    locked inode; [iput] one that is in use and not locked; [ialloc] finds a
    free inode and a free entry of the cache. *)
Theorem icalls_crash_atomic devsw s v sb c : call_pre s v sb -> icall_ok s v sb c ->
  wp (r ← icall_run devsw c; st end_op;; mret r) s (fun r s' => exists v' ws,
    consistent v' sb /\ icall_effect c r (afs v sb) (afs v' sb) (f_icache s) (f_icache s') /\
    d_trace (l_bio (f_store s')) = d_trace (l_bio (f_store s)) ++ ws /\
    on_disk sb v' (d_disk (l_bio (f_store s'))) /\
    forall k, let crashed := apply_writes (take k ws) (d_disk (l_bio (f_store s))) in
      (exists disk', reboots crashed disk') /\
      forall disk', reboots crashed disk' -> on_disk sb v disk' \/ on_disk sb v' disk').
Proof.
  intros C Hok. pose proof C as [M Ho1 Hc1 _]. wp_step.
  eapply wp_mono; [exact (@icall_spec log log_ops (log_store (f_store s)) devsw s v sb c M Hok)|].
  intros r s1 (v' & M' & He). pose proof (mt_ok _ _ _ M') as C'. wp_step. apply wp_zoom.
  eapply wp_mono; [eapply (end_op_view (f_store s) (f_store s1) v' sb); [apply M'|apply C'|apply M'|done..]|].
  intros [] t' (ws & Htr & Hdisk & Hcrash). wp_step. exists v', ws. split_and!; [done|done|done|done|]. intros k.
  destruct (Hcrash k) as [Hex Hk]. split; [done|]. intros disk' Hrb.
  destruct (Hk disk' Hrb) as [Hl|Hl]; [left|by right]. intros b Hb. rewrite Hl by done. by apply (call_disk s v sb C).
Qed.

(** ** The small file system, booted *)

Lemma demo_disk_base : disk_base 2 20 demo_disk.
Proof.
  split.
  - change (length demo_disk) with 40%nat. lia.
  - by intros b d (_ & Hd & _)%demo_disk_in.
  - exists demo_sb_block. split; [done|by vm_compute].
  - change (length demo_disk) with 40%nat. lia.
Qed.
Lemma demo_disk_hdr : hdr_ok 2 20 demo_disk [].
Proof.
  split; [exists zeros; split; [done|by vm_compute]|simpl; lia|apply NoDup_nil_2|by intros b ?%not_elem_of_nil].
Qed.

Definition demo_booted : log :=
  match (boot;; begin_op) (boot_log demo_disk 1) with
  | Done _ t => t
  | _ => boot_log demo_disk 1
  end.
Definition demo_mounted : fs log := mkfs demo_booted demo_sb demo_icache 1 0.

Lemma demo_booted_at : log_at demo_booted demo_booted demo_view /\
  l_outstanding demo_booted = 1 /\ l_committing demo_booted = 0.
Proof.
  assert (wp (boot;; begin_op) (boot_log demo_disk 1) (fun _ t => log_at t t demo_view /\
    l_outstanding t = 1 /\ l_committing t = 0)) as Hw.
  { wp_step. eapply wp_mono; [apply (boot_runs 2 20 demo_disk 1); [|lia]|].
    { split; [exact demo_disk_base|exists []; exact demo_disk_hdr]. }
    intros [] t [(a & R & Hh & Hv) (E1 & E2 & E3 & E4) Hd Hl Hs _].
    change (length demo_disk) with 40%nat in Hl.
    unfold begin_op. wp_step. wp_step. rewrite E4, E3, (lr_n _ _ _ R). simpl. wp_step.
    split; [|done]. split; cbn [l_start l_size l_bio l_outstanding set_outstanding]; rewrite ?E1, ?E2; try done.
    - exists a, []. split; [by destruct R|]. rewrite Hh. split_and!; [|done| |done].
      + apply map_subseteq_spec. intros b d (Hb0 & Hbd & Hb)%demo_blocks_Some.
        pose proof (demo_disk_in _ _ Hbd) as [Hlt _]. destruct (decide (b = 1)) as [->|Hne].
        * rewrite <- (ready_clean _ _ _ R 1 Hh ltac:(rewrite Hl; lia) (not_elem_of_nil 1)). by rewrite Hs.
        * rewrite Hv by (unfold home; change (length demo_disk) with 40%nat; lia).
          rewrite (recovered_out _ _ _ _ demo_disk_hdr) by apply not_elem_of_nil. done.
      + apply set_eq. intros b. split; [|set_solver]. intros Hb.
        apply (co_mod _ _ _ (br_cache _ _ (lr_bio _ _ _ R))) in Hb as [i Hi]. by rewrite Hh in Hi.
    - intros b d Hb. by apply (tvo_blk _ demo_view_ok) in Hb as (_ & ? & _).
    - intros b Hb%elem_of_list_to_set%elem_of_seqZ. unfold home. rewrite Hl. lia.
    - unfold NBUF. simpl. lia. }
  apply wp_inv in Hw as ([] & t & Ht & Hp). unfold demo_booted. by rewrite Ht.
Qed.
#[local] Opaque demo_booted.

Lemma demo_call_pre : call_pre demo_mounted demo_view demo_sb.
Proof.
  destruct demo_booted_at as (H1 & H2 & H3). destruct small_mounted_1 as [P1 P2 P3 P4 P5 P6 P7 P8].
  refine (mk_call_pre demo_mounted demo_view demo_sb _ H2 H3 eq_refl).
  exact (@mk_mounted log log_ops (log_store demo_booted) demo_mounted demo_view demo_sb H1 eq_refl P3 P4 P5 P6 P7 P8).
Qed.

Lemma icalls_crash_atomic_witness :
  wp (r ← icall_run (fun _ => mkdevops None None) (Writei 1 [33; 33; 33] 5); st end_op;; mret r) demo_mounted (fun _ s' =>
    exists v', consistent v' demo_sb /\ afs v' demo_sb = alter (af_write 5 [33; 33; 33]) 2 (afs demo_view demo_sb) /\
    on_disk demo_sb v' (d_disk (l_bio (f_store s')))).
Proof.
  eapply wp_mono; [apply (icalls_crash_atomic (fun _ => mkdevops None None) demo_mounted demo_view demo_sb (Writei 1 [33; 33; 33] 5) demo_call_pre small_write_ok)|].
  intros r s' (v' & ws & C & (X & [= <-] & _ & E & _) & _ & Hd & _). exists v'. split; [exact C|]. split; [exact E|exact Hd].
Defined.
