(* ===== verification/File.v ===== *)
(** * Open files: [file.c] and [pipealloc] of [pipe.c]

    The table of open files, over the file system of [Fs.v], the pipes of
    [Pipe.v] and the page allocator of [Kalloc.v].  A [struct file *] is an
    index of [ftable.file], a [struct pipe *] the address of the page that
    [kalloc] gave; what the page holds is the [pipe] at that address.  A call
    that would block on a pipe gives [Sleep]; [Pipe.v] has the interleavings.
    [fileread] returns the bytes it stores at its buffer, [filewrite] takes
    the bytes it loads from it. *)

From S2P Require Import Prelude CString Kalloc Sleeplock Bio BlockStore Pipe Fs.

Definition NFILE : nat := 100.

Inductive fdtype := FD_NONE | FD_PIPE | FD_INODE.
#[global] Instance fdtype_eq_dec : EqDecision fdtype.
Proof. solve_decision. Defined.

Record file := mkfile {
  fl_type : fdtype;
  fl_ref : Z;
  fl_readable : Z;
  fl_writable : Z;
  fl_pipe : Z;
  fl_ip : nat;
  fl_off : Z
}.

Definition set_fref (r : Z) (f : file) : file :=
  mkfile (fl_type f) r (fl_readable f) (fl_writable f) (fl_pipe f) (fl_ip f) (fl_off f).
Definition set_ftype (t : fdtype) (f : file) : file :=
  mkfile t (fl_ref f) (fl_readable f) (fl_writable f) (fl_pipe f) (fl_ip f) (fl_off f).
Definition set_foff (o : Z) (f : file) : file :=
  mkfile (fl_type f) (fl_ref f) (fl_readable f) (fl_writable f) (fl_pipe f) (fl_ip f) o.
Definition set_fpipe (r w p : Z) (f : file) : file :=
  mkfile FD_PIPE (fl_ref f) r w p (fl_ip f) (fl_off f).

(** The kernel's zeroed table. *)
Definition file0 : file := mkfile FD_NONE 0 0 0 0 0 0.

Record files (S : Type) := mkfiles {
  fi_fs : fs S;
  fi_table : list file;
  fi_kmem : kmem;
  fi_pipes : gmap Z pipe;
  fi_killed : Z              (* myproc()->killed *)
}.
Arguments mkfiles {_} _ _ _ _ _.
Arguments fi_fs {_} _.
Arguments fi_table {_} _.
Arguments fi_kmem {_} _.
Arguments fi_pipes {_} _.
Arguments fi_killed {_} _.

Definition set_fs {S} (x : fs S) (s : files S) : files S :=
  mkfiles x (fi_table s) (fi_kmem s) (fi_pipes s) (fi_killed s).
Definition set_table {S} (t : list file) (s : files S) : files S :=
  mkfiles (fi_fs s) t (fi_kmem s) (fi_pipes s) (fi_killed s).
Definition set_kmem {S} (k : kmem) (s : files S) : files S :=
  mkfiles (fi_fs s) (fi_table s) k (fi_pipes s) (fi_killed s).
Definition set_pipes {S} (p : gmap Z pipe) (s : files S) : files S :=
  mkfiles (fi_fs s) (fi_table s) (fi_kmem s) p (fi_killed s).

(** The first slot with no reference. *)
Fixpoint find_file (i : nat) (l : list file) : option nat :=
  match l with
  | [] => None
  | f :: l => if fl_ref f =? 0 then Some i else find_file (Datatypes.S i) l
  end.

(** The bytes of [data] in a page that becomes a [struct pipe]: the lock takes
    52 bytes before it. *)
Definition page_data (m : mem) (p : Z) : list Z := (fun k => m (p + 52 + Z.of_nat k)) <$> seq 0 512.

Section file.
Context {S : Type} `{!BlockStore S} `{!TxOps S}.
Context (kend : Z) (devsw : Z -> devops S).

Definition infs {A} (m : KM (fs S) A) : KM (files S) A := zoom fi_fs set_fs m.
Definition inmem {A} (m : KM kmem A) : KM (files S) A := zoom fi_kmem set_kmem m.
Definition fbegin_op : KM (files S) unit := infs (st ts_begin).
Definition fend_op : KM (files S) unit := infs (st ts_end).

Definition get_file (f : nat) : KM (files S) file := fun s =>
  match fi_table s !! f with
  | Some x => Done x s
  | None => Fault "file pointer"
  end.
Definition upd_file (f : nat) (g : file -> file) : KM (files S) unit :=
  kmodify (fun s => set_table (alter g f (fi_table s)) s).
Definition get_pipe (p : Z) : KM (files S) pipe := fun s =>
  match fi_pipes s !! p with
  | Some x => Done x s
  | None => Fault "pipe pointer"
  end.
Definition put_pipe (p : Z) (x : pipe) : KM (files S) unit :=
  kmodify (fun s => set_pipes (<[p := x]> (fi_pipes s)) s).

Definition filealloc : KM (files S) (option nat) :=
  s ← kget;
  match find_file 0 (fi_table s) with
  | Some f => upd_file f (set_fref 1);; mret (Some f)
  | None => mret None
  end.

Definition filedup (f : nat) : KM (files S) nat :=
  x ← get_file f;
  if fl_ref x <? 1 then panic "filedup" else
  upd_file f (set_fref (i32 (fl_ref x + 1)));;
  mret f.

(** [pipeclose] of [pipe.c] on the pipe at [p]. *)
Definition pipe_close (p writable : Z) : KM (files S) unit :=
  x ← get_pipe p;
  let '(freed, x) := pipeclose (negb (writable =? 0)) x in
  put_pipe p x;;
  if freed then
    kmodify (fun s => set_pipes (delete p (fi_pipes s)) s);;
    inmem (kfree kend p)
  else mret tt.

Definition fileclose (f : nat) : KM (files S) unit :=
  x ← get_file f;
  if fl_ref x <? 1 then panic "fileclose" else
  upd_file f (set_fref (fl_ref x - 1));;
  if 0 <? fl_ref x - 1 then mret tt else
  ff ← get_file f;
  upd_file f (fun x => set_ftype FD_NONE (set_fref 0 x));;
  match fl_type ff with
  | FD_PIPE => pipe_close (fl_pipe ff) (fl_writable ff)
  | FD_INODE => fbegin_op;; infs (iput (fl_ip ff));; fend_op
  | FD_NONE => mret tt
  end.

(** [None] is the result -1. *)
Definition filestat (f : nat) : KM (files S) (option stat) :=
  x ← get_file f;
  match fl_type x with
  | FD_INODE =>
      infs (ilock (fl_ip x));;
      st ← infs (stati (fl_ip x));
      infs (iunlock (fl_ip x));;
      mret (Some st)
  | _ => mret None
  end.

(** [piperead] and [pipewrite] on the pipe at [p]. *)
Definition pipe_read (p n : Z) : KM (files S) (Z * list Z) :=
  x ← get_pipe p;
  s ← kget;
  match piperead (negb (fi_killed s =? 0)) n x with
  | RDone l x => put_pipe p x;; mret (Z.of_nat (length l), l)
  | RFail x => put_pipe p x;; mret (-1, [])
  | RSleep _ => ksleep "pipe"
  end.
Definition pipe_write (p : Z) (src : list Z) (n : Z) : KM (files S) Z :=
  x ← get_pipe p;
  s ← kget;
  match pipewrite (negb (fi_killed s =? 0)) (take (Z.to_nat n) src) x with
  | WDone x => put_pipe p x;; mret n
  | WFail _ x => put_pipe p x;; mret (-1)
  | WSleep _ _ => ksleep "pipe"
  end.

(** [fileread(f, addr, n)]: the result and the bytes stored at [addr]. *)
Definition fileread (f : nat) (n : Z) : KM (files S) (Z * list Z) :=
  x ← get_file f;
  if fl_readable x =? 0 then mret (-1, []) else
  match fl_type x with
  | FD_PIPE => pipe_read (fl_pipe x) n
  | FD_INODE =>
      infs (ilock (fl_ip x));;
      r ← infs (readi devsw (fl_ip x) (fl_off x) (u32 n));
      (if 0 <? r.1 then upd_file f (set_foff (u32 (fl_off x + r.1))) else mret tt);;
      infs (iunlock (fl_ip x));;
      mret r
  | FD_NONE => panic "fileread"
  end.

Definition max_write : Z := ((MAXOPBLOCKS - 1 - 1 - 2) / 2) * 512.

(** The loop of [filewrite], from byte [i] on: the value of [i] at its end. *)
Fixpoint write_chunks (fuel : nat) (f : nat) (src : list Z) (n i : Z) : KM (files S) Z :=
  match fuel with
  | O => fault "filewrite"
  | Datatypes.S fuel =>
      if i <? n then
        let n1 := if max_write <? n - i then max_write else n - i in
        x ← get_file f;
        fbegin_op;;
        infs (ilock (fl_ip x));;
        r ← infs (writei devsw (fl_ip x) (slice (Z.to_nat i) (Z.to_nat n1) src) (fl_off x) n1);
        (if 0 <? r then upd_file f (set_foff (u32 (fl_off x + r))) else mret tt);;
        infs (iunlock (fl_ip x));;
        fend_op;;
        if r <? 0 then mret i
        else if negb (r =? n1) then panic "short filewrite"
        else write_chunks fuel f src n (i + r)
      else mret i
  end.

(** [filewrite(f, addr, n)], [src] the bytes at [addr]. *)
Definition filewrite (f : nat) (src : list Z) (n : Z) : KM (files S) Z :=
  x ← get_file f;
  if fl_writable x =? 0 then mret (-1) else
  match fl_type x with
  | FD_PIPE => pipe_write (fl_pipe x) src n
  | FD_INODE =>
      i ← write_chunks (Datatypes.S (Z.to_nat n)) f src n 0;
      mret (if i =? n then n else -1)
  | FD_NONE => panic "filewrite"
  end.

(** [pipealloc(&f0, &f1)]; [None] is the result -1. *)
Definition pipealloc : KM (files S) (option (nat * nat)) :=
  f0 ← filealloc;
  match f0 with
  | None => mret None
  | Some f0 =>
      f1 ← filealloc;
      match f1 with
      | None => fileclose f0;; mret None
      | Some f1 =>
          p ← inmem kalloc;
          if p =? 0 then fileclose f0;; fileclose f1;; mret None else
          s ← kget;
          put_pipe p (pipe_init (page_data (k_mem (fi_kmem s)) p));;
          upd_file f0 (set_fpipe 1 0 p);;
          upd_file f1 (set_fpipe 0 1 p);;
          mret (Some (f0, f1))
      end
  end.
End file.
