(* ===== verification/FileSpec.v ===== *)
(** * Reading and writing open files

    [fileread] and [filewrite] on an open inode, over any store with
    transactions ([TxSystem]).  [filewrite] cuts a write into transactions of
    at most [max_write] bytes; each of them stays within the [MAXOPBLOCKS]
    blocks that [begin_op] reserves, and together they write all the bytes. *)

From S2P Require Import Prelude CString Kalloc Sleeplock Bio Log BlockStore Pipe Fs FsBlocks FsInode FsFile FsWrite FsIcache FsDemo File.

#[local] Opaque BLK.

Lemma splice_app {A} off (b1 b2 l : list A) : (off <= length l)%nat ->
  splice (off + length b1) b2 (splice off b1 l) = splice off (b1 ++ b2) l.
Proof.
  intros Hl. unfold splice at 1 3. rewrite length_app, <- !app_assoc.
  assert (splice off b1 l = (take off l ++ b1) ++ drop (off + length b1) l) as -> by (unfold splice; by rewrite app_assoc).
  rewrite take_app_length' by (rewrite length_app, length_take; lia). rewrite <- app_assoc. do 3 f_equal.
  rewrite drop_app_ge; rewrite length_app, length_take; [|lia]. rewrite drop_drop. f_equal. lia.
Qed.

(** What a write of [bytes] at [off] does to the inode [inum], seen from
    outside: to it, to the other inodes on disk and to the other files. *)
Record file_written (sb : superblock) (inum off : Z) (bytes : list Z) (v : tview) (x : dinode) (v' : tview) (x' : dinode) : Prop := mk_file_written {
  fw_size : d_size x' = Z.max (d_size x) (off + Z.of_nat (length bytes));
  fw_content : content (tv_blk v') x' = splice (Z.to_nat off) bytes (content (tv_blk v) x);
  fw_here : disk_inode v' sb inum = Some x';
  fw_other : forall i, 0 <= i < sb_ninodes sb -> i <> inum -> disk_inode v' sb i = disk_inode v sb i;
  fw_files : forall y, inode_ok v sb y -> owned (tv_blk v) y ## owned (tv_blk v) x ->
    inode_ok v' sb y /\ content (tv_blk v') y = content (tv_blk v) y /\ owned (tv_blk v') y ## owned (tv_blk v') x'
}.

Lemma file_written_refl sb inum off v x : 0 <= off <= d_size x -> disk_inode v sb inum = Some x ->
  file_written sb inum off [] v x v x.
Proof.
  intros Ho Hd. split; try done; [simpl; lia|]. unfold splice. simpl. by rewrite Nat.add_0_r, take_drop.
Qed.
Lemma file_written_trans sb inum off b1 b2 v0 x0 v1 x1 v2 x2 : 0 <= off <= d_size x0 ->
  file_written sb inum off b1 v0 x0 v1 x1 ->
  file_written sb inum (off + Z.of_nat (length b1)) b2 v1 x1 v2 x2 ->
  file_written sb inum off (b1 ++ b2) v0 x0 v2 x2.
Proof.
  intros Ho [A1 A2 A3 A4 A5] [B1 B2 B3 B4 B5]. split.
  - rewrite length_app. lia.
  - rewrite B2, A2. replace (Z.to_nat (off + Z.of_nat (length b1))) with (Z.to_nat off + length b1)%nat by lia.
    apply splice_app. rewrite length_content. lia.
  - done.
  - intros i Hi Hn. by rewrite B4, A4.
  - intros y Hy Hd. destruct (A5 y Hy Hd) as (C1 & C2 & C3). destruct (B5 y C1 C3) as (D1 & D2 & D3).
    split_and!; [done|congruence|done].
Qed.

(** The file [F], open on the unlocked inode [X] at [ip], between
    transactions. *)
Record open_file {S} `{TxStore S} (s : files S) (v : tview) (sb : superblock) (f : nat) (F : file) (X : inode) : Prop := mk_open_file {
  of_file : fi_table s !! f = Some F;
  of_type : fl_type F = FD_INODE;
  of_pre : file_pre (fi_fs s) v sb (fl_ip F) X;
  of_idle : tv_cap v = 0%nat /\ tv_log v = ∅;
  of_ref : 1 <= i_ref X;
  of_lock : i_lock X = initsleeplock;
  of_valid : i_valid X = true;
  of_kind : i_type X <> T_DEV;
  of_inum : 0 <= i_inum X < sb_ninodes sb;
  of_range : din_range (i_din X);
  of_disk : disk_inode v sb (i_inum X) = Some (i_din X);
  of_off : 0 <= fl_off F <= i_size X
}.

Section locks.
Context {S : Type} `{TxStore S}.
Implicit Types s : fs S.

Definition with_lock (l : sleeplock) (ip : nat) (s : fs S) : fs S :=
  set_icache (alter (set_ilock l) ip (f_icache s)) s.

Lemma with_lock_at s ip X l : f_icache s !! ip = Some X ->
  f_icache (with_lock l ip s) !! ip = Some (set_ilock l X).
Proof. intros HX. unfold with_lock. simpl. by rewrite list_lookup_alter_eq, HX. Qed.

(** Locked, changed and unlocked again. *)
Lemma relock s ip X l t x : f_icache s !! ip = Some X -> i_lock X = initsleeplock ->
  with_lock initsleeplock ip (at_ip (with_lock l ip s) ip t x) = at_ip s ip t x.
Proof.
  intros HX Hl. unfold with_lock, at_ip, with_lock, set_icache, set_store. simpl. f_equal.
  apply list_eq. intros j. destruct (decide (j = ip)) as [->|]; [|by rewrite !list_lookup_alter_ne].
  rewrite !list_lookup_alter_eq, HX. simpl. destruct X. simpl in Hl. by subst.
Qed.

Lemma ilock_spec s ip X (Q : unit -> fs S -> Prop) :
  f_icache s !! ip = Some X -> 1 <= i_ref X -> i_lock X = initsleeplock -> i_valid X = true ->
  Q tt (with_lock (mksleeplock true (f_pid s)) ip s) -> wp (ilock ip) s Q.
Proof.
  intros HX Hr Hl Hv HQ. unfold ilock. wp_step. eapply wp_get_ip; [exact HX|].
  rewrite (proj2 (Z.ltb_ge _ _)) by lia. wp_step. wp_step. wp_step.
  unfold wp, ip_lock. rewrite HX, Hl. simpl. fold (with_lock (mksleeplock true (f_pid s)) ip s).
  unfold mbind, km_bind, get_ip. rewrite (with_lock_at s ip X) by done. simpl. by rewrite Hv.
Qed.

Lemma iunlock_with s ip X (Q : unit -> fs S -> Prop) :
  f_icache s !! ip = Some X -> 1 <= i_ref X -> sl_locked (i_lock X) = true ->
  Q tt (with_lock initsleeplock ip s) -> wp (iunlock ip) s Q.
Proof. intros HX Hr Hl HQ. eapply iunlock_spec; [done|done|done|]. by rewrite <- (set_icache_alter s ip X). Qed.
End locks.

Lemma maps_one sb : layout sb -> sb_size sb <= BPB -> (size (maps sb) <= 1)%nat.
Proof.
  intros HL Hs. pose proof (ly_size _ HL). unfold maps, meta_end. rewrite Z.div_small by lia.
  replace (sb_bmapstart sb + 0 + 1 - sb_bmapstart sb) with 1 by lia.
  rewrite seqZ_cons, seqZ_nil, list_to_set_singleton, size_singleton by lia. lia.
Qed.
Lemma nblocks_max off n : 0 <= off -> n <= max_write -> (nblocks off n <= 4)%nat.
Proof.
  intros Ho Hn. change max_write with 1536 in Hn. pose proof BLK_eq as HB. unfold nblocks. destruct (Z.leb_spec n 0); [lia|].
  assert ((off + n - 1) / BLK <= off / BLK + 3); [|lia].
  rewrite <- Z.div_add by lia. apply Z.div_le_mono; lia.
Qed.

(** [s] after a write: the store [t], the in-core inode [x] and the offset [o]. *)
Definition wrote_state {S} (s : files S) (f : nat) (F : file) (t : S) (x : dinode) (o : Z) : files S :=
  set_table (<[f := set_foff o F]> (fi_table s)) (set_fs (at_ip (fi_fs s) (fl_ip F) t x) s).

Section write.
Context {S : Type} `{TxSystem S} (devsw : Z -> devops S).

Lemma wp_infs {A} (m : KM (fs S) A) (s : files S) (Q : A -> files S -> Prop) :
  wp m (fi_fs s) (fun a x => Q a (set_fs x s)) -> wp (infs m) s Q.
Proof. intros Hm. by apply wp_zoom. Qed.
Lemma wp_begin (s : files S) v (Q : unit -> files S -> Prop) :
  tx_at (f_store (fi_fs s)) v -> tv_cap v = 0%nat -> tv_log v = ∅ ->
  (forall t, tx_at t (tv_begin v) -> Q tt (set_fs (set_store t (fi_fs s)) s)) -> wp fbegin_op s Q.
Proof.
  intros Ht Hc Hl HQ. apply wp_infs, wp_zoom. eapply wp_mono; [by apply tx_begin|]. intros [] t Ht'. by apply HQ.
Qed.
Lemma wp_end (s : files S) v (Q : unit -> files S -> Prop) :
  tx_at (f_store (fi_fs s)) v -> tv_cap v <> 0%nat -> tv_held v = ∅ ->
  (forall t, tx_at t (tv_end v) -> Q tt (set_fs (set_store t (fi_fs s)) s)) -> wp fend_op s Q.
Proof.
  intros Ht Hc Hl HQ. apply wp_infs, wp_zoom. eapply wp_mono; [by apply tx_end|]. intros [] t Ht'. by apply HQ.
Qed.
Lemma wp_get_file (s : files S) f F (Q : file -> files S -> Prop) :
  fi_table s !! f = Some F -> Q F s -> wp (get_file f) s Q.
Proof. intros HF HQ. unfold wp, get_file. by rewrite HF. Qed.

Lemma held_none v : held_blocks v = ∅ -> tv_held v = ∅.
Proof. unfold held_blocks. intros Hh. by apply map_img_empty_inv_L in Hh. Qed.

Lemma open_file_written (s : files S) v sb f F X v1 x' t bytes :
  open_file s v sb f F X -> fs_inv v1 sb -> tv_mod v1 = ∅ -> held_blocks v1 = ∅ ->
  tx_at t (tv_end v1) -> fl_off F + Z.of_nat (length bytes) <= MAXFILE * BLK ->
  written sb (i_inum X) (fl_off F) bytes (tv_begin v) (i_din X) v1 x' ->
  open_file (wrote_state s f F t x' (fl_off F + Z.of_nat (length bytes))) (tv_end v1) sb f
    (set_foff (fl_off F + Z.of_nat (length bytes)) F) (set_din x' X) /\
  file_written sb (i_inum X) (fl_off F) bytes v (i_din X) (tv_end v1) x'.
Proof.
  intros [O1 O2 [P1 P2 P3 P4 P5 P6 P7 P8 P9] [O3 O3'] O4 O5 O6 O7 O8 O9 O10 O11] Hi1 Hm1 Hh1 Ht Hmax W.
  pose proof (wn_ok _ _ _ _ _ _ _ _ W) as Hok. pose proof (wn_here _ _ _ _ _ _ _ _ W O10) as Hd.
  destruct (wn_kind _ _ _ _ _ _ _ _ W) as (K1 & K2 & K3 & K4). pose proof (wn_size _ _ _ _ _ _ _ _ W) as Hsz.
  assert (fs_inv (tv_end v1) sb) as Hi2 by by destruct Hi1.
  assert (inode_ok (tv_end v1) sb x') as Hok2 by by destruct Hok.
  split.
  - split; try done.
    + unfold wrote_state. simpl. apply list_lookup_insert_eq. by eapply lookup_lt_Some.
    + split; try done. unfold wrote_state. simpl. by rewrite list_lookup_alter_eq, P7.
    + unfold i_type in *. simpl. by rewrite K1.
    + simpl. by eapply written_range.
    + unfold i_size in *. simpl. lia.
  - split; try done; [apply W|apply (wn_other _ _ _ _ _ _ _ _ W)|].
    intros y Hy Hdis. assert (fs_inv (tv_begin v) sb) as Hi0 by by destruct P3.
    assert (inode_ok (tv_begin v) sb y) as Hy0 by by destruct Hy.
    destruct (written_other _ _ _ _ _ _ _ _ y Hi0 O8 W Hy0 Hdis) as ((Y1 & _ & _ & _ & Y2) & Y3).
    split_and!; try done. by destruct Y1.
Qed.
(** One transaction of [filewrite]. *)
Lemma chunk_spec (s : files S) v sb f F X bytes {A} (k : Z -> KM (files S) A) (Q : A -> files S -> Prop) :
  let n := Z.of_nat (length bytes) in
  open_file s v sb f F X -> sb_size sb <= BPB -> Forall is_byte bytes -> 0 < n <= max_write ->
  fl_off F + n <= MAXFILE * BLK -> (8 <= size (free_blocks v sb))%nat ->
  (forall t v' x', open_file (wrote_state s f F t x' (fl_off F + n)) v' sb f (set_foff (fl_off F + n) F) (set_din x' X) ->
     file_written sb (i_inum X) (fl_off F) bytes v (i_din X) v' x' ->
     (size (free_blocks v sb) <= 8 + size (free_blocks v' sb))%nat ->
     wp (k n) (wrote_state s f F t x' (fl_off F + n)) Q) ->
  wp (fbegin_op;; infs (ilock (fl_ip F));;
      r ← infs (writei devsw (fl_ip F) bytes (fl_off F) n);
      (if 0 <? r then upd_file f (set_foff (u32 (fl_off F + r))) else mret tt);;
      infs (iunlock (fl_ip F));; fend_op;; k r) s Q.
Proof.
  intros n O Hone Hb Hn Hmax Hfree HQ. pose proof O as [O1 O2 [P1 P2 P3 P4 P5 P6 P7 P8 P9] [O3 O3'] O4 O5 O6 O7 O8 O9 O10 O11].
  pose proof (nblocks_max (fl_off F) n ltac:(lia) ltac:(lia)) as Hnb. pose proof BLK_eq as HB.
  wp_step. eapply wp_begin; [done..|]. intros t0 Ht0.
  wp_step. apply wp_infs. eapply ilock_spec; [exact P7|done|done|done|].
  set (L := mksleeplock true (f_pid (set_store t0 (fi_fs s)))). set (fs1 := with_lock L (fl_ip F) (set_store t0 (fi_fs s))).
  assert (f_icache fs1 !! fl_ip F = Some (set_ilock L X)) as HX1 by by apply with_lock_at.
  assert (file_pre fs1 (tv_begin v) sb (fl_ip F) (set_ilock L X)) as P'.
  { split; try done; [by destruct P3|simpl; rewrite O3', size_empty; lia|by destruct P9]. }
  wp_step. apply wp_infs. simpl fi_fs.
  eapply (writei_spec devsw fs1 sb (fl_ip F) (set_ilock L X) (tv_begin v) P'); try done.
  { unfold room. simpl. rewrite O3', union_empty_l_L. pose proof (maps_one sb (fi_layout _ _ P3) Hone). fold n. change (Z.to_nat MAXOPBLOCKS) with 10%nat. lia. }
  { change (free_blocks (tv_begin v) sb) with (free_blocks v sb). fold n. lia. }
  intros t1 v1 x' Ht1 Hm1 Hh1 W. fold n in W. fold n.
  rewrite (proj2 (Z.ltb_lt _ _)) by lia. wp_step. unfold upd_file. wp_step.
  wp_step. apply wp_infs.
  eapply (iunlock_with _ (fl_ip F) (set_din x' (set_ilock L X))); [by eapply at_ip_lookup|done|done|].
  wp_step. eapply (wp_end _ v1); [exact Ht1|by rewrite (ev_cap _ _ _ _ (wn_ev _ _ _ _ _ _ _ _ W))|by apply held_none|].
  intros t2 Ht2. destruct (open_file_written s v sb f F X v1 x' t2 bytes O) as [O' W']; try done.
  { apply (wn_ev _ _ _ _ _ _ _ _ W). }
  match goal with |- wp _ ?s' _ => assert (s' = wrote_state s f F t2 x' (fl_off F + n)) as -> end.
  { unfold wrote_state, set_table, set_fs. simpl. f_equal.
    - exact (f_equal (set_store t2) (relock (set_store t0 (fi_fs s)) (fl_ip F) X L t1 x' P7 O5)).
    - rewrite (alter_insert _ _ _ _ O1). unfold i_size, MAXFILE, NDIRECT, NINDIRECT in *. by rewrite u32_id by lia. }
  apply (HQ t2 (tv_end v1) x'); try done.
  pose proof (wn_free _ _ _ _ _ _ _ _ W) as Hf. fold n in Hf.
  change (free_blocks (tv_begin v) sb) with (free_blocks v sb) in Hf.
  change (free_blocks (tv_end v1) sb) with (free_blocks v1 sb). lia.
Qed.
Lemma wrote_state_id (s : files S) f F X : fi_table s !! f = Some F -> f_icache (fi_fs s) !! fl_ip F = Some X ->
  wrote_state s f F (f_store (fi_fs s)) (i_din X) (fl_off F) = s.
Proof.
  intros HF HX. unfold wrote_state. rewrite (at_ip_self _ _ _ HX).
  destruct s as [[a b c d e] T k p kl], F. unfold set_table, set_fs, set_store. simpl in *. by rewrite list_insert_id.
Qed.
Lemma wrote_state_trans (s : files S) f F X t x o t' x' o' : f_icache (fi_fs s) !! fl_ip F = Some X ->
  wrote_state (wrote_state s f F t x o) f (set_foff o F) t' x' o' = wrote_state s f F t' x' o'.
Proof.
  intros HX. unfold wrote_state, set_table, set_fs. simpl. rewrite list_insert_insert_eq. f_equal.
  by apply (at_ip_at _ _ X).
Qed.

Definition chunks (n : Z) : nat := Z.to_nat ((n + 1535) / 1536).
Lemma chunks_step n n1 : 0 < n -> n1 = (if max_write <? n then max_write else n) ->
  0 < n1 <= max_write /\ n1 <= n /\ chunks n = Datatypes.S (chunks (n - n1)).
Proof.
  change max_write with 1536. intros Hn ->. unfold chunks. destruct (Z.ltb_spec 1536 n).
  - split; [lia|]. split; [lia|]. replace (n + 1535) with (n - 1536 + 1535 + 1 * 1536) by lia. rewrite Z.div_add by lia.
    assert (0 <= (n - 1536 + 1535) / 1536) by (apply Z.div_pos; lia). lia.
  - split; [lia|]. split; [lia|]. rewrite Z.sub_diag. change ((0 + 1535) / 1536) with 0.
    assert ((n + 1535) / 1536 = 1) as ->; [|lia]. symmetry. apply (Z.div_unique _ _ _ (n + 1535 - 1536)); lia.
Qed.

Lemma write_chunks_spec sb f src fuel : Forall is_byte src -> sb_size sb <= BPB ->
  forall (s : files S) v F X i (Q : Z -> files S -> Prop),
  let n := Z.of_nat (length src) in
  open_file s v sb f F X -> 0 <= i <= n -> n - i < Z.of_nat fuel -> fl_off F + (n - i) <= MAXFILE * BLK ->
  (8 * chunks (n - i) <= size (free_blocks v sb))%nat ->
  (forall t v' x', open_file (wrote_state s f F t x' (fl_off F + (n - i))) v' sb f (set_foff (fl_off F + (n - i)) F) (set_din x' X) ->
     file_written sb (i_inum X) (fl_off F) (drop (Z.to_nat i) src) v (i_din X) v' x' ->
     Q n (wrote_state s f F t x' (fl_off F + (n - i)))) ->
  wp (write_chunks devsw fuel f src n i) s Q.
Proof.
  intros Hby Hone. induction fuel as [|fuel IH]; intros s v F X i Q n O Hi Hf Hmax Hfree HQ; [lia|].
  cbn [write_chunks]. pose proof O as [O1 _ [_ _ _ _ _ _ P7 _ _] _ _ _ _ _ _ _ O10 O11]. destruct (Z.ltb_spec i n).
  2:{ wp_step. assert (i = n) as -> by lia. rewrite Z.sub_diag, Z.add_0_r in HQ.
      specialize (HQ (f_store (fi_fs s)) v (i_din X)).
      rewrite (wrote_state_id _ _ _ X) in HQ by done. apply HQ.
      - destruct F, X. exact O.
      - rewrite drop_ge by lia. by apply file_written_refl. }
  destruct (chunks_step (n - i) _ ltac:(lia) eq_refl) as (Hn1 & Hn2 & Hc).
  set (n1 := if max_write <? n - i then max_write else n - i) in *. clearbody n1. cbv zeta.
  set (b := slice (Z.to_nat i) (Z.to_nat n1) src).
  assert (Z.of_nat (length b) = n1) as Hlb by (unfold b; rewrite length_slice; lia).
  wp_step. eapply wp_get_file; [done|]. rewrite <- Hlb.
  eapply (chunk_spec s v sb f F X b); try done; try lia.
  { unfold b, slice. auto using Forall_take, Forall_drop. }
  intros t v' x' O' W' Hfr. rewrite Hlb in *. rewrite (proj2 (Z.ltb_ge _ _)) by lia. rewrite Z.eqb_refl. simpl negb. cbv iota.
  eapply (IH _ v'); [exact O'|lia|lia|simpl; lia|fold n; replace (n - (i + n1)) with (n - i - n1) by lia; lia|].
  intros t2 v2 x2 O2 W2. simpl in O2, W2. rewrite (wrote_state_trans _ _ _ X) in O2 |- * by done.
  fold n in O2, W2. fold n. replace (fl_off F + n1 + (n - (i + n1))) with (fl_off F + (n - i)) in * by lia.
  simpl. replace (fl_off F + n1 + (n - (i + n1))) with (fl_off F + (n - i)) by lia.
  apply (HQ t2 v2 x2).
  - destruct X. exact O2.
  - replace (drop (Z.to_nat i) src) with (b ++ drop (Z.to_nat (i + n1)) src).
    + eapply (file_written_trans sb _ (fl_off F) b _ v (i_din X) v' x'); [done|done|by rewrite Hlb].
    + unfold b, slice. rewrite Z2Nat.inj_add by lia. rewrite <- drop_drop. apply take_drop.
Qed.
End write.

(** ** The theorems *)

(** C6.  [filewrite] writes everything: on a writable open file with room on a
    disk of one free-map block it returns [n], for any [n] that keeps the
    file within [MAXFILE] blocks, however many transactions it takes; each
    stays within the [MAXOPBLOCKS] blocks its [begin_op] reserved.  The
    contents become the old ones with the bytes written at the offset, the
    offset moves past them, the inode on disk is the one in core, the lock is
    free, and no other inode or file changes. *)
Theorem filewrite_correct {S} `{TxSystem S} (devsw : Z -> devops S) (s : files S) v sb f F X src :
  let n := Z.of_nat (length src) in
  open_file s v sb f F X -> fl_writable F <> 0 -> Forall is_byte src -> sb_size sb <= BPB ->
  fl_off F + n <= MAXFILE * BLK -> (8 * chunks n <= size (free_blocks v sb))%nat ->
  wp (filewrite devsw f src n) s (fun r s' => r = n /\ exists t v' x',
    s' = wrote_state s f F t x' (fl_off F + n) /\
    open_file s' v' sb f (set_foff (fl_off F + n) F) (set_din x' X) /\
    file_written sb (i_inum X) (fl_off F) src v (i_din X) v' x').
Proof.
  intros n O Hw Hb Hone Hmax Hfree. unfold filewrite. wp_step. eapply wp_get_file; [apply O|].
  rewrite (proj2 (Z.eqb_neq _ _) Hw), (of_type _ _ _ _ _ _ O). wp_step.
  eapply (write_chunks_spec devsw sb f src _ Hb Hone s v F X 0); fold n; rewrite ?Z.sub_0_r; try done; try lia.
  intros t v' x' O' W'. wp_step. rewrite Z.eqb_refl. split; [done|]. by exists t, v', x'.
Qed.

(** [fileread] returns the file's bytes from the offset on, as many as were
    asked for or as there are, and moves the offset past them; nothing else
    changes. *)
Theorem fileread_correct {S} `{TxSystem S} (devsw : Z -> devops S) (s : files S) v sb f F X n :
  open_file s v sb f F X -> fl_readable F <> 0 -> 0 <= n < 2 ^ 31 ->
  let m := Z.min n (i_size X - fl_off F) in
  wp (fileread devsw f n) s (fun r s' =>
    r = (m, slice (Z.to_nat (fl_off F)) (Z.to_nat m) (content (tv_blk v) (i_din X))) /\
    exists t, s' = wrote_state s f F t (i_din X) (fl_off F + m) /\ open_file s' v sb f (set_foff (fl_off F + m) F) X).
Proof.
  intros O Hr Hn m. pose proof O as [O1 O2 [P1 P2 P3 P4 P5 P6 P7 P8 P9] [O3 O3'] O4 O5 O6 O7 O8 O9 O10 O11].
  pose proof (in_size _ _ _ P9) as Hsz. change (d_size (i_din X)) with (i_size X) in Hsz.
  pose proof BLK_eq. unfold MAXFILE, NDIRECT, NINDIRECT in Hsz.
  unfold fileread. wp_step. eapply wp_get_file; [done|]. rewrite (proj2 (Z.eqb_neq _ _) Hr), O2.
  wp_step. apply wp_infs. eapply ilock_spec; [done..|].
  set (L := mksleeplock true _). set (fs1 := with_lock L (fl_ip F) (fi_fs s)).
  assert (f_icache fs1 !! fl_ip F = Some (set_ilock L X)) as HX1 by by apply with_lock_at.
  assert (file_pre fs1 v sb (fl_ip F) (set_ilock L X)) as P' by by split.
  wp_step. apply wp_infs. simpl fi_fs. rewrite u32_id by lia.
  eapply (readi_spec devsw fs1 sb (fl_ip F) (set_ilock L X) v P'); [done|done|lia|lia|]. intros t Ht. simpl. fold m.
  wp_step. set (s2 := set_fs _ (set_fs _ s)).
  assert (wp (if 0 <? m then upd_file f (set_foff (u32 (fl_off F + m))) else mret tt) s2
    (fun _ s' => s' = set_table (<[f := set_foff (fl_off F + m) F]> (fi_table s)) s2)) as Hoff.
  { destruct (Z.ltb_spec 0 m).
    - unfold upd_file. wp_step. simpl. by rewrite (alter_insert _ _ _ _ O1), u32_id by lia.
    - wp_step. assert (m = 0) as -> by lia. rewrite Z.add_0_r. replace (set_foff (fl_off F) F) with F by by destruct F.
      rewrite list_insert_id by done. done. }
  eapply wp_mono; [exact Hoff|]. intros [] s3 ->. wp_step. apply wp_infs.
  eapply (iunlock_with _ _ (set_ilock L X)); [exact HX1|done|done|]. wp_step. split; [done|]. exists t.
  match goal with |- ?s4 = ?w /\ _ => assert (s4 = w) as -> end.
  { unfold wrote_state, set_table, set_fs. simpl. f_equal.
    rewrite <- (relock _ _ X L) by done. f_equal. by rewrite (at_ip_self _ _ _ HX1). }
  split; [done|]. split; try done; [simpl; apply list_lookup_insert_eq; by eapply lookup_lt_Some| |simpl; lia].
  split; try done. simpl. rewrite list_lookup_alter_eq, P7. by destruct X.
Qed.

(** ** The small file system, with inode 2 open *)

Definition demo_idle : tview := tv_end demo_view.
Definition demo_open : file := mkfile FD_INODE 1 1 1 0 1 3.
Definition demo_files : files tview :=
  mkfiles (mkfs demo_idle demo_sb demo_icache 1 0) (demo_open :: replicate 99 file0) (mkkmem (fun _ => 0) true 0) ∅ 0.
Definition demo_cached : inode := mkinode ROOTDEV 2 1 initsleeplock true demo_file.

Lemma demo_disk_file : disk_inode demo_view demo_sb 2 = Some demo_file.
Proof.
  unfold disk_inode. change (tv_blk demo_view !! IBLOCK 2 demo_sb) with (demo_blocks !! 22).
  assert (demo_blocks !! 22 = Some demo_inodes) as -> by (apply demo_blocks_Some; split_and!; [lia|done|lia]).
  simpl. f_equal.
Qed.
Lemma demo_idle_pre : file_pre (fi_fs demo_files) demo_idle demo_sb 1 demo_cached.
Proof.
  destruct (demo_pre 1 demo_cached eq_refl ltac:(lia)) as [[_ [P1 _]] P2 P3 P4 P5 P6 P7 P8 P9].
  apply mk_file_pre; [|exact eq_refl|by destruct P3|exact P4|exact P5|exact (Nat.le_refl 0)|exact eq_refl|exact P8|by destruct P9].
  split; [exact eq_refl|]. split; [exact P1|simpl; unfold NBUF; lia].
Qed.
Lemma demo_open_file : open_file demo_files demo_idle demo_sb 0 demo_open demo_cached.
Proof.
  apply mk_open_file.
  - exact eq_refl.
  - exact eq_refl.
  - exact demo_idle_pre.
  - split; exact eq_refl.
  - simpl. lia.
  - exact eq_refl.
  - exact eq_refl.
  - discriminate.
  - simpl. lia.
  - apply demo_range. set_solver.
  - exact demo_disk_file.
  - unfold i_size. simpl. lia.
Qed.

Lemma filewrite_correct_witness :
  wp (filewrite no_devices 0 [33; 33; 33] 3) demo_files (fun r s' => r = 3 /\ exists t v' x',
    s' = wrote_state demo_files 0 demo_open t x' 6 /\
    open_file s' v' demo_sb 0 (set_foff 6 demo_open) (set_din x' demo_cached) /\
    file_written demo_sb 2 3 [33; 33; 33] demo_idle demo_file v' x').
Proof.
  apply (filewrite_correct no_devices demo_files demo_idle demo_sb 0 demo_open demo_cached [33; 33; 33]).
  - exact demo_open_file.
  - discriminate.
  - repeat constructor; done.
  - done.
  - simpl. unfold MAXFILE, NDIRECT, NINDIRECT. pose proof BLK_eq. lia.
  - change (free_blocks demo_idle demo_sb) with (free_blocks demo_view demo_sb). rewrite demo_free.
    vm_compute. lia.
Defined.

Lemma fileread_correct_witness :
  wp (fileread no_devices 0 100) demo_files (fun r s' => r = (2, [108; 111]) /\
    exists t, s' = wrote_state demo_files 0 demo_open t demo_file 5 /\
      open_file s' demo_idle demo_sb 0 (set_foff 5 demo_open) demo_cached).
Proof.
  exact (fileread_correct no_devices demo_files demo_idle demo_sb 0 demo_open demo_cached 100
    demo_open_file ltac:(discriminate) ltac:(lia)).
Defined.
