(* ===== verification/FileRefs.v ===== *)
(** * The file table and its references

    Who holds an open file: [h f] is the number of references to the file
    [f], in descriptor tables and in calls in progress.  In every sequence of
    calls of [file.c] and [pipealloc] the count in the table is that number,
    a free slot is free of everything, each end of a pipe has one file, and a
    pipe's page goes back to the allocator exactly when its second end is
    closed. *)

From stdpp Require Import functions.
From S2P Require Import Prelude CString Mmu Kalloc Sleeplock Bio BlockStore Pipe Fs File.

Definition end_open (w : Z) (p : pipe) : Prop := if w =? 0 then p_readopen p <> 0 else p_writeopen p <> 0.
#[global] Instance end_open_dec w p : Decision (end_open w p).
Proof. unfold end_open. destruct (w =? 0); apply _. Defined.

Record refs_ok (T : list file) (h : nat -> nat) : Prop := mk_refs_ok {
  ro_ref : forall f x, T !! f = Some x -> fl_ref x = Z.of_nat (h f);
  ro_in : forall f, (0 < h f)%nat -> is_Some (T !! f);
  ro_idle : forall f x, T !! f = Some x -> fl_ref x = 0 -> fl_type x = FD_NONE
}.

(** [x] is the file of the end [w] of the pipe at [a]. *)
Definition pipe_end (T : list file) (a w : Z) (f : nat) : Prop := exists x,
  T !! f = Some x /\ fl_type x = FD_PIPE /\ fl_pipe x = a /\ (fl_writable x =? 0) = (w =? 0).

Record pipes_ok (T : list file) (P : gmap Z pipe) : Prop := mk_pipes_ok {
  po_file : forall a w f, pipe_end T a w f -> exists p, P !! a = Some p /\ end_open w p;
  po_one : forall a w f g, pipe_end T a w f -> pipe_end T a w g -> f = g;
  po_some : forall a p, P !! a = Some p -> exists w, end_open w p;
  po_open : forall a p w, P !! a = Some p -> end_open w p -> exists f, pipe_end T a w f
}.

Section refs.
Context {S : Type} `{!BlockStore S} `{!TxOps S} (kend : Z).

Definition pages_ok (s : files S) : Prop := exists l, kmem_ok kend (fi_kmem s) l /\
  forall a, is_Some (fi_pipes s !! a) -> good_page kend a /\ a ∉ l.

Record ft_inv (s : files S) (h : nat -> nat) : Prop := mk_ft_inv {
  ft_refs : refs_ok (fi_table s) h;
  ft_pipes : pipes_ok (fi_table s) (fi_pipes s);
  ft_pages : pages_ok s
}.

(** ** Changing one file *)

Lemma refs_upd T h f x y n : refs_ok T h -> T !! f = Some x -> fl_ref y = Z.of_nat n ->
  (n = 0%nat -> fl_type y = FD_NONE) -> refs_ok (<[f := y]> T) (<[f := n]> h).
Proof.
  intros [R1 R2 R3] Hx Hr Ht. pose proof (lookup_lt_Some _ _ _ Hx) as Hlt. split.
  - intros g z. destruct (decide (g = f)) as [->|Hn].
    + rewrite list_lookup_insert_eq, fn_lookup_insert by done. congruence.
    + rewrite list_lookup_insert_ne, fn_lookup_insert_ne by done. apply R1.
  - intros g. destruct (decide (g = f)) as [->|Hn]; [rewrite list_lookup_insert_eq by done; eauto|].
    rewrite list_lookup_insert_ne, fn_lookup_insert_ne by done. apply R2.
  - intros g z. destruct (decide (g = f)) as [->|Hn].
    + rewrite list_lookup_insert_eq by done. intros [= <-] E. apply Ht. lia.
    + rewrite list_lookup_insert_ne by done. apply R3.
Qed.

(** The count stays, and is not zero. *)
Lemma refs_keep T h f x y : refs_ok T h -> T !! f = Some x -> fl_ref y = fl_ref x -> fl_ref x <> 0 ->
  refs_ok (<[f := y]> T) h.
Proof.
  intros [R1 R2 R3] Hx Hr Hn. pose proof (lookup_lt_Some _ _ _ Hx) as Hlt.
  split; intros g; destruct (decide (g = f)) as [->|Hg];
    rewrite ?list_lookup_insert_eq, ?list_lookup_insert_ne by done; eauto.
  - intros z [= <-]. rewrite Hr. by apply R1.
  - intros z [= <-]. congruence.
Qed.

(** The ends of pipes, when the file that changes is not one before. *)
Lemma pipe_end_upd T f x y a w g : T !! f = Some x -> 
  pipe_end (<[f := y]> T) a w g <->
  (g = f /\ fl_type y = FD_PIPE /\ fl_pipe y = a /\ (fl_writable y =? 0) = (w =? 0)) \/ (g <> f /\ pipe_end T a w g).
Proof.
  intros Hx. pose proof (lookup_lt_Some _ _ _ Hx) as Hlt. unfold pipe_end. destruct (decide (g = f)) as [->|Hn].
  - rewrite list_lookup_insert_eq by done. naive_solver.
  - rewrite list_lookup_insert_ne by done. naive_solver.
Qed.

(** The file keeps its kind, or was not the end of a pipe and is not one now. *)
Definition same_end (x y : file) : Prop :=
  (fl_type x = FD_PIPE <-> fl_type y = FD_PIPE) /\
  (fl_type x = FD_PIPE -> fl_pipe y = fl_pipe x /\ fl_writable y = fl_writable x).
Lemma pipe_end_same T f x y a w g : T !! f = Some x -> same_end x y ->
  pipe_end (<[f := y]> T) a w g <-> pipe_end T a w g.
Proof.
  intros Hx [E1 E2]. rewrite (pipe_end_upd T f x) by done. split.
  - intros [(-> & Ht & Hp & Hw)|[_ ?]]; [|done]. apply E1 in Ht. destruct (E2 Ht) as [Ep Ew].
    exists x. split_and!; congruence.
  - intros He. destruct (decide (g = f)) as [->|]; [left|by right]. destruct He as (z & Hz & Ht & Hp & Hw).
    rewrite Hx in Hz. injection Hz as <-. destruct (E2 Ht) as [Ep Ew]. split_and!; try done; [by apply E1|congruence|congruence].
Qed.
Lemma pipes_same T P f x y : T !! f = Some x -> same_end x y -> pipes_ok T P -> pipes_ok (<[f := y]> T) P.
Proof.
  intros Hx Hs [P1 P2 P3 P4]. split; [..|done|].
  - intros a w g He. eapply P1. by eapply (pipe_end_same T f x y).
  - intros a w g g' H1 H2. apply (P2 a w); by eapply (pipe_end_same T f x y).
  - intros a p w Hp He. destruct (P4 a p w Hp He) as [g Hg]. exists g. by eapply (pipe_end_same T f x y).
Qed.
Lemma same_end_ref x r : same_end x (set_fref r x).
Proof. done. Qed.

(** ** [filealloc] and [filedup] *)

Lemma find_file_Some T : forall i f, find_file i T = Some f ->
  exists x, T !! (f - i)%nat = Some x /\ (i <= f)%nat /\ fl_ref x = 0.
Proof.
  induction T as [|x T IH]; intros i f; simpl; [done|]. destruct (Z.eqb_spec (fl_ref x) 0).
  - intros [= <-]. rewrite Nat.sub_diag. eauto.
  - intros (y & Hy & Hi & Hr)%IH. exists y. replace (f - i)%nat with (Datatypes.S (f - Datatypes.S i)) by lia. split_and!; [done|lia|done].
Qed.
Lemma find_file_None T : forall i, find_file i T = None -> forall f x, T !! f = Some x -> fl_ref x <> 0.
Proof.
  induction T as [|x T IH]; intros i; simpl; [done|]. destruct (Z.eqb_spec (fl_ref x) 0); [done|].
  intros Hn [|f] y Hy; [by injection Hy as <-|]. by eapply IH.
Qed.

Lemma filealloc_spec s h : ft_inv s h -> wp filealloc s (fun r s' =>
  match r with
  | Some f => h f = 0%nat /\ ft_inv s' (<[f := 1%nat]> h) /\
      exists x, fi_table s !! f = Some x /\ fl_type x = FD_NONE /\ fl_ref x = 0 /\
        s' = set_table (<[f := set_fref 1 x]> (fi_table s)) s
  | None => s' = s /\ forall f, is_Some (fi_table s !! f) -> (0 < h f)%nat
  end).
Proof.
  intros [R P G]. unfold filealloc. wp_step. wp_step. destruct (find_file 0 (fi_table s)) as [f|] eqn:E.
  - apply find_file_Some in E as (x & Hx & _ & Hr). rewrite Nat.sub_0_r in Hx.
    unfold upd_file. wp_step. wp_step. wp_step. rewrite (alter_insert _ _ _ _ Hx).
    pose proof (ro_ref _ _ R f x Hx). split; [lia|]. split; [split|].
    + by eapply refs_upd.
    + by apply (pipes_same _ _ f x).
    + done.
    + exists x. split_and!; [done|by apply (ro_idle _ _ R f)|done|done].
  - wp_step. split; [done|]. intros f [x Hx]. pose proof (find_file_None _ _ E f x Hx).
    pose proof (ro_ref _ _ R f x Hx). lia.
Qed.

Lemma wp_file (s : files S) f x (Q : file -> files S -> Prop) : fi_table s !! f = Some x -> Q x s -> wp (get_file f) s Q.
Proof. intros Hx HQ. unfold wp, get_file. by rewrite Hx. Qed.

Lemma wp_pipe (s : files S) a p (Q : pipe -> files S -> Prop) : fi_pipes s !! a = Some p -> Q p s -> wp (get_pipe a) s Q.
Proof. intros Hp HQ. unfold wp, get_pipe. by rewrite Hp. Qed.

Lemma filedup_spec s h f : ft_inv s h -> (0 < h f)%nat -> Z.of_nat (h f) < 2 ^ 31 - 1 ->
  wp (filedup f) s (fun r s' => r = f /\ ft_inv s' (<[f := Datatypes.S (h f)]> h)).
Proof.
  intros [R P G] Hf Hb. destruct (ro_in _ _ R f Hf) as [x Hx]. pose proof (ro_ref _ _ R f x Hx) as Hr.
  unfold filedup. wp_step. eapply wp_file; [done|]. rewrite (proj2 (Z.ltb_ge _ _)) by lia.
  unfold upd_file. wp_step. wp_step. wp_step. rewrite (alter_insert _ _ _ _ Hx). split; [done|]. split.
  - eapply refs_upd; [done..| |lia]. simpl. rewrite i32_id by lia. lia.
  - by apply (pipes_same _ _ f x).
  - done.
Qed.
(** ** [fileclose] *)

Lemma closed_end p w w' :
  end_open w' (pipeclose (negb (w =? 0)) p).2 <-> end_open w' p /\ (w' =? 0) <> (w =? 0).
Proof. unfold end_open, pipeclose. destruct (w =? 0), (w' =? 0); simpl; naive_solver. Qed.
Lemma closed_freed p w :
  (pipeclose (negb (w =? 0)) p).1 = true <-> forall w', ~ end_open w' (pipeclose (negb (w =? 0)) p).2.
Proof.
  unfold end_open, pipeclose. simpl. rewrite andb_true_iff, !Z.eqb_eq. split.
  - intros [H1 H2] w'. destruct (w' =? 0); naive_solver.
  - intros Hw. split; [specialize (Hw 0)|specialize (Hw 1)]; simpl in Hw; lia.
Qed.

(** The pipes after the file [f] of the end [w] of the pipe [a] is closed. *)
Lemma pipes_close T P f x y p : pipes_ok T P -> T !! f = Some x -> fl_type x = FD_PIPE -> fl_type y = FD_NONE ->
  P !! fl_pipe x = Some p ->
  let r := pipeclose (negb (fl_writable x =? 0)) p in
  pipes_ok (<[f := y]> T) (if r.1 then delete (fl_pipe x) P else <[fl_pipe x := r.2]> P).
Proof.
  intros [P1 P2 P3 P4] Hx Hpx Hy Hp r. set (a := fl_pipe x) in *. set (w := fl_writable x) in *.
  assert (pipe_end T a w f) as Hf by by exists x.
  assert (Hends : forall b w' g, pipe_end (<[f := y]> T) b w' g -> g <> f /\ pipe_end T b w' g /\ (b = a -> (w' =? 0) <> (w =? 0))).
  { intros b w' g. rewrite (pipe_end_upd T f x) by done. intros [(_ & E & _)|[Hn Hg]]; [congruence|].
    split_and!; [done|done|]. intros -> Ew. apply Hn, (P2 a w'); [done|]. exists x. by rewrite Ew. }
  assert (Hback : forall b w' g, pipe_end T b w' g -> b <> a \/ (w' =? 0) <> (w =? 0) -> pipe_end (<[f := y]> T) b w' g).
  { intros b w' g Hg Hne. rewrite (pipe_end_upd T f x) by done. right. split; [|done]. intros ->.
    destruct Hg as (z & Hz & _ & Hz2 & Hz3). rewrite Hx in Hz. injection Hz as <-. naive_solver. }
  split.
  - intros b w' g (Hn & Hg & Hw)%Hends. destruct (P1 _ _ _ Hg) as (q & Hq & Ho).
    destruct (decide (b = a)) as [->|Hb].
    + rewrite Hp in Hq. injection Hq as <-. assert (end_open w' r.2) as Ho' by (apply closed_end; auto).
      destruct r.1 eqn:Er; [by destruct (proj1 (closed_freed p w) Er w' Ho')|].
      exists r.2. by rewrite lookup_insert_eq.
    + exists q. split; [|done]. destruct r.1; [by rewrite lookup_delete_ne|by rewrite lookup_insert_ne].
  - intros b w' g g' (_ & H1 & _)%Hends (_ & H2 & _)%Hends. by apply (P2 b w').
  - intros b q Hq. destruct r.1 eqn:Er.
    + apply lookup_delete_Some in Hq as [_ Hq]. by eapply P3.
    + apply lookup_insert_Some in Hq as [[<- <-]|[_ Hq]]; [|by eapply P3].
      destruct (decide (end_open 0 r.2)) as [|H0]; [by exists 0|].
      destruct (decide (end_open 1 r.2)) as [|H1]; [by exists 1|]. exfalso.
      assert (r.1 = true) as E; [|congruence]. apply (closed_freed p w). intros w'. fold r.
      unfold end_open in *. by destruct (w' =? 0).
  - intros b q w' Hq Ho. destruct (decide (b = a)) as [->|Hb].
    + destruct r.1 eqn:Er; [by rewrite lookup_delete_eq in Hq|]. rewrite lookup_insert_eq in Hq. injection Hq as <-.
      apply closed_end in Ho as [Ho Hw]. destruct (P4 a p w' Hp Ho) as [g Hg]. exists g. apply Hback; auto.
    + assert (P !! b = Some q) as Hq' by by (destruct r.1; [rewrite lookup_delete_ne in Hq|rewrite lookup_insert_ne in Hq]).
      destruct (P4 b q w' Hq' Ho) as [g Hg]. exists g. apply Hback; auto.
Qed.
Lemma pages_same s s' : fi_kmem s' = fi_kmem s -> dom (fi_pipes s') ⊆ dom (fi_pipes s) -> pages_ok s -> pages_ok s'.
Proof.
  intros Ek Ed (l & Hk & Hp). exists l. rewrite Ek. split; [done|]. intros a Ha%elem_of_dom%Ed%elem_of_dom. by apply Hp.
Qed.

(** The part of [fileclose] on the file system. *)
Lemma wp_fs_tx (s : files S) ip (Q : unit -> files S -> Prop) :
  wp (st ts_begin;; iput ip;; st ts_end) (fi_fs s) (fun _ x => Q tt (set_fs x s)) ->
  wp (fbegin_op;; infs (iput ip);; fend_op) s Q.
Proof.
  intros H1%wp_bind_inv. wp_step. apply wp_zoom. eapply wp_mono; [exact H1|]. intros [] x1 H2%wp_bind_inv.
  wp_step. apply wp_zoom. eapply wp_mono; [exact H2|]. intros [] x2 H3.
  apply wp_zoom. eapply wp_mono; [exact H3|]. by intros [] x3 HQ.
Qed.

Lemma pipe_close_spec s h f x y :
  pipes_ok (fi_table s) (fi_pipes s) -> pages_ok s -> fi_table s !! f = Some x -> fl_type x = FD_PIPE ->
  fl_type y = FD_NONE -> refs_ok (<[f := y]> (fi_table s)) h ->
  wp (pipe_close kend (fl_pipe x) (fl_writable x)) (set_table (<[f := y]> (fi_table s)) s) (fun _ s' => ft_inv s' h).
Proof.
  intros P G Hx Ht Hy R. destruct (po_file _ _ P (fl_pipe x) (fl_writable x) f) as (p & Hp & _); [by exists x|].
  pose proof (pipes_close _ _ f x y p P Hx Ht Hy Hp) as P'. unfold pipe_close.
  wp_step. eapply wp_pipe; [exact Hp|].
  destruct (pipeclose (negb (fl_writable x =? 0)) p) as [fr p'] eqn:Er. simpl in P'. unfold put_pipe. wp_step. wp_step.
  assert (is_Some (fi_pipes s !! fl_pipe x)) as Hs by eauto.
  destruct fr; cbv iota.
  - wp_step. wp_step. apply wp_zoom. simpl. destruct G as (l & Hk & Hl). destruct (Hl _ Hs) as [Hg Hn].
    eapply wp_mono; [by apply (kfree_spec kend _ l)|]. intros [] k' (Hk' & _ & _). split; [done| |].
    + simpl. by rewrite delete_insert_eq.
    + exists (fl_pipe x :: l). split; [done|]. simpl. rewrite delete_insert_eq. intros a [q Hq]. apply lookup_delete_Some in Hq as [Hne Hq].
      destruct (Hl a ltac:(eauto)) as [? ?]. split; [done|]. set_solver.
  - wp_step. split; [done|done|]. eapply (pages_same s); [done| |done]. simpl. rewrite dom_insert_lookup_L by done. done.
Qed.

Lemma fileclose_spec s h f : ft_inv s h -> (0 < h f)%nat ->
  (forall x, fi_table s !! f = Some x -> fl_type x = FD_INODE -> h f = 1%nat ->
     wp (st ts_begin;; iput (fl_ip x);; st ts_end) (fi_fs s) (fun _ _ => True)) ->
  wp (fileclose kend f) s (fun _ s' => ft_inv s' (<[f := pred (h f)]> h)).
Proof.
  intros [R P G] Hf Hfs. destruct (ro_in _ _ R f Hf) as [x Hx]. pose proof (ro_ref _ _ R f x Hx) as Hr.
  unfold fileclose. wp_step. eapply wp_file; [done|]. rewrite (proj2 (Z.ltb_ge _ _)) by lia.
  unfold upd_file. wp_step. wp_step. rewrite (alter_insert _ _ _ _ Hx). pose proof (lookup_lt_Some _ _ _ Hx) as Hlt.
  destruct (Z.ltb_spec 0 (fl_ref x - 1)).
  { wp_step. split; [|by apply (pipes_same _ _ f x)|done].
    eapply refs_upd; [done..|simpl; lia|lia]. }
  assert (h f = 1%nat) as E1 by lia. wp_step.
  eapply wp_file; [simpl; by apply list_lookup_insert_eq|]. unfold upd_file. wp_step. wp_step. simpl fi_table.
  erewrite alter_insert; [|by apply list_lookup_insert_eq]. rewrite list_insert_insert_eq. simpl.
  set (y := set_ftype FD_NONE (set_fref 0 (set_fref (fl_ref x - 1) x))).
  assert (refs_ok (<[f := y]> (fi_table s)) (<[f := pred (h f)]> h)) as R'.
  { eapply refs_upd; [done..|simpl; lia|done]. }
  destruct (fl_type x) eqn:Et.
  - wp_step. split; [done| |done]. apply (pipes_same _ _ f x); [done| |done]. split; [|congruence]. by rewrite Et.
  - exact (pipe_close_spec s _ f x y P G Hx Et eq_refl R').
  - apply wp_fs_tx. eapply wp_mono; [by eapply (Hfs x)|]. intros [] z _. split; [done| |done].
    apply (pipes_same _ _ f x); [done| |done]. split; [|congruence]. by rewrite Et.
Qed.

(** The slot after the last [fileclose] of an inode, before [iput]. *)
Definition closed_slot (x : file) : file := set_ftype FD_NONE (set_fref 0 (set_fref (fl_ref x - 1) x)).
Lemma closed_slot_inv s h f x : ft_inv s h -> fi_table s !! f = Some x -> fl_type x = FD_INODE ->
  ft_inv (set_table (<[f := closed_slot x]> (fi_table s)) s) (<[f := 0%nat]> h).
Proof.
  intros [R P G] Hx Ht. split; [by eapply refs_upd| |done].
  apply (pipes_same _ _ f x); [done| |done]. split; [|congruence]. by rewrite Ht.
Qed.

(** [fileclose] returns, or, with the last reference to an inode, it has freed
    the slot and goes on with the transaction that puts the inode. *)
Lemma fileclose_ends s h f x : ft_inv s h -> (0 < h f)%nat -> fi_table s !! f = Some x ->
  exists s1, ft_inv s1 (<[f := pred (h f)]> h) /\
    fileclose kend f s = if decide (fl_type x = FD_INODE /\ h f = 1%nat)
                         then (fbegin_op;; infs (iput (fl_ip x));; fend_op) s1 else Done tt s1.
Proof.
  intros I Hf Hx. destruct (decide (fl_type x = FD_INODE /\ h f = 1%nat)) as [[Ht H1]|Hn].
  - exists (set_table (<[f := closed_slot x]> (fi_table s)) s). rewrite H1. split; [by apply closed_slot_inv|].
    pose proof (ro_ref _ _ (ft_refs _ _ I) f x Hx) as Hr. rewrite H1 in Hr. unfold fileclose.
    pose proof (lookup_lt_Some _ _ _ Hx) as Hlt. erewrite bind_done by (unfold get_file; by rewrite Hx). rewrite Hr.
    change (Z.of_nat 1 <? 1) with false. change (0 <? Z.of_nat 1 - 1) with false. cbv iota.
    unfold upd_file. erewrite bind_done by (unfold kmodify; by rewrite (alter_insert _ _ _ _ Hx)).
    erewrite bind_done by (unfold get_file; simpl; by rewrite list_lookup_insert_eq by done).
    erewrite bind_done by (unfold kmodify; simpl; erewrite alter_insert by (by apply list_lookup_insert_eq); by rewrite list_insert_insert_eq).
    simpl. rewrite Ht. unfold closed_slot. by rewrite Hr.
  - destruct (wp_inv _ _ _ (fileclose_spec s h f I Hf ltac:(intros y Hy Hty; simplify_eq; tauto))) as ([] & s' & E & I'). by exists s'.
Qed.

(** ** [pipealloc] *)

Lemma ft_inv_ext s h h' : (forall f, h' f = h f) -> ft_inv s h -> ft_inv s h'.
Proof.
  intros E [[R1 R2 R3] P G]. split; [|done|done]. split; [|intros f; rewrite E; apply R2|done].
  intros f x Hx. rewrite E. by apply R1.
Qed.

Lemma pipes_new T P f0 f1 x0 x1 a q : pipes_ok T P -> P !! a = None -> f0 <> f1 ->
  T !! f0 = Some x0 -> T !! f1 = Some x1 -> fl_type x0 = FD_NONE -> fl_type x1 = FD_NONE ->
  (forall w, end_open w q) ->
  pipes_ok (<[f1 := set_fpipe 0 1 a x1]> (<[f0 := set_fpipe 1 0 a x0]> T)) (<[a := q]> P).
Proof.
  intros [P1 P2 P3 P4] Ha Hne H0 H1 E0 E1 Hq. set (T' := <[f1 := _]> _).
  assert (Hends : forall b w g, pipe_end T' b w g <-> (b = a /\ g = if w =? 0 then f0 else f1) \/ (b <> a /\ pipe_end T b w g)).
  { intros b w g. unfold T'. rewrite (pipe_end_upd _ f1 x1) by by rewrite list_lookup_insert_ne.
    rewrite (pipe_end_upd _ f0 x0) by done. simpl. split.
    - intros [(-> & _ & <- & Ew)|[Hg1 [(-> & _ & <- & Ew)|[Hg0 Hg]]]]; [left; split; [done|]; by rewrite <- Ew..|].
      right. split; [|done]. intros ->. apply P1 in Hg as (q' & E & _). congruence.
    - intros [[-> ->]|[Hb Hg]].
      + destruct (w =? 0) eqn:Ew; [right; split; [done|]; by left|by left].
      + right. destruct Hg as (z & Hz & Htz & Hpz). split; [intros ->; congruence|]. right.
        split; [intros ->; congruence|]. by exists z. }
  split.
  - intros b w g [[-> _]|[Hb Hg]]%Hends; [exists q; by rewrite lookup_insert_eq|].
    rewrite lookup_insert_ne by done. by eapply P1.
  - intros b w g g' [[-> ->]|[Hb Hg]]%Hends [[? ->]|[Hb' Hg']]%Hends; try done. by apply (P2 b w).
  - intros b p [[<- <-]|[Hb Hp]]%lookup_insert_Some; [by exists 0|by eapply P3].
  - intros b p w [[<- <-]|[Hb Hp]]%lookup_insert_Some Ho.
    + exists (if w =? 0 then f0 else f1). apply Hends. by left.
    + destruct (P4 b p w Hp Ho) as [g Hg]. exists g. apply Hends. by right.
Qed.

(** Closing a file just allocated undoes the allocation. *)
Lemma close_new (s : files S) f x : fi_table s !! f = Some (set_fref 1 x) -> fl_type x = FD_NONE -> fl_ref x = 0 ->
  wp (fileclose kend f) s (fun _ s' => s' = set_table (<[f := x]> (fi_table s)) s).
Proof.
  intros Hx Ht Hr. pose proof (lookup_lt_Some _ _ _ Hx) as Hlt.
  unfold fileclose. wp_step. eapply wp_file; [done|]. simpl. unfold upd_file. wp_step. wp_step.
  wp_step. eapply wp_file; [simpl; by rewrite list_lookup_alter_eq, Hx|]. wp_step. wp_step. simpl. rewrite Ht. wp_step.
  unfold set_table. simpl. f_equal. rewrite (alter_insert _ _ _ _ Hx).
  erewrite alter_insert; [|by apply list_lookup_insert_eq]. rewrite list_insert_insert_eq. f_equal.
  destruct x. simpl in *. by subst.
Qed.

Lemma same_kmem (s : files S) : exists k, s = set_kmem k s /\ k_mem k = k_mem (fi_kmem s) /\
  forall l, kmem_ok kend (fi_kmem s) l -> kmem_ok kend k l.
Proof. exists (fi_kmem s). by destruct s. Qed.

(** [s'] is [s] with a pipe in the free page [q], open as [f0] and [f1]; [l] are
    the free pages left. *)
Definition new_pipe (s s' : files S) (f0 f1 : nat) (q : Z) (x0 x1 : file) (data : list Z) (k : kmem) (l : list Z) : Prop :=
  s' = mkfiles (fi_fs s) (<[f1 := set_fpipe 0 1 q (set_fref 1 x1)]> (<[f0 := set_fpipe 1 0 q (set_fref 1 x0)]> (fi_table s)))
         k (<[q := pipe_init data]> (fi_pipes s)) (fi_killed s) /\
  fi_table s !! f0 = Some x0 /\ fi_table s !! f1 = Some x1 /\ fi_pipes s !! q = None /\
  kmem_ok kend (fi_kmem s) (q :: l) /\ kmem_ok kend k l /\ k_mem k = k_mem (fi_kmem s) /\ good_page kend q.

Context (kend_pos : 0 < kend).

Lemma pipealloc_spec s h : ft_inv s h -> wp (pipealloc kend) s (fun r s' =>
  match r with
  | Some (f0, f1) => h f0 = 0%nat /\ h f1 = 0%nat /\ f0 <> f1 /\ ft_inv s' (<[f1 := 1%nat]> (<[f0 := 1%nat]> h)) /\
      exists q x0 x1 data k l, new_pipe s s' f0 f1 q x0 x1 data k l
  | None => ft_inv s' h /\ exists k, s' = set_kmem k s /\ k_mem k = k_mem (fi_kmem s) /\
      forall l, kmem_ok kend (fi_kmem s) l -> kmem_ok kend k l
  end).
Proof.
  intros I. unfold pipealloc. wp_step. eapply wp_mono; [by apply filealloc_spec|]. intros [f0|] s1; [|intros [-> _]; wp_step; split; [done|]; by apply same_kmem].
  intros (H0 & I1 & x0 & Hx0 & Et0 & Er0 & ->). wp_step. eapply wp_mono; [by apply filealloc_spec|].
  pose proof (lookup_lt_Some _ _ _ Hx0) as Hl0. intros [f1|] s2.
  2:{ intros [-> _]. wp_step. eapply wp_mono; [eapply (close_new _ f0 x0); [simpl; by apply list_lookup_insert_eq|done..]|].
      intros [] s3 ->. wp_step. simpl. rewrite list_insert_insert_eq, list_insert_id by done. split; [by destruct s|].
      exists (fi_kmem s). by destruct s. }
  intros (H1 & I2 & x1 & Hx1 & Et1 & Er1 & ->). simpl in *. pose proof (lookup_lt_Some _ _ _ Hx1) as Hl1. rewrite length_insert in Hl1.
  assert (f0 <> f1) as Hne by (intros ->; by rewrite fn_lookup_insert in H1). rewrite fn_lookup_insert_ne in H1 by done.
  rewrite list_lookup_insert_ne in Hx1 by done.
  set (T2 := <[f1 := set_fref 1 x1]> (<[f0 := set_fref 1 x0]> (fi_table s))) in *.
  assert (T2 !! f1 = Some (set_fref 1 x1)) as Hf1 by (apply list_lookup_insert_eq; by rewrite length_insert).
  assert (T2 !! f0 = Some (set_fref 1 x0)) as Hf0 by (unfold T2; rewrite list_lookup_insert_ne by done; by apply list_lookup_insert_eq).
  destruct (ft_pages _ _ I2) as (l & Hk & Hl).
  wp_step. apply wp_zoom. eapply wp_mono; [by apply kalloc_spec|]. intros p k' (Em & _ & Hp). destruct l as [|q l].
  - destruct Hp as [-> Hk']. simpl. wp_step. eapply wp_mono; [by eapply (close_new _ f0 x0)|]. intros [] s3 ->. wp_step.
    eapply wp_mono; [eapply (close_new _ f1 x1); [simpl; by rewrite list_lookup_insert_ne|done..]|]. intros [] s4 ->. wp_step. simpl.
    assert (<[f1 := x1]> (<[f0 := x0]> T2) = fi_table s) as ->.
    { unfold T2. apply list_eq. intros j. destruct (decide (j = f1)) as [->|]; [by rewrite list_lookup_insert_eq, Hx1 by (by rewrite !length_insert)|].
      rewrite list_lookup_insert_ne by done. destruct (decide (j = f0)) as [->|]; [by rewrite list_lookup_insert_eq, Hx0 by (by rewrite !length_insert)|].
      by rewrite !list_lookup_insert_ne. }
    split; [|exists k'; split_and!; [by destruct s|done|intros l Hl'; by rewrite <- (kmem_ok_unique kend _ _ _ Hk Hl')]].
    destruct I as [R P _]. split; [done|done|]. exists []. split; [done|]. simpl in *. intros a Ha.
    split; [by apply Hl|apply not_elem_of_nil].
  - destruct Hp as [-> Hk']. pose proof (ko_page _ _ _ Hk q ltac:(set_solver)) as Hg.
    rewrite (proj2 (Z.eqb_neq q 0)) by (destruct Hg as (_ & ? & _); lia).
    unfold put_pipe, upd_file. do 8 wp_step. split; [done|]. split; [done|]. split; [done|]. simpl.
    assert (Ha : fi_pipes s !! q = None).
    { destruct (fi_pipes s !! q) eqn:E; [|done]. destruct (Hl q) as [_ Hn]; [simpl; eauto|]. set_solver. }
    rewrite (alter_insert _ _ _ _ Hf0). erewrite alter_insert; [|by rewrite list_lookup_insert_ne].
    set (T3 := <[f1 := _]> _). split.
    + split.
      * simpl. unfold T3. destruct I2 as [R2 _ _]. eapply refs_keep; [by eapply refs_keep|by rewrite list_lookup_insert_ne|done|done].
      * simpl. destruct I2 as [_ P2 _]. apply pipes_new; try done. intros w. unfold end_open. simpl. by destruct (w =? 0).
      * exists l. split; [done|]. simpl. intros a [z [[<- _]|[Hna Hz]]%lookup_insert_Some].
        -- split; [done|]. pose proof (ko_nodup _ _ _ Hk) as Hnd. by apply NoDup_cons in Hnd as [? _].
        -- destruct (Hl a) as [? ?]; [simpl; eauto|]. split; [done|set_solver].
    + exists q, x0, x1, (page_data (k_mem k') q), k', l. split_and!; try done. f_equal. unfold T3, T2.
      by rewrite (list_insert_insert_ne _ f0 f1), !list_insert_insert_eq by done.
Qed.

(** Closing one end of a pipe that has one reference. *)
Lemma close_end s f x p freed p' (Q : unit -> files S -> Prop) : fi_table s !! f = Some x -> fl_ref x = 1 -> fl_type x = FD_PIPE ->
  fi_pipes s !! fl_pipe x = Some p ->
  let y := set_ftype FD_NONE (set_fref 0 x) in
  pipeclose (negb (fl_writable x =? 0)) p = (freed, p') ->
  (if freed : bool then wp (inmem (kfree kend (fl_pipe x)))
     (mkfiles (fi_fs s) (<[f := y]> (fi_table s)) (fi_kmem s) (delete (fl_pipe x) (fi_pipes s)) (fi_killed s)) Q
   else Q tt (mkfiles (fi_fs s) (<[f := y]> (fi_table s)) (fi_kmem s) (<[fl_pipe x := p']> (fi_pipes s)) (fi_killed s))) ->
  wp (fileclose kend f) s Q.
Proof.
  intros Hx Hr Ht Hp y E HQ. pose proof (lookup_lt_Some _ _ _ Hx) as Hlt.
  unfold fileclose. wp_step. eapply wp_file; [done|]. rewrite Hr. cbn [Z.ltb Z.sub Z.compare Pos.compare Pos.compare_cont Z.add Z.opp].
  change (1 - 1) with 0. unfold upd_file. wp_step. wp_step. rewrite (alter_insert _ _ _ _ Hx). change (0 <? 0) with false. cbv iota.
  wp_step. eapply wp_file; [simpl; by apply list_lookup_insert_eq|]. wp_step. wp_step. simpl fl_type. rewrite Ht. simpl fl_pipe. simpl fl_writable.
  unfold pipe_close. wp_step. unfold get_pipe. eapply wp_done; [simpl; by rewrite Hp|]. rewrite E. unfold put_pipe. wp_step. wp_step.
  simpl. rewrite (alter_insert _ _ f (set_fref 0 x)), list_insert_insert_eq by (by apply list_lookup_insert_eq).
  destruct freed; [|by wp_step]. wp_step. wp_step. simpl. by rewrite delete_insert_eq.
Qed.

(** Closing both ends of a new pipe gives its page back and forgets the pipe. *)
Lemma close_reader s s' f0 f1 q x0 x1 data k l : new_pipe s s' f0 f1 q x0 x1 data k l -> f0 <> f1 ->
  wp (fileclose kend f0) s' (fun _ s2 => s2 =
    mkfiles (fi_fs s) (<[f0 := set_ftype FD_NONE (set_fref 0 (set_fpipe 1 0 q x0))]>
       (<[f1 := set_fpipe 0 1 q (set_fref 1 x1)]> (fi_table s))) k (<[q := mkpipe data 0 0 0 1]> (fi_pipes s)) (fi_killed s)).
Proof.
  intros (-> & H0 & H1 & Hq & Hk & Hk' & Em & Hg) Hne. pose proof (lookup_lt_Some _ _ _ H0) as Hl0.
  eapply close_end; [simpl; rewrite list_lookup_insert_ne by done; by apply list_lookup_insert_eq|done|done|simpl; by apply lookup_insert_eq|done|].
  simpl. by rewrite insert_insert_eq, !(list_insert_insert_ne _ f0 f1), list_insert_insert_eq by done.
Qed.
Lemma close_writer s T f1 q x1 data k l P : T !! f1 = Some (set_fpipe 0 1 q (set_fref 1 x1)) -> P !! q = None ->
  kmem_ok kend k l -> good_page kend q -> q ∉ l ->
  wp (fileclose kend f1) (mkfiles (fi_fs s) T k (<[q := mkpipe data 0 0 0 1]> P) (fi_killed s)) (fun _ s2 => exists T' k',
    s2 = mkfiles (fi_fs s) T' k' P (fi_killed s) /\ kmem_ok kend k' (q :: l) /\ (forall x, ~ in_page q x -> k_mem k' x = k_mem k x)).
Proof.
  intros Hx Hq Hk Hg Hl. eapply close_end; [done|done|done|simpl; by apply lookup_insert_eq|done|].
  simpl. apply wp_zoom. eapply wp_mono; [by apply kfree_spec|]. intros [] k' (Hk' & _ & Hm).
  eexists _, k'. split; [|done]. unfold set_kmem; simpl. by rewrite delete_insert_eq, delete_id.
Qed.

Lemma undo_pipe s s' f0 f1 q x0 x1 data k l h : new_pipe s s' f0 f1 q x0 x1 data k l -> f0 <> f1 -> h f0 = 0%nat -> h f1 = 0%nat ->
  ft_inv s' (<[f1 := 1%nat]> (<[f0 := 1%nat]> h)) ->
  wp (fileclose kend f0) s' (fun _ s1 => wp (fileclose kend f1) s1 (fun _ s2 => ft_inv s2 h /\ exists T' k',
    s2 = mkfiles (fi_fs s) T' k' (fi_pipes s) (fi_killed s) /\ kmem_ok kend k' (q :: l) /\
    (forall x, ~ in_page q x -> k_mem k' x = k_mem (fi_kmem s) x))).
Proof.
  intros N Hne H0 H1 I. pose proof N as (Es & X0 & X1 & Hq & Hk & Hk' & Em & Hg). pose proof (lookup_lt_Some _ _ _ X1) as L1.
  pose proof (lookup_lt_Some _ _ _ X0) as L0.
  assert (T0 : fi_table s' !! f0 = Some (set_fpipe 1 0 q (set_fref 1 x0))).
  { rewrite Es. simpl. rewrite list_lookup_insert_ne by done. by apply list_lookup_insert_eq. }
  assert (Hh : (<[f1 := 1%nat]> (<[f0 := 1%nat]> h)) f0 = 1%nat) by (by rewrite fn_lookup_insert_ne, fn_lookup_insert by done).
  eapply wp_mono; [apply wp_and; [by apply (close_reader _ _ _ _ _ _ _ _ _ _ N)|apply (fileclose_spec _ _ f0 I); [lia|intros ? Ex; rewrite T0 in Ex; by injection Ex as <-]]|].
  rewrite Hh. intros [] s1 [-> I1]. set (h1 := <[f0 := Nat.pred 1]> _) in I1.
  assert (Hh1 : h1 f1 = 1%nat) by (unfold h1; by rewrite fn_lookup_insert_ne, fn_lookup_insert by done).
  match type of I1 with ft_inv (mkfiles _ ?T _ _ _) _ => assert (T1 : T !! f1 = Some (set_fpipe 0 1 q (set_fref 1 x1))) end.
  { rewrite list_lookup_insert_ne by done. by apply list_lookup_insert_eq. }
  eapply wp_mono; [apply wp_and; [apply (close_writer s _ f1 q x1 data k l _ T1 Hq Hk' Hg)|apply (fileclose_spec _ _ f1 I1); [lia|intros ? Ex; simpl in Ex; rewrite T1 in Ex; by injection Ex as <-]]|].
  { pose proof (ko_nodup _ _ _ Hk) as Hnd. by apply NoDup_cons in Hnd as [? _]. }
  rewrite Hh1. intros [] s2 [(T' & k' & -> & Hk2 & Hm) I2]. split; [|exists T', k'; split_and!; [done|done|by rewrite <- Em]].
  eapply ft_inv_ext; [|exact I2]. intros g. unfold h1. destruct (decide (g = f1)) as [->|]; [by rewrite fn_lookup_insert|].
  rewrite fn_lookup_insert_ne by done. destruct (decide (g = f0)) as [->|]; [by rewrite fn_lookup_insert|].
  by rewrite !fn_lookup_insert_ne by done.
Qed.

(** ** Reading and writing *)

Context (devsw : Z -> devops S).

Definition same_ends (p q : pipe) : Prop := p_readopen q = p_readopen p /\ p_writeopen q = p_writeopen p.

Lemma same_ends_refl p : same_ends p p.
Proof. done. Qed.

Lemma read_loop_ends n : forall p, same_ends p (read_loop n p).2.
Proof.
  induction n as [|n IH]; intros p; cbn [read_loop]; [done|]. destruct (pipe_empty p); [done|].
  destruct (get_byte p) as [c p1] eqn:E. specialize (IH p1). destruct (read_loop n p1). injection E as _ <-. done.
Qed.
Lemma piperead_ends k n p : match piperead k n p with
  | RDone _ q | RFail q | RSleep q => same_ends p q end.
Proof.
  unfold piperead. destruct (_ && _); [by destruct k|]. pose proof (read_loop_ends (Z.to_nat n) p) as Hl.
  by destruct (read_loop _ p).
Qed.
Lemma pipewrite_ends k l : forall p, match pipewrite k l p with
  | WDone q | WFail _ q | WSleep _ q => same_ends p q end.
Proof.
  induction l as [|c l IH]; intros p; simpl; [done|]. destruct (pipe_full p); [destruct (_ || k); apply same_ends_refl|].
  specialize (IH (put_byte c p)). by destruct (pipewrite k l _).
Qed.

Lemma put_pipe_inv s h a p q : ft_inv s h -> fi_pipes s !! a = Some p -> same_ends p q ->
  ft_inv (set_pipes (<[a := q]> (fi_pipes s)) s) h.
Proof.
  intros [R [P1 P2 P3 P4] G] Hp [E1 E2].
  assert (Ho : forall w, end_open w q <-> end_open w p) by (intros w; unfold end_open; by rewrite E1, E2).
  split; [done| |].
  - split; [|done|..]; simpl.
    + intros b w f (x & Hx & Hw)%P1. destruct (decide (b = a)) as [->|]; [|exists x; by rewrite lookup_insert_ne].
      exists q. rewrite lookup_insert_eq. split; [done|]. rewrite Hp in Hx. injection Hx as <-. by apply Ho.
    + intros b x [[<- <-]|[_ Hx]]%lookup_insert_Some; [|by eapply P3]. destruct (P3 a p Hp) as [w Hw]. exists w. by apply Ho.
    + intros b x w [[<- <-]|[_ Hx]]%lookup_insert_Some Hw; [|by eapply P4]. eapply P4; [done|]. by apply Ho.
  - eapply (pages_same s); [done| |done]. simpl. rewrite dom_insert_lookup_L by done. done.
Qed.

Lemma wlp_infs {A} (m : KM (fs S) A) s (Q : A -> files S -> Prop) : (forall a x, Q a (set_fs x s)) -> wlp (infs m) s Q.
Proof. apply wlp_zoom. Qed.
Lemma fs_inv_any s h x : ft_inv s h -> ft_inv (set_fs x s) h.
Proof. by intros [R P G]. Qed.
Lemma wlp_file s f (Q : file -> files S -> Prop) : (forall x, fi_table s !! f = Some x -> Q x s) -> wlp (get_file f) s Q.
Proof. intros HQ a s'. unfold get_file. destruct (fi_table s !! f) eqn:E; [intros [= <- <-]; auto|done]. Qed.
Lemma wlp_pipe s a (Q : pipe -> files S -> Prop) : (forall x, fi_pipes s !! a = Some x -> Q x s) -> wlp (get_pipe a) s Q.
Proof. intros HQ b s'. unfold get_pipe. destruct (fi_pipes s !! a) eqn:E; [intros [= <- <-]; auto|done]. Qed.

(** Moving the offset. *)
Lemma wlp_off s h f (b : bool) o (Q : unit -> files S -> Prop) :
  ft_inv s h -> (forall s', ft_inv s' h -> Q tt s') -> wlp (if b then upd_file f (set_foff o) else mret tt) s Q.
Proof.
  intros I HQ. destruct b; [|by apply wlp_ret, HQ]. apply wlp_modify, HQ.
  destruct (fi_table s !! f) as [x|] eqn:Hx.
  - rewrite (alter_insert _ _ _ _ Hx). destruct I as [[R1 R2 R3] P G].
    split; [|by apply (pipes_same _ _ f x)|done]. pose proof (lookup_lt_Some _ _ _ Hx) as Hlt.
    split; intros g; simpl; destruct (decide (g = f)) as [->|];
      rewrite ?list_lookup_insert_eq, ?list_lookup_insert_ne by done; eauto; intros z [= <-]; [by apply (R1 f x)|by apply (R3 f x)].
  - replace (alter (set_foff o) f (fi_table s)) with (fi_table s); [by destruct s|].
    apply list_eq. intros j. destruct (decide (j = f)) as [->|]; [by rewrite list_lookup_alter_eq, Hx|by rewrite list_lookup_alter_ne].
Qed.

Lemma fileread_inv s h f n : ft_inv s h -> wlp (fileread devsw f n) s (fun _ s' => ft_inv s' h).
Proof.
  intros I. unfold fileread. apply wlp_bind, wlp_file. intros x Hx. destruct (fl_readable x =? 0); [by apply wlp_ret|].
  destruct (fl_type x).
  - apply wlp_panic.
  - unfold pipe_read. apply wlp_bind, wlp_pipe. intros p Hp. apply wlp_bind, wlp_get.
    pose proof (piperead_ends (negb (fi_killed s =? 0)) n p) as He. destruct (piperead _ n p).
    + apply wlp_bind, wlp_modify, wlp_ret. by eapply put_pipe_inv.
    + apply wlp_bind, wlp_modify, wlp_ret. by eapply put_pipe_inv.
    + done.
  - apply wlp_bind, wlp_infs. intros _ x1. apply wlp_bind, wlp_infs. intros r x2.
    apply wlp_bind. eapply wlp_off; [by apply fs_inv_any, fs_inv_any|]. intros s3 I3.
    apply wlp_bind, wlp_infs. intros _ x3. apply wlp_ret. by apply fs_inv_any.
Qed.

Lemma write_chunks_inv f src n h fuel : forall s i, ft_inv s h ->
  wlp (write_chunks devsw fuel f src n i) s (fun _ s' => ft_inv s' h).
Proof.
  induction fuel as [|fuel IH]; intros s i I; [apply wlp_fault|]. cbn [write_chunks].
  destruct (i <? n); [|by apply wlp_ret]. cbv zeta. apply wlp_bind, wlp_file. intros x Hx.
  apply wlp_bind, wlp_infs. intros _ x1. apply wlp_bind, wlp_infs. intros _ x2. apply wlp_bind, wlp_infs. intros r x3.
  apply wlp_bind. eapply wlp_off; [by do 3 apply fs_inv_any|]. intros s4 I4.
  apply wlp_bind, wlp_infs. intros _ x4. apply wlp_bind, wlp_infs. intros _ x5.
  destruct (r <? 0); [apply wlp_ret; by do 2 apply fs_inv_any|].
  destruct (negb _); [apply wlp_panic|]. apply IH. by do 2 apply fs_inv_any.
Qed.
Lemma filewrite_inv s h f src n : ft_inv s h -> wlp (filewrite devsw f src n) s (fun _ s' => ft_inv s' h).
Proof.
  intros I. unfold filewrite. apply wlp_bind, wlp_file. intros x Hx. destruct (fl_writable x =? 0); [by apply wlp_ret|].
  destruct (fl_type x).
  - apply wlp_panic.
  - unfold pipe_write. apply wlp_bind, wlp_pipe. intros p Hp. apply wlp_bind, wlp_get.
    pose proof (pipewrite_ends (negb (fi_killed s =? 0)) (take (Z.to_nat n) src) p) as He. destruct (pipewrite _ _ p).
    + apply wlp_bind, wlp_modify, wlp_ret. by eapply put_pipe_inv.
    + apply wlp_bind, wlp_modify, wlp_ret. by eapply put_pipe_inv.
    + done.
  - apply wlp_bind. eapply wlp_mono; [by apply write_chunks_inv|]. intros i s' I'. by apply wlp_ret.
Qed.
(** ** Every sequence of calls *)

(** The calls of [file.c] and [pipealloc] on files their caller holds, what
    [sys_open] does to a file it allocated, and what the rest of the kernel
    does to the file system and to the free pages.  A call that sleeps half way
    has its effect so far as a step of its own; what it does to the file system
    is one of the steps of the rest of the kernel. *)
Inductive step : files S * (nat -> nat) -> files S * (nat -> nat) -> Prop :=
| step_alloc s h f s' : filealloc s = Done (Some f) s' -> step (s, h) (s', <[f := 1%nat]> h)
| step_open s h f x r w ip off : (0 < h f)%nat -> fi_table s !! f = Some x -> fl_type x = FD_NONE ->
    step (s, h) (set_table (<[f := mkfile FD_INODE (fl_ref x) r w (fl_pipe x) ip off]> (fi_table s)) s, h)
| step_pipe s h f0 f1 s' : pipealloc kend s = Done (Some (f0, f1)) s' ->
    step (s, h) (s', <[f1 := 1%nat]> (<[f0 := 1%nat]> h))
| step_pipe_fails s h s' : pipealloc kend s = Done None s' -> step (s, h) (s', h)
| step_dup s h f s' : (0 < h f)%nat -> Z.of_nat (h f) < 2 ^ 31 - 1 -> filedup f s = Done f s' ->
    step (s, h) (s', <[f := Datatypes.S (h f)]> h)
| step_close s h f s' : (0 < h f)%nat -> fileclose kend f s = Done tt s' -> step (s, h) (s', <[f := pred (h f)]> h)
| step_closing s h f x :   (* a last [fileclose] that sleeps in its transaction *)
    h f = 1%nat -> fi_table s !! f = Some x -> fl_type x = FD_INODE ->
    step (s, h) (set_table (<[f := closed_slot x]> (fi_table s)) s, <[f := 0%nat]> h)
| step_moving s h f x off :   (* [filewrite] between two of its transactions *)
    (0 < h f)%nat -> fi_table s !! f = Some x -> step (s, h) (set_table (<[f := set_foff off x]> (fi_table s)) s, h)
| step_piping s h a p q :   (* [pipewrite] asleep with some of its bytes written *)
    fi_pipes s !! a = Some p -> same_ends p q -> step (s, h) (set_pipes (<[a := q]> (fi_pipes s)) s, h)
| step_read s h f n r s' : fileread devsw f n s = Done r s' -> step (s, h) (s', h)
| step_write s h f src n r s' : filewrite devsw f src n s = Done r s' -> step (s, h) (s', h)
| step_fs s h x : step (s, h) (set_fs x s, h)
| step_mem s h k : pages_ok (set_kmem k s) -> step (s, h) (set_kmem k s, h).

Inductive reachable : files S * (nat -> nat) -> Prop :=
| reach_start s l : fi_table s = replicate NFILE file0 -> fi_pipes s = ∅ -> kmem_ok kend (fi_kmem s) l ->
    reachable (s, fun _ => 0%nat)
| reach_step y y' : reachable y -> step y y' -> reachable y'.

(** A close that returned had its file-system part return. *)
Lemma close_returned s h f s' : ft_inv s h -> (0 < h f)%nat -> fileclose kend f s = Done tt s' ->
  forall x, fi_table s !! f = Some x -> fl_type x = FD_INODE -> h f = 1%nat ->
  wp (st ts_begin;; iput (fl_ip x);; st ts_end) (fi_fs s) (fun _ _ => True).
Proof.
  intros [R _ _] Hf E x Hx Ht H1. pose proof (ro_ref _ _ R f x Hx) as Hr. rewrite H1 in Hr.
  pose proof (lookup_lt_Some _ _ _ Hx) as Hlt. unfold wp. unfold fileclose, upd_file, fbegin_op, fend_op, infs in E.
  unfold mbind, km_bind, get_file, kmodify, zoom, set_table in E |- *. rewrite Hx, Hr in E. simpl in E.
  rewrite list_lookup_alter_eq, Hx in E. simpl in E. rewrite Ht in E. simpl in E.
  destruct (st ts_begin (fi_fs s)) as [[] x1| | |]; try done. simpl in E.
  destruct (iput (fl_ip x) x1) as [[] x2| | |]; try done. simpl in E. by destruct (st ts_end x2) as [[] x3| | |].
Qed.

Lemma files_step_inv y y' : ft_inv y.1 y.2 -> step y y' -> ft_inv y'.1 y'.2.
Proof.
  intros I Hs. destruct Hs as [s h f s' E|s h f x r w ip off Hf Hx Ht|s h f0 f1 s' E|s h s' E|s h f s' Hf Hb E|s h f s' Hf E|s h f x H1 Hx Ht|s h f x off Hf Hx|s h a p q Hp Hq|s h f n r s' E|s h f src n r s' E|s h x|s h k G]; simpl in *.
  - by destruct (wp_elim _ _ _ _ _ (filealloc_spec s h I) E) as (_ & ? & _).
  - destruct I as [R P G]. pose proof (ro_ref _ _ R f x Hx). split; [| |done].
    + eapply refs_keep; [done|exact Hx|done|lia].
    + apply (pipes_same _ _ f x); [done| |done]. split; [|congruence]. by rewrite Ht.
  - by destruct (wp_elim _ _ _ _ _ (pipealloc_spec s h I) E) as (_ & _ & _ & ? & _).
  - apply (wp_elim _ _ _ _ _ (pipealloc_spec s h I) E).
  - apply (wp_elim _ _ _ _ _ (filedup_spec s h f I Hf Hb) E).
  - apply (wp_elim _ _ _ _ _ (fileclose_spec s h f I Hf (close_returned s h f s' I Hf E)) E).
  - by apply closed_slot_inv.
  - destruct I as [R P G]. pose proof (ro_ref _ _ R f x Hx). split; [| |done].
    + eapply refs_keep; [done|exact Hx|done|lia].
    + by apply (pipes_same _ _ f x).
  - by eapply put_pipe_inv.
  - apply (fileread_inv s h f n I _ _ E).
  - apply (filewrite_inv s h f src n I _ _ E).
  - by apply fs_inv_any.
  - by destruct I.
Qed.
Lemma files_reachable_inv y : reachable y -> ft_inv y.1 y.2.
Proof.
  induction 1 as [s l ET EP Hk|y y' _ IH Hs]; [|by eapply files_step_inv]. simpl. split.
  - rewrite ET. split; [|lia|]; intros f x [-> _]%lookup_replicate_1; done.
  - rewrite ET, EP. assert (forall a w f, ~ pipe_end (replicate NFILE file0) a w f) as Hno.
    { intros a w f (x & [-> _]%lookup_replicate_1 & Ht & _). done. }
    split; [intros a w f []%Hno|intros a w f g []%Hno|intros a p Hp; by rewrite lookup_empty in Hp|].
    intros a p w Hp. by rewrite lookup_empty in Hp.
  - exists l. split; [done|]. rewrite EP. intros a [p Hp]. by rewrite lookup_empty in Hp.
Qed.
End refs.

(** C26.  References to open files are counted right.  In every state that calls
    of [file.c] and [pipealloc] reach, calls that sleep half way included: the
    count of a slot is the number of references to it; [filealloc] returns a
    slot nobody refers to, and fails only when every slot is referred to;
    [filedup] on a held file does not panic while its count is below 2^31-1;
    [fileclose] on a held file returns, unless it gives up the last reference to
    an inode: then it has freed the slot and goes on exactly as the transaction
    that puts the inode; every pipe belongs to an open end, an end has one file,
    and the pages of pipes are never on the free list. *)
Theorem ftable_safe {S} `{!BlockStore S} `{!TxOps S} kend devsw (s : files S) h :
  0 < kend -> reachable kend devsw (s, h) ->
  (forall f x, fi_table s !! f = Some x -> fl_ref x = Z.of_nat (h f)) /\
  (exists r s', filealloc s = Done r s' /\
     match r with Some f => h f = 0%nat | None => forall f, is_Some (fi_table s !! f) -> (0 < h f)%nat end) /\
  (forall f, (0 < h f)%nat -> Z.of_nat (h f) < 2 ^ 31 - 1 -> exists s', filedup f s = Done f s') /\
  (forall f x, (0 < h f)%nat -> fi_table s !! f = Some x -> exists s',
     fileclose kend f s = (if decide (fl_type x = FD_INODE /\ h f = 1%nat)
                           then (fbegin_op;; infs (iput (fl_ip x));; fend_op) s' else Done tt s') /\
     forall g y, fi_table s' !! g = Some y -> fl_ref y = Z.of_nat (if decide (g = f) then pred (h f) else h g)) /\
  (forall a p, fi_pipes s !! a = Some p -> exists w f, end_open w p /\ pipe_end (fi_table s) a w f /\ (0 < h f)%nat) /\
  (forall a w f g, pipe_end (fi_table s) a w f -> pipe_end (fi_table s) a w g -> f = g) /\
  (exists l, kmem_ok kend (fi_kmem s) l /\ forall a, is_Some (fi_pipes s !! a) -> a ∉ l).
Proof.
  intros Hk Hr. pose proof (files_reachable_inv kend Hk devsw _ Hr) as I. clear Hr. simpl in I. pose proof I as [R P (l & Hl & Hg)]. split_and!.
  - apply R.
  - destruct (wp_inv _ _ _ (filealloc_spec kend s h I)) as ([f|] & s' & E & Hr); eexists _, s'; (split; [exact E|]); by destruct Hr.
  - intros f Hf Hb. by destruct (wp_inv _ _ _ (filedup_spec kend s h f I Hf Hb)) as (r & s' & E & -> & _); exists s'.
  - intros f x Hf Hx. destruct (fileclose_ends kend s h f x I Hf Hx) as (s' & I' & E). exists s'. split; [exact E|].
    intros g y Hy. rewrite (ro_ref _ _ (ft_refs _ _ _ I') g y Hy).
    f_equal. destruct (decide (g = f)) as [->|Hne]; [apply fn_lookup_insert|by apply fn_lookup_insert_ne].
  - intros a p Hp. destruct (po_some _ _ P a p Hp) as [w Hw]. destruct (po_open _ _ P a p w Hp Hw) as [f Hf]. exists w, f.
    split_and!; [done|done|]. destruct Hf as (x & Hx & Ht & _). pose proof (ro_ref _ _ R f x Hx) as Hr.
    destruct (decide (fl_ref x = 0)) as [E|E]; [|lia]. pose proof (ro_idle _ _ R f x Hx E). congruence.
  - apply P.
  - exists l. split; [done|]. intros a Ha. by apply Hg.
Qed.

(** A kernel with one free page, which becomes a pipe. *)
Definition one_page : Z := 0x80400000.
Definition demo_none : tview := mktview ∅ ∅ ∅ ∅ ∅ 0.
Definition demo_table : files tview :=
  mkfiles (mkfs demo_none (Log.mksuperblock 0 0 0 0 0 0 0) [] 1 0) (replicate NFILE file0)
    (mkkmem (fun _ => 0) true one_page) ∅ 0.
Definition demo_piped : files tview :=
  match pipealloc one_page demo_table with Done _ s => s | _ => demo_table end.
Lemma demo_piped_reachable devsw :
  reachable one_page devsw (demo_piped, <[1%nat := 1%nat]> (<[0%nat := 1%nat]> (fun _ => 0%nat))).
Proof.
  eapply reach_step; [apply (reach_start one_page devsw demo_table [one_page])|].
  - done.
  - done.
  - split; [done|apply NoDup_singleton|]. intros v ->%list_elem_of_singleton. unfold good_page, one_page, KERNBASE, PHYSTOP. split; [done|lia].
  - apply step_pipe. exact eq_refl.
Qed.

Lemma ftable_safe_witness : exists s', fileclose one_page 0 demo_piped = Done tt s'.
Proof.
  destruct (ftable_safe one_page (fun _ => mkdevops None None) demo_piped _ eq_refl (demo_piped_reachable _))
    as (_ & _ & _ & H4 & _).
  destruct (H4 0%nat (set_fpipe 1 0 one_page (set_fref 1 file0))) as (s' & E & _).
  - rewrite fn_lookup_insert_ne, fn_lookup_insert by done. lia.
  - exact eq_refl.
  - exists s'. exact E.
Defined.
