(* ===== verification/Kernel.v ===== *)
(** * The kernel put together, and system call arguments: [syscall.c]

    The process table of [Proc.v] over the open files, the file system, the
    pipes and the memory of [File.v]: the functions [proc.c] calls are those
    of [kalloc.c], [vm.c], [file.c] and [fs.c].  A pointer into a table is one
    more than the index, 0 is null.

    A system call runs for the process [cur]; what the file system reads of
    [myproc()] is set when the call starts ([enter]).  The kernel reads and
    writes user memory at user addresses, so through the page table of [cur];
    an access the page table does not map is a [Fault].

    [fetchint], [fetchstr], [argint], [argptr] and [argstr] return [None] for
    -1; [fetchstr] and [argstr] return the string. *)

From S2P Require Import Prelude CString Mmu Kalloc Vm Sleeplock Bio BlockStore Pipe Fs File Proc.

Definition fptr (z : Z) : nat := Z.to_nat (z - 1).
Definition faddr (i : nat) : Z := Z.of_nat i + 1.

Definition set_pid_cwd {S} (pid : Z) (cwd : nat) (s : fs S) : fs S :=
  mkfs (f_store s) (f_sb s) (f_icache s) pid cwd.

(** The kernel address of the user address [va], as the paging hardware finds
    it in supervisor mode. *)
Definition utrans (m : mem) (pgdir va : Z) : option Z :=
  let pde := load32 m (pgdir + 4 * PDX va) in
  if has_flag pde PTE_P then
    let pte := load32 m (P2V (PTE_ADDR pde) + 4 * PTX va) in
    if has_flag pte PTE_P then Some (P2V (PTE_ADDR pte) + va mod PGSIZE) else None
  else None.

Section kernel.
Context {S : Type} `{!BlockStore S} `{!TxOps S}.
Context (kend kdata : Z) (initcode : list Z) (devsw : Z -> devops S).

#[global] Instance services : Services (files S) := {|
  sv_kalloc := inmem kalloc;
  sv_kfree := fun v => inmem (kfree kend v);
  sv_setupkvm := inmem (setupkvm kend kdata);
  sv_inituvm := fun d => inmem (inituvm d initcode);
  sv_allocuvm := fun d a b => inmem (allocuvm kend d a b);
  sv_deallocuvm := fun d a b => inmem (deallocuvm kend d a b);
  sv_copyuvm := fun d sz => inmem (copyuvm kend kdata d sz);
  sv_freevm := fun d => inmem (freevm kend d);
  sv_filedup := fun f => filedup (fptr f);; mret f;
  sv_fileclose := fun f => fileclose kend (fptr f);
  sv_idup := fun ip => infs (idup (fptr ip));; mret ip;
  sv_iput := fun ip => infs (iput (fptr ip));
  sv_namei_root := ip ← infs (namei devsw [SLASH]); mret (from_option faddr 0 ip);
  sv_begin_op := fbegin_op;
  sv_end_op := fend_op
|}.

Definition kstate : Type := ptable (files S).

(** A computation on the files, the file system or the memory. *)
Definition onfiles {A} (m : KM (files S) A) : KM kstate A := env m.
Definition onfs {A} (m : KM (fs S) A) : KM kstate A := env (infs m).
Definition onmem {A} (m : KM kmem A) : KM kstate A := env (inmem m).

Definition enter (cur : nat) : KM kstate unit :=
  p ← get_proc cur;
  onfiles (kmodify (fun s =>
    mkfiles (set_pid_cwd (p_pid p) (fptr (p_cwd p)) (fi_fs s)) (fi_table s) (fi_kmem s) (fi_pipes s) (p_killed p))).

(** ** User memory *)

Definition uaddr (cur : nat) (va : Z) : KM kstate Z :=
  p ← get_proc cur;
  m ← onmem (kgets k_mem);
  match utrans m (p_pgdir p) va with
  | Some a => mret a
  | None => fault "page fault"
  end.
Fixpoint uread (cur : nat) (va : Z) (n : nat) : KM kstate (list Z) :=
  match n with
  | O => mret []
  | Datatypes.S n =>
      a ← uaddr cur va;
      m ← onmem (kgets k_mem);
      l ← uread cur (va + 1) n;
      mret (m a :: l)
  end.
Fixpoint uwrite (cur : nat) (va : Z) (l : list Z) : KM kstate unit :=
  match l with
  | [] => mret tt
  | b :: l =>
      a ← uaddr cur va;
      onmem (kmodify (fun k => set_mem (upd (k_mem k) a b) k));;
      uwrite cur (va + 1) l
  end.

(** ** Arguments *)

Definition fetchint (cur : nat) (addr : Z) : KM kstate (option Z) :=
  p ← get_proc cur;
  if (p_sz p <=? addr) || (p_sz p <? u32 (addr + 4)) then mret None else
  l ← uread cur addr 4;
  mret (Some (i32 (le_val l))).

(** The loop of [fetchstr], with [n] bytes left before [ep]. *)
Fixpoint scan_str (cur : nat) (s : Z) (n : nat) : KM kstate (option (list Z)) :=
  match n with
  | O => mret None
  | Datatypes.S n =>
      l ← uread cur s 1;
      match l with
      | [c] => if c =? 0 then mret (Some [])
               else r ← scan_str cur (s + 1) n; mret (cons c <$> r)
      | _ => mret None
      end
  end.
Definition fetchstr (cur : nat) (addr : Z) : KM kstate (option (list Z)) :=
  p ← get_proc cur;
  if p_sz p <=? addr then mret None else
  scan_str cur addr (Z.to_nat (p_sz p - addr)).

Definition argint (cur : nat) (n : Z) : KM kstate (option Z) :=
  p ← get_proc cur;
  fetchint cur (u32 (tf_esp (p_tf p) + 4 + 4 * n)).

Definition argptr (cur : nat) (n size : Z) : KM kstate (option Z) :=
  p ← get_proc cur;
  i ← argint cur n;
  match i with
  | None => mret None
  | Some i =>
      if (size <? 0) || (p_sz p <=? u32 i) || (p_sz p <? u32 (u32 i + size)) then mret None
      else mret (Some (u32 i))
  end.

Definition argstr (cur : nat) (n : Z) : KM kstate (option (list Z)) :=
  addr ← argint cur n;
  match addr with
  | None => mret None
  | Some addr => fetchstr cur (u32 addr)
  end.
End kernel.
