(* ===== verification/KernelSpec.v ===== *)
(** * System call arguments are checked

    The kernel touches user memory only where the page table of the process
    maps it.  For a process whose pages cover its size, [argint], [argptr]
    and [argstr] never fault; they accept exactly the words, buffers and
    strings that lie inside the process. *)

From S2P Require Import Prelude CString Mmu Kalloc Vm VmSpec VmUser VmTheorems Sleeplock Bio Log BlockStore Pipe Fs File Proc Kernel.

(** The bytes from [va] on, as the user sees them. *)
Definition ubytes (m : mem) (U : gmap Z Z) (va : Z) (n : nat) : list Z :=
  (fun i => default 0 (umem m U (va + Z.of_nat i))) <$> seq 0 n.

Lemma ubytes_cons m U va n : ubytes m U va (S n) = default 0 (umem m U va) :: ubytes m U (va + 1) n.
Proof.
  unfold ubytes. cbn [seq fmap list_fmap]. rewrite Z.add_0_r. f_equal.
  rewrite <- (fmap_S_seq 0 n), <- list_fmap_compose. apply list_fmap_ext. intros i k _. simpl. do 2 f_equal. lia.
Qed.
Lemma length_ubytes m U va n : length (ubytes m U va n) = n.
Proof. unfold ubytes. by rewrite length_fmap, length_seq. Qed.

(** The string at the start of the bytes: what comes before the first zero. *)
Fixpoint cut_nul (l : list Z) : option (list Z) :=
  match l with
  | [] => None
  | c :: l => if c =? 0 then Some [] else cons c <$> cut_nul l
  end.
Lemma cut_nul_spec l s : cut_nul l = Some s <-> exists r, l = s ++ 0 :: r /\ Forall (fun c => c <> 0) s.
Proof.
  revert s. induction l as [|c l IH]; intros s; simpl.
  - split; [done|]. intros ([|? ?] & ? & _); by destruct s.
  - destruct (Z.eqb_spec c 0) as [->|Hc].
    + split; [intros [= <-]; by exists l|]. intros (r & E & Hs). destruct s as [|d s]; [done|].
      injection E as <- _. by apply Forall_cons in Hs as [? _].
    + split.
      * intros (s' & Hs & ->)%fmap_Some. apply IH in Hs as (r & -> & Hf). exists r. split; [done|by constructor].
      * intros (r & E & Hs). destruct s as [|d s]; injection E as ??; [done|]. subst d. apply Forall_cons in Hs as [_ Hs].
        apply fmap_Some. exists s. split; [|done]. apply IH. by exists r.
Qed.

Section user.
Context {S : Type} (kend : Z).
Abbreviation K := (@kstate S).

Definition kmem_at (t : K) : kmem := fi_kmem (pt_env t).
Definition mem_at (t : K) : mem := k_mem (kmem_at t).

(** The process [p] at [cur], its pages and its size. *)
Record user_ok (t : K) (cur : nat) (p : proc) (l : list Z) (tabs U : gmap Z Z) : Prop := mk_user_ok {
  uo_proc : pt_proc t !! cur = Some p;
  uo_space : aspace kend (kmem_at t) l (p_pgdir p) tabs U;
  uo_sz : 0 <= p_sz p <= KERNBASE;
  uo_cover : forall va, 0 <= va < p_sz p -> is_Some (U !! (va / 4096))
}.

Lemma utrans_hit s l d tabs U va p : aspace kend s l d tabs U -> 0 <= va < KERNBASE -> U !! (va / 4096) = Some p ->
  utrans (k_mem s) d va = Some (p + va mod 4096).
Proof.
  intros H Hva Hp. unfold KERNBASE in Hva. pose proof (as_v _ _ _ _ _ _ H) as HV.
  assert (Hv : 0 <= va / 4096 < UPAGES) by (split; [apply Z.div_pos; lia|unfold UPAGES; apply Z.div_lt_upper_bound; lia]).
  pose proof (as_pte _ _ _ _ _ _ H _ Hv) as Hpte. rewrite Hp in Hpte. destruct Hpte as [Hf Ha].
  unfold pte_of in Hf, Ha. rewrite Zdiv.Zdiv_Zdiv in Hf, Ha by lia. change (4096 * 1024) with (2 ^ 22) in Hf, Ha.
  destruct (tabs !! (va / 2 ^ 22)) as [t|] eqn:Et; [|done].
  pose proof (walk_hit kend s l d tabs va false t HV ltac:(lia) Et) as Hw.
  destruct (vspace_sep _ _ _ _ _ HV) as (_ & Htab & _). destruct (Htab _ _ Et) as (_ & _ & Hg).
  pose proof (good_range _ _ Hg) as [Hgr _]. pose proof (Z.mod_pos_bound (va / 4096) 1024 ltac:(lia)).
  unfold walkpgdir, mbind, km_bind, kload, kgets in Hw. unfold utrans.
  destruct (has_flag (load32 (k_mem s) (d + 4 * PDX va)) PTE_P); [|injection Hw; lia].
  injection Hw as Hw. rewrite Hw, Hf, Ha. change PGSIZE with 4096. do 2 f_equal.
  apply (P2V_V2P kend). apply (as_good _ _ _ _ _ _ H), elem_of_vals. eauto.
Qed.

Section run.
Context (t : K) (cur : nat) (p : proc) (l : list Z) (tabs U : gmap Z Z).
Hypothesis HU : user_ok t cur p l tabs U.

Lemma get_proc_run : get_proc cur t = Done p t.
Proof. unfold get_proc. by rewrite (uo_proc _ _ _ _ _ _ HU). Qed.

Lemma onmem_gets {A} (f : kmem -> A) : onmem (kgets f) t = Done (f (kmem_at t)) t.
Proof. unfold onmem, env, inmem, zoom, kgets, set_kmem. by destruct t as [[] ? ? ? ?]. Qed.

Lemma uaddr_run va q : 0 <= va < KERNBASE -> U !! (va / 4096) = Some q -> uaddr cur va t = Done (q + va mod 4096) t.
Proof.
  intros Hva Hq. unfold uaddr, mbind, km_bind. rewrite get_proc_run, onmem_gets. fold (mem_at t).
  unfold mem_at. by rewrite (utrans_hit _ l _ tabs U va q (uo_space _ _ _ _ _ _ HU) Hva Hq).
Qed.

Lemma uread_run n : forall va, 0 <= va -> va + Z.of_nat n <= p_sz p ->
  uread cur va n t = Done (ubytes (mem_at t) U va n) t.
Proof.
  induction n as [|n IH]; intros va Hva Hn; [done|]. cbn [uread]. pose proof (uo_sz _ _ _ _ _ _ HU) as Hsz.
  destruct (uo_cover _ _ _ _ _ _ HU va) as [q Hq]; [lia|].
  unfold mbind, km_bind. rewrite (uaddr_run va q) by (done || lia). rewrite onmem_gets. fold (mem_at t).
  rewrite IH by lia. rewrite ubytes_cons. unfold umem at 1. by rewrite Hq.
Qed.

(** The word at [addr], if it lies inside the process. *)
Definition uword (addr : Z) : option Z :=
  if decide (addr + 4 <= p_sz p) then Some (i32 (le_val (ubytes (mem_at t) U addr 4))) else None.

Lemma fetchint_run addr : 0 <= addr < 2 ^ 32 -> fetchint cur addr t = Done (uword addr) t.
Proof.
  intros Ha. unfold fetchint, mbind, km_bind. rewrite get_proc_run. pose proof (uo_sz _ _ _ _ _ _ HU) as Hsz. unfold KERNBASE in Hsz.
  unfold uword. destruct (Z.leb_spec (p_sz p) addr) as [Hle|Hlt]; cbn [orb].
  - by rewrite decide_False by lia.
  - rewrite u32_id by lia. destruct (Z.ltb_spec (p_sz p) (addr + 4)).
    + by rewrite decide_False by lia.
    + rewrite uread_run by lia. by rewrite decide_True.
Qed.

(** The string at [addr]. *)
Definition ustring (addr : Z) : option (list Z) :=
  cut_nul (ubytes (mem_at t) U addr (Z.to_nat (p_sz p - addr))).

Lemma scan_str_run n : forall s, 0 <= s -> s + Z.of_nat n <= p_sz p ->
  scan_str cur s n t = Done (cut_nul (ubytes (mem_at t) U s n)) t.
Proof.
  induction n as [|n IH]; intros s Hs Hn; [done|]. cbn [scan_str]. unfold mbind at 1, km_bind at 1.
  rewrite uread_run by lia. rewrite !ubytes_cons. cbn [ubytes fmap list_fmap seq cut_nul].
  destruct (_ =? 0); [done|]. unfold mbind, km_bind. by rewrite IH by lia.
Qed.
Lemma fetchstr_run addr : 0 <= addr < 2 ^ 32 -> fetchstr cur addr t = Done (ustring addr) t.
Proof.
  intros Ha. unfold fetchstr, mbind, km_bind. rewrite get_proc_run. unfold ustring.
  destruct (Z.leb_spec (p_sz p) addr) as [Hle|Hlt].
  - by replace (Z.to_nat (p_sz p - addr)) with O by lia.
  - apply scan_str_run; lia.
Qed.

(** Argument [n] of the system call. *)
Definition argword (n : Z) : option Z := uword (u32 (tf_esp (p_tf p) + 4 + 4 * n)).

Lemma argint_run n : argint cur n t = Done (argword n) t.
Proof. unfold argint, mbind, km_bind. rewrite get_proc_run. apply fetchint_run, u32_range. Qed.
Lemma argptr_run n size : size < 2 ^ 31 -> argptr cur n size t =
  Done (match argword n with
        | Some i => if decide (0 <= size /\ u32 i < p_sz p /\ u32 i + size <= p_sz p) then Some (u32 i) else None
        | None => None
        end) t.
Proof.
  intros Hs. unfold argptr, mbind, km_bind. rewrite get_proc_run, argint_run. destruct (argword n) as [i|]; [|done].
  pose proof (uo_sz _ _ _ _ _ _ HU) as Hsz. unfold KERNBASE in Hsz. pose proof (u32_range i).
  destruct (Z.ltb_spec size 0); simpl; [by rewrite decide_False by lia|].
  destruct (Z.leb_spec (p_sz p) (u32 i)); simpl; [by rewrite decide_False by lia|].
  rewrite (u32_id (u32 i + size)) by lia. destruct (Z.ltb_spec (p_sz p) (u32 i + size)).
  - by rewrite decide_False by lia.
  - by rewrite decide_True by lia.
Qed.
Lemma argstr_run n : argstr cur n t = Done (i ← argword n; ustring (u32 i)) t.
Proof.
  unfold argstr, mbind at 1, km_bind. rewrite argint_run. destruct (argword n) as [i|]; [|done]. apply fetchstr_run, u32_range.
Qed.
End run.
End user.

Lemma ubytes_app m U va j k : ubytes m U va (j + k) = ubytes m U va j ++ ubytes m U (va + Z.of_nat j) k.
Proof.
  revert va. induction j as [|j IH]; intros va; [by rewrite Z.add_0_r|]. rewrite Nat.add_succ_l, !ubytes_cons, IH. simpl. do 3 f_equal. lia.
Qed.
Lemma cut_nul_None l : cut_nul l = None -> 0 ∉ l.
Proof.
  induction l as [|c l IH]; simpl; [by intros _ ?%not_elem_of_nil|]. destruct (Z.eqb_spec c 0); [done|].
  intros ?%fmap_None. rewrite elem_of_cons. naive_solver.
Qed.
Lemma ubytes_elem m U va n x : va <= x < va + Z.of_nat n -> umem m U x = Some 0 -> 0 ∈ ubytes m U va n.
Proof.
  intros Hx E. apply list_elem_of_fmap. exists (Z.to_nat (x - va)). rewrite elem_of_seq.
  replace (va + Z.of_nat (Z.to_nat (x - va))) with x by lia. rewrite E. split; [done|lia].
Qed.

(** C25.  System call arguments are checked.  For a process whose pages cover its
    size, [argptr] and [argstr] return without a fault and change nothing.  A
    buffer is accepted only if each of its bytes lies inside the process and
    is mapped, and refused only if the argument word, its start or its end is
    outside; a string is accepted only if it ends with a null byte inside the
    process, and refused only if the word is outside or no null byte follows
    inside. *)
Theorem syscall_args_checked {S} kend (t : @kstate S) cur p l tabs U n size :
  user_ok kend t cur p l tabs U -> size < 2 ^ 31 ->
  (exists r, argptr cur n size t = Done r t /\
     match r with
     | Some a => (exists w, argword t p U n = Some w /\ a = u32 w) /\ 0 <= size /\
         forall x, a <= x < a + size -> 0 <= x < p_sz p /\ is_Some (utrans (mem_at t) (p_pgdir p) x)
     | None => forall w, argword t p U n = Some w -> size < 0 \/ p_sz p <= u32 w \/ p_sz p < u32 w + size
     end) /\
  (exists r, argstr cur n t = Done r t /\
     match r with
     | Some s => exists w, argword t p U n = Some w /\ u32 w + Z.of_nat (length s) < p_sz p /\
         Forall (fun c => c <> 0) s /\ ubytes (mem_at t) U (u32 w) (length s + 1) = s ++ [0]
     | None => forall w x, argword t p U n = Some w -> u32 w <= x < p_sz p -> umem (mem_at t) U x <> Some 0
     end).
Proof.
  intros HU Hs. split.
  - rewrite (argptr_run kend t cur p l tabs U HU n size Hs). eexists; split; [done|].
    destruct (argword t p U n) as [w|]; [|done]. pose proof (u32_range w) as Hw. case_decide as Hd.
    + split; [by exists w|]. split; [lia|]. intros x Hx. split; [lia|].
      destruct (uo_cover _ _ _ _ _ _ _ HU x) as [q Hq]; [lia|]. pose proof (uo_sz _ _ _ _ _ _ _ HU).
      unfold mem_at. rewrite (utrans_hit kend _ l _ tabs U x q (uo_space _ _ _ _ _ _ _ HU)) by (done || lia). eauto.
    + intros w' [= <-]. lia.
  - rewrite (argstr_run kend t cur p l tabs U HU n). eexists; split; [done|].
    destruct (argword t p U n) as [w|]; simpl; [|done]. destruct (ustring t p U (u32 w)) as [s|] eqn:E.
    + exists w. split; [done|]. apply cut_nul_spec in E as (r & E & Hf).
      pose proof (f_equal length E) as El. rewrite length_ubytes, length_app in El. simpl in El. split; [lia|]. split; [done|].
      replace (Z.to_nat (p_sz p - u32 w)) with ((length s + 1) + length r)%nat in E by lia. rewrite ubytes_app in E.
      apply (f_equal (take (length s + 1))) in E. rewrite take_app_length' in E by (by rewrite length_ubytes).
      rewrite E. change (s ++ 0 :: r) with (s ++ [0] ++ r). rewrite (app_assoc s [0] r). apply take_app_length'. by rewrite length_app.
    + intros w' x [= <-] Hx E0. apply cut_nul_None in E. apply E. eapply ubytes_elem; [|exact E0]. lia.
Qed.

(** ** A process of one page *)

Definition demo_proc (d : Z) : proc := set_pgdir d (set_sz 4096 proc0).
Definition demo_kernel (k : kmem) (d : Z) : @kstate tview :=
  mkptable (mkfiles (mkfs (mktview ∅ ∅ ∅ ∅ ∅ 0) (mksuperblock 0 0 0 0 0 0 0) [] 1 0) (replicate NFILE file0) k ∅ 0)
    [demo_proc d] 2 0 0.

Lemma demo_user_ok (k : nat) : (k <= 1090)%nat -> exists s l d tabs U,
  user_ok demo_end (demo_kernel s d) 0 (demo_proc d) l tabs U /\ length l = k.
Proof.
  intros Hk. destruct (demo_parent k Hk) as (s & l & d & tabs & U & H & H0 & Hl). exists s, l, d, tabs, U. split; [|done].
  split; [done|exact H|simpl; unfold KERNBASE; lia|]. simpl. intros va Hva. by rewrite Z.div_small.
Qed.

Lemma syscall_args_checked_witness : exists (t : @kstate tview) r, argptr 0 0 100 t = Done r t.
Proof.
  destruct (demo_user_ok 10) as (s & l & d & tabs & U & H & _); [lia|].
  destruct (syscall_args_checked demo_end _ 0 _ l tabs U 0 100 H) as [(r & E & _) _]; [lia|].
  exists (demo_kernel s d), r. exact E.
Defined.
