(* ===== verification/Exec.v ===== *)
(** * Program loading: [exec.c]

    [exec] as a computation on the kernel's state: the program's segments are
    read through [readi] into the pages of a new page table, the arguments
    are copied out to its stack, and only then the process is changed.
    [None] inside stands for a [goto bad].  The arguments are given as the
    strings the pointers of [argv] lead to. *)

From S2P Require Import Prelude CString Mmu Kalloc Vm Sleeplock Bio Log BlockStore Pipe Fs File Proc Kernel.

Definition MAXARG : nat := 32.

(** ** [elf.h] *)

Definition ELF_MAGIC : Z := 0x464C457F.
Definition ELF_PROG_LOAD : Z := 1.
Definition sizeof_elfhdr : Z := 52.
Definition sizeof_proghdr : Z := 32.

(** [struct elfhdr] *)
Record elfhdr := mkelfhdr {
  eh_magic : Z; eh_elf : list Z; eh_type : Z; eh_machine : Z; eh_version : Z;
  eh_entry : Z; eh_phoff : Z; eh_shoff : Z; eh_flags : Z;
  eh_ehsize : Z; eh_phentsize : Z; eh_phnum : Z; eh_shentsize : Z; eh_shnum : Z; eh_shstrndx : Z
}.
Definition getu16 (off : nat) (d : list Z) : Z := le_val (slice off 2 d).
Definition dec_elfhdr (d : list Z) : elfhdr :=
  mkelfhdr (get32 0 d) (slice 4 12 d) (getu16 16 d) (getu16 18 d) (get32 20 d)
    (get32 24 d) (get32 28 d) (get32 32 d) (get32 36 d)
    (getu16 40 d) (getu16 42 d) (getu16 44 d) (getu16 46 d) (getu16 48 d) (getu16 50 d).

(** [struct proghdr] *)
Record proghdr := mkproghdr {
  ph_type : Z; ph_off : Z; ph_vaddr : Z; ph_paddr : Z;
  ph_filesz : Z; ph_memsz : Z; ph_flags : Z; ph_align : Z
}.
Definition dec_proghdr (d : list Z) : proghdr :=
  mkproghdr (get32 0 d) (get32 4 d) (get32 8 d) (get32 12 d)
    (get32 16 d) (get32 20 d) (get32 24 d) (get32 28 d).

Section exec.
Context {S : Type} `{!BlockStore S} `{!TxOps S}.
Context (kend kdata : Z) (devsw : Z -> devops S).

Abbreviation K := (@kstate S).

Definition kmem_of (t : K) : kmem := fi_kmem (pt_env t).
Definition put_kmem (k : kmem) (t : K) : K :=
  mkptable (set_kmem k (pt_env t)) (pt_proc t) (pt_nextpid t) (pt_initproc t) (pt_ticks t).

(** The label [bad]. *)
Definition exec_bad (pgdir : Z) (ip : option nat) : KM K Z :=
  (if negb (pgdir =? 0) then onmem (freevm kend pgdir) else mret tt);;
  match ip with
  | Some ip => onfs (iunlockput ip);; onfiles fend_op;; mret (-1)
  | None => mret (-1)
  end.

(** The loop over the program headers: the size reached. *)
Fixpoint load_segments (n : nat) (ip : nat) (pgdir off sz : Z) : KM K (option Z) :=
  match n with
  | O => mret (Some sz)
  | Datatypes.S n =>
      '(r, d) ← onfs (readi devsw ip (u32 off) sizeof_proghdr);
      if negb (r =? sizeof_proghdr) then mret None else
      let ph := dec_proghdr d in
      if negb (ph_type ph =? ELF_PROG_LOAD) then load_segments n ip pgdir (off + sizeof_proghdr) sz
      else if ph_memsz ph <? ph_filesz ph then mret None
      else if u32 (ph_vaddr ph + ph_memsz ph) <? ph_vaddr ph then mret None
      else
        sz ← onmem (allocuvm kend pgdir sz (u32 (ph_vaddr ph + ph_memsz ph)));
        if sz =? 0 then mret None
        else if negb (ph_vaddr ph mod PGSIZE =? 0) then mret None
        else
          r ← loaduvm kmem_of put_kmem (fun o k => onfs (readi devsw ip o k))
                pgdir (ph_vaddr ph) (ph_off ph) (ph_filesz ph);
          if r <? 0 then mret None else load_segments n ip pgdir (off + sizeof_proghdr) sz
  end.

(** The loop over [argv]: the stack pointer and [ustack[3 ..]] reached. *)
Fixpoint push_args (pgdir : Z) (argv : list (list Z)) (argc : nat) (sp : Z) (ustack : list Z)
    : KM K (option (Z * list Z)) :=
  match argv with
  | [] => mret (Some (sp, ustack))
  | s :: argv =>
      if (MAXARG <=? argc)%nat then mret None else
      let sp := Z.land (u32 (sp - (Z.of_nat (length s) + 1))) (u32 (Z.lnot 3)) in
      r ← onmem (copyout pgdir sp (s ++ [0]));
      if r <? 0 then mret None else push_args pgdir argv (Datatypes.S argc) sp (ustack ++ [sp])
  end.

(** The loop that leaves [last] after the last slash of the path. *)
Fixpoint last_elem (last s : list Z) : list Z :=
  match s with
  | [] => last
  | c :: s => last_elem (if c =? SLASH then s else last) s
  end.

Definition set_eip_esp (eip esp : Z) (t : trapframe) : trapframe :=
  mktf (tf_edi t) (tf_esi t) (tf_ebp t) (tf_oesp t) (tf_ebx t) (tf_edx t) (tf_ecx t) (tf_eax t)
       (tf_gs t) (tf_fs t) (tf_es t) (tf_ds t) (tf_trapno t)
       (tf_err t) eip (tf_cs t) (tf_eflags t) esp (tf_ss t).

(** From "Allocate two pages at the next page boundary" on. *)
Definition exec_image (cur : nat) (path : list Z) (argv : list (list Z)) (elf : elfhdr) (pgdir sz : Z) : KM K Z :=
  let sz := PGROUNDUP sz in
  sz ← onmem (allocuvm kend pgdir sz (u32 (sz + 2 * PGSIZE)));
  if sz =? 0 then exec_bad pgdir None else
  onmem (clearpteu pgdir (u32 (sz - 2 * PGSIZE)));;
  r ← push_args pgdir argv 0 sz [];
  match r with
  | None => exec_bad pgdir None
  | Some (sp, args) =>
      let argc := Z.of_nat (length args) in
      let ustack := [0xffffffff; argc; u32 (sp - (argc + 1) * 4)] ++ args ++ [0] in
      let sp := u32 (sp - (3 + argc + 1) * 4) in
      r ← onmem (copyout pgdir sp (mjoin (put32 <$> ustack)));
      if r <? 0 then exec_bad pgdir None else
      upd_proc (fun p => set_name (copy_name (p_name p) (last_elem path path)) p) cur;;
      p ← get_proc cur;
      let oldpgdir := p_pgdir p in
      upd_proc (fun p => set_priority 2 (set_tf (set_eip_esp (eh_entry elf) sp (p_tf p)) (set_sz sz (set_pgdir pgdir p)))) cur;;
      onmem (freevm kend oldpgdir);;
      mret 0
  end.

Definition exec (cur : nat) (path : list Z) (argv : list (list Z)) : KM K Z :=
  onfiles fbegin_op;;
  ip ← onfs (namei devsw path);
  match ip with
  | None => onfiles fend_op;; mret (-1)
  | Some ip =>
      onfs (ilock ip);;
      '(r, d) ← onfs (readi devsw ip 0 sizeof_elfhdr);
      if negb (r =? sizeof_elfhdr) then exec_bad 0 (Some ip) else
      let elf := dec_elfhdr d in
      if negb (eh_magic elf =? ELF_MAGIC) then exec_bad 0 (Some ip) else
      pgdir ← onmem (setupkvm kend kdata);
      if pgdir =? 0 then exec_bad 0 (Some ip) else
      sz ← load_segments (Z.to_nat (eh_phnum elf)) ip pgdir (i32 (eh_phoff elf)) 0;
      match sz with
      | None => exec_bad pgdir (Some ip)
      | Some sz =>
          onfs (iunlockput ip);;
          onfiles fend_op;;
          exec_image cur path argv elf pgdir sz
      end
  end.
End exec.
