(* ===== verification/Sysfile.v ===== *)
(** * File system calls: [sysfile.c]

    Each system call of [sysfile.c] for the process [cur], with its argument
    checks and every error path.  The result is the value the call returns in
    [%eax]; what a call stores in user memory goes through the page table. *)

From S2P Require Import Prelude CString Mmu Kalloc Vm Sleeplock Bio Log BlockStore Pipe Fs File Proc Kernel Exec.

Definition O_RDONLY : Z := 0x000.
Definition O_WRONLY : Z := 0x001.
Definition O_RDWR : Z := 0x002.
Definition O_CREATE : Z := 0x200.
Definition sizeof_stat : Z := 20.
Definition DOT : list Z := [46].
Definition DOTDOT : list Z := [46; 46].
Definition name_buf : list Z := replicate (Z.to_nat DIRSIZ) 0.

Definition bump_nlink (k : Z) (x : inode) : inode := set_din (din_nlink (i16 (i_nlink x + k)) (i_din x)) x.

(** The first null entry. *)
Fixpoint find_fd (fd : nat) (l : list Z) : option nat :=
  match l with
  | [] => None
  | f :: l => if f =? 0 then Some fd else find_fd (S fd) l
  end.

Section sysfile.
Context {S : Type} `{!BlockStore S} `{!TxOps S}.
Context (kend kdata : Z) (devsw : Z -> devops S).

Abbreviation K := (@kstate S).

Definition begin : KM K unit := onfiles fbegin_op.
Definition finish : KM K unit := onfiles fend_op.

(** [None] is -1; otherwise the descriptor and the file. *)
Definition argfd (cur : nat) (n : Z) : KM K (option (Z * nat)) :=
  fd ← argint cur n;
  match fd with
  | None => mret None
  | Some fd =>
      if (fd <? 0) || (Z.of_nat NOFILE <=? fd) then mret None else
      p ← get_proc cur;
      match p_ofile p !! Z.to_nat fd with
      | None => fault "ofile"
      | Some f => if f =? 0 then mret None else mret (Some (fd, fptr f))
      end
  end.

Definition set_fd (cur : nat) (fd : nat) (f : Z) : KM K unit :=
  upd_proc (fun p => set_ofile (<[fd := f]> (p_ofile p)) p) cur.

Definition fdalloc (cur : nat) (f : nat) : KM K Z :=
  p ← get_proc cur;
  match find_fd 0 (p_ofile p) with
  | Some fd => set_fd cur fd (faddr f);; mret (Z.of_nat fd)
  | None => mret (-1)
  end.

Definition sys_dup (cur : nat) : KM K Z :=
  a ← argfd cur 0;
  match a with
  | None => mret (-1)
  | Some (_, f) =>
      fd ← fdalloc cur f;
      if fd <? 0 then mret (-1) else
      onfiles (filedup f);;
      mret fd
  end.

Definition sys_read (cur : nat) : KM K Z :=
  a ← argfd cur 0;
  match a with
  | None => mret (-1)
  | Some (_, f) =>
      n ← argint cur 2;
      match n with
      | None => mret (-1)
      | Some n =>
          p ← argptr cur 1 n;
          match p with
          | None => mret (-1)
          | Some p =>
              '(r, l) ← onfiles (fileread devsw f n);
              uwrite cur p l;;
              mret r
          end
      end
  end.

Definition sys_write (cur : nat) : KM K Z :=
  a ← argfd cur 0;
  match a with
  | None => mret (-1)
  | Some (_, f) =>
      n ← argint cur 2;
      match n with
      | None => mret (-1)
      | Some n =>
          p ← argptr cur 1 n;
          match p with
          | None => mret (-1)
          | Some p =>
              l ← uread cur p (Z.to_nat n);
              onfiles (filewrite devsw f l n)
          end
      end
  end.

Definition sys_close (cur : nat) : KM K Z :=
  a ← argfd cur 0;
  match a with
  | None => mret (-1)
  | Some (fd, f) =>
      set_fd cur (Z.to_nat fd) 0;;
      onfiles (fileclose kend f);;
      mret 0
  end.

(** [stati] stores the fields of [struct stat] at [p], in this order. *)
Definition put_stat (cur : nat) (p : Z) (st : stat) : KM K unit :=
  uwrite cur (p + 4) (le_bytes 4 (st_dev st));;
  uwrite cur (p + 8) (le_bytes 4 (st_ino st));;
  uwrite cur p (le_bytes 2 (st_type st));;
  uwrite cur (p + 12) (le_bytes 2 (st_nlink st));;
  uwrite cur (p + 16) (le_bytes 4 (st_size st)).

Definition sys_fstat (cur : nat) : KM K Z :=
  a ← argfd cur 0;
  match a with
  | None => mret (-1)
  | Some (_, f) =>
      p ← argptr cur 1 sizeof_stat;
      match p with
      | None => mret (-1)
      | Some p =>
          st ← onfiles (filestat f);
          match st with
          | None => mret (-1)
          | Some st => put_stat cur p st;; mret 0
          end
      end
  end.

(** The label [bad] of [sys_link]. *)
Definition link_bad (ip : nat) : KM K Z :=
  onfs (ilock ip);;
  onfs (upd_ip ip (bump_nlink (-1)));;
  onfs (iupdate ip);;
  onfs (iunlockput ip);;
  finish;;
  mret (-1).

Definition sys_link (cur : nat) : KM K Z :=
  old ← argstr cur 0;
  match old with
  | None => mret (-1)
  | Some old =>
      new ← argstr cur 1;
      match new with
      | None => mret (-1)
      | Some new =>
          begin;;
          ip ← onfs (namei devsw old);
          match ip with
          | None => finish;; mret (-1)
          | Some ip =>
              onfs (ilock ip);;
              x ← onfs (get_ip ip);
              if i_type x =? T_DIR then onfs (iunlockput ip);; finish;; mret (-1) else
              onfs (upd_ip ip (bump_nlink 1));;
              onfs (iupdate ip);;
              onfs (iunlock ip);;
              '(dp, name) ← onfs (nameiparent devsw new name_buf);
              match dp with
              | None => link_bad ip
              | Some dp =>
                  onfs (ilock dp);;
                  y ← onfs (get_ip dp);
                  x ← onfs (get_ip ip);
                  r ← (if negb (i_dev y =? i_dev x) then mret (-1)
                       else onfs (dirlink devsw dp name (i_inum x)));
                  if r <? 0 then onfs (iunlockput dp);; link_bad ip else
                  onfs (iunlockput dp);;
                  onfs (iput ip);;
                  finish;;
                  mret 0
              end
          end
      end
  end.

(** The loop of [isdirempty]. *)
Fixpoint dir_empty_from (fuel : nat) (dp : nat) (off : Z) : KM K bool :=
  match fuel with
  | O => fault "isdirempty"
  | Datatypes.S fuel =>
      x ← onfs (get_ip dp);
      if u32 off <? i_size x then
        '(r, de) ← onfs (readi devsw dp off sizeof_dirent);
        if negb (r =? sizeof_dirent) then panic "isdirempty: readi"
        else if negb (de_inum de =? 0) then mret false
        else dir_empty_from fuel dp (off + sizeof_dirent)
      else mret true
  end.
Definition isdirempty (dp : nat) : KM K bool :=
  x ← onfs (get_ip dp);
  dir_empty_from (Z.to_nat (i_size x / sizeof_dirent + 2)) dp (2 * sizeof_dirent).

Definition sys_unlink (cur : nat) : KM K Z :=
  path ← argstr cur 0;
  match path with
  | None => mret (-1)
  | Some path =>
      begin;;
      '(dp, name) ← onfs (nameiparent devsw path name_buf);
      match dp with
      | None => finish;; mret (-1)
      | Some dp =>
          onfs (ilock dp);;
          if (namecmp name DOT =? 0) || (namecmp name DOTDOT =? 0) then
            onfs (iunlockput dp);; finish;; mret (-1)
          else
            r ← onfs (dirlookup devsw dp name);
            match r with
            | None => onfs (iunlockput dp);; finish;; mret (-1)
            | Some (ip, off) =>
                onfs (ilock ip);;
                x ← onfs (get_ip ip);
                if i_nlink x <? 1 then panic "unlink: nlink < 1" else
                e ← (if i_type x =? T_DIR then isdirempty ip else mret true);
                if negb (e : bool) then
                  onfs (iunlockput ip);; onfs (iunlockput dp);; finish;; mret (-1)
                else
                  w ← onfs (writei devsw dp (replicate 16 0) off sizeof_dirent);
                  if negb (w =? sizeof_dirent) then panic "unlink: writei" else
                  (if i_type x =? T_DIR then onfs (upd_ip dp (bump_nlink (-1)));; onfs (iupdate dp)
                   else mret tt);;
                  onfs (iunlockput dp);;
                  onfs (upd_ip ip (bump_nlink (-1)));;
                  onfs (iupdate ip);;
                  onfs (iunlockput ip);;
                  finish;;
                  mret 0
            end
      end
  end.

(** [create] of a name that is there. *)
Definition create_old (dp ip : nat) (type : Z) : KM K (option nat) :=
  onfs (iunlockput dp);;
  onfs (ilock ip);;
  x ← onfs (get_ip ip);
  if (type =? T_FILE) && (i_type x =? T_FILE) then mret (Some ip)
  else onfs (iunlockput ip);; mret None.
(** [create] of a new name. *)
Definition create_new (dp : nat) (name : list Z) (type major minor : Z) : KM K (option nat) :=
  d ← onfs (get_ip dp);
  ip ← onfs (ialloc (i_dev d) type);
  onfs (ilock ip);;
  onfs (upd_ip ip (fun x => set_din (din_nlink 1 (din_dev (i16 major) (i16 minor) (i_din x))) x));;
  onfs (iupdate ip);;
  x ← onfs (get_ip ip);
  (if type =? T_DIR then
     onfs (upd_ip dp (bump_nlink 1));;
     onfs (iupdate dp);;
     r ← onfs (dirlink devsw ip DOT (i_inum x));
     r ← (if r <? 0 then mret r else onfs (dirlink devsw ip DOTDOT (i_inum d)));
     if r <? 0 then panic "create dots" else mret tt
   else mret tt);;
  r ← onfs (dirlink devsw dp name (i_inum x));
  if r <? 0 then panic "create: dirlink" else
  onfs (iunlockput dp);;
  mret (Some ip).
(** [None] is the null pointer. *)
Definition create (path : list Z) (type major minor : Z) : KM K (option nat) :=
  '(dp, name) ← onfs (nameiparent devsw path name_buf);
  match dp with
  | None => mret None
  | Some dp =>
      onfs (ilock dp);;
      r ← onfs (dirlookup devsw dp name);
      match r with
      | Some (ip, _) => create_old dp ip type
      | None => create_new dp name type major minor
      end
  end.

Definition truth (b : bool) : Z := if b then 1 else 0.

(** The open file [sys_open] makes of a table entry. *)
Definition opened (ip : nat) (omode : Z) (x : file) : file :=
  mkfile FD_INODE (fl_ref x) (truth (Z.land omode O_WRONLY =? 0))
    (truth (negb (Z.land omode O_WRONLY =? 0) || negb (Z.land omode O_RDWR =? 0))) (fl_pipe x) ip 0.
(** [sys_open] from the inode on. *)
Definition open_inode (cur : nat) (ip : nat) (omode : Z) : KM K Z :=
  f ← onfiles filealloc;
  match f with
  | None => onfs (iunlockput ip);; finish;; mret (-1)
  | Some f =>
      fd ← fdalloc cur f;
      if fd <? 0 then
        onfiles (fileclose kend f);; onfs (iunlockput ip);; finish;; mret (-1)
      else
        onfs (iunlock ip);;
        finish;;
        onfiles (upd_file f (opened ip omode));;
        mret fd
  end.

Definition sys_open (cur : nat) : KM K Z :=
  path ← argstr cur 0;
  match path with
  | None => mret (-1)
  | Some path =>
      omode ← argint cur 1;
      match omode with
      | None => mret (-1)
      | Some omode =>
          begin;;
          if negb (Z.land omode O_CREATE =? 0) then
            ip ← create path T_FILE 0 0;
            match ip with
            | None => finish;; mret (-1)
            | Some ip => open_inode cur ip omode
            end
          else
            ip ← onfs (namei devsw path);
            match ip with
            | None => finish;; mret (-1)
            | Some ip =>
                onfs (ilock ip);;
                x ← onfs (get_ip ip);
                if (i_type x =? T_DIR) && negb (omode =? O_RDONLY) then
                  onfs (iunlockput ip);; finish;; mret (-1)
                else open_inode cur ip omode
            end
      end
  end.

(** The end of [sys_mkdir] and [sys_mknod]. *)
Definition put_created (ip : option nat) : KM K Z :=
  match ip with
  | None => finish;; mret (-1)
  | Some ip => onfs (iunlockput ip);; finish;; mret 0
  end.

Definition sys_mkdir (cur : nat) : KM K Z :=
  begin;;
  path ← argstr cur 0;
  ip ← match path with None => mret None | Some path => create path T_DIR 0 0 end;
  put_created ip.

Definition sys_mknod (cur : nat) : KM K Z :=
  begin;;
  path ← argstr cur 0;
  ip ← match path with
       | None => mret None
       | Some path =>
           major ← argint cur 1;
           match major with
           | None => mret None
           | Some major =>
               minor ← argint cur 2;
               match minor with
               | None => mret None
               | Some minor => create path T_DEV major minor
               end
           end
       end;
  put_created ip.

Definition sys_chdir (cur : nat) : KM K Z :=
  begin;;
  path ← argstr cur 0;
  ip ← match path with None => mret None | Some path => onfs (namei devsw path) end;
  match ip with
  | None => finish;; mret (-1)
  | Some ip =>
      onfs (ilock ip);;
      x ← onfs (get_ip ip);
      if negb (i_type x =? T_DIR) then onfs (iunlockput ip);; finish;; mret (-1) else
      onfs (iunlock ip);;
      p ← get_proc cur;
      onfs (iput (fptr (p_cwd p)));;
      finish;;
      upd_proc (set_cwd (faddr ip)) cur;;
      mret 0
  end.

(** The loop of [sys_exec]: [n] entries of [argv] are left. *)
Fixpoint fetch_args (cur : nat) (n : nat) (uargv : Z) : KM K (option (list (list Z))) :=
  match n with
  | O => mret None
  | Datatypes.S n =>
      uarg ← fetchint cur uargv;
      match uarg with
      | None => mret None
      | Some uarg =>
          if uarg =? 0 then mret (Some []) else
          s ← fetchstr cur (u32 uarg);
          match s with
          | None => mret None
          | Some s => r ← fetch_args cur n (u32 (uargv + 4)); mret (cons s <$> r)
          end
      end
  end.

Definition sys_exec (cur : nat) : KM K Z :=
  path ← argstr cur 0;
  match path with
  | None => mret (-1)
  | Some path =>
      uargv ← argint cur 1;
      match uargv with
      | None => mret (-1)
      | Some uargv =>
          argv ← fetch_args cur MAXARG (u32 uargv);
          match argv with
          | None => mret (-1)
          | Some argv => exec kend kdata devsw cur path argv
          end
      end
  end.

Definition sys_pipe (cur : nat) : KM K Z :=
  fd ← argptr cur 0 8;
  match fd with
  | None => mret (-1)
  | Some fd =>
      a ← onfiles (pipealloc kend);
      match a with
      | None => mret (-1)
      | Some (rf, wf) =>
          fd0 ← fdalloc cur rf;
          fd1 ← (if fd0 <? 0 then mret (-1) else fdalloc cur wf);
          if fd1 <? 0 then
            (if 0 <=? fd0 then set_fd cur (Z.to_nat fd0) 0 else mret tt);;
            onfiles (fileclose kend rf);;
            onfiles (fileclose kend wf);;
            mret (-1)
          else
            uwrite cur fd (le_bytes 4 fd0);;
            uwrite cur (fd + 4) (le_bytes 4 fd1);;
            mret 0
      end
  end.
End sysfile.
