(* ===== verification/SysfileSpec.v ===== *)
(** * Descriptors

    The references to open files are the entries of the descriptor tables.
    [sys_dup] and [sys_pipe] return the lowest free descriptors and keep the
    counts of the file table right, and a [sys_pipe] that fails leaves no
    descriptor, no file, no pipe and no page behind. *)

From stdpp Require Import functions.
From S2P Require Import Prelude CString Mmu Kalloc Vm VmSpec VmUser VmCopyout VmTheorems Sleeplock Bio Log BlockStore Pipe.
From S2P Require Import Fs File FileRefs Proc Kernel KernelSpec Exec Sysfile.

(** ** Writing user memory *)

Section write.
Context {S : Type} (kend : Z).
Abbreviation K := (@kstate S).

(** [t] with the kernel's memory [k]. *)
Definition with_kmem (k : kmem) (t : K) : K :=
  mkptable (set_kmem k (pt_env t)) (pt_proc t) (pt_nextpid t) (pt_initproc t) (pt_ticks t).

Lemma uwrite_spec bs : forall (t : K) cur p l tabs U va, user_ok kend t cur p l tabs U ->
  0 <= va -> va + Z.of_nat (length bs) <= p_sz p ->
  wp (uwrite cur va bs) t (fun _ t' => exists k, t' = with_kmem k t /\ user_ok kend t' cur p l tabs U /\
    forall x, umem (k_mem k) U x = if decide (va <= x < va + Z.of_nat (length bs)) then bs !! Z.to_nat (x - va)
                                   else umem (mem_at t) U x).
Proof.
  induction bs as [|b bs IH]; intros t cur p l tabs U va HU Hva Hl; cbn [uwrite].
  { wp_step. exists (kmem_at t). split; [by destruct t as [[] ? ? ? ?]|]. split; [done|]. intros x. simpl. by rewrite decide_False by lia. }
  simpl length in Hl. pose proof (uo_sz _ _ _ _ _ _ _ HU) as Hsz. destruct (uo_cover _ _ _ _ _ _ _ HU va) as [q Hq]; [lia|].
  wp_step. eapply wp_done; [apply (uaddr_run kend t cur p l tabs U HU va q); [lia|done]|].
  wp_step. unfold onmem, env, inmem. apply wp_zoom, wp_zoom, wp_modify.
  pose proof (Z_div_mod_eq_full va 4096) as Hd. pose proof (Z.mod_pos_bound va 4096) as Hm.
  destruct (put_user kend (kmem_at t) l (p_pgdir p) tabs U (va / 4096) q (va mod 4096) [b]) as (A1 & _ & _ & A4);
    [apply HU|done|lia|simpl; lia|]. simpl store_bytes in *. simpl length in A4.
  set (k1 := set_mem (upd (k_mem (kmem_at t)) (q + va mod 4096) b) (kmem_at t)) in *.
  change (wp (uwrite cur (va + 1) bs) (with_kmem k1 t)
    (fun (_ : unit) t' => exists k, t' = with_kmem k t /\ user_ok kend t' cur p l tabs U /\
    forall x, umem (k_mem k) U x = if decide (va <= x < va + Z.of_nat (Datatypes.S (length bs))) then (b :: bs) !! Z.to_nat (x - va)
                                   else umem (mem_at t) U x)).
  eapply wp_mono; [apply (IH (with_kmem k1 t) cur p l tabs U (va + 1)); [|lia|lia]|].
  - destruct HU as [H1 H2 H3 H4]. by split.
  - intros [] t' (k & -> & HU' & Hx). exists k. split; [done|]. split; [exact HU'|]. intros x. rewrite Hx.
    change (mem_at (with_kmem k1 t)) with (k_mem k1). destruct (decide (va = x)) as [<-|Hne].
    + rewrite decide_False, decide_True by lia. rewrite A4, decide_True by lia. rewrite Z.sub_diag.
      by replace (va - (4096 * (va / 4096) + va mod 4096)) with 0 by lia.
    + destruct (decide (va + 1 <= x < _)) as [Hi|Hi].
      * rewrite decide_True by lia. by replace (Z.to_nat (x - va)) with (Datatypes.S (Z.to_nat (x - (va + 1)))) by lia.
      * rewrite decide_False by lia. by rewrite A4, decide_False by lia.
Qed.
End write.

(** ** Descriptors as references *)

Definition refs_in (f : nat) (l : list Z) : nat := length (filter (fun z => z = faddr f) l).
Definition fd_refs (ps : list proc) (f : nat) : nat := sum_list (refs_in f ∘ p_ofile <$> ps).

Lemma ofile_refs_insert f l fd old z : l !! fd = Some old ->
  (refs_in f (<[fd := z]> l) + (if decide (old = faddr f) then 1 else 0) =
   refs_in f l + (if decide (z = faddr f) then 1 else 0))%nat.
Proof.
  revert fd. induction l as [|y l IH]; intros [|fd] Hl; simplify_eq/=; unfold refs_in in *; cbn [insert list_insert].
  - rewrite !filter_cons. repeat case_decide; simpl; lia.
  - specialize (IH fd Hl). rewrite !filter_cons. destruct (decide (y = faddr f)); simpl; lia.
Qed.
Lemma fd_refs_set ps cur p fd old z f : ps !! cur = Some p -> p_ofile p !! fd = Some old ->
  (fd_refs (alter (fun p => set_ofile (<[fd := z]> (p_ofile p)) p) cur ps) f + (if decide (old = faddr f) then 1 else 0) =
   fd_refs ps f + (if decide (z = faddr f) then 1 else 0))%nat.
Proof.
  revert cur. induction ps as [|q ps IH]; intros [|cur] Hc Ho; simplify_eq/=; unfold fd_refs in *; cbn [alter list_alter fmap list_fmap sum_list].
  - unfold compose. simpl. pose proof (ofile_refs_insert f (p_ofile p) fd old z Ho). lia.
  - specialize (IH cur Hc Ho). lia.
Qed.
Lemma faddr_inj f g : faddr f = faddr g -> f = g.
Proof. unfold faddr. lia. Qed.
Lemma fptr_faddr f : fptr (faddr f) = f.
Proof. unfold fptr, faddr. lia. Qed.
Lemma faddr_pos f : faddr f <> 0.
Proof. unfold faddr. lia. Qed.

Lemma find_fd_Some l : forall i fd, find_fd i l = Some fd ->
  (i <= fd)%nat /\ l !! (fd - i)%nat = Some 0 /\ forall j z, (j < fd - i)%nat -> l !! j = Some z -> z <> 0.
Proof.
  induction l as [|z l IH]; intros i fd; simpl; [done|]. destruct (Z.eqb_spec z 0) as [->|Hz].
  - intros [= <-]. rewrite Nat.sub_diag. split_and!; [lia|done|lia].
  - intros (Hi & Hl & Hj)%IH. replace (fd - i)%nat with (Datatypes.S (fd - Datatypes.S i)) by lia. split_and!; [lia|done|].
    intros [|j] y Hlt Hy; [by injection Hy as <-|]. by eapply (Hj j); [lia|].
Qed.
Lemma find_fd_None l : forall i, find_fd i l = None -> forall j z, l !! j = Some z -> z <> 0.
Proof.
  induction l as [|z l IH]; intros i; simpl; [done|]. destruct (Z.eqb_spec z 0); [done|].
  intros Hn [|j] y Hy; [by injection Hy as <-|]. by eapply IH.
Qed.

(** [fd] is the lowest free descriptor of [p]. *)
Definition lowest_fd (p : proc) (fd : nat) : Prop :=
  p_ofile p !! fd = Some 0 /\ forall j z, (j < fd)%nat -> p_ofile p !! j = Some z -> z <> 0.
Definition no_fd (p : proc) : Prop := forall j z, p_ofile p !! j = Some z -> z <> 0.
Definition put_fd (fd : nat) (z : Z) (p : proc) : proc := set_ofile (<[fd := z]> (p_ofile p)) p.

Section descriptors.
Context {S : Type} `{!BlockStore S} `{!TxOps S} (kend : Z).
Abbreviation K := (@kstate S).

(** The counts of the file table are those of the descriptors. *)
Record kinv (t : K) (cur : nat) (p : proc) : Prop := mk_kinv {
  ki_files : ft_inv kend (pt_env t) (fd_refs (pt_proc t));
  ki_len : length (p_ofile p) = NOFILE;
  ki_ptr : Forall (fun z => 0 <= z) (p_ofile p)
}.

Definition with_procs (ps : list proc) (e : files S) (t : K) : K :=
  mkptable e ps (pt_nextpid t) (pt_initproc t) (pt_ticks t).

Lemma fdalloc_spec (t : K) cur p f (Q : Z -> K -> Prop) : pt_proc t !! cur = Some p ->
  (no_fd p -> Q (-1) t) ->
  (forall fd, lowest_fd p fd -> Q (Z.of_nat fd) (with_procs (alter (put_fd fd (faddr f)) cur (pt_proc t)) (pt_env t) t)) ->
  wp (fdalloc cur f) t Q.
Proof.
  intros Hp HN HS. unfold fdalloc. wp_step. eapply wp_done; [unfold get_proc; by rewrite Hp|].
  destruct (find_fd 0 (p_ofile p)) as [fd|] eqn:E.
  - apply find_fd_Some in E as (_ & E1 & E2). rewrite Nat.sub_0_r in *. unfold set_fd, upd_proc. wp_step. wp_step. wp_step.
    apply HS. by split.
  - wp_step. apply HN. exact (find_fd_None _ _ E).
Qed.

(** The counts after one descriptor changed. *)
Lemma refs_put ps cur p fd f : ps !! cur = Some p -> p_ofile p !! fd = Some 0 ->
  forall g, fd_refs (alter (put_fd fd (faddr f)) cur ps) g = (<[f := Datatypes.S (fd_refs ps f)]> (fd_refs ps)) g.
Proof.
  intros Hp Ho g. pose proof (fd_refs_set ps cur p fd 0 (faddr f) g Hp Ho) as Hr. fold (put_fd fd (faddr f)) in Hr.
  rewrite (decide_False (P := 0 = faddr g)) in Hr by (intros E; by apply (faddr_pos g)).
  destruct (decide (g = f)) as [->|Hn].
  - rewrite fn_lookup_insert. rewrite decide_True in Hr by done. lia.
  - rewrite fn_lookup_insert_ne by done. rewrite decide_False in Hr by (by intros E%faddr_inj). lia.
Qed.

Lemma refs_member ps cur p fd z : ps !! cur = Some p -> p_ofile p !! fd = Some z -> 0 < z -> (0 < fd_refs ps (fptr z))%nat.
Proof.
  intros Hp Ho Hz. pose proof (fd_refs_set ps cur p fd z 0 (fptr z) Hp Ho) as Hr.
  assert (faddr (fptr z) = z) as E by (unfold faddr, fptr; lia). rewrite E in Hr.
  rewrite decide_True, decide_False in Hr by lia. lia.
Qed.

(** The file of an open descriptor given as argument [n]. *)
Definition arg_file (t : K) (p : proc) (U : gmap Z Z) (n : Z) : option (nat * nat) :=
  a ← argword t p U n;
  if decide (0 <= a < Z.of_nat NOFILE) then
    z ← p_ofile p !! Z.to_nat a;
    if decide (z = 0) then None else Some (Z.to_nat a, fptr z)
  else None.

Lemma argfd_run (t : K) cur p l tabs U n : user_ok kend t cur p l tabs U -> length (p_ofile p) = NOFILE ->
  argfd cur n t = Done (prod_map Z.of_nat id <$> arg_file t p U n) t.
Proof.
  intros HU Hl. unfold argfd, mbind at 1, km_bind at 1. rewrite (argint_run kend t cur p l tabs U HU n).
  unfold arg_file. destruct (argword t p U n) as [a|]; [|done].
  cbn [mbind option_bind]. change (Z.of_nat NOFILE) with 16.
  destruct (Z.ltb_spec a 0); cbn [orb]; [by rewrite decide_False by lia|].
  destruct (Z.leb_spec 16 a); [by rewrite decide_False by lia|].
  rewrite decide_True by lia. unfold mbind, km_bind. rewrite (get_proc_run kend t cur p l tabs U HU).
  destruct (lookup_lt_is_Some_2 (p_ofile p) (Z.to_nat a)) as [z Hz]; [unfold NOFILE in Hl; lia|]. rewrite Hz. simpl.
  destruct (Z.eqb_spec z 0); [by rewrite decide_True|]. rewrite decide_False by done. simpl. by rewrite Z2Nat.id by lia.
Qed.

Lemma arg_file_spec (t : K) p U n fd f : arg_file t p U n = Some (fd, f) -> Forall (fun z => 0 <= z) (p_ofile p) ->
  exists z, p_ofile p !! fd = Some z /\ f = fptr z /\ 0 < z.
Proof.
  unfold arg_file. intros (a & Ha & E)%bind_Some Hf. case_decide; [|done]. apply bind_Some in E as (z & Hz & E).
  case_decide; [done|]. injection E as <- <-. exists z. split_and!; [done|done|].
  rewrite Forall_forall in Hf. pose proof (Hf z ltac:(by eapply list_elem_of_lookup_2)). lia.
Qed.
End descriptors.

(** [sys_dup] duplicates a descriptor: with an open descriptor as argument
    and a free entry, it returns the lowest free descriptor, which now refers
    to the same file; otherwise it returns -1 and changes nothing.  The
    references of the file table stay those of the descriptors. *)
Theorem sys_dup_correct {S} `{!BlockStore S} `{!TxOps S} kend (t : @kstate S) cur p l tabs U :
  user_ok kend t cur p l tabs U -> kinv kend t cur p -> (forall f, Z.of_nat (fd_refs (pt_proc t) f) < 2 ^ 31 - 1) ->
  wp (sys_dup cur) t (fun r t' =>
    (r = -1 /\ t' = t /\ (arg_file t p U 0 = None \/ no_fd p)) \/
    (exists fd a f, r = Z.of_nat fd /\ lowest_fd p fd /\ arg_file t p U 0 = Some (a, f) /\
       pt_proc t' = alter (put_fd fd (faddr f)) cur (pt_proc t) /\
       ft_inv kend (pt_env t') (fd_refs (pt_proc t')))).
Proof.
  intros HU [I Hl Hp] Hb. unfold sys_dup. wp_step. eapply wp_done; [by eapply argfd_run|].
  destruct (arg_file t p U 0) as [[a f]|] eqn:E; simpl; [|wp_step; left; auto].
  destruct (arg_file_spec t p U 0 a f E Hp) as (z & Hz & -> & Hzp).
  wp_step. eapply (fdalloc_spec t cur p); [apply HU| |].
  - intros Hn. simpl. wp_step. left. auto.
  - intros fd Hfd. rewrite (proj2 (Z.ltb_ge _ _)) by lia. wp_step. apply wp_zoom. simpl.
    pose proof (refs_member _ cur p a z (uo_proc _ _ _ _ _ _ _ HU) Hz Hzp) as Hm.
    eapply wp_mono; [by apply (filedup_spec kend _ (fd_refs (pt_proc t)))|]. intros _ e [_ I']. wp_step. right.
    exists fd, a, (fptr z). split_and!; try done. simpl.
    eapply ft_inv_ext; [|exact I']. eapply refs_put; [apply HU|apply Hfd].
Qed.

(** ** Pipes *)

Section pipes.
Context {S : Type} `{!BlockStore S} `{!TxOps S} (kend : Z) (kend_pos : 0 < kend).
Abbreviation K := (@kstate S).

Lemma ft_inv_kmem (e : files S) h k l : ft_inv kend e h -> kmem_ok kend (fi_kmem e) l -> kmem_ok kend k l ->
  ft_inv kend (set_kmem k e) h.
Proof.
  intros [R P (l0 & H0 & Hp)] Hl Hk. split; [done|done|]. rewrite <- (kmem_ok_unique _ _ _ _ H0 Hl) in Hk. by exists l0.
Qed.

(** Another state of the memory that keeps the pages of the address space. *)
Lemma user_frame (t : K) cur p l tabs U e ps p' l' : user_ok kend t cur p l tabs U -> ps !! cur = Some p' ->
  p_pgdir p' = p_pgdir p -> p_sz p' = p_sz p -> kmem_ok kend (fi_kmem e) l' -> (forall v, v ∈ l' -> v ∈ l) ->
  (forall q, q ∈ pages_of (p_pgdir p) tabs U -> same_on q (mem_at t) (k_mem (fi_kmem e))) ->
  user_ok kend (with_procs ps e t) cur p' l' tabs U /\
  forall x, umem (k_mem (fi_kmem e)) U x = umem (mem_at t) U x.
Proof.
  intros [Hp Ha Hs Hc] Hp' Ed Es Hk Hl Hm. pose proof (aspace_sep _ _ _ _ _ _ Ha) as (Hg & _). split.
  - split; [done| |by rewrite Es|by rewrite Es]. rewrite Ed. eapply aspace_frame; [exact Ha|exact Hk| |].
    + intros q [_ Hq]%Hg Hq'. by apply Hq, Hl.
    + intros q Hq. apply Hm. unfold pages_of. set_solver.
  - intros x. apply umem_frame. intros q Hq. apply Hm. unfold pages_of. set_solver.
Qed.

(** A call that fails leaves the process, its memory and the files as they were. *)
Definition same_world (t t' : K) cur p l tabs U : Prop :=
  user_ok kend t' cur p l tabs U /\ (forall x, umem (mem_at t') U x = umem (mem_at t) U x) /\
  pt_proc t' = pt_proc t /\ fi_fs (pt_env t') = fi_fs (pt_env t) /\ fi_pipes (pt_env t') = fi_pipes (pt_env t) /\
  ft_inv kend (pt_env t') (fd_refs (pt_proc t)).

(** Closing a new pipe whose ends found no descriptors. *)
Lemma undo_spec (t : K) cur p l tabs U e rf wf q x0 x1 data k l1 : user_ok kend t cur p l tabs U ->
  new_pipe kend (pt_env t) e rf wf q x0 x1 data k l1 -> rf <> wf ->
  fd_refs (pt_proc t) rf = 0%nat -> fd_refs (pt_proc t) wf = 0%nat ->
  ft_inv kend e (<[wf := 1%nat]> (<[rf := 1%nat]> (fd_refs (pt_proc t)))) ->
  wp (onfiles (fileclose kend rf);; onfiles (fileclose kend wf);; mret (-1)) (with_procs (pt_proc t) e t)
    (fun r t' => r = -1 /\ same_world t t' cur p l tabs U).
Proof.
  intros HU N Hne H0 H1 I. wp_step. apply wp_zoom. pose proof N as (_ & _ & _ & _ & Hk & _ & _ & Hg).
  pose proof (kmem_ok_unique _ _ _ _ (vs_kmem _ _ _ _ _ (as_v _ _ _ _ _ _ (uo_space _ _ _ _ _ _ _ HU))) Hk) as ->.
  eapply wp_mono; [exact (undo_pipe kend _ _ _ _ _ _ _ _ _ _ _ N Hne H0 H1 I)|].
  intros [] e1 H. wp_step. apply wp_zoom. eapply wp_mono; [exact H|]. intros [] e2 (I2 & T' & k' & -> & Hk' & Hm).
  wp_step. split; [done|]. pose proof (aspace_sep _ _ _ _ _ _ (uo_space _ _ _ _ _ _ _ HU)) as (Hgl & _).
  destruct (user_frame t cur p _ tabs U (mkfiles (fi_fs (pt_env t)) T' k' (fi_pipes (pt_env t)) (fi_killed (pt_env t)))
    (pt_proc t) p _ HU (uo_proc _ _ _ _ _ _ _ HU) eq_refl eq_refl Hk') as [HU' Hu]; [done| |by split_and!].
  intros v [Hgv Hv]%Hgl x Hx. apply Hm. intros Hx'. apply Hv. rewrite (pages_disjoint kend v q x Hgv Hg Hx Hx'). by left.
Qed.

(** The ends of a new pipe as descriptors. *)
Lemma refs_pair ps cur p fd0 fd1 rf wf : ps !! cur = Some p -> lowest_fd p fd0 -> lowest_fd (put_fd fd0 (faddr rf) p) fd1 -> rf <> wf ->
  fd_refs ps rf = 0%nat -> fd_refs ps wf = 0%nat -> forall g,
  fd_refs (alter (put_fd fd1 (faddr wf)) cur (alter (put_fd fd0 (faddr rf)) cur ps)) g = (<[wf := 1%nat]> (<[rf := 1%nat]> (fd_refs ps))) g.
Proof.
  intros Hp [L0 _] [L1 _] Hne H0 H1 g.
  rewrite (refs_put _ cur (put_fd fd0 (faddr rf) p) fd1 wf); [|by rewrite list_lookup_alter_eq, Hp|done].
  pose proof (refs_put ps cur p fd0 rf Hp L0) as R. destruct (decide (g = wf)) as [->|].
  - rewrite !fn_lookup_insert, R, fn_lookup_insert_ne by done. by rewrite H1.
  - rewrite !(fn_lookup_insert_ne _ wf g), R by done. by rewrite H0.
Qed.
Lemma unput_fd fd z p : p_ofile p !! fd = Some 0 -> set_ofile (<[fd := 0]> (p_ofile (put_fd fd z p))) (put_fd fd z p) = p.
Proof. intros H. unfold put_fd. destruct p; simpl in *. by rewrite list_insert_insert_eq, list_insert_id. Qed.
Lemma undo_fd (ps : list proc) (cur : nat) p fd z : ps !! cur = Some p -> p_ofile p !! fd = Some 0 ->
  alter (fun p => set_ofile (<[fd := 0]> (p_ofile p)) p) cur (alter (put_fd fd z) cur ps) = ps.
Proof.
  intros Hp Ho. rewrite (alter_insert _ ps cur p Hp). erewrite alter_insert; [|apply list_lookup_insert_eq; by eapply lookup_lt_Some].
  by rewrite list_insert_insert_eq, unput_fd, list_insert_id.
Qed.

Lemma put_pair_spec (t : K) cur p l tabs U a x y : user_ok kend t cur p l tabs U -> 0 <= a -> a + 8 <= p_sz p ->
  wp (uwrite cur a (le_bytes 4 x);; uwrite cur (a + 4) (le_bytes 4 y);; mret 0) t (fun r t' => r = 0 /\ exists k,
    t' = with_kmem k t /\ user_ok kend t' cur p l tabs U /\
    forall v, umem (k_mem k) U v =
      if decide (a <= v < a + 4) then le_bytes 4 x !! Z.to_nat (v - a)
      else if decide (a + 4 <= v < a + 8) then le_bytes 4 y !! Z.to_nat (v - (a + 4)) else umem (mem_at t) U v).
Proof.
  intros HU Ha Hs. assert (Hl : forall z, length (le_bytes 4 z) = 4%nat) by (intros; apply length_le_bytes).
  wp_step. eapply wp_mono; [apply (uwrite_spec kend _ t cur p l tabs U a HU); rewrite ?Hl; lia|]. intros _ t1 (k1 & -> & HU1 & M1).
  wp_step. eapply wp_mono; [apply (uwrite_spec kend _ _ cur p l tabs U (a + 4) HU1); rewrite ?Hl; lia|]. intros _ t2 (k2 & -> & HU2 & M2).
  wp_step. split; [done|]. exists k2. split_and!; [done|exact HU2|]. intros v. rewrite M2. change (mem_at (with_kmem k1 t)) with (k_mem k1).
  rewrite M1, !Hl. change (Z.of_nat 4) with 4. repeat case_decide; try done; lia.
Qed.
End pipes.

(** C34.  [sys_pipe] is all or nothing. It returns 0 or -1. When it returns 0
    the two lowest free descriptors are the read and the write end of a new
    pipe, and their numbers are the two words at the argument's address. When it
    returns -1, whichever of its tests failed, the descriptors, the pipes, the
    list of free pages and the user memory are those of before. In both cases
    the references of the file table are those of the descriptors. *)
Theorem sys_pipe_all_or_nothing {S} `{!BlockStore S} `{!TxOps S} kend (t : @kstate S) cur p l tabs U :
  0 < kend -> user_ok kend t cur p l tabs U -> kinv kend t cur p ->
  wp (sys_pipe kend cur) t (fun r t' =>
    (r = -1 /\ same_world kend t t' cur p l tabs U) \/
    (exists a w fd0 fd1 rf wf q l', r = 0 /\ argword t p U 0 = Some w /\ a = u32 w /\ l = q :: l' /\
       lowest_fd p fd0 /\ lowest_fd (put_fd fd0 (faddr rf) p) fd1 /\
       pt_proc t' = alter (put_fd fd1 (faddr wf)) cur (alter (put_fd fd0 (faddr rf)) cur (pt_proc t)) /\
       pipe_end (fi_table (pt_env t')) q 0 rf /\ pipe_end (fi_table (pt_env t')) q 1 wf /\
       user_ok kend t' cur (put_fd fd1 (faddr wf) (put_fd fd0 (faddr rf) p)) l' tabs U /\
       ft_inv kend (pt_env t') (fd_refs (pt_proc t')) /\
       forall x, umem (mem_at t') U x =
         if decide (a <= x < a + 4) then le_bytes 4 (Z.of_nat fd0) !! Z.to_nat (x - a)
         else if decide (a + 4 <= x < a + 8) then le_bytes 4 (Z.of_nat fd1) !! Z.to_nat (x - (a + 4))
         else umem (mem_at t) U x)).
Proof.
  intros Hkp HU [I Hl Hp]. unfold sys_pipe. wp_step.
  eapply wp_done; [by apply (argptr_run kend t cur p l tabs U HU 0 8)|].
  assert (HS : same_world kend t t cur p l tabs U) by (by split_and!).
  destruct (argword t p U 0) as [w|] eqn:Ew; [|wp_step; by left]. case_decide as Hd; [|wp_step; by left].
  wp_step. apply wp_zoom. eapply wp_mono; [by apply pipealloc_spec|]. intros [[rf wf]|] e.
  2:{ intros (I' & k & -> & Em & Hk). wp_step. left. split; [done|].
      destruct (user_frame kend Hkp t cur p l tabs U (set_kmem k (pt_env t)) (pt_proc t) p l HU) as [HU' Hu]; 
        [apply HU|done|done|apply Hk, (as_v _ _ _ _ _ _ (uo_space _ _ _ _ _ _ _ HU))|done|by intros q _ x _; simpl; rewrite Em|by split_and!]. }
  intros (H0 & H1 & Hne & I1 & q & x0 & x1 & data & k & l' & N). pose proof (uo_proc _ _ _ _ _ _ _ HU) as Hc.
  assert (Hab := undo_spec kend Hkp t cur p l tabs U e rf wf q x0 x1 data k l' HU N Hne H0 H1 I1).
  wp_step. apply (fdalloc_spec _ cur p rf); [done| |].
  { intros Hn. wp_step. cbn [Z.ltb Z.compare]. wp_step. cbn [Z.ltb Z.leb Z.compare]. wp_step. wp_step.
    eapply wp_mono; [exact Hab|]. intros; by left. }
  intros fd0 L0. rewrite (proj2 (Z.ltb_ge _ 0)) by lia. wp_step. set (t1 := with_procs _ _ _).
  assert (Hc1 : pt_proc t1 !! cur = Some (put_fd fd0 (faddr rf) p)) by (unfold t1; simpl; by rewrite list_lookup_alter_eq, Hc).
  apply (fdalloc_spec t1 cur _ wf _ Hc1).
  { intros _. cbn [Z.ltb Z.compare]. rewrite (proj2 (Z.leb_le 0 _)) by lia. wp_step. unfold set_fd, upd_proc. wp_step.
    rewrite Nat2Z.id. unfold t1. simpl. rewrite (undo_fd _ _ p) by (done || apply L0).
    eapply wp_mono; [exact Hab|]. intros; by left. }
  intros fd1 L1. rewrite (proj2 (Z.ltb_ge _ 0)) by lia. set (t2 := with_procs _ _ t1). pose proof (u32_range w) as Hw.
  pose proof N as (Ee & T0 & T1 & _ & Hk & Hk' & Em & _).
  pose proof (kmem_ok_unique _ _ _ _ (vs_kmem _ _ _ _ _ (as_v _ _ _ _ _ _ (uo_space _ _ _ _ _ _ _ HU))) Hk) as ->.
  assert (Ek : fi_kmem e = k) by (by rewrite Ee).
  destruct (user_frame kend Hkp t cur p _ tabs U e (pt_proc t2) (put_fd fd1 (faddr wf) (put_fd fd0 (faddr rf) p)) l' HU) as [HU2 M2];
    [change (pt_proc t2) with (alter (put_fd fd1 (faddr wf)) cur (pt_proc t1)); by rewrite list_lookup_alter_eq, Hc1|done|done|by rewrite Ek|by right|by intros ? _ ? _; rewrite Ek, Em|].
  eapply wp_mono; [apply (put_pair_spec kend t2 cur (put_fd fd1 (faddr wf) (put_fd fd0 (faddr rf) p)) l' tabs U (u32 w)); [exact HU2|lia|exact (proj2 (proj2 Hd))]|].
  intros r t' (-> & k' & -> & HU3 & M3). right. exists (u32 w), w, fd0, fd1, rf, wf, q, l'. split_and!; try done.
  - simpl. rewrite Ee. simpl. eexists. rewrite list_lookup_insert_ne by done. split; [apply list_lookup_insert_eq; by eapply lookup_lt_Some|done].
  - simpl. rewrite Ee. simpl. eexists. split; [apply list_lookup_insert_eq; rewrite length_insert; by eapply lookup_lt_Some|done].
  - simpl. apply (ft_inv_kmem kend _ _ _ l'); [|by rewrite Ek|exact (vs_kmem _ _ _ _ _ (as_v _ _ _ _ _ _ (uo_space _ _ _ _ _ _ _ HU3)))].
    eapply ft_inv_ext; [|exact I1]. by apply (refs_pair _ cur p).
  - intros x. change (mem_at (with_kmem k' t2)) with (k_mem k'). rewrite M3.
    change (mem_at t2) with (k_mem (fi_kmem e)). by rewrite M2.
Qed.

(** ** A process with no files *)

Lemma no_refs f d : fd_refs [demo_proc d] f = 0%nat.
Proof.
  change (refs_in f (replicate NOFILE 0%Z) + 0 = 0)%nat. rewrite Nat.add_0_r. unfold refs_in.
  induction NOFILE as [|n IH]; [done|]. simpl replicate. rewrite filter_cons_False; [done|]. intros E. by apply (faddr_pos f).
Qed.
Lemma demo_kinv s d l tabs U : user_ok demo_end (demo_kernel s d) 0 (demo_proc d) l tabs U ->
  kinv demo_end (demo_kernel s d) 0 (demo_proc d).
Proof.
  intros H. split; [|done|by repeat constructor].
  eapply ft_inv_ext; [|exact (files_reachable_inv demo_end eq_refl (fun _ => mkdevops None None) _
    (reach_start _ _ (pt_env (demo_kernel s d)) l eq_refl eq_refl (vs_kmem _ _ _ _ _ (as_v _ _ _ _ _ _ (uo_space _ _ _ _ _ _ _ H)))))].
  intros f. exact (no_refs f d).
Qed.

Lemma sys_dup_correct_witness : exists (t : @kstate tview) r t', sys_dup 0 t = Done r t'.
Proof.
  destruct (demo_user_ok 10) as (s & l & d & tabs & U & H & _); [lia|].
  destruct (wp_inv _ _ _ (sys_dup_correct demo_end (demo_kernel s d) 0 (demo_proc d) l tabs U H (demo_kinv _ _ _ _ _ H) ltac:(intros f; simpl; rewrite no_refs; lia))) as (r & t' & E & _).
  by exists (demo_kernel s d), r, t'.
Defined.
Lemma sys_pipe_all_or_nothing_witness : exists (t : @kstate tview) r t', sys_pipe demo_end 0 t = Done r t' /\ (r = -1 \/ r = 0).
Proof.
  destruct (demo_user_ok 10) as (s & l & d & tabs & U & H & _); [lia|].
  destruct (wp_inv _ _ _ (sys_pipe_all_or_nothing demo_end (demo_kernel s d) 0 (demo_proc d) l tabs U eq_refl H (demo_kinv _ _ _ _ _ H)))
    as (r & t' & E & [[-> _]|(? & ? & ? & ? & ? & ? & ? & ? & -> & _)]); exists (demo_kernel s d); eexists _, t'; eauto.
Defined.
