(* ===== verification/SysfileCreate.v ===== *)
(** * Making a file: [create] of [sysfile.c]

    [create] looks up the directory of a path, and finds the name there or makes
    a file and links it: [create_correct] has every branch.  The new path leads
    to the new file, every other path to what it led to, and the file system
    is consistent. *)

From S2P Require Import Prelude CString Mmu Kalloc Vm Sleeplock Bio Log LogSpec BlockStore Pipe Fs File Proc Kernel Exec Sysfile.
From S2P Require Import FsBlocks FsInode FsFile FsWrite FsDemo FsIcache FsFree FsCheck FsDir FsPath FsNames FsTree.

#[local] Opaque BLK.

(** The file system of the kernel. *)
Definition fs_of {S} (t : @kstate S) : fs S := fi_fs (pt_env t).
Definition put_fs {S} (s : fs S) (t : @kstate S) : @kstate S :=
  mkptable (set_fs s (pt_env t)) (pt_proc t) (pt_nextpid t) (pt_initproc t) (pt_ticks t).
Lemma put_fs_put {S} (s s' : fs S) (t : @kstate S) : put_fs s' (put_fs s t) = put_fs s' t.
Proof. done. Qed.
Lemma put_fs_self {S} (t : @kstate S) : put_fs (fs_of t) t = t.
Proof. by destruct t as [[] ? ? ? ?]. Qed.
Lemma wp_onfs {S A} (m : KM (fs S) A) (t : @kstate S) (Q : A -> @kstate S -> Prop) : wp m (fs_of t) (fun a s' => Q a (put_fs s' t)) -> wp (onfs m) t Q.
Proof. intros Hm. apply wp_zoom, wp_zoom. exact Hm. Qed.

(** ** What the callers see *)

(** No inode is locked, and the references are those of [s]. *)
Record idle {S} `{TxStore S} (s : fs S) (v : tview) (sb : superblock) (s' : fs S) : Prop := mk_idle {
  id_fs : mounted s' v sb;
  id_refs : forall k, refs (f_icache s') k = refs (f_icache s) k;
  id_locks : unlocked (f_icache s')
}.
(** The inode [i], which is [x], is locked, with one reference more. *)
Record holds {S} `{TxStore S} (s : fs S) (v : tview) (sb : superblock) (ip : nat) (i : Z) (x : dinode) (s' : fs S) : Prop := mk_holds {
  ho_fs : mounted s' v sb;
  ho_ip : exists X, loaded s' ip X /\ i_inum X = i /\ i_din X = x /\ sl_locked (i_lock X) = true;
  ho_refs : forall k, refs (f_icache s') k = refs (f_icache s) k + (if k =? i then 1 else 0);
  ho_locks : forall k Y, k <> ip -> f_icache s' !! k = Some Y -> i_lock Y = initsleeplock
}.

Section create.
Context {S : Type} `{TxStore S} (devsw : Z -> devops S).
Context (s : fs S) (v : tview) (sb : superblock) (C : inode).
Hypothesis (P : path_pre s v sb C) (M : mounted s v sb).

Abbreviation R := (refs (f_icache s)).
Abbreviation B := (live (f_icache s)).
Abbreviation at_inode := (@at_inode S _ _ v sb (f_pid s) (f_cwd s) R B).
Abbreviation current := (@current S _ _ v sb (f_pid s) (f_cwd s) R B).

Lemma refs_nonneg j : 0 <= R j.
Proof. apply refs_pos, P. Qed.
Lemma refs_live j : R j <> 0 -> j ∈ B.
Proof. intros Hj. by apply (refs_pos (f_icache s) j (ic_ref _ _ _ (pp_ok _ _ _ _ P))). Qed.

(** Between two steps of a walk the file system is in use. *)
Lemma at_mounted s' i : at_inode s' i -> (forall j, i = Some j -> exists x, inode_at v sb j x) -> mounted s' v sb.
Proof.
  intros [A1 A2 A3 A4 A5 A6 A7] Hi. destruct M as [M1 M2 M3 M4 M5 M6 M7 M8]. split; try done. intros j Hj. apply (refs_pos _ j (ic_ref _ _ _ A4)) in Hj. rewrite A6 in Hj.
  destruct (decide (R j = 0)) as [E|Hn]; [|by apply M8, refs_live]. rewrite E in Hj. case_bool_decide; [by apply Hi|lia].
Qed.
Lemma at_idle s' : at_inode s' None -> idle s v sb s'.
Proof. intros A. split; [by apply (at_mounted s' None)|intros k; rewrite (ai_refs _ _ _ _ _ _ _ _ A); rewrite bool_decide_false by done; lia|apply A]. Qed.

(** The directory [namex] found, as the current inode. *)
Lemma found_current d r s' : found s v sb (Some d) r s' -> (exists x, inode_at v sb d x /\ (R d <> 0 \/ d_nlink x <> 0)) ->
  exists dp Y x, r = Some dp /\ inode_at v sb d x /\ i_inum Y = d /\ current s' dp Y x.
Proof.
  intros [F1 [F2 [F3 F4]] F5 F6 F7 F8 (dp & Y & -> & HY & EY & Hr)] (x & Hx & Hk). exists dp, Y, x. split_and!; [done|done|done|].
  split; [|done|done|rewrite EY; apply Hx|apply Hx|by rewrite EY]. split; try done; [by rewrite F2; apply P|]. intros j. by rewrite F7, EY.
Qed.
Lemma found_none r s' : found s v sb None r s' -> r = None /\ at_inode s' None.
Proof. intros [F1 [F2 [F3 F4]] F5 F6 F7 F8 F9]. split; [done|]. split; try done. rewrite F2. apply P. Qed.

Lemma path_ready : ready v 2 0.
Proof. repeat split; [apply P|rewrite (pp_held _ _ _ _ P), size_empty; lia|pose proof (pp_log _ _ _ _ P); lia]. Qed.
Lemma current_at s1 ip X x : current s1 ip X x -> inode_at v sb (i_inum X) x.
Proof. intros [A1 A2 A3 A4 A5 _]. split; [by apply (ic_inode _ _ _ (ai_ok _ _ _ _ _ _ _ _ A1) ip X)|done]. Qed.
Lemma current_mounted s1 ip X x : current s1 ip X x -> mounted s1 v sb.
Proof. intros Cu. apply (at_mounted s1 (Some (i_inum X))); [apply Cu|]. intros j [= <-]. exists x. by apply (current_at s1 ip). Qed.

(** The cache has room for one more inode. *)
Lemma current_room s1 ip X x t : current s1 ip X x -> let s2 := lock_at (f_pid s) s1 ip X x t in (size (live (f_icache s2)) < length (f_icache s2))%nat.
Proof.
  intros Cu. destruct (lock_at_ok v sb (f_pid s) (f_cwd s) R B s1 ip X x t Cu) as (K1 & K2 & K3 & K4). pose proof (cu_at _ _ _ _ _ _ _ _ _ _ Cu) as A. cbv zeta. rewrite K4.
  pose proof (ai_room _ _ _ _ _ _ _ _ A). apply Nat.le_lt_trans with (size B + 1)%nat; [|lia]. apply (live_bound v sb R B refs_live _ (i_inum X) K1). intros j. by rewrite K2, (ai_refs _ _ _ _ _ _ _ _ A).
Qed.

(** The current inode, locked. *)
Lemma lock_holds s1 ip X x t : current s1 ip X x -> tx_at t v -> holds s v sb ip (i_inum X) x (lock_at (f_pid s) s1 ip X x t).
Proof.
  intros Cu Ht. destruct (lock_at_ok v sb (f_pid s) (f_cwd s) R B s1 ip X x t Cu) as (H1 & H2 & H3 & H4). split.
  - apply (mounted_cache (set_store t s1) v sb); [apply mounted_store; [by apply (current_mounted s1 ip X x)|done]|done|]. intros j. by rewrite H2.
  - exists (locked X (f_pid s) x). split; [|done]. split; [done|]. split; [apply Cu|done].
  - intros k. rewrite H2, (ai_refs _ _ _ _ _ _ _ _ (cu_at _ _ _ _ _ _ _ _ _ _ Cu)). destruct (Z.eqb_spec k (i_inum X)); case_bool_decide; (done || congruence).
  - intros k Z Hk HZ. cbn [lock_at f_icache set_icache] in HZ. rewrite list_lookup_insert_ne in HZ by done. by apply (Forall_lookup_1 _ _ _ _ (ai_locks _ _ _ _ _ _ _ _ (cu_at _ _ _ _ _ _ _ _ _ _ Cu)) HZ).
Qed.

(** The name is in the directory: its inode is taken, and given back if it is
    not the kind of file asked for. *)
Lemma create_old_spec (t : @kstate S) s1 dp Y x t1 i y ip l2 type (Q : option nat -> @kstate S -> Prop) : current s1 dp Y x -> tx_at t1 v ->
  got v sb (f_icache (lock_at (f_pid s) s1 dp Y x t1)) i ip l2 -> disk_inode v sb i = Some y -> d_type y <> 0 -> d_nlink y <> 0 ->
  (forall s', if (type =? T_FILE) && (d_type y =? T_FILE) then holds s v sb ip i y s' -> Q (Some ip) (put_fs s' t) else idle s v sb s' -> Q None (put_fs s' t)) ->
  wp (create_old dp ip type) (put_fs (set_icache l2 (lock_at (f_pid s) s1 dp Y x t1)) t) Q.
Proof.
  intros Cu Ht1 G Hy Hty Hnl HQ. pose proof (pp_log _ _ _ _ P) as Hlg. unfold create_old. wp_step. apply wp_onfs.
  eapply (next_spec v sb (f_pid s) (f_cwd s) Hlg R B refs_nonneg s1 dp Y x t1 i y ip l2); [done..|]. intros s2 X2 C2 E2. rewrite put_fs_put. wp_step. apply wp_onfs.
  eapply (current_lock v sb (f_pid s) (f_cwd s) (pp_inv _ _ _ _ P) path_ready (pp_held _ _ _ _ P) R B); [exact C2|]. intros t2 Ht2. rewrite put_fs_put.
  destruct (lock_at_ok v sb (f_pid s) (f_cwd s) R B s2 ip X2 y t2 C2) as (_ & _ & H3 & _). wp_step. apply wp_onfs. eapply wp_get_ip; [exact H3|]. rewrite put_fs_put.
  change (i_type (locked X2 (f_pid s) y)) with (d_type y). specialize (HQ (lock_at (f_pid s) s2 ip X2 y t2)) as HQ1. destruct ((type =? T_FILE) && (d_type y =? T_FILE)).
  - wp_step. apply HQ1. rewrite <- E2. by apply lock_holds.
  - wp_step. apply wp_onfs. eapply (leave_spec v sb (f_pid s) (f_cwd s) Hlg R B refs_nonneg); [done|done|]. intros s3 A3. rewrite put_fs_put. wp_step. apply HQ. by apply at_idle.
Qed.

(** The entry of the new inode [j] in the cache: another one than the
    directory's, and unlocked. *)
Lemma new_entry s2 dp d x j ip v3 l3 : holds s v sb dp d x s2 -> got v3 sb (f_icache s2) j ip l3 -> j <> d ->
  ip <> dp /\ exists X, l3 !! ip = Some X /\ i_inum X = j /\ 0 < i_ref X /\ i_lock X = initsleeplock.
Proof.
  intros Hh G Hn. destruct (ho_ip _ _ _ _ _ _ _ Hh) as (Y & (HY & HrY & _) & EY & _). destruct (got_at _ _ _ _ _ _ G) as (X0 & X & H0 & HX & Ei & _ & Hr & Hlk & _ & Hsame).
  assert (Hne : ip <> dp) by (intros ->; rewrite HY in H0; injection H0 as <-; rewrite (Hsame HrY) in EY; done).
  split; [done|]. exists X. split_and!; [done|done|done|]. rewrite Hlk. by apply (ho_locks _ _ _ _ _ _ _ Hh ip).
Qed.

(** The inode [create] makes. *)
Definition node (type major minor : Z) : dinode := mkdinode type (i16 major) (i16 minor) 1 0 (replicate 13 0).
Definition anode (type major minor : Z) : afile := mkafile type (i16 major) (i16 minor) 1 [].

(** A new inode [j], in the entry [ip], locked; the directory's entry [dp] is
    locked as before. *)
Record fresh (s2 : fs S) (dp ip : nat) (j : Z) (type major minor : Z) (v5 : tview) (s5 : fs S) : Prop := mk_fresh {
  fr_fs : mounted s5 v5 sb;
  fr_ne : ip <> dp;
  fr_ip : exists X, loaded s5 ip X /\ i_inum X = j /\ i_din X = node type major minor /\ sl_locked (i_lock X) = true;
  fr_dp : f_icache s5 !! dp = f_icache s2 !! dp;
  fr_locks : forall k Y, k <> ip -> k <> dp -> f_icache s5 !! k = Some Y -> i_lock Y = initsleeplock;
  fr_refs : forall k, refs (f_icache s5) k = refs (f_icache s2) k + (if k =? j then 1 else 0);
  fr_range : 1 <= j < sb_ninodes sb;
  fr_free : exists y, disk_inode v sb j = Some y /\ d_type y = 0;
  fr_new : disk_inode v5 sb j = Some (node type major minor);
  fr_other : forall i, 0 <= i < sb_ninodes sb -> i <> j -> disk_inode v5 sb i = disk_inode v sb i;
  fr_entries : forall i y, inode_at v sb i y -> inode_at v5 sb i y /\ entries v5 y = entries v y;
  fr_room : room v5 sb 3;
  fr_blocks : free_blocks v5 sb = free_blocks v sb;
  fr_afs : afs v5 sb = <[j := anode type major minor]> (afs v sb)
}.

Lemma new_node_spec (t : @kstate S) s2 dp d x type major minor (k : nat -> KM (@kstate S) (option nat)) (Q : option nat -> @kstate S -> Prop) :
  holds s v sb dp d x s2 -> inode_at v sb d x -> short type -> type <> 0 -> room v sb 4 -> (size (live (f_icache s2)) < length (f_icache s2))%nat ->
  (exists j, 1 <= j < sb_ninodes sb /\ afs v sb !! j = None) ->
  (forall ip j v5 s5, fresh s2 dp ip j type major minor v5 s5 -> wp (k ip) (put_fs s5 t) Q) ->
  wp (ip ← onfs (ialloc ROOTDEV type);
      onfs (ilock ip);;
      onfs (upd_ip ip (fun x => set_din (din_nlink 1 (din_dev (i16 major) (i16 minor) (i_din x))) x));;
      onfs (iupdate ip);;
      k ip) (put_fs s2 t) Q.
Proof.
  intros Hh Hx Hty Ht0 Hroom Hlive Hex HQ. wp_step. apply wp_onfs. pose proof (ho_fs _ _ _ _ _ _ _ Hh) as M2.
  eapply (ialloc_mounted s2 v sb M2 type); [done|done|unfold room in *; lia|done|done|]. intros j ip t3 v3 l3 s3 M3 Hj Hf Hlow Hp3 (y0 & Hy0 & Hyt & G3) Hg3 Hj0 E3. rewrite put_fs_put.
  assert (Hjd : j <> d) by (intros ->; destruct Hx as (_ & Hx & Hxt); rewrite Hx in Hy0; by simplify_eq).
  destruct (new_entry s2 dp d x j ip v3 l3 Hh Hg3 Hjd) as (Hne & X3 & HX3 & Ei & Hr3 & Hl3).
  wp_step. apply wp_onfs. eapply (ilock_mounted s3 v3 sb M3 ip X3); [done|done|done|]. intros t4 x4 Ht4 Hx4 s4 M4 L4 Hrefs4. rewrite put_fs_put.
  assert (x4 = new_inode type) as -> by (rewrite Ei in Hx4; destruct Hx4 as (_ & Hx4 & _); rewrite (ip_here _ _ _ _ _ Hp3) in Hx4; congruence).
  wp_step. apply wp_onfs. unfold upd_ip. wp_step. rewrite put_fs_put. set (X4 := locked X3 (f_pid s3) (new_inode type)) in *.
  change (fs_of (put_fs s4 t)) with s4. pose proof (upd_at s4 ip X4 (fun x => din_nlink 1 (din_dev (i16 major) (i16 minor) x)) (proj1 L4)) as Eup. cbv beta in Eup. rewrite Eup.
  change (din_nlink 1 (din_dev (i16 major) (i16 minor) (i_din X4))) with (node type major minor).
  assert (Hroom3 : room v3 sb 3) by (apply (room_logs v v3 sb 3 1 {[IBLOCK j sb]}); [done|apply Hp3|by rewrite size_singleton|apply Hp3]).
  wp_step. apply wp_onfs. eapply (iupdate_mounted s4 v3 sb M4 ip X4); [done|done|done|apply blank_range; (done || apply i16_short)|unfold room in *; lia|exact Ht4|].
  intros t5 v5 Ht5 Hp5 s5 M5 L5 Hrefs5 G5. rewrite put_fs_put. change (i_inum X4) with (i_inum X3) in *. rewrite Ei in *.
  apply (HQ ip j v5 s5). pose proof (ip_ev _ _ _ _ _ Hp5) as Ev5.
  assert (Hcache : forall k0, k0 <> ip -> f_icache s5 !! k0 = f_icache s2 !! k0).
  { intros k0 Hk0. unfold s5, at_ip. cbn [f_icache set_icache set_store]. rewrite list_lookup_alter_ne by done. unfold s4. cbn [f_icache set_icache].
    rewrite list_lookup_insert_ne by done. by apply (got_other _ _ _ _ _ _ Hg3). }
  split; [done|done|by eexists|by apply Hcache| | |done|by exists y0|apply Hp5| | | | |].
  - intros k0 Z0 Hk0 Hd0. rewrite Hcache by done. by apply (ho_locks _ _ _ _ _ _ _ Hh).
  - intros k0. rewrite Hrefs5, Hrefs4. apply Hg3.
  - intros i Hi Hn. by rewrite (ip_other _ _ _ _ _ Hp5), (ip_other _ _ _ _ _ Hp3).
  - intros i y Hy. assert (Hn : i <> j) by (intros ->; destruct Hy as (_ & Hy & Hyy); congruence).
    destruct (changes_entries _ _ _ _ _ _ i y G3 Hn Hy) as [Hy3 <-]. by apply (changes_entries _ _ _ _ _ _ i y G5).
  - apply (room_logs v v5 sb 3 1 ({[IBLOCK j sb]} ∪ {[IBLOCK j sb]})); [done|eapply logs_trans; [apply Hp3|apply Hp5]|by rewrite union_idemp_L, size_singleton|].
    by rewrite (ev_cap _ _ _ _ Ev5), (ev_cap _ _ _ _ (ip_ev _ _ _ _ _ Hp3)).
  - rewrite (ip_free _ _ _ _ _ Hp5). apply Hp3.
  - rewrite (changes_afs _ _ _ _ _ _ (mt_ok _ _ _ M3) G5) by lia. rewrite E3. apply map_eq. intros i. destruct (decide (i = j)) as [->|Hn].
    + rewrite lookup_partial_alter_eq, lookup_insert_eq. cbn [node d_type]. rewrite (proj2 (Z.eqb_neq _ _) Ht0). unfold file_of, anode. by rewrite blank_content.
    + by rewrite lookup_partial_alter_ne, !lookup_insert_ne.
Qed.

(** The new file is in the tree. *)
Record created (d : Z) (x : dinode) (e : list Z) (ip : nat) (j : Z) (type major minor : Z) (v6 : tview) (s6 : fs S) : Prop := mk_created {
  cd_holds : holds s v6 sb ip j (node type major minor) s6;
  cd_inum : 1 <= j;
  cd_adds : exists x6, adds sb d x x6 e j (node type major minor) v v6;
  cd_afs : forall i, i <> d -> afs v6 sb !! i = <[j := anode type major minor]> (afs v sb) !! i
}.

Lemma fresh_adds s2 dp ip j type major minor v5 s5 d x x6 e v6 : fresh s2 dp ip j type major minor v5 s5 -> inode_at v sb d x -> d_type x = T_DIR -> type <> 0 -> type <> T_DIR ->
  consistent v6 sb -> changes sb d x x6 v5 v6 -> d_type x6 = T_DIR -> d_nlink x6 = d_nlink x -> d_size x6 mod 16 = 0 -> entries v6 x6 = dir_put (j, e) (entries v5 x) ->
  adds sb d x x6 e j (node type major minor) v v6.
Proof.
  intros F Hx Hd Ht0 Htd C6 G H1 H2 H3 H4. destruct (fr_free _ _ _ _ _ _ _ _ _ F) as (y & Hy & Hy0). pose proof (fr_range _ _ _ _ _ _ _ _ _ F) as Hj.
  assert (Hjd : j <> d) by (intros ->; destruct Hx as (_ & Hx & Hxt); congruence).
  split; [done|by exists y| |done|apply G|by rewrite H1, Hd|done| | |].
  - apply (changes_other v5 v6 sb d x x6 G); [done|]. split; [lia|]. split; [apply F|done].
  - rewrite H4. by destruct (fr_entries _ _ _ _ _ _ _ _ _ F d x Hx) as [_ ->].
  - intros i Hi Hid Hij. rewrite (cg_other _ _ _ _ _ _ G) by done. by apply (fr_other _ _ _ _ _ _ _ _ _ F).
  - intros i z Hi Hz. destruct (fr_entries _ _ _ _ _ _ _ _ _ F i z Hz) as [Hz5 <-]. by apply (changes_entries _ _ _ _ _ _ i z G).
Qed.

Lemma link_spec (t : @kstate S) s2 dp ip j d x type major minor name v5 s5 (Q : option nat -> @kstate S -> Prop) :
  holds s v sb dp d x s2 -> inode_at v sb d x -> (R d <> 0 \/ d_nlink x <> 0) -> d_type x = T_DIR -> d_size x mod 16 = 0 -> d_size x + 16 <= MAXFILE * BLK ->
  type <> 0 -> type <> T_DIR -> sb_ninodes sb <= 2 ^ 16 -> (2 <= size (free_blocks v sb))%nat ->
  Forall is_byte name -> dir_inum (entries v x) (cstr 14 name) = None -> fresh s2 dp ip j type major minor v5 s5 ->
  (forall v6 s6, created d x (cstr 14 name) ip j type major minor v6 s6 -> Q (Some ip) (put_fs s6 t)) ->
  wp (r ← onfs (dirlink devsw dp name j);
      if r <? 0 then panic "create: dirlink" else
      onfs (iunlockput dp);;
      mret (Some ip)) (put_fs s5 t) Q.
Proof.
  intros Hh Hx Hk Hd Hsz Hmax Ht0 Htd Hn16 Hfree Hnm Hno F HQ. pose proof (fr_fs _ _ _ _ _ _ _ _ _ F) as M5. pose proof (fr_range _ _ _ _ _ _ _ _ _ F) as Hj.
  destruct (ho_ip _ _ _ _ _ _ _ Hh) as (Y & (HY & HrY & HvY) & EY & Ex & HlY). assert (L5 : loaded s5 dp Y) by (split; [by rewrite (fr_dp _ _ _ _ _ _ _ _ _ F)|done]).
  destruct (fr_entries _ _ _ _ _ _ _ _ _ F d x Hx) as [Hx5 Een]. subst x d. wp_step. apply wp_onfs.
  eapply (dirlink_mounted s5 v5 sb M5 devsw dp Y name j); [done|done|done|done|lia|by rewrite Een|done|apply F|by rewrite (fr_blocks _ _ _ _ _ _ _ _ _ F)|].
  intros t6 v6 x6 s6 M6 L6 Hrefs6 G6 H1 H2 H3 H4. rewrite put_fs_put. cbn [Z.ltb Z.compare]. wp_step. apply wp_onfs.
  pose proof (refs_at v sb _ dp Y (mt_cache _ _ _ (ho_fs _ _ _ _ _ _ _ Hh)) HY HrY) as Hra. rewrite (ho_refs _ _ _ _ _ _ _ Hh), Z.eqb_refl in Hra.
  eapply (iunlockput_mounted s6 v6 sb M6 dp (set_din x6 Y)); [apply L6|done|done| |].
  { intros _ Hn. change (d_nlink x6 = 0) in Hn. rewrite H2 in Hn. cbn [i_ref set_din]. destruct Hk as [Hk|Hk]; [lia|done]. }
  intros l7 s7 M7 Hrefs7 Hip7 Ho7. rewrite put_fs_put. wp_step. apply (HQ v6 s7). split.
  - destruct (fr_ip _ _ _ _ _ _ _ _ _ F) as (X & (HX & HrX & HvX) & EX & Exd & HlX). pose proof (fr_ne _ _ _ _ _ _ _ _ _ F) as Hne.
    assert (Hcache : forall k, k <> dp -> f_icache s7 !! k = f_icache s5 !! k).
    { intros k Hkd. cbn [s7 f_icache set_icache]. rewrite Ho7 by done. unfold s6, at_ip. cbn [f_icache set_icache set_store]. by rewrite list_lookup_alter_ne. }
    split; [done|exists X; split; [split; [by rewrite Hcache|done]|done]| |].
    + intros k. cbn [s7 f_icache set_icache]. rewrite Hrefs7, Hrefs6, (fr_refs _ _ _ _ _ _ _ _ _ F), (ho_refs _ _ _ _ _ _ _ Hh). cbn [i_inum set_din]. lia.
    + intros k Z Hkip. destruct (decide (k = dp)) as [->|Hkd]; [|rewrite Hcache by done; by apply (fr_locks _ _ _ _ _ _ _ _ _ F)].
      cbn [s7 f_icache set_icache]. rewrite Hip7. by intros [= <-].
  - lia.
  - exists x6. eapply fresh_adds; [exact F|done|done|done|done|apply M6|done|done|done|done|done].
  - intros i Hi. rewrite (changes_afs _ _ _ _ _ _ (mt_ok _ _ _ M5) G6), lookup_partial_alter_ne by (done || apply Hx). by rewrite (fr_afs _ _ _ _ _ _ _ _ _ F).
Qed.

(** What [create] needs for a new name: room in the transaction, on the disk
    and in the directory. *)
Record create_room (x : dinode) : Prop := mk_create_room {
  cr_log : room v sb 4;
  cr_free : (2 <= size (free_blocks v sb))%nat;
  cr_inode : exists j, 1 <= j < sb_ninodes sb /\ afs v sb !! j = None;
  cr_dir : d_size x + 16 <= MAXFILE * BLK;
  cr_ninodes : sb_ninodes sb <= 2 ^ 16
}.

Lemma create_new_spec (t : @kstate S) s1 dp Y x t1 name type major minor (Q : option nat -> @kstate S -> Prop) : current s1 dp Y x -> tx_at t1 v -> d_type x = T_DIR ->
  short type -> type <> 0 -> type <> T_DIR -> create_room x -> Forall is_byte name -> dir_inum (entries v x) (cstr 14 name) = None ->
  (forall ip j v6 s6, created (i_inum Y) x (cstr 14 name) ip j type major minor v6 s6 -> Q (Some ip) (put_fs s6 t)) ->
  wp (create_new devsw dp name type major minor) (put_fs (lock_at (f_pid s) s1 dp Y x t1) t) Q.
Proof.
  intros Cu Ht1 Hd Hsh Ht0 Htd [R1 R2 R3 R4 R5] Hnm Hno HQ. pose proof (lock_holds s1 dp Y x t1 Cu Ht1) as Hh. pose proof (current_at s1 dp Y x Cu) as Hx. pose proof Hx as (Hin & Hdx & _).
  destruct (lock_at_ok v sb (f_pid s) (f_cwd s) R B s1 dp Y x t1 Cu) as (K1 & K2 & K3 & K4). set (s2 := lock_at (f_pid s) s1 dp Y x t1) in *.
  pose proof (cu_at _ _ _ _ _ _ _ _ _ _ Cu) as A. unfold create_new. wp_step. apply wp_onfs. eapply wp_get_ip; [exact K3|]. rewrite put_fs_put.
  cbn [i_dev locked]. rewrite (proj1 (ic_inode _ _ _ (ai_ok _ _ _ _ _ _ _ _ A) dp Y (cu_ip _ _ _ _ _ _ _ _ _ _ Cu) (cu_ref _ _ _ _ _ _ _ _ _ _ Cu))).
  eapply (new_node_spec t s2 dp (i_inum Y) x type major minor); [done|done|done|done|done| |done|].
  { by apply (current_room s1). }
  intros ip j v5 s5 F. destruct (fr_ip _ _ _ _ _ _ _ _ _ F) as (X & (HX & _) & EX & _). wp_step. apply wp_onfs. eapply wp_get_ip; [exact HX|]. rewrite put_fs_put, EX.
  rewrite (proj2 (Z.eqb_neq _ _) Htd). wp_step. wp_step. destruct (pp_tree _ _ _ _ P (i_inum Y) x Hin Hdx) as [_ Hdir]; [by rewrite Hd|]. destruct (Hdir Hd) as [Hsz _].
  eapply (link_spec t s2 dp ip j (i_inum Y) x type major minor name v5 s5); [done|done|apply Cu|done|done|done|done|done|done|done|done|done|done|]. intros v6 s6. apply HQ.
Qed.

(** ** [create] *)

Context (path : list Z) (type major minor : Z).
Abbreviation start := (if bool_decide (head path = Some SLASH) then ROOTINO else i_inum C).
Abbreviation last_name := (List.last (elems path) []).

(** What [create] returns, and the file system after it: null if the path has
    no directory; the inode of that name if it is there and of the kind asked
    for; otherwise a new file, which the path then leads to. *)
Definition create_result (r : option nat) (s' : fs S) : Prop :=
  match resolve v sb true start (elems path) with
  | None => r = None /\ idle s v sb s'
  | Some d => exists x, disk_inode v sb d = Some x /\
      match dir_inum (entries v x) last_name with
      | Some i => exists y, disk_inode v sb i = Some y /\
          if (type =? T_FILE) && (d_type y =? T_FILE) then exists ip, r = Some ip /\ holds s v sb ip i y s' else r = None /\ idle s v sb s'
      | None => exists ip j v', r = Some ip /\ holds s v' sb ip j (node type major minor) s' /\ tree_ok v' sb /\
          afs v sb !! j = None /\ (forall i, i <> d -> afs v' sb !! i = <[j := anode type major minor]> (afs v sb) !! i) /\
          resolve v' sb false start (elems path) = Some j /\
          forall parent es i k, 0 <= i < sb_ninodes sb -> resolve v sb parent i es = Some k -> resolve v' sb parent i es = Some k
      end
  end.

Lemma start_ok : 0 <= start < sb_ninodes sb /\ exists x, inode_at v sb start x /\ (R start <> 0 \/ d_nlink x <> 0).
Proof.
  destruct (pp_root _ _ _ _ P) as (Hr & x & Hx & Ht & Hl). destruct (pp_cwd _ _ _ _ P) as [HC Hc]. destruct (pp_cwd_used _ _ _ _ P) as (y & Hy & Hty).
  destruct (ic_inode _ _ _ (pp_ok _ _ _ _ P) _ C HC Hc) as [_ Hin]. case_bool_decide.
  - assert (0 <= ROOTINO < sb_ninodes sb) by (split; [done|lia]). split; [done|]. exists x. split; [done|by right].
  - split; [done|]. exists y. split; [done|]. left. rewrite (refs_at v sb _ _ C (pp_ok _ _ _ _ P) HC Hc). lia.
Qed.
Lemma parent_ok d : resolve v sb true start (elems path) = Some d -> exists x, inode_at v sb d x /\ (R d <> 0 \/ d_nlink x <> 0).
Proof.
  intros Hd. destruct start_ok as [Hs Hx]. destruct (resolve_linked v sb true _ (pp_tree _ _ _ _ P) _ d Hd Hs) as [->|(Hr & y & Hy & Ht & Hl)]; [done|].
  exists y. split; [done|by right].
Qed.

(** The new file, as the callers see it. *)
Lemma created_result d x ip j v6 s6 : resolve v sb true start (elems path) = Some d -> inode_at v sb d x -> d_type x = T_DIR -> dir_inum (entries v x) last_name = None ->
  created d x last_name ip j type major minor v6 s6 -> create_result (Some ip) s6.
Proof.
  intros Hd Hx Hty Hno [Hh Hj (x6 & A) Hafs]. unfold create_result. rewrite Hd. exists x. pose proof Hx as (_ & Hdx & _). split; [done|]. rewrite Hno. exists ip, j, v6. pose proof (pp_tree _ _ _ _ P) as T.
  destruct (ad_free _ _ _ _ _ _ _ _ _ A) as (y & Hy & Hy0).
  assert (G : grows sb d last_name j v v6).
  { eapply adds_grows; [exact A|done|lia|done]. }
  split_and!; [done|done|by eapply adds_tree|by eapply afs_none|done| |].
  - eapply (grows_new sb d last_name j v v6 T G); [|apply start_ok|done|done]. intros z Hz. rewrite Hdx in Hz. by simplify_eq.
  - intros parent es i k Hi. apply (grows_kept sb d last_name j v v6 T G); [|done]. intros z Hz. rewrite Hdx in Hz. by simplify_eq.
Qed.

Lemma create_spec (t : @kstate S) : fs_of t = s -> Forall (fun c => c <> 0 /\ is_byte c) path -> short type -> type <> 0 -> type <> T_DIR ->
  (forall d x, resolve v sb true start (elems path) = Some d -> disk_inode v sb d = Some x -> dir_inum (entries v x) last_name = None -> create_room x) ->
  wp (create devsw path type major minor) t (fun r t' => exists s', t' = put_fs s' t /\ create_result r s').
Proof.
  intros Et Hp Hsh Ht0 Htd Hroom. unfold create, nameiparent. wp_step. apply wp_onfs. rewrite Et.
  eapply wp_mono; [apply (namex_spec devsw s v sb C path true name_buf P Hp); [done|by apply Forall_replicate]|]. cbv zeta. intros [r name] s1 [F Hnm]. cbn [fst snd] in *.
  unfold create_result. destruct (resolve v sb true start (elems path)) as [d|] eqn:Hd.
  2: { destruct (found_none r s1 F) as [-> A]. wp_step. exists s1. split; [done|]. split; [done|by apply at_idle]. }
  destruct (found_current d r s1 F (parent_ok d Hd)) as (dp & Y & x & -> & Hx & EY & Cu). destruct (Hnm eq_refl ltac:(done)) as [En Hnb]. pose proof Hx as (Hin & Hdx & _).
  destruct (resolve_dir v sb _ _ d Hd) as (x' & Hx' & Hty). rewrite Hdx in Hx'. injection Hx' as <-.
  wp_step. apply wp_onfs. eapply (current_lock v sb (f_pid s) (f_cwd s) (pp_inv _ _ _ _ P) path_ready (pp_held _ _ _ _ P) R B); [exact Cu|]. intros t0 Ht0'. rewrite put_fs_put.
  wp_step. apply wp_onfs.
  eapply (dirlookup_spec devsw _ sb dp (locked Y (f_pid s) x) v); [by apply (current_dir v sb (f_pid s) (f_cwd s) (pp_inv _ _ _ _ P) (pp_mod _ _ _ _ P) (pp_held _ _ _ _ P) (pp_log _ _ _ _ P) (pp_tree _ _ _ _ P) R B)|done|].
  intros t1 Ht1. cbn [i_din locked]. rewrite En. change (set_store t1 (lock_at (f_pid s) s1 dp Y x t0)) with (lock_at (f_pid s) s1 dp Y x t1).
  destruct (dir_find (entries v x) last_name) as [[k i]|] eqn:Ef.
  - assert (Hi : dir_inum (entries v x) last_name = Some i) by (unfold dir_inum; by rewrite Ef).
    destruct (tree_child v sb d x _ i (pp_tree _ _ _ _ P) Hin Hdx Hty Hi) as (Hir & y & Hy & Hyt & Hyl).
    destruct (lock_at_ok v sb (f_pid s) (f_cwd s) R B s1 dp Y x t1 Cu) as (G1 & _). apply (iget_spec _ v sb i); [exact G1|exact Hir|by apply (current_room s1)|].
    intros ip l2 G. rewrite put_fs_put. eapply (create_old_spec t s1 dp Y x t1 i y ip l2); [exact Cu|exact Ht1|exact G|exact Hy|exact Hyt|exact Hyl|].
    intros s'. destruct ((type =? T_FILE) && (d_type y =? T_FILE)) eqn:Ek; intros Hs'; exists s'; (split; [done|]); exists x; (split; [done|]); rewrite Hi; exists y; (split; [done|]); rewrite Ek; [by exists ip|done].
  - rewrite put_fs_put. assert (Hno : dir_inum (entries v x) last_name = None) by (unfold dir_inum; by rewrite Ef).
    eapply (create_new_spec t s1 dp Y x t1 name type major minor); [exact Cu|exact Ht1|exact Hty|exact Hsh|exact Ht0|exact Htd|exact (Hroom d x eq_refl Hdx Hno)|exact Hnb|by rewrite En|]. rewrite En, EY. intros ip j v6 s6 Cd. exists s6. split; [done|].
    pose proof (created_result d x ip j v6 s6 Hd Hx Hty Hno Cd) as Hres. unfold create_result in Hres. by rewrite Hd in Hres.
Qed.
End create.

(** C10.  [create] makes plain files and devices.  In a consistent file system
    whose directories are a tree, and with room for one more file, [create] of
    any type but a directory returns; it returns
    null if the path has no directory, or if the name is there and is not a
    plain file or a plain file was not asked for, and then gives back every
    lock and reference it took.  If the name is there and is the plain file
    asked for, it returns its inode, locked.  Otherwise it makes a file without
    contents and with one link, under an inode number that was free, and
    returns it locked: the path leads to it, every path that led somewhere
    leads there still, no other file but the directory changes, and the
    directories are a tree and the disk is consistent again. *)
Theorem create_correct {S} `{TxStore S} (devsw : Z -> devops S) (t : @kstate S) v sb C path type major minor :
  path_pre (fs_of t) v sb C -> mounted (fs_of t) v sb -> Forall (fun c => c <> 0 /\ is_byte c) path -> short type -> type <> 0 -> type <> T_DIR ->
  let start := if bool_decide (head path = Some SLASH) then ROOTINO else i_inum C in
  (forall d x, resolve v sb true start (elems path) = Some d -> disk_inode v sb d = Some x -> dir_inum (entries v x) (List.last (elems path) []) = None -> create_room v sb x) ->
  wp (create devsw path type major minor) t (fun r t' => exists s', t' = put_fs s' t /\ create_result (fs_of t) v sb C path type major minor r s').
Proof. intros P M Hp Hsh Ht0 Htd start Hroom. by apply create_spec. Qed.

(** ** In the small tree *)

Lemma tree_at_inv i x : inode_at tree_view demo_sb i x -> (i = 1 /\ x = tree_dir) \/ (i = 2 /\ x = demo_file).
Proof.
  intros (Hi & Hx & Ht). rewrite tree_inode in Hx by exact Hi. destruct (Z.eqb_spec i 1); [left; split; congruence|]. destruct (Z.eqb_spec i 2); [right; split; congruence|].
  injection Hx as <-. done.
Qed.
Lemma tree_consistent : consistent tree_view demo_sb.
Proof.
  assert (Ho : forall ty nl z a b, b ∈ owned (tv_blk tree_view) (one_block ty nl z a) <-> b <> 0 /\ b = a).
  { intros ty nl z a b. rewrite elem_of_owned. split; intros [Hb Hk]; (split; [done|]).
    - destruct Hk as (k & Hk & E). rewrite one_block_slot in E by done. case_decide; congruence.
    - exists 0. rewrite one_block_slot by lia. by split. }
  change tree_dir with (one_block T_DIR 1 32 25) in *. split.
  - exact tree_inv.
  - intros i x [[-> ->]|[-> ->]]%tree_at_inv; (split; [exact tree_dir_ok || exact tree_file_ok|]); unfold din_range, short; simpl; split_and!; try lia; try done; repeat constructor; lia.
  - intros i j x y Hn [[-> ->]|[-> ->]]%tree_at_inv [[-> ->]|[-> ->]]%tree_at_inv; [lia| | |lia];
      [intros b [_ ->]%(Ho T_DIR 1 32 25) [_ ?]%(Ho T_FILE 1 5 24)|intros b [_ ->]%(Ho T_FILE 1 5 24) [_ ?]%(Ho T_DIR 1 32 25)]; lia.
  - intros b Hb. change (24 <= b < 40) in Hb. rewrite tree_used by lia. intros Hlt%Z.ltb_lt. assert (b = 24 \/ b = 25) as [->| ->] by lia.
    + exists 2, demo_file. split; [split; [done|]; split; [by apply tree_inode|done]|]. by apply (Ho T_FILE 1 5 24).
    + exists 1, tree_dir. split; [split; [done|]; split; [by apply tree_inode|done]|]. by apply (Ho T_DIR 1 32 25).
Qed.
Lemma tree_root_at : inode_at tree_view demo_sb 1 tree_dir.
Proof. split; [done|]. split; [by apply tree_inode|done]. Qed.
Lemma tree_mounted : mounted (tree_fs initsleeplock) tree_view demo_sb.
Proof.
  split; [apply tree_at|reflexivity|exact tree_consistent|reflexivity|reflexivity|apply tree_log|apply tree_icache_ok|].
  intros i (k & X & HX & Hr & <-)%elem_of_live. unfold tree_fs, tree_icache in HX. cbn [f_icache] in HX. destruct k as [|k]; cbn [lookup list_lookup] in HX.
  - injection HX as <-. exists tree_dir. exact tree_root_at.
  - by apply lookup_replicate in HX as [-> _].
Qed.
Definition tree_kernel : @kstate tview := mkptable (mkfiles (tree_fs initsleeplock) [] (mkkmem (fun _ => 0) false 0) ∅ 0) [] 0 0 0.

(** The path [/g] is new. *)
Lemma create_correct_witness : wp (create no_devices [47; 103] T_FILE 0 0) tree_kernel (fun r _ => exists ip j v', r = Some ip /\ consistent v' demo_sb /\
  resolve v' demo_sb false ROOTINO [[103]] = Some j /\ afs v' demo_sb !! j = Some (anode T_FILE 0 0)).
Proof.
  assert (Hres : resolve tree_view demo_sb true ROOTINO [[103]] = Some 1) by (change ROOTINO with 1; rewrite resolve_step, tree_inode by lia; reflexivity).
  eapply wp_mono; [apply (create_correct no_devices tree_kernel tree_view demo_sb (tree_root initsleeplock) [47; 103] T_FILE 0 0)|].
  - exact tree_path_pre.
  - exact tree_mounted.
  - repeat constructor; done.
  - unfold short, T_FILE. lia.
  - discriminate.
  - discriminate.
  - intros d x Hd Hx _. change (resolve tree_view demo_sb true ROOTINO [[103]] = Some d) in Hd. rewrite Hres in Hd. injection Hd as <-. rewrite tree_inode in Hx by lia. injection Hx as <-.
    split; [apply view_room; lia| |exists 3; split; [done|eapply afs_none; [by apply tree_inode|done]]|by vm_compute|done].
    change tree_view with (view_of (disk_of tree_inodes tree_map tree_data)). rewrite (view_free tree_inodes tree_map tree_data 26 tree_used_all) by lia. simpl. lia.
  - intros r t' (s' & _ & Hr). unfold create_result in Hr. change (elems [47; 103]) with [[103]] in Hr. cbn [head] in Hr. rewrite bool_decide_true, Hres in Hr by done.
    destruct Hr as (x & Hx & Hr). rewrite tree_inode in Hx by lia. injection Hx as <-. cbn [Z.eqb Pos.eqb] in Hr. rewrite tree_names in Hr. cbn [List.last] in Hr.
    destruct Hr as (ip & j & v' & -> & Hh & _ & Hno & Hafs & Hp & _). exists ip, j, v'. split; [done|]. split; [apply Hh|]. split; [done|]. rewrite Hafs; [apply lookup_insert_eq|].
    intros ->. rewrite (afs_at _ _ _ _ tree_root_at) in Hno. discriminate Hno.
Defined.
