(* ===== verification/Syscall.v ===== *)
(** * Process system calls and the dispatcher: [sysproc.c] and [syscall()] of [syscall.c]

    A system call returns a value, blocks (the process is left sleeping, and
    goes through its loop's test again when it is woken) or does not return.
    [syscall] reads the number from the trap frame and stores the result
    there.  A call that returns also gives what it printed on the console
    ([cps_text], [date_text], [unknown_text]). *)

From S2P Require Import Prelude CString Mmu Printf Rtc Kalloc Vm Sleeplock Bio Log BlockStore Pipe Fs File Proc Kernel Exec Sysfile.

Inductive sysret := Returns (v : Z) (out : list Z) | Blocks | NoReturn.
#[global] Instance sysret_eq_dec : EqDecision sysret.
Proof. solve_decision. Defined.

(** ** [syscall.h] *)

Definition SYS_fork : Z := 1.
Definition SYS_exit : Z := 2.
Definition SYS_wait : Z := 3.
Definition SYS_pipe : Z := 4.
Definition SYS_read : Z := 5.
Definition SYS_kill : Z := 6.
Definition SYS_exec : Z := 7.
Definition SYS_fstat : Z := 8.
Definition SYS_chdir : Z := 9.
Definition SYS_dup : Z := 10.
Definition SYS_getpid : Z := 11.
Definition SYS_sbrk : Z := 12.
Definition SYS_sleep : Z := 13.
Definition SYS_uptime : Z := 14.
Definition SYS_open : Z := 15.
Definition SYS_write : Z := 16.
Definition SYS_mknod : Z := 17.
Definition SYS_unlink : Z := 18.
Definition SYS_link : Z := 19.
Definition SYS_mkdir : Z := 20.
Definition SYS_close : Z := 21.
Definition SYS_cps : Z := 22.
Definition SYS_nps : Z := 23.
Definition SYS_chpr : Z := 24.
Definition SYS_date : Z := 25.

(** What [cps] of [proc.c] prints: the name is a string at address 1. *)
Definition name_mem (name : list Z) : mem := store_bytes (fun _ => 0) 1 name.
Definition state_word (st : procstate) : option (list Z) :=
  match st with
  | SLEEPING => Some (chars "SLEEPING")
  | RUNNING => Some (chars "RUNNING")
  | RUNNABLE => Some (chars "RUNNABLE")
  | _ => None
  end.
Definition TAB : list Z := [9].
Definition NL : list Z := [10].
Definition cps_line (p : proc) : option (list Z) :=
  match state_word (p_state p) with
  | None => Some []
  | Some w =>
      cprintf 17 (name_mem (p_name p))
        (chars "%s " ++ TAB ++ chars " %d  " ++ TAB ++ chars " " ++ w ++ chars " " ++ TAB ++ chars " %d" ++ NL ++ chars " ")
        [1; p_pid p; p_priority p]
  end.
Definition cps_text (ps : list proc) : option (list Z) :=
  ls ← mapM cps_line ps;
  Some (chars "name " ++ TAB ++ chars " pid " ++ TAB ++ chars " state " ++ TAB ++ chars " priority " ++ NL ++ mjoin ls).

(** What [syscall] prints for a number it does not know. *)
Definition unknown_text (p : proc) (num : Z) : option (list Z) :=
  cprintf 17 (name_mem (p_name p)) (chars "%d %s: unknown sys call %d" ++ NL) [p_pid p; 1; num].

Section syscall.
Context {S : Type} `{!BlockStore S} `{!TxOps S}.
Context (kend kdata : Z) (initcode : list Z) (devsw : Z -> devops S).
Context (forkret ticks_addr : Z).      (* the addresses of [forkret] and of [ticks] *)
Context (cmos : nat -> Z -> Z) (rounds : nat).   (* the clock chip during a call, and the fuel of [cmostime] *)

Abbreviation K := (@kstate S).
#[local] Existing Instance services.
Abbreviation SV := (services kend kdata initcode devsw).

Definition ret (v : Z) : KM K sysret := mret (Returns v []).
Definition ret_print (v : Z) (out : option (list Z)) : KM K sysret :=
  match out with Some out => mret (Returns v out) | None => fault "cprintf" end.

Definition sys_fork (cur : nat) : KM K sysret := v ← @fork _ SV forkret cur; ret v.

Definition sys_exit (cur : nat) : KM K sysret := @exit _ SV cur;; mret NoReturn.

Definition sys_wait (cur : nat) : KM K sysret :=
  r ← @wait _ SV cur;
  match r with
  | Reaped pid => ret pid
  | NoChild => ret (-1)
  | Waits => mret Blocks
  end.

Definition sys_kill (cur : nat) : KM K sysret :=
  pid ← argint cur 0;
  match pid with
  | None => ret (-1)
  | Some pid => v ← kill pid; ret v
  end.

Definition sys_getpid (cur : nat) : KM K sysret := p ← get_proc cur; ret (p_pid p).

Definition sys_sbrk (cur : nat) : KM K sysret :=
  n ← argint cur 0;
  match n with
  | None => ret (-1)
  | Some n =>
      p ← get_proc cur;
      let addr := i32 (p_sz p) in
      r ← @growproc _ SV cur n;
      if r <? 0 then ret (-1) else ret addr
  end.

(** The loop of [sys_sleep]: one test, with [tickslock] held. *)
Definition sleep_test (cur : nat) (ticks0 n : Z) : KM K sysret :=
  t ← kget;
  if u32 (pt_ticks t - ticks0) <? u32 n then
    p ← get_proc cur;
    if negb (p_killed p =? 0) then ret (-1)
    else sleep cur (ChanAddr ticks_addr);; mret Blocks
  else ret 0.
Definition sys_sleep (cur : nat) : KM K sysret :=
  n ← argint cur 0;
  match n with
  | None => ret (-1)
  | Some n => t ← kget; sleep_test cur (pt_ticks t) n
  end.

Definition sys_uptime (cur : nat) : KM K sysret := t ← kget; ret (i32 (pt_ticks t)).

Definition sys_cps (cur : nat) : KM K sysret := t ← kget; ret_print 22 (cps_text (pt_proc t)).
Definition sys_date (cur : nat) : KM K sysret :=
  match date cmos rounds 0%nat with
  | Done (v, out) _ => ret_print v out
  | _ => fault "date"
  end.

(** A call of [sysfile.c]. *)
Definition filecall (m : KM K Z) : KM K sysret := v ← m; ret v.

(** The table [syscalls[]], which ends after [SYS_date]. *)
Definition syscalls : list (option (nat -> KM K sysret)) := [
  None;
  Some sys_fork;
  Some sys_exit;
  Some sys_wait;
  Some (fun cur => filecall (sys_pipe kend cur));
  Some (fun cur => filecall (sys_read devsw cur));
  Some sys_kill;
  Some (fun cur => filecall (sys_exec kend kdata devsw cur));
  Some (fun cur => filecall (sys_fstat cur));
  Some (fun cur => filecall (sys_chdir devsw cur));
  Some (fun cur => filecall (sys_dup cur));
  Some sys_getpid;
  Some sys_sbrk;
  Some sys_sleep;
  Some sys_uptime;
  Some (fun cur => filecall (sys_open kend devsw cur));
  Some (fun cur => filecall (sys_write devsw cur));
  Some (fun cur => filecall (sys_mknod devsw cur));
  Some (fun cur => filecall (sys_unlink devsw cur));
  Some (fun cur => filecall (sys_link devsw cur));
  Some (fun cur => filecall (sys_mkdir devsw cur));
  Some (fun cur => filecall (sys_close kend cur));
  Some sys_cps;
  None;
  None;
  Some sys_date
].

Definition syscall (cur : nat) : KM K sysret :=
  enter cur;;
  p ← get_proc cur;
  let num := i32 (tf_eax (p_tf p)) in
  let known := if (0 <? num) && (num <? Z.of_nat (length syscalls))
               then mjoin (syscalls !! Z.to_nat num) else None in
  match known with
  | Some f =>
      r ← f cur;
      match r with
      | Returns v _ => upd_proc (fun p => set_tf (set_eax (u32 v) (p_tf p)) p) cur;; mret r
      | _ => mret r
      end
  | None => upd_proc (fun p => set_tf (set_eax (u32 (-1)) (p_tf p)) p) cur;; ret_print (-1) (unknown_text p num)
  end.
End syscall.
