(* ===== verification/Trap.v ===== *)
(** * Traps: [trap.c], and [procdump] of [proc.c]

    [tvinit] fills the interrupt descriptor table; [trap] dispatches a trap to
    the system calls, the clock, the disk, the keyboard and the serial port.
    The machine is here the whole kernel: processes, files and memory
    ([Syscall]), the disk driver ([Ide]), the console with its devices
    ([Uart]) and the local APIC ([Apic]).

    A trap ends with a return to the interrupted code, with the end of the
    process, with the process asleep in a system call or with the processor
    given up; [trap_resumed] is what then follows when the process runs
    again.  [vectors.S] is generated: the entry points are a parameter. *)

From S2P Require Import Prelude CString Mmu Printf Rtc Kalloc Vm Sleeplock Spinlock Bio Log BlockStore Pipe Fs File Proc Kernel Exec Sysfile Syscall Ide Console Kbd Apic Uart.

Definition T_SYSCALL : Z := 64.
Definition DPL_USER : Z := 3.

(** ** The interrupt descriptor table *)

Definition STS_IG32 : Z := 0xE.
Definition STS_TG32 : Z := 0xF.
Definition SEG_KCODE : Z := 1.

(** [struct gatedesc], a value per bit-field *)
Record gatedesc := mkgate {
  g_off_15_0 : Z; g_cs : Z; g_args : Z; g_rsv1 : Z; g_type : Z; g_s : Z; g_dpl : Z; g_p : Z; g_off_31_16 : Z
}.
Definition SETGATE (istrap : bool) (sel off d : Z) : gatedesc :=
  mkgate (Z.land (u32 off) 0xffff) sel 0 0 (if istrap then STS_TG32 else STS_IG32) 0 d 1 (Z.shiftr (u32 off) 16).
Definition tvinit (vectors : nat -> Z) : list gatedesc :=
  let idt := (fun i => SETGATE false (Z.shiftl SEG_KCODE 3) (vectors i) 0) <$> seq 0 256 in
  <[Z.to_nat T_SYSCALL := SETGATE true (Z.shiftl SEG_KCODE 3) (vectors (Z.to_nat T_SYSCALL)) DPL_USER]> idt.

(** The two words of a gate in memory, and what the processor makes of them:
    the handler's segment and offset, the least privileged level that may use
    the gate with [int], and whether interrupts are turned off. *)
Definition gate_words (g : gatedesc) : Z * Z :=
  (g_off_15_0 g + 2 ^ 16 * g_cs g,
   g_args g + 2 ^ 5 * g_rsv1 g + 2 ^ 8 * g_type g + 2 ^ 12 * g_s g + 2 ^ 13 * g_dpl g + 2 ^ 15 * g_p g + 2 ^ 16 * g_off_31_16 g).
Record handler := mkhandler { hd_sel : Z; hd_off : Z; hd_dpl : Z; hd_cli : bool }.
Definition decode_gate (w : Z * Z) : option handler :=
  if negb (Z.testbit w.2 15) then None                                  (* not present *)
  else if negb ((w.2 / 2 ^ 5) mod 2 ^ 3 =? 0) then None                 (* reserved bits *)
  else if negb ((w.2 / 2 ^ 9) mod 2 ^ 4 =? 7) then None                 (* not a 32-bit interrupt or trap gate *)
  else Some (mkhandler (w.1 / 2 ^ 16) (w.1 mod 2 ^ 16 + 2 ^ 16 * (w.2 / 2 ^ 16)) ((w.2 / 2 ^ 13) mod 4) (negb (Z.testbit w.2 8))).

(** Every field fits its bit-field. *)
Definition gate_typed (g : gatedesc) : Prop :=
  0 <= g_off_15_0 g < 2 ^ 16 /\ 0 <= g_cs g < 2 ^ 16 /\ 0 <= g_args g < 2 ^ 5 /\ 0 <= g_rsv1 g < 2 ^ 3 /\ 0 <= g_type g < 2 ^ 4 /\
  0 <= g_s g < 2 /\ 0 <= g_dpl g < 4 /\ 0 <= g_p g < 2 /\ 0 <= g_off_31_16 g < 2 ^ 16.

Lemma setgate_ok istrap sel off d : 0 <= sel < 2 ^ 16 -> 0 <= d < 4 -> 0 <= off < 2 ^ 32 ->
  gate_typed (SETGATE istrap sel off d) /\ decode_gate (gate_words (SETGATE istrap sel off d)) = Some (mkhandler sel off d (negb istrap)).
Proof.
  intros Hs Hd Ho. unfold SETGATE. rewrite u32_id by done. change 0xffff with (Z.ones 16). rewrite Z.land_ones, Z.shiftr_div_pow2 by lia.
  pose proof (Z.mod_pos_bound off (2 ^ 16) ltac:(lia)) as Hm. assert (Hh : 0 <= off / 2 ^ 16 < 2 ^ 16) by (split; [apply Z.div_pos; lia|apply Z.div_lt_upper_bound; lia]).
  pose proof (Z.div_mod off (2 ^ 16) ltac:(lia)) as Ed. set (lo := off mod 2 ^ 16) in *. set (hi := off / 2 ^ 16) in *.
  split; [unfold gate_typed, STS_TG32, STS_IG32; cbn [g_off_15_0 g_cs g_args g_rsv1 g_type g_s g_dpl g_p g_off_31_16]; destruct istrap; lia|].
  unfold gate_words. cbn [g_off_15_0 g_cs g_args g_rsv1 g_type g_s g_dpl g_p g_off_31_16].
  assert (E : exists t, (if istrap then STS_TG32 else STS_IG32) = 14 + t /\ t = Z.b2z istrap /\ 0 <= t <= 1) by (destruct istrap; [exists 1|exists 0]; split_and!; done).
  destruct E as (t & -> & Et & Ht). unfold decode_gate. cbn [fst snd].
  set (w := _ + 2 ^ 16 * hi). assert (Ew : w = 2 ^ 8 * (14 + t) + 2 ^ 13 * d + 2 ^ 15 + 2 ^ 16 * hi) by (unfold w; lia). clearbody w.
  rewrite !Z.testbit_eqb by lia. rewrite Ew. clear w Ew.
  assert (H15 : (2 ^ 8 * (14 + t) + 2 ^ 13 * d + 2 ^ 15 + 2 ^ 16 * hi) / 2 ^ 15 = 1 + 2 * hi) by (Z.div_mod_to_equations; lia).
  assert (H5 : (2 ^ 8 * (14 + t) + 2 ^ 13 * d + 2 ^ 15 + 2 ^ 16 * hi) / 2 ^ 5 = 2 ^ 3 * (14 + t + 2 ^ 5 * d + 2 ^ 7 + 2 ^ 8 * hi)) by (Z.div_mod_to_equations; lia).
  assert (H9 : (2 ^ 8 * (14 + t) + 2 ^ 13 * d + 2 ^ 15 + 2 ^ 16 * hi) / 2 ^ 9 = 7 + (d + 4 + 8 * hi) * 2 ^ 4) by (Z.div_mod_to_equations; lia).
  assert (H13 : (2 ^ 8 * (14 + t) + 2 ^ 13 * d + 2 ^ 15 + 2 ^ 16 * hi) / 2 ^ 13 = d + (1 + 2 * hi) * 4) by (Z.div_mod_to_equations; lia).
  assert (H16 : (2 ^ 8 * (14 + t) + 2 ^ 13 * d + 2 ^ 15 + 2 ^ 16 * hi) / 2 ^ 16 = hi) by (Z.div_mod_to_equations; lia).
  assert (H8 : (2 ^ 8 * (14 + t) + 2 ^ 13 * d + 2 ^ 15 + 2 ^ 16 * hi) / 2 ^ 8 = t + (7 + 16 * d + 64 + 128 * hi) * 2) by (Z.div_mod_to_equations; lia).
  rewrite H15, H5, H9, H13, H16, H8, !Z.mod_add by lia. rewrite (Z.mul_comm (2 ^ 3)), Z.mod_mul by lia.
  replace ((1 + 2 * hi) mod 2) with 1 by (Z.div_mod_to_equations; lia). cbn [negb Z.eqb Pos.eqb Z.modulo].
  rewrite (Z.mod_small d 4), (Z.mod_small t 2) by lia. change (7 mod 2 ^ 4) with 7. cbn [negb Z.eqb Pos.eqb].
  rewrite (Z.mul_comm (2 ^ 16) sel), Z.div_add, Z.mod_add, (Z.div_small lo), (Z.mod_small lo) by lia. replace (0 + sel) with sel by lia. replace (lo + 2 ^ 16 * hi) with off by lia. subst t. by destruct istrap.
Qed.

(** C31.  The interrupt descriptor table is well formed, for handlers anywhere
    in the address space: it has 256 gates, every field fits its bit-field,
    and the processor reads gate [i] as the kernel's entry point for vector
    [i] in the kernel's code segment.  User code may call one gate only, that
    of system calls; it is also the only one to leave interrupts on. *)
Theorem tvinit_typed vectors : (forall i, 0 <= vectors i < 2 ^ 32) ->
  length (tvinit vectors) = 256%nat /\
  forall i g, tvinit vectors !! i = Some g -> gate_typed g /\
    decode_gate (gate_words g) = Some (mkhandler (8 * SEG_KCODE) (vectors i) (if decide (Z.of_nat i = T_SYSCALL) then 3 else 0) (bool_decide (Z.of_nat i <> T_SYSCALL))).
Proof.
  intros Hv. unfold tvinit. split; [by rewrite length_insert, length_fmap, length_seq|]. intros i g Hg.
  destruct (decide (i = 64%nat)) as [->|Hne].
  - rewrite list_lookup_insert_eq in Hg by (rewrite length_fmap, length_seq; unfold T_SYSCALL; lia). injection Hg as <-.
    change (Z.to_nat T_SYSCALL) with 64%nat. destruct (setgate_ok true 8 (vectors 64%nat) 3) as [Ht Hd]; [lia|lia|apply Hv|]. split; [exact Ht|exact Hd].
  - rewrite list_lookup_insert_ne in Hg by (change (Z.to_nat T_SYSCALL) with 64%nat; congruence). apply list_lookup_fmap_Some in Hg as (j & -> & Hj).
    apply lookup_seq in Hj as [-> _]. cbn [Nat.add]. rewrite decide_False, bool_decide_true by (unfold T_SYSCALL; lia).
    destruct (setgate_ok false 8 (vectors i) 0) as [Ht Hd]; [lia|lia|apply Hv|]. split; [exact Ht|exact Hd].
Qed.

(** Entry points in the kernel's high memory. *)
Lemma tvinit_typed_witness : exists g, tvinit (fun i => 0x80105000 + Z.of_nat (i mod 256)) !! 64%nat = Some g /\
  decode_gate (gate_words g) = Some (mkhandler 8 0x80105040 3 false).
Proof.
  destruct (tvinit_typed (fun i => 0x80105000 + Z.of_nat (i mod 256))) as [Hl H].
  - intros i. pose proof (Nat.mod_upper_bound i 256 ltac:(lia)). lia.
  - destruct (lookup_lt_is_Some_2 (tvinit (fun i => 0x80105000 + Z.of_nat (i mod 256))) 64) as [g Hg]; [rewrite Hl; lia|].
    exists g. split; [exact Hg|]. exact (proj2 (H 64%nat g Hg)).
Defined.

(** ** [procdump] *)

Definition state_name (st : procstate) : list Z :=
  match st with
  | UNUSED => chars "unused" | EMBRYO => chars "embryo" | SLEEPING => chars "sleep "
  | RUNNABLE => chars "runble" | RUNNING => chars "run   " | ZOMBIE => chars "zombie"
  end.
(** Two strings of a call, at addresses 1 and 100. *)
Definition two_strings (a b : list Z) : mem := store_bytes (name_mem a) 100 (b ++ [0]).
(** The return addresses, up to the first 0. *)
Fixpoint pcs_text (pcs : list Z) : option (list Z) :=
  match pcs with
  | [] => Some []
  | pc :: pcs =>
      if negb (pc =? 0) then t ← cprintf 0 (fun _ => 0) (chars " %p") [pc]; app t <$> pcs_text pcs
      else Some []
  end.
Definition dump_line (m : mem) (ticks : Z) (p : proc) : option (list Z) :=
  if is_state UNUSED p then Some [] else
  let elptime2 := i32 (u32 (ticks - p_start_ticks p) / 1000) in
  let elptime1 := i32 (u32 (ticks - p_start_ticks p) - u32 (elptime2 * 1000)) in
  t1 ← cprintf 17 (two_strings (p_name p) (state_name (p_state p)))
         (chars "%d" ++ TAB ++ chars " %s" ++ TAB ++ chars " %d.%d" ++ TAB ++ chars " %s" ++ TAB ++ chars " %d" ++ TAB)
         [p_pid p; 1; elptime2; elptime1; 100; p_sz p];
  t2 ← (if is_state SLEEPING p then pcs_text (getcallerpcs m (u32 (c_ebp (p_context p) + 8))) else Some []);
  Some (t1 ++ t2 ++ Syscall.NL).
Definition procdump_text (m : mem) (ticks : Z) (ps : list proc) : option (list Z) :=
  ls ← mapM (dump_line m ticks) ps;
  Some (chars "-PID- -STATE- -ELAPSE- -NAME- -SIZE- -PCs- " ++ Syscall.NL ++ mjoin ls ++ Syscall.NL).

(** ** [trap] *)

Inductive trap_end := Resumes | Exits | Waits | Yields.

Section trap.
Context {S : Type} `{!BlockStore S} `{!TxOps S}.
Context (kend kdata : Z) (initcode : list Z) (devsw : Z -> devops S).
Context (forkret ticks_addr input_addr : Z) (buf_addr : nat -> Z).   (* [forkret], [&ticks], [&input.r], buffers *)
Context (cmos : nat -> Z -> Z) (rounds : nat).
Context (lsr : nat -> Z) (fuel : nat).       (* the serial port's status, and the fuel of [consoleintr] *)

Abbreviation K := (@kstate S).
Abbreviation SV := (services kend kdata initcode devsw).

Record computer := mkcomputer {
  co_k : K;
  co_ide : ide;
  co_con : serial;
  co_lapic : Lapic.lstate
}.
Definition onk {A} (m : KM K A) : KM computer A :=
  zoom co_k (fun k c => mkcomputer k (co_ide c) (co_con c) (co_lapic c)) m.
Definition onide {A} (m : KM ide A) : KM computer A :=
  zoom co_ide (fun i c => mkcomputer (co_k c) i (co_con c) (co_lapic c)) m.
Definition oncon {A} (m : KM serial A) : KM computer A :=
  zoom co_con (fun s c => mkcomputer (co_k c) (co_ide c) s (co_lapic c)) m.
Definition onlapic {A} (m : KM Lapic.lstate A) : KM computer A :=
  zoom co_lapic (fun l c => mkcomputer (co_k c) (co_ide c) (co_con c) l) m.

(** [cprintf] of a text. *)
Definition print (text : option (list Z)) : KM computer unit :=
  match text with
  | Some l => oncon (echo true lsr l)
  | None => fault "cprintf"
  end.

(** What a console interrupt does to the rest of the kernel. *)
Definition consoleintr_end (r : bool * bool) : KM computer unit :=
  (if r.1 then onk (wakeup (ChanAddr input_addr)) else mret tt);;
  if r.2 then
    k ← kgets co_k;
    print (procdump_text (k_mem (fi_kmem (pt_env k))) (pt_ticks k) (pt_proc k))
  else mret tt.

Definition tick : KM computer unit :=
  onk (kmodify (fun t => mkptable (pt_env t) (pt_proc t) (pt_nextpid t) (pt_initproc t) (u32 (pt_ticks t + 1))));;
  onk (wakeup (ChanAddr ticks_addr)).

Definition spurious_text (cpu : Z) (tf : trapframe) : option (list Z) :=
  cprintf 0 (fun _ => 0) (chars "cpu%d: spurious interrupt at %x:%x" ++ Syscall.NL) [cpu; tf_cs tf; tf_eip tf].
Definition unexpected_text (cpu cr2 : Z) (tf : trapframe) : option (list Z) :=
  cprintf 0 (fun _ => 0) (chars "unexpected trap %d from cpu %d eip %x (cr2=0x%x)" ++ Syscall.NL) [tf_trapno tf; cpu; tf_eip tf; cr2].
Definition killed_text (p : proc) (cpu cr2 : Z) (tf : trapframe) : option (list Z) :=
  cprintf 17 (name_mem (p_name p))
    (chars "pid %d %s: trap %d err %d on cpu %d eip 0x%x addr 0x%x--kill proc" ++ Syscall.NL)
    [p_pid p; 1; tf_trapno tf; tf_err tf; cpu; tf_eip tf; cr2].

(** The [switch] of [trap], on processor [cpu] running [cur]. *)
Definition handle (cpu : Z) (cur : option nat) (cr2 : Z) (tf : trapframe) : KM computer unit :=
  let n := tf_trapno tf in
  if n =? T_IRQ0 + IRQ_TIMER then
    (if cpu =? 0 then tick else mret tt);;
    onlapic Lapic.lapiceoi
  else if n =? T_IRQ0 + IRQ_IDE then
    b ← onide ideintr;
    (match b with Some i => onk (wakeup (ChanAddr (buf_addr i))) | None => mret tt end);;
    onlapic Lapic.lapiceoi
  else if n =? T_IRQ0 + IRQ_IDE + 1 then mret tt
  else if n =? T_IRQ0 + IRQ_KBD then
    r ← oncon (kbdintr true lsr fuel);
    consoleintr_end r;;
    onlapic Lapic.lapiceoi
  else if n =? T_IRQ0 + IRQ_COM1 then
    r ← oncon (uartintr true lsr fuel);
    consoleintr_end r;;
    onlapic Lapic.lapiceoi
  else if (n =? T_IRQ0 + 7) || (n =? T_IRQ0 + IRQ_SPURIOUS) then
    print (spurious_text cpu tf);;
    onlapic Lapic.lapiceoi
  else
    match cur with
    | None => print (unexpected_text cpu cr2 tf);; panic "trap"
    | Some i =>
        if Z.land (tf_cs tf) 3 =? 0 then print (unexpected_text cpu cr2 tf);; panic "trap" else
        p ← onk (get_proc i);
        print (killed_text p cpu cr2 tf);;
        onk (upd_proc (set_killed 1) i)
    end.

(** [if(myproc() && myproc()->killed && (tf->cs&3) == DPL_USER) exit();] *)
Definition check_killed (cur : option nat) (tf : trapframe) (next : KM computer trap_end) : KM computer trap_end :=
  match cur with
  | None => next
  | Some i =>
      p ← onk (get_proc i);
      if negb (p_killed p =? 0) && (Z.land (tf_cs tf) 3 =? DPL_USER) then onk (@exit _ SV i);; mret Exits else next
  end.

(** After [yield] returned. *)
Definition trap_resumed (cur : option nat) (tf : trapframe) : KM computer trap_end := check_killed cur tf (mret Resumes).

(** After [syscall] returned. *)
Definition syscall_returned (i : nat) : KM computer trap_end :=
  p ← onk (get_proc i);
  if negb (p_killed p =? 0) then onk (@exit _ SV i);; mret Exits else mret Resumes.

Definition trap (cpu : Z) (cur : option nat) (cr2 : Z) (tf : trapframe) : KM computer trap_end :=
  if tf_trapno tf =? T_SYSCALL then
    match cur with
    | None => fault "trap: no process"
    | Some i =>
        p ← onk (get_proc i);
        if negb (p_killed p =? 0) then onk (@exit _ SV i);; mret Exits else
        onk (upd_proc (set_tf tf) i);;
        r ← onk (syscall kend kdata initcode devsw forkret ticks_addr cmos rounds i);
        match r with
        | Returns _ out => print (Some out);; syscall_returned i
        | Blocks => mret Waits
        | NoReturn => mret Exits
        end
    end
  else
    handle cpu cur cr2 tf;;
    check_killed cur tf
      match cur with
      | None => mret Resumes
      | Some i =>
          p ← onk (get_proc i);
          if is_state RUNNING p && (tf_trapno tf =? T_IRQ0 + IRQ_TIMER) then onk (yield i);; mret Yields
          else trap_resumed cur tf
      end.
End trap.
