(* ===== verification/TrapSpec.v ===== *)
(** * What a trap does: theorems about [trap.c]

    [trap_no_return_killed]: a process that has been killed never goes back to
    user mode.  [trap_user_fault]: an exception in user mode ends that process
    and touches no other; [trap_interrupt]: an interrupt from a device is
    acknowledged, wakes the processes it should and otherwise leaves the
    processes alone, the clock's also preempting the one that ran. *)

From S2P Require Import Prelude CString Mmu Printf Rtc Kalloc Vm VmCopyout Sleeplock Spinlock Bio Log BlockStore Pipe Fs File Proc Kernel Exec Sysfile Syscall Ide Console Kbd Apic Uart Trap FsDemo FileSpec.

(** ** Texts *)

(** A string that ends in its buffer. *)
Definition named (p : proc) : Prop := exists k : nat, (k < 16)%nat /\ p_name p !! k = Some 0.

Lemma put_string_total m : forall fuel s k, (k < fuel)%nat -> m (s + Z.of_nat k) = 0 -> is_Some (put_string fuel m s).
Proof.
  induction fuel as [|fuel IH]; intros s k Hk Hm; [lia|]. cbn [put_string]. destruct (m s =? 0) eqn:E; [by eexists|].
  destruct k as [|k]; [rewrite Z.add_0_r in Hm; lia|]. destruct (IH (s + 1) k) as [l ->]; [lia|by replace (s + 1 + Z.of_nat k) with (s + Z.of_nat (S k)) by lia|by eexists].
Qed.
Lemma name_total p : named p -> is_Some (put_strarg 17 (name_mem (p_name p)) 1).
Proof.
  intros (k & Hk & Hn). unfold put_strarg. apply (put_string_total _ _ _ k); [lia|]. unfold name_mem. rewrite store_bytes_at, decide_True by lia.
  replace (Z.to_nat (1 + Z.of_nat k - 1)) with k by lia. by rewrite Hn.
Qed.

Lemma spurious_total cpu tf : is_Some (spurious_text cpu tf).
Proof. by apply (cprintf_total _ _ _ _ []). Qed.
Lemma unexpected_total cpu cr2 tf : is_Some (unexpected_text cpu cr2 tf).
Proof. by apply (cprintf_total _ _ _ _ []). Qed.
Lemma killed_total p cpu cr2 tf : named p -> is_Some (killed_text p cpu cr2 tf).
Proof.
  intros Hp. apply (cprintf_total _ _ _ _ [1]); [vm_compute; reflexivity|]. apply Forall_singleton. by apply name_total.
Qed.

Lemma pcs_total pcs : is_Some (pcs_text pcs).
Proof.
  induction pcs as [|pc pcs [t IH]]; cbn [pcs_text]; [by eexists|]. destruct (negb _); [|by eexists].
  destruct (cprintf_total 0 (fun _ => 0) (chars " %p") [pc] []) as [o ->]; [done|done|]. simpl. rewrite IH. by eexists.
Qed.
Lemma dump_line_total m ticks p : named p -> is_Some (dump_line m ticks p).
Proof.
  intros Hn. unfold dump_line. destruct (is_state UNUSED p); [by eexists|]. cbv zeta.
  match goal with |- is_Some (cprintf ?f ?mm ?fmt ?args ≫= _) => destruct (cprintf_total f mm fmt args [1; 100]) as [t1 ->] end; [vm_compute; reflexivity| |].
  - unfold put_strarg. cbn [Z.eqb]. repeat (apply Forall_cons; split); [| |apply Forall_nil; done].
    + destruct Hn as (k & Hk & Hn). apply (put_string_total _ _ _ k); [lia|]. unfold two_strings, name_mem. rewrite store_bytes_at, decide_False, store_bytes_at, decide_True by lia.
      replace (Z.to_nat (1 + Z.of_nat k - 1)) with k by lia. by rewrite Hn.
    + apply (put_string_total _ _ _ 6); [lia|]. unfold two_strings. rewrite store_bytes_at, decide_True by lia. by destruct (p_state p).
  - destruct (is_state SLEEPING p); [destruct (pcs_total (getcallerpcs m (u32 (c_ebp (p_context p) + 8)))) as [t ->]|]; by eexists.
Qed.
Lemma dump_total m ticks ps : Forall named ps -> is_Some (procdump_text m ticks ps).
Proof.
  intros Hp. unfold procdump_text. destruct (proj2 (mapM_is_Some (dump_line m ticks) ps)) as [ls ->]; [|by eexists].
  eapply Forall_impl; [exact Hp|]. apply dump_line_total.
Qed.

(** ** Running the parts of the computer *)

Section trap_spec.
Context {S : Type} `{!BlockStore S} `{!TxOps S}.
Context (kend kdata : Z) (initcode : list Z) (devsw : Z -> devops S).
Context (forkret ticks_addr input_addr : Z) (buf_addr : nat -> Z).
Context (cmos : nat -> Z -> Z) (rounds : nat) (lsr : nat -> Z) (fuel : nat).

Abbreviation K := (@kstate S).
Abbreviation SV := (services kend kdata initcode devsw).
Abbreviation trap := (trap kend kdata initcode devsw forkret ticks_addr input_addr buf_addr cmos rounds lsr fuel).
Abbreviation handle := (handle ticks_addr input_addr buf_addr lsr fuel).
Abbreviation computer := (@computer S).

Definition set_k (k : K) (c : computer) : computer := mkcomputer k (co_ide c) (co_con c) (co_lapic c).

Lemma onk_done {A} (m : KM K A) (c : computer) a k : m (co_k c) = Done a k -> onk m c = Done a (set_k k c).
Proof. unfold onk, zoom. by intros ->. Qed.
Lemma onk_get i (c : computer) p : pt_proc (co_k c) !! i = Some p -> onk (get_proc i) c = Done p c.
Proof. intros E. unfold onk, zoom, get_proc. rewrite E. by destruct c. Qed.
Lemma onk_upd f i (c : computer) : onk (upd_proc f i) c = Done tt (set_k (set_procs (alter f i (pt_proc (co_k c))) (co_k c)) c).
Proof. done. Qed.
Lemma onk_wakeup ch (c : computer) : onk (wakeup ch) c = Done tt (set_k (set_procs (wakeup1 (Some ch) (pt_proc (co_k c))) (co_k c)) c).
Proof. done. Qed.

(** Only the screen and the serial line changed. *)
Definition printed (c c' : computer) : Prop :=
  c' = mkcomputer (co_k c) (co_ide c) (co_con c') (co_lapic c) /\ live (co_con c') /\ sr_input (co_con c') = sr_input (co_con c) /\ sr_kbd (co_con c') = sr_kbd (co_con c).

Lemma print_spec t (c : computer) : live (co_con c) -> is_Some t -> wp (print lsr t) c (fun _ c' => printed c c').
Proof.
  intros Hl [l ->]. apply wp_zoom. eapply wp_mono; [by apply echo_spec|]. intros [] s He. split_and!; cbn [co_con].
  - done.
  - by eapply echoed_live.
  - by destruct He as (_ & -> & _).
  - by destruct He as (_ & _ & _ & _ & ->).
Qed.

(** ** A killed process *)

Lemma onk_get_inv i (c : computer) p c' : onk (get_proc i) c = Done p c' -> c' = c /\ pt_proc (co_k c) !! i = Some p.
Proof. unfold onk, zoom, get_proc. destruct (pt_proc (co_k c) !! i) as [q|] eqn:E; [|done]. intros [= -> <-]. by destruct c. Qed.

Lemma check_killed_alive i tf next (c c' : computer) : Z.land (tf_cs tf) 3 = DPL_USER -> check_killed kend kdata initcode devsw (Some i) tf next c = Done Resumes c' ->
  exists p, pt_proc (co_k c) !! i = Some p /\ p_killed p = 0 /\ next c = Done Resumes c'.
Proof.
  intros Hu H. unfold check_killed in H. apply bind_done_inv in H as (p & c1 & Hp & H). apply onk_get_inv in Hp as [-> Hp].
  rewrite Hu, Z.eqb_refl, andb_true_r in H. destruct (Z.eqb_spec (p_killed p) 0) as [Hk|Hk]; cbn [negb] in H.
  - by exists p.
  - by apply bind_done_inv in H as (u & c2 & _ & [= ]).
Qed.
Lemma trap_resumed_alive i tf (c c' : computer) : Z.land (tf_cs tf) 3 = DPL_USER -> trap_resumed kend kdata initcode devsw (Some i) tf c = Done Resumes c' ->
  exists p, pt_proc (co_k c') !! i = Some p /\ p_killed p = 0.
Proof. intros Hu H. apply check_killed_alive in H as (p & Hp & Hk & [= <-]); [|done]. by exists p. Qed.

Lemma syscall_returned_alive i (c c' : computer) : syscall_returned kend kdata initcode devsw i c = Done Resumes c' ->
  exists p, pt_proc (co_k c') !! i = Some p /\ p_killed p = 0.
Proof.
  intros H. unfold syscall_returned in H. apply bind_done_inv in H as (p & c1 & Hp & H). apply onk_get_inv in Hp as [-> Hp].
  destruct (Z.eqb_spec (p_killed p) 0) as [Hk|Hk]; cbn [negb] in H.
  - injection H as <-. by exists p.
  - by apply bind_done_inv in H as (u & c2 & _ & [= ]).
Qed.

Lemma trap_alive cpu i cr2 tf (c c' : computer) : Z.land (tf_cs tf) 3 = DPL_USER -> trap cpu (Some i) cr2 tf c = Done Resumes c' ->
  exists p, pt_proc (co_k c') !! i = Some p /\ p_killed p = 0.
Proof.
  intros Hu H. unfold Trap.trap in H. destruct (tf_trapno tf =? T_SYSCALL).
  - apply bind_done_inv in H as (p & c1 & Hp & H). destruct (negb _); [by apply bind_done_inv in H as (u & c2 & _ & [= ])|].
    apply bind_done_inv in H as (u & c2 & _ & H). apply bind_done_inv in H as (r & c3 & _ & H). destruct r as [v out| |]; [|done|done].
    apply bind_done_inv in H as (u' & c4 & _ & H). by apply syscall_returned_alive in H.
  - apply bind_done_inv in H as (u & c1 & _ & H). apply check_killed_alive in H as (p & _ & _ & H); [|done].
    apply bind_done_inv in H as (q & c2 & _ & H). destruct (_ && _); [by apply bind_done_inv in H as (u' & c3 & _ & [= ])|].
    by eapply trap_resumed_alive.
Qed.

(** ** Exceptions *)

Definition devices : list Z := [T_IRQ0 + IRQ_TIMER; T_IRQ0 + IRQ_IDE; T_IRQ0 + IRQ_IDE + 1; T_IRQ0 + IRQ_KBD; T_IRQ0 + IRQ_COM1; T_IRQ0 + 7; T_IRQ0 + IRQ_SPURIOUS].
(** Neither a system call nor an interrupt of a device. *)
Definition exception (n : Z) : Prop := n <> T_SYSCALL /\ n ∉ devices.

Lemma handle_exception cpu cur cr2 tf : exception (tf_trapno tf) -> handle cpu cur cr2 tf =
  match cur with
  | None => print lsr (unexpected_text cpu cr2 tf);; panic "trap"
  | Some i =>
      if Z.land (tf_cs tf) 3 =? 0 then print lsr (unexpected_text cpu cr2 tf);; panic "trap" else
      p ← onk (get_proc i);
      print lsr (killed_text p cpu cr2 tf);;
      onk (upd_proc (set_killed 1) i)
  end :> KM computer unit.
Proof.
  intros [_ Hd]. unfold Trap.handle. cbv zeta. unfold devices in Hd. rewrite !not_elem_of_cons in Hd. destruct Hd as (H1 & H2 & H3 & H4 & H5 & H6 & H7 & _).
  rewrite !(proj2 (Z.eqb_neq (tf_trapno tf) _)) by done. done.
Qed.

Lemma fault_kills cpu i cr2 tf (c : computer) p : exception (tf_trapno tf) -> Z.land (tf_cs tf) 3 = DPL_USER ->
  pt_proc (co_k c) !! i = Some p -> named p -> live (co_con c) ->
  exists c1, printed c c1 /\ handle cpu (Some i) cr2 tf c = Done tt (set_k (set_procs (alter (set_killed 1) i (pt_proc (co_k c))) (co_k c)) c1).
Proof.
  intros He Hu Hp Hn Hl. rewrite handle_exception by done. rewrite Hu. cbn [Z.eqb DPL_USER]. rewrite (bind_done _ _ _ _ _ (onk_get i c p Hp)).
  pose proof (print_spec (killed_text p cpu cr2 tf) c Hl (killed_total _ _ _ _ Hn)) as H. apply wp_inv in H as ([] & c1 & E & Hpr).
  exists c1. split; [done|]. rewrite (bind_done _ _ _ _ _ E), onk_upd. destruct Hpr as (-> & _). done.
Qed.

Lemma user_fault cpu i cr2 tf (c : computer) p : exception (tf_trapno tf) -> Z.land (tf_cs tf) 3 = DPL_USER ->
  pt_proc (co_k c) !! i = Some p -> named p -> live (co_con c) ->
  exists c1, printed c c1 /\
    trap cpu (Some i) cr2 tf c = (onk (@exit _ SV i);; mret Exits) (set_k (set_procs (alter (set_killed 1) i (pt_proc (co_k c))) (co_k c)) c1).
Proof.
  intros He Hu Hp Hn Hl. destruct (fault_kills cpu i cr2 tf c p He Hu Hp Hn Hl) as (c1 & Hpr & E). exists c1. split; [done|].
  unfold Trap.trap. rewrite (proj2 (Z.eqb_neq (tf_trapno tf) T_SYSCALL)) by apply He. rewrite (bind_done _ _ _ _ _ E). unfold check_killed.
  assert (Hi : pt_proc (co_k (set_k (set_procs (alter (set_killed 1) i (pt_proc (co_k c))) (co_k c)) c1)) !! i = Some (set_killed 1 p))
    by (cbn [co_k set_k set_procs pt_proc]; by rewrite list_lookup_alter_eq, Hp).
  rewrite (bind_done _ _ _ _ _ (onk_get i _ _ Hi)).
  cbn [set_killed p_killed]. rewrite Hu. done.
Qed.

Lemma kernel_fault cpu cur cr2 tf (c : computer) : exception (tf_trapno tf) -> cur = None \/ Z.land (tf_cs tf) 3 = 0 -> live (co_con c) ->
  trap cpu cur cr2 tf c = Panic "trap".
Proof.
  intros He Hk Hl. assert (E : handle cpu cur cr2 tf c = Panic "trap").
  { rewrite handle_exception by done. pose proof (print_spec (unexpected_text cpu cr2 tf) c Hl (unexpected_total _ _ _)) as H. apply wp_inv in H as ([] & c1 & E & _).
    destruct cur as [i|]; [destruct Hk as [|Hk]; [done|]; rewrite Hk; cbn [Z.eqb]|]; rewrite (bind_done _ _ _ _ _ E); done. }
  unfold Trap.trap. rewrite (proj2 (Z.eqb_neq (tf_trapno tf) T_SYSCALL)) by apply He. unfold mbind at 1, km_bind. by rewrite E.
Qed.

(** ** Interrupts *)

(** The channel an interrupt wakes: [&ticks], the buffer at the head of the
    disk's queue, or [&input.r] when the console has a line for its reader. *)
Definition wakes (cpu n : Z) (c : computer) : option chan :=
  if n =? T_IRQ0 + IRQ_TIMER then if cpu =? 0 then Some (ChanAddr ticks_addr) else None
  else if n =? T_IRQ0 + IRQ_IDE then
    (fun i => ChanAddr (buf_addr i)) <$> id_queue (co_ide c)
  else if n =? T_IRQ0 + IRQ_KBD then
    match kbdintr true lsr fuel (co_con c) with Done (true, _) _ => Some (ChanAddr input_addr) | _ => None end
  else if n =? T_IRQ0 + IRQ_COM1 then
    match uartintr true lsr fuel (co_con c) with Done (true, _) _ => Some (ChanAddr input_addr) | _ => None end
  else None.
Definition woken (ch : option chan) (ps : list proc) : list proc := match ch with Some ch => wakeup1 (Some ch) ps | None => ps end.
(** The devices are in a state their handlers can work with: the disk driver
    is in a state it reaches, drive errors included, and the drive, which
    interrupts when its command has ended, is not busy; no more characters
    wait than [fuel] allows. *)
Definition device_ready (n : Z) (c : computer) : Prop :=
  live (co_con c) /\ Forall named (pt_proc (co_k c)) /\ Lapic.l_lapic (co_lapic c) <> 0 /\
  (n = T_IRQ0 + IRQ_IDE -> (exists a, Ide.System.reachable (co_ide c, a)) /\ dk_busy (id_drive (co_ide c)) = false) /\
  (n = T_IRQ0 + IRQ_KBD -> (length (sr_kbd (co_con c)).1 < fuel)%nat) /\
  (n = T_IRQ0 + IRQ_COM1 -> Forall is_byte (u_rx (sr_uart (co_con c))) /\ (length (u_rx (sr_uart (co_con c))) < fuel)%nat).

(** What the handler leaves. *)
Definition kernel_after (cpu n : Z) (c : computer) : K :=
  let k := co_k c in
  mkptable (pt_env k) (woken (wakes cpu n c) (pt_proc k)) (pt_nextpid k) (pt_initproc k)
           (if (n =? T_IRQ0 + IRQ_TIMER) && (cpu =? 0) then u32 (pt_ticks k + 1) else pt_ticks k).
Definition acked (n : Z) : list (Z * Z) := if n =? T_IRQ0 + IRQ_IDE + 1 then [] else [(Lapic.EOI, 0)].
Definition served_irq (cpu n : Z) (c c' : computer) : Prop :=
  co_k c' = kernel_after cpu n c /\ live (co_con c') /\ Lapic.l_log (co_lapic c') = Lapic.l_log (co_lapic c) ++ acked n.

Lemma eoi_spec (c : computer) (Q : unit -> computer -> Prop) : Lapic.l_lapic (co_lapic c) <> 0 ->
  (forall l, Lapic.l_log l = Lapic.l_log (co_lapic c) ++ [(Lapic.EOI, 0)] -> Q tt (mkcomputer (co_k c) (co_ide c) (co_con c) l)) ->
  wp (onlapic Lapic.lapiceoi) c Q.
Proof.
  intros Hl HQ. apply wp_zoom. unfold Lapic.lapiceoi. apply wp_bind, wp_gets. rewrite (proj2 (Z.eqb_neq _ 0) Hl). cbn [negb]. apply wp_modify. by apply HQ.
Qed.

Lemma kbd_length codes : forall shift, length (kbd_chars codes shift).2 = length codes.
Proof.
  induction codes as [|d codes IH]; intros shift; cbn [kbd_chars]; [done|]. destruct (kbdgetc (Some d) shift) as [sh ch].
  specialize (IH sh). destruct (kbd_chars codes sh). cbn [snd length] in *. by rewrite IH.
Qed.
Lemma kbdintr_total con : live con -> (length (sr_kbd con).1 < fuel)%nat -> exists r con', kbdintr true lsr fuel con = Done r con' /\ live con'.
Proof.
  intros Hl Hf. pose proof (intr_loop_spec lsr kbd_next _ kbd_source (kbd_chars (sr_kbd con).1 (sr_kbd con).2).2 fuel con false false Hl eq_refl (kbd_chars_bytes _ _)) as H.
  rewrite kbd_length in H. apply wp_inv in H as (r & con' & E & w & d & _ & (out & w' & d' & _ & _ & _ & Hl') & _); [|done]. by exists r, con'.
Qed.
Lemma uartintr_total con : live con -> Forall is_byte (u_rx (sr_uart con)) -> (length (u_rx (sr_uart con)) < fuel)%nat ->
  exists r con', uartintr true lsr fuel con = Done r con' /\ live con'.
Proof.
  intros Hl Hb Hf. pose proof (intr_loop_spec lsr _ _ (uart_source lsr) _ fuel con false false Hl eq_refl Hb Hf) as H.
  apply wp_inv in H as (r & con' & E & w & d & _ & (out & w' & d' & _ & _ & _ & Hl') & _). by exists r, con'.
Qed.

(** The handler of the disk returns, and wakes the head of the queue. *)
Lemma ideintr_total d a : Ide.System.reachable (d, a) -> dk_busy (id_drive d) = false ->
  exists d', ideintr d = Done (id_queue d) d'.
Proof.
  intros Hr Hb. destruct (Ide.System.ide_reachable_inv _ Hr) as [l I]. cbn [fst snd] in I. pose proof (Ide.iv_links _ _ _ I) as Hl.
  destruct l as [|i l].
  - exists d. rewrite (Hl : id_queue d = None). by eapply ideintr_empty.
  - destruct Hl as [-> _]. destruct (Ide.iv_reqs _ _ _ I i) as (b & Hi & _); [by left|].
    destruct (ideintr_spec d a i l b I Hi Hb) as (d' & E & _). by exists d'.
Qed.

Lemma named_wake ch p : named p -> named (wake_on ch p).
Proof. unfold named, wake_on. by destruct (_ && _). Qed.
Lemma consoleintr_end_spec (r : bool * bool) (c : computer) : live (co_con c) -> Forall named (pt_proc (co_k c)) ->
  wp (consoleintr_end input_addr lsr r) c (fun _ c' => co_k c' = set_procs (woken (if r.1 then Some (ChanAddr input_addr) else None) (pt_proc (co_k c))) (co_k c) /\
    co_lapic c' = co_lapic c /\ live (co_con c')).
Proof.
  intros Hl Hn. unfold consoleintr_end. set (k := set_procs _ _). assert (H : forall c1 : computer, co_k c1 = k -> co_lapic c1 = co_lapic c -> live (co_con c1) ->
    wp (if r.2 then k ← kgets co_k; print lsr (procdump_text (k_mem (fi_kmem (pt_env k))) (pt_ticks k) (pt_proc k)) else mret tt) c1
       (fun _ c' => co_k c' = k /\ co_lapic c' = co_lapic c /\ live (co_con c'))).
  { intros c1 Hk Hla Hl1. destruct r.2; [|by apply wp_ret]. apply wp_bind, wp_gets. eapply wp_mono; [apply print_spec; [done|apply dump_total]|].
    - rewrite Hk. unfold k. cbn [set_procs pt_proc]. destruct r.1; cbn [woken]; [|done]. unfold wakeup1. apply Forall_fmap. eapply Forall_impl; [exact Hn|]. intros p. apply named_wake.
    - intros [] c2 (-> & Hl2 & _). done. }
  apply wp_bind. destruct r.1 eqn:E; [eapply wp_done; [apply onk_wakeup|]|apply wp_ret]; apply H; try done. unfold k. cbn. by destruct (co_k c).
Qed.

Lemma handle_irq cpu cur cr2 tf (c : computer) : tf_trapno tf ∈ devices -> device_ready (tf_trapno tf) c ->
  wp (handle cpu cur cr2 tf) c (fun _ c' => served_irq cpu (tf_trapno tf) c c').
Proof.
  intros Hn (Hl & Hnm & Hla & Hide & Hkbd & Hcom). unfold Trap.handle, served_irq, kernel_after, wakes, acked. cbv zeta.
  assert (Hset : forall k : K, mkptable (pt_env k) (pt_proc k) (pt_nextpid k) (pt_initproc k) (pt_ticks k) = k) by (by intros []).
  unfold devices in Hn. rewrite !elem_of_cons in Hn. destruct Hn as [E|[E|[E|[E|[E|[E|[E|E]]]]]]]; [..|by apply elem_of_nil in E]; rewrite E in *; clear E;
    change (T_IRQ0 + IRQ_TIMER) with 32; change (T_IRQ0 + IRQ_IDE) with 46; change (46 + 1) with 47; change (T_IRQ0 + IRQ_KBD) with 33; change (T_IRQ0 + IRQ_COM1) with 36;
    change (T_IRQ0 + 7) with 39; change (T_IRQ0 + IRQ_SPURIOUS) with 63; cbn [Z.eqb Pos.eqb andb orb].
  - apply wp_bind. destruct (cpu =? 0).
    + unfold tick. apply wp_bind, wp_zoom, wp_modify. eapply wp_done; [apply onk_wakeup|]. apply eoi_spec; [done|]. intros l Hlog. cbn [co_k co_con co_lapic set_k set_procs pt_env pt_proc pt_nextpid pt_initproc pt_ticks woken] in *. done.
    + apply wp_ret. apply eoi_spec; [done|]. intros l Hlog. cbn [co_k co_con co_lapic set_k set_procs pt_env pt_proc pt_nextpid pt_initproc pt_ticks woken] in *. by rewrite Hset.
  - destruct Hide as [[a Hr] Hb]; [done|]. destruct (ideintr_total _ a Hr Hb) as [d E]. apply wp_bind, wp_zoom. eapply wp_done; [exact E|]. apply wp_bind. destruct (id_queue (co_ide c)) as [j|].
    + eapply wp_done; [apply onk_wakeup|]. apply eoi_spec; [done|]. intros l Hlog. cbn [co_k co_con co_lapic set_k set_procs pt_env pt_proc pt_nextpid pt_initproc pt_ticks woken] in *. done.
    + apply wp_ret. apply eoi_spec; [done|]. intros l Hlog. cbn [co_k co_con co_lapic set_k set_procs pt_env pt_proc pt_nextpid pt_initproc pt_ticks woken] in *. by rewrite Hset.
  - apply wp_ret. cbn [woken]. rewrite Hset, app_nil_r. done.
  - destruct (kbdintr_total (co_con c) Hl (Hkbd eq_refl)) as (r & con & E & Hl'). rewrite E. apply wp_bind, wp_zoom. eapply wp_done; [exact E|].
    apply wp_bind. eapply wp_mono; [apply consoleintr_end_spec; done|]. cbn [co_k co_lapic co_con]. intros [] c1 (Hk & Hla1 & Hl1). apply eoi_spec; [by rewrite Hla1|]. intros l Hlog. cbn [co_k co_con co_lapic set_k set_procs pt_env pt_proc pt_nextpid pt_initproc pt_ticks woken] in *.
    rewrite Hk, <- Hla1. split_and!; [|done|done]. by destruct r as [[] d].
  - destruct (uartintr_total (co_con c) Hl) as (r & con & E & Hl'); [by apply Hcom..|]. rewrite E. apply wp_bind, wp_zoom. eapply wp_done; [exact E|].
    apply wp_bind. eapply wp_mono; [apply consoleintr_end_spec; done|]. cbn [co_k co_lapic co_con]. intros [] c1 (Hk & Hla1 & Hl1). apply eoi_spec; [by rewrite Hla1|]. intros l Hlog. cbn [co_k co_con co_lapic set_k set_procs pt_env pt_proc pt_nextpid pt_initproc pt_ticks woken] in *.
    rewrite Hk, <- Hla1. split_and!; [|done|done]. by destruct r as [[] d].
  - apply wp_bind. eapply wp_mono; [apply print_spec; [done|apply spurious_total]|]. intros [] c1 (-> & Hl1 & _). apply eoi_spec; [done|]. intros l Hlog. cbn [co_k co_con co_lapic set_k set_procs pt_env pt_proc pt_nextpid pt_initproc pt_ticks woken] in *. by rewrite Hset.
  - apply wp_bind. eapply wp_mono; [apply print_spec; [done|apply spurious_total]|]. intros [] c1 (-> & Hl1 & _). apply eoi_spec; [done|]. intros l Hlog. cbn [co_k co_con co_lapic set_k set_procs pt_env pt_proc pt_nextpid pt_initproc pt_ticks woken] in *. by rewrite Hset.
Qed.

(** The process that was interrupted, if any, runs. *)
Definition running (cur : option nat) (c : computer) : Prop :=
  match cur with None => True | Some i => exists p, pt_proc (co_k c) !! i = Some p /\ p_state p = RUNNING end.
(** It was in user mode and has been killed. *)
Definition doomed (cur : option nat) (tf : trapframe) (c : computer) : bool :=
  match cur ≫= (pt_proc (co_k c) !!.) with
  | Some p => negb (p_killed p =? 0) && (Z.land (tf_cs tf) 3 =? DPL_USER)
  | None => false
  end.
(** The processes when the interrupt has been dealt with, and how [trap] ends. *)
Definition preempted (cur : option nat) (tf : trapframe) (c : computer) (ps : list proc) : list proc :=
  match cur with
  | Some i => if (tf_trapno tf =? T_IRQ0 + IRQ_TIMER) && negb (doomed cur tf c) then alter (set_state RUNNABLE) i ps else ps
  | None => ps
  end.
Definition irq_end (cur : option nat) (tf : trapframe) (c : computer) : KM computer trap_end :=
  match cur with
  | Some i =>
      if doomed cur tf c then onk (@exit _ SV i);; mret Exits
      else mret (if tf_trapno tf =? T_IRQ0 + IRQ_TIMER then Yields else Resumes)
  | None => mret Resumes
  end.

Lemma woken_running ch ps i p : ps !! i = Some p -> p_state p = RUNNING -> woken ch ps !! i = Some p.
Proof.
  intros Hp Hr. destruct ch as [ch|]; [|done]. cbn [woken]. unfold wakeup1. rewrite list_lookup_fmap, Hp. cbn. unfold wake_on, is_state. by rewrite Hr.
Qed.

Lemma irq_spec cpu cur cr2 tf (c : computer) : tf_trapno tf ∈ devices -> device_ready (tf_trapno tf) c -> running cur c ->
  exists c', trap cpu cur cr2 tf c = irq_end cur tf c c' /\
    co_k c' = (let k := kernel_after cpu (tf_trapno tf) c in set_procs (preempted cur tf c (pt_proc k)) k) /\
    live (co_con c') /\ Lapic.l_log (co_lapic c') = Lapic.l_log (co_lapic c) ++ acked (tf_trapno tf).
Proof.
  intros Hn Hd Hr. unfold Trap.trap. assert (Hns : tf_trapno tf <> T_SYSCALL) by (intros E; rewrite E in Hn; revert Hn; apply (bool_decide_unpack _); vm_compute; exact I).
  rewrite (proj2 (Z.eqb_neq _ _) Hns). pose proof (handle_irq cpu cur cr2 tf c Hn Hd) as H. apply wp_inv in H as ([] & c1 & E & Hk & Hl & Hlog).
  rewrite (bind_done _ _ _ _ _ E).
  assert (Hid : set_procs (pt_proc (kernel_after cpu (tf_trapno tf) c)) (kernel_after cpu (tf_trapno tf) c) = kernel_after cpu (tf_trapno tf) c) by done.
  destruct cur as [i|]; [|exists c1; cbn [check_killed irq_end preempted]; by rewrite Hid].
  destruct Hr as (p & Hp & Hst). assert (Hp1 : pt_proc (co_k c1) !! i = Some p) by (rewrite Hk; by apply woken_running).
  assert (Hg : onk (get_proc i) c1 = Done p c1) by by apply onk_get.
  unfold check_killed, trap_resumed, check_killed. rewrite (bind_done _ _ _ _ _ Hg). assert (Edm : doomed (Some i) tf c = negb (p_killed p =? 0) && (Z.land (tf_cs tf) 3 =? DPL_USER)) by (unfold doomed; simpl; by rewrite Hp).
  unfold irq_end, preempted. rewrite Edm.
  destruct (negb (p_killed p =? 0) && (Z.land (tf_cs tf) 3 =? DPL_USER)) eqn:Ed; [exists c1; cbn [negb]; by rewrite andb_false_r, Hid|].
  unfold mbind at 1, km_bind at 1. rewrite Hg. unfold is_state. rewrite bool_decide_true by done. cbn [andb negb]. rewrite andb_true_r. destruct (tf_trapno tf =? T_IRQ0 + IRQ_TIMER).
  - exists (set_k (set_procs (alter (set_state RUNNABLE) i (pt_proc (co_k c1))) (co_k c1)) c1).
    split; [done|]. cbn [co_k set_k co_con co_lapic]. by rewrite Hk.
  - exists c1. rewrite (bind_done _ _ _ _ _ Hg), Ed. by rewrite Hid.
Qed.
End trap_spec.

(** ** Properties *)

(** C11.  A killed process does not return to user mode: whatever the trap, a
    system call, an interrupt or an exception, when [trap] goes back to code
    that ran in user mode the process has not been killed, and neither when
    it goes back after having given up the processor to the clock.  (A system
    call that goes to sleep ends this [trap] step without a return.) *)
Theorem trap_no_return_killed {S : Type} `{!BlockStore S} `{!TxOps S} kend kdata initcode devsw forkret ticks_addr input_addr buf_addr cmos rounds lsr fuel
    cpu i cr2 tf (c c' : @computer S) :
  Z.land (tf_cs tf) 3 = DPL_USER ->
  trap kend kdata initcode devsw forkret ticks_addr input_addr buf_addr cmos rounds lsr fuel cpu (Some i) cr2 tf c = Done Resumes c' \/
  trap_resumed kend kdata initcode devsw (Some i) tf c = Done Resumes c' ->
  exists p, pt_proc (co_k c') !! i = Some p /\ p_killed p = 0.
Proof. intros Hu [H|H]; [by eapply trap_alive|by eapply trap_resumed_alive]. Qed.

(** Exceptions.  One in user mode is reported on the console and marks
    that process as killed, nothing else in the kernel changes, and [trap]
    then goes on with [exit] for that process.  One in the kernel, or with no
    process on the processor, makes the kernel panic. *)
Theorem trap_exception {S : Type} `{!BlockStore S} `{!TxOps S} kend kdata initcode devsw forkret ticks_addr input_addr buf_addr cmos rounds lsr fuel
    cpu cur cr2 tf (c : @computer S) :
  exception (tf_trapno tf) -> live (co_con c) ->
  let run := trap kend kdata initcode devsw forkret ticks_addr input_addr buf_addr cmos rounds lsr fuel cpu cur cr2 tf c in
  (cur = None \/ Z.land (tf_cs tf) 3 = 0 -> run = Panic "trap") /\
  (forall i p, cur = Some i -> Z.land (tf_cs tf) 3 = DPL_USER -> pt_proc (co_k c) !! i = Some p -> named p ->
    exists c1, printed c c1 /\
      run = (onk (@exit _ (services kend kdata initcode devsw) i);; mret Exits) (set_k (set_procs (alter (set_killed 1) i (pt_proc (co_k c))) (co_k c)) c1)).
Proof.
  intros He Hl run. split; [intros Hk; by apply kernel_fault|]. intros i p -> Hu Hp Hn. by eapply user_fault.
Qed.

(** C21.  Interrupts of the devices, in user mode, in the kernel or on an idle
    processor, with the disk driver in any state it reaches and its drive done
    with its command, and with fewer characters waiting than the loops' bound.
    The handler returns; the interrupt is acknowledged once (that of the second
    disk not at all); the processes that wait for the tick, for the oldest disk
    request or for a line of input are made runnable and no other process
    changes; the clock counts on the first processor.  If the interrupted
    process has been killed and was in user mode, [trap] then goes on with its
    [exit].  In all other cases [trap] ends: the clock, and it alone, takes the
    processor from the process that was running, and the interrupted code
    resumes otherwise. *)
Theorem trap_interrupt {S : Type} `{!BlockStore S} `{!TxOps S} kend kdata initcode devsw forkret ticks_addr input_addr buf_addr cmos rounds lsr fuel
    cpu cur cr2 tf (c : @computer S) :
  let n := tf_trapno tf in
  n ∈ devices -> device_ready fuel n c -> running cur c ->
  exists c', trap kend kdata initcode devsw forkret ticks_addr input_addr buf_addr cmos rounds lsr fuel cpu cur cr2 tf c =
      irq_end kend kdata initcode devsw cur tf c c' /\
    pt_proc (co_k c') = preempted cur tf c (woken (wakes ticks_addr input_addr buf_addr lsr fuel cpu n c) (pt_proc (co_k c))) /\
    pt_ticks (co_k c') = (if (n =? T_IRQ0 + IRQ_TIMER) && (cpu =? 0) then u32 (pt_ticks (co_k c) + 1) else pt_ticks (co_k c)) /\
    pt_env (co_k c') = pt_env (co_k c) /\ live (co_con c') /\ Lapic.l_log (co_lapic c') = Lapic.l_log (co_lapic c) ++ acked n.
Proof.
  intros n Hn Hd Hr.
  destruct (irq_spec kend kdata initcode devsw forkret ticks_addr input_addr buf_addr cmos rounds lsr fuel cpu cur cr2 tf c Hn Hd Hr) as (c' & E & Hk & Hl & Hlog).
  exists c'. rewrite Hk. done.
Qed.

(** ** A computer *)

(** Init, the process that runs, and one that sleeps until the next tick. *)
Definition demo_procs : list proc :=
  [set_state RUNNABLE proc0; set_pid 2 (set_state RUNNING proc0); set_pid 3 (sleep_on (ChanAddr 0x80112000) proc0)].
Definition demo_con (rx : list Z) : serial := mkserial (mkuart true rx 0 [] []) demo_input (mkcga (replicate 2000 0) 0) false ([], 0).
Definition demo_computer (rx : list Z) : @computer tview :=
  mkcomputer (mkptable demo_files demo_procs 4 0 100)
    (mkide [] [] None false (mkdrive (fun _ => []) 0 0 0 0 None false false)) (demo_con rx) (Lapic.mkls 0xFEE00000 (fun _ => 0) [] 0 [] (fun _ => 0)).
Definition demo_frame (n : Z) : trapframe := mktf 0 0 0 0 0 0 0 0 0 0 0 0 n 0 0x1000 SEG_UCODE_USER 0 0x2000 SEG_UDATA_USER.
Definition demo_trap (rx : list Z) (n : Z) : outcome (@computer tview) trap_end :=
  trap 0 0 [] no_devices 0 0x80112000 0x80113000 (fun i => 0x80114000 + Z.of_nat i) (fun _ _ => 0) 0 (fun _ => 0x60) 100 0 (Some 1%nat) 0 (demo_frame n) (demo_computer rx).

Lemma demo_live rx : live (demo_con rx).
Proof. split_and!; [done| |done]. split; [exact (length_replicate 2000 0)|done]. Qed.
Lemma demo_named : Forall named demo_procs.
Proof. repeat (apply Forall_cons; split); [exists 0%nat; split; [lia|done]..|apply Forall_nil; done]. Qed.

Lemma trap_no_return_killed_witness : exists c' p, demo_trap [] 47 = Done Resumes c' /\ pt_proc (co_k c') !! 1%nat = Some p /\ p_killed p = 0.
Proof.
  assert (E : demo_trap [] 47 = Done Resumes (demo_computer [])) by reflexivity.
  destruct (trap_no_return_killed 0 0 [] no_devices 0 0x80112000 0x80113000 (fun i => 0x80114000 + Z.of_nat i) (fun _ _ => 0) 0 (fun _ => 0x60) 100 0 1 0 (demo_frame 47) _ _ eq_refl (or_introl E)) as (p & Hp & Hk).
  exists (demo_computer []), p. split_and!; [exact E|exact Hp|exact Hk].
Defined.

(** A page fault of process 2. *)
Lemma trap_exception_witness : exists c1, printed (demo_computer []) c1 /\
  demo_trap [] 14 = (onk (@exit _ (services 0 0 [] no_devices) 1);; mret Exits) (set_k (set_procs (alter (set_killed 1) 1%nat demo_procs) (co_k (demo_computer []))) c1).
Proof.
  apply (trap_exception 0 0 [] no_devices 0 0x80112000 0x80113000 (fun i => 0x80114000 + Z.of_nat i) (fun _ _ => 0) 0 (fun _ => 0x60) 100 0 (Some 1%nat) 0 (demo_frame 14) (demo_computer [])) with (p := set_pid 2 (set_state RUNNING proc0)).
  - split; [done|]. apply (bool_decide_unpack _). vm_compute. exact I.
  - apply demo_live.
  - done.
  - done.
  - done.
  - exists 0%nat. split; [lia|done].
Defined.

(** A tick: the clock goes to 101, the sleeper is woken and process 2 preempted. *)
Lemma trap_interrupt_witness : exists c', demo_trap [] 32 = Done Yields c' /\ pt_ticks (co_k c') = 101 /\
  p_state <$> pt_proc (co_k c') = [RUNNABLE; RUNNABLE; RUNNABLE].
Proof.
  destruct (trap_interrupt 0 0 [] no_devices 0 0x80112000 0x80113000 (fun i => 0x80114000 + Z.of_nat i) (fun _ _ => 0) 0 (fun _ => 0x60) 100 0 (Some 1%nat) 0 (demo_frame 32) (demo_computer []))
    as (c' & E & Hp & Ht & _).
  - apply (bool_decide_unpack _). vm_compute. exact I.
  - split; [apply demo_live|]. split; [exact demo_named|]. split; [done|]. split; [intros E; discriminate E|]. split; intros E; discriminate E.
  - exists (set_pid 2 (set_state RUNNING proc0)). done.
  - exists c'. split; [exact E|]. split; [exact Ht|]. rewrite Hp. reflexivity.
Defined.
