(* ===== verification/Bootmain.v ===== *)
(** * The boot loader: [bootmain.c]

    The loader reads the kernel, an ELF file that starts at sector 1 of the
    drive, into memory, and jumps to its entry.  It runs alone and polls the
    drive, which is the one of [Ide]: how many polls find it busy is a
    parameter.  The result of [bootmain] is the address it jumps to, or [None]
    where it returns to [bootasm.S].

    [bootmain_correct]: every segment is in memory where its header says, with
    its zeros, and the memory below the scratch page, where the loader itself
    is, does not change. *)

From S2P Require Import Prelude CString Sleeplock Bio Log Ide Exec.

Definition SECTSIZE : Z := 512.

Record machine := mkmachine {
  bm_mem : mem;
  bm_drive : drive;
  bm_left : nat       (* polls before the drive ends its command *)
}.

Section loader.
Context (delay : Z -> nat).      (* polls that find the drive busy, by sector *)
Context (fuel : nat).

Definition inb_status : KM machine Z := fun s =>
  if dk_busy (bm_drive s) then
    match bm_left s with
    | O => let d := finish false (bm_drive s) in Done (status d) (mkmachine (bm_mem s) d O)
    | Datatypes.S n => Done (status (bm_drive s)) (mkmachine (bm_mem s) (bm_drive s) n)
    end
  else Done (status (bm_drive s)) s.
Definition outb (port v : Z) : KM machine unit :=
  kmodify (fun s => let d := Ide.outb port (u8 v) (bm_drive s) in
    mkmachine (bm_mem s) d (if port =? 0x1f7 then delay (dk_addr d).2 else bm_left s)).
(** [insl]: the words of the data port to memory. *)
Fixpoint put_bytes (m : mem) (a : Z) (l : list Z) : mem :=
  match l with
  | [] => m
  | b :: l => put_bytes (upd m (u32 a) b) (a + 1) l
  end.
Definition insl (dst cnt : Z) : KM machine unit :=
  kmodify (fun s => mkmachine (put_bytes (bm_mem s) dst (take (Z.to_nat (4 * cnt)) (Ide.insl (bm_drive s)))) (bm_drive s) (bm_left s)).

Fixpoint waitdisk (fuel : nat) : KM machine unit :=
  match fuel with
  | O => ksleep "waitdisk"
  | Datatypes.S fuel =>
      r ← inb_status;
      if negb (Z.land r 0xC0 =? 0x40) then waitdisk fuel else mret tt
  end.

Definition readsect (dst offset : Z) : KM machine unit :=
  waitdisk fuel;;
  outb 0x1F2 1;;
  outb 0x1F3 offset;;
  outb 0x1F4 (Z.shiftr offset 8);;
  outb 0x1F5 (Z.shiftr offset 16);;
  outb 0x1F6 (Z.lor (Z.shiftr offset 24) 0xE0);;
  outb 0x1F7 0x20;;
  waitdisk fuel;;
  insl dst (SECTSIZE / 4).

Fixpoint readseg_loop (n : nat) (pa epa offset : Z) : KM machine unit :=
  match n with
  | O => fault "readseg"
  | Datatypes.S n =>
      if pa <? epa then
        readsect pa offset;;
        readseg_loop n (u32 (pa + SECTSIZE)) epa (u32 (offset + 1))
      else mret tt
  end.
Definition readseg (pa count offset : Z) : KM machine unit :=
  let epa := u32 (pa + count) in
  let pa := u32 (pa - offset mod SECTSIZE) in
  let offset := offset / SECTSIZE + 1 in
  readseg_loop (Datatypes.S (Z.to_nat ((epa - pa + SECTSIZE - 1) / SECTSIZE))) pa epa offset.

(** The bytes of a structure in memory. *)
Definition get_bytes (m : mem) (a : Z) (n : nat) : list Z := (fun i => m (u32 (a + Z.of_nat i))) <$> seq 0 n.
Definition elf_at (m : mem) (a : Z) : elfhdr := dec_elfhdr (get_bytes m a 52).
Definition ph_at (m : mem) (a : Z) : proghdr := dec_proghdr (get_bytes m a 32).

Fixpoint load_loop (n : nat) (ph eph : Z) : KM machine unit :=
  match n with
  | O => fault "ph"
  | Datatypes.S n =>
      if ph <? eph then
        m ← kgets bm_mem;
        let pa := ph_paddr (ph_at m ph) in
        readseg pa (ph_filesz (ph_at m ph)) (ph_off (ph_at m ph));;
        m ← kgets bm_mem;
        (if ph_filesz (ph_at m ph) <? ph_memsz (ph_at m ph) then
           kmodify (fun s => mkmachine (stosb (bm_mem s) (u32 (pa + ph_filesz (ph_at m ph))) 0 (Z.to_nat (ph_memsz (ph_at m ph) - ph_filesz (ph_at m ph)))) (bm_drive s) (bm_left s))
         else mret tt);;
        load_loop n (u32 (ph + sizeof_proghdr)) eph
      else mret tt
  end.

Definition ELF : Z := 0x10000.
Definition bootmain : KM machine (option Z) :=
  readseg ELF 4096 0;;
  m ← kgets bm_mem;
  if negb (eh_magic (elf_at m ELF) =? ELF_MAGIC) then mret None else
  let ph := u32 (ELF + eh_phoff (elf_at m ELF)) in
  let eph := u32 (ph + sizeof_proghdr * eh_phnum (elf_at m ELF)) in
  load_loop (Datatypes.S (Z.to_nat (eh_phnum (elf_at m ELF)))) ph eph;;
  m ← kgets bm_mem;
  mret (Some (eh_entry (elf_at m ELF))).
End loader.

(** ** Memory and sectors *)

Lemma put_bytes_at l : forall m a x, 0 <= a -> a + Z.of_nat (length l) <= 2 ^ 32 ->
  put_bytes m a l x = if decide (a <= x < a + Z.of_nat (length l)) then nth (Z.to_nat (x - a)) l 0 else m x.
Proof.
  induction l as [|b l IH]; intros m a x Ha Hl; cbn [put_bytes length] in *; [by rewrite decide_False by lia|].
  rewrite IH, u32_id by lia. destruct (decide (x = a)) as [->|Hne].
  - rewrite decide_False, decide_True, upd_eq, Z.sub_diag by lia. done.
  - destruct (decide (a + 1 <= x < a + 1 + Z.of_nat (length l))).
    + rewrite decide_True by lia. replace (Z.to_nat (x - a)) with (S (Z.to_nat (x - (a + 1)))) by lia. done.
    + rewrite decide_False, upd_ne by lia. done.
Qed.

(** The bytes of the kernel file, with zeros after its end. *)
Definition file_byte (img : list Z) (i : Z) : Z := nth (Z.to_nat i) img 0.
Definition file_bytes (img : list Z) (a : Z) (n : nat) : list Z := (fun i => file_byte img (a + Z.of_nat i)) <$> seq 0 n.
(** The drive holds the file from sector 1 on, and runs no command. *)
Record drive_ready (img : list Z) (s : machine) : Prop := mk_drive_ready {
  dr_sectors : forall k, 0 <= k -> dk_sectors (bm_drive s) (0, k + 1) = file_bytes img (512 * k) 512;
  dr_idle : dk_busy (bm_drive s) = false
}.

Lemma sel_bits x : 0 <= x < 16 -> Z.land (Z.shiftr (Z.lor x 0xE0) 4) 1 = 0 /\ Z.land (Z.lor x 0xE0) 0x0f = x /\ u8 (Z.lor x 0xE0) = Z.lor x 0xE0.
Proof.
  intros Hx. assert (H : forallb (fun y => (Z.land (Z.shiftr (Z.lor y 0xE0) 4) 1 =? 0) && (Z.land (Z.lor y 0xE0) 0x0f =? y) && (u8 (Z.lor y 0xE0) =? Z.lor y 0xE0)) (seqZ 0 16) = true) by (by vm_compute).
  rewrite forallb_forall in H. specialize (H x). rewrite <- list_elem_of_In, elem_of_seqZ in H. specialize (H ltac:(lia)).
  rewrite !andb_true_iff, !Z.eqb_eq in H. tauto.
Qed.
Lemma lba_bytes o : 0 <= o < 2 ^ 28 -> u8 o + 2 ^ 8 * u8 (Z.shiftr o 8) + 2 ^ 16 * u8 (Z.shiftr o 16) + 2 ^ 24 * Z.shiftr o 24 = o.
Proof.
  intros Ho. unfold u8. rewrite !Z.shiftr_div_pow2 by lia. change (2 ^ 24) with (2 ^ 8 * 2 ^ 8 * 2 ^ 8). change (2 ^ 16) with (2 ^ 8 * 2 ^ 8). change (2 ^ 8) with 256.
  rewrite <- !Z.div_div by lia. pose proof (Z.div_mod o 256 ltac:(lia)). pose proof (Z.div_mod (o / 256) 256 ltac:(lia)). pose proof (Z.div_mod (o / 256 / 256) 256 ltac:(lia)). lia.
Qed.

Section spec.
Context (delay : Z -> nat) (fuel : nat) (img : list Z).
Hypothesis Hdelay : forall k, (delay k < fuel)%nat.

Lemma waitdisk_idle s (Q : unit -> machine -> Prop) : (0 < fuel)%nat -> dk_busy (bm_drive s) = false -> Q tt s -> wp (waitdisk fuel) s Q.
Proof.
  intros Hf Hb HQ. destruct fuel as [|n]; [lia|]. cbn [waitdisk]. apply wp_bind. unfold wp at 1, inb_status. rewrite Hb. unfold status. rewrite Hb.
  destruct (dk_err (bm_drive s)); exact HQ.
Qed.
Lemma waitdisk_busy n : forall s (Q : unit -> machine -> Prop), (bm_left s < n)%nat -> dk_busy (bm_drive s) = true ->
  Q tt (mkmachine (bm_mem s) (finish false (bm_drive s)) 0) -> wp (waitdisk n) s Q.
Proof.
  induction n as [|n IH]; intros s Q Hl Hb HQ; [lia|]. cbn [waitdisk]. apply wp_bind. unfold wp at 1, inb_status. rewrite Hb.
  destruct (bm_left s) as [|k] eqn:El; [exact HQ|]. assert (E : Z.land (status (bm_drive s)) 0xC0 =? 0x40 = false) by (unfold status; by rewrite Hb). rewrite E. cbn [negb].
  apply IH; cbn [bm_left bm_drive bm_mem]; [lia|done|done].
Qed.

Lemma readsect_spec s dst o (Q : unit -> machine -> Prop) : drive_ready img s -> 0 <= o < 2 ^ 23 ->
  (forall s', drive_ready img s' -> bm_mem s' = put_bytes (bm_mem s) dst (file_bytes img (512 * o) 512) -> Q tt s') ->
  wp (readsect delay fuel dst (o + 1)) s Q.
Proof.
  intros [R1 R2] Ho HQ. unfold readsect. apply wp_bind. apply waitdisk_idle; [specialize (Hdelay 0); lia|done|].
  destruct s as [m [sec a b c e cmd busy err] left]. cbn [bm_drive dk_sectors dk_busy] in *. do 6 (apply wp_bind, wp_modify). cbv zeta. cbn [bm_mem bm_drive bm_left Ide.outb Z.eqb Pos.eqb].
  unfold dk_addr. cbn [fst snd dk_sel dk_lba0 dk_lba1 dk_lba2]. assert (Hs : 0 <= Z.shiftr (o + 1) 24 < 16).
  { rewrite Z.shiftr_div_pow2 by lia. split; [apply Z.div_pos; lia|apply Z.div_lt_upper_bound; lia]. }
  destruct (sel_bits _ Hs) as (E1 & E2 & E3). rewrite E3, E1, E2, lba_bytes by lia. change (u8 32 =? IDE_CMD_READ) with true. cbv iota.
  apply wp_bind. apply waitdisk_busy; [apply Hdelay|done|]. apply wp_modify. cbn [bm_mem bm_drive bm_left].
  apply HQ; [by split|]. cbn [bm_mem finish Ide.insl dk_cmd dk_sectors]. rewrite R1 by lia. by rewrite take_ge.
Qed.

Lemma length_file_bytes a n : length (file_bytes img a n) = n.
Proof. unfold file_bytes. by rewrite length_fmap, length_seq. Qed.
Lemma file_bytes_nth a n i : (i < n)%nat -> nth i (file_bytes img a n) 0 = file_byte img (a + Z.of_nat i).
Proof. intros Hi. unfold file_bytes. rewrite nth_lookup, list_lookup_fmap, lookup_seq_lt by done. done. Qed.

(** [n] more sectors from [pa] on. *)
Lemma readseg_loop_spec n : forall k s pa epa o (Q : unit -> machine -> Prop), drive_ready img s -> 0 <= pa -> 0 <= o -> o + Z.of_nat n < 2 ^ 23 ->
  (if (n =? 0)%nat then epa <= pa else pa + 512 * (Z.of_nat n - 1) < epa <= pa + 512 * Z.of_nat n) -> pa + 512 * Z.of_nat n < 2 ^ 32 -> (n < k)%nat ->
  (forall s', drive_ready img s' -> (forall x, bm_mem s' x = if decide (pa <= x < pa + 512 * Z.of_nat n) then file_byte img (512 * o + (x - pa)) else bm_mem s x) -> Q tt s') ->
  wp (readseg_loop delay fuel k pa epa (o + 1)) s Q.
Proof.
  induction n as [|n IH]; intros [|k] s pa epa o Q R Hpa Ho Hon He Hw Hk HQ; try lia; cbn [readseg_loop Nat.eqb] in *.
  - rewrite (proj2 (Z.ltb_ge _ _)) by lia. apply wp_ret, HQ; [done|]. intros x. by rewrite decide_False by lia.
  - rewrite (proj2 (Z.ltb_lt _ _)) by lia. apply wp_bind. apply readsect_spec; [done|lia|]. intros s1 R1 E1.
    unfold SECTSIZE. rewrite !u32_id by lia. replace (o + 1 + 1) with ((o + 1) + 1) by lia. apply (IH k s1 (pa + 512) epa (o + 1)); [done|lia|lia|lia| |lia|lia|].
    { destruct n; cbn [Nat.eqb]; lia. }
    intros s2 R2 E2. apply HQ; [done|]. intros x. rewrite E2, E1, put_bytes_at, length_file_bytes by (rewrite ?length_file_bytes; lia).
    destruct (decide (pa + 512 <= x < pa + 512 + 512 * Z.of_nat n)); [rewrite decide_True by lia; f_equal; lia|].
    destruct (decide (pa <= x < pa + Z.of_nat 512)).
    + rewrite decide_True, file_bytes_nth by lia. f_equal. lia.
    + by rewrite decide_False by lia.
Qed.

(** [readseg]: the bytes asked for are in memory, and what else is written lies
    in the sectors of the first and the last of them. *)
Lemma readseg_spec s pa count off (Q : unit -> machine -> Prop) : drive_ready img s -> 0 <= off < 2 ^ 32 - 512 -> off mod 512 <= pa -> 0 <= count -> pa + count + 512 < 2 ^ 32 ->
  off + count < 2 ^ 32 - 1024 ->
  (forall s' e, drive_ready img s' -> pa + count <= e ->
    (forall x, bm_mem s' x = if decide (pa - off mod 512 <= x < e) then file_byte img (off + (x - pa)) else bm_mem s x) -> Q tt s') ->
  wp (readseg delay fuel pa count off) s Q.
Proof.
  intros R Hoff Hpa Hc Hw Hoc HQ. unfold readseg, SECTSIZE. pose proof (Z.div_mod off 512 ltac:(lia)). pose proof (Z.mod_pos_bound off 512 ltac:(lia)). cbv zeta.
  rewrite !u32_id by lia. set (pa0 := pa - off mod 512). set (n := Z.to_nat ((pa + count - pa0 + 512 - 1) / 512)).
  pose proof (Z.div_mod (pa + count - pa0 + 512 - 1) 512 ltac:(lia)). pose proof (Z.mod_pos_bound (pa + count - pa0 + 512 - 1) 512 ltac:(lia)).
  assert (0 <= (pa + count - pa0 + 512 - 1) / 512) by (apply Z.div_pos; lia).
  apply (readseg_loop_spec n); [done|lia|lia|lia| |lia|lia|].
  { destruct (Nat.eqb_spec n 0); lia. }
  intros s' R' E'. apply (HQ s' (pa0 + 512 * Z.of_nat n)); [done|lia|]. intros x. rewrite E'. fold pa0. case_decide; [f_equal; lia|done].
Qed.

(** ** The segments *)

Definition elf_of : elfhdr := dec_elfhdr (file_bytes img 0 52).
Definition phs : list proghdr := (fun i => dec_proghdr (file_bytes img (eh_phoff elf_of + 32 * Z.of_nat i) 32)) <$> seq 0 (Z.to_nat (eh_phnum elf_of)).

(** A segment above the scratch page, that does not run over the end of the
    address space. *)
Definition seg_ok (p : proghdr) : Prop :=
  0 <= ph_off p /\ ph_off p + ph_filesz p < 2 ^ 32 - 1024 /\ 0 <= ph_filesz p <= ph_memsz p /\
  0x11000 <= ph_paddr p - ph_off p mod 512 /\ ph_paddr p + ph_memsz p + 512 < 2 ^ 32.
(** The headers lie in the first page of the file, and the segments follow one
    another: a segment starts, rounded down to the sector of the file, after
    the end of the ones before it. *)
Record image_ok : Prop := mk_image_ok {
  io_bytes : Forall is_byte img;
  io_magic : eh_magic elf_of = ELF_MAGIC;
  io_phs : eh_phoff elf_of + 32 * eh_phnum elf_of <= 4096;
  io_seg : forall i p, phs !! i = Some p -> seg_ok p;
  io_order : forall i j p q, (i < j)%nat -> phs !! i = Some p -> phs !! j = Some q -> ph_paddr p + ph_memsz p <= ph_paddr q - ph_off q mod 512
}.

Definition scratch (m : mem) : Prop := forall x, 0x10000 <= x < 0x11000 -> m x = file_byte img (x - 0x10000).
Definition seg_loaded (m : mem) (p : proghdr) : Prop := forall x, ph_paddr p <= x < ph_paddr p + ph_memsz p ->
  m x = if decide (x < ph_paddr p + ph_filesz p) then file_byte img (ph_off p + (x - ph_paddr p)) else 0.

Lemma scratch_bytes m a n : scratch m -> 0 <= a -> a + Z.of_nat n <= 4096 -> get_bytes m (ELF + a) n = file_bytes img a n.
Proof.
  intros Hs Ha Hn. unfold get_bytes, file_bytes, ELF. apply list_fmap_ext. intros k i [-> Hi]%lookup_seq. rewrite u32_id, Hs by lia. f_equal. lia.
Qed.

Hypothesis I : image_ok.

Lemma elf_fields : 0 <= eh_phoff elf_of < 2 ^ 32 /\ 0 <= eh_phnum elf_of < 2 ^ 16.
Proof.
  assert (Hb : forall o n, Forall is_byte (slice o n (file_bytes img 0 52))).
  { intros o n. unfold slice. apply Forall_take, Forall_drop. apply Forall_fmap, Forall_forall. intros i _. unfold compose, file_byte. apply nth_byte, I. }
  unfold elf_of, dec_elfhdr, get32, getu16. cbn [eh_phoff eh_phnum]. split.
  - pose proof (le_val_range _ (Hb 28%nat 4%nat)) as H. exact H.
  - pose proof (le_val_range _ (Hb 44%nat 2%nat)) as H. exact H.
Qed.

Lemma phs_lookup i p : phs !! i = Some p -> Z.of_nat i < eh_phnum elf_of /\ p = dec_proghdr (file_bytes img (eh_phoff elf_of + 32 * Z.of_nat i) 32).
Proof.
  intros Hp. destruct elf_fields as [_ E]. pose proof (lookup_lt_Some _ _ _ Hp) as Hi. unfold phs in *. rewrite length_fmap, length_seq in Hi.
  rewrite list_lookup_fmap, lookup_seq_lt in Hp by done. apply Some_inj in Hp. split; [lia|done].
Qed.

Lemma load_one s i p (Q : unit -> machine -> Prop) K : drive_ready img s -> scratch (bm_mem s) -> phs !! i = Some p ->
  (forall s', drive_ready img s' -> scratch (bm_mem s') -> seg_loaded (bm_mem s') p ->
    (forall x, x < ph_paddr p - ph_off p mod 512 -> bm_mem s' x = bm_mem s x) -> wp K s' Q) ->
  let ph := ELF + eh_phoff elf_of + 32 * Z.of_nat i in
  wp (m ← kgets bm_mem;
      let pa := ph_paddr (ph_at m ph) in
      readseg delay fuel pa (ph_filesz (ph_at m ph)) (ph_off (ph_at m ph));;
      m ← kgets bm_mem;
      (if ph_filesz (ph_at m ph) <? ph_memsz (ph_at m ph) then
         kmodify (fun s => mkmachine (stosb (bm_mem s) (u32 (pa + ph_filesz (ph_at m ph))) 0 (Z.to_nat (ph_memsz (ph_at m ph) - ph_filesz (ph_at m ph)))) (bm_drive s) (bm_left s))
       else mret tt);;
      K) s Q.
Proof.
  intros R Hs Hp HK ph. destruct (io_seg I i p Hp) as (S1 & S2 & S3 & S4 & S5). pose proof (Z.mod_pos_bound (ph_off p) 512 ltac:(lia)).
  assert (Hph : forall m, scratch m -> ph_at m ph = p).
  { intros m Hm. destruct (phs_lookup i p Hp) as [Hi Ep]. destruct elf_fields as [E1 E2]. pose proof (io_phs I). rewrite Ep. unfold ph_at. f_equal.
    unfold ph. rewrite <- Z.add_assoc. apply scratch_bytes; [done|lia|lia]. }
  wp_steps. cbv zeta. rewrite (Hph _ Hs). apply wp_bind. apply (readseg_spec s); [done|lia|lia|lia|lia|lia|]. intros s1 e R1 He E1. wp_steps.
  assert (Hs1 : scratch (bm_mem s1)) by (intros x Hx; rewrite E1, decide_False by lia; by apply Hs). rewrite (Hph _ Hs1).
  destruct (Z.ltb_spec (ph_filesz p) (ph_memsz p)).
  - wp_steps. rewrite u32_id by lia. apply HK; cbn [bm_mem]; [destruct R1; by split| | |].
    + intros x Hx. rewrite stosb_spec, bool_decide_false by lia. by apply Hs1.
    + intros x Hx. rewrite stosb_spec. destruct (decide (x < ph_paddr p + ph_filesz p)).
      * rewrite bool_decide_false, E1, decide_True by lia. done.
      * rewrite bool_decide_true by lia. done.
    + intros x Hx. rewrite stosb_spec, bool_decide_false, E1, decide_False by lia. done.
  - wp_steps. apply HK; [done|done| |].
    + intros x Hx. rewrite decide_True, E1, decide_True by lia. done.
    + intros x Hx. by rewrite E1, decide_False by lia.
Qed.

Lemma load_loop_spec n : forall i s (Q : unit -> machine -> Prop), drive_ready img s -> scratch (bm_mem s) -> Z.of_nat (i + n) = eh_phnum elf_of ->
  (forall j p, (j < i)%nat -> phs !! j = Some p -> seg_loaded (bm_mem s) p) ->
  (forall s', scratch (bm_mem s') -> (forall p, p ∈ phs -> seg_loaded (bm_mem s') p) -> (forall x, x < ELF -> bm_mem s' x = bm_mem s x) -> Q tt s') ->
  wp (load_loop delay fuel (Datatypes.S n) (ELF + eh_phoff elf_of + 32 * Z.of_nat i) (ELF + eh_phoff elf_of + 32 * eh_phnum elf_of)) s Q.
Proof.
  destruct elf_fields as [E1 E2]. pose proof (io_phs I) as Hphs. unfold ELF in *.
  assert (Hlen : length phs = Z.to_nat (eh_phnum elf_of)) by (unfold phs; by rewrite length_fmap, length_seq).
  induction n as [|n IH]; intros i s Q R Hs Hn Hl HQ; cbn [load_loop].
  - rewrite (proj2 (Z.ltb_ge _ _)) by lia. apply wp_ret, HQ; [done| |done]. intros p [j Hj]%list_elem_of_lookup. apply (Hl j p); [|done]. apply lookup_lt_Some in Hj. lia.
  - rewrite (proj2 (Z.ltb_lt _ _)) by lia. destruct (lookup_lt_is_Some_2 phs i ltac:(lia)) as [p Hp].
    apply (load_one s i p); [done|done|done|]. intros s1 R1 Hs1 Hl1 Hlow. unfold sizeof_proghdr. rewrite u32_id by lia.
    replace (65536 + eh_phoff elf_of + 32 * Z.of_nat i + 32) with (65536 + eh_phoff elf_of + 32 * Z.of_nat (S i)) by lia.
    destruct (io_seg I i p Hp) as (_ & _ & _ & S4 & _).
    apply IH; [done|done|lia| |].
    + intros j q Hj Hq. destruct (decide (j = i)) as [->|Hne]; [assert (q = p) as -> by congruence; done|]. intros x Hx.
      pose proof (io_order I j i q p ltac:(lia) Hq Hp). rewrite Hlow by lia. apply (Hl j q); [lia|done|done].
    + intros s' Hs' Hl' Hlow'. apply HQ; [done|done|]. intros x Hx. rewrite Hlow', Hlow by lia. done.
Qed.

Lemma bootmain_spec s : drive_ready img s ->
  wp (bootmain delay fuel) s (fun r s' => r = Some (eh_entry elf_of) /\ (forall p, p ∈ phs -> seg_loaded (bm_mem s') p) /\ forall x, 0 <= x < ELF -> bm_mem s' x = bm_mem s x).
Proof.
  intros R. destruct elf_fields as [E1 E2]. pose proof (io_phs I) as Hphs. unfold bootmain. apply wp_bind. apply (readseg_spec s); [done|lia|done|lia|done|lia|].
  intros s1 e R1 He Hm1. change (0 mod 512) with 0 in Hm1.
  assert (Hs1 : scratch (bm_mem s1)) by (intros x Hx; rewrite Hm1, decide_True by (unfold ELF in *; lia); f_equal; unfold ELF; lia).
  assert (Helf : forall m, scratch m -> elf_at m ELF = elf_of).
  { intros m Hm. unfold elf_at, elf_of. f_equal. replace ELF with (ELF + 0) by lia. apply scratch_bytes; [done|lia|lia]. }
  wp_steps. rewrite (Helf _ Hs1), (io_magic I), Z.eqb_refl. cbn [negb]. cbv zeta. unfold sizeof_proghdr. rewrite (u32_id (ELF + eh_phoff elf_of)), u32_id by (unfold ELF; lia). wp_step.
  replace (ELF + eh_phoff elf_of) with (ELF + eh_phoff elf_of + 32 * Z.of_nat 0) at 1 by lia.
  apply (load_loop_spec _ 0 s1); [done|done|lia|lia|]. intros s2 Hs2 Hl2 Hlow. wp_steps. rewrite (Helf _ Hs2). split; [done|]. split; [done|].
  intros x Hx. rewrite Hlow, Hm1, decide_False by (unfold ELF in *; lia). done.
Qed.
End spec.

(** C32.  The boot loader loads the kernel.  The drive holds an ELF file from sector 1
    on, whose headers are in its first page and whose segments follow one
    another in memory above the scratch page.  Then [bootmain] comes to an end
    however long the drive takes; every segment is in memory at its physical
    address, with zeros after its bytes of the file; it jumps to the entry of
    the file, and the memory below the scratch page, the loader itself
    included, is what it was. *)
Theorem bootmain_correct delay fuel img s : (forall k, (delay k < fuel)%nat) -> image_ok img -> drive_ready img s ->
  wp (bootmain delay fuel) s (fun r s' => r = Some (eh_entry (elf_of img)) /\
    (forall p, p ∈ phs img -> seg_loaded img (bm_mem s') p) /\ forall x, 0 <= x < ELF -> bm_mem s' x = bm_mem s x).
Proof. intros Hd I R. by apply bootmain_spec. Qed.

(** A file that is not ELF is not entered. *)
Lemma bootmain_not_elf delay fuel img s : (forall k, (delay k < fuel)%nat) -> eh_magic (elf_of img) <> ELF_MAGIC -> drive_ready img s ->
  wp (bootmain delay fuel) s (fun r s' => r = None /\ forall x, 0 <= x < ELF -> bm_mem s' x = bm_mem s x).
Proof.
  intros Hd Hm R. unfold bootmain. apply wp_bind. apply (readseg_spec delay fuel img Hd s); [done|lia|done|lia|done|lia|]. intros s1 e R1 He Hm1. change (0 mod 512) with 0 in Hm1. unfold ELF in *.
  assert (E : elf_at (bm_mem s1) ELF = elf_of img).
  { unfold elf_at, elf_of. f_equal. replace ELF with (ELF + 0) by lia. apply scratch_bytes; [|lia|lia]. intros x Hx. rewrite Hm1, decide_True by lia. done. }
  unfold ELF in E. wp_steps. rewrite E, (proj2 (Z.eqb_neq _ _) Hm). cbn [negb]. wp_steps. split; [done|]. intros x Hx. by rewrite Hm1, decide_False by lia.
Qed.

(** A kernel of four bytes and four bytes of zeros, at 1 MB. *)
Definition demo_elf : list Z :=
  le_bytes 4 ELF_MAGIC ++ replicate 20 0 ++ le_bytes 4 0x100000 ++ le_bytes 4 52 ++ replicate 12 0 ++ le_bytes 2 1 ++ replicate 6 0 ++
  le_bytes 4 1 ++ le_bytes 4 84 ++ le_bytes 4 0x80100000 ++ le_bytes 4 0x100000 ++ le_bytes 4 4 ++ le_bytes 4 8 ++ replicate 8 0 ++ [1; 2; 3; 4].
Definition demo_ph : proghdr := mkproghdr 1 84 0x80100000 0x100000 4 8 0 0.
Lemma demo_phs : phs demo_elf = [demo_ph].
Proof. by vm_compute. Qed.
Lemma demo_image : image_ok demo_elf.
Proof.
  split.
  - apply (bool_decide_unpack _). vm_compute. exact I.
  - by vm_compute.
  - by vm_compute.
  - rewrite demo_phs. intros [|i] p Hp; [|done]. injection Hp as <-. repeat split; vm_compute; congruence.
  - rewrite demo_phs. intros i j p q Hij Hp Hq. apply lookup_lt_Some in Hp, Hq. simpl in Hp, Hq. lia.
Qed.
Definition demo_machine : machine :=
  mkmachine (fun _ => 0xAA) (mkdrive (fun a => file_bytes demo_elf (512 * (a.2 - 1)) 512) 0 0 0 0 None false false) 0.
Lemma bootmain_correct_witness : wp (bootmain (fun k => Z.to_nat (k mod 3)) 3) demo_machine (fun r s' =>
  r = Some 0x100000 /\ (forall p, p ∈ phs demo_elf -> seg_loaded demo_elf (bm_mem s') p) /\ forall x, 0 <= x < ELF -> bm_mem s' x = 0xAA).
Proof.
  apply (bootmain_correct (fun k => Z.to_nat (k mod 3)) 3 demo_elf demo_machine); [|exact demo_image|].
  - intros k. pose proof (Z.mod_pos_bound k 3 ltac:(lia)). lia.
  - split; [|done]. intros k Hk. cbn [demo_machine bm_drive dk_sectors snd]. by rewrite Z.add_simpl_r.
Defined.
