(* ===== verification/Startup.v ===== *)
(** * Starting the other processors: [main.c]

    [startothers] runs on the boot processor: it copies the entry code to page
    7, and for each other processor allocates a stack, leaves three words below
    the code, sends the start sequence through the local APIC and waits.  The
    allocator and the APIC work on the same memory.  A started processor is
    hardware and [entryother.S]: it begins at the page of the first STARTUP
    message to it, takes the three words, and in [mpmain] sets its [started];
    how long that takes is a parameter.

    [startothers_correct]: every processor is started, each with a page of its
    own as stack.  [entrypgdir_maps]: the page table of the start. *)

From S2P Require Import Prelude CString Mmu Proc Spinlock Kalloc Apic.

(** What a processor is started with. *)
Record ap := mkap { ap_id : Z; ap_stack : Z; ap_entry : Z; ap_pgdir : Z }.
Record startup := mkstartup {
  su_kmem : kmem;
  su_lapic : Lapic.lstate;
  su_cpus : list cpu;
  su_aps : list ap           (* the processors started, in order *)
}.
(** Both views of the memory change together. *)
Definition set_kmem (k : kmem) (s : startup) : startup := mkstartup k (Lapic.l_store (k_mem k) (su_lapic s)) (su_cpus s) (su_aps s).
Definition set_lapic (l : Lapic.lstate) (s : startup) : startup := mkstartup (set_mem (Lapic.l_mem l) (su_kmem s)) l (su_cpus s) (su_aps s).
Definition su_store (f : mem -> mem) (s : startup) : startup := set_kmem (set_mem (f (k_mem (su_kmem s))) (su_kmem s)) s.
Definition set_started (v : Z) (c : cpu) : cpu :=
  mkcpu (cpu_apicid c) (cpu_scheduler c) (cpu_ts c) (cpu_gdt c) v (cpu_ncli c) (cpu_intena c) (cpu_proc c).

Definition code : Z := P2V 0x7000.

(** The processor [i] after its STARTUP message, up to the [xchg] of [mpmain]. *)
Definition is_startup (id : Z) (m : Z * Z) : bool := (m.1 =? id) && (Lapic.mode m.2 =? Lapic.STARTUP).
Definition ap_run (i : nat) (s : startup) : startup :=
  match su_cpus s !! i with
  | None => s
  | Some c =>
      match List.find (is_startup (cpu_apicid c)) (Lapic.sent 0 (Lapic.l_log (su_lapic s))) with
      | None => s
      | Some (_, v) =>
          let start := P2V (4096 * Lapic.vector v) in
          let m := k_mem (su_kmem s) in
          mkstartup (su_kmem s) (su_lapic s) (alter (set_started 1) i (su_cpus s))
            (su_aps s ++ [mkap (cpu_apicid c) (load32 m (start - 4)) (load32 m (start - 8)) (load32 m (start - 12))])
      end
  end.

Section startothers.
Context (entryother_start entryother_size mpenter entrypgdir : Z).  (* addresses the linker gives *)
Context (me : nat).                                                 (* [mycpu() - cpus] *)
Context (late : nat -> nat) (fuel : nat).                           (* polls before processor [i] is up *)

Definition get_cpu (i : nat) : KM startup cpu := fun s =>
  match su_cpus s !! i with Some c => Done c s | None => Fault "cpu" end.
(** [while(c->started == 0);], the processor running meanwhile *)
Fixpoint wait_started (fuel k i : nat) : KM startup unit :=
  match fuel with
  | O => ksleep "started"
  | S fuel =>
      c ← get_cpu i;
      if cpu_started c =? 0 then
        (if (k =? 0)%nat then kmodify (ap_run i) else mret tt);;
        wait_started fuel (pred k) i
      else mret tt
  end.

Definition startothers : KM startup unit :=
  kmodify (su_store (fun m => memmove m code entryother_start entryother_size));;
  s ← kget;
  kfor 0 (length (su_cpus s)) (fun i =>
    if (i =? me)%nat then mret tt else
    stack ← zoom su_kmem set_kmem kalloc;
    kmodify (su_store (fun m => store32 m (code - 4) (u32 (stack + KSTACKSIZE))));;
    kmodify (su_store (fun m => store32 m (code - 8) mpenter));;
    kmodify (su_store (fun m => store32 m (code - 12) (V2P entrypgdir)));;
    c ← get_cpu i;
    zoom su_lapic set_lapic (Lapic.lapicstartap (cpu_apicid c) (V2P code));;
    wait_started fuel (late i) i).
End startothers.

(** ** The page table of the start *)

Definition PTE_PS : Z := 0x080.
Definition entrypgdir : list Z :=
  <[Z.to_nat (Z.shiftr KERNBASE PDXSHIFT) := Z.lor (Z.lor (Z.lor 0 PTE_P) PTE_W) PTE_PS]>
  (<[0%nat := Z.lor (Z.lor (Z.lor 0 PTE_P) PTE_W) PTE_PS]> (replicate (Z.to_nat NPDENTRIES) 0)).
(** The processor's translation through a directory of 4 MB pages. *)
Definition translate4m (pgdir : list Z) (va : Z) : option Z :=
  match pgdir !! Z.to_nat (PDX va) with
  | Some e => if (Z.land e PTE_P =? 0) || (Z.land e PTE_PS =? 0) then None else Some (Z.land e (u32 (Z.lnot 0x3FFFFF)) + va mod 2 ^ 22)
  | None => None
  end.
(** The first 4 MB of memory are mapped where they are and at [KERNBASE], and
    nothing else is mapped. *)
Lemma entrypgdir_maps va : 0 <= va < 2 ^ 32 ->
  translate4m entrypgdir va = if decide (va < 2 ^ 22) then Some va else if decide (KERNBASE <= va < KERNBASE + 2 ^ 22) then Some (va - KERNBASE) else None.
Proof.
  intros Hva. unfold translate4m, entrypgdir, PDX, PDXSHIFT. rewrite u32_id, Z.shiftr_div_pow2 by lia. change 0x3FF with (Z.ones 10). rewrite Z.land_ones by lia.
  pose proof (Z.div_mod va (2 ^ 22) ltac:(lia)). pose proof (Z.mod_pos_bound va (2 ^ 22) ltac:(lia)). assert (Hq : 0 <= va / 2 ^ 22 < 1024) by lia.
  rewrite (Z.mod_small (va / 2 ^ 22)) by lia. change (Z.to_nat (Z.shiftr KERNBASE 22)) with 512%nat. unfold KERNBASE.
  destruct (decide (va / 2 ^ 22 = 512)) as [E|E].
  - rewrite E, list_lookup_insert_eq by (rewrite length_insert, length_replicate; unfold NPDENTRIES; lia). cbn. rewrite decide_False, decide_True by lia. f_equal. change (Z.land _ (u32 _)) with 0. lia.
  - rewrite list_lookup_insert_ne by lia. destruct (decide (va / 2 ^ 22 = 0)) as [E0|E0].
    + rewrite E0, list_lookup_insert_eq by (rewrite length_replicate; unfold NPDENTRIES; lia). cbn. rewrite decide_True by lia. f_equal. change (Z.land _ (u32 _)) with 0. lia.
    + rewrite list_lookup_insert_ne, lookup_replicate_2 by (unfold NPDENTRIES; lia). cbn. by rewrite !decide_False by lia.
Qed.

(** ** Every processor is started *)

Lemma sent_app hi a b : exists hi', Lapic.sent hi (a ++ b) = Lapic.sent hi a ++ Lapic.sent hi' b.
Proof.
  revert hi. induction a as [|[i v] a IH]; intros hi; [by exists hi|]. cbn [app Lapic.sent].
  destruct (i =? Lapic.ICRHI); [apply IH|]. destruct (i =? Lapic.ICRLO); [|apply IH].
  destruct (IH hi) as [hi' E]. exists hi'. by rewrite E.
Qed.

Lemma find_message_app {A} (f : A -> bool) a b : List.find f (a ++ b) = match List.find f a with Some x => Some x | None => List.find f b end.
Proof. induction a as [|x a IH]; [done|]. cbn. by destruct (f x). Qed.

(** The allocator does not depend on the memory below its pages. *)
Lemma kmem_ok_low kend k l m : kmem_ok kend k l -> (forall x, kend <= x -> m x = k_mem k x) -> kmem_ok kend (set_mem m k) l.
Proof.
  intros [Hl Hn Hp] Hm. split; [|done|done]. cbn [k_mem k_freelist set_mem]. eapply free_list_ext; [|exact Hl].
  intros v x Hv Hx. destruct (Hp v Hv) as (_ & ? & _). apply Hm. lia.
Qed.

Section correct.
Context (kend entryother_start entryother_size mpenter pgdir : Z) (me : nat) (late : nat -> nat) (fuel : nat).
Hypothesis Hend : P2V 0x8000 <= kend.
Hypothesis Hsize : 0 <= entryother_size <= PGSIZE.
Hypothesis Hmpenter : 0 <= mpenter < 2 ^ 32.

(** The words left below the entry code. *)
Definition words (stack : Z) (m : mem) : Prop :=
  load32 m (code - 4) = stack + KSTACKSIZE /\ load32 m (code - 8) = mpenter /\ load32 m (code - 12) = V2P pgdir.

Lemma words_written m stack : good_page kend stack ->
  words stack (store32 (store32 (store32 m (code - 4) (u32 (stack + KSTACKSIZE))) (code - 8) mpenter) (code - 12) (V2P pgdir)).
Proof.
  intros (_ & _ & Hr). unfold KERNBASE, PHYSTOP in Hr. unfold words. split_and!.
  - rewrite (load32_ext (store32 m (code - 4) (u32 (stack + KSTACKSIZE)))) by (intros x Hx; rewrite !store32_out by lia; done).
    rewrite load32_store32, !u32_id; unfold KSTACKSIZE; rewrite ?u32_id; lia.
  - rewrite (load32_ext (store32 (store32 m (code - 4) (u32 (stack + KSTACKSIZE))) (code - 8) mpenter)) by (intros x Hx; rewrite !store32_out by lia; done).
    rewrite load32_store32. by apply u32_id.
  - rewrite load32_store32. unfold V2P, u32. apply Z.mod_mod. lia.
Qed.

(** A processor that has had its message comes up within the polls allowed. *)
Lemma wait_started_spec i c s v stack : su_cpus s !! i = Some c -> cpu_started c = 0 ->
  List.find (is_startup (cpu_apicid c)) (Lapic.sent 0 (Lapic.l_log (su_lapic s))) = Some (cpu_apicid c, v) ->
  4096 * Lapic.vector v = 0x7000 -> words stack (k_mem (su_kmem s)) -> forall k fuel, (S k < fuel)%nat ->
  wp (wait_started fuel k i) s (fun _ s' => s' = mkstartup (su_kmem s) (su_lapic s) (alter (set_started 1) i (su_cpus s))
    (su_aps s ++ [mkap (cpu_apicid c) (stack + KSTACKSIZE) mpenter (V2P pgdir)])).
Proof.
  intros Hi H0 Hf Hv (W1 & W2 & W3) k. induction k as [|k IH]; intros [|f] Hk; [lia| |lia|]; cbn [wait_started];
    (apply wp_bind; unfold get_cpu at 1, wp at 1; rewrite Hi, H0; change (0 =? 0) with true; cbv iota).
  - apply wp_bind, wp_modify. unfold ap_run. rewrite Hi, Hf. cbv zeta. rewrite Hv. fold code. rewrite W1, W2, W3.
    destruct f as [|f]; [lia|]. cbn [wait_started]. apply wp_bind. unfold get_cpu, wp at 1. cbn [su_cpus].
    rewrite list_lookup_alter, Hi, decide_True by done. by apply wp_ret.
  - apply wp_bind, wp_ret. apply IH. lia.
Qed.

(** The processors other than this one among the first [i], and what the
    [k]-th of them is started with: the [k]-th free page is its stack. *)
Definition others (i : nat) : list nat := filter (fun j => j <> me) (seq 0 i).
Definition started_with (cpus : list cpu) (j : nat) (page : Z) : ap :=
  mkap (from_option cpu_apicid 0 (cpus !! j)) (page + KSTACKSIZE) mpenter (V2P pgdir).
Definition up (cpus : list cpu) (i : nat) : list cpu :=
  imap (fun j c => if decide (j < i /\ j <> me)%nat then set_started 1 c else c) cpus.

Record su_inv (m0 : mem) (cpus : list cpu) (l : list Z) (i : nat) (s : startup) : Prop := mk_su_inv {
  si_kmem : kmem_ok kend (su_kmem s) (drop (length (others i)) l);
  si_code : forall k, 0 <= k < entryother_size -> k_mem (su_kmem s) (code + k) = m0 (entryother_start + k);
  si_cpus : su_cpus s = up cpus i;
  si_log : forall j c, (i <= j)%nat -> j <> me -> cpus !! j = Some c ->
    List.find (is_startup (cpu_apicid c)) (Lapic.sent 0 (Lapic.l_log (su_lapic s))) = None;
  si_aps : su_aps s = zip_with (started_with cpus) (others i) l
}.

Lemma others_S i : others (S i) = others i ++ (if decide (i = me) then [] else [i]).
Proof.
  unfold others. rewrite seq_S, filter_app. f_equal. rewrite filter_cons, filter_nil. change (0 + i)%nat with i. by destruct (decide (i = me)), (decide (i <> me)).
Qed.
Lemma up_S cpus i : up cpus (S i) = if decide (i = me) then up cpus i else alter (set_started 1) i (up cpus i).
Proof.
  apply list_eq. intros j. destruct (decide (i = me)) as [->|Hne]; rewrite ?list_lookup_alter; unfold up; rewrite !list_lookup_imap.
  - destruct (cpus !! j) as [c|]; [|done]. cbn. do 2 case_decide; done || lia.
  - destruct (decide (i = j)) as [->|Hj]; (destruct (cpus !! j) as [c|]; [|done]); cbn; repeat case_decide; done || lia.
Qed.
Lemma zip_with_snoc {A B C} (f : A -> B -> C) k x l y : l !! length k = Some y -> zip_with f (k ++ [x]) l = zip_with f k l ++ [f x y].
Proof.
  revert l. induction k as [|a k IH]; intros [|b l] Hl; try done; cbn in *; [by simplify_eq|]. f_equal. by apply IH.
Qed.

Context (cpus : list cpu) (l : list Z) (m0 : mem).
Hypothesis Hids : NoDup (cpu_apicid <$> cpus).
Hypothesis Hcpu : Forall (fun c => 0 <= cpu_apicid c < 256) cpus.
Hypothesis Hoff : forall j c, cpus !! j = Some c -> j <> me -> cpu_started c = 0.
Hypothesis Hpages : (length (others (length cpus)) <= length l)%nat.
Hypothesis Hlate : forall i, (S (late i) < fuel)%nat.

Lemma others_le i j : (i <= j)%nat -> (length (others i) <= length (others j))%nat.
Proof. induction 1 as [|j H IH]; [done|]. rewrite others_S, length_app. lia. Qed.

(** A STARTUP to one processor starts no other. *)
Lemma log_other log new id id' init deinit st : id <> id' -> (forall hi, Lapic.sent hi new = [(id, init); (id, deinit); (id, st); (id, st)]) ->
  List.find (is_startup id') (Lapic.sent 0 log) = None -> List.find (is_startup id') (Lapic.sent 0 (log ++ new)) = None.
Proof.
  intros Hne Hnew Hf. destruct (sent_app 0 log new) as [hi ->]. rewrite find_message_app, Hf, Hnew. cbn. unfold is_startup. cbn.
  by rewrite (proj2 (Z.eqb_neq id id') Hne).
Qed.
Lemma log_own log new id init deinit st : (forall hi, Lapic.sent hi new = [(id, init); (id, deinit); (id, st); (id, st)]) ->
  Lapic.mode init = Lapic.INIT -> Lapic.mode deinit = Lapic.INIT -> Lapic.mode st = Lapic.STARTUP ->
  List.find (is_startup id) (Lapic.sent 0 log) = None -> List.find (is_startup id) (Lapic.sent 0 (log ++ new)) = Some (id, st).
Proof.
  intros Hnew H1 H2 H3 Hf. destruct (sent_app 0 log new) as [hi ->]. rewrite find_message_app, Hf, Hnew. cbn. unfold is_startup. cbn.
  by rewrite Z.eqb_refl, H1, H2, H3.
Qed.

Lemma start_one i s c : (i < length cpus)%nat -> i <> me -> cpus !! i = Some c -> su_inv m0 cpus l i s ->
  wp (stack ← zoom su_kmem set_kmem kalloc;
      kmodify (su_store (fun m => store32 m (code - 4) (u32 (stack + KSTACKSIZE))));;
      kmodify (su_store (fun m => store32 m (code - 8) mpenter));;
      kmodify (su_store (fun m => store32 m (code - 12) (V2P pgdir)));;
      c ← get_cpu i;
      zoom su_lapic set_lapic (Lapic.lapicstartap (cpu_apicid c) (V2P code));;
      wait_started fuel (late i) i) s (fun _ s' => su_inv m0 cpus l (S i) s').
Proof.
  intros Hi Hme Hc [Hk Hcode Hcp Hlog Haps].
  assert (Hlt : (length (others i) < length l)%nat).
  { pose proof (others_le (S i) (length cpus) ltac:(lia)) as H. rewrite others_S, decide_False, length_app in H by done. cbn in H. lia. }
  destruct (lookup_lt_is_Some_2 _ _ Hlt) as [page Hpage]. rewrite (drop_S _ _ _ Hpage) in Hk.
  apply wp_bind, wp_zoom. eapply wp_mono; [apply (kalloc_spec _ _ _ Hk)|]. intros r k1 (Em & _ & -> & Hk1).
  assert (Hgood : good_page kend page) by (apply (ko_page _ _ _ Hk); left).
  do 3 (apply wp_bind, wp_modify).
  set (m3 := store32 (store32 (store32 (k_mem k1) (code - 4) (u32 (page + KSTACKSIZE))) (code - 8) mpenter) (code - 12) (V2P pgdir)).
  match goal with |- wp _ ?t _ => change t with (mkstartup (set_mem m3 k1) (Lapic.l_store m3 (su_lapic s)) (su_cpus s) (su_aps s)) end.
  assert (Hup : up cpus i !! i = Some c) by (unfold up; rewrite list_lookup_imap, Hc; cbn; by rewrite decide_False by lia).
  apply wp_bind. unfold get_cpu, wp at 1. cbn [su_cpus]. rewrite Hcp, Hup. apply wp_bind, wp_zoom. cbn [su_lapic].
  change (V2P code) with (4096 * 7).
  destruct (Lapic.lapicstartap_correct (cpu_apicid c) 7 (Lapic.l_store m3 (su_lapic s))) as (l1 & new & init & deinit & st & E & Hl1 & Hnew & Hinit & Hde & Hst & Hv & _ & Hmem);
    [by apply (Forall_lookup_1 _ _ _ _ Hcpu Hc)|lia|].
  apply (wp_done _ _ _ _ _ E). unfold set_lapic. cbn [su_kmem su_lapic su_cpus su_aps Lapic.l_log Lapic.l_mem Lapic.l_store] in *.
  assert (Hlow : forall x, code <= x -> Lapic.l_mem l1 x = k_mem (su_kmem s) x).
  { intros x Hx. rewrite <- Em, Hmem by (right; assert (P2V 0x46B <= code) by done; lia). unfold m3. by rewrite !store32_out by lia. }
  eapply wp_mono; [eapply (wait_started_spec i c _ st page)|].
  - cbn [su_cpus]. exact Hup.
  - by apply (Hoff i).
  - cbn [su_lapic]. rewrite Hl1. eapply log_own; try eassumption. by apply (Hlog i).
  - exact Hv.
  - cbn [su_kmem k_mem set_mem]. destruct (words_written (k_mem k1) page Hgood) as (W1 & W2 & W3). fold m3 in W1, W2, W3.
    assert (P2V 0x46B <= code - 12) by done. split_and!; (rewrite (load32_ext m3); [done|]); intros x Hx; apply Hmem; right; lia.
  - apply Hlate.
  - intros [] s' ->. cbn [su_kmem su_lapic su_cpus su_aps]. split; cbn [su_kmem su_lapic su_cpus su_aps k_mem set_mem].
    + rewrite others_S, decide_False, length_app by done. cbn [length]. rewrite Nat.add_1_r.
      apply (kmem_ok_low _ k1); [exact Hk1|]. intros x Hx. rewrite Em. apply Hlow. assert (code <= P2V 0x8000) by done. lia.
    + intros k Hkk. rewrite Hlow by lia. by apply Hcode.
    + by rewrite up_S, decide_False.
    + intros j c' Hj Hjm Hc'. rewrite Hl1. eapply log_other; [|exact Hnew|apply (Hlog j); try done; lia].
      intros Eid. assert (i = j); [|lia]. apply (NoDup_lookup _ i j (cpu_apicid c) Hids); rewrite list_lookup_fmap; [by rewrite Hc|by rewrite Hc', Eid].
    + rewrite others_S, decide_False, Haps by done. rewrite (zip_with_snoc _ _ _ _ page Hpage). unfold started_with at 3. by rewrite Hc.
Qed.
End correct.

(** C20.  [startothers], with a free page for each other processor, returns with
    every one of them running: each was started once, in the order of [cpus], in
    [mpenter], on [entrypgdir], and on a stack that is the next free page, so
    that no two share one; the entry code is at page 7 and the allocator keeps
    the rest of its pages. The processors may take their time: they need only
    come up within the polls the loop is given. *)
Theorem startothers_correct kend start size mpenter pgdir me late fuel s l :
  P2V 0x8000 <= kend -> 0 <= size <= PGSIZE -> 0 <= mpenter < 2 ^ 32 ->
  kmem_ok kend (su_kmem s) l -> (length (others me (length (su_cpus s))) <= length l)%nat ->
  NoDup (cpu_apicid <$> su_cpus s) -> Forall (fun c => 0 <= cpu_apicid c < 256) (su_cpus s) ->
  (forall j c, su_cpus s !! j = Some c -> j <> me -> cpu_started c = 0) ->
  su_aps s = [] -> Forall (fun m => Lapic.mode m.2 <> Lapic.STARTUP) (Lapic.sent 0 (Lapic.l_log (su_lapic s))) ->
  (forall i, S (late i) < fuel)%nat ->
  wp (startothers start size mpenter pgdir me late fuel) s (fun _ s' =>
    let n := length (others me (length (su_cpus s))) in
    su_aps s' = zip_with (started_with mpenter pgdir (su_cpus s)) (others me (length (su_cpus s))) l /\
    su_cpus s' = up me (su_cpus s) (length (su_cpus s)) /\
    kmem_ok kend (su_kmem s') (drop n l) /\ NoDup (take n l) /\
    forall k, 0 <= k < size -> k_mem (su_kmem s') (code + k) = k_mem (su_kmem s) (start + k)).
Proof.
  intros Hend Hsz Hmp Hk Hn Hids Hcpu Hoff Haps Hlog Hlate. unfold startothers. apply wp_bind, wp_modify. apply wp_bind, wp_get.
  change (su_cpus (su_store _ s)) with (su_cpus s).
  apply (wp_kfor (su_inv kend start size mpenter pgdir me (k_mem (su_kmem s)) (su_cpus s) l)).
  - split; cbn.
    + apply kmem_ok_low; [exact Hk|]. intros x Hx. rewrite memmove_at, bool_decide_eq_false_2 by (assert (code + PGSIZE <= P2V 0x8000) by done; lia). done.
    + intros k Hkk. rewrite memmove_at, bool_decide_eq_true_2 by lia. f_equal. lia.
    + apply list_eq. intros j. unfold up. rewrite list_lookup_imap. destruct (su_cpus s !! j); [|done]. cbn. by rewrite decide_False by lia.
    + intros j c _ _ _. induction Hlog as [|m ms Hm _ IH]; [done|]. cbn. unfold is_startup at 1. by rewrite (proj2 (Z.eqb_neq _ _) Hm), andb_false_r.
    + done.
  - intros i s1 Hi Hinv. destruct (Nat.eqb_spec i me) as [->|Hne].
    + apply wp_ret. destruct Hinv as [I1 I2 I3 I4 I5]. split; rewrite ?others_S, ?up_S, ?decide_True, ?app_nil_r by done; try done.
      intros j c Hj. apply I4. lia.
    + destruct (lookup_lt_is_Some_2 (su_cpus s) i ltac:(lia)) as [c Hc]. eapply start_one; try done; lia.
  - intros s' [I1 I2 I3 _ I5]. cbn in *. split_and!; try done. by apply (NoDup_app _ (drop (length (others me (length (su_cpus s)))) l)); rewrite take_drop; apply (ko_nodup _ _ _ Hk).
Qed.

(** Three processors, two free pages; the third processor needs three polls. *)
Definition demo_cpu (id : Z) : cpu := mkcpu id 0 taskstate0 [] 0 0 0 None.
Definition demo_startup : startup :=
  let m := store32 (fun _ => 0) 0x80400000 0x80401000 in
  mkstartup (mkkmem m false 0x80400000) (Lapic.mkls 0xFEE00000 (fun _ => 0) [] 0 [] m) [demo_cpu 0; demo_cpu 1; demo_cpu 2] [].

Definition demo_late (i : nat) : nat := if (i =? 2)%nat then 3 else 0.

Lemma startothers_correct_witness :
  wp (startothers 0x80110000 64 0x80103000 0x80109000 0 demo_late 5) demo_startup (fun _ s' =>
    su_aps s' = [mkap 1 0x80401000 0x80103000 0x109000; mkap 2 0x80402000 0x80103000 0x109000]).
Proof.
  eapply wp_mono; [apply (startothers_correct 0x80200000 0x80110000 64 0x80103000 0x80109000 0 demo_late 5 demo_startup [0x80400000; 0x80401000])|].
  - discriminate.
  - unfold PGSIZE. lia.
  - lia.
  - split; [repeat split; reflexivity|apply (bool_decide_unpack _); reflexivity|].
    intros v. rewrite !elem_of_cons, elem_of_nil. intros [->|[->|[]]]; unfold good_page, KERNBASE, PHYSTOP; split; try reflexivity; lia.
  - apply Nat.leb_le. reflexivity.
  - apply (bool_decide_unpack _); reflexivity.
  - repeat (apply Forall_cons; split; [cbn; lia|]). apply Forall_nil. exact I.
  - intros [|[|[|j]]] c E; cbn in E; try discriminate E; injection E as <-; reflexivity.
  - reflexivity.
  - apply Forall_nil. exact I.
  - intros i. unfold demo_late. destruct (i =? 2)%nat; lia.
  - intros [] s' (E & _). rewrite E. reflexivity.
Defined.
