(* ===== verification/User.v ===== *)
(** * User programs: [user.h], [usys.S] and the parts of [ulib.c] and
    [printf.c] that make system calls

    A user program is the interaction tree of its system calls: a call is an
    event, whose answer is the returned word and the bytes the kernel leaves in
    the buffer it was given.  The loops of the programs are [ITree.iter], so
    that a program that never ends is one.  [runs t s l s' o]: given the
    answers [s], the program makes the calls [l] and ends as [o] says, with
    the answers [s'] left over; as an inductive predicate it only holds of
    finite runs.  [play] computes a run.

    [printf] writes its characters one call at a time; [uprintf_runs] gives
    them in closed form. *)

From ITree Require Import Core.ITreeDefinition.
From S2P Require Import Prelude CString Printf.

(** The system calls, with what the kernel reads of their arguments. *)
Inductive call :=
| c_fork | c_wait | c_pipe | c_getpid | c_uptime | c_cps | c_nps | c_date
| c_write (fd : Z) (data : list Z)
| c_read (fd n : Z)
| c_close (fd : Z)
| c_kill (pid : Z)
| c_exec (path : list Z) (argv : list (list Z))
| c_open (path : list Z) (omode : Z)
| c_mknod (path : list Z) (major minor : Z)
| c_unlink (path : list Z)
| c_fstat (fd : Z)
| c_link (old new : list Z)
| c_mkdir (path : list Z)
| c_chdir (path : list Z)
| c_dup (fd : Z)
| c_sbrk (n : Z)
| c_sleep (n : Z)
| c_chpr (pid priority : Z).

Definition ans : Type := Z * list Z.
(** [exit] does not return; [Undefined] is undefined behaviour. *)
Inductive sysE : Type -> Type :=
| Sys (c : call) : sysE ans
| Exit : sysE Empty_set
| Undefined : sysE Empty_set.

Definition prog : Type -> Type := itree sysE.
#[export] Instance prog_ret : MRet prog := fun A a => ITreeDefinition.Ret a.
#[export] Instance prog_bind : MBind prog := fun A B k t => ITree.bind t k.

Definition sys (c : call) : prog ans := ITree.trigger (Sys c).
Definition call_ (c : call) : prog Z := r ← sys c; mret r.1.
Definition exit {A} : prog A := Vis Exit (fun v : Empty_set => match v with end).
Definition undefined {A} : prog A := Vis Undefined (fun v : Empty_set => match v with end).

(** ** Runs *)

Inductive act (A : Type) :=
| Do_ret (a : A)
| Do_tau (t : prog A)
| Do_call (c : call) (k : ans -> prog A)
| Do_exit
| Do_undefined.
Arguments Do_ret {A}. Arguments Do_tau {A}. Arguments Do_call {A}. Arguments Do_exit {A}. Arguments Do_undefined {A}.

Definition next {A} (t : prog A) : act A :=
  match observe t with
  | RetF a => Do_ret a
  | TauF t => Do_tau t
  | VisF e k =>
      match e in sysE X return (X -> prog A) -> act A with
      | Sys c => Do_call c
      | Exit => fun _ => Do_exit
      | Undefined => fun _ => Do_undefined
      end k
  end.

(** A run returns, exits, or waits for the answer of its last call. *)
Inductive outcome (A : Type) := Returned (a : A) | Exited | Waiting.
Arguments Returned {A}. Arguments Exited {A}. Arguments Waiting {A}.

Inductive runs {A} : prog A -> list ans -> list call -> list ans -> outcome A -> Prop :=
| runs_ret t a s : next t = Do_ret a -> runs t s [] s (Returned a)
| runs_tau t t' s l s' o : next t = Do_tau t' -> runs t' s l s' o -> runs t s l s' o
| runs_call t c k a s l s' o : next t = Do_call c k -> runs (k a) s l s' o -> runs t (a :: s) (c :: l) s' o
| runs_wait t c k : next t = Do_call c k -> runs t [] [c] [] Waiting
| runs_exit t s : next t = Do_exit -> runs t s [] s Exited.

Fixpoint play {A} (fuel : nat) (t : prog A) (s : list ans) : option (list call * list ans * outcome A) :=
  match fuel with
  | O => None
  | S fuel =>
      match next t with
      | Do_ret a => Some ([], s, Returned a)
      | Do_tau t => play fuel t s
      | Do_call c k =>
          match s with
          | [] => Some ([c], [], Waiting)
          | a :: s => '(l, s', o) ← play fuel (k a) s; Some (c :: l, s', o)
          end
      | Do_exit => Some ([], s, Exited)
      | Do_undefined => None
      end
  end.

Lemma play_runs {A} fuel : forall (t : prog A) s l s' o, play fuel t s = Some (l, s', o) -> runs t s l s' o.
Proof.
  induction fuel as [|fuel IH]; intros t s l s' o; [done|]. cbn [play]. destruct (next t) as [a|t1|c k| |] eqn:E; intros H.
  - simplify_eq. by apply runs_ret.
  - by eapply runs_tau, IH.
  - destruct s as [|a s]; [simplify_eq; by eapply runs_wait|].
    destruct (play fuel (k a) s) as [[[l1 s1] o1]|] eqn:Ep; simplify_eq/=. by eapply runs_call, IH.
  - simplify_eq. by apply runs_exit.
  - done.
Qed.

(** The answers determine the run. *)
Lemma runs_det {A} (t : prog A) s l s1 o l' s1' o' : runs t s l s1 o -> runs t s l' s1' o' -> l = l' /\ s1 = s1' /\ o = o'.
Proof.
  intros H. revert l' s1' o'. induction H as [t a s E|t t1 s l s1 o E H IH|t c k a s l s1 o E H IH|t c k E|t s E]; intros l' s1' o' H';
    inversion H'; clear H'; rewrite E in *; simplify_eq; try done; [eauto|].
  edestruct IH as (-> & -> & ->); [eassumption|done].
Qed.

(** ** Composition *)

Lemma next_bind {A B} (t : prog A) (k : A -> prog B) :
  next (t ≫= k) = match next t with
                  | Do_ret a => next (k a)
                  | Do_tau t => Do_tau (t ≫= k)
                  | Do_call c f => Do_call c (fun a => f a ≫= k)
                  | Do_exit => Do_exit
                  | Do_undefined => Do_undefined
                  end.
Proof.
  assert (Eb : observe (ITree.bind t k) = observe (match observe t with
    RetF a => k a | TauF t => Tau (ITree.bind t k) | VisF e f => Vis e (fun x => ITree.bind (f x) k) end)) by reflexivity.
  unfold next, mbind, prog_bind. rewrite Eb. destruct (observe t) as [a|t1|X e f]; [done|done|]. by destruct e.
Qed.

Lemma runs_next {A} (t u : prog A) s l s' o : next u = next t -> runs t s l s' o -> runs u s l s' o.
Proof. intros E H. destruct H; rewrite <- E in *; eauto using @runs_ret, @runs_tau, @runs_call, @runs_wait, @runs_exit. Qed.

Lemma runs_bind {A B} (t : prog A) (k : A -> prog B) s l1 s1 a l2 s2 o :
  runs t s l1 s1 (Returned a) -> runs (k a) s1 l2 s2 o -> runs (t ≫= k) s (l1 ++ l2) s2 o.
Proof.
  remember (Returned a) as r eqn:Er. intros H. revert Er. induction H as [t a' s E|t t1 s l s1 o1 E H IH|t c f a' s l s1 o1 E H IH|t c f E|t s E]; intros Er Hk; simplify_eq.
  - eapply runs_next; [|exact Hk]. by rewrite next_bind, E.
  - eapply runs_tau; [by rewrite next_bind, E|]. by apply IH.
  - cbn [app]. eapply runs_call; [by rewrite next_bind, E|]. by apply IH.
Qed.
(** A part that exits, or waits, ends the whole. *)
Definition stop {A B} (o : outcome A) : option (outcome B) :=
  match o with Returned _ => None | Exited => Some Exited | Waiting => Some Waiting end.
Lemma runs_stop {A B} (t : prog A) (k : A -> prog B) s l s1 o o' : runs t s l s1 o -> stop o = Some o' -> runs (t ≫= k) s l s1 o'.
Proof.
  induction 1 as [t a s E|t t1 s l s1 o E H IH|t c f a s l s1 o E H IH|t c f E|t s E]; intros Ho; cbn in Ho; simplify_eq.
  - eapply runs_tau; [by rewrite next_bind, E|]. by apply IH.
  - eapply runs_call; [by rewrite next_bind, E|]. by apply IH.
  - eapply runs_wait. by rewrite next_bind, E.
  - apply runs_exit. by rewrite next_bind, E.
Qed.

Lemma runs_mret {A} (a : A) s : runs (mret a) s [] s (Returned a).
Proof. by apply runs_ret. Qed.
Lemma runs_sys c a s : runs (sys c) (a :: s) [c] s (Returned a).
Proof. eapply runs_call; [done|]. by apply runs_ret. Qed.
Lemma runs_call_ c a s : runs (call_ c) (a :: s) [c] s (Returned a.1).
Proof. eapply (runs_bind _ _ _ [c] _ _ []); [apply runs_sys|apply runs_mret]. Qed.
Lemma runs_exit_now {A} s : runs (@exit A) s [] s Exited.
Proof. by apply runs_exit. Qed.

(** One turn of a loop. *)
Lemma runs_iter {A R} (body : A -> prog (A + R)) i s l1 s1 j l2 s2 o :
  runs (body i) s l1 s1 (Returned (inl j)) -> runs (ITree.iter body j) s1 l2 s2 o -> runs (ITree.iter body i) s (l1 ++ l2) s2 o.
Proof.
  intros H1 H2. apply (runs_next (body i ≫= (fun x => match x with inl j => Tau (ITree.iter body j) | inr r => mret r end))); [done|].
  eapply runs_bind; [exact H1|]. by eapply runs_tau.
Qed.
Lemma runs_iter_last {A R} (body : A -> prog (A + R)) i s l s1 r :
  runs (body i) s l s1 (Returned (inr r)) -> runs (ITree.iter body i) s l s1 (Returned r).
Proof.
  intros H. apply (runs_next (body i ≫= (fun x => match x with inl j => Tau (ITree.iter body j) | inr r => mret r end))); [done|].
  rewrite <- (app_nil_r l). eapply runs_bind; [exact H|]. apply runs_mret.
Qed.
Lemma runs_iter_stop {A R} (body : A -> prog (A + R)) i s l s1 o o' :
  runs (body i) s l s1 o -> stop o = Some o' -> runs (ITree.iter body i) s l s1 o'.
Proof.
  intros H Ho. apply (runs_next (body i ≫= (fun x => match x with inl j => Tau (ITree.iter body j) | inr r => mret r end))); [done|].
  by eapply runs_stop.
Qed.

Create HintDb runs.
#[export] Hint Resolve runs_mret runs_sys runs_call_ runs_exit_now : runs.

(** [for(i = 1; i < argc; i++) body(argv[i])], with the index. *)
Fixpoint each {X} (i : nat) (l : list X) (body : nat -> X -> prog unit) : prog unit :=
  match l with
  | [] => mret tt
  | x :: l => body i x;; each (S i) l body
  end.

(** ** [printf] *)

(** The arguments of [printf], and their words and the strings in memory from
    address [a] on. *)
Inductive arg := AInt (n : Z) | AStr (s : list Z).
Fixpoint layout (a : Z) (args : list arg) : list Z * list Z :=
  match args with
  | [] => ([], [])
  | AInt n :: args => let '(w, b) := layout a args in (n :: w, b)
  | AStr s :: args => let '(w, b) := layout (a + Z.of_nat (length s) + 1) args in (a :: w, s ++ 0 :: b)
  end.

(** [putc]: one call for each character. *)
Fixpoint putcs (fd : Z) (out : list Z) : prog unit :=
  match out with
  | [] => mret tt
  | c :: out => sys (c_write fd [c]);; putcs fd out
  end.
Definition uprintf (fd : Z) (fmt : list Z) (args : list arg) : prog unit :=
  let '(w, b) := layout 1 args in
  match printf (S (length b)) (mem_of (0 :: b)) fmt w with
  | Some out => putcs fd out
  | None => undefined
  end.

(** The text of a format and its arguments. *)
Fixpoint render (fmt : list Z) (percent : bool) (args : list arg) : option (list Z) :=
  match fmt with
  | [] => Some []
  | c :: fmt =>
      if percent then
        if c =? 100 then
          match args with AInt n :: args => out ← printint (i32 n) 10 true; app out <$> render fmt false args | _ => None end
        else if c =? 115 then
          match args with AStr s :: args => app s <$> render fmt false args | _ => None end
        else None
      else if c =? 37 then render fmt true args else cons c <$> render fmt false args
  end.

Definition no_nul (s : list Z) : Prop := Forall (fun c => c <> 0) s.
Definition arg_ok (x : arg) : Prop := match x with AInt _ => True | AStr s => no_nul s end.
Definition writes (fd : Z) (out : list Z) : list call := (fun c => c_write fd [c]) <$> out.

Lemma mem_of_app pre l i : (i < length l)%nat -> mem_of (pre ++ l) (Z.of_nat (length pre) + Z.of_nat i) = nth i l 0.
Proof.
  intros Hi. unfold mem_of. rewrite (proj2 (Z.ltb_ge _ _)) by lia. rewrite app_nth2 by lia. f_equal. lia.
Qed.

Lemma put_string_mem s : no_nul s -> forall fuel pre post, (length s < fuel)%nat ->
  put_string fuel (mem_of (pre ++ s ++ 0 :: post)) (Z.of_nat (length pre)) = Some s.
Proof.
  induction 1 as [|c s Hc Hs IH]; intros [|fuel] pre post Hf; try (cbn in Hf; lia); cbn [put_string].
  - rewrite <- (Z.add_0_r (Z.of_nat (length pre))) at 1. rewrite (mem_of_app _ _ 0) by (cbn; lia). done.
  - pose proof (mem_of_app pre ((c :: s) ++ 0 :: post) 0 ltac:(cbn; lia)) as E. rewrite Z.add_0_r in E. cbn [nth app] in E. cbn [app]. rewrite E, (proj2 (Z.eqb_neq c 0) Hc).
    specialize (IH fuel (pre ++ [c]) post ltac:(cbn in Hf; lia)). rewrite length_app, <- app_assoc in IH. cbn [app length] in IH.
    replace (Z.of_nat (length pre) + 1) with (Z.of_nat (length pre + 1)) by lia. by rewrite IH.
Qed.

Lemma printf_render fmt : forall percent args pre fuel w b out, Forall arg_ok args -> layout (Z.of_nat (length pre)) args = (w, b) -> (0 < length pre)%nat ->
  (length b < fuel)%nat -> render fmt percent args = Some out -> printf_loop fuel (mem_of (pre ++ b)) fmt percent w = Some out.
Proof.
  induction fmt as [|c fmt IH]; intros percent args pre fuel w b out Ha El Hp Hf Hr; cbn [render printf_loop] in *; [done|].
  destruct percent; [destruct (Z.eqb_spec c 100) as [->|_]|].
  - destruct args as [|[n|s] args]; try done. apply Forall_cons in Ha as [_ Ha]. cbn [layout] in El. destruct (layout (Z.of_nat (length pre)) args) as [w1 b1] eqn:E1. simplify_eq.
    destruct (printint (i32 n) 10 true) as [o|]; [|done]. cbn in *. destruct (render fmt false args) as [o1|] eqn:Er; [|done].
    by rewrite (IH _ args pre fuel w1 b o1).
  - destruct (Z.eqb_spec c 115) as [->|_]; [|done]. cbn [Z.eqb orb Pos.eqb].
    destruct args as [|[n|s] args]; try done. apply Forall_cons in Ha as [Hs Ha]. cbn [layout] in El.
    destruct (layout (Z.of_nat (length pre) + Z.of_nat (length s) + 1) args) as [w1 b1] eqn:E1. simplify_eq.
    destruct (render fmt false args) as [o1|] eqn:Er; [|done]. cbn in Hr. simplify_eq. unfold put_strarg. rewrite (proj2 (Z.eqb_neq _ 0)) by lia.
    rewrite length_app in Hf. cbn [length] in Hf. rewrite put_string_mem by (done || lia). cbn [mbind option_bind].
    replace (pre ++ s ++ 0 :: b1) with ((pre ++ s ++ [0]) ++ b1) by (by rewrite <- !app_assoc).
    rewrite (IH _ args (pre ++ s ++ [0]) fuel w1 b1 o1); try done; [|rewrite !length_app; cbn; lia|lia].
    rewrite <- E1. f_equal. rewrite !length_app. cbn. lia.
  - destruct (c =? 37); [by eapply IH|]. destruct (render fmt false args) as [o1|] eqn:Er; [|done]. cbn in Hr. simplify_eq. by erewrite IH.
Qed.

Lemma putcs_runs fd out s0 s : length s0 = length out -> runs (putcs fd out) (s0 ++ s) (writes fd out) s (Returned tt).
Proof.
  revert s0. induction out as [|c out IH]; intros [|a s0] Hl; try done; [apply runs_mret|]. cbn [putcs writes fmap list_fmap app] in *.
  eapply (runs_bind _ _ _ [_]); [apply runs_sys|]. apply IH. by injection Hl.
Qed.

(** What [printf] writes, whatever its calls return. *)
Lemma uprintf_runs fd fmt args out s0 s : Forall arg_ok args -> render fmt false args = Some out -> length s0 = length out ->
  runs (uprintf fd fmt args) (s0 ++ s) (writes fd out) s (Returned tt).
Proof.
  intros Ha Hr Hl. unfold uprintf. destruct (layout 1 args) as [w b] eqn:El.
  pose proof (printf_render fmt false args [0] (S (length b)) w b out Ha El ltac:(cbn; lia) ltac:(lia) Hr) as E. cbn [app] in E.
  unfold printf. rewrite E. by apply putcs_runs.
Qed.

(** ** Stepping through a program *)

Lemma step_call {B} c (k : Z -> prog B) a s l s' o : runs (k a.1) s l s' o -> runs (call_ c ≫= k) (a :: s) (c :: l) s' o.
Proof. intros H. eapply (runs_bind _ _ _ [c]); [apply runs_call_|exact H]. Qed.
Lemma step_sys {B} c (k : ans -> prog B) a s l s' o : runs (k a) s l s' o -> runs (sys c ≫= k) (a :: s) (c :: l) s' o.
Proof. intros H. eapply (runs_bind _ _ _ [c]); [apply runs_sys|exact H]. Qed.
Lemma step_print {B} fd fmt args out (k : unit -> prog B) s0 s l s' o : Forall arg_ok args -> render fmt false args = Some out -> length s0 = length out ->
  runs (k tt) s l s' o -> runs (uprintf fd fmt args ≫= k) (s0 ++ s) (writes fd out ++ l) s' o.
Proof. intros Ha Hr Hl H. eapply runs_bind; [by eapply uprintf_runs|exact H]. Qed.
Lemma step_ret {A B} (a : A) (k : A -> prog B) s l s' o : runs (k a) s l s' o -> runs (mret a ≫= k) s l s' o.
Proof. intros H. eapply (runs_bind _ _ _ []); [apply runs_mret|exact H]. Qed.

Lemma then_exit {A B} (t : prog A) s l s' a : runs t s l s' (Returned a) -> runs (t;; @exit B) s l s' Exited.
Proof. intros H. rewrite <- (app_nil_r l). eapply runs_bind; [exact H|apply runs_exit_now]. Qed.
(** A program text that ends in [exit]. *)
Lemma print_exit {A} fd fmt args out s0 s : Forall arg_ok args -> render fmt false args = Some out -> length s0 = length out ->
  runs (uprintf fd fmt args;; @exit A) (s0 ++ s) (writes fd out) s Exited.
Proof. intros Ha Hr Hl. eapply then_exit. by eapply uprintf_runs. Qed.

(** ** [ulib.c] *)

Definition atoi (s : list Z) : Z := default 0 (Ulib.atoi (S (length s)) (mem_of (s ++ [0])) 0).

(** What [read] leaves in a buffer. *)
Definition fill (buf bytes : list Z) : list Z := bytes ++ drop (length bytes) buf.

(** [for(i=0; i+1 < max; )] *)
Definition gets_turn (max : Z) (x : list Z * Z) : prog (list Z * Z + list Z * Z) :=
  let '(buf, i) := x in
  if i + 1 <? max then
    r ← sys (c_read 0 1);
    if r.1 <? 1 then mret (inr (buf, i)) else
    let c := hd 0 r.2 in
    let buf := <[Z.to_nat i := c]> buf in
    if (c =? 10) || (c =? 13) then mret (inr (buf, i + 1)) else mret (inl (buf, i + 1))
  else mret (inr (buf, i)).
Definition gets (buf : list Z) (max : Z) : prog (list Z) :=
  '(buf, i) ← ITree.iter (gets_turn max) (buf, 0);
  mret (<[Z.to_nat i := 0]> buf).

(** [stat]: the result and the bytes of [struct stat]. *)
Definition stat (path : list Z) : prog ans :=
  fd ← call_ (c_open path 0);
  if fd <? 0 then mret (-1, []) else
  r ← sys (c_fstat fd);
  sys (c_close fd);;
  mret r.

(** [gets] takes the characters of a line and stores the line and a NUL. *)
Definition keys (line : list Z) : list ans := (fun c => (1, [c])) <$> line.
Lemma gets_loop_runs line : Forall (fun c => c <> 10 /\ c <> 13) line -> forall max buf i s, 0 <= i -> i + Z.of_nat (length line) + 1 < max -> Z.of_nat (length buf) = max ->
  runs (ITree.iter (gets_turn max) (buf, i)) (keys (line ++ [10]) ++ s) (replicate (S (length line)) (c_read 0 1)) s
  (Returned (take (Z.to_nat i) buf ++ line ++ [10] ++ drop (Z.to_nat i + length line + 1) buf, i + Z.of_nat (length line) + 1)).
Proof.
  induction 1 as [|c line [H10 H13] _ IH]; intros max buf i s Hi Hm Hb.
  - cbn [app keys fmap list_fmap replicate length]. rewrite Z.add_0_r, Nat.add_0_r. apply runs_iter_last. unfold gets_turn. rewrite (proj2 (Z.ltb_lt _ _)) by (cbn in Hm; lia).
    eapply step_sys. cbn. rewrite insert_take_drop by lia. rewrite Nat.add_1_r. apply runs_mret.
  - cbn [app keys fmap list_fmap replicate length] in *. eapply (runs_iter _ _ _ [c_read 0 1]).
    + unfold gets_turn. rewrite (proj2 (Z.ltb_lt _ _)) by lia. eapply step_sys. cbn. rewrite (proj2 (Z.eqb_neq c 10) H10), (proj2 (Z.eqb_neq c 13) H13). apply runs_mret.
    + specialize (IH max (<[Z.to_nat i := c]> buf) (i + 1) s ltac:(lia) ltac:(lia)). rewrite length_insert in IH. specialize (IH Hb).
      rewrite Z2Nat.inj_add in IH by lia. change (Z.to_nat 1) with 1%nat in IH. rewrite Nat.add_1_r, (take_S_r _ _ c), take_insert_ge, drop_insert_lt in IH by (rewrite ?list_lookup_insert_eq; lia || done).
      rewrite <- app_assoc in IH. replace (i + 1 + Z.of_nat (length line) + 1) with (i + Z.of_nat (S (length line)) + 1) in IH by lia.
      replace (S (Z.to_nat i) + length line + 1)%nat with (Z.to_nat i + S (length line) + 1)%nat in IH by lia. exact IH.
Qed.
Lemma gets_runs line max buf s : Forall (fun c => c <> 10 /\ c <> 13) line -> Z.of_nat (length line) + 1 < max -> Z.of_nat (length buf) = max ->
  runs (gets buf max) (keys (line ++ [10]) ++ s) (replicate (S (length line)) (c_read 0 1)) s (Returned (line ++ 10 :: 0 :: drop (length line + 2) buf)).
Proof.
  intros Hl Hm Hb. unfold gets. rewrite <- (app_nil_r (replicate _ _)).
  eapply runs_bind; [apply (gets_loop_runs line Hl max buf 0); lia|]. cbn [fst snd Z.to_nat take app Nat.add].
  rewrite Z.add_0_l. replace (Z.to_nat (Z.of_nat (length line) + 1)) with (length line + 1)%nat by lia.
  change (Z.to_nat 0) with 0%nat. rewrite take_0. cbn [app Nat.add]. rewrite insert_app_r. destruct (lookup_lt_is_Some_2 buf (length line + 1) ltac:(lia)) as [x Hx]. cbn [insert list_insert]. rewrite (drop_S _ _ _ Hx).
  replace (length line + 2)%nat with (S (length line + 1)) by lia. apply runs_mret.
Qed.
