(* ===== verification/Programs.v ===== *)
(** * The user programs

    One [Module] for each program, with its functions as interaction trees
    over the system calls ([User.v]).  A call of [exec] that is never answered
    is one that succeeded: the process goes on as another program.  The tree of
    a program that forks is that of one process; the child is the run in which
    [fork] answers 0.

    Results, each for every answer the kernel may give: [Cat.cat_correct] (the
    input is copied in full), [Echo.echo_correct], [Ls.fmtname_correct],
    [Init.init_restarts] (a shell is started again whenever one ends, and
    orphans are waited for), [Shell.shell_serves] (the shell survives its
    commands), [Nice.nice_correct], [Forktest.forktest_reaps], and what does not
    work: [Cp.cp_copies_nothing], [Touch.touch_touches_itself]. *)

From ITree Require Import Core.ITreeDefinition.
From S2P Require Import Prelude CString Printf Sh ShRun Fs File Sysfile User.

(** A message with its newline. *)
Definition msg (s : string) : list Z := chars s ++ [10].
Definition BUFSIZE : Z := 512.
Abbreviation argv_t := (list (list Z)).
Definition argc (argv : argv_t) : Z := Z.of_nat (length argv).

(** What the calls write to a descriptor. *)
Definition written (fd : Z) (calls : list call) : list Z :=
  mjoin ((fun c => match c with c_write d data => if d =? fd then data else [] | _ => [] end) <$> calls).
Lemma written_app fd l1 l2 : written fd (l1 ++ l2) = written fd l1 ++ written fd l2.
Proof. unfold written. by rewrite fmap_app, join_app. Qed.

(** The answers of writes of one character. *)
Definition echoes (out : list Z) : list ans := (fun _ => (1, [])) <$> out.
Lemma echoes_app a b : echoes (a ++ b) = echoes a ++ echoes b.
Proof. apply fmap_app. Qed.
Lemma length_echoes out : length (echoes out) = length out.
Proof. apply length_fmap. Qed.

Module Cat.

Definition cat_turn (fd : Z) (buf : list Z) : prog (list Z + list Z) :=
  r ← sys (c_read fd BUFSIZE);
  let n := r.1 in
  let buf := fill buf r.2 in
  if 0 <? n then
    w ← call_ (c_write 1 (take (Z.to_nat n) buf));
    if negb (w =? n) then uprintf 1 (msg "cat: write error") [];; exit
    else mret (inl buf)
  else if n <? 0 then uprintf 1 (msg "cat: read error") [];; exit
  else mret (inr buf).
Definition cat (fd : Z) (buf : list Z) : prog (list Z) := ITree.iter (cat_turn fd) buf.

Fixpoint cat_files (files : argv_t) (buf : list Z) : prog unit :=
  match files with
  | [] => exit
  | f :: files =>
      fd ← call_ (c_open f 0);
      if fd <? 0 then uprintf 1 (msg "cat: cannot open %s") [AStr f];; exit else
      buf ← cat fd buf;
      sys (c_close fd);;
      cat_files files buf
  end.
Definition main (argv : argv_t) : prog unit :=
  let buf := replicate (Z.to_nat BUFSIZE) 0 in
  if argc argv <=? 1 then cat 0 buf;; exit
  else cat_files (drop 1 argv) buf.

(** The answers of reading [chunks] and then the end of the file, and of the
    writes that take all they are given; and the calls. *)
Definition copy_answers (chunks : list (list Z)) : list ans :=
  mjoin ((fun c => [(Z.of_nat (length c), c); (Z.of_nat (length c), [])]) <$> chunks) ++ [(0, [])].
Definition copy_calls (fd : Z) (chunks : list (list Z)) : list call :=
  mjoin ((fun c => [c_read fd BUFSIZE; c_write 1 c]) <$> chunks) ++ [c_read fd BUFSIZE].

Lemma cat_runs fd chunks : Forall (fun c => c <> []) chunks -> forall buf s,
  exists buf', runs (cat fd buf) (copy_answers chunks ++ s) (copy_calls fd chunks) s (Returned buf').
Proof.
  unfold cat. induction 1 as [|c chunks Hc _ IH]; intros buf s.
  - eexists. apply runs_iter_last. eapply step_sys. apply runs_mret.
  - destruct (IH (fill buf c) s) as [buf' H]. exists buf'. apply (runs_iter _ _ _ [c_read fd BUFSIZE; c_write 1 c] (copy_answers chunks ++ s) (fill buf c)); [|exact H].
    eapply step_sys. cbn [fst snd]. assert (0 < Z.of_nat (length c)) by (destruct c; [done|cbn; lia]).
    rewrite (proj2 (Z.ltb_lt 0 _)), Nat2Z.id by done. unfold fill. rewrite take_app_length. eapply step_call. cbn [fst]. rewrite Z.eqb_refl. apply runs_mret.
Qed.

(** A file of the command line: its name, the descriptor it gets, its pieces. *)
Definition file_answers (f : list Z * Z * list (list Z)) : list ans := (f.1.2, []) :: copy_answers f.2 ++ [(0, [])].
Definition file_calls (f : list Z * Z * list (list Z)) : list call := c_open f.1.1 0 :: copy_calls f.1.2 f.2 ++ [c_close f.1.2].

Lemma cat_files_runs files : Forall (fun f => 0 <= f.1.2 /\ Forall (fun c => c <> []) f.2) files -> forall buf,
  runs (cat_files (map (fun f => f.1.1) files) buf) (mjoin (file_answers <$> files)) (mjoin (file_calls <$> files)) [] Exited.
Proof.
  induction 1 as [|[[name fd] chunks] files [Hfd Hc] _ IH]; intros buf; [apply runs_exit_now|]. cbn [map fst snd cat_files] in *.
  change (mjoin (file_answers <$> _ :: files)) with (file_answers (name, fd, chunks) ++ mjoin (file_answers <$> files)).
  change (mjoin (file_calls <$> _ :: files)) with (file_calls (name, fd, chunks) ++ mjoin (file_calls <$> files)).
  unfold file_answers at 1, file_calls at 1. cbn [fst snd app]. eapply step_call. cbn [fst]. rewrite (proj2 (Z.ltb_ge _ _)) by done.
  rewrite <- !app_assoc. destruct (cat_runs fd chunks Hc buf ([(0, [])] ++ mjoin (file_answers <$> files))) as [buf' H].
  eapply runs_bind; [exact H|]. eapply step_sys. apply IH.
Qed.

Lemma written_copy fd chunks : written 1 (copy_calls fd chunks) = mjoin chunks.
Proof.
  unfold copy_calls. rewrite written_app, app_nil_r. induction chunks as [|c chunks IH]; [done|].
  change (mjoin (c :: chunks)) with (c ++ mjoin chunks). rewrite <- IH. done.
Qed.

(** [cat] with files as arguments, whatever the pieces in which the reads
    return them: it exits after writing to its output exactly the files'
    contents, one after the other, and closing each. *)
Theorem cat_correct arg0 files : files <> [] -> Forall (fun f => 0 <= f.1.2 /\ Forall (fun c => c <> []) f.2) files ->
  let calls := mjoin (file_calls <$> files) in
  runs (main (arg0 :: map (fun f => f.1.1) files)) (mjoin (file_answers <$> files)) calls [] Exited /\
  written 1 calls = mjoin (mjoin <$> (snd <$> files)).
Proof.
  intros Hne Hf. split.
  - unfold main, argc. rewrite (proj2 (Z.leb_gt _ 1)); [by apply cat_files_runs|]. destruct files; [done|]. cbn. lia.
  - clear Hne Hf. induction files as [|[[name fd] chunks] files IH]; [done|].
    change (mjoin (file_calls <$> _ :: files)) with (file_calls (name, fd, chunks) ++ mjoin (file_calls <$> files)).
    change (mjoin (mjoin <$> (snd <$> (name, fd, chunks) :: files))) with (mjoin chunks ++ mjoin (mjoin <$> (snd <$> files))).
    rewrite written_app, IH. f_equal. unfold file_calls. cbn [fst snd].
    change (c_open name 0 :: copy_calls fd chunks ++ [c_close fd]) with ([c_open name 0] ++ copy_calls fd chunks ++ [c_close fd]).
    rewrite !written_app, written_copy. apply app_nil_r.
Qed.

Lemma cat_correct_witness : runs (main [chars "cat"; chars "f"; chars "g"])
  [(3, []); (2, [104; 105]); (2, []); (1, [33]); (1, []); (0, []); (0, []); (3, []); (0, []); (0, [])]
  [c_open (chars "f") 0; c_read 3 512; c_write 1 [104; 105]; c_read 3 512; c_write 1 [33]; c_read 3 512; c_close 3;
   c_open (chars "g") 0; c_read 3 512; c_close 3] [] Exited.
Proof.
  apply (proj1 (cat_correct (chars "cat") [(chars "f", 3, [[104; 105]; [33]]); (chars "g", 3, [])] ltac:(discriminate)
    ltac:(repeat constructor; discriminate))).
Defined.
End Cat.

Module Cp.

Definition copy_turn (fd0 fd1 : Z) (buf : list Z) : prog (list Z + unit) :=
  r ← sys (c_read fd0 BUFSIZE);
  let n := r.1 in
  let buf := fill buf r.2 in
  if 0 <? n then sys (c_write fd1 (take (Z.to_nat n) buf));; mret (inl buf)
  else mret (inr tt).
Definition main (argv : argv_t) : prog unit :=
  match argv with
  | _ :: a1 :: a2 :: _ =>
      fd0 ← call_ (c_open a1 O_RDONLY);
      if fd0 <? 0 then uprintf 1 (msg "cp: cannot open %s") [AStr a1];; exit else
      fd1 ← call_ (c_open a2 (Z.lor O_CREATE O_RDONLY));
      if fd1 <? 0 then uprintf 1 (msg "cp: cannot open %s") [AStr a2];; exit else
      ITree.iter (copy_turn fd0 fd1) (replicate (Z.to_nat BUFSIZE) 0);;
      sys (c_close fd0);;
      sys (c_close fd1);;
      exit
  | _ => uprintf 1 (msg "Two arguments required") [];; exit
  end.

(** [cp] makes the calls of a copy whatever its writes answer. *)
Definition cp_answers (fd0 fd1 : Z) (chunks : list (list Z * ans)) : list ans :=
  [(fd0, []); (fd1, [])] ++ mjoin ((fun c => [(Z.of_nat (length c.1), c.1); c.2]) <$> chunks) ++ [(0, []); (0, []); (0, [])].
Definition cp_calls (a1 a2 : list Z) (fd0 fd1 : Z) (chunks : list (list Z)) (omode : Z) : list call :=
  [c_open a1 O_RDONLY; c_open a2 omode] ++ mjoin ((fun c => [c_read fd0 BUFSIZE; c_write fd1 c]) <$> chunks) ++
  [c_read fd0 BUFSIZE; c_close fd0; c_close fd1].

Lemma copy_runs fd0 fd1 chunks : Forall (fun c => c.1 <> []) chunks -> forall buf s,
  runs (ITree.iter (copy_turn fd0 fd1) buf) (mjoin ((fun c : list Z * ans => [(Z.of_nat (length c.1), c.1); c.2]) <$> chunks) ++ (0, []) :: s)
    (mjoin ((fun c => [c_read fd0 BUFSIZE; c_write fd1 c]) <$> (fst <$> chunks)) ++ [c_read fd0 BUFSIZE]) s (Returned tt).
Proof.
  induction 1 as [|[c w] chunks Hc _ IH]; intros buf s.
  - apply runs_iter_last. eapply step_sys. apply runs_mret.
  - eapply (runs_iter _ _ _ [c_read fd0 BUFSIZE; c_write fd1 c]); [|apply IH].
    eapply step_sys. cbn [fst snd] in *. assert (0 < Z.of_nat (length c)) by (destruct c; [done|cbn; lia]).
    rewrite (proj2 (Z.ltb_lt 0 _)), Nat2Z.id by done. unfold fill. rewrite take_app_length. eapply step_sys. apply runs_mret.
Qed.

Lemma cp_runs a0 a1 a2 fd0 fd1 chunks : 0 <= fd0 -> 0 <= fd1 -> Forall (fun c => c.1 <> []) chunks ->
  runs (main [a0; a1; a2]) (cp_answers fd0 fd1 chunks) (cp_calls a1 a2 fd0 fd1 (fst <$> chunks) (Z.lor O_CREATE O_RDONLY)) [] Exited.
Proof.
  intros H0 H1 Hc. unfold main, cp_answers, cp_calls. cbn [app]. eapply step_call. cbn [fst]. rewrite (proj2 (Z.ltb_ge _ _)) by done.
  eapply step_call. cbn [fst]. rewrite (proj2 (Z.ltb_ge _ _)) by done.
  change [c_read fd0 BUFSIZE; c_close fd0; c_close fd1] with ([c_read fd0 BUFSIZE] ++ [c_close fd0; c_close fd1]). rewrite app_assoc.
  eapply runs_bind; [by apply copy_runs|]. do 2 eapply step_sys. apply runs_exit_now.
Qed.

(** [cp] does not copy: it makes the calls of a copy and ignores what its
    writes answer, but it opens the copy in a mode for which [sys_open] makes
    an open file that is not writable, so that each of those writes returns -1
    and changes nothing. *)
Theorem cp_copies_nothing a0 a1 a2 fd0 fd1 chunks : 0 <= fd0 -> 0 <= fd1 -> Forall (fun c => c.1 <> []) chunks ->
  exists omode, runs (main [a0; a1; a2]) (cp_answers fd0 fd1 chunks) (cp_calls a1 a2 fd0 fd1 (fst <$> chunks) omode) [] Exited /\
  forall S (B : BlockStore.BlockStore S) (T : BlockStore.TxOps S) devsw (s : files S) f ip x data n,
    fi_table s !! f = Some (opened ip omode x) -> @filewrite S B T devsw f data n s = Done (-1) s.
Proof.
  intros H0 H1 Hc. exists (Z.lor O_CREATE O_RDONLY). split; [by apply cp_runs|].
  intros S B T devsw s f ip x data n Hf. unfold filewrite. rewrite (bind_done _ _ s (opened ip (Z.lor O_CREATE O_RDONLY) x) s); [done|]. unfold get_file. by rewrite Hf.
Qed.

Lemma cp_copies_nothing_witness : exists omode, runs (main [chars "cp"; chars "a"; chars "b"])
  [(3, []); (4, []); (2, [104; 105]); (-1, []); (0, []); (0, []); (0, [])]
  [c_open (chars "a") 0; c_open (chars "b") omode; c_read 3 512; c_write 4 [104; 105]; c_read 3 512; c_close 3; c_close 4] [] Exited.
Proof.
  destruct (cp_copies_nothing (chars "cp") (chars "a") (chars "b") 3 4 [([104; 105], (-1, []))]) as (omode & H & _); [lia|lia|repeat constructor; discriminate|].
  exists omode. exact H.
Defined.
End Cp.

Module Echo.

Fixpoint words (args : argv_t) : prog unit :=
  match args with
  | [] => exit
  | a :: args => uprintf 1 (chars "%s%s") [AStr a; AStr (match args with [] => [10] | _ => [32] end)];; words args
  end.
Definition main (argv : argv_t) : prog unit := words (drop 1 argv).

Fixpoint text (args : argv_t) : list Z :=
  match args with
  | [] => []
  | [a] => a ++ [10]
  | a :: args => a ++ [32] ++ text args
  end.

(** [echo] writes its arguments with a space between two of them and a
    newline at the end. *)
Lemma echo_correct arg0 args : Forall no_nul args -> runs (main (arg0 :: args)) (echoes (text args)) (writes 1 (text args)) [] Exited.
Proof.
  unfold main. cbn [drop]. induction 1 as [|a args Ha Hargs IH]; [apply runs_exit_now|]. change (drop 0 (a :: args)) with (a :: args). change (drop 0 args) with args in IH. cbn [words].
  set (sep := match args with [] => [10] | _ => [32] end).
  assert (Et : text (a :: args) = (a ++ sep) ++ text args) by (destruct args; cbn; by rewrite <- ?app_assoc, ?app_nil_r). rewrite Et.
  rewrite echoes_app. unfold writes. rewrite (fmap_app _ (a ++ sep)). apply (step_print _ _ _ (a ++ sep)); [|cbn; by rewrite app_nil_r|apply length_echoes|exact IH].
  repeat constructor; [exact Ha|]. unfold sep. destruct args; repeat constructor; discriminate.
Qed.
End Echo.

Module Ls.

(** [for(p=path+n; p >= path && *p != '/'; p--); p++], as an index. *)
Fixpoint scan_back (path : list Z) (n : nat) : nat :=
  if nth n path 0 =? 47 then S n else
  match n with O => O | S n => scan_back path n end.
Definition fmtname (path : list Z) : list Z :=
  let p := drop (scan_back path (length path)) path in
  if DIRSIZ <=? Z.of_nat (length p) then p
  else p ++ replicate (Z.to_nat DIRSIZ - length p) 32.

Lemma scan_back_slash dir name : Forall (fun c => c <> 47) name -> forall k, (k <= length name)%nat ->
  scan_back (dir ++ 47 :: name) (length dir + k) = S (length dir).
Proof.
  intros Hn k. induction k as [|k IH]; intros Hk.
  - rewrite Nat.add_0_r. destruct dir as [|d dir]; [done|]. cbn [scan_back length]. rewrite app_nth2 by (cbn; lia).
    cbn [length]. rewrite Nat.sub_diag. done.
  - rewrite Nat.add_succ_r. cbn [scan_back]. rewrite app_nth2 by lia. replace (S (length dir + k) - length dir)%nat with (S k) by lia. cbn [nth].
    rewrite (proj2 (Z.eqb_neq _ 47)); [apply IH; lia|]. destruct (lookup_lt_is_Some_2 name k ltac:(lia)) as [c Hc].
    rewrite (nth_lookup_Some _ _ _ _ Hc). by apply (Forall_lookup_1 _ _ _ _ Hn Hc).
Qed.
Lemma scan_back_none path : Forall (fun c => c <> 47) path -> forall k, scan_back path k = O.
Proof.
  intros Hp. assert (Hk : forall k, nth k path 0 =? 47 = false).
  { intros k. apply Z.eqb_neq. destruct (path !! k) as [c|] eqn:E; [rewrite (nth_lookup_Some _ _ _ _ E); by apply (Forall_lookup_1 _ _ _ _ Hp E)|].
    rewrite nth_overflow; [done|by apply lookup_ge_None]. }
  induction k as [|k IH]; cbn [scan_back]; by rewrite Hk.
Qed.

(** [fmtname] gives the last component of a path, padded with blanks to the
    width of a directory entry. *)
Definition pad (name : list Z) : list Z := name ++ replicate (Z.to_nat DIRSIZ - length name) 32.
Lemma fmtname_correct dir name : Forall (fun c => c <> 47) name -> fmtname (dir ++ 47 :: name) = pad name /\ fmtname name = pad name.
Proof.
  intros Hn. assert (Hpad : forall n, (if DIRSIZ <=? Z.of_nat (length n) then n else n ++ replicate (Z.to_nat DIRSIZ - length n) 32) = pad n).
  { intros n. unfold pad. destruct (Z.leb_spec DIRSIZ (Z.of_nat (length n))); [|done]. replace (Z.to_nat DIRSIZ - length n)%nat with O by lia. by rewrite app_nil_r. }
  unfold fmtname. split.
  - rewrite length_app. cbn [length]. rewrite Nat.add_succ_r.
    cbn [scan_back]. rewrite (nth_overflow (dir ++ 47 :: name)) by (rewrite length_app; cbn; lia). cbn [Z.eqb].
    rewrite (scan_back_slash dir name Hn) by lia. rewrite drop_app_ge by lia. replace (S (length dir) - length dir)%nat with 1%nat by lia. apply Hpad.
  - rewrite (scan_back_none name Hn). apply Hpad.
Qed.

(** The fields of the [struct stat] the kernel stored. *)
Definition st_type (st : list Z) : Z := get16 0 st.
Definition st_ino (st : list Z) : Z := le_val (slice 8 4 st).
Definition st_size (st : list Z) : Z := le_val (slice 16 4 st).
Definition show (path st : list Z) : prog unit :=
  uprintf 1 (msg "%s %d %d %d") [AStr (fmtname path); AInt (st_type st); AInt (st_ino st); AInt (st_size st)].

(** [strcpy(buf, path)], ['/'], [memmove(p, de.name, DIRSIZ)], [p[DIRSIZ] = 0]:
    the string then in [buf]. *)
Definition entry_path (path de : list Z) : list Z := path ++ [47] ++ before_nul (de_name de).

Definition entry_turn (fd : Z) (path : list Z) (_ : unit) : prog (unit + unit) :=
  r ← sys (c_read fd sizeof_dirent);
  if negb (r.1 =? sizeof_dirent) then mret (inr tt) else
  if de_inum r.2 =? 0 then mret (inl tt) else
  let buf := entry_path path r.2 in
  st ← stat buf;
  if st.1 <? 0 then uprintf 1 (msg "ls: cannot stat %s") [AStr buf];; mret (inl tt)
  else show buf st.2;; mret (inl tt).

Definition ls (path : list Z) : prog unit :=
  fd ← call_ (c_open path 0);
  if fd <? 0 then uprintf 2 (msg "ls: cannot open %s") [AStr path] else
  st ← sys (c_fstat fd);
  if st.1 <? 0 then uprintf 2 (msg "ls: cannot stat %s") [AStr path];; sys (c_close fd);; mret tt else
  (if st_type st.2 =? T_FILE then show path st.2
   else if st_type st.2 =? T_DIR then
     if BUFSIZE <? Z.of_nat (length path) + 1 + DIRSIZ + 1 then uprintf 1 (msg "ls: path too long") []
     else ITree.iter (entry_turn fd path) tt
   else mret tt);;
  sys (c_close fd);;
  mret tt.

Fixpoint ls_all (args : argv_t) : prog unit :=
  match args with
  | [] => exit
  | a :: args => ls a;; ls_all args
  end.
Definition main (argv : argv_t) : prog unit :=
  if argc argv <? 2 then ls (chars ".");; exit else ls_all (drop 1 argv).
End Ls.

Module Init.

Definition wait_turn (pid : Z) (_ : unit) : prog (unit + unit) :=
  wpid ← call_ c_wait;
  if (0 <=? wpid) && negb (wpid =? pid) then uprintf 1 (msg "zombie!") [];; mret (inl tt)
  else mret (inr tt).
Definition round (_ : unit) : prog (unit + Empty_set) :=
  uprintf 1 (msg "init: starting sh") [];;
  pid ← call_ c_fork;
  if pid <? 0 then uprintf 1 (msg "init: fork failed") [];; exit else
  if pid =? 0 then
    sys (c_exec (chars "sh") [chars "sh"]);;
    uprintf 1 (msg "init: exec sh failed") [];;
    exit
  else
  ITree.iter (wait_turn pid) tt;;
  mret (inl tt).
Definition main : prog Empty_set :=
  fd ← call_ (c_open (chars "console") O_RDWR);
  (if fd <? 0 then
     sys (c_mknod (chars "console") 1 1);;
     sys (c_open (chars "console") O_RDWR);;
     mret tt
   else mret tt);;
  sys (c_dup 0);;
  sys (c_dup 0);;
  ITree.iter round tt.

(** The time of one shell: its pid and the orphans whose [wait]s come before
    its own. *)
Definition zombie_text : list Z := msg "zombie!".
Definition start_text : list Z := msg "init: starting sh".
Definition orphan_answers (w : Z) : list ans := (w, []) :: echoes zombie_text.
Definition orphan_calls (w : Z) : list call := c_wait :: writes 1 zombie_text.
Definition shell_answers (x : Z * list Z) : list ans :=
  echoes start_text ++ (x.1, []) :: mjoin (orphan_answers <$> x.2) ++ [(x.1, [])].
Definition shell_calls (x : Z * list Z) : list call :=
  writes 1 start_text ++ c_fork :: mjoin (orphan_calls <$> x.2) ++ [c_wait].
Definition orphans_ok (x : Z * list Z) : Prop := 0 < x.1 /\ Forall (fun w => 0 <= w /\ w <> x.1) x.2.

Lemma wait_runs pid orphans : 0 < pid -> Forall (fun w => 0 <= w /\ w <> pid) orphans -> forall s,
  runs (ITree.iter (wait_turn pid) tt) (mjoin (orphan_answers <$> orphans) ++ (pid, []) :: s) (mjoin (orphan_calls <$> orphans) ++ [c_wait]) s (Returned tt).
Proof.
  intros Hp. induction 1 as [|w orphans [Hw Hne] _ IH]; intros s.
  - apply runs_iter_last. eapply step_call. cbn [fst]. rewrite Z.eqb_refl, andb_false_r. apply runs_mret.
  - change (mjoin (orphan_answers <$> w :: orphans)) with (orphan_answers w ++ mjoin (orphan_answers <$> orphans)).
    change (mjoin (orphan_calls <$> w :: orphans)) with (orphan_calls w ++ mjoin (orphan_calls <$> orphans)). rewrite <- !app_assoc.
    eapply runs_iter; [|apply IH]. eapply step_call. cbn [fst]. rewrite (proj2 (Z.leb_le _ _)), (proj2 (Z.eqb_neq _ _) Hne) by done. cbn [negb andb].
    rewrite <- (app_nil_r (writes 1 zombie_text)). eapply step_print; [constructor|reflexivity|apply length_echoes|apply runs_mret].
Qed.

Lemma round_runs x s : orphans_ok x -> runs (round tt) (shell_answers x ++ s) (shell_calls x) s (Returned (inl tt)).
Proof.
  destruct x as [pid orphans]. intros [Hp Ho]. cbn [fst snd] in *. unfold round, shell_answers, shell_calls. cbn [fst snd]. rewrite <- !app_assoc.
  eapply step_print; [constructor|reflexivity|apply length_echoes|]. cbn [app]. eapply step_call. cbn [fst].
  rewrite (proj2 (Z.ltb_ge _ _)), (proj2 (Z.eqb_neq _ 0)) by lia. rewrite <- (app_nil_r (mjoin (orphan_calls <$> orphans) ++ [c_wait])), <- (app_assoc _ [_] s).
  eapply runs_bind; [by apply wait_runs|apply runs_mret].
Qed.

(** C22.  [init] never ends while its forks succeed: however many shells have come
    and gone, whichever orphans it waited for in between, it has started a new
    shell after each and stands before starting the next one.  Orphans are
    reported and a shell's end is not mistaken for theirs. *)
Theorem init_restarts shells fd : Forall orphans_ok shells -> 0 <= fd ->
  runs main ([(fd, []); (1, []); (2, [])] ++ mjoin (shell_answers <$> shells))
    ([c_open (chars "console") O_RDWR; c_dup 0; c_dup 0] ++ mjoin (shell_calls <$> shells) ++ [c_write 1 [105]]) [] Waiting.
Proof.
  intros Hs Hfd. unfold main. cbn [app]. eapply step_call. cbn [fst]. rewrite (proj2 (Z.ltb_ge _ _)) by done.
  apply step_ret. do 2 eapply step_sys. induction Hs as [|x shells Hx _ IH].
  - eapply (runs_iter_stop _ _ _ _ _ Waiting); [|done]. by eapply runs_wait.
  - change (mjoin (shell_answers <$> x :: shells)) with (shell_answers x ++ mjoin (shell_answers <$> shells)).
    change (mjoin (shell_calls <$> x :: shells)) with (shell_calls x ++ mjoin (shell_calls <$> shells)). rewrite <- app_assoc.
    eapply runs_iter; [by apply round_runs|exact IH].
Qed.

(** Two shells; an orphan ends during the first. *)
Lemma init_restarts_witness : runs main ([(0, []); (1, []); (2, [])] ++ mjoin (shell_answers <$> [(2, [7]); (9, [])]))
  ([c_open (chars "console") O_RDWR; c_dup 0; c_dup 0] ++ mjoin (shell_calls <$> [(2, [7]); (9, [])]) ++ [c_write 1 [105]]) [] Waiting.
Proof. apply (init_restarts [(2, [7]); (9, [])] 0); [|lia]. repeat constructor; cbn; lia. Defined.
End Init.

Module Kill.

Fixpoint kill_all (args : argv_t) : prog unit :=
  match args with
  | [] => exit
  | a :: args => sys (c_kill (atoi a));; kill_all args
  end.
Definition main (argv : argv_t) : prog unit :=
  if argc argv <? 2 then uprintf 2 (msg "usage: kill pid...") [];; exit
  else kill_all (drop 1 argv).
End Kill.

Module Ln.

Definition main (argv : argv_t) : prog unit :=
  match argv with
  | [_; a1; a2] =>
      r ← call_ (c_link a1 a2);
      (if r <? 0 then uprintf 2 (msg "link %s %s: failed") [AStr a1; AStr a2] else mret tt);;
      exit
  | _ => uprintf 2 (msg "Usage: ln old new") [];; exit
  end.
End Ln.

(** [mkdir.c] and [rm.c] differ in the call and the messages. *)
Module Mkdir.

Fixpoint mkdirs (args : argv_t) : prog unit :=
  match args with
  | [] => exit
  | a :: args =>
      r ← call_ (c_mkdir a);
      if r <? 0 then uprintf 2 (msg "mkdir: %s failed to create") [AStr a];; exit else mkdirs args
  end.
Definition main (argv : argv_t) : prog unit :=
  if argc argv <? 2 then uprintf 2 (msg "Usage: mkdir files...") [];; exit else mkdirs (drop 1 argv).
End Mkdir.

Module Rm.

Fixpoint unlinks (args : argv_t) : prog unit :=
  match args with
  | [] => exit
  | a :: args =>
      r ← call_ (c_unlink a);
      if r <? 0 then uprintf 2 (msg "rm: %s failed to delete") [AStr a];; exit else unlinks args
  end.
Definition main (argv : argv_t) : prog unit :=
  if argc argv <? 2 then uprintf 2 (msg "Usage: rm files...") [];; exit else unlinks (drop 1 argv).

(** [rm] removes its arguments in order up to the first that cannot be
    removed, which it reports. *)
Lemma rm_stops arg0 files a rest r : no_nul a -> r < 0 -> runs (main (arg0 :: files ++ a :: rest))
  (((fun _ => (0, [])) <$> files) ++ (r, []) :: echoes (chars "rm: " ++ a ++ msg " failed to delete"))
  ((c_unlink <$> files) ++ c_unlink a :: writes 2 (chars "rm: " ++ a ++ msg " failed to delete")) [] Exited.
Proof.
  intros Ha Hr. unfold main, argc. rewrite (proj2 (Z.ltb_ge _ _)) by (cbn [length]; rewrite length_app; cbn; lia). change (drop 1 (arg0 :: ?l)) with l.
  cbn [drop]. change (drop 0 (files ++ a :: rest)) with (files ++ a :: rest). induction files as [|f files IH]; cbn [app unlinks fmap list_fmap].
  - eapply step_call. cbn [fst]. rewrite (proj2 (Z.ltb_lt _ _)) by done. rewrite <- (app_nil_r (echoes _)).
    apply print_exit; [by repeat constructor|cbn; reflexivity|apply length_echoes].
  - eapply step_call. exact IH.
Qed.
End Rm.

Module Touch.

Fixpoint touch_all (args : argv_t) : prog unit :=
  match args with
  | [] => exit
  | a :: args =>
      fdd ← call_ (c_open a O_CREATE);
      sys (c_close fdd);;
      touch_all args
  end.
Definition main (argv : argv_t) : prog unit :=
  if argc argv <? 1 then uprintf 1 (chars "touch file1, file2, file3") [];; exit
  else touch_all argv.

(** [touch] starts at [argv[0]]: besides the files it is given it creates one
    with the name it was called by. *)
Theorem touch_touches_itself arg0 args fd : runs (main (arg0 :: args)) (mjoin ((fun _ => [(fd, []); (0, [])]) <$> arg0 :: args))
  (mjoin ((fun a => [c_open a O_CREATE; c_close fd]) <$> arg0 :: args)) [] Exited.
Proof.
  unfold main, argc. rewrite (proj2 (Z.ltb_ge _ _)) by (cbn [length]; lia). generalize (arg0 :: args). intros l.
  induction l as [|a l IH]; [apply runs_exit_now|]. eapply step_call, step_sys. exact IH.
Qed.
End Touch.

(** The programs of a few calls. *)
Module Small.

Definition date_main : prog unit :=
  r ← call_ c_date;
  if r =? 0 then uprintf 2 (msg "date failed") [];; exit else exit.
Definition ps_main : prog unit := sys c_cps;; sys c_nps;; exit.
Definition nps_main : prog unit := sys c_nps;; exit.
Definition zombie_main : prog unit :=
  pid ← call_ c_fork;
  (if 0 <? pid then sys (c_sleep 5);; mret tt else mret tt);;
  exit.
End Small.

Module Nice.

Definition main (argv : argv_t) : prog unit :=
  match argv with
  | _ :: a1 :: a2 :: _ =>
      let pid := atoi a1 in
      let priority := atoi a2 in
      if (priority <? 0) || (20 <? priority) then uprintf 2 (msg "Invalid priority (0-20)!") [];; exit else
      sys (c_chpr pid priority);;
      exit
  | _ => uprintf 2 (msg "Usage: nice pid priority") [];; exit
  end.

(** [nice] asks for the change of priority when the priority is one of 0 to
    20, and otherwise only complains. *)
Lemma nice_correct arg0 a1 a2 rest r : runs (main (arg0 :: a1 :: a2 :: rest))
  (if decide (0 <= atoi a2 <= 20) then [(r, [])] else echoes (msg "Invalid priority (0-20)!"))
  (if decide (0 <= atoi a2 <= 20) then [c_chpr (atoi a1) (atoi a2)] else writes 2 (msg "Invalid priority (0-20)!")) [] Exited.
Proof.
  unfold main. cbv zeta. destruct (decide (0 <= atoi a2 <= 20)) as [H|H].
  - rewrite (proj2 (Z.ltb_ge _ _)), (proj2 (Z.ltb_ge _ _)) by lia. eapply step_sys. apply runs_exit_now.
  - assert (E : (atoi a2 <? 0) || (20 <? atoi a2) = true) by (destruct (Z.ltb_spec (atoi a2) 0), (Z.ltb_spec 20 (atoi a2)); lia || done). rewrite E.
    rewrite <- (app_nil_r (echoes _)). apply print_exit; [constructor|reflexivity|apply length_echoes].
Qed.
End Nice.

Module Forktest.

Definition N : Z := 1000.
(** The program has its own [printf]: one [write] of the format. *)
Definition print (fd : Z) (s : list Z) : prog unit := sys (c_write fd s);; mret tt.

Definition fork_turn (n : Z) : prog (Z + Z) :=
  if n <? N then
    pid ← call_ c_fork;
    if pid <? 0 then mret (inr n) else
    if pid =? 0 then exit else mret (inl (n + 1))
  else mret (inr n).
Definition wait_turn (n : Z) : prog (Z + unit) :=
  if 0 <? n then
    r ← call_ c_wait;
    if r <? 0 then print 1 (msg "wait stopped early");; exit else mret (inl (n - 1))
  else mret (inr tt).
Definition forktest : prog unit :=
  print 1 (msg "fork test");;
  n ← ITree.iter fork_turn 0;
  if n =? N then print 1 (msg "fork claimed to work N times!");; exit else
  ITree.iter wait_turn n;;
  r ← call_ c_wait;
  if negb (r =? -1) then print 1 (msg "wait got too many");; exit else
  print 1 (msg "fork test OK").
Definition main : prog unit := forktest;; exit.

Lemma fork_runs pids : Forall (fun pid => 0 < pid) pids -> forall n r s, r < 0 -> 0 <= n -> n + Z.of_nat (length pids) < N ->
  runs (ITree.iter fork_turn n) (((fun pid => (pid, [])) <$> pids) ++ (r, []) :: s) (replicate (S (length pids)) c_fork) s (Returned (n + Z.of_nat (length pids))).
Proof.
  induction 1 as [|pid pids Hp _ IH]; intros n r s Hr Hn Hl; cbn [length] in *.
  - rewrite Z.add_0_r. apply runs_iter_last. unfold fork_turn. rewrite (proj2 (Z.ltb_lt n N)) by lia. eapply step_call. cbn [fst]. rewrite (proj2 (Z.ltb_lt r 0)) by done. apply runs_mret.
  - cbn [fmap list_fmap app]. eapply (runs_iter _ _ _ [c_fork] _ (n + 1)).
    + unfold fork_turn. rewrite (proj2 (Z.ltb_lt n N)) by lia. eapply step_call. cbn [fst]. rewrite (proj2 (Z.ltb_ge pid 0)), (proj2 (Z.eqb_neq pid 0)) by lia. apply runs_mret.
    + replace (n + Z.of_nat (S (length pids))) with (n + 1 + Z.of_nat (length pids)) by lia. apply IH; lia.
Qed.
Lemma reap_runs pids : Forall (fun pid => 0 < pid) pids -> forall s,
  runs (ITree.iter wait_turn (Z.of_nat (length pids))) (((fun pid => (pid, [])) <$> pids) ++ s) (replicate (length pids) c_wait) s (Returned tt).
Proof.
  induction 1 as [|pid pids Hp _ IH]; intros s; cbn [length].
  - apply runs_iter_last. apply runs_mret.
  - cbn [fmap list_fmap app]. eapply (runs_iter _ _ _ [c_wait]); [|apply IH]. unfold wait_turn. rewrite (proj2 (Z.ltb_lt 0 _)) by lia.
    eapply step_call. cbn [fst]. rewrite (proj2 (Z.ltb_ge pid 0)) by lia. replace (Z.of_nat (S (length pids)) - 1) with (Z.of_nat (length pids)) by lia. apply runs_mret.
Qed.

(** When [fork] fails before the thousandth time, [forktest] waits once for
    each child it made, in whatever order they end, checks that there is no
    other and reports success. *)
Lemma forktest_reaps pids ends r w : Forall (fun pid => 0 < pid) pids -> ends ≡ₚ pids -> r < 0 -> Z.of_nat (length pids) < N ->
  runs main ([w] ++ ((fun pid => (pid, [])) <$> pids) ++ [(r, [])] ++ ((fun pid => (pid, [])) <$> ends) ++ [(-1, []); w])
    ([c_write 1 (msg "fork test")] ++ replicate (S (length pids)) c_fork ++ replicate (length pids) c_wait ++ [c_wait; c_write 1 (msg "fork test OK")]) [] Exited.
Proof.
  intros Hp He Hr Hl. unfold main. eapply then_exit.
  unfold forktest, print. cbn [app]. eapply (runs_bind _ _ _ [_]); [eapply step_sys, runs_mret|].
  eapply runs_bind; [by apply (fork_runs pids Hp 0 r)|]. rewrite Z.add_0_l, (proj2 (Z.eqb_neq _ N)) by lia.
  assert (Hends : Forall (fun pid => 0 < pid) ends) by (by rewrite He).
  rewrite <- (Permutation_length He). eapply runs_bind; [by apply reap_runs|]. eapply step_call, step_sys, runs_mret.
Qed.
End Forktest.

Module Stressfs.

Definition fork_turn (i : Z) : prog (Z + Z) :=
  if i <? 4 then
    pid ← call_ c_fork;
    if 0 <? pid then mret (inr i) else mret (inl (i + 1))
  else mret (inr i).
Fixpoint times (n : nat) (c : call) : prog unit :=
  match n with O => mret tt | S n => sys c;; times n c end.
Definition main : prog unit :=
  uprintf 1 (msg "stressfs starting") [];;
  let data := replicate 512 97 in
  i ← ITree.iter fork_turn 0;
  uprintf 1 (msg "write %d") [AInt i];;
  let path := chars "stressfs" ++ [48 + i] in
  fd ← call_ (c_open path (Z.lor O_CREATE O_RDWR));
  times 20 (c_write fd data);;
  sys (c_close fd);;
  uprintf 1 (msg "read") [];;
  fd ← call_ (c_open path O_RDONLY);
  times 20 (c_read fd 512);;
  sys (c_close fd);;
  sys c_wait;;
  exit.
End Stressfs.

Module Foo.

(** The calls of [foo.c]; the floating-point loop of the child makes none and
    its result is not used. *)
Definition turn (n k : Z) : prog (Z + unit) :=
  if k <? n then
    id ← call_ c_fork;
    if id <? 0 then
      pid ← call_ c_getpid;
      uprintf 1 (msg "%d failed in fork!") [AInt pid];; mret (inl (k + 1))
    else if 0 <? id then
      pid ← call_ c_getpid;
      uprintf 1 (msg "Parent %d creating child  %d") [AInt pid; AInt id];;
      sys c_wait;;
      mret (inl (k + 1))
    else
      pid ← call_ c_getpid;
      uprintf 1 (msg "Child %d created") [AInt pid];; mret (inr tt)
  else mret (inr tt).
Definition main (argv : argv_t) : prog unit :=
  let n := match argv with _ :: a1 :: _ => atoi a1 | _ => 1 end in
  let n := if (n <? 0) || (20 <? n) then 2 else n in
  ITree.iter (turn n) 0;;
  exit.
End Foo.

(** ** The shell *)

Module Shell.

Definition panic {A} (s : list Z) : prog A := uprintf 2 (msg "%s") [AStr s];; exit.

Definition fork1 : prog Z :=
  pid ← call_ c_fork;
  if pid =? -1 then panic (chars "fork") else mret pid.

(** The calls of [runcmd], from its tree in [ShRun.v]. *)
Fixpoint perform (t : ShRun.prog) : prog unit :=
  match t with
  | ShRun.Exit => exit
  | ShRun.Exec argv failed => sys (c_exec (hd [] argv) argv);; perform failed
  | ShRun.Print fmt arg k => uprintf 2 fmt [AStr arg];; perform k
  | ShRun.Close fd k => sys (c_close (Z.of_nat fd));; perform k
  | ShRun.Dup fd k => sys (c_dup (Z.of_nat fd));; perform k
  | ShRun.Open path mode k => fd ← call_ (c_open path mode); perform (k fd)
  | ShRun.Pipe k =>
      r ← sys c_pipe;
      perform (k (if r.1 <? 0 then None else Some (Z.to_nat (le_val (slice 0 4 r.2)), Z.to_nat (le_val (slice 4 4 r.2)))))
  | ShRun.Fork child parent => pid ← fork1; if pid =? 0 then perform child else perform parent
  | ShRun.Wait k => sys c_wait;; perform k
  end.

(** [runcmd(parsecmd(buf))] on the string in [buf]; [parsecmd] of [Sh.v] with
    the message it prints before it panics. *)
Definition run_line (line : list Z) : prog unit :=
  match (c ← parseline line (S (es line)); peek line [];; mret c) 0%nat with
  | Done c s =>
      if decide (s <> es line) then
        uprintf 2 (msg "leftovers: %s") [AStr (drop s line)];;
        panic (chars "syntax")
      else perform (runcmd (cmd_map (fun t => cstring (nulterminate c line) t.1) c))
  | Panic m => panic (chars m)
  | _ => undefined
  end.

Definition NBUF : Z := 100.
Definition getcmd (buf : list Z) : prog (Z * list Z) :=
  uprintf 2 (chars "$ ") [];;
  let buf := replicate (Z.to_nat NBUF) 0 in
  buf ← gets buf NBUF;
  if nth 0 buf 0 =? 0 then mret (-1, buf) else mret (0, buf).

Definition console_turn (_ : unit) : prog (unit + unit) :=
  fd ← call_ (c_open (chars "console") O_RDWR);
  if 0 <=? fd then
    if 3 <=? fd then sys (c_close fd);; mret (inr tt) else mret (inl tt)
  else mret (inr tt).

(** [buf[strlen(buf)-1] = 0] *)
Definition chop (buf : list Z) : list Z := <[(length (before_nul buf) - 1)%nat := 0]> buf.
Definition command_turn (buf : list Z) : prog (list Z + unit) :=
  '(r, buf) ← getcmd buf;
  if r <? 0 then mret (inr tt) else
  if (nth 0 buf 0 =? 99) && (nth 1 buf 0 =? 100) && (nth 2 buf 0 =? 32) then
    let buf := chop buf in
    r ← call_ (c_chdir (before_nul (drop 3 buf)));
    (if r <? 0 then uprintf 2 (msg "cannot cd %s") [AStr (before_nul (drop 3 buf))] else mret tt);;
    mret (inl buf)
  else
    pid ← fork1;
    (if pid =? 0 then run_line (before_nul buf) else mret tt);;
    sys c_wait;;
    mret (inl buf).
Definition main : prog unit :=
  ITree.iter console_turn tt;;
  ITree.iter command_turn (replicate (Z.to_nat NBUF) 0);;
  exit.

(** ** A session *)

(** A line typed at the prompt: no newline, NUL or return in it, and short
    enough for [buf]. *)
Definition line_ok (line : list Z) : Prop :=
  Forall (fun c => c <> 0 /\ c <> 10 /\ c <> 13) line /\ Z.of_nat (length line) + 1 < NBUF.
Definition is_cd (line : list Z) : bool := bool_decide (take 3 line = [99; 100; 32]).
Definition prompt : list Z := chars "$ ".
Definition typed (line : list Z) : list ans := echoes prompt ++ keys (line ++ [10]).
Definition reads (line : list Z) : list call := writes 2 prompt ++ replicate (S (length line)) (c_read 0 1).
Definition in_buf (line : list Z) : list Z := line ++ 10 :: 0 :: replicate (Z.to_nat NBUF - (length line + 2)) 0.

Lemma getcmd_runs buf line s : line_ok line -> runs (getcmd buf) (typed line ++ s) (reads line) s (Returned (0, in_buf line)).
Proof.
  intros [Hl Hn]. unfold getcmd, typed, reads. rewrite <- app_assoc. eapply step_print; [constructor|reflexivity|apply length_echoes|].
  rewrite <- (app_nil_r (replicate (S (length line)) _)). eapply runs_bind.
  - apply gets_runs; [|done|by rewrite length_replicate]. eapply Forall_impl; [exact Hl|]. naive_solver.
  - rewrite drop_replicate. fold (in_buf line). destruct (Z.eqb_spec (nth 0 (in_buf line) 0) 0) as [E|E]; [|apply runs_mret].
    destruct line as [|c line]; [done|]. apply Forall_cons in Hl as [[? _] _]. done.
Qed.

Lemma cd_test line : line_ok line -> ((nth 0 (in_buf line) 0 =? 99) && (nth 1 (in_buf line) 0 =? 100) && (nth 2 (in_buf line) 0 =? 32)) = is_cd line.
Proof.
  intros _. unfold is_cd, in_buf. destruct line as [|a [|b [|c line]]]; cbn.
  - done.
  - rewrite bool_decide_eq_false_2 by discriminate. by destruct (a =? 99).
  - rewrite bool_decide_eq_false_2 by discriminate. apply andb_false_r.
  - destruct (Z.eqb_spec a 99) as [->|Ha], (Z.eqb_spec b 100) as [->|Hb], (Z.eqb_spec c 32) as [->|Hc]; cbn; symmetry;
      (rewrite bool_decide_eq_true_2 by done; done) || (apply bool_decide_eq_false_2; congruence).
Qed.

Lemma before_nul_app l r : no_nul l -> before_nul (l ++ 0 :: r) = l.
Proof. induction 1 as [|c l Hc _ IH]; [done|]. cbn [app before_nul]. by rewrite (proj2 (Z.eqb_neq _ _) Hc), IH. Qed.
Lemma line_no_nul line : line_ok line -> no_nul line /\ no_nul (line ++ [10]).
Proof.
  intros [Hl _]. assert (no_nul line) by (eapply Forall_impl; [exact Hl|naive_solver]). split; [done|]. apply Forall_app. split; [done|by repeat constructor].
Qed.
Lemma string_in_buf line : line_ok line -> before_nul (in_buf line) = line ++ [10].
Proof.
  intros Hl. unfold in_buf. change (line ++ 10 :: 0 :: ?r) with (line ++ [10] ++ 0 :: r). rewrite app_assoc. apply before_nul_app. by apply line_no_nul.
Qed.
Lemma chopped line : line_ok line -> (3 <= length line)%nat -> before_nul (drop 3 (chop (in_buf line))) = drop 3 line.
Proof.
  intros Hl H3. unfold chop. rewrite string_in_buf by done. rewrite length_app. cbn [length]. replace (length line + 1 - 1)%nat with (length line + 0)%nat by lia.
  unfold in_buf. rewrite insert_app_r. change (<[0%nat := 0]> (10 :: ?r)) with (0 :: r). rewrite drop_app_le by done. apply before_nul_app.
  apply Forall_drop. by apply line_no_nul.
Qed.

(** A line, the answer to its [chdir] or [fork], and the answer to its [wait]:
    [chdir] may fail, a fork that returns gives a pid, and [wait] may return any
    child. *)
Definition served : Type := list Z * Z * Z.
Definition served_ok (x : served) : Prop := line_ok x.1.1 /\ (is_cd x.1.1 = false -> 0 < x.1.2).
Definition cannot_cd (line : list Z) : list Z := chars "cannot cd " ++ drop 3 line ++ [10].
(** The answers of the kernel and the calls of the shell. *)
Definition serve_answers (x : served) : list ans :=
  let '(line, r, w) := x in
  typed line ++ (if is_cd line then (r, []) :: (if r <? 0 then echoes (cannot_cd line) else []) else [(r, []); (w, [])]).
Definition serve_calls (x : served) : list call :=
  let '(line, r, w) := x in
  reads line ++ (if is_cd line then c_chdir (drop 3 line) :: (if r <? 0 then writes 2 (cannot_cd line) else []) else [c_fork; c_wait]).

(** What ends the shell: no character to read at the prompt, a line that starts
    with NUL, or a line whose fork fails. *)
Inductive ending :=
| Eof (r : Z)
| Nul_line (rest : list Z)
| No_fork (line : list Z).
Definition ending_ok (e : ending) : Prop :=
  match e with
  | Eof r => r < 1
  | Nul_line rest => Forall (fun c => c <> 10 /\ c <> 13) rest /\ Z.of_nat (length rest) + 2 < NBUF
  | No_fork line => line_ok line /\ is_cd line = false
  end.
Definition end_answers (e : ending) : list ans :=
  match e with
  | Eof r => echoes prompt ++ [(r, [])]
  | Nul_line rest => typed (0 :: rest)
  | No_fork line => typed line ++ (-1, []) :: echoes (msg "fork")
  end.
Definition end_calls (e : ending) : list call :=
  match e with
  | Eof _ => writes 2 prompt ++ [c_read 0 1]
  | Nul_line rest => reads (0 :: rest)
  | No_fork line => reads line ++ c_fork :: writes 2 (msg "fork")
  end.

Lemma command_runs x buf s : served_ok x -> exists buf', runs (command_turn buf) (serve_answers x ++ s) (serve_calls x) s (Returned (inl buf')).
Proof.
  destruct x as [[line r] w]. intros [Hl Hp]. cbn [fst snd] in *. unfold command_turn, serve_answers, serve_calls. rewrite <- app_assoc.
  destruct (is_cd line) eqn:Ec; (eexists; eapply runs_bind; [by apply getcmd_runs|]); cbv iota beta; change (0 <? 0) with false; cbv iota; rewrite cd_test, Ec by done.
  - rewrite chopped; [|done|apply bool_decide_eq_true in Ec; apply (f_equal length) in Ec; rewrite length_take in Ec; change (length [99; 100; 32]) with 3%nat in Ec; lia].
    eapply step_call. cbn [fst]. destruct (r <? 0); [|apply step_ret, runs_mret].
    rewrite <- (app_nil_r (writes _ _)). eapply step_print; [|reflexivity|apply length_echoes|apply runs_mret].
    repeat constructor. apply Forall_drop. by apply line_no_nul.
  - specialize (Hp eq_refl). unfold fork1. eapply (runs_bind _ _ _ [c_fork]); [eapply step_call; cbn [fst]; rewrite (proj2 (Z.eqb_neq r (-1))) by lia; apply runs_mret|].
    rewrite (proj2 (Z.eqb_neq r 0)) by lia. apply step_ret. eapply step_sys, runs_mret.
Qed.

Lemma nul_line_runs rest buf s : ending_ok (Nul_line rest) -> runs (command_turn buf) (typed (0 :: rest) ++ s) (reads (0 :: rest)) s (Returned (inr tt)).
Proof.
  intros [Hr Hn]. unfold command_turn. rewrite <- (app_nil_r (reads _)). eapply (runs_bind _ _ _ _ _ (-1, in_buf (0 :: rest))); [|apply runs_mret].
  unfold getcmd, typed, reads. rewrite <- app_assoc. eapply step_print; [constructor|reflexivity|apply length_echoes|].
  rewrite <- (app_nil_r (replicate (S _) _)). eapply runs_bind; [apply gets_runs; [by constructor|simpl length; lia|by rewrite length_replicate]|].
  rewrite drop_replicate. apply runs_mret.
Qed.
Lemma eof_runs r buf : r < 1 -> runs (command_turn buf) (echoes prompt ++ [(r, [])]) (writes 2 prompt ++ [c_read 0 1]) [] (Returned (inr tt)).
Proof.
  intros Hr. unfold command_turn. rewrite <- (app_nil_r (_ ++ [c_read 0 1])). eapply (runs_bind _ _ _ _ _ (-1, replicate (Z.to_nat NBUF) 0)); [|apply runs_mret].
  unfold getcmd. eapply step_print; [constructor|reflexivity|apply length_echoes|].
  change [c_read 0 1] with ([c_read 0 1] ++ []). eapply (runs_bind _ _ _ _ _ (replicate (Z.to_nat NBUF) 0)); [|apply runs_mret].
  unfold gets. change [c_read 0 1] with ([c_read 0 1] ++ []). eapply (runs_bind _ _ _ _ _ (replicate (Z.to_nat NBUF) 0, 0)); [|apply runs_mret].
  apply runs_iter_last. unfold gets_turn. change (0 + 1 <? NBUF) with true. cbv iota. eapply step_sys. cbn [fst].
  rewrite (proj2 (Z.ltb_lt r 1)) by done. apply runs_mret.
Qed.
Lemma no_fork_runs line buf : ending_ok (No_fork line) -> runs (command_turn buf) (end_answers (No_fork line)) (end_calls (No_fork line)) [] Exited.
Proof.
  intros [Hl Ec]. unfold command_turn. cbn [end_answers end_calls]. eapply runs_bind; [by apply getcmd_runs|]. cbv iota beta. change (0 <? 0) with false. cbv iota. rewrite cd_test, Ec by done.
  apply (runs_stop _ _ _ _ _ Exited); [|done]. unfold fork1. eapply step_call. cbn [fst]. change (-1 =? -1) with true. cbv iota. unfold panic.
  rewrite <- (app_nil_r (echoes _)). eapply print_exit; [by repeat constructor|reflexivity|apply length_echoes].
Qed.
(** The loop returns to [main], which exits, or exits itself. *)
Definition ended (e : ending) : outcome unit := match e with No_fork _ => Exited | _ => Returned tt end.
Lemma ending_runs e buf : ending_ok e -> runs (ITree.iter command_turn buf) (end_answers e) (end_calls e) [] (ended e).
Proof.
  intros He. destruct e as [r|rest|line]; cbn [ended].
  - apply runs_iter_last. by apply eof_runs.
  - apply runs_iter_last. rewrite <- (app_nil_r (end_answers _)). by apply nul_line_runs.
  - eapply runs_iter_stop; [by apply no_fork_runs|done].
Qed.

Lemma session_runs lines e : Forall served_ok lines -> ending_ok e -> forall buf,
  runs (ITree.iter command_turn buf) (mjoin (serve_answers <$> lines) ++ end_answers e) (mjoin (serve_calls <$> lines) ++ end_calls e) [] (ended e).
Proof.
  intros Hl He. induction Hl as [|x lines Hx _ IH]; intros buf; [by apply ending_runs|].
  destruct (command_runs x buf (mjoin (serve_answers <$> lines) ++ end_answers e) Hx) as [buf' H].
  change (mjoin (serve_answers <$> x :: lines)) with (serve_answers x ++ mjoin (serve_answers <$> lines)).
  change (mjoin (serve_calls <$> x :: lines)) with (serve_calls x ++ mjoin (serve_calls <$> lines)). rewrite <- !app_assoc.
  eapply runs_iter; [exact H|apply IH].
Qed.

(** The descriptors [open] gives for the console: those below 3 are kept. *)
Definition console_calls (low : list Z) (fd : Z) : list call :=
  replicate (S (length low)) (c_open (chars "console") O_RDWR) ++ (if 0 <=? fd then [c_close fd] else []).
Definition console_answers (low : list Z) (fd : Z) : list ans :=
  ((fun d => (d, [])) <$> low ++ [fd]) ++ (if 0 <=? fd then [(0, [])] else []).
Lemma console_runs low fd s : Forall (fun d => 0 <= d < 3) low -> ~ 0 <= fd < 3 ->
  runs (ITree.iter console_turn tt) (console_answers low fd ++ s) (console_calls low fd) s (Returned tt).
Proof.
  intros Hl Hfd. unfold console_answers, console_calls. induction Hl as [|d low Hd _ IH].
  - apply runs_iter_last. unfold console_turn. eapply step_call. cbn [fst].
    destruct (Z.leb_spec 0 fd); [|apply runs_mret]. rewrite (proj2 (Z.leb_le 3 fd)) by lia. eapply step_sys, runs_mret.
  - eapply (runs_iter _ _ _ [c_open (chars "console") O_RDWR]); [|exact IH]. unfold console_turn. eapply step_call. cbn [fst].
    rewrite (proj2 (Z.leb_le 0 d)), (proj2 (Z.leb_gt 3 d)) by lia. apply runs_mret.
Qed.

(** C36.  The shell serves its lines until something ends it.  It opens the
    console until it gets a descriptor above the three standard ones, which it
    closes, or none.  For lines shorter
    than 99 characters, without NUL or carriage return, it then does exactly
    this for each: it prompts, reads the line to its end, and for [cd] changes
    its own directory, with a message if that fails, and for any other line
    forks, with success, and waits once.  It exits after a line whose fork
    fails, after a line that starts with NUL, or when there is nothing to read
    at the prompt, and after no other line.  The child of a line does what
    [runcmd] does for the line, and nothing more. *)
Theorem shell_serves low fd lines e : Forall (fun d => 0 <= d < 3) low -> ~ 0 <= fd < 3 -> Forall served_ok lines -> ending_ok e ->
  runs main (console_answers low fd ++ mjoin (serve_answers <$> lines) ++ end_answers e)
    (console_calls low fd ++ mjoin (serve_calls <$> lines) ++ end_calls e) [] Exited /\
  Forall (fun x => is_cd x.1.1 = false -> forall buf s l s' o o', runs (run_line (x.1.1 ++ [10])) s l s' o -> stop o = Some o' ->
    runs (command_turn buf) (typed x.1.1 ++ (0, []) :: s) (reads x.1.1 ++ c_fork :: l) s' o') lines.
Proof.
  intros Hlow Hfd Hl He. split.
  - unfold main. eapply runs_bind; [by apply console_runs|]. pose proof (session_runs lines e Hl He (replicate (Z.to_nat NBUF) 0)) as H.
    destruct e; [by eapply then_exit|by eapply then_exit|by eapply runs_stop].
  - eapply Forall_impl; [exact Hl|]. intros [[line r] w] [Hk _] Ec buf s l s' o o' H Ho. cbn [fst snd] in *. unfold command_turn.
    eapply runs_bind; [by apply getcmd_runs|]. cbv iota beta. change (0 <? 0) with false. cbv iota. rewrite cd_test, Ec, string_in_buf by done.
    unfold fork1. eapply (runs_bind _ _ _ [c_fork]); [eapply step_call, runs_mret|]. cbn [fst]. change (0 =? 0) with true. cbv iota.
    by eapply runs_stop.
Qed.

(** A change of directory that fails, a command, and a fork that fails. *)
Definition demo_lines : list served := [(chars "cd d", -1, 0); (chars "ls", 5, 5)].
Lemma shell_serves_witness :
  runs main (console_answers [0; 1; 2] 3 ++ mjoin (serve_answers <$> demo_lines) ++ end_answers (No_fork (chars "wc")))
    (console_calls [0; 1; 2] 3 ++ mjoin (serve_calls <$> demo_lines) ++ end_calls (No_fork (chars "wc"))) [] Exited.
Proof.
  apply (proj1 (shell_serves [0; 1; 2] 3 demo_lines (No_fork (chars "wc")) ltac:(repeat constructor; lia) ltac:(lia)
    ltac:(repeat constructor; discriminate) ltac:(repeat constructor; discriminate))).
Defined.

(** The line "ls" by its child: the program is executed with its name. *)
Example child_of_ls : runs (run_line (chars "ls" ++ [10])) [] [c_exec (chars "ls") [chars "ls"]] [] Waiting.
Proof. apply (play_runs 50). vm_compute. reflexivity. Qed.
End Shell.
